(* ===== verification/_CoqProject ===== *)
-Q . S2P
Prelude.v
PyTime.v
PyText.v
PyUuid.v
PyFloat.v
PlannerModels.v
PlannerScoring.v
PlannerPlacement.v
PlannerExplanation.v
PlannerProjection.v
Planner.v
PlannerSpec.v
Transactions.v
Consumption.v
Enrollment.v
Authority.v
AuthoritySpec.v
Leases.v
AuditLedger.v
Calendar.v
CalendarSandbox.v
CalendarSpec.v
CalendarApply.v
CalendarSync.v
Goals.v
Conversation.v
Voice.v
VoiceSession.v
VoiceSpec.v
VoiceScenarios.v
Knowledge.v
Memory.v
MemoryCodec.v
MemorySpec.v
LifeModel.v
PyRe.v
RoutineText.v
InterviewCatalog.v
Interview.v
InterviewSpec.v
InterviewStore.v
InterviewScenarios.v
WeekPlanning.v
WeekPlanningSpec.v
WeekPlanningStore.v
DomainRecords.v
DomainRepository.v
DomainSpec.v
WeekExecution.v
WeekExecutionSpec.v
WeekExecutionScenarios.v
Learning.v
LearningSpec.v
LearningStore.v
LearningGovernance.v
LearningScenarios.v
Energy.v
EnergyReplan.v
OpenClaw.v
Channels.v
ChannelsSpec.v
ChannelsLiveness.v
RelayStore.v
RelaySpec.v
RelayHistory.v
RelayApi.v
RelayApiSpec.v
PyUrl.v
Commander.v
Workers.v
CommanderSpec.v
WorkersSpec.v
KnowledgeCommands.v
ConversationTurn.v
RelayServices.v
RelayServicesSpec.v
Slice.v
SliceSpec.v
Cell.v
CellSpec.v
