(* ===== verification/Prelude.v ===== *)
(** * LifeOS secretary service: a verification of its core

    The program is a personal secretary that runs on the user's machine
    ([src/mac/secretary_service/src/secretary_service]).  It plans days and
    weeks, keeps what it knows about the user as governed memory, interviews the
    user to fill the gaps, holds voice and text conversations, learns from
    outcomes, delegates work to sandboxed workers, and acts on the user's
    calendar only under approvals signed by an enrolled device.  State lives in
    an encrypted SQLite file, or in one PostgreSQL cell per user; every change is
    audited in a hash chain.  Devices reach it through a relay of signed
    requests.

    ** Parts of the program and the files that model them

    - Language and library.  [Prelude] has the result type of code that may
      raise, the state-and-error monad [comp], ordered dictionaries and stable
      sorting; [PyTime] datetimes in microseconds with zones, offsets and ISO
      texts; [PyText] text, JSON strings, hex; [PyUuid] UUIDs; [PyFloat] doubles as
      the rationals they stand for, correctly rounded; [PyRe] strings as code
      points and a backtracking matcher for regular expressions; [PyUrl] the
      parts of [urlsplit] in use.
    - Planner ([planner*.py]).  [PlannerModels] requests and their validation,
      [PlannerScoring] scores, [PlannerPlacement] the fixed reservations and the
      minute scan that places flexible activities, [PlannerExplanation] the
      blocks of a plan and its explanations, [PlannerProjection] the calendar
      projection and the diff of plans, [Planner] the entry points, and
      [PlannerSpec] what they guarantee.
    - Storage ([transactions.py]).  [Transactions] models a connection by its
      live and durable contents, nested blocks with savepoints, and a logic
      [upholds] of invariants that blocks keep.
    - Authority ([authority.py], [authority_consumption.py], [enrollment.py],
      [device_persistence.py], [leases.py]).  [Consumption] the one-time keys, in
      memory and in the encrypted table, behind one class; [Enrollment] devices;
      [Authority] the approval matrix and the proposal lifecycle;
      [AuthoritySpec] its guarantees; [Leases] signed capability leases.
    - Audit ([audit.py], [ledger.py]).  [AuditLedger] the chain, its pruning and
      its verification.
    - Calendar ([google_calendar*.py]).  [Calendar] payloads, operations and the
      adapter, [CalendarSandbox] the provider used in tests, [CalendarSpec],
      [CalendarApply] and [CalendarSync] what applying, rolling back and
      synchronising guarantee.
    - Goals ([goals.py]).  [Goals] the goal graph and the lineage of tasks.
    - Conversations ([conversation_api.py]).  [Conversation] the event journal.
    - Voice ([voice/*.py]).  [Voice] privacy, keys, tokens, transcripts and the
      provider seam; [VoiceSession] the session state machine; [VoiceSpec] its
      invariants; [VoiceScenarios] concrete runs.
    - Governed memory ([life_knowledge.py], [memory/legacy.py],
      [memory_repository.py]).  [Knowledge] the assertions and their validators,
      [Memory] the repository, [MemoryCodec] a text form of records for concrete
      runs, [MemorySpec] guarantees and runs; [KnowledgeCommands]
      ([knowledge_commands.py]) what the user sees and may change.
    - Life Model ([life_model.py]).  [LifeModel] views, contradictions and the
      planning projection, with their guarantees.
    - Interview ([life_interview.py], [interview_catalog.py]).  [RoutineText] the
      extraction of routines from text, [InterviewCatalog] the topics,
      [Interview] the interview itself, [InterviewSpec] its questions and
      reviews, [InterviewStore] what its steps do to the store,
      [InterviewScenarios] an interview step by step.
    - Weekly planning ([week_planning.py]).  [WeekPlanning] maps knowledge to
      activities and gaps and plans the week, [WeekPlanningSpec] the sessions and
      the accounting, [WeekPlanningStore] its composition with the interview and
      the planner, with planned weeks.
    - Domain store ([models.py], [domain_repository.py], [storage.py],
      [persistence.py]).  [DomainRecords] the records and their validators,
      [DomainRepository] the encrypted state and the operations of the
      repository, [DomainSpec] the abstract store of version histories it
      implements, and runs.
    - Execution of a week ([week_planning.py], [durable_calendar.py]).
      [WeekExecution] proposes a planned week, approves and applies it, and
      recovers an apply that was interrupted, over the store, the leases and the
      provider together; [WeekExecutionSpec] when the provider may change;
      [WeekExecutionScenarios] a week from its proposal to its recovery.
    - Tomorrow slice ([slice/*.py]).  [Slice] captures, interpretation, stored
      proposals, application and rollback; [SliceSpec] its guarantees and runs.
    - Learning ([learning/*.py]).  [Learning] observations and the confidence of
      proposals, [LearningSpec] that computation, [LearningStore] the repository,
      [LearningGovernance] which lessons may be routed, [LearningScenarios] runs.
    - Energy ([energy/*.py]).  [Energy] check-ins, patterns and their policy;
      [EnergyReplan] what a pattern may change in a plan.
    - Delegation ([commander/*.py], [workers/*.py]).  [Commander] requests,
      authorization and dispatch; [Workers] credential handles, the sandbox and
      the profiles; [CommanderSpec] and [WorkersSpec] their guarantees.
    - Text channels ([openclaw/*.py], [channels/*.py]).  [OpenClaw] bindings and
      the restricted adapter, [Channels] the relay of deliveries, [ChannelsSpec]
      and [ChannelsLiveness] how deliveries arrive.
    - Relay ([relay_store.py], [relay_auth.py], [relay_api.py]).  [RelayStore]
      conversations, batches and turns over their tables, [RelaySpec] the ordered
      streams they represent, [RelayHistory] histories of operations; [RelayApi]
      signed requests and the conversation routes, [RelayApiSpec] admission;
      [RelayServices] the routes to the other components through an interface,
      [RelayServicesSpec] what those routes may change.
    - Turns of the assistant ([conversation_turn.py], [capabilities/router.py]).
      [ConversationTurn] routing, the advisory agent, and turns that interleave
      with other requests.
    - Cloud cell ([postgres_store.py], [postgres_outbox.py],
      [postgres_devices.py], [cloud_crypto.py], [durable_calendar.py]).  [Cell]
      the sealed tables, units of work and the outbox of calendar jobs;
      [CellSpec] the histories it keeps and how jobs reach a worker.

    ** How the model follows the code

    A pydantic model is a record and a function that returns or raises what its
    validators do; an enumeration is an inductive type; a method that changes
    state is a [comp], which keeps the state reached when it raises.  A table is
    a finite map with its key, a statement a partial function on the tables, a
    [with transaction] block [domain_transaction].  Integers are unbounded, as in
    Python; where a range matters ([datetime], doubles, [int] of long texts) it
    is checked, or, in the planner, shown to be kept by requests that stay four
    days clear of its ends.  Times are microseconds; a datetime keeps its local
    time, offset and zone, because the code compares them in different ways.
    Two simplifications: the text of a time that is signed is a function of its
    instant, as the service's times are UTC, and the bounds on the length of a
    title count the characters of the model's strings, where Python counts code
    points.

    What the program calls but does not contain is a parameter: cryptography
    (HMAC, signatures, hashes), pydantic's JSON of a record (classes with the
    round-trip law as their only assumption), [uuid4] and nonces, clocks, the
    zone database, the calendar provider behind a class, and what Unicode says
    about code points beyond ASCII, the language model behind the interpreter and
    the advisory agent.  Each theorem that assumes a law of a
    parameter has a witness with a concrete instance.

    ** What the theorems show

    - Plans tile their window, respect dependencies, hard bounds and fixed
      intervals, account for every activity, and are found for every valid
      request that keeps clear of the ends of time; each flexible activity gets the best start; replaying a diff on
      the old plan gives the new one; projected calendar blocks are contiguous.
    - The two stores of one-time keys refine one another; revocation is
      permanent; consequential actions need a signature of an active device;
      no authorization is ever used twice; a lease verifies once.
    - Appending extends a ledger that verifies, and a verified ledger is
      determined by its length and last hash.
    - Whatever a provider answers, the adapter writes only into the calendar of
      the application, never a primary one, and deletes only what it marked;
      without faults applying installs the plan, rolling back removes exactly
      what the plan owns, and incremental synchronisation equals a full one.
    - Stored tasks have a complete lineage of goals; accepted conversation events
      are numbered without gaps; a device has one live voice session, barging in
      silences the turn, and resuming replays what was missed.
    - Memory keeps contiguous revisions, atomic audited changes, no lost updates,
      no reuse of what was forgotten, and no backup that could bring it back.
    - The planning projection holds a memory exactly when it is permitted, in
      force, known, fresh, confident and uncontradicted; contradictions stay
      visible and unplanned.
    - What is read from an answer is in range; questions about topics respect
      permissions and stop when skipped; reviews never widen an audience; the interview keeps the
      store readable, advances one revision at a time or not at all, and never
      plans what is not confirmed.
    - The request for a week has exactly the activities its routines ask for,
      everything else known is an explicit gap, and all of it stands on confirmed
      knowledge.
    - The domain repository reads and counts exactly what a store of version
      histories holds, and each operation is atomic and audited.
    - The provider changes only by applying the approved events of a stored week
      under an unused approval, or recovery proof, that the expected device
      signed; an approval that executed never executes again.  Through every route
      of the relay the same device signed the request and the approval or proof.
    - The slice recomputes a plan when it applies it, and applies what it showed.
    - Lessons are routed only after approval; check-ins respect the consent and
      the hours they were made under; replanning for energy keeps what is
      protected and reports all that changed.
    - Protected work runs only with an approval bound to the request; credential
      handles are used once; every run leaves complete evidence; the autopilot
      runs only approved rules.
    - Deliveries that waited in order for the service arrive, in order and once.
    - The relay takes a batch once and as a whole; a removed conversation leaves
      nothing but audit entries without content; a request identifier admits one request; what was acknowledged is
      read back; turns of the assistant are serialized on the history they saw.
    - In the cloud cell each approved proposal is handed to a worker at most once,
      while its approval is valid, and is handed out when nothing overtakes it.

    Where the code does not do what it says, a lemma next to the model shows it
    on a concrete input.

    ** Bounds and fuel

    Each fuel is large enough by construction, and the theorems that need it say
    so: the minute scan runs over the minutes between its bounds, the placement
    loop over the number of flexible activities, calendar writes over the
    configured attempts, claiming of jobs over one round per queued job and one
    more ([rounds_enough]), removal of a substring and matching over the length
    of the text (an iteration of a repetition consumes a character), and the
    reading of days over the length of the text ([extract_days_equation]).

    ** Not modelled

    - Backups, recovery and their catalog, key storage, knowledge import, and the
      memory providers over files and a service: encrypted archives, keychain
      calls and file formats.
    - Live calendar and model providers, Hermes, the relay's TLS adapter and the
      assembly of the applications, the HTTP routes and the language-model adapter
      of the slice, Telegram's transport, voice bridges and rehearsals: network
      and process glue whose behaviour is that of the services they call.
    - The PostgreSQL copy of the relay store, which repeats the modelled one; the
      migration between storage formats; opening and migrating the encrypted file;
      the canonical snapshot; rollout gates.
    - Scripts, generated contracts and the development harness. *)

From stdpp Require Import prelude base strings list gmap sorting pretty.
From Stdlib Require Import ZArith Lia.

(** ** Python results: a value or a raised exception *)

Inductive result (E A : Type) : Type :=
| Ok (a : A)
| Err (e : E).
Arguments Ok {E A} a.
Arguments Err {E A} e.

#[export] Instance result_eq_dec {E A} `{EqDecision E, EqDecision A} :
  EqDecision (result E A).
Proof. solve_decision. Defined.

Definition rbind {E A B : Type} (f : A → result E B) (m : result E A) : result E B :=
  match m with
  | Ok a => f a
  | Err e => Err e
  end.

Definition is_ok {E A : Type} (m : result E A) : bool :=
  match m with Ok _ => true | Err _ => false end.

Declare Scope py_scope.
Delimit Scope py_scope with py.

Notation "'let*' x ':=' m 'in' k" := (rbind (λ x, k) m)
  (at level 10, x binder, m at level 100, k at level 200, only parsing) : py_scope.

(** A guard that raises: [if c: raise e]. *)
Definition raise_if {E : Type} (c : bool) (e : E) : result E unit :=
  if c then Err e else Ok tt.

(** ** Stateful code that may raise

    A Python method that mutates state and may raise is a [comp]: the state
    survives an exception, as attributes written before a [raise] do. *)

Definition comp (S E A : Type) : Type := S → S * result E A.

#[export] Instance comp_ret {S E} : MRet (comp S E) := λ A a s, (s, Ok a).
#[export] Instance comp_bind {S E} : MBind (comp S E) := λ A B k m s,
  match m s with
  | (s', Ok a) => k a s'
  | (s', Err e) => (s', Err e)
  end.

Definition stateful {S E A : Type} (f : S → S * result E A) : comp S E A := f.
Definition throw {S E A : Type} (e : E) : comp S E A := λ s, (s, Err e).
Definition throw_if {S E : Type} (c : bool) (e : E) : comp S E unit :=
  λ s, (s, raise_if c e).
(** [try: m except e: h e] *)
Definition catch {S E A : Type} (m : comp S E A) (h : E → comp S E A) : comp S E A := λ s,
  match m s with
  | (s', Err e) => h e s'
  | r => r
  end.

Lemma bind_ok {S E A B} (m : comp S E A) (k : A → comp S E B) s s' a :
  m s = (s', Ok a) → (m ≫= k) s = k a s'.
Proof. intros Hm. unfold mbind, comp_bind. by rewrite Hm. Qed.

Lemma bind_err {S E A B} (m : comp S E A) (k : A → comp S E B) s s' e :
  m s = (s', Err e) → (m ≫= k) s = (s', Err e).
Proof. intros Hm. unfold mbind, comp_bind. by rewrite Hm. Qed.

Lemma bind_inv {S E A B} (m : comp S E A) (k : A → comp S E B) s s' b :
  (m ≫= k) s = (s', Ok b) → ∃ a s1, m s = (s1, Ok a) ∧ k a s1 = (s', Ok b).
Proof. unfold mbind, comp_bind. destruct (m s) as [s1 [a|e]]; [eauto|done]. Qed.

Lemma bind_run {S E A B} (m : comp S E A) (k : A → comp S E B) s :
  (m ≫= k) s = match m s with (s1, Ok a) => k a s1 | (s1, Err e) => (s1, Err e) end.
Proof. done. Qed.

Lemma catch_ok {S E A} (m : comp S E A) h s s' a :
  m s = (s', Ok a) → catch m h s = (s', Ok a).
Proof. intros Hm. unfold catch. by rewrite Hm. Qed.

Lemma throw_if_false {S E} (e : E) (s : S) : throw_if false e s = (s, Ok tt).
Proof. done. Qed.

(** ** Tactics of the development *)

Create HintDb lifeos discriminated.
Create Rewrite HintDb lifeos_rw.

(** Case analysis on the innermost scrutinee of a hypothesis. *)
Ltac case_in H :=
  match type of H with
  | context [match ?x with _ => _ end] => destruct x eqn:?
  end.

(** Unfold a chain of guards that ended in [Ok]. *)
Ltac run H :=
  unfold raise_if, rbind in H; repeat (case_in H; try discriminate H).

Ltac bool_to_prop :=
  repeat match goal with
  | H : andb _ _ = true |- _ => apply andb_true_iff in H as [? ?]
  | H : orb _ _ = false |- _ => apply orb_false_iff in H as [? ?]
  | H : negb _ = true |- _ => apply negb_true_iff in H
  | H : negb _ = false |- _ => apply negb_false_iff in H
  | H : Z.ltb _ _ = true |- _ => apply Z.ltb_lt in H
  | H : Z.ltb _ _ = false |- _ => apply Z.ltb_ge in H
  | H : Z.leb _ _ = true |- _ => apply Z.leb_le in H
  | H : Z.leb _ _ = false |- _ => apply Z.leb_gt in H
  | H : Z.eqb _ _ = true |- _ => apply Z.eqb_eq in H
  | H : Z.eqb _ _ = false |- _ => apply Z.eqb_neq in H
  | H : String.eqb _ _ = true |- _ => apply String.eqb_eq in H
  | H : String.eqb _ _ = false |- _ => apply String.eqb_neq in H
  | H : bool_decide _ = true |- _ => apply bool_decide_eq_true in H
  | H : bool_decide _ = false |- _ => apply bool_decide_eq_false in H
  end.

(** ** Chains of checks *)

Lemma raise_if_iff {E} b (e : E) : raise_if b e = Ok tt ↔ b = false.
Proof. by destruct b. Qed.

Lemma raise_if_ok {E} b (e : E) u : raise_if b e = Ok u → b = false.
Proof. by destruct b. Qed.

Lemma rbind_ok {E A B} (f : A → result E B) m b :
  rbind f m = Ok b → ∃ a, m = Ok a ∧ f a = Ok b.
Proof. destruct m; simpl; [eauto|done]. Qed.

Lemma rbind_unit_iff {E B} (f : unit → result E B) m b :
  rbind f m = Ok b ↔ m = Ok tt ∧ f tt = Ok b.
Proof. destruct m as [[]|]; simpl; [tauto|]. by split; [|intros []]. Qed.

Lemma rbind_unit_ok {E B} (f : unit → result E B) m b :
  rbind f m = Ok b → m = Ok tt ∧ f tt = Ok b.
Proof. by apply rbind_unit_iff. Qed.

(** Split a successful chain of validators into its checks. *)
Ltac unbind H :=
  repeat match type of H with
  | rbind _ _ = Ok _ =>
      let H1 := fresh "Hv" in apply rbind_unit_ok in H as [H1 H]; cbv beta in H
  end.

(** ** Python truthiness of an optional string: [value or fallback] *)

Definition str_or (o : option string) (d : string) : string :=
  match o with
  | Some s => if String.eqb s "" then d else s
  | None => d
  end.

(** ** [sorted(..., key=...)]: a stable insertion sort *)

Section py_sort.
Context {A : Type} (ltb : A → A → bool).

Fixpoint py_insert (x : A) (l : list A) : list A :=
  match l with
  | [] => [x]
  | y :: l' => if ltb y x then y :: py_insert x l' else x :: y :: l'
  end.

Definition py_sorted (l : list A) : list A := foldr py_insert [] l.

(** [min(l, key=...)]: the first least element. *)
Definition py_min (l : list A) : option A :=
  match l with
  | [] => None
  | x :: l' => Some (foldl (λ best y, if ltb y best then y else best) x l')
  end.

Definition not_after (x y : A) : Prop := ltb y x = false.

Lemma py_insert_perm x l : py_insert x l ≡ₚ x :: l.
Proof.
  induction l as [|y l IH]; simpl; [done|].
  destruct (ltb y x); [|done]. rewrite IH. apply Permutation_swap.
Qed.

Lemma py_sorted_perm l : py_sorted l ≡ₚ l.
Proof. induction l as [|x l IH]; simpl; [done|]. by rewrite py_insert_perm, IH. Qed.

(** What comes after every element goes to the end. *)
Lemma py_insert_last x l : (∀ y, y ∈ l → ltb y x = true) → py_insert x l = l ++ [x].
Proof.
  induction l as [|y l IH]; intros Hl; simpl; [done|].
  rewrite (Hl y) by set_solver. by rewrite IH by set_solver.
Qed.

Lemma elem_of_py_sorted x l : x ∈ py_sorted l ↔ x ∈ l.
Proof. by rewrite py_sorted_perm. Qed.

Section order.
Hypothesis ltb_asym : ∀ x y, ltb x y = true → ltb y x = false.
Hypothesis not_after_trans : ∀ x y z, not_after x y → not_after y z → not_after x z.

Lemma py_insert_sorted x l :
  StronglySorted not_after l → StronglySorted not_after (py_insert x l).
Proof.
  induction 1 as [|y l Hs IH Hy]; simpl; [by repeat constructor|].
  destruct (ltb y x) eqn:E.
  - constructor; [done|]. rewrite py_insert_perm. constructor; [|done].
    by apply ltb_asym.
  - constructor; [by constructor|]. constructor; [done|].
    eapply Forall_impl; [done|]. intros z Hz. eapply not_after_trans; done.
Qed.

Lemma py_sorted_strongly l : StronglySorted not_after (py_sorted l).
Proof. induction l; simpl; [constructor|]. by apply py_insert_sorted. Qed.
End order.

Lemma py_min_elem l m : py_min l = Some m → m ∈ l.
Proof.
  destruct l as [|x l]; [done|]. intros [= <-].
  assert (∀ l b, foldl (λ best y, if ltb y best then y else best) b l ∈ b :: l) as H.
  { clear. induction l as [|y l IH]; intros b; simpl; [set_solver|].
    specialize (IH (if ltb y b then y else b)). destruct (ltb y b); set_solver. }
  apply H.
Qed.

Lemma py_min_None l : py_min l = None ↔ l = [].
Proof. by destruct l. Qed.
End py_sort.

(** ** Generic list lemmas *)

Lemma list_filter_all {A} (P : A → Prop) `{∀ x, Decision (P x)} (l : list A) :
  Forall P l → filter P l = l.
Proof.
  induction 1 as [|x l Hx _ IH]; [done|]. by rewrite filter_cons_True, IH.
Qed.

Lemma Forall_filter {A} (P Q : A → Prop) `{∀ x, Decision (Q x)} (l : list A) :
  Forall P l → Forall P (filter Q l).
Proof.
  rewrite !Forall_forall. intros HP x [_ Hx]%list_elem_of_filter. by apply HP.
Qed.

Lemma NoDup_map_filter {A B} (f : A → B) (P : A → Prop) `{∀ x, Decision (P x)} (l : list A) :
  NoDup (map f l) → NoDup (map f (filter P l)).
Proof.
  induction l as [|x l IH]; simpl; [done|]. intros [Hx Hn]%NoDup_cons.
  rewrite filter_cons. case_decide; [|by apply IH]. simpl. apply NoDup_cons.
  split; [|by apply IH]. intros (y & Hy & Hin)%list_elem_of_fmap.
  apply list_elem_of_filter in Hin as [_ Hin]. apply Hx, list_elem_of_fmap. eauto.
Qed.

Lemma filter_split {A} (f : A → bool) (l : list A) :
  l ≡ₚ filter (λ x, f x = true) l ++ filter (λ x, f x = false) l.
Proof.
  induction l as [|x l IH]; [done|]. rewrite !filter_cons.
  destruct (f x) eqn:E; simpl.
  - by rewrite IH at 1.
  - rewrite IH at 1. by rewrite Permutation_middle.
Qed.

Lemma list_filter_map {A B} (f : A → B) (P : B → Prop) `{∀ x, Decision (P x)} (l : list A) :
  filter P (map f l) = map f (filter (λ x, P (f x)) l).
Proof.
  induction l as [|x l IH]; [done|]. simpl. rewrite !filter_cons.
  case_decide; simpl; by rewrite IH.
Qed.

(** Pairwise relations over a list, in any order of its elements. *)
Section pairwise.
Context {A : Type} (R : A → A → Prop).

Lemma pairwise_snoc l x :
  ForallOrdPairs R l → Forall (λ y, R y x) l → ForallOrdPairs R (l ++ [x]).
Proof.
  induction 1 as [|y l Hy _ IH]; simpl; intros Hx; [by repeat constructor|].
  apply Forall_cons in Hx as [Hyx Hx]. constructor; [|by apply IH].
  apply Forall_app. split; [done|by constructor].
Qed.

Lemma pairwise_app l1 l2 :
  ForallOrdPairs R (l1 ++ l2) ↔
  ForallOrdPairs R l1 ∧ ForallOrdPairs R l2 ∧ ∀ x y, x ∈ l1 → y ∈ l2 → R x y.
Proof.
  induction l1 as [|z l1 IH]; simpl.
  - split; [intros H; split_and!; [constructor|done|set_solver]|tauto].
  - split.
    + intros H. inversion_clear H as [|? ? Hz H']. apply IH in H' as (? & ? & Hc).
      apply Forall_app in Hz as [? Hz]. rewrite Forall_forall in Hz.
      split_and!; [by constructor|done|]. set_solver.
    + intros (H1 & H2 & Hc). inversion_clear H1 as [|? ? Hz H'].
      constructor; [|apply IH; set_solver].
      apply Forall_app; split; [done|]. apply Forall_forall. set_solver.
Qed.

Lemma pairwise_perm `{!Symmetric R} l1 l2 :
  l1 ≡ₚ l2 → ForallOrdPairs R l1 → ForallOrdPairs R l2.
Proof.
  induction 1 as [|x l1 l2 Hp IH|x y l|? ? ? _ IH1 _ IH2]; intros H; [done| | |eauto].
  - inversion_clear H as [|? ? Hx H']. constructor; [by rewrite <- Hp|eauto].
  - inversion_clear H as [|? ? Hy H']. inversion_clear H' as [|? ? Hx H''].
    apply Forall_cons in Hy as [Hyx Hy].
    constructor; [constructor; [by symmetry|done]|by constructor].
Qed.

Lemma pairwise_elem_of l x y :
  ForallOrdPairs R l → x ∈ l → y ∈ l → x = y ∨ R x y ∨ R y x.
Proof. rewrite !list_elem_of_In. intros H ??. edestruct (ForallOrdPairs_In H x y); naive_solver. Qed.
End pairwise.

(** ** Python dictionaries: insertion-ordered association lists *)

Section py_dict.
Context {K V : Type} `{EqDecision K}.

(** [d[k] = v]: an existing key keeps its position. *)
Fixpoint dict_set (k : K) (v : V) (d : list (K * V)) : list (K * V) :=
  match d with
  | [] => [(k, v)]
  | (k', v') :: d' =>
      if bool_decide (k = k') then (k, v) :: d' else (k', v') :: dict_set k v d'
  end.

(** [{k: v for ...}] *)
Definition dict_of (kvs : list (K * V)) : list (K * V) :=
  foldl (λ d kv, dict_set kv.1 kv.2 d) [] kvs.

Definition dict_get (k : K) (d : list (K * V)) : option V :=
  snd <$> List.find (λ kv, bool_decide (kv.1 = k)) d.

(** [del d[k]] *)
Definition dict_del (k : K) (d : list (K * V)) : list (K * V) :=
  filter (λ kv, kv.1 ≠ k) d.

Lemma dict_set_fresh k v d : k ∉ d.*1 → dict_set k v d = d ++ [(k, v)].
Proof.
  induction d as [|[k' v'] d IH]; simpl; [done|].
  rewrite not_elem_of_cons. intros [Hk Hd].
  rewrite bool_decide_eq_false_2 by done. by rewrite IH.
Qed.

Lemma dict_get_set k k' v d :
  dict_get k' (dict_set k v d) = if bool_decide (k = k') then Some v else dict_get k' d.
Proof.
  unfold dict_get. induction d as [|[k1 v1] d IH]; simpl; [by case_bool_decide|].
  destruct (bool_decide_reflect (k = k1)) as [<-|Hne]; simpl.
  - by case_bool_decide.
  - destruct (bool_decide_reflect (k1 = k')) as [->|?]; [|done].
    by rewrite (bool_decide_eq_false_2 (k = k')) by done.
Qed.

Lemma dict_get_is_Some k d : is_Some (dict_get k d) ↔ k ∈ d.*1.
Proof.
  unfold dict_get. induction d as [|[k1 v1] d IH]; simpl.
  - split; [intros [? ?]; done|by intros ?%elem_of_nil].
  - rewrite elem_of_cons. destruct (bool_decide_reflect (k1 = k)) as [->|?]; simpl; [|naive_solver].
    split; [by left|by eexists].
Qed.

Lemma dict_get_elem k v d : NoDup d.*1 → dict_get k d = Some v ↔ (k, v) ∈ d.
Proof.
  unfold dict_get. induction d as [|[k1 v1] d IH]; simpl; intros Hn; [split; [done|by intros ?%elem_of_nil]|].
  apply NoDup_cons in Hn as [Hk Hn]. rewrite elem_of_cons.
  destruct (bool_decide_reflect (k1 = k)) as [->|Hne]; simpl; rewrite ?(IH Hn).
  - split; [intros [= ->]; by left|]. intros [[= ->]|Hin]; [done|]. destruct Hk.
    apply list_elem_of_fmap. by exists (k, v).
  - split; [by right|]. intros [[= <- <-]|?]; done.
Qed.

Lemma dict_set_keys k v d : k ∈ d.*1 → (dict_set k v d).*1 = d.*1.
Proof.
  induction d as [|[k1 v1] d IH]; simpl; [by intros ?%elem_of_nil|].
  destruct (bool_decide_reflect (k = k1)) as [<-|Hne]; [done|].
  intros [?|Hk]%elem_of_cons; [done|]. rewrite fmap_cons. f_equal. by apply IH.
Qed.

Lemma dict_set_nodup k v d : NoDup d.*1 → NoDup (dict_set k v d).*1.
Proof.
  intros Hd. destruct (decide (k ∈ d.*1)) as [Hk|Hk]; [by rewrite dict_set_keys|].
  rewrite dict_set_fresh, fmap_app by done. apply NoDup_app. split_and!; [done| |apply NoDup_singleton].
  intros x Hx Hin%list_elem_of_singleton. by subst.
Qed.

Lemma dict_set_set k v w d : dict_set k v (dict_set k w d) = dict_set k v d.
Proof.
  induction d as [|[k1 v1] d IH]; simpl; [by rewrite bool_decide_true|].
  destruct (bool_decide_reflect (k = k1)) as [<-|Hne]; simpl; [by rewrite bool_decide_true|].
  rewrite bool_decide_false by done. by rewrite IH.
Qed.

Lemma dict_set_get k v d : dict_get k d = Some v → dict_set k v d = d.
Proof.
  unfold dict_get. induction d as [|[k1 v1] d IH]; simpl; [done|].
  destruct (bool_decide_reflect (k1 = k)) as [->|Hne]; simpl.
  - intros [= ->]. by rewrite bool_decide_true.
  - intros Hk. rewrite bool_decide_false by done. by rewrite (IH Hk).
Qed.

Lemma dict_of_app_nodup acc kvs :
  NoDup (acc.*1 ++ kvs.*1) → foldl (λ d kv, dict_set kv.1 kv.2 d) acc kvs = acc ++ kvs.
Proof.
  revert acc. induction kvs as [|[k v] kvs IH]; intros acc Hn; simpl;
    [by rewrite app_nil_r|].
  assert (k ∉ acc.*1) as Hk.
  { apply NoDup_app in Hn as (_ & Hd & _). intros Hin. apply (Hd k Hin). simpl. set_solver. }
  rewrite dict_set_fresh by done. rewrite IH.
  - by rewrite <- (assoc (++)).
  - rewrite fmap_app, <- (assoc (++)). done.
Qed.

(** With distinct keys a comprehension keeps its entries in order. *)
Lemma dict_of_nodup kvs : NoDup kvs.*1 → dict_of kvs = kvs.
Proof. intros. by apply (dict_of_app_nodup []). Qed.

Lemma dict_del_length k (d : list (K * V)) : k ∈ d.*1 → length (dict_del k d) < length d.
Proof.
  intros ([k' v] & -> & Hin)%list_elem_of_fmap.
  apply (length_filter_lt _ _ (k', v)); [done|]. simpl. naive_solver.
Qed.

Lemma dict_del_keys k d : NoDup d.*1 → k ∈ d.*1 → d.*1 ≡ₚ k :: (dict_del k d).*1.
Proof.
  induction d as [|[k' v] d IH]; intros Hn Hk; [by apply elem_of_nil in Hk|].
  apply NoDup_cons in Hn as [Hk' Hn]. unfold dict_del in *. rewrite filter_cons. simpl in *.
  case_decide as Hd; simpl.
  - apply elem_of_cons in Hk as [->|Hk]; [done|].
    rewrite (IH Hn Hk) at 1. apply Permutation_swap.
  - assert (k' = k) as -> by (destruct (decide (k' = k)); tauto).
    rewrite list_filter_all; [done|]. apply Forall_forall. intros [k0 v0] Hin Heq. simpl in Heq.
    apply Hk', list_elem_of_fmap. exists (k0, v0). by simpl.
Qed.

Lemma elem_of_dict_set k v d kv : kv ∈ dict_set k v d → kv = (k, v) ∨ kv ∈ d.
Proof.
  induction d as [|[k' v'] d IH]; simpl; [by intros ->%list_elem_of_singleton; left|].
  case_bool_decide; rewrite elem_of_cons; [intros [->|?]; set_solver|]. intros [->|?%IH]; set_solver.
Qed.

Lemma elem_of_dict_set_keys k v d x : x ∈ (dict_set k v d).*1 ↔ x = k ∨ x ∈ d.*1.
Proof.
  induction d as [|[k' v'] d IH]; simpl; [set_solver|].
  case_bool_decide as Hk; simpl; [subst; set_solver|]. rewrite !elem_of_cons, IH. tauto.
Qed.

Lemma elem_of_dict_del k d kv : kv ∈ dict_del k d ↔ kv.1 ≠ k ∧ kv ∈ d.
Proof. unfold dict_del. by rewrite list_elem_of_filter. Qed.

Lemma elem_of_dict_del_keys k d x : x ∈ (dict_del k d).*1 ↔ x ≠ k ∧ x ∈ d.*1.
Proof.
  rewrite !list_elem_of_fmap. split.
  - intros ([k' v'] & -> & [??]%elem_of_dict_del). eauto.
  - intros (Hne & [k' v'] & -> & Hin). exists (k', v'). by rewrite elem_of_dict_del.
Qed.
End py_dict.

(** ** String order: [sorted] on identifiers *)

Lemma string_ltb_leb s1 s2 : String.ltb s1 s2 = negb (String.leb s2 s1).
Proof.
  unfold String.ltb, String.leb. rewrite String.compare_antisym.
  by destruct (String.compare s2 s1).
Qed.

Lemma string_leb_le s1 s2 : String.leb s1 s2 = true ↔ String.le s1 s2.
Proof. unfold String.le. symmetry. apply Is_true_true. Qed.

Lemma string_ltb_irrefl s : String.ltb s s = false.
Proof.
  rewrite string_ltb_leb. destruct (String.leb_total s s) as [->| ->]; done.
Qed.

Lemma string_ltb_asym s1 s2 : String.ltb s1 s2 = true → String.ltb s2 s1 = false.
Proof.
  rewrite !string_ltb_leb. destruct (String.leb_total s1 s2) as [->| ->]; [done|].
  by destruct (String.leb s1 s2).
Qed.

Lemma string_not_after_trans s1 s2 s3 :
  not_after String.ltb s1 s2 → not_after String.ltb s2 s3 → not_after String.ltb s1 s3.
Proof.
  unfold not_after. rewrite !string_ltb_leb, !negb_false_iff, !string_leb_le. apply transitivity.
Qed.

Lemma string_ltb_total s1 s2 :
  String.ltb s1 s2 = false → String.ltb s2 s1 = false → s1 = s2.
Proof.
  rewrite !string_ltb_leb, !negb_false_iff. intros. by apply String.leb_antisym.
Qed.

(** ** Folds over a map *)

Lemma foldl_delete_lookup {A K V} `{Countable K} (key : A → K) (l : list A) (m : gmap K V) id :
  foldl (λ m c, delete (key c) m) m l !! id = if bool_decide (id ∈ map key l) then None else m !! id.
Proof.
  revert m. induction l as [|c l IH]; intros m; simpl; [done|].
  rewrite IH, lookup_delete. repeat case_bool_decide; repeat case_decide; set_solver.
Qed.

(** A fold of insertions whose key determines the value. *)
Lemma foldl_insert_lookup {A V} (key : A → string) (val : A → V) (l : list A)
    (m : gmap string V) id :
  (∀ c c', c ∈ l → c' ∈ l → key c = key c' → val c = val c') →
  (∀ c, c ∈ l → key c = id → foldl (λ m c, <[key c := val c]> m) m l !! id = Some (val c))
  ∧ (id ∉ map key l → foldl (λ m c, <[key c := val c]> m) m l !! id = m !! id).
Proof.
  revert m. induction l as [|c l IH]; intros m Hkv; simpl; [set_solver|].
  destruct (IH (<[key c := val c]> m)) as [IH1 IH2]; [set_solver|]. split.
  - intros c' Hc' Hk. destruct (decide (id ∈ map key l)) as [Hin|Hin].
    + apply list_elem_of_fmap in Hin as (c'' & Hk'' & Hc'').
      rewrite (IH1 c'' Hc'' (eq_sym Hk'')). f_equal. apply Hkv; [set_solver|done|congruence].
    + rewrite IH2 by done. apply elem_of_cons in Hc' as [->|Hc'].
      * rewrite Hk. apply lookup_insert_eq.
      * destruct Hin. apply list_elem_of_fmap. eauto.
  - intros Hin. rewrite IH2 by set_solver. apply lookup_insert_ne. set_solver.
Qed.

(** ** Boolean filters *)

Lemma filter_none {A} (f : A → bool) l : (∀ x, x ∈ l → f x = false) → List.filter f l = [].
Proof.
  induction l as [|x l IH]; intros Hl; simpl; [done|]. rewrite (Hl x) by set_solver.
  apply IH. set_solver.
Qed.

Lemma filter_every {A} (f : A → bool) l : (∀ x, x ∈ l → f x = true) → List.filter f l = l.
Proof.
  induction l as [|x l IH]; intros Hl; simpl; [done|]. rewrite (Hl x) by set_solver.
  f_equal. apply IH. set_solver.
Qed.

Lemma last_filter {A} (f : A → bool) l x :
  last (List.filter f l) = Some x →
  ∃ l1 l2, l = l1 ++ x :: l2 ∧ f x = true ∧ (∀ y, y ∈ l2 → f y = false).
Proof.
  induction l as [|y l IH] using rev_ind; [done|].
  rewrite List.filter_app. simpl. destruct (f y) eqn:Hy.
  - rewrite last_snoc. intros [= ->]. exists l, []. split_and!; [done|done|]. set_solver.
  - rewrite app_nil_r. intros (l1 & l2 & -> & Hx & Hl2)%IH. exists l1, (l2 ++ [y]).
    split_and!; [by rewrite <- app_assoc|done|]. set_solver.
Qed.
