(* ===== verification/PyTime.v ===== *)
(** * Aware datetimes, zones and ISO formatting

    The part of Python's [datetime] and [zoneinfo] that the service relies on.
    A [datetime] is the pair of its wall-clock fields (microseconds since
    1970-01-01T00:00 of the naive calendar) and its [utcoffset()]; the instant
    it denotes is their difference.  A [ZoneInfo] carries its transition list,
    the content of the system zone database, which is data the models receive
    and never fix.  Comparison follows [datetime.__eq__] and [__lt__]: two values
    that share one [ZoneInfo] compare by wall clock (the fold is ignored), any
    other two by instant, and [==] between different zones is false as soon as
    one of them lies in a repeated or skipped hour. *)

From S2P Require Import Prelude.
From stdpp Require Import prelude strings list pretty countable.
From Stdlib Require Import ZArith Lia.

Open Scope Z_scope.

Definition second : Z := 1000000.
Definition minute : Z := 60 * second.
Definition hour : Z := 60 * minute.
Definition day : Z := 24 * hour.

(** [timedelta(minutes=n)] *)
Definition minutes (n : Z) : Z := n * minute.

(** ** Zones *)

(** Transition list of a zone: at each instant, the offset that starts there. *)
Record tzdata := {
  tz_initial : Z;
  tz_transitions : list (Z * Z)
}.

#[export] Instance tzdata_eq_dec : EqDecision tzdata.
Proof. solve_decision. Defined.

Inductive tzinfo :=
| NoTz
| Offset (off : Z)
| ZoneInfo (key : string) (data : tzdata).

#[export] Instance tzinfo_eq_dec : EqDecision tzinfo.
Proof. solve_decision. Defined.

Fixpoint offset_after (cur : Z) (ts : list (Z * Z)) (utc : Z) : Z :=
  match ts with
  | [] => cur
  | (at_, off) :: ts' => if utc <? at_ then cur else offset_after off ts' utc
  end.

(** [utcoffset] of an instant in a zone. *)
Definition zone_offset (z : tzdata) (utc : Z) : Z :=
  offset_after (tz_initial z) (tz_transitions z) utc.

(** The wall-clock values whose offset depends on the fold: the ones inside a
    repeated or skipped interval of some transition. *)
Fixpoint fold_dependent_from (cur : Z) (ts : list (Z * Z)) (local : Z) : bool :=
  match ts with
  | [] => false
  | (at_, off) :: ts' =>
      ((at_ + Z.min cur off <=? local) && (local <? at_ + Z.max cur off))
      || fold_dependent_from off ts' local
  end.

Definition fold_dependent (z : tzdata) (local : Z) : bool :=
  fold_dependent_from (tz_initial z) (tz_transitions z) local.

(** ** Datetimes *)

Record datetime := mk_datetime {
  dt_local : Z;
  dt_offset : Z;
  dt_tz : tzinfo
}.

#[export] Instance datetime_eq_dec : EqDecision datetime.
Proof. solve_decision. Defined.

(** [value.astimezone(UTC)], as the instant it denotes. *)
Definition utc (d : datetime) : Z := dt_local d - dt_offset d.

(** A zone known by its key, as [ZoneInfo(key)] returns it. *)
Record zone := mk_zone { zone_key : string; zone_data : tzdata }.

(** [instant.astimezone(zone)] *)
Definition astimezone (z : zone) (t : Z) : datetime :=
  {| dt_local := t + zone_offset (zone_data z) t;
     dt_offset := zone_offset (zone_data z) t;
     dt_tz := ZoneInfo (zone_key z) (zone_data z) |}.

(** The offset of a wall-clock time: inside a transition the fold decides. *)
Fixpoint wall_offset_from (fold : bool) (cur : Z) (ts : list (Z * Z)) (local : Z) : Z :=
  match ts with
  | [] => cur
  | (at_, off) :: ts' =>
      if local <? at_ + (if fold then Z.min cur off else Z.max cur off) then cur
      else wall_offset_from fold off ts' local
  end.
Definition wall_offset (fold : bool) (z : tzdata) (local : Z) : Z :=
  wall_offset_from fold (tz_initial z) (tz_transitions z) local.

(** A wall-clock time in a zone. *)
Definition in_zone (z : zone) (fold : bool) (local : Z) : datetime :=
  {| dt_local := local; dt_offset := wall_offset fold (zone_data z) local;
     dt_tz := ZoneInfo (zone_key z) (zone_data z) |}.

(** [value.tzinfo is not None and value.utcoffset() is not None] *)
Definition aware (d : datetime) : bool :=
  match dt_tz d with NoTz => false | _ => true end.

(** Whether both operands share one [ZoneInfo] object (zones are cached by key). *)
Definition same_zone (a b : datetime) : bool :=
  match dt_tz a, dt_tz b with
  | ZoneInfo k _, ZoneInfo k' _ => String.eqb k k'
  | _, _ => false
  end.

Definition fold_sensitive (d : datetime) : bool :=
  match dt_tz d with
  | ZoneInfo _ z => fold_dependent z (dt_local d)
  | _ => false
  end.

(** [a == b] and [a < b] on aware datetimes. *)
Definition dt_eqb (a b : datetime) : bool :=
  if same_zone a b then dt_local a =? dt_local b
  else if fold_sensitive a || fold_sensitive b then false
  else utc a =? utc b.

Definition dt_ltb (a b : datetime) : bool :=
  if same_zone a b then dt_local a <? dt_local b else utc a <? utc b.

(** Whole minutes of a time difference: [int(delta.total_seconds() // 60)]. *)
Definition floor_minutes (delta : Z) : Z := delta / minute.

(** ** Calendar dates and [isoformat] *)

(** [value.date()] as a day number, and [date.weekday()] (Monday is 0). *)
Definition date_of (d : datetime) : Z := dt_local d / day.
Definition weekday (date : Z) : Z := (date + 3) mod 7.

(** Proleptic Gregorian year, month and day of a day number. *)
Definition civil (days : Z) : Z * Z * Z :=
  let z := days + 719468 in
  let era := z / 146097 in
  let doe := z - era * 146097 in
  let yoe := (doe - doe / 1460 + doe / 36524 - doe / 146096) / 365 in
  let doy := doe - (365 * yoe + yoe / 4 - yoe / 100) in
  let mp := (5 * doy + 2) / 153 in
  let d := doy - (153 * mp + 2) / 5 + 1 in
  let m := if mp <? 10 then mp + 3 else mp - 9 in
  (yoe + era * 400 + (if m <=? 2 then 1 else 0), m, d).

Fixpoint zeros (n : nat) : string :=
  match n with O => "" | S n' => "0" +:+ zeros n' end.

Definition pad (width : nat) (n : Z) : string :=
  let s := pretty n in zeros (width - String.length s)%nat +:+ s.

Definition date_isoformat (days : Z) : string :=
  let '(y, m, d) := civil days in
  pad 4 y +:+ "-" +:+ pad 2 m +:+ "-" +:+ pad 2 d.

Definition micro_suffix (us : Z) : string :=
  if us =? 0 then "" else "." +:+ pad 6 us.

Definition offset_isoformat (off : Z) : string :=
  let sign := if off <? 0 then "-" else "+" in
  let a := Z.abs off in
  let s := (a / second) mod 60 in
  let us := a mod second in
  sign +:+ pad 2 (a / hour) +:+ ":" +:+ pad 2 ((a / minute) mod 60)
  +:+ (if (s =? 0) && (us =? 0) then "" else ":" +:+ pad 2 s +:+ micro_suffix us).

(** [value.isoformat()] *)
Definition isoformat (d : datetime) : string :=
  let l := dt_local d in
  let t := l mod day in
  date_isoformat (l / day) +:+ "T" +:+ pad 2 (t / hour) +:+ ":"
  +:+ pad 2 ((t / minute) mod 60) +:+ ":" +:+ pad 2 ((t / second) mod 60)
  +:+ micro_suffix (t mod second)
  +:+ (match dt_tz d with NoTz => "" | _ => offset_isoformat (dt_offset d) end).

(** The same instant written in [UTC]. *)
Definition utc_datetime (t : Z) : datetime :=
  {| dt_local := t; dt_offset := 0; dt_tz := Offset 0 |}.

#[global] Arguments utc : simpl never.
#[global] Arguments astimezone : simpl never.
#[global] Arguments minutes : simpl never.

(** ** Facts used by every component *)

Lemma minute_pos : 0 < minute.
Proof. done. Qed.

Lemma minutes_nonneg n : 0 <= n → 0 <= minutes n.
Proof. unfold minutes, minute, second. lia. Qed.

Lemma utc_astimezone z t : utc (astimezone z t) = t.
Proof. unfold utc, astimezone; simpl. lia. Qed.

Lemma utc_utc_datetime t : utc (utc_datetime t) = t.
Proof. unfold utc, utc_datetime; simpl. lia. Qed.

#[export] Hint Rewrite utc_astimezone utc_utc_datetime : lifeos_rw.

Lemma dt_ltb_asym a b : dt_ltb a b = true → dt_ltb b a = false.
Proof.
  unfold dt_ltb, same_zone. destruct (dt_tz a), (dt_tz b); try rewrite (String.eqb_sym key0 key);
    try destruct (String.eqb key key0); rewrite Z.ltb_lt, Z.ltb_ge; lia.
Qed.

(** A floor of at least [n] minutes is an interval at least [n] minutes long. *)
Lemma floor_minutes_le n delta : n <= floor_minutes delta → minutes n <= delta.
Proof.
  unfold floor_minutes, minutes. intros H.
  pose proof (Z.mul_div_le delta minute minute_pos). pose proof minute_pos. nia.
Qed.

Lemma floor_minutes_minutes n : floor_minutes (minutes n) = n.
Proof. unfold floor_minutes, minutes. by apply Z.div_mul. Qed.

(** ** Formatting examples *)

Example isoformat_epoch : isoformat (utc_datetime 0) = "1970-01-01T00:00:00+00:00".
Proof. vm_compute. reflexivity. Qed.

Example isoformat_negative_offset :
  isoformat {| dt_local := 1772964000 * second; dt_offset := -4 * hour; dt_tz := Offset (-4 * hour) |}
  = "2026-03-08T10:00:00-04:00".
Proof. vm_compute. reflexivity. Qed.

Example weekday_epoch : weekday 0 = 3.
Proof. reflexivity. Qed.

Lemma dt_eqb_refl d : dt_eqb d d = true.
Proof.
  unfold dt_eqb, same_zone, fold_sensitive. destruct (dt_tz d); simpl; rewrite ?String.eqb_refl;
    apply Z.eqb_refl.
Qed.

(** ** Countability, for injective text forms *)

#[export] Instance tzdata_countable : Countable tzdata.
Proof.
  refine (inj_countable' (λ z, (tz_initial z, tz_transitions z))
            (λ '(b, t), Build_tzdata b t) _). by intros [].
Defined.

#[export] Instance tzinfo_countable : Countable tzinfo.
Proof.
  refine (inj_countable'
    (λ z, match z with NoTz => inl tt | Offset o => inr (inl o) | ZoneInfo k d => inr (inr (k, d)) end)
    (λ x, match x with inl _ => NoTz | inr (inl o) => Offset o | inr (inr (k, d)) => ZoneInfo k d end) _).
  by intros [].
Defined.

#[export] Instance datetime_countable : Countable datetime.
Proof.
  refine (inj_countable' (λ d, (dt_local d, dt_offset d, dt_tz d))
            (λ '(l, o, z), {| dt_local := l; dt_offset := o; dt_tz := z |}) _). by intros [].
Defined.
