(* ===== verification/PyText.v ===== *)
(** * Python text and bytes: joins, JSON strings and hexadecimal

    Strings and bytes are [string]; a character is a code point below 256.
    [json_string] is [json.dumps] of a [str] with [ensure_ascii], [fromhex] is
    [bytes.fromhex] and [join] is [str.join]. *)

From stdpp Require Import prelude base strings list pretty countable.
From Stdlib Require Import Ascii ZArith Lia.
From S2P Require Import Prelude.
#[local] Open Scope string_scope.

(** ** [sep.join(fields)] *)

Fixpoint join (sep : string) (fields : list string) : string :=
  match fields with
  | [] => ""
  | [f] => f
  | f :: rest => f +:+ sep +:+ join sep rest
  end.

(** The unit separator ["\x1f"]. *)
Definition unit_separator : string := String (ascii_of_nat 31) "".

(** ** JSON strings *)

Definition hex_digit (n : nat) : ascii :=
  ascii_of_nat (if Nat.ltb n 10 then 48 + n else 87 + n)%nat.

Definition hex_byte (c : ascii) : string :=
  let n := nat_of_ascii c in
  String (hex_digit (n / 16)) (String (hex_digit (n mod 16)) "").

(** One character between the quotes: the short escapes, the printable ASCII
    characters as they are, and [\u00XX] for the rest. *)
Definition json_char (c : ascii) : string :=
  let n := nat_of_ascii c in
  if Nat.eqb n 34 then String "\" (String (ascii_of_nat 34) "")
  else if Nat.eqb n 92 then "\\"
  else if Nat.eqb n 10 then "\n"
  else if Nat.eqb n 13 then "\r"
  else if Nat.eqb n 9 then "\t"
  else if Nat.eqb n 8 then "\b"
  else if Nat.eqb n 12 then "\f"
  else if andb (Nat.leb 32 n) (Nat.leb n 126) then String c ""
  else "\u00" +:+ hex_byte c.

Definition quote : string := String (ascii_of_nat 34) "".

Fixpoint json_chars (s : string) : string :=
  match s with
  | EmptyString => ""
  | String c s' => json_char c +:+ json_chars s'
  end.

Definition json_string (s : string) : string := quote +:+ json_chars s +:+ quote.

(** [None] or a string. *)
Definition json_opt (o : option string) : string :=
  match o with None => "null" | Some s => json_string s end.

(** *** A JSON string can be read back unambiguously *)

Fixpoint prefix_of (p s : string) : option string :=
  match p, s with
  | EmptyString, _ => Some s
  | String a p', String b s' => if Ascii.eqb a b then prefix_of p' s' else None
  | _, EmptyString => None
  end.

Lemma prefix_of_app p s : prefix_of p (p +:+ s) = Some s.
Proof. induction p as [|a p IH]; simpl; [done|]. by rewrite Ascii.eqb_refl. Qed.

Lemma prefix_of_longer p q s t : p +:+ s = q +:+ t →
  is_Some (prefix_of p q) ∨ is_Some (prefix_of q p).
Proof.
  revert q. induction p as [|a p IH]; intros [|b q] H; simpl; eauto.
  injection H as -> H. rewrite Ascii.eqb_refl. by apply IH.
Qed.

Definition all_ascii : list ascii := map ascii_of_nat (seq 0 256).

Lemma all_ascii_elem c : In c all_ascii.
Proof.
  apply in_map_iff. exists (nat_of_ascii c). split; [apply ascii_nat_embedding|].
  apply in_seq. pose proof (nat_ascii_bounded c). lia.
Qed.

(** No escape is a prefix of another, nor of the closing quote. *)
Definition escape_free (c : ascii) : bool :=
  (match prefix_of quote (json_char c), prefix_of (json_char c) quote with
   | None, None => true | _, _ => false end)
  && forallb (λ d, match prefix_of (json_char c) (json_char d) with
                   | Some _ => Ascii.eqb c d | None => true end) all_ascii.

Lemma escapes_prefix_free : forallb escape_free all_ascii = true.
Proof. vm_compute. reflexivity. Qed.

Lemma escape_alone c : escape_free c = true.
Proof. exact (proj1 (forallb_forall escape_free all_ascii) escapes_prefix_free c (all_ascii_elem c)). Qed.

Lemma json_char_prefix c d : is_Some (prefix_of (json_char c) (json_char d)) → c = d.
Proof.
  intros [r Hr]. pose proof (escape_alone c) as [_ H]%andb_true_iff.
  rewrite forallb_forall in H. specialize (H d (all_ascii_elem d)). rewrite Hr in H.
  by apply Ascii.eqb_eq.
Qed.

Lemma json_char_not_quote c s t : quote +:+ s ≠ json_char c +:+ t.
Proof.
  intros Heq. apply prefix_of_longer in Heq. pose proof (escape_alone c) as [H _]%andb_true_iff.
  by destruct (prefix_of quote _), (prefix_of _ quote); destruct Heq as [[]|[]].
Qed.

Lemma append_inj_l p (s t : string) : p +:+ s = p +:+ t → s = t.
Proof. induction p; simpl; [done|]. intros H. injection H. auto. Qed.

Lemma json_char_inj c d s t : json_char c +:+ s = json_char d +:+ t → c = d ∧ s = t.
Proof.
  intros H. assert (c = d) as ->.
  { destruct (prefix_of_longer _ _ _ _ H) as [Hp|Hp]; [|symmetry]; by apply json_char_prefix. }
  split; [done|]. by apply append_inj_l in H.
Qed.

Lemma string_app_assoc (a b c : string) : (a +:+ b) +:+ c = a +:+ b +:+ c.
Proof. induction a as [|x a IH]; [done|]. exact (f_equal (String x) IH). Qed.

Lemma string_app_nil_l (s : string) : "" +:+ s = s.
Proof. done. Qed.

Lemma json_chars_inj s t r r' :
  json_chars s +:+ quote +:+ r = json_chars t +:+ quote +:+ r' → s = t ∧ r = r'.
Proof.
  revert t. induction s as [|c s IH]; intros [|d t]; cbn [json_chars];
    rewrite ?string_app_assoc, ?string_app_nil_l.
  - intros H. by apply append_inj_l in H.
  - intros H. by apply json_char_not_quote in H.
  - intros H. symmetry in H. by apply json_char_not_quote in H.
  - intros H. apply json_char_inj in H as [-> H]. by apply IH in H as [-> ->].
Qed.

Lemma json_string_inj s t r r' :
  json_string s +:+ r = json_string t +:+ r' → s = t ∧ r = r'.
Proof.
  unfold json_string. rewrite !string_app_assoc. intros H.
  apply append_inj_l in H. by apply json_chars_inj in H.
Qed.

Lemma json_opt_inj o p r r' : json_opt o +:+ r = json_opt p +:+ r' → o = p ∧ r = r'.
Proof.
  destruct o, p; simpl.
  - intros H. by apply json_string_inj in H as [-> ->].
  - discriminate.
  - discriminate.
  - intros H. by injection H.
Qed.

(** One member of a JSON object. *)
Definition json_field (kv : string * string) : string := json_string kv.1 +:+ ":" +:+ kv.2.

Lemma json_field_inj k v w r r' :
  json_field (k, v) +:+ r = json_field (k, w) +:+ r' → v +:+ r = w +:+ r'.
Proof.
  unfold json_field. simpl. rewrite !string_app_assoc. intros H.
  by apply append_inj_l, append_inj_l in H.
Qed.

(** ** Splitting at a separator that the fields do not contain *)

Fixpoint free_of (c : ascii) (s : string) : bool :=
  match s with
  | EmptyString => true
  | String d s' => negb (Ascii.eqb d c) && free_of c s'
  end.

Lemma free_of_split c p q x y :
  free_of c p = true → free_of c q = true →
  p +:+ String c x = q +:+ String c y → p = q ∧ x = y.
Proof.
  revert q. induction p as [|d p IH]; intros [|e q] Hp Hq Heq.
  - by injection Heq.
  - injection Heq as <- _. simpl in Hq. by rewrite Ascii.eqb_refl in Hq.
  - injection Heq as -> _. simpl in Hp. by rewrite Ascii.eqb_refl in Hp.
  - injection Heq as <- Heq. simpl in *. bool_to_prop. destruct (IH q) as [-> ->]; auto.
Qed.

Lemma free_of_app c p q x : free_of c p = true → p ≠ q +:+ String c x.
Proof.
  revert q. induction p as [|d p IH]; intros [|e q] Hp Heq; try discriminate Heq.
  - injection Heq as -> _. simpl in Hp. by rewrite Ascii.eqb_refl in Hp.
  - injection Heq as -> Heq. simpl in *. bool_to_prop. by eapply IH.
Qed.

(** One separator splits a text in one way. *)
Lemma free_of_split_once c p q x y :
  free_of c q = true → free_of c y = true →
  p +:+ String c x = q +:+ String c y → p = q ∧ x = y.
Proof.
  revert p. induction q as [|e q IH]; intros [|d p] Hq Hy Heq.
  - by injection Heq.
  - injection Heq as -> Heq. symmetry in Heq. by apply free_of_app in Heq.
  - injection Heq as -> _. simpl in Hq. by rewrite Ascii.eqb_refl in Hq.
  - injection Heq as -> Heq. simpl in Hq. bool_to_prop. destruct (IH p) as [-> ->]; auto.
Qed.

Lemma join_cons sep f g rest : join sep (f :: g :: rest) = f +:+ sep +:+ join sep (g :: rest).
Proof. done. Qed.

(** Joined fields are read back when none contains the separator. *)
Lemma join_inj c l l' :
  length l = length l' → Forall (λ f, free_of c f = true) l → Forall (λ f, free_of c f = true) l' →
  join (String c "") l = join (String c "") l' → l = l'.
Proof.
  revert l'. induction l as [|f l IH]; intros [|f' l'] Hlen Hl Hl' Heq; try done.
  apply Forall_cons_1 in Hl as [Hf Hl]. apply Forall_cons_1 in Hl' as [Hf' Hl'].
  destruct l as [|g l], l' as [|g' l']; try done.
  - simpl in Heq. by subst.
  - rewrite !join_cons in Heq. apply free_of_split in Heq as [-> Heq]; [|done..].
    f_equal. apply IH; try done. simpl in *. lia.
Qed.

(** ** [bytes.fromhex]: pairs of digits, with ASCII whitespace between pairs *)

Definition hex_value (c : ascii) : option nat :=
  let n := nat_of_ascii c in
  if andb (Nat.leb 48 n) (Nat.leb n 57) then Some (n - 48)%nat
  else if andb (Nat.leb 65 n) (Nat.leb n 70) then Some (n - 55)%nat
  else if andb (Nat.leb 97 n) (Nat.leb n 102) then Some (n - 87)%nat
  else None.

Definition is_space (c : ascii) : bool :=
  let n := nat_of_ascii c in
  orb (Nat.eqb n 32) (andb (Nat.leb 9 n) (Nat.leb n 13)).

Fixpoint fromhex (s : string) : option string :=
  match s with
  | EmptyString => Some ""
  | String c rest =>
      if is_space c then fromhex rest
      else match rest with
           | String d rest' =>
               hi ← hex_value c; lo ← hex_value d; bytes ← fromhex rest';
               Some (String (ascii_of_nat (16 * hi + lo)%nat) bytes)
           | EmptyString => None
           end
  end.

(** [bytes.hex] *)
Fixpoint tohex (s : string) : string :=
  match s with
  | EmptyString => ""
  | String c s' => hex_byte c +:+ tohex s'
  end.

Lemma hex_byte_roundtrip :
  forallb (λ c, match hex_byte c with
                | String a (String b EmptyString) =>
                    negb (is_space a)
                    && match hex_value a, hex_value b with
                       | Some hi, Some lo => Ascii.eqb (ascii_of_nat (16 * hi + lo)%nat) c
                       | _, _ => false
                       end
                | _ => false
                end) all_ascii = true.
Proof. vm_compute. reflexivity. Qed.

Lemma fromhex_tohex s : fromhex (tohex s) = Some s.
Proof.
  induction s as [|c s IH]; [done|]. pose proof hex_byte_roundtrip as H.
  eapply forallb_forall in H; [|apply (all_ascii_elem c)]. cbn [tohex].
  destruct (hex_byte c) as [|a [|b [|]]]; try done.
  change (String a (String b "") +:+ tohex s) with (String a (String b (tohex s))).
  cbn [fromhex].
  apply andb_true_iff in H as [Hs H]. apply negb_true_iff in Hs. rewrite Hs, IH.
  destruct (hex_value a), (hex_value b); try done. cbn [mbind option_bind].
  by apply Ascii.eqb_eq in H as ->.
Qed.

Lemma fromhex_examples : fromhex "0aFF 10" = Some (String (ascii_of_nat 10)
    (String (ascii_of_nat 255) (String (ascii_of_nat 16) "")))
  ∧ fromhex "0" = None ∧ fromhex "zz" = None.
Proof. by vm_compute. Qed.

(** ** [hmac.compare_digest] of two strings: a [TypeError] outside ASCII *)

Fixpoint is_ascii (s : string) : bool :=
  match s with
  | EmptyString => true
  | String c s' => Nat.ltb (nat_of_ascii c) 128 && is_ascii s'
  end.

Definition compare_digest (a b : string) : option bool :=
  if is_ascii a && is_ascii b then Some (String.eqb a b) else None.

Lemma is_ascii_app s t : is_ascii (s +:+ t) = is_ascii s && is_ascii t.
Proof.
  induction s as [|c s IH]; [done|].
  change (String c s +:+ t) with (String c (s +:+ t)). cbn [is_ascii]. rewrite IH.
  by rewrite andb_assoc.
Qed.

Lemma hex_byte_ascii : forallb (λ c, is_ascii (hex_byte c)) all_ascii = true.
Proof. vm_compute. reflexivity. Qed.

Lemma tohex_ascii s : is_ascii (tohex s) = true.
Proof.
  induction s as [|c s IH]; [done|]. cbn [tohex]. rewrite is_ascii_app, IH, andb_true_r.
  pose proof hex_byte_ascii as H. eapply forallb_forall in H; [exact H|apply all_ascii_elem].
Qed.

Lemma tohex_inj a b : tohex a = tohex b → a = b.
Proof. intros Heq. apply (f_equal fromhex) in Heq. rewrite !fromhex_tohex in Heq. congruence. Qed.

Lemma compare_digest_hex a b : compare_digest (tohex a) (tohex b) = Some (String.eqb a b).
Proof.
  unfold compare_digest. rewrite !tohex_ascii. simpl. f_equal. apply eq_true_iff_eq.
  rewrite !String.eqb_eq. split; [apply tohex_inj|congruence].
Qed.

(** ** A concrete encoder for any countable type

    The JSON encoders of the records are external; this one shows that the
    round trip asked of them can hold. *)

Fixpoint bits_of_pos (p : positive) : string :=
  match p with
  | xH => ""
  | xO p' => String "0" (bits_of_pos p')
  | xI p' => String "1" (bits_of_pos p')
  end.

Fixpoint pos_of_bits (s : string) : positive :=
  match s with
  | EmptyString => xH
  | String c s' => if Ascii.eqb c "1" then xI (pos_of_bits s') else xO (pos_of_bits s')
  end.

Lemma pos_of_bits_of_pos p : pos_of_bits (bits_of_pos p) = p.
Proof. induction p; simpl; congruence. Qed.

Section codec.
Context {A : Type} `{Countable A}.

Definition encode_text (a : A) : string := bits_of_pos (encode a).
Definition decode_text (s : string) : option A := decode (pos_of_bits s).

Lemma decode_encode_text a : decode_text (encode_text a) = Some a.
Proof. unfold decode_text, encode_text. by rewrite pos_of_bits_of_pos, decode_encode. Qed.
End codec.

(** ** Decimal numbers *)

Lemma pretty_go_free c x s : (∀ n, (n < 10)%N → pretty_N_char n ≠ c) → free_of c s = true → free_of c (pretty_N_go x s) = true.
Proof.
  intros Hc. revert s. induction (N.lt_wf_0 x) as [x _ IH]; intros s Hs.
  destruct (decide (x = 0)%N) as [->|Hx]; [by rewrite pretty_N_go_0|].
  rewrite pretty_N_go_step by lia. apply IH; [apply N.div_lt; lia|]. cbn [free_of]. rewrite Hs, andb_true_r.
  apply negb_true_iff, Ascii.eqb_neq. apply Hc, N.mod_lt. done.
Qed.

(** A decimal number has only digits and a sign. *)
Lemma pretty_free c (z : Z) : (∀ n, (n < 10)%N → pretty_N_char n ≠ c) → c ≠ "-"%char → free_of c (pretty z) = true.
Proof.
  intros Hc Hd. assert (∀ d, d ≠ c → free_of c (String d "") = true) as H1.
  { intros d Hdc. cbn [free_of]. by rewrite (proj2 (Ascii.eqb_neq d c) Hdc). }
  assert (∀ n : N, free_of c (pretty n) = true) as HN.
  { intros n. unfold pretty, pretty_N. case_decide; [|by apply pretty_go_free]. by apply H1, (Hc 0%N). }
  destruct z as [|p|p]; [apply (HN 0%N)|apply (HN (Npos p))|].
  change (pretty (Zneg p)) with (String "-" (pretty (Npos p))). cbn [free_of].
  rewrite (HN (Npos p)), andb_true_r. apply negb_true_iff, Ascii.eqb_neq. congruence.
Qed.
