(* ===== verification/PyUuid.v ===== *)
(** * UUIDs

    A [uuid.UUID] is its 128-bit integer.  [uuid_str] is [str(uuid)] and
    [uuid_of_text] is the constructor [UUID(text)], which ignores braces, dashes
    and URN prefixes and reads the remaining 32 characters with [int(_, 16)]. *)

From stdpp Require Import prelude base strings list.
From Stdlib Require Import ZArith Lia Ascii.
From S2P Require Import Prelude PyText.
#[local] Open Scope string_scope.
#[local] Open Scope list_scope.
#[local] Open Scope Z_scope.

Definition uuid : Type := Z.

Definition nibble (n : Z) (i : nat) : nat := Z.to_nat (Z.land (Z.shiftr n (4 * Z.of_nat i)) 15).

(** ["%032x" % n] *)
Fixpoint hex_digits (k : nat) (n : Z) : string :=
  match k with
  | O => ""
  | S k' => String (hex_digit (nibble n k')) (hex_digits k' n)
  end.

Definition uuid_str (u : uuid) : string :=
  let h := hex_digits 32 u in
  String.substring 0 8 h +:+ "-" +:+ String.substring 8 4 h +:+ "-" +:+ String.substring 12 4 h +:+ "-"
  +:+ String.substring 16 4 h +:+ "-" +:+ String.substring 20 12 h.

(** [s.replace(p, "")], at most [fuel] characters of [s] scanned. *)
Fixpoint str_remove (fuel : nat) (p s : string) : string :=
  match fuel, s with
  | S k, String c s' =>
      if String.prefix p s then str_remove k p (String.substring (String.length p) (String.length s) s)
      else String c (str_remove k p s')
  | _, _ => s
  end.
Definition remove_all (p s : string) : string := str_remove (String.length s) p s.

Definition brace (c : ascii) : bool := Ascii.eqb c "{" || Ascii.eqb c "}".

Fixpoint lstrip_braces (s : string) : string :=
  match s with String c s' => if brace c then lstrip_braces s' else s | _ => s end.
Fixpoint all_braces (s : string) : bool :=
  match s with String c s' => brace c && all_braces s' | _ => true end.
Fixpoint rstrip_braces (s : string) : string :=
  match s with
  | String c s' => if all_braces s then "" else String c (rstrip_braces s')
  | _ => s
  end.

(** [int(text, 16)]: blanks around, a sign, an optional [0x], single underscores
    between digits. *)
Definition int_blank (c : ascii) : bool :=
  let n := nat_of_ascii c in
  (Nat.leb 9 n && Nat.leb n 13) || (Nat.leb 28 n && Nat.leb n 32)
  || Nat.eqb n 133 || Nat.eqb n 160.
Fixpoint all_blank (s : string) : bool :=
  match s with String c s' => int_blank c && all_blank s' | _ => true end.

Fixpoint hex_number (acc : Z) (after_digit : bool) (s : string) : option Z :=
  match s with
  | EmptyString => if after_digit then Some acc else None
  | String c s' =>
      match hex_value c with
      | Some d => hex_number (16 * acc + Z.of_nat d) true s'
      | None =>
          if after_digit && Ascii.eqb c "_" then hex_number acc false s'
          else if after_digit && all_blank s then Some acc
          else None
      end
  end.

(** After a [0x] prefix one underscore may come before the first digit. *)
Definition hex_unsigned (s : string) : option Z :=
  match s with
  | String z (String x s') =>
      if Ascii.eqb z "0" && (Ascii.eqb x "x" || Ascii.eqb x "X") then
        match s' with
        | String u s'' => if Ascii.eqb u "_" then hex_number 0 false s'' else hex_number 0 false s'
        | EmptyString => None
        end
      else hex_number 0 false s
  | _ => hex_number 0 false s
  end.

Fixpoint int16 (s : string) : option Z :=
  match s with
  | EmptyString => None
  | String c s' =>
      if int_blank c then int16 s'
      else if Ascii.eqb c "-" then Z.opp <$> hex_unsigned s'
      else if Ascii.eqb c "+" then hex_unsigned s'
      else hex_unsigned s
  end.

Definition uuid_of_text (text : string) : option uuid :=
  let hex := remove_all "uuid:" (remove_all "urn:" text) in
  let hex := remove_all "-" (rstrip_braces (lstrip_braces hex)) in
  if Nat.eqb (String.length hex) 32 then
    n ← int16 hex;
    if (0 <=? n) && (n <? 2 ^ 128) then Some n else None
  else None.

Lemma uuid_examples :
  uuid_str 17 = "00000000-0000-0000-0000-000000000011"
  ∧ uuid_of_text (uuid_str (2 ^ 127 + 5)) = Some (2 ^ 127 + 5)
  ∧ uuid_of_text "urn:uuid:{00000000-0000-0000-0000-0000000000Ff}" = Some 255
  ∧ uuid_of_text "{00000000-0000-0000-0000-0000000000Ff}" = Some 255
  ∧ uuid_of_text "phone" = None.
Proof. vm_compute. done. Qed.

(** ** A UUID and its text *)

Lemma nibble_bit n i j : 0 <= j < 4 → Z.testbit n (4 * Z.of_nat i + j) = Z.testbit (Z.of_nat (nibble n i)) j.
Proof.
  intros Hj. unfold nibble. rewrite Z2Nat.id by (apply Z.land_nonneg; lia). rewrite Z.land_spec, Z.shiftr_spec by lia.
  change 15 with (Z.ones 4). rewrite Z.ones_spec_low by lia. rewrite andb_true_r. f_equal. lia.
Qed.

Lemma nibble_lt n i : (nibble n i < 16)%nat.
Proof.
  unfold nibble. change 15 with (Z.ones 4). rewrite Z.land_ones by lia.
  pose proof (Z.mod_pos_bound (Z.shiftr n (4 * Z.of_nat i)) (2 ^ 4)). lia.
Qed.

Lemma hex_digit_inj m n : (m < 16)%nat → (n < 16)%nat → hex_digit m = hex_digit n → m = n.
Proof. intros Hm Hn. do 16 (destruct m as [|m]; [do 16 (destruct n as [|n]; [done|]); lia|]). lia. Qed.

Lemma hex_digits_inj k m n : hex_digits k m = hex_digits k n → ∀ i, (i < k)%nat → nibble m i = nibble n i.
Proof.
  induction k as [|k IH]; intros Heq i Hi; [lia|]. cbn [hex_digits] in Heq. injection Heq as Hd Heq.
  destruct (decide (i = k)) as [->|]; [|apply IH; [done|lia]].
  apply hex_digit_inj; [apply nibble_lt..|done].
Qed.

Lemma bits_above k m b : 0 <= k → 0 <= m < 2 ^ k → k <= b → Z.testbit m b = false.
Proof.
  intros Hk Hm Hb. destruct (Z.eq_dec m 0) as [->|]; [apply Z.testbit_0_l|].
  apply Z.bits_above_log2; [lia|]. pose proof (Z.log2_lt_pow2 m k ltac:(lia)). lia.
Qed.

Lemma nibbles_determine k m n :
  0 <= m < 2 ^ (4 * Z.of_nat k) → 0 <= n < 2 ^ (4 * Z.of_nat k) → (∀ i, (i < k)%nat → nibble m i = nibble n i) → m = n.
Proof.
  intros Hm Hn Heq. apply Z.bits_inj'. intros b Hb. destruct (Z.lt_ge_cases b (4 * Z.of_nat k)).
  - pose proof (Z.div_mod b 4 ltac:(lia)) as Hdiv. pose proof (Z.mod_pos_bound b 4 ltac:(lia)) as Hmod.
    assert (0 <= b / 4 < Z.of_nat k) as Hq by (split; [apply Z.div_pos; lia|apply Z.div_lt_upper_bound; lia]).
    replace b with (4 * Z.of_nat (Z.to_nat (b / 4)) + b mod 4) by lia.
    rewrite !nibble_bit by lia. rewrite Heq; [done|lia].
  - by rewrite (bits_above (4 * Z.of_nat k) m b), (bits_above (4 * Z.of_nat k) n b) by lia.
Qed.

(** [str] of a UUID determines it. *)
Lemma uuid_str_inj u v : 0 <= u < 2 ^ 128 → 0 <= v < 2 ^ 128 → uuid_str u = uuid_str v → u = v.
Proof.
  intros Hu Hv Heq. apply (nibbles_determine 32); [done|done|]. apply hex_digits_inj.
  cbn [hex_digits uuid_str] in *. unfold uuid_str in Heq. cbn in Heq.
  repeat (injection Heq as ? Heq). congruence.
Qed.
