(* ===== verification/PyFloat.v ===== *)
(** * Python floats

    A finite double is the rational number it stands for.  The operations of
    Python on floats and on integers that divide are correctly rounded: the exact
    result, to 53 significant bits, ties to even.  [nearest] does that for a
    non-negative fraction; [fl] for any rational.  Overflow to an infinity is left
    to the callers whose values can be that large. *)

From stdpp Require Import prelude base.
From Stdlib Require Import ZArith QArith Qabs Lia Lqa.
From S2P Require Import Prelude.
#[local] Open Scope Z_scope.

(** [n / d] to the nearest integer, ties to even. *)
Definition round_half_even (n d : Z) : Z :=
  let q := n / d in
  let twice := 2 * (n mod d) in
  if (twice <? d) || ((twice =? d) && Z.even q) then q else q + 1.

(** [m * 2^e] as a fraction. *)
Definition scaled (m e : Z) : Z * Z := if 0 <=? e then (m * 2 ^ e, 1) else (m, 2 ^ (- e)).

(** The exponent of the leading bit of [n / d]. *)
Definition leading (n d : Z) : Z :=
  let k := Z.log2 n - Z.log2 d in
  let '(pn, pd) := scaled 1 k in
  if pn * d <=? n * pd then k else k - 1.

(** The double nearest to the non-negative fraction [n / d], as a fraction: 53
    significant bits, exponent at least -1074. *)
Definition nearest (n d : Z) : Z * Z :=
  if n =? 0 then (0, 1)
  else
    let e := Z.max (leading n d - 52) (-1074) in
    let '(sn, sd) := scaled 1 e in
    scaled (round_half_even (n * sd) (d * sn)) e.

Definition fl (q : Q) : Q :=
  let '(n, d) := nearest (Z.abs (Qnum q)) (Z.pos (Qden q)) in
  Z.sgn (Qnum q) * n # Z.to_pos d.

Definition float_int (n : Z) : Q := fl (inject_Z n).
Definition fdiv (a b : Q) : Q := fl (a / b).
Definition fmul (a b : Q) : Q := fl (a * b).
Definition fadd (a b : Q) : Q := fl (a + b).
Definition fsub (a b : Q) : Q := fl (a - b).
(** [min(a, b)]: the first unless the second is smaller. *)
Definition fmin (a b : Q) : Q := if Qle_bool a b then a else b.
Definition flt (a b : Q) : bool := negb (Qle_bool b a).
(** [round(x, 6)]: the decimal of six places nearest to the double, as a double. *)
Definition round6 (x : Q) : Q :=
  fl (Qmake (round_half_even (Qnum x * 10 ^ 6) (Z.pos (Qden x))) (10 ^ 6)).

(** [sum] of floats compensates its rounding errors: Neumaier's algorithm. *)
Definition sum_step (acc : Q * Q) (x : Q) : Q * Q :=
  let '(total, c) := acc in
  let t := fadd total x in
  (t, fadd c (if Qle_bool (Qabs x) (Qabs total) then fadd (fsub total t) x else fadd (fsub x t) total)).
Definition float_sum (l : list Q) : Q :=
  match l with
  | [] => 0%Q
  | x :: rest => let '(total, c) := foldl sum_step (x, 0%Q) rest in
                 if Qeq_bool c 0 then total else fadd total c
  end.

(** ** How far a rounded value is from the exact one *)

Lemma round_half_even_error n d : 0 < d → Z.abs (2 * (round_half_even n d * d - n)) <= d.
Proof.
  intros Hd. pose proof (Z.div_mod n d). pose proof (Z.mod_pos_bound n d Hd). unfold round_half_even.
  destruct (Z.ltb_spec (2 * (n mod d)) d); simpl; [nia|].
  destruct (Z.eqb_spec (2 * (n mod d)) d); simpl; [destruct (Z.even _)|]; nia.
Qed.

Lemma round_half_even_exact q d : 0 < d → round_half_even (q * d) d = q.
Proof.
  intros Hd. unfold round_half_even. rewrite Z.div_mul, Z.mod_mul by lia.
  destruct (Z.ltb_spec (2 * 0) d); [done|lia].
Qed.

Lemma log2_bounds n : 0 < n → 2 ^ Z.log2 n <= n < 2 * 2 ^ Z.log2 n.
Proof. intros Hn. pose proof (Z.log2_spec n Hn). rewrite Z.pow_succ_r in *; [lia|apply Z.log2_nonneg]. Qed.

(** [leading] is the exponent of the leading bit: [2^t <= n / d < 2^(t + 1)]. *)
Lemma leading_spec n d : 0 < n → 0 < d →
  let t := leading n d in
  2 ^ Z.max t 0 * d <= n * 2 ^ Z.max (- t) 0 ∧ n * 2 ^ Z.max (- t) 0 < 2 * 2 ^ Z.max t 0 * d.
Proof.
  intros Hn Hd. pose proof (log2_bounds n Hn). pose proof (log2_bounds d Hd). cbv zeta.
  pose proof (Z.log2_nonneg n). pose proof (Z.log2_nonneg d).
  unfold leading, scaled. set (a := Z.log2 n) in *. set (b := Z.log2 d) in *.
  destruct (Z.leb_spec 0 (a - b)) as [Hk|Hk].
  - assert (2 ^ a = 2 ^ (a - b) * 2 ^ b) as Hab by (rewrite <- Z.pow_add_r by lia; f_equal; lia).
    destruct (Z.leb_spec (1 * 2 ^ (a - b) * d) (n * 1)).
    + rewrite (Z.max_l (a - b)), (Z.max_r (- _)) by lia. nia.
    + destruct (decide (a = b)) as [->|Hne].
      * rewrite Z.sub_diag in *. change (2 ^ 0) with 1 in *.
        change (2 ^ Z.max (0 - 1) 0) with 1. change (2 ^ Z.max (- (0 - 1)) 0) with 2. lia.
      * rewrite (Z.max_l (a - b - 1)), (Z.max_r (- _)) by lia.
        assert (2 ^ (a - b) = 2 * 2 ^ (a - b - 1)) as Hdbl
          by (rewrite <- Z.pow_succ_r by lia; f_equal; lia). nia.
  - assert (2 ^ b = 2 ^ (- (a - b)) * 2 ^ a) as Hab by (rewrite <- Z.pow_add_r by lia; f_equal; lia).
    destruct (Z.leb_spec (1 * d) (n * 2 ^ (- (a - b)))).
    + rewrite (Z.max_r (a - b)), (Z.max_l (- _)) by lia. nia.
    + rewrite (Z.max_r (a - b - 1)), (Z.max_l (- _)) by lia.
      assert (2 ^ (- (a - b - 1)) = 2 * 2 ^ (- (a - b))) as Hdbl
        by (rewrite <- Z.pow_succ_r by lia; f_equal; lia). nia.
Qed.

(** A double is within half a unit in the last place. *)
Lemma nearest_error n d rn rd : 0 < n → 0 < d → d <= n * 2 ^ 1022 → nearest n d = (rn, rd) →
  0 < rd ∧ Z.abs (rn * d - n * rd) * 2 ^ 53 <= n * rd.
Proof.
  intros Hn Hd Hnorm. unfold nearest. destruct (Z.eqb_spec n 0) as [->|_]; [lia|].
  pose proof (leading_spec n d Hn Hd) as [Hlo Hhi]. set (t := leading n d) in *.
  assert (-1022 <= t) as Ht.
  { destruct (Z.le_gt_cases (-1022) t) as [|Hlt]; [done|exfalso].
    rewrite (Z.max_r t), (Z.max_l (- t)) in Hhi by lia.
    assert (2 ^ 1023 <= 2 ^ (- t)) by (apply Z.pow_le_mono_r; lia).
    assert (2 ^ 1023 = 2 * 2 ^ 1022) by reflexivity. nia. }
  rewrite Z.max_l by lia. unfold scaled. destruct (Z.leb_spec 0 (t - 52)) as [He|He]; intros [= <- <-].
  - pose proof (round_half_even_error (n * 1) (d * (1 * 2 ^ (t - 52)))) as Herr.
    rewrite (Z.max_l t), (Z.max_r (- t)) in Hlo by lia.
    assert (2 ^ t = 2 ^ (t - 52) * 2 ^ 52) as Hp by (rewrite <- Z.pow_add_r by lia; f_equal; lia).
    assert (0 < 2 ^ (t - 52)) by (apply Z.pow_pos_nonneg; lia). split; [done|]. nia.
  - pose proof (round_half_even_error (n * 2 ^ (- (t - 52))) (d * 1)) as Herr.
    assert (0 < 2 ^ (- (t - 52))) as Hpos by (apply Z.pow_pos_nonneg; lia). split; [done|].
    assert (d * 2 ^ 52 <= n * 2 ^ (- (t - 52))) as Hu; [|nia].
    destruct (Z.le_gt_cases 0 t) as [Hp|Hp].
    + rewrite (Z.max_l t), (Z.max_r (- t)) in Hlo by lia.
      assert (2 ^ 52 = 2 ^ t * 2 ^ (- (t - 52))) as -> by (rewrite <- Z.pow_add_r by lia; f_equal; lia). nia.
    + rewrite (Z.max_r t), (Z.max_l (- t)) in Hlo by lia.
      assert (2 ^ (- (t - 52)) = 2 ^ (- t) * 2 ^ 52) as -> by (rewrite <- Z.pow_add_r by lia; f_equal; lia). nia.
Qed.

(** Integers below [2^53] are doubles. *)
Lemma nearest_int n d rn rd : 0 < d → 0 <= n < 2 ^ 53 → nearest (n * d) d = (rn, rd) → 0 < rd ∧ rn = n * rd.
Proof.
  intros Hd Hn. unfold nearest. destruct (Z.eqb_spec (n * d) 0) as [Hz|Hz].
  { intros [= <- <-]. nia. }
  pose proof (leading_spec (n * d) d) as [Hlo _]; [nia|done|]. set (t := leading (n * d) d) in *.
  assert (t <= 52) as Ht.
  { destruct (Z.le_gt_cases t 52) as [|Hgt]; [done|exfalso].
    rewrite (Z.max_l t), (Z.max_r (- t)) in Hlo by lia.
    assert (2 ^ 53 <= 2 ^ t) by (apply Z.pow_le_mono_r; lia). nia. }
  set (e := Z.max _ _). assert (e <= 0) as He by lia. unfold scaled.
  destruct (Z.leb_spec 0 e).
  - assert (e = 0) as -> by lia. simpl. intros [= <- <-].
    rewrite !Z.mul_1_r, round_half_even_exact by done. lia.
  - intros [= <- <-]. assert (0 < 2 ^ (- e)) by (apply Z.pow_pos_nonneg; lia). split; [done|].
    replace (n * d * 2 ^ (- e)) with (n * 2 ^ (- e) * (d * 1)) by lia. by rewrite round_half_even_exact by lia.
Qed.

(** ** Rounding is monotone *)

Lemma round_half_even_tie n d : 0 < d → Z.abs (2 * (round_half_even n d * d - n)) = d → Z.even (round_half_even n d) = true.
Proof.
  intros Hd. pose proof (Z.div_mod n d). pose proof (Z.mod_pos_bound n d Hd). unfold round_half_even.
  destruct (Z.ltb_spec (2 * (n mod d)) d); simpl; [nia|].
  destruct (Z.eqb_spec (2 * (n mod d)) d); simpl; [|nia].
  destruct (Z.even (n / d)) eqn:He; [done|]. intros _. by rewrite Z.add_1_r, Z.even_succ, <- Z.negb_even, He.
Qed.

Lemma round_half_even_mono n d n' d' : 0 < d → 0 < d' → n * d' <= n' * d →
  round_half_even n d <= round_half_even n' d'.
Proof.
  intros Hd Hd' Hle. destruct (Z.le_gt_cases (round_half_even n d) (round_half_even n' d')) as [|Hgt]; [done|exfalso].
  pose proof (round_half_even_error n d Hd) as He. pose proof (round_half_even_error n' d' Hd') as He'.
  pose proof (λ H, proj1 (Z.even_spec _) (round_half_even_tie n d Hd H)) as Ht.
  pose proof (λ H, proj1 (Z.even_spec _) (round_half_even_tie n' d' Hd' H)) as Ht'.
  set (r := round_half_even n d) in *. set (r' := round_half_even n' d') in *.
  assert ((2 * r - 1) * d <= 2 * n) as Hn by lia. assert (2 * n' <= (2 * r' + 1) * d') as Hn' by lia.
  assert ((2 * r - 1) * (d * d') <= 2 * (n * d')) as H1 by nia.
  assert (2 * (n' * d) <= (2 * r' + 1) * (d * d')) as H2 by nia.
  assert (0 < d * d') as Hdd by nia. assert (r = r' + 1) as Hr by nia.
  assert (2 * n' * d = (2 * r' + 1) * d' * d) as H3 by nia. apply Z.mul_reg_r in H3; [|lia].
  assert (2 * n * d' = (2 * r - 1) * d * d') as H4 by nia. apply Z.mul_reg_r in H4; [|lia].
  destruct Ht as [x Hx]; [lia|]. destruct Ht' as [y Hy]; lia.
Qed.

Lemma round_half_even_le n d b : 0 < d → n <= b * d → round_half_even n d <= b.
Proof. intros Hd Hn. rewrite <- (round_half_even_exact b 1) by done. apply round_half_even_mono; lia. Qed.

Lemma round_half_even_ge n d b : 0 < d → b * d <= n → b <= round_half_even n d.
Proof. intros Hd Hn. rewrite <- (round_half_even_exact b 1) at 1 by done. apply round_half_even_mono; lia. Qed.

(** A fraction with a positive denominator. *)
Definition frac (f : Z * Z) : Q := Qmake f.1 (Z.to_pos f.2).

Lemma frac_le a b c d : 0 < b → 0 < d → (frac (a, b) <= frac (c, d))%Q ↔ a * d <= c * b.
Proof. intros Hb Hd. unfold frac, Qle. simpl. by rewrite !Z2Pos.id by done. Qed.

Lemma scaled_pos m e : 0 < (scaled m e).2.
Proof. unfold scaled. destruct (Z.leb_spec 0 e); simpl; [done|]. apply Z.pow_pos_nonneg; lia. Qed.

Lemma scaled_one e : 0 < (scaled 1 e).1.
Proof. unfold scaled. destruct (Z.leb_spec 0 e); simpl; [|done]. pose proof (Z.pow_pos_nonneg 2 e). lia. Qed.

Lemma scaled_mono m m' e : m <= m' → (frac (scaled m e) <= frac (scaled m' e))%Q.
Proof.
  intros Hm. unfold scaled. destruct (Z.leb_spec 0 e) as [He|He].
  - apply frac_le; [done|done|]. pose proof (Z.pow_nonneg 2 e). nia.
  - assert (0 < 2 ^ (- e)) by (apply Z.pow_pos_nonneg; lia). apply frac_le; nia.
Qed.

Lemma scaled_shift m e e' : 0 <= m → e < e' → (frac (scaled (2 * m) e) <= frac (scaled m e'))%Q.
Proof.
  intros Hm He. pose proof (scaled_pos (2 * m) e) as Hp. pose proof (scaled_pos m e') as Hp'.
  destruct (scaled (2 * m) e) as [a b] eqn:H1, (scaled m e') as [c d] eqn:H2. simpl in Hp, Hp'.
  apply frac_le; [done|done|]. unfold scaled in *.
  destruct (Z.leb_spec 0 e), (Z.leb_spec 0 e'); injection H1 as <- <-; injection H2 as <- <-; try lia.
  - assert (2 * 2 ^ e <= 2 ^ e') by (rewrite <- Z.pow_succ_r by lia; apply Z.pow_le_mono_r; lia). nia.
  - assert (2 <= 2 ^ (- e)) by (change 2 with (2 ^ 1) at 1; apply Z.pow_le_mono_r; lia).
    assert (0 < 2 ^ e') by (apply Z.pow_pos_nonneg; lia). assert (2 <= 2 ^ e' * 2 ^ (- e)) by nia. nia.
  - assert (2 * 2 ^ (- e') <= 2 ^ (- e)) by (rewrite <- Z.pow_succ_r by lia; apply Z.pow_le_mono_r; lia). nia.
Qed.

Lemma leading_mono n d n' d' : 0 < n → 0 < d → 0 < n' → 0 < d' → n * d' <= n' * d → leading n d <= leading n' d'.
Proof.
  intros Hn Hd Hn' Hd' Hle. destruct (leading_spec n d Hn Hd) as [Hlo _], (leading_spec n' d' Hn' Hd') as [_ Hhi].
  set (t := leading n d) in *. set (t' := leading n' d') in *.
  destruct (Z.le_gt_cases t t') as [|Hgt]; [done|exfalso].
  assert (2 * 2 ^ Z.max t' 0 * 2 ^ Z.max (- t) 0 <= 2 ^ Z.max t 0 * 2 ^ Z.max (- t') 0) as Hp.
  { rewrite <- Z.mul_assoc, <- !Z.pow_add_r, <- Z.pow_succ_r by lia. apply Z.pow_le_mono_r; lia. }
  set (A := 2 ^ Z.max t 0) in *. set (B := 2 ^ Z.max (- t) 0) in *.
  set (C := 2 ^ Z.max t' 0) in *. set (D := 2 ^ Z.max (- t') 0) in *.
  assert (0 < B) by (apply Z.pow_pos_nonneg; lia). assert (0 < D) by (apply Z.pow_pos_nonneg; lia).
  assert (A * d * d' * D <= n * B * d' * D) by nia. assert (n' * D * (d * B) < 2 * C * d' * (d * B)) by nia. nia.
Qed.

(** The significand has at most 53 bits, and 53 unless the number is tiny. *)
Lemma significand n d e : 0 < n → 0 < d →
  (leading n d <= e + 52 → n * (scaled 1 e).2 <= 2 ^ 53 * (d * (scaled 1 e).1))
  ∧ (e + 52 <= leading n d → 2 ^ 52 * (d * (scaled 1 e).1) <= n * (scaled 1 e).2).
Proof.
  intros Hn Hd. destruct (leading_spec n d Hn Hd) as [Hlo Hhi]. set (t := leading n d) in *.
  set (A := 2 ^ Z.max t 0) in *. set (B := 2 ^ Z.max (- t) 0) in *. unfold scaled.
  assert (0 < A) by (apply Z.pow_pos_nonneg; lia). assert (0 < B) by (apply Z.pow_pos_nonneg; lia).
  destruct (Z.leb_spec 0 e) as [He|He]; cbn [fst snd].
  - assert (0 < 2 ^ e) by (apply Z.pow_pos_nonneg; lia). split; intros Ht.
    + assert (2 * A <= 2 ^ 53 * 2 ^ e * B); [|nia].
      unfold A, B. rewrite <- !Z.pow_add_r, <- Z.pow_succ_r by lia. apply Z.pow_le_mono_r; lia.
    + assert (2 ^ 52 * 2 ^ e * B <= A); [|nia].
      unfold A, B. rewrite <- !Z.pow_add_r by lia. apply Z.pow_le_mono_r; lia.
  - assert (0 < 2 ^ (- e)) by (apply Z.pow_pos_nonneg; lia). split; intros Ht.
    + assert (2 * A * 2 ^ (- e) <= 2 ^ 53 * B).
      { unfold A, B. rewrite <- Z.mul_assoc, <- !Z.pow_add_r, <- Z.pow_succ_r by lia. apply Z.pow_le_mono_r; lia. }
      assert (n * B * 2 ^ (- e) <= 2 * A * d * 2 ^ (- e)) by nia. assert (2 * A * d * 2 ^ (- e) <= 2 ^ 53 * B * d) by nia. nia.
    + assert (2 ^ 52 * B <= A * 2 ^ (- e)).
      { unfold A, B. rewrite <- !Z.pow_add_r by lia. apply Z.pow_le_mono_r; lia. }
      assert (A * d * 2 ^ (- e) <= n * B * 2 ^ (- e)) by nia. assert (2 ^ 52 * B * d <= A * 2 ^ (- e) * d) by nia. nia.
Qed.

Lemma nearest_unfold n d : 0 < n →
  let e := Z.max (leading n d - 52) (-1074) in
  nearest n d = scaled (round_half_even (n * (scaled 1 e).2) (d * (scaled 1 e).1)) e.
Proof. intros Hn. unfold nearest. destruct (Z.eqb_spec n 0); [lia|]. cbv zeta. by destruct (scaled 1 _). Qed.

Lemma nearest_nonneg n d : 0 <= n → 0 < d → 0 <= (nearest n d).1 ∧ 0 < (nearest n d).2.
Proof.
  intros Hn Hd. destruct (decide (n = 0)) as [->|]; [done|]. rewrite nearest_unfold by lia. set (e := Z.max _ _).
  split; [|apply scaled_pos]. pose proof (scaled_one e). pose proof (scaled_pos 1 e).
  assert (0 <= round_half_even (n * (scaled 1 e).2) (d * (scaled 1 e).1)) as Hm by (apply round_half_even_ge; nia).
  revert Hm. generalize (round_half_even (n * (scaled 1 e).2) (d * (scaled 1 e).1)) as m. intros m Hm.
  unfold scaled. destruct (Z.leb_spec 0 e); simpl; [|done]. pose proof (Z.pow_nonneg 2 e). nia.
Qed.

Lemma nearest_mono n d n' d' : 0 <= n → 0 < d → 0 < d' → n * d' <= n' * d →
  (frac (nearest n d) <= frac (nearest n' d'))%Q.
Proof.
  intros Hn Hd Hd' Hle. assert (0 <= n') as Hn' by nia. destruct (decide (n = 0)) as [->|Hnz].
  { destruct (nearest_nonneg n' d' Hn' Hd') as [H1 H2]. destruct (nearest n' d') as [a b].
    apply frac_le; simpl in *; lia. }
  assert (0 < n') as Hpos by nia. rewrite !nearest_unfold by lia.
  pose proof (leading_mono n d n' d') as Ht. specialize (Ht ltac:(lia) Hd Hpos Hd' Hle).
  set (e := Z.max (leading n d - 52) _). set (e' := Z.max (leading n' d' - 52) _).
  pose proof (scaled_one e). pose proof (scaled_pos 1 e).
  destruct (decide (e = e')) as [->|Hne].
  - apply scaled_mono, round_half_even_mono; nia.
  - apply (Qle_trans _ (frac (scaled (2 * 2 ^ 52) e))); [|apply (Qle_trans _ (frac (scaled (2 ^ 52) e')))].
    + apply scaled_mono, round_half_even_le; [nia|]. apply significand; lia.
    + apply scaled_shift; lia.
    + pose proof (scaled_one e'). apply scaled_mono, round_half_even_ge; [nia|]. apply significand; lia.
Qed.

(** ** Rounding of rationals *)

Lemma fl_frac q : (0 <= q)%Q → fl q = frac (nearest (Qnum q) (Z.pos (Qden q))).
Proof.
  intros Hq. unfold fl, frac. assert (0 <= Qnum q) as Hn by (unfold Qle in Hq; simpl in Hq; lia).
  rewrite Z.abs_eq by done. destruct (nearest _ _) as [a b] eqn:He. cbn [fst snd]. f_equal.
  destruct (decide (Qnum q = 0)) as [Hz|Hz]; [|rewrite Z.sgn_pos by lia; lia].
  rewrite Hz in *. by injection He as <- <-.
Qed.

Lemma fl_mono p q : (0 <= p)%Q → (p <= q)%Q → (fl p <= fl q)%Q.
Proof.
  intros Hp Hq. assert (0 <= q)%Q by lra. rewrite !fl_frac by done.
  apply nearest_mono; [unfold Qle in Hp; simpl in Hp; lia|done|done|exact Hq].
Qed.

#[export] Instance fl_proper : Proper (Qeq ==> Qeq) fl.
Proof.
  assert (∀ p q, (0 <= p)%Q → (p == q)%Q → (fl p == fl q)%Q) as Hpos.
  { intros p q Hp Heq. apply Qle_antisym; apply fl_mono; lra. }
  assert (∀ q, (fl (- q) == - fl q)%Q) as Hopp.
  { intros [n d]. unfold fl. simpl. rewrite Z.abs_opp, Z.sgn_opp. destruct (nearest _ _) as [a b].
    unfold Qeq, Qopp. simpl. lia. }
  intros p q Heq. destruct (Qlt_le_dec p 0) as [Hp|Hp]; [|by apply Hpos].
  pose proof (Hopp p). pose proof (Hopp q).
  assert (fl (- p) == fl (- q))%Q by (apply Hpos; lra). lra.
Qed.

Lemma fl_int n : 0 <= n < 2 ^ 53 → (fl (inject_Z n) == inject_Z n)%Q.
Proof.
  intros Hn. rewrite fl_frac by (unfold Qle; simpl; lia). simpl.
  destruct (nearest n 1) as [a b] eqn:He. rewrite <- (Z.mul_1_r n) in He at 1.
  apply nearest_int in He as [Hb ->]; [|done|done]. unfold frac, Qeq. simpl. rewrite Z2Pos.id by done. lia.
Qed.

Lemma fl_error q : (1 <= q * inject_Z (2 ^ 1022))%Q →
  (q * inject_Z (2 ^ 53 - 1) <= fl q * inject_Z (2 ^ 53))%Q
  ∧ (fl q * inject_Z (2 ^ 53) <= q * inject_Z (2 ^ 53 + 1))%Q.
Proof.
  intros Hq. destruct q as [n d]. unfold Qle in Hq. cbn [Qnum Qden Qmult inject_Z] in Hq.
  assert (0 < n) as Hn by nia. rewrite fl_frac by (unfold Qle; simpl; lia). cbn [Qnum Qden].
  destruct (nearest n (Z.pos d)) as [a b] eqn:He. apply nearest_error in He as [Hb He]; [|lia..].
  unfold frac, Qle, inject_Z, Qmult. cbn [fst snd Qnum Qden]. rewrite !Pos.mul_1_r, !Z2Pos.id by done. nia.
Qed.

Lemma fl_nonneg q : (0 <= q)%Q → (0 <= fl q)%Q.
Proof. intros Hq. by apply (fl_mono 0). Qed.

Lemma fmul_mono a b c d : (0 <= a)%Q → (a <= c)%Q → (0 <= b)%Q → (b <= d)%Q → (fmul a b <= fmul c d)%Q.
Proof. intros Ha Hac Hb Hbd. apply fl_mono; nra. Qed.

Lemma round6_mono p q : (0 <= p)%Q → (p <= q)%Q → (round6 p <= round6 q)%Q.
Proof.
  intros Hp Hq. unfold Qle in Hp, Hq. simpl in Hp. apply fl_mono.
  - unfold Qle. simpl. rewrite Z.mul_1_r. apply round_half_even_ge; lia.
  - assert (round_half_even (Qnum p * 10 ^ 6) (Z.pos (Qden p))
            <= round_half_even (Qnum q * 10 ^ 6) (Z.pos (Qden q))) by (apply round_half_even_mono; nia).
    unfold Qle. cbn [Qnum Qden]. nia.
Qed.

Lemma round6_nonneg q : (0 <= q)%Q → (0 <= round6 q)%Q.
Proof. intros Hq. by apply (round6_mono 0). Qed.

Lemma Qle_bool_spec a b : Qle_bool a b = true ↔ (a <= b)%Q.
Proof. apply Qle_bool_iff. Qed.

Lemma flt_spec a b : flt a b = true ↔ (a < b)%Q.
Proof.
  unfold flt. rewrite negb_true_iff, <- not_true_iff_false, Qle_bool_iff. split; [apply Qnot_le_lt|apply Qlt_not_le].
Qed.
