(* ===== verification/PlannerModels.v ===== *)
(** * Planner inputs and results (planner_models.py, planner_results.py)

    The immutable request and result models of the deterministic planner, with
    the field constraints and model validators that pydantic runs when a value is
    constructed.  A validator is a function into [result ValidationError unit];
    [validate_request] composes them in construction order. *)

From S2P Require Import Prelude PyTime.
From stdpp Require Import prelude strings list gmap pretty.
From Stdlib Require Import ZArith Lia.

Open Scope Z_scope.
Open Scope py_scope.

(** ** Validation errors *)

Inductive ValidationError :=
| FieldConstraint (field : string)
| ModelValidator (message : string).

#[export] Instance ValidationError_eq_dec : EqDecision ValidationError.
Proof. solve_decision. Defined.

Abbreviation validated := (result ValidationError unit).

Definition in_range (lo hi n : Z) : bool := (lo <=? n) && (n <=? hi).
Definition nonempty (s : string) : bool := negb (String.eqb s "").
Definition nonempty_opt (o : option string) : bool :=
  match o with Some s => nonempty s | None => true end.

Definition require (ok : bool) (e : ValidationError) : validated :=
  if ok then Ok tt else Err e.

Fixpoint validate_all {A : Type} (f : A → validated) (l : list A) : validated :=
  match l with
  | [] => Ok tt
  | x :: l' => let* _ := f x in validate_all f l'
  end.

(** ** Input models *)

Inductive ActivityFlexibility := FIXED | FLEXIBLE | PROTECTED.

#[export] Instance ActivityFlexibility_eq_dec : EqDecision ActivityFlexibility.
Proof. solve_decision. Defined.

(** Both fields are single-valued literals. *)
Record ScheduleResolution := {
  sr_internal_plan : string;
  sr_calendar_projection : string
}.

Definition default_resolution : ScheduleResolution :=
  {| sr_internal_plan := "minute-level";
     sr_calendar_projection := "human-readable-blocks" |}.

Record EnergyWindow := {
  ew_starts_at : datetime;
  ew_ends_at : datetime;
  ew_level : Z
}.

Record PlanActivity := {
  pa_activity_id : string;
  pa_title : string;
  pa_flexibility : ActivityFlexibility;
  pa_duration_minutes : Z;
  pa_fixed_start : option datetime;
  pa_fixed_end : option datetime;
  pa_earliest_start : option datetime;
  pa_latest_end : option datetime;
  pa_deadline : option datetime;
  pa_recover_missed_deadline : bool;
  pa_dependencies : list string;
  pa_travel_minutes_before : Z;
  pa_travel_minutes_after : Z;
  pa_energy_required : Z;
  pa_goal_weight : Z;
  pa_importance : Z;
  pa_display_group : option string;
  pa_display_title : option string;
  pa_guidance : list string;
  pa_calendar_eligible : bool;
  pa_personal_micro_event : bool
}.

Record ExistingPlanBlock := {
  eb_block_id : string;
  eb_activity_id : string;
  eb_title : string;
  eb_starts_at : datetime;
  eb_ends_at : datetime
}.

Record DayPlanRequest := {
  dr_plan_date : Z;
  dr_timezone : string;
  dr_window_start : datetime;
  dr_window_end : datetime;
  dr_state_revision : Z;
  dr_expected_state_revision : Z;
  dr_activities : list PlanActivity;
  dr_energy_windows : list EnergyWindow;
  dr_baseline_blocks : list ExistingPlanBlock;
  dr_schedule_resolution : ScheduleResolution
}.

#[export] Instance EnergyWindow_eq_dec : EqDecision EnergyWindow.
Proof. solve_decision. Defined.
#[export] Instance PlanActivity_eq_dec : EqDecision PlanActivity.
Proof. solve_decision. Defined.

(** ** Validators *)

Definition _validate_minute (value : datetime) (field_name : string) : validated :=
  if negb (aware value) then Err (ModelValidator (field_name +:+ " must be timezone-aware"))
  else if negb (dt_local value mod minute =? 0)
  then Err (ModelValidator (field_name +:+ " must use minute resolution"))
  else Ok tt.

Definition validate_minute_opt (field_name : string) (o : option datetime) : validated :=
  match o with Some value => _validate_minute value field_name | None => Ok tt end.

Definition validate_energy_window (w : EnergyWindow) : validated :=
  let* _ := require (in_range 1 5 (ew_level w)) (FieldConstraint "level") in
  let* _ := _validate_minute (ew_starts_at w) "starts_at" in
  let* _ := _validate_minute (ew_ends_at w) "ends_at" in
  if utc (ew_ends_at w) <=? utc (ew_starts_at w)
  then Err (ModelValidator "energy window must end after it starts") else Ok tt.

Definition _validate_activity_placement (a : PlanActivity) : validated :=
  match pa_flexibility a with
  | FIXED | PROTECTED =>
      match pa_fixed_start a, pa_fixed_end a with
      | Some fixed_start, Some fixed_end =>
          if floor_minutes (utc fixed_end - utc fixed_start) =? pa_duration_minutes a
          then Ok tt
          else Err (ModelValidator "duration_minutes must match the fixed interval")
      | _, _ =>
          Err (ModelValidator "fixed and protected activities require fixed_start and fixed_end")
      end
  | FLEXIBLE =>
      match pa_fixed_start a, pa_fixed_end a with
      | None, None => Ok tt
      | _, _ => Err (ModelValidator "flexible activities cannot define a fixed interval")
      end
  end.

(** The [Field(...)] and [NonEmptyText] constraints of [PlanActivity]. *)
Definition activity_fields (a : PlanActivity) : validated :=
  let* _ := require (nonempty (pa_activity_id a)) (FieldConstraint "activity_id") in
  let* _ := require (nonempty (pa_title a)) (FieldConstraint "title") in
  let* _ := require (in_range 1 1440 (pa_duration_minutes a)) (FieldConstraint "duration_minutes") in
  let* _ := require (forallb nonempty (pa_dependencies a)) (FieldConstraint "dependencies") in
  let* _ := require (in_range 0 1440 (pa_travel_minutes_before a))
              (FieldConstraint "travel_minutes_before") in
  let* _ := require (in_range 0 1440 (pa_travel_minutes_after a))
              (FieldConstraint "travel_minutes_after") in
  let* _ := require (in_range 1 5 (pa_energy_required a)) (FieldConstraint "energy_required") in
  let* _ := require (in_range 0 10 (pa_goal_weight a)) (FieldConstraint "goal_weight") in
  let* _ := require (in_range 0 10 (pa_importance a)) (FieldConstraint "importance") in
  let* _ := require (nonempty_opt (pa_display_group a)) (FieldConstraint "display_group") in
  let* _ := require (nonempty_opt (pa_display_title a)) (FieldConstraint "display_title") in
  require (forallb nonempty (pa_guidance a)) (FieldConstraint "guidance").

Definition validate_activity (a : PlanActivity) : validated :=
  let* _ := activity_fields a in
  let* _ := validate_minute_opt "fixed_start" (pa_fixed_start a) in
  let* _ := validate_minute_opt "fixed_end" (pa_fixed_end a) in
  let* _ := validate_minute_opt "earliest_start" (pa_earliest_start a) in
  let* _ := validate_minute_opt "latest_end" (pa_latest_end a) in
  let* _ := validate_minute_opt "deadline" (pa_deadline a) in
  let* _ := _validate_activity_placement a in
  let* _ := raise_if (pa_recover_missed_deadline a && bool_decide (pa_deadline a = None))
              (ModelValidator "deadline recovery requires an explicit deadline") in
  let* _ := raise_if
              (match pa_latest_end a, pa_earliest_start a with
               | Some latest_end, Some earliest_start => utc latest_end <=? utc earliest_start
               | _, _ => false
               end) (ModelValidator "latest_end must follow earliest_start") in
  raise_if (bool_decide (pa_activity_id a ∈ pa_dependencies a))
    (ModelValidator "an activity cannot depend on itself").

Definition validate_existing_block (b : ExistingPlanBlock) : validated :=
  let* _ := require (nonempty (eb_block_id b)) (FieldConstraint "block_id") in
  let* _ := require (nonempty (eb_activity_id b)) (FieldConstraint "activity_id") in
  let* _ := require (nonempty (eb_title b)) (FieldConstraint "title") in
  let* _ := _validate_minute (eb_starts_at b) "starts_at" in
  let* _ := _validate_minute (eb_ends_at b) "ends_at" in
  if utc (eb_ends_at b) <=? utc (eb_starts_at b)
  then Err (ModelValidator "baseline block must end after it starts") else Ok tt.

Definition opt_list {A : Type} (o : option A) : list A :=
  match o with Some x => [x] | None => [] end.

Definition activity_timestamps (a : PlanActivity) : list datetime :=
  opt_list (pa_fixed_start a) ++ opt_list (pa_fixed_end a)
  ++ opt_list (pa_earliest_start a) ++ opt_list (pa_latest_end a) ++ opt_list (pa_deadline a).

(** Every timestamp of the snapshot that must be a real local time of its zone. *)
Definition snapshot_timestamps (r : DayPlanRequest) : list datetime :=
  [dr_window_start r; dr_window_end r]
  ++ map ew_starts_at (dr_energy_windows r) ++ map ew_ends_at (dr_energy_windows r)
  ++ concat (map activity_timestamps (dr_activities r)).

Definition validate_timestamp (z : zone) (value : datetime) : validated :=
  let* _ := _validate_minute value "planner timestamp" in
  let local := astimezone z (utc value) in
  if negb (dt_local local =? dt_local value)
  then Err (ModelValidator ("nonexistent local time: " +:+ isoformat value))
  else if negb (dt_offset local =? dt_offset value)
  then Err (ModelValidator ("timestamp offset does not match " +:+ zone_key z +:+ ": "
                            +:+ isoformat value))
  else Ok tt.

(** The system zone database: [ZoneInfo(key)] succeeds on its domain. *)
Abbreviation zone_db := (string → option tzdata).

Definition validate_snapshot (db : zone_db) (r : DayPlanRequest) : validated :=
  match db (dr_timezone r) with
  | None => Err (ModelValidator ("unknown timezone: " +:+ dr_timezone r))
  | Some data =>
      let z := mk_zone (dr_timezone r) data in
      let* _ := validate_all (validate_timestamp z) (snapshot_timestamps r) in
      let* _ := raise_if (utc (dr_window_end r) <=? utc (dr_window_start r))
                  (ModelValidator "planning window must end after it starts") in
      let* _ := raise_if
                  (negb (date_of (astimezone z (utc (dr_window_start r))) =? dr_plan_date r))
                  (ModelValidator "window_start must fall on plan_date") in
      let* _ := raise_if (negb (bool_decide (NoDup (map pa_activity_id (dr_activities r)))))
                  (ModelValidator "duplicate activity_id") in
      raise_if (negb (bool_decide (NoDup (map eb_block_id (dr_baseline_blocks r)))))
        (ModelValidator "duplicate baseline block_id")
  end.

(** [DayPlanRequest(...)]: field constraints, nested models, then the snapshot. *)
Definition validate_request (db : zone_db) (r : DayPlanRequest) : validated :=
  let* _ := require (nonempty (dr_timezone r)) (FieldConstraint "timezone") in
  let* _ := require (1 <=? dr_state_revision r) (FieldConstraint "state_revision") in
  let* _ := require (1 <=? dr_expected_state_revision r)
              (FieldConstraint "expected_state_revision") in
  let* _ := validate_all validate_activity (dr_activities r) in
  let* _ := validate_all validate_energy_window (dr_energy_windows r) in
  let* _ := validate_all validate_existing_block (dr_baseline_blocks r) in
  validate_snapshot db r.

(** [WeekPlanRequest(...)] adds the exact 168-hour horizon. *)
Definition validate_week (db : zone_db) (r : DayPlanRequest) : validated :=
  let* _ := validate_request db r in
  raise_if (negb (utc (dr_window_end r) - utc (dr_window_start r) =? 7 * day))
    (ModelValidator "week planning requires exactly 10,080 elapsed minutes").

(** [ZoneInfo(request.timezone)].  A validated request has a known zone. *)
Definition request_zone (db : zone_db) (r : DayPlanRequest) : zone :=
  mk_zone (dr_timezone r)
    (default {| tz_initial := 0; tz_transitions := [] |} (db (dr_timezone r))).

(** ** Result models *)

Inductive PlanStatus := FEASIBLE | PARTIAL | INFEASIBLE.

Inductive PlanBlockKind := KFIXED | KFLEXIBLE | KPROTECTED | KTRAVEL | KAVAILABLE.

#[export] Instance PlanBlockKind_eq_dec : EqDecision PlanBlockKind.
Proof. solve_decision. Defined.

Inductive ExplanationCode := EFIXED | EPROTECTED | ESCHEDULED | EOVERDUE | EINFEASIBLE.

#[export] Instance ExplanationCode_eq_dec : EqDecision ExplanationCode.
Proof. solve_decision. Defined.

Inductive UnscheduledReason :=
| FIXED_CONFLICT | MISSING_DEPENDENCY | DEPENDENCY_UNSCHEDULED | NO_CAPACITY.

Record ScoreBreakdown := {
  sb_deadline : Z;
  sb_dependency : Z;
  sb_travel : Z;
  sb_energy : Z;
  sb_goal : Z;
  sb_importance : Z;
  sb_total : Z
}.

Record PlanBlock := {
  pb_block_id : string;
  pb_activity_id : option string;
  pb_title : string;
  pb_kind : PlanBlockKind;
  pb_starts_at : datetime;
  pb_ends_at : datetime;
  pb_display_group : option string;
  pb_display_title : option string;
  pb_guidance : list string;
  pb_deadline : option datetime;
  pb_explanation_code : option ExplanationCode;
  pb_calendar_eligible : bool;
  pb_personal_micro_event : bool
}.

(** The computed field [duration_minutes]. *)
Definition pb_duration_minutes (b : PlanBlock) : Z :=
  floor_minutes (utc (pb_ends_at b) - utc (pb_starts_at b)).

Record CalendarBlock := {
  cb_block_id : string;
  cb_display_group : string;
  cb_title : string;
  cb_starts_at : datetime;
  cb_ends_at : datetime;
  cb_source_activity_ids : list string;
  cb_segment_titles : list string;
  cb_transitions : list string;
  cb_deadlines : list datetime;
  cb_guidance : list string;
  cb_explanation_codes : list ExplanationCode
}.

Record TaskExplanation := {
  te_activity_id : string;
  te_code : ExplanationCode;
  te_summary : string;
  te_score : ScoreBreakdown;
  te_scheduled_block_ids : list string;
  te_constraints : list string
}.

Record UnscheduledActivity := {
  ua_activity_id : string;
  ua_reason : UnscheduledReason;
  ua_detail : string;
  ua_blocking_activity_ids : list string
}.

Record BlockChange := {
  bc_block_id : string;
  bc_activity_id : string;
  bc_title : string;
  bc_starts_at : datetime;
  bc_ends_at : datetime
}.

Record MovedBlock := {
  mb_block_id : string;
  mb_activity_id : string;
  mb_title : string;
  mb_previous_starts_at : datetime;
  mb_previous_ends_at : datetime;
  mb_proposed_starts_at : datetime;
  mb_proposed_ends_at : datetime
}.

Record PlanDiff := {
  pd_added : list BlockChange;
  pd_removed : list BlockChange;
  pd_moved : list MovedBlock
}.

Record ProposedDay := {
  py_schema_version : string;
  py_input_fingerprint : string;
  py_state_revision : Z;
  py_timezone : string;
  py_status : PlanStatus;
  py_schedule_resolution : ScheduleResolution;
  py_internal_plan : list PlanBlock;
  py_calendar_projection : list CalendarBlock;
  py_explanations : list TaskExplanation;
  py_unscheduled : list UnscheduledActivity;
  py_diff : PlanDiff
}.

(** ** What validation guarantees *)

Lemma require_ok b e : require b e = Ok tt → b = true.
Proof. by destruct b. Qed.

Lemma validate_all_ok {A} (f : A → validated) l :
  validate_all f l = Ok tt ↔ Forall (λ x, f x = Ok tt) l.
Proof.
  induction l as [|x l IH]; simpl; [by split|]. rewrite Forall_cons.
  destruct (f x) as [[]|]; simpl; [rewrite IH; naive_solver|naive_solver].
Qed.

(** The facts about one activity that the placement proofs use. *)
Record activity_wf (a : PlanActivity) : Prop := {
  awf_duration : 1 ≤ pa_duration_minutes a ≤ 1440;
  awf_before : 0 ≤ pa_travel_minutes_before a ≤ 1440;
  awf_after : 0 ≤ pa_travel_minutes_after a ≤ 1440;
  awf_fixed : pa_flexibility a ≠ FLEXIBLE →
    ∃ s e, pa_fixed_start a = Some s ∧ pa_fixed_end a = Some e
      ∧ floor_minutes (utc e - utc s) = pa_duration_minutes a
}.

Record request_wf (r : DayPlanRequest) : Prop := {
  rwf_window : utc (dr_window_start r) < utc (dr_window_end r);
  rwf_ids : NoDup (map pa_activity_id (dr_activities r));
  rwf_baseline : NoDup (map eb_block_id (dr_baseline_blocks r));
  rwf_activities : Forall activity_wf (dr_activities r)
}.

Lemma in_range_spec lo hi n : in_range lo hi n = true ↔ lo ≤ n ≤ hi.
Proof. unfold in_range. rewrite andb_true_iff, !Z.leb_le. done. Qed.

Lemma validate_activity_wf a : validate_activity a = Ok tt → activity_wf a.
Proof.
  unfold validate_activity. intros H. unbind H. unfold activity_fields in Hv. unbind Hv.
  repeat match goal with
  | H : require (in_range _ _ _) _ = Ok tt |- _ => apply require_ok, in_range_spec in H
  end.
  constructor; try done.
  intros Hf. unfold _validate_activity_placement in Hv5.
  destruct (pa_flexibility a); [|done|];
    (destruct (pa_fixed_start a) as [s|]; [|done]); (destruct (pa_fixed_end a) as [e|]; [|done]);
    (destruct (_ =? _) eqn:Heq; [|done]); exists s, e; by bool_to_prop.
Qed.

Lemma validate_request_wf db r : validate_request db r = Ok tt → request_wf r.
Proof.
  unfold validate_request. intros H. unbind H. unfold validate_snapshot in H.
  destruct (db (dr_timezone r)) as [data|]; [|done].
  cbv zeta in H. unbind H.
  repeat match goal with H : raise_if _ _ = Ok tt |- _ => apply raise_if_ok in H end.
  bool_to_prop. constructor; try done.
  apply validate_all_ok in Hv2. eapply Forall_impl; [done|]. intros a. apply validate_activity_wf.
Qed.

(** A validated request names a zone of the database. *)
Lemma validate_request_zone db r :
  validate_request db r = Ok tt → ∃ data, db (dr_timezone r) = Some data.
Proof.
  unfold validate_request. intros H. unbind H. unfold validate_snapshot in H.
  destruct (db (dr_timezone r)) as [data|]; [eauto|done].
Qed.
