(* ===== verification/PlannerScoring.v ===== *)
(** * Placement scoring (planner_scoring.py)

    [score_activity] with its explicit components, its ranges, and how the
    deadline component orders activities by urgency. *)

From S2P Require Import Prelude PyTime PlannerModels.
From stdpp Require Import prelude strings list.
From Stdlib Require Import ZArith Lia.

Open Scope Z_scope.

(** The deadline component of the score. *)
Definition deadline_score (r : DayPlanRequest) (deadline : option datetime) : Z :=
  match deadline with
  | None => 0
  | Some d =>
      let deadline_delta := floor_minutes (utc d - utc (dr_window_start r)) in
      if deadline_delta <? 0 then 10000 + Z.min (- deadline_delta) (30 * 24 * 60)
      else if utc d <=? utc (dr_window_end r) then 5000 - deadline_delta
      else Z.max 0 (1000 - deadline_delta / 60)
  end.

Definition matching_levels (r : DayPlanRequest) (start end_ : Z) : list Z :=
  map ew_level
    (List.filter (λ w, (utc (ew_starts_at w) <=? start) && (end_ <=? utc (ew_ends_at w)))
       (dr_energy_windows r)).

(** The energy component: how close the best matching window comes. *)
Definition energy_score (levels : list Z) (energy_required : Z) : Z :=
  match py_min (λ a b, Z.abs (a - energy_required) <? Z.abs (b - energy_required)) levels with
  | None => 0
  | Some best_level => Z.max 0 (300 - 100 * Z.abs (best_level - energy_required))
  end.

Definition score_activity (a : PlanActivity) (r : DayPlanRequest) (starts_at : datetime)
    (dependent_count : Z) : ScoreBreakdown :=
  let deadline := deadline_score r (pa_deadline a) in
  let dependency := dependent_count * 400 in
  let travel := -5 * (pa_travel_minutes_before a + pa_travel_minutes_after a) in
  let activity_end := utc starts_at + minutes (pa_duration_minutes a) in
  let energy :=
    energy_score (matching_levels r (utc starts_at) activity_end) (pa_energy_required a) in
  let goal := pa_goal_weight a * 100 in
  let importance := pa_importance a * 100 in
  {| sb_deadline := deadline;
     sb_dependency := dependency;
     sb_travel := travel;
     sb_energy := energy;
     sb_goal := goal;
     sb_importance := importance;
     sb_total := deadline + dependency + travel + energy + goal + importance |}.

(** ** Ranges of the components *)

Lemma energy_score_range levels required : 0 ≤ energy_score levels required ≤ 300.
Proof. unfold energy_score. destruct (py_min _ levels); lia. Qed.

Lemma foldl_min_le {A} (f : A → Z) (l : list A) b x :
  x ∈ b :: l →
  f (foldl (λ best y, if f y <? f best then y else best) b l) ≤ f x.
Proof.
  revert b x. induction l as [|y l IH]; intros b x Hx; simpl.
  - apply list_elem_of_singleton in Hx as ->. lia.
  - destruct (f y <? f b) eqn:E; bool_to_prop.
    + apply elem_of_cons in Hx as [->|Hx]; [|by apply IH].
      pose proof (IH y y ltac:(set_solver)). lia.
    + apply elem_of_cons in Hx as [->|Hx]; [apply IH; set_solver|].
      apply elem_of_cons in Hx as [->|Hx]; [|apply IH; set_solver].
      pose proof (IH b b ltac:(set_solver)). lia.
Qed.

Lemma py_min_le {A} (f : A → Z) (l : list A) m x :
  py_min (λ a b, f a <? f b) l = Some m → x ∈ l → f m ≤ f x.
Proof. destruct l as [|y l]; [done|]. intros [= <-] Hx. by apply foldl_min_le. Qed.

(** The energy component is the best over all matching windows. *)
Lemma energy_score_best levels required level :
  level ∈ levels → 300 - 100 * Z.abs (level - required) ≤ energy_score levels required.
Proof.
  unfold energy_score. intros Hl. destruct (py_min _ levels) as [m|] eqn:E.
  - pose proof (py_min_le (λ x, Z.abs (x - required)) _ _ _ E Hl) as Hm. cbv beta in Hm. lia.
  - apply py_min_None in E as ->. by apply elem_of_nil in Hl.
Qed.

(** Length of the planning window, rounded up to whole minutes. *)
Definition window_minutes (r : DayPlanRequest) : Z :=
  - floor_minutes (utc (dr_window_start r) - utc (dr_window_end r)).

Lemma window_minutes_ge r t :
  t ≤ utc (dr_window_end r) → floor_minutes (t - utc (dr_window_start r)) ≤ window_minutes r.
Proof.
  unfold window_minutes, floor_minutes. intros Ht.
  assert (0 < minute) as Hm by done.
  transitivity ((utc (dr_window_end r) - utc (dr_window_start r)) / minute);
    [apply Z.div_le_mono; lia|].
  replace (utc (dr_window_start r) - utc (dr_window_end r))
    with (- (utc (dr_window_end r) - utc (dr_window_start r))) by lia.
  generalize (utc (dr_window_end r) - utc (dr_window_start r)); intros x.
  pose proof (Z.div_mod x minute ltac:(lia)). pose proof (Z.mod_pos_bound x minute Hm).
  pose proof (Z.div_mod (- x) minute ltac:(lia)). pose proof (Z.mod_pos_bound (- x) minute Hm).
  nia.
Qed.

Lemma floor_minutes_mono a b : a ≤ b → floor_minutes a ≤ floor_minutes b.
Proof. intros. apply Z.div_le_mono; [done|lia]. Qed.

(** While the window is shorter than about two and three quarter days the
    deadline component never increases as the deadline moves later. *)
Lemma deadline_score_antitone r d1 d2 :
  window_minutes r ≤ 4000 → utc d1 ≤ utc d2 →
  deadline_score r (Some d2) ≤ deadline_score r (Some d1).
Proof.
  intros Hw Hd. unfold deadline_score.
  pose proof (floor_minutes_mono (utc d1 - utc (dr_window_start r))
                (utc d2 - utc (dr_window_start r)) ltac:(lia)) as Hm.
  pose proof (window_minutes_ge r (utc d1)) as H1.
  set (m1 := floor_minutes (utc d1 - _)) in *. set (m2 := floor_minutes (utc d2 - _)) in *.
  pose proof (window_minutes_ge r (utc d2)) as H2. fold m2 in H2.
  destruct (m1 <? 0) eqn:E1, (m2 <? 0) eqn:E2; bool_to_prop; try lia.
  - destruct (utc d2 <=? _); [lia|].
    assert (0 ≤ m2 / 60) by (apply Z.div_pos; lia). lia.
  - destruct (utc d1 <=? _) eqn:E3, (utc d2 <=? _) eqn:E4; bool_to_prop; try lia.
    + assert (m1 ≤ 4000) by (etrans; [apply H1; lia|lia]).
      pose proof (Z.div_le_mono m1 m2 60 ltac:(lia) ltac:(lia)).
      assert (0 ≤ m1 / 60) by (apply Z.div_pos; lia). lia.
    + pose proof (Z.div_le_mono m1 m2 60 ltac:(lia) ltac:(lia)). lia.
Qed.

Lemma deadline_score_overdue r d :
  utc d < utc (dr_window_start r) → 10000 < deadline_score r (Some d).
Proof.
  intros Hd. unfold deadline_score.
  assert (floor_minutes (utc d - utc (dr_window_start r)) < 0) as Hneg.
  { unfold floor_minutes. apply Z.div_lt_upper_bound; [done|]. lia. }
  apply Z.ltb_lt in Hneg as Hb. rewrite Hb. lia.
Qed.
