(* ===== verification/PlannerPlacement.v ===== *)
(** * Minute-slot placement (planner_placement.py)

    Fixed and protected activities are reserved first, then flexible ones are
    placed greedily by score.  The proofs establish the placement invariant (every
    reservation inside the window, within its hard time bounds, disjoint from the
    others), that the greedy loop ends and partitions the activities, and that
    [best_placement] is optimal over its minute grid. *)

From S2P Require Import Prelude PyTime PlannerModels PlannerScoring.
From stdpp Require Import prelude strings list gmap sorting.
From Stdlib Require Import ZArith Lia.

Open Scope Z_scope.

Record Placement := {
  pl_activity : PlanActivity;
  pl_starts_at : datetime;
  pl_ends_at : datetime;
  pl_score : ScoreBreakdown
}.

Definition reservation_start (p : Placement) : Z :=
  utc (pl_starts_at p) - minutes (pa_travel_minutes_before (pl_activity p)).

Definition reservation_end (p : Placement) : Z :=
  utc (pl_ends_at p) + minutes (pa_travel_minutes_after (pl_activity p)).

Definition pl_id (p : Placement) : string := pa_activity_id (pl_activity p).

Definition dependent_counts (r : DayPlanRequest) : gmap string Z :=
  list_to_map
    (map (λ a, (pa_activity_id a,
                Z.of_nat (length (filter (λ c, pa_activity_id a ∈ pa_dependencies c)
                                    (dr_activities r)))))
       (dr_activities r)).

(** [counts[activity_id]]; every activity of the request has an entry. *)
Definition count_of (counts : gmap string Z) (id : string) : Z := default 0 (counts !! id).

Definition overlaps (left right : Placement) : bool :=
  (reservation_start left <? reservation_end right)
  && (reservation_start right <? reservation_end left).

Definition hard_deadline (a : PlanActivity) (r : DayPlanRequest) : option Z :=
  match pa_deadline a with
  | None => None
  | Some d =>
      let deadline := utc d in
      if pa_recover_missed_deadline a && (deadline <? utc (dr_window_start r)) then None
      else Some deadline
  end.

Definition opt_le (lo : option datetime) (t : Z) : bool :=
  match lo with None => true | Some d => utc d <=? t end.
Definition opt_ge (hi : option Z) (t : Z) : bool :=
  match hi with None => true | Some u => t <=? u end.

Definition satisfies_time_bounds (p : Placement) (r : DayPlanRequest) : bool :=
  let a := pl_activity p in
  let starts_at := utc (pl_starts_at p) in
  let ends_at := utc (pl_ends_at p) in
  opt_le (pa_earliest_start a) starts_at
  && opt_ge (utc <$> pa_latest_end a) ends_at
  && opt_ge (hard_deadline a r) ends_at.

(** ** Fixed and protected reservations *)

Inductive FixedResult :=
| FixedPlacements (placements : list Placement)
| FixedConflicts (conflicts : gset string).

Definition fixed_key (r : DayPlanRequest) (a : PlanActivity) : datetime :=
  default (dr_window_start r) (pa_fixed_start a).

(** Tuple comparison of [(fixed_start or window_start, activity_id)]. *)
Definition fixed_ltb (r : DayPlanRequest) (a b : PlanActivity) : bool :=
  if dt_eqb (fixed_key r a) (fixed_key r b)
  then String.ltb (pa_activity_id a) (pa_activity_id b)
  else dt_ltb (fixed_key r a) (fixed_key r b).

Definition fixed_placement (r : DayPlanRequest) (counts : gmap string Z) (a : PlanActivity) :
    Placement :=
  let starts_at := fixed_key r a in
  {| pl_activity := a;
     pl_starts_at := starts_at;
     pl_ends_at := default starts_at (pa_fixed_end a);
     pl_score := score_activity a r starts_at (count_of counts (pa_activity_id a)) |}.

Definition outside_window (p : Placement) (r : DayPlanRequest) : bool :=
  (reservation_start p <? utc (dr_window_start r))
  || (utc (dr_window_end r) <? reservation_end p).

Definition place_fixed_step (r : DayPlanRequest) (counts : gmap string Z)
    (st : list Placement * gset string) (a : PlanActivity) : list Placement * gset string :=
  let '(placements, conflicts) := st in
  let p := fixed_placement r counts a in
  let conflicts :=
    if outside_window p r then {[pa_activity_id a]} ∪ conflicts else conflicts in
  let conflicts :=
    if negb (satisfies_time_bounds p r) then {[pa_activity_id a]} ∪ conflicts else conflicts in
  let conflicts :=
    foldl (λ c existing,
             if overlaps p existing then {[pa_activity_id a; pl_id existing]} ∪ c else c)
      conflicts placements in
  (placements ++ [p], conflicts).

Definition fixed_activities (r : DayPlanRequest) : list PlanActivity :=
  py_sorted (fixed_ltb r) (filter (λ a, pa_flexibility a ≠ FLEXIBLE) (dr_activities r)).

Definition place_fixed (r : DayPlanRequest) (counts : gmap string Z) : FixedResult :=
  let fixed := fixed_activities r in
  let '(placements, conflicts) := foldl (place_fixed_step r counts) ([], ∅) fixed in
  if bool_decide (conflicts = ∅) then FixedPlacements placements else FixedConflicts conflicts.

(** ** Flexible placement *)

(** [max] and [min] over optional bounds, as the running [lower] and [upper]. *)
Definition placement_bounds (a : PlanActivity) (r : DayPlanRequest) (placements : list Placement) :
    option (Z * Z) :=
  let lower := utc (dr_window_start r) + minutes (pa_travel_minutes_before a) in
  let lower :=
    match pa_earliest_start a with None => lower | Some d => Z.max lower (utc d) end in
  let predecessors := filter (λ p, pl_id p ∈ pa_dependencies a) placements in
  if negb (bool_decide (size (list_to_set (map pl_id predecessors) : gset string)
                        = size (list_to_set (pa_dependencies a) : gset string)))
  then None
  else
    let lower := foldl (λ lo p, Z.max lo (utc (pl_ends_at p))) lower predecessors in
    let upper :=
      utc (dr_window_end r) - minutes (pa_duration_minutes a + pa_travel_minutes_after a) in
    let upper :=
      match pa_latest_end a with
      | None => upper
      | Some d => Z.min upper (utc d - minutes (pa_duration_minutes a))
      end in
    let upper :=
      match hard_deadline a r with
      | None => upper
      | Some deadline => Z.min upper (deadline - minutes (pa_duration_minutes a))
      end in
    let upper :=
      foldl (λ hi successor,
               if bool_decide (pa_activity_id a ∈ pa_dependencies (pl_activity successor))
               then Z.min hi (utc (pl_starts_at successor) - minutes (pa_duration_minutes a))
               else hi) upper placements in
    Some (lower, upper).

Definition candidate (z : zone) (a : PlanActivity) (r : DayPlanRequest) (counts : gmap string Z)
    (starts_at : Z) : Placement :=
  let local_start := astimezone z starts_at in
  {| pl_activity := a;
     pl_starts_at := local_start;
     pl_ends_at := astimezone z (starts_at + minutes (pa_duration_minutes a));
     pl_score := score_activity a r local_start (count_of counts (pa_activity_id a)) |}.

Definition is_free (placements : list Placement) (c : Placement) : bool :=
  forallb (λ existing, negb (overlaps c existing)) placements.

Definition better (best : option Placement) (c : Placement) : bool :=
  match best with
  | None => true
  | Some b => sb_total (pl_score b) <? sb_total (pl_score c)
  end.

(** The [while starts_at <= upper] loop; the fuel is the number of grid minutes. *)
Fixpoint scan (fuel : nat) (z : zone) (a : PlanActivity) (r : DayPlanRequest)
    (placements : list Placement) (counts : gmap string Z) (upper starts_at : Z)
    (best : option Placement) : option Placement :=
  match fuel with
  | O => best
  | S fuel' =>
      if starts_at <=? upper then
        let c := candidate z a r counts starts_at in
        let best := if is_free placements c && better best c then Some c else best in
        scan fuel' z a r placements counts upper (starts_at + minutes 1) best
      else best
  end.

Definition grid_size (lower upper : Z) : nat := Z.to_nat ((upper - lower) / minute + 1).

Definition best_placement (z : zone) (a : PlanActivity) (r : DayPlanRequest)
    (placements : list Placement) (counts : gmap string Z) : option Placement :=
  match placement_bounds a r placements with
  | None => None
  | Some (lower, upper) =>
      scan (grid_size lower upper) z a r placements counts upper lower None
  end.

Definition sorted_ids (s : gset string) : list string := py_sorted String.ltb (elements s).

Definition by_id (a b : PlanActivity) : bool :=
  String.ltb (pa_activity_id a) (pa_activity_id b).

(** Key [(-score.total, starts_at, activity_id)] of the [min] over candidates. *)
Definition candidate_ltb (p q : Placement) : bool :=
  if sb_total (pl_score p) =? sb_total (pl_score q) then
    if utc (pl_starts_at p) =? utc (pl_starts_at q) then String.ltb (pl_id p) (pl_id q)
    else utc (pl_starts_at p) <? utc (pl_starts_at q)
  else sb_total (pl_score q) <? sb_total (pl_score p).

Abbreviation flexible_dict := (list (string * PlanActivity)).

Definition deps_within (ids : gset string) (a : PlanActivity) : bool :=
  bool_decide (Forall (λ d, d ∈ ids) (pa_dependencies a)).

Definition missing_entry (all_ids : gset string) (a : PlanActivity) : UnscheduledActivity :=
  {| ua_activity_id := pa_activity_id a;
     ua_reason := MISSING_DEPENDENCY;
     ua_detail := "Dependency does not exist in this canonical snapshot.";
     ua_blocking_activity_ids := sorted_ids (list_to_set (pa_dependencies a) ∖ all_ids) |}.

Definition capacity_entry (a : PlanActivity) : UnscheduledActivity :=
  {| ua_activity_id := pa_activity_id a;
     ua_reason := NO_CAPACITY;
     ua_detail := "No nonconflicting minute interval satisfies all hard constraints.";
     ua_blocking_activity_ids := [] |}.

Definition blocked_entry (scheduled_ids : gset string) (a : PlanActivity) : UnscheduledActivity :=
  {| ua_activity_id := pa_activity_id a;
     ua_reason := DEPENDENCY_UNSCHEDULED;
     ua_detail := "A required dependency was not scheduled.";
     ua_blocking_activity_ids := sorted_ids (list_to_set (pa_dependencies a) ∖ scheduled_ids) |}.

(** Loop state of [place_flexible]. *)
Record FlexState := {
  fs_flexible : flexible_dict;
  fs_placements : list Placement;
  fs_scheduled : gset string;
  fs_unscheduled : list UnscheduledActivity
}.

(** One iteration of [while flexible]. *)
Definition flexible_step (z : zone) (r : DayPlanRequest) (counts : gmap string Z)
    (all_ids : gset string) (st : FlexState) : FlexState :=
  let missing := py_sorted by_id
    (map snd (filter (λ kv, deps_within all_ids kv.2 = false) (fs_flexible st))) in
  let flexible := filter (λ kv, deps_within all_ids kv.2 = true) (fs_flexible st) in
  let unscheduled := fs_unscheduled st ++ map (missing_entry all_ids) missing in
  let eligible := filter (λ a, deps_within (fs_scheduled st) a = true) (map snd flexible) in
  let candidates :=
    omap (λ a, best_placement z a r (fs_placements st) counts) eligible in
  match py_min candidate_ltb candidates with
  | Some chosen =>
      {| fs_flexible := dict_del (pl_id chosen) flexible;
         fs_placements := fs_placements st ++ [chosen];
         fs_scheduled := {[pl_id chosen]} ∪ fs_scheduled st;
         fs_unscheduled := unscheduled |}
  | None =>
      match eligible with
      | _ :: _ =>
          {| fs_flexible := filter (λ kv, deps_within (fs_scheduled st) kv.2 = false) flexible;
             fs_placements := fs_placements st;
             fs_scheduled := fs_scheduled st;
             fs_unscheduled := unscheduled ++ map capacity_entry (py_sorted by_id eligible) |}
      | [] =>
          {| fs_flexible := [];
             fs_placements := fs_placements st;
             fs_scheduled := fs_scheduled st;
             fs_unscheduled := unscheduled
               ++ map (blocked_entry (fs_scheduled st)) (py_sorted by_id (map snd flexible)) |}
      end
  end.

Fixpoint flexible_loop (fuel : nat) (z : zone) (r : DayPlanRequest) (counts : gmap string Z)
    (all_ids : gset string) (st : FlexState) : option FlexState :=
  match fs_flexible st with
  | [] => Some st
  | _ :: _ =>
      match fuel with
      | O => None
      | S fuel' => flexible_loop fuel' z r counts all_ids (flexible_step z r counts all_ids st)
      end
  end.

Definition flexible_of (r : DayPlanRequest) : flexible_dict :=
  dict_of (map (λ a, (pa_activity_id a, a))
             (filter (λ a, pa_flexibility a = FLEXIBLE) (dr_activities r))).

Definition all_activity_ids (r : DayPlanRequest) : gset string :=
  list_to_set (map pa_activity_id (dr_activities r)).

Definition flexible_start (r : DayPlanRequest) (placements : list Placement) : FlexState :=
  {| fs_flexible := flexible_of r;
     fs_placements := placements;
     fs_scheduled := list_to_set (map pl_id placements);
     fs_unscheduled := [] |}.

(** Returns the extended placement list and the unscheduled entries. *)
Definition place_flexible (z : zone) (r : DayPlanRequest) (placements : list Placement)
    (counts : gmap string Z) : option (list Placement * list UnscheduledActivity) :=
  st ← flexible_loop (length (flexible_of r)) z r counts (all_activity_ids r)
         (flexible_start r placements);
  Some (fs_placements st, fs_unscheduled st).

(** ** Dependency check over the finished placement list *)

Definition placements_by_id (placements : list Placement) : gmap string Placement :=
  foldl (λ m p, <[pl_id p := p]> m) ∅ placements.

Definition dependency_broken (m : gmap string Placement) (p : Placement) (dependency : string) :
    bool :=
  match m !! dependency with
  | None => true
  | Some q => utc (pl_starts_at p) <? utc (pl_ends_at q)
  end.

Definition invalid_dependencies (placements : list Placement) : gset string :=
  let m := placements_by_id placements in
  list_to_set (map pl_id
    (filter (λ p, existsb (dependency_broken m p) (pa_dependencies (pl_activity p)) = true)
       placements)).

(** ** The placement invariant *)

Record placement_ok (r : DayPlanRequest) (p : Placement) : Prop := {
  pk_activity : pl_activity p ∈ dr_activities r;
  pk_lower : utc (dr_window_start r) ≤ reservation_start p;
  pk_upper : reservation_end p ≤ utc (dr_window_end r);
  pk_bounds : satisfies_time_bounds p r = true;
  pk_length : floor_minutes (utc (pl_ends_at p) - utc (pl_starts_at p))
              = pa_duration_minutes (pl_activity p)
}.

Definition disjoint_reservations (p q : Placement) : Prop := overlaps p q = false.

Record placements_ok (r : DayPlanRequest) (ps : list Placement) : Prop := {
  ps_each : Forall (placement_ok r) ps;
  ps_disjoint : ForallOrdPairs disjoint_reservations ps;
  ps_ids : NoDup (map pl_id ps)
}.

Lemma overlaps_sym p q : overlaps p q = overlaps q p.
Proof. unfold overlaps. apply andb_comm. Qed.

#[export] Instance disjoint_reservations_sym : Symmetric disjoint_reservations.
Proof. intros p q. unfold disjoint_reservations. by rewrite overlaps_sym. Qed.

(** ** Fixed reservations *)

Section fixed.
Context (r : DayPlanRequest) (counts : gmap string Z).

Abbreviation fp := (fixed_placement r counts).

Lemma overlap_fold_elem id p ps (cs : gset string) x :
  x ∈ foldl (λ c e, if overlaps p e then {[id; pl_id e]} ∪ c else c) cs ps
  ↔ x ∈ cs ∨ ∃ e, e ∈ ps ∧ overlaps p e = true ∧ (x = id ∨ x = pl_id e).
Proof.
  revert cs. induction ps as [|e ps IH]; intros cs; simpl; [set_solver|].
  rewrite IH. destruct (overlaps p e) eqn:E.
  - rewrite elem_of_union. setoid_rewrite elem_of_cons. set_solver.
  - setoid_rewrite elem_of_cons. split; [set_solver|].
    intros [?|(e' & [->|?] & ? & ?)]; [by left|congruence|right; eauto].
Qed.

(** Why one reservation is rejected on its own. *)
Definition self_conflict (p : Placement) : bool :=
  outside_window p r || negb (satisfies_time_bounds p r).

Lemma place_fixed_step_elem ps cs a x :
  x ∈ (place_fixed_step r counts (ps, cs) a).2
  ↔ x ∈ cs ∨ (x = pa_activity_id a ∧ self_conflict (fp a) = true)
    ∨ ∃ e, e ∈ ps ∧ overlaps (fp a) e = true ∧ (x = pa_activity_id a ∨ x = pl_id e).
Proof.
  unfold place_fixed_step. simpl. rewrite overlap_fold_elem. unfold self_conflict.
  destruct (outside_window _ _), (satisfies_time_bounds _ _); simpl; set_solver.
Qed.

Lemma place_fixed_fold_placements l st :
  (foldl (place_fixed_step r counts) st l).1 = st.1 ++ map fp l.
Proof.
  revert st. induction l as [|a l IH]; intros [ps cs]; simpl; [by rewrite app_nil_r|].
  rewrite IH. simpl. by rewrite <- (assoc (++)).
Qed.

(** The conflict set of the whole pass: self-conflicting reservations and both
    members of every overlapping pair. *)
Lemma place_fixed_fold_conflicts l ps cs x :
  x ∈ (foldl (place_fixed_step r counts) (ps, cs) l).2
  ↔ x ∈ cs ∨ (∃ a, a ∈ l ∧ x = pa_activity_id a ∧ self_conflict (fp a) = true)
    ∨ ∃ l1 a l2 e, l = l1 ++ a :: l2 ∧ e ∈ ps ++ map fp l1 ∧ overlaps (fp a) e = true
        ∧ (x = pa_activity_id a ∨ x = pl_id e).
Proof.
  revert ps cs. induction l as [|a l IH]; intros ps cs.
  - simpl. split; [by left|]. intros [?|[(a & Ha & _)|(l1 & a & l2 & e & Hl & _)]]; [done| |].
    + by apply elem_of_nil in Ha.
    + by destruct l1.
  - cbn [foldl]. pose proof (place_fixed_step_elem ps cs a x) as Hx.
    destruct (place_fixed_step r counts (ps, cs) a) as [ps' cs'] eqn:Hst.
    apply (f_equal fst) in Hst. simpl in Hst, Hx. subst ps'. rewrite IH, Hx. split.
    + intros [[?|[[-> ?]|(e & ? & ? & ?)]]|[(b & ? & ? & ?)|(l1 & b & l2 & e & -> & He & ? & ?)]].
      * by left.
      * right; left. exists a. set_solver.
      * right; right. exists [], a, l, e. simpl. rewrite app_nil_r. set_solver.
      * right; left. exists b. set_solver.
      * right; right. exists (a :: l1), b, l2, e. simpl. rewrite <- (assoc (++)) in He. done.
    + intros [?|[(b & Hb & ? & ?)|(l1 & b & l2 & e & Hl & He & ? & ?)]].
      * by left; left.
      * apply elem_of_cons in Hb as [->|Hb]; [by left; right; left|]. right; left; eauto.
      * destruct l1 as [|c l1]; simplify_eq/=.
        -- rewrite app_nil_r in He. left; right; right; eauto.
        -- right; right. exists l1, b, l2, e. rewrite <- (assoc (++)). done.
Qed.
End fixed.

Section fixed_result.
Context (r : DayPlanRequest) (Hwf : request_wf r) (counts : gmap string Z).

Abbreviation fp := (fixed_placement r counts).

Lemma fixed_activities_elem a :
  a ∈ fixed_activities r ↔ a ∈ dr_activities r ∧ pa_flexibility a ≠ FLEXIBLE.
Proof. unfold fixed_activities. rewrite elem_of_py_sorted, list_elem_of_filter. tauto. Qed.

Lemma fixed_activities_ids : NoDup (map pa_activity_id (fixed_activities r)).
Proof.
  unfold fixed_activities. rewrite py_sorted_perm.
  apply NoDup_map_filter, Hwf.
Qed.

(** Two reservations conflict when they overlap and belong to different activities. *)
Definition conflicted (a : PlanActivity) : Prop :=
  self_conflict r (fp a) = true
  ∨ ∃ b, b ∈ fixed_activities r ∧ pa_activity_id b ≠ pa_activity_id a
         ∧ overlaps (fp a) (fp b) = true.

Lemma fixed_pair_overlap x :
  (∃ l1 a l2 e, fixed_activities r = l1 ++ a :: l2 ∧ e ∈ [] ++ map fp l1
     ∧ overlaps (fp a) e = true ∧ (x = pa_activity_id a ∨ x = pl_id e))
  ↔ ∃ a b, a ∈ fixed_activities r ∧ b ∈ fixed_activities r
           ∧ pa_activity_id b ≠ pa_activity_id a ∧ overlaps (fp a) (fp b) = true
           ∧ x = pa_activity_id a.
Proof.
  pose proof fixed_activities_ids as Hn. split.
  - intros (l1 & a & l2 & e & Hl & (b & -> & Hb)%list_elem_of_fmap & Ho & Hx).
    rewrite Hl in Hn |- *. rewrite map_app in Hn. apply NoDup_app in Hn as (_ & Hd & _).
    assert (pa_activity_id b ≠ pa_activity_id a) as Hne.
    { intros Heq. apply (Hd (pa_activity_id b)).
      - apply list_elem_of_fmap. eauto.
      - simpl. rewrite Heq. set_solver. }
    destruct Hx as [->| ->].
    + exists a, b. set_solver.
    + exists b, a. rewrite overlaps_sym. set_solver.
  - intros (a & b & Ha & Hb & Hne & Ho & ->).
    apply list_elem_of_split in Ha as (l1 & l2 & Hl). rewrite Hl in Hb.
    apply elem_of_app in Hb as [Hb|Hb].
    + exists l1, a, l2, (fp b). split_and!; [done| |done|by left].
      apply list_elem_of_fmap. eauto.
    + apply elem_of_cons in Hb as [->|Hb]; [done|].
      apply list_elem_of_split in Hb as (m1 & m2 & ->).
      exists (l1 ++ a :: m1), b, m2, (fp a). rewrite Hl, <- (assoc (++)). simpl.
      split_and!; [done| |by rewrite overlaps_sym|by right].
      apply list_elem_of_fmap. exists a. set_solver.
Qed.

Lemma place_fixed_conflict_set x :
  x ∈ (foldl (place_fixed_step r counts) ([], ∅) (fixed_activities r)).2
  ↔ ∃ a, a ∈ fixed_activities r ∧ x = pa_activity_id a ∧ conflicted a.
Proof.
  rewrite place_fixed_fold_conflicts, fixed_pair_overlap. unfold conflicted. split.
  - intros [Hx|[(a & ? & ? & ?)|(a & b & ? & ? & ? & ? & ->)]];
      [by apply elem_of_empty in Hx|eauto|eauto 10].
  - intros (a & Ha & -> & [?|(b & ? & ? & ?)]); right; [left; eauto|right; eauto 10].
Qed.

Lemma place_fixed_conflicts_spec cs :
  place_fixed r counts = FixedConflicts cs →
  ∀ x, x ∈ cs ↔ ∃ a, a ∈ fixed_activities r ∧ x = pa_activity_id a ∧ conflicted a.
Proof.
  intros H x. rewrite <- place_fixed_conflict_set. unfold place_fixed in H.
  destruct (foldl _ _ _) as [ps c]. simpl. case_bool_decide; naive_solver.
Qed.

Lemma fixed_interval a :
  a ∈ fixed_activities r →
  floor_minutes (utc (pl_ends_at (fp a)) - utc (pl_starts_at (fp a))) = pa_duration_minutes a.
Proof.
  intros [Ha Hf]%fixed_activities_elem.
  pose proof (rwf_activities r Hwf) as Hall. rewrite Forall_forall in Hall.
  destruct (awf_fixed a (Hall a Ha) Hf) as (s & e & Hs & He & Hlen).
  unfold fixed_placement, fixed_key. simpl. by rewrite Hs, He.
Qed.

Lemma unconflicted_ok a : a ∈ fixed_activities r → ¬ conflicted a → placement_ok r (fp a).
Proof.
  intros Ha Hc. assert (self_conflict r (fp a) = false) as Hs.
  { apply not_true_is_false. intros ?. apply Hc. by left. }
  unfold self_conflict, outside_window in Hs. bool_to_prop.
  constructor; [by apply fixed_activities_elem in Ha as [? _]|done..|by apply fixed_interval].
Qed.

Lemma place_fixed_ok ps :
  place_fixed r counts = FixedPlacements ps →
  ps = map fp (fixed_activities r) ∧ placements_ok r ps.
Proof.
  intros H. unfold place_fixed in H.
  destruct (foldl _ _ _) as [ps' c] eqn:Hf. case_bool_decide as Hc; [|done]. simplify_eq.
  assert (ps = map fp (fixed_activities r)) as ->.
  { pose proof (place_fixed_fold_placements r counts (fixed_activities r) ([], ∅)) as Hp.
    by rewrite Hf in Hp. }
  assert (∀ a, a ∈ fixed_activities r → ¬ conflicted a) as Hnc.
  { intros a Ha Hca. apply (not_elem_of_empty (C := gset string) (pa_activity_id a)).
    replace ∅ with (foldl (place_fixed_step r counts) ([], ∅) (fixed_activities r)).2
      by by rewrite Hf.
    apply place_fixed_conflict_set. eauto. }
  split; [done|]. constructor.
  - apply Forall_fmap, Forall_forall. intros a Ha. by apply unconflicted_ok; [|apply Hnc].
  - pose proof fixed_activities_ids as Hn. clear Hf.
    assert (∀ a, a ∈ fixed_activities r → a ∈ fixed_activities r) as Hsub by done.
    revert Hn Hsub. generalize (fixed_activities r) at 1 2 4. intros l.
    induction l as [|a l IH]; intros Hn Hsub; [constructor|].
    simpl in Hn. apply NoDup_cons in Hn as [Ha Hn]. simpl.
    constructor; [|apply IH; [done|set_solver]].
    apply Forall_fmap, Forall_forall. intros b Hb. unfold disjoint_reservations. simpl.
    apply not_true_is_false. intros Ho. apply (Hnc a); [apply Hsub; set_solver|]. right.
    exists b. split_and!; [apply Hsub; set_solver| |done].
    intros Heq. apply Ha. apply list_elem_of_fmap. eauto.
  - rewrite map_map. exact fixed_activities_ids.
Qed.
End fixed_result.

(** ** Bounds of a flexible start *)

Lemma foldl_max_ge {A} (f : A → Z) (l : list A) b :
  b ≤ foldl (λ lo x, Z.max lo (f x)) b l
  ∧ ∀ x, x ∈ l → f x ≤ foldl (λ lo x, Z.max lo (f x)) b l.
Proof.
  revert b. induction l as [|y l IH]; intros b; simpl; [split; [lia|set_solver]|].
  destruct (IH (Z.max b (f y))) as [H1 H2]. split; [lia|].
  intros x [->|Hx]%elem_of_cons; [lia|by apply H2].
Qed.

Lemma foldl_min_if_le {A} (P : A → bool) (f : A → Z) (l : list A) b :
  foldl (λ hi x, if P x then Z.min hi (f x) else hi) b l ≤ b
  ∧ ∀ x, x ∈ l → P x = true → foldl (λ hi x, if P x then Z.min hi (f x) else hi) b l ≤ f x.
Proof.
  revert b. induction l as [|y l IH]; intros b; simpl; [split; [lia|set_solver]|].
  destruct (P y) eqn:Hy.
  - destruct (IH (Z.min b (f y))) as [H1 H2]. split; [lia|].
    intros x [->|Hx]%elem_of_cons HP; [lia|by apply H2].
  - destruct (IH b) as [H1 H2]. split; [done|].
    intros x [->|Hx]%elem_of_cons HP; [congruence|by apply H2].
Qed.

Record bounds_spec (a : PlanActivity) (r : DayPlanRequest) (ps : list Placement) (lo hi : Z) :
    Prop := {
  bs_window_lo : utc (dr_window_start r) + minutes (pa_travel_minutes_before a) ≤ lo;
  bs_earliest : ∀ d, pa_earliest_start a = Some d → utc d ≤ lo;
  bs_predecessors : ∀ p, p ∈ ps → pl_id p ∈ pa_dependencies a → utc (pl_ends_at p) ≤ lo;
  bs_window_hi :
    hi ≤ utc (dr_window_end r) - minutes (pa_duration_minutes a + pa_travel_minutes_after a);
  bs_latest : ∀ d, pa_latest_end a = Some d → hi ≤ utc d - minutes (pa_duration_minutes a);
  bs_deadline : ∀ t, hard_deadline a r = Some t → hi ≤ t - minutes (pa_duration_minutes a);
  bs_successors : ∀ p, p ∈ ps → pa_activity_id a ∈ pa_dependencies (pl_activity p) →
    hi ≤ utc (pl_starts_at p) - minutes (pa_duration_minutes a);
  bs_all_placed : ∀ d, d ∈ pa_dependencies a → ∃ p, p ∈ ps ∧ pl_id p = d
}.

Lemma dependencies_all_placed a ps :
  size (list_to_set (map pl_id (filter (λ p, pl_id p ∈ pa_dependencies a) ps)) : gset string)
    = size (list_to_set (pa_dependencies a) : gset string) →
  ∀ d, d ∈ pa_dependencies a → ∃ p, p ∈ ps ∧ pl_id p = d.
Proof.
  set (X := list_to_set (map pl_id _) : gset string). intros Hsz d Hd.
  assert (X = list_to_set (pa_dependencies a)) as HX.
  { apply set_subseteq_size_eq; [|by rewrite Hsz].
    intros x. unfold X. rewrite !elem_of_list_to_set.
    intros (p & -> & [? _]%list_elem_of_filter)%list_elem_of_fmap. done. }
  assert (d ∈ X) as HdX by (rewrite HX; by apply elem_of_list_to_set).
  unfold X in HdX. apply elem_of_list_to_set, list_elem_of_fmap in HdX as (p & -> & Hp).
  apply list_elem_of_filter in Hp as [_ Hp]. eauto.
Qed.

Lemma placement_bounds_spec a r ps lo hi :
  placement_bounds a r ps = Some (lo, hi) → bounds_spec a r ps lo hi.
Proof.
  unfold placement_bounds. intros H.
  destruct (bool_decide _) eqn:Hsz; [|done]. apply bool_decide_eq_true in Hsz.
  simpl in H. apply (inj Some) in H. apply (inj2 pair) in H as [Hlo Hhi].
  match type of Hlo with
  | foldl _ ?b _ = _ =>
      destruct (foldl_max_ge (λ p, utc (pl_ends_at p))
                  (filter (λ p, pl_id p ∈ pa_dependencies a) ps) b) as [Hl1 Hl2]
  end.
  match type of Hhi with
  | foldl _ ?b _ = _ =>
      destruct (foldl_min_if_le
                  (λ s, bool_decide (pa_activity_id a ∈ pa_dependencies (pl_activity s)))
                  (λ s, utc (pl_starts_at s) - minutes (pa_duration_minutes a)) ps b) as [Hh1 Hh2]
  end.
  cbv beta in *. rewrite Hlo in Hl1, Hl2. rewrite Hhi in Hh1, Hh2. clear Hlo Hhi.
  constructor.
  - destruct (pa_earliest_start a); lia.
  - intros d Hd. rewrite Hd in Hl1. lia.
  - intros p Hp Hd. apply Hl2. apply list_elem_of_filter. done.
  - destruct (pa_latest_end a), (hard_deadline a r); lia.
  - intros d Hd. rewrite Hd in Hh1. destruct (hard_deadline a r); lia.
  - intros t Ht. rewrite Ht in Hh1. lia.
  - intros p Hp Hd. apply Hh2; [done|]. by apply bool_decide_eq_true.
  - by apply dependencies_all_placed.
Qed.

(** ** The minute scan *)

#[local] Arguments candidate : simpl never.
#[local] Arguments score_activity : simpl never.

Lemma candidate_start z a r counts t : utc (pl_starts_at (candidate z a r counts t)) = t.
Proof. apply utc_astimezone. Qed.

Lemma candidate_end z a r counts t :
  utc (pl_ends_at (candidate z a r counts t)) = t + minutes (pa_duration_minutes a).
Proof. apply utc_astimezone. Qed.

Section scan.
Context (z : zone) (a : PlanActivity) (r : DayPlanRequest) (ps : list Placement)
  (counts : gmap string Z) (upper : Z).

Abbreviation cand := (candidate z a r counts).
Abbreviation total p := (sb_total (pl_score p)).

Lemma scan_sound fuel s best b :
  scan fuel z a r ps counts upper s best = Some b →
  best = Some b ∨
  ∃ k : nat, b = cand (s + minutes (Z.of_nat k)) ∧ s + minutes (Z.of_nat k) ≤ upper ∧ is_free ps b = true.
Proof.
  revert s best. induction fuel as [|fuel IH]; intros s best; simpl; [by left|].
  destruct (s <=? upper) eqn:Hs; [|by left]. bool_to_prop. intros H.
  destruct (IH _ _ H) as [Hb|(k & -> & Hk & Hf)].
  - destruct (is_free ps _ && better best _) eqn:Hfb; [|by left]. simplify_eq.
    bool_to_prop. right. exists 0%nat. rewrite Z.add_0_r. done.
  - right. exists (S k). replace (s + minutes (Z.of_nat (S k))) with (s + minutes 1 + minutes (Z.of_nat k))
      by (unfold minutes; lia). done.
Qed.

(** A free grid point is matched or beaten by the result, earliest first. *)
Lemma scan_optimal fuel s best (k : nat) :
  (k < fuel)%nat →
  (∀ b, best = Some b → utc (pl_starts_at b) < s) →
  s + minutes (Z.of_nat k) ≤ upper → is_free ps (cand (s + minutes (Z.of_nat k))) = true →
  ∃ b, scan fuel z a r ps counts upper s best = Some b
    ∧ total (cand (s + minutes (Z.of_nat k))) ≤ total b
    ∧ (total b = total (cand (s + minutes (Z.of_nat k))) → utc (pl_starts_at b) ≤ s + minutes (Z.of_nat k)).
Proof.
  revert s best k. induction fuel as [|fuel IH]; intros s best k Hk Hbest Hup Hfree; [lia|].
  cbn [scan]. assert (s ≤ upper) as Hs by (pose proof (minutes_nonneg (Z.of_nat k)); lia).
  rewrite (proj2 (Z.leb_le _ _) Hs).
  set (best' := if is_free ps (cand s) && better best (cand s) then Some (cand s) else best).
  assert (∀ b, best' = Some b → utc (pl_starts_at b) < s + minutes 1) as Hbest'.
  { intros b. unfold best'. destruct (_ && _); intros Hb.
    - apply (inj Some) in Hb as <-. rewrite candidate_start. unfold minutes, minute, second. lia.
    - specialize (Hbest b Hb). unfold minutes, minute, second. lia. }
  destruct k as [|k].
  - replace (s + minutes (Z.of_nat 0)) with s in * by (unfold minutes; lia).
    assert (∃ b, best' = Some b ∧ total (cand s) ≤ total b ∧ utc (pl_starts_at b) ≤ s)
      as (b & Hb & Htot & Hst).
    { unfold best'. rewrite Hfree. cbn [andb]. destruct best as [b0|]; cbn [better].
      - destruct (_ <? _) eqn:Hlt; bool_to_prop.
        + eexists. split; [done|]. rewrite candidate_start. lia.
        + exists b0. specialize (Hbest b0 eq_refl). split_and!; [done|lia|lia].
      - eexists. split; [done|]. rewrite candidate_start. lia. }
    clearbody best'. clear -Hb Htot Hst.
    assert (∀ fuel s' b1, total b ≤ total b1 →
      (total b1 = total b → utc (pl_starts_at b1) ≤ utc (pl_starts_at b)) →
      ∃ b', scan fuel z a r ps counts upper s' (Some b1) = Some b' ∧ total b ≤ total b'
        ∧ (total b' = total b → utc (pl_starts_at b') ≤ utc (pl_starts_at b))) as Hkeep.
    { clear. intros fuel. induction fuel as [|fuel IH]; intros s' b1 H1 H2; cbn [scan]; [by eauto|].
      destruct (s' <=? upper); [|by eauto].
      destruct (is_free ps _); cbn [andb better]; [|by apply IH].
      destruct (_ <? _) eqn:E; [|by apply IH].
      bool_to_prop. apply IH; lia. }
    rewrite Hb. destruct (Hkeep fuel (s + minutes 1) b) as (b' & -> & Hb1 & Hb2); [lia..|].
    exists b'. split_and!; [done|lia|]. intros ?. etrans; [apply Hb2; lia|lia].
  - assert (s + minutes (Z.of_nat (S k)) = s + minutes 1 + minutes (Z.of_nat k)) as Heq by (unfold minutes; lia).
    rewrite Heq in *. apply IH; [lia|done|done|done].
Qed.
End scan.

Lemma grid_size_enough lo hi (k : nat) : lo + minutes (Z.of_nat k) ≤ hi → (k < grid_size lo hi)%nat.
Proof.
  unfold grid_size, minutes. intros H.
  assert (Z.of_nat k ≤ (hi - lo) / minute) by (apply Z.div_le_lower_bound; [done|lia]). lia.
Qed.

Record best_spec (z : zone) (a : PlanActivity) (r : DayPlanRequest) (ps : list Placement)
    (counts : gmap string Z) (b : Placement) : Prop := {
  bp_candidate : b = candidate z a r counts (utc (pl_starts_at b));
  bp_free : is_free ps b = true;
  bp_range : ∃ lo hi, placement_bounds a r ps = Some (lo, hi) ∧ lo ≤ utc (pl_starts_at b) ≤ hi
}.

Lemma best_placement_sound z a r ps counts b :
  best_placement z a r ps counts = Some b → best_spec z a r ps counts b.
Proof.
  unfold best_placement. destruct (placement_bounds a r ps) as [[lo hi]|] eqn:Hb; [|done].
  intros [H|(k & Hk & ? & ?)]%scan_sound; [done|].
  assert (utc (pl_starts_at b) = lo + minutes (Z.of_nat k)) as Ht
    by (rewrite Hk; apply candidate_start).
  constructor; [by rewrite Ht|done|]. exists lo, hi. split; [done|].
  pose proof (minutes_nonneg (Z.of_nat k)). lia.
Qed.

(** Every free minute of the bounds is matched or beaten, ties going to the
    earliest start; in particular a result exists whenever a free minute does. *)
Lemma best_placement_optimal z a r ps counts lo hi (k : nat) :
  placement_bounds a r ps = Some (lo, hi) →
  let c := candidate z a r counts (lo + minutes (Z.of_nat k)) in
  lo + minutes (Z.of_nat k) ≤ hi → is_free ps c = true →
  ∃ b, best_placement z a r ps counts = Some b
    ∧ sb_total (pl_score c) ≤ sb_total (pl_score b)
    ∧ (sb_total (pl_score b) = sb_total (pl_score c) →
       utc (pl_starts_at b) ≤ utc (pl_starts_at c)).
Proof.
  intros Hb c Hk Hf. unfold best_placement. rewrite Hb. unfold c. rewrite candidate_start.
  apply scan_optimal; [by apply grid_size_enough|done|done|done].
Qed.

Lemma is_free_spec ps c : is_free ps c = true ↔ Forall (disjoint_reservations c) ps.
Proof.
  unfold is_free, disjoint_reservations. rewrite forallb_forall, Forall_forall.
  setoid_rewrite list_elem_of_In. setoid_rewrite negb_true_iff. done.
Qed.

Lemma best_placement_activity z a r ps counts b :
  best_placement z a r ps counts = Some b → pl_activity b = a.
Proof. intros [Hc _ _]%best_placement_sound. by rewrite Hc. Qed.

Lemma best_placement_id z a r ps counts b :
  best_placement z a r ps counts = Some b → pl_id b = pa_activity_id a.
Proof. intros H. unfold pl_id. by rewrite (best_placement_activity _ _ _ _ _ _ H). Qed.

Lemma minutes_add a b : minutes (a + b) = minutes a + minutes b.
Proof. unfold minutes. lia. Qed.

Lemma best_placement_ok z a r ps counts b :
  a ∈ dr_activities r → best_placement z a r ps counts = Some b → placement_ok r b.
Proof.
  intros Ha [Hc Hf (lo & hi & Hb & Hlo & Hhi)]%best_placement_sound.
  apply placement_bounds_spec in Hb as [].
  assert (pl_activity b = a) as Hpa by by rewrite Hc.
  assert (utc (pl_ends_at b) = utc (pl_starts_at b) + minutes (pa_duration_minutes a)) as He.
  { rewrite Hc at 1. apply candidate_end. }
  rewrite minutes_add in *.
  constructor; unfold reservation_start, reservation_end, satisfies_time_bounds;
    rewrite ?Hpa, ?He; try lia; [done| |].
  - apply andb_true_iff; split; [apply andb_true_iff; split|].
    + destruct (pa_earliest_start a) as [d|]; simpl; [|done].
      specialize (bs_earliest0 d eq_refl). apply Z.leb_le. lia.
    + destruct (pa_latest_end a) as [d|]; simpl; [|done].
      specialize (bs_latest0 d eq_refl). apply Z.leb_le. lia.
    + destruct (hard_deadline a r) as [d|]; simpl; [|done].
      specialize (bs_deadline0 d eq_refl). apply Z.leb_le. lia.
  - replace (_ + _ - _) with (minutes (pa_duration_minutes a)) by lia.
    apply floor_minutes_minutes.
Qed.

(** Dependencies of [p] that are placed in [ps] and end before it starts. *)
Definition dependencies_met (ps : list Placement) (p : Placement) : Prop :=
  ∀ d, d ∈ pa_dependencies (pl_activity p) →
    ∃ q, q ∈ ps ∧ pl_id q = d ∧ utc (pl_ends_at q) ≤ utc (pl_starts_at p).

Lemma dependencies_met_mono ps ps' p :
  ps ⊆ ps' → dependencies_met ps p → dependencies_met ps' p.
Proof. intros Hs Hm d Hd. destruct (Hm d Hd) as (q & ? & ? & ?). exists q. set_solver. Qed.

Lemma best_placement_dependencies z a r ps counts b :
  best_placement z a r ps counts = Some b → dependencies_met ps b.
Proof.
  intros H. pose proof (best_placement_activity _ _ _ _ _ _ H) as Hpa.
  apply best_placement_sound in H as [_ _ (lo & hi & Hb & Hlo & _)].
  apply placement_bounds_spec in Hb as [].
  intros d Hd. rewrite Hpa in Hd. destruct (bs_all_placed0 d Hd) as (q & Hq & <-).
  exists q. split_and!; [done|done|]. specialize (bs_predecessors0 q Hq Hd). lia.
Qed.

(** ** The greedy loop *)

Record flex_inv (r : DayPlanRequest) (st : FlexState) : Prop := {
  fi_ok : placements_ok r (fs_placements st);
  fi_scheduled : fs_scheduled st = list_to_set (map pl_id (fs_placements st));
  fi_flexible : Forall (λ kv, kv.1 = pa_activity_id kv.2 ∧ kv.2 ∈ dr_activities r
                              ∧ pa_flexibility kv.2 = FLEXIBLE) (fs_flexible st);
  fi_partition : map pl_id (fs_placements st) ++ (fs_flexible st).*1
                 ++ map ua_activity_id (fs_unscheduled st)
                 ≡ₚ map pa_activity_id (dr_activities r);
  fi_dependencies : ∀ p, p ∈ fs_placements st → pa_flexibility (pl_activity p) = FLEXIBLE →
                    dependencies_met (fs_placements st) p
}.

Lemma entry_ids (f : PlanActivity → UnscheduledActivity) (d : flexible_dict) :
  (∀ a, ua_activity_id (f a) = pa_activity_id a) →
  Forall (λ kv, kv.1 = pa_activity_id kv.2) d →
  map ua_activity_id (map f (py_sorted by_id (map snd d))) ≡ₚ d.*1.
Proof.
  intros Hf Hd. rewrite map_map, py_sorted_perm, map_map.
  assert (map (λ kv, ua_activity_id (f kv.2)) d = d.*1) as ->; [|done].
  induction Hd as [|[k a] d Hk _ IH]; simpl in *; [done|]. by rewrite Hf, IH, Hk.
Qed.

Section step.
Context (z : zone) (r : DayPlanRequest) (Hwf : request_wf r) (counts : gmap string Z).

(** Dropping the entries whose dependencies do not exist keeps the invariant. *)
Definition drop_missing (all_ids : gset string) (st : FlexState) : FlexState :=
  {| fs_flexible := filter (λ kv, deps_within all_ids kv.2 = true) (fs_flexible st);
     fs_placements := fs_placements st;
     fs_scheduled := fs_scheduled st;
     fs_unscheduled := fs_unscheduled st ++ map (missing_entry all_ids)
       (py_sorted by_id
          (map snd (filter (λ kv, deps_within all_ids kv.2 = false) (fs_flexible st)))) |}.

Lemma fi_keys st : flex_inv r st →
  Forall (λ kv, kv.1 = pa_activity_id kv.2) (fs_flexible st).
Proof. intros Hi. eapply Forall_impl; [apply Hi|]. by intros kv (? & _). Qed.

Lemma fi_nodup st : flex_inv r st → NoDup (map pl_id (fs_placements st) ++ (fs_flexible st).*1).
Proof.
  intros Hi. pose proof (rwf_ids r Hwf) as Hn. rewrite <- (fi_partition r st Hi) in Hn.
  rewrite (assoc (++)) in Hn. by apply NoDup_app in Hn as [? _].
Qed.

Lemma drop_missing_inv all_ids st : flex_inv r st → flex_inv r (drop_missing all_ids st).
Proof.
  intros Hi. pose proof (fi_keys st Hi) as Hk. destruct Hi. constructor; simpl; try done.
  - by apply Forall_filter.
  - rewrite <- fi_partition0, map_app, entry_ids; [|done|by apply Forall_filter].
    rewrite (filter_split (λ kv, deps_within all_ids kv.2) (fs_flexible st)) at 3.
    rewrite fmap_app. solve_Permutation.
Qed.

Lemma flexible_elem st a :
  flex_inv r st → a ∈ map snd (fs_flexible st) →
  a ∈ dr_activities r ∧ pa_flexibility a = FLEXIBLE ∧ pa_activity_id a ∈ (fs_flexible st).*1.
Proof.
  intros Hi ([k a'] & -> & Hin)%list_elem_of_fmap. pose proof (fi_flexible r st Hi) as Hf.
  rewrite Forall_forall in Hf. destruct (Hf _ Hin) as (Hk & ? & ?). simpl in *.
  split_and!; [done|done|]. apply list_elem_of_fmap. by exists (k, a').
Qed.

Definition place_chosen (chosen : Placement) (st : FlexState) : FlexState :=
  {| fs_flexible := dict_del (pl_id chosen) (fs_flexible st);
     fs_placements := fs_placements st ++ [chosen];
     fs_scheduled := {[pl_id chosen]} ∪ fs_scheduled st;
     fs_unscheduled := fs_unscheduled st |}.

Lemma place_chosen_ok st a chosen :
  flex_inv r st → a ∈ map snd (fs_flexible st) →
  best_placement z a r (fs_placements st) counts = Some chosen →
  placements_ok r (fs_placements st ++ [chosen]).
Proof.
  intros Hi Ha Hb. destruct (flexible_elem st a Hi Ha) as (Har & _ & Hkey).
  pose proof (fi_nodup st Hi) as Hn. apply NoDup_app in Hn as (_ & Hd & _).
  destruct (fi_ok r st Hi) as [He Hp Hids].
  constructor.
  - apply Forall_app; split; [done|]. apply Forall_singleton. by eapply best_placement_ok.
  - apply pairwise_snoc; [done|].
    apply best_placement_sound in Hb as [_ Hfree%is_free_spec _].
    eapply Forall_impl; [exact Hfree|]. intros q Hq. exact (disjoint_reservations_sym _ _ Hq).
  - rewrite map_app. apply NoDup_app. split_and!; [done| |apply NoDup_singleton].
    intros x Hx Hx'. simpl in Hx'. apply list_elem_of_singleton in Hx' as ->.
    rewrite (best_placement_id _ _ _ _ _ _ Hb) in Hx. by apply (Hd _ Hx).
Qed.

Lemma place_chosen_inv st a chosen :
  flex_inv r st → a ∈ map snd (fs_flexible st) →
  best_placement z a r (fs_placements st) counts = Some chosen →
  flex_inv r (place_chosen chosen st).
Proof.
  intros Hi Ha Hb. destruct (flexible_elem st a Hi Ha) as (_ & _ & Hkey).
  pose proof (place_chosen_ok st a chosen Hi Ha Hb) as Hok.
  pose proof (best_placement_id _ _ _ _ _ _ Hb) as Hid.
  pose proof (fi_nodup st Hi) as Hn. apply NoDup_app in Hn as (_ & _ & Hn).
  constructor; simpl.
  - done.
  - rewrite map_app, list_to_set_app_L, (fi_scheduled r st Hi). simpl. set_solver.
  - apply Forall_filter, Hi.
  - rewrite <- (fi_partition r st Hi), map_app.
    rewrite (dict_del_keys (pl_id chosen) (fs_flexible st)); [|done|by rewrite Hid].
    simpl. solve_Permutation.
  - intros p [Hp|Hp]%elem_of_app Hf.
    + eapply dependencies_met_mono; [|by apply (fi_dependencies r st Hi)]. set_solver.
    + apply list_elem_of_singleton in Hp as ->.
      eapply dependencies_met_mono; [|by eapply best_placement_dependencies]. set_solver.
Qed.

(** Moving the entries selected by [f] to the unscheduled list. *)
Lemma unschedule_inv st (f : PlanActivity → bool) (entry : PlanActivity → UnscheduledActivity) :
  (∀ a, ua_activity_id (entry a) = pa_activity_id a) →
  flex_inv r st →
  flex_inv r
    {| fs_flexible := filter (λ kv, f kv.2 = false) (fs_flexible st);
       fs_placements := fs_placements st;
       fs_scheduled := fs_scheduled st;
       fs_unscheduled := fs_unscheduled st
         ++ map entry (py_sorted by_id
              (filter (λ a, f a = true) (map snd (fs_flexible st)))) |}.
Proof.
  intros He Hi. pose proof (fi_keys st Hi) as Hk. destruct Hi. constructor; simpl; try done.
  - by apply Forall_filter.
  - rewrite <- fi_partition0, map_app, list_filter_map, entry_ids; [|done|by apply Forall_filter].
    rewrite (filter_split (λ kv, f kv.2) (fs_flexible st)) at 3.
    rewrite fmap_app. solve_Permutation.
Qed.

Lemma flexible_step_inv all_ids st :
  flex_inv r st → flex_inv r (flexible_step z r counts all_ids st).
Proof.
  intros Hi. pose proof (drop_missing_inv all_ids st Hi) as Hi1.
  unfold flexible_step. fold (drop_missing all_ids st).
  set (st1 := drop_missing all_ids st) in *.
  change (filter (λ kv, deps_within all_ids kv.2 = true) (fs_flexible st)) with (fs_flexible st1).
  destruct (py_min _ _) as [chosen|] eqn:Hmin.
  - apply py_min_elem in Hmin. apply list_elem_of_omap in Hmin as (a & Ha & Hb).
    apply list_elem_of_filter in Ha as [_ Ha].
    exact (place_chosen_inv st1 a chosen Hi1 Ha Hb).
  - destruct (filter _ (map snd (fs_flexible st1))) as [|a l] eqn:Hel.
    + pose proof (unschedule_inv st1 (λ _, true) (blocked_entry (fs_scheduled st))
        ltac:(done) Hi1) as Hu.
      rewrite (list_filter_all (λ _, true = true) (map snd (fs_flexible st1))) in Hu;
        [|by apply Forall_forall].
      replace (filter (λ kv, true = false) (fs_flexible st1)) with (@nil (string * PlanActivity))
        in Hu; [exact Hu|].
      symmetry. clear. induction (fs_flexible st1); [done|]. by rewrite filter_cons.
    + rewrite <- Hel.
      exact (unschedule_inv st1 (deps_within (fs_scheduled st)) capacity_entry ltac:(done) Hi1).
Qed.

(** Every iteration removes at least one entry: the loop measure. *)
Lemma flexible_step_length all_ids st :
  flex_inv r st → fs_flexible st ≠ [] →
  (length (fs_flexible (flexible_step z r counts all_ids st)) < length (fs_flexible st))%nat.
Proof.
  intros Hi Hne. pose proof (drop_missing_inv all_ids st Hi) as Hi1. unfold flexible_step.
  set (st1 := drop_missing all_ids st) in *.
  change (filter (λ kv, deps_within all_ids kv.2 = true) (fs_flexible st)) with (fs_flexible st1).
  assert (length (fs_flexible st1) ≤ length (fs_flexible st))%nat as Hle by apply length_filter.
  destruct (py_min _ _) as [chosen|] eqn:Hmin.
  - apply py_min_elem in Hmin. apply list_elem_of_omap in Hmin as (a & Ha & Hb).
    apply list_elem_of_filter in Ha as [_ Ha].
    destruct (flexible_elem st1 a Hi1 Ha) as (_ & _ & Hkey). cbn [fs_flexible].
    assert (length (dict_del (pl_id chosen) (fs_flexible st1)) < length (fs_flexible st1))%nat
      by (apply dict_del_length; by rewrite (best_placement_id _ _ _ _ _ _ Hb)). lia.
  - destruct (filter _ (map snd (fs_flexible st1))) as [|a l] eqn:Hel; cbn [fs_flexible].
    + destruct (fs_flexible st); [done|simpl; lia].
    + assert (a ∈ a :: l) as Ha by set_solver. rewrite <- Hel in Ha.
      apply list_elem_of_filter in Ha as [Hd ([k a'] & -> & Hin)%list_elem_of_fmap].
      assert (length (filter (λ kv, deps_within (fs_scheduled st) kv.2 = false)
                        (fs_flexible st1)) < length (fs_flexible st1))%nat.
      { apply (length_filter_lt _ _ (k, a')); [done|]. simpl in *. by rewrite Hd. }
      lia.
Qed.

Lemma flexible_loop_total fuel all_ids st :
  flex_inv r st → (length (fs_flexible st) ≤ fuel)%nat →
  ∃ st', flexible_loop fuel z r counts all_ids st = Some st' ∧ flex_inv r st'
         ∧ fs_flexible st' = [] ∧ fs_placements st ⊆ fs_placements st'.
Proof.
  revert st. induction fuel as [|fuel IH]; intros st Hi Hl; simpl;
    destruct (fs_flexible st) as [|kv d] eqn:Hf.
  - by exists st.
  - simpl in Hl. lia.
  - by exists st.
  - rewrite <- Hf in Hl.
    destruct (IH (flexible_step z r counts all_ids st)) as (st' & ? & ? & ? & Hs).
    + by apply flexible_step_inv.
    + pose proof (flexible_step_length all_ids st Hi ltac:(by rewrite Hf)). lia.
    + exists st'. split_and!; [done..|]. etrans; [|exact Hs].
      unfold flexible_step. destruct (py_min _ _); simpl; [set_solver|].
      by destruct (filter _ (map _ _)).
Qed.

Lemma flexible_of_spec :
  flexible_of r = map (λ a, (pa_activity_id a, a))
                    (filter (λ a, pa_flexibility a = FLEXIBLE) (dr_activities r)).
Proof.
  apply dict_of_nodup. rewrite <- list_fmap_compose. simpl.
  apply (NoDup_map_filter pa_activity_id), Hwf.
Qed.

Lemma flexible_start_inv ps :
  place_fixed r counts = FixedPlacements ps → flex_inv r (flexible_start r ps).
Proof.
  intros [Hps Hok]%place_fixed_ok; [|done]. constructor; simpl; [done|done| | |].
  - rewrite flexible_of_spec. apply Forall_fmap, Forall_forall.
    intros a [? ?]%list_elem_of_filter. done.
  - rewrite app_nil_r, flexible_of_spec, Hps, map_map, <- list_fmap_compose.
    unfold fixed_activities. rewrite py_sorted_perm. simpl.
    rewrite <- (filter_app_complement (λ a, pa_flexibility a = FLEXIBLE) (dr_activities r)) at 3.
    rewrite map_app. apply Permutation_app_comm.
  - rewrite Hps. intros p (a & -> & Ha)%list_elem_of_fmap Hf.
    apply fixed_activities_elem in Ha as [_ Ha]. done.
Qed.
End step.

(** ** Summary of the two placement passes *)

Record plan_ok (r : DayPlanRequest) (ps : list Placement) (un : list UnscheduledActivity) : Prop := {
  po_placements : placements_ok r ps;
  po_partition : map pl_id ps ++ map ua_activity_id un ≡ₚ map pa_activity_id (dr_activities r);
  po_dependencies : ∀ p, p ∈ ps → pa_flexibility (pl_activity p) = FLEXIBLE →
                    dependencies_met ps p
}.

Lemma place_flexible_total z r counts ps0 :
  request_wf r → place_fixed r counts = FixedPlacements ps0 →
  ∃ ps un, place_flexible z r ps0 counts = Some (ps, un) ∧ plan_ok r ps un ∧ ps0 ⊆ ps.
Proof.
  intros Hwf Hf. pose proof (flexible_start_inv r Hwf counts ps0 Hf) as Hi.
  destruct (flexible_loop_total z r Hwf counts (length (flexible_of r)) (all_activity_ids r)
              (flexible_start r ps0) Hi ltac:(done)) as (st & Hl & Hi' & Hnil & Hsub).
  exists (fs_placements st), (fs_unscheduled st). unfold place_flexible. rewrite Hl.
  split_and!; [done| |done].
  destruct Hi'. constructor; [done| |done]. by rewrite Hnil in fi_partition0.
Qed.

(** ** Dependencies of the finished list *)

Lemma placements_by_id_lookup ps d q :
  NoDup (map pl_id ps) → placements_by_id ps !! d = Some q ↔ q ∈ ps ∧ pl_id q = d.
Proof.
  unfold placements_by_id. rewrite <- (reverse_involutive ps). generalize (reverse ps). clear ps.
  intros ps. induction ps as [|p ps IH]; [simpl; rewrite lookup_empty; set_solver|].
  rewrite reverse_cons, map_app, foldl_app. simpl. intros (Hn & Hd & _)%NoDup_app.
  rewrite lookup_insert. case_decide as Hpd.
  - split; [intros [= <-]; set_solver|].
    intros [[Hq|Hq]%elem_of_app Hid].
    + destruct (Hd d); [rewrite <- Hid; apply list_elem_of_fmap; eauto|set_solver].
    + apply list_elem_of_singleton in Hq as ->. done.
  - rewrite IH by done. set_solver.
Qed.

Lemma dependency_broken_false ps p d :
  NoDup (map pl_id ps) →
  dependency_broken (placements_by_id ps) p d = false ↔
  ∃ q, q ∈ ps ∧ pl_id q = d ∧ utc (pl_ends_at q) ≤ utc (pl_starts_at p).
Proof.
  intros Hn. unfold dependency_broken. destruct (_ !! d) as [q|] eqn:Hq.
  - apply placements_by_id_lookup in Hq as [Hin Hid]; [|done]. rewrite Z.ltb_ge. split; [eauto|].
    intros (q' & Hin' & Hid' & ?). assert (q' = q) as ->; [|done].
    apply (inj Some). rewrite <- (proj2 (placements_by_id_lookup ps d q Hn)) by done.
    symmetry. by apply placements_by_id_lookup.
  - split; [done|]. intros (q & Hin & Hid & _).
    assert (placements_by_id ps !! d = Some q) by by apply placements_by_id_lookup. congruence.
Qed.

Lemma invalid_dependencies_elem ps x :
  NoDup (map pl_id ps) →
  x ∈ invalid_dependencies ps ↔ ∃ p, p ∈ ps ∧ pl_id p = x ∧ ¬ dependencies_met ps p.
Proof.
  intros Hn. unfold invalid_dependencies. rewrite elem_of_list_to_set, list_elem_of_fmap.
  split.
  - intros (p & -> & [He Hp]%list_elem_of_filter). exists p. split_and!; [done|done|].
    intros Hm. apply existsb_exists in He as (d & Hd%list_elem_of_In & Hb).
    assert (dependency_broken (placements_by_id ps) p d = false) as Hf
      by by apply dependency_broken_false, Hm. congruence.
  - intros (p & Hp & <- & Hm). exists p. split; [done|]. apply list_elem_of_filter. split; [|done].
    apply not_false_is_true. intros He. apply Hm. intros d Hd.
    apply dependency_broken_false; [done|]. apply not_true_is_false. intros Hb.
    rewrite <- not_true_iff_false in He. apply He, existsb_exists.
    exists d. by rewrite <- list_elem_of_In.
Qed.
