(* ===== verification/PlannerExplanation.v ===== *)
(** * Minute blocks and explanations (planner_explanation.py)

    [build_internal_plan] renders placements and free time; the main result is
    that its blocks tile the planning window without gap or overlap.
    [explain_activity] gives every activity one explanation. *)

From S2P Require Import Prelude PyTime PlannerModels PlannerScoring PlannerPlacement.
From stdpp Require Import prelude strings list gmap sorting pretty.
From Stdlib Require Import ZArith Lia.

Open Scope Z_scope.

Definition _block_kind (f : ActivityFlexibility) : PlanBlockKind :=
  match f with
  | FIXED => KFIXED
  | FLEXIBLE => KFLEXIBLE
  | PROTECTED => KPROTECTED
  end.

Definition overdue (a : PlanActivity) (r : DayPlanRequest) : bool :=
  match pa_deadline a with
  | Some d => utc d <? utc (dr_window_start r)
  | None => false
  end.

Definition _explanation_code (a : PlanActivity) (r : DayPlanRequest) : ExplanationCode :=
  if overdue a r then EOVERDUE
  else match pa_flexibility a with
       | FIXED => EFIXED
       | PROTECTED => EPROTECTED
       | FLEXIBLE => ESCHEDULED
       end.

Definition _travel_block (p : Placement) (before : bool) (z : zone) (code : ExplanationCode) :
    PlanBlock :=
  let a := pl_activity p in
  let starts_at := if before then reservation_start p else utc (pl_ends_at p) in
  let ends_at := if before then utc (pl_starts_at p) else reservation_end p in
  let direction := if before then "to" else "from" in
  {| pb_block_id := "travel-" +:+ (if before then "before" else "after") +:+ ":"
                    +:+ pa_activity_id a;
     pb_activity_id := Some (pa_activity_id a);
     pb_title := "Travel " +:+ direction +:+ " " +:+ pa_title a;
     pb_kind := KTRAVEL;
     pb_starts_at := astimezone z starts_at;
     pb_ends_at := astimezone z ends_at;
     pb_display_group := pa_display_group a;
     pb_display_title := Some (str_or (pa_display_title a) (pa_title a));
     pb_guidance := pa_guidance a;
     pb_deadline := pa_deadline a;
     pb_explanation_code := Some code;
     pb_calendar_eligible := pa_calendar_eligible a;
     pb_personal_micro_event := pa_personal_micro_event a |}.

Definition _available_block (starts_at ends_at : Z) (z : zone) : PlanBlock :=
  {| pb_block_id := "available:" +:+ isoformat (utc_datetime starts_at);
     pb_activity_id := None;
     pb_title := "Available";
     pb_kind := KAVAILABLE;
     pb_starts_at := astimezone z starts_at;
     pb_ends_at := astimezone z ends_at;
     pb_display_group := None;
     pb_display_title := None;
     pb_guidance := [];
     pb_deadline := None;
     pb_explanation_code := None;
     pb_calendar_eligible := false;
     pb_personal_micro_event := false |}.

Definition activity_block (p : Placement) (z : zone) (code : ExplanationCode) : PlanBlock :=
  let a := pl_activity p in
  {| pb_block_id := "activity:" +:+ pa_activity_id a;
     pb_activity_id := Some (pa_activity_id a);
     pb_title := pa_title a;
     pb_kind := _block_kind (pa_flexibility a);
     pb_starts_at := astimezone z (utc (pl_starts_at p));
     pb_ends_at := astimezone z (utc (pl_ends_at p));
     pb_display_group := pa_display_group a;
     pb_display_title := pa_display_title a;
     pb_guidance := pa_guidance a;
     pb_deadline := pa_deadline a;
     pb_explanation_code := Some code;
     pb_calendar_eligible := pa_calendar_eligible a;
     pb_personal_micro_event := pa_personal_micro_event a |}.

(** The blocks one placement contributes, in the order they are appended. *)
Definition placement_blocks (r : DayPlanRequest) (z : zone) (p : Placement) : list PlanBlock :=
  let a := pl_activity p in
  let code := _explanation_code a r in
  (if pa_travel_minutes_before a =? 0 then [] else [_travel_block p true z code])
  ++ [activity_block p z code]
  ++ (if pa_travel_minutes_after a =? 0 then [] else [_travel_block p false z code]).

(** Sort key [(starts_at.astimezone(UTC), block_id)]. *)
Definition block_ltb (b c : PlanBlock) : bool :=
  if utc (pb_starts_at b) =? utc (pb_starts_at c)
  then String.ltb (pb_block_id b) (pb_block_id c)
  else utc (pb_starts_at b) <? utc (pb_starts_at c).

(** The cursor loop that inserts an available block before each gap. *)
Fixpoint with_gaps (z : zone) (cursor window_end : Z) (blocks : list PlanBlock) : list PlanBlock :=
  match blocks with
  | [] => if cursor <? window_end then [_available_block cursor window_end z] else []
  | b :: bs =>
      let block_start := utc (pb_starts_at b) in
      (if cursor <? block_start then [_available_block cursor block_start z] else [])
      ++ b :: with_gaps z (utc (pb_ends_at b)) window_end bs
  end.

Definition activity_blocks (r : DayPlanRequest) (z : zone) (placements : list Placement) :
    list PlanBlock :=
  py_sorted block_ltb (concat (map (placement_blocks r z) placements)).

Definition build_internal_plan (r : DayPlanRequest) (z : zone) (placements : list Placement) :
    list PlanBlock :=
  with_gaps z (utc (dr_window_start r)) (utc (dr_window_end r)) (activity_blocks r z placements).

(** ** Explanations *)

Definition _constraints (a : PlanActivity) : list string :=
  ["duration=" +:+ pretty (pa_duration_minutes a) +:+ "m"]
  ++ (match pa_deadline a with Some d => ["deadline=" +:+ isoformat d] | None => [] end)
  ++ (if pa_recover_missed_deadline a then ["recover_missed_deadline=true"] else [])
  ++ (match pa_dependencies a with
      | [] => []
      | ds => ["dependencies=" +:+ String.concat "," ds]
      end)
  ++ (if (pa_travel_minutes_before a =? 0) && (pa_travel_minutes_after a =? 0) then []
      else ["travel=" +:+ pretty (pa_travel_minutes_before a) +:+ "m/"
            +:+ pretty (pa_travel_minutes_after a) +:+ "m"])
  ++ ["energy=" +:+ pretty (pa_energy_required a); "goal_weight=" +:+ pretty (pa_goal_weight a)].

Definition overdue_summary (a : PlanActivity) (r : DayPlanRequest) : string :=
  let overdue_minutes :=
    match pa_deadline a with
    | Some d => floor_minutes (utc (dr_window_start r) - utc d)
    | None => 0
    end in
  let hours := overdue_minutes / 60 in
  let mins := overdue_minutes mod 60 in
  "Scheduled as explicitly requested recovery work; its deadline was missed by "
  +:+ pretty hours +:+ " " +:+ (if hours =? 1 then "hour" else "hours") +:+ " and "
  +:+ pretty mins +:+ " " +:+ (if mins =? 1 then "minute" else "minutes")
  +:+ " at the planning window.".

Definition code_summary (code : ExplanationCode) (a : PlanActivity) (r : DayPlanRequest) : string :=
  match code with
  | EOVERDUE => overdue_summary a r
  | EFIXED => "Kept at its fixed time and protected from flexible work."
  | EPROTECTED => "Preserved at its protected time before placing flexible work."
  | ESCHEDULED => "Placed in the highest-scoring available minute interval."
  | EINFEASIBLE => "The activity could not be placed without violating constraints."
  end.

Definition scheduled_block_ids (a : PlanActivity) : list string :=
  (if pa_travel_minutes_before a =? 0 then [] else ["travel-before:" +:+ pa_activity_id a])
  ++ ["activity:" +:+ pa_activity_id a]
  ++ (if pa_travel_minutes_after a =? 0 then [] else ["travel-after:" +:+ pa_activity_id a]).

(** [None] is the [StopIteration] of the second [next]. *)
Definition explain_activity (a : PlanActivity) (r : DayPlanRequest) (placements : list Placement)
    (unscheduled : list UnscheduledActivity) (dependent_count : Z) : option TaskExplanation :=
  match List.find (λ p, String.eqb (pl_id p) (pa_activity_id a)) placements with
  | None =>
      reason ← List.find (λ u, String.eqb (ua_activity_id u) (pa_activity_id a)) unscheduled;
      Some {| te_activity_id := pa_activity_id a;
              te_code := EINFEASIBLE;
              te_summary := ua_detail reason;
              te_score := score_activity a r (dr_window_start r) dependent_count;
              te_scheduled_block_ids := [];
              te_constraints := _constraints a |}
  | Some p =>
      let code := _explanation_code a r in
      Some {| te_activity_id := pa_activity_id a;
              te_code := code;
              te_summary := code_summary code a r;
              te_score := pl_score p;
              te_scheduled_block_ids := scheduled_block_ids a;
              te_constraints := _constraints a |}
  end.

Definition infeasible_explanation (a : PlanActivity) (r : DayPlanRequest) (dependent_count : Z) :
    TaskExplanation :=
  {| te_activity_id := pa_activity_id a;
     te_code := EINFEASIBLE;
     te_summary := "Fixed or protected reservation violates a hard time constraint "
                   +:+ "or overlaps another interval.";
     te_score := score_activity a r (default (dr_window_start r) (pa_fixed_start a))
                   dependent_count;
     te_scheduled_block_ids := [];
     te_constraints := _constraints a |}.

(** ** Tiling of the planning window *)

(** [blocks] covers exactly the instants from [lo] to [hi], each block starting
    where the previous one ended and having positive length. *)
Fixpoint tiles (lo hi : Z) (blocks : list PlanBlock) : Prop :=
  match blocks with
  | [] => lo = hi
  | b :: bs => utc (pb_starts_at b) = lo ∧ lo < utc (pb_ends_at b) ∧ tiles (utc (pb_ends_at b)) hi bs
  end.

Abbreviation bstart b := (utc (pb_starts_at b)).
Abbreviation bend b := (utc (pb_ends_at b)).

Definition blocks_apart (b c : PlanBlock) : Prop := bend b ≤ bstart c ∨ bend c ≤ bstart b.

#[export] Instance blocks_apart_sym : Symmetric blocks_apart.
Proof. intros b c. unfold blocks_apart. tauto. Qed.

Lemma block_ltb_asym b c : block_ltb b c = true → block_ltb c b = false.
Proof.
  unfold block_ltb. rewrite (Z.eqb_sym (bstart c)).
  destruct (bstart b =? bstart c) eqn:E; [apply string_ltb_asym|].
  bool_to_prop. rewrite Z.ltb_lt, Z.ltb_ge. lia.
Qed.

Lemma block_not_after b c :
  not_after block_ltb b c ↔
  bstart b < bstart c ∨ (bstart b = bstart c ∧ not_after String.ltb (pb_block_id b) (pb_block_id c)).
Proof.
  unfold not_after, block_ltb. destruct (bstart c =? bstart b) eqn:E; bool_to_prop.
  - split; [right; split; [lia|done]|]. intros [?|[? ?]]; [lia|done].
  - rewrite Z.ltb_ge. lia.
Qed.

Lemma block_not_after_trans b c d :
  not_after block_ltb b c → not_after block_ltb c d → not_after block_ltb b d.
Proof.
  rewrite !block_not_after. intros [?|[? H1]] [?|[? H2]]; [left; lia..|].
  right. split; [lia|]. by eapply string_not_after_trans.
Qed.

(** Sorted, pairwise apart blocks of positive length form a chain. *)
Inductive chained : Z → list PlanBlock → Prop :=
| chained_nil lo : chained lo []
| chained_cons lo b bs : lo ≤ bstart b → bstart b < bend b → chained (bend b) bs → chained lo (b :: bs).

Lemma chained_sorted lo bs :
  StronglySorted (not_after block_ltb) bs → ForallOrdPairs blocks_apart bs →
  Forall (λ b, bstart b < bend b) bs → Forall (λ b, lo ≤ bstart b) bs → chained lo bs.
Proof.
  intros Hs. revert lo. induction Hs as [|b bs Hs IH Hb]; intros lo Hp Hpos Hlo; [constructor|].
  inversion_clear Hp as [|? ? Hab Hp'].
  apply Forall_cons in Hpos as [Hbpos Hpos]. apply Forall_cons in Hlo as [Hblo _].
  constructor; [done|done|]. apply IH; [done|done|].
  rewrite Forall_forall in Hb, Hab, Hpos |- *. intros c Hc.
  specialize (Hb c Hc). specialize (Hab c Hc). specialize (Hpos c Hc). simpl in Hpos.
  apply block_not_after in Hb. unfold blocks_apart in Hab. lia.
Qed.

Lemma with_gaps_tiles z lo hi bs :
  chained lo bs → Forall (λ b, bend b ≤ hi) bs → lo ≤ hi → tiles lo hi (with_gaps z lo hi bs).
Proof.
  intros Hc. induction Hc as [lo|lo b bs Hlo Hpos Hc IH]; intros Hhi Hle; simpl.
  - destruct (lo <? hi) eqn:E; bool_to_prop; simpl; [|lia].
    rewrite !utc_astimezone. lia.
  - apply Forall_cons in Hhi as [Hbhi Hhi]. specialize (IH Hhi Hbhi).
    destruct (lo <? bstart b) eqn:E; bool_to_prop; simpl.
    + rewrite !utc_astimezone. auto with lia.
    + split_and!; [lia|lia|done].
Qed.

Section blocks_of_placements.
Context (r : DayPlanRequest) (z : zone) (Hwf : request_wf r).

Lemma placement_length p :
  placement_ok r p → 0 ≤ minutes (pa_travel_minutes_before (pl_activity p))
  ∧ utc (pl_starts_at p) < utc (pl_ends_at p)
  ∧ 0 ≤ minutes (pa_travel_minutes_after (pl_activity p)).
Proof.
  intros [Hin _ _ _ Hlen]. pose proof (rwf_activities r Hwf) as Ha.
  rewrite Forall_forall in Ha. destruct (Ha _ Hin) as [Hd Hb Haf _].
  pose proof (floor_minutes_le 1 (utc (pl_ends_at p) - utc (pl_starts_at p)) ltac:(lia)).
  unfold minutes, minute, second in *. lia.
Qed.

(** Each block of a placement lies inside its reservation. *)
Lemma placement_blocks_within p b :
  placement_ok r p → b ∈ placement_blocks r z p →
  reservation_start p ≤ bstart b ∧ bstart b < bend b ∧ bend b ≤ reservation_end p.
Proof.
  intros Hp Hb. destruct (placement_length p Hp) as (? & ? & ?).
  pose proof (pk_activity r p Hp) as Hin. pose proof (rwf_activities r Hwf) as Hall.
  rewrite Forall_forall in Hall. destruct (Hall _ Hin) as [_ Hbf Haf _].
  unfold placement_blocks in Hb. unfold reservation_start, reservation_end.
  rewrite !elem_of_app in Hb.
  destruct Hb as [Hb|[Hb|Hb]].
  - destruct (pa_travel_minutes_before _ =? 0) eqn:E; [set_solver|]. bool_to_prop.
    apply list_elem_of_singleton in Hb as ->. simpl. rewrite !utc_astimezone.
    unfold reservation_start, minutes, minute, second in *. lia.
  - apply list_elem_of_singleton in Hb as ->. simpl. rewrite !utc_astimezone. lia.
  - destruct (pa_travel_minutes_after _ =? 0) eqn:E; [set_solver|]. bool_to_prop.
    apply list_elem_of_singleton in Hb as ->. simpl. rewrite !utc_astimezone.
    unfold reservation_end, minutes, minute, second in *. lia.
Qed.

Lemma placement_blocks_apart p :
  placement_ok r p → ForallOrdPairs blocks_apart (placement_blocks r z p).
Proof.
  intros Hp. destruct (placement_length p Hp) as (? & ? & ?). unfold placement_blocks.
  destruct (_ =? 0), (_ =? 0); simpl; repeat constructor; unfold blocks_apart; simpl;
    rewrite !utc_astimezone; lia.
Qed.

Lemma reservations_apart p q b c :
  placement_ok r p → placement_ok r q → disjoint_reservations p q →
  b ∈ placement_blocks r z p → c ∈ placement_blocks r z q → blocks_apart b c.
Proof.
  intros Hp Hq Hd Hb Hc. apply placement_blocks_within in Hb, Hc; try done.
  unfold disjoint_reservations, overlaps in Hd. apply andb_false_iff in Hd.
  unfold blocks_apart. destruct Hd as [Hd|Hd]; apply Z.ltb_ge in Hd; lia.
Qed.

Lemma all_blocks_apart ps :
  Forall (placement_ok r) ps → ForallOrdPairs disjoint_reservations ps →
  ForallOrdPairs blocks_apart (concat (map (placement_blocks r z) ps)).
Proof.
  intros Hok Hd. induction Hd as [|p ps Hp _ IH]; simpl; [constructor|].
  apply Forall_cons in Hok as [Hokp Hok]. apply pairwise_app.
  split_and!; [by apply placement_blocks_apart|by apply IH|].
  intros b c Hb Hc. apply list_elem_of_In, in_concat in Hc as (l & Hl & Hc).
  apply list_elem_of_In, list_elem_of_fmap in Hl as (q & -> & Hq).
  rewrite Forall_forall in Hok, Hp. apply list_elem_of_In in Hc.
  by apply (reservations_apart p q b c Hokp (Hok q Hq) (Hp q Hq)).
Qed.

Lemma build_internal_plan_tiles ps :
  placements_ok r ps →
  tiles (utc (dr_window_start r)) (utc (dr_window_end r)) (build_internal_plan r z ps).
Proof.
  intros [Hok Hd _]. unfold build_internal_plan, activity_blocks.
  assert (∀ b, b ∈ concat (map (placement_blocks r z) ps) →
    utc (dr_window_start r) ≤ bstart b ∧ bstart b < bend b ∧ bend b ≤ utc (dr_window_end r))
    as Hb.
  { intros b (l & Hl & Hb)%list_elem_of_In%in_concat.
    apply list_elem_of_In, list_elem_of_fmap in Hl as (p & -> & Hp).
    rewrite Forall_forall in Hok. specialize (Hok p Hp).
    apply list_elem_of_In, placement_blocks_within in Hb; [|done]. destruct Hok. lia. }
  apply with_gaps_tiles; [apply chained_sorted| |].
  - apply py_sorted_strongly; [apply block_ltb_asym|apply block_not_after_trans].
  - apply (pairwise_perm _ (concat (map (placement_blocks r z) ps)));
      [by rewrite py_sorted_perm|by apply all_blocks_apart].
  - rewrite py_sorted_perm. apply Forall_forall. intros b ?%Hb. tauto.
  - rewrite py_sorted_perm. apply Forall_forall. intros b ?%Hb. tauto.
  - rewrite py_sorted_perm. apply Forall_forall. intros b ?%Hb. tauto.
  - pose proof (rwf_window r Hwf). lia.
Qed.
End blocks_of_placements.
