(* ===== verification/PlannerProjection.v ===== *)
(** * Calendar projection and exact diff (planner_projection.py)

    [project_calendar] consolidates adjacent visible blocks; the proofs describe
    it as a grouping of the visible blocks and say when grouped blocks are really
    adjacent in time.  [build_diff] compares the proposed blocks with the caller's
    baseline; replaying its diff on the baseline gives the proposal back. *)

From S2P Require Import Prelude PyTime PlannerModels PlannerPlacement.
From stdpp Require Import prelude strings list gmap sorting.
From Stdlib Require Import ZArith Lia.

Open Scope Z_scope.

Definition _append_unique (values : list string) (value : string) : list string :=
  if bool_decide (value ∈ values) then values else values ++ [value].

Definition _append_many_unique (values additions : list string) : list string :=
  foldl _append_unique values additions.

Definition _can_merge (previous : CalendarBlock) (b : PlanBlock) (group title : string) : bool :=
  dt_eqb (cb_ends_at previous) (pb_starts_at b)
  && String.eqb (cb_title previous) title
  && String.eqb (cb_display_group previous) group.

(** Membership with Python's [==] on datetimes. *)
Definition dt_mem (d : datetime) (l : list datetime) : bool := existsb (λ x, dt_eqb x d) l.

Definition append_deadline (deadlines : list datetime) (d : option datetime) : list datetime :=
  match d with
  | Some d => if dt_mem d deadlines then deadlines else deadlines ++ [d]
  | None => deadlines
  end.

Definition append_code (codes : list ExplanationCode) (c : option ExplanationCode) :
    list ExplanationCode :=
  match c with
  | Some c => if bool_decide (c ∈ codes) then codes else codes ++ [c]
  | None => codes
  end.

Definition hidden (b : PlanBlock) : bool :=
  bool_decide (pb_kind b = KAVAILABLE) || negb (pb_calendar_eligible b)
  || pb_personal_micro_event b || bool_decide (pb_activity_id b = None).

Definition new_calendar_block (b : PlanBlock) (activity_id group title : string) : CalendarBlock :=
  {| cb_block_id := "calendar:" +:+ activity_id +:+ ":" +:+ activity_id;
     cb_display_group := group;
     cb_title := title;
     cb_starts_at := pb_starts_at b;
     cb_ends_at := pb_ends_at b;
     cb_source_activity_ids := [activity_id];
     cb_segment_titles := [pb_title b];
     cb_transitions := [];
     cb_deadlines := opt_list (pb_deadline b);
     cb_guidance := pb_guidance b;
     cb_explanation_codes := opt_list (pb_explanation_code b) |}.

(** [previous.model_copy(update=...)] *)
Definition merge_block (previous : CalendarBlock) (b : PlanBlock) (activity_id : string) :
    CalendarBlock :=
  let activity_ids := _append_unique (cb_source_activity_ids previous) activity_id in
  {| cb_block_id := "calendar:" +:+ hd "" activity_ids +:+ ":" +:+ List.last activity_ids "";
     cb_display_group := cb_display_group previous;
     cb_title := cb_title previous;
     cb_starts_at := cb_starts_at previous;
     cb_ends_at := pb_ends_at b;
     cb_source_activity_ids := activity_ids;
     cb_segment_titles := _append_unique (cb_segment_titles previous) (pb_title b);
     cb_transitions := cb_transitions previous
       ++ [List.last (cb_segment_titles previous) "" +:+ " -> " +:+ pb_title b];
     cb_deadlines := append_deadline (cb_deadlines previous) (pb_deadline b);
     cb_guidance := _append_many_unique (cb_guidance previous) (pb_guidance b);
     cb_explanation_codes := append_code (cb_explanation_codes previous) (pb_explanation_code b) |}.

Definition block_group (b : PlanBlock) (activity_id : string) : string :=
  str_or (pb_display_group b) activity_id.
Definition block_title (b : PlanBlock) : string := str_or (pb_display_title b) (pb_title b).

(** One iteration; the accumulator is [projected] in reverse. *)
Definition project_step (projected : list CalendarBlock) (b : PlanBlock) : list CalendarBlock :=
  if hidden b then projected
  else match pb_activity_id b with
  | None => projected
  | Some activity_id =>
      let group := block_group b activity_id in
      let title := block_title b in
      match projected with
      | previous :: rest =>
          if _can_merge previous b group title
          then merge_block previous b activity_id :: rest
          else new_calendar_block b activity_id group title :: projected
      | [] => [new_calendar_block b activity_id group title]
      end
  end.

Definition project_calendar (blocks : list PlanBlock) : list CalendarBlock :=
  reverse (foldl project_step [] blocks).

(** ** Diff against the baseline *)

Definition _as_change (b : PlanBlock) : BlockChange :=
  {| bc_block_id := pb_block_id b;
     bc_activity_id := str_or (pb_activity_id b) "unreachable";
     bc_title := pb_title b;
     bc_starts_at := pb_starts_at b;
     bc_ends_at := pb_ends_at b |}.

Definition removed_change (b : ExistingPlanBlock) : BlockChange :=
  {| bc_block_id := eb_block_id b;
     bc_activity_id := eb_activity_id b;
     bc_title := eb_title b;
     bc_starts_at := eb_starts_at b;
     bc_ends_at := eb_ends_at b |}.

Definition proposed_map (blocks : list PlanBlock) : gmap string PlanBlock :=
  foldl (λ m b, if bool_decide (pb_activity_id b = None) || bool_decide (pb_kind b = KAVAILABLE)
                then m else <[pb_block_id b := b]> m) ∅ blocks.

Definition baseline_map (blocks : list ExistingPlanBlock) : gmap string ExistingPlanBlock :=
  foldl (λ m b, <[eb_block_id b := b]> m) ∅ blocks.

Definition interval_moved (b : PlanBlock) (e : ExistingPlanBlock) : bool :=
  negb (dt_eqb (pb_starts_at b) (eb_starts_at e)) || negb (dt_eqb (pb_ends_at b) (eb_ends_at e)).

Definition moved_block (block_id : string) (b : PlanBlock) (e : ExistingPlanBlock) : MovedBlock :=
  {| mb_block_id := block_id;
     mb_activity_id := str_or (pb_activity_id b) "unreachable";
     mb_title := pb_title b;
     mb_previous_starts_at := eb_starts_at e;
     mb_previous_ends_at := eb_ends_at e;
     mb_proposed_starts_at := pb_starts_at b;
     mb_proposed_ends_at := pb_ends_at b |}.

Definition diff_maps (proposed : gmap string PlanBlock) (baseline : gmap string ExistingPlanBlock) :
    PlanDiff :=
  {| pd_added := omap (λ id, _as_change <$> proposed !! id)
                   (sorted_ids (dom proposed ∖ dom baseline));
     pd_removed := omap (λ id, removed_change <$> baseline !! id)
                   (sorted_ids (dom baseline ∖ dom proposed));
     pd_moved := omap (λ id, b ← proposed !! id; e ← baseline !! id;
                             if interval_moved b e then Some (moved_block id b e) else None)
                   (sorted_ids (dom proposed ∩ dom baseline)) |}.

Definition build_diff (r : DayPlanRequest) (blocks : list PlanBlock) : PlanDiff :=
  diff_maps (proposed_map blocks) (baseline_map (dr_baseline_blocks r)).

(** ** The projection as a grouping of visible blocks *)

(** Consecutive blocks whose boundary wall clocks compare equal. *)
Inductive linked : list PlanBlock → Prop :=
| linked_one b : linked [b]
| linked_snoc g b c :
    linked (g ++ [b]) → dt_eqb (pb_ends_at b) (pb_starts_at c) = true → linked (g ++ [b; c]).

Record calendar_group (cb : CalendarBlock) (g : list PlanBlock) : Prop := {
  cg_linked : linked g;
  cg_start : pb_starts_at <$> head g = Some (cb_starts_at cb);
  cg_end : pb_ends_at <$> last g = Some (cb_ends_at cb);
  cg_sources : ∀ id, id ∈ cb_source_activity_ids cb ↔ ∃ b, b ∈ g ∧ pb_activity_id b = Some id;
  cg_sources_nodup : NoDup (cb_source_activity_ids cb);
  cg_title : Forall (λ b, block_title b = cb_title cb) g
}.

Lemma append_unique_elem values value x :
  x ∈ _append_unique values value ↔ x ∈ values ∨ x = value.
Proof. unfold _append_unique. case_bool_decide; set_solver. Qed.

Lemma append_unique_nodup values value : NoDup values → NoDup (_append_unique values value).
Proof.
  unfold _append_unique. case_bool_decide; [done|]. intros Hn. apply NoDup_app.
  split_and!; [done|set_solver|apply NoDup_singleton].
Qed.

Lemma new_calendar_group b id group :
  pb_activity_id b = Some id →
  calendar_group (new_calendar_block b id group (block_title b)) [b].
Proof.
  intros Hid. constructor; simpl; [constructor|done|done| |apply NoDup_singleton|by constructor].
  intros x. rewrite list_elem_of_singleton. split.
  - intros ->. exists b. set_solver.
  - intros (c & ->%list_elem_of_singleton & Hc). congruence.
Qed.

Lemma merge_calendar_group cb g b id group :
  calendar_group cb g → pb_activity_id b = Some id →
  _can_merge cb b group (block_title b) = true →
  calendar_group (merge_block cb b id) (g ++ [b]).
Proof.
  intros [Hl Hs He Hsrc Hn Ht] Hid Hm. unfold _can_merge in Hm. bool_to_prop.
  destruct g as [|x g _] using rev_ind; [done|]. rewrite last_snoc in He. simplify_eq/=.
  constructor; simpl.
  - rewrite <- (assoc (++)). by constructor; [|rewrite He].
  - by destruct g.
  - by rewrite last_snoc.
  - intros y. rewrite append_unique_elem, Hsrc. setoid_rewrite (elem_of_app (g ++ [x])).
    split; [intros [(c & ? & ?)| ->]; eauto; exists b; set_solver|].
    intros (c & [?|Hc%list_elem_of_singleton] & ?); [eauto|subst c; right; congruence].
  - by apply append_unique_nodup.
  - apply Forall_app; split; [done|]. by constructor.
Qed.

Lemma project_fold_groups blocks :
  ∃ groups, concat groups = filter (λ b, hidden b = false) blocks
    ∧ Forall2 calendar_group (reverse (foldl project_step [] blocks)) groups.
Proof.
  induction blocks as [|b blocks IH] using rev_ind; [by exists []|].
  destruct IH as (groups & Hc & Hf). rewrite foldl_app, filter_app, <- Hc. cbn [foldl].
  generalize dependent (foldl project_step [] blocks). intros acc Hf.
  unfold project_step. rewrite filter_cons, filter_nil. destruct (hidden b) eqn:Hh; simpl.
  { exists groups. by rewrite app_nil_r. }
  destruct (pb_activity_id b) as [id|] eqn:Hid.
  2:{ unfold hidden in Hh. rewrite Hid in Hh. by rewrite !orb_true_r in Hh. }
  assert (∃ groups', concat groups' = concat groups ++ [b] ∧
    Forall2 calendar_group
      (reverse (new_calendar_block b id (block_group b id) (block_title b) :: acc)) groups') as Hnew.
  { exists (groups ++ [[b]]). rewrite concat_app, reverse_cons. simpl. split; [done|].
    apply Forall2_app; [done|]. constructor; [by apply new_calendar_group|done]. }
  destruct acc as [|prev rest]; [exact Hnew|].
  destruct (_can_merge _ _ _ _) eqn:Hm; [|exact Hnew].
  rewrite reverse_cons in Hf |- *. apply Forall2_app_inv_l in Hf as (g1 & g2 & H1 & H2 & ->).
  apply Forall2_cons_inv_l in H2 as (g & g3 & Hg & H3 & ->).
  apply Forall2_nil_inv_l in H3 as ->.
  exists (g1 ++ [g ++ [b]]). rewrite !concat_app. simpl. rewrite !app_nil_r, <- (assoc (++)).
  split; [done|]. apply Forall2_app; [done|]. constructor; [by eapply merge_calendar_group|done].
Qed.

(** ** When grouped blocks are adjacent in real time *)

(** No wall-clock reading repeats between [lo] and [hi]. *)
Definition unambiguous (z : zone) (lo hi : Z) : Prop :=
  ∀ t1 t2, lo ≤ t1 ≤ hi → lo ≤ t2 ≤ hi →
    dt_local (astimezone z t1) = dt_local (astimezone z t2) → t1 = t2.

Definition block_in (z : zone) (lo hi : Z) (b : PlanBlock) : Prop :=
  ∃ s e, pb_starts_at b = astimezone z s ∧ pb_ends_at b = astimezone z e
         ∧ lo ≤ s ≤ hi ∧ lo ≤ e ≤ hi.

Definition elapsed (b : PlanBlock) : Z := utc (pb_ends_at b) - utc (pb_starts_at b).
Definition total_elapsed (g : list PlanBlock) : Z := foldr (λ b n, elapsed b + n) 0 g.

Lemma total_elapsed_app g g' : total_elapsed (g ++ g') = total_elapsed g + total_elapsed g'.
Proof.
  unfold total_elapsed. induction g as [|b g IH]; simpl; [lia|]. rewrite IH. lia.
Qed.

Lemma dt_eqb_same_zone z t1 t2 :
  dt_eqb (astimezone z t1) (astimezone z t2) = true ↔
  dt_local (astimezone z t1) = dt_local (astimezone z t2).
Proof. unfold dt_eqb, same_zone, astimezone. simpl. by rewrite String.eqb_refl, Z.eqb_eq. Qed.

Lemma linked_elapsed z lo hi g :
  unambiguous z lo hi → linked g → Forall (block_in z lo hi) g →
  ∃ s e, utc <$> (pb_starts_at <$> head g) = Some s ∧ utc <$> (pb_ends_at <$> last g) = Some e
         ∧ e - s = total_elapsed g.
Proof.
  intros Hu Hl. induction Hl as [b|g b c Hl IH Heq]; intros Hin.
  - exists (utc (pb_starts_at b)), (utc (pb_ends_at b)). unfold total_elapsed, elapsed. simpl.
    split_and!; [done|done|lia].
  - replace (g ++ [b; c]) with ((g ++ [b]) ++ [c]) in * by by rewrite <- (assoc (++)).
    apply Forall_app in Hin as [Hin Hc]. rewrite Forall_singleton in Hc.
    destruct (IH Hin) as (s & e & Hs & He & Hse).
    rewrite last_snoc in He. simpl in He. simplify_eq.
    apply Forall_app in Hin as [_ Hb]. rewrite Forall_singleton in Hb.
    destruct Hb as (sb & eb & Hsb & Heb & Hsbr & Hebr). destruct Hc as (sc & ec & Hsc & Hec & Hscr & _).
    rewrite Heb, Hsc, dt_eqb_same_zone in Heq. apply Hu in Heq as ->; [|done|done].
    exists s, (utc (pb_ends_at c)). rewrite last_snoc. split_and!; [by destruct g|done|].
    rewrite total_elapsed_app. unfold total_elapsed at 2, elapsed. simpl.
    rewrite Hsc. rewrite Heb in Hse. rewrite !utc_astimezone in *. lia.
Qed.

(** ** Replaying a diff *)

Abbreviation interval := (datetime * datetime)%type.

Definition baseline_intervals (m : gmap string ExistingPlanBlock) : gmap string interval :=
  (λ e, (eb_starts_at e, eb_ends_at e)) <$> m.

(** What a client does with a diff: delete, insert, move. *)
Definition apply_diff (d : PlanDiff) (m : gmap string interval) : gmap string interval :=
  let m := foldl (λ m c, delete (bc_block_id c) m) m (pd_removed d) in
  let m := foldl (λ m c, <[bc_block_id c := (bc_starts_at c, bc_ends_at c)]> m) m (pd_added d) in
  foldl (λ m c, <[mb_block_id c := (mb_proposed_starts_at c, mb_proposed_ends_at c)]> m)
    m (pd_moved d).

Lemma elem_of_sorted_ids (s : gset string) x : x ∈ sorted_ids s ↔ x ∈ s.
Proof. unfold sorted_ids. by rewrite elem_of_py_sorted, elem_of_elements. Qed.

Lemma sorted_ids_nodup (s : gset string) : NoDup (sorted_ids s).
Proof. unfold sorted_ids. rewrite py_sorted_perm. apply NoDup_elements. Qed.

Lemma sorted_ids_sorted (s : gset string) :
  StronglySorted (not_after String.ltb) (sorted_ids s).
Proof. apply py_sorted_strongly; [apply string_ltb_asym|apply string_not_after_trans]. Qed.

Section diff.
Context (proposed : gmap string PlanBlock) (baseline : gmap string ExistingPlanBlock).
Hypothesis Hp : ∀ id b, proposed !! id = Some b → pb_block_id b = id.
Hypothesis Hb : ∀ id e, baseline !! id = Some e → eb_block_id e = id.

Abbreviation d := (diff_maps proposed baseline).

Lemma added_elem c :
  c ∈ pd_added d ↔
  ∃ b, proposed !! bc_block_id c = Some b ∧ baseline !! bc_block_id c = None ∧ c = _as_change b.
Proof using Hp.
  unfold diff_maps; simpl. rewrite list_elem_of_omap.
  setoid_rewrite elem_of_sorted_ids. split.
  - intros (id & [Hin Hnin]%elem_of_difference & (b & Hpb & ->)%fmap_Some).
    exists b. simpl. rewrite (Hp id b Hpb). split_and!; [done| |done]. by apply not_elem_of_dom.
  - intros (b & Hpb & Hn & ->). exists (pb_block_id b). simpl in *. split.
    + apply elem_of_difference. rewrite elem_of_dom, not_elem_of_dom. eauto.
    + by rewrite Hpb.
Qed.

Lemma removed_elem c :
  c ∈ pd_removed d ↔
  ∃ e, baseline !! bc_block_id c = Some e ∧ proposed !! bc_block_id c = None
       ∧ c = removed_change e.
Proof using Hb.
  unfold diff_maps; simpl. rewrite list_elem_of_omap.
  setoid_rewrite elem_of_sorted_ids. split.
  - intros (id & [Hin Hnin]%elem_of_difference & (e & Hbe & ->)%fmap_Some).
    exists e. simpl. rewrite (Hb id e Hbe). split_and!; [done| |done]. by apply not_elem_of_dom.
  - intros (e & Hbe & Hn & ->). exists (eb_block_id e). simpl in *. split.
    + apply elem_of_difference. rewrite elem_of_dom, not_elem_of_dom. eauto.
    + by rewrite Hbe.
Qed.

Lemma moved_elem c :
  c ∈ pd_moved d ↔
  ∃ b e, proposed !! mb_block_id c = Some b ∧ baseline !! mb_block_id c = Some e
         ∧ interval_moved b e = true ∧ c = moved_block (mb_block_id c) b e.
Proof.
  unfold diff_maps; simpl. rewrite list_elem_of_omap.
  setoid_rewrite elem_of_sorted_ids. split.
  - intros (id & _ & (b & Hpb & (e & Hbe & Hm)%bind_Some)%bind_Some).
    destruct (interval_moved b e) eqn:Hi; [|done]. injection Hm as <-. simpl. eauto 10.
  - intros (b & e & Hpb & Hbe & Hi & Hc). exists (mb_block_id c). split.
    + apply elem_of_intersection. rewrite !elem_of_dom. eauto.
    + rewrite Hpb. simpl. rewrite Hbe. simpl. rewrite Hi. by rewrite <- Hc.
Qed.

Lemma added_ids id :
  id ∈ map bc_block_id (pd_added d) ↔ is_Some (proposed !! id) ∧ baseline !! id = None.
Proof using Hp.
  rewrite list_elem_of_fmap. split.
  - intros (c & -> & (b & ? & ? & _)%added_elem). eauto.
  - intros [[b Hpb] Hn]. exists (_as_change b). simpl. rewrite (Hp id b Hpb).
    split; [done|]. apply added_elem. exists b. simpl. by rewrite (Hp id b Hpb).
Qed.

Lemma removed_ids id :
  id ∈ map bc_block_id (pd_removed d) ↔ is_Some (baseline !! id) ∧ proposed !! id = None.
Proof using Hb.
  rewrite list_elem_of_fmap. split.
  - intros (c & -> & (e & ? & ? & _)%removed_elem). eauto.
  - intros [[e Hbe] Hn]. exists (removed_change e). simpl. rewrite (Hb id e Hbe).
    split; [done|]. apply removed_elem. exists e. simpl. by rewrite (Hb id e Hbe).
Qed.

Lemma moved_ids id :
  id ∈ map mb_block_id (pd_moved d) ↔
  ∃ b e, proposed !! id = Some b ∧ baseline !! id = Some e ∧ interval_moved b e = true.
Proof.
  rewrite list_elem_of_fmap. split.
  - intros (c & -> & (b & e & ? & ? & ? & _)%moved_elem). eauto.
  - intros (b & e & ? & ? & ?). exists (moved_block id b e). split; [done|].
    apply moved_elem. simpl. eauto 10.
Qed.

Lemma apply_diff_lookup id :
  apply_diff d (baseline_intervals baseline) !! id =
  match proposed !! id, baseline !! id with
  | None, _ => None
  | Some b, None => Some (pb_starts_at b, pb_ends_at b)
  | Some b, Some e =>
      if interval_moved b e then Some (pb_starts_at b, pb_ends_at b)
      else Some (eb_starts_at e, eb_ends_at e)
  end.
Proof using Hp Hb.
  unfold apply_diff. cbv zeta.
  set (m1 := foldl _ (baseline_intervals baseline) _). set (m2 := foldl _ m1 _).
  assert (m1 !! id = if bool_decide (id ∈ map bc_block_id (pd_removed d)) then None
                     else baseline_intervals baseline !! id) as H1 by apply foldl_delete_lookup.
  destruct (foldl_insert_lookup bc_block_id (λ c, (bc_starts_at c, bc_ends_at c))
              (pd_added d) m1 id) as [A1 A2].
  { intros c c' (b & Hc & _ & ->)%added_elem (b' & Hc' & _ & ->)%added_elem Hk.
    simpl in *. congruence. }
  fold m2 in A1, A2.
  destruct (foldl_insert_lookup mb_block_id
              (λ c, (mb_proposed_starts_at c, mb_proposed_ends_at c)) (pd_moved d) m2 id) as [M1 M2].
  { intros c c' (b & e & Hc & _ & _ & ->)%moved_elem (b' & e' & Hc' & _ & _ & ->)%moved_elem Hk.
    simpl in *. congruence. }
  unfold baseline_intervals in H1. rewrite lookup_fmap in H1.
  rewrite added_ids in A2. rewrite moved_ids in M2.
  destruct (proposed !! id) as [b|] eqn:Eb, (baseline !! id) as [e|] eqn:Ee.
  - assert (m2 !! id = Some (eb_starts_at e, eb_ends_at e)) as Hm2.
    { rewrite A2 by naive_solver. rewrite H1, bool_decide_eq_false_2; [done|].
      rewrite removed_ids. naive_solver. }
    destruct (interval_moved b e) eqn:Hi; 
      [|rewrite M2; [done|intros (? & ? & ? & ? & ?); congruence]].
    rewrite (M1 (moved_block id b e)); [done| |done]. apply moved_elem. simpl. eauto 10.
  - rewrite M2 by naive_solver. rewrite (A1 (_as_change b)); [done| |by apply Hp].
    apply added_elem. exists b. simpl. by rewrite (Hp id b Eb).
  - rewrite M2, A2 by naive_solver. rewrite H1, bool_decide_eq_true_2; [done|].
    rewrite removed_ids. naive_solver.
  - rewrite M2, A2 by naive_solver. rewrite H1, bool_decide_eq_false_2; [done|].
    rewrite removed_ids. intros [[? ?] _]. congruence.
Qed.
End diff.

Lemma proposed_map_key blocks id b :
  proposed_map blocks !! id = Some b → pb_block_id b = id.
Proof.
  unfold proposed_map. induction blocks as [|c blocks IH] using rev_ind; simpl; [done|].
  rewrite foldl_app. simpl. destruct (_ || _); [done|].
  rewrite lookup_insert. case_decide; [by intros [= <-]|done].
Qed.

Lemma baseline_map_key blocks id e :
  baseline_map blocks !! id = Some e → eb_block_id e = id.
Proof.
  unfold baseline_map. induction blocks as [|c blocks IH] using rev_ind; simpl; [done|].
  rewrite foldl_app. simpl. rewrite lookup_insert. case_decide; [by intros [= <-]|done].
Qed.
