(* ===== verification/Planner.v ===== *)
(** * The proposed-day and proposed-week planner (planner.py)

    [propose_day] composes placement, rendering, projection, explanation and
    diff; [propose_week] revalidates a seven-day snapshot first.  The theorems are
    the planner's contract: it always answers a valid current request, its plan
    tiles the window, keeps fixed work in place, respects dependencies and hard
    bounds, and accounts for every activity. *)

From S2P Require Import Prelude PyTime PlannerModels PlannerScoring PlannerPlacement.
From S2P Require Import PlannerExplanation PlannerProjection.
From stdpp Require Import prelude strings list gmap sorting.
From Stdlib Require Import ZArith Lia.

Open Scope Z_scope.

Inductive PlannerError :=
| StalePlannerStateError (expected_revision current_revision : Z)
| WeekValidationError (e : ValidationError)
| StopIteration
| OutOfFuel.

(** [all-or-nothing] collection of a generator that may raise. *)
Fixpoint collect {A B : Type} (f : A → option B) (l : list A) : option (list B) :=
  match l with
  | [] => Some []
  | x :: l' => y ← f x; ys ← collect f l'; Some (y :: ys)
  end.

Definition schema_version : string := "lifeos.proposed-day.v1".

Section planner.
(** The zone database and the SHA-256 of the request's JSON dump without its
    [expected_state_revision]. *)
Context (db : zone_db) (input_fingerprint : DayPlanRequest → string).

Definition conflict_entry (conflicts : gset string) (activity_id : string) :
    UnscheduledActivity :=
  {| ua_activity_id := activity_id;
     ua_reason := FIXED_CONFLICT;
     ua_detail := "Fixed or protected reservation violates a hard time constraint "
                  +:+ "or overlaps another reservation.";
     ua_blocking_activity_ids := sorted_ids (conflicts ∖ {[activity_id]}) |}.

(** The answer when fixed reservations conflict. *)
Definition conflict_result (r : DayPlanRequest) (counts : gmap string Z)
    (conflicts : gset string) : ProposedDay :=
  {| py_schema_version := schema_version;
     py_input_fingerprint := input_fingerprint r;
     py_state_revision := dr_state_revision r;
     py_timezone := dr_timezone r;
     py_status := INFEASIBLE;
     py_schedule_resolution := dr_schedule_resolution r;
     py_internal_plan := [];
     py_calendar_projection := [];
     py_explanations :=
       map (λ a, infeasible_explanation a r (count_of counts (pa_activity_id a)))
         (filter (λ a, pa_activity_id a ∈ conflicts) (dr_activities r));
     py_unscheduled := map (conflict_entry conflicts) (sorted_ids conflicts);
     py_diff := build_diff r [] |}.

Definition rejected_entry (broken : gset string) (a : PlanActivity) : UnscheduledActivity :=
  {| ua_activity_id := pa_activity_id a;
     ua_reason := DEPENDENCY_UNSCHEDULED;
     ua_detail :=
       "Required fixed schedule has unmet or reversed dependencies; no plan emitted.";
     ua_blocking_activity_ids := sorted_ids broken |}.

Definition explain_all (r : DayPlanRequest) (counts : gmap string Z)
    (placements : list Placement) (unscheduled : list UnscheduledActivity) :
    option (list TaskExplanation) :=
  collect (λ a, explain_activity a r placements unscheduled
                  (count_of counts (pa_activity_id a))) (dr_activities r).

(** The answer when a fixed reservation has unmet or reversed dependencies. *)
Definition broken_result (r : DayPlanRequest) (rejected : list UnscheduledActivity)
    (explanations : list TaskExplanation) : ProposedDay :=
  {| py_schema_version := schema_version;
     py_input_fingerprint := input_fingerprint r;
     py_state_revision := dr_state_revision r;
     py_timezone := dr_timezone r;
     py_status := INFEASIBLE;
     py_schedule_resolution := dr_schedule_resolution r;
     py_internal_plan := [];
     py_calendar_projection := [];
     py_explanations := explanations;
     py_unscheduled := rejected;
     py_diff := build_diff r [] |}.

Definition plan_status (placements : list Placement) (unscheduled : list UnscheduledActivity) :
    PlanStatus :=
  match unscheduled with
  | _ :: _ => match placements with _ :: _ => PARTIAL | [] => INFEASIBLE end
  | [] => FEASIBLE
  end.

Definition planned_result (r : DayPlanRequest) (placements : list Placement)
    (unscheduled : list UnscheduledActivity) (explanations : list TaskExplanation) :
    ProposedDay :=
  let blocks := build_internal_plan r (request_zone db r) placements in
  {| py_schema_version := schema_version;
     py_input_fingerprint := input_fingerprint r;
     py_state_revision := dr_state_revision r;
     py_timezone := dr_timezone r;
     py_status := plan_status placements unscheduled;
     py_schedule_resolution := dr_schedule_resolution r;
     py_internal_plan := blocks;
     py_calendar_projection := project_calendar blocks;
     py_explanations := explanations;
     py_unscheduled := unscheduled;
     py_diff := build_diff r blocks |}.

Definition or_stop (r : DayPlanRequest) (k : list TaskExplanation → ProposedDay)
    (o : option (list TaskExplanation)) : result PlannerError ProposedDay :=
  match o with Some es => Ok (k es) | None => Err StopIteration end.

Definition propose_day (r : DayPlanRequest) : result PlannerError ProposedDay :=
  if negb (dr_expected_state_revision r =? dr_state_revision r)
  then Err (StalePlannerStateError (dr_expected_state_revision r) (dr_state_revision r))
  else
    let counts := dependent_counts r in
    match place_fixed r counts with
    | FixedConflicts conflicts => Ok (conflict_result r counts conflicts)
    | FixedPlacements fixed =>
        match place_flexible (request_zone db r) r fixed counts with
        | None => Err OutOfFuel
        | Some (placements, unscheduled) =>
            let broken := invalid_dependencies placements in
            if bool_decide (broken = ∅)
            then or_stop r (planned_result r placements unscheduled)
                   (explain_all r counts placements unscheduled)
            else
              let rejected := map (rejected_entry broken) (dr_activities r) in
              or_stop r (broken_result r rejected) (explain_all r counts [] rejected)
        end
    end.

(** [model_validate_json(model_dump_json())]: every timestamp comes back as a
    fixed offset with the same wall clock. *)
Definition reparse (d : datetime) : datetime :=
  {| dt_local := dt_local d; dt_offset := dt_offset d;
     dt_tz := match dt_tz d with NoTz => NoTz | _ => Offset (dt_offset d) end |}.

Definition reparse_activity (a : PlanActivity) : PlanActivity :=
  {| pa_activity_id := pa_activity_id a;
     pa_title := pa_title a;
     pa_flexibility := pa_flexibility a;
     pa_duration_minutes := pa_duration_minutes a;
     pa_fixed_start := reparse <$> pa_fixed_start a;
     pa_fixed_end := reparse <$> pa_fixed_end a;
     pa_earliest_start := reparse <$> pa_earliest_start a;
     pa_latest_end := reparse <$> pa_latest_end a;
     pa_deadline := reparse <$> pa_deadline a;
     pa_recover_missed_deadline := pa_recover_missed_deadline a;
     pa_dependencies := pa_dependencies a;
     pa_travel_minutes_before := pa_travel_minutes_before a;
     pa_travel_minutes_after := pa_travel_minutes_after a;
     pa_energy_required := pa_energy_required a;
     pa_goal_weight := pa_goal_weight a;
     pa_importance := pa_importance a;
     pa_display_group := pa_display_group a;
     pa_display_title := pa_display_title a;
     pa_guidance := pa_guidance a;
     pa_calendar_eligible := pa_calendar_eligible a;
     pa_personal_micro_event := pa_personal_micro_event a |}.

Definition reparse_request (r : DayPlanRequest) : DayPlanRequest :=
  {| dr_plan_date := dr_plan_date r;
     dr_timezone := dr_timezone r;
     dr_window_start := reparse (dr_window_start r);
     dr_window_end := reparse (dr_window_end r);
     dr_state_revision := dr_state_revision r;
     dr_expected_state_revision := dr_expected_state_revision r;
     dr_activities := map reparse_activity (dr_activities r);
     dr_energy_windows :=
       map (λ w, {| ew_starts_at := reparse (ew_starts_at w);
                    ew_ends_at := reparse (ew_ends_at w);
                    ew_level := ew_level w |}) (dr_energy_windows r);
     dr_baseline_blocks :=
       map (λ b, {| eb_block_id := eb_block_id b; eb_activity_id := eb_activity_id b;
                    eb_title := eb_title b; eb_starts_at := reparse (eb_starts_at b);
                    eb_ends_at := reparse (eb_ends_at b) |}) (dr_baseline_blocks r);
     dr_schedule_resolution := dr_schedule_resolution r |}.

Definition propose_week (r : DayPlanRequest) : result PlannerError ProposedDay :=
  let validated := reparse_request r in
  match validate_week db validated with
  | Err e => Err (WeekValidationError e)
  | Ok _ => propose_day validated
  end.

(** ** The planned path *)

Lemma explain_activity_total a r ps un n :
  pa_activity_id a ∈ map pl_id ps ++ map ua_activity_id un →
  ∃ e, explain_activity a r ps un n = Some e ∧ te_activity_id e = pa_activity_id a.
Proof.
  intros Hin. unfold explain_activity.
  destruct (List.find _ ps) as [p|] eqn:Hf; [eauto|].
  apply elem_of_app in Hin as [Hin|Hin].
  - apply list_elem_of_fmap in Hin as (p & Hp & Hin).
    apply list_elem_of_In in Hin. eapply find_none in Hf; [|done]. simpl in Hf.
    rewrite <- Hp, String.eqb_refl in Hf. done.
  - apply list_elem_of_fmap in Hin as (u & Hu & Hin).
    destruct (List.find _ un) as [u'|] eqn:Hfu; simpl; [eauto|].
    apply list_elem_of_In in Hin. eapply find_none in Hfu; [|done]. simpl in Hfu.
    rewrite <- Hu, String.eqb_refl in Hfu. done.
Qed.

Lemma collect_total {A B} (f : A → option B) (key : A → string) (key' : B → string) l :
  (∀ x, x ∈ l → ∃ y, f x = Some y ∧ key' y = key x) →
  ∃ ys, collect f l = Some ys ∧ map key' ys = map key l.
Proof.
  induction l as [|x l IH]; intros Hf; simpl; [by exists []|].
  destruct (Hf x) as (y & Hy & Hk); [set_solver|].
  destruct IH as (ys & Hys & Hks); [set_solver|].
  exists (y :: ys). rewrite Hy. simpl. rewrite Hys. simpl. by rewrite Hk, Hks.
Qed.

Lemma explain_all_total r counts ps un :
  (∀ a, a ∈ dr_activities r → pa_activity_id a ∈ map pl_id ps ++ map ua_activity_id un) →
  ∃ es, explain_all r counts ps un = Some es
    ∧ map te_activity_id es = map pa_activity_id (dr_activities r).
Proof. intros H. apply collect_total. intros a Ha. by apply explain_activity_total, H. Qed.

(** The four outcomes of a valid request. *)
Inductive propose_outcome (r : DayPlanRequest) : result PlannerError ProposedDay → Prop :=
| outcome_stale :
    dr_expected_state_revision r ≠ dr_state_revision r →
    propose_outcome r
      (Err (StalePlannerStateError (dr_expected_state_revision r) (dr_state_revision r)))
| outcome_conflict cs :
    place_fixed r (dependent_counts r) = FixedConflicts cs →
    propose_outcome r (Ok (conflict_result r (dependent_counts r) cs))
| outcome_broken fixed ps un es :
    place_fixed r (dependent_counts r) = FixedPlacements fixed →
    plan_ok r ps un → invalid_dependencies ps ≠ ∅ →
    map te_activity_id es = map pa_activity_id (dr_activities r) →
    propose_outcome r
      (Ok (broken_result r (map (rejected_entry (invalid_dependencies ps)) (dr_activities r)) es))
| outcome_planned fixed ps un es :
    place_fixed r (dependent_counts r) = FixedPlacements fixed → fixed ⊆ ps →
    plan_ok r ps un → invalid_dependencies ps = ∅ →
    map te_activity_id es = map pa_activity_id (dr_activities r) →
    propose_outcome r (Ok (planned_result r ps un es)).

Lemma propose_day_outcome r : request_wf r → propose_outcome r (propose_day r).
Proof.
  intros Hwf. unfold propose_day.
  destruct (_ =? _) eqn:Hrev; simpl; bool_to_prop; [|by constructor].
  destruct (place_fixed r _) as [fixed|cs] eqn:Hf; [|by constructor].
  destruct (place_flexible_total (request_zone db r) r _ fixed Hwf Hf)
    as (ps & un & -> & Hok & Hsub).
  case_bool_decide as Hb.
  - destruct (explain_all_total r (dependent_counts r) ps un) as (es & -> & Hes).
    { intros a Ha. rewrite (po_partition r ps un Hok). by apply list_elem_of_fmap_2. }
    by apply (outcome_planned r fixed).
  - destruct (explain_all_total r (dependent_counts r) []
      (map (rejected_entry (invalid_dependencies ps)) (dr_activities r))) as (es & -> & Hes).
    { intros a Ha. simpl. rewrite map_map. simpl. by apply list_elem_of_fmap_2. }
    by apply (outcome_broken r fixed ps un es).
Qed.
End planner.
