(* ===== verification/PlannerSpec.v ===== *)
(** * Contract of the planner

    The properties of [propose_day] and [propose_week] that a caller relies on,
    each with a concrete day on which its hypotheses hold. *)

From S2P Require Import Prelude PyTime PlannerModels PlannerScoring PlannerPlacement.
From S2P Require Import PlannerExplanation PlannerProjection Planner.
From stdpp Require Import prelude strings list gmap sorting.
From Stdlib Require Import ZArith Lia.

Open Scope Z_scope.

(** ** A concrete day *)

Module Demo.
Definition utc_db : zone_db := λ key,
  if String.eqb key "UTC" then Some {| tz_initial := 0; tz_transitions := [] |} else None.

(** 2026-01-05, a Monday, at [h]:[m] UTC. *)
Definition at_ (h m : Z) : datetime := utc_datetime (20458 * day + h * hour + m * minute).

Definition activity (id : string) (flex : ActivityFlexibility) (duration : Z)
    (fixed : option (datetime * datetime)) (deadline : option datetime) (deps : list string)
    (before after : Z) : PlanActivity :=
  {| pa_activity_id := id; pa_title := id; pa_flexibility := flex;
     pa_duration_minutes := duration;
     pa_fixed_start := fst <$> fixed; pa_fixed_end := snd <$> fixed;
     pa_earliest_start := None; pa_latest_end := None; pa_deadline := deadline;
     pa_recover_missed_deadline := false; pa_dependencies := deps;
     pa_travel_minutes_before := before; pa_travel_minutes_after := after;
     pa_energy_required := 1; pa_goal_weight := 2; pa_importance := 0;
     pa_display_group := None; pa_display_title := None; pa_guidance := [];
     pa_calendar_eligible := true; pa_personal_micro_event := false |}.

Definition standup : PlanActivity :=
  activity "standup" FIXED 30 (Some (at_ 9 30, at_ 10 0)) None [] 0 0.
Definition draft : PlanActivity :=
  activity "draft" FLEXIBLE 45 None (Some (at_ 11 30)) [] 0 0.
Definition review : PlanActivity :=
  activity "review" FLEXIBLE 30 None None ["draft"] 15 10.
Definition stray : PlanActivity :=
  activity "stray" FLEXIBLE 15 None None ["absent"] 0 0.

Definition day_request (activities : list PlanActivity) (baseline : list ExistingPlanBlock) :
    DayPlanRequest :=
  {| dr_plan_date := 20458; dr_timezone := "UTC";
     dr_window_start := at_ 9 0; dr_window_end := at_ 12 0;
     dr_state_revision := 3; dr_expected_state_revision := 3;
     dr_activities := activities; dr_energy_windows := [];
     dr_baseline_blocks := baseline; dr_schedule_resolution := default_resolution |}.

Definition old_standup : ExistingPlanBlock :=
  {| eb_block_id := "activity:standup"; eb_activity_id := "standup"; eb_title := "standup";
     eb_starts_at := at_ 9 0; eb_ends_at := at_ 9 30 |}.
Definition old_gym : ExistingPlanBlock :=
  {| eb_block_id := "activity:gym"; eb_activity_id := "gym"; eb_title := "gym";
     eb_starts_at := at_ 11 0; eb_ends_at := at_ 12 0 |}.

Definition request : DayPlanRequest :=
  day_request [review; standup; stray; draft] [old_standup; old_gym].

Definition fingerprint (_ : DayPlanRequest) : string := "f".

Definition plan : result PlannerError ProposedDay := propose_day utc_db fingerprint request.
End Demo.

(** ** Blocks of the emitted plan *)

Lemma with_gaps_cases z lo hi bs b :
  b ∈ with_gaps z lo hi bs → b ∈ bs ∨ ∃ s e, b = _available_block s e z.
Proof.
  revert lo. induction bs as [|c bs IH]; intros lo; simpl.
  - destruct (_ <? _); [|set_solver]. intros ->%list_elem_of_singleton. eauto.
  - rewrite elem_of_app, elem_of_cons. intros [Hb|[->|Hb]].
    + destruct (_ <? _); [|set_solver]. apply list_elem_of_singleton in Hb as ->. eauto.
    + left. set_solver.
    + destruct (IH _ Hb); [left; set_solver|by right].
Qed.

Lemma with_gaps_elem z lo hi bs b :
  b ∈ with_gaps z lo hi bs → b ∈ bs ∨ pb_activity_id b = None.
Proof. intros [?|(s & e & ->)]%with_gaps_cases; [by left|by right]. Qed.

Lemma with_gaps_keeps z lo hi bs b : b ∈ bs → b ∈ with_gaps z lo hi bs.
Proof.
  revert lo. induction bs as [|c bs IH]; intros lo; simpl; [set_solver|].
  rewrite elem_of_app, !elem_of_cons. intros [->|Hb]; [by right; left|]. right; right. by apply IH.
Qed.

Lemma concat_elem {A B} (f : A → list B) l b : b ∈ concat (map f l) ↔ ∃ x, x ∈ l ∧ b ∈ f x.
Proof.
  rewrite list_elem_of_In, in_concat. setoid_rewrite <- list_elem_of_In.
  setoid_rewrite list_elem_of_fmap. naive_solver.
Qed.

(** The activity block of [id] in a plan, with its interval. *)
Definition scheduled_at (blocks : list PlanBlock) (id : string) (s e : Z) : Prop :=
  ∃ b, b ∈ blocks ∧ pb_activity_id b = Some id ∧ pb_kind b ≠ KTRAVEL
       ∧ utc (pb_starts_at b) = s ∧ utc (pb_ends_at b) = e.

Section plan_blocks.
Context (db : zone_db) (r : DayPlanRequest) (ps : list Placement).

Abbreviation blocks := (build_internal_plan r (request_zone db r) ps).

Lemma scheduled_at_placement p :
  p ∈ ps → scheduled_at blocks (pl_id p) (utc (pl_starts_at p)) (utc (pl_ends_at p)).
Proof.
  intros Hp. exists (activity_block p (request_zone db r) (_explanation_code (pl_activity p) r)).
  split_and!; [|done| |by apply utc_astimezone|by apply utc_astimezone].
  - apply with_gaps_keeps. unfold activity_blocks. rewrite elem_of_py_sorted, concat_elem.
    exists p. split; [done|]. unfold placement_blocks. set_solver.
  - simpl. by destruct (pa_flexibility _).
Qed.

Lemma scheduled_at_inv id s e :
  scheduled_at blocks id s e →
  ∃ p, p ∈ ps ∧ pl_id p = id ∧ utc (pl_starts_at p) = s ∧ utc (pl_ends_at p) = e.
Proof.
  intros (b & Hb & Hid & Hk & <- & <-).
  apply with_gaps_elem in Hb as [Hb|Hb]; [|congruence].
  unfold activity_blocks in Hb. rewrite elem_of_py_sorted, concat_elem in Hb.
  destruct Hb as (p & Hp & Hb). unfold placement_blocks in Hb.
  rewrite !elem_of_app in Hb. destruct Hb as [Hb|[Hb|Hb]].
  - destruct (_ =? 0); [set_solver|]. by apply list_elem_of_singleton in Hb as ->.
  - apply list_elem_of_singleton in Hb as ->. simpl in Hid. simplify_eq.
    exists p. simpl. by rewrite !utc_astimezone.
  - destruct (_ =? 0); [set_solver|]. by apply list_elem_of_singleton in Hb as ->.
Qed.
End plan_blocks.

(** ** Inversion of a successful run *)

Lemma propose_day_ok db fp r p :
  validate_request db r = Ok tt → propose_day db fp r = Ok p →
  (py_status p = INFEASIBLE ∧ py_internal_plan p = [])
  ∨ ∃ fixed ps un es,
      place_fixed r (dependent_counts r) = FixedPlacements fixed ∧ fixed ⊆ ps ∧ plan_ok r ps un
      ∧ invalid_dependencies ps = ∅ ∧ map te_activity_id es = map pa_activity_id (dr_activities r)
      ∧ p = planned_result db fp r ps un es.
Proof.
  intros Hv%validate_request_wf Hp. pose proof (propose_day_outcome db fp r Hv) as Ho.
  rewrite Hp in Ho. inversion Ho; [by left|by left|right]. eauto 15.
Qed.

Lemma propose_day_planned db fp r p :
  validate_request db r = Ok tt → propose_day db fp r = Ok p → py_internal_plan p ≠ [] →
  ∃ fixed ps un es,
    place_fixed r (dependent_counts r) = FixedPlacements fixed ∧ fixed ⊆ ps ∧ plan_ok r ps un
    ∧ invalid_dependencies ps = ∅ ∧ map te_activity_id es = map pa_activity_id (dr_activities r)
    ∧ p = planned_result db fp r ps un es.
Proof. intros Hv Hp Hne. by destruct (propose_day_ok db fp r p Hv Hp) as [[_ ?]|?]. Qed.

Lemma propose_day_diff db fp r p :
  propose_day db fp r = Ok p → py_diff p = build_diff r (py_internal_plan p).
Proof.
  unfold propose_day, or_stop. intros H.
  repeat (case_match; try discriminate H); by simplify_eq/=.
Qed.

Lemma scheduled_at_nonempty blocks id s e : scheduled_at blocks id s e → blocks ≠ [].
Proof. intros (b & Hb & _) ->. by apply elem_of_nil in Hb. Qed.

Lemma dependencies_all_met r ps un p :
  plan_ok r ps un → invalid_dependencies ps = ∅ → p ∈ ps → dependencies_met ps p.
Proof.
  intros Hok Hinv Hp d Hd. pose proof (ps_ids r ps (po_placements r ps un Hok)) as Hn.
  apply dependency_broken_false; [done|]. apply not_true_is_false. intros Hb.
  assert (pl_id p ∈ invalid_dependencies ps) as Hin; [|by rewrite Hinv in Hin].
  unfold invalid_dependencies. apply elem_of_list_to_set, list_elem_of_fmap_2.
  apply list_elem_of_filter. split; [|done]. apply existsb_exists. exists d.
  by rewrite <- list_elem_of_In.
Qed.

Lemma activity_unique r a a' :
  request_wf r → a ∈ dr_activities r → a' ∈ dr_activities r →
  pa_activity_id a = pa_activity_id a' → a = a'.
Proof.
  intros Hwf Ha Ha' Heq. pose proof (rwf_ids r Hwf) as Hn. clear Hwf.
  induction (dr_activities r) as [|b l IH]; [by apply elem_of_nil in Ha|].
  simpl in Hn. apply NoDup_cons in Hn as [Hb Hn].
  apply elem_of_cons in Ha as [->|Ha], Ha' as [->|Ha']; [done| | |by apply IH].
  - destruct Hb. rewrite Heq. by apply list_elem_of_fmap_2.
  - destruct Hb. rewrite <- Heq. by apply list_elem_of_fmap_2.
Qed.

Lemma tiles_elapsed lo hi bs : tiles lo hi bs → total_elapsed bs = hi - lo.
Proof.
  revert lo. induction bs as [|b bs IH]; intros lo; simpl; [unfold total_elapsed; simpl; lia|].
  intros (Hs & _ & Ht). unfold total_elapsed in *. simpl. rewrite (IH _ Ht).
  unfold elapsed. lia.
Qed.

(** ** The contract *)

(** C1. A plan that is emitted tiles its window: the first block starts at the
    window start, every block has positive length and starts exactly where the
    previous one ends, and the last one ends at the window end. *)
Theorem plan_tiles_window db fp r p :
  validate_request db r = Ok tt → propose_day db fp r = Ok p →
  (py_status p = INFEASIBLE ∧ py_internal_plan p = [])
  ∨ tiles (utc (dr_window_start r)) (utc (dr_window_end r)) (py_internal_plan p).
Proof.
  intros Hv Hp. destruct (propose_day_ok db fp r p Hv Hp)
    as [?|(fixed & ps & un & es & _ & _ & Hok & _ & _ & ->)]; [by left|right].
  apply build_internal_plan_tiles; [by eapply validate_request_wf|by apply Hok].
Qed.

Lemma plan_tiles_window_witness :
  ∃ p, Demo.plan = Ok p ∧
    ((py_status p = INFEASIBLE ∧ py_internal_plan p = [])
     ∨ tiles (utc (Demo.at_ 9 0)) (utc (Demo.at_ 12 0)) (py_internal_plan p)).
Proof.
  destruct Demo.plan as [p|e] eqn:Hp; [|vm_compute in Hp; discriminate Hp].
  exists p. split; [reflexivity|].
  exact (plan_tiles_window Demo.utc_db Demo.fingerprint Demo.request p
           ltac:(vm_compute; reflexivity) Hp).
Defined.

(** ** The range of datetimes

    Python's [datetime] holds the years 1 to 9999 and raises [OverflowError] for a
    sum outside them; the model adds without bound.  Both agree on requests whose
    times keep four days from the limits: the planner adds to a time at most an
    activity and its travel, each of up to a day, and a zone shifts it by less than
    a day. *)

Definition datetime_fits (t : Z) : bool :=
  (-62135596800 * second <=? t) && (t <? 253402300800 * second).

Definition activity_times (a : PlanActivity) : list Z :=
  omap (fmap utc) [pa_fixed_start a; pa_fixed_end a; pa_earliest_start a; pa_latest_end a; pa_deadline a].
Definition request_times (r : DayPlanRequest) : list Z :=
  utc (dr_window_start r) :: utc (dr_window_end r)
  :: (dr_activities r ≫= activity_times)
  ++ (dr_energy_windows r ≫= λ w, [utc (ew_starts_at w); utc (ew_ends_at w)])
  ++ (dr_baseline_blocks r ≫= λ b, [utc (eb_starts_at b); utc (eb_ends_at b)]).

Definition clear_of_limits (r : DayPlanRequest) : bool :=
  forallb (λ t, datetime_fits (t - 4 * day) && datetime_fits (t + 4 * day)) (request_times r).

(** The times the planner computes with: those of the request and the starts that
    a scan of minutes visits, which are the starts it chooses from. *)
Definition planner_time (r : DayPlanRequest) (t : Z) : Prop :=
  t ∈ request_times r
  ∨ ∃ a ps lo hi, a ∈ dr_activities r ∧ placement_bounds a r ps = Some (lo, hi) ∧ lo ≤ t ≤ hi.

Lemma foldl_max_from {A} (f : A → Z) l x : x ≤ foldl (λ lo p, Z.max lo (f p)) x l.
Proof. revert x. induction l as [|p l IH]; intros x; simpl; [done|]. specialize (IH (Z.max x (f p))). lia. Qed.

Lemma foldl_min_upto {A} (c : A → bool) (f : A → Z) l x :
  foldl (λ hi p, if c p then Z.min hi (f p) else hi) x l ≤ x.
Proof.
  revert x. induction l as [|p l IH]; intros x; simpl; [done|].
  specialize (IH (if c p then Z.min x (f p) else x)). destruct (c p); lia.
Qed.

(** A scan stays inside the window. *)
Lemma scan_in_window a r ps lo hi t :
  activity_wf a → placement_bounds a r ps = Some (lo, hi) → lo ≤ t ≤ hi →
  utc (dr_window_start r) ≤ t ≤ utc (dr_window_end r).
Proof.
  intros [Hd Hb Ha _]. unfold placement_bounds. case_match; [done|]. intros [= <- <-] [Hlo Hhi]. split.
  - etrans; [|exact Hlo]. etrans; [|apply (foldl_max_from (λ p, utc (pl_ends_at p)))].
    pose proof (minutes_nonneg (pa_travel_minutes_before a) ltac:(lia)). destruct (pa_earliest_start a); lia.
  - etrans; [exact Hhi|]. etrans; [apply (foldl_min_upto (λ p, bool_decide (pa_activity_id a ∈ pa_dependencies (pl_activity p)))
                                      (λ p, utc (pl_starts_at p) - minutes (pa_duration_minutes a)))|].
    pose proof (minutes_nonneg (pa_duration_minutes a + pa_travel_minutes_after a) ltac:(lia)).
    destruct (hard_deadline a r), (pa_latest_end a); lia.
Qed.

Lemma planner_time_clear r t :
  request_wf r → clear_of_limits r = true → planner_time r t →
  -62135596800 * second + 4 * day ≤ t < 253402300800 * second - 4 * day.
Proof.
  intros Hwf Hc Ht. unfold clear_of_limits in Hc. rewrite forallb_forall in Hc.
  assert (∀ x, x ∈ request_times r →
            -62135596800 * second + 4 * day ≤ x < 253402300800 * second - 4 * day) as Hin.
  { intros x Hx%list_elem_of_In%Hc. unfold datetime_fits in Hx. bool_to_prop. lia. }
  destruct Ht as [Ht|(a & ps & lo & hi & Ha & Hb & Hlh)]; [by apply Hin|].
  pose proof (rwf_activities r Hwf) as Hw. rewrite Forall_forall in Hw.
  pose proof (scan_in_window a r ps lo hi t (Hw a Ha) Hb Hlh).
  pose proof (Hin (utc (dr_window_start r)) ltac:(left)).
  pose proof (Hin (utc (dr_window_end r)) ltac:(right; left)). lia.
Qed.

(** C2. Every valid request whose times keep four days from the ends of the range
    of [datetime] is answered: a current one by a plan, a stale one by the
    stale-state error that carries both revisions.  In particular the greedy loop
    ends and no explanation lookup fails; and no time that the planner computes,
    by adding the minutes of an activity and its travel to a time of the request
    or to a start it tries, leaves the range, so nothing overflows. *)
Theorem propose_day_answers db fp r :
  validate_request db r = Ok tt → clear_of_limits r = true →
  (dr_expected_state_revision r = dr_state_revision r → ∃ p, propose_day db fp r = Ok p)
  ∧ (dr_expected_state_revision r ≠ dr_state_revision r →
     propose_day db fp r
     = Err (StalePlannerStateError (dr_expected_state_revision r) (dr_state_revision r)))
  ∧ (∀ a t n, a ∈ dr_activities r → planner_time r t →
       0 ≤ n ≤ pa_duration_minutes a + pa_travel_minutes_before a + pa_travel_minutes_after a →
       datetime_fits (t - minutes n) = true ∧ datetime_fits (t + minutes n) = true).
Proof.
  intros Hv%validate_request_wf Hc. pose proof (propose_day_outcome db fp r Hv) as Ho. split_and!.
  - intros Hrev. destruct Ho; [done|eauto..].
  - intros Hrev. unfold propose_day. by rewrite (proj2 (Z.eqb_neq _ _) Hrev).
  - intros a t n Ha Ht Hn. pose proof (planner_time_clear r t Hv Hc Ht).
    pose proof (rwf_activities r Hv) as Hw. rewrite Forall_forall in Hw. destruct (Hw a Ha) as [Hd Hb Hf _].
    unfold datetime_fits, minutes, day, hour, minute, second in *. rewrite !andb_true_iff, !Z.leb_le, !Z.ltb_lt. lia.
Qed.

Lemma propose_day_answers_witness :
  (∃ p, propose_day Demo.utc_db Demo.fingerprint Demo.request = Ok p)
  ∧ datetime_fits (utc (Demo.at_ 12 0) + minutes 55) = true.
Proof.
  destruct (propose_day_answers Demo.utc_db Demo.fingerprint Demo.request
                  ltac:(vm_compute; reflexivity) ltac:(vm_compute; reflexivity)) as (H1 & _ & H3). split.
  - exact (H1 eq_refl).
  - refine (proj2 (H3 Demo.review _ 55 ltac:(left) _ ltac:(vm_compute; split; discriminate))).
    left. right. left.
Defined.

(** C3. Prerequisites come first: whenever an activity is scheduled, each of its
    dependencies is scheduled in the same plan and ends no later than it starts. *)
Theorem plan_respects_dependencies db fp r p a s e d :
  validate_request db r = Ok tt → propose_day db fp r = Ok p →
  a ∈ dr_activities r → scheduled_at (py_internal_plan p) (pa_activity_id a) s e →
  d ∈ pa_dependencies a →
  ∃ s' e', scheduled_at (py_internal_plan p) d s' e' ∧ e' ≤ s.
Proof.
  intros Hv Hp Ha Hs Hd. pose proof (validate_request_wf db r Hv) as Hwf.
  destruct (propose_day_planned db fp r p Hv Hp (scheduled_at_nonempty _ _ _ _ Hs))
    as (fixed & ps & un & es & _ & _ & Hok & Hinv & _ & ->).
  apply scheduled_at_inv in Hs as (q & Hq & Hid & <- & _).
  assert (pl_activity q = a) as Hqa.
  { apply (activity_unique r); [done| |done|done].
    pose proof (ps_each r ps (po_placements r ps un Hok)) as He.
    rewrite Forall_forall in He. by apply He. }
  destruct (dependencies_all_met r ps un q Hok Hinv Hq d) as (q' & Hq' & <- & Hle);
    [by rewrite Hqa|].
  exists (utc (pl_starts_at q')), (utc (pl_ends_at q')). split; [|done].
  by apply scheduled_at_placement.
Qed.

Lemma plan_respects_dependencies_witness :
  ∃ p s' e', Demo.plan = Ok p ∧ scheduled_at (py_internal_plan p) "draft" s' e'
             ∧ e' ≤ utc (Demo.at_ 11 0).
Proof.
  destruct Demo.plan as [p|e] eqn:Hp; [|vm_compute in Hp; discriminate Hp].
  destruct (plan_respects_dependencies Demo.utc_db Demo.fingerprint Demo.request p Demo.review
              (utc (Demo.at_ 11 0)) (utc (Demo.at_ 11 30)) "draft"
              ltac:(vm_compute; reflexivity) Hp) as (s' & e' & Hs & Hle).
  - apply list_elem_of_here.
  - vm_compute in Hp. injection Hp as <-.
    eexists. split; [apply list_elem_of_In; do 4 right; left; reflexivity|].
    vm_compute. split_and!; [reflexivity|discriminate|reflexivity|reflexivity].
  - apply list_elem_of_here.
  - exists p, s', e'. split; [reflexivity|]. split; assumption.
Defined.

(** C4. Hard constraints hold for everything scheduled: the reservation including
    travel lies in the window, the activity lasts its declared minutes, starts no
    earlier than allowed and ends by its latest end and by its deadline, unless
    the deadline was already missed and recovery was requested. *)
Theorem plan_respects_hard_bounds db fp r p a s e :
  validate_request db r = Ok tt → propose_day db fp r = Ok p →
  a ∈ dr_activities r → scheduled_at (py_internal_plan p) (pa_activity_id a) s e →
  utc (dr_window_start r) + minutes (pa_travel_minutes_before a) ≤ s
  ∧ e + minutes (pa_travel_minutes_after a) ≤ utc (dr_window_end r)
  ∧ floor_minutes (e - s) = pa_duration_minutes a
  ∧ (∀ d, pa_earliest_start a = Some d → utc d ≤ s)
  ∧ (∀ d, pa_latest_end a = Some d → e ≤ utc d)
  ∧ (∀ d, pa_deadline a = Some d →
     e ≤ utc d ∨ (pa_recover_missed_deadline a = true ∧ utc d < utc (dr_window_start r))).
Proof.
  intros Hv Hp Ha Hs. pose proof (validate_request_wf db r Hv) as Hwf.
  destruct (propose_day_planned db fp r p Hv Hp (scheduled_at_nonempty _ _ _ _ Hs))
    as (fixed & ps & un & es & _ & _ & Hok & _ & _ & ->).
  apply scheduled_at_inv in Hs as (q & Hq & Hid & <- & <-).
  pose proof (ps_each r ps (po_placements r ps un Hok)) as He. rewrite Forall_forall in He.
  destruct (He q Hq) as [Hqr Hlo Hhi Hb Hlen].
  assert (pl_activity q = a) as Hqa by by apply (activity_unique r).
  unfold reservation_start in Hlo. unfold reservation_end in Hhi.
  unfold satisfies_time_bounds in Hb. rewrite Hqa in *. bool_to_prop.
  split_and!; [lia|lia|done| | |].
  - intros d Hd. by rewrite Hd in *; simpl in *; bool_to_prop.
  - intros d Hd. by rewrite Hd in *; simpl in *; bool_to_prop.
  - intros d Hd. unfold hard_deadline in *. rewrite Hd in *.
    destruct (pa_recover_missed_deadline a && _) eqn:Hr; simpl in *; bool_to_prop; [by right|by left].
Qed.

Lemma plan_respects_hard_bounds_witness :
  ∃ p, Demo.plan = Ok p ∧
    utc (Demo.at_ 9 0) + minutes 15 ≤ utc (Demo.at_ 11 0)
    ∧ floor_minutes (utc (Demo.at_ 11 30) - utc (Demo.at_ 11 0)) = 30.
Proof.
  destruct Demo.plan as [p|e] eqn:Hp; [|vm_compute in Hp; discriminate Hp].
  exists p. split; [reflexivity|].
  destruct (plan_respects_hard_bounds Demo.utc_db Demo.fingerprint Demo.request p Demo.review
              (utc (Demo.at_ 11 0)) (utc (Demo.at_ 11 30))
              ltac:(vm_compute; reflexivity) Hp) as (Hlo & _ & Hlen & _).
  - apply list_elem_of_here.
  - vm_compute in Hp. injection Hp as <-.
    eexists. split; [apply list_elem_of_In; do 4 right; left; reflexivity|].
    vm_compute. split_and!; [reflexivity|discriminate|reflexivity|reflexivity].
  - split; assumption.
Defined.

(** Fixed and protected activities never move and never disappear: whenever
    a plan is emitted, each of them is scheduled at exactly its fixed interval. *)
Theorem plan_keeps_fixed_intervals db fp r p a s e :
  validate_request db r = Ok tt → propose_day db fp r = Ok p → py_internal_plan p ≠ [] →
  a ∈ dr_activities r → pa_flexibility a ≠ FLEXIBLE →
  pa_fixed_start a = Some s → pa_fixed_end a = Some e →
  scheduled_at (py_internal_plan p) (pa_activity_id a) (utc s) (utc e).
Proof.
  intros Hv Hp Hne Ha Hf Hs He. pose proof (validate_request_wf db r Hv) as Hwf.
  destruct (propose_day_planned db fp r p Hv Hp Hne)
    as (fixed & ps & un & es & Hfix & Hsub & _ & _ & _ & ->).
  apply place_fixed_ok in Hfix as [-> _]; [|done].
  pose proof (scheduled_at_placement db r ps (fixed_placement r (dependent_counts r) a)) as Hsch.
  unfold pl_id, fixed_placement, fixed_key in Hsch. simpl in Hsch. rewrite Hs, He in Hsch.
  apply Hsch. apply Hsub. unfold fixed_placement, fixed_key.
  apply list_elem_of_fmap. exists a. unfold fixed_placement, fixed_key. rewrite Hs, He.
  split; [done|]. by apply fixed_activities_elem.
Qed.

Lemma plan_keeps_fixed_intervals_witness :
  ∃ p, Demo.plan = Ok p ∧
    scheduled_at (py_internal_plan p) "standup" (utc (Demo.at_ 9 30)) (utc (Demo.at_ 10 0)).
Proof.
  destruct Demo.plan as [p|e] eqn:Hp; [|vm_compute in Hp; discriminate Hp].
  exists p. split; [reflexivity|].
  apply (plan_keeps_fixed_intervals Demo.utc_db Demo.fingerprint Demo.request p Demo.standup
           (Demo.at_ 9 30) (Demo.at_ 10 0) ltac:(vm_compute; reflexivity) Hp).
  - vm_compute in Hp. injection Hp as <-. discriminate.
  - apply list_elem_of_further, list_elem_of_here.
  - discriminate.
  - reflexivity.
  - reflexivity.
Defined.

(** ** Accounting for activities *)

Lemma filter_everything {A} (P : A → Prop) `{∀ x, Decision (P x)} (l : list A) : (∀ x, x ∈ l → P x) → filter P l = l.
Proof.
  induction l as [|x l IH]; intros Hl; [done|]. rewrite filter_cons_True by (apply Hl; left).
  f_equal. apply IH. intros y Hy. apply Hl. by right.
Qed.

(** The explanations of a conflict, in the order of the request. *)
Lemma conflict_explained (f : PlanActivity → TaskExplanation) (cs : gset string) l :
  (∀ a, te_activity_id (f a) = pa_activity_id a) →
  map te_activity_id (map f (filter (λ a, pa_activity_id a ∈ cs) l))
  = filter (λ id, id ∈ sorted_ids cs) (map pa_activity_id l).
Proof.
  intros Hf. induction l as [|a l IH]; [done|]. cbn [map]. rewrite !filter_cons.
  destruct (decide (pa_activity_id a ∈ cs)) as [Hin|Hin], (decide (pa_activity_id a ∈ sorted_ids cs)) as [Hs|Hs];
    rewrite elem_of_sorted_ids in Hs; try done. simpl. by rewrite Hf, IH.
Qed.

(** What the placement left over is listed once, and is what was not placed. *)
Lemma planned_accounted r ps un :
  plan_ok r ps un → request_wf r →
  NoDup (map ua_activity_id un)
  ∧ ∀ a, a ∈ dr_activities r → (pa_activity_id a ∈ map pl_id ps ↔ pa_activity_id a ∉ map ua_activity_id un).
Proof.
  intros Hok Hwf. pose proof (rwf_ids r Hwf) as Hn. rewrite <- (po_partition r ps un Hok) in Hn.
  apply NoDup_app in Hn as (_ & Hd & Hn). split; [done|]. intros a Ha. split; [apply Hd|]. intros Hnot.
  assert (pa_activity_id a ∈ map pl_id ps ++ map ua_activity_id un) as [Hin|Hin]%elem_of_app; [|done|done].
  rewrite (po_partition r ps un Hok). by apply list_elem_of_fmap_2.
Qed.

(** C5. Every activity is accounted for.  When a plan is emitted, each activity is
    scheduled or listed as unscheduled and never both, and the explanations name
    the activities of the request in order.  When none is, nothing is scheduled, and
    what is listed is exactly the activities that are explained: the conflicting
    fixed reservations if there are any, all activities otherwise.  No activity is
    listed twice. *)
Theorem plan_accounts_for_activities db fp r p a :
  validate_request db r = Ok tt → propose_day db fp r = Ok p → a ∈ dr_activities r →
  let listed := map ua_activity_id (py_unscheduled p) in
  NoDup listed
  ∧ (py_internal_plan p ≠ [] →
     ((∃ s e, scheduled_at (py_internal_plan p) (pa_activity_id a) s e) ↔ pa_activity_id a ∉ listed)
     ∧ map te_activity_id (py_explanations p) = map pa_activity_id (dr_activities r))
  ∧ (py_internal_plan p = [] →
     map te_activity_id (py_explanations p) = filter (λ id, id ∈ listed) (map pa_activity_id (dr_activities r))
     ∧ (pa_activity_id a ∈ listed ↔
        match place_fixed r (dependent_counts r) with
        | FixedConflicts cs => pa_activity_id a ∈ cs
        | FixedPlacements _ => True
        end)).
Proof.
  intros Hv%validate_request_wf Hp Ha listed. pose proof (rwf_ids r Hv) as Hn.
  pose proof (propose_day_outcome db fp r Hv) as Ho. rewrite Hp in Ho. unfold listed.
  inversion Ho as [|cs Hf Hr|fixed ps un es Hf Hok Hinv Hes Hr|fixed ps un es Hf Hsub Hok Hinv Hes Hr];
    subst p; clear Ho; simpl.
  - rewrite map_map, map_id. split_and!; [apply sorted_ids_nodup|done|intros _]. rewrite Hf. split.
    + by apply conflict_explained.
    + by rewrite elem_of_sorted_ids.
  - rewrite map_map. simpl. split_and!; [done|done|intros _]. rewrite Hf, Hes. split.
    + symmetry. by apply filter_everything.
    + split; [done|intros _]. by apply list_elem_of_fmap_2.
  - pose proof (planned_accounted r ps un Hok Hv) as (Hlisted & Hiff).
    split_and!; [done| |].
    + intros _. split; [|done]. rewrite <- (Hiff a Ha). split.
      * intros (s & e & (q & Hq & <- & _)%scheduled_at_inv). by apply list_elem_of_fmap_2.
      * intros (q & -> & Hq)%list_elem_of_fmap.
        exists (utc (pl_starts_at q)), (utc (pl_ends_at q)). by apply scheduled_at_placement.
    + intros Hnil. pose proof (build_internal_plan_tiles r (request_zone db r) Hv ps (po_placements r ps un Hok)) as Ht.
      rewrite Hnil in Ht. simpl in Ht. pose proof (rwf_window r Hv). lia.
Qed.

Lemma plan_accounts_for_activities_witness :
  ∃ p, Demo.plan = Ok p ∧ ¬ ∃ s e, scheduled_at (py_internal_plan p) "stray" s e.
Proof.
  destruct Demo.plan as [p|e] eqn:Hp; [|vm_compute in Hp; discriminate Hp].
  exists p. split; [reflexivity|].
  destruct (plan_accounts_for_activities Demo.utc_db Demo.fingerprint Demo.request p Demo.stray
              ltac:(vm_compute; reflexivity) Hp) as (_ & Hplan & _).
  - do 2 apply list_elem_of_further. apply list_elem_of_here.
  - destruct Hplan as [Hiff _]; [vm_compute in Hp; injection Hp as <-; discriminate|].
    intros Hs. apply Hiff in Hs. apply Hs. vm_compute in Hp. injection Hp as <-.
    apply list_elem_of_here.
Defined.

(** A conflict is reported exactly when it exists: the reported identifiers
    are the fixed or protected activities that leave the window, break a hard
    bound, or overlap another fixed reservation, travel included. *)
Theorem fixed_conflicts_exact db r cs x :
  validate_request db r = Ok tt →
  place_fixed r (dependent_counts r) = FixedConflicts cs →
  x ∈ cs ↔ ∃ a, a ∈ dr_activities r ∧ pa_flexibility a ≠ FLEXIBLE ∧ x = pa_activity_id a
                ∧ conflicted r (dependent_counts r) a.
Proof.
  intros Hv Hc. rewrite (place_fixed_conflicts_spec r (validate_request_wf db r Hv) _ cs Hc).
  setoid_rewrite fixed_activities_elem. naive_solver.
Qed.

Lemma fixed_conflicts_exact_witness :
  ∃ cs, place_fixed (Demo.day_request [Demo.standup; Demo.activity "call" PROTECTED 20
            (Some (Demo.at_ 9 45, Demo.at_ 10 5)) None [] 0 0] [])
          (dependent_counts (Demo.day_request [Demo.standup; Demo.activity "call" PROTECTED 20
            (Some (Demo.at_ 9 45, Demo.at_ 10 5)) None [] 0 0] [])) = FixedConflicts cs
        ∧ "call" ∈ cs.
Proof.
  set (r := Demo.day_request _ _).
  destruct (place_fixed r (dependent_counts r)) as [ps|cs] eqn:Hc; [vm_compute in Hc; discriminate Hc|].
  exists cs. split; [reflexivity|].
  apply (fixed_conflicts_exact Demo.utc_db r cs "call" ltac:(vm_compute; reflexivity) Hc).
  exists (Demo.activity "call" PROTECTED 20 (Some (Demo.at_ 9 45, Demo.at_ 10 5)) None [] 0 0).
  split_and!; [apply list_elem_of_further, list_elem_of_here|discriminate|reflexivity|].
  right. exists Demo.standup. split_and!; [|discriminate|vm_compute; reflexivity].
  apply fixed_activities_elem. split; [apply list_elem_of_here|discriminate].
Defined.

(** C6. [best_placement] is optimal on its minute grid: if any minute between the
    bounds leaves the activity free of conflicts, a placement is returned that is
    itself free, scores at least as much as that minute, and starts no later than
    it when the scores tie. *)
Theorem best_placement_maximal z a r ps counts lo hi (k : nat) :
  placement_bounds a r ps = Some (lo, hi) →
  lo + minutes (Z.of_nat k) ≤ hi →
  is_free ps (candidate z a r counts (lo + minutes (Z.of_nat k))) = true →
  ∃ b, best_placement z a r ps counts = Some b
    ∧ is_free ps b = true
    ∧ lo ≤ utc (pl_starts_at b) ≤ hi
    ∧ sb_total (pl_score (candidate z a r counts (lo + minutes (Z.of_nat k))))
      ≤ sb_total (pl_score b)
    ∧ (sb_total (pl_score b)
       = sb_total (pl_score (candidate z a r counts (lo + minutes (Z.of_nat k)))) →
       utc (pl_starts_at b) ≤ lo + minutes (Z.of_nat k)).
Proof.
  intros Hb Hk Hf.
  destruct (best_placement_optimal z a r ps counts lo hi k Hb Hk Hf) as (b & Hbest & Hle & Htie).
  exists b. rewrite candidate_start in Htie.
  destruct (best_placement_sound _ _ _ _ _ _ Hbest) as [_ Hfree (lo' & hi' & Hb' & Hr)].
  rewrite Hb in Hb'. by simplify_eq.
Qed.

Lemma best_placement_maximal_witness :
  ∃ b, best_placement (request_zone Demo.utc_db Demo.request) Demo.draft Demo.request []
         (dependent_counts Demo.request) = Some b
       ∧ utc (Demo.at_ 9 0) ≤ utc (pl_starts_at b).
Proof.
  destruct (best_placement_maximal (request_zone Demo.utc_db Demo.request) Demo.draft Demo.request
    [] (dependent_counts Demo.request) (utc (Demo.at_ 9 0)) (utc (Demo.at_ 10 45)) 5
    ltac:(vm_compute; reflexivity) ltac:(vm_compute; discriminate) ltac:(vm_compute; reflexivity))
    as (b & Hb & _ & Hr & _).
  exists b. split; [exact Hb|apply Hr].
Defined.

(** Flexible work can never cause a dependency violation: after placement,
    the activities whose dependencies are missing or reversed are all fixed or
    protected, so rejecting the plan is always due to a fixed reservation. *)
Theorem only_fixed_dependencies_break db r fixed x :
  validate_request db r = Ok tt →
  place_fixed r (dependent_counts r) = FixedPlacements fixed →
  ∃ ps un, place_flexible (request_zone db r) r fixed (dependent_counts r) = Some (ps, un)
    ∧ (x ∈ invalid_dependencies ps →
       ∃ a, a ∈ dr_activities r ∧ pa_activity_id a = x ∧ pa_flexibility a ≠ FLEXIBLE).
Proof.
  intros Hv%validate_request_wf Hf.
  destruct (place_flexible_total (request_zone db r) r _ fixed Hv Hf) as (ps & un & Hpl & Hok & _).
  exists ps, un. split; [done|]. pose proof (po_placements r ps un Hok) as Hps.
  rewrite invalid_dependencies_elem by apply Hps. intros (p & Hp & <- & Hnot).
  exists (pl_activity p). split_and!; [|done|].
  - pose proof (ps_each r ps Hps) as He. rewrite Forall_forall in He. by apply He.
  - intros Hflex. apply Hnot. by apply (po_dependencies r ps un Hok).
Qed.

Lemma only_fixed_dependencies_break_witness :
  ∃ fixed ps un, place_flexible (request_zone Demo.utc_db Demo.request) Demo.request fixed
                   (dependent_counts Demo.request) = Some (ps, un).
Proof.
  destruct (place_fixed Demo.request (dependent_counts Demo.request)) as [fixed|cs] eqn:Hf;
    [|vm_compute in Hf; discriminate Hf].
  destruct (only_fixed_dependencies_break Demo.utc_db Demo.request fixed "draft"
    ltac:(vm_compute; reflexivity) Hf) as (ps & un & Hpl & _).
  exists fixed, ps, un. exact Hpl.
Defined.

(** C7. The diff is exact: replaying it on the baseline (delete, insert, move)
    yields the proposed blocks and nothing else, every interval being the
    proposed one or comparing equal to it. *)
Theorem replan_diff_roundtrip db fp r p id :
  propose_day db fp r = Ok p →
  let after := apply_diff (py_diff p) (baseline_intervals (baseline_map (dr_baseline_blocks r))) in
  match proposed_map (py_internal_plan p) !! id with
  | None => after !! id = None
  | Some b => ∃ s e, after !! id = Some (s, e)
      ∧ (s = pb_starts_at b ∨ dt_eqb (pb_starts_at b) s = true)
      ∧ (e = pb_ends_at b ∨ dt_eqb (pb_ends_at b) e = true)
  end.
Proof.
  intros Hp after. unfold after. rewrite (propose_day_diff db fp r p Hp). unfold build_diff.
  rewrite apply_diff_lookup; [|apply proposed_map_key|apply baseline_map_key].
  destruct (proposed_map _ !! id) as [b|]; [|done].
  destruct (baseline_map _ !! id) as [e|]; [|eauto 10].
  destruct (interval_moved b e) eqn:Hm; [eauto 10|].
  unfold interval_moved in Hm. bool_to_prop. eauto 10.
Qed.

Lemma replan_diff_roundtrip_witness :
  ∃ p, Demo.plan = Ok p ∧
    apply_diff (py_diff p) (baseline_intervals (baseline_map (dr_baseline_blocks Demo.request)))
      !! "activity:gym" = None.
Proof.
  destruct Demo.plan as [p|e] eqn:Hp; [|vm_compute in Hp; discriminate Hp].
  exists p. split; [reflexivity|].
  pose proof (replan_diff_roundtrip Demo.utc_db Demo.fingerprint Demo.request p "activity:gym" Hp)
    as Hr.
  destruct (proposed_map (py_internal_plan p) !! "activity:gym") as [b|] eqn:Hb; [|exact Hr].
  vm_compute in Hp. injection Hp as <-. vm_compute in Hb. discriminate Hb.
Defined.

(** The calendar projection is a grouping of the visible blocks: each visible
    block lands in exactly one calendar block, in order; a calendar block starts
    with its first member, ends with its last, carries exactly the members'
    activity identifiers once each, and consecutive members meet on the clock.
    Available, ineligible and micro-event blocks are never exposed. *)
Theorem calendar_projection_groups blocks :
  ∃ groups, concat groups = filter (λ b, hidden b = false) blocks
    ∧ Forall2 calendar_group (project_calendar blocks) groups.
Proof. apply project_fold_groups. Qed.

(** Where no wall-clock reading repeats inside the window, a calendar block
    spans exactly the time of the blocks it was built from. *)
Theorem calendar_blocks_are_contiguous z lo hi blocks cb :
  unambiguous z lo hi → Forall (block_in z lo hi) blocks → cb ∈ project_calendar blocks →
  ∃ g, g ⊆ blocks ∧ calendar_group cb g
       ∧ utc (cb_ends_at cb) - utc (cb_starts_at cb) = total_elapsed g.
Proof.
  intros Hu Hb Hcb. destruct (project_fold_groups blocks) as (groups & Hc & Hf).
  apply list_elem_of_lookup in Hcb as [i Hi].
  destruct (Forall2_lookup_l _ _ _ _ _ Hf Hi) as (g & Hg & Hgroup).
  exists g. assert (g ⊆ blocks) as Hsub.
  { intros b Hbg. assert (b ∈ concat groups) as Hin.
    { apply list_elem_of_In, in_concat. exists g. rewrite <- !list_elem_of_In.
      split; [|done]. by eapply list_elem_of_lookup_2. }
    rewrite Hc in Hin. by apply list_elem_of_filter in Hin as [_ ?]. }
  split_and!; [done|done|].
  destruct (linked_elapsed z lo hi g Hu) as (s & e & Hs & He & Hse).
  - apply Hgroup.
  - rewrite Forall_forall in Hb |- *. intros b Hbg. by apply Hb, Hsub.
  - rewrite (cg_start cb g Hgroup) in Hs. rewrite (cg_end cb g Hgroup) in He.
    simpl in Hs, He. by simplify_eq.
Qed.

Lemma calendar_blocks_are_contiguous_witness :
  ∃ cb g, cb ∈ project_calendar [_available_block 0 minute (mk_zone "UTC" (Build_tzdata 0 []));
      activity_block (candidate (mk_zone "UTC" (Build_tzdata 0 [])) Demo.draft Demo.request ∅ minute)
        (mk_zone "UTC" (Build_tzdata 0 [])) ESCHEDULED]
    ∧ utc (cb_ends_at cb) - utc (cb_starts_at cb) = total_elapsed g.
Proof.
  set (z := mk_zone "UTC" (Build_tzdata 0 [])).
  set (b := activity_block _ z ESCHEDULED).
  set (cb := new_calendar_block b "draft" "draft" "draft").
  assert (cb ∈ project_calendar [_available_block 0 minute z; b]) as Hcb.
  { unfold project_calendar. simpl. apply list_elem_of_here. }
  destruct (calendar_blocks_are_contiguous z 0 (100 * minute) [_available_block 0 minute z; b] cb)
    as (g & _ & _ & Hg).
  - intros t1 t2 _ _. unfold astimezone, zone_offset. simpl. lia.
  - repeat constructor.
    + exists 0, minute. vm_compute. split_and!; first [reflexivity|discriminate].
    + exists minute, (46 * minute).
      vm_compute. split_and!; first [reflexivity|discriminate].
  - exact Hcb.
  - exists cb, g. split; [exact Hcb|exact Hg].
Defined.

(** ** A repeated hour *)

Module FallBack.
(** A zone that leaves summer time at 2026-11-01T06:00Z, going from -4h to -5h. *)
Definition change : Z := 20758 * day + 6 * hour.
Definition data : tzdata :=
  {| tz_initial := -4 * hour; tz_transitions := [(change, -5 * hour)] |}.
Definition db : zone_db := λ key, if String.eqb key "Fall/Back" then Some data else None.
Definition zone_ : zone := mk_zone "Fall/Back" data.

(** The timestamp of an instant as the JSON boundary delivers it. *)
Definition stamp (t : Z) : datetime := reparse (astimezone zone_ t).

Definition focus (id : string) (s e : Z) : PlanActivity :=
  {| pa_activity_id := id; pa_title := "Focus"; pa_flexibility := FIXED;
     pa_duration_minutes := floor_minutes (e - s);
     pa_fixed_start := Some (stamp s); pa_fixed_end := Some (stamp e);
     pa_earliest_start := None; pa_latest_end := None; pa_deadline := None;
     pa_recover_missed_deadline := false; pa_dependencies := [];
     pa_travel_minutes_before := 0; pa_travel_minutes_after := 0;
     pa_energy_required := 1; pa_goal_weight := 0; pa_importance := 0;
     pa_display_group := Some "focus"; pa_display_title := None; pa_guidance := [];
     pa_calendar_eligible := true; pa_personal_micro_event := false |}.

(** 01:00-01:30 before the change and 01:30-02:00 after it, one hour apart. *)
Definition request : DayPlanRequest :=
  {| dr_plan_date := 20758; dr_timezone := "Fall/Back";
     dr_window_start := stamp (change - 2 * hour); dr_window_end := stamp (change + 2 * hour);
     dr_state_revision := 1; dr_expected_state_revision := 1;
     dr_activities := [focus "a" (change - hour) (change - 30 * minute);
                       focus "b" (change + 30 * minute) (change + hour)];
     dr_energy_windows := []; dr_baseline_blocks := [];
     dr_schedule_resolution := default_resolution |}.
End FallBack.

(** In the hour that repeats when clocks go back, the projection merges two
    focus sessions that are an hour apart: a valid request is answered by one
    calendar block spanning two hours built from one hour of scheduled work,
    because the boundary check compares wall clocks of one zone. *)
Theorem calendar_merges_across_repeated_hour :
  validate_request FallBack.db FallBack.request = Ok tt
  ∧ ∃ p cb, propose_day FallBack.db Demo.fingerprint FallBack.request = Ok p
    ∧ py_status p = FEASIBLE
    ∧ py_calendar_projection p = [cb]
    ∧ utc (cb_ends_at cb) - utc (cb_starts_at cb) = 2 * hour
    ∧ total_elapsed (filter (λ b, hidden b = false) (py_internal_plan p)) = hour.
Proof.
  split; [vm_compute; reflexivity|].
  destruct (propose_day FallBack.db Demo.fingerprint FallBack.request) as [p|e] eqn:Hp;
    [|vm_compute in Hp; discriminate Hp].
  vm_compute in Hp. injection Hp as <-. do 2 eexists. split_and!; vm_compute; reflexivity.
Qed.

(** ** Deadline urgency *)

(** For windows up to 4,000 minutes the deadline score is urgency: a later
    deadline never scores more than an earlier one, and a deadline missed before
    the window scores above 10,000. *)
Theorem deadline_score_is_urgency r d1 d2 :
  window_minutes r ≤ 4000 → utc d1 ≤ utc d2 →
  deadline_score r (Some d2) ≤ deadline_score r (Some d1)
  ∧ (utc d1 < utc (dr_window_start r) → 10000 < deadline_score r (Some d1)).
Proof.
  intros Hw Hd. split; [by apply deadline_score_antitone|apply deadline_score_overdue].
Qed.

Lemma deadline_score_is_urgency_witness :
  deadline_score Demo.request (Some (Demo.at_ 13 0))
  ≤ deadline_score Demo.request (Some (Demo.at_ 11 0)).
Proof.
  exact (proj1 (deadline_score_is_urgency Demo.request (Demo.at_ 11 0) (Demo.at_ 13 0)
                  ltac:(vm_compute; discriminate) ltac:(vm_compute; discriminate))).
Defined.

Module Week.
Definition request (activities : list PlanActivity) : DayPlanRequest :=
  {| dr_plan_date := 20458; dr_timezone := "UTC";
     dr_window_start := Demo.at_ 0 0; dr_window_end := Demo.at_ 168 0;
     dr_state_revision := 1; dr_expected_state_revision := 1;
     dr_activities := activities; dr_energy_windows := []; dr_baseline_blocks := [];
     dr_schedule_resolution := default_resolution |}.
Definition friday : datetime := Demo.at_ 116 0.
Definition next_monday : datetime := Demo.at_ 170 0.
End Week.

(** Over a week the deadline score is not urgency: in a valid seven-day
    request a deadline on Friday evening scores below having no deadline at all
    and below a deadline that falls after the week. *)
Theorem week_deadline_score_inverts :
  validate_week Demo.utc_db (Week.request []) = Ok tt
  ∧ utc Week.friday < utc (dr_window_end (Week.request []))
  ∧ utc (dr_window_end (Week.request [])) < utc Week.next_monday
  ∧ deadline_score (Week.request []) (Some Week.friday) < deadline_score (Week.request []) None
  ∧ deadline_score (Week.request []) None
    < deadline_score (Week.request []) (Some Week.next_monday).
Proof. split_and!; vm_compute; reflexivity. Qed.

(** ** The week horizon *)

Lemma reparse_utc d : utc (reparse d) = utc d.
Proof. done. Qed.

(** A week plan accounts for exactly 10,080 minutes: an accepted week request
    spans 168 elapsed hours and the blocks of the emitted plan add up to them. *)
Theorem week_plan_covers_week db fp r p :
  propose_week db fp r = Ok p →
  utc (dr_window_end r) - utc (dr_window_start r) = 10080 * minute
  ∧ (py_internal_plan p = [] ∨ total_elapsed (py_internal_plan p) = 10080 * minute).
Proof.
  unfold propose_week. destruct (validate_week db (reparse_request r)) as [[]|] eqn:Hv; [|done].
  unfold validate_week in Hv. apply rbind_unit_ok in Hv as [Hv Hlen%raise_if_ok]. bool_to_prop.
  cbn [dr_window_end dr_window_start reparse_request] in Hlen. rewrite !reparse_utc in Hlen.
  intros Hp. split; [unfold day, hour in Hlen; lia|].
  destruct (propose_day_ok db fp _ p Hv Hp) as [[_ ?]|(? & ps & un & es & _ & _ & Hok & _ & _ & ->)];
    [by left|right].
  erewrite tiles_elapsed; [|apply build_internal_plan_tiles; [by eapply validate_request_wf|apply Hok]].
  cbn [dr_window_end dr_window_start reparse_request].
  rewrite !reparse_utc. unfold day, hour in Hlen. lia.
Qed.

Lemma week_plan_covers_week_witness :
  ∃ p, propose_week Demo.utc_db Demo.fingerprint (Week.request [Demo.standup]) = Ok p
    ∧ (py_internal_plan p = [] ∨ total_elapsed (py_internal_plan p) = 10080 * minute).
Proof.
  destruct (propose_week Demo.utc_db Demo.fingerprint (Week.request [Demo.standup])) as [p|e] eqn:Hp;
    [|vm_compute in Hp; discriminate Hp].
  exists p. split; [reflexivity|].
  exact (proj2 (week_plan_covers_week Demo.utc_db Demo.fingerprint (Week.request [Demo.standup]) p Hp)).
Defined.

(** The offset check of the snapshot validator never reports: a timestamp whose
    offset is not the one of the planning zone is rejected, but always as a
    nonexistent local time, since equal wall clocks of one instant have equal
    offsets. *)
Theorem offset_mismatch_is_reported_as_nonexistent z value :
  aware value = true → dt_local value mod minute = 0 →
  validate_timestamp z value =
  if dt_offset value =? zone_offset (zone_data z) (utc value) then Ok tt
  else Err (ModelValidator ("nonexistent local time: " +:+ isoformat value)).
Proof.
  intros Ha Hm. unfold validate_timestamp, _validate_minute. rewrite Ha, Hm. simpl.
  unfold astimezone. simpl.
  replace (utc value + zone_offset (zone_data z) (utc value) =? dt_local value)
    with (dt_offset value =? zone_offset (zone_data z) (utc value)).
  - destruct (dt_offset value =? _) eqn:E; simpl; [|done]. rewrite Z.eqb_sym, E. done.
  - apply eq_true_iff_eq. rewrite !Z.eqb_eq. unfold utc. lia.
Qed.

Lemma offset_mismatch_witness :
  validate_timestamp (mk_zone "UTC" (Build_tzdata 0 []))
    {| dt_local := 0; dt_offset := hour; dt_tz := Offset hour |}
  = Err (ModelValidator "nonexistent local time: 1970-01-01T00:00:00+01:00").
Proof.
  exact (offset_mismatch_is_reported_as_nonexistent (mk_zone "UTC" (Build_tzdata 0 []))
    {| dt_local := 0; dt_offset := hour; dt_tz := Offset hour |} eq_refl eq_refl).
Defined.
