(* ===== verification/Transactions.v ===== *)
(** * Composable SQLCipher transactions ([transactions.py])

    A connection to an encrypted database: the contents its statements see
    ([live]), the contents on disk ([durable]) and whether a transaction is
    open.  [domain_transaction] opens one, or a savepoint inside the caller's;
    [with_connection] is the driver's own [with connection:] block. *)

From stdpp Require Import prelude base.
From S2P Require Import Prelude.

Record connection (Db : Type) := Connection {
  live : Db;
  durable : Db;
  in_transaction : bool;
}.
Arguments Connection {Db} _ _ _.
Arguments live {Db} _.
Arguments durable {Db} _.
Arguments in_transaction {Db} _.

Section statements.
Context {Db : Type}.
Implicit Types c : connection Db.

Definition begin_immediate c : connection Db := Connection (live c) (durable c) true.
Definition commit c : connection Db := Connection (live c) (live c) false.
Definition rollback c : connection Db := Connection (durable c) (durable c) false.
Definition rollback_to (savepoint : Db) c : connection Db :=
  Connection savepoint (durable c) (in_transaction c).

(** One statement that changes the contents or fails. *)
Definition execute {E : Type} (statement : Db → result E Db) : comp (connection Db) E unit :=
  λ c, match statement (live c) with
       | Ok db => (Connection db (durable c) (in_transaction c), Ok tt)
       | Err e => (c, Err e)
       end.

(** A query on the current contents. *)
Definition query {E A : Type} (f : Db → result E A) : comp (connection Db) E A :=
  λ c, (c, f (live c)).

(** Outside a block a data-changing statement opens a transaction unless one is
    open, and only [commit] ends it. *)
Definition execute_dml {E : Type} (f : Db → result E Db) : comp (connection Db) E unit := λ c,
  execute f (if in_transaction c then c else begin_immediate c).

(** The statements of a loop, in order, until one raises. *)
Fixpoint for_each {S E X : Type} (f : X → comp S E unit) (l : list X) : comp S E unit :=
  match l with
  | [] => mret tt
  | x :: l' => f x ≫= λ _, for_each f l'
  end.

Definition domain_transaction {E A : Type} (body : comp (connection Db) E A) :
    comp (connection Db) E A := λ c,
  if in_transaction c then
    let savepoint := live c in
    match body c with
    | (c', Ok a) => (c', Ok a)
    | (c', Err e) => (rollback_to savepoint c', Err e)
    end
  else
    match body (begin_immediate c) with
    | (c', Ok a) => (commit c', Ok a)
    | (c', Err e) => (rollback c', Err e)
    end.

(** [with connection:] commits or rolls back whatever transaction is open. *)
Definition with_connection {E A : Type} (body : comp (connection Db) E A) :
    comp (connection Db) E A := λ c,
  match body (begin_immediate c) with
  | (c', Ok a) => (commit c', Ok a)
  | (c', Err e) => (rollback c', Err e)
  end.

(** ** What bodies may do, and what the blocks guarantee *)

(** Outside a transaction the live contents are the durable ones. *)
Definition settled c : Prop := in_transaction c = false → live c = durable c.

(** A body that leaves its caller's transaction open and writes nothing to disk. *)
Definition within {E A : Type} (body : comp (connection Db) E A) : Prop :=
  ∀ c, in_transaction c = true →
    in_transaction (body c).1 = true ∧ durable (body c).1 = durable c.

Lemma within_execute {E} (f : Db → result E Db) : within (execute f).
Proof. intros c Hc. unfold execute. by destruct (f _). Qed.

Lemma within_query {E A} (f : Db → result E A) : within (query f).
Proof. done. Qed.

Lemma within_ret {E A} (a : A) : within (E := E) (mret a).
Proof. done. Qed.

Lemma within_throw {E A} (e : E) : within (A := A) (throw e).
Proof. done. Qed.

Lemma within_bind {E A B} (m : comp (connection Db) E A) (k : A → comp (connection Db) E B) :
  within m → (∀ a, within (k a)) → within (m ≫= k).
Proof.
  intros Hm Hk c Hc. unfold mbind, comp_bind.
  destruct (Hm c Hc) as [Hin Hdur], (m c) as [c' [a|e]]; simpl in *; [|done].
  destruct (Hk a c' Hin) as [Hin' Hdur']. by rewrite Hdur'.
Qed.

Lemma within_catch {E A} (m : comp (connection Db) E A) (h : E → comp (connection Db) E A) :
  within m → (∀ e, within (h e)) → within (catch m h).
Proof.
  intros Hm Hh c Hc. unfold catch.
  destruct (Hm c Hc) as [Hin Hdur], (m c) as [c' [a|e]]; simpl in *; [done|].
  destruct (Hh e c' Hin) as [Hin' Hdur']. by rewrite Hdur'.
Qed.

Lemma within_for_each {E X} (f : X → comp (connection Db) E unit) l :
  (∀ x, within (f x)) → within (for_each f l).
Proof. intros Hf. induction l; simpl; [apply within_ret|]. by apply within_bind. Qed.

Lemma within_domain_transaction {E A} (m : comp (connection Db) E A) :
  within m → within (domain_transaction m).
Proof.
  intros Hm c Hc. unfold domain_transaction. rewrite Hc.
  by destruct (Hm c Hc) as [Hin Hdur], (m c) as [c' [a|e]].
Qed.

(** ** Inversion of successful runs *)

Lemma execute_inv {E} (f : Db → result E Db) c c' u :
  execute f c = (c', Ok u) →
  ∃ db, f (live c) = Ok db ∧ c' = Connection db (durable c) (in_transaction c).
Proof. unfold execute. destruct (f (live c)) as [db|e]; intros [= <-]. by exists db. Qed.

Lemma query_inv {E A} (f : Db → result E A) c c' a :
  query f c = (c', Ok a) → c' = c ∧ f (live c) = Ok a.
Proof. by intros [= <- ->]. Qed.

(** The outermost block that returns has committed what its body left. *)
Lemma domain_transaction_inv {E A} (m : comp (connection Db) E A) c c' a :
  in_transaction c = false → domain_transaction m c = (c', Ok a) →
  ∃ c1, m (begin_immediate c) = (c1, Ok a) ∧ c' = commit c1.
Proof.
  intros Hc. unfold domain_transaction. rewrite Hc.
  destruct (m _) as [c1 [b|e]]; intros [= <- ->]. by exists c1.
Qed.

(** A block that raises leaves the connection as it found it. *)
Lemma domain_transaction_atomic {E A} (m : comp (connection Db) E A) c e :
  within m → settled c → (domain_transaction m c).2 = Err e → (domain_transaction m c).1 = c.
Proof.
  intros Hm Hs. unfold domain_transaction. destruct (in_transaction c) eqn:Hc.
  - destruct (Hm c Hc) as [Hin Hdur], (m c) as [c' [a|e']]; simpl in *; [done|].
    intros _. destruct c. unfold rollback_to. simpl in *. congruence.
  - destruct (Hm (begin_immediate c) eq_refl) as [_ Hdur].
    destruct (m _) as [c' [a|e']]; simpl in *; [done|].
    intros _. specialize (Hs Hc). destruct c. unfold rollback. simpl in *. congruence.
Qed.

Lemma domain_transaction_settled {E A} (m : comp (connection Db) E A) c :
  within m → settled (domain_transaction m c).1.
Proof.
  intros Hm. unfold domain_transaction, settled. destruct (in_transaction c) eqn:Hc.
  - destruct (Hm c Hc) as [Hin _], (m c) as [c' [a|e]]; simpl in *; congruence.
  - by destruct (m _) as [c' [a|e]].
Qed.

(** The outer block commits: its success is durable. *)
Lemma domain_transaction_durable {E A} (m : comp (connection Db) E A) c a :
  in_transaction c = false → (domain_transaction m c).2 = Ok a →
  durable (domain_transaction m c).1 = live (domain_transaction m c).1.
Proof.
  intros Hc. unfold domain_transaction. rewrite Hc. by destruct (m _) as [c' [b|e]].
Qed.
End statements.

#[export] Hint Resolve within_execute within_query within_ret within_throw within_bind within_catch
  within_for_each within_domain_transaction : lifeos.

(** ** A logic of invariants

    [upholds Inv P m Q]: from contents that satisfy [Inv] and [P], with [Inv] on
    disk, [m] ends with [Inv] in memory and on disk whether it returns or
    raises, and with [Q] of the result and the contents when it returns. *)

Section logic.
Context {Db E : Type} (Inv : Db → Prop).

Definition upholds {A : Type} (P : Db → Prop) (m : comp (connection Db) E A) (Q : A → Db → Prop) : Prop :=
  ∀ c, P (live c) → Inv (live c) → Inv (durable c) →
    match m c with
    | (c', Ok a) => Q a (live c') ∧ Inv (live c') ∧ Inv (durable c')
    | (c', Err _) => Inv (live c') ∧ Inv (durable c')
    end.

Lemma upholds_ret {A} (P : Db → Prop) (a : A) (Q : A → Db → Prop) :
  (∀ db, P db → Inv db → Q a db) → upholds P (mret a) Q.
Proof. intros H c HP H1 H2. split_and!; auto. Qed.

Lemma upholds_throw {A} (P : Db → Prop) (e : E) (Q : A → Db → Prop) : upholds P (throw e) Q.
Proof. by intros c HP H1 H2. Qed.

Lemma upholds_throw_if (P : Db → Prop) b (e : E) (Q : unit → Db → Prop) :
  (∀ db, P db → Inv db → b = false → Q tt db) → upholds P (throw_if b e) Q.
Proof. intros H c HP H1 H2. unfold throw_if, raise_if. destruct b; [done|]. split_and!; auto. Qed.

Lemma upholds_query {A} (P : Db → Prop) (f : Db → result E A) (Q : A → Db → Prop) :
  (∀ db a, P db → Inv db → f db = Ok a → Q a db) → upholds P (query f) Q.
Proof.
  intros H c HP H1 H2. unfold query. destruct (f (live c)) as [a|e] eqn:Hf; [|done].
  split_and!; auto.
Qed.

Lemma upholds_execute (P : Db → Prop) (f : Db → result E Db) (Q : unit → Db → Prop) :
  (∀ db db', P db → Inv db → f db = Ok db' → Inv db' ∧ Q tt db') → upholds P (execute f) Q.
Proof.
  intros H c HP H1 H2. unfold execute. destruct (f (live c)) as [db'|e] eqn:Hf; [|done]. simpl.
  destruct (H (live c) db' HP H1 Hf). split_and!; auto.
Qed.

Lemma upholds_bind {A B} (P : Db → Prop) (m : comp (connection Db) E A)
    (k : A → comp (connection Db) E B) (Q : A → Db → Prop) (R : B → Db → Prop) :
  upholds P m Q → (∀ a, upholds (Q a) (k a) R) → upholds P (m ≫= k) R.
Proof.
  intros Hm Hk c HP H1 H2. unfold mbind, comp_bind. specialize (Hm c HP H1 H2).
  destruct (m c) as [c' [a|e]]; [|done]. destruct Hm as (HQ & ? & ?). by apply Hk.
Qed.

Lemma upholds_conseq {A} (P P' : Db → Prop) (m : comp (connection Db) E A) (Q Q' : A → Db → Prop) :
  upholds P' m Q' → (∀ db, P db → Inv db → P' db) → (∀ a db, Q' a db → Inv db → Q a db) → upholds P m Q.
Proof.
  intros Hm HP HQ c H0 H1 H2. specialize (Hm c (HP _ H0 H1) H1 H2).
  destruct (m c) as [c' [a|e]]; [|done]. destruct Hm as (? & ? & ?). split_and!; auto.
Qed.

(** Facts the contents imply may be used of the computation. *)
Lemma upholds_fact {A} (φ : Prop) (P : Db → Prop) (m : comp (connection Db) E A) (Q : A → Db → Prop) :
  (∀ db, P db → Inv db → φ) → (φ → upholds P m Q) → upholds P m Q.
Proof. intros Hφ Hm c HP H1 H2. by apply (Hm (Hφ _ HP H1)). Qed.

Lemma upholds_block {A} (P : Db → Prop) (m : comp (connection Db) E A) (Q : A → Db → Prop) :
  upholds P m Q → upholds P (domain_transaction m) Q.
Proof.
  intros Hm c HP H1 H2. unfold domain_transaction. destruct (in_transaction c).
  - specialize (Hm c HP H1 H2). destruct (m c) as [c' [a|e]]; [done|]. split; [done|apply Hm].
  - specialize (Hm (begin_immediate c) HP H1 H2). destruct (m _) as [c' [a|e]]; simpl; [|by destruct Hm].
    destruct Hm as (? & ? & ?). done.
Qed.

Lemma upholds_for_each {X} (P : Db → Prop) (f : X → comp (connection Db) E unit) l :
  (∀ x, x ∈ l → upholds P (f x) (λ _, P)) → upholds P (for_each f l) (λ _, P).
Proof.
  induction l as [|x l IH]; intros H; simpl; [by apply upholds_ret|].
  eapply upholds_bind; [apply H; rewrite elem_of_cons; by left|]. intros [].
  apply IH. intros y Hy. apply H. rewrite elem_of_cons. by right.
Qed.
End logic.

(** ** Bodies as functions of the contents

    A body made of queries and statements is determined by a function on the
    contents: what it returns and leaves when it succeeds, which error it raises
    otherwise.  A block around it discards what a failed body left. *)

Section outcomes.
Context {Db E : Type}.

Definition outcome (A : Type) : Type := Db → result E (A * Db).
Definition then_ {A B : Type} (f : outcome A) (g : A → outcome B) : outcome B := λ db,
  match f db with Ok (a, db') => g a db' | Err e => Err e end.

Definition asks {A : Type} (f : Db → result E A) : outcome A := λ db,
  match f db with Ok a => Ok (a, db) | Err e => Err e end.
Definition does (f : Db → result E Db) : outcome unit := λ db,
  match f db with Ok db' => Ok (tt, db') | Err e => Err e end.

Definition computes {A : Type} (m : comp (connection Db) E A) (f : outcome A) : Prop :=
  ∀ c, in_transaction c = true →
    match f (live c) with
    | Ok (a, db) => m c = (Connection db (durable c) true, Ok a)
    | Err e => ∃ c', m c = (c', Err e) ∧ durable c' = durable c ∧ in_transaction c' = true
    end.

Lemma computes_ret {A} (a : A) : computes (mret a) (λ db, Ok (a, db)).
Proof. intros [l d b] Hc. simpl in *. by subst b. Qed.

Lemma computes_throw {A} (e : E) : computes (A := A) (throw e) (λ _, Err e).
Proof. intros c Hc. by exists c. Qed.

Lemma computes_query {A} (f : Db → result E A) :
  computes (query f) (asks f).
Proof.
  intros [l d b] Hc. simpl in *. subst b. unfold query, asks. simpl. destruct (f l); [done|]. by exists (Connection l d true).
Qed.

Lemma computes_execute (f : Db → result E Db) :
  computes (execute f) (does f).
Proof.
  intros [l d b] Hc. simpl in *. subst b. unfold execute, does. simpl. destruct (f l); [done|]. by exists (Connection l d true).
Qed.

Lemma computes_bind {A B} (m : comp (connection Db) E A) (k : A → comp (connection Db) E B) f g :
  computes m f → (∀ a, computes (k a) (g a)) → computes (m ≫= k) (then_ f g).
Proof.
  intros Hm Hk c Hc. specialize (Hm c Hc). unfold then_. unfold mbind, comp_bind.
  destruct (f (live c)) as [[a db]|e].
  - rewrite Hm. specialize (Hk a (Connection db (durable c) true) eq_refl). simpl in Hk.
    by destruct (g a db) as [[b db']|e].
  - destruct Hm as (c' & -> & ? & ?). by exists c'.
Qed.

Lemma computes_block {A} (m : comp (connection Db) E A) f :
  computes m f → computes (domain_transaction m) f.
Proof.
  intros Hm c Hc. unfold domain_transaction. rewrite Hc. specialize (Hm c Hc).
  destruct (f (live c)) as [[a db]|e]; [by rewrite Hm|].
  destruct Hm as (c' & -> & Hd & Hin). exists (rollback_to (live c) c'). done.
Qed.

Lemma computes_ext {A} (m : comp (connection Db) E A) f g :
  computes m f → (∀ db, f db = g db) → computes m g.
Proof. intros Hm Hfg c Hc. rewrite <- Hfg. by apply Hm. Qed.

(** A nested block that raises leaves its caller's contents alone. *)
Lemma block_nested {A} (m : comp (connection Db) E A) f c :
  computes m f → in_transaction c = true →
  domain_transaction m c = match f (live c) with
                           | Ok (a, db) => (Connection db (durable c) true, Ok a)
                           | Err e => (c, Err e)
                           end.
Proof.
  intros Hm Hc. unfold domain_transaction. rewrite Hc. specialize (Hm c Hc).
  destruct (f (live c)) as [[a db]|e]; [by rewrite Hm|].
  destruct Hm as (c' & -> & Hd & Hin). destruct c. simpl in *. unfold rollback_to. congruence.
Qed.

(** An outermost block commits what its body leaves, or changes nothing. *)
Lemma block_outermost {A} (m : comp (connection Db) E A) f c :
  computes m f → in_transaction c = false → live c = durable c →
  domain_transaction m c = match f (live c) with
                           | Ok (a, db) => (Connection db db false, Ok a)
                           | Err e => (c, Err e)
                           end.
Proof.
  intros Hm Hc Hs. unfold domain_transaction. rewrite Hc. specialize (Hm (begin_immediate c) eq_refl).
  simpl in Hm. destruct (f (live c)) as [[a db]|e]; [by rewrite Hm|].
  destruct Hm as (c' & -> & Hd & Hin). destruct c. simpl in *. unfold rollback. simpl. congruence.
Qed.
End outcomes.
#[export] Hint Resolve computes_ret computes_throw computes_query computes_execute computes_bind
  computes_block : lifeos.
