(* ===== verification/Consumption.v ===== *)
(** * One-shot authorization consumption ([authority_consumption.py])

    The [ConsumptionStore] protocol as a class with its laws, and its two
    implementations: the process-local set and the SQLCipher table whose
    primary key refuses a second claim. *)

From stdpp Require Import prelude base strings list gmap.
From S2P Require Import Prelude Transactions.

Definition ConsumptionKey : Type := string * string.

Definition reset_round (proposal_id : string) : string := "reset-round:" +:+ proposal_id.

(** ** The protocol *)

Class ConsumptionStore (S : Type) := {
  (** Count append-only recovery rounds of a proposal. *)
  generation : S → string → nat;
  (** Claim every key, or none. *)
  consume : list ConsumptionKey → S → S * bool;
}.

(** Every representation stands for a set of consumed keys. *)
Class ConsumptionLaws (S : Type) `{ConsumptionStore S} := {
  store_ok : S → Prop;
  consumed : S → gset ConsumptionKey;
  generation_spec : ∀ s p, store_ok s →
    generation s p = size (filter (λ k, k.1 = reset_round p) (consumed s));
  consume_spec : ∀ keys s, store_ok s → NoDup keys →
    let ok := bool_decide (Forall (λ k, k ∉ consumed s) keys) in
    (consume keys s).2 = ok ∧ store_ok (consume keys s).1
    ∧ consumed (consume keys s).1
      = (if ok then consumed s ∪ list_to_set keys else consumed s)
    ∧ (ok = false → (consume keys s).1 = s);
}.

(** ** The process-local set *)

Definition MemoryConsumptionStore : Type := gset ConsumptionKey.

#[export] Instance memory_store : ConsumptionStore MemoryConsumptionStore := {
  generation s p := size (filter (λ k, k.1 = reset_round p) s);
  consume keys s :=
    if bool_decide (Exists (λ k, k ∈ s) keys) then (s, false)
    else (s ∪ list_to_set keys, true);
}.

Lemma exists_forall_not (s : gset ConsumptionKey) keys :
  bool_decide (Forall (λ k, k ∉ s) keys) = negb (bool_decide (Exists (λ k, k ∈ s) keys)).
Proof.
  rewrite <- bool_decide_not. apply bool_decide_ext. rewrite Forall_Exists_neg. split; intros H He;
    apply H; (eapply Exists_impl; [done|]); intros k; simpl; [tauto|].
  intros Hk. tauto.
Qed.

#[export] Instance memory_laws : ConsumptionLaws MemoryConsumptionStore.
Proof.
  refine (Build_ConsumptionLaws _ _ (λ _, True) (λ s, s) _ _).
  - done.
  - intros keys s _ _. simpl. rewrite exists_forall_not.
    by destruct (bool_decide (Exists _ keys)).
Defined.

(** ** The SQLCipher table: [PRIMARY KEY (namespace, identifier)] *)

Inductive SqlError := IntegrityError.

Abbreviation authority_consumption := (list ConsumptionKey) (only parsing).

Definition insert_key (k : ConsumptionKey) (table : authority_consumption) :
    result SqlError authority_consumption :=
  if bool_decide (k ∈ table) then Err IntegrityError else Ok (table ++ [k]).

Abbreviation EncryptedConsumptionStore := (connection (list ConsumptionKey)) (only parsing).

Definition consume_rows (keys : list ConsumptionKey) :
    comp EncryptedConsumptionStore SqlError unit :=
  domain_transaction (for_each (λ k, execute (insert_key k)) keys).

Definition encrypted_consume (keys : list ConsumptionKey) (c : EncryptedConsumptionStore) :
    EncryptedConsumptionStore * bool :=
  match consume_rows keys c with
  | (c', Ok _) => (c', true)
  | (c', Err IntegrityError) => (c', false)
  end.

#[export] Instance encrypted_store : ConsumptionStore EncryptedConsumptionStore := {
  generation c p := length (filter (λ k, k.1 = reset_round p) (live c));
  consume := encrypted_consume;
}.

Lemma within_consume_rows keys : within (for_each (λ k, execute (insert_key k)) keys).
Proof. auto with lifeos. Qed.

Lemma execute_insert k (c : EncryptedConsumptionStore) :
  execute (insert_key k) c
  = if bool_decide (k ∈ live c) then (c, Err IntegrityError)
    else (Connection (live c ++ [k]) (durable c) (in_transaction c), Ok tt).
Proof. unfold execute, insert_key. by destruct (bool_decide _). Qed.

(** The insert loop appends every key exactly when all are new and distinct. *)
Lemma insert_rows keys c :
  let r := for_each (λ k, execute (insert_key k)) keys c in
  if bool_decide (NoDup keys ∧ Forall (λ k, k ∉ live c) keys)
  then r = (Connection (live c ++ keys) (durable c) (in_transaction c), Ok tt)
  else r.2 = Err IntegrityError.
Proof.
  revert c. induction keys as [|k keys IH]; intros c.
  { destruct c. simpl. by rewrite app_nil_r. }
  cbn [for_each].
  unfold mbind, comp_bind. rewrite execute_insert.
  destruct (bool_decide (k ∈ live c)) eqn:Hk; bool_to_prop.
  { rewrite bool_decide_false; [done|]. intros [_ H]. by inversion H. }
  specialize (IH (Connection (live c ++ [k]) (durable c) (in_transaction c))). cbn in IH.
  assert (bool_decide (NoDup (k :: keys) ∧ Forall (λ k', k' ∉ live c) (k :: keys))
          = bool_decide (NoDup keys ∧ Forall (λ k', k' ∉ live c ++ [k]) keys)) as ->.
  { apply bool_decide_ext. rewrite NoDup_cons, Forall_cons, !Forall_forall. set_solver. }
  destruct (bool_decide _); rewrite IH; [by rewrite <- app_assoc|done].
Qed.

Definition claimable (keys : list ConsumptionKey) (table : authority_consumption) : bool :=
  bool_decide (NoDup keys ∧ Forall (λ k, k ∉ table) keys).

Lemma consume_rows_result keys c :
  if claimable keys (live c)
  then (consume_rows keys c).2 = Ok tt ∧ live (consume_rows keys c).1 = live c ++ keys
  else (consume_rows keys c).2 = Err IntegrityError.
Proof.
  pose proof (insert_rows keys c) as H1. pose proof (insert_rows keys (begin_immediate c)) as H2.
  simpl in H1, H2. unfold consume_rows, domain_transaction, claimable.
  destruct (bool_decide _), (in_transaction c); rewrite ?H1, ?H2; try done.
  - by destruct (for_each _ keys c) as [c' [u|[]]].
  - by destruct (for_each _ keys (begin_immediate c)) as [c' [u|[]]].
Qed.

Lemma consume_rows_spec keys (c : EncryptedConsumptionStore) :
  settled c →
  (consume keys c).2 = claimable keys (live c) ∧ settled (consume keys c).1
  ∧ live (consume keys c).1 = (if claimable keys (live c) then live c ++ keys else live c)
  ∧ (claimable keys (live c) = false → (consume keys c).1 = c).
Proof.
  intros Hs. pose proof (consume_rows_result keys c) as Hr.
  pose proof (domain_transaction_settled _ c (within_consume_rows keys)) as Hs'.
  pose proof (λ e, domain_transaction_atomic _ c e (within_consume_rows keys) Hs) as Hat.
  simpl. unfold encrypted_consume, consume_rows in *.
  destruct (domain_transaction _ c) as [c' [u|[]]], (claimable keys (live c)); simpl in *;
    try naive_solver.
Qed.

Lemma size_filter_list (P : ConsumptionKey → Prop) `{∀ k, Decision (P k)} (l : list ConsumptionKey) :
  NoDup l →
  length (filter P l) = size (filter P (list_to_set l : gset ConsumptionKey)).
Proof.
  intros Hnd. rewrite <- (size_list_to_set (C := gset ConsumptionKey) (filter P l))
    by (by apply NoDup_filter).
  f_equal. apply set_eq. intros k. rewrite elem_of_filter, !elem_of_list_to_set.
  by rewrite list_elem_of_filter.
Qed.

#[export] Instance encrypted_laws : ConsumptionLaws EncryptedConsumptionStore.
Proof.
  refine (Build_ConsumptionLaws _ _ (λ c, settled c ∧ NoDup (live c))
            (λ c, list_to_set (live c)) _ _).
  - intros c p [_ Hnd]. by apply size_filter_list.
  - intros keys c [Hs Hnd] Hk ok. unfold ok.
    assert (bool_decide (Forall (λ k, k ∉ (list_to_set (live c) : gset ConsumptionKey)) keys)
            = claimable keys (live c)) as ->.
    { apply bool_decide_ext. rewrite !Forall_forall. set_solver. }
    destruct (consume_rows_spec keys c Hs) as (H1 & H2 & H3 & H4).
    split_and!; [done|done| | |done]; rewrite H3; unfold claimable; case_bool_decide as Hd; try done.
    + destruct Hd as [? Hf]. rewrite Forall_forall in Hf. apply NoDup_app. set_solver.
    + by rewrite list_to_set_app_L.
Defined.

(** ** Any two stores answer alike *)

Inductive store_call :=
| CallGeneration (proposal_id : string)
| CallConsume (keys : list ConsumptionKey).

Inductive store_answer := AnswerCount (n : nat) | AnswerClaimed (b : bool).

Definition call_ok (c : store_call) : Prop :=
  match c with CallGeneration _ => True | CallConsume keys => NoDup keys end.

Section traces.
Context {S : Type} `{ConsumptionStore S}.

Fixpoint run_calls (calls : list store_call) (s : S) : S * list store_answer :=
  match calls with
  | [] => (s, [])
  | CallGeneration p :: calls' =>
      let '(s', answers) := run_calls calls' s in (s', AnswerCount (generation s p) :: answers)
  | CallConsume keys :: calls' =>
      let '(s1, b) := consume keys s in
      let '(s2, answers) := run_calls calls' s1 in (s2, AnswerClaimed b :: answers)
  end.
End traces.

Lemma stores_simulate {S T : Type} `{ConsumptionLaws S} `{ConsumptionLaws T} calls (s : S) (t : T) :
  store_ok s → store_ok t → consumed s = consumed t → Forall call_ok calls →
  (run_calls calls s).2 = (run_calls calls t).2.
Proof.
  revert s t. induction calls as [|[p|keys] calls IH]; intros s t Hs Ht Heq Hc; simpl; [done|..];
    inversion Hc as [|? ? Hok Hcs]; subst.
  - specialize (IH s t Hs Ht Heq Hcs).
    rewrite (generation_spec s p Hs), (generation_spec t p Ht), Heq.
    destruct (run_calls calls s), (run_calls calls t). simpl in *. by subst.
  - destruct (consume_spec keys s Hs Hok) as (Hs1 & Hs2 & Hs3 & _).
    destruct (consume_spec keys t Ht Hok) as (Ht1 & Ht2 & Ht3 & _).
    destruct (consume keys s) as [s1 b], (consume keys t) as [t1 b']. simpl in *.
    rewrite Heq in Hs1, Hs3.
    specialize (IH s1 t1 Hs2 Ht2 (eq_trans Hs3 (eq_sym Ht3)) Hcs).
    destruct (run_calls calls s1), (run_calls calls t1). simpl in *. by subst.
Qed.

(** C8. The encrypted table is a faithful stand-in for the in-memory set, and
    conversely: starting empty, any sequence of generation reads and of claims
    without a repeated key gets the same answers from both. *)
Theorem consumption_stores_agree calls :
  Forall call_ok calls →
  (run_calls calls (Connection [] [] false : EncryptedConsumptionStore)).2
  = (run_calls calls (∅ : MemoryConsumptionStore)).2.
Proof.
  intros Hc. apply stores_simulate; [|done|done|done]. split; [done|]. constructor.
Qed.

Lemma consumption_stores_agree_witness :
  (run_calls [CallConsume [("approve", "f1")]; CallConsume [(reset_round "p", "f2")];
              CallGeneration "p"; CallConsume [("approve", "f3"); ("approve", "f1")]]
     (Connection [] [] false : EncryptedConsumptionStore)).2
  = (run_calls [CallConsume [("approve", "f1")]; CallConsume [(reset_round "p", "f2")];
                CallGeneration "p"; CallConsume [("approve", "f3"); ("approve", "f1")]]
     (∅ : MemoryConsumptionStore)).2.
Proof.
  apply consumption_stores_agree. repeat constructor; set_solver.
Defined.

(** A claim on the encrypted table is atomic and durable: outside a
    transaction it either puts every key on disk, all of them new, or leaves
    the connection exactly as it was. *)
Theorem encrypted_consume_atomic keys (c : EncryptedConsumptionStore) :
  in_transaction c = false → live c = durable c →
  match encrypted_consume keys c with
  | (c', true) =>
      durable c' = durable c ++ keys ∧ live c' = durable c'
      ∧ NoDup keys ∧ (∀ k, k ∈ keys → k ∉ durable c)
  | (c', false) => c' = c ∧ (¬ NoDup keys ∨ ∃ k, k ∈ keys ∧ k ∈ durable c)
  end.
Proof.
  intros Hin Hl. assert (settled c) as Hs by (intros _; done).
  destruct (consume_rows_spec keys c Hs) as (H1 & H2 & H3 & H4).
  pose proof (λ u, domain_transaction_durable (for_each (λ k, execute (insert_key k)) keys) c u Hin)
    as Hd.
  simpl in *. unfold encrypted_consume, consume_rows, claimable in *.
  destruct (domain_transaction _ c) as [c' [u|[]]]; simpl in *.
  - rewrite <- H1 in H3. symmetry in H1. bool_to_prop. destruct H1 as [Hnd Hf].
    rewrite (Hd u eq_refl), H3, Hl. rewrite Forall_forall, Hl in Hf. done.
  - rewrite <- H1 in H4. split; [by apply H4|]. symmetry in H1. bool_to_prop.
    destruct (decide (NoDup keys)) as [Hnd|]; [right|by left].
    destruct (decide (Exists (λ k, k ∈ durable c) keys)) as [He|He].
    + apply Exists_exists in He as (k & ? & ?). by exists k.
    + destruct H1. split; [done|]. rewrite Hl. by apply Forall_Exists_neg.
Qed.

Lemma encrypted_consume_atomic_witness :
  match encrypted_consume [("apply", "f2"); ("apply", "f1")]
          (Connection [("apply", "f1")] [("apply", "f1")] false : EncryptedConsumptionStore) with
  | (c', true) => False
  | (c', false) => c' = Connection [("apply", "f1")] [("apply", "f1")] false
  end.
Proof.
  pose proof (encrypted_consume_atomic [("apply", "f2"); ("apply", "f1")]
    (Connection [("apply", "f1")] [("apply", "f1")] false) eq_refl eq_refl) as H.
  destruct (encrypted_consume _ _) as [c' []] eqn:E; [|by destruct H].
  destruct H as (_ & _ & _ & Hf). apply (Hf ("apply", "f1")); set_solver.
Defined.
