(* ===== verification/Enrollment.v ===== *)
(** * Device enrollment, revocation and mTLS identity ([enrollment.py],
    [device_persistence.py])

    [DevicePersistence] is the protocol the registry persists through, with
    its laws; the SQLCipher table implements it.  The registry works with a
    persistence or, without one, on its own dictionaries. *)

From stdpp Require Import prelude base strings list gmap.
From S2P Require Import Prelude PyText Transactions.

(** ** Devices *)

Inductive DeviceState := ENROLLED | REVOKED.

#[export] Instance DeviceState_eq_dec : EqDecision DeviceState.
Proof. solve_decision. Defined.

Record Device := {
  dv_device_id : string;
  dv_public_key_fingerprint : string;
  dv_enrolled_at : Z;
  dv_enrolled_by : string;
  dv_state : DeviceState;
  dv_revoked_at : option Z;
  dv_revoked_by : option string;
  dv_approval_public_key : option string;
}.

#[export] Instance Device_eq_dec : EqDecision Device.
Proof. solve_decision. Defined.

Inductive EnrollmentError :=
| ForgedDeviceError (fingerprint : string)
| RevokedDeviceError (device_id : string)
| DeviceNotFoundError (device_id : string)
| DeviceAlreadyEnrolledError (device_id : string)
| InvalidKeyError              (** [bytes.fromhex] or [from_public_bytes] raised *)
| RecordError.                 (** a [Device] or its JSON failed validation *)

(** ** The persistence protocol *)

Class DevicePersistence (P : Type) := {
  load : P → string → option string;
  insert_row : string → string → string → P → P * bool;
  revoke_row : string → string → P → P;
}.

(** A persistence stands for a map from device to fingerprint and record. *)
Class DevicePersistenceLaws (P : Type) `{DevicePersistence P} := {
  rows_ok : P → Prop;
  rows : P → gmap string (string * string);
  load_spec : ∀ p d, rows_ok p → load p d = snd <$> rows p !! d;
  insert_spec : ∀ d f r p, rows_ok p →
    let fresh := bool_decide (rows p !! d = None ∧ map_Forall (λ _ row, row.1 ≠ f) (rows p)) in
    (insert_row d f r p).2 = fresh ∧ rows_ok (insert_row d f r p).1
    ∧ rows (insert_row d f r p).1 = (if fresh then <[d := (f, r)]> (rows p) else rows p);
  revoke_spec : ∀ d r p, rows_ok p →
    rows_ok (revoke_row d r p) ∧
    rows (revoke_row d r p) = alter (λ row, (row.1, r)) d (rows p);
}.

(** *** The SQLCipher table: [device_id PRIMARY KEY], [fingerprint UNIQUE] *)

Record device_row := { row_device_id : string; row_fingerprint : string; row_record : string }.

Inductive DeviceSqlError := DeviceIntegrityError.

Abbreviation enrolled_devices := (list device_row) (only parsing).
Abbreviation EncryptedDevicePersistence := (connection (list device_row)) (only parsing).

Definition insert_device (row : device_row) (table : enrolled_devices) :
    result DeviceSqlError enrolled_devices :=
  if existsb (λ old, String.eqb (row_device_id old) (row_device_id row)
                     || String.eqb (row_fingerprint old) (row_fingerprint row)) table
  then Err DeviceIntegrityError else Ok (table ++ [row]).

Definition update_device (device_id record : string) (table : enrolled_devices) :
    enrolled_devices :=
  map (λ row, if String.eqb (row_device_id row) device_id
              then {| row_device_id := row_device_id row;
                      row_fingerprint := row_fingerprint row; row_record := record |}
              else row) table.

#[export] Instance encrypted_devices : DevicePersistence EncryptedDevicePersistence := {
  load c device_id :=
    row_record <$> List.find (λ row, String.eqb (row_device_id row) device_id) (live c);
  insert_row device_id fingerprint record c :=
    match with_connection (execute (insert_device
            {| row_device_id := device_id; row_fingerprint := fingerprint;
               row_record := record |})) c with
    | (c', Ok _) => (c', true)
    | (c', Err DeviceIntegrityError) => (c', false)
    end;
  revoke_row device_id record c :=
    (with_connection (E := DeviceSqlError)
       (execute (λ table, Ok (update_device device_id record table))) c).1;
}.

(** ** The registry *)

Section registry.
(** The external encoders: [model_dump_json] and [model_validate_json] of a
    [Device], and whether [Ed25519PublicKey.from_public_bytes] accepts bytes. *)
Context {P : Type} `{DevicePersistence P}.
Context (dump_device : Device → string) (parse_device : string → option Device).
Context (public_key_ok : string → bool).

Record DeviceRegistry := {
  reg_persistence : option P;
  reg_devices : gmap string Device;
  reg_by_fingerprint : gmap string string;
}.

Definition device (reg : DeviceRegistry) (device_id : string) :
    result EnrollmentError (option Device) :=
  match reg_persistence reg with
  | Some p =>
      match load p device_id with
      | Some record =>
          match parse_device record with Some d => Ok (Some d) | None => Err RecordError end
      | None => Ok None
      end
  | None => Ok (reg_devices reg !! device_id)
  end.

(** The record [enroll] builds, and the key it refuses. *)
Definition new_device (device_id fingerprint actor : string) (key : option string) (now : Z) :
    Device :=
  {| dv_device_id := device_id; dv_public_key_fingerprint := fingerprint;
     dv_enrolled_at := now; dv_enrolled_by := actor; dv_state := ENROLLED;
     dv_revoked_at := None; dv_revoked_by := None; dv_approval_public_key := key |}.

Definition key_refused (key : option string) : bool :=
  match key with
  | None => false
  | Some hex => match fromhex hex with Some bytes => negb (public_key_ok bytes) | None => true end
  end.

Definition remember (reg : DeviceRegistry) (p : option P) (d : Device) : DeviceRegistry :=
  {| reg_persistence := p;
     reg_devices := <[dv_device_id d := d]> (reg_devices reg);
     reg_by_fingerprint :=
       <[dv_public_key_fingerprint d := dv_device_id d]> (reg_by_fingerprint reg) |}.

Definition enroll (now : Z) (device_id fingerprint actor : string) (key : option string) :
    comp DeviceRegistry EnrollmentError Device := λ reg,
  match device reg device_id with
  | Err e => (reg, Err e)
  | Ok (Some _) => (reg, Err (DeviceAlreadyEnrolledError device_id))
  | Ok None =>
      match reg_by_fingerprint reg !! fingerprint with
      | Some other => (reg, Err (DeviceAlreadyEnrolledError other))
      | None =>
          if key_refused key then (reg, Err InvalidKeyError)
          else if String.eqb fingerprint "" || String.eqb actor "" then (reg, Err RecordError)
          else
            let d := new_device device_id fingerprint actor key now in
            match reg_persistence reg with
            | None => (remember reg None d, Ok d)
            | Some p =>
                match insert_row device_id fingerprint (dump_device d) p with
                | (p', true) => (remember reg (Some p') d, Ok d)
                | (p', false) =>
                    ({| reg_persistence := Some p'; reg_devices := reg_devices reg;
                        reg_by_fingerprint := reg_by_fingerprint reg |},
                     Err (DeviceAlreadyEnrolledError device_id))
                end
            end
      end
  end.

Definition revoked_copy (d : Device) (now : Z) (actor : string) : Device :=
  {| dv_device_id := dv_device_id d;
     dv_public_key_fingerprint := dv_public_key_fingerprint d;
     dv_enrolled_at := dv_enrolled_at d; dv_enrolled_by := dv_enrolled_by d;
     dv_state := REVOKED; dv_revoked_at := Some now; dv_revoked_by := Some actor;
     dv_approval_public_key := dv_approval_public_key d |}.

Definition revoke (now : Z) (device_id actor : string) :
    comp DeviceRegistry EnrollmentError Device := λ reg,
  match device reg device_id with
  | Err e => (reg, Err e)
  | Ok None => (reg, Err (DeviceNotFoundError device_id))
  | Ok (Some d) =>
      let revoked := revoked_copy d now actor in
      ({| reg_persistence := revoke_row device_id (dump_device revoked) <$> reg_persistence reg;
          reg_devices := <[device_id := revoked]> (reg_devices reg);
          reg_by_fingerprint := reg_by_fingerprint reg |}, Ok revoked)
  end.

Definition verify_mtls_identity (reg : DeviceRegistry) (device_id fingerprint : string) :
    result EnrollmentError Device :=
  match device reg device_id with
  | Err e => Err e
  | Ok None => Err (ForgedDeviceError fingerprint)
  | Ok (Some d) =>
      if negb (String.eqb (dv_public_key_fingerprint d) fingerprint)
      then Err (ForgedDeviceError fingerprint)
      else if negb (bool_decide (dv_state d = ENROLLED)) then Err (RevokedDeviceError device_id)
      else Ok d
  end.

Definition require_active_device (reg : DeviceRegistry) (device_id : string) :
    result EnrollmentError Device :=
  match device reg device_id with
  | Err e => Err e
  | Ok None => Err (DeviceNotFoundError device_id)
  | Ok (Some d) =>
      if negb (bool_decide (dv_state d = ENROLLED)) then Err (RevokedDeviceError device_id)
      else Ok d
  end.

(** A fresh process over the same persistence: [DeviceRegistry(clock, persistence)]. *)
Definition restart (reg : DeviceRegistry) : DeviceRegistry :=
  match reg_persistence reg with
  | Some p => {| reg_persistence := Some p; reg_devices := ∅; reg_by_fingerprint := ∅ |}
  | None => reg
  end.
End registry.

Arguments DeviceRegistry : clear implicits.

(** ** The table implements the protocol *)

Definition row_entry (row : device_row) : string * (string * string) :=
  (row_device_id row, (row_fingerprint row, row_record row)).

Definition table_rows (table : enrolled_devices) : gmap string (string * string) :=
  list_to_map (map row_entry table).

Record table_ok (table : enrolled_devices) : Prop := {
  to_ids : NoDup (map row_device_id table);
  to_fingerprints : NoDup (map row_fingerprint table);
}.

Lemma row_entry_keys table : (map row_entry table).*1 = map row_device_id table.
Proof.
  induction table as [|row table IH]; [done|]. exact (f_equal (cons (row_device_id row)) IH).
Qed.

Lemma table_rows_elem table d f r :
  table_ok table →
  table_rows table !! d = Some (f, r) ↔
  {| row_device_id := d; row_fingerprint := f; row_record := r |} ∈ table.
Proof.
  intros [Hid _]. unfold table_rows. rewrite <- elem_of_list_to_map by (by rewrite row_entry_keys).
  rewrite list_elem_of_fmap. split.
  - intros ([d' f' r'] & Heq & Hin). by injection Heq as -> -> ->.
  - intros Hin. by exists {| row_device_id := d; row_fingerprint := f; row_record := r |}.
Qed.

Lemma load_rows table d :
  row_record <$> List.find (λ row, String.eqb (row_device_id row) d) table
  = snd <$> table_rows table !! d.
Proof.
  induction table as [|[d' f r] table IH]; [done|]. simpl. unfold table_rows. simpl.
  destruct (String.eqb d' d) eqn:E; bool_to_prop.
  - subst. by rewrite lookup_insert_eq.
  - by rewrite lookup_insert_ne.
Qed.

Lemma insert_device_spec row table :
  table_ok table →
  insert_device row table
  = if bool_decide (table_rows table !! row_device_id row = None
                    ∧ map_Forall (λ _ old, old.1 ≠ row_fingerprint row) (table_rows table))
    then Ok (table ++ [row]) else Err DeviceIntegrityError.
Proof.
  intros Hok. unfold insert_device. destruct (existsb _ table) eqn:E.
  - apply existsb_exists in E as ([d f r] & Hin & He). apply list_elem_of_In in Hin.
    rewrite bool_decide_false; [done|]. intros [Hnone Hall]. simpl in He.
    apply (table_rows_elem _ _ _ _ Hok) in Hin. apply orb_true_iff in He as [He|He]; bool_to_prop.
    + subst. congruence.
    + apply Hall in Hin. done.
  - assert (∀ old, old ∈ table → row_device_id old ≠ row_device_id row
                                  ∧ row_fingerprint old ≠ row_fingerprint row) as Hf.
    { intros old Hin. apply list_elem_of_In in Hin.
      rewrite <- not_true_iff_false, existsb_exists in E.
      split; intros Heq; apply E; exists old; rewrite Heq, String.eqb_refl; simpl;
        rewrite ?orb_true_r; done. }
    rewrite bool_decide_true; [done|]. split.
    + apply eq_None_not_Some. intros [[f r] Hl]. apply (table_rows_elem _ _ _ _ Hok) in Hl.
      by apply Hf in Hl as [].
    + intros d [f r] Hl. apply (table_rows_elem _ _ _ _ Hok) in Hl. by apply Hf in Hl as [].
Qed.

Lemma table_rows_snoc row table :
  table_rows table !! row_device_id row = None →
  table_rows (table ++ [row])
  = <[row_device_id row := (row_fingerprint row, row_record row)]> (table_rows table).
Proof.
  intros Hn. unfold table_rows in *. rewrite map_app. rewrite list_to_map_app. simpl.
  rewrite insert_empty. rewrite <- insert_union_singleton_r; done.
Qed.

Lemma table_ok_snoc row table :
  table_ok table → table_rows table !! row_device_id row = None →
  map_Forall (λ _ old, old.1 ≠ row_fingerprint row) (table_rows table) →
  table_ok (table ++ [row]).
Proof.
  intros Hok Hn Hall. destruct (Hok) as [Hid Hfp].
  assert (∀ old, old ∈ table → table_rows table !! row_device_id old
                                = Some (row_fingerprint old, row_record old)) as Hl.
  { intros [] Hin. by apply table_rows_elem. }
  split; rewrite map_app; apply NoDup_app; split_and!; try done; try (by apply NoDup_singleton);
    intros x Hx Hin; apply list_elem_of_singleton in Hin as ->;
    apply list_elem_of_fmap in Hx as (old & Heq & Hin).
  - rewrite Heq, (Hl _ Hin) in Hn. done.
  - apply Hl, Hall in Hin. done.
Qed.

Lemma update_device_rows d r table :
  table_rows (update_device d r table) = alter (λ row, (row.1, r)) d (table_rows table).
Proof.
  induction table as [|[d' f r'] table IH]; [by vm_compute|].
  unfold table_rows in *. simpl. destruct (String.eqb d' d) eqn:E; bool_to_prop; simpl; rewrite IH.
  - subst. by rewrite alter_insert_eq, insert_alter_eq.
  - by rewrite alter_insert_ne.
Qed.

Lemma update_device_ok d r table : table_ok table → table_ok (update_device d r table).
Proof.
  intros [Hid Hfp]. split; unfold update_device; rewrite map_map.
  - rewrite (map_ext _ row_device_id); [done|]. intros a. by destruct (String.eqb _ _).
  - rewrite (map_ext _ row_fingerprint); [done|]. intros a. by destruct (String.eqb _ _).
Qed.

(** The laws hold between transactions: [with connection:] inside a caller's
    transaction would commit or roll back the caller's own changes. *)
#[export] Instance encrypted_devices_laws : DevicePersistenceLaws EncryptedDevicePersistence.
Proof.
  refine (Build_DevicePersistenceLaws _ _
            (λ c, in_transaction c = false ∧ live c = durable c ∧ table_ok (live c))
            (λ c, table_rows (live c)) _ _ _).
  - intros c d _. apply load_rows.
  - intros d f r c (Hin & Hs & Hok) fresh. simpl. unfold with_connection, execute. simpl.
    rewrite insert_device_spec by done. simpl. unfold fresh.
    destruct (bool_decide _) eqn:E; bool_to_prop; simpl.
    + destruct E as [Hn Hall]. split_and!; [done..| |].
      * by apply table_ok_snoc.
      * by rewrite table_rows_snoc.
    + rewrite <- Hs. split_and!; done.
  - intros d r c (Hin & Hs & Hok). simpl. split_and!; [done..|by apply update_device_ok|].
    apply update_device_rows.
Defined.

(** ** The registry implements a map of devices *)

Section registry_facts.
Context {P : Type} `{DevicePersistenceLaws P}.
Context (dump_device : Device → string) (parse_device : string → option Device).
Context (public_key_ok : string → bool).
Hypothesis parse_dump : ∀ d, parse_device (dump_device d) = Some d.

Implicit Types reg : DeviceRegistry P.

(** The devices a registry stands for. *)
Definition devices_of reg : gmap string Device :=
  match reg_persistence reg with
  | None => reg_devices reg
  | Some p => omap (λ row, parse_device row.2) (rows p)
  end.

Definition backing_ok reg : Prop :=
  match reg_persistence reg with
  | None => map_Forall (λ d dev, reg_by_fingerprint reg !! dv_public_key_fingerprint dev = Some d)
              (reg_devices reg)
  | Some p =>
      rows_ok p ∧
      map_Forall (λ d row, ∃ dev, parse_device row.2 = Some dev
                                  ∧ dv_public_key_fingerprint dev = row.1) (rows p)
  end.

Record reg_ok reg : Prop := {
  ro_backing : backing_ok reg;
  ro_ids : map_Forall (λ d dev, dv_device_id dev = d) (devices_of reg);
  ro_unique : ∀ d d' dev dev',
    devices_of reg !! d = Some dev → devices_of reg !! d' = Some dev' →
    dv_public_key_fingerprint dev = dv_public_key_fingerprint dev' → d = d';
}.

Lemma device_lookup reg d : reg_ok reg → device parse_device reg d = Ok (devices_of reg !! d).
Proof.
  intros [Hb _ _]. unfold device, devices_of, backing_ok in *.
  destruct (reg_persistence reg) as [p|]; [|done]. destruct Hb as [Hok Hall].
  rewrite (load_spec _ _ Hok), lookup_omap. destruct (rows p !! d) as [[f r]|] eqn:E; [|done].
  simpl. apply Hall in E as (dev & Hp & _). simpl in *. by rewrite Hp.
Qed.

(** Adding a device with a new identifier and a new fingerprint keeps the map well formed. *)
Lemma insert_unique (m : gmap string Device) d :
  map_Forall (λ k dev, dv_device_id dev = k) m →
  (∀ k k' dev dev', m !! k = Some dev → m !! k' = Some dev' →
    dv_public_key_fingerprint dev = dv_public_key_fingerprint dev' → k = k') →
  map_Forall (λ k dev, k = dv_device_id d
                       ↔ dv_public_key_fingerprint dev = dv_public_key_fingerprint d) m →
  map_Forall (λ k dev, dv_device_id dev = k) (<[dv_device_id d := d]> m)
  ∧ (∀ k k' dev dev', <[dv_device_id d := d]> m !! k = Some dev →
      <[dv_device_id d := d]> m !! k' = Some dev' →
      dv_public_key_fingerprint dev = dv_public_key_fingerprint dev' → k = k').
Proof.
  intros Hid Hu Hd. split.
  - by apply map_Forall_insert_2.
  - intros k k' dev dev'. rewrite !lookup_insert_Some.
    intros [[<- <-]|[Hk Hl]] [[<- <-]|[Hk' Hl']] Heq; [done|..].
    + symmetry. by apply (Hd _ _ Hl').
    + by apply (Hd _ _ Hl).
    + by apply (Hu _ _ _ _ Hl Hl').
Qed.

Lemma alter_as_insert {A} (m : gmap string A) i x g :
  m !! i = Some x → alter g i m = <[i := g x]> m.
Proof.
  intros Hi. apply map_eq. intros j. destruct (decide (i = j)) as [<-|].
  - by rewrite lookup_alter_eq, lookup_insert_eq, Hi.
  - by rewrite lookup_alter_ne, lookup_insert_ne.
Qed.

Lemma fresh_forall (m : gmap string Device) id fp :
  m !! id = None → map_Forall (λ _ dev, dv_public_key_fingerprint dev ≠ fp) m →
  map_Forall (λ k dev, k = id ↔ dv_public_key_fingerprint dev = fp) m.
Proof.
  intros Hn Hall k dev Hl. split; [|intros Heq; by destruct (Hall _ _ Hl)].
  intros ->. congruence.
Qed.

Lemma enroll_memory reg d :
  reg_ok reg → reg_persistence reg = None → devices_of reg !! dv_device_id d = None →
  reg_by_fingerprint reg !! dv_public_key_fingerprint d = None →
  reg_ok (remember reg None d)
  ∧ devices_of (remember reg None d) = <[dv_device_id d := d]> (devices_of reg).
Proof.
  intros [Hb Hid Hu] Hp Hn Hf. unfold backing_ok, devices_of in *. rewrite Hp in *.
  split; [|done].
  assert (map_Forall (λ _ dev, dv_public_key_fingerprint dev ≠ dv_public_key_fingerprint d)
            (reg_devices reg)) as Hall.
  { intros k dev Hl Heq. apply Hb in Hl. rewrite Heq, Hf in Hl. done. }
  destruct (insert_unique _ d Hid Hu (fresh_forall _ _ _ Hn Hall)) as [Hid' Hu'].
  split; [|done|done]. unfold backing_ok. simpl. apply map_Forall_insert_2.
  - by rewrite lookup_insert_eq.
  - intros k dev Hl. pose proof (Hall _ _ Hl). rewrite lookup_insert_ne by done. by apply Hb.
Qed.

Lemma enroll_persistent reg p d :
  reg_ok reg → reg_persistence reg = Some p → devices_of reg !! dv_device_id d = None →
  let r := insert_row (dv_device_id d) (dv_public_key_fingerprint d) (dump_device d) p in
  if r.2
  then reg_ok (remember reg (Some r.1) d)
       ∧ devices_of (remember reg (Some r.1) d) = <[dv_device_id d := d]> (devices_of reg)
  else ∀ reg', reg_persistence reg' = Some r.1 → reg_ok reg' ∧ devices_of reg' = devices_of reg.
Proof.
  intros [Hb Hid Hu] Hp Hn r. unfold backing_ok, devices_of in *. rewrite Hp in *.
  destruct Hb as [Hok Hall].
  destruct (insert_spec (dv_device_id d) (dv_public_key_fingerprint d) (dump_device d) p Hok)
    as (Hr & Hok' & Hrows). fold r in Hr, Hok', Hrows. rewrite <- Hr in Hrows.
  destruct (r.2) eqn:E.
  - symmetry in Hr. bool_to_prop. destruct Hr as [Hnone Hfp].
    assert (omap (λ row, parse_device row.2) (rows r.1)
            = <[dv_device_id d := d]> (omap (λ row, parse_device row.2) (rows p))) as Heq.
    { rewrite Hrows. erewrite omap_insert_Some; [done|]. apply parse_dump. }
    assert (map_Forall (λ _ dev, dv_public_key_fingerprint dev ≠ dv_public_key_fingerprint d)
              (omap (λ row, parse_device row.2) (rows p))) as Hne.
    { intros k dev Hl. apply lookup_omap_Some in Hl as ([f rec] & Hparse & Hl).
      destruct (Hall _ _ Hl) as (dev' & Hparse' & Hfd). simpl in *.
      rewrite Hparse in Hparse'. injection Hparse' as <-. rewrite Hfd. by apply Hfp in Hl. }
    destruct (insert_unique _ d Hid Hu (fresh_forall _ _ _ Hn Hne)) as [Hid' Hu'].
    split; [|done]. split; unfold backing_ok, devices_of; simpl; rewrite ?Heq; [|done|done].
    split; [done|]. rewrite Hrows. apply map_Forall_insert_2; [|done]. simpl. by exists d.
  - intros reg' Hp'. split; [split|]; unfold backing_ok, devices_of; rewrite Hp', Hrows; done.
Qed.

Lemma enroll_spec now id fp actor key reg :
  reg_ok reg →
  reg_ok (enroll dump_device parse_device public_key_ok now id fp actor key reg).1 ∧
  match enroll dump_device parse_device public_key_ok now id fp actor key reg with
  | (reg', Ok d) => d = new_device id fp actor key now ∧ devices_of reg !! id = None
      ∧ devices_of reg' = <[id := d]> (devices_of reg)
  | (reg', Err _) => devices_of reg' = devices_of reg
  end.
Proof.
  intros Hok. unfold enroll. rewrite device_lookup by done.
  destruct (devices_of reg !! id) eqn:Hn; [done|].
  destruct (reg_by_fingerprint reg !! fp) eqn:Hf; [done|].
  destruct (key_refused _ key); [done|]. destruct (_ || _); [done|].
  destruct (reg_persistence reg) as [p|] eqn:Hp.
  - pose proof (enroll_persistent reg p (new_device id fp actor key now) Hok Hp Hn) as Hs.
    simpl in Hs. destruct (insert_row _ _ _ p) as [p' []]; simpl in *; [naive_solver|].
    by apply Hs.
  - destruct (enroll_memory reg (new_device id fp actor key now) Hok Hp Hn Hf). simpl. done.
Qed.

Lemma revoke_map reg id dev now actor :
  reg_ok reg → devices_of reg !! id = Some dev →
  let r := revoke dump_device parse_device now id actor reg in
  reg_ok r.1 ∧ devices_of r.1 = <[id := revoked_copy dev now actor]> (devices_of reg)
  ∧ r.2 = Ok (revoked_copy dev now actor).
Proof.
  intros Hok Hl r. unfold r, revoke. rewrite device_lookup, Hl by done. simpl.
  destruct Hok as [Hb Hid Hu]. pose proof (Hid _ _ Hl) as Hdev. simpl in Hdev.
  destruct (insert_unique (devices_of reg) (revoked_copy dev now actor) Hid Hu) as [Hid' Hu'].
  { intros k dev' Hk. simpl. rewrite Hdev. split; [|intros Heq; by apply (Hu _ _ _ _ Hk Hl)].
    intros ->. congruence. }
  simpl in Hid', Hu'. rewrite Hdev in Hid', Hu'. unfold backing_ok, devices_of in *.
  destruct (reg_persistence reg) as [p|] eqn:Hp; simpl in *.
  - destruct Hb as [Hr Hall].
    destruct (revoke_spec id (dump_device (revoked_copy dev now actor)) p Hr) as [Hr' Hrows].
    apply lookup_omap_Some in Hl as ([f rec] & Hparse & Hl). simpl in Hparse.
    destruct (Hall _ _ Hl) as (dev0 & Hparse0 & Hf0). simpl in Hparse0, Hf0.
    rewrite Hparse in Hparse0. injection Hparse0 as <-. rewrite (alter_as_insert _ _ _ _ Hl) in Hrows.
    assert (omap (λ row, parse_device row.2)
              (rows (revoke_row id (dump_device (revoked_copy dev now actor)) p))
            = <[id := revoked_copy dev now actor]> (omap (λ row, parse_device row.2) (rows p)))
      as Heq.
    { rewrite Hrows. erewrite omap_insert_Some; [done|]. apply parse_dump. }
    split_and!; [|done|done].
    split; unfold backing_ok, devices_of; simpl; rewrite ?Heq; [|done|done].
    split; [done|]. rewrite Hrows. apply map_Forall_insert_2; [|done].
    exists (revoked_copy dev now actor). simpl. by rewrite parse_dump.
  - split_and!; [|done|done]. split; unfold backing_ok, devices_of; simpl; [|done|done].
    apply map_Forall_insert_2; [|done]. simpl. by apply (Hb _ _ Hl).
Qed.

Lemma restart_spec reg : reg_ok reg → reg_ok (restart reg) ∧ devices_of (restart reg) = devices_of reg.
Proof.
  intros Hok. unfold restart. destruct (reg_persistence reg) as [p|] eqn:Hp; [|done].
  assert (devices_of {| reg_persistence := Some p; reg_devices := ∅; reg_by_fingerprint := ∅ |}
          = devices_of reg) as Heq by (unfold devices_of; by rewrite Hp).
  destruct Hok as [Hb Hid Hu]. split; [split; rewrite ?Heq; try done|done].
  unfold backing_ok in *. simpl. by rewrite Hp in Hb.
Qed.

(** *** Sequences of registry operations *)

Inductive reg_op :=
| OpEnroll (now : Z) (device_id fingerprint actor : string) (key : option string)
| OpRevoke (now : Z) (device_id actor : string)
| OpRestart.

Definition reg_step (op : reg_op) reg : DeviceRegistry P :=
  match op with
  | OpEnroll now id fp actor key =>
      (enroll dump_device parse_device public_key_ok now id fp actor key reg).1
  | OpRevoke now id actor => (revoke dump_device parse_device now id actor reg).1
  | OpRestart => restart reg
  end.

Definition reg_run (ops : list reg_op) reg : DeviceRegistry P :=
  foldl (λ reg op, reg_step op reg) reg ops.

Lemma reg_step_ok op reg : reg_ok reg → reg_ok (reg_step op reg).
Proof.
  intros Hok. destruct op as [now id fp actor key|now id actor|]; simpl.
  - by apply enroll_spec.
  - destruct (devices_of reg !! id) as [dev|] eqn:E.
    + by apply (revoke_map _ _ dev).
    + unfold revoke. by rewrite device_lookup, E.
  - by apply restart_spec.
Qed.

Lemma reg_run_ok ops reg : reg_ok reg → reg_ok (reg_run ops reg).
Proof.
  revert reg. induction ops as [|op ops IH]; intros reg Hok; [done|].
  by apply IH, reg_step_ok.
Qed.

(** What happens to one device in a step: nothing, or it is revoked. *)
Lemma reg_step_device op reg d dev :
  reg_ok reg → devices_of reg !! d = Some dev →
  ∃ dev', devices_of (reg_step op reg) !! d = Some dev'
    ∧ dv_public_key_fingerprint dev' = dv_public_key_fingerprint dev
    ∧ dv_approval_public_key dev' = dv_approval_public_key dev
    ∧ (dv_state dev = REVOKED → dv_state dev' = REVOKED).
Proof.
  intros Hok Hd. destruct op as [now id fp actor key|now id actor|]; simpl.
  - destruct (enroll_spec now id fp actor key reg Hok) as [_ He].
    destruct (enroll _ _ _ now id fp actor key reg) as [reg' [d'|e]]; simpl in *.
    + destruct He as (_ & Hn & ->). exists dev. rewrite lookup_insert_ne; [done|]. congruence.
    + exists dev. by rewrite He.
  - destruct (devices_of reg !! id) as [old|] eqn:E.
    + destruct (revoke_map reg id old now actor Hok E) as (_ & -> & _).
      destruct (decide (id = d)) as [->|]; [|exists dev; by rewrite lookup_insert_ne].
      rewrite E in Hd. injection Hd as ->. exists (revoked_copy dev now actor).
      by rewrite lookup_insert_eq.
    + unfold revoke. rewrite device_lookup, E by done. by exists dev.
  - exists dev. by rewrite (proj2 (restart_spec reg Hok)).
Qed.

Lemma reg_run_device ops reg d dev :
  reg_ok reg → devices_of reg !! d = Some dev →
  ∃ dev', devices_of (reg_run ops reg) !! d = Some dev'
    ∧ dv_public_key_fingerprint dev' = dv_public_key_fingerprint dev
    ∧ dv_approval_public_key dev' = dv_approval_public_key dev
    ∧ (dv_state dev = REVOKED → dv_state dev' = REVOKED).
Proof.
  revert reg dev. induction ops as [|op ops IH]; intros reg dev Hok Hd; [by exists dev|].
  destruct (reg_step_device op reg d dev Hok Hd) as (dev1 & Hd1 & Hf1 & Hk1 & Hr1).
  destruct (IH _ dev1 (reg_step_ok op reg Hok) Hd1) as (dev2 & Hd2 & Hf2 & Hk2 & Hr2).
  exists dev2. rewrite Hf2, Hk2. split_and!; [done|done|done|]. auto.
Qed.

(** A registry nothing was enrolled in. *)
Definition reg_fresh reg : Prop :=
  reg_devices reg = ∅ ∧ reg_by_fingerprint reg = ∅ ∧
  match reg_persistence reg with Some p => rows_ok p ∧ rows p = ∅ | None => True end.

Lemma reg_fresh_ok reg : reg_fresh reg → reg_ok reg.
Proof.
  intros (Hd & Hf & Hp). assert (devices_of reg = ∅) as He.
  { unfold devices_of. destruct (reg_persistence reg) as [p|]; [|done].
    destruct Hp as [_ ->]. apply omap_empty. }
  split; rewrite ?He; [|by intros ? ? ?|by intros ? ? ? ? Hl].
  unfold backing_ok. destruct (reg_persistence reg) as [p|].
  - destruct Hp as [? ->]. split; [done|]. by intros ? ? ?.
  - rewrite Hd. by intros ? ? ?.
Qed.

(** Revocation is permanent: once a device is revoked in a registry that
    grew from an empty one, no sequence of enrollments, revocations and
    restarts makes it active again; every approval check and every mTLS check
    for it fails, and its enrolled keys never change. *)
Theorem revocation_is_permanent reg0 before after now d actor dev :
  reg_fresh reg0 →
  (revoke dump_device parse_device now d actor (reg_run before reg0)).2 = Ok dev →
  let reg := reg_run after (revoke dump_device parse_device now d actor (reg_run before reg0)).1 in
  require_active_device parse_device reg d = Err (RevokedDeviceError d)
  ∧ (∀ f, verify_mtls_identity parse_device reg d f
          = Err (if String.eqb (dv_public_key_fingerprint dev) f
                 then RevokedDeviceError d else ForgedDeviceError f)).
Proof.
  intros Hfresh Hr reg. pose proof (reg_run_ok before _ (reg_fresh_ok _ Hfresh)) as Hok.
  pose proof (reg_step_ok (OpRevoke now d actor) _ Hok) as Hok1. simpl in Hok1.
  assert (devices_of (revoke dump_device parse_device now d actor (reg_run before reg0)).1 !! d
          = Some dev ∧ dv_state dev = REVOKED) as [Hd Hs].
  { destruct (devices_of (reg_run before reg0) !! d) as [old|] eqn:E.
    - destruct (revoke_map _ d old now actor Hok E) as (_ & -> & Hr2). rewrite Hr in Hr2.
      injection Hr2 as ->. by rewrite lookup_insert_eq.
    - unfold revoke in Hr. by rewrite device_lookup, E in Hr. }
  destruct (reg_run_device after _ d dev Hok1 Hd) as (dev' & Hd' & Hf & _ & Hs').
  specialize (Hs' Hs). pose proof (reg_run_ok after _ Hok1) as Hok2.
  unfold require_active_device, verify_mtls_identity.
  rewrite (device_lookup reg d Hok2). unfold reg. rewrite Hd', Hs', Hf. simpl.
  split; [done|]. intros f. by destruct (String.eqb _ f).
Qed.

(** mTLS identities are exclusive: in a registry that grew from an empty
    one, a certificate fingerprint is accepted for at most one device, whose
    record is enrolled under that identifier, and it stays so across restarts. *)
Theorem mtls_identity_exclusive reg0 ops d d' f dev dev' :
  reg_fresh reg0 →
  verify_mtls_identity parse_device (reg_run ops reg0) d f = Ok dev →
  verify_mtls_identity parse_device (reg_run ops reg0) d' f = Ok dev' →
  d = d' ∧ dev = dev' ∧ dv_device_id dev = d ∧ dv_state dev = ENROLLED
  ∧ verify_mtls_identity parse_device (restart (reg_run ops reg0)) d f = Ok dev.
Proof.
  intros Hfresh. pose proof (reg_run_ok ops _ (reg_fresh_ok _ Hfresh)) as Hok.
  destruct (restart_spec _ Hok) as [Hok' Heq]. unfold verify_mtls_identity.
  rewrite !device_lookup, Heq by done. clear Hok' Heq.
  destruct (devices_of _ !! d) as [e|] eqn:Hd; [|done].
  destruct (devices_of _ !! d') as [e'|] eqn:Hd'; [|done].
  destruct (String.eqb _ f) eqn:Hf; [|done]. destruct (String.eqb (_ e') f) eqn:Hf'; [|done].
  destruct (negb (bool_decide (dv_state e = ENROLLED))) eqn:Hs; [done|].
  destruct (negb (bool_decide (dv_state e' = ENROLLED))) eqn:Hs'; [done|]. simpl.
  intros [= <-] [= <-]. bool_to_prop.
  assert (d = d') as <- by (apply (ro_unique _ Hok _ _ _ _ Hd Hd'); congruence).
  rewrite Hd in Hd'. injection Hd' as <-. pose proof (ro_ids _ Hok _ _ Hd). done.
Qed.
End registry_facts.

(** ** Witnesses: the encrypted table with a concrete codec *)

#[export] Instance DeviceState_countable : Countable DeviceState.
Proof.
  refine (inj_countable' (λ s, match s with ENROLLED => true | REVOKED => false end)
            (λ b : bool, if b then ENROLLED else REVOKED) _). by intros [].
Defined.

#[export] Instance Device_countable : Countable Device.
Proof.
  refine (inj_countable'
    (λ d, (dv_device_id d, dv_public_key_fingerprint d, dv_enrolled_at d, dv_enrolled_by d,
           dv_state d, dv_revoked_at d, dv_revoked_by d, dv_approval_public_key d))
    (λ '(a, b, c, d, e, f, g, h), Build_Device a b c d e f g h) _).
  by intros [].
Defined.

Module Devices.
Definition empty : DeviceRegistry EncryptedDevicePersistence :=
  {| reg_persistence := Some (Connection [] [] false); reg_devices := ∅;
     reg_by_fingerprint := ∅ |}.
Definition phone : reg_op := OpEnroll 5 "phone" "fp1" "owner" (Some "0a").
Definition laptop : reg_op := OpEnroll 6 "laptop" "fp2" "owner" None.
End Devices.

Lemma empty_fresh : reg_fresh Devices.empty.
Proof. repeat split; simpl; try done; constructor. Qed.

Lemma revocation_is_permanent_witness :
  require_active_device decode_text
    (reg_run encode_text decode_text (λ _, true)
       [OpEnroll 9 "phone" "fp1" "thief" None; OpRestart]
       (revoke encode_text decode_text 7 "phone" "owner"
          (reg_run encode_text decode_text (λ _, true) [Devices.phone; Devices.laptop]
             Devices.empty)).1) "phone"
  = Err (RevokedDeviceError "phone").
Proof.
  refine (proj1 (revocation_is_permanent encode_text decode_text (λ _, true)
    decode_encode_text Devices.empty [Devices.phone; Devices.laptop]
    [OpEnroll 9 "phone" "fp1" "thief" None; OpRestart] 7 "phone" "owner"
    (revoked_copy (new_device "phone" "fp1" "owner" (Some "0a") 5) 7 "owner") empty_fresh _)).
  vm_compute. reflexivity.
Defined.

Lemma mtls_identity_exclusive_witness :
  dv_device_id (new_device "laptop" "fp2" "owner" None 6) = "laptop".
Proof.
  refine (proj1 (proj2 (proj2 (mtls_identity_exclusive encode_text decode_text (λ _, true)
    decode_encode_text Devices.empty [Devices.phone; Devices.laptop; OpRestart]
    "laptop" "laptop" "fp2" (new_device "laptop" "fp2" "owner" None 6)
    (new_device "laptop" "fp2" "owner" None 6) empty_fresh _ _))));
  vm_compute; reflexivity.
Defined.
