(* ===== verification/Authority.v ===== *)
(** * Authority tiers, the approval matrix and the proposal lifecycle ([authority.py])

    Identifiers are the canonical text of their UUID and times are instants in
    microseconds.  SHA-256, Ed25519 and the JSON form of a datetime are
    external and stay parameters; the consumption store and the device
    persistence are the interfaces of [Consumption] and [Enrollment]. *)

From stdpp Require Import prelude base strings list gmap pretty.
From Stdlib Require Import ZArith.
From S2P Require Import Prelude PyText Transactions Consumption Enrollment.
#[local] Open Scope Z_scope.
#[local] Open Scope string_scope.

(** ** Tiers, methods, proofs and rules *)

Inductive AuthorityTier := OBSERVE | RECOMMEND | ACT | EXTERNAL.
Inductive InvocationMethod := IPHONE_UI | VOICE_METHOD | TEXT | CHANNEL | WORKER | API.
Inductive ApprovalProof := NO_PROOF | DEVICE_SIGNED | VOICE.

#[export] Instance AuthorityTier_eq_dec : EqDecision AuthorityTier.
Proof. solve_decision. Defined.
#[export] Instance ApprovalProof_eq_dec : EqDecision ApprovalProof.
Proof. solve_decision. Defined.

Definition method_value (m : InvocationMethod) : string :=
  match m with
  | IPHONE_UI => "iphone_ui" | VOICE_METHOD => "voice" | TEXT => "text"
  | CHANNEL => "channel" | WORKER => "worker" | API => "api"
  end.

Definition proof_value (p : ApprovalProof) : string :=
  match p with NO_PROOF => "none" | DEVICE_SIGNED => "device_signed" | VOICE => "voice" end.

Record ApprovalRule := {
  ru_action_class : string;
  ru_required_tier : AuthorityTier;
  ru_proof_required : bool;
  ru_allowed_proofs : list ApprovalProof;
}.

Record PolicyDecision := {
  pd_allowed : bool;
  pd_action_class : string;
  pd_required_tier : AuthorityTier;
  pd_reason : string;
}.

Definition ApprovalMatrix : Type := list ApprovalRule.

Inductive AuthorityError :=
| PolicyViolationError (reason : string)
| UnknownActionError (action_class : string)
| DeviceRecordError.          (** a stored device record that fails validation *)

#[export] Instance AuthorityError_eq_dec : EqDecision AuthorityError.
Proof. solve_decision. Defined.

Definition rule_for (matrix : ApprovalMatrix) (action_class : string) : option ApprovalRule :=
  List.find (λ rule, String.eqb (ru_action_class rule) action_class) matrix.

Definition required_tier (matrix : ApprovalMatrix) (action_class : string) :
    result AuthorityError AuthorityTier :=
  match rule_for matrix action_class with
  | None => Err (UnknownActionError action_class)
  | Some rule => Ok (ru_required_tier rule)
  end.

Definition unknown_decision (action_class : string) : PolicyDecision :=
  {| pd_allowed := false; pd_action_class := action_class; pd_required_tier := OBSERVE;
     pd_reason := "unknown action class: " +:+ action_class |}.

Definition can_request (matrix : ApprovalMatrix) (action_class : string)
    (method : InvocationMethod) : PolicyDecision :=
  match rule_for matrix action_class with
  | None => unknown_decision action_class
  | Some rule =>
      {| pd_allowed := true; pd_action_class := action_class;
         pd_required_tier := ru_required_tier rule;
         pd_reason := method_value method +:+ " may request; approval proof still required" |}
  end.

Definition can_approve (matrix : ApprovalMatrix) (action_class : string)
    (proof : ApprovalProof) : PolicyDecision :=
  match rule_for matrix action_class with
  | None => unknown_decision action_class
  | Some rule =>
      if negb (ru_proof_required rule) then
        {| pd_allowed := true; pd_action_class := action_class;
           pd_required_tier := ru_required_tier rule;
           pd_reason := "no approval required for this tier" |}
      else if negb (bool_decide (proof ∈ ru_allowed_proofs rule)) then
        let allowed := str_or (Some (join ", " (map proof_value (ru_allowed_proofs rule)))) "none" in
        {| pd_allowed := false; pd_action_class := action_class;
           pd_required_tier := ru_required_tier rule;
           pd_reason := "proof " +:+ proof_value proof +:+ " cannot approve " +:+ action_class
                        +:+ "; allowed proofs: " +:+ allowed |}
      else
        {| pd_allowed := true; pd_action_class := action_class;
           pd_required_tier := ru_required_tier rule;
           pd_reason := "proof " +:+ proof_value proof +:+ " accepted for " +:+ action_class |}
  end.

Definition default_approval_matrix : ApprovalMatrix :=
  [ {| ru_action_class := "observe.report"; ru_required_tier := OBSERVE;
       ru_proof_required := false; ru_allowed_proofs := [] |};
    {| ru_action_class := "plan.recommend"; ru_required_tier := RECOMMEND;
       ru_proof_required := false; ru_allowed_proofs := [] |};
    {| ru_action_class := "task.move"; ru_required_tier := ACT;
       ru_proof_required := true; ru_allowed_proofs := [DEVICE_SIGNED] |};
    {| ru_action_class := "calendar.apply"; ru_required_tier := ACT;
       ru_proof_required := true; ru_allowed_proofs := [DEVICE_SIGNED] |};
    {| ru_action_class := "calendar.revert"; ru_required_tier := ACT;
       ru_proof_required := true; ru_allowed_proofs := [DEVICE_SIGNED] |};
    {| ru_action_class := "message.send"; ru_required_tier := EXTERNAL;
       ru_proof_required := true; ru_allowed_proofs := [DEVICE_SIGNED] |};
    {| ru_action_class := "worker.execute"; ru_required_tier := EXTERNAL;
       ru_proof_required := true; ru_allowed_proofs := [DEVICE_SIGNED] |} ].

(** ** Proposals and payload-bound facts *)

Inductive ProposalState :=
| PROPOSED | APPROVED | REJECTED | EXPIRED | APPLIED | REVERTED | RECONCILED.

#[export] Instance ProposalState_eq_dec : EqDecision ProposalState.
Proof. solve_decision. Defined.

Definition state_value (s : ProposalState) : string :=
  match s with
  | PROPOSED => "proposed" | APPROVED => "approved" | REJECTED => "rejected"
  | EXPIRED => "expired" | APPLIED => "applied" | REVERTED => "reverted"
  | RECONCILED => "reconciled"
  end.

Record ProposalRecord := {
  pr_proposal_id : string;
  pr_action_class : string;
  pr_payload : string;
  pr_state : ProposalState;
  pr_created_at : Z;
}.

Record PayloadBoundFact := {
  fa_fact_id : string;
  fa_proposal_id : string;
  fa_payload_hash : string;
  fa_issued_at : Z;
  fa_expires_at : Z;
  fa_idempotency_key : string;
  fa_actor : string;
  fa_correlation_id : string;
}.

(** [ResetRequest] is a subclass of [Approval] that only changes its signing bytes. *)
Inductive ApprovalKind := OrdinaryApproval | ResetRequest.

#[export] Instance ApprovalKind_eq_dec : EqDecision ApprovalKind.
Proof. solve_decision. Defined.

Record Approval := {
  ap_fact : PayloadBoundFact;
  ap_proof : ApprovalProof;
  ap_device_id : option string;
  ap_signature : string;
  ap_kind : ApprovalKind;
}.

Record CapabilityLease := {
  le_fact : PayloadBoundFact;
  le_capability : string;
  le_worker_id : string;
  le_signature : string;
}.

Record Rollback := { rb_fact : PayloadBoundFact; rb_reason : string }.
Record Reconciliation := { rc_fact : PayloadBoundFact; rc_outcome : string }.

Section signing.
Context (dump_datetime : Z → string).

(** The JSON object of [model_dump(mode="json")], keys sorted. *)
Definition approval_fields (a : Approval) : list (string * string) :=
  let f := ap_fact a in
  [ ("actor", json_string (fa_actor f));
    ("correlation_id", json_string (fa_correlation_id f));
    ("device_id", json_opt (ap_device_id a));
    ("expires_at", json_string (dump_datetime (fa_expires_at f)));
    ("fact_id", json_string (fa_fact_id f));
    ("idempotency_key", json_string (fa_idempotency_key f));
    ("issued_at", json_string (dump_datetime (fa_issued_at f)));
    ("payload_hash", json_string (fa_payload_hash f));
    ("proof", json_string (proof_value (ap_proof a)));
    ("proposal_id", json_string (fa_proposal_id f)) ].

Definition approval_bytes (a : Approval) (action_class : string) : string :=
  "[" +:+ json_string "lifeos.approval.v1" +:+ "," +:+ json_string action_class +:+ ","
  +:+ "{" +:+ join "," (map json_field (approval_fields a)) +:+ "}" +:+ "]".

Definition signing_bytes (a : Approval) (action_class : string) : string :=
  match ap_kind a with
  | OrdinaryApproval => approval_bytes a action_class
  | ResetRequest =>
      "lifeos.reset.v1" +:+ String (Ascii.ascii_of_nat 0) (approval_bytes a action_class)
  end.
End signing.

(** ** The lifecycle *)

Section lifecycle.
Context {P S : Type} `{DevicePersistence P} `{ConsumptionStore S}.
Context (parse_device : string → option Device).
Context (sha256 : string → string) (dump_datetime : Z → string).
(** [from_public_bytes] and [verify] of Ed25519, on bytes. *)
Context (public_key_ok : string → bool) (ed25519_verify : string → string → string → bool).

Definition payload_hash (p : ProposalRecord) : string := sha256 (pr_payload p).

Definition enrollment_message (e : EnrollmentError) : string :=
  match e with
  | ForgedDeviceError f => "no enrolled active device matches public key fingerprint " +:+ f
  | RevokedDeviceError d => "device " +:+ d +:+ " is revoked"
  | DeviceNotFoundError d => "device " +:+ d +:+ " is not enrolled"
  | DeviceAlreadyEnrolledError d => "device " +:+ d +:+ " is already enrolled"
  | InvalidKeyError | RecordError => ""
  end.

Definition signature_valid (key signature message : string) : bool :=
  match fromhex key with
  | Some k =>
      public_key_ok k && match fromhex signature with
                         | Some s => ed25519_verify k s message
                         | None => false
                         end
  | None => false
  end.

Definition _verify_device_signature (devices : DeviceRegistry P) (proposal : ProposalRecord)
    (a : Approval) : result AuthorityError unit :=
  match ap_device_id a with
  | None => Err (PolicyViolationError "device-signed approval requires an enrolled device id")
  | Some device_id =>
      match require_active_device parse_device devices device_id with
      | Err RecordError => Err DeviceRecordError
      | Err e => Err (PolicyViolationError
                        ("device-signed approval requires an active enrolled device: "
                         +:+ enrollment_message e))
      | Ok dev =>
          match dv_approval_public_key dev with
          | None => Err (PolicyViolationError "device has no enrolled approval signing key")
          | Some key =>
              raise_if (negb (signature_valid key (ap_signature a)
                                (signing_bytes dump_datetime a (pr_action_class proposal))))
                (PolicyViolationError "approval signature verification failed")
          end
      end
  end.

Definition validate_approval (now : Z) (devices : DeviceRegistry P) (proposal : ProposalRecord)
    (a : Approval) (matrix : ApprovalMatrix) : result AuthorityError unit :=
  let f := ap_fact a in
  let decision := can_approve matrix (pr_action_class proposal) (ap_proof a) in
  (let* _ := raise_if (negb (pd_allowed decision)) (PolicyViolationError (pd_reason decision)) in
   let* _ := raise_if (negb (String.eqb (fa_proposal_id f) (pr_proposal_id proposal)))
               (PolicyViolationError "approval proposal id does not match") in
   let* _ := raise_if (negb (String.eqb (fa_payload_hash f) (payload_hash proposal)))
               (PolicyViolationError "approval payload hash does not match proposal") in
   let* _ := raise_if (fa_expires_at f <=? now)%Z (PolicyViolationError "approval has expired") in
   let* _ := raise_if ((now <? fa_issued_at f) || (fa_expires_at f <=? fa_issued_at f))%Z
               (PolicyViolationError "approval issuance time is invalid") in
   if bool_decide (ap_proof a = DEVICE_SIGNED)
   then _verify_device_signature devices proposal a else Ok tt)%py.

(** Run a check that does not touch the store. *)
Definition checked (r : result AuthorityError unit) : comp S AuthorityError unit :=
  λ s, (s, r).

Definition consume_or (keys : list ConsumptionKey) (message : string) :
    comp S AuthorityError unit := λ s,
  match consume keys s with
  | (s', true) => (s', Ok tt)
  | (s', false) => (s', Err (PolicyViolationError message))
  end.

Definition proposal_key (generation : nat) (proposal_id : string) : string :=
  match generation with
  | O => proposal_id
  | _ => proposal_id +:+ ":" +:+ pretty (N.of_nat generation)
  end.

(** An f-string prints [None] for a missing device. *)
Definition device_text (d : option string) : string :=
  match d with Some d => d | None => "None" end.

Definition approve_keys (generation : nat) (proposal : ProposalRecord) (a : Approval) :
    list ConsumptionKey :=
  [ ("approve", fa_fact_id (ap_fact a));
    ("approve-proposal", proposal_key generation (pr_proposal_id proposal));
    ("approve-idempotency",
     device_text (ap_device_id a) +:+ ":" +:+ fa_idempotency_key (ap_fact a)) ].

Definition approve (now : Z) (devices : DeviceRegistry P) (proposal : ProposalRecord)
    (a : Approval) (matrix : ApprovalMatrix) : comp S AuthorityError ProposalState := λ s,
  (throw_if (negb (bool_decide (pr_state proposal = PROPOSED)))
     (PolicyViolationError ("cannot approve proposal in state "
                            +:+ state_value (pr_state proposal))) ≫= λ _,
   throw_if (bool_decide (ap_kind a = ResetRequest))
     (PolicyViolationError "reset proof cannot approve execution") ≫= λ _,
   checked (validate_approval now devices proposal a matrix) ≫= λ _,
   consume_or (approve_keys (generation s (pr_proposal_id proposal)) proposal a)
     "approval replay" ≫= λ _,
   mret APPROVED) s.

Definition _consume (transition fact_id : string) : comp S AuthorityError unit :=
  consume_or [(transition, fact_id)] (transition +:+ " replay for fact " +:+ fact_id).

(** The shape [apply], [revert] and [reconcile] share: the state guard, the
    payload binding, the expiry, one-shot consumption. *)
Definition bound_transition (verb noun : string) (from to : ProposalState) (now : Z)
    (proposal : ProposalRecord) (f : PayloadBoundFact) : comp S AuthorityError ProposalState :=
  throw_if (negb (bool_decide (pr_state proposal = from)))
    (PolicyViolationError ("cannot " +:+ verb +:+ " proposal in state "
                           +:+ state_value (pr_state proposal))) ≫= λ _,
  throw_if (negb (String.eqb (fa_proposal_id f) (pr_proposal_id proposal)))
    (PolicyViolationError (noun +:+ " proposal id does not match")) ≫= λ _,
  throw_if (negb (String.eqb (fa_payload_hash f) (payload_hash proposal)))
    (PolicyViolationError (noun +:+ " payload hash does not match proposal")) ≫= λ _,
  throw_if (fa_expires_at f <=? now)%Z (PolicyViolationError (noun +:+ " has expired")) ≫= λ _,
  _consume verb (fa_fact_id f) ≫= λ _,
  mret to.

Definition apply_ (now : Z) (proposal : ProposalRecord) (lease : CapabilityLease) :
    comp S AuthorityError ProposalState :=
  bound_transition "apply" "lease" APPROVED APPLIED now proposal (le_fact lease).

Definition revert (now : Z) (proposal : ProposalRecord) (rollback : Rollback) :
    comp S AuthorityError ProposalState :=
  bound_transition "revert" "rollback" APPLIED REVERTED now proposal (rb_fact rollback).

Definition reconcile (now : Z) (proposal : ProposalRecord) (rc : Reconciliation) :
    comp S AuthorityError ProposalState :=
  bound_transition "reconcile" "reconciliation" APPLIED RECONCILED now proposal (rc_fact rc).

(** [reset] takes a [ResetRequest]; the kind is that of its argument's class. *)
Definition as_reset (a : Approval) : Approval :=
  {| ap_fact := ap_fact a; ap_proof := ap_proof a; ap_device_id := ap_device_id a;
     ap_signature := ap_signature a; ap_kind := ResetRequest |}.

Definition reset_keys (proposal : ProposalRecord) (a : Approval) (device_id : string) :
    list ConsumptionKey :=
  [ ("recover", fa_fact_id (ap_fact a));
    (reset_round (pr_proposal_id proposal), fa_fact_id (ap_fact a));
    ("recover-idempotency", device_id +:+ ":" +:+ fa_idempotency_key (ap_fact a)) ].

Definition reset (now : Z) (devices : DeviceRegistry P) (proposal : ProposalRecord)
    (request : Approval) (matrix : ApprovalMatrix) (zero_effects_verified : bool) :
    comp S AuthorityError ProposalState :=
  throw_if (negb (bool_decide (pr_state proposal = APPROVED)))
    (PolicyViolationError ("cannot reset proposal in state "
                           +:+ state_value (pr_state proposal))) ≫= λ _,
  throw_if (negb zero_effects_verified)
    (PolicyViolationError "reset requires a dedicated proof and zero-effect reconciliation")
    ≫= λ _,
  checked (validate_approval now devices proposal (as_reset request) matrix) ≫= λ _,
  match ap_device_id request with
  | None => throw (PolicyViolationError "reset request requires an enrolled device id")
  | Some device_id =>
      consume_or (reset_keys proposal request device_id) "reset replay" ≫= λ _, mret PROPOSED
  end.
End lifecycle.
