(* ===== verification/AuthoritySpec.v ===== *)
(** * Theorems about the approval lifecycle

    Every transition is a list of guards followed by one claim on the
    consumption store ([claims]); the theorems follow the claims along an
    arbitrary sequence of lifecycle calls against one store. *)

From stdpp Require Import prelude base strings list gmap pretty.
From Stdlib Require Import ZArith.
From S2P Require Import Prelude PyText Transactions Consumption Enrollment Authority.
#[local] Open Scope Z_scope.
#[local] Open Scope string_scope.

(** ** What a successful approval establishes *)

Section lifecycle_facts.
Context {P S : Type} `{DevicePersistence P} `{ConsumptionLaws S}.
Context (parse_device : string → option Device).
Context (sha256 : string → string) (dump_datetime : Z → string).
Context (public_key_ok : string → bool) (ed25519_verify : string → string → string → bool).

Implicit Types (s : S) (proposal : ProposalRecord) (a : Approval) (devices : DeviceRegistry P).

Abbreviation validate := (validate_approval parse_device sha256 dump_datetime
                            public_key_ok ed25519_verify).
Abbreviation approve_ := (approve parse_device sha256 dump_datetime
                            public_key_ok ed25519_verify).
Abbreviation reset_ := (reset parse_device sha256 dump_datetime
                            public_key_ok ed25519_verify).

(** The device behind a signature: active, with a key under which the approval's
    signing bytes verify. *)
Definition signed_by_device devices proposal a : Prop :=
  ∃ id dev key, ap_device_id a = Some id
    ∧ require_active_device parse_device devices id = Ok dev
    ∧ dv_approval_public_key dev = Some key
    ∧ signature_valid public_key_ok ed25519_verify key (ap_signature a)
        (signing_bytes dump_datetime a (pr_action_class proposal)) = true.

Record approval_valid (now : Z) devices proposal a (matrix : ApprovalMatrix) : Prop := {
  av_rule : ∃ rule, rule_for matrix (pr_action_class proposal) = Some rule
    ∧ (ru_proof_required rule = true → ap_proof a ∈ ru_allowed_proofs rule);
  av_proposal : fa_proposal_id (ap_fact a) = pr_proposal_id proposal;
  av_payload : fa_payload_hash (ap_fact a) = sha256 (pr_payload proposal);
  av_time : fa_issued_at (ap_fact a) ≤ now < fa_expires_at (ap_fact a);
  av_device : ap_proof a = DEVICE_SIGNED → signed_by_device devices proposal a;
}.

Lemma can_approve_allowed matrix action proof :
  pd_allowed (can_approve matrix action proof) = true ↔
  ∃ rule, rule_for matrix action = Some rule
    ∧ (ru_proof_required rule = true → proof ∈ ru_allowed_proofs rule).
Proof.
  unfold can_approve. destruct (rule_for matrix action) as [rule|]; simpl;
    [|by split; [|intros (? & ? & _)]].
  destruct (ru_proof_required rule) eqn:Hp; simpl.
  - case_bool_decide as Hd; simpl; split; try done.
    + by exists rule.
    + intros (r & [= <-] & Hr). by destruct Hd; apply Hr.
  - split; [|done]. intros _. exists rule. by rewrite Hp.
Qed.

Lemma verify_device_signature_ok devices proposal a :
  _verify_device_signature parse_device dump_datetime public_key_ok ed25519_verify
    devices proposal a = Ok tt ↔ signed_by_device devices proposal a.
Proof.
  unfold _verify_device_signature, signed_by_device, raise_if.
  destruct (ap_device_id a) as [id|]; [|by split; [|intros (? & ? & ? & ? & _)]].
  split.
  - destruct (require_active_device parse_device devices id) as [dev|[]] eqn:E; try done.
    destruct (dv_approval_public_key dev) as [key|] eqn:Hk; [|done].
    destruct (signature_valid _ _ key _ _) eqn:Hs; [|done]. by exists id, dev, key.
  - by intros (? & dev & key & [= <-] & -> & -> & ->).
Qed.

Lemma validate_approval_ok now devices proposal a matrix :
  validate now devices proposal a matrix = Ok tt ↔ approval_valid now devices proposal a matrix.
Proof.
  unfold validate_approval, payload_hash. cbv zeta.
  rewrite !rbind_unit_iff, !raise_if_iff, !negb_false_iff, orb_false_iff, can_approve_allowed,
    !String.eqb_eq, !Z.leb_gt, Z.ltb_ge.
  assert ((if bool_decide (ap_proof a = DEVICE_SIGNED)
           then _verify_device_signature parse_device dump_datetime public_key_ok ed25519_verify
                  devices proposal a else Ok tt) = Ok tt
          ↔ (ap_proof a = DEVICE_SIGNED → signed_by_device devices proposal a)) as ->.
  { case_bool_decide; [rewrite verify_device_signature_ok; tauto|naive_solver]. }
  split.
  - intros (Hr & Hp & Hh & He & (Hi & _) & Hd). split; [done..| |done]. lia.
  - intros [Hr Hp Hh Ht Hd]. split_and!; [done..| | | |done]; lia.
Qed.

(** ** Guards and claims *)

(** [claims s keys m to]: run from [s], [m] either claims [keys], all of them
    new, and returns [to], or raises and leaves the store alone. *)
Definition claims s (keys : list ConsumptionKey) (m : comp S AuthorityError ProposalState)
    (to : ProposalState) : Prop :=
  store_ok (m s).1 ∧
  match (m s).2 with
  | Ok st => st = to ∧ Forall (λ k, k ∉ consumed s) keys
             ∧ consumed (m s).1 = consumed s ∪ list_to_set keys
  | Err _ => (m s).1 = s
  end.

Lemma claims_guard s keys to b e k :
  store_ok s → claims s keys (k tt) to → claims s keys (throw_if b e ≫= k) to.
Proof. intros Hs Hk. unfold claims, mbind, comp_bind, throw_if in *. by destruct b. Qed.

Lemma claims_checked s keys to r k :
  store_ok s → claims s keys (k tt) to → claims s keys (checked r ≫= k) to.
Proof. intros Hs Hk. unfold claims, mbind, comp_bind, checked in *. by destruct r as [[]|]. Qed.

Lemma claims_throw s keys to e : store_ok s → claims s keys (throw e) to.
Proof. done. Qed.

Lemma claims_consume s keys to msg :
  store_ok s → NoDup keys → claims s keys (consume_or keys msg ≫= λ _, mret to) to.
Proof.
  intros Hs Hnd. unfold claims, mbind, comp_bind, consume_or.
  destruct (consume_spec keys s Hs Hnd) as (Hb & Hok & Hc & Hf).
  destruct (consume keys s) as [s' []]; simpl in *.
  - symmetry in Hb. rewrite Hb in Hc. by apply bool_decide_eq_true in Hb.
  - split; [done|]. by apply Hf.
Qed.

Lemma approve_keys_nodup g proposal a : NoDup (approve_keys g proposal a).
Proof. repeat constructor; rewrite ?elem_of_cons, ?elem_of_nil; naive_solver. Qed.

Lemma reset_keys_nodup proposal a d : NoDup (reset_keys proposal a d).
Proof. repeat constructor; rewrite ?elem_of_cons, ?elem_of_nil; naive_solver. Qed.

Lemma bound_transition_claims verb noun from to now proposal f s :
  store_ok s →
  claims s [(verb, fa_fact_id f)] (bound_transition sha256 verb noun from to now proposal f) to.
Proof.
  intros Hs. unfold bound_transition. repeat (apply claims_guard; [done|]).
  apply claims_consume; [done|]. apply NoDup_singleton.
Qed.

Lemma approve_claims now devices proposal a matrix s :
  store_ok s →
  claims s (approve_keys (generation s (pr_proposal_id proposal)) proposal a)
    (approve_ now devices proposal a matrix) APPROVED.
Proof.
  intros Hs. pose (g := generation s (pr_proposal_id proposal)).
  enough (claims s (approve_keys g proposal a)
    (throw_if (negb (bool_decide (pr_state proposal = PROPOSED)))
       (PolicyViolationError ("cannot approve proposal in state "
                              +:+ state_value (pr_state proposal))) ≫= λ _,
     throw_if (bool_decide (ap_kind a = ResetRequest))
       (PolicyViolationError "reset proof cannot approve execution") ≫= λ _,
     checked (validate now devices proposal a matrix) ≫= λ _,
     consume_or (approve_keys g proposal a) "approval replay" ≫= λ _,
     mret APPROVED) APPROVED) by done.
  repeat (apply claims_guard; [done|]). apply claims_checked; [done|].
  apply claims_consume; [done|]. apply approve_keys_nodup.
Qed.

Lemma reset_claims now devices proposal a matrix zero s :
  store_ok s →
  claims s (reset_keys proposal a (device_text (ap_device_id a)))
    (reset_ now devices proposal a matrix zero) PROPOSED.
Proof.
  intros Hs. unfold reset. repeat (apply claims_guard; [done|]). apply claims_checked; [done|].
  destruct (ap_device_id a) as [d|]; [|by apply claims_throw].
  apply claims_consume; [done|]. apply reset_keys_nodup.
Qed.

(** ** Sequences of lifecycle calls *)

Inductive lifecycle_op :=
| OpApprove (now : Z) (devices : DeviceRegistry P) (proposal : ProposalRecord) (a : Approval)
    (matrix : ApprovalMatrix)
| OpApply (now : Z) (proposal : ProposalRecord) (lease : CapabilityLease)
| OpRevert (now : Z) (proposal : ProposalRecord) (rollback : Rollback)
| OpReconcile (now : Z) (proposal : ProposalRecord) (rc : Reconciliation)
| OpReset (now : Z) (devices : DeviceRegistry P) (proposal : ProposalRecord) (a : Approval)
    (matrix : ApprovalMatrix) (zero_effects_verified : bool).

Definition lifecycle_step (op : lifecycle_op) : comp S AuthorityError ProposalState :=
  match op with
  | OpApprove now devices proposal a matrix => approve_ now devices proposal a matrix
  | OpApply now proposal lease => apply_ sha256 now proposal lease
  | OpRevert now proposal rollback => revert sha256 now proposal rollback
  | OpReconcile now proposal rc => reconcile sha256 now proposal rc
  | OpReset now devices proposal a matrix zero => reset_ now devices proposal a matrix zero
  end.

Definition op_keys s (op : lifecycle_op) : list ConsumptionKey :=
  match op with
  | OpApprove _ _ proposal a _ => approve_keys (generation s (pr_proposal_id proposal)) proposal a
  | OpApply _ _ lease => [("apply", fa_fact_id (le_fact lease))]
  | OpRevert _ _ rollback => [("revert", fa_fact_id (rb_fact rollback))]
  | OpReconcile _ _ rc => [("reconcile", fa_fact_id (rc_fact rc))]
  | OpReset _ _ proposal a _ _ => reset_keys proposal a (device_text (ap_device_id a))
  end.

Definition op_target (op : lifecycle_op) : ProposalState :=
  match op with
  | OpApprove _ _ _ _ _ => APPROVED | OpApply _ _ _ => APPLIED | OpRevert _ _ _ => REVERTED
  | OpReconcile _ _ _ => RECONCILED | OpReset _ _ _ _ _ _ => PROPOSED
  end.

Lemma step_claims op s : store_ok s → claims s (op_keys s op) (lifecycle_step op) (op_target op).
Proof.
  intros Hs. destruct op; simpl.
  - by apply approve_claims.
  - by apply bound_transition_claims.
  - by apply bound_transition_claims.
  - by apply bound_transition_claims.
  - by apply reset_claims.
Qed.

(** Run a sequence of calls, keeping the accepted ones. *)
Fixpoint lifecycle_run (ops : list lifecycle_op) s : S * list lifecycle_op :=
  match ops with
  | [] => (s, [])
  | op :: ops' =>
      match lifecycle_step op s with
      | (s', Ok _) => let '(s'', accepted) := lifecycle_run ops' s' in (s'', op :: accepted)
      | (s', Err _) => lifecycle_run ops' s'
      end
  end.

(** Reason along a run, one accepted call at a time. *)
Lemma lifecycle_run_ind (Q : S → list lifecycle_op → S → list lifecycle_op → Prop) :
  (∀ s, store_ok s → Q s [] s []) →
  (∀ op ops s s' s'' acc, store_ok s → store_ok s' → Forall (λ k, k ∉ consumed s) (op_keys s op) →
    consumed s' = consumed s ∪ list_to_set (op_keys s op) →
    lifecycle_step op s = (s', Ok (op_target op)) →
    Q s' ops s'' acc → Q s (op :: ops) s'' (op :: acc)) →
  (∀ op ops s s'' acc, store_ok s → Q s ops s'' acc → Q s (op :: ops) s'' acc) →
  ∀ ops s, store_ok s → Q s ops (lifecycle_run ops s).1 (lifecycle_run ops s).2.
Proof.
  intros Hnil Hacc Hrej ops. induction ops as [|op ops IH]; intros s Hs; simpl; [by apply Hnil|].
  destruct (step_claims op s Hs) as [Hok Hm].
  destruct (lifecycle_step op s) as [s' [st|e]] eqn:E; simpl in *.
  - destruct Hm as (-> & Hf & Hc). specialize (IH s' Hok).
    destruct (lifecycle_run ops s') as [s'' acc]. simpl in *. by eapply Hacc.
  - subst. by apply Hrej, IH.
Qed.

Lemma lifecycle_run_ok ops s : store_ok s → store_ok (lifecycle_run ops s).1.
Proof. apply (lifecycle_run_ind (λ _ _ s'' _, store_ok s'')); auto. Qed.

(** ** Replay protection *)

(** The one-shot facts of a call: its authorization fact and, for device
    requests, the idempotency key. *)
Definition op_marks (op : lifecycle_op) : list ConsumptionKey :=
  match op with
  | OpApprove _ _ _ a _ =>
      [("approve", fa_fact_id (ap_fact a));
       ("approve-idempotency",
        device_text (ap_device_id a) +:+ ":" +:+ fa_idempotency_key (ap_fact a))]
  | OpReset _ _ _ a _ _ =>
      [("recover", fa_fact_id (ap_fact a));
       ("recover-idempotency",
        device_text (ap_device_id a) +:+ ":" +:+ fa_idempotency_key (ap_fact a))]
  | OpApply _ _ lease => [("apply", fa_fact_id (le_fact lease))]
  | OpRevert _ _ rollback => [("revert", fa_fact_id (rb_fact rollback))]
  | OpReconcile _ _ rc => [("reconcile", fa_fact_id (rc_fact rc))]
  end.

Lemma op_marks_keys s op : op_marks op ⊆ op_keys s op.
Proof. destruct op; simpl; set_solver. Qed.

Lemma op_marks_nodup op : NoDup (op_marks op).
Proof. destruct op; repeat constructor; rewrite ?elem_of_cons, ?elem_of_nil; naive_solver. Qed.

(** No authorization is ever accepted twice: whatever sequence of
    approvals, applications, reverts, reconciliations and resets is run against
    one consumption store, the authorization facts and idempotency keys of the
    accepted calls are pairwise distinct and were unused before. *)
Theorem authorizations_never_replay ops s :
  store_ok s →
  NoDup (concat (map op_marks (lifecycle_run ops s).2))
  ∧ (∀ k, k ∈ concat (map op_marks (lifecycle_run ops s).2) → k ∉ consumed s).
Proof.
  revert ops s. apply (lifecycle_run_ind (λ s _ _ acc, NoDup (concat (map op_marks acc))
    ∧ ∀ k, k ∈ concat (map op_marks acc) → k ∉ consumed s)).
  - intros s _. simpl. split; [constructor|set_solver].
  - intros op ops s s' _ acc _ _ Hf Hc _ [Hnd Hnew]. pose proof (op_marks_keys s op) as Hsub.
    rewrite Forall_forall in Hf. rewrite Hc in Hnew. simpl. split.
    + apply NoDup_app. split_and!; [apply op_marks_nodup| |done].
      intros k Hk Hk'. apply (Hnew k Hk'). set_solver.
    + set_solver.
  - done.
Qed.

(** ** Approval rounds *)

Definition approves (p : string) (op : lifecycle_op) : bool :=
  match op with OpApprove _ _ proposal _ _ => String.eqb (pr_proposal_id proposal) p | _ => false end.
Definition resets (p : string) (op : lifecycle_op) : bool :=
  match op with OpReset _ _ proposal _ _ _ => String.eqb (pr_proposal_id proposal) p | _ => false end.

Definition count (f : lifecycle_op → bool) (l : list lifecycle_op) : nat :=
  length (List.filter f l).

Lemma reset_round_inj p q : reset_round p = reset_round q → p = q.
Proof. apply append_inj_l. Qed.

(** The keys of a call that count as a recovery round of [p]: one for a reset of [p]. *)
Lemma op_keys_rounds s op p :
  filter (λ k : ConsumptionKey, k.1 = reset_round p) (list_to_set (op_keys s op) : gset ConsumptionKey)
  = if resets p op
    then match op_marks op with k :: _ => {[(reset_round p, k.2)]} | [] => ∅ end else ∅.
Proof.
  apply set_eq. intros [ns id]. rewrite elem_of_filter, elem_of_list_to_set. simpl.
  assert (∀ x, reset_round p = x → String.prefix "reset-" x = true) as Hns by (by intros ? <-).
  assert (∀ ns' id', ns = reset_round p → (ns, id) = (ns', id') →
            String.prefix "reset-" ns' = true) as Hns' by (intros ? ? -> [= ? ?]; by apply Hns).
  destruct op as [? ? pr a ?| | | |? ? pr a ? ?]; cbn [op_keys resets op_marks];
    unfold approve_keys, reset_keys; rewrite ?elem_of_cons, ?elem_of_nil, ?elem_of_empty;
    try (split; [|done]; intros [Hn Hk]; destruct_or! Hk; try done;
         by specialize (Hns' _ _ Hn Hk)).
  destruct (String.eqb (pr_proposal_id pr) p) eqn:E; bool_to_prop.
  - subst p. rewrite elem_of_singleton. split; [|intros [= -> ->]; tauto].
    intros [Hn Hk]. destruct_or! Hk; try done; by specialize (Hns' _ _ Hn Hk).
  - rewrite elem_of_empty. split; [|done]. intros [Hn Hk]. destruct_or! Hk; try done;
      [by specialize (Hns' _ _ Hn Hk)| |by specialize (Hns' _ _ Hn Hk)].
    rewrite Hn in Hk. apply (f_equal fst) in Hk. by apply reset_round_inj in Hk.
Qed.

Lemma generation_step op s s' p :
  store_ok s → store_ok s' → Forall (λ k, k ∉ consumed s) (op_keys s op) →
  consumed s' = consumed s ∪ list_to_set (op_keys s op) →
  generation s' p = ((if resets p op then 1 else 0) + generation s p)%nat.
Proof.
  intros Hs Hs' Hf Hc. rewrite !generation_spec, Hc by done. rewrite filter_union_L, size_union.
  - rewrite op_keys_rounds. destruct (resets p op) eqn:E; [|rewrite size_empty; lia].
    destruct op; try done. cbn [op_marks]. rewrite size_singleton. lia.
  - rewrite Forall_forall in Hf. set_solver.
  - apply _.
Qed.

(** Whether the current round of [p] is already approved. *)
Definition round_used s (p : string) : nat :=
  if bool_decide (("approve-proposal", proposal_key (generation s p) p) ∈ consumed s) then 1 else 0.

Lemma round_used_le s p : (round_used s p ≤ 1)%nat.
Proof. unfold round_used. destruct (bool_decide _); lia. Qed.

Lemma round_used_step op s s' p :
  store_ok s → store_ok s' → Forall (λ k, k ∉ consumed s) (op_keys s op) →
  consumed s' = consumed s ∪ list_to_set (op_keys s op) →
  ((if approves p op then 1 else 0) + round_used s p
   ≤ (if resets p op then 1 else 0) + round_used s' p)%nat.
Proof.
  intros Hs Hs' Hf Hc. pose proof (generation_step op s s' p Hs Hs' Hf Hc) as Hg.
  destruct (resets p op) eqn:Hr.
  { pose proof (round_used_le s p). destruct op; simpl in *; try done. lia. }
  unfold round_used. rewrite Hg, Hc. simpl. destruct (approves p op) eqn:Ha.
  - destruct op; simpl in Ha; try done. bool_to_prop. subst p.
    rewrite Forall_forall in Hf. rewrite bool_decide_false.
    + rewrite bool_decide_true; [done|]. simpl. set_solver.
    + apply Hf. simpl. set_solver.
  - case_bool_decide as Hu; [|simpl; lia]. rewrite bool_decide_true; [done|]. set_solver.
Qed.

(** Approval rounds are bounded by authorized recoveries: against any
    store, a sequence of lifecycle calls approves a proposal at most once more
    than it resets it. *)
Theorem approvals_bounded_by_resets ops s p :
  store_ok s →
  (count (approves p) (lifecycle_run ops s).2
   ≤ 1 + count (resets p) (lifecycle_run ops s).2)%nat.
Proof.
  intros Hs.
  enough (count (approves p) (lifecycle_run ops s).2 + round_used s p
          ≤ 1 + count (resets p) (lifecycle_run ops s).2)%nat by lia.
  revert ops s Hs. apply (lifecycle_run_ind (λ s _ _ acc,
    count (approves p) acc + round_used s p ≤ 1 + count (resets p) acc)%nat).
  - intros s _. pose proof (round_used_le s p). simpl. lia.
  - intros op ops s s' _ acc Hs Hs' Hf Hc _ IH.
    pose proof (round_used_step op s s' p Hs Hs' Hf Hc). unfold count in *. simpl.
    destruct (approves p op), (resets p op); simpl in *; lia.
  - done.
Qed.

(** ** Exactly the valid, unused approvals are accepted *)

Lemma approve_ok_iff now devices proposal a matrix s :
  store_ok s →
  (approve_ now devices proposal a matrix s).2 = Ok APPROVED ↔
  pr_state proposal = PROPOSED ∧ ap_kind a = OrdinaryApproval
  ∧ approval_valid now devices proposal a matrix
  ∧ Forall (λ k, k ∉ consumed s)
      (approve_keys (generation s (pr_proposal_id proposal)) proposal a).
Proof.
  intros Hs. rewrite <- validate_approval_ok. unfold approve, throw_if, checked, consume_or.
  set (keys := approve_keys _ proposal a).
  destruct (consume_spec keys s Hs (approve_keys_nodup _ _ _)) as (Hb & _ & _ & _).
  unfold mbind, comp_bind, raise_if.
  destruct (bool_decide (pr_state proposal = PROPOSED)) eqn:Hst; bool_to_prop; simpl;
    [|by split; [|intros (? & _)]].
  destruct (ap_kind a); simpl; [|by split; [|intros (_ & ? & _)]].
  destruct (validate now devices proposal a matrix) as [[]|e]; simpl;
    [|by split; [|intros (_ & _ & ? & _)]].
  destruct (consume keys s) as [s' b]; simpl in *; subst b. case_bool_decide; simpl.
  - by split.
  - by split; [|intros (_ & _ & _ & ?)].
Qed.

(** C9. Consequential actions need a device: under the default matrix, an
    approval of an action in the act or external tier is accepted only as an
    ordinary, device-signed approval of this very proposal and payload, within
    its validity, by an enrolled active device whose key verifies the signing
    bytes; a voice or missing proof never approves, and a refused call leaves
    the store as it was. *)
Theorem consequential_approval_needs_device now devices proposal a s tier :
  store_ok s →
  required_tier default_approval_matrix (pr_action_class proposal) = Ok tier →
  tier = ACT ∨ tier = EXTERNAL →
  match approve_ now devices proposal a default_approval_matrix s with
  | (_, Ok st) =>
      st = APPROVED ∧ pr_state proposal = PROPOSED ∧ ap_kind a = OrdinaryApproval
      ∧ ap_proof a = DEVICE_SIGNED ∧ signed_by_device devices proposal a
      ∧ fa_proposal_id (ap_fact a) = pr_proposal_id proposal
      ∧ fa_payload_hash (ap_fact a) = sha256 (pr_payload proposal)
      ∧ fa_issued_at (ap_fact a) ≤ now < fa_expires_at (ap_fact a)
  | (s', Err _) => s' = s
  end.
Proof.
  intros Hs Htier Hcons.
  destruct (approve_claims now devices proposal a default_approval_matrix s Hs) as [_ Hm].
  pose proof (approve_ok_iff now devices proposal a default_approval_matrix s Hs) as Hiff.
  destruct (approve_ now _ _ _ _ s) as [s' [st|e]]; simpl in *; [|done].
  destruct Hm as [-> _]. destruct (proj1 Hiff eq_refl) as (Hst & Hk & Hv & _).
  destruct Hv as [(rule & Hrule & Hp) Hid Hh Ht Hd].
  assert (ap_proof a = DEVICE_SIGNED) as Hproof; [|by auto 10].
  unfold required_tier in Htier. rewrite Hrule in Htier. injection Htier as Htier.
  unfold rule_for in Hrule. apply find_some in Hrule as [Hin _].
  repeat (destruct Hin as [<-|Hin]; [simpl in *; set_solver|]). done.
Qed.

(** ** Recovery reopens exactly one round *)

Definition no_colon (s : string) : bool := free_of (Ascii.ascii_of_nat 58) s.

Lemma proposal_key_inj p q g h :
  no_colon p = true → no_colon q = true → proposal_key g p = proposal_key h q → p = q ∧ g = h.
Proof.
  intros Hp Hq. destruct g as [|g], h as [|h]; cbn [proposal_key]; intros Heq.
  - done.
  - by apply free_of_app in Heq.
  - symmetry in Heq. by apply free_of_app in Heq.
  - apply free_of_split in Heq as [-> Heq]; [|done..]. apply (inj pretty) in Heq.
    split; [done|lia].
Qed.

Definition op_proposal (op : lifecycle_op) : ProposalRecord :=
  match op with
  | OpApprove _ _ p _ _ | OpApply _ p _ | OpRevert _ p _ | OpReconcile _ p _
  | OpReset _ _ p _ _ _ => p
  end.

(** No round beyond the current one is ever claimed. *)
Definition rounds_bounded s : Prop :=
  ∀ p g, no_colon p = true → ("approve-proposal", proposal_key g p) ∈ consumed s →
    (g ≤ generation s p)%nat.

Lemma rounds_bounded_step op s s' :
  no_colon (pr_proposal_id (op_proposal op)) = true → rounds_bounded s →
  store_ok s → store_ok s' → Forall (λ k, k ∉ consumed s) (op_keys s op) →
  consumed s' = consumed s ∪ list_to_set (op_keys s op) → rounds_bounded s'.
Proof.
  intros Hnc Hb Hs Hs' Hf Hc p g Hp Hin.
  rewrite (generation_step op s s' p Hs Hs' Hf Hc). rewrite Hc in Hin.
  apply elem_of_union in Hin as [Hin|Hin]; [apply Hb in Hin; [lia|done]|].
  apply elem_of_list_to_set in Hin.
  destruct op; cbn [op_keys op_proposal] in *; unfold approve_keys, reset_keys in *;
    rewrite ?elem_of_cons, ?elem_of_nil in Hin; destruct_or! Hin; try done.
  injection Hin as Hin. apply proposal_key_inj in Hin as [-> ->]; [lia|done|done].
Qed.

Lemma rounds_bounded_run ops s :
  Forall (λ op, no_colon (pr_proposal_id (op_proposal op)) = true) ops →
  store_ok s → rounds_bounded s → rounds_bounded (lifecycle_run ops s).1.
Proof.
  intros Hops Hs. revert ops s Hs Hops. apply (lifecycle_run_ind (λ s ops s'' _,
    Forall (λ op, no_colon (pr_proposal_id (op_proposal op)) = true) ops →
    rounds_bounded s → rounds_bounded s'')).
  - done.
  - intros op ops s s' s'' _ Hs Hs' Hf Hc _ IH Hops Hb. apply Forall_cons in Hops as [Hop Hops].
    apply IH; [done|]. by apply (rounds_bounded_step op s s').
  - intros op ops s s'' _ _ IH Hops. apply Forall_cons in Hops as [_ Hops]. auto.
Qed.

(** Recovery reopens approval: after an accepted reset, against a store
    that grew from an empty one under UUID-keyed proposals, a valid ordinary
    approval with an unused fact and idempotency key is accepted again. *)
Theorem reset_reopens_approval ops s0 now devices proposal request matrix zero
    now' devices' a matrix' s :
  store_ok s0 → consumed s0 = ∅ →
  Forall (λ op, no_colon (pr_proposal_id (op_proposal op)) = true) ops →
  no_colon (pr_proposal_id proposal) = true →
  reset_ now devices proposal request matrix zero (lifecycle_run ops s0).1 = (s, Ok PROPOSED) →
  ap_kind a = OrdinaryApproval →
  let reopened := {| pr_proposal_id := pr_proposal_id proposal;
                     pr_action_class := pr_action_class proposal;
                     pr_payload := pr_payload proposal; pr_state := PROPOSED;
                     pr_created_at := pr_created_at proposal |} in
  approval_valid now' devices' reopened a matrix' →
  ("approve", fa_fact_id (ap_fact a)) ∉ consumed s →
  ("approve-idempotency", device_text (ap_device_id a) +:+ ":" +:+ fa_idempotency_key (ap_fact a))
    ∉ consumed s →
  (approve_ now' devices' reopened a matrix' s).2 = Ok APPROVED.
Proof.
  intros Hs0 Hempty Hops Hnc Hreset Hkind reopened Hv Hfact Hidem.
  assert (rounds_bounded s0) as Hb0 by (intros p g _; rewrite Hempty; set_solver).
  pose proof (rounds_bounded_run ops s0 Hops Hs0 Hb0) as Hb.
  pose proof (lifecycle_run_ok ops s0 Hs0) as Hs1. set (s1 := (lifecycle_run ops s0).1) in *.
  destruct (reset_claims now devices proposal request matrix zero s1 Hs1) as [Hs Hm].
  rewrite Hreset in Hs, Hm. cbn [fst snd] in Hs, Hm. destruct Hm as (_ & Hf & Hc).
  pose proof (generation_step (OpReset now devices proposal request matrix zero) s1 s
                (pr_proposal_id proposal) Hs1 Hs Hf Hc) as Hg.
  simpl in Hg. rewrite String.eqb_refl in Hg.
  apply approve_ok_iff; [done|]. split_and!; [done|done|done|].
  unfold approve_keys. repeat constructor; [done| |done].
  cbn [pr_proposal_id reopened]. rewrite Hg, Hc. intros Hin.
  apply elem_of_union in Hin as [Hin|Hin].
  - apply (Hb _ _ Hnc) in Hin. lia.
  - apply elem_of_list_to_set in Hin. unfold reset_keys in Hin.
    rewrite !elem_of_cons, elem_of_nil in Hin. destruct_or! Hin; done.
Qed.
End lifecycle_facts.

(** ** What a signature binds *)

Lemma proof_value_inj p q : proof_value p = proof_value q → p = q.
Proof. by destruct p, q. Qed.

(** Peel one JSON value off both sides of an equation between encodings. *)
Ltac peel H :=
  apply json_field_inj in H;
  first [apply json_string_inj in H as [? H] | apply json_opt_inj in H as [? H]];
  try apply append_inj_l in H.

Lemma approval_bytes_inj dump_datetime a b c d :
  (∀ t u : Z, dump_datetime t = dump_datetime u → t = u) →
  approval_bytes dump_datetime a c = approval_bytes dump_datetime b d →
  c = d ∧ ap_fact a = ap_fact b ∧ ap_proof a = ap_proof b ∧ ap_device_id a = ap_device_id b.
Proof.
  intros Hdump H. unfold approval_bytes in H. do 3 apply append_inj_l in H.
  apply json_string_inj in H as [-> H]. do 2 apply append_inj_l in H.
  unfold approval_fields in H. cbn [map join] in H. rewrite !string_app_assoc in H.
  repeat peel H.
  destruct a as [[] ? ? ? ?], b as [[] ? ? ? ?]; simpl in *.
  repeat match goal with
  | E : dump_datetime _ = dump_datetime _ |- _ => apply Hdump in E
  | E : proof_value _ = proof_value _ |- _ => apply proof_value_inj in E
  end.
  by subst.
Qed.

(** A signature binds the whole authorization: two approvals with the same
    signing bytes agree on the action class, on being an ordinary approval or a
    reset request, and on every field but the signature. *)
Theorem signing_bytes_binds dump_datetime a b c d :
  (∀ t u : Z, dump_datetime t = dump_datetime u → t = u) →
  signing_bytes dump_datetime a c = signing_bytes dump_datetime b d →
  c = d ∧ ap_kind a = ap_kind b ∧ ap_fact a = ap_fact b ∧ ap_proof a = ap_proof b
  ∧ ap_device_id a = ap_device_id b.
Proof.
  intros Hdump. unfold signing_bytes. destruct (ap_kind a), (ap_kind b); intros H.
  - apply approval_bytes_inj in H; tauto.
  - discriminate H.
  - discriminate H.
  - apply append_inj_l in H. apply (append_inj_l (String (Ascii.ascii_of_nat 0) "")) in H. apply approval_bytes_inj in H; tauto.
Qed.

(** ** A concrete desk *)

Module Desk.
Definition hash (s : string) : string := "#" +:+ s.
Definition verify (key signature message : string) : bool := String.eqb signature message.

Definition devices : DeviceRegistry EncryptedDevicePersistence :=
  {| reg_persistence := None;
     reg_devices := {[ "phone" := new_device "phone" "fp1" "owner" (Some "0a") 1 ]};
     reg_by_fingerprint := {[ "fp1" := "phone" ]} |}.

Definition proposal (st : ProposalState) : ProposalRecord :=
  {| pr_proposal_id := "p1"; pr_action_class := "calendar.apply"; pr_payload := "move";
     pr_state := st; pr_created_at := 1 |}.

Definition fact (id : string) : PayloadBoundFact :=
  {| fa_fact_id := id; fa_proposal_id := "p1"; fa_payload_hash := "#move"; fa_issued_at := 2;
     fa_expires_at := 9; fa_idempotency_key := "k-" +:+ id; fa_actor := "owner";
     fa_correlation_id := "c" |}.

Definition signed (id : string) (kind : ApprovalKind) : Approval :=
  let unsigned := {| ap_fact := fact id; ap_proof := DEVICE_SIGNED; ap_device_id := Some "phone";
                     ap_signature := ""; ap_kind := kind |} in
  {| ap_fact := fact id; ap_proof := DEVICE_SIGNED; ap_device_id := Some "phone";
     ap_signature := tohex (signing_bytes pretty unsigned "calendar.apply"); ap_kind := kind |}.

Definition approving (id : string) :=
  OpApprove 5 devices (proposal PROPOSED) (signed id OrdinaryApproval) default_approval_matrix.
Definition resetting (id : string) :=
  OpReset 5 devices (proposal APPROVED) (signed id ResetRequest) default_approval_matrix true.
Definition applying (id : string) :=
  OpApply (P := EncryptedDevicePersistence) 5 (proposal APPROVED)
    {| le_fact := fact id; le_capability := "c"; le_worker_id := "w"; le_signature := "s" |}.

Definition run := lifecycle_run (S := MemoryConsumptionStore)
  decode_text hash pretty (λ _, true) verify.
End Desk.

Lemma authorizations_never_replay_witness :
  length (Desk.run [Desk.approving "a"; Desk.approving "a"; Desk.applying "l"; Desk.applying "l"]
            ∅).2 = 2%nat
  ∧ NoDup (concat (map op_marks (Desk.run
      [Desk.approving "a"; Desk.approving "a"; Desk.applying "l"; Desk.applying "l"] ∅).2)).
Proof.
  split; [vm_compute; reflexivity|]. by apply authorizations_never_replay.
Defined.

Lemma approvals_bounded_by_resets_witness :
  count (approves "p1") (Desk.run [Desk.approving "a"; Desk.approving "b"; Desk.resetting "r";
                                   Desk.approving "d"] ∅).2 = 2%nat
  ∧ (count (approves "p1") (Desk.run [Desk.approving "a"; Desk.approving "b"; Desk.resetting "r";
                                      Desk.approving "d"] ∅).2
     ≤ 1 + count (resets "p1") (Desk.run [Desk.approving "a"; Desk.approving "b";
                                          Desk.resetting "r"; Desk.approving "d"] ∅).2)%nat.
Proof.
  split; [vm_compute; reflexivity|]. by apply approvals_bounded_by_resets.
Defined.

Lemma consequential_approval_needs_device_witness :
  (approve decode_text Desk.hash pretty (λ _, true) Desk.verify 5 Desk.devices
     (Desk.proposal PROPOSED) (Desk.signed "a" OrdinaryApproval) default_approval_matrix
     (∅ : MemoryConsumptionStore)).2 = Ok APPROVED
  ∧ ap_proof (Desk.signed "a" OrdinaryApproval) = DEVICE_SIGNED.
Proof.
  assert ((approve decode_text Desk.hash pretty (λ _, true) Desk.verify 5 Desk.devices
     (Desk.proposal PROPOSED) (Desk.signed "a" OrdinaryApproval) default_approval_matrix
     (∅ : MemoryConsumptionStore)).2 = Ok APPROVED) as Ha by (vm_compute; reflexivity).
  split; [exact Ha|].
  pose proof (consequential_approval_needs_device decode_text Desk.hash pretty (λ _, true)
    Desk.verify 5 Desk.devices (Desk.proposal PROPOSED) (Desk.signed "a" OrdinaryApproval)
    (∅ : MemoryConsumptionStore) ACT I eq_refl (or_introl eq_refl)) as H.
  destruct (approve _ _ _ _ _ _ _ _ _ _ _) as [s' [st|e]]; [tauto|discriminate Ha].
Defined.

Lemma reset_reopens_approval_witness :
  (approve decode_text Desk.hash pretty (λ _, true) Desk.verify 5 Desk.devices
     (Desk.proposal PROPOSED) (Desk.signed "b" OrdinaryApproval) default_approval_matrix
     (reset decode_text Desk.hash pretty (λ _, true) Desk.verify 5 Desk.devices
        (Desk.proposal APPROVED) (Desk.signed "r" ResetRequest) default_approval_matrix true
        (Desk.run [Desk.approving "a"] ∅).1).1).2 = Ok APPROVED.
Proof.
  refine (reset_reopens_approval decode_text Desk.hash pretty (λ _, true) Desk.verify
    [Desk.approving "a"] (∅ : MemoryConsumptionStore) 5 Desk.devices (Desk.proposal APPROVED)
    (Desk.signed "r" ResetRequest) default_approval_matrix true 5 Desk.devices
    (Desk.signed "b" OrdinaryApproval) default_approval_matrix _ I eq_refl _ eq_refl _ eq_refl
    _ _ _).
  - repeat constructor.
  - etransitivity; [apply surjective_pairing|]. f_equal.
  - apply validate_approval_ok. vm_compute. reflexivity.
  - refine (bool_decide_eq_true_1 _ _). vm_compute. reflexivity.
  - refine (bool_decide_eq_true_1 _ _). vm_compute. reflexivity.
Defined.

Lemma signing_bytes_binds_witness :
  ap_fact (Desk.signed "a" OrdinaryApproval) = Desk.fact "a".
Proof.
  exact (proj1 (proj2 (proj2 (signing_bytes_binds pretty (Desk.signed "a" OrdinaryApproval)
    {| ap_fact := Desk.fact "a"; ap_proof := DEVICE_SIGNED; ap_device_id := Some "phone";
       ap_signature := "other"; ap_kind := OrdinaryApproval |} "calendar.apply" "calendar.apply"
    (λ t u, inj pretty t u) eq_refl)))).
Defined.

(** The idempotency namespace is ambiguous: the claim joins device and key
    with a colon, so a first approval from device ["phone"] with key ["tab:1"]
    is refused as a replay of one from device ["phone:tab"] with key ["1"],
    although device, fact and key all differ. *)
Theorem idempotency_keys_collide :
  ∃ (devices : DeviceRegistry EncryptedDevicePersistence) (p q : ProposalRecord)
    (a b : Approval) s,
    pr_proposal_id p ≠ pr_proposal_id q ∧ ap_device_id a ≠ ap_device_id b
    ∧ fa_fact_id (ap_fact a) ≠ fa_fact_id (ap_fact b)
    ∧ approve decode_text Desk.hash pretty (λ _, true) Desk.verify 5 devices p a
        default_approval_matrix (∅ : MemoryConsumptionStore) = (s, Ok APPROVED)
    ∧ (approve decode_text Desk.hash pretty (λ _, true) Desk.verify 5 devices q b
        default_approval_matrix (∅ : MemoryConsumptionStore)).2 = Ok APPROVED
    ∧ (approve decode_text Desk.hash pretty (λ _, true) Desk.verify 5 devices q b
        default_approval_matrix s).2 = Err (PolicyViolationError "approval replay").
Proof.
  pose (registry := {| reg_persistence := @None (connection (list device_row));
    reg_devices := {[ "phone:tab" := new_device "phone:tab" "fp1" "owner" (Some "0a") 1;
                      "phone" := new_device "phone" "fp2" "owner" (Some "0b") 1 ]};
    reg_by_fingerprint := {[ "fp1" := "phone:tab"; "fp2" := "phone" ]} |}).
  pose (prop id := {| pr_proposal_id := id; pr_action_class := "calendar.apply";
    pr_payload := "move"; pr_state := PROPOSED; pr_created_at := 1 |}).
  pose (appr p dev key id sg := {| ap_fact := {| fa_fact_id := id; fa_proposal_id := p;
      fa_payload_hash := "#move"; fa_issued_at := 2; fa_expires_at := 9;
      fa_idempotency_key := key; fa_actor := "owner"; fa_correlation_id := "c" |};
    ap_proof := DEVICE_SIGNED; ap_device_id := Some dev; ap_signature := sg;
    ap_kind := OrdinaryApproval |}).
  pose (sign p dev key id :=
    appr p dev key id (tohex (signing_bytes pretty (appr p dev key id "") "calendar.apply"))).
  eexists registry, (prop "p1"), (prop "p2"), (sign "p1" "phone:tab" "1" "f1"),
    (sign "p2" "phone" "tab:1" "f2"), _.
  split_and!; [done|done|done|reflexivity| |]; vm_compute; reflexivity.
Qed.
