(* ===== verification/Leases.v ===== *)
(** * Payload-bound worker leases with rotating signing keys ([leases.py])

    The clock is UTC and the identifier of a new lease is an argument; HMAC-SHA256
    is a parameter. *)

From stdpp Require Import prelude base strings list gmap pretty.
From Stdlib Require Import ZArith Ascii.
From S2P Require Import Prelude PyTime PyText Consumption Enrollment Authority.
#[local] Open Scope Z_scope.
#[local] Open Scope string_scope.

Inductive LeaseError :=
| LeaseViolationError (reason : string)
| SameKeyError                    (** [ValueError] of [rotate] *)
| SignatureTypeError.             (** [compare_digest] of a non-ASCII [str] *)

Record SigningKeyRing := { kr_current_key : string; kr_generation : Z }.

Record LeaseRequest := {
  lr_capability : string;
  lr_worker_id : string;
  lr_actor : string;
  lr_correlation_id : string;
  lr_idempotency_key : string;
}.

Record LeaseVerification := {
  lv_lease_id : string;
  lv_proposal_id : string;
  lv_capability : string;
  lv_worker_id : string;
  lv_verified_at : Z;
}.

Record LeaseIssuer := {
  li_keys : SigningKeyRing;
  li_lease_ttl : Z;
  li_consumed : gset string;
}.

Section leases.
Context (sha256 : string → string) (hmac : string → string → string).

Definition rotate (new_key : string) : comp SigningKeyRing LeaseError unit := λ ring,
  if String.eqb new_key (kr_current_key ring) then (ring, Err SameKeyError)
  else ({| kr_current_key := new_key; kr_generation := kr_generation ring + 1 |}, Ok tt).

Definition sign (ring : SigningKeyRing) (payload : string) : string :=
  tohex (hmac (kr_current_key ring) payload).

Definition verify_signature (ring : SigningKeyRing) (payload signature : string) :
    result LeaseError bool :=
  let expected := tohex (hmac (kr_current_key ring) payload) in
  match compare_digest signature expected with
  | Some equal => Ok equal
  | None => Err SignatureTypeError
  end.

Definition lease_text (t : Z) : string := isoformat (utc_datetime t).

(** The ten signed fields of a lease. *)
Definition signed_fields (f : PayloadBoundFact) (capability worker_id : string) : list string :=
  [ fa_fact_id f; fa_proposal_id f; fa_payload_hash f; capability; worker_id;
    lease_text (fa_issued_at f); lease_text (fa_expires_at f);
    fa_idempotency_key f; fa_actor f; fa_correlation_id f ].

Definition _lease_payload (lease : CapabilityLease) : string :=
  join unit_separator (signed_fields (le_fact lease) (le_capability lease) (le_worker_id lease)).

Definition issue (now : Z) (fact_id : string) (proposal : ProposalRecord) (request : LeaseRequest)
    (issuer : LeaseIssuer) : result LeaseError CapabilityLease :=
  if negb (bool_decide (pr_state proposal = APPROVED)) then
    Err (LeaseViolationError ("cannot lease proposal in state " +:+ state_value (pr_state proposal)))
  else
    let f := {| fa_fact_id := fact_id; fa_proposal_id := pr_proposal_id proposal;
                fa_payload_hash := payload_hash sha256 proposal;
                fa_issued_at := now; fa_expires_at := now + li_lease_ttl issuer;
                fa_idempotency_key := lr_idempotency_key request; fa_actor := lr_actor request;
                fa_correlation_id := lr_correlation_id request |} in
    let fields := signed_fields f (lr_capability request) (lr_worker_id request) in
    Ok {| le_fact := f; le_capability := lr_capability request;
          le_worker_id := lr_worker_id request;
          le_signature := sign (li_keys issuer) (join unit_separator fields) |}.

Definition verify (now : Z) (lease : CapabilityLease) (proposal : ProposalRecord) :
    comp LeaseIssuer LeaseError LeaseVerification := λ issuer,
  let f := le_fact lease in
  match verify_signature (li_keys issuer) (_lease_payload lease) (le_signature lease) with
  | Err e => (issuer, Err e)
  | Ok false => (issuer, Err (LeaseViolationError "lease signature is invalid (forged or key rotated)"))
  | Ok true =>
      if negb (String.eqb (fa_proposal_id f) (pr_proposal_id proposal)) then
        (issuer, Err (LeaseViolationError "lease proposal id does not match"))
      else if negb (String.eqb (fa_payload_hash f) (payload_hash sha256 proposal)) then
        (issuer, Err (LeaseViolationError "lease payload hash does not match proposal"))
      else if (fa_expires_at f <=? now)%Z then
        (issuer, Err (LeaseViolationError "lease has expired"))
      else if bool_decide (fa_fact_id f ∈ li_consumed issuer) then
        (issuer, Err (LeaseViolationError "lease replay"))
      else
        ({| li_keys := li_keys issuer; li_lease_ttl := li_lease_ttl issuer;
            li_consumed := {[fa_fact_id f]} ∪ li_consumed issuer |},
         Ok {| lv_lease_id := fa_fact_id f; lv_proposal_id := fa_proposal_id f;
               lv_capability := le_capability lease; lv_worker_id := le_worker_id lease;
               lv_verified_at := now |})
  end.

(** ** Facts *)

Lemma verify_signature_sign ring payload key :
  verify_signature ring payload (tohex (hmac key payload))
  = Ok (String.eqb (hmac key payload) (hmac (kr_current_key ring) payload)).
Proof. unfold verify_signature. by rewrite compare_digest_hex. Qed.

(** The lease [issue] returns carries a signature over its own payload. *)
Lemma issue_ok now fact_id proposal request issuer lease :
  issue now fact_id proposal request issuer = Ok lease →
  pr_state proposal = APPROVED
  ∧ le_signature lease = sign (li_keys issuer) (_lease_payload lease)
  ∧ fa_fact_id (le_fact lease) = fact_id
  ∧ fa_proposal_id (le_fact lease) = pr_proposal_id proposal
  ∧ fa_payload_hash (le_fact lease) = payload_hash sha256 proposal
  ∧ fa_expires_at (le_fact lease) = now + li_lease_ttl issuer.
Proof. unfold issue. case_bool_decide; simpl; [|done]. by intros [= <-]. Qed.

(** A lease is good exactly once and only in time: a lease issued for an
    approved proposal verifies at any instant before its expiry with the key it
    was signed with, and from then on the same lease is never verified again,
    at any instant and for any proposal. *)
Theorem lease_verifies_once now now' fact_id proposal request issuer lease :
  issue now fact_id proposal request issuer = Ok lease →
  fact_id ∉ li_consumed issuer → now' < now + li_lease_ttl issuer →
  ∃ issuer',
    verify now' lease proposal issuer
    = (issuer', Ok {| lv_lease_id := fact_id; lv_proposal_id := pr_proposal_id proposal;
                      lv_capability := lr_capability request;
                      lv_worker_id := lr_worker_id request; lv_verified_at := now' |})
    ∧ (∀ later other, is_ok (verify later lease other issuer').2 = false
                      ∧ (verify later lease other issuer').1 = issuer').
Proof.
  intros Hi Hfresh Ht. pose proof (issue_ok _ _ _ _ _ _ Hi) as (Hst & Hsig & Hf & Hp & Hh & He).
  unfold issue in Hi. rewrite Hst in Hi. injection Hi as <-. simpl in *.
  eexists. split.
  - unfold verify. simpl. unfold sign. rewrite verify_signature_sign, String.eqb_refl. simpl.
    rewrite !String.eqb_refl. simpl. rewrite (proj2 (Z.leb_gt _ _)) by lia.
    rewrite bool_decide_false by done. done.
  - intros later other. unfold verify. simpl.
    destruct (verify_signature _ _ _) as [[]|]; [|done|done].
    destruct (negb _); [done|]. destruct (negb _); [done|]. destruct (_ <=? _)%Z; [done|].
    rewrite bool_decide_true; [done|]. set_solver.
Qed.

(** Rotation fails closed: once the ring rotates to a key whose HMAC of the
    lease payload differs, a lease signed before is refused as forged, whatever
    the proposal and the time. *)
Theorem rotation_invalidates_leases now fact_id proposal request issuer lease new_key ring later other :
  issue now fact_id proposal request issuer = Ok lease →
  rotate new_key (li_keys issuer) = (ring, Ok tt) →
  hmac new_key (_lease_payload lease) ≠ hmac (kr_current_key (li_keys issuer)) (_lease_payload lease) →
  kr_generation ring = kr_generation (li_keys issuer) + 1 ∧
  (verify later lease other
     {| li_keys := ring; li_lease_ttl := li_lease_ttl issuer;
        li_consumed := li_consumed issuer |}).2
  = Err (LeaseViolationError "lease signature is invalid (forged or key rotated)").
Proof.
  intros (Hst & Hsig & _)%issue_ok Hr Hne. unfold rotate in Hr.
  destruct (String.eqb new_key _); [done|]. injection Hr as <-. split; [done|].
  unfold verify. simpl. rewrite Hsig. unfold sign. rewrite verify_signature_sign. simpl.
  destruct (String.eqb _ _) eqn:E; [|done]. bool_to_prop. congruence.
Qed.
End leases.

Module Worker.
Definition issuer : LeaseIssuer :=
  {| li_keys := {| kr_current_key := "k0"; kr_generation := 0 |}; li_lease_ttl := 60;
     li_consumed := ∅ |}.
Definition proposal : ProposalRecord :=
  {| pr_proposal_id := "p1"; pr_action_class := "worker.execute"; pr_payload := "run";
     pr_state := APPROVED; pr_created_at := 0 |}.
Definition request : LeaseRequest :=
  {| lr_capability := "mail"; lr_worker_id := "w1"; lr_actor := "owner";
     lr_correlation_id := "c"; lr_idempotency_key := "i" |}.
Definition hash (s : string) : string := "#" +:+ s.
Definition mac (key payload : string) : string := key +:+ payload.
Definition lease : CapabilityLease :=
  {| le_fact := {| fa_fact_id := "f1"; fa_proposal_id := "p1"; fa_payload_hash := "#run";
                   fa_issued_at := 10; fa_expires_at := 70; fa_idempotency_key := "i";
                   fa_actor := "owner"; fa_correlation_id := "c" |};
     le_capability := "mail"; le_worker_id := "w1";
     le_signature := sign mac (li_keys issuer) (join unit_separator
       [ "f1"; "p1"; "#run"; "mail"; "w1"; lease_text 10; lease_text 70; "i"; "owner"; "c" ]) |}.
End Worker.

Lemma lease_verifies_once_witness :
  ∃ issuer', verify Worker.hash Worker.mac 20 Worker.lease Worker.proposal Worker.issuer
    = (issuer', Ok {| lv_lease_id := "f1"; lv_proposal_id := "p1"; lv_capability := "mail";
                      lv_worker_id := "w1"; lv_verified_at := 20 |})
    ∧ ∀ later other, is_ok (verify Worker.hash Worker.mac later Worker.lease other issuer').2 = false
        ∧ (verify Worker.hash Worker.mac later Worker.lease other issuer').1 = issuer'.
Proof.
  apply (lease_verifies_once Worker.hash Worker.mac 10 20 "f1" Worker.proposal Worker.request
           Worker.issuer Worker.lease).
  - vm_compute. reflexivity.
  - set_solver.
  - reflexivity.
Defined.

Lemma rotation_invalidates_leases_witness :
  (verify Worker.hash Worker.mac 20 Worker.lease Worker.proposal
     {| li_keys := {| kr_current_key := "k1"; kr_generation := 1 |}; li_lease_ttl := 60;
        li_consumed := ∅ |}).2
  = Err (LeaseViolationError "lease signature is invalid (forged or key rotated)").
Proof.
  apply (rotation_invalidates_leases Worker.hash Worker.mac 10 "f1" Worker.proposal Worker.request
           Worker.issuer Worker.lease "k1").
  - vm_compute. reflexivity.
  - reflexivity.
  - vm_compute. discriminate.
Defined.

(** The signed payload of a lease is ambiguous: fields are joined with a
    separator they may contain, so whatever the MAC and the key, a lease whose
    capability and worker were re-split verifies under the signature of the
    lease that was really issued. *)
Theorem lease_signature_survives_resplit (sha256 : string → string) (hmac : string → string → string) :
  ∃ issuer proposal request lease forged,
    issue sha256 hmac 10 "f1" proposal request issuer = Ok lease
    ∧ le_signature forged = le_signature lease
    ∧ le_capability forged ≠ le_capability lease ∧ le_worker_id forged ≠ le_worker_id lease
    ∧ is_ok (verify sha256 hmac 20 forged proposal issuer).2 = true.
Proof.
  pose (request := {| lr_capability := "mail"; lr_worker_id := "read" +:+ unit_separator +:+ "w1";
    lr_actor := "owner"; lr_correlation_id := "c"; lr_idempotency_key := "i" |}).
  destruct (issue sha256 hmac 10 "f1" Worker.proposal request Worker.issuer) as [lease|e] eqn:Hi;
    [|discriminate Hi].
  pose proof (issue_ok _ _ _ _ _ _ _ _ Hi) as (_ & Hsig & _).
  exists Worker.issuer, Worker.proposal, request, lease.
  exists {| le_fact := le_fact lease; le_capability := "mail" +:+ unit_separator +:+ "read";
            le_worker_id := "w1"; le_signature := le_signature lease |}.
  injection Hi as <-. split_and!; [done|done|done|done|].
  unfold verify. cbn [le_fact le_signature fa_proposal_id fa_payload_hash fa_expires_at fa_fact_id].
  replace (_lease_payload _) with (join unit_separator (signed_fields
    {| fa_fact_id := "f1"; fa_proposal_id := pr_proposal_id Worker.proposal;
       fa_payload_hash := payload_hash sha256 Worker.proposal; fa_issued_at := 10;
       fa_expires_at := 10 + li_lease_ttl Worker.issuer; fa_idempotency_key := "i";
       fa_actor := "owner"; fa_correlation_id := "c" |} "mail"
    ("read" +:+ unit_separator +:+ "w1"))) by reflexivity.
  unfold sign. rewrite verify_signature_sign, !String.eqb_refl. done.
Qed.
