(* ===== verification/AuditLedger.v ===== *)
(** * The HMAC-chained audit ledger ([audit.py], [ledger.py])

    The [audit_entries] table is its list of rows in the order of its integer
    primary key [sequence], next to the single [audit_chain_anchor] row.  HMAC-SHA256 and the audit key are
    parameters. *)

From stdpp Require Import prelude base strings list pretty.
From Stdlib Require Import ZArith Ascii.
From S2P Require Import Prelude PyTime PyText.
#[local] Open Scope Z_scope.
#[local] Open Scope string_scope.
#[local] Open Scope list_scope.

Inductive RecordKind :=
| IDENTITY | CONNECTOR | CAPABILITY | SOURCE_ITEM | NORMALIZED_FACT | TASK | EVENT | PROPOSAL
| APPROVAL | EXECUTION | ENERGY_CHECK_IN | GOAL | PATTERN_SNAPSHOT | CONSENT_RECORD.

#[export] Instance RecordKind_eq_dec : EqDecision RecordKind.
Proof. solve_decision. Defined.

Definition kind_value (k : RecordKind) : string :=
  match k with
  | IDENTITY => "identity" | CONNECTOR => "connector" | CAPABILITY => "capability"
  | SOURCE_ITEM => "source_item" | NORMALIZED_FACT => "normalized_fact" | TASK => "task"
  | EVENT => "event" | PROPOSAL => "proposal" | APPROVAL => "approval"
  | EXECUTION => "execution" | ENERGY_CHECK_IN => "energy_check_in" | GOAL => "goal"
  | PATTERN_SNAPSHOT => "pattern_snapshot" | CONSENT_RECORD => "consent_record"
  end.

Record AuditEntry := {
  ae_sequence : Z;
  ae_occurred_at : datetime;
  ae_action_class : string;
  ae_record_kind : RecordKind;
  ae_record_id : string;
  ae_actor : string;
  ae_correlation_id : string;
  ae_source_fingerprint : string;
  ae_action_metadata : string;
  ae_previous_hash : string;
  ae_entry_hash : string;
}.

(** Attribution attached to every state change. *)
Record TransitionContext := {
  tc_actor : string;
  tc_correlation_id : string;
  tc_occurred_at : datetime;
}.

Record AuditMutation := {
  am_record_kind : RecordKind;
  am_record_id : string;
  am_state : string;
  am_action_class : string;
  am_source_fingerprint : string;
  am_actor : string;
  am_correlation_id : string;
  am_occurred_at : datetime;
}.

Record AuditVerification := { ver_entries_verified : Z; ver_final_hash : string }.

Inductive AuditError :=
| AuditTamperError (sequence : Z)
| AuditIntegrityError           (** duplicate primary key *)
| DigestTypeError.              (** [compare_digest] of a non-ASCII hash *)

(** The fields [audit_payload] joins. *)
Definition audit_fields (e : AuditEntry) : list string :=
  [ pretty (ae_sequence e); isoformat (ae_occurred_at e); ae_action_class e;
    kind_value (ae_record_kind e); ae_record_id e; ae_actor e; ae_correlation_id e;
    ae_source_fingerprint e; ae_action_metadata e; ae_previous_hash e ].

Definition audit_payload (e : AuditEntry) : string := join unit_separator (audit_fields e).

(** The encrypted tables. *)
Record audit_db := {
  db_entries : list AuditEntry;
  db_anchor : option (Z * string);
}.

Definition genesis_hash : string := join "" (replicate 64 "0").

(** The anchor row the schema migration inserts. *)
Definition empty_ledger : audit_db := {| db_entries := []; db_anchor := Some (0, genesis_hash) |}.

Section ledger.
Context (hmac : string → string → string) (audit_key : string).

Definition sign_entry (e : AuditEntry) : string := tohex (hmac audit_key (audit_payload e)).

(** [SELECT * FROM audit_entries ORDER BY sequence] *)
Definition entries (db : audit_db) : list AuditEntry := db_entries db.

(** [INSERT INTO audit_entries]: the row goes to the place of its key. *)
Definition insert_entry (e : AuditEntry) (table : list AuditEntry) :
    result AuditError (list AuditEntry) :=
  if existsb (λ old, ae_sequence old =? ae_sequence e)%Z table then Err AuditIntegrityError
  else Ok (py_insert (λ a b, ae_sequence a <? ae_sequence b)%Z e table).

(** The last row, or the anchor when there is none. *)
Definition chain_head (db : audit_db) : option (Z * string) :=
  match last (entries db) with
  | Some e => Some (ae_sequence e, ae_entry_hash e)
  | None => db_anchor db
  end.

Definition state_metadata (state : string) : string :=
  "{" +:+ json_string "state" +:+ ":" +:+ json_string state +:+ "}".

Definition unsigned_entry (m : AuditMutation) (sequence : Z) (previous_hash : string) : AuditEntry :=
  {| ae_sequence := sequence; ae_occurred_at := am_occurred_at m;
     ae_action_class := am_action_class m; ae_record_kind := am_record_kind m;
     ae_record_id := am_record_id m; ae_actor := am_actor m;
     ae_correlation_id := am_correlation_id m; ae_source_fingerprint := am_source_fingerprint m;
     ae_action_metadata := state_metadata (am_state m); ae_previous_hash := previous_hash;
     ae_entry_hash := "" |}.

Definition with_hash (e : AuditEntry) (hash : string) : AuditEntry :=
  {| ae_sequence := ae_sequence e; ae_occurred_at := ae_occurred_at e;
     ae_action_class := ae_action_class e; ae_record_kind := ae_record_kind e;
     ae_record_id := ae_record_id e; ae_actor := ae_actor e;
     ae_correlation_id := ae_correlation_id e; ae_source_fingerprint := ae_source_fingerprint e;
     ae_action_metadata := ae_action_metadata e; ae_previous_hash := ae_previous_hash e;
     ae_entry_hash := hash |}.

Definition append (m : AuditMutation) : comp audit_db AuditError unit := λ db,
  let row := chain_head db in
  let sequence := match row with None => 1 | Some r => r.1 + 1 end in
  let previous_hash := match row with None => genesis_hash | Some r => r.2 end in
  let unsigned := unsigned_entry m sequence previous_hash in
  let entry := with_hash unsigned (sign_entry unsigned) in
  match insert_entry entry (db_entries db) with
  | Ok table => ({| db_entries := table; db_anchor := db_anchor db |}, Ok tt)
  | Err e => (db, Err e)
  end.

(** [valid] of one entry: the comparisons short-circuit before the digests. *)
Definition entry_valid (expected_sequence : Z) (previous_hash : string) (e : AuditEntry) :
    result AuditError bool :=
  if ((ae_sequence e =? expected_sequence)%Z && String.eqb (ae_previous_hash e) previous_hash) then
    match compare_digest (ae_entry_hash e) (sign_entry e) with
    | Some equal => Ok equal
    | None => Err DigestTypeError
    end
  else Ok false.

Fixpoint verify_from (expected_sequence : Z) (previous_hash : string) (l : list AuditEntry) :
    result AuditError string :=
  match l with
  | [] => Ok previous_hash
  | e :: l' =>
      match entry_valid expected_sequence previous_hash e with
      | Err err => Err err
      | Ok false => Err (AuditTamperError expected_sequence)
      | Ok true => verify_from (expected_sequence + 1) (ae_entry_hash e) l'
      end
  end.

Definition anchor_sequence (db : audit_db) : Z :=
  match db_anchor db with None => 0 | Some a => a.1 end.
Definition anchor_hash (db : audit_db) : string :=
  match db_anchor db with None => genesis_hash | Some a => a.2 end.

Definition verify_ledger (db : audit_db) : result AuditError AuditVerification :=
  match verify_from (anchor_sequence db + 1) (anchor_hash db) (entries db) with
  | Ok final_hash => Ok {| ver_entries_verified := Z.of_nat (length (entries db));
                           ver_final_hash := final_hash |}
  | Err e => Err e
  end.

Definition expired_entries (cutoff : datetime) (db : audit_db) : list AuditEntry :=
  List.filter (λ e, dt_ltb (ae_occurred_at e) cutoff) (entries db).

(** The delete trigger is lifted between [authorize_delete] and [revoke_delete]. *)
Definition prune_before (cutoff : datetime) : comp audit_db AuditError Z := λ db,
  match verify_ledger db with
  | Err e => (db, Err e)
  | Ok _ =>
      let expired := expired_entries cutoff db in
      match last expired with
      | None => (db, Ok 0)
      | Some final =>
          ({| db_entries :=
                List.filter (λ e, negb (ae_sequence e <=? ae_sequence final)%Z) (db_entries db);
              db_anchor :=
                match db_anchor db with
                | Some _ => Some (ae_sequence final, ae_entry_hash final)
                | None => None
                end |}, Ok (Z.of_nat (length expired)))
      end
  end.

(** ** Verified chains *)

(** [l] continues the chain after sequence [n - 1] and hash [p], and ends in [h]. *)
Fixpoint chain (n : Z) (p : string) (l : list AuditEntry) (h : string) : Prop :=
  match l with
  | [] => h = p
  | e :: l' =>
      ae_sequence e = n ∧ ae_previous_hash e = p ∧ ae_entry_hash e = sign_entry e
      ∧ chain (n + 1) (ae_entry_hash e) l' h
  end.

Lemma compare_sign_entry e hash :
  compare_digest hash (sign_entry e) = Some true ↔ hash = sign_entry e.
Proof.
  split.
  - unfold compare_digest. destruct (_ && _); [|done]. intros [= Heq]. by apply String.eqb_eq.
  - intros ->. unfold sign_entry. by rewrite compare_digest_hex, String.eqb_refl.
Qed.

Lemma entry_valid_true n p e :
  entry_valid n p e = Ok true ↔
  ae_sequence e = n ∧ ae_previous_hash e = p ∧ ae_entry_hash e = sign_entry e.
Proof.
  unfold entry_valid. rewrite <- compare_sign_entry.
  destruct (ae_sequence e =? n)%Z eqn:Hs, (String.eqb (ae_previous_hash e) p) eqn:Hp; simpl;
    bool_to_prop; try (split; [done|]; tauto).
  destruct (compare_digest _ _) as [[]|]; split; try done; intros (_ & _ & ?); done.
Qed.

Lemma verify_from_chain n p l h : verify_from n p l = Ok h ↔ chain n p l h.
Proof.
  revert n p. induction l as [|e l IH]; intros n p; simpl; [naive_solver|].
  pose proof (entry_valid_true n p e) as Hv. rewrite <- IH.
  destruct (entry_valid n p e) as [[]|]; naive_solver.
Qed.

Lemma verify_ledger_chain db v :
  verify_ledger db = Ok v ↔
  chain (anchor_sequence db + 1) (anchor_hash db) (entries db) (ver_final_hash v)
  ∧ ver_entries_verified v = Z.of_nat (length (entries db)).
Proof.
  unfold verify_ledger. rewrite <- verify_from_chain.
  destruct (verify_from _ _ _) as [h|e]; [|naive_solver]. destruct v as [n h']. naive_solver.
Qed.

Lemma chain_app n p l1 l2 h :
  chain n p (l1 ++ l2) h ↔ ∃ mid, chain n p l1 mid ∧ chain (n + Z.of_nat (length l1)) mid l2 h.
Proof.
  revert n p. induction l1 as [|e l1 IH]; intros n p; simpl.
  - rewrite Z.add_0_r. naive_solver.
  - rewrite IH. replace (n + Z.of_nat (S (length l1))) with (n + 1 + Z.of_nat (length l1)) by lia.
    naive_solver.
Qed.

Lemma chain_sequence n p l h i e :
  chain n p l h → l !! i = Some e → ae_sequence e = n + Z.of_nat i.
Proof.
  revert n p i. induction l as [|x l IH]; intros n p [|i] Hc Hi; try done; simpl in *.
  - injection Hi as ->. destruct Hc as [-> _]. lia.
  - destruct Hc as (_ & _ & _ & Hc). rewrite (IH _ _ _ Hc Hi). lia.
Qed.

Lemma chain_sequence_bounds n p l h e :
  chain n p l h → e ∈ l → n ≤ ae_sequence e < n + Z.of_nat (length l).
Proof.
  intros Hc (i & Hi)%list_elem_of_lookup. rewrite (chain_sequence _ _ _ _ _ _ Hc Hi).
  apply lookup_lt_Some in Hi. lia.
Qed.

(** The head of a chain, from which the next entry continues. *)
Lemma chain_head_spec db h :
  chain (anchor_sequence db + 1) (anchor_hash db) (entries db) h →
  is_Some (db_anchor db) →
  chain_head db = Some (anchor_sequence db + Z.of_nat (length (entries db)), h).
Proof.
  intros Hc [a Ha]. unfold chain_head. destruct (last (entries db)) as [e|] eqn:Hl.
  - apply last_Some in Hl as [l' Hl]. rewrite Hl in *. apply chain_app in Hc as (mid & _ & Hc).
    destruct Hc as (Hs & _ & _ & Hh). simpl in Hh. rewrite length_app, Hh. simpl. do 2 f_equal. lia.
  - apply last_None in Hl. rewrite Hl in *. simpl in *. subst h.
    unfold anchor_sequence, anchor_hash. rewrite Ha. destruct a. simpl. by rewrite Z.add_0_r.
Qed.

Lemma insert_entry_last n p l h e :
  chain n p l h → ae_sequence e = n + Z.of_nat (length l) → insert_entry e l = Ok (l ++ [e]).
Proof.
  intros Hc Hs. unfold insert_entry.
  assert (∀ y, y ∈ l → ae_sequence y < ae_sequence e) as Hlt.
  { intros y Hy. pose proof (chain_sequence_bounds _ _ _ _ _ Hc Hy). lia. }
  destruct (existsb _ l) eqn:E.
  - apply existsb_exists in E as (y & Hy & Heq). apply list_elem_of_In in Hy.
    apply Hlt in Hy. bool_to_prop. lia.
  - rewrite py_insert_last; [done|]. intros y Hy. apply Z.ltb_lt. by apply Hlt.
Qed.

(** The entry [append] writes. *)
Definition appended (m : AuditMutation) (db : audit_db) (h : string) : AuditEntry :=
  let unsigned := unsigned_entry m (anchor_sequence db + Z.of_nat (length (entries db)) + 1) h in
  with_hash unsigned (sign_entry unsigned).

Lemma append_spec m db h :
  chain (anchor_sequence db + 1) (anchor_hash db) (entries db) h → is_Some (db_anchor db) →
  append m db = ({| db_entries := entries db ++ [appended m db h]; db_anchor := db_anchor db |},
                 Ok tt).
Proof.
  intros Hc Ha. unfold append. rewrite (chain_head_spec db h Hc Ha). cbn [fst snd].
  erewrite insert_entry_last; [done|exact Hc|]. simpl. unfold entries. lia.
Qed.

(** On a verified ledger [append] succeeds and the ledger verifies again. *)
Lemma append_verified m db v :
  verify_ledger db = Ok v → is_Some (db_anchor db) →
  let e := appended m db (ver_final_hash v) in
  let db' := {| db_entries := entries db ++ [e]; db_anchor := db_anchor db |} in
  append m db = (db', Ok tt)
  ∧ verify_ledger db' = Ok {| ver_entries_verified := ver_entries_verified v + 1;
                              ver_final_hash := ae_entry_hash e |}.
Proof.
  intros [Hc Hn]%verify_ledger_chain Ha. cbv zeta.
  rewrite (append_spec m db _ Hc Ha). split; [done|].
  apply verify_ledger_chain. cbn [entries db_entries ver_final_hash ver_entries_verified]. split.
  - apply chain_app. exists (ver_final_hash v). split; [done|]. unfold appended, entries in *. simpl.
    split_and!; [unfold anchor_sequence; simpl; lia|done..].
  - rewrite length_app, Hn. simpl. lia.
Qed.

(** Appending extends the chain: on a ledger that verifies, an append always
    succeeds, keeps every earlier entry and the anchor, and gives a ledger that
    verifies with one more entry, whose hash is the new final hash. *)
Theorem append_extends_chain m db v :
  verify_ledger db = Ok v → is_Some (db_anchor db) →
  ∃ e, append m db = ({| db_entries := entries db ++ [e]; db_anchor := db_anchor db |}, Ok tt)
    ∧ ae_previous_hash e = ver_final_hash v ∧ ae_actor e = am_actor m
    ∧ ae_record_id e = am_record_id m
    ∧ verify_ledger {| db_entries := entries db ++ [e]; db_anchor := db_anchor db |}
      = Ok {| ver_entries_verified := ver_entries_verified v + 1;
              ver_final_hash := ae_entry_hash e |}.
Proof.
  intros Hv Ha. exists (appended m db (ver_final_hash v)).
  destruct (append_verified m db v Hv Ha). by split_and!.
Qed.

(** ** Pruning *)

Lemma chain_drop n p l1 x l2 h :
  chain n p (l1 ++ x :: l2) h →
  List.filter (λ e, negb (ae_sequence e <=? ae_sequence x)%Z) (l1 ++ x :: l2) = l2
  ∧ chain (ae_sequence x + 1) (ae_entry_hash x) l2 h.
Proof.
  intros (mid & Hc1 & Hs & _ & _ & Hc2)%chain_app. rewrite Hs. split; [|done].
  rewrite List.filter_app. simpl. rewrite Hs, Z.leb_refl. simpl. rewrite filter_none, filter_every.
  - done.
  - intros e He. pose proof (chain_sequence_bounds _ _ _ _ _ Hc2 He).
    apply negb_true_iff, Z.leb_gt. lia.
  - intros e He. pose proof (chain_sequence_bounds _ _ _ _ _ Hc1 He).
    apply negb_false_iff, Z.leb_le. lia.
Qed.

(** Pruning keeps the ledger verifiable: on a ledger that verifies,
    [prune_before] removes a prefix that ends in the last expired entry, keeps
    no expired entry, returns how many expired entries were in that prefix, and
    leaves a ledger that verifies from its new anchor to the same final hash. *)
Theorem prune_keeps_chain cutoff db v :
  verify_ledger db = Ok v → is_Some (db_anchor db) →
  ∃ removed kept db',
    entries db = removed ++ kept
    ∧ prune_before cutoff db
      = (db', Ok (Z.of_nat (length (List.filter (λ e, dt_ltb (ae_occurred_at e) cutoff) removed))))
    ∧ entries db' = kept
    ∧ (∀ e, e ∈ kept → dt_ltb (ae_occurred_at e) cutoff = false)
    ∧ (∀ e, last removed = Some e → dt_ltb (ae_occurred_at e) cutoff = true)
    ∧ verify_ledger db' = Ok {| ver_entries_verified := Z.of_nat (length kept);
                                ver_final_hash := ver_final_hash v |}.
Proof.
  intros Hv [a Ha]. unfold prune_before. rewrite Hv.
  apply verify_ledger_chain in Hv as [Hc Hn]. unfold expired_entries.
  destruct (last (List.filter _ (entries db))) as [final|] eqn:Hl.
  - apply last_filter in Hl as (l1 & l2 & Hl & Hx & Hnone). rewrite Hl in *.
    destruct (chain_drop _ _ _ _ _ _ Hc) as [Hf Hc']. unfold entries in Hl. rewrite Hl, Hf, Ha.
    exists (l1 ++ [final]), l2. eexists. split_and!.
    + by rewrite <- app_assoc.
    + do 2 f_equal. rewrite !List.filter_app. simpl. rewrite Hx.
      rewrite (filter_none _ l2) by done. done.
    + done.
    + done.
    + intros e. rewrite last_snoc. by intros [= <-].
    + apply verify_ledger_chain. done.
  - apply last_None in Hl. exists [], (entries db), db. split_and!; try done.
    + intros e He. destruct (dt_ltb _ cutoff) eqn:E; [|done].
      assert (In e (List.filter (λ e, dt_ltb (ae_occurred_at e) cutoff) (entries db))) as Hin
        by (apply filter_In; by rewrite <- list_elem_of_In).
      by rewrite Hl in Hin.
    + apply verify_ledger_chain. by rewrite <- Hn.
Qed.

(** ** Tamper evidence *)

Definition separator_free (e : AuditEntry) : bool :=
  forallb (free_of (ascii_of_nat 31)) (audit_fields e).

Lemma audit_payload_inj e e' :
  separator_free e = true → separator_free e' = true →
  audit_payload e = audit_payload e' → audit_fields e = audit_fields e'.
Proof.
  unfold separator_free. rewrite !forallb_forall. intros He He' Heq.
  apply (join_inj (ascii_of_nat 31)); [done|by apply List.Forall_forall..|done].
Qed.

Lemma sign_entry_inj e e' :
  (∀ m m', hmac audit_key m = hmac audit_key m' → m = m') →
  separator_free e = true → separator_free e' = true →
  sign_entry e = sign_entry e' → audit_fields e = audit_fields e'.
Proof.
  intros Hh He He' Heq. apply tohex_inj, Hh in Heq. by apply audit_payload_inj.
Qed.

Lemma chain_determined l l' n p h :
  (∀ m m', hmac audit_key m = hmac audit_key m' → m = m') →
  Forall (λ e, separator_free e = true) l → Forall (λ e, separator_free e = true) l' →
  length l = length l' → chain n p l h → chain n p l' h →
  map audit_fields l = map audit_fields l' ∧ map ae_entry_hash l = map ae_entry_hash l'.
Proof.
  intros Hh. revert l' h. induction l as [|e l IH] using rev_ind; intros l' h Hf Hf' Hlen Hc Hc'.
  { by destruct l'. }
  destruct l' as [|e' l' _] using rev_ind; [rewrite length_app in Hlen; simpl in Hlen; lia|].
  rewrite !length_app in Hlen. simpl in Hlen.
  apply Forall_app in Hf as [Hf He], Hf' as [Hf' He'].
  rewrite Forall_singleton in He, He'.
  apply chain_app in Hc as (mid & Hc & _ & Hp & Hs & Hh1).
  apply chain_app in Hc' as (mid' & Hc' & _ & Hp' & Hs' & Hh1'). simpl in Hh1, Hh1'.
  assert (audit_fields e = audit_fields e') as Hfe by (apply (sign_entry_inj e e' Hh He He'); congruence).
  assert (mid = mid') as <-.
  { rewrite <- Hp, <- Hp'. apply (f_equal last) in Hfe. by injection Hfe. }
  destruct (IH l' mid Hf Hf') as [IH1 IH2]; [lia|done|done|].
  rewrite !map_app, IH1, IH2. simpl. rewrite Hfe. split; [done|]. do 2 f_equal. congruence.
Qed.

(** The ledger is tamper-evident: with a collision-free MAC and fields free
    of the separator, two ledgers with the same anchor whose verifications
    report the same count and final hash hold the same entries, field by field
    and hash by hash, so any edit, reorder, insertion or deletion that leaves
    count and final hash alone fails to verify. *)
Theorem verified_ledger_determined db db' v :
  (∀ m m', hmac audit_key m = hmac audit_key m' → m = m') →
  forallb separator_free (entries db) = true → forallb separator_free (entries db') = true →
  db_anchor db = db_anchor db' →
  verify_ledger db = Ok v → verify_ledger db' = Ok v →
  map audit_fields (entries db) = map audit_fields (entries db')
  ∧ map ae_entry_hash (entries db) = map ae_entry_hash (entries db').
Proof.
  intros Hh Hf Hf' Ha [Hc Hn]%verify_ledger_chain [Hc' Hn']%verify_ledger_chain.
  unfold anchor_sequence, anchor_hash in *. rewrite <- Ha in Hc'.
  rewrite forallb_forall in Hf, Hf'.
  eapply chain_determined; [done|by apply List.Forall_forall..|lia|exact Hc|exact Hc'].
Qed.
End ledger.

(** ** A concrete ledger *)

Module Trail.
Definition mac (key payload : string) : string := key +:+ payload.
Definition event (actor correlation : string) (t : Z) : AuditMutation :=
  {| am_record_kind := TASK; am_record_id := "r1"; am_state := "open"; am_action_class := "create";
     am_source_fingerprint := ""; am_actor := actor; am_correlation_id := correlation;
     am_occurred_at := utc_datetime t |}.
Definition ledger : audit_db :=
  (append mac "k" (event "owner" "c2" 100) (append mac "k" (event "owner" "c1" 50)
     empty_ledger).1).1.
Definition summary : AuditVerification :=
  {| ver_entries_verified := 2;
     ver_final_hash := match chain_head ledger with Some r => r.2 | None => "" end |}.
End Trail.

Lemma ledger_verifies : verify_ledger Trail.mac "k" Trail.ledger = Ok Trail.summary.
Proof. vm_compute. reflexivity. Qed.

Lemma append_extends_chain_witness :
  ∃ e, append Trail.mac "k" (Trail.event "voice" "c3" 120) Trail.ledger
       = ({| db_entries := entries Trail.ledger ++ [e]; db_anchor := db_anchor Trail.ledger |},
          Ok tt).
Proof.
  destruct (append_extends_chain Trail.mac "k" (Trail.event "voice" "c3" 120) Trail.ledger
              Trail.summary ledger_verifies) as (e & He & _); [by eexists|].
  by exists e.
Defined.

Lemma prune_keeps_chain_witness :
  (prune_before Trail.mac "k" (utc_datetime 80) Trail.ledger).2 = Ok 1
  ∧ ∃ db', (prune_before Trail.mac "k" (utc_datetime 80) Trail.ledger).1 = db'
      ∧ is_ok (verify_ledger Trail.mac "k" db') = true.
Proof.
  split; [vm_compute; reflexivity|].
  destruct (prune_keeps_chain Trail.mac "k" (utc_datetime 80) Trail.ledger Trail.summary
              ledger_verifies) as (rem & kept & db' & _ & -> & _ & _ & _ & Hv); [by eexists|].
  exists db'. by rewrite Hv.
Defined.

Lemma verified_ledger_determined_witness :
  map audit_fields (entries Trail.ledger) = map audit_fields (entries Trail.ledger).
Proof.
  refine (proj1 (verified_ledger_determined Trail.mac "k" Trail.ledger Trail.ledger Trail.summary
    _ _ _ eq_refl ledger_verifies ledger_verifies)).
  - intros m m'. apply append_inj_l.
  - vm_compute. reflexivity.
  - vm_compute. reflexivity.
Defined.

(** The audit payload is ambiguous: fields are joined with a separator they
    may contain, so under any MAC and key a row whose actor and correlation
    were re-split verifies with the same summary as the row that was appended. *)
Theorem audit_resplit_verifies (hmac : string → string → string) (key : string) :
  ∃ m db' v,
    map ae_actor (entries (append hmac key m empty_ledger).1) ≠ map ae_actor (entries db')
    ∧ verify_ledger hmac key (append hmac key m empty_ledger).1 = Ok v
    ∧ verify_ledger hmac key db' = Ok v.
Proof.
  pose (m := Trail.event ("owner" +:+ unit_separator +:+ "x") "c" 5).
  pose (e := unsigned_entry m 1 genesis_hash).
  pose (e' := unsigned_entry (Trail.event "owner" ("x" +:+ unit_separator +:+ "c") 5) 1 genesis_hash).
  exists m, {| db_entries := [with_hash e' (sign_entry hmac key e)];
               db_anchor := Some (0, genesis_hash) |},
    {| ver_entries_verified := 1; ver_final_hash := sign_entry hmac key e |}.
  split; [discriminate|].
  split; apply verify_ledger_chain; (split; [split_and!|]); try reflexivity.
Qed.

(** Pruning can drop entries that have not expired: when a later entry
    carries an earlier time, [prune_before] deletes everything up to it, an
    unexpired entry included, and its count covers only the expired ones. *)
Theorem prune_drops_unexpired :
  ∃ db cutoff db' e,
    is_ok (verify_ledger Trail.mac "k" db) = true
    ∧ e ∈ entries db ∧ dt_ltb (ae_occurred_at e) cutoff = false
    ∧ prune_before Trail.mac "k" cutoff db = (db', Ok 1)
    ∧ length (entries db) = 2%nat ∧ entries db' = [].
Proof.
  pose (db := (append Trail.mac "k" (Trail.event "owner" "c2" 1)
                 (append Trail.mac "k" (Trail.event "owner" "c1" 100) empty_ledger).1).1).
  pose (r := prune_before Trail.mac "k" (utc_datetime 50) db).
  exists db, (utc_datetime 50), r.1.
  destruct (entries db) as [|e l] eqn:He; [discriminate He|]. exists e.
  split_and!.
  - vm_compute. reflexivity.
  - set_solver.
  - injection He as <- _. vm_compute. reflexivity.
  - etransitivity; [apply surjective_pairing|]. f_equal.
  - rewrite <- He. vm_compute. reflexivity.
  - vm_compute. reflexivity.
Qed.
