(* ===== verification/Calendar.v ===== *)
(** * The Google Calendar boundary ([google_calendar_contract.py],
    [google_calendar_errors.py], [google_calendar_operations.py], [google_calendar.py])

    The transport the adapter mutates through is a class; the adapter is
    written against it.  SHA-256, the JSON form of a datetime and the access
    token are parameters. *)

From stdpp Require Import prelude base strings list gmap pretty.
From Stdlib Require Import ZArith Ascii.
From S2P Require Import Prelude PyTime PyText Consumption Enrollment Authority.
#[local] Open Scope Z_scope.
#[local] Open Scope string_scope.
#[local] Open Scope list_scope.

(** ** Failures *)

Inductive CalendarError :=
| CalendarAuthorizationError (reason : string)
| CalendarContractError (reason : string)
| CalendarTransientError (reason : string)
| CalendarInterruptedError (reason : string)
| StaleSyncTokenError (reason : string)
| ProviderValueError             (** [int] of a malformed revision *)
| ProviderKeyError               (** a missing calendar or event *)
| RetryAssertionError.           (** the end of the retry loop *)

#[export] Instance CalendarError_eq_dec : EqDecision CalendarError.
Proof. solve_decision. Defined.

(** ** Records *)

Definition LIFEOS_PROPOSED_CALENDAR : string := "LifeOS Proposed".
Definition GOOGLE_CALENDAR_APP_SCOPE : string :=
  "https://www.googleapis.com/auth/calendar.app.created".

Record CalendarOAuthGrant := { og_secret_reference : string; og_scopes : list string }.

Definition require_least_scope (g : CalendarOAuthGrant) : bool :=
  bool_decide (og_scopes g = [GOOGLE_CALENDAR_APP_SCOPE]).

Record CalendarEventDraft := {
  ed_event_key : string;
  ed_summary : string;
  ed_starts_at : datetime;
  ed_ends_at : datetime;
}.

Definition key_char (c : ascii) : bool :=
  let n := nat_of_ascii c in
  (Nat.leb 97 n && Nat.leb n 122) || (Nat.leb 65 n && Nat.leb n 90)
  || (Nat.leb 48 n && Nat.leb n 57) || Nat.eqb n 95 || Nat.eqb n 45.

Fixpoint all_key_chars (s : string) : bool :=
  match s with EmptyString => true | String c s' => key_char c && all_key_chars s' end.

(** The [EventKey] constraint and [require_chronological_aware_times]. *)
Definition draft_valid (d : CalendarEventDraft) : bool :=
  Nat.leb 1 (String.length (ed_event_key d)) && Nat.leb (String.length (ed_event_key d)) 128
  && all_key_chars (ed_event_key d) && negb (String.eqb (ed_summary d) "")
  && aware (ed_starts_at d) && aware (ed_ends_at d)
  && dt_ltb (ed_starts_at d) (ed_ends_at d).

Section payload.
Context (dump_datetime : datetime → string).

Definition draft_fields (d : CalendarEventDraft) : list (string * string) :=
  [ ("ends_at", json_string (dump_datetime (ed_ends_at d)));
    ("event_key", json_string (ed_event_key d));
    ("starts_at", json_string (dump_datetime (ed_starts_at d)));
    ("summary", json_string (ed_summary d)) ].

Definition draft_json (d : CalendarEventDraft) : string :=
  "{" +:+ join "," (map json_field (draft_fields d)) +:+ "}".

Definition calendar_payload (events : list CalendarEventDraft) : string :=
  "[" +:+ join "," (map draft_json events) +:+ "]".
End payload.

Record CalendarPlan := {
  cp_authorization : ProposalRecord;
  cp_events : list CalendarEventDraft;
}.

Definition require_payload_binding (dump_datetime : datetime → string) (p : CalendarPlan) : bool :=
  String.eqb (pr_action_class (cp_authorization p)) "calendar.apply"
  && String.eqb (pr_payload (cp_authorization p)) (calendar_payload dump_datetime (cp_events p)).

Record CalendarOwnership := {
  ow_owner_id : string;
  ow_proposal_id : string;
  ow_payload_hash : string;
  ow_event_key : string;
}.

#[export] Instance CalendarOwnership_eq_dec : EqDecision CalendarOwnership.
Proof. solve_decision. Defined.

Record RemoteCalendar := {
  rc_calendar_id : string;
  rc_summary : string;
  rc_app_owned : bool;
  rc_primary : bool;
}.

Record RemoteEvent := {
  re_calendar_id : string;
  re_event_id : string;
  re_summary : string;
  re_starts_at : datetime;
  re_ends_at : datetime;
  re_ownership : option CalendarOwnership;
  re_revision : string;
  re_deleted : bool;
}.

#[export] Instance RemoteEvent_eq_dec : EqDecision RemoteEvent.
Proof. solve_decision. Defined.

Record CalendarSyncPage := {
  sp_events : list RemoteEvent;
  sp_next_sync_token : string;
  sp_full_sync : bool;
}.

Record CalendarWrite := { cw_calendar_id : string; cw_event : RemoteEvent }.
Record CalendarDelete := { cd_calendar_id : string; cd_event_id : string }.

Inductive CalendarOperation :=
| INSERT | UPDATE | NOOP | DELETE | EXTERNAL_EDIT | MISSING | CONFLICT.

#[export] Instance CalendarOperation_eq_dec : EqDecision CalendarOperation.
Proof. solve_decision. Defined.

Definition operation_value (o : CalendarOperation) : string :=
  match o with
  | INSERT => "insert" | UPDATE => "update" | NOOP => "noop" | DELETE => "delete"
  | EXTERNAL_EDIT => "external_edit" | MISSING => "missing" | CONFLICT => "conflict"
  end.

Record CalendarDiff := {
  df_operation : CalendarOperation;
  df_event_id : string;
  df_before_summary : option string;
  df_after_summary : option string;
}.

Record CalendarSyncState := {
  ss_calendar_id : option string;
  ss_next_sync_token : option string;
  ss_events : list RemoteEvent;
}.

Record CalendarPreview := { cv_calendar_summary : string; cv_operations : list CalendarDiff }.
Record CalendarApplyResult := {
  ar_operations : list CalendarDiff; ar_sync_state : CalendarSyncState; ar_attempts : Z }.
Record CalendarReconciliation := {
  cr_operations : list CalendarDiff; cr_sync_state : CalendarSyncState }.
Record CalendarRollbackResult := {
  rr_operations : list CalendarDiff; rr_sync_state : CalendarSyncState }.

Record CalendarAdapterConfig := {
  cfg_owner_id : string;
  cfg_oauth_grant : CalendarOAuthGrant;
  cfg_max_attempts : nat;
}.

(** ** The transport *)

Class GoogleCalendarTransport (T : Type) := {
  find_calendar : string → string → comp T CalendarError (option RemoteCalendar);
  create_calendar : string → string → comp T CalendarError RemoteCalendar;
  sync_events : string → string → option string → comp T CalendarError CalendarSyncPage;
  write_event : string → CalendarWrite → comp T CalendarError RemoteEvent;
  delete_event : string → CalendarDelete → comp T CalendarError unit;
}.

(** [KeychainOAuthTokenSource]: the connector secret, or an authorization failure. *)
Definition keychain_access_token (connector_secret : string → option string)
    (grant : CalendarOAuthGrant) : result CalendarError string :=
  match connector_secret (og_secret_reference grant) with
  | Some secret => Ok secret
  | None => Err (CalendarAuthorizationError "OAuth token is unavailable")
  end.

(** ** Deterministic event identity: unpadded lower-case base32hex of a digest *)

Definition bits_of_byte (c : ascii) : list bool :=
  match c with Ascii b0 b1 b2 b3 b4 b5 b6 b7 => [b7; b6; b5; b4; b3; b2; b1; b0] end.

Fixpoint bits_of_bytes (s : string) : list bool :=
  match s with EmptyString => [] | String c s' => bits_of_byte c ++ bits_of_bytes s' end.

Definition b32_char (bits : list bool) : ascii :=
  let n := foldl (λ acc b, 2 * acc + (if b : bool then 1 else 0))%nat 0%nat bits in
  ascii_of_nat (if Nat.ltb n 10 then 48 + n else 87 + n)%nat.

(** Groups of five bits; the last one is filled with zeros. *)
Fixpoint b32_groups (bits : list bool) : string :=
  match bits with
  | [] => ""
  | a :: b :: c :: d :: e :: rest => String (b32_char [a; b; c; d; e]) (b32_groups rest)
  | tail => String (b32_char (take 5 (tail ++ [false; false; false; false]))) ""
  end.

Definition b32hex (bytes : string) : string := b32_groups (bits_of_bytes bytes).

(** ** The adapter *)

Section adapter.
Context {T : Type} `{GoogleCalendarTransport T}.
(** SHA-256 as bytes and as a hexadecimal digest. *)
Context (sha256 : string → string) (sha256_hex : string → string).
Context (config : CalendarAdapterConfig).
(** [token_source.access_token(config.oauth_grant)] *)
Context (access_token : result CalendarError string).

Definition event_identity (event_key : string) : string :=
  "lifeos" +:+ b32hex (sha256 (cfg_owner_id config +:+ unit_separator +:+ event_key)).

Definition remote (plan : CalendarPlan) (draft : CalendarEventDraft) (calendar_id : string) :
    RemoteEvent :=
  {| re_calendar_id := calendar_id;
     re_event_id := event_identity (ed_event_key draft);
     re_summary := ed_summary draft;
     re_starts_at := ed_starts_at draft;
     re_ends_at := ed_ends_at draft;
     re_ownership := Some {| ow_owner_id := cfg_owner_id config;
                             ow_proposal_id := pr_proposal_id (cp_authorization plan);
                             ow_payload_hash := payload_hash sha256_hex (cp_authorization plan);
                             ow_event_key := ed_event_key draft |};
     re_revision := "pending"; re_deleted := false |}.

Definition same_content (found desired : RemoteEvent) : bool :=
  String.eqb (re_summary found) (re_summary desired)
  && dt_eqb (re_starts_at found) (re_starts_at desired)
  && dt_eqb (re_ends_at found) (re_ends_at desired).

Definition _operation (found : option RemoteEvent) (desired : RemoteEvent) (applying : bool) :
    result CalendarError CalendarOperation :=
  match found with
  | None => Ok (if applying then INSERT else MISSING)
  | Some found =>
      match re_ownership found with
      | None => Ok CONFLICT
      | Some ownership =>
          if negb (String.eqb (ow_owner_id ownership) (cfg_owner_id config)) then Ok CONFLICT
          else if same_content found desired
                  && bool_decide (re_ownership found = re_ownership desired)
          then Ok NOOP
          else match re_ownership desired with
               | None => Err (CalendarContractError "generated event is missing ownership")
               | Some wanted =>
                   if String.eqb (ow_payload_hash ownership) (ow_payload_hash wanted)
                   then Ok EXTERNAL_EDIT
                   else Ok (if applying then UPDATE else CONFLICT)
               end
      end
  end.

Definition events_by_id (l : list RemoteEvent) : gmap string RemoteEvent :=
  foldl (λ m e, <[re_event_id e := e]> m) ∅ l.

Definition diff_one (plan : CalendarPlan) (calendar_id : string)
    (current : gmap string RemoteEvent) (applying : bool) (draft : CalendarEventDraft) :
    result CalendarError CalendarDiff :=
  let desired := remote plan draft calendar_id in
  let found := current !! re_event_id desired in
  (let* operation := _operation found desired applying in
   Ok {| df_operation := operation; df_event_id := re_event_id desired;
         df_before_summary := re_summary <$> found;
         df_after_summary := Some (ed_summary draft) |})%py.

Fixpoint traverse {A B : Type} (f : A → result CalendarError B) (l : list A) :
    result CalendarError (list B) :=
  match l with
  | [] => Ok []
  | x :: l' => (let* y := f x in let* ys := traverse f l' in Ok (y :: ys))%py
  end.

Definition diff (plan : CalendarPlan) (state : CalendarSyncState) (applying : bool) :
    result CalendarError (list CalendarDiff) :=
  traverse (diff_one plan (str_or (ss_calendar_id state) "pending-app-calendar")
              (events_by_id (ss_events state)) applying) (cp_events plan).

Definition lift {A : Type} (r : result CalendarError A) : comp T CalendarError A := λ s, (s, r).

Definition write_accepted (calendar_id : string) (event result_ : RemoteEvent) : bool :=
  String.eqb (re_calendar_id result_) calendar_id
  && String.eqb (re_event_id result_) (re_event_id event)
  && bool_decide (re_ownership result_ = re_ownership event)
  && same_content result_ event.

(** [remaining] attempts from [attempt] on. *)
Fixpoint write_loop (remaining : nat) (attempt : Z) (token calendar_id : string)
    (event : RemoteEvent) : comp T CalendarError Z := λ s,
  match remaining with
  | O => (s, Err RetryAssertionError)
  | S remaining' =>
      match write_event token {| cw_calendar_id := calendar_id; cw_event := event |} s with
      | (s', Err (CalendarTransientError reason)) =>
          match remaining' with
          | O => (s', Err (CalendarTransientError reason))
          | S _ => write_loop remaining' (attempt + 1) token calendar_id event s'
          end
      | (s', Err e) => (s', Err e)
      | (s', Ok result_) =>
          if write_accepted calendar_id event result_ then (s', Ok attempt)
          else (s', Err (CalendarContractError
                  "provider returned mismatched calendar event identity or content"))
      end
  end.

Definition write (token calendar_id : string) (event : RemoteEvent) : comp T CalendarError Z :=
  write_loop (cfg_max_attempts config) 1 token calendar_id event.

Fixpoint delete_loop (remaining : nat) (token : string) (request : CalendarDelete) :
    comp T CalendarError unit := λ s,
  match remaining with
  | O => (s, Ok tt)
  | S remaining' =>
      match delete_event token request s with
      | (s', Err (CalendarTransientError reason)) =>
          match remaining' with
          | O => (s', Err (CalendarTransientError reason))
          | S _ => delete_loop remaining' token request s'
          end
      | r => r
      end
  end.

Definition delete_ (token : string) (request : CalendarDelete) : comp T CalendarError unit :=
  delete_loop (cfg_max_attempts config) token request.

Definition _validate_calendar (c : RemoteCalendar) : result CalendarError unit :=
  raise_if (negb (String.eqb (rc_summary c) LIFEOS_PROPOSED_CALENDAR && rc_app_owned c
                  && negb (rc_primary c)))
    (CalendarContractError "provider returned a non-owned, primary, or mismatched calendar").

(** Fold one page into the known events. *)
Definition merge_event (events : gmap string RemoteEvent) (e : RemoteEvent) :
    gmap string RemoteEvent :=
  if re_deleted e then base.delete (re_event_id e) events else <[re_event_id e := e]> events.

Definition event_order (a b : RemoteEvent) : bool := String.ltb (re_event_id a) (re_event_id b).

Definition sorted_events (m : gmap string RemoteEvent) : list RemoteEvent :=
  py_sorted event_order (map snd (map_to_list m)).

Definition merge_page (previous : option CalendarSyncState) (page : CalendarSyncPage) :
    gmap string RemoteEvent :=
  let start := match previous with
               | Some p => if sp_full_sync page then ∅ else events_by_id (ss_events p)
               | None => ∅
               end in
  foldl merge_event start (sp_events page).

Definition sync (previous : option CalendarSyncState) : comp T CalendarError CalendarSyncState :=
  lift access_token ≫= λ token,
  find_calendar token LIFEOS_PROPOSED_CALENDAR ≫= λ found,
  match found with
  | None => mret {| ss_calendar_id := None; ss_next_sync_token := None; ss_events := [] |}
  | Some calendar =>
      lift (_validate_calendar calendar) ≫= λ _,
      catch (sync_events token (rc_calendar_id calendar) (previous ≫= ss_next_sync_token))
        (λ e, match e with
              | StaleSyncTokenError _ => sync_events token (rc_calendar_id calendar) None
              | _ => throw e
              end) ≫= λ page,
      mret {| ss_calendar_id := Some (rc_calendar_id calendar);
              ss_next_sync_token := Some (sp_next_sync_token page);
              ss_events := sorted_events (merge_page previous page) |}
  end.

Definition dry_run (plan : CalendarPlan) : comp T CalendarError CalendarPreview :=
  sync None ≫= λ state,
  lift (diff plan state true) ≫= λ operations,
  mret {| cv_calendar_summary := LIFEOS_PROPOSED_CALENDAR; cv_operations := operations |}.

Definition with_revision (e : RemoteEvent) (revision : string) : RemoteEvent :=
  {| re_calendar_id := re_calendar_id e; re_event_id := re_event_id e;
     re_summary := re_summary e; re_starts_at := re_starts_at e; re_ends_at := re_ends_at e;
     re_ownership := re_ownership e; re_revision := revision; re_deleted := re_deleted e |}.

(** One step of the apply loop: the number of attempts it used. *)
Definition apply_one (plan : CalendarPlan) (token : string) (calendar : RemoteCalendar)
    (current : gmap string RemoteEvent) (operation : CalendarDiff) (draft : CalendarEventDraft) :
    comp T CalendarError Z :=
  let event := remote plan draft (rc_calendar_id calendar) in
  match df_operation operation with
  | INSERT => write token (rc_calendar_id calendar) event
  | UPDATE =>
      match current !! re_event_id event with
      | None => throw (CalendarContractError "calendar update lost its synchronized event")
      | Some expected =>
          write token (rc_calendar_id calendar) (with_revision event (re_revision expected))
      end
  | NOOP => mret 0
  | EXTERNAL_EDIT | CONFLICT =>
      throw (CalendarContractError
               ("refusing to overwrite " +:+ operation_value (df_operation operation)))
  | DELETE | MISSING =>
      throw (CalendarContractError
               ("invalid apply operation: " +:+ operation_value (df_operation operation)))
  end.

Fixpoint apply_loop (plan : CalendarPlan) (token : string) (calendar : RemoteCalendar)
    (current : gmap string RemoteEvent) (steps : list (CalendarDiff * CalendarEventDraft)) :
    comp T CalendarError Z :=
  match steps with
  | [] => mret 0
  | (operation, draft) :: steps' =>
      apply_one plan token calendar current operation draft ≫= λ n,
      apply_loop plan token calendar current steps' ≫= λ m, mret (n + m)
  end.

Definition find_or_create (token : string) : comp T CalendarError RemoteCalendar :=
  find_calendar token LIFEOS_PROPOSED_CALENDAR ≫= λ found,
  match found with
  | Some calendar => mret calendar
  | None => create_calendar token LIFEOS_PROPOSED_CALENDAR
  end.

Definition apply_plan (plan : CalendarPlan) : comp T CalendarError CalendarApplyResult :=
  throw_if (negb (bool_decide (pr_state (cp_authorization plan) = APPROVED)))
    (CalendarAuthorizationError "calendar apply requires an approved proposal") ≫= λ _,
  lift access_token ≫= λ token,
  find_or_create token ≫= λ calendar,
  lift (_validate_calendar calendar) ≫= λ _,
  sync None ≫= λ state,
  lift (diff plan state true) ≫= λ operations,
  apply_loop plan token calendar (events_by_id (ss_events state))
    (combine operations (cp_events plan)) ≫= λ attempts,
  sync None ≫= λ final,
  mret {| ar_operations := operations; ar_sync_state := final; ar_attempts := attempts |}.

Definition reconcile_plan (plan : CalendarPlan) (previous : option CalendarSyncState) :
    comp T CalendarError CalendarReconciliation :=
  sync previous ≫= λ state,
  lift (diff plan state false) ≫= λ operations,
  mret {| cr_operations := operations; cr_sync_state := state |}.

Definition _validate_rollback (now : Z) (plan : CalendarPlan) (rollback : Rollback) :
    result CalendarError unit :=
  let authorization := cp_authorization plan in
  (let* _ := raise_if (negb (bool_decide (pr_state authorization = APPLIED)))
               (CalendarAuthorizationError "calendar rollback requires an applied proposal") in
   let valid_binding :=
     String.eqb (fa_proposal_id (rb_fact rollback)) (pr_proposal_id authorization)
     && String.eqb (fa_payload_hash (rb_fact rollback)) (payload_hash sha256_hex authorization) in
   raise_if (negb valid_binding || (fa_expires_at (rb_fact rollback) <=? now)%Z)
     (CalendarAuthorizationError "calendar rollback authorization is stale or mismatched"))%py.

Definition owned_by_plan (plan : CalendarPlan) (e : RemoteEvent) : bool :=
  match re_ownership e with
  | None => false
  | Some o =>
      String.eqb (ow_owner_id o) (cfg_owner_id config)
      && String.eqb (ow_proposal_id o) (pr_proposal_id (cp_authorization plan))
      && String.eqb (ow_payload_hash o) (payload_hash sha256_hex (cp_authorization plan))
  end.

Fixpoint rollback_loop (plan : CalendarPlan) (token : string) (events : list RemoteEvent) :
    comp T CalendarError (list CalendarDiff) :=
  match events with
  | [] => mret []
  | e :: events' =>
      if owned_by_plan plan e then
        delete_ token {| cd_calendar_id := re_calendar_id e; cd_event_id := re_event_id e |} ≫= λ _,
        rollback_loop plan token events' ≫= λ rest,
        mret ({| df_operation := DELETE; df_event_id := re_event_id e;
                 df_before_summary := Some (re_summary e); df_after_summary := None |} :: rest)
      else rollback_loop plan token events'
  end.

Definition rollback_plan (now : Z) (plan : CalendarPlan) (rollback : Rollback) :
    comp T CalendarError CalendarRollbackResult :=
  lift (_validate_rollback now plan rollback) ≫= λ _,
  lift access_token ≫= λ token,
  sync None ≫= λ state,
  rollback_loop plan token (ss_events state) ≫= λ operations,
  sync None ≫= λ final,
  mret {| rr_operations := operations; rr_sync_state := final |}.
End adapter.
