(* ===== verification/CalendarSandbox.v ===== *)
(** * The deterministic calendar provider ([google_calendar_sandbox.py])

    The in-memory account the adapter is exercised against, with its injected
    failures, as an instance of the transport class. *)

From stdpp Require Import prelude base strings list gmap pretty.
From Stdlib Require Import ZArith Ascii.
From S2P Require Import Prelude PyTime PyText Authority Calendar.
#[local] Open Scope Z_scope.
#[local] Open Scope string_scope.
#[local] Open Scope list_scope.

(** ** [int(text)]: surrounding whitespace, a sign, digits with single underscores *)

Definition int_space (c : ascii) : bool :=
  let n := nat_of_ascii c in
  (Nat.leb 9 n && Nat.leb n 13) || (Nat.leb 28 n && Nat.leb n 32)
  || Nat.eqb n 133 || Nat.eqb n 160.

Fixpoint all_space (s : string) : bool :=
  match s with EmptyString => true | String c s' => int_space c && all_space s' end.

Definition digit_value (c : ascii) : option Z :=
  let n := nat_of_ascii c in
  if Nat.leb 48 n && Nat.leb n 57 then Some (Z.of_nat n - 48) else None.

(** [after_digit]: the previous character was a digit, so the number may end or
    an underscore may follow. *)
Fixpoint digits_value (acc : Z) (after_digit : bool) (s : string) : option Z :=
  match s with
  | EmptyString => if after_digit then Some acc else None
  | String c s' =>
      match digit_value c with
      | Some d => digits_value (10 * acc + d) true s'
      | None =>
          if after_digit && Ascii.eqb c (ascii_of_nat 95) then digits_value acc false s'
          else if after_digit && all_space s then Some acc
          else None
      end
  end.

Fixpoint py_int (s : string) : option Z :=
  match s with
  | EmptyString => None
  | String c s' =>
      if int_space c then py_int s'
      else if Ascii.eqb c (ascii_of_nat 45) then Z.opp <$> digits_value 0 false s'
      else if Ascii.eqb c (ascii_of_nat 43) then digits_value 0 false s'
      else digits_value 0 false s
  end.

(** ** The account *)

Record GoogleCalendarSandbox := {
  gs_valid_token : string;
  gs_revoked : bool;
  gs_proposed_calendar : option RemoteCalendar;
  gs_events : gmap string (gmap string RemoteEvent);
  gs_changes : list (Z * RemoteEvent);
  gs_generation : Z;
  gs_minimum_sync_token : Z;
  gs_write_failures : Z;
  gs_interrupt_after_write : bool;
  gs_misreport_write : bool;
  gs_mutation_count : Z;
}.

Definition primary_event (primary_event_id : string) : RemoteEvent :=
  {| re_calendar_id := "primary"; re_event_id := primary_event_id;
     re_summary := "Protected primary event";
     re_starts_at := utc_datetime (20454 * day + 9 * hour);
     re_ends_at := utc_datetime (20454 * day + 10 * hour);
     re_ownership := None; re_revision := "1"; re_deleted := false |}.

Definition new_sandbox (valid_token primary_event_id : string) : GoogleCalendarSandbox :=
  {| gs_valid_token := valid_token; gs_revoked := false; gs_proposed_calendar := None;
     gs_events := {[ "primary" := {[ primary_event_id := primary_event primary_event_id ]} ]};
     gs_changes := []; gs_generation := 0; gs_minimum_sync_token := 0; gs_write_failures := 0;
     gs_interrupt_after_write := false; gs_misreport_write := false; gs_mutation_count := 0 |}.

Definition proposed_calendar_id (s : GoogleCalendarSandbox) : option string :=
  rc_calendar_id <$> gs_proposed_calendar s.

Definition primary_events (s : GoogleCalendarSandbox) : gmap string RemoteEvent :=
  gs_events s !!! "primary".

Definition events_in (s : GoogleCalendarSandbox) (calendar_id : string) :
    gmap string RemoteEvent := gs_events s !!! calendar_id.

Definition proposed_events (s : GoogleCalendarSandbox) : list RemoteEvent :=
  match proposed_calendar_id s with
  | None => []
  | Some calendar_id => sorted_events (events_in s calendar_id)
  end.

(** Field updates. *)
Definition set_flags (revoked interrupt misreport : bool) (failures minimum : Z)
    (s : GoogleCalendarSandbox) : GoogleCalendarSandbox :=
  {| gs_valid_token := gs_valid_token s; gs_revoked := revoked;
     gs_proposed_calendar := gs_proposed_calendar s; gs_events := gs_events s;
     gs_changes := gs_changes s; gs_generation := gs_generation s;
     gs_minimum_sync_token := minimum; gs_write_failures := failures;
     gs_interrupt_after_write := interrupt; gs_misreport_write := misreport;
     gs_mutation_count := gs_mutation_count s |}.

Definition revoke_token (s : GoogleCalendarSandbox) : GoogleCalendarSandbox :=
  set_flags true (gs_interrupt_after_write s) (gs_misreport_write s) (gs_write_failures s)
    (gs_minimum_sync_token s) s.
Definition fail_next_writes (count : Z) (s : GoogleCalendarSandbox) : GoogleCalendarSandbox :=
  set_flags (gs_revoked s) (gs_interrupt_after_write s) (gs_misreport_write s) count
    (gs_minimum_sync_token s) s.
Definition interrupt_next_write_after_commit (s : GoogleCalendarSandbox) : GoogleCalendarSandbox :=
  set_flags (gs_revoked s) true (gs_misreport_write s) (gs_write_failures s)
    (gs_minimum_sync_token s) s.
Definition misreport_next_write (s : GoogleCalendarSandbox) : GoogleCalendarSandbox :=
  set_flags (gs_revoked s) (gs_interrupt_after_write s) true (gs_write_failures s)
    (gs_minimum_sync_token s) s.
Definition expire_sync_tokens (s : GoogleCalendarSandbox) : GoogleCalendarSandbox :=
  set_flags (gs_revoked s) (gs_interrupt_after_write s) (gs_misreport_write s)
    (gs_write_failures s) (gs_generation s) s.

(** Replace the events, log the change and count the mutation. *)
Definition log_change (events : gmap string (gmap string RemoteEvent)) (e : RemoteEvent)
    (s : GoogleCalendarSandbox) : GoogleCalendarSandbox :=
  {| gs_valid_token := gs_valid_token s; gs_revoked := gs_revoked s;
     gs_proposed_calendar := gs_proposed_calendar s; gs_events := events;
     gs_changes := gs_changes s ++ [(gs_generation s + 1, e)];
     gs_generation := gs_generation s + 1;
     gs_minimum_sync_token := gs_minimum_sync_token s; gs_write_failures := gs_write_failures s;
     gs_interrupt_after_write := gs_interrupt_after_write s;
     gs_misreport_write := gs_misreport_write s;
     gs_mutation_count := gs_mutation_count s + 1 |}.

Abbreviation provider A := (comp GoogleCalendarSandbox CalendarError A).

Definition _record_change (e : RemoteEvent) : provider unit := λ s,
  match gs_events s !! re_calendar_id e with
  | None => (s, Err ProviderKeyError)
  | Some events =>
      (log_change (<[re_calendar_id e := <[re_event_id e := e]> events]> (gs_events s)) e s, Ok tt)
  end.

Definition _authorize (token : string) : provider unit := λ s,
  (s, raise_if (negb (String.eqb token (gs_valid_token s) && negb (gs_revoked s)))
        (CalendarAuthorizationError "Google OAuth token is revoked or invalid")).

Definition _require_proposed (calendar_id : string) : provider unit := λ s,
  (s, raise_if (negb (bool_decide (Some calendar_id = proposed_calendar_id s))
                || String.eqb calendar_id "primary")
        (CalendarContractError "sandbox rejected primary or foreign calendar mutation")).

Definition next_revision (e : RemoteEvent) : option string :=
  (λ n, pretty (n + 1)) <$> py_int (re_revision e).

Definition with_summary (e : RemoteEvent) (summary revision : string) : RemoteEvent :=
  {| re_calendar_id := re_calendar_id e; re_event_id := re_event_id e; re_summary := summary;
     re_starts_at := re_starts_at e; re_ends_at := re_ends_at e;
     re_ownership := re_ownership e; re_revision := revision; re_deleted := re_deleted e |}.

Definition external_edit (event_id summary : string) : provider unit := λ s,
  match proposed_calendar_id s with
  | None => (s, Err (CalendarContractError "proposed calendar does not exist"))
  | Some calendar_id =>
      match gs_events s !! calendar_id ≫= (.!! event_id) with
      | None => (s, Err ProviderKeyError)
      | Some e =>
          match next_revision e with
          | None => (s, Err ProviderValueError)
          | Some revision => _record_change (with_summary e summary revision) s
          end
      end
  end.

Definition sandbox_find (token summary : string) : provider (option RemoteCalendar) :=
  _authorize token ≫= λ _, stateful (λ s,
  (s, Ok match gs_proposed_calendar s with
         | Some c => if String.eqb summary (rc_summary c) then Some c else None
         | None => None
         end)).

Definition app_calendar (summary : string) : RemoteCalendar :=
  {| rc_calendar_id := "lifeos-proposed-sandbox"; rc_summary := summary;
     rc_app_owned := true; rc_primary := false |}.

Definition sandbox_create (token summary : string) : provider RemoteCalendar :=
  _authorize token ≫= λ _,
  throw_if (negb (String.eqb summary LIFEOS_PROPOSED_CALENDAR))
    (CalendarContractError "sandbox only permits the LifeOS Proposed calendar") ≫= λ _, stateful (λ s,
  match gs_proposed_calendar s with
  | Some c => (s, Ok c)
  | None =>
      let c := app_calendar summary in
      ({| gs_valid_token := gs_valid_token s; gs_revoked := gs_revoked s;
          gs_proposed_calendar := Some c;
          gs_events := <[rc_calendar_id c := ∅]> (gs_events s);
          gs_changes := gs_changes s; gs_generation := gs_generation s;
          gs_minimum_sync_token := gs_minimum_sync_token s;
          gs_write_failures := gs_write_failures s;
          gs_interrupt_after_write := gs_interrupt_after_write s;
          gs_misreport_write := gs_misreport_write s;
          gs_mutation_count := gs_mutation_count s + 1 |}, Ok c)
  end).

(** The changes after a generation. *)
Definition changes_since (generation : Z) (s : GoogleCalendarSandbox) : list RemoteEvent :=
  map snd (List.filter (λ vc, generation <? vc.1)%Z (gs_changes s)).

Definition sandbox_sync (token calendar_id : string) (sync_token : option string) :
    provider CalendarSyncPage :=
  _authorize token ≫= λ _, _require_proposed calendar_id ≫= λ _, stateful (λ s,
  match sync_token with
  | None => (s, Ok {| sp_events := proposed_events s;
                      sp_next_sync_token := pretty (gs_generation s); sp_full_sync := true |})
  | Some text =>
      match py_int text with
      | None => (s, Err (StaleSyncTokenError "sync token is malformed or stale"))
      | Some generation =>
          if ((generation <? gs_minimum_sync_token s) || (gs_generation s <? generation))%Z
          then (s, Err (StaleSyncTokenError "sync token is stale"))
          else (s, Ok {| sp_events := changes_since generation s;
                         sp_next_sync_token := pretty (gs_generation s);
                         sp_full_sync := false |})
      end
  end).

Definition stored_revision (existing : option RemoteEvent) : option string :=
  match existing with None => Some (pretty 1) | Some e => next_revision e end.

Definition set_calendar (e : RemoteEvent) (calendar_id : string) : RemoteEvent :=
  {| re_calendar_id := calendar_id; re_event_id := re_event_id e; re_summary := re_summary e;
     re_starts_at := re_starts_at e; re_ends_at := re_ends_at e;
     re_ownership := re_ownership e; re_revision := re_revision e; re_deleted := re_deleted e |}.

(** The response to a committed write, with the injected faults. *)
Definition write_response (stored : RemoteEvent) : provider RemoteEvent := λ s,
  if gs_interrupt_after_write s then
    (set_flags (gs_revoked s) false (gs_misreport_write s) (gs_write_failures s)
       (gs_minimum_sync_token s) s,
     Err (CalendarInterruptedError "sandbox response interrupted after commit"))
  else if gs_misreport_write s then
    (set_flags (gs_revoked s) (gs_interrupt_after_write s) false (gs_write_failures s)
       (gs_minimum_sync_token s) s, Ok (set_calendar stored "primary"))
  else (s, Ok stored).

Definition sandbox_write (token : string) (request : CalendarWrite) : provider RemoteEvent :=
  _authorize token ≫= λ _, _require_proposed (cw_calendar_id request) ≫= λ _, stateful (λ s,
  if (0 <? gs_write_failures s)%Z then
    (fail_next_writes (gs_write_failures s - 1) s,
     Err (CalendarTransientError "sandbox transient write failure"))
  else
    match gs_events s !! cw_calendar_id request with
    | None => (s, Err ProviderKeyError)
    | Some events =>
        match stored_revision (events !! re_event_id (cw_event request)) with
        | None => (s, Err ProviderValueError)
        | Some revision =>
            let stored := with_revision (cw_event request) revision in
            (_record_change stored ≫= λ _, write_response stored) s
        end
    end).

Definition tombstone (e : RemoteEvent) (revision : string) : RemoteEvent :=
  {| re_calendar_id := re_calendar_id e; re_event_id := re_event_id e;
     re_summary := re_summary e; re_starts_at := re_starts_at e; re_ends_at := re_ends_at e;
     re_ownership := re_ownership e; re_revision := revision; re_deleted := true |}.

(** The event is popped before its revision is read. *)
Definition popped (calendar_id event_id : string) (s : GoogleCalendarSandbox) :
    gmap string (gmap string RemoteEvent) :=
  alter (base.delete event_id) calendar_id (gs_events s).

Definition set_events (events : gmap string (gmap string RemoteEvent)) (s : GoogleCalendarSandbox) :
    GoogleCalendarSandbox :=
  {| gs_valid_token := gs_valid_token s; gs_revoked := gs_revoked s;
     gs_proposed_calendar := gs_proposed_calendar s; gs_events := events;
     gs_changes := gs_changes s; gs_generation := gs_generation s;
     gs_minimum_sync_token := gs_minimum_sync_token s; gs_write_failures := gs_write_failures s;
     gs_interrupt_after_write := gs_interrupt_after_write s;
     gs_misreport_write := gs_misreport_write s; gs_mutation_count := gs_mutation_count s |}.

Definition sandbox_delete (token : string) (request : CalendarDelete) : provider unit :=
  _authorize token ≫= λ _, _require_proposed (cd_calendar_id request) ≫= λ _, stateful (λ s,
  match gs_events s !! cd_calendar_id request with
  | None => (s, Err ProviderKeyError)
  | Some events =>
      match events !! cd_event_id request with
      | None => (s, Ok tt)
      | Some e =>
          let remaining := popped (cd_calendar_id request) (cd_event_id request) s in
          match next_revision e with
          | None => (set_events remaining s, Err ProviderValueError)
          | Some revision => (log_change remaining (tombstone e revision) s, Ok tt)
          end
      end
  end).

#[export] Instance sandbox_transport : GoogleCalendarTransport GoogleCalendarSandbox := {
  find_calendar := sandbox_find;
  create_calendar := sandbox_create;
  sync_events := sandbox_sync;
  write_event := sandbox_write;
  delete_event := sandbox_delete;
}.

Lemma primary_event_day : isoformat (re_starts_at (primary_event "x")) = "2026-01-01T09:00:00+00:00".
Proof. vm_compute. reflexivity. Qed.

(** ** [int(str(n)) = n] *)

Lemma digit_char n : (n < 10)%N → digit_value (pretty_N_char n) = Some (Z.of_N n).
Proof.
  intros Hn.
  assert (n = 0 ∨ n = 1 ∨ n = 2 ∨ n = 3 ∨ n = 4 ∨ n = 5 ∨ n = 6 ∨ n = 7 ∨ n = 8 ∨ n = 9)%N as Hc by lia.
  by destruct_or! Hc; subst.
Qed.

Lemma digits_value_digit acc b n s :
  (n < 10)%N →
  digits_value acc b (String (pretty_N_char n) s) = digits_value (10 * acc + Z.of_N n) true s.
Proof. intros Hn. cbn [digits_value]. by rewrite digit_char. Qed.

Lemma digits_value_go x s b :
  (0 < x)%N → digits_value 0 b (pretty_N_go x s) = digits_value (Z.of_N x) true s.
Proof.
  revert s b. induction x as [x IH] using (well_founded_induction N.lt_wf_0). intros s b Hx.
  rewrite pretty_N_go_step by done.
  assert (x `mod` 10 < 10)%N as Hm by (by apply N.mod_lt).
  assert (Z.of_N x = 10 * Z.of_N (x `div` 10) + Z.of_N (x `mod` 10)) as Hx10.
  { pose proof (N.div_mod x 10). lia. }
  destruct (decide (x `div` 10 = 0)%N) as [H0|H0].
  - rewrite H0, pretty_N_go_0, digits_value_digit by done. rewrite Hx10, H0. done.
  - rewrite IH; [|apply N.div_lt; lia|lia]. rewrite digits_value_digit by done. by rewrite Hx10.
Qed.

Lemma py_int_digit c s : is_Some (digit_value c) → py_int (String c s) = digits_value 0 false (String c s).
Proof.
  intros [d Hd]. cbn [py_int].
  assert (int_space c = false ∧ Ascii.eqb c (ascii_of_nat 45) = false
          ∧ Ascii.eqb c (ascii_of_nat 43) = false) as (-> & -> & ->); [|done].
  pose proof (eq_refl : forallb (λ c, match digit_value c with None => true | Some _ =>
    negb (int_space c) && negb (Ascii.eqb c (ascii_of_nat 45))
    && negb (Ascii.eqb c (ascii_of_nat 43)) end) all_ascii = true) as Hall.
  eapply forallb_forall in Hall; [|apply (all_ascii_elem c)]. rewrite Hd in Hall.
  bool_to_prop. done.
Qed.

Lemma pretty_go_head x s :
  (0 < x)%N → ∃ c rest, pretty_N_go x s = String c rest ∧ is_Some (digit_value c).
Proof.
  revert s. induction x as [x IH] using (well_founded_induction N.lt_wf_0). intros s Hx.
  rewrite pretty_N_go_step by done.
  assert (x `mod` 10 < 10)%N as Hm by (by apply N.mod_lt).
  destruct (decide (x `div` 10 = 0)%N) as [H0|H0].
  - rewrite H0, pretty_N_go_0. do 2 eexists. split; [done|]. rewrite digit_char by done. eauto.
  - apply IH; [apply N.div_lt; lia|by apply N.neq_0_lt_0].
Qed.

Lemma py_int_pretty (n : Z) : (0 ≤ n)%Z → py_int (pretty n) = Some n.
Proof.
  intros Hn. destruct n as [|p|p]; [done| |lia].
  change (pretty (Z.pos p)) with (pretty_N_go (N.pos p) "").
  destruct (pretty_go_head (N.pos p) "") as (c & rest & Heq & Hd); [done|].
  rewrite Heq, py_int_digit, <- Heq by done. by rewrite digits_value_go.
Qed.
