(* ===== verification/CalendarSpec.v ===== *)
(** * Theorems about calendar mutation and synchronization

    What the adapter can change (the primary calendar never; nothing at all for
    previews, syncs and reconciliations), what [apply], [rollback] and the retry
    loop achieve against the provider, and that incremental synchronization
    agrees with a full one. *)

From stdpp Require Import prelude base strings list gmap pretty relations.
From Stdlib Require Import ZArith Ascii.
From S2P Require Import Prelude PyTime PyText Authority Calendar CalendarSandbox.
#[local] Open Scope Z_scope.
#[local] Open Scope string_scope.
#[local] Open Scope list_scope.

(** ** The approved payload determines the events *)

Section payload_facts.
Context (dump_datetime : datetime → string).
Hypothesis dump_inj : ∀ d e, dump_datetime d = dump_datetime e → d = e.

Lemma draft_json_inj d e r r' :
  draft_json dump_datetime d +:+ r = draft_json dump_datetime e +:+ r' → d = e ∧ r = r'.
Proof.
  unfold draft_json, draft_fields. cbn [map join]. rewrite !string_app_assoc. intros H.
  apply append_inj_l in H.
  repeat (apply json_field_inj in H; apply json_string_inj in H as [? H]; apply append_inj_l in H).
  destruct d, e; simpl in *.
  repeat match goal with
  | E : dump_datetime _ = dump_datetime _ |- _ => apply dump_inj in E
  end.
  by subst.
Qed.

Lemma drafts_json_inj l l' :
  join "," (map (draft_json dump_datetime) l) +:+ "]"
  = join "," (map (draft_json dump_datetime) l') +:+ "]" → l = l'.
Proof.
  revert l'. induction l as [|d l IH]; intros [|e l'] H; [done|exfalso..|].
  - destruct l'; cbn [map join] in H; unfold draft_json in H; rewrite ?string_app_assoc in H;
      discriminate H.
  - destruct l; cbn [map join] in H; unfold draft_json in H; rewrite ?string_app_assoc in H;
      discriminate H.
  - destruct l as [|d2 l], l' as [|e2 l']; cbn [map] in *; rewrite ?join_cons, ?string_app_assoc in H.
    + by apply draft_json_inj in H as [-> _].
    + cbn [join] in H. apply draft_json_inj in H as [_ H]. discriminate H.
    + cbn [join] in H. apply draft_json_inj in H as [_ H]. discriminate H.
    + apply draft_json_inj in H as [-> H]. apply append_inj_l in H. f_equal. by apply IH.
Qed.

(** The approved payload binds every event: two projections with the same
    canonical payload are the same events in the same order. *)
Theorem calendar_payload_binds l l' :
  calendar_payload dump_datetime l = calendar_payload dump_datetime l' → l = l'.
Proof. unfold calendar_payload. intros H. apply append_inj_l in H. by apply drafts_json_inj. Qed.
End payload_facts.

(** ** What a computation keeps *)

Section keeps.
Context {S E X : Type} (f : S → X).

Definition keeps {A : Type} (m : comp S E A) : Prop := ∀ s, f (m s).1 = f s.

Lemma keeps_ret {A} (a : A) : keeps (mret a).
Proof. done. Qed.
Lemma keeps_throw {A} (e : E) : keeps (A := A) (throw e).
Proof. done. Qed.
Lemma keeps_throw_if b (e : E) : keeps (throw_if b e).
Proof. done. Qed.
Lemma keeps_bind {A B} (m : comp S E A) (k : A → comp S E B) :
  keeps m → (∀ a, keeps (k a)) → keeps (m ≫= k).
Proof.
  intros Hm Hk s. unfold mbind, comp_bind. pose proof (Hm s) as Hs.
  destruct (m s) as [s' [a|e]]; simpl in *; [|done]. by rewrite (Hk a s').
Qed.
Lemma keeps_catch {A} (m : comp S E A) h :
  keeps m → (∀ e, keeps (h e)) → keeps (catch m h).
Proof.
  intros Hm Hh s. unfold catch. pose proof (Hm s) as Hs.
  destruct (m s) as [s' [a|e]]; simpl in *; [done|]. by rewrite (Hh e s').
Qed.
End keeps.

Create HintDb keeps discriminated.
#[export] Hint Resolve keeps_ret keeps_throw keeps_throw_if keeps_bind keeps_catch : keeps.

Lemma keeps_lift {X A} (f : GoogleCalendarSandbox → X) (r : result CalendarError A) :
  keeps f (lift r).
Proof. done. Qed.

(** *** Reads change nothing *)

Lemma find_keeps token summary : keeps id (sandbox_find token summary).
Proof. intros s. unfold sandbox_find, mbind, comp_bind, _authorize, raise_if. by destruct (negb _). Qed.

Lemma sync_keeps token calendar_id sync_token : keeps id (sandbox_sync token calendar_id sync_token).
Proof.
  intros s. unfold sandbox_sync, mbind, comp_bind, _authorize, _require_proposed, raise_if, stateful.
  destruct (negb _); [done|]. simpl. destruct (_ || _); [done|]. simpl.
  destruct sync_token as [text|]; [|done]. destruct (py_int text); [|done]. by destruct (_ || _).
Qed.

Section adapter_facts.
Context (sha256 sha256_hex : string → string) (config : CalendarAdapterConfig).
Context (access_token : result CalendarError string).

Abbreviation sync := (sync access_token).

Lemma adapter_sync_keeps previous : keeps (id : GoogleCalendarSandbox → _) (sync previous).
Proof.
  unfold Calendar.sync. apply keeps_bind; [apply keeps_lift|]. intros token.
  apply keeps_bind; [apply find_keeps|]. intros [c|]; [|apply keeps_ret].
  apply keeps_bind; [apply keeps_lift|]. intros _. apply keeps_bind; [|intros; apply keeps_ret].
  apply keeps_catch; [apply sync_keeps|].
  intros []; try apply keeps_throw. apply sync_keeps.
Qed.

Lemma dry_run_keeps plan :
  keeps (id : GoogleCalendarSandbox → _) (dry_run sha256 sha256_hex config access_token plan).
Proof.
  apply keeps_bind; [apply adapter_sync_keeps|]. intros state.
  apply keeps_bind; [apply keeps_lift|]. intros ops. apply keeps_ret.
Qed.

Lemma reconcile_keeps plan previous :
  keeps (id : GoogleCalendarSandbox → _)
    (reconcile_plan sha256 sha256_hex config access_token plan previous).
Proof.
  apply keeps_bind; [apply adapter_sync_keeps|]. intros state.
  apply keeps_bind; [apply keeps_lift|]. intros ops. apply keeps_ret.
Qed.

(** Previews and reconciliations are read-only: [dry_run], [sync] and
    [reconcile] leave the provider exactly as it was, on every path, failing
    ones included. *)
Theorem previews_are_read_only plan previous (s : GoogleCalendarSandbox) :
  (dry_run sha256 sha256_hex config access_token plan s).1 = s
  ∧ (sync previous s).1 = s
  ∧ (reconcile_plan sha256 sha256_hex config access_token plan previous s).1 = s.
Proof. split_and!; [apply dry_run_keeps|apply adapter_sync_keeps|apply reconcile_keeps]. Qed.

(** *** The primary calendar *)

Abbreviation primary := (λ s : GoogleCalendarSandbox, gs_events s !! "primary").

Lemma keeps_all {A} (m : comp GoogleCalendarSandbox CalendarError A) : keeps id m → keeps primary m.
Proof. intros Hm s. by rewrite (Hm s : (m s).1 = s). Qed.

Lemma create_keeps token summary : keeps primary (sandbox_create token summary).
Proof.
  intros s. unfold sandbox_create, mbind, comp_bind, _authorize, throw_if, stateful, raise_if.
  destruct (negb _); [done|]. destruct (negb _); [done|].
  destruct (gs_proposed_calendar s); [done|]. simpl. by rewrite lookup_insert_ne.
Qed.

Lemma record_change_keeps e : re_calendar_id e ≠ "primary" → keeps primary (_record_change e).
Proof.
  intros He s. unfold _record_change. destruct (gs_events s !! _); [|done]. simpl.
  by rewrite lookup_insert_ne.
Qed.

Lemma write_response_keeps e : keeps primary (write_response e).
Proof. intros s. unfold write_response. destruct (gs_interrupt_after_write s); [done|].
  by destruct (gs_misreport_write s). Qed.

Lemma sandbox_write_keeps token request :
  re_calendar_id (cw_event request) = cw_calendar_id request →
  keeps primary (sandbox_write token request).
Proof.
  intros Heq s. unfold sandbox_write, mbind, comp_bind, _authorize, _require_proposed, raise_if,
    stateful. destruct (negb _); [done|]. cbn [fst].
  destruct (_ || String.eqb _ "primary") eqn:Hp; [done|]. cbn [fst].
  apply orb_false_iff in Hp as [_ Hp]. bool_to_prop.
  destruct (0 <? _)%Z; [done|]. destruct (gs_events s !! _); [|done].
  destruct (stored_revision _) as [rev|]; [|done].
  apply (keeps_bind (S := GoogleCalendarSandbox) (E := CalendarError) primary).
  - apply record_change_keeps. simpl. by rewrite Heq.
  - intros _. apply write_response_keeps.
Qed.

Lemma sandbox_delete_keeps token request : keeps primary (sandbox_delete token request).
Proof.
  intros s. unfold sandbox_delete, mbind, comp_bind, _authorize, _require_proposed, raise_if,
    stateful. destruct (negb _); [done|]. cbn [fst].
  destruct (_ || String.eqb _ "primary") eqn:Hp; [done|]. cbn [fst].
  apply orb_false_iff in Hp as [_ Hp]. bool_to_prop.
  destruct (gs_events s !! _) as [events|]; [|done]. destruct (events !! _) as [e|]; [|done].
  unfold popped. destruct (next_revision e); simpl; by rewrite lookup_alter_ne.
Qed.

Lemma write_loop_keeps remaining attempt token calendar_id event :
  re_calendar_id event = calendar_id →
  keeps primary (write_loop remaining attempt token calendar_id event).
Proof.
  intros Heq. revert attempt. induction remaining as [|remaining IH]; intros attempt s; simpl; [done|].
  pose proof (sandbox_write_keeps token {| cw_calendar_id := calendar_id; cw_event := event |} Heq s)
    as Hw. unfold write_event, sandbox_transport in *.
  destruct (sandbox_write _ _ s) as [s' [r|e]]; simpl in *.
  - by destruct (write_accepted _ _ _).
  - destruct e; try done. destruct remaining; [done|]. by rewrite IH.
Qed.

Lemma delete_loop_keeps remaining token request : keeps primary (delete_loop remaining token request).
Proof.
  induction remaining as [|remaining IH]; intros s; simpl; [done|].
  pose proof (sandbox_delete_keeps token request s) as Hd. unfold delete_event, sandbox_transport in *.
  destruct (sandbox_delete _ _ s) as [s' [r|e]]; simpl in *; [done|].
  destruct e; try done. destruct remaining; [done|]. by rewrite IH.
Qed.

Lemma apply_one_keeps plan token calendar current op draft :
  keeps primary (apply_one sha256 sha256_hex config plan token calendar current op draft).
Proof.
  unfold apply_one. destruct (df_operation op); try apply keeps_throw; try apply keeps_ret.
  - by apply write_loop_keeps.
  - destruct (current !! _); [|apply keeps_throw]. by apply write_loop_keeps.
Qed.

Lemma apply_loop_keeps plan token calendar current steps :
  keeps primary (apply_loop sha256 sha256_hex config plan token calendar current steps).
Proof.
  induction steps as [|[op draft] steps IH]; [apply keeps_ret|]. cbn [apply_loop].
  apply keeps_bind; [apply apply_one_keeps|]. intros n.
  apply keeps_bind; [apply IH|]. intros m. apply keeps_ret.
Qed.

Lemma apply_plan_keeps plan :
  keeps primary (apply_plan sha256 sha256_hex config access_token plan).
Proof.
  unfold apply_plan. apply keeps_bind; [apply keeps_throw_if|]. intros _.
  apply keeps_bind; [apply keeps_lift|]. intros token. apply keeps_bind.
  { apply keeps_bind; [apply keeps_all, find_keeps|].
    intros [c|]; [apply keeps_ret|apply create_keeps]. }
  intros calendar. apply keeps_bind; [apply keeps_lift|]. intros _.
  apply keeps_bind; [apply keeps_all, adapter_sync_keeps|]. intros state.
  apply keeps_bind; [apply keeps_lift|]. intros ops.
  apply keeps_bind; [apply apply_loop_keeps|]. intros attempts.
  apply keeps_bind; [apply keeps_all, adapter_sync_keeps|]. intros final. apply keeps_ret.
Qed.

Lemma rollback_loop_keeps plan token events :
  keeps primary (rollback_loop sha256_hex config plan token events).
Proof.
  induction events as [|e events IH]; [apply keeps_ret|]. cbn [rollback_loop].
  destruct (owned_by_plan _ _ plan e); [|apply IH].
  apply keeps_bind; [apply delete_loop_keeps|]. intros _.
  apply keeps_bind; [apply IH|]. intros rest. apply keeps_ret.
Qed.

Lemma rollback_plan_keeps now plan rollback :
  keeps primary (rollback_plan sha256_hex config access_token now plan rollback).
Proof.
  unfold rollback_plan. apply keeps_bind; [apply keeps_lift|]. intros _.
  apply keeps_bind; [apply keeps_lift|]. intros token.
  apply keeps_bind; [apply keeps_all, adapter_sync_keeps|]. intros state.
  apply keeps_bind; [apply rollback_loop_keeps|]. intros ops.
  apply keeps_bind; [apply keeps_all, adapter_sync_keeps|]. intros final. apply keeps_ret.
Qed.

(** Any sequence of adapter calls. *)
Inductive adapter_call :=
| CallDryRun (plan : CalendarPlan)
| CallApply (plan : CalendarPlan)
| CallSync (previous : option CalendarSyncState)
| CallReconcile (plan : CalendarPlan) (previous : option CalendarSyncState)
| CallRollback (now : Z) (plan : CalendarPlan) (rollback : Rollback).

Definition adapter_step (c : adapter_call) (s : GoogleCalendarSandbox) : GoogleCalendarSandbox :=
  match c with
  | CallDryRun plan => (dry_run sha256 sha256_hex config access_token plan s).1
  | CallApply plan => (apply_plan sha256 sha256_hex config access_token plan s).1
  | CallSync previous => (sync previous s).1
  | CallReconcile plan previous =>
      (reconcile_plan sha256 sha256_hex config access_token plan previous s).1
  | CallRollback now plan rollback =>
      (rollback_plan sha256_hex config access_token now plan rollback s).1
  end.

(** The sandbox keeps its primary calendar out of reach: no sequence of adapter
    calls, whatever the plans, its state and its injected faults, changes an
    event of it. *)
Theorem primary_calendar_untouched calls s :
  gs_events (foldl (λ s c, adapter_step c s) s calls) !! "primary" = gs_events s !! "primary".
Proof.
  revert s. induction calls as [|c calls IH]; intros s; [done|]. simpl. rewrite IH.
  destruct c; simpl.
  - apply (keeps_all _ (dry_run_keeps plan)).
  - apply apply_plan_keeps.
  - apply (keeps_all _ (adapter_sync_keeps previous)).
  - apply (keeps_all _ (reconcile_keeps plan previous)).
  - apply rollback_plan_keeps.
Qed.
End adapter_facts.

(** ** What the adapter sends to any provider

    A provider that records what it is sent, and what it answered, on top of any other.
    Nothing is assumed of the answers. *)

Inductive provider_call :=
| FindSent (summary : string) (answer : result CalendarError (option RemoteCalendar))
| CreateSent (summary : string) (answer : result CalendarError RemoteCalendar)
| SyncSent (calendar_id : string) (answer : result CalendarError CalendarSyncPage)
| WriteSent (request : CalendarWrite)
| DeleteSent (request : CalendarDelete).

Record Recorded (T : Type) := { rd_inner : T; rd_log : list provider_call }.
Arguments rd_inner {T}.
Arguments rd_log {T}.
Arguments Build_Recorded {T}.

Definition recording {T A : Type} (entry : result CalendarError A → provider_call) (m : comp T CalendarError A) :
    comp (Recorded T) CalendarError A := λ s,
  let '(t, r) := m (rd_inner s) in (Build_Recorded t (rd_log s ++ [entry r]), r).

#[export] Instance recorded_transport (T : Type) `{GoogleCalendarTransport T} : GoogleCalendarTransport (Recorded T) := {
  find_calendar token summary := recording (FindSent summary) (find_calendar token summary);
  create_calendar token summary := recording (CreateSent summary) (create_calendar token summary);
  sync_events token calendar_id sync_token := recording (SyncSent calendar_id) (sync_events token calendar_id sync_token);
  write_event token request := recording (λ _, WriteSent request) (write_event token request);
  delete_event token request := recording (λ _, DeleteSent request) (delete_event token request);
}.

Section recorded.
Context {T : Type} `{GoogleCalendarTransport T}.
Context (sha256 sha256_hex : string → string) (config : CalendarAdapterConfig).
Context (access_token : result CalendarError string).

(** A calendar the provider presented as the application's own, not the primary one. *)
Definition presented (log : list provider_call) (c : RemoteCalendar) : Prop :=
  (FindSent LIFEOS_PROPOSED_CALENDAR (Ok (Some c)) ∈ log ∨ CreateSent LIFEOS_PROPOSED_CALENDAR (Ok c) ∈ log)
  ∧ rc_summary c = LIFEOS_PROPOSED_CALENDAR ∧ rc_app_owned c = true ∧ rc_primary c = false.

(** An event the provider listed in such a calendar. *)
Definition listed_event (log : list provider_call) (e : RemoteEvent) : Prop :=
  ∃ c page, presented log c ∧ SyncSent (rc_calendar_id c) (Ok page) ∈ log ∧ e ∈ sp_events page.

Definition owned (e : RemoteEvent) : Prop := ∃ o, re_ownership e = Some o ∧ ow_owner_id o = cfg_owner_id config.

(** What may be sent after [log]. *)
Definition may_send (log : list provider_call) (c : provider_call) : Prop :=
  match c with
  | FindSent summary _ | CreateSent summary _ => summary = LIFEOS_PROPOSED_CALENDAR
  | SyncSent calendar_id _ => ∃ c, presented log c ∧ calendar_id = rc_calendar_id c
  | WriteSent request =>
      (∃ c, presented log c ∧ cw_calendar_id request = rc_calendar_id c)
      ∧ re_calendar_id (cw_event request) = cw_calendar_id request ∧ owned (cw_event request)
  | DeleteSent request =>
      ∃ e, listed_event log e ∧ owned e ∧ cd_calendar_id request = re_calendar_id e ∧ cd_event_id request = re_event_id e
  end.

Definition allowed (log : list provider_call) : Prop := ∀ before c after, log = before ++ c :: after → may_send before c.

Lemma presented_mono log log' c : log ⊆ log' → presented log c → presented log' c.
Proof. intros Hl [[Hf|Hf] Hc]; (split; [|done]); [left|right]; by apply Hl. Qed.
Lemma listed_mono log log' e : log ⊆ log' → listed_event log e → listed_event log' e.
Proof. intros Hl (c & page & Hc & Hs & He). exists c, page. split_and!; [by eapply presented_mono|by apply Hl|done]. Qed.

Lemma allowed_snoc log c : allowed log → may_send log c → allowed (log ++ [c]).
Proof.
  intros Hl Hc before x after Heq. destruct after as [|y after _] using rev_ind.
  - apply app_inj_tail in Heq as [-> ->]. done.
  - rewrite app_comm_cons, app_assoc in Heq. apply app_inj_tail in Heq as [-> _]. by eapply Hl.
Qed.

(** [m] sends only what it may, when [P] holds of what was sent before, and then [Q]. *)
Definition sends {A : Type} (P : list provider_call → Prop) (m : comp (Recorded T) CalendarError A)
    (Q : A → list provider_call → Prop) : Prop :=
  ∀ s, allowed (rd_log s) → P (rd_log s) →
    allowed (rd_log (m s).1) ∧ rd_log s ⊆ rd_log (m s).1 ∧ (∀ a, (m s).2 = Ok a → Q a (rd_log (m s).1)).

Lemma sends_value {A} (P : list provider_call → Prop) (r : result CalendarError A) (Q : A → list provider_call → Prop) :
  (∀ a log, r = Ok a → P log → Q a log) → sends P (λ s, (s, r)) Q.
Proof. intros HQ s Hl HP. split_and!; [done|done|]. intros a Ha. by apply HQ. Qed.

Lemma sends_bind {A B} P (m : comp (Recorded T) CalendarError A) (k : A → comp (Recorded T) CalendarError B) Q R :
  sends P m Q → (∀ a, sends (Q a) (k a) R) → sends P (m ≫= k) R.
Proof.
  intros Hm Hk s Hl HP. rewrite bind_run. destruct (Hm s Hl HP) as (Hl1 & Hs1 & HQ).
  destruct (m s) as [s1 [a|e]]; simpl in *; [|by split_and!].
  destruct (Hk a s1 Hl1 (HQ a eq_refl)) as (Hl2 & Hs2 & HR). split_and!; [done|by etrans|done].
Qed.

Lemma sends_conseq {A} (P P' : list provider_call → Prop) (m : comp (Recorded T) CalendarError A) (Q Q' : A → list provider_call → Prop) :
  sends P m Q → (∀ log, P' log → P log) → (∀ a log, Q a log → Q' a log) → sends P' m Q'.
Proof. intros Hm HP HQ s Hl H'. destruct (Hm s Hl (HP _ H')) as (? & ? & Hr). split_and!; [done|done|]. intros a Ha. by apply HQ, Hr. Qed.

(** What was known stays known. *)
Lemma sends_keeping {A} (F P : list provider_call → Prop) (m : comp (Recorded T) CalendarError A) (Q : A → list provider_call → Prop) :
  (∀ log log', log ⊆ log' → F log → F log') → sends P m Q → sends (λ l, P l ∧ F l) m (λ a l, Q a l ∧ F l).
Proof. intros HF Hm s Hl [HP Hf]. destruct (Hm s Hl HP) as (? & Hsub & Hr). split_and!; [done|done|]. intros a Ha. split; [by apply Hr|by eapply HF]. Qed.

Lemma sends_recording {A} (P : list provider_call → Prop) entry (m : comp T CalendarError A) (Q : A → list provider_call → Prop) :
  (∀ log r, P log → may_send log (entry r)) → (∀ a log, P log → Q a (log ++ [entry (Ok a)])) → sends P (recording entry m) Q.
Proof.
  intros Hmay HQ s Hl HP. unfold recording. destruct (m (rd_inner s)) as [t r]. simpl. split_and!.
  - apply allowed_snoc; [done|by apply Hmay].
  - set_solver.
  - intros a ->. by apply HQ.
Qed.

Lemma sends_catch {A} P (m : comp (Recorded T) CalendarError A) h Q :
  (∀ log log', log ⊆ log' → P log → P log') → sends P m Q → (∀ e, sends P (h e) Q) → sends P (catch m h) Q.
Proof.
  intros Hmono Hm Hh s Hl HP. unfold catch. destruct (Hm s Hl HP) as (Hl1 & Hs1 & HQ).
  destruct (m s) as [s1 [a|e]]; simpl in *; [by split_and!|].
  destruct (Hh e s1 Hl1 (Hmono _ _ Hs1 HP)) as (Hl2 & Hs2 & HR). split_and!; [done|by etrans|done].
Qed.

Definition anything (log : list provider_call) : Prop := True.
Definition nothing_known {A : Type} (a : A) (log : list provider_call) : Prop := True.

(** *** Finding the calendar and reading it *)

Lemma sends_find token : sends anything (find_calendar token LIFEOS_PROPOSED_CALENDAR)
  (λ found log, ∀ c, found = Some c → FindSent LIFEOS_PROPOSED_CALENDAR (Ok (Some c)) ∈ log).
Proof. apply sends_recording; [done|]. intros a log _ c ->. set_solver. Qed.

Lemma sends_find_or_create token : sends anything (find_or_create token)
  (λ c log, FindSent LIFEOS_PROPOSED_CALENDAR (Ok (Some c)) ∈ log ∨ CreateSent LIFEOS_PROPOSED_CALENDAR (Ok c) ∈ log).
Proof.
  eapply sends_bind; [apply sends_find|]. intros [c|].
  - apply sends_value. intros a log [= <-] Hf. left. by apply Hf.
  - apply sends_recording; [done|]. intros a log _. right. set_solver.
Qed.

Lemma validate_calendar_ok c u : _validate_calendar c = Ok u →
  rc_summary c = LIFEOS_PROPOSED_CALENDAR ∧ rc_app_owned c = true ∧ rc_primary c = false.
Proof.
  destruct u. intros Hv%raise_if_ok. apply negb_false_iff in Hv. rewrite !andb_true_iff, negb_true_iff in Hv.
  destruct Hv as [[Hs%String.eqb_eq Ho] Hp]. done.
Qed.

Lemma merged_listed (page : CalendarSyncPage) e : e ∈ sorted_events (merge_page None page) → e ∈ sp_events page.
Proof.
  unfold sorted_events, merge_page. rewrite elem_of_py_sorted. intros (x & -> & Hx)%list_elem_of_fmap. destruct x as [k e]. simpl.
  apply elem_of_map_to_list in Hx. revert Hx.
  assert (∀ m : gmap string RemoteEvent, foldl merge_event m (sp_events page) !! k = Some e → m !! k = Some e ∨ e ∈ sp_events page) as Hg.
  { induction (sp_events page) as [|x l IH]; intros m Hx; simpl in *; [by left|]. apply IH in Hx as [Hx|Hx]; [|right; by right].
    unfold merge_event in Hx. destruct (re_deleted x).
    - apply lookup_delete_Some in Hx as [_ Hx]. by left.
    - apply lookup_insert_Some in Hx as [[_ <-]|[_ Hx]]; [right; left|by left]. }
  intros Hx. by apply Hg in Hx as [Hx|Hx].
Qed.

Lemma sends_sync_page token c sync_token : sends (λ log, presented log c) (sync_events token (rc_calendar_id c) sync_token)
  (λ page log, presented log c ∧ SyncSent (rc_calendar_id c) (Ok page) ∈ log).
Proof.
  apply sends_recording.
  - intros log r Hc. by exists c.
  - intros page log Hc. split; [eapply presented_mono; [|done]; set_solver|set_solver].
Qed.

Lemma sends_sync previous : sends anything (sync access_token previous)
  (λ state log, previous = None → ∀ e, e ∈ ss_events state → listed_event log e).
Proof.
  unfold sync. eapply sends_bind; [apply (sends_value anything access_token (λ _, anything)); done|intros token].
  eapply sends_bind; [apply sends_find|]. intros [c|].
  2:{ apply sends_value. intros a log [= <-] _ _ e He. by apply elem_of_nil in He. }
  eapply sends_bind.
  { apply (sends_value _ (_validate_calendar c) (λ _ log, presented log c)). intros u log Hv Hf. split; [left; by apply Hf|].
    by eapply validate_calendar_ok. }
  intros ?. eapply sends_bind.
  { apply sends_catch; [intros; by eapply presented_mono|apply sends_sync_page|].
    intros e. destruct e; try (by apply sends_value). apply sends_sync_page. }
  intros page. apply sends_value. intros state log [= <-] [Hc Hs] -> e He%merged_listed. by exists c, page.
Qed.

(** *** Writing and deleting *)

Lemma sends_write_loop remaining attempt token c event :
  re_calendar_id event = rc_calendar_id c → owned event →
  sends (λ log, presented log c) (write_loop remaining attempt token (rc_calendar_id c) event) (λ _ log, presented log c).
Proof.
  intros Hid Ho. revert attempt. induction remaining as [|remaining IH]; intros attempt s Hl HP; simpl; [by split_and!|].
  destruct (sends_recording (λ log, presented log c) (λ _, WriteSent {| cw_calendar_id := rc_calendar_id c; cw_event := event |})
    (write_event token {| cw_calendar_id := rc_calendar_id c; cw_event := event |}) (λ _ log, presented log c)) with (s := s) as (Hl1 & Hs1 & HQ); [| |done..|].
  - intros log _ Hc. simpl. split_and!; [by exists c|done|done].
  - intros a log Hc. eapply presented_mono; [|done]. set_solver.
  - destruct (recording _ _ s) as [s1 [r|e]]; simpl in *.
    + destruct (write_accepted _ _ _); simpl; (split_and!; [done|done|]); [|done]. intros a _. by apply (HQ r).
    + assert (presented (rd_log s1) c) as Hc1 by (by eapply presented_mono).
      destruct e; simpl; try (by split_and!). destruct remaining; [by split_and!|].
      destruct (IH (attempt + 1) s1 Hl1 Hc1) as (? & ? & ?). split_and!; [done|by etrans|done].
Qed.

Lemma remote_owned plan draft calendar_id : owned (remote sha256 sha256_hex config plan draft calendar_id).
Proof. eexists. split; [reflexivity|done]. Qed.

Lemma sends_apply_one plan token c current op draft :
  sends (λ log, presented log c) (apply_one sha256 sha256_hex config plan token c current op draft) (λ _ log, presented log c).
Proof.
  unfold apply_one. destruct (df_operation op); try (by apply sends_value).
  - apply sends_write_loop; [done|apply remote_owned].
  - destruct (current !! _); [|by apply sends_value]. apply sends_write_loop; [done|]. eexists. by split.
Qed.

Lemma sends_apply_loop plan token c current steps :
  sends (λ log, presented log c) (apply_loop sha256 sha256_hex config plan token c current steps) nothing_known.
Proof.
  induction steps as [|[op draft] steps IH]; [by apply sends_value|]. cbn [apply_loop].
  eapply sends_bind; [apply sends_apply_one|]. intros n. eapply sends_bind; [apply IH|]. intros m. by apply sends_value.
Qed.

Lemma sends_apply plan : sends anything (apply_plan sha256 sha256_hex config access_token plan) nothing_known.
Proof.
  unfold apply_plan. eapply sends_bind; [apply (sends_value anything (raise_if _ _) (λ _, anything)); done|intros ?].
  eapply sends_bind; [apply (sends_value anything access_token (λ _, anything)); done|intros token].
  eapply sends_bind; [apply sends_find_or_create|intros c]. eapply sends_bind.
  { apply (sends_value _ (_validate_calendar c) (λ _ log, anything log ∧ presented log c)). intros u log Hv Hf. split; [done|].
    split; [done|by eapply validate_calendar_ok]. }
  intros ?. eapply sends_bind; [apply sends_keeping; [intros; by eapply presented_mono|apply sends_sync]|intros state].
  eapply sends_bind; [apply (sends_value _ (diff _ _ _ _ _ _) (λ _ log, presented log c)); by intros ? ? _ [_ ?]|intros ops].
  eapply sends_bind; [apply sends_apply_loop|intros attempts]. eapply sends_bind; [eapply sends_conseq; [apply sends_sync|done|done]|intros final].
  by apply sends_value.
Qed.

Lemma sends_delete_loop remaining token e :
  owned e → sends (λ log, listed_event log e)
    (delete_loop remaining token {| cd_calendar_id := re_calendar_id e; cd_event_id := re_event_id e |}) nothing_known.
Proof.
  intros Ho. induction remaining as [|remaining IH]; intros s Hl HP; simpl; [by split_and!|].
  destruct (sends_recording (λ log, listed_event log e) (λ _, DeleteSent {| cd_calendar_id := re_calendar_id e; cd_event_id := re_event_id e |})
    (delete_event token {| cd_calendar_id := re_calendar_id e; cd_event_id := re_event_id e |}) nothing_known) with (s := s) as (Hl1 & Hs1 & _);
    [|done..|].
  - intros log _ He. by exists e.
  - destruct (recording _ _ s) as [s1 [r|x]]; simpl in *; [by split_and!|]. destruct x; simpl; try (by split_and!).
    destruct remaining; [by split_and!|]. destruct (IH s1 Hl1 (listed_mono _ _ _ Hs1 HP)) as (? & ? & ?). split_and!; [done|by etrans|done].
Qed.

Lemma owned_by_plan_owned plan e : owned_by_plan sha256_hex config plan e = true → owned e.
Proof.
  unfold owned_by_plan. destruct (re_ownership e) as [o|] eqn:Ho; [|done]. rewrite !andb_true_iff.
  intros [[Hown%String.eqb_eq _] _]. by exists o.
Qed.

Lemma sends_rollback_loop plan token events :
  sends (λ log, ∀ e, e ∈ events → listed_event log e) (rollback_loop sha256_hex config plan token events) nothing_known.
Proof.
  induction events as [|e events IH]; [by apply sends_value|]. cbn [rollback_loop].
  destruct (owned_by_plan _ _ plan e) eqn:Hown.
  - eapply sends_bind.
    { eapply sends_conseq.
      - apply (sends_keeping (λ log, ∀ x, x ∈ events → listed_event log x) (λ log, listed_event log e) _ nothing_known).
        + intros log log' Hl Hx x He. by eapply listed_mono, Hx.
        + by apply sends_delete_loop, (owned_by_plan_owned plan).
      - intros log Hx. split; [apply Hx; left|]. intros x He. apply Hx. by right.
      - intros a log Ha. exact Ha. }
    intros ?. eapply sends_bind; [eapply sends_conseq; [apply IH|by intros log [_ ?]|done]|]. intros rest. by apply sends_value.
  - eapply sends_conseq; [apply IH| |done]. intros log Hx x He. apply Hx. by right.
Qed.

Lemma sends_rollback now plan rollback : sends anything (rollback_plan sha256_hex config access_token now plan rollback) nothing_known.
Proof.
  unfold rollback_plan. eapply sends_bind; [apply (sends_value anything (_validate_rollback _ _ _ _) (λ _, anything)); done|intros ?].
  eapply sends_bind; [apply (sends_value anything access_token (λ _, anything)); done|intros token].
  eapply sends_bind; [apply sends_sync|intros state]. eapply sends_bind; [eapply sends_conseq; [apply sends_rollback_loop| |done]|intros ops].
  { intros log Hs. exact (Hs eq_refl). }
  eapply sends_bind; [eapply sends_conseq; [apply sends_sync|done|done]|intros final]. by apply sends_value.
Qed.

Definition recorded_step (c : adapter_call) (s : Recorded T) : Recorded T :=
  match c with
  | CallDryRun plan => (dry_run sha256 sha256_hex config access_token plan s).1
  | CallApply plan => (apply_plan sha256 sha256_hex config access_token plan s).1
  | CallSync previous => (sync access_token previous s).1
  | CallReconcile plan previous => (reconcile_plan sha256 sha256_hex config access_token plan previous s).1
  | CallRollback now plan rollback => (rollback_plan sha256_hex config access_token now plan rollback s).1
  end.

Lemma sends_dry_run plan : sends anything (dry_run sha256 sha256_hex config access_token plan) nothing_known.
Proof.
  unfold dry_run. eapply sends_bind; [apply sends_sync|intros state].
  eapply (sends_bind _ _ _ nothing_known); [by apply sends_value|intros ops]. by apply sends_value.
Qed.

Lemma sends_reconcile plan previous : sends anything (reconcile_plan sha256 sha256_hex config access_token plan previous) nothing_known.
Proof.
  unfold reconcile_plan. eapply sends_bind; [apply sends_sync|intros state].
  eapply (sends_bind _ _ _ nothing_known); [by apply sends_value|intros ops]. by apply sends_value.
Qed.

Lemma recorded_step_allowed c s : allowed (rd_log s) → allowed (rd_log (recorded_step c s)).
Proof.
  intros Hl. destruct c; simpl.
  - by apply sends_dry_run.
  - by apply sends_apply.
  - by apply (sends_sync previous).
  - by apply sends_reconcile.
  - by apply sends_rollback.
Qed.

(** C18. The adapter guards what it changes, whatever the provider answers.  Through any sequence of
    adapter calls on any provider: a calendar is looked up or created only under the name of the
    application; events are written only into a calendar that the provider presented under
    that name as owned by the application and not primary, and carry the application's mark of
    ownership; an event is deleted only if the provider listed it in such a calendar with that
    mark, and exactly there. *)
Theorem adapter_changes_guarded calls (t : T) before c after :
  rd_log (foldl (λ s c, recorded_step c s) (Build_Recorded t []) calls) = before ++ c :: after → may_send before c.
Proof.
  assert (∀ s, allowed (rd_log s) → allowed (rd_log (foldl (λ s c, recorded_step c s) s calls))) as Hall.
  { induction calls as [|x calls IH]; intros s Hs; [done|]. simpl. by apply IH, recorded_step_allowed. }
  intros Heq. eapply (Hall (Build_Recorded t [])); [|done]. intros b x a Hnil. by destruct b.
Qed.
End recorded.

(** ** Witness: an injective text form of datetimes *)

Lemma calendar_payload_binds_witness :
  [{| ed_event_key := "a"; ed_summary := "Focus"; ed_starts_at := utc_datetime 0;
      ed_ends_at := utc_datetime hour |}]
  = [{| ed_event_key := "a"; ed_summary := "Focus"; ed_starts_at := utc_datetime 0;
        ed_ends_at := utc_datetime (60 * minute) |}].
Proof.
  apply (calendar_payload_binds encode_text).
  - intros d e Heq. apply (f_equal (decode_text (A := datetime))) in Heq.
    rewrite !decode_encode_text in Heq.
    congruence.
  - vm_compute. reflexivity.
Defined.
