(* ===== verification/CalendarApply.v ===== *)
(** * Applying and rolling back plans on the provider

    The effect of [apply], [rollback] and the retry loop on an account whose
    proposed calendar is well formed, as functions on its map of events. *)

From stdpp Require Import prelude base strings list gmap pretty.
From Stdlib Require Import ZArith Ascii.
From S2P Require Import Prelude PyTime PyText Authority Calendar CalendarSandbox CalendarSpec.
#[local] Open Scope string_scope.
#[local] Open Scope list_scope.
#[local] Open Scope Z_scope.

(** ** Lists of events and maps of events *)

Definition keyed (m : gmap string RemoteEvent) : Prop := map_Forall (λ id e, re_event_id e = id) m.

Lemma sorted_events_elem m e : keyed m → e ∈ sorted_events m ↔ m !! re_event_id e = Some e.
Proof.
  intros Hk. unfold sorted_events. rewrite elem_of_py_sorted, list_elem_of_fmap. split.
  - intros ([id x] & -> & Hin). apply elem_of_map_to_list in Hin. simpl.
    by rewrite (Hk _ _ Hin : re_event_id x = id).
  - intros Hl. exists (re_event_id e, e). split; [done|]. by apply elem_of_map_to_list.
Qed.

Lemma events_by_id_sorted m : keyed m → events_by_id (sorted_events m) = m.
Proof.
  intros Hk. apply map_eq. intros id. unfold events_by_id.
  destruct (foldl_insert_lookup re_event_id (λ e, e) (sorted_events m) ∅ id) as [H1 H2].
  { intros c c' Hc Hc' Heq. apply sorted_events_elem in Hc, Hc'; [|done..]. congruence. }
  destruct (m !! id) as [e|] eqn:E.
  - pose proof (Hk _ _ E) as Hid. simpl in Hid. apply (H1 e); [|done].
    apply sorted_events_elem; [done|]. by rewrite Hid.
  - rewrite H2; [done|]. intros Hin. apply list_elem_of_fmap in Hin as (e & Heq & Hin).
    apply sorted_events_elem in Hin; [|done]. congruence.
Qed.

Definition live_events (m : gmap string RemoteEvent) : Prop :=
  map_Forall (λ _ e, re_deleted e = false) m.

Lemma merge_sorted m : keyed m → live_events m → foldl merge_event ∅ (sorted_events m) = m.
Proof.
  intros Hk Hl. rewrite <- (events_by_id_sorted m Hk) at 2. unfold events_by_id.
  assert (∀ e, e ∈ sorted_events m → re_deleted e = false) as Hd.
  { intros e He. apply sorted_events_elem in He; [|done]. by apply Hl in He. }
  revert Hd. generalize (∅ : gmap string RemoteEvent) as acc.
  induction (sorted_events m) as [|e l IH]; intros acc Hd; simpl; [done|].
  unfold merge_event at 2. rewrite (Hd e) by set_solver. apply IH. set_solver.
Qed.

(** ** A well-formed account *)

Definition app_calendar_id : string := rc_calendar_id (app_calendar LIFEOS_PROPOSED_CALENDAR).

Definition revision_ok (e : RemoteEvent) : Prop := ∃ n, 0 ≤ n ∧ py_int (re_revision e) = Some n.

Definition store_wf (m : gmap string RemoteEvent) : Prop :=
  map_Forall (λ id e, re_event_id e = id ∧ re_calendar_id e = app_calendar_id
                      ∧ re_deleted e = false ∧ revision_ok e) m.

Lemma store_wf_keyed m : store_wf m → keyed m.
Proof. intros H id e He. by apply H in He as []. Qed.
Lemma store_wf_live m : store_wf m → live_events m.
Proof. intros H id e He. by apply H in He as (_ & _ & ? & _). Qed.

(** The token is good and the events of the app calendar are [m]; before the
    calendar is created, [m] is empty. *)
Record account (token : string) (s : GoogleCalendarSandbox) (m : gmap string RemoteEvent) : Prop := {
  ac_token : gs_valid_token s = token;
  ac_revoked : gs_revoked s = false;
  ac_store : match gs_proposed_calendar s with
             | None => m = ∅
             | Some c => c = app_calendar LIFEOS_PROPOSED_CALENDAR
                         ∧ gs_events s !! app_calendar_id = Some m
             end;
  ac_wf : store_wf m;
}.

Definition no_faults (s : GoogleCalendarSandbox) : Prop :=
  gs_write_failures s = 0 ∧ gs_interrupt_after_write s = false ∧ gs_misreport_write s = false.

Lemma authorize_ok token s m : account token s m → _authorize token s = (s, Ok tt).
Proof. intros [Ht Hr _ _]. unfold _authorize. by rewrite Ht, Hr, String.eqb_refl. Qed.

Lemma require_proposed_ok s :
  gs_proposed_calendar s = Some (app_calendar LIFEOS_PROPOSED_CALENDAR) →
  _require_proposed app_calendar_id s = (s, Ok tt).
Proof.
  intros Hc. unfold _require_proposed, proposed_calendar_id. rewrite Hc.
  by rewrite bool_decide_true.
Qed.

Definition sync_result (s : GoogleCalendarSandbox) (m : gmap string RemoteEvent) : CalendarSyncState :=
  match gs_proposed_calendar s with
  | None => {| ss_calendar_id := None; ss_next_sync_token := None; ss_events := [] |}
  | Some _ => {| ss_calendar_id := Some app_calendar_id;
                 ss_next_sync_token := Some (pretty (gs_generation s));
                 ss_events := sorted_events m |}
  end.

Lemma sandbox_find_ok token s m :
  account token s m →
  sandbox_find token LIFEOS_PROPOSED_CALENDAR s = (s, Ok (gs_proposed_calendar s)).
Proof.
  intros Ha. unfold sandbox_find. rewrite (bind_ok _ _ _ _ _ (authorize_ok _ _ _ Ha)).
  unfold stateful. pose proof (ac_store _ _ _ Ha) as Hs.
  destruct (gs_proposed_calendar s) as [c|]; [|done]. by destruct Hs as [-> _].
Qed.

Lemma sandbox_sync_ok token s m :
  account token s m → gs_proposed_calendar s = Some (app_calendar LIFEOS_PROPOSED_CALENDAR) →
  sandbox_sync token app_calendar_id None s
  = (s, Ok {| sp_events := sorted_events m; sp_next_sync_token := pretty (gs_generation s);
              sp_full_sync := true |}).
Proof.
  intros Ha Hc. unfold sandbox_sync. rewrite (bind_ok _ _ _ _ _ (authorize_ok _ _ _ Ha)).
  rewrite (bind_ok _ _ _ _ _ (require_proposed_ok _ Hc)). unfold stateful, proposed_events.
  pose proof (ac_store _ _ _ Ha) as Hs. rewrite Hc in Hs. destruct Hs as [_ Hm].
  unfold proposed_calendar_id, events_in. rewrite Hc. cbn [fmap option_fmap option_map].
  fold app_calendar_id. by rewrite (lookup_total_correct _ _ _ Hm).
Qed.

Lemma lift_ok {A} (a : A) (s : GoogleCalendarSandbox) : lift (Ok a) s = (s, Ok a).
Proof. done. Qed.

Lemma sync_none_ok token s m :
  account token s m → sync (Ok token) None s = (s, Ok (sync_result s m)).
Proof.
  intros Ha. unfold sync, sync_result. rewrite (bind_ok _ _ _ _ _ (lift_ok token s)).
  rewrite (bind_ok _ _ _ _ _ (sandbox_find_ok _ _ _ Ha)).
  pose proof (ac_store _ _ _ Ha) as Hs. pose proof (ac_wf _ _ _ Ha) as Hwf.
  destruct (gs_proposed_calendar s) as [c|] eqn:Hc; [|done]. destruct Hs as [-> Hm].
  rewrite (bind_ok _ _ _ s tt) by done.
  rewrite (bind_ok _ _ _ _ _ (catch_ok _ _ _ _ _ (sandbox_sync_ok _ _ _ Ha Hc))).
  unfold merge_page. cbn [sp_events sp_full_sync sp_next_sync_token].
  rewrite merge_sorted by auto using store_wf_keyed, store_wf_live. done.
Qed.

(** ** Writes *)

Lemma record_change_ok s m e :
  gs_events s !! app_calendar_id = Some m → re_calendar_id e = app_calendar_id →
  _record_change e s
  = (log_change (<[app_calendar_id := <[re_event_id e := e]> m]> (gs_events s)) e s, Ok tt).
Proof. intros Hm Hc. unfold _record_change. by rewrite Hc, Hm. Qed.

Lemma next_revision_ok m id e rev :
  store_wf m → m !! id = Some e → next_revision e = Some rev →
  ∃ n, 0 ≤ n ∧ py_int rev = Some n.
Proof.
  intros Hwf Hm Hrev. apply Hwf in Hm as (_ & _ & _ & n & Hn & Hp). unfold next_revision in Hrev.
  rewrite Hp in Hrev. injection Hrev as <-. exists (n + 1). split; [lia|].
  apply py_int_pretty. lia.
Qed.

(** Storing a live event of the app calendar under its next revision. *)
Lemma written_wf m e rev :
  store_wf m → re_calendar_id e = app_calendar_id → re_deleted e = false →
  stored_revision (m !! re_event_id e) = Some rev →
  store_wf (<[re_event_id e := with_revision e rev]> m).
Proof.
  intros Hwf Hcal Hdel Hrev. apply map_Forall_insert_2; [|done]. split_and!; try done.
  unfold stored_revision in Hrev. destruct (m !! re_event_id e) as [old|] eqn:Ho.
  - by apply (next_revision_ok m (re_event_id e) old).
  - injection Hrev as <-. by exists 1.
Qed.

Lemma sandbox_write_ok token s m e rev :
  account token s m → no_faults s →
  gs_proposed_calendar s = Some (app_calendar LIFEOS_PROPOSED_CALENDAR) →
  re_calendar_id e = app_calendar_id → re_deleted e = false →
  stored_revision (m !! re_event_id e) = Some rev →
  ∃ s', sandbox_write token {| cw_calendar_id := app_calendar_id; cw_event := e |} s
        = (s', Ok (with_revision e rev))
    ∧ account token s' (<[re_event_id e := with_revision e rev]> m) ∧ no_faults s'
    ∧ gs_proposed_calendar s' = Some (app_calendar LIFEOS_PROPOSED_CALENDAR).
Proof.
  intros Ha (Hf & Hi & Hr) Hc Hcal Hdel Hrev. pose proof (ac_store _ _ _ Ha) as Hs.
  rewrite Hc in Hs. destruct Hs as [_ Hm]. eexists. unfold sandbox_write.
  rewrite (bind_ok _ _ _ _ _ (authorize_ok _ _ _ Ha)). cbn [cw_calendar_id cw_event].
  rewrite (bind_ok _ _ _ _ _ (require_proposed_ok _ Hc)). unfold stateful.
  rewrite Hf, Hm. cbn [Z.ltb Z.compare]. rewrite Hrev.
  rewrite (bind_ok _ _ _ _ _ (record_change_ok s m (with_revision e rev) Hm Hcal)).
  unfold write_response. cbn. rewrite Hi, Hr.
  split; [done|]. split; [|done]. destruct Ha as [Ht Hrv _ Hwf].
  split; cbn; [done|done| |].
  - rewrite Hc. split; [done|]. by rewrite lookup_insert_eq.
  - by apply written_wf.
Qed.

Lemma write_accepted_stored e rev :
  re_calendar_id e = app_calendar_id →
  write_accepted app_calendar_id e (with_revision e rev) = true.
Proof.
  intros Hc. unfold write_accepted, same_content, with_revision. simpl.
  rewrite Hc, !String.eqb_refl, bool_decide_true, !dt_eqb_refl by done. done.
Qed.

(** Injected failures pending, nothing else wrong. *)
Definition failing (k : nat) (s : GoogleCalendarSandbox) : Prop :=
  gs_write_failures s = Z.of_nat k ∧ gs_interrupt_after_write s = false
  ∧ gs_misreport_write s = false.

Lemma failing_write token s m k e :
  account token s m → failing (S k) s →
  gs_proposed_calendar s = Some (app_calendar LIFEOS_PROPOSED_CALENDAR) →
  ∃ s', sandbox_write token {| cw_calendar_id := app_calendar_id; cw_event := e |} s
        = (s', Err (CalendarTransientError "sandbox transient write failure"))
    ∧ account token s' m ∧ failing k s' ∧ gs_events s' = gs_events s
    ∧ gs_proposed_calendar s' = Some (app_calendar LIFEOS_PROPOSED_CALENDAR).
Proof.
  intros Ha (Hf & Hi & Hr) Hc. eexists. unfold sandbox_write.
  rewrite (bind_ok _ _ _ _ _ (authorize_ok _ _ _ Ha)). cbn [cw_calendar_id cw_event].
  rewrite (bind_ok _ _ _ _ _ (require_proposed_ok _ Hc)). unfold stateful.
  rewrite (proj2 (Z.ltb_lt _ _)) by lia. split; [done|]. split_and!; try done.
  - by destruct Ha.
  - unfold failing. cbn. rewrite Hf. split_and!; [lia|done|done].
Qed.

Lemma write_loop_step n attempt token calendar_id e s :
  write_loop (S n) attempt token calendar_id e s
  = match sandbox_write token {| cw_calendar_id := calendar_id; cw_event := e |} s with
    | (s', Err (CalendarTransientError reason)) =>
        match n with
        | O => (s', Err (CalendarTransientError reason))
        | S _ => write_loop n (attempt + 1) token calendar_id e s'
        end
    | (s', Err err) => (s', Err err)
    | (s', Ok r) =>
        if write_accepted calendar_id e r then (s', Ok attempt)
        else (s', Err (CalendarContractError
                "provider returned mismatched calendar event identity or content"))
    end.
Proof. done. Qed.

Lemma write_loop_spec token max k e rev attempt s m :
  account token s m → failing k s →
  gs_proposed_calendar s = Some (app_calendar LIFEOS_PROPOSED_CALENDAR) →
  re_calendar_id e = app_calendar_id → re_deleted e = false →
  stored_revision (m !! re_event_id e) = Some rev →
  ∃ s', gs_proposed_calendar s' = Some (app_calendar LIFEOS_PROPOSED_CALENDAR) ∧
    if decide (k < S max)%nat
    then write_loop (S max) attempt token app_calendar_id e s = (s', Ok (attempt + Z.of_nat k))
         ∧ account token s' (<[re_event_id e := with_revision e rev]> m) ∧ no_faults s'
    else write_loop (S max) attempt token app_calendar_id e s
         = (s', Err (CalendarTransientError "sandbox transient write failure"))
         ∧ account token s' m ∧ failing (k - S max) s' ∧ gs_events s' = gs_events s.
Proof.
  revert k s attempt. induction max as [|max IH]; intros k s attempt Ha Hk Hc Hcal Hdel Hrev.
  all: destruct k as [|k].
  1, 3: destruct (sandbox_write_ok token s m e rev Ha Hk Hc Hcal Hdel Hrev)
        as (s' & Hw & Ha' & Hn' & Hc'); exists s'; split; [done|]; rewrite decide_True by lia;
        rewrite write_loop_step, Hw, write_accepted_stored, Z.add_0_r by done; done.
  - destruct (failing_write token s m k e Ha Hk Hc) as (s' & Hw & Ha' & Hn' & He & Hc').
    exists s'. split; [done|]. rewrite decide_False by lia. rewrite write_loop_step, Hw.
    replace (S k - 1)%nat with k by lia. done.
  - destruct (failing_write token s m k e Ha Hk Hc) as (s1 & Hw & Ha1 & Hk1 & He1 & Hc1).
    destruct (IH k s1 (attempt + 1) Ha1 Hk1 Hc1 Hcal Hdel Hrev) as (s' & Hc' & Hs').
    exists s'. split; [done|]. rewrite write_loop_step, Hw. destruct (decide (k < S max)%nat).
    + rewrite decide_True by lia.
      replace (attempt + Z.of_nat (S k)) with (attempt + 1 + Z.of_nat k) by lia. done.
    + rewrite decide_False by lia. destruct Hs' as (? & ? & ? & Hev).
      replace (S k - S (S max))%nat with (k - S max)%nat by lia. by rewrite <- He1.
Qed.

(** ** Applying a plan *)

Lemma traverse_ok {A B} (f : A → result CalendarError B) (g : A → B) l :
  (∀ x, x ∈ l → f x = Ok (g x)) → traverse f l = Ok (map g l).
Proof.
  induction l as [|x l IH]; intros Hf; simpl; [done|].
  rewrite (Hf x) by set_solver. simpl. rewrite IH by set_solver. done.
Qed.

Section apply_facts.
Context (sha256 sha256_hex : string → string) (config : CalendarAdapterConfig) (token : string).
Context (plan : CalendarPlan).
Hypothesis attempts_allowed : (1 ≤ cfg_max_attempts config)%nat.

Definition planned (d : CalendarEventDraft) : RemoteEvent :=
  remote sha256 sha256_hex config plan d app_calendar_id.
Definition planned_id (d : CalendarEventDraft) : string :=
  event_identity sha256 config (ed_event_key d).

(** The events a first application leaves behind. *)
Definition install (m : gmap string RemoteEvent) (l : list CalendarEventDraft) :
    gmap string RemoteEvent :=
  foldl (λ m d, <[planned_id d := with_revision (planned d) "1"]> m) m l.

Definition insert_diff (d : CalendarEventDraft) : CalendarDiff :=
  {| df_operation := INSERT; df_event_id := planned_id d; df_before_summary := None;
     df_after_summary := Some (ed_summary d) |}.
Definition noop_diff (d : CalendarEventDraft) : CalendarDiff :=
  {| df_operation := NOOP; df_event_id := planned_id d;
     df_before_summary := Some (ed_summary d); df_after_summary := Some (ed_summary d) |}.

Lemma synced_events s m : account token s m → events_by_id (ss_events (sync_result s m)) = m.
Proof.
  intros Ha. pose proof (ac_store _ _ _ Ha) as Hs. unfold sync_result.
  destruct (gs_proposed_calendar s); [|by subst].
  apply events_by_id_sorted, store_wf_keyed, (ac_wf _ _ _ Ha).
Qed.

Lemma diff_inserts s m :
  account token s m → (∀ d, d ∈ cp_events plan → m !! planned_id d = None) →
  diff sha256 sha256_hex config plan (sync_result s m) true
  = Ok (map insert_diff (cp_events plan)).
Proof.
  intros Ha Hnew. unfold diff. apply traverse_ok. intros d Hd. unfold diff_one.
  rewrite (synced_events s m Ha). cbn [re_event_id remote]. fold (planned_id d).
  by rewrite (Hnew d Hd).
Qed.

Lemma diff_noops s m :
  account token s m →
  (∀ d, d ∈ cp_events plan → m !! planned_id d = Some (with_revision (planned d) "1")) →
  diff sha256 sha256_hex config plan (sync_result s m) true
  = Ok (map noop_diff (cp_events plan)).
Proof.
  intros Ha Hold. unfold diff. apply traverse_ok. intros d Hd. unfold diff_one.
  rewrite (synced_events s m Ha). cbn [re_event_id remote]. fold (planned_id d).
  rewrite (Hold d Hd). cbn [_operation re_ownership with_revision planned remote ow_owner_id].
  rewrite String.eqb_refl. cbn [negb]. unfold same_content. cbn.
  rewrite String.eqb_refl, !dt_eqb_refl, bool_decide_true by done. done.
Qed.

Lemma install_cons m d l :
  install m (d :: l) = install (<[planned_id d := with_revision (planned d) "1"]> m) l.
Proof. done. Qed.

Lemma write_fresh s m d :
  account token s m → no_faults s →
  gs_proposed_calendar s = Some (app_calendar LIFEOS_PROPOSED_CALENDAR) →
  m !! planned_id d = None →
  ∃ s', write config token app_calendar_id (planned d) s = (s', Ok 1)
    ∧ account token s' (<[planned_id d := with_revision (planned d) "1"]> m) ∧ no_faults s'
    ∧ gs_proposed_calendar s' = Some (app_calendar LIFEOS_PROPOSED_CALENDAR).
Proof.
  intros Ha Hn Hc Hnew. unfold write. destruct (cfg_max_attempts config) as [|max] eqn:Hmax; [lia|].
  destruct (write_loop_spec token max 0 (planned d) "1" 1 s m Ha Hn Hc eq_refl eq_refl)
    as (s' & Hc' & Hs').
  { cbn [re_event_id planned remote]. fold (planned_id d). by rewrite Hnew. }
  rewrite decide_True in Hs' by lia. destruct Hs' as (Hw & Ha' & Hn'). exists s'. done.
Qed.

Lemma apply_loop_inserts current l s m :
  account token s m → no_faults s →
  gs_proposed_calendar s = Some (app_calendar LIFEOS_PROPOSED_CALENDAR) →
  NoDup (map planned_id l) → (∀ d, d ∈ l → m !! planned_id d = None) →
  ∃ s', apply_loop sha256 sha256_hex config plan token (app_calendar LIFEOS_PROPOSED_CALENDAR)
          current (combine (map insert_diff l) l) s = (s', Ok (Z.of_nat (length l)))
    ∧ account token s' (install m l) ∧ no_faults s'
    ∧ gs_proposed_calendar s' = Some (app_calendar LIFEOS_PROPOSED_CALENDAR).
Proof.
  revert s m. induction l as [|d l IH]; intros s m Ha Hn Hc Hnd Hnew; [by exists s|].
  cbn [map] in Hnd. apply NoDup_cons in Hnd as [Hd Hnd].
  destruct (write_fresh s m d Ha Hn Hc (Hnew d (list_elem_of_here _ _)))
    as (s1 & Hw & Ha1 & Hn1 & Hc1).
  destruct (IH s1 _ Ha1 Hn1 Hc1 Hnd) as (s' & Hl & Ha' & Hn' & Hc').
  { intros d' Hd'. rewrite lookup_insert_ne; [apply Hnew; by right|].
    intros Heq. apply Hd. rewrite Heq. by apply list_elem_of_fmap_2. }
  exists s'. split_and!; try done. cbn [map combine apply_loop].
  rewrite (bind_ok _ _ s s1 1) by exact Hw. rewrite (bind_ok _ _ _ _ _ Hl).
  change ((s', Ok (1 + Z.of_nat (length l))) = (s', Ok (Z.of_nat (S (length l)))) :> _ * result CalendarError Z).
  do 2 f_equal. lia.
Qed.

Lemma apply_loop_noops current l s :
  apply_loop sha256 sha256_hex config plan token (app_calendar LIFEOS_PROPOSED_CALENDAR)
    current (combine (map noop_diff l) l) s = (s, Ok 0).
Proof.
  induction l as [|d l IH]; [done|]. cbn [map combine apply_loop].
  rewrite (bind_ok _ _ s s 0) by done. by rewrite (bind_ok _ _ _ _ _ IH).
Qed.

Lemma find_or_create_ok s m :
  account token s m → no_faults s →
  ∃ s', find_or_create token s = (s', Ok (app_calendar LIFEOS_PROPOSED_CALENDAR))
    ∧ account token s' m ∧ no_faults s'
    ∧ gs_proposed_calendar s' = Some (app_calendar LIFEOS_PROPOSED_CALENDAR)
    ∧ (is_Some (gs_proposed_calendar s) → s' = s).
Proof.
  intros Ha Hn. unfold find_or_create. rewrite (bind_ok _ _ _ _ _ (sandbox_find_ok _ _ _ Ha)).
  pose proof (ac_store _ _ _ Ha) as Hs. destruct (gs_proposed_calendar s) as [c|] eqn:Hc.
  - destruct Hs as [-> _]. by exists s.
  - subst m. eexists. unfold create_calendar, sandbox_transport, sandbox_create.
    rewrite (bind_ok _ _ _ _ _ (authorize_ok _ _ _ Ha)).
    rewrite (bind_ok _ _ s s tt) by done. unfold stateful. rewrite Hc. split; [done|].
    split_and!; try done. destruct Ha as [Ht Hr _ _]. split; try done.
    cbn. split; [done|]. apply lookup_insert_eq.
Qed.

Lemma install_lookup m l d :
  NoDup (map planned_id l) → d ∈ l →
  install m l !! planned_id d = Some (with_revision (planned d) "1").
Proof.
  intros Hnd Hd. unfold install.
  apply (foldl_insert_lookup planned_id (λ d, with_revision (planned d) "1")); [|done|done].
  intros c c' Hc Hc' Heq. f_equal. f_equal.
  apply list_elem_of_lookup in Hc as [i Hi], Hc' as [j Hj].
  assert (i = j) as ->; [|congruence].
  apply (NoDup_lookup (map planned_id l) i j (planned_id c)); [done|..];
    rewrite list_lookup_fmap; [by rewrite Hi|rewrite Hj; simpl; congruence].
Qed.

(** C19. Applying is effective and idempotent: on a provider without injected faults,
    with a valid token and a proposed calendar of the application's own that holds
    none of the plan's events, applying an approved plan whose event identifiers are
    distinct creates the calendar if needed and inserts every event, with one
    attempt each, leaving every other event alone; applying the same plan again
    changes nothing and reports every event as already there. *)
Theorem apply_installs_plan s m :
  account token s m → no_faults s →
  pr_state (cp_authorization plan) = APPROVED →
  NoDup (map planned_id (cp_events plan)) →
  (∀ d, d ∈ cp_events plan → m !! planned_id d = None) →
  ∃ s' first second,
    apply_plan sha256 sha256_hex config (Ok token) plan s = (s', Ok first)
    ∧ account token s' (install m (cp_events plan))
    ∧ ar_operations first = map insert_diff (cp_events plan)
    ∧ ar_attempts first = Z.of_nat (length (cp_events plan))
    ∧ ss_events (ar_sync_state first) = sorted_events (install m (cp_events plan))
    ∧ apply_plan sha256 sha256_hex config (Ok token) plan s' = (s', Ok second)
    ∧ ar_operations second = map noop_diff (cp_events plan) ∧ ar_attempts second = 0.
Proof.
  intros Ha Hn Hst Hnd Hnew. unfold apply_plan.
  destruct (find_or_create_ok s m Ha Hn) as (s1 & Hf & Ha1 & Hn1 & Hc1 & _).
  destruct (apply_loop_inserts (events_by_id (ss_events (sync_result s1 m)))
              (cp_events plan) s1 m Ha1 Hn1 Hc1 Hnd Hnew) as (s2 & Hl & Ha2 & Hn2 & Hc2).
  destruct (find_or_create_ok s2 _ Ha2 Hn2) as (s3 & Hf2 & _ & _ & _ & Heq).
  rewrite Heq in Hf2 by (by rewrite Hc2). exists s2. do 2 eexists.
  split; [|split; [exact Ha2|split; [|split; [|split; [|split]]]]].
  - rewrite Hst, (bind_ok _ _ s s tt) by done. rewrite (bind_ok _ _ _ _ _ (lift_ok token s)).
    rewrite (bind_ok _ _ _ _ _ Hf), (bind_ok _ _ s1 s1 tt) by done.
    rewrite (bind_ok _ _ _ _ _ (sync_none_ok _ _ _ Ha1)), (diff_inserts s1 m Ha1 Hnew).
    rewrite (bind_ok _ _ _ _ _ (lift_ok _ s1)), (bind_ok _ _ _ _ _ Hl).
    rewrite (bind_ok _ _ _ _ _ (sync_none_ok _ _ _ Ha2)). reflexivity.
  - reflexivity.
  - reflexivity.
  - simpl. unfold sync_result. by rewrite Hc2.
  - rewrite Hst, (bind_ok _ _ s2 s2 tt) by done. rewrite (bind_ok _ _ _ _ _ (lift_ok token s2)).
    rewrite (bind_ok _ _ _ _ _ Hf2), (bind_ok _ _ s2 s2 tt) by done.
    rewrite (bind_ok _ _ _ _ _ (sync_none_ok _ _ _ Ha2)).
    rewrite (diff_noops s2 _ Ha2) by (intros d Hd; by apply install_lookup).
    rewrite (bind_ok _ _ _ _ _ (lift_ok _ s2)), (bind_ok _ _ _ _ _ (apply_loop_noops _ _ s2)).
    rewrite (bind_ok _ _ _ _ _ (sync_none_ok _ _ _ Ha2)). reflexivity.
  - split; reflexivity.
Qed.

(** ** Rolling a plan back *)

Lemma sandbox_delete_ok s m e :
  account token s m → gs_proposed_calendar s = Some (app_calendar LIFEOS_PROPOSED_CALENDAR) →
  m !! re_event_id e = Some e →
  ∃ s', sandbox_delete token
          {| cd_calendar_id := re_calendar_id e; cd_event_id := re_event_id e |} s = (s', Ok tt)
    ∧ account token s' (base.delete (re_event_id e) m)
    ∧ gs_proposed_calendar s' = Some (app_calendar LIFEOS_PROPOSED_CALENDAR).
Proof.
  intros Ha Hc Hm. pose proof (ac_store _ _ _ Ha) as Hs. rewrite Hc in Hs. destruct Hs as [_ Hev].
  pose proof (ac_wf _ _ _ Ha _ _ Hm) as (_ & Hcal & _ & n & Hn & Hrev).
  eexists. unfold sandbox_delete. cbn [cd_calendar_id cd_event_id]. rewrite Hcal.
  rewrite (bind_ok _ _ _ _ _ (authorize_ok _ _ _ Ha)).
  rewrite (bind_ok _ _ _ _ _ (require_proposed_ok _ Hc)). unfold stateful.
  rewrite Hev, Hm. unfold next_revision. rewrite Hrev. cbn [fmap option_fmap option_map].
  split; [done|]. split; [|done]. destruct Ha as [Ht Hr _ Hwf].
  split; cbn [gs_valid_token gs_revoked gs_proposed_calendar gs_events log_change]; try done.
  - rewrite Hc. split; [done|]. unfold popped. by rewrite lookup_alter_eq, Hev.
  - by apply map_Forall_delete.
Qed.

Definition delete_diff (e : RemoteEvent) : CalendarDiff :=
  {| df_operation := DELETE; df_event_id := re_event_id e;
     df_before_summary := Some (re_summary e); df_after_summary := None |}.

Lemma rollback_loop_ok l s m :
  account token s m → gs_proposed_calendar s = Some (app_calendar LIFEOS_PROPOSED_CALENDAR) →
  NoDup (map re_event_id l) → (∀ e, e ∈ l → m !! re_event_id e = Some e) →
  let owned := List.filter (owned_by_plan sha256_hex config plan) l in
  ∃ s', rollback_loop sha256_hex config plan token l s = (s', Ok (map delete_diff owned))
    ∧ account token s' (foldl (λ m e, base.delete (re_event_id e) m) m owned)
    ∧ gs_proposed_calendar s' = Some (app_calendar LIFEOS_PROPOSED_CALENDAR).
Proof.
  revert s m. induction l as [|e l IH]; intros s m Ha Hc Hnd Hl owned; [by exists s|].
  cbn [map] in Hnd. apply NoDup_cons in Hnd as [He Hnd]. unfold owned. cbn [List.filter rollback_loop].
  destruct (owned_by_plan _ _ plan e).
  - destruct (sandbox_delete_ok s m e Ha Hc) as (s1 & Hd & Ha1 & Hc1); [apply Hl; by left|].
    destruct (IH s1 _ Ha1 Hc1 Hnd) as (s' & Hr & Ha' & Hc').
    { intros e' He'. rewrite lookup_delete_ne; [apply Hl; by right|].
      intros Heq. apply He. rewrite Heq. by apply list_elem_of_fmap_2. }
    exists s'. split_and!; [|done|done]. rewrite (bind_ok _ _ s s1 tt).
    + by rewrite (bind_ok _ _ _ _ _ Hr).
    + unfold delete_. destruct (cfg_max_attempts config) as [|max] eqn:Hmax; [lia|].
      cbn [delete_loop]. unfold delete_event, sandbox_transport. by rewrite Hd.
  - apply IH; [done..|]. intros e' He'. apply Hl. by right.
Qed.

Lemma sorted_events_ids m : keyed m → NoDup (map re_event_id (sorted_events m)).
Proof.
  intros Hk. unfold sorted_events. rewrite (py_sorted_perm _ (map snd (map_to_list m))).
  rewrite map_map.
  rewrite (map_ext_in _ fst); [apply NoDup_fst_map_to_list|].
  intros [id e] Hin. apply list_elem_of_In, elem_of_map_to_list in Hin. by apply (Hk _ _ Hin).
Qed.

(** Rollback removes exactly the plan's events: with a valid rollback of an
    applied plan, every event the plan owns (owner, proposal and payload hash)
    is deleted and reported, and every other event of the calendar stays. *)
Theorem rollback_removes_exactly_owned now rollback s m :
  account token s m → gs_proposed_calendar s = Some (app_calendar LIFEOS_PROPOSED_CALENDAR) →
  _validate_rollback sha256_hex now plan rollback = Ok tt →
  ∃ s' r, rollback_plan sha256_hex config (Ok token) now plan rollback s = (s', Ok r)
    ∧ account token s' (filter (λ p, owned_by_plan sha256_hex config plan p.2 = false) m)
    ∧ rr_operations r
      = map delete_diff (List.filter (owned_by_plan sha256_hex config plan) (sorted_events m)).
Proof.
  intros Ha Hc Hv. pose proof (store_wf_keyed _ (ac_wf _ _ _ Ha)) as Hk.
  destruct (rollback_loop_ok (sorted_events m) s m Ha Hc (sorted_events_ids m Hk))
    as (s' & Hl & Ha' & Hc').
  { intros e He. by apply sorted_events_elem. }
  set (owned := List.filter _ _) in *.
  assert (foldl (λ m e, base.delete (re_event_id e) m) m owned
          = filter (λ p, owned_by_plan sha256_hex config plan p.2 = false) m) as Heq.
  { apply map_eq. intros id. rewrite foldl_delete_lookup, map_lookup_filter.
    destruct (m !! id) as [e|] eqn:E; [|by case_bool_decide]. pose proof (Hk _ _ E) as Hid.
    simpl in Hid. subst id. cbn [mbind option_bind].
    assert (re_event_id e ∈ map re_event_id owned ↔ owned_by_plan sha256_hex config plan e = true)
      as Hiff.
    { rewrite list_elem_of_fmap. unfold owned. setoid_rewrite list_elem_of_In.
      setoid_rewrite filter_In. setoid_rewrite <- list_elem_of_In. split.
      - intros (e' & Hid & He' & Ho). apply sorted_events_elem in He'; [|done].
        rewrite <- Hid, E in He'. by injection He' as ->.
      - intros Ho. exists e. split_and!; [done| |done]. by apply sorted_events_elem. }
    case_bool_decide as Hb; rewrite Hiff in Hb; case_guard as Hg; simpl in *;
      by destruct (owned_by_plan sha256_hex config plan e). }
  rewrite Heq in Ha'. do 2 eexists. unfold rollback_plan. split; [|split; [exact Ha'|]].
  - rewrite Hv, (bind_ok _ _ s s tt) by done. rewrite (bind_ok _ _ _ _ _ (lift_ok token s)).
    rewrite (bind_ok _ _ _ _ _ (sync_none_ok _ _ _ Ha)). unfold sync_result. rewrite Hc.
    cbn [ss_events]. rewrite (bind_ok _ _ _ _ _ Hl).
    rewrite (bind_ok _ _ _ _ _ (sync_none_ok _ _ _ Ha')). reflexivity.
  - reflexivity.
Qed.
End apply_facts.

(** Retries are bounded and safe: with [k] transient failures ahead, a write
    succeeds on attempt [k + 1] when that is within the configured attempts, and
    stores exactly the event under its next revision; otherwise it raises the
    transient failure and has changed no event. *)
Theorem write_retries_bounded config token k e rev s m :
  (1 ≤ cfg_max_attempts config)%nat → account token s m → failing k s →
  gs_proposed_calendar s = Some (app_calendar LIFEOS_PROPOSED_CALENDAR) →
  re_calendar_id e = app_calendar_id → re_deleted e = false →
  stored_revision (m !! re_event_id e) = Some rev →
  ∃ s',
    if decide (k < cfg_max_attempts config)%nat
    then write config token app_calendar_id e s = (s', Ok (Z.of_nat k + 1))
         ∧ account token s' (<[re_event_id e := with_revision e rev]> m)
    else write config token app_calendar_id e s
         = (s', Err (CalendarTransientError "sandbox transient write failure"))
         ∧ gs_events s' = gs_events s.
Proof.
  intros Hmax Ha Hk Hc Hcal Hdel Hrev. unfold write.
  destruct (cfg_max_attempts config) as [|max]; [lia|].
  destruct (write_loop_spec token max k e rev 1 s m Ha Hk Hc Hcal Hdel Hrev) as (s' & _ & Hs').
  exists s'. destruct (decide _).
  - destruct Hs' as (Hw & Ha' & _). split; [|done]. rewrite Hw. do 2 f_equal. lia.
  - destruct Hs' as (Hw & _ & _ & He). done.
Qed.

(** ** A concrete account and plan *)

Module Account.
Definition config : CalendarAdapterConfig :=
  {| cfg_owner_id := "me";
     cfg_oauth_grant := {| og_secret_reference := "ref"; og_scopes := [GOOGLE_CALENDAR_APP_SCOPE] |};
     cfg_max_attempts := 3 |}.
Definition sha (s : string) : string := s.
Definition draft (key : string) (t : Z) : CalendarEventDraft :=
  {| ed_event_key := key; ed_summary := "Focus"; ed_starts_at := utc_datetime t;
     ed_ends_at := utc_datetime (t + hour) |}.
Definition drafts : list CalendarEventDraft := [draft "a" 0; draft "b" hour].
Definition plan (id : string) (st : ProposalState) : CalendarPlan :=
  {| cp_authorization := {| pr_proposal_id := id; pr_action_class := "calendar.apply";
       pr_payload := calendar_payload isoformat drafts; pr_state := st; pr_created_at := 0 |};
     cp_events := drafts |}.
Definition empty : GoogleCalendarSandbox := new_sandbox "tok" "primary-1".
Definition undo (id : string) : Rollback :=
  {| rb_fact := {| fa_fact_id := "f"; fa_proposal_id := id;
       fa_payload_hash := sha (calendar_payload isoformat drafts); fa_issued_at := 0;
       fa_expires_at := 10; fa_idempotency_key := "i"; fa_actor := "owner";
       fa_correlation_id := "c" |}; rb_reason := "undo" |}.
Definition applied : GoogleCalendarSandbox :=
  (apply_plan sha sha config (Ok "tok") (plan "p1" APPROVED) empty).1.
End Account.

Lemma empty_account : account "tok" Account.empty ∅.
Proof. by split. Qed.

(** What the sandbox was sent by an apply and a rollback. *)
Definition sent : list provider_call :=
  rd_log (foldl (λ s c, recorded_step Account.sha Account.sha Account.config (Ok "tok") c s) (Build_Recorded Account.empty [])
    [CallApply (Account.plan "p1" APPROVED); CallRollback 5 (Account.plan "p1" APPLIED) (Account.undo "p1")]).
Definition sent_delete (c : provider_call) : bool := match c with DeleteSent _ => true | _ => false end.

Lemma adapter_changes_guarded_witness :
  ∃ before request after, sent = before ++ DeleteSent request :: after ∧ may_send Account.config before (DeleteSent request).
Proof.
  destruct (List.find sent_delete (drop 10 sent)) as [c|] eqn:Hf; [|vm_compute in Hf; discriminate Hf].
  assert (sent = take 10 sent ++ c :: drop 11 sent) as Heq.
  { vm_compute in Hf. injection Hf as <-. vm_compute. reflexivity. }
  assert (sent_delete c = true) as Hc by (vm_compute in Hf; injection Hf as <-; reflexivity).
  destruct c as [| | | |request]; try discriminate Hc. exists (take 10 sent), request, (drop 11 sent). split; [exact Heq|]. clear Hf Hc.
  set (before := take 10 sent) in *. set (after := drop 11 sent) in *. clearbody before after. unfold sent in Heq.
  exact (adapter_changes_guarded Account.sha Account.sha Account.config (Ok "tok") _ Account.empty before _ after Heq).
Defined.

Lemma apply_installs_plan_witness :
  ∃ s' first second,
    apply_plan Account.sha Account.sha Account.config (Ok "tok") (Account.plan "p1" APPROVED)
      Account.empty = (s', Ok first)
    ∧ apply_plan Account.sha Account.sha Account.config (Ok "tok") (Account.plan "p1" APPROVED) s'
      = (s', Ok second).
Proof.
  destruct (apply_installs_plan Account.sha Account.sha Account.config "tok"
    (Account.plan "p1" APPROVED) ltac:(simpl; lia) Account.empty ∅ empty_account)
    as (s' & r1 & r2 & H1 & _ & _ & _ & _ & H2 & _).
  - done.
  - reflexivity.
  - refine (bool_decide_eq_true_1 _ _). vm_compute. reflexivity.
  - done.
  - exists s', r1, r2. split; [exact H1|exact H2].
Defined.

Lemma created_account :
  account "tok" (sandbox_create "tok" LIFEOS_PROPOSED_CALENDAR Account.empty).1 ∅
  ∧ no_faults (sandbox_create "tok" LIFEOS_PROPOSED_CALENDAR Account.empty).1.
Proof. split; [by split|done]. Qed.

(** An account that holds the first event of plan [p1]. *)
Definition one_event : GoogleCalendarSandbox :=
  (sandbox_write "tok"
     {| cw_calendar_id := app_calendar_id;
        cw_event := planned Account.sha Account.sha Account.config (Account.plan "p1" APPLIED)
                      (Account.draft "a" 0) |}
     (sandbox_create "tok" LIFEOS_PROPOSED_CALENDAR Account.empty).1).1.

Lemma rollback_removes_exactly_owned_witness :
  ∃ s' r, rollback_plan Account.sha Account.config (Ok "tok") 5 (Account.plan "p1" APPLIED)
            (Account.undo "p1") one_event = (s', Ok r).
Proof.
  destruct created_account as [Ha Hn].
  destruct (sandbox_write_ok "tok" _ ∅ (planned Account.sha Account.sha Account.config
    (Account.plan "p1" APPLIED) (Account.draft "a" 0)) "1" Ha Hn eq_refl eq_refl eq_refl eq_refl)
    as (s1 & Hw & Ha1 & _ & Hc1).
  assert (one_event = s1) as -> by (unfold one_event; by rewrite Hw).
  destruct (rollback_removes_exactly_owned Account.sha Account.config "tok"
    (Account.plan "p1" APPLIED) ltac:(simpl; lia) 5 (Account.undo "p1") s1 _ Ha1 Hc1)
    as (s' & r & Hr & _).
  - vm_compute. reflexivity.
  - exists s', r. exact Hr.
Defined.

Lemma write_retries_bounded_witness :
  ∃ s', write Account.config "tok" app_calendar_id
          (planned Account.sha Account.sha Account.config (Account.plan "p1" APPROVED)
             (Account.draft "a" 0))
          (fail_next_writes 2 (sandbox_create "tok" LIFEOS_PROPOSED_CALENDAR Account.empty).1)
        = (s', Ok 3).
Proof.
  destruct (write_retries_bounded Account.config "tok" 2
    (planned Account.sha Account.sha Account.config (Account.plan "p1" APPROVED)
       (Account.draft "a" 0)) "1"
    (fail_next_writes 2 (sandbox_create "tok" LIFEOS_PROPOSED_CALENDAR Account.empty).1) ∅)
    as (s' & Hs'); try reflexivity.
  - simpl. lia.
  - by split.
  - done.
  - destruct (decide _) as [_|Hn] in Hs'; [|simpl in Hn; lia].
    exists s'. exact (proj1 Hs').
Defined.

(** Re-approving an unchanged plan is refused: when a plan that was applied
    is proposed and approved again with the very same events, the second
    application stops with an external-edit refusal although nobody edited the
    calendar. *)
Theorem identical_replan_refused :
  (apply_plan Account.sha Account.sha Account.config (Ok "tok") (Account.plan "p2" APPROVED)
     Account.applied).2
  = Err (CalendarContractError "refusing to overwrite external_edit").
Proof. vm_compute. reflexivity. Qed.
