(* ===== verification/CalendarSync.v ===== *)
(** * Incremental synchronization agrees with full synchronization

    The provider logs every change it commits; replaying the changes after a
    sync token on the events known at that token gives the current events, so
    [sync] returns the same state from a previous one as from scratch. *)

From stdpp Require Import prelude base strings list gmap pretty relations.
From Stdlib Require Import ZArith Ascii.
From S2P Require Import Prelude PyTime PyText Authority Calendar CalendarSandbox CalendarApply.
#[local] Open Scope string_scope.
#[local] Open Scope list_scope.
#[local] Open Scope Z_scope.

(** One change of the provider between two syncs: a write, a deletion or a
    user's edit, whether or not it succeeds, or an injected fault. *)
Inductive provider_step (s : GoogleCalendarSandbox) : GoogleCalendarSandbox → Prop :=
| step_write token e :
    re_calendar_id e = app_calendar_id → re_deleted e = false →
    provider_step s (sandbox_write token {| cw_calendar_id := app_calendar_id; cw_event := e |} s).1
| step_delete token event_id :
    provider_step s
      (sandbox_delete token {| cd_calendar_id := app_calendar_id; cd_event_id := event_id |} s).1
| step_edit event_id summary : provider_step s (external_edit event_id summary s).1
| step_fail count : provider_step s (fail_next_writes count s)
| step_interrupt : provider_step s (interrupt_next_write_after_commit s)
| step_misreport : provider_step s (misreport_next_write s)
| step_expire : provider_step s (expire_sync_tokens s).

(** [s'] follows [s]: its log extends the log of [s] by [delta], all of it newer
    than the generation of [s], and replaying [delta] on [m] gives [m']. *)
Record follows (token : string) (s : GoogleCalendarSandbox) (m : gmap string RemoteEvent)
    (s' : GoogleCalendarSandbox) (m' : gmap string RemoteEvent) (delta : list (Z * RemoteEvent)) :
    Prop := {
  fo_account : account token s' m';
  fo_calendar : gs_proposed_calendar s' = Some (app_calendar LIFEOS_PROPOSED_CALENDAR);
  fo_generation : gs_generation s ≤ gs_generation s';
  fo_log : gs_changes s' = gs_changes s ++ delta;
  fo_newer : Forall (λ vc, gs_generation s < vc.1 ≤ gs_generation s') delta;
  fo_replay : foldl merge_event m (map snd delta) = m';
}.

Lemma follows_refl token s m :
  account token s m → gs_proposed_calendar s = Some (app_calendar LIFEOS_PROPOSED_CALENDAR) →
  follows token s m s m [].
Proof. intros Ha Hc. split; try done. by rewrite app_nil_r. Qed.

Lemma follows_trans token s1 m1 s2 m2 s3 m3 d d' :
  follows token s1 m1 s2 m2 d → follows token s2 m2 s3 m3 d' →
  follows token s1 m1 s3 m3 (d ++ d').
Proof.
  intros [_ _ Hg Hl Hn Hr] [Ha Hc Hg' Hl' Hn' Hr']. split; try done.
  - lia.
  - by rewrite Hl', Hl, app_assoc.
  - apply Forall_app. split.
    + eapply Forall_impl; [exact Hn|]. simpl. lia.
    + eapply Forall_impl; [exact Hn'|]. simpl. lia.
  - by rewrite map_app, foldl_app, Hr.
Qed.

(** Faults and failures touch neither the events nor the log. *)
Lemma follows_flags token s m a b c d e :
  account token s m → gs_proposed_calendar s = Some (app_calendar LIFEOS_PROPOSED_CALENDAR) →
  a = false → follows token s m (set_flags a b c d e s) m [].
Proof.
  intros Ha Hc ->. split; try done; [|by rewrite app_nil_r].
  destruct Ha as [Ht Hr Hs Hwf]. by split.
Qed.

(** A logged change is replayed by [merge_event]. *)
Lemma follows_change token s m e m' :
  account token s m → gs_proposed_calendar s = Some (app_calendar LIFEOS_PROPOSED_CALENDAR) →
  merge_event m e = m' → store_wf m' →
  follows token s m (log_change (<[app_calendar_id := m']> (gs_events s)) e s) m'
    [(gs_generation s + 1, e)].
Proof.
  intros [Ht Hr Hs Hwf] Hc Hm Hwf'. split; try done.
  - split; try done. simpl. rewrite Hc. split; [done|]. apply lookup_insert_eq.
  - simpl. lia.
  - apply Forall_singleton. simpl. lia.
Qed.

Lemma write_follows token s m e token' :
  account token s m → gs_proposed_calendar s = Some (app_calendar LIFEOS_PROPOSED_CALENDAR) →
  re_calendar_id e = app_calendar_id → re_deleted e = false →
  ∃ m' d, follows token s m
    (sandbox_write token' {| cw_calendar_id := app_calendar_id; cw_event := e |} s).1 m' d.
Proof.
  intros Ha Hc Hcal Hdel. pose proof (ac_store _ _ _ Ha) as Hs. rewrite Hc in Hs.
  destruct Hs as [_ Hev]. pose proof (ac_wf _ _ _ Ha) as Hwf. unfold sandbox_write.
  destruct (_authorize token' s) as [s0 [[]|err]] eqn:Hau; injection Hau as <- Hau;
    [|unfold mbind at 1, comp_bind at 1; unfold _authorize; rewrite Hau; eexists _, _; by apply follows_refl].
  rewrite (bind_ok _ _ s s tt) by (unfold _authorize; by rewrite Hau).
  cbn [cw_calendar_id cw_event]. rewrite (bind_ok _ _ _ _ _ (require_proposed_ok _ Hc)).
  unfold stateful. destruct (0 <? gs_write_failures s).
  { eexists _, _. apply follows_flags; [done..|]. apply (ac_revoked _ _ _ Ha). }
  rewrite Hev. destruct (stored_revision (m !! re_event_id e)) as [rev|] eqn:Hrev;
    [|eexists _, _; by apply follows_refl].
  pose proof (written_wf m e rev Hwf Hcal Hdel Hrev) as Hwf'.
  pose proof (follows_change token s m (with_revision e rev) _ Ha Hc eq_refl) as Hf.
  unfold merge_event in Hf. cbn [re_deleted with_revision re_event_id] in Hf.
  rewrite Hdel in Hf. specialize (Hf Hwf').
  rewrite (bind_ok _ _ _ _ _ (record_change_ok s m (with_revision e rev) Hev Hcal)).
  unfold write_response.
  assert (gs_revoked (log_change (<[app_calendar_id := <[re_event_id e := with_revision e rev]> m]>
            (gs_events s)) (with_revision e rev) s) = false) as Hrv by apply (ac_revoked _ _ _ Ha).
  destruct (gs_interrupt_after_write _); [|destruct (gs_misreport_write _)].
  - eexists _, _. eapply follows_trans; [exact Hf|].
    apply follows_flags; [apply Hf|apply Hf|exact Hrv].
  - eexists _, _. eapply follows_trans; [exact Hf|].
    apply follows_flags; [apply Hf|apply Hf|exact Hrv].
  - eexists _, _. exact Hf.
Qed.

Lemma delete_follows token s m event_id token' :
  account token s m → gs_proposed_calendar s = Some (app_calendar LIFEOS_PROPOSED_CALENDAR) →
  ∃ m' d, follows token s m
    (sandbox_delete token' {| cd_calendar_id := app_calendar_id; cd_event_id := event_id |} s).1 m' d.
Proof.
  intros Ha Hc. pose proof (ac_store _ _ _ Ha) as Hs. rewrite Hc in Hs. destruct Hs as [_ Hev].
  pose proof (ac_wf _ _ _ Ha) as Hwf. unfold sandbox_delete.
  destruct (_authorize token' s) as [s0 [[]|err]] eqn:Hau; injection Hau as <- Hau;
    [|unfold mbind at 1, comp_bind at 1; unfold _authorize; rewrite Hau; eexists _, _; by apply follows_refl].
  rewrite (bind_ok _ _ s s tt) by (unfold _authorize; by rewrite Hau).
  cbn [cd_calendar_id cd_event_id]. rewrite (bind_ok _ _ _ _ _ (require_proposed_ok _ Hc)).
  unfold stateful. rewrite Hev. destruct (m !! event_id) as [e|] eqn:He;
    [|eexists _, _; by apply follows_refl].
  destruct (Hwf _ _ He) as (Hid & Hcal & Hdel & n & Hn & Hp).
  unfold next_revision. rewrite Hp. cbn [fmap option_fmap option_map fst].
  replace (popped app_calendar_id event_id s) with
    (<[app_calendar_id := base.delete event_id m]> (gs_events s)).
  - eexists _, _. apply follows_change; [done|done| |by apply map_Forall_delete].
    unfold merge_event. cbn [re_deleted tombstone re_event_id]. by rewrite Hid.
  - unfold popped. apply map_eq. intros c. destruct (decide (c = app_calendar_id)) as [->|Hne].
    + by rewrite lookup_insert_eq, lookup_alter_eq, Hev.
    + by rewrite lookup_insert_ne, lookup_alter_ne.
Qed.

Lemma edit_follows token s m event_id summary :
  account token s m → gs_proposed_calendar s = Some (app_calendar LIFEOS_PROPOSED_CALENDAR) →
  ∃ m' d, follows token s m (external_edit event_id summary s).1 m' d.
Proof.
  intros Ha Hc. pose proof (ac_store _ _ _ Ha) as Hs. rewrite Hc in Hs. destruct Hs as [_ Hev].
  pose proof (ac_wf _ _ _ Ha) as Hwf. unfold external_edit, proposed_calendar_id. rewrite Hc.
  cbn [fmap option_fmap option_map]. fold app_calendar_id. rewrite Hev. cbn [mbind option_bind].
  destruct (m !! event_id) as [e|] eqn:He; [|eexists _, _; by apply follows_refl].
  destruct (next_revision e) as [rev|] eqn:Hrev; [|eexists _, _; by apply follows_refl].
  destruct (Hwf _ _ He) as (Hid & Hcal & Hdel & _).
  rewrite (record_change_ok s m (with_summary e summary rev) Hev Hcal). eexists _, _.
  apply follows_change; [done|done| |].
  - unfold merge_event. cbn [re_deleted with_summary]. by rewrite Hdel.
  - apply map_Forall_insert_2; [|done]. split_and!; try done.
    by apply (next_revision_ok m event_id e).
Qed.

Lemma provider_step_follows token s m s' :
  account token s m → gs_proposed_calendar s = Some (app_calendar LIFEOS_PROPOSED_CALENDAR) →
  provider_step s s' → ∃ m' d, follows token s m s' m' d.
Proof.
  intros Ha Hc []; [by apply write_follows|by apply delete_follows|by apply edit_follows|..];
    eexists _, _; apply follows_flags; try done; apply (ac_revoked _ _ _ Ha).
Qed.

Lemma provider_steps_follow token s m s' :
  account token s m → gs_proposed_calendar s = Some (app_calendar LIFEOS_PROPOSED_CALENDAR) →
  rtc provider_step s s' → ∃ m' d, follows token s m s' m' d.
Proof.
  intros Ha Hc Hs. revert m Ha Hc. induction Hs as [s|s1 s2 s3 Hs _ IH]; intros m Ha Hc.
  - eexists _, _. by apply follows_refl.
  - destruct (provider_step_follows token s1 m s2 Ha Hc Hs) as (m2 & d & Hf).
    destruct (IH m2 (fo_account _ _ _ _ _ _ Hf) (fo_calendar _ _ _ _ _ _ Hf)) as (m3 & d' & Hf').
    eexists _, _. by eapply follows_trans.
Qed.

(** The log is numbered by generations. *)
Definition log_ok (s : GoogleCalendarSandbox) : Prop :=
  0 ≤ gs_generation s ∧ Forall (λ vc, vc.1 ≤ gs_generation s) (gs_changes s).

Lemma changes_since_follows token s m s' m' d :
  log_ok s → follows token s m s' m' d → changes_since (gs_generation s) s' = map snd d.
Proof.
  intros [_ Hold] [_ _ _ Hlog Hnew _]. unfold changes_since. rewrite Hlog, List.filter_app.
  rewrite filter_none, filter_every; [done|..]; intros vc Hin.
  - rewrite Forall_forall in Hnew. apply Hnew in Hin. apply Z.ltb_lt. lia.
  - rewrite Forall_forall in Hold. apply Hold in Hin. apply Z.ltb_ge. lia.
Qed.

Lemma sandbox_sync_since token s0 m0 s1 m1 d :
  log_ok s0 → follows token s0 m0 s1 m1 d →
  sandbox_sync token app_calendar_id (Some (pretty (gs_generation s0))) s1
  = if (gs_generation s0 <? gs_minimum_sync_token s1) || (gs_generation s1 <? gs_generation s0)
    then (s1, Err (StaleSyncTokenError "sync token is stale"))
    else (s1, Ok {| sp_events := map snd d; sp_next_sync_token := pretty (gs_generation s1);
                    sp_full_sync := false |}).
Proof.
  intros Hlog Hf. pose proof (changes_since_follows _ _ _ _ _ _ Hlog Hf) as Hch.
  destruct Hf as [Ha Hc _ _ _ _]. unfold sandbox_sync.
  rewrite (bind_ok _ _ _ _ _ (authorize_ok _ _ _ Ha)).
  rewrite (bind_ok _ _ _ _ _ (require_proposed_ok _ Hc)). unfold stateful.
  rewrite py_int_pretty, Hch by apply Hlog. done.
Qed.

(** C20. Incremental synchronization is exact: for any sequence of writes,
    deletions, user edits, injected faults and expired tokens after a full
    sync, syncing from that state returns the very same state as syncing from
    scratch, falling back to a full sync when the token is stale. *)
Theorem incremental_sync_is_full_sync token s0 m0 s1 previous :
  account token s0 m0 →
  gs_proposed_calendar s0 = Some (app_calendar LIFEOS_PROPOSED_CALENDAR) → log_ok s0 →
  sync (Ok token) None s0 = (s0, Ok previous) → rtc provider_step s0 s1 →
  sync (Ok token) (Some previous) s1 = sync (Ok token) None s1.
Proof.
  intros Ha Hc Hlog Hsync Hsteps.
  destruct (provider_steps_follow token s0 m0 s1 Ha Hc Hsteps) as (m1 & d & Hf).
  pose proof (fo_account _ _ _ _ _ _ Hf) as Ha1. pose proof (fo_calendar _ _ _ _ _ _ Hf) as Hc1.
  rewrite (sync_none_ok _ _ _ Ha) in Hsync. injection Hsync as <-.
  rewrite (sync_none_ok _ _ _ Ha1). unfold sync, sync_result. rewrite Hc, Hc1.
  rewrite (bind_ok _ _ _ _ _ (lift_ok token s1)).
  rewrite (bind_ok _ _ _ _ _ (sandbox_find_ok _ _ _ Ha1)), Hc1.
  rewrite (bind_ok _ _ s1 s1 tt) by done. cbn [mbind option_bind ss_next_sync_token].
  pose proof (sandbox_sync_since token s0 m0 s1 m1 d Hlog Hf) as Hss.
  pose proof (ac_wf _ _ _ Ha1) as Hwf1. pose proof (ac_wf _ _ _ Ha) as Hwf0.
  destruct (_ || _) in Hss.
  - rewrite (bind_ok _ _ s1 s1 {| sp_events := sorted_events m1;
      sp_next_sync_token := pretty (gs_generation s1); sp_full_sync := true |}).
    + unfold merge_page. cbn [sp_events sp_full_sync sp_next_sync_token].
      rewrite merge_sorted by auto using store_wf_keyed, store_wf_live. done.
    + unfold catch. cbn [sync_events sandbox_transport]. fold app_calendar_id. rewrite Hss.
      by apply (sandbox_sync_ok _ _ _ Ha1).
  - rewrite (bind_ok _ _ _ _ _ (catch_ok _ _ _ _ _ Hss)). unfold merge_page.
    cbn [sp_events sp_full_sync sp_next_sync_token ss_events].
    rewrite events_by_id_sorted by (by apply store_wf_keyed).
    by rewrite (fo_replay _ _ _ _ _ _ Hf).
Qed.

Module Week.
Definition edited : RemoteEvent :=
  {| re_calendar_id := app_calendar_id; re_event_id := "e1"; re_summary := "Focus";
     re_starts_at := utc_datetime 0; re_ends_at := utc_datetime hour; re_ownership := None;
     re_revision := "pending"; re_deleted := false |}.
Definition start : GoogleCalendarSandbox :=
  (sandbox_create "tok" LIFEOS_PROPOSED_CALENDAR (new_sandbox "tok" "primary-1")).1.
Definition written : GoogleCalendarSandbox :=
  (sandbox_write "tok" {| cw_calendar_id := app_calendar_id; cw_event := edited |} start).1.
Definition later : GoogleCalendarSandbox := (external_edit "e1" "Deep focus" written).1.
Definition previous : CalendarSyncState :=
  {| ss_calendar_id := Some app_calendar_id; ss_next_sync_token := Some "0"; ss_events := [] |}.
End Week.

Lemma incremental_sync_is_full_sync_witness :
  sync (Ok "tok") (Some Week.previous) Week.later = sync (Ok "tok") None Week.later
  ∧ length (match (sync (Ok "tok") (Some Week.previous) Week.later).2 with
            | Ok st => ss_events st | Err _ => [] end) = 1%nat.
Proof.
  split; [|vm_compute; reflexivity].
  apply (incremental_sync_is_full_sync "tok" Week.start ∅).
  - split; try done.
  - reflexivity.
  - split; [done|constructor].
  - reflexivity.
  - eapply rtc_l; [by apply (step_write Week.start "tok" Week.edited)|].
    eapply rtc_l; [apply (step_edit Week.written "e1" "Deep focus")|]. apply rtc_refl.
Defined.
