(* ===== verification/Goals.v ===== *)
(** * The canonical goal graph ([goals.py])

    The Dream-to-Task graph is the [goal_graph_nodes] table, an append-only map
    from [record_id] to a row, next to the audit tables of the same encrypted
    connection.  Pydantic's JSON (de)serialisation and HMAC are parameters. *)

From stdpp Require Import prelude base strings list gmap.
From Stdlib Require Import ZArith.
From S2P Require Import Prelude PyTime PyText Transactions AuditLedger.
#[local] Open Scope string_scope.
#[local] Open Scope list_scope.

Module GoalNodeKind.
Inductive t := DREAM | GOAL | MILESTONE | PROJECT | QUEST | TASK.
#[export] Instance eq_dec : EqDecision t.
Proof. solve_decision. Defined.
Definition value (k : t) : string :=
  match k with
  | DREAM => "dream" | GOAL => "goal" | MILESTONE => "milestone"
  | PROJECT => "project" | QUEST => "quest" | TASK => "task"
  end.
End GoalNodeKind.
Export (hints) GoalNodeKind.

Record GoalNodeBase := {
  gn_record_id : string;
  gn_created_at : datetime;
  gn_title : string;
  gn_state : string;
}.

Inductive GoalGraphNode :=
| Dream (b : GoalNodeBase)
| Goal_ (b : GoalNodeBase) (dream_id : string)
| Milestone (b : GoalNodeBase) (goal_id : string)
| Project (b : GoalNodeBase) (milestone_id : string)
| Quest (b : GoalNodeBase) (project_id : string)
| Task_ (b : GoalNodeBase) (quest_id : string).

Definition node_base (n : GoalGraphNode) : GoalNodeBase :=
  match n with
  | Dream b => b | Goal_ b _ => b | Milestone b _ => b
  | Project b _ => b | Quest b _ => b | Task_ b _ => b
  end.

Definition node_kind (n : GoalGraphNode) : GoalNodeKind.t :=
  match n with
  | Dream _ => GoalNodeKind.DREAM | Goal_ _ _ => GoalNodeKind.GOAL
  | Milestone _ _ => GoalNodeKind.MILESTONE | Project _ _ => GoalNodeKind.PROJECT
  | Quest _ _ => GoalNodeKind.QUEST | Task_ _ _ => GoalNodeKind.TASK
  end.

Definition parent (n : GoalGraphNode) : option (string * GoalNodeKind.t) :=
  match n with
  | Dream _ => None
  | Goal_ _ i => Some (i, GoalNodeKind.DREAM)
  | Milestone _ i => Some (i, GoalNodeKind.GOAL)
  | Project _ i => Some (i, GoalNodeKind.MILESTONE)
  | Quest _ i => Some (i, GoalNodeKind.PROJECT)
  | Task_ _ i => Some (i, GoalNodeKind.QUEST)
  end.

Definition record_id (n : GoalGraphNode) : string := gn_record_id (node_base n).

(** The [NonEmpty] constraints a constructed node satisfies. *)
Definition node_ok (n : GoalGraphNode) : bool :=
  negb (String.eqb (gn_title (node_base n)) "") && negb (String.eqb (gn_state (node_base n)) "").

Record TaskExplanation := {
  te_task : GoalGraphNode;
  te_canonical_quest : GoalGraphNode;
  te_lineage : list string;
}.

Inductive GoalError :=
| GoalParentError (child_kind : GoalNodeKind.t) (parent_id : string)
| GoalNodeNotFoundError (missing : string)
| GoalValidationError                 (** a row that does not parse *)
| GoalIntegrityError                  (** duplicate primary key *)
| GoalLedgerError (e : AuditError).

(** ** Pydantic's JSON of a node *)

Class NodeCodec := {
  model_dump_json : GoalGraphNode → string;
  (** [GOAL_NODE_ADAPTER.validate_json] *)
  adapter_validate_json : string → option GoalGraphNode;
  (** [Model.model_validate_json] of the model with the given [kind] literal *)
  model_validate_json : GoalNodeKind.t → string → option GoalGraphNode;
}.

(** A dumped node parses back, and only as the model of its kind. *)
Class NodeCodecLaws `{NodeCodec} := {
  adapter_dump : ∀ n, node_ok n = true → adapter_validate_json (model_dump_json n) = Some n;
  model_dump : ∀ k n, node_ok n = true →
    model_validate_json k (model_dump_json n) = if decide (node_kind n = k) then Some n else None;
}.

(** ** Tables *)

Record goal_row := {
  gr_kind : string;
  gr_parent_id : option string;
  gr_content_json : string;
  gr_created_at : string;
}.

Record goal_db := {
  gd_nodes : gmap string goal_row;
  gd_audit : audit_db;
}.

Section repository.
Context (hmac : string → string → string) (audit_key : string) `{NodeCodec}.
Abbreviation M := (comp (connection goal_db) GoalError).

Definition get (record_id : string) (db : goal_db) : result GoalError (option GoalGraphNode) :=
  match gd_nodes db !! record_id with
  | None => Ok None
  | Some row =>
      match adapter_validate_json (gr_content_json row) with
      | Some n => Ok (Some n)
      | None => Err GoalValidationError
      end
  end.

Definition required (record_id : string) (model child_kind : GoalNodeKind.t) (db : goal_db) :
    result GoalError GoalGraphNode :=
  match gd_nodes db !! record_id with
  | None => Err (GoalParentError child_kind record_id)
  | Some row =>
      match model_validate_json model (gr_content_json row) with
      | Some n => Ok n
      | None => Err (GoalParentError child_kind record_id)
      end
  end.

Definition require_parent (n : GoalGraphNode) (db : goal_db) : result GoalError unit :=
  match parent n with
  | None => Ok tt
  | Some (parent_id, expected_kind) =>
      match get parent_id db with
      | Err e => Err e
      | Ok None => Err (GoalParentError (node_kind n) parent_id)
      | Ok (Some found) =>
          raise_if (negb (bool_decide (node_kind found = expected_kind)))
            (GoalParentError (node_kind n) parent_id)
      end
  end.

Definition row_of (n : GoalGraphNode) : goal_row :=
  {| gr_kind := GoalNodeKind.value (node_kind n); gr_parent_id := fst <$> parent n;
     gr_content_json := model_dump_json n;
     gr_created_at := isoformat (gn_created_at (node_base n)) |}.

Definition insert_node (n : GoalGraphNode) (db : goal_db) : result GoalError goal_db :=
  match gd_nodes db !! record_id n with
  | Some _ => Err GoalIntegrityError
  | None => Ok {| gd_nodes := <[record_id n := row_of n]> (gd_nodes db); gd_audit := gd_audit db |}
  end.

Definition creation_mutation (n : GoalGraphNode) (ctx : TransitionContext) : AuditMutation :=
  {| am_record_kind := if decide (node_kind n = GoalNodeKind.TASK) then TASK else GOAL;
     am_record_id := record_id n; am_state := gn_state (node_base n);
     am_action_class := "goal_graph." +:+ GoalNodeKind.value (node_kind n) +:+ ".created";
     am_source_fingerprint := tohex (hmac audit_key (model_dump_json n));
     am_actor := tc_actor ctx; am_correlation_id := tc_correlation_id ctx;
     am_occurred_at := tc_occurred_at ctx |}.

Definition append_audit (m : AuditMutation) (db : goal_db) : result GoalError goal_db :=
  match append hmac audit_key m (gd_audit db) with
  | (audit, Ok _) => Ok {| gd_nodes := gd_nodes db; gd_audit := audit |}
  | (_, Err e) => Err (GoalLedgerError e)
  end.

Definition verify_audit (db : goal_db) : result GoalError AuditVerification :=
  match verify_ledger hmac audit_key (gd_audit db) with
  | Ok v => Ok v
  | Err e => Err (GoalLedgerError e)
  end.

Definition add (n : GoalGraphNode) (ctx : TransitionContext) : M unit :=
  query verify_audit ≫= λ _,
  query (require_parent n) ≫= λ _,
  execute_dml (insert_node n) ≫= λ _,
  execute_dml (append_audit (creation_mutation n ctx)) ≫= λ _,
  stateful (λ c, (commit c, Ok tt)).

(** The parent field of a typed node. *)
Definition parent_id (n : GoalGraphNode) : string :=
  match parent n with Some p => p.1 | None => "" end.

Open Scope py_scope.

Definition lineage (quest : GoalGraphNode) (db : goal_db) : result GoalError (list string) :=
  let* canonical_project := required (parent_id quest) GoalNodeKind.PROJECT (node_kind quest) db in
  let* canonical_milestone :=
    required (parent_id canonical_project) GoalNodeKind.MILESTONE (node_kind canonical_project) db in
  let* canonical_goal :=
    required (parent_id canonical_milestone) GoalNodeKind.GOAL (node_kind canonical_milestone) db in
  let* canonical_dream :=
    required (parent_id canonical_goal) GoalNodeKind.DREAM (node_kind canonical_goal) db in
  Ok [record_id canonical_dream; record_id canonical_goal; record_id canonical_milestone;
      record_id canonical_project; record_id quest].

Definition explain_task (task_id : string) (db : goal_db) : result GoalError TaskExplanation :=
  let* task :=
    match required task_id GoalNodeKind.TASK GoalNodeKind.TASK db with
    | Err (GoalParentError _ _) => Err (GoalNodeNotFoundError task_id)
    | r => r
    end in
  let* quest := required (parent_id task) GoalNodeKind.QUEST (node_kind task) db in
  let* l := lineage quest db in
  Ok {| te_task := task; te_canonical_quest := quest; te_lineage := l ++ [record_id task] |}.

(** ** The graph invariant *)

(** [n] is the node stored under its own identifier. *)
Definition stored (db : goal_db) (n : GoalGraphNode) : Prop :=
  node_ok n = true ∧ gd_nodes db !! record_id n = Some (row_of n).

Definition parent_stored (db : goal_db) (n : GoalGraphNode) : Prop :=
  match parent n with
  | None => True
  | Some (i, k) => ∃ p, stored db p ∧ record_id p = i ∧ node_kind p = k
  end.

Definition graph_ok (db : goal_db) : Prop :=
  ∀ i row, gd_nodes db !! i = Some row →
    ∃ n, record_id n = i ∧ row = row_of n ∧ stored db n ∧ parent_stored db n.

Definition ledger_ok (db : goal_db) : Prop :=
  is_Some (db_anchor (gd_audit db)) ∧ ∃ v, verify_ledger hmac audit_key (gd_audit db) = Ok v.

Definition goals_ok (c : connection goal_db) : Prop :=
  graph_ok (live c) ∧ ledger_ok (live c) ∧ live c = durable c.

Context `{!NodeCodecLaws}.

Lemma required_stored db n k ck :
  stored db n → node_kind n = k → required (record_id n) k ck db = Ok n.
Proof.
  intros [Hok Hn] Hk. unfold required. rewrite Hn. simpl. rewrite model_dump by done.
  by rewrite decide_True.
Qed.

Lemma required_parent db n i k ck :
  parent n = Some (i, k) → parent_stored db n →
  ∃ p, required (parent_id n) k ck db = Ok p ∧ stored db p ∧ record_id p = i ∧ node_kind p = k.
Proof.
  unfold parent_stored, parent_id. intros -> (p & Hp & Hi & Hk). exists p. simpl.
  rewrite <- Hi at 1. by rewrite (required_stored db p k ck).
Qed.

Lemma graph_ok_parent db n : graph_ok db → stored db n → parent_stored db n.
Proof.
  intros Hg Hn. destruct (Hg _ _ (proj2 Hn)) as (n' & Hi & Hrow & Hs & Hp).
  assert (n = n') as ->; [|done].
  apply (f_equal gr_content_json) in Hrow. simpl in Hrow.
  apply (f_equal adapter_validate_json) in Hrow.
  rewrite !adapter_dump in Hrow by (apply Hn || apply Hs). by injection Hrow.
Qed.

Lemma get_stored db i r :
  graph_ok db → get i db = Ok (Some r) → stored db r ∧ record_id r = i.
Proof.
  intros Hg. unfold get. destruct (gd_nodes db !! i) as [row|] eqn:Hi; [|done].
  destruct (Hg i row Hi) as (n & Hn & -> & Hs & _). simpl.
  rewrite adapter_dump by apply Hs. by intros [= ->].
Qed.

Lemma require_parent_stored db n :
  graph_ok db → require_parent n db = Ok tt → parent_stored db n.
Proof.
  intros Hg. unfold require_parent, parent_stored. destruct (parent n) as [[i k]|]; [|done].
  destruct (get i db) as [[p|]|e] eqn:Hp; [|done|done].
  intros Hk%raise_if_ok. bool_to_prop. destruct (get_stored _ _ _ Hg Hp). by exists p.
Qed.

Lemma stored_mono db db' n : gd_nodes db ⊆ gd_nodes db' → stored db n → stored db' n.
Proof. intros Hsub [Hok Hn]. split; [done|]. by eapply lookup_weaken. Qed.

Lemma parent_stored_mono db db' n :
  gd_nodes db ⊆ gd_nodes db' → parent_stored db n → parent_stored db' n.
Proof.
  intros Hsub. unfold parent_stored. destruct (parent n) as [[i k]|]; [|done].
  intros (p & Hp & Hi & Hk). exists p. eauto using stored_mono.
Qed.

Lemma insert_node_ok db db' n :
  graph_ok db → node_ok n = true → parent_stored db n → insert_node n db = Ok db' →
  graph_ok db' ∧ gd_nodes db ⊆ gd_nodes db' ∧ stored db' n
  ∧ gd_nodes db' = <[record_id n := row_of n]> (gd_nodes db) ∧ gd_audit db' = gd_audit db.
Proof.
  intros Hg Hok Hp. unfold insert_node. destruct (gd_nodes db !! record_id n) eqn:Hnone; [done|].
  intros [= <-]. simpl.
  assert (gd_nodes db ⊆ <[record_id n := row_of n]> (gd_nodes db)) as Hsub
    by (by apply insert_subseteq).
  assert (stored {| gd_nodes := <[record_id n := row_of n]> (gd_nodes db);
                    gd_audit := gd_audit db |} n) as Hst.
  { split; [done|]. simpl. by rewrite lookup_insert_eq. }
  split_and!; [|done..]. intros i row. simpl. intros [[<- <-]|[Hne Hi]]%lookup_insert_Some.
  - exists n. split_and!; [done..|]. by eapply parent_stored_mono.
  - destruct (Hg i row Hi) as (n' & Hn' & Hrow & Hs & Hp'). exists n'.
    split_and!; [done|done|by eapply stored_mono|by eapply parent_stored_mono].
Qed.

Lemma append_audit_ok m db :
  ledger_ok db →
  ∃ db' e, append_audit m db = Ok db' ∧ gd_nodes db' = gd_nodes db ∧ ledger_ok db'
    ∧ entries (gd_audit db') = entries (gd_audit db) ++ [e] ∧ ae_record_id e = am_record_id m
    ∧ ae_actor e = am_actor m.
Proof.
  intros [Ha [v Hv]]. destruct (append_verified hmac audit_key m _ v Hv Ha) as [Happ Hv'].
  unfold append_audit. rewrite Happ. eexists _, _. split_and!; try done. split; [done|]. by eexists.
Qed.

(** What [add] does in every case. *)
Lemma add_cases n ctx c :
  goals_ok c → node_ok n = true →
  (∃ c' e, add n ctx c = (c', Err e) ∧ live c' = live c ∧ durable c' = durable c
     ∧ ¬ (require_parent n (live c) = Ok tt ∧ gd_nodes (live c) !! record_id n = None))
  ∨ (∃ c' e, add n ctx c = (c', Ok tt) ∧ goals_ok c' ∧ in_transaction c' = false
     ∧ parent_stored (live c) n ∧ gd_nodes (live c) !! record_id n = None
     ∧ gd_nodes (live c') = <[record_id n := row_of n]> (gd_nodes (live c))
     ∧ entries (gd_audit (live c')) = entries (gd_audit (live c)) ++ [e]
     ∧ ae_record_id e = record_id n ∧ ae_actor e = tc_actor ctx).
Proof.
  intros (Hg & Hl & Hd) Hok. pose proof Hl as [_ [v Hv]]. unfold add.
  erewrite bind_ok by (unfold query, verify_audit; by rewrite Hv).
  destruct (require_parent n (live c)) as [[]|e] eqn:Hp.
  2:{ left. exists c, e. erewrite bind_err by (unfold query; by rewrite Hp). naive_solver. }
  erewrite bind_ok by (unfold query; by rewrite Hp).
  set (c1 := if in_transaction c then c else begin_immediate c).
  assert (live c1 = live c ∧ durable c1 = durable c ∧ in_transaction c1 = true) as (H1 & H2 & H3).
  { subst c1. by destruct (in_transaction c) eqn:E. }
  destruct (insert_node n (live c)) as [db'|e] eqn:Hi.
  2:{ left. exists c1, e. erewrite bind_err by (unfold execute_dml, execute; fold c1; by rewrite H1, Hi).
      split_and!; [done..|]. unfold insert_node in Hi. case_match; naive_solver. }
  right. assert (gd_nodes (live c) !! record_id n = None) as Hnone.
  { unfold insert_node in Hi. by case_match. }
  pose proof (require_parent_stored _ _ Hg Hp) as Hps.
  destruct (insert_node_ok _ _ _ Hg Hok Hps Hi) as (Hg' & Hsub & Hst & Hnodes & Haud).
  erewrite bind_ok by (unfold execute_dml, execute; fold c1; by rewrite H1, Hi).
  assert (ledger_ok db') as Hl' by (unfold ledger_ok; by rewrite Haud).
  destruct (append_audit_ok (creation_mutation n ctx) db' Hl')
    as (db'' & e & Happ & Hn'' & Hl'' & Hent & Hrid & Hact).
  erewrite bind_ok by (unfold execute_dml, execute; simpl; rewrite H3; simpl; by rewrite Happ).
  eexists _, e. split; [done|]. simpl. rewrite Hn'', Hent, Haud, Hnodes.
  split_and!; try done. split_and!; [|done|done].
  intros i row. simpl. rewrite Hn''. intros Hir. destruct (Hg' i row Hir) as (m & ? & ? & ? & ?).
  exists m. split_and!; [done|done|eapply stored_mono; [|done]; by rewrite Hn''
    |eapply parent_stored_mono; [|done]; by rewrite Hn''].
Qed.

Lemma parent_stored_required db n :
  parent_stored db n → require_parent n db = Ok tt.
Proof.
  unfold parent_stored, require_parent. destruct (parent n) as [[i k]|]; [|done].
  intros (p & [Hok Hp] & <- & <-). unfold get. rewrite Hp. simpl. rewrite adapter_dump by done.
  by rewrite bool_decide_true.
Qed.

(** ** Histories of additions *)

Definition empty_graph : connection goal_db :=
  let db := {| gd_nodes := ∅; gd_audit := empty_ledger |} in Connection db db false.

(** Every state a fresh repository reaches by additions, failed ones included. *)
Inductive goal_history : connection goal_db → Prop :=
| history_empty : goal_history empty_graph
| history_add c n ctx :
    goal_history c → node_ok n = true → goal_history (add n ctx c).1.

Lemma goal_history_ok c : goal_history c → goals_ok c.
Proof.
  induction 1 as [|c n ctx _ IH Hok].
  - split_and!; [intros i row; simpl; by rewrite lookup_empty| |done].
    split; [by eexists|]. by eexists.
  - destruct (add_cases n ctx c IH Hok) as [(c' & e & -> & Hl & Hd & _)|(c' & e & -> & Hc' & _)];
      [|done]. destruct IH as (Hg & Hl' & Heq). unfold goals_ok. simpl. by rewrite Hl, Hd.
Qed.

(** [p] is the stored node that [n] names as its parent. *)
Definition child_of (db : goal_db) (n p : GoalGraphNode) : Prop :=
  stored db p ∧ parent n = Some (record_id p, node_kind p).

Lemma graph_ok_child db n k :
  graph_ok db → stored db n → snd <$> parent n = Some k →
  ∃ p, child_of db n p ∧ node_kind p = k
    ∧ ∀ ck, required (parent_id n) k ck db = Ok p.
Proof.
  intros Hg Hn Hk. destruct (parent n) as [[i k']|] eqn:Hp; [|done]. injection Hk as ->.
  pose proof (graph_ok_parent db n Hg Hn) as Hps. unfold parent_stored in Hps. rewrite Hp in Hps.
  destruct Hps as (p & Hsp & <- & <-). exists p. split_and!; [done|done|].
  intros ck. unfold parent_id. rewrite Hp. by apply required_stored.
Qed.

Lemma kind_parent n k :
  node_kind n = k →
  snd <$> parent n
  = match k with
    | GoalNodeKind.DREAM => None | GoalNodeKind.GOAL => Some GoalNodeKind.DREAM
    | GoalNodeKind.MILESTONE => Some GoalNodeKind.GOAL
    | GoalNodeKind.PROJECT => Some GoalNodeKind.MILESTONE
    | GoalNodeKind.QUEST => Some GoalNodeKind.PROJECT | GoalNodeKind.TASK => Some GoalNodeKind.QUEST
    end.
Proof. by intros <-; destruct n. Qed.

(** Every task explains itself: after any history of additions, a stored task
    resolves through its quest, project, milestone and goal to a root dream,
    each the stored parent of the next, and [explain_task] returns exactly that
    lineage, root first; any other identifier is reported as not found. *)
Theorem task_lineage_complete c task_id :
  goal_history c →
  (∀ t, stored (live c) t → node_kind t = GoalNodeKind.TASK → record_id t = task_id →
     ∃ d g m p q,
       explain_task task_id (live c)
       = Ok {| te_task := t; te_canonical_quest := q;
               te_lineage := map record_id [d; g; m; p; q; t] |}
       ∧ child_of (live c) t q ∧ child_of (live c) q p ∧ child_of (live c) p m
       ∧ child_of (live c) m g ∧ child_of (live c) g d ∧ node_kind d = GoalNodeKind.DREAM)
  ∧ ((∀ t, stored (live c) t → record_id t = task_id → node_kind t ≠ GoalNodeKind.TASK) →
     explain_task task_id (live c) = Err (GoalNodeNotFoundError task_id)).
Proof.
  intros (Hg & _ & _)%goal_history_ok. split.
  - intros t Ht Hk <-. unfold explain_task, lineage.
    rewrite (required_stored _ t _ _ Ht Hk). simpl.
    destruct (graph_ok_child _ t _ Hg Ht (kind_parent _ _ Hk)) as (q & [Hq Hqp] & Hqk & ->). simpl.
    destruct (graph_ok_child _ q _ Hg Hq (kind_parent _ _ Hqk)) as (p & [Hp Hpp] & Hpk & ->). simpl.
    destruct (graph_ok_child _ p _ Hg Hp (kind_parent _ _ Hpk)) as (m & [Hm Hmp] & Hmk & ->). simpl.
    destruct (graph_ok_child _ m _ Hg Hm (kind_parent _ _ Hmk)) as (g & [Hgg Hgp] & Hgk & ->). simpl.
    destruct (graph_ok_child _ g _ Hg Hgg (kind_parent _ _ Hgk)) as (d & [Hd Hdp] & Hdk & ->). simpl.
    exists d, g, m, p, q. done.
  - intros Hnone. unfold explain_task, required.
    destruct (gd_nodes (live c) !! task_id) as [row|] eqn:Hi; [|done].
    destruct (Hg _ _ Hi) as (n & Hn & -> & Hs & _). simpl. rewrite model_dump by apply Hs.
    rewrite decide_False; [done|]. by apply Hnone.
Qed.

(** Adding a node is atomic and audited: after any history, an addition
    either raises and leaves graph and ledger as they were, or commits a graph
    that gains exactly that node and a ledger that still verifies and gains
    exactly one entry naming it; it succeeds exactly when the required parent
    is stored and the identifier is new. *)
Theorem goal_addition_atomic c n ctx :
  goal_history c → node_ok n = true →
  let c' := (add n ctx c).1 in
  match (add n ctx c).2 with
  | Ok _ =>
      parent_stored (live c) n ∧ gd_nodes (live c) !! record_id n = None
      ∧ gd_nodes (live c') = <[record_id n := row_of n]> (gd_nodes (live c))
      ∧ (∃ e, entries (gd_audit (live c')) = entries (gd_audit (live c)) ++ [e]
           ∧ ae_record_id e = record_id n ∧ ae_actor e = tc_actor ctx)
      ∧ ledger_ok (live c') ∧ durable c' = live c' ∧ in_transaction c' = false
  | Err _ =>
      live c' = live c ∧ durable c' = durable c
      ∧ ¬ (parent_stored (live c) n ∧ gd_nodes (live c) !! record_id n = None)
  end.
Proof.
  intros Hc%goal_history_ok Hok. cbv zeta.
  destruct (add_cases n ctx c Hc Hok) as [(c' & e & -> & Hl & Hd & Hno)|
    (c' & e & -> & (Hg' & Hl' & Hd') & Hin & Hp & Hnone & Hnodes & Hent & Hid & Ha)]; simpl.
  - split_and!; [done..|]. intros [Hp Hnone]. apply Hno. split; [|done].
    by apply parent_stored_required.
  - split_and!; try done. by exists e.
Qed.
End repository.

(** ** A concrete graph *)

#[export] Instance GoalNodeBase_countable_dec : EqDecision GoalNodeBase.
Proof. solve_decision. Defined.
#[export] Instance GoalGraphNode_eq_dec : EqDecision GoalGraphNode.
Proof. solve_decision. Defined.
#[export] Instance GoalNodeBase_countable : Countable GoalNodeBase.
Proof.
  refine (inj_countable' (λ b, (gn_record_id b, gn_created_at b, gn_title b, gn_state b))
            (λ '(i, c, t, s), Build_GoalNodeBase i c t s) _). by intros [].
Defined.
Definition node_kind_index (n : GoalGraphNode) : Z :=
  match n with
  | Dream _ => 0 | Goal_ _ _ => 1 | Milestone _ _ => 2
  | Project _ _ => 3 | Quest _ _ => 4 | Task_ _ _ => 5
  end%Z.
Definition node_of_parts (x : Z * GoalNodeBase * string) : GoalGraphNode :=
  match x with
  | (0, b, _) => Dream b | (1, b, i) => Goal_ b i | (2, b, i) => Milestone b i
  | (3, b, i) => Project b i | (4, b, i) => Quest b i | (_, b, i) => Task_ b i
  end%Z.
#[export] Instance GoalGraphNode_countable : Countable GoalGraphNode.
Proof.
  refine (inj_countable' (λ n, (node_kind_index n, node_base n, parent_id n)) node_of_parts _).
  by intros [].
Defined.

Module Ladder.
#[export] Instance codec : NodeCodec := {
  model_dump_json := encode_text;
  adapter_validate_json s := n ← decode_text s; if node_ok n then Some n else None;
  model_validate_json k s :=
    n ← decode_text s; if node_ok n && bool_decide (node_kind n = k) then Some n else None;
}.
#[export] Instance codec_laws : NodeCodecLaws.
Proof.
  split.
  - intros n Hn. unfold adapter_validate_json, model_dump_json, codec.
    rewrite decode_encode_text. simpl. by rewrite Hn.
  - intros k n Hn. unfold model_validate_json, model_dump_json, codec.
    rewrite decode_encode_text. simpl. rewrite Hn. simpl. by case_bool_decide; case_decide.
Qed.
Definition mac (key payload : string) : string := key.
Definition base (i : string) : GoalNodeBase :=
  {| gn_record_id := i; gn_created_at := utc_datetime 0; gn_title := "t"; gn_state := "active" |}.
Definition ctx : TransitionContext :=
  {| tc_actor := "owner"; tc_correlation_id := "c"; tc_occurred_at := utc_datetime 5 |}.
Definition nodes : list GoalGraphNode :=
  [Dream (base "d"); Goal_ (base "g") "d"; Milestone (base "m") "g"; Project (base "p") "m";
   Quest (base "q") "p"; Task_ (base "x") "q"].
Definition grow (c : connection goal_db) (n : GoalGraphNode) : connection goal_db :=
  (add mac "k" n ctx c).1.
Definition graph : connection goal_db := foldl grow empty_graph nodes.
End Ladder.
Import (hints) Ladder.

Lemma ladder_history : goal_history Ladder.mac "k" Ladder.graph.
Proof. repeat (apply history_add; [|reflexivity]). apply history_empty. Qed.

Lemma ladder_task : stored (live Ladder.graph) (Task_ (Ladder.base "x") "q").
Proof. split; vm_compute; reflexivity. Qed.

Lemma task_lineage_complete_witness :
  te_lineage <$> (match explain_task "x" (live Ladder.graph) with Ok e => Some e | _ => None end)
  = Some ["d"; "g"; "m"; "p"; "q"; "x"]
  ∧ ∃ q, child_of (live Ladder.graph) (Task_ (Ladder.base "x") "q") q.
Proof.
  split; [vm_compute; reflexivity|].
  destruct (proj1 (task_lineage_complete Ladder.mac "k" Ladder.graph "x" ladder_history)
              _ ladder_task eq_refl eq_refl) as (d & g & m & p & q & _ & Hq & _).
  by exists q.
Defined.

Lemma goal_addition_atomic_witness :
  is_ok (add Ladder.mac "k" (Task_ (Ladder.base "y") "q") Ladder.ctx Ladder.graph).2 = true
  ∧ is_ok (add Ladder.mac "k" (Task_ (Ladder.base "y") "m") Ladder.ctx Ladder.graph).2 = false
  ∧ parent_stored (live Ladder.graph) (Task_ (Ladder.base "y") "q").
Proof.
  split; [vm_compute; reflexivity|]. split; [vm_compute; reflexivity|].
  pose proof (goal_addition_atomic Ladder.mac "k" Ladder.graph (Task_ (Ladder.base "y") "q")
                Ladder.ctx ladder_history eq_refl) as Hadd. cbv zeta in Hadd.
  assert (is_ok (add Ladder.mac "k" (Task_ (Ladder.base "y") "q") Ladder.ctx Ladder.graph).2
          = true) as Hok by (vm_compute; reflexivity).
  destruct (add Ladder.mac "k" (Task_ (Ladder.base "y") "q") Ladder.ctx Ladder.graph).2;
    [apply Hadd|discriminate Hok].
Defined.
