(* ===== verification/Conversation.v ===== *)
(** * The conversation event journal ([conversation_api.py])

    [ConversationJournal] is the ordering gate in front of one conversation's
    event stream: it accepts an event only with the next sequence number, a new
    identifier, a known participant and device, and a payload that fits the
    turn that is open. *)

From stdpp Require Import prelude base strings list gmap.
From Stdlib Require Import ZArith Lia.
From S2P Require Import Prelude PyTime PyUuid.
#[local] Open Scope string_scope.
#[local] Open Scope list_scope.
#[local] Open Scope Z_scope.

Inductive DeviceKind := IOS | MAC | WEB | CHANNEL.
Inductive ConversationState := ACTIVE | CANCELLED | COMPLETED.
#[export] Instance ConversationState_eq_dec : EqDecision ConversationState.
Proof. solve_decision. Defined.
Inductive ToolResultStatus := ToolOk | ToolError.
#[export] Instance ToolResultStatus_eq_dec : EqDecision ToolResultStatus.
Proof. solve_decision. Defined.

Inductive ConversationEventKind :=
| TRANSCRIPT_PARTIAL | TRANSCRIPT_FINAL | ATTACHMENT | TOOL_RESULT | CANCELLATION | RESUME | ERROR.
#[export] Instance ConversationEventKind_eq_dec : EqDecision ConversationEventKind.
Proof. solve_decision. Defined.

Record ConversationDevice := {
  cd_device_id : uuid;
  cd_participant_id : uuid;
  cd_kind : DeviceKind;
  cd_name : string;
  cd_created_at : Z;
}.

Record Conversation_ := {
  cv_conversation_id : uuid;
  cv_title : string;
  cv_participant_ids : list uuid;
  cv_device_ids : list uuid;
  cv_created_at : Z;
  cv_state : ConversationState;
}.

Inductive ConversationEventPayload :=
| TranscriptPartial (turn_id : uuid) (text : string)
| TranscriptFinal (turn_id : uuid) (text : string)
| Attachment (attachment_id : uuid) (mime_type : string) (size_bytes : Z) (reference : string)
| ToolResult (tool_call_id tool_name : string) (status : ToolResultStatus) (result_reference : string)
| Cancellation (turn_id : uuid) (reason : string)
| Resume (turn_id resume_from_turn_id : uuid)
| ConversationError (code message : string) (retryable : bool).

#[export] Instance ConversationEventPayload_eq_dec : EqDecision ConversationEventPayload.
Proof. unfold EqDecision, uuid. solve_decision. Defined.

(** The [kind] literal of a payload model. *)
Definition payload_kind (p : ConversationEventPayload) : ConversationEventKind :=
  match p with
  | TranscriptPartial _ _ => TRANSCRIPT_PARTIAL | TranscriptFinal _ _ => TRANSCRIPT_FINAL
  | Attachment _ _ _ _ => ATTACHMENT | ToolResult _ _ _ _ => TOOL_RESULT
  | Cancellation _ _ => CANCELLATION | Resume _ _ => RESUME | ConversationError _ _ _ => ERROR
  end.

Record ConversationEvent := {
  ce_event_id : uuid;
  ce_conversation_id : uuid;
  ce_participant_id : uuid;
  ce_device_id : uuid;
  ce_sequence : Z;
  ce_occurred_at : Z;
  ce_kind : ConversationEventKind;
  ce_payload : ConversationEventPayload;
}.

#[export] Instance ConversationEvent_eq_dec : EqDecision ConversationEvent.
Proof. unfold EqDecision, uuid. solve_decision. Defined.

Inductive ConversationRejection :=
| UNKNOWN_CONVERSATION | CONVERSATION_CLOSED | DUPLICATE_EVENT | OUT_OF_ORDER
| FOREIGN_PARTICIPANT | FOREIGN_DEVICE | DEVICE_PARTICIPANT_MISMATCH | KIND_MISMATCH
| FINAL_WITHOUT_PARTIAL | TURN_CLOSED | EVENT_AFTER_CANCELLATION | RESUME_WITHOUT_CANCELLATION.

Definition rejection_value (r : ConversationRejection) : string :=
  match r with
  | UNKNOWN_CONVERSATION => "unknown_conversation"
  | CONVERSATION_CLOSED => "conversation_closed"
  | DUPLICATE_EVENT => "duplicate_event"
  | OUT_OF_ORDER => "out_of_order"
  | FOREIGN_PARTICIPANT => "foreign_participant"
  | FOREIGN_DEVICE => "foreign_device"
  | DEVICE_PARTICIPANT_MISMATCH => "device_participant_mismatch"
  | KIND_MISMATCH => "kind_mismatch"
  | FINAL_WITHOUT_PARTIAL => "final_without_partial"
  | TURN_CLOSED => "turn_closed"
  | EVENT_AFTER_CANCELLATION => "event_after_cancellation"
  | RESUME_WITHOUT_CANCELLATION => "resume_without_cancellation"
  end.

Record ConversationAcceptance := {
  ca_accepted : bool;
  ca_rejection : option ConversationRejection;
  ca_next_sequence : Z;
}.

Record ConversationJournal := {
  cj_conversation : Conversation_;
  cj_devices : gmap uuid ConversationDevice;
  cj_next_sequence : Z;
  cj_seen_event_ids : gset uuid;
  cj_open_turn_id : option uuid;
  cj_cancelled_turn_id : option uuid;
}.

Definition new_journal (c : Conversation_) (devices : list ConversationDevice) :
    ConversationJournal :=
  {| cj_conversation := c;
     cj_devices := foldl (λ m d, <[cd_device_id d := d]> m) ∅ devices;
     cj_next_sequence := 1; cj_seen_event_ids := ∅;
     cj_open_turn_id := None; cj_cancelled_turn_id := None |}.

Definition envelope_rejection (e : ConversationEvent) (j : ConversationJournal) :
    option ConversationRejection :=
  if negb (ce_conversation_id e =? cv_conversation_id (cj_conversation j))
  then Some UNKNOWN_CONVERSATION
  else if negb (bool_decide (cv_state (cj_conversation j) = ACTIVE)) then Some CONVERSATION_CLOSED
  else if bool_decide (ce_event_id e ∈ cj_seen_event_ids j) then Some DUPLICATE_EVENT
  else if negb (bool_decide (ce_participant_id e ∈ cv_participant_ids (cj_conversation j)))
  then Some FOREIGN_PARTICIPANT
  else match cj_devices j !! ce_device_id e with
       | None => Some FOREIGN_DEVICE
       | Some device =>
           if negb (bool_decide (ce_device_id e ∈ cv_device_ids (cj_conversation j)))
           then Some FOREIGN_DEVICE
           else if negb (cd_participant_id device =? ce_participant_id e)
           then Some DEVICE_PARTICIPANT_MISMATCH
           else if negb (bool_decide (ce_kind e = payload_kind (ce_payload e)))
           then Some KIND_MISMATCH
           else if negb (ce_sequence e =? cj_next_sequence j) then Some OUT_OF_ORDER
           else None
       end.

(** A transcript event of turn [t]. *)
Definition transcript_rejection (final : bool) (t : uuid) (j : ConversationJournal) :
    option ConversationRejection :=
  if bool_decide (cj_cancelled_turn_id j = Some t) then Some EVENT_AFTER_CANCELLATION
  else match cj_open_turn_id j with
       | None => if final then Some FINAL_WITHOUT_PARTIAL else None
       | Some o => if negb (t =? o) then Some TURN_CLOSED else None
       end.

Definition payload_rejection (e : ConversationEvent) (j : ConversationJournal) :
    option ConversationRejection :=
  match ce_payload e with
  | TranscriptPartial t _ => transcript_rejection false t j
  | TranscriptFinal t _ => transcript_rejection true t j
  | Resume _ from =>
      if bool_decide (cj_cancelled_turn_id j = Some from) then None
      else Some RESUME_WITHOUT_CANCELLATION
  | _ => None
  end.

Definition with_turns (j : ConversationJournal) (open cancelled : option uuid) :
    ConversationJournal :=
  {| cj_conversation := cj_conversation j; cj_devices := cj_devices j;
     cj_next_sequence := cj_next_sequence j; cj_seen_event_ids := cj_seen_event_ids j;
     cj_open_turn_id := open; cj_cancelled_turn_id := cancelled |}.

Definition apply_payload_state (e : ConversationEvent) (j : ConversationJournal) :
    ConversationJournal :=
  match ce_payload e with
  | TranscriptPartial t _ => with_turns j (Some t) (cj_cancelled_turn_id j)
  | TranscriptFinal _ _ => with_turns j None (cj_cancelled_turn_id j)
  | Cancellation t _ => with_turns j None (Some t)
  | Resume t _ => with_turns j (Some t) None
  | _ => j
  end.

Definition reject (r : ConversationRejection) (j : ConversationJournal) : ConversationAcceptance :=
  {| ca_accepted := false; ca_rejection := Some r; ca_next_sequence := cj_next_sequence j |}.

(** The event is noted before its payload takes effect. *)
Definition note_event (e : ConversationEvent) (j : ConversationJournal) : ConversationJournal :=
  {| cj_conversation := cj_conversation j; cj_devices := cj_devices j;
     cj_next_sequence := cj_next_sequence j + 1;
     cj_seen_event_ids := {[ce_event_id e]} ∪ cj_seen_event_ids j;
     cj_open_turn_id := cj_open_turn_id j; cj_cancelled_turn_id := cj_cancelled_turn_id j |}.

Definition accept (e : ConversationEvent) (j : ConversationJournal) :
    ConversationJournal * ConversationAcceptance :=
  match envelope_rejection e j with
  | Some r => (j, reject r j)
  | None =>
      match payload_rejection e j with
      | Some r => (j, reject r j)
      | None =>
          let j' := apply_payload_state e (note_event e j) in
          (j', {| ca_accepted := true; ca_rejection := None;
                  ca_next_sequence := cj_next_sequence j' |})
      end
  end.

(** ** Streams of events *)

(** The journal after a stream, and the events it accepted. *)
Definition journal_step (r : ConversationJournal * list ConversationEvent) (e : ConversationEvent) :
    ConversationJournal * list ConversationEvent :=
  let '(j, acc) := r in
  let '(j', a) := accept e j in
  (j', if ca_accepted a then acc ++ [e] else acc).

Definition journal_run (j : ConversationJournal) (es : list ConversationEvent) :
    ConversationJournal * list ConversationEvent :=
  foldl journal_step (j, []) es.

(** The envelope rules for an event of conversation [c] with devices [ds]. *)
Definition belongs (c : Conversation_) (ds : gmap uuid ConversationDevice) (e : ConversationEvent) :
    Prop :=
  ce_conversation_id e = cv_conversation_id c ∧ cv_state c = ACTIVE
  ∧ ce_participant_id e ∈ cv_participant_ids c ∧ ce_device_id e ∈ cv_device_ids c
  ∧ (∃ d, ds !! ce_device_id e = Some d ∧ cd_participant_id d = ce_participant_id e)
  ∧ ce_kind e = payload_kind (ce_payload e).

Lemma envelope_rejection_None e j :
  envelope_rejection e j = None ↔
  belongs (cj_conversation j) (cj_devices j) e
  ∧ (ce_event_id e ∉ cj_seen_event_ids j) ∧ ce_sequence e = cj_next_sequence j.
Proof.
  unfold envelope_rejection, belongs. split.
  - intros He. repeat (case_match; try discriminate He). bool_to_prop. naive_solver.
  - intros ((H1 & H2 & H3 & H4 & (d & H5 & H6) & H7) & H8 & H9).
    rewrite H5, H1, H2, H6, H7, H9, !Z.eqb_refl. simpl. rewrite (bool_decide_false (_ ∈ _)) by done.
    by rewrite !bool_decide_true by done.
Qed.

(** What an event does to the turns, whatever the rest of the journal. *)
Definition turn_step (s : option uuid * option uuid) (e : ConversationEvent) :
    option uuid * option uuid :=
  match ce_payload e with
  | TranscriptPartial t _ => (Some t, s.2)
  | TranscriptFinal _ _ => (None, s.2)
  | Cancellation t _ => (None, Some t)
  | Resume t _ => (Some t, None)
  | _ => s
  end.
Definition turns_after (acc : list ConversationEvent) : option uuid * option uuid :=
  foldl turn_step (None, None) acc.

Lemma accept_cases e j :
  (∃ r, accept e j = (j, reject r j))
  ∨ (envelope_rejection e j = None ∧ payload_rejection e j = None
     ∧ ∃ j', accept e j = (j', {| ca_accepted := true; ca_rejection := None;
                                  ca_next_sequence := cj_next_sequence j + 1 |})
        ∧ cj_conversation j' = cj_conversation j ∧ cj_devices j' = cj_devices j
        ∧ cj_next_sequence j' = cj_next_sequence j + 1
        ∧ cj_seen_event_ids j' = {[ce_event_id e]} ∪ cj_seen_event_ids j
        ∧ (cj_open_turn_id j', cj_cancelled_turn_id j')
          = turn_step (cj_open_turn_id j, cj_cancelled_turn_id j) e).
Proof.
  unfold accept. destruct (envelope_rejection e j) as [r|] eqn:He; [left; by exists r|].
  destruct (payload_rejection e j) as [r|] eqn:Hp; [left; by exists r|].
  right. split_and!; [done..|]. unfold apply_payload_state, turn_step.
  destruct (ce_payload e); eexists; (split; [reflexivity|]); done.
Qed.

(** The state of the journal is determined by the events it accepted. *)
Record journal_inv (c : Conversation_) (ds : gmap uuid ConversationDevice)
    (r : ConversationJournal * list ConversationEvent) : Prop := {
  ji_conversation : cj_conversation r.1 = c;
  ji_devices : cj_devices r.1 = ds;
  ji_next : cj_next_sequence r.1 = 1 + Z.of_nat (length r.2);
  ji_sequences : map ce_sequence r.2 = seqZ 1 (Z.of_nat (length r.2));
  ji_seen : cj_seen_event_ids r.1 = list_to_set (map ce_event_id r.2);
  ji_ids : NoDup (map ce_event_id r.2);
  ji_belongs : Forall (belongs c ds) r.2;
  ji_turns : (cj_open_turn_id r.1, cj_cancelled_turn_id r.1) = turns_after r.2;
  ji_payloads : ∀ A1 e A2, r.2 = A1 ++ e :: A2 →
    ∃ j, (cj_open_turn_id j, cj_cancelled_turn_id j) = turns_after A1 ∧ payload_rejection e j = None;
}.

Lemma journal_inv_new c devices :
  journal_inv c (cj_devices (new_journal c devices)) (new_journal c devices, []).
Proof. split; try done; [constructor..|]. intros [|? ?] e A2; done. Qed.

Lemma journal_step_inv c ds r e : journal_inv c ds r → journal_inv c ds (journal_step r e).
Proof.
  destruct r as [j acc]. intros [Hc Hd Hn Hs Hseen Hids Hb Ht Hp]. simpl in *.
  destruct (accept_cases e j) as [(r & ->)|(He & Hpay & j' & -> & Hc' & Hd' & Hn' & Hseen' & Ht')];
    simpl; [done|].
  apply envelope_rejection_None in He as (Hbe & Hfresh & Hseq). rewrite Hc, Hd in Hbe.
  split; simpl; rewrite ?length_app, ?map_app; simpl.
  - congruence.
  - congruence.
  - rewrite Hn', Hn. lia.
  - rewrite Hs, Hseq, Hn, Nat2Z.inj_add, seqZ_app by lia. done.
  - rewrite Hseen', Hseen, list_to_set_app_L. simpl. set_solver.
  - apply NoDup_app. split_and!; [done| |by apply NoDup_singleton].
    intros i Hi ->%list_elem_of_singleton. apply Hfresh. rewrite Hseen. by apply elem_of_list_to_set.
  - apply Forall_app. by split; [|constructor].
  - unfold turns_after in *. rewrite foldl_snoc. by rewrite Ht', Ht.
  - intros A1 x A2 Heq. destruct A2 as [|y A2 _] using rev_ind.
    + apply app_inj_tail in Heq as [<- <-]. by exists j.
    + rewrite app_comm_cons, app_assoc in Heq. apply app_inj_tail in Heq as [Heq <-]. by eapply Hp.
Qed.

Lemma journal_run_inv c devices es :
  journal_inv c (cj_devices (new_journal c devices)) (journal_run (new_journal c devices) es).
Proof.
  unfold journal_run. generalize (journal_inv_new c devices).
  generalize (new_journal c devices, @nil ConversationEvent).
  induction es as [|e es IH]; intros r Hr; [done|]. by apply IH, journal_step_inv.
Qed.

Lemma journal_run_sublist j es : (journal_run j es).2 `sublist_of` es.
Proof.
  induction es as [|e es IH] using rev_ind; [done|].
  unfold journal_run. rewrite foldl_snoc. fold (journal_run j es).
  destruct (journal_run j es) as [j' acc]. simpl. destruct (accept e j') as [j'' a].
  destruct (ca_accepted a); simpl in *; [by apply sublist_app|].
  rewrite <- (app_nil_r acc). apply sublist_app; [done|]. apply sublist_nil_l.
Qed.

(** The journal yields one ordered stream: whatever events arrive, the
    accepted ones are a subsequence of the arrivals numbered 1, 2, 3, ... with
    pairwise distinct identifiers, each from a participant and a device of
    the active conversation that belong together, and the journal's next
    sequence is one past the last. *)
Theorem journal_stream_ordered c devices es :
  let '(j, acc) := journal_run (new_journal c devices) es in
  acc `sublist_of` es
  ∧ map ce_sequence acc = seqZ 1 (Z.of_nat (length acc))
  ∧ NoDup (map ce_event_id acc)
  ∧ cj_next_sequence j = 1 + Z.of_nat (length acc)
  ∧ Forall (belongs c (cj_devices (new_journal c devices))) acc.
Proof.
  pose proof (journal_run_inv c devices es) as [_ _ Hn Hs _ Hi Hb _ _].
  pose proof (journal_run_sublist (new_journal c devices) es) as Hsub.
  by destruct (journal_run _ es) as [j acc].
Qed.

(** ** Turns *)

Definition opens (t : uuid) (e : ConversationEvent) : Prop :=
  match ce_payload e with
  | TranscriptPartial t' _ => t' = t
  | Resume t' _ => t' = t
  | _ => False
  end.

(** Events that leave the open turn alone. *)
Definition neutral (e : ConversationEvent) : Prop :=
  match ce_payload e with
  | Attachment _ _ _ _ | ToolResult _ _ _ _ | ConversationError _ _ _ => True
  | _ => False
  end.

(** Events after which the cancellation of [t] is no longer the latest one. *)
Definition lifts_cancellation (t : uuid) (e : ConversationEvent) : Prop :=
  match ce_payload e with
  | Resume _ _ => True
  | Cancellation t' _ => t' ≠ t
  | _ => False
  end.

Lemma open_turn_opened acc t :
  (turns_after acc).1 = Some t →
  ∃ B1 o B2, acc = B1 ++ o :: B2 ∧ opens t o ∧ Forall neutral B2.
Proof.
  unfold turns_after. induction acc as [|e acc IH] using rev_ind; [done|].
  rewrite foldl_snoc. unfold turn_step at 1. destruct (ce_payload e) eqn:Hp; simpl; intros Ht.
  1, 6: injection Ht as ->; exists acc, e, []; unfold opens; by rewrite Hp.
  1, 4: discriminate Ht.
  all: destruct (IH Ht) as (B1 & o & B2 & -> & Ho & Hn); exists B1, o, (B2 ++ [e]);
    rewrite <- app_assoc; split_and!; [done|done|];
    apply Forall_app; (split; [done|]); constructor; [|done]; unfold neutral; by rewrite Hp.
Qed.

Lemma turns_after_app l1 l2 : turns_after (l1 ++ l2) = foldl turn_step (turns_after l1) l2.
Proof. apply foldl_app. Qed.

Lemma cancellation_lifted t acc s :
  s.2 = Some t → (foldl turn_step s acc).2 ≠ Some t →
  ∃ e, e ∈ acc ∧ lifts_cancellation t e.
Proof.
  revert s. induction acc as [|e acc IH]; intros s Hs Hne; [done|]. simpl in Hne.
  destruct (decide ((turn_step s e).2 = Some t)) as [Hs'|Hs'].
  - destruct (IH _ Hs' Hne) as (x & Hx & Hp). exists x. split; [by right|done].
  - exists e. split; [by left|]. unfold lifts_cancellation, turn_step in *.
    destruct (ce_payload e); simpl in *; try congruence; try done; intros ->; done.
Qed.

(** Turns are disciplined in every accepted stream: a final transcript of a
    turn comes after the event that opened that turn, with only attachments,
    tool results and errors in between; and once a turn is cancelled no
    transcript of it is accepted until a resume or the cancellation of another
    turn was accepted. *)
Theorem accepted_turns_disciplined c devices es acc :
  (journal_run (new_journal c devices) es).2 = acc →
  (∀ A1 e A2 t text, acc = A1 ++ e :: A2 → ce_payload e = TranscriptFinal t text →
     ∃ B1 o B2, A1 = B1 ++ o :: B2 ∧ opens t o ∧ Forall neutral B2)
  ∧ (∀ A1 k A2 e A3 t reason text, acc = A1 ++ k :: A2 ++ e :: A3 →
       ce_payload k = Cancellation t reason →
       ce_payload e = TranscriptPartial t text ∨ ce_payload e = TranscriptFinal t text →
       ∃ x, x ∈ A2 ∧ lifts_cancellation t x).
Proof.
  intros <-. pose proof (ji_payloads _ _ _ (journal_run_inv c devices es)) as Hp. split.
  - intros A1 e A2 t text Heq Hpay. destruct (Hp _ _ _ Heq) as (j & Ht & Hr).
    apply open_turn_opened. rewrite <- Ht. simpl.
    unfold payload_rejection, transcript_rejection in Hr. rewrite Hpay in Hr.
    run Hr. bool_to_prop. by subst.
  - intros A1 k A2 e A3 t reason text Heq Hk He.
    rewrite app_comm_cons, app_assoc in Heq. destruct (Hp _ _ _ Heq) as (j & Ht & Hr).
    apply (cancellation_lifted t A2 (turns_after (A1 ++ [k]))).
    { unfold turns_after. rewrite foldl_snoc. unfold turn_step at 1. by rewrite Hk. }
    rewrite <- turns_after_app, <- app_assoc. simpl. rewrite <- Ht. simpl. unfold payload_rejection, transcript_rejection in Hr.
    by destruct He as [Hpay|Hpay]; rewrite Hpay in Hr; case_bool_decide.
Qed.

Module Chat.
Definition talk : Conversation_ :=
  {| cv_conversation_id := 1; cv_title := "t"; cv_participant_ids := [7]; cv_device_ids := [9];
     cv_created_at := 0; cv_state := ACTIVE |}.
Definition handset : ConversationDevice :=
  {| cd_device_id := 9; cd_participant_id := 7; cd_kind := IOS; cd_name := "phone";
     cd_created_at := 0 |}.
Definition event (n : Z) (p : ConversationEventPayload) : ConversationEvent :=
  {| ce_event_id := n; ce_conversation_id := 1; ce_participant_id := 7; ce_device_id := 9;
     ce_sequence := n; ce_occurred_at := 0; ce_kind := payload_kind p; ce_payload := p |}.
Definition stream : list ConversationEvent :=
  [event 1 (TranscriptPartial 50 "he"); event 2 (TranscriptFinal 50 "hello");
   event 3 (TranscriptPartial 51 "st"); event 4 (Cancellation 51 "barge_in");
   event 5 (TranscriptPartial 51 "late"); event 5 (Cancellation 52 "x");
   event 6 (TranscriptPartial 51 "late")].
End Chat.

Lemma accepted_turns_disciplined_witness :
  length (journal_run (new_journal Chat.talk [Chat.handset]) Chat.stream).2 = 6%nat
  ∧ ∃ B1 o B2, [Chat.event 1 (TranscriptPartial 50 "he")] = B1 ++ o :: B2 ∧ opens 50 o.
Proof.
  split; [vm_compute; reflexivity|].
  destruct (proj1 (accepted_turns_disciplined Chat.talk [Chat.handset] Chat.stream _ eq_refl)
              [Chat.event 1 (TranscriptPartial 50 "he")] (Chat.event 2 (TranscriptFinal 50 "hello"))
              (skipn 2 (journal_run (new_journal Chat.talk [Chat.handset]) Chat.stream).2)
              50 "hello") as (B1 & o & B2 & H1 & H2 & _).
  - vm_compute. reflexivity.
  - reflexivity.
  - by exists B1, o, B2.
Defined.
