(* ===== verification/Voice.v ===== *)
(** * Voice relay: models, consent, provider start-up, transcripts and tokens
    ([voice/models.py], [privacy.py], [provider.py], [journal.py], [tokens.py])

    Times are UTC instants, as the service's [Clock] yields them.  SHA-256, HMAC,
    base64 and the random nonce are parameters of the token manager; the
    realtime provider is a class of operations on a state of its own. *)

From stdpp Require Import prelude base strings list gmap.
From Stdlib Require Import ZArith Lia.
From S2P Require Import Prelude PyTime PyText PyUuid Enrollment Conversation.
#[local] Open Scope string_scope.
#[local] Open Scope list_scope.
#[local] Open Scope Z_scope.

Definition SESSION_TOKEN_TTL : Z := 10 * minute.
Definition RECONNECT_WINDOW : Z := 30 * second.
Definition TRANSCRIPT_RETENTION : Z := 180 * 24 * 60 * minute.
Definition ROOT_KEY_ROTATION_INTERVAL : Z := 90 * 24 * 60 * minute.
Definition MAX_PCM_FRAME_BYTES : Z := 4800.

Inductive VoiceSurface :=
| PUSH_TO_TALK | APP_SHORTCUT | BACK_TAP | ACTION_BUTTON | CONTROL_CENTER | LOCK_SCREEN
| NOTIFICATION.
#[export] Instance VoiceSurface_eq_dec : EqDecision VoiceSurface.
Proof. solve_decision. Defined.

Inductive SessionMode := PROVIDER_AUDIO | LOCAL_TEXT.
Inductive VoiceEventKind := VOICE_PARTIAL | VOICE_FINAL | ACTION_PROGRESS | VOICE_CANCELLATION.
Inductive ProviderRetentionType :=
| ZERO_DATA_RETENTION | MODIFIED_ABUSE_MONITORING | ORGANIZATION_DEFAULT.

(** What a provider call raises: [ProviderUnavailableError] or anything else. *)
Inductive ProviderError :=
| ProviderUnavailableError (provider : string)
| ProviderFailure (what : string).

Inductive VoiceError :=
| VoiceAccessError (reason : string)
| VoiceOrderError (reason : string)
| VoiceProviderError (e : ProviderError)
| RecoveryEnvelopeError (reference : string)
| VoiceValueError                            (** [ValueError] and pydantic validation *)
| VoiceKeyError                              (** a session identifier with no session *)
| VoiceIdentityError (e : EnrollmentError).

Record SessionStartRequest := {
  sr_device_id : string;
  sr_public_key_fingerprint : string;
  sr_participant_id : uuid;
  sr_conversation_id : uuid;
  sr_surface : VoiceSurface;
}.

Record SessionToken := {
  st_value : string;
  st_session_id : uuid;
  st_device_id : string;
  st_issued_at : Z;
  st_expires_at : Z;
}.

Record AudioFrame := {
  af_event_id : Z;
  af_turn_id : uuid;
  af_pcm : string;
}.

(** Field constraints and [require_pcm16_alignment]. *)
Definition frame_ok (f : AudioFrame) : bool :=
  let n := Z.of_nat (String.length (af_pcm f)) in
  (1 <=? af_event_id f) && (2 <=? n) && (n <=? MAX_PCM_FRAME_BYTES) && (n mod 2 =? 0).

Record VoiceEvent := {
  ve_event_id : Z;
  ve_kind : VoiceEventKind;
  ve_turn_id : uuid;
  ve_text : string;
}.

Record ProviderSessionConfig := {
  pc_project_id : string;
  pc_transcript_context : list string;
}.

(** [project_id] is non-empty and each snippet has 1 to 256 characters. *)
Definition config_ok (c : ProviderSessionConfig) : bool :=
  negb (String.eqb (pc_project_id c) "")
  && forallb (λ s, negb (String.eqb s "") && Nat.leb (String.length s) 256) (pc_transcript_context c).

(** ** Consent and retention *)

Record ConsentRecord := {
  cr_granted_at : Z;
  cr_withdrawn_at : option Z;
}.

(** One record per surface; a surface is the key. *)
Definition ConsentRegistry : Type := list (VoiceSurface * ConsentRecord).

Definition grant (surface : VoiceSurface) (granted_at : Z) (r : ConsentRegistry) : ConsentRegistry :=
  dict_set surface {| cr_granted_at := granted_at; cr_withdrawn_at := None |} r.

Definition withdraw (surface : VoiceSurface) (withdrawn_at : Z) (r : ConsentRegistry) :
    ConsentRegistry :=
  match dict_get surface r with
  | None => r
  | Some current =>
      dict_set surface {| cr_granted_at := cr_granted_at current;
                          cr_withdrawn_at := Some withdrawn_at |} r
  end.

Definition is_granted (surface : VoiceSurface) (now : Z) (r : ConsentRegistry) : bool :=
  match dict_get surface r with
  | None => false
  | Some c => (cr_granted_at c <=? now)
              && match cr_withdrawn_at c with None => true | Some _ => false end
  end.

Record RetentionVerification := {
  rv_project_id : string;
  rv_retention_type : ProviderRetentionType;
  rv_store : bool;
  rv_verified_at : Z;
  rv_valid_until : Z;
}.

Definition safe_retention (t : ProviderRetentionType) : bool :=
  match t with
  | ZERO_DATA_RETENTION | MODIFIED_ABUSE_MONITORING => true
  | ORGANIZATION_DEFAULT => false
  end.

Definition authorizes (v : RetentionVerification) (project_id : string) (now : Z) : bool :=
  if negb (String.eqb (rv_project_id v) project_id) || rv_store v
     || negb ((rv_verified_at v <=? now) && (now <? rv_valid_until v))
  then false
  else safe_retention (rv_retention_type v).

(** ** Root-key rotation *)

Inductive KeyRotationReason := SCHEDULED | COMPROMISE.

Record KeychainRootKeyHandle := {
  kh_reference : string;
  kh_generation : Z;
  kh_activated_at : Z;
}.

Record OfflineRecoveryEnvelope := {
  oe_reference : string;
  oe_created_at : Z;
  oe_offline : bool;
  oe_sealed : bool;
  oe_audit_chain_verified : bool;
}.

Record KeyRotationPlan := {
  kp_replacement_reference : string;
  kp_envelope : OfflineRecoveryEnvelope;
  kp_reason : KeyRotationReason;
  kp_now : Z;
}.

Section rotation.
Context {K : Type} (rotate_database_key : string → string → string → comp K VoiceError unit).

Definition rotate (current : KeychainRootKeyHandle) (plan : KeyRotationPlan) :
    comp K VoiceError KeychainRootKeyHandle :=
  let envelope := kp_envelope plan in
  throw_if (negb (oe_offline envelope && oe_sealed envelope && oe_audit_chain_verified envelope))
    (RecoveryEnvelopeError (oe_reference envelope)) ≫= λ _,
  throw_if (match kp_reason plan with
            | SCHEDULED => kp_now plan <? kh_activated_at current + ROOT_KEY_ROTATION_INTERVAL
            | COMPROMISE => false
            end) VoiceValueError ≫= λ _,
  rotate_database_key (kh_reference current) (kp_replacement_reference plan)
    (oe_reference envelope) ≫= λ _,
  mret {| kh_reference := kp_replacement_reference plan;
          kh_generation := kh_generation current + 1; kh_activated_at := kp_now plan |}.
End rotation.

(** ** Final transcripts *)

Record TranscriptEntry := {
  tr_session_id : uuid;
  tr_turn_id : uuid;
  tr_text : string;
  tr_finalized_at : Z;
  tr_expires_at : Z;
}.

(** [voice_transcripts], with [turn_id] as its primary key. *)
Definition transcripts : Type := list TranscriptEntry.

Definition entry_for (turn_id : uuid) (t : transcripts) : option TranscriptEntry :=
  List.find (λ e, tr_turn_id e =? turn_id) t.

Definition append_final (now : Z) (session_id turn_id : uuid) (text : string) :
    comp transcripts VoiceError TranscriptEntry := λ t,
  match entry_for turn_id t with
  | Some existing =>
      if negb (String.eqb (tr_text existing) text)
      then (t, Err (VoiceOrderError "conflicting final transcript")) else (t, Ok existing)
  | None =>
      if String.eqb text "" then (t, Err VoiceValueError)
      else
        let entry := {| tr_session_id := session_id; tr_turn_id := turn_id; tr_text := text;
                        tr_finalized_at := now; tr_expires_at := now + TRANSCRIPT_RETENTION |} in
        (t ++ [entry], Ok entry)
  end.

(** The columns are texts: [isoformat] of the UTC times and [str] of the UUIDs. *)
Definition iso (t : Z) : string := isoformat (utc_datetime t).
Definition iso_leb (a b : Z) : bool := negb (String.ltb (iso b) (iso a)).

(** [ORDER BY finalized_at, turn_id] *)
Definition transcript_before (a b : TranscriptEntry) : bool :=
  String.ltb (iso (tr_finalized_at a)) (iso (tr_finalized_at b))
  || (String.eqb (iso (tr_finalized_at a)) (iso (tr_finalized_at b))
      && String.ltb (uuid_str (tr_turn_id a)) (uuid_str (tr_turn_id b))).

Definition transcript_entries (now : Z) (t : transcripts) : list TranscriptEntry :=
  py_sorted transcript_before (List.filter (λ e, String.ltb (iso now) (iso (tr_expires_at e))) t).

Definition last_n {A : Type} (n : nat) (l : list A) : list A := skipn (length l - n) l.

Definition latest_context (now : Z) (limit : nat) (t : transcripts) : list string :=
  map (λ e, String.substring 0 256 (tr_text e)) (last_n limit (transcript_entries now t)).

Definition purge_expired (now later : Z) (t : transcripts) : transcripts * Z :=
  (List.filter (λ e, negb (iso_leb (tr_expires_at e) later)) t,
   Z.of_nat (length (List.filter (λ e, iso_leb (tr_expires_at e) now) t))).

(** ** The realtime provider *)

Class RealtimeProvider (P : Type) := {
  provider_start : ProviderSessionConfig → comp P ProviderError string;
  send_audio : string → string → comp P ProviderError unit;
  cancel_response : string → comp P ProviderError unit;
  close : string → comp P ProviderError unit;
}.

Definition start_provider_session `{RealtimeProvider P} (consent : ConsentRegistry)
    (retention : RetentionVerification) (t : transcripts) (project_id : string)
    (surface : VoiceSurface) (now later : Z) :
    comp P VoiceError (SessionMode * option string * string) :=
  let authorized := is_granted surface now consent && authorizes retention project_id now in
  if negb authorized then mret (LOCAL_TEXT, None, "privacy_gate_closed")
  else
    let config := {| pc_project_id := project_id;
                     pc_transcript_context := latest_context later 2 t |} in
    throw_if (negb (config_ok config)) VoiceValueError ≫= λ _, stateful (λ p,
    match provider_start config p with
    | (p', Ok handle) => (p', Ok (PROVIDER_AUDIO, Some handle, "provider_enabled"))
    | (p', Err (ProviderUnavailableError _)) => (p', Ok (LOCAL_TEXT, None, "provider_unavailable"))
    | (p', Err e) => (p', Err (VoiceProviderError e))
    end).

(** ** Session tokens *)

Definition TOKEN_NONCE_BYTES : nat := 32.

Record TokenRecord := { tk_token : SessionToken; tk_digest : string }.

Record SessionTokenManager := {
  tm_signing_key : string;
  tm_records : gmap string TokenRecord;
}.

Section tokens.
Context (sha256 : string → string) (hmac : string → string → string).
Context (b64encode : string → string) (b64decode : string → option string).

Definition token_binding (session_id : uuid) (device_id : string) (issued_at : Z) : string :=
  join unit_separator [uuid_str session_id; device_id; iso issued_at].

Definition with_records (m : SessionTokenManager) (r : gmap string TokenRecord) :
    SessionTokenManager :=
  {| tm_signing_key := tm_signing_key m; tm_records := r |}.

(** [nonce] is the result of [secrets.token_bytes]. *)
Definition issue (nonce : string) (session_id : uuid) (device_id : string) (now : Z)
    (m : SessionTokenManager) : SessionTokenManager * SessionToken :=
  let binding := token_binding session_id device_id now in
  let signature := hmac (tm_signing_key m) (nonce +:+ binding) in
  let value := b64encode (nonce +:+ signature) in
  let token := {| st_value := value; st_session_id := session_id; st_device_id := device_id;
                  st_issued_at := now; st_expires_at := now + SESSION_TOKEN_TTL |} in
  let digest := sha256 value in
  (with_records m (<[digest := {| tk_token := token; tk_digest := digest |}]> (tm_records m)), token).

Definition verified_record (value : string) (m : SessionTokenManager) :
    result VoiceError TokenRecord :=
  match tm_records m !! sha256 value with
  | None => Err (VoiceAccessError "unknown voice session token")
  | Some record =>
      match b64decode value with
      | None => Err (VoiceAccessError "malformed voice session token")
      | Some decoded =>
          let nonce := String.substring 0 TOKEN_NONCE_BYTES decoded in
          let signature := String.substring TOKEN_NONCE_BYTES (String.length decoded) decoded in
          let t := tk_token record in
          let binding := token_binding (st_session_id t) (st_device_id t) (st_issued_at t) in
          let expected := hmac (tm_signing_key m) (nonce +:+ binding) in
          if negb (Nat.eqb (String.length nonce) TOKEN_NONCE_BYTES)
             || negb (String.eqb signature expected)
          then Err (VoiceAccessError "invalid voice session token")
          else Ok record
      end
  end.

Definition verify (value : string) (now : Z) (m : SessionTokenManager) :
    result VoiceError SessionToken :=
  match verified_record value m with
  | Err e => Err e
  | Ok record =>
      if st_expires_at (tk_token record) <=? now
      then Err (VoiceAccessError "voice session token expired") else Ok (tk_token record)
  end.

Definition verify_for_resume (value : string) (m : SessionTokenManager) :
    result VoiceError SessionToken :=
  match verified_record value m with Err e => Err e | Ok record => Ok (tk_token record) end.

Definition replace (nonce value : string) (now : Z) : comp SessionTokenManager VoiceError SessionToken :=
  λ m, match verified_record value m with
       | Err e => (m, Err e)
       | Ok old =>
           let m' := with_records m (delete (tk_digest old) (tm_records m)) in
           let '(m'', token) :=
             issue nonce (st_session_id (tk_token old)) (st_device_id (tk_token old)) now m' in
           (m'', Ok token)
       end.

Definition invalidate (value : string) (m : SessionTokenManager) : SessionTokenManager :=
  with_records m (delete (sha256 value) (tm_records m)).

(** ** The manager is a finite map from token values to tokens *)

Context (b64_roundtrip : ∀ s, b64decode (b64encode s) = Some s).
Context (sha256_inj : ∀ s s', sha256 s = sha256 s' → s = s').

(** Every record is one that [issue] wrote under its own digest. *)
Definition tokens_ok (m : SessionTokenManager) : Prop :=
  ∀ d r, tm_records m !! d = Some r →
    tk_digest r = d ∧ d = sha256 (st_value (tk_token r))
    ∧ st_expires_at (tk_token r) = st_issued_at (tk_token r) + SESSION_TOKEN_TTL
    ∧ ∃ nonce, String.length nonce = TOKEN_NONCE_BYTES
        ∧ st_value (tk_token r) = b64encode (nonce +:+ hmac (tm_signing_key m)
            (nonce +:+ token_binding (st_session_id (tk_token r)) (st_device_id (tk_token r))
                         (st_issued_at (tk_token r)))).

Definition token_for (m : SessionTokenManager) (value : string) : option SessionToken :=
  tk_token <$> tm_records m !! sha256 value.

Lemma substring_app_l a b : String.substring 0 (String.length a) (a +:+ b) = a.
Proof. induction a as [|c a IH]; simpl; [by destruct b|]. by rewrite IH. Qed.

Lemma substring_full s : String.substring 0 (String.length s) s = s.
Proof. induction s as [|c s IH]; simpl; [done|]. by rewrite IH. Qed.

Lemma substring_long s n : (String.length s <= n)%nat → String.substring 0 n s = s.
Proof.
  revert n. induction s as [|c s IH]; intros [|n] Hn; simpl in *; try done; [lia|].
  by rewrite IH by lia.
Qed.

Lemma substring_app_r a b n :
  (String.length b <= n)%nat → String.substring (String.length a) n (a +:+ b) = b.
Proof. intros Hn. induction a as [|c a IH]; simpl; [by apply substring_long|done]. Qed.

Lemma string_length_app a b : String.length (a +:+ b) = (String.length a + String.length b)%nat.
Proof. induction a as [|c a IH]; simpl; [done|]. by rewrite IH. Qed.

Lemma verified_record_lookup m value :
  tokens_ok m →
  verified_record value m
  = match tm_records m !! sha256 value with
    | Some r => Ok r
    | None => Err (VoiceAccessError "unknown voice session token")
    end.
Proof.
  intros Hm. unfold verified_record. destruct (tm_records m !! sha256 value) as [r|] eqn:Hr; [|done].
  destruct (Hm _ _ Hr) as (_ & Hd & _ & nonce & Hlen & Hv).
  apply sha256_inj in Hd. rewrite Hd, Hv, b64_roundtrip, <- Hlen.
  rewrite substring_app_l, substring_app_r by (rewrite string_length_app; lia).
  by rewrite Nat.eqb_refl, String.eqb_refl.
Qed.

Lemma token_for_value m value t : tokens_ok m → token_for m value = Some t → st_value t = value.
Proof.
  intros Hm. unfold token_for. destruct (tm_records m !! _) as [r|] eqn:Hr; [|done].
  intros [= <-]. destruct (Hm _ _ Hr) as (_ & Hd & _). by apply sha256_inj in Hd.
Qed.

Lemma issue_spec nonce sid dev now m :
  tokens_ok m → String.length nonce = TOKEN_NONCE_BYTES →
  let '(m', t) := issue nonce sid dev now m in
  tokens_ok m' ∧ st_session_id t = sid ∧ st_device_id t = dev ∧ st_issued_at t = now
  ∧ st_expires_at t = now + SESSION_TOKEN_TTL
  ∧ ∀ v, token_for m' v = if String.eqb v (st_value t) then Some t else token_for m v.
Proof.
  intros Hm Hn. simpl. split_and!; try done.
  - intros d r. simpl. intros [[<- <-]|[_ Hr]]%lookup_insert_Some; [|by apply Hm].
    split_and!; [done..|]. by exists nonce.
  - intros v. unfold token_for. simpl.
    destruct (String.eqb_spec v (b64encode (nonce +:+ hmac (tm_signing_key m) (nonce +:+ token_binding sid dev now)))) as [->|Hne].
    + by rewrite lookup_insert_eq.
    + rewrite lookup_insert_ne; [done|]. intros Heq. apply Hne. by apply sha256_inj in Heq.
Qed.

Lemma delete_token_spec value m :
  tokens_ok m →
  tokens_ok (with_records m (delete (sha256 value) (tm_records m)))
  ∧ ∀ v, token_for (with_records m (delete (sha256 value) (tm_records m))) v
         = if String.eqb v value then None else token_for m v.
Proof.
  intros Hm. split.
  - intros d r. simpl. intros [_ Hr]%lookup_delete_Some. by apply Hm.
  - intros v. unfold token_for. simpl. destruct (String.eqb_spec v value) as [->|Hne].
    + by rewrite lookup_delete_eq.
    + rewrite lookup_delete_ne; [done|]. intros Heq. apply Hne. by apply sha256_inj in Heq.
Qed.

Lemma replace_spec nonce value now m :
  tokens_ok m → String.length nonce = TOKEN_NONCE_BYTES →
  match token_for m value with
  | None => replace nonce value now m = (m, Err (VoiceAccessError "unknown voice session token"))
  | Some old =>
      ∃ m' t, replace nonce value now m = (m', Ok t) ∧ tokens_ok m'
        ∧ st_session_id t = st_session_id old ∧ st_device_id t = st_device_id old
        ∧ st_issued_at t = now ∧ st_expires_at t = now + SESSION_TOKEN_TTL
        ∧ ∀ v, token_for m' v = if String.eqb v (st_value t) then Some t
                                else if String.eqb v value then None else token_for m v
  end.
Proof.
  intros Hm Hn. unfold replace. rewrite verified_record_lookup by done.
  unfold token_for at 1. destruct (tm_records m !! sha256 value) as [r|] eqn:Hr; cbn [fmap option_fmap option_map]; [|done].
  destruct (Hm _ _ Hr) as (Hd & _). rewrite Hd.
  destruct (delete_token_spec value m Hm) as [Hm' Hv'].
  pose proof (issue_spec nonce (st_session_id (tk_token r)) (st_device_id (tk_token r)) now _ Hm' Hn)
    as Hi. destruct (issue _ _ _ _ _) as [m' t]. destruct Hi as (H1 & H2 & H3 & H4 & H5 & H6).
  exists m', t. split_and!; try done. intros v. by rewrite H6, Hv'.
Qed.

Lemma verify_spec value now m :
  tokens_ok m →
  verify value now m
  = match token_for m value with
    | None => Err (VoiceAccessError "unknown voice session token")
    | Some t => if st_expires_at t <=? now then Err (VoiceAccessError "voice session token expired")
                else Ok t
    end.
Proof.
  intros Hm. unfold verify, token_for. rewrite verified_record_lookup by done.
  by destruct (tm_records m !! _).
Qed.
End tokens.
