(* ===== verification/VoiceSession.v ===== *)
(** * The voice session service ([voice/state.py], [voice/session.py])

    One value of [VoiceService] holds what the Python objects share: the token
    manager, the sessions by identifier in insertion order, the emitter's two
    counters, the conversation journal, the transcript table, the provider and
    the redacted log.  An operation that raises keeps what it wrote before.  The
    readings of the clock during a call are [clk 0], [clk 1], ...; the random
    nonce and the fresh session identifier are arguments. *)

From stdpp Require Import prelude base strings list gmap.
From Stdlib Require Import ZArith Lia.
From S2P Require Import Prelude PyTime PyText PyUuid Transactions Enrollment Conversation Voice.
#[local] Open Scope string_scope.
#[local] Open Scope list_scope.
#[local] Open Scope Z_scope.

Record VoiceSessionState := {
  vs_session_id : uuid;
  vs_request : SessionStartRequest;
  vs_mode : SessionMode;
  vs_provider_handle : option string;
  vs_disconnected_at : option Z;
  vs_ended : bool;
  vs_last_client_event_id : Z;
  vs_queued_tts : string;
  vs_action_progress : list VoiceEvent;
  vs_events : list VoiceEvent;
  vs_partial_turns : gset uuid;
  vs_cancelled_turns : gset uuid;
  vs_final_events : gmap uuid VoiceEvent;
}.

Definition new_session (session_id : uuid) (request : SessionStartRequest) (mode : SessionMode)
    (handle : option string) : VoiceSessionState :=
  {| vs_session_id := session_id; vs_request := request; vs_mode := mode;
     vs_provider_handle := handle; vs_disconnected_at := None; vs_ended := false;
     vs_last_client_event_id := 0; vs_queued_tts := ""; vs_action_progress := [];
     vs_events := []; vs_partial_turns := ∅; vs_cancelled_turns := ∅; vs_final_events := ∅ |}.

(** Attribute assignments. *)
Definition set_link (s : VoiceSessionState) (disconnected_at : option Z) (ended : bool)
    (last_client_event_id : Z) : VoiceSessionState :=
  {| vs_session_id := vs_session_id s; vs_request := vs_request s; vs_mode := vs_mode s;
     vs_provider_handle := vs_provider_handle s; vs_disconnected_at := disconnected_at;
     vs_ended := ended; vs_last_client_event_id := last_client_event_id;
     vs_queued_tts := vs_queued_tts s; vs_action_progress := vs_action_progress s;
     vs_events := vs_events s; vs_partial_turns := vs_partial_turns s;
     vs_cancelled_turns := vs_cancelled_turns s; vs_final_events := vs_final_events s |}.
Definition set_queues (s : VoiceSessionState) (tts : string) (progress events : list VoiceEvent) :
    VoiceSessionState :=
  {| vs_session_id := vs_session_id s; vs_request := vs_request s; vs_mode := vs_mode s;
     vs_provider_handle := vs_provider_handle s; vs_disconnected_at := vs_disconnected_at s;
     vs_ended := vs_ended s; vs_last_client_event_id := vs_last_client_event_id s;
     vs_queued_tts := tts; vs_action_progress := progress; vs_events := events;
     vs_partial_turns := vs_partial_turns s; vs_cancelled_turns := vs_cancelled_turns s;
     vs_final_events := vs_final_events s |}.
Definition set_turns (s : VoiceSessionState) (partial cancelled : gset uuid)
    (finals : gmap uuid VoiceEvent) : VoiceSessionState :=
  {| vs_session_id := vs_session_id s; vs_request := vs_request s; vs_mode := vs_mode s;
     vs_provider_handle := vs_provider_handle s; vs_disconnected_at := vs_disconnected_at s;
     vs_ended := vs_ended s; vs_last_client_event_id := vs_last_client_event_id s;
     vs_queued_tts := vs_queued_tts s; vs_action_progress := vs_action_progress s;
     vs_events := vs_events s; vs_partial_turns := partial; vs_cancelled_turns := cancelled;
     vs_final_events := finals |}.

Record RedactedLogEntry := {
  rl_event : string;
  rl_session_id : uuid;
  rl_device_id : string;
  rl_byte_count : Z;
}.

Record SessionSnapshot := {
  sn_retained_audio_bytes : Z;
  sn_queued_tts_bytes : Z;
  sn_queued_action_progress : Z;
  sn_next_event_id : Z;
}.

Record VoiceService (P : Type) := {
  sv_tokens : SessionTokenManager;
  sv_sessions : list (uuid * VoiceSessionState);
  sv_next_event_id : Z;
  sv_next_conversation_sequence : Z;
  sv_journal : ConversationJournal;
  sv_transcripts : transcripts;
  sv_provider : P;
  sv_logs : list RedactedLogEntry;
}.
Arguments Build_VoiceService {P} _ _ _ _ _ _ _ _.
Arguments sv_tokens {P} _.
Arguments sv_sessions {P} _.
Arguments sv_next_event_id {P} _.
Arguments sv_next_conversation_sequence {P} _.
Arguments sv_journal {P} _.
Arguments sv_transcripts {P} _.
Arguments sv_provider {P} _.
Arguments sv_logs {P} _.

Definition new_service {P : Type} (key : string) (j : ConversationJournal) (t : transcripts) (p : P) :
    VoiceService P :=
  Build_VoiceService {| tm_signing_key := key; tm_records := ∅ |} [] 1 1 j t p [].

Section service.
Context {P D : Type} `{RealtimeProvider P, DevicePersistence D}.
Context (sha256 : string → string) (hmac : string → string → string).
Context (b64encode : string → string) (b64decode : string → option string).
Context (parse_device : string → option Device).
Abbreviation M A := (comp (VoiceService P) VoiceError A).
Implicit Types s : VoiceService P.

(** ** Access to the parts *)

Definition with_tokens s (m : SessionTokenManager) : VoiceService P :=
  Build_VoiceService m (sv_sessions s) (sv_next_event_id s) (sv_next_conversation_sequence s)
    (sv_journal s) (sv_transcripts s) (sv_provider s) (sv_logs s).
Definition with_sessions s (l : list (uuid * VoiceSessionState)) : VoiceService P :=
  Build_VoiceService (sv_tokens s) l (sv_next_event_id s) (sv_next_conversation_sequence s)
    (sv_journal s) (sv_transcripts s) (sv_provider s) (sv_logs s).
Definition with_emitter s (event_id sequence : Z) (j : ConversationJournal) : VoiceService P :=
  Build_VoiceService (sv_tokens s) (sv_sessions s) event_id sequence j (sv_transcripts s)
    (sv_provider s) (sv_logs s).
Definition with_transcripts s (t : transcripts) : VoiceService P :=
  Build_VoiceService (sv_tokens s) (sv_sessions s) (sv_next_event_id s)
    (sv_next_conversation_sequence s) (sv_journal s) t (sv_provider s) (sv_logs s).
Definition with_provider s (p : P) : VoiceService P :=
  Build_VoiceService (sv_tokens s) (sv_sessions s) (sv_next_event_id s)
    (sv_next_conversation_sequence s) (sv_journal s) (sv_transcripts s) p (sv_logs s).

Definition on_provider {A : Type} (m : comp P VoiceError A) : M A := λ s,
  let '(p, r) := m (sv_provider s) in (with_provider s p, r).
(** An exception of the provider propagates. *)
Definition provider_call {A : Type} (m : comp P ProviderError A) : M A :=
  on_provider (λ p, match m p with
                    | (p', Ok a) => (p', Ok a)
                    | (p', Err e) => (p', Err (VoiceProviderError e))
                    end).
Definition on_transcripts {A : Type} (m : comp transcripts VoiceError A) : M A := λ s,
  let '(t, r) := m (sv_transcripts s) in (with_transcripts s t, r).
Definition on_tokens {A : Type} (m : comp SessionTokenManager VoiceError A) : M A := λ s,
  let '(k, r) := m (sv_tokens s) in (with_tokens s k, r).

(** The session object behind an identifier, and an assignment to it. *)
Definition session (sid : uuid) : M VoiceSessionState := λ s,
  match dict_get sid (sv_sessions s) with
  | Some v => (s, Ok v)
  | None => (s, Err VoiceKeyError)
  end.
Definition update (sid : uuid) (f : VoiceSessionState → VoiceSessionState) : M unit := λ s,
  match dict_get sid (sv_sessions s) with
  | Some v => (with_sessions s (dict_set sid (f v) (sv_sessions s)), Ok tt)
  | None => (s, Err VoiceKeyError)
  end.

Definition log (event : string) (sid : uuid) (device_id : string) (byte_count : Z) : M unit := λ s,
  (Build_VoiceService (sv_tokens s) (sv_sessions s) (sv_next_event_id s)
     (sv_next_conversation_sequence s) (sv_journal s) (sv_transcripts s) (sv_provider s)
     (sv_logs s ++ [{| rl_event := event; rl_session_id := sid; rl_device_id := device_id;
                       rl_byte_count := byte_count |}]), Ok tt).

(** ** [ConversationVoiceEmitter] *)

Definition emit_voice (sid : uuid) (kind : VoiceEventKind) (turn_id : uuid) (text : string) :
    M VoiceEvent :=
  stateful (λ s,
    (with_emitter s (sv_next_event_id s + 1) (sv_next_conversation_sequence s) (sv_journal s),
     Ok {| ve_event_id := sv_next_event_id s; ve_kind := kind; ve_turn_id := turn_id;
           ve_text := text |})) ≫= λ event,
  update sid (λ v, set_queues v (vs_queued_tts v) (vs_action_progress v) (vs_events v ++ [event]))
  ≫= λ _, mret event.

Definition canonical_event (v : VoiceSessionState) (event : VoiceEvent)
    (payload : ConversationEventPayload) (sequence now : Z) : option ConversationEvent :=
  device ← uuid_of_text (sr_device_id (vs_request v));
  if (0 <=? ve_event_id event) && (ve_event_id event <? 2 ^ 128) then
    Some {| ce_event_id := ve_event_id event;
            ce_conversation_id := sr_conversation_id (vs_request v);
            ce_participant_id := sr_participant_id (vs_request v);
            ce_device_id := device; ce_sequence := sequence; ce_occurred_at := now;
            ce_kind := payload_kind payload; ce_payload := payload |}
  else None.

(** A rejected event is taken back from the session and its number reused. *)
Definition emit_canonical (sid : uuid) (now : Z) (event : VoiceEvent)
    (payload : ConversationEventPayload) : M VoiceEvent :=
  session sid ≫= λ v, stateful (λ s,
  match canonical_event v event payload (sv_next_conversation_sequence s) now with
  | None => (s, Err VoiceValueError)
  | Some e =>
      let '(j, a) := accept e (sv_journal s) in
      if ca_accepted a
      then (with_emitter s (sv_next_event_id s) (sv_next_conversation_sequence s + 1) j, Ok event)
      else
        let reason := match ca_rejection a with
                      | None => "conversation event rejected"
                      | Some r => rejection_value r
                      end in
        (update sid (λ v, set_queues v (vs_queued_tts v) (vs_action_progress v)
                            (removelast (vs_events v))) ≫= λ _,
         stateful (λ s, (with_emitter s (sv_next_event_id s - 1) (sv_next_conversation_sequence s)
                           (sv_journal s), Err (VoiceOrderError reason))))
        (with_emitter s (sv_next_event_id s) (sv_next_conversation_sequence s) j)
  end).

Definition emit_partial (sid turn_id : uuid) (text : string) (now : Z) : M VoiceEvent :=
  emit_voice sid VOICE_PARTIAL turn_id text ≫= λ event,
  emit_canonical sid now event (TranscriptPartial turn_id text).
Definition emit_final (sid turn_id : uuid) (text : string) (now : Z) : M VoiceEvent :=
  emit_voice sid VOICE_FINAL turn_id text ≫= λ event,
  emit_canonical sid now event (TranscriptFinal turn_id text).
Definition emit_cancellation (sid turn_id : uuid) (reason : string) (now : Z) : M VoiceEvent :=
  emit_voice sid VOICE_CANCELLATION turn_id reason ≫= λ event,
  emit_canonical sid now event (Cancellation turn_id reason).
Definition emit_action_progress (sid turn_id : uuid) (text : string) : M VoiceEvent :=
  emit_voice sid ACTION_PROGRESS turn_id text ≫= λ event,
  update sid (λ v, set_queues v (vs_queued_tts v) (vs_action_progress v ++ [event]) (vs_events v))
  ≫= λ _, mret event.

(** ** [VoiceSessionService] *)

(** The boundaries bound at construction, at the time of the call. *)
Record VoiceServiceDependencies := {
  vd_consent : ConsentRegistry;
  vd_retention : RetentionVerification;
  vd_project_id : string;
  vd_devices : DeviceRegistry D;
}.

Definition lift_identity {A : Type} (r : result EnrollmentError A) : M unit := λ s,
  (s, match r with Ok _ => Ok tt | Err e => Err (VoiceIdentityError e) end).

Definition token_session (r : result VoiceError SessionToken) : M uuid := λ s,
  match r with
  | Err e => (s, Err e)
  | Ok t => match dict_get (st_session_id t) (sv_sessions s) with
            | None => (s, Err VoiceKeyError)
            | Some _ => (s, Ok (st_session_id t))
            end
  end.

Definition session_for_token (token_value : string) (now : Z) : M uuid := λ s,
  token_session (verify sha256 hmac b64decode token_value now (sv_tokens s)) s.

Definition active_session (token_value : string) (now : Z) : M uuid :=
  session_for_token token_value now ≫= λ sid,
  session sid ≫= λ v,
  throw_if (vs_ended v || match vs_disconnected_at v with Some _ => true | None => false end)
    (VoiceAccessError "voice session is not connected") ≫= λ _,
  mret sid.

(** [if session.provider_handle is not None: provider.close(...)] and the like. *)
Definition with_handle (v : VoiceSessionState) (f : string → comp P ProviderError unit) : M unit :=
  match vs_provider_handle v with
  | None => mret tt
  | Some handle => provider_call (f handle)
  end.

Definition expire_session (now : Z) (sid : uuid) : M unit :=
  session sid ≫= λ v,
  match vs_disconnected_at v with
  | Some t =>
      if t + RECONNECT_WINDOW <? now then
        with_handle v close ≫= λ _,
        update sid (λ v, set_queues v "" [] (vs_events v)) ≫= λ _,
        update sid (λ v, set_link v (vs_disconnected_at v) true (vs_last_client_event_id v))
      else mret tt
  | None => mret tt
  end.

Definition expire_disconnected_sessions (now : Z) : M unit := λ s,
  for_each (expire_session now) (sv_sessions s).*1 s.

Definition device_active (device_id : string) s : bool :=
  existsb (λ kv, String.eqb (sr_device_id (vs_request kv.2)) device_id && negb (vs_ended kv.2))
    (sv_sessions s).

Definition start (clk : nat → Z) (nonce : string) (session_id : uuid)
    (deps : VoiceServiceDependencies) (request : SessionStartRequest) :
    M (SessionToken * SessionMode * string) :=
  let now := clk 0%nat in
  lift_identity (verify_mtls_identity parse_device (vd_devices deps) (sr_device_id request)
                   (sr_public_key_fingerprint request)) ≫= λ _,
  expire_disconnected_sessions now ≫= λ _,
  stateful (λ s, (s, raise_if (device_active (sr_device_id request) s)
                       (VoiceAccessError "device already has an active voice session"))) ≫= λ _,
  stateful (λ s, on_provider (start_provider_session (vd_consent deps) (vd_retention deps)
                   (sv_transcripts s) (vd_project_id deps) (sr_surface request) now (clk 1%nat)) s)
  ≫= λ '(mode, handle, reason),
  stateful (λ s, (with_sessions s (dict_set session_id
                    (new_session session_id request mode handle) (sv_sessions s)), Ok tt)) ≫= λ _,
  on_tokens (λ m, let '(m', t) :=
                    issue sha256 hmac b64encode nonce session_id (sr_device_id request) now m in
                  (m', Ok t)) ≫= λ token,
  log "voice_session_start" session_id (sr_device_id request) 0 ≫= λ _,
  mret (token, mode, reason).

Definition append_audio (clk : nat → Z) (token_value : string) (frame : AudioFrame) : M bool :=
  active_session token_value (clk 0%nat) ≫= λ sid,
  session sid ≫= λ v,
  throw_if (af_event_id frame <=? vs_last_client_event_id v)
    (VoiceOrderError "client event ids must increase monotonically") ≫= λ _,
  update sid (λ v, set_link v (vs_disconnected_at v) (vs_ended v) (af_event_id frame)) ≫= λ _,
  match vs_provider_handle v with
  | None => mret false
  | Some handle =>
      provider_call (send_audio handle (af_pcm frame)) ≫= λ _,
      log "voice_audio_forward" sid (sr_device_id (vs_request v))
        (Z.of_nat (String.length (af_pcm frame))) ≫= λ _,
      mret true
  end.

Definition accept_partial (clk : nat → Z) (token_value : string) (turn_id : uuid) (text : string) :
    M VoiceEvent :=
  active_session token_value (clk 0%nat) ≫= λ sid,
  session sid ≫= λ v,
  throw_if (bool_decide (turn_id ∈ vs_cancelled_turns v)
            || bool_decide (is_Some (vs_final_events v !! turn_id)))
    (VoiceOrderError "partial received for a closed turn") ≫= λ _,
  emit_partial sid turn_id text (clk 1%nat) ≫= λ event,
  update sid (λ v, set_turns v ({[turn_id]} ∪ vs_partial_turns v) (vs_cancelled_turns v)
                     (vs_final_events v)) ≫= λ _,
  mret event.

Definition finalize (clk : nat → Z) (token_value : string) (turn_id : uuid) (text : string) :
    M VoiceEvent :=
  active_session token_value (clk 0%nat) ≫= λ sid,
  session sid ≫= λ v,
  match vs_final_events v !! turn_id with
  | Some existing =>
      throw_if (negb (String.eqb (ve_text existing) text))
        (VoiceOrderError "conflicting final transcript") ≫= λ _,
      mret existing
  | None =>
      throw_if (negb (bool_decide (turn_id ∈ vs_partial_turns v)))
        (VoiceOrderError "final transcript requires a partial") ≫= λ _,
      emit_final sid turn_id text (clk 1%nat) ≫= λ event,
      on_transcripts (append_final (clk 2%nat) sid turn_id text) ≫= λ _,
      update sid (λ v, set_turns v (vs_partial_turns v) (vs_cancelled_turns v)
                         (<[turn_id := event]> (vs_final_events v))) ≫= λ _,
      update sid (λ v, set_turns v (vs_partial_turns v ∖ {[turn_id]}) (vs_cancelled_turns v)
                         (vs_final_events v)) ≫= λ _,
      update sid (λ v, set_queues v "" (vs_action_progress v) (vs_events v)) ≫= λ _,
      mret event
  end.

Definition queue_tts (clk : nat → Z) (token_value : string) (turn_id : uuid) (pcm : string) :
    M unit :=
  active_session token_value (clk 0%nat) ≫= λ sid,
  session sid ≫= λ v,
  if bool_decide (turn_id ∈ vs_cancelled_turns v) then mret tt
  else update sid (λ v, set_queues v (vs_queued_tts v +:+ pcm) (vs_action_progress v) (vs_events v)).

Definition queue_action_progress (clk : nat → Z) (token_value : string) (turn_id : uuid)
    (text : string) : M (option VoiceEvent) :=
  active_session token_value (clk 0%nat) ≫= λ sid,
  session sid ≫= λ v,
  if bool_decide (turn_id ∈ vs_cancelled_turns v) then mret None
  else emit_action_progress sid turn_id text ≫= λ event, mret (Some event).

Definition barge_in (clk : nat → Z) (token_value : string) (turn_id : uuid) : M VoiceEvent :=
  active_session token_value (clk 0%nat) ≫= λ sid,
  update sid (λ v, set_turns v (vs_partial_turns v ∖ {[turn_id]})
                     ({[turn_id]} ∪ vs_cancelled_turns v) (vs_final_events v)) ≫= λ _,
  update sid (λ v, set_queues v "" [] (vs_events v)) ≫= λ _,
  session sid ≫= λ v,
  with_handle v cancel_response ≫= λ _,
  emit_cancellation sid turn_id "barge_in" (clk 1%nat).

Definition disconnect (clk : nat → Z) (token_value : string) : M unit :=
  active_session token_value (clk 0%nat) ≫= λ sid,
  update sid (λ v, set_link v (Some (clk 1%nat)) (vs_ended v) (vs_last_client_event_id v)).

Definition resume (clk : nat → Z) (nonce : string) (devices : DeviceRegistry D)
    (token_value device_id fingerprint : string) (last_event_id : Z) :
    M (SessionToken * list VoiceEvent) := λ s0,
  match verify_for_resume sha256 hmac b64decode token_value (sv_tokens s0) with
  | Err e => (s0, Err e)
  | Ok old_token =>
      (token_session (Ok old_token) ≫= λ sid,
       session sid ≫= λ v,
       lift_identity (verify_mtls_identity parse_device devices device_id fingerprint) ≫= λ _,
       let now := clk 0%nat in
       match vs_disconnected_at v with
       | None => throw (VoiceAccessError "voice reconnect identity mismatch")
       | Some t =>
           throw_if (negb (String.eqb device_id (st_device_id old_token)))
             (VoiceAccessError "voice reconnect identity mismatch") ≫= λ _,
           throw_if (t + RECONNECT_WINDOW <? now)
             (VoiceAccessError "voice reconnect window expired") ≫= λ _,
           on_tokens (replace sha256 hmac b64encode b64decode nonce token_value now) ≫= λ token,
           update sid (λ v, set_link v None (vs_ended v) (vs_last_client_event_id v)) ≫= λ _,
           session sid ≫= λ v,
           mret (token, List.filter (λ e, last_event_id <? ve_event_id e) (vs_events v))
       end) s0
  end.

Definition snapshot (clk : nat → Z) (token_value : string) : M SessionSnapshot :=
  session_for_token token_value (clk 0%nat) ≫= λ sid,
  session sid ≫= λ v, stateful (λ s,
  (s, Ok {| sn_retained_audio_bytes := 0;
            sn_queued_tts_bytes := Z.of_nat (String.length (vs_queued_tts v));
            sn_queued_action_progress := Z.of_nat (length (vs_action_progress v));
            sn_next_event_id := sv_next_event_id s |})).

Definition end_session (clk : nat → Z) (token_value : string) : M unit :=
  session_for_token token_value (clk 0%nat) ≫= λ sid,
  update sid (λ v, set_queues v "" [] (vs_events v)) ≫= λ _,
  session sid ≫= λ v,
  with_handle v close ≫= λ _,
  update sid (λ v, set_link v (vs_disconnected_at v) true (vs_last_client_event_id v)) ≫= λ _,
  on_tokens (λ m, (invalidate sha256 token_value m, Ok tt)).

Definition redacted_logs s : list RedactedLogEntry := sv_logs s.
End service.
