(* ===== verification/VoiceSpec.v ===== *)
(** * What the voice session service guarantees ([voice/session.py])

    An invariant of the whole service state, preserved by every operation
    whether it returns or raises, and what it gives the client: one live session
    per device, cancelled turns that stay silent, finals recorded once, gapless
    numbering against the conversation journal and exact replay on reconnect. *)

From stdpp Require Import prelude base strings list gmap sorting.
From Stdlib Require Import ZArith Lia.
From S2P Require Import Prelude PyTime PyText PyUuid Transactions Enrollment Conversation Voice VoiceSession.
#[local] Open Scope string_scope.
#[local] Open Scope list_scope.
#[local] Open Scope Z_scope.

Section spec.
Context {P D : Type} `{RealtimeProvider P, DevicePersistence D}.
Context (sha256 : string → string) (hmac : string → string → string).
Context (b64encode : string → string) (b64decode : string → option string).
Context (parse_device : string → option Device).
Context (b64_roundtrip : ∀ s, b64decode (b64encode s) = Some s).
Context (sha256_inj : ∀ s s', sha256 s = sha256 s' → s = s').
Implicit Types s : VoiceService P.

Abbreviation token_for := (token_for sha256).
Abbreviation keys s := ((sv_sessions s).*1).
Abbreviation get sid s := (dict_get sid (sv_sessions s)).

(** ** The invariant *)

(** Event numbers grow along the list and stay below [n]. *)
Definition numbered (n : Z) (l : list VoiceEvent) : Prop :=
  StronglySorted Z.lt (map ve_event_id l) ∧ Forall (λ e, ve_event_id e < n) l.

Record service_ok s : Prop := {
  so_tokens : tokens_ok sha256 hmac b64encode (sv_tokens s);
  so_bound : ∀ value t, token_for (sv_tokens s) value = Some t →
    ∃ v, get (st_session_id t) s = Some v ∧ sr_device_id (vs_request v) = st_device_id t;
  so_keys : NoDup (keys s);
  so_exclusive : ∀ i j v w, get i s = Some v → get j s = Some w →
    vs_ended v = false → vs_ended w = false →
    sr_device_id (vs_request v) = sr_device_id (vs_request w) → i = j;
  so_events : ∀ i v, get i s = Some v → numbered (sv_next_event_id s) (vs_events v);
  so_turns : ∀ i v, get i s = Some v → vs_partial_turns v ## vs_cancelled_turns v;
  so_sync : sv_next_conversation_sequence s = cj_next_sequence (sv_journal s);
  so_seen : ∀ i, i ∈ cj_seen_event_ids (sv_journal s) → i < sv_next_event_id s;
}.

(** What never goes back in a session. *)
Record session_le (v w : VoiceSessionState) : Prop := {
  le_request : vs_request w = vs_request v;
  le_ended : vs_ended v = true → vs_ended w = true;
  le_cancelled : vs_cancelled_turns v ⊆ vs_cancelled_turns w;
  le_finals : vs_final_events v ⊆ vs_final_events w;
}.

#[local] Instance session_le_preorder : PreOrder session_le.
Proof.
  split; [by split|]. intros u v w [H1 H2 H3 H4] [H5 H6 H7 H8].
  split; [congruence|auto|set_solver|by transitivity (vs_final_events v)].
Qed.

Definition grows s s' : Prop :=
  ∀ i v, get i s = Some v → ∃ w, get i s' = Some w ∧ session_le v w.

#[local] Instance grows_preorder : PreOrder grows.
Proof.
  split; [intros s i v Hv; by exists v|]. intros s1 s2 s3 H12 H23 i v Hv.
  destruct (H12 _ _ Hv) as (w & Hw & Hle). destruct (H23 _ _ Hw) as (x & Hx & Hle').
  exists x. split; [done|]. by transitivity w.
Qed.

(** Exceptions that the service's own bookkeeping rules out. *)
Definition legal_error (e : VoiceError) : Prop :=
  e ≠ VoiceKeyError ∧ e ≠ VoiceOrderError (rejection_value DUPLICATE_EVENT)
  ∧ e ≠ VoiceOrderError (rejection_value OUT_OF_ORDER)
  ∧ e ≠ VoiceOrderError (rejection_value KIND_MISMATCH).

Ltac legal :=
  unfold legal_error; simpl; intros;
  first [discriminate | simplify_eq; split_and!; discriminate | done].

Record good {A : Type} s (r : VoiceService P * result VoiceError A) : Prop := {
  good_ok : service_ok r.1;
  good_grows : grows s r.1;
  good_keys : keys r.1 = keys s;
  good_error : ∀ e, r.2 = Err e → legal_error e;
}.

(** An operation on the existing session [sid]. *)
Definition maintains {A : Type} (sid : uuid) (m : comp (VoiceService P) VoiceError A) : Prop :=
  ∀ s, service_ok s → sid ∈ keys s → good s (m s).

(** ** Rules *)

Lemma good_bind {A B} (m : comp (VoiceService P) VoiceError A) k s :
  good s (m s) → (∀ a s', m s = (s', Ok a) → service_ok s' → good (A := B) s' (k a s')) →
  good s ((m ≫= k) s).
Proof.
  intros [H1 H2 H3 H4] Hk. unfold mbind, comp_bind. destruct (m s) as [s' [a|e]]; simpl in *.
  - destruct (Hk a s' eq_refl H1) as [K1 K2 K3 K4]. split; [done|by transitivity s'|congruence|done].
  - split; try done. naive_solver.
Qed.

Lemma maintains_bind {A B} sid (m : comp (VoiceService P) VoiceError A) k :
  maintains sid m → (∀ a, maintains (A := B) sid (k a)) → maintains sid (m ≫= k).
Proof.
  intros Hm Hk s Hs Hin. pose proof (Hm s Hs Hin) as Hg. apply good_bind; [done|].
  intros a s' Heq Hok. rewrite Heq in Hg. apply Hk; [done|]. by rewrite (good_keys _ _ Hg : keys s' = _).
Qed.

Lemma good_same {A} s (r : result VoiceError A) :
  service_ok s → (∀ e, r = Err e → legal_error e) → good s (s, r).
Proof. intros Hs Hr. by split. Qed.

Lemma maintains_ret {A} sid (a : A) : maintains sid (mret a).
Proof. intros s Hs _. by apply good_same. Qed.

Lemma maintains_throw_if sid b e : legal_error e → maintains sid (throw_if b e).
Proof. intros He s Hs _. apply good_same; [done|]. intros e'. destruct b; simpl; congruence. Qed.

Lemma maintains_throw {A} sid e : legal_error e → maintains (A := A) sid (throw e).
Proof. intros He s Hs _. apply good_same; [done|]. congruence. Qed.

Lemma maintains_lift_identity {A} sid (r : result EnrollmentError A) : maintains sid (lift_identity r).
Proof. intros s Hs _. apply good_same; [done|]. destruct r; legal. Qed.

Lemma maintains_session sid : maintains sid (session sid).
Proof.
  intros s Hs Hin. apply dict_get_is_Some in Hin as [v Hv]. unfold session. rewrite Hv.
  by apply good_same.
Qed.

(** Parts the invariant does not mention. *)
Lemma service_ok_ext s s' :
  sv_tokens s' = sv_tokens s → sv_sessions s' = sv_sessions s →
  sv_next_event_id s' = sv_next_event_id s →
  sv_next_conversation_sequence s' = sv_next_conversation_sequence s →
  sv_journal s' = sv_journal s → service_ok s → service_ok s'.
Proof. intros H1 H2 H3 H4 H5 [K1 K2 K3 K4 K5 Kt K6 K7]. by split; rewrite ?H1, ?H2, ?H3, ?H4, ?H5. Qed.

Lemma good_ext {A} s s' (r : result VoiceError A) :
  sv_tokens s' = sv_tokens s → sv_sessions s' = sv_sessions s →
  sv_next_event_id s' = sv_next_event_id s →
  sv_next_conversation_sequence s' = sv_next_conversation_sequence s →
  sv_journal s' = sv_journal s → service_ok s → (∀ e, r = Err e → legal_error e) → good s (s', r).
Proof.
  intros H1 H2 H3 H4 H5 Hs Hr. split; simpl; [by apply (service_ok_ext s)| |by rewrite H2|done].
  intros i v Hv. exists v. by rewrite H2.
Qed.

Lemma maintains_provider_call {A} sid (m : comp P ProviderError A) : maintains sid (provider_call m).
Proof.
  intros s Hs _. unfold provider_call, on_provider.
  destruct (m (sv_provider s)) as [p [a|e]]; (apply good_ext; [done..|legal]).
Qed.

Lemma maintains_with_handle sid v f : maintains sid (with_handle v f).
Proof.
  unfold with_handle. destruct (vs_provider_handle v); [apply maintains_provider_call|apply maintains_ret].
Qed.

Lemma maintains_append_final sid now i t text : maintains sid (on_transcripts (append_final now i t text)).
Proof.
  intros s Hs _. unfold on_transcripts, append_final.
  repeat case_match; simplify_eq; (apply good_ext; [done..|legal]).
Qed.

Lemma maintains_log sid e i d n : maintains sid (log e i d n).
Proof. intros s Hs _. apply good_ext; [done..|legal]. Qed.

Lemma update_run s sid v f :
  get sid s = Some v → update sid f s = (with_sessions s (dict_set sid (f v) (sv_sessions s)), Ok tt).
Proof. intros Hv. unfold update. by rewrite Hv. Qed.

(** An assignment that keeps events and never goes back. *)
Lemma maintains_update sid f :
  (∀ v, vs_partial_turns v ## vs_cancelled_turns v →
     session_le v (f v) ∧ vs_events (f v) = vs_events v
     ∧ vs_partial_turns (f v) ## vs_cancelled_turns (f v)) →
  maintains sid (update sid f).
Proof.
  intros Hf s Hs Hin. pose proof Hin as [v Hv]%dict_get_is_Some. unfold update. rewrite Hv.
  destruct (Hf v (so_turns s Hs _ _ Hv)) as (Hle & Hev & Hdis). destruct Hs as [K1 K2 K3 K4 K5 Kt K6 K7].
  assert (∀ i w, dict_get i (dict_set sid (f v) (sv_sessions s)) = Some w →
            ∃ u, get i s = Some u ∧ session_le u w ∧ vs_events w = vs_events u) as Hback.
  { intros i w. rewrite dict_get_set. case_bool_decide as Hi; [subst; intros [= <-]; by exists v|].
    intros Hw. by exists w. }
  assert (grows s (with_sessions s (dict_set sid (f v) (sv_sessions s)))) as Hg.
  { intros i w Hw. simpl. rewrite dict_get_set. case_bool_decide as Hi; [|by exists w].
    subst i. exists (f v). split; [done|]. by replace w with v by congruence. }
  split; simpl; [|done|by apply dict_set_keys|legal].
  split; simpl; try done.
  - intros value t Ht. destruct (K2 _ _ Ht) as (w & Hw & Hd).
    destruct (Hg _ _ Hw) as (x & Hx & Hle'). exists x. split; [done|].
    by rewrite (le_request _ _ Hle').
  - by rewrite dict_set_keys.
  - intros i j w x Hw Hx Ew Ex Hd. destruct (Hback _ _ Hw) as (w0 & Hw0 & Lw & _).
    destruct (Hback _ _ Hx) as (x0 & Hx0 & Lx & _).
    apply (K4 i j w0 x0); [done|done| | |].
    + destruct (vs_ended w0) eqn:E; [|done]. by rewrite (le_ended _ _ Lw E) in Ew.
    + destruct (vs_ended x0) eqn:E; [|done]. by rewrite (le_ended _ _ Lx E) in Ex.
    + by rewrite <- (le_request _ _ Lw), <- (le_request _ _ Lx).
  - intros i w Hw. destruct (Hback _ _ Hw) as (w0 & Hw0 & _ & ->). by apply (K5 i).
  - intros i w. rewrite dict_get_set. case_bool_decide; [by intros [= <-]|]. by apply Kt.
Qed.

Lemma numbered_snoc n l e : numbered n l → ve_event_id e = n → numbered (n + 1) (l ++ [e]).
Proof.
  intros [Hs Hf] He. split.
  - rewrite map_app. apply StronglySorted_app. split_and!; [|done|by repeat constructor].
    intros x y (z & -> & Hz)%list_elem_of_fmap ->%list_elem_of_singleton.
    rewrite Forall_forall in Hf. rewrite He. by apply Hf.
  - apply Forall_app. split; [eapply Forall_impl; [done|]; simpl; lia|]. constructor; [lia|done].
Qed.

Lemma numbered_mono n n' l : n <= n' → numbered n l → numbered n' l.
Proof. intros Hn [Hs Hf]. split; [done|]. eapply Forall_impl; [done|]. simpl. lia. Qed.

(** The state after [emit_voice], which always succeeds on a session. *)
Definition emitted s sid v e : VoiceService P :=
  with_sessions
    (with_emitter s (sv_next_event_id s + 1) (sv_next_conversation_sequence s) (sv_journal s))
    (dict_set sid (set_queues v (vs_queued_tts v) (vs_action_progress v) (vs_events v ++ [e]))
       (sv_sessions s)).

Lemma emit_voice_run s sid v kind turn text :
  get sid s = Some v →
  let e := {| ve_event_id := sv_next_event_id s; ve_kind := kind; ve_turn_id := turn;
              ve_text := text |} in
  emit_voice sid kind turn text s = (emitted s sid v e, Ok e).
Proof.
  intros Hv. unfold emit_voice. erewrite bind_ok by done.
  erewrite bind_ok by (apply update_run; exact Hv). done.
Qed.

Lemma service_ok_emitted s sid v e :
  service_ok s → get sid s = Some v → ve_event_id e = sv_next_event_id s →
  service_ok (emitted s sid v e) ∧ grows s (emitted s sid v e) ∧ keys (emitted s sid v e) = keys s.
Proof.
  intros Hs Hv He. set (v' := set_queues v (vs_queued_tts v) (vs_action_progress v) (vs_events v ++ [e])).
  assert (sid ∈ keys s) as Hin by (apply dict_get_is_Some; by exists v).
  destruct Hs as [K1 K2 K3 K4 K5 Kt K6 K7].
  assert (∀ i w, get i (emitted s sid v e) = Some w →
            ∃ u, get i s = Some u ∧ vs_request w = vs_request u ∧ vs_ended w = vs_ended u
              ∧ numbered (sv_next_event_id s + 1) (vs_events w)) as Hback.
  { intros i w. simpl. rewrite dict_get_set. case_bool_decide as Hi.
    - subst. intros [= <-]. exists v. split_and!; [done..|]. simpl.
      apply numbered_snoc; [by apply (K5 i)|done].
    - intros Hw. exists w. split_and!; [done..|]. eapply numbered_mono; [|by apply (K5 i)]. lia. }
  assert (grows s (emitted s sid v e)) as Hg.
  { intros i w Hw. simpl. rewrite dict_get_set. case_bool_decide as Hi; [|by exists w].
    subst i. eexists. split; [done|]. replace w with v by congruence. by split. }
  split; [|split; [done|by apply dict_set_keys]].
  split; [done| | | | | |done|].
  - intros value t Ht. destruct (K2 _ _ Ht) as (w & Hw & Hd). destruct (Hg _ _ Hw) as (x & Hx & Hl).
    exists x. split; [done|]. by rewrite (le_request _ _ Hl).
  - simpl. by rewrite dict_set_keys.
  - intros i j w x Hw Hx Ew Ex Hd. destruct (Hback _ _ Hw) as (w0 & Hw0 & Rw & Fw & _).
    destruct (Hback _ _ Hx) as (x0 & Hx0 & Rx & Fx & _).
    apply (K4 i j w0 x0); congruence.
  - intros i w Hw. by destruct (Hback _ _ Hw) as (? & _ & _ & _ & ?).
  - intros i w. simpl. rewrite dict_get_set. case_bool_decide; [|by apply Kt].
    intros [= <-]. exact (Kt sid v Hv).
  - simpl. intros i Hi. specialize (K7 i Hi). lia.
Qed.

Lemma envelope_rejection_emitter v event payload sequence now e j r :
  canonical_event v event payload sequence now = Some e →
  sequence = cj_next_sequence j → (∀ i, i ∈ cj_seen_event_ids j → i < ve_event_id event) →
  envelope_rejection e j = Some r →
  r ≠ DUPLICATE_EVENT ∧ r ≠ OUT_OF_ORDER ∧ r ≠ KIND_MISMATCH.
Proof.
  unfold canonical_event. destruct (uuid_of_text _) as [dev|]; simpl; [|done].
  destruct (_ && _); [|done]. intros [= <-] Hseq Hseen. unfold envelope_rejection. simpl.
  rewrite (bool_decide_false (ve_event_id event ∈ _)) by (intros Hi%Hseen; lia).
  rewrite (bool_decide_true (payload_kind payload = payload_kind payload)) by done.
  rewrite Hseq, Z.eqb_refl. repeat case_match; simpl; naive_solver.
Qed.

Lemma payload_rejection_kinds e j r :
  payload_rejection e j = Some r →
  r ≠ DUPLICATE_EVENT ∧ r ≠ OUT_OF_ORDER ∧ r ≠ KIND_MISMATCH.
Proof.
  unfold payload_rejection, transcript_rejection. repeat case_match; naive_solver.
Qed.

(** What emitting a canonical event does: the session and the journal both get
    it, or it is rejected and the service is as before, or a [ValueError] leaves
    it with the session alone. *)
Lemma emit_run s sid v kind turn text payload now :
  service_ok s → get sid s = Some v →
  let e := {| ve_event_id := sv_next_event_id s; ve_kind := kind; ve_turn_id := turn;
              ve_text := text |} in
  let r := (emit_voice sid kind turn text ≫= λ event, emit_canonical sid now event payload) s in
  r = (emitted s sid v e, Err VoiceValueError)
  ∨ (∃ reason, r = (s, Err (VoiceOrderError reason)) ∧ legal_error (VoiceOrderError reason))
  ∨ (∃ c j, canonical_event v e payload (sv_next_conversation_sequence s) now = Some c
       ∧ accept c (sv_journal s) = (j, {| ca_accepted := true; ca_rejection := None;
                                          ca_next_sequence := cj_next_sequence j |})
       ∧ r = (with_emitter (emitted s sid v e) (sv_next_event_id s + 1)
                (sv_next_conversation_sequence s + 1) j, Ok e)).
Proof.
  intros Hs Hv e r. subst r. rewrite (bind_ok _ _ _ _ _ (emit_voice_run s sid v kind turn text Hv)).
  fold e. unfold emit_canonical.
  set (v' := set_queues v (vs_queued_tts v) (vs_action_progress v) (vs_events v ++ [e])).
  assert (get sid (emitted s sid v e) = Some v') as Hv'.
  { simpl. rewrite dict_get_set. by rewrite bool_decide_true. }
  erewrite bind_ok by (unfold session; by rewrite Hv'). unfold stateful.
  change (canonical_event v' e payload) with (canonical_event v e payload).
  cbn [emitted with_sessions with_emitter sv_next_conversation_sequence sv_journal].
  destruct (canonical_event v e payload _ now) as [c|] eqn:Hc; [|by left].
  destruct (accept_cases c (sv_journal s)) as [(rej & Hacc)|(He & Hp & j & Hacc & _ & _ & Hn & _)];
    rewrite Hacc; cbn [ca_accepted ca_rejection reject].
  - right. left. exists (rejection_value rej). split.
    + erewrite bind_ok by (apply update_run; exact Hv').
      cbn. rewrite removelast_last, Z.add_simpl_r. f_equal.
      rewrite dict_set_set, dict_set_get by (destruct v; exact Hv). by destruct s.
    + unfold accept in Hacc.
      assert (rej ≠ DUPLICATE_EVENT ∧ rej ≠ OUT_OF_ORDER ∧ rej ≠ KIND_MISMATCH) as (N1 & N2 & N3).
      { destruct (envelope_rejection c (sv_journal s)) as [r1|] eqn:Her.
        - injection Hacc as ->. eapply envelope_rejection_emitter; [done|apply Hs| |done].
          simpl. apply Hs.
        - destruct (payload_rejection c (sv_journal s)) as [r1|] eqn:Hpr; [|done].
          injection Hacc as ->. by eapply payload_rejection_kinds. }
      split_and!; [done|..]; intros Heq; by destruct rej.
  - right. right. exists c, j. split_and!; [done| |done]. by rewrite Hacc, Hn.
Qed.

Lemma maintains_emit sid kind turn text payload now :
  maintains sid (emit_voice sid kind turn text ≫= λ event, emit_canonical sid now event payload).
Proof.
  intros s Hs [v Hv]%dict_get_is_Some.
  set (e := {| ve_event_id := sv_next_event_id s; ve_kind := kind; ve_turn_id := turn;
               ve_text := text |}).
  destruct (service_ok_emitted s sid v e Hs Hv eq_refl) as (Hok & Hg & Hk).
  destruct (emit_run s sid v kind turn text payload now Hs Hv)
    as [->|[(reason & -> & Hl)|(c & j & Hc & Hacc & ->)]].
  - split; [done..|legal].
  - by apply good_same; [|intros ? [= <-]].
  - fold e. destruct (accept_cases c (sv_journal s)) as [(r & Hr)|(He & _ & j' & Hj & _ & _ & Hn & Hseen & _)].
    { rewrite Hacc in Hr. by injection Hr. }
    rewrite Hacc in Hj. injection Hj as -> _.
    assert (ce_event_id c = sv_next_event_id s) as Hid.
    { unfold canonical_event in Hc. by destruct (uuid_of_text _); simpl in Hc; [case_match|]; simplify_eq. }
    destruct Hok as [K1 K2 K3 K4 K5 Kt K6 K7].
    split; [|done|done|legal]. split; simpl; try done.
    + by rewrite Hn, <- (so_sync s Hs).
    + rewrite Hseen, Hid. intros i [->%elem_of_singleton|Hi%(so_seen s Hs)]%elem_of_union; lia.
Qed.

Lemma maintains_emit_voice sid kind turn text : maintains sid (emit_voice sid kind turn text).
Proof.
  intros s Hs [v Hv]%dict_get_is_Some. rewrite (emit_voice_run s sid v) by done.
  edestruct (service_ok_emitted s sid v) as (Hok & Hg & Hk); [done..| |split; [done..|legal]].
  done.
Qed.

(** ** Operations on the session of a token *)

Lemma session_for_token_run s value now :
  service_ok s →
  session_for_token sha256 hmac b64decode value now s
  = (s, match token_for (sv_tokens s) value with
        | None => Err (VoiceAccessError "unknown voice session token")
        | Some t => if st_expires_at t <=? now then Err (VoiceAccessError "voice session token expired")
                    else Ok (st_session_id t)
        end).
Proof.
  intros Hs. unfold session_for_token. erewrite verify_spec by (done || apply Hs).
  destruct (token_for (sv_tokens s) value) as [t|] eqn:Ht; [|done].
  destruct (st_expires_at t <=? now); [done|]. simpl.
  destruct (so_bound s Hs _ _ Ht) as (v & Hv & _). by rewrite Hv.
Qed.

Lemma good_session_for_token {A} value now (k : uuid → comp (VoiceService P) VoiceError A) s :
  service_ok s → (∀ sid, maintains sid (k sid)) →
  good s ((session_for_token sha256 hmac b64decode value now ≫= k) s).
Proof.
  intros Hs Hk. destruct (token_for (sv_tokens s) value) as [t|] eqn:Ht.
  2:{ erewrite bind_err by (rewrite session_for_token_run, Ht by done; done). apply good_same; [done|legal]. }
  destruct (st_expires_at t <=? now) eqn:He.
  { erewrite bind_err by (rewrite session_for_token_run, Ht, He by done; done).
    apply good_same; [done|legal]. }
  erewrite bind_ok by (rewrite session_for_token_run, Ht, He by done; done).
  apply Hk; [done|]. destruct (so_bound s Hs _ _ Ht) as (v & Hv & _).
  apply dict_get_is_Some. by exists v.
Qed.

Lemma good_active_session {A} value now (k : uuid → comp (VoiceService P) VoiceError A) s :
  service_ok s → (∀ sid, maintains sid (k sid)) →
  good s ((active_session sha256 hmac b64decode value now ≫= k) s).
Proof.
  intros Hs Hk.
  assert ((active_session sha256 hmac b64decode value now ≫= k) s
    = (session_for_token sha256 hmac b64decode value now ≫= λ sid,
         session sid ≫= λ v,
         throw_if (vs_ended v || match vs_disconnected_at v with Some _ => true | None => false end)
           (VoiceAccessError "voice session is not connected") ≫= λ _, k sid) s) as ->.
  { unfold active_session, mbind, comp_bind, session, throw_if, raise_if, mret, comp_ret.
    repeat case_match; simplify_eq; done. }
  apply good_session_for_token; [done|]. intros sid.
  apply maintains_bind; [apply maintains_session|]. intros v.
  apply maintains_bind; [apply maintains_throw_if; legal|]. done.
Qed.

(** ** Every operation *)

Ltac grow_session :=
  intros ? ?; split_and!;
    [split; simpl; solve [done | auto | set_solver]|done|simpl; solve [done | set_solver]].
Ltac keep :=
  repeat (intros; first
    [ apply maintains_emit | apply maintains_ret | apply maintains_session
    | apply maintains_throw_if; legal | apply maintains_throw; legal | apply maintains_lift_identity
    | apply maintains_provider_call | apply maintains_with_handle | apply maintains_append_final
    | apply maintains_log | apply maintains_emit_voice | apply maintains_update; grow_session
    | apply maintains_bind | case_match ]).

Lemma append_audio_good clk tok f s :
  service_ok s → good s (append_audio sha256 hmac b64decode clk tok f s).
Proof. intros Hs. apply good_active_session; [done|]. keep. Qed.

(** [accept_partial] notes a turn that is not cancelled. *)
Lemma good_note_partial sid turn s v :
  service_ok s → get sid s = Some v → turn ∉ vs_cancelled_turns v →
  good s (update sid (λ v, set_turns v ({[turn]} ∪ vs_partial_turns v) (vs_cancelled_turns v)
                             (vs_final_events v)) s).
Proof.
  intros Hs Hv Hnot.
  set (f w := if bool_decide (turn ∈ vs_cancelled_turns w) then w
              else set_turns w ({[turn]} ∪ vs_partial_turns w) (vs_cancelled_turns w)
                     (vs_final_events w)).
  replace (update sid _ s) with (update sid f s).
  - apply maintains_update; [|done|apply dict_get_is_Some; by exists v]. intros w Hw. subst f. simpl.
    case_bool_decide; [done|]. split_and!; [by split|done|]. simpl. set_solver.
  - unfold update, f. by rewrite Hv, bool_decide_false.
Qed.

(** The session after a successful emission. *)
Lemma emit_ok_session s sid v kind turn text payload now s' e :
  service_ok s → get sid s = Some v →
  (emit_voice sid kind turn text ≫= λ event, emit_canonical sid now event payload) s = (s', Ok e) →
  get sid s' = Some (set_queues v (vs_queued_tts v) (vs_action_progress v) (vs_events v ++ [e])).
Proof.
  intros Hs Hv He. destruct (emit_run s sid v kind turn text payload now Hs Hv)
    as [Hr|[(reason & Hr & _)|(c & j & _ & _ & Hr)]]; rewrite Hr in He; simplify_eq.
  simpl. rewrite dict_get_set. by rewrite bool_decide_true.
Qed.

Lemma accept_partial_good clk tok t text s :
  service_ok s → good s (accept_partial sha256 hmac b64decode clk tok t text s).
Proof.
  intros Hs. apply good_active_session; [done|]. intros sid s1 Hs1 Hin1.
  pose proof Hin1 as [v Hv]%dict_get_is_Some.
  erewrite bind_ok by (unfold session; by rewrite Hv).
  apply good_bind; [apply (maintains_throw_if sid); [legal|done|done]|].
  intros [] s1' [= <- [Hnc _]%raise_if_ok%orb_false_iff] _. bool_to_prop.
  apply good_bind; [by apply maintains_emit|]. intros e s2 He Hs2.
  pose proof (emit_ok_session _ _ _ _ _ _ _ _ _ _ Hs1 Hv He) as Hv2.
  apply good_bind; [by eapply good_note_partial|]. intros [] s3 _ Hs3. apply good_same; [done|legal].
Qed.

Lemma queue_tts_good clk tok t pcm s :
  service_ok s → good s (queue_tts sha256 hmac b64decode clk tok t pcm s).
Proof. intros Hs. apply good_active_session; [done|]. keep. Qed.

Lemma queue_action_progress_good clk tok t text s :
  service_ok s → good s (queue_action_progress sha256 hmac b64decode clk tok t text s).
Proof. intros Hs. apply good_active_session; [done|]. unfold emit_action_progress. keep. Qed.

Lemma barge_in_good clk tok t s :
  service_ok s → good s (barge_in sha256 hmac b64decode clk tok t s).
Proof. intros Hs. apply good_active_session; [done|]. unfold emit_cancellation. keep. Qed.

Lemma disconnect_good clk tok s :
  service_ok s → good s (disconnect sha256 hmac b64decode clk tok s).
Proof. intros Hs. apply good_active_session; [done|]. keep. Qed.

Lemma snapshot_good clk tok s :
  service_ok s → good s (snapshot sha256 hmac b64decode clk tok s).
Proof.
  intros Hs. apply good_session_for_token; [done|]. intros sid.
  apply maintains_bind; [apply maintains_session|]. intros v s' Hs' _. apply good_same; [done|legal].
Qed.

(** A change of the token manager that adds no foreign token. *)
Lemma good_on_tokens {A} s (m : comp SessionTokenManager VoiceError A) :
  service_ok s → tokens_ok sha256 hmac b64encode (m (sv_tokens s)).1 →
  (∀ value t, token_for (m (sv_tokens s)).1 value = Some t →
     ∃ v, get (st_session_id t) s = Some v ∧ sr_device_id (vs_request v) = st_device_id t) →
  (∀ e, (m (sv_tokens s)).2 = Err e → legal_error e) →
  good s (on_tokens m s).
Proof.
  intros [K1 K2 K3 K4 K5 Kt K6 K7] Ht Hb He. unfold on_tokens.
  destruct (m (sv_tokens s)) as [k r]; simpl in *.
  split; [by split| |done|done]. intros i v Hv. by exists v.
Qed.

Lemma maintains_invalidate sid value :
  maintains sid (on_tokens (λ m, (invalidate sha256 value m, Ok tt))).
Proof.
  intros s Hs _. pose proof (delete_token_spec sha256 hmac b64encode sha256_inj value _ (so_tokens s Hs))
    as [Ht Hv]. apply good_on_tokens; [done|done| |legal]. simpl. intros v t. unfold invalidate.
  rewrite Hv. destruct (String.eqb v value); [done|]. by apply (so_bound s Hs).
Qed.

Lemma end_session_good clk tok s :
  service_ok s → good s (end_session sha256 hmac b64decode clk tok s).
Proof.
  intros Hs. apply good_session_for_token; [done|]. keep. intros _. apply maintains_invalidate.
Qed.

Lemma good_for_each {X} (f : X → comp (VoiceService P) VoiceError unit) (l : list X) (key : X → uuid) s :
  service_ok s → (∀ x, x ∈ l → key x ∈ keys s) → (∀ x, maintains (key x) (f x)) →
  good s (for_each f l s).
Proof.
  intros Hs Hl Hf. revert s Hs Hl. induction l as [|x l IH]; intros s Hs Hl; simpl.
  { apply good_same; [done|legal]. }
  assert (good s (f x s)) as Hx by (apply Hf; [done|]; apply Hl; by left).
  apply good_bind; [done|]. intros [] s' Heq Hok. rewrite Heq in Hx. apply IH; [done|].
  intros y Hy. rewrite (good_keys _ _ Hx : keys s' = _). apply Hl. by right.
Qed.

Lemma expire_good now s : service_ok s → good s (expire_disconnected_sessions now s).
Proof.
  intros Hs. unfold expire_disconnected_sessions. apply (good_for_each _ _ (λ i, i)); [done|done|].
  intros sid. unfold expire_session. keep.
Qed.

(** [finalize] records the event of a turn that had none. *)
Lemma maintains_record_final sid turn e s v :
  service_ok s → get sid s = Some v → vs_final_events v !! turn = None →
  good s (update sid (λ v, set_turns v (vs_partial_turns v) (vs_cancelled_turns v)
                             (<[turn := e]> (vs_final_events v))) s).
Proof.
  intros Hs Hv Hnone.
  set (f w := if bool_decide (vs_final_events w !! turn = None)
              then set_turns w (vs_partial_turns w) (vs_cancelled_turns w)
                     (<[turn := e]> (vs_final_events w)) else w).
  replace (update sid _ s) with (update sid f s).
  - apply maintains_update; [|done|apply dict_get_is_Some; by exists v]. intros w Hw. subst f. simpl.
    case_bool_decide; [|done]. split_and!; [|done..]. split; simpl; [done..|].
    by apply insert_subseteq.
  - unfold update, f. by rewrite Hv, bool_decide_true.
Qed.

(** The bookkeeping of a persisted final. *)
Lemma good_close_turn sid turn (e : VoiceEvent) s v :
  service_ok s → get sid s = Some v → vs_final_events v !! turn = None →
  good s ((update sid (λ v, set_turns v (vs_partial_turns v) (vs_cancelled_turns v)
                              (<[turn := e]> (vs_final_events v))) ≫= λ _,
           update sid (λ v, set_turns v (vs_partial_turns v ∖ {[turn]}) (vs_cancelled_turns v)
                              (vs_final_events v)) ≫= λ _,
           update sid (λ v, set_queues v "" (vs_action_progress v) (vs_events v)) ≫= λ _,
           mret e) s).
Proof.
  intros Hs Hv Hnone. pose proof (maintains_record_final sid turn e s v Hs Hv Hnone) as Hg.
  apply good_bind; [done|]. intros [] s' Heq Hok. rewrite Heq in Hg.
  assert (sid ∈ keys s') as Hin.
  { rewrite (good_keys _ _ Hg : keys s' = _). apply dict_get_is_Some. by exists v. }
  revert s' Heq Hg Hok Hin. intros s' _ _. revert s'.
  change (maintains sid (update sid (λ v, set_turns v (vs_partial_turns v ∖ {[turn]})
      (vs_cancelled_turns v) (vs_final_events v)) ≫= λ _,
    update sid (λ v, set_queues v "" (vs_action_progress v) (vs_events v)) ≫= λ _, mret e)).
  keep.
Qed.

Lemma finalize_good clk tok t text s :
  service_ok s → good s (finalize sha256 hmac b64decode clk tok t text s).
Proof.
  intros Hs. apply good_active_session; [done|]. intros sid s1 Hs1 Hin1.
  pose proof Hin1 as [v Hv]%dict_get_is_Some.
  erewrite bind_ok by (unfold session; by rewrite Hv).
  destruct (vs_final_events v !! t) as [existing|] eqn:Hf.
  { apply (maintains_bind sid); [apply maintains_throw_if; legal|intros []; apply maintains_ret|done|done]. }
  apply good_bind; [apply (maintains_throw_if sid); [legal|done|done]|]. intros [] s1' [= <- _] _.
  apply good_bind; [by apply maintains_emit|]. intros e s2 He Hs2.
  pose proof (emit_ok_session _ _ _ _ _ _ _ _ _ _ Hs1 Hv He) as Hv2.
  apply good_bind; [apply (maintains_append_final sid); [done|]; apply dict_get_is_Some; by eexists|].
  intros entry s3 Happ Hs3. eapply good_close_turn; [done|rewrite <- Hv2|exact Hf].
  unfold on_transcripts in Happ. destruct (append_final _ _ _ _ _) as [tr r].
  by injection Happ as <- _.
Qed.

(** [resume], when its token is known. *)
Lemma resume_good clk nonce devices tok dev fp last s :
  service_ok s → String.length nonce = TOKEN_NONCE_BYTES →
  good s (resume sha256 hmac b64encode b64decode parse_device clk nonce devices tok dev fp last s).
Proof.
  intros Hs Hn. unfold resume, verify_for_resume.
  rewrite (verified_record_lookup sha256 hmac b64encode b64decode) by (done || apply Hs).
  destruct (tm_records (sv_tokens s) !! sha256 tok) as [r|] eqn:Hr; [|apply good_same; [done|legal]].
  assert (token_for (sv_tokens s) tok = Some (tk_token r)) as Ht by (unfold Voice.token_for; by rewrite Hr).
  destruct (so_bound s Hs _ _ Ht) as (v & Hv & Hd).
  set (sid := st_session_id (tk_token r)) in *.
  assert (sid ∈ keys s) as Hin by (apply dict_get_is_Some; by exists v).
  erewrite bind_ok by (unfold token_session; fold sid; by rewrite Hv).
  erewrite bind_ok by (unfold session; by rewrite Hv).
  apply good_bind; [by apply (maintains_lift_identity sid)|]. intros [] s' [= <- _] _.
  destruct (vs_disconnected_at v) as [at_|]; [|apply (maintains_throw sid); [legal|done|done]].
  apply good_bind; [apply (maintains_throw_if sid); [legal|done|done]|]. intros [] s' [= <- _] _.
  apply good_bind; [apply (maintains_throw_if sid); [legal|done|done]|]. intros [] s' [= <- _] _.
  pose proof (replace_spec sha256 hmac b64encode b64decode b64_roundtrip sha256_inj nonce tok
                (clk 0%nat) _ (so_tokens s Hs) Hn) as Hrep. rewrite Ht in Hrep.
  destruct Hrep as (m' & t & Hrep & Hm' & Hts & Htd & _ & _ & Hlook).
  assert (good s (on_tokens (replace sha256 hmac b64encode b64decode nonce tok (clk 0%nat)) s)) as Hg.
  { apply good_on_tokens; rewrite ?Hrep; [done|done| |legal]. intros value t'. simpl.
    rewrite Hlook. repeat case_match; intros Heq; simplify_eq.
    - exists v. rewrite Hts, Htd. done.
    - by apply (so_bound s Hs value). }
  apply good_bind; [done|]. intros token s' Heq Hs'. rewrite Heq in Hg.
  rewrite <- (good_keys _ _ Hg : keys s' = _) in Hin. revert s' Heq Hg Hs' Hin. intros s' _ _.
  revert s'. apply maintains_bind; [apply maintains_update; grow_session|]. intros [].
  apply maintains_bind; [apply maintains_session|]. intros w. apply maintains_ret.
Qed.

(** ** Starting a session *)

(** What every call guarantees, a [start] included. *)
Record sound {A : Type} s (r : VoiceService P * result VoiceError A) : Prop := {
  sound_ok : service_ok r.1;
  sound_grows : grows s r.1;
  sound_error : ∀ e, r.2 = Err e → legal_error e;
}.

Lemma good_sound {A} s (r : VoiceService P * result VoiceError A) : good s r → sound s r.
Proof. by intros [H1 H2 H3 H4]. Qed.

Lemma sound_bind {A B} (m : comp (VoiceService P) VoiceError A) k s :
  good s (m s) →
  (∀ a s', m s = (s', Ok a) → service_ok s' → keys s' = keys s → sound (A := B) s' (k a s')) →
  sound s ((m ≫= k) s).
Proof.
  intros [H1 H2 H3 H4] Hk. unfold mbind, comp_bind. destruct (m s) as [s' [a|e]]; simpl in *.
  - destruct (Hk a s' eq_refl H1 H3) as [K1 K2 K3]. split; [done|by transitivity s'|done].
  - split; try done. naive_solver.
Qed.

Lemma good_start_provider s consent retention project surface now later :
  service_ok s →
  good s (on_provider (start_provider_session consent retention (sv_transcripts s) project surface
                         now later) s).
Proof.
  intros Hs. unfold on_provider, start_provider_session, mbind, comp_bind, throw_if, raise_if, stateful.
  repeat case_match; simplify_eq; (apply good_ext; [done..|legal]).
Qed.

Lemma device_inactive s d i v :
  service_ok s → device_active d s = false → get i s = Some v →
  sr_device_id (vs_request v) = d → vs_ended v = true.
Proof.
  intros Hs Ha Hv Hd. apply (dict_get_elem _ _ _ (so_keys s Hs)) in Hv.
  destruct (vs_ended v) eqn:E; [done|]. unfold device_active in Ha.
  assert (existsb (λ kv : uuid * VoiceSessionState, String.eqb (sr_device_id (vs_request kv.2)) d && negb (vs_ended kv.2))
    (sv_sessions s) = true) as Ht; [|congruence].
  apply existsb_exists. exists (i, v). split; [by apply list_elem_of_In|].
  simpl. by rewrite Hd, E, String.eqb_refl.
Qed.

Lemma service_ok_install s sid request mode handle :
  service_ok s → sid ∉ keys s → device_active (sr_device_id request) s = false →
  let s' := with_sessions s (dict_set sid (new_session sid request mode handle) (sv_sessions s)) in
  service_ok s' ∧ grows s s' ∧ get sid s' = Some (new_session sid request mode handle).
Proof.
  intros Hs Hfresh Ha s'. set (n := new_session sid request mode handle).
  assert (get sid s = None) as Hnone.
  { apply eq_None_not_Some. by rewrite dict_get_is_Some. }
  assert (∀ i, get i s' = if bool_decide (sid = i) then Some n else get i s) as Hget.
  { intros i. apply dict_get_set. }
  assert (grows s s') as Hg.
  { intros i v Hv. exists v. rewrite Hget. case_bool_decide; [congruence|done]. }
  split_and!; [|done|by rewrite Hget, bool_decide_true].
  pose proof Hs as [K1 K2 K3 K4 K5 Kt K6 K7]. split; try done.
  - intros value t Ht. destruct (K2 _ _ Ht) as (w & Hw & Hd). destruct (Hg _ _ Hw) as (x & Hx & Hl).
    exists x. split; [done|]. by rewrite (le_request _ _ Hl).
  - simpl. rewrite dict_set_fresh by done. rewrite fmap_app. apply NoDup_app.
    split_and!; [done| |by apply NoDup_singleton]. intros x Hx ->%list_elem_of_singleton. done.
  - intros i j v w. rewrite !Hget. do 2 case_bool_decide; subst; try done; intros Hv Hw Ev Ew Hd.
    + injection Hv as <-. by rewrite (device_inactive s _ _ _ Hs Ha Hw (eq_sym Hd)) in Ew.
    + injection Hw as <-. by rewrite (device_inactive s _ _ _ Hs Ha Hv Hd) in Ev.
    + by apply (K4 i j v w).
  - intros i v. rewrite Hget. case_bool_decide; [|by apply K5]. intros [= <-]. repeat constructor.
  - intros i v. rewrite Hget. case_bool_decide; [|by apply Kt]. intros [= <-]. apply disjoint_empty_l.
Qed.

(** The last steps of [start]: the new session and its token. *)
Lemma sound_install s sid request mode handle reason nonce now :
  service_ok s → sid ∉ keys s → device_active (sr_device_id request) s = false →
  String.length nonce = TOKEN_NONCE_BYTES →
  sound s ((stateful (λ s, (with_sessions s (dict_set sid (new_session sid request mode handle)
                              (sv_sessions s)), Ok tt)) ≫= λ _,
            on_tokens (λ m, let '(m', t) :=
              issue sha256 hmac b64encode nonce sid (sr_device_id request) now m in (m', Ok t))
            ≫= λ token,
            log "voice_session_start" sid (sr_device_id request) 0 ≫= λ _,
            mret (token, mode, reason : string)) s).
Proof.
  intros Hs Hfresh Ha Hn.
  destruct (service_ok_install s sid request mode handle Hs Hfresh Ha) as (Hs' & Hg & Hnew).
  set (s' := with_sessions s _) in *.
  assert (∀ (r : VoiceService P * result VoiceError (SessionToken * SessionMode * string)),
            good s' r → sound s r) as Hlift.
  { intros r [G1 G2 G3 G4]. split; [done|by transitivity s'|done]. }
  erewrite bind_ok by (unfold stateful; fold s'; done). apply Hlift.
  pose proof (issue_spec sha256 hmac b64encode sha256_inj nonce sid (sr_device_id request) now
                (sv_tokens s') (so_tokens s' Hs') Hn) as Hi.
  destruct (issue _ _ _ _ _ _ _ _) as [m t] eqn:Hiss.
  destruct Hi as (Hm & Hts & Htd & _ & _ & Hlook).
  apply good_bind.
  { apply good_on_tokens; rewrite ?Hiss; [done|done| |legal]. simpl. intros value t'.
    rewrite Hlook. case_match; [|by apply (so_bound s' Hs')]. intros [= <-].
    rewrite Hts, Htd. by eexists. }
  intros token s1 _ Hs1. apply good_bind.
  { unfold log. by apply good_ext; [..|legal]. }
  intros [] s2 _ Hs2. apply good_same; [done|legal].
Qed.

Lemma start_sound clk nonce sid deps request s :
  service_ok s → sid ∉ keys s → String.length nonce = TOKEN_NONCE_BYTES →
  sound s (start sha256 hmac b64encode parse_device clk nonce sid deps request s).
Proof.
  intros Hs Hfresh Hn. unfold start.
  apply sound_bind; [by apply (good_ext s); [..|destruct (verify_mtls_identity _ _ _ _); legal]|].
  intros [] s1 [= <- _] _ _.
  apply sound_bind; [by apply expire_good|]. intros [] s2 _ Hs2 Hk2.
  apply sound_bind.
  { unfold stateful. apply good_same; [done|]. destruct (device_active _ _); legal. }
  intros [] s3 [= <- Ha%raise_if_ok] _ _.
  apply sound_bind; [by apply good_start_provider|].
  intros [[mode handle] reason] s4 Hp Hs4 Hk4. apply sound_install; [done| | |done].
  - by rewrite Hk4, Hk2.
  - unfold stateful, on_provider in Hp. destruct (start_provider_session _ _ _ _ _ _ _ _) as [p r].
    by injection Hp as <- _.
Qed.

(** ** Runs of the service *)

Inductive voice_call :=
| CallStart (clk : nat → Z) (nonce : string) (session_id : uuid)
    (deps : VoiceServiceDependencies (D := D)) (request : SessionStartRequest)
| CallAudio (clk : nat → Z) (token : string) (frame : AudioFrame)
| CallPartial (clk : nat → Z) (token : string) (turn : uuid) (text : string)
| CallFinalize (clk : nat → Z) (token : string) (turn : uuid) (text : string)
| CallTts (clk : nat → Z) (token : string) (turn : uuid) (pcm : string)
| CallProgress (clk : nat → Z) (token : string) (turn : uuid) (text : string)
| CallBargeIn (clk : nat → Z) (token : string) (turn : uuid)
| CallDisconnect (clk : nat → Z) (token : string)
| CallResume (clk : nat → Z) (nonce : string) (devices : DeviceRegistry D)
    (token device fingerprint : string) (last : Z)
| CallSnapshot (clk : nat → Z) (token : string)
| CallEnd (clk : nat → Z) (token : string).

Definition outcome {A : Type} (r : VoiceService P * result VoiceError A) :
    VoiceService P * option VoiceError :=
  (r.1, match r.2 with Ok _ => None | Err e => Some e end).

Definition voice_do (c : voice_call) s : VoiceService P * option VoiceError :=
  match c with
  | CallStart clk nonce sid deps request =>
      outcome (start sha256 hmac b64encode parse_device clk nonce sid deps request s)
  | CallAudio clk tok f => outcome (append_audio sha256 hmac b64decode clk tok f s)
  | CallPartial clk tok t x => outcome (accept_partial sha256 hmac b64decode clk tok t x s)
  | CallFinalize clk tok t x => outcome (finalize sha256 hmac b64decode clk tok t x s)
  | CallTts clk tok t x => outcome (queue_tts sha256 hmac b64decode clk tok t x s)
  | CallProgress clk tok t x => outcome (queue_action_progress sha256 hmac b64decode clk tok t x s)
  | CallBargeIn clk tok t => outcome (barge_in sha256 hmac b64decode clk tok t s)
  | CallDisconnect clk tok => outcome (disconnect sha256 hmac b64decode clk tok s)
  | CallResume clk nonce devices tok dev fp last =>
      outcome (resume sha256 hmac b64encode b64decode parse_device clk nonce devices tok dev fp last s)
  | CallSnapshot clk tok => outcome (snapshot sha256 hmac b64decode clk tok s)
  | CallEnd clk tok => outcome (end_session sha256 hmac b64decode clk tok s)
  end.

(** [uuid4] yields an unused identifier and [token_bytes(32)] 32 bytes. *)
Definition call_ok (c : voice_call) s : Prop :=
  match c with
  | CallStart _ nonce sid _ _ => (sid ∉ keys s) ∧ String.length nonce = TOKEN_NONCE_BYTES
  | CallResume _ nonce _ _ _ _ _ => String.length nonce = TOKEN_NONCE_BYTES
  | _ => True
  end.

Inductive voice_run (s : VoiceService P) : VoiceService P → Prop :=
| run_nil : voice_run s s
| run_call s' c : voice_run s s' → call_ok c s' → voice_run s (voice_do c s').1.

Lemma voice_do_sound c s :
  service_ok s → call_ok c s →
  service_ok (voice_do c s).1 ∧ grows s (voice_do c s).1
  ∧ ∀ e, (voice_do c s).2 = Some e → legal_error e.
Proof.
  intros Hs Hc.
  assert (∀ A (r : VoiceService P * result VoiceError A), sound s r →
    service_ok (outcome r).1 ∧ grows s (outcome r).1
    ∧ ∀ e, (outcome r).2 = Some e → legal_error e) as Hlift.
  { intros A [s' [a|e]] [S1 S2 S3]; split_and!; try done. simpl. intros e' [= <-]. by apply S3. }
  destruct c; simpl in *; apply Hlift; [by apply start_sound; try apply Hc|..]; apply good_sound.
  - by apply append_audio_good.
  - by apply accept_partial_good.
  - by apply finalize_good.
  - by apply queue_tts_good.
  - by apply queue_action_progress_good.
  - by apply barge_in_good.
  - by apply disconnect_good.
  - by apply resume_good.
  - by apply snapshot_good.
  - by apply end_session_good.
Qed.

Lemma voice_run_sound s s' : service_ok s → voice_run s s' → service_ok s' ∧ grows s s'.
Proof.
  intros Hs. induction 1 as [|s' c _ [IH1 IH2] Hc]; [done|].
  destruct (voice_do_sound c s' IH1 Hc) as (K1 & K2 & _). split; [done|]. by transitivity s'.
Qed.

Lemma new_service_ok key c devices t p : service_ok (new_service key (new_journal c devices) t p).
Proof.
  split; try done; simpl.
  - constructor.
Qed.

(** A service over a fresh conversation, after any calls. *)
Definition voice_reachable s : Prop :=
  ∃ key c devices t p, voice_run (new_service key (new_journal c devices) t p) s.

Lemma reachable_ok s : voice_reachable s → service_ok s.
Proof.
  intros (key & c & devices & t & p & Hr). eapply voice_run_sound; [apply new_service_ok|done].
Qed.

(** C21. One live session per device: however starts, disconnects, resumes, ends
    and expiries interleave, two sessions of the same device that have not
    ended are the same session. *)
Theorem one_live_session_per_device s i j v w :
  voice_reachable s → get i s = Some v → get j s = Some w →
  vs_ended v = false → vs_ended w = false →
  sr_device_id (vs_request v) = sr_device_id (vs_request w) → i = j.
Proof. intros Hs%reachable_ok. by apply (so_exclusive s Hs). Qed.

(** The relay never loses step with the conversation journal: in any reachable
    state no call fails with an unknown session, and no event is rejected as
    out of order, as a duplicate or for its kind; event numbers along each
    session grow strictly. *)
Theorem voice_bookkeeping_consistent s c :
  voice_reachable s → call_ok c s →
  (∀ e, (voice_do c s).2 = Some e → legal_error e)
  ∧ (∀ i v, get i (voice_do c s).1 = Some v → StronglySorted Z.lt (map ve_event_id (vs_events v))).
Proof.
  intros Hs%reachable_ok Hc. destruct (voice_do_sound c s Hs Hc) as (Hok & _ & He).
  split; [done|]. intros i v Hv. by apply (so_events _ Hok i).
Qed.

(** ** Turns across calls *)

Abbreviation active tok now s sid := (active_session sha256 hmac b64decode tok now s = (s, Ok sid)).

Lemma active_bind {A} tok now s sid (k : uuid → comp (VoiceService P) VoiceError A) :
  active tok now s sid → (active_session sha256 hmac b64decode tok now ≫= k) s = k sid s.
Proof. intros Ha. by rewrite (bind_ok _ _ _ _ _ Ha). Qed.

Lemma active_get tok now s sid :
  active tok now s sid → ∃ v, get sid s = Some v ∧ vs_ended v = false ∧ vs_disconnected_at v = None.
Proof.
  unfold active_session, mbind, comp_bind, session, throw_if, mret, comp_ret. intros Ha.
  destruct (session_for_token _ _ _ _ _ _) as [s' [sid'|e]]; [|done].
  destruct (get sid' s') as [v|] eqn:Hv; [|done].
  destruct (vs_ended v) eqn:He, (vs_disconnected_at v) eqn:Hd; simpl in Ha; simplify_eq. by exists v.
Qed.

Lemma session_bind {A} s sid v (k : VoiceSessionState → comp (VoiceService P) VoiceError A) :
  get sid s = Some v → (session sid ≫= k) s = k v s.
Proof. intros Hv. apply bind_ok. unfold session. by rewrite Hv. Qed.

(** The queues of a session are as they were when an emission is done. *)
Lemma emit_queues s sid v kind turn text payload now :
  service_ok s → get sid s = Some v →
  ∃ w, get sid ((emit_voice sid kind turn text ≫= λ event,
                 emit_canonical sid now event payload) s).1 = Some w
    ∧ vs_cancelled_turns w = vs_cancelled_turns v ∧ vs_queued_tts w = vs_queued_tts v
    ∧ vs_action_progress w = vs_action_progress v.
Proof.
  intros Hs Hv. destruct (emit_run s sid v kind turn text payload now Hs Hv)
    as [->|[(reason & -> & _)|(c & j & _ & _ & ->)]]; simpl; [|by exists v|];
    rewrite dict_get_set, bool_decide_true by done; by eexists.
Qed.

Lemma barge_in_cancels clk tok t s sid :
  service_ok s → active tok (clk 0%nat) s sid →
  ∃ w, get sid (barge_in sha256 hmac b64decode clk tok t s).1 = Some w
    ∧ t ∈ vs_cancelled_turns w ∧ vs_queued_tts w = "" ∧ vs_action_progress w = [].
Proof.
  intros Hs Ha. destruct (active_get _ _ _ _ Ha) as (v & Hv & _).
  unfold barge_in. rewrite (active_bind _ _ _ _ _ Ha).
  set (f1 v := set_turns v (vs_partial_turns v ∖ {[t]}) ({[t]} ∪ vs_cancelled_turns v)
                 (vs_final_events v)).
  assert (maintains sid (update sid f1)) as Hf1 by (apply maintains_update; grow_session).
  assert (sid ∈ keys s) as Hin by (apply dict_get_is_Some; by exists v).
  pose proof (Hf1 s Hs Hin) as Hg1. rewrite (update_run s sid v f1 Hv) in Hg1.
  rewrite (bind_ok _ _ _ _ _ (update_run s sid v f1 Hv)).
  set (s1 := with_sessions s _) in *. pose proof (good_ok _ _ Hg1 : service_ok s1) as Hs1.
  assert (get sid s1 = Some (f1 v)) as Hv1 by (simpl; by rewrite dict_get_set, bool_decide_true).
  set (f2 v := set_queues v "" [] (vs_events v)).
  assert (maintains sid (update sid f2)) as Hf2 by (apply maintains_update; grow_session).
  assert (sid ∈ keys s1) as Hin1 by (apply dict_get_is_Some; by eexists).
  pose proof (Hf2 s1 Hs1 Hin1) as Hg2. rewrite (update_run s1 sid _ f2 Hv1) in Hg2.
  rewrite (bind_ok _ _ _ _ _ (update_run s1 sid _ f2 Hv1)).
  set (s2 := with_sessions s1 _) in *. pose proof (good_ok _ _ Hg2 : service_ok s2) as Hs2.
  assert (get sid s2 = Some (f2 (f1 v))) as Hv2 by (simpl; by rewrite dict_get_set, bool_decide_true).
  rewrite (session_bind _ _ _ _ Hv2).
  assert (sid ∈ keys s2) as Hin2 by (apply dict_get_is_Some; by eexists).
  pose proof (maintains_with_handle sid (f2 (f1 v)) cancel_response s2 Hs2 Hin2) as Hg3.
  assert (get sid (with_handle (f2 (f1 v)) cancel_response s2).1 = Some (f2 (f1 v))) as Hv3.
  { unfold with_handle, provider_call, on_provider. repeat case_match; simplify_eq; done. }
  unfold mbind at 1, comp_bind at 1. destruct (with_handle _ _ s2) as [s3 [[]|e]]; simpl in Hv3.
  - destruct (emit_queues s3 sid _ VOICE_CANCELLATION t "barge_in" (Cancellation t "barge_in")
                (clk 1%nat) (good_ok _ _ Hg3) Hv3) as (w & Hw & Hc & Hq & Hp).
    exists w. split_and!; [done|rewrite Hc; simpl; set_solver|done|done].
  - eexists. split_and!; [done|simpl; set_solver|done|done].
Qed.

(** Cancellation wins: a barge-in clears the queued audio and progress of its
    session whether or not the journal accepts it, and from then on, after any
    further calls, that turn queues no audio and no progress, takes no partial
    and changes nothing by a late final. *)
Theorem barge_in_silences_turn s s2 clk tok sid t :
  voice_reachable s → active tok (clk 0%nat) s sid →
  let s1 := (barge_in sha256 hmac b64decode clk tok t s).1 in
  voice_run s1 s2 →
  (∃ v, get sid s1 = Some v ∧ vs_queued_tts v = "" ∧ vs_action_progress v = [])
  ∧ ∀ clk' tok' text, active tok' (clk' 0%nat) s2 sid →
      queue_tts sha256 hmac b64decode clk' tok' t text s2 = (s2, Ok tt)
      ∧ queue_action_progress sha256 hmac b64decode clk' tok' t text s2 = (s2, Ok None)
      ∧ accept_partial sha256 hmac b64decode clk' tok' t text s2
        = (s2, Err (VoiceOrderError "partial received for a closed turn"))
      ∧ (finalize sha256 hmac b64decode clk' tok' t text s2).1 = s2.
Proof.
  intros Hs%reachable_ok Ha s1 Hrun.
  destruct (barge_in_cancels clk tok t s sid Hs Ha) as (w & Hw & Hc & Hq & Hp). fold s1 in Hw.
  split; [by exists w|]. intros clk' tok' text Ha'.
  destruct (voice_run_sound s1 s2 (good_ok _ _ (barge_in_good clk tok t s Hs)) Hrun) as [Hs2 Hg].
  destruct (Hg _ _ Hw) as (x & Hx & Hle). pose proof (le_cancelled _ _ Hle t Hc) as Hcx.
  unfold queue_tts, queue_action_progress, accept_partial, finalize.
  rewrite !(active_bind _ _ _ _ _ Ha'), !(session_bind _ _ _ _ Hx).
  rewrite bool_decide_true by done. split_and!; [done..|].
  destruct (vs_final_events x !! t) as [e|].
  - unfold throw_if, raise_if, mbind, comp_bind. by destruct (negb _).
  - rewrite bool_decide_false; [done|]. pose proof (so_turns s2 Hs2 _ _ Hx). set_solver.
Qed.

(** ** Finals *)

Lemma emit_final_event sid turn text now s v s' e :
  service_ok s → get sid s = Some v → emit_final sid turn text now s = (s', Ok e) →
  ve_text e = text ∧ ve_turn_id e = turn.
Proof.
  intros Hs Hv. unfold emit_final.
  destruct (emit_run s sid v VOICE_FINAL turn text (TranscriptFinal turn text) now Hs Hv)
    as [->|[(reason & -> & _)|(c & j & _ & _ & ->)]]; intros Heq; by simplify_eq.
Qed.

(** A final that was returned is the recorded one. *)
Lemma finalize_records clk tok t text s s1 sid e :
  service_ok s → active tok (clk 0%nat) s sid →
  finalize sha256 hmac b64decode clk tok t text s = (s1, Ok e) →
  ∃ w, get sid s1 = Some w ∧ vs_final_events w !! t = Some e ∧ ve_text e = text.
Proof.
  intros Hs Ha. destruct (active_get _ _ _ _ Ha) as (v & Hv & _).
  unfold finalize. rewrite (active_bind _ _ _ _ _ Ha), (session_bind _ _ _ _ Hv).
  destruct (vs_final_events v !! t) as [existing|] eqn:Hf.
  { unfold throw_if, raise_if, mbind, comp_bind, mret, comp_ret.
    destruct (negb _) eqn:Hne; intros Heq; simplify_eq. bool_to_prop. by exists v. }
  intros Hrun. unfold throw_if, raise_if in Hrun. unfold mbind at 1, comp_bind at 1 in Hrun.
  destruct (negb _); [done|]. unfold mbind at 1, comp_bind at 1 in Hrun.
  destruct (emit_final _ _ _ _ s) as [s2 [e'|err]] eqn:He; [|done].
  pose proof (emit_ok_session _ _ _ _ _ _ _ _ _ _ Hs Hv He) as Hv2.
  destruct (emit_final_event _ _ _ _ _ _ _ _ Hs Hv He) as [Htext _].
  unfold mbind at 1, comp_bind at 1, on_transcripts in Hrun.
  destruct (append_final _ _ _ _ _) as [tr [entry|err]]; [|done].
  unfold mbind, comp_bind, mret, comp_ret in Hrun.
  do 3 (erewrite update_run in Hrun by (cbn [with_sessions with_transcripts sv_sessions];
    rewrite ?dict_get_set, ?bool_decide_true by done; first [exact Hv2 | reflexivity])).
  injection Hrun as <- <-. eexists. simpl. rewrite dict_get_set, bool_decide_true by done.
  split_and!; [done| |done]. simpl. by rewrite lookup_insert_eq.
Qed.

(** A final transcript is recorded once: when [finalize] returned an event,
    then after any further calls a retry on that session with the same text
    returns the same event and changes nothing, and a different text is refused
    as conflicting and changes nothing. *)
Theorem finalize_is_idempotent s s1 s2 clk tok sid t text e :
  voice_reachable s → active tok (clk 0%nat) s sid →
  finalize sha256 hmac b64decode clk tok t text s = (s1, Ok e) → voice_run s1 s2 →
  ∀ clk' tok' text', active tok' (clk' 0%nat) s2 sid →
    finalize sha256 hmac b64decode clk' tok' t text' s2
    = (s2, if String.eqb text text' then Ok e
           else Err (VoiceOrderError "conflicting final transcript")).
Proof.
  intros Hs%reachable_ok Ha Hfin Hrun clk' tok' text' Ha'.
  destruct (finalize_records _ _ _ _ _ _ _ _ Hs Ha Hfin) as (w & Hw & He & Htext).
  pose proof (good_ok _ _ (finalize_good clk tok t text s Hs)) as Hs1. rewrite Hfin in Hs1.
  destruct (voice_run_sound s1 s2 Hs1 Hrun) as [_ Hg]. destruct (Hg _ _ Hw) as (x & Hx & Hle).
  pose proof (lookup_weaken _ _ _ _ He (le_finals _ _ Hle)) as Hex.
  unfold finalize. rewrite (active_bind _ _ _ _ _ Ha'), (session_bind _ _ _ _ Hx), Hex, Htext.
  unfold throw_if, raise_if, mbind, comp_bind, mret, comp_ret. by destruct (String.eqb text text').
Qed.

(** ** Reconnecting *)

(** A reconnect replays exactly what was missed: [resume] succeeds only for a
    device whose certificate verifies and that owns the token, within 30 seconds
    of the disconnect; it returns the session's events with a number above the
    given one, all of them and in order, and a token for the same session and
    device that is valid for exactly ten minutes; the old token then no longer
    verifies. *)
Theorem resume_replays_missed s s1 clk nonce devices tok dev fp last token replay :
  voice_reachable s → String.length nonce = TOKEN_NONCE_BYTES →
  resume sha256 hmac b64encode b64decode parse_device clk nonce devices tok dev fp last s
    = (s1, Ok (token, replay)) →
  ∃ v t0,
    is_ok (verify_mtls_identity parse_device devices dev fp) = true
    ∧ get (st_session_id token) s = Some v ∧ st_device_id token = dev
    ∧ sr_device_id (vs_request v) = dev
    ∧ vs_disconnected_at v = Some t0 ∧ clk 0%nat <= t0 + RECONNECT_WINDOW
    ∧ replay = List.filter (λ e, last <? ve_event_id e) (vs_events v)
    ∧ StronglySorted Z.lt (map ve_event_id (vs_events v))
    ∧ (∀ now, verify sha256 hmac b64decode (st_value token) now (sv_tokens s1)
              = if clk 0%nat + SESSION_TOKEN_TTL <=? now
                then Err (VoiceAccessError "voice session token expired") else Ok token)
    ∧ (st_value token ≠ tok → ∀ now,
         verify sha256 hmac b64decode tok now (sv_tokens s1)
         = Err (VoiceAccessError "unknown voice session token")).
Proof.
  intros Hs%reachable_ok Hn. pose proof (resume_good clk nonce devices tok dev fp last s Hs Hn) as Hg.
  intros Hr. rewrite Hr in Hg. pose proof (so_tokens _ (good_ok _ _ Hg) : tokens_ok _ _ _ (sv_tokens s1)) as Hm1.
  clear Hg. unfold resume, verify_for_resume in Hr.
  rewrite (verified_record_lookup sha256 hmac b64encode b64decode) in Hr by (done || apply Hs).
  destruct (tm_records (sv_tokens s) !! sha256 tok) as [r|] eqn:Hrec; [|done].
  assert (token_for (sv_tokens s) tok = Some (tk_token r)) as Ht by (unfold Voice.token_for; by rewrite Hrec).
  destruct (so_bound s Hs _ _ Ht) as (v & Hv & Hd).
  unfold mbind, comp_bind, token_session in Hr. rewrite Hv in Hr.
  unfold session at 1 in Hr. rewrite Hv in Hr. unfold lift_identity in Hr.
  destruct (verify_mtls_identity _ _ _ _) as [d|] eqn:Hid; [|done].
  destruct (vs_disconnected_at v) as [t0|] eqn:Hdis; [|done]. unfold throw_if, raise_if in Hr.
  destruct (negb (String.eqb dev _)) eqn:Hdev; [done|].
  destruct (_ <? _) eqn:Hwin; [done|]. bool_to_prop.
  pose proof (replace_spec sha256 hmac b64encode b64decode b64_roundtrip sha256_inj nonce tok
                (clk 0%nat) _ (so_tokens s Hs) Hn) as Hrep. rewrite Ht in Hrep.
  destruct Hrep as (m' & t & Hrep & Hm' & Hts & Htd & Hti & Hte & Hlook).
  unfold on_tokens in Hr. rewrite Hrep in Hr.
  erewrite update_run in Hr by exact Hv. unfold session in Hr. cbn [with_sessions sv_sessions] in Hr.
  rewrite dict_get_set, bool_decide_true in Hr by done. cbn in Hr. injection Hr as <- <- <-.
  exists v, t0. split_and!; [done|by rewrite Hts|congruence|congruence|done|lia|done| | |].
  - apply (so_events s Hs _ _ Hv).
  - intros now. erewrite verify_spec by done. simpl. by rewrite Hlook, String.eqb_refl, Hte.
  - intros Hne now. erewrite verify_spec by done. simpl. rewrite Hlook.
    rewrite (proj2 (String.eqb_neq tok (st_value t))) by done. by rewrite String.eqb_refl.
Qed.
End spec.
