(* ===== verification/VoiceScenarios.v ===== *)
(** * Voice sessions on concrete inputs

    A relay with a recording provider, the witnesses of the service's theorems,
    and two behaviours of [finalize] and of the expiry sweep on it. *)

From stdpp Require Import prelude base strings list gmap sorting.
From Stdlib Require Import ZArith Lia.
From S2P Require Import Prelude PyTime PyText PyUuid Transactions Enrollment Conversation Voice VoiceSession VoiceSpec.
#[local] Open Scope string_scope.
#[local] Open Scope list_scope.
#[local] Open Scope Z_scope.

Module Relay.
(** The provider records the handles it closed. *)
#[export] Instance recorder : RealtimeProvider (list string) := {
  provider_start _ := mret "h1";
  send_audio _ _ := mret tt;
  cancel_response _ := mret tt;
  close h := λ p, (p ++ [h], Ok tt);
}.

Definition sha (s : string) : string := s.
Definition mac (key payload : string) : string := "m".
Definition b64 (s : string) : string := s.
Definition unb64 (s : string) : option string := Some s.

Definition phone_id : string := uuid_str 9.
Definition tablet_id : string := uuid_str 8.
Definition registry : DeviceRegistry EncryptedDevicePersistence :=
  {| reg_persistence := None;
     reg_devices := {[ phone_id := new_device phone_id "fp" "owner" None 0;
                       tablet_id := new_device tablet_id "fp2" "owner" None 0 ]};
     reg_by_fingerprint := {[ "fp" := phone_id; "fp2" := tablet_id ]} |}.

Definition talk : Conversation_ :=
  {| cv_conversation_id := 1; cv_title := "t"; cv_participant_ids := [7]; cv_device_ids := [9];
     cv_created_at := 0; cv_state := ACTIVE |}.
Definition handset : ConversationDevice :=
  {| cd_device_id := 9; cd_participant_id := 7; cd_kind := IOS; cd_name := "phone";
     cd_created_at := 0 |}.

Definition deps : VoiceServiceDependencies (D := EncryptedDevicePersistence) :=
  {| vd_consent := [(PUSH_TO_TALK, {| cr_granted_at := 0; cr_withdrawn_at := None |})];
     vd_retention := {| rv_project_id := "p"; rv_retention_type := ZERO_DATA_RETENTION;
                        rv_store := false; rv_verified_at := 0; rv_valid_until := 1000 * minute |};
     vd_project_id := "p"; vd_devices := registry |}.

Definition request (device fingerprint : string) : SessionStartRequest :=
  {| sr_device_id := device; sr_public_key_fingerprint := fingerprint; sr_participant_id := 7;
     sr_conversation_id := 1; sr_surface := PUSH_TO_TALK |}.

Definition nonce (d : string) : string := d +:+ "0123456789012345678901234567890".
Definition token (d : string) : string := nonce d +:+ "m".
Definition at_ (t : Z) : nat → Z := λ _, t.

Definition fresh : VoiceService (list string) := new_service "k" (new_journal talk [handset]) [] [].

Definition call := voice_call (D := EncryptedDevicePersistence).
Definition do_ (c : call) (s : VoiceService (list string)) :
    VoiceService (list string) * option VoiceError :=
  voice_do sha mac b64 unb64 decode_text c s.
Definition run (calls : list call) : VoiceService (list string) :=
  foldl (λ s c, (do_ c s).1) fresh calls.

Definition started : list call := [CallStart (at_ 0) (nonce "a") 100 deps (request phone_id "fp")].
Definition speaking : list call := started ++ [CallPartial (at_ second) (token "a") 50 "he"].
End Relay.
Import (hints) Relay.

Lemma roundtrip_relay s : Relay.unb64 (Relay.b64 s) = Some s.
Proof. done. Qed.
Lemma sha_relay s s' : Relay.sha s = Relay.sha s' → s = s'.
Proof. done. Qed.

Abbreviation relay_reachable :=
  (voice_reachable Relay.sha Relay.mac Relay.b64 Relay.unb64 decode_text).
Abbreviation relay_run := (voice_run Relay.sha Relay.mac Relay.b64 Relay.unb64 decode_text).

(** Every call of the list meets the conditions on its random inputs. *)
Fixpoint calls_ok (s : VoiceService (list string)) (calls : list Relay.call) : bool :=
  match calls with
  | [] => true
  | c :: rest =>
      match c with
      | CallStart _ nonce sid _ _ =>
          negb (existsb (Z.eqb sid) (sv_sessions s).*1) && Nat.eqb (String.length nonce) 32
      | CallResume _ nonce _ _ _ _ _ => Nat.eqb (String.length nonce) 32
      | _ => true
      end && calls_ok (Relay.do_ c s).1 rest
  end.

Lemma relay_runs calls s :
  calls_ok s calls = true → relay_run s (foldl (λ s c, (Relay.do_ c s).1) s calls).
Proof.
  assert (∀ calls s0 s, relay_run s0 s → calls_ok s calls = true →
    relay_run s0 (foldl (λ s c, (Relay.do_ c s).1) s calls)) as Hgen.
  { clear. induction calls as [|c calls IH]; intros s0 s Hr Hok; [done|].
    simpl in Hok. apply andb_true_iff in Hok as [Hc Hok]. simpl. apply IH; [|done].
    apply run_call; [done|]. destruct c; simpl in Hc |- *; try done.
    - apply andb_true_iff in Hc as [Hf Hn]. split; [|by apply Nat.eqb_eq].
      intros Hin. apply negb_true_iff in Hf. apply not_true_iff_false in Hf. apply Hf.
      apply existsb_exists. eexists. split; [by apply list_elem_of_In|by apply Z.eqb_eq].
    - by apply Nat.eqb_eq. }
  intros Hok. by apply Hgen; [constructor|].
Qed.

Lemma relay_reaches calls : calls_ok Relay.fresh calls = true → relay_reachable (Relay.run calls).
Proof.
  intros Hok. exists "k", Relay.talk, [Relay.handset], [], []. by apply (relay_runs calls Relay.fresh).
Qed.

(** ** Witnesses *)

Lemma one_live_session_per_device_witness :
  (Relay.do_ (CallStart (Relay.at_ 5) (Relay.nonce "b") 101 Relay.deps
                (Relay.request Relay.phone_id "fp")) (Relay.run Relay.started)).2
  = Some (VoiceAccessError "device already has an active voice session")
  ∧ ∀ v, dict_get 100 (sv_sessions (Relay.run Relay.started)) = Some v → vs_ended v = false →
      100 = 100.
Proof.
  split; [vm_compute; reflexivity|]. intros v Hv He.
  refine (one_live_session_per_device Relay.sha Relay.mac Relay.b64 Relay.unb64 decode_text
            roundtrip_relay sha_relay (Relay.run Relay.started) 100 100 v v _ Hv Hv He He eq_refl).
  apply relay_reaches. vm_compute. reflexivity.
Defined.

Lemma voice_bookkeeping_consistent_witness :
  (Relay.do_ (CallPartial (Relay.at_ 5) (Relay.token "a") 51 "x") (Relay.run Relay.speaking)).2
  = Some (VoiceOrderError "turn_closed")
  ∧ legal_error (VoiceOrderError "turn_closed").
Proof.
  assert ((Relay.do_ (CallPartial (Relay.at_ 5) (Relay.token "a") 51 "x")
             (Relay.run Relay.speaking)).2 = Some (VoiceOrderError "turn_closed")) as He
    by (vm_compute; reflexivity).
  split; [exact He|].
  refine (proj1 (voice_bookkeeping_consistent Relay.sha Relay.mac Relay.b64 Relay.unb64 decode_text
            roundtrip_relay sha_relay (Relay.run Relay.speaking)
            (CallPartial (Relay.at_ 5) (Relay.token "a") 51 "x") _ I) _ He).
  apply relay_reaches. vm_compute. reflexivity.
Defined.

Lemma barge_in_silences_turn_witness :
  queue_tts Relay.sha Relay.mac Relay.unb64 (Relay.at_ 7) (Relay.token "a") 50 "pcm"
    (Relay.run (Relay.speaking ++ [CallBargeIn (Relay.at_ 6) (Relay.token "a") 50]))
  = (Relay.run (Relay.speaking ++ [CallBargeIn (Relay.at_ 6) (Relay.token "a") 50]), Ok tt).
Proof.
  refine (proj1 (proj2 (barge_in_silences_turn Relay.sha Relay.mac Relay.b64 Relay.unb64 decode_text
    roundtrip_relay sha_relay (Relay.run Relay.speaking) _ (Relay.at_ 6) (Relay.token "a") 100 50 _ _ _)
    (Relay.at_ 7) (Relay.token "a") "pcm" _)).
  - apply relay_reaches. vm_compute. reflexivity.
  - vm_compute. reflexivity.
  - constructor.
  - vm_compute. reflexivity.
Defined.

Lemma finalize_is_idempotent_witness :
  let s := Relay.run Relay.speaking in
  let s1 := (finalize Relay.sha Relay.mac Relay.unb64 (Relay.at_ 6) (Relay.token "a") 50 "hello" s).1 in
  ∃ e, finalize Relay.sha Relay.mac Relay.unb64 (Relay.at_ 7) (Relay.token "a") 50 "hello" s1
       = (s1, Ok e).
Proof.
  cbv zeta. set (s := Relay.run Relay.speaking).
  destruct (finalize Relay.sha Relay.mac Relay.unb64 (Relay.at_ 6) (Relay.token "a") 50 "hello" s)
    as [s1 [e|err]] eqn:Hf.
  2:{ exfalso. revert Hf. vm_compute. discriminate. }
  exists e.
  refine (finalize_is_idempotent Relay.sha Relay.mac Relay.b64 Relay.unb64 decode_text
    roundtrip_relay sha_relay s s1 s1 (Relay.at_ 6) (Relay.token "a") 100 50 "hello" e _ _ Hf _
    (Relay.at_ 7) (Relay.token "a") "hello" _).
  - apply relay_reaches. vm_compute. reflexivity.
  - vm_compute. reflexivity.
  - constructor.
  - apply (f_equal fst) in Hf. simpl in Hf. rewrite <- Hf. vm_compute. reflexivity.
Defined.

Module Reconnect.
Definition calls : list Relay.call :=
  Relay.speaking ++ [CallProgress (Relay.at_ 6) (Relay.token "a") 50 "working";
                     CallDisconnect (Relay.at_ 7) (Relay.token "a")].
Definition back : VoiceService (list string) * result VoiceError (SessionToken * list VoiceEvent) :=
  resume Relay.sha Relay.mac Relay.b64 Relay.unb64 decode_text (Relay.at_ (20 * second))
    (Relay.nonce "c") Relay.registry (Relay.token "a") Relay.phone_id "fp" 1 (Relay.run calls).
Definition state : VoiceService (list string) := back.1.
Definition renewed : SessionToken :=
  match back.2 with Ok r => r.1 | Err _ => Build_SessionToken "" 0 "" 0 0 end.
Definition replay : list VoiceEvent := match back.2 with Ok r => r.2 | Err _ => [] end.
End Reconnect.

Lemma resume_replays_missed_witness :
  Reconnect.replay = [{| ve_event_id := 2; ve_kind := ACTION_PROGRESS; ve_turn_id := 50;
                         ve_text := "working" |}]
  ∧ verify Relay.sha Relay.mac Relay.unb64 (Relay.token "a") (21 * second)
      (sv_tokens Reconnect.state) = Err (VoiceAccessError "unknown voice session token").
Proof.
  split; [vm_compute; reflexivity|].
  assert (Reconnect.back = (Reconnect.state, Ok (Reconnect.renewed, Reconnect.replay))) as Hb.
  { unfold Reconnect.state, Reconnect.renewed, Reconnect.replay.
    destruct Reconnect.back as [s [[t l]|e]] eqn:E; [reflexivity|].
    exfalso. revert E. vm_compute. discriminate. }
  destruct (resume_replays_missed Relay.sha Relay.mac Relay.b64 Relay.unb64 decode_text
    roundtrip_relay sha_relay (Relay.run Reconnect.calls) Reconnect.state (Relay.at_ (20 * second))
    (Relay.nonce "c") Relay.registry (Relay.token "a") Relay.phone_id "fp" 1 Reconnect.renewed
    Reconnect.replay (relay_reaches Reconnect.calls eq_refl) eq_refl Hb)
    as (v & t0 & _ & _ & _ & _ & _ & _ & _ & _ & _ & Hold).
  apply Hold. vm_compute. discriminate.
Defined.

(** ** Two behaviours of the code *)

(** A final that cannot be stored blocks its own retry: [finalize] hands the
    event to the conversation journal before it writes the transcript, so when
    the write is refused (here an empty text) the journal has closed the turn,
    the event stays in the replay list, no transcript exists, and finalizing the
    turn again with a proper text is rejected. *)
Theorem failed_final_blocks_retry :
  ∃ s s1 tok turn,
    relay_reachable s
    ∧ finalize Relay.sha Relay.mac Relay.unb64 (Relay.at_ 6) tok turn "" s = (s1, Err VoiceValueError)
    ∧ sv_transcripts s1 = []
    ∧ (∃ v e, dict_get 100 (sv_sessions s1) = Some v ∧ last (vs_events v) = Some e
         ∧ ve_kind e = VOICE_FINAL ∧ vs_final_events v !! turn = None)
    ∧ (finalize Relay.sha Relay.mac Relay.unb64 (Relay.at_ 7) tok turn "hello" s1).2
      = Err (VoiceOrderError "final_without_partial").
Proof.
  exists (Relay.run Relay.speaking),
    (finalize Relay.sha Relay.mac Relay.unb64 (Relay.at_ 6) (Relay.token "a") 50 ""
       (Relay.run Relay.speaking)).1, (Relay.token "a"), 50.
  split_and!.
  - apply relay_reaches. vm_compute. reflexivity.
  - etransitivity; [apply surjective_pairing|]. f_equal; vm_compute; reflexivity.
  - vm_compute. reflexivity.
  - eexists _, _. split; [vm_compute; reflexivity|]. split; [vm_compute; reflexivity|].
    split; vm_compute; reflexivity.
  - vm_compute. reflexivity.
Qed.

(** The expiry sweep closes a session again and again: it does not look at
    whether the session has ended, so each later start, of any device, closes
    the provider handle of every session that once ran out its reconnect
    window. *)
Theorem expired_session_closed_repeatedly :
  ∃ s request_,
    relay_reachable s ∧ sv_provider s = ["h1"]
    ∧ (∃ v, dict_get 100 (sv_sessions s) = Some v ∧ vs_ended v = true)
    ∧ sv_provider (Relay.do_ (CallStart (Relay.at_ (50 * second)) (Relay.nonce "c") 102
                                Relay.deps request_) s).1 = ["h1"; "h1"].
Proof.
  exists (Relay.run (Relay.started
            ++ [CallDisconnect (Relay.at_ second) (Relay.token "a");
                CallStart (Relay.at_ (40 * second)) (Relay.nonce "b") 101 Relay.deps
                  (Relay.request Relay.tablet_id "fp2")])), (Relay.request Relay.phone_id "fp").
  split_and!.
  - apply relay_reaches. vm_compute. reflexivity.
  - vm_compute. reflexivity.
  - eexists. split; vm_compute; reflexivity.
  - vm_compute. reflexivity.
Qed.
