(* ===== verification/Knowledge.v ===== *)
(** * The Life Model's assertions ([life_knowledge.py])

    Structured knowledge about the user: routines, drafts awaiting confirmation,
    open loops, projects and the assertion that carries them, with the pydantic
    validators as checks that return or raise.  The zone database is the
    parameter [zone_known]; embedded JSON documents are kept as their text. *)

From stdpp Require Import prelude base strings list gmap.
From Stdlib Require Import ZArith Lia QArith.
From S2P Require Import Prelude PyTime PyUuid.
#[local] Open Scope string_scope.
#[local] Open Scope list_scope.
#[local] Open Scope Z_scope.

Module KnowledgeState.
Inductive t := CONFIRMED | OBSERVED | INFERRED | STALE | CONFLICTED | UNKNOWN.
#[export] Instance eq_dec : EqDecision t.
Proof. solve_decision. Defined.
End KnowledgeState.

Module KnowledgeKind.
Inductive t :=
| IDENTITY | FACT | PATTERN | PREFERENCE | CURRENT_STATE | HISTORY | ASPIRATION | COMMITMENT
| ROUTINE | RELATIONSHIP | PROJECT | OPEN_LOOP | CONSTRAINT | VALUE | DECISION_PREFERENCE
| COMMUNICATION | ENERGY | PLACE | LIFE_DOMAIN | QUESTION | ANTI_GOAL | TRUST_PREFERENCE.
#[export] Instance eq_dec : EqDecision t.
Proof. solve_decision. Defined.
End KnowledgeKind.

Module LifeDomain.
Inductive t :=
| IDENTITY | RESPONSIBILITIES | WORK | FINANCES | EDUCATION | RELATIONSHIPS | VALUES | GOALS
| ROUTINES | ENERGY | WELLNESS | HABITS | LOGISTICS | PROJECTS | OPEN_LOOPS | NOW | PLANNING
| AUTONOMY | COMMUNICATION | STRESS | ANTI_GOALS | TRUST.
#[export] Instance eq_dec : EqDecision t.
Proof. solve_decision. Defined.

(** [for domain in LifeDomain] *)
Definition all : list t :=
  [IDENTITY; RESPONSIBILITIES; WORK; FINANCES; EDUCATION; RELATIONSHIPS; VALUES; GOALS; ROUTINES;
   ENERGY; WELLNESS; HABITS; LOGISTICS; PROJECTS; OPEN_LOOPS; NOW; PLANNING; AUTONOMY;
   COMMUNICATION; STRESS; ANTI_GOALS; TRUST].
Definition value (d : t) : string :=
  match d with
  | IDENTITY => "identity" | RESPONSIBILITIES => "responsibilities" | WORK => "work"
  | FINANCES => "finances" | EDUCATION => "education" | RELATIONSHIPS => "relationships"
  | VALUES => "values" | GOALS => "goals" | ROUTINES => "routines" | ENERGY => "energy"
  | WELLNESS => "wellness" | HABITS => "habits" | LOGISTICS => "logistics"
  | PROJECTS => "projects" | OPEN_LOOPS => "open_loops" | NOW => "now" | PLANNING => "planning"
  | AUTONOMY => "autonomy" | COMMUNICATION => "communication" | STRESS => "stress"
  | ANTI_GOALS => "anti_goals" | TRUST => "trust"
  end.
Definition of_value (s : string) : option t := List.find (λ d, String.eqb (value d) s) all.
#[export] Instance countable : Countable t.
Proof. refine (inj_countable value of_value _). by intros []. Defined.
End LifeDomain.

Module Sensitivity.
Inductive t := PERSONAL | SENSITIVE | RESTRICTED.
#[export] Instance eq_dec : EqDecision t.
Proof. solve_decision. Defined.
End Sensitivity.

Module RoutineFlexibility.
Inductive t := FIXED | PREFERRED | FLEXIBLE | OPTIONAL.
#[export] Instance eq_dec : EqDecision t.
Proof. solve_decision. Defined.
Definition value (f : t) : string :=
  match f with
  | FIXED => "fixed" | PREFERRED => "preferred" | FLEXIBLE => "flexible" | OPTIONAL => "optional"
  end.
End RoutineFlexibility.
Export (hints) KnowledgeState KnowledgeKind LifeDomain Sensitivity RoutineFlexibility.

(** A [datetime.time]; [ct_aware] when it carries a zone. *)
Record clock_time := {
  ct_hour : Z;
  ct_minute : Z;
  ct_second : Z;
  ct_microsecond : Z;
  ct_aware : bool;
}.
#[export] Instance clock_time_eq_dec : EqDecision clock_time.
Proof. solve_decision. Defined.

(** [time(hour, minute)] *)
Definition local_time (hour minute : Z) : clock_time :=
  {| ct_hour := hour; ct_minute := minute; ct_second := 0; ct_microsecond := 0; ct_aware := false |}.

Record RoutineDetails := {
  rd_days : gset Z;
  rd_start_time : option clock_time;
  rd_duration_minutes : Z;
  rd_timezone : string;
  rd_flexibility : RoutineFlexibility.t;
  rd_desired : bool;
  rd_location_id : option uuid;
  rd_travel_minutes : Z;
  rd_preparation_minutes : Z;
  rd_transition_minutes : Z;
  rd_minimum_weekly_frequency : Z;
  rd_priority : Z;
  rd_can_move : bool;
  rd_dependency_ids : list uuid;
}.

Record RoutineDraft := {
  dr_days : option (gset Z);
  dr_start_time : option clock_time;
  dr_duration_minutes : option Z;
  dr_timezone : string;
  dr_flexibility : RoutineFlexibility.t;
  dr_travel_minutes : Z;
  dr_preparation_minutes : Z;
  dr_transition_minutes : Z;
}.

Inductive KnowledgeError :=
| FieldError                      (** a [Field] constraint *)
| ZoneInfoNotFoundError (key : string)
| KnowledgeValueError (message : string)
| KnowledgeOverflowError.         (** a [datetime] out of range *)

Definition check (c : bool) (message : string) : result KnowledgeError unit :=
  raise_if c (KnowledgeValueError message).
Definition field (ok : bool) : result KnowledgeError unit := raise_if (negb ok) FieldError.
Definition between (lo hi n : Z) : bool := (lo <=? n) && (n <=? hi).

Section validation.
Context (zone_known : string → bool).
Open Scope py_scope.

(** Field constraints, then [validate_recurrence]. *)
Definition validate_routine (r : RoutineDetails) : result KnowledgeError unit :=
  let* _ := field (negb (bool_decide (rd_days r = ∅))) in
  let* _ := field (between 1 1440 (rd_duration_minutes r)) in
  let* _ := field (negb (String.eqb (rd_timezone r) "")) in
  let* _ := field (between 0 1440 (rd_travel_minutes r)) in
  let* _ := field (between 0 1440 (rd_preparation_minutes r)) in
  let* _ := field (between 0 1440 (rd_transition_minutes r)) in
  let* _ := field (between 0 7 (rd_minimum_weekly_frequency r)) in
  let* _ := field (between 0 10 (rd_priority r)) in
  let* _ := raise_if (negb (zone_known (rd_timezone r))) (ZoneInfoNotFoundError (rd_timezone r)) in
  let* _ := check (negb (bool_decide (set_Forall (λ d, 0 <= d < 7) (rd_days r))))
              "routine days must use Monday=0 through Sunday=6" in
  let* _ := check (Z.of_nat (size (rd_days r)) <? rd_minimum_weekly_frequency r)
              "minimum frequency exceeds permitted days" in
  let* _ := check (bool_decide (rd_flexibility r = RoutineFlexibility.FIXED)
                   && (bool_decide (rd_start_time r = None) || rd_can_move r))
              "fixed routines require a start time and cannot move" in
  check (match rd_start_time r with
         | None => false
         | Some t => ct_aware t || negb (ct_second t =? 0) || negb (ct_microsecond t =? 0)
         end) "routine start uses local minute resolution and a separate timezone".

(** Field constraints of a draft. *)
Definition validate_draft (d : RoutineDraft) : result KnowledgeError unit :=
  let* _ := field (match dr_duration_minutes d with None => true | Some n => between 1 1440 n end) in
  let* _ := field (negb (String.eqb (dr_timezone d) "")) in
  let* _ := field (between 0 1440 (dr_travel_minutes d)) in
  let* _ := field (between 0 1440 (dr_preparation_minutes d)) in
  field (between 0 1440 (dr_transition_minutes d)).

Definition missing (d : RoutineDraft) : list string :=
  (if bool_decide (dr_days d = None) then ["days"] else [])
  ++ (if bool_decide (dr_duration_minutes d = None) then ["duration"] else [])
  ++ (if bool_decide (dr_start_time d = None)
         && negb (bool_decide (dr_flexibility d = RoutineFlexibility.FLEXIBLE))
      then ["start time (or explicit flexible timing)"] else []).

(** [RoutineDetails.model_validate(draft.model_dump())]: the fields of a draft
    with the defaults of the others. *)
Definition routine_of_draft (d : RoutineDraft) : result KnowledgeError RoutineDetails :=
  match dr_days d, dr_duration_minutes d with
  | Some days, Some duration =>
      let r := {| rd_days := days; rd_start_time := dr_start_time d;
                  rd_duration_minutes := duration; rd_timezone := dr_timezone d;
                  rd_flexibility := dr_flexibility d; rd_desired := false; rd_location_id := None;
                  rd_travel_minutes := dr_travel_minutes d;
                  rd_preparation_minutes := dr_preparation_minutes d;
                  rd_transition_minutes := dr_transition_minutes d;
                  rd_minimum_weekly_frequency := 0; rd_priority := 5; rd_can_move := false;
                  rd_dependency_ids := [] |} in
      let* _ := validate_routine r in Ok r
  | _, _ => Err FieldError
  end.
End validation.

Record ProjectDetails := {
  pj_desired_outcome : string;
  pj_why_it_matters : option string;
  pj_current_state : string;
  pj_deadline : option datetime;
  pj_next_action : option string;
  pj_blocker : option string;
  pj_dependency_ids : list uuid;
  pj_people_ids : list uuid;
  pj_resource_ids : list uuid;
  pj_goal_graph_id : option uuid;
  pj_active : option bool;
}.

Inductive disposition := INBOX | CLARIFIED | DEFERRED | SOMEDAY | DELEGATED | DONE.

Record OpenLoopDetails := {
  ol_disposition : disposition;
  ol_actionable : option bool;
  ol_desired_outcome : option string;
  ol_next_action : option string;
  ol_deadline : option datetime;
  ol_duration_minutes : option Z;
  ol_energy_required : option Z;
  ol_context : option string;
  ol_dependency_ids : list uuid;
  ol_delegate_id : option uuid;
}.

(** [OpenLoopDetails()] *)
Definition inbox_loop : OpenLoopDetails :=
  {| ol_disposition := INBOX; ol_actionable := None; ol_desired_outcome := None;
     ol_next_action := None; ol_deadline := None; ol_duration_minutes := None;
     ol_energy_required := None; ol_context := None; ol_dependency_ids := [];
     ol_delegate_id := None |}.

Inductive observation_precision := INSTANT | DAY | MONTH | YEAR | SOURCE_SNAPSHOT.

Record KnowledgeSourceEvidence := {
  se_source_id : string;
  se_source_path : string;
  se_document_sha256 : string;
  se_generated_at : datetime;
  se_declared_state : option KnowledgeState.t;
  se_observation_precision : observation_precision;
  se_original : string;
}.

Inductive cardinality := ONE | MANY.
#[export] Instance cardinality_eq_dec : EqDecision cardinality.
Proof. solve_decision. Defined.

Record KnowledgeDetails := {
  kd_subject_id : string;
  kd_key : string;
  kd_cardinality : cardinality;
  kd_domain : LifeDomain.t;
  kd_kind : KnowledgeKind.t;
  kd_state : KnowledgeState.t;
  kd_observed_at : datetime;
  kd_last_confirmed_at : option datetime;
  kd_valid_from : option datetime;
  kd_valid_until : option datetime;
  kd_expected_staleness_days : option Z;
  kd_sensitivity : Sensitivity.t;
  kd_importance : Z;
  kd_related_entity_ids : list uuid;
  kd_related_goal_ids : list uuid;
  kd_related_project_ids : list uuid;
  kd_evidence_ids : list uuid;
  kd_conflicts_with : list uuid;
  kd_planning_allowed : bool;
  kd_source_evidence : option KnowledgeSourceEvidence;
  kd_superseded_by : option uuid;
  kd_routine : option RoutineDetails;
  kd_pending_confirmation : option RoutineDraft;
  kd_project : option ProjectDetails;
  kd_open_loop : option OpenLoopDetails;
}.

Definition require_aware (d : datetime) : result KnowledgeError unit :=
  check (negb (aware d)) "knowledge timestamps must be timezone-aware".

(** [a <= b] *)
Definition dt_leb (a b : datetime) : bool := negb (dt_ltb b a).

Definition has {A : Type} (o : option A) : bool := match o with Some _ => true | None => false end.

Section evidence.
Context (zone_known : string → bool).
Open Scope py_scope.

Definition optional_aware (o : option datetime) : result KnowledgeError unit :=
  match o with None => Ok tt | Some d => require_aware d end.

(** A structured part must belong to the kind of the assertion. *)
Definition kind_matches (present : bool) (k kind : KnowledgeKind.t) : result KnowledgeError unit :=
  check (present && negb (bool_decide (k = kind))) "structured details must match the knowledge kind".

Definition validate_evidence (k : KnowledgeDetails) : result KnowledgeError unit :=
  let* _ := require_aware (kd_observed_at k) in
  let* _ := optional_aware (kd_last_confirmed_at k) in
  let* _ := optional_aware (kd_valid_from k) in
  let* _ := optional_aware (kd_valid_until k) in
  let* _ := check (match kd_valid_from k, kd_valid_until k with
                   | Some a, Some b => dt_leb b a
                   | _, _ => false
                   end) "knowledge validity must end after it starts" in
  let* _ := check (bool_decide (kd_state k = KnowledgeState.CONFIRMED)
                   && negb (has (kd_last_confirmed_at k)))
              "confirmed knowledge requires explicit confirmation time" in
  let* _ := check ((bool_decide (kd_state k = KnowledgeState.INFERRED)
                    || bool_decide (kd_state k = KnowledgeState.UNKNOWN))
                   && has (kd_last_confirmed_at k))
              "inferences and unknowns cannot claim user confirmation" in
  let* _ := check (negb (bool_decide (kd_conflicts_with k = []))
                   && negb (bool_decide (kd_state k = KnowledgeState.CONFLICTED)))
              "contradictory evidence must remain conflicted" in
  let* _ := kind_matches (has (kd_routine k)) (kd_kind k) KnowledgeKind.ROUTINE in
  let* _ := kind_matches (has (kd_pending_confirmation k)) (kd_kind k) KnowledgeKind.ROUTINE in
  let* _ := kind_matches (has (kd_project k)) (kd_kind k) KnowledgeKind.PROJECT in
  kind_matches (has (kd_open_loop k)) (kd_kind k) KnowledgeKind.OPEN_LOOP.

Definition optional {A : Type} (f : A → result KnowledgeError unit) (o : option A) :
    result KnowledgeError unit :=
  match o with None => Ok tt | Some a => f a end.

Definition non_empty (s : string) : bool := negb (String.eqb s "").

Definition validate_project (p : ProjectDetails) : result KnowledgeError unit :=
  field (non_empty (pj_desired_outcome p) && non_empty (pj_current_state p)).

Definition validate_open_loop (o : OpenLoopDetails) : result KnowledgeError unit :=
  let* _ := optional (λ n, field (1 <=? n)) (ol_duration_minutes o) in
  optional (λ n, field (between 1 5 n)) (ol_energy_required o).

Definition validate_source (e : KnowledgeSourceEvidence) : result KnowledgeError unit :=
  field (non_empty (se_source_id e) && non_empty (se_source_path e)
         && non_empty (se_document_sha256 e)).

(** Everything pydantic checks when it builds a [KnowledgeDetails]. *)
Definition validate_details (k : KnowledgeDetails) : result KnowledgeError unit :=
  let* _ := field (non_empty (kd_subject_id k)) in
  let* _ := field (non_empty (kd_key k)) in
  let* _ := optional (λ n, field (1 <=? n)) (kd_expected_staleness_days k) in
  let* _ := field (between 0 10 (kd_importance k)) in
  let* _ := optional validate_source (kd_source_evidence k) in
  let* _ := optional (validate_routine zone_known) (kd_routine k) in
  let* _ := optional validate_draft (kd_pending_confirmation k) in
  let* _ := optional validate_project (kd_project k) in
  let* _ := optional validate_open_loop (kd_open_loop k) in
  validate_evidence k.

(** ** Derived state *)

Definition current_at (k : KnowledgeDetails) (now : datetime) : result KnowledgeError bool :=
  let* _ := require_aware now in
  Ok (match kd_valid_from k with None => true | Some a => dt_leb a now end
      && match kd_valid_until k with None => true | Some b => dt_ltb now b end).

Definition days_ (n : Z) : Z := n * (24 * 60 * minute).

Definition reference_time (k : KnowledgeDetails) : datetime :=
  match kd_last_confirmed_at k with Some d => d | None => kd_observed_at k end.

(** The microseconds of years 1 to 9999. *)
Definition datetime_range (t : Z) : bool :=
  (-62135596800 * second <=? t) && (t <? 253402300800 * second).

Definition effective_state (k : KnowledgeDetails) (now : datetime) :
    result KnowledgeError KnowledgeState.t :=
  let* _ := require_aware now in
  match kd_state k with
  | KnowledgeState.CONFLICTED | KnowledgeState.UNKNOWN | KnowledgeState.STALE => Ok (kd_state k)
  | s =>
      match kd_expected_staleness_days k with
      | Some n =>
          let due := utc (reference_time k) + days_ n in
          let* _ := raise_if (negb (datetime_range (utc now) && datetime_range (utc (reference_time k))
                                    && datetime_range due)) KnowledgeOverflowError in
          Ok (if due <=? utc now then KnowledgeState.STALE else s)
      | None => Ok s
      end
  end.
End evidence.

Inductive objective := UNDERSTANDING | WEEK_PLANNING.
#[export] Instance objective_eq_dec : EqDecision objective.
Proof. solve_decision. Defined.
Inductive phase := PhaseActive | PhasePaused | PhaseContinuous.
#[export] Instance phase_eq_dec : EqDecision phase.
Proof. solve_decision. Defined.

Record InterviewProgress := {
  ip_subject_id : string;
  ip_objective : objective;
  ip_phase : phase;
  ip_skipped_keys : gset string;
  ip_permitted_domains : gset LifeDomain.t;
  ip_skipped_domains : gset LifeDomain.t;
  ip_last_question_key : option string;
  ip_pending_confirmation_key : option string;
  ip_sweep_complete : bool;
}.

(** ** Copies with some fields replaced ([model_copy]) *)

Definition set_phase (p : phase) (s : InterviewProgress) : InterviewProgress :=
  {| ip_subject_id := ip_subject_id s; ip_objective := ip_objective s; ip_phase := p;
     ip_skipped_keys := ip_skipped_keys s; ip_permitted_domains := ip_permitted_domains s;
     ip_skipped_domains := ip_skipped_domains s; ip_last_question_key := ip_last_question_key s;
     ip_pending_confirmation_key := ip_pending_confirmation_key s;
     ip_sweep_complete := ip_sweep_complete s |}.
Definition set_objective (o : objective) (s : InterviewProgress) : InterviewProgress :=
  {| ip_subject_id := ip_subject_id s; ip_objective := o; ip_phase := ip_phase s;
     ip_skipped_keys := ip_skipped_keys s; ip_permitted_domains := ip_permitted_domains s;
     ip_skipped_domains := ip_skipped_domains s; ip_last_question_key := ip_last_question_key s;
     ip_pending_confirmation_key := ip_pending_confirmation_key s;
     ip_sweep_complete := ip_sweep_complete s |}.
Definition set_last_key (k : string) (s : InterviewProgress) : InterviewProgress :=
  {| ip_subject_id := ip_subject_id s; ip_objective := ip_objective s; ip_phase := ip_phase s;
     ip_skipped_keys := ip_skipped_keys s; ip_permitted_domains := ip_permitted_domains s;
     ip_skipped_domains := ip_skipped_domains s; ip_last_question_key := Some k;
     ip_pending_confirmation_key := ip_pending_confirmation_key s;
     ip_sweep_complete := ip_sweep_complete s |}.
Definition skip_key (k : string) (s : InterviewProgress) : InterviewProgress :=
  {| ip_subject_id := ip_subject_id s; ip_objective := ip_objective s; ip_phase := ip_phase s;
     ip_skipped_keys := {[ k ]} ∪ ip_skipped_keys s; ip_permitted_domains := ip_permitted_domains s;
     ip_skipped_domains := ip_skipped_domains s; ip_last_question_key := ip_last_question_key s;
     ip_pending_confirmation_key := ip_pending_confirmation_key s;
     ip_sweep_complete := ip_sweep_complete s |}.
Definition skip_domain (d : LifeDomain.t) (s : InterviewProgress) : InterviewProgress :=
  {| ip_subject_id := ip_subject_id s; ip_objective := ip_objective s; ip_phase := ip_phase s;
     ip_skipped_keys := ip_skipped_keys s; ip_permitted_domains := ip_permitted_domains s;
     ip_skipped_domains := {[ d ]} ∪ ip_skipped_domains s;
     ip_last_question_key := ip_last_question_key s;
     ip_pending_confirmation_key := ip_pending_confirmation_key s;
     ip_sweep_complete := ip_sweep_complete s |}.
Definition permit_domain (d : LifeDomain.t) (s : InterviewProgress) : InterviewProgress :=
  {| ip_subject_id := ip_subject_id s; ip_objective := ip_objective s; ip_phase := ip_phase s;
     ip_skipped_keys := ip_skipped_keys s;
     ip_permitted_domains := {[ d ]} ∪ ip_permitted_domains s;
     ip_skipped_domains := ip_skipped_domains s; ip_last_question_key := ip_last_question_key s;
     ip_pending_confirmation_key := ip_pending_confirmation_key s;
     ip_sweep_complete := ip_sweep_complete s |}.
Definition set_pending (k : option string) (s : InterviewProgress) : InterviewProgress :=
  {| ip_subject_id := ip_subject_id s; ip_objective := ip_objective s; ip_phase := ip_phase s;
     ip_skipped_keys := ip_skipped_keys s; ip_permitted_domains := ip_permitted_domains s;
     ip_skipped_domains := ip_skipped_domains s; ip_last_question_key := ip_last_question_key s;
     ip_pending_confirmation_key := k; ip_sweep_complete := ip_sweep_complete s |}.
Definition set_sweep (s : InterviewProgress) : InterviewProgress :=
  {| ip_subject_id := ip_subject_id s; ip_objective := ip_objective s; ip_phase := ip_phase s;
     ip_skipped_keys := ip_skipped_keys s; ip_permitted_domains := ip_permitted_domains s;
     ip_skipped_domains := ip_skipped_domains s; ip_last_question_key := ip_last_question_key s;
     ip_pending_confirmation_key := ip_pending_confirmation_key s; ip_sweep_complete := true |}.

Definition with_pending (p : option RoutineDraft) (k : KnowledgeDetails) : KnowledgeDetails :=
  {| kd_subject_id := kd_subject_id k; kd_key := kd_key k; kd_cardinality := kd_cardinality k;
     kd_domain := kd_domain k; kd_kind := kd_kind k; kd_state := kd_state k;
     kd_observed_at := kd_observed_at k; kd_last_confirmed_at := kd_last_confirmed_at k;
     kd_valid_from := kd_valid_from k; kd_valid_until := kd_valid_until k;
     kd_expected_staleness_days := kd_expected_staleness_days k; kd_sensitivity := kd_sensitivity k;
     kd_importance := kd_importance k; kd_related_entity_ids := kd_related_entity_ids k;
     kd_related_goal_ids := kd_related_goal_ids k; kd_related_project_ids := kd_related_project_ids k;
     kd_evidence_ids := kd_evidence_ids k; kd_conflicts_with := kd_conflicts_with k;
     kd_planning_allowed := kd_planning_allowed k; kd_source_evidence := kd_source_evidence k;
     kd_superseded_by := kd_superseded_by k; kd_routine := kd_routine k;
     kd_pending_confirmation := p; kd_project := kd_project k; kd_open_loop := kd_open_loop k |}.
Definition with_planning (b : bool) (k : KnowledgeDetails) : KnowledgeDetails :=
  {| kd_subject_id := kd_subject_id k; kd_key := kd_key k; kd_cardinality := kd_cardinality k;
     kd_domain := kd_domain k; kd_kind := kd_kind k; kd_state := kd_state k;
     kd_observed_at := kd_observed_at k; kd_last_confirmed_at := kd_last_confirmed_at k;
     kd_valid_from := kd_valid_from k; kd_valid_until := kd_valid_until k;
     kd_expected_staleness_days := kd_expected_staleness_days k; kd_sensitivity := kd_sensitivity k;
     kd_importance := kd_importance k; kd_related_entity_ids := kd_related_entity_ids k;
     kd_related_goal_ids := kd_related_goal_ids k; kd_related_project_ids := kd_related_project_ids k;
     kd_evidence_ids := kd_evidence_ids k; kd_conflicts_with := kd_conflicts_with k;
     kd_planning_allowed := b; kd_source_evidence := kd_source_evidence k;
     kd_superseded_by := kd_superseded_by k; kd_routine := kd_routine k;
     kd_pending_confirmation := kd_pending_confirmation k; kd_project := kd_project k;
     kd_open_loop := kd_open_loop k |}.
Definition with_sensitivity (s : Sensitivity.t) (k : KnowledgeDetails) : KnowledgeDetails :=
  {| kd_subject_id := kd_subject_id k; kd_key := kd_key k; kd_cardinality := kd_cardinality k;
     kd_domain := kd_domain k; kd_kind := kd_kind k; kd_state := kd_state k;
     kd_observed_at := kd_observed_at k; kd_last_confirmed_at := kd_last_confirmed_at k;
     kd_valid_from := kd_valid_from k; kd_valid_until := kd_valid_until k;
     kd_expected_staleness_days := kd_expected_staleness_days k; kd_sensitivity := s;
     kd_importance := kd_importance k; kd_related_entity_ids := kd_related_entity_ids k;
     kd_related_goal_ids := kd_related_goal_ids k; kd_related_project_ids := kd_related_project_ids k;
     kd_evidence_ids := kd_evidence_ids k; kd_conflicts_with := kd_conflicts_with k;
     kd_planning_allowed := kd_planning_allowed k; kd_source_evidence := kd_source_evidence k;
     kd_superseded_by := kd_superseded_by k; kd_routine := kd_routine k;
     kd_pending_confirmation := kd_pending_confirmation k; kd_project := kd_project k;
     kd_open_loop := kd_open_loop k |}.
Definition with_successor (id : uuid) (k : KnowledgeDetails) : KnowledgeDetails :=
  {| kd_subject_id := kd_subject_id k; kd_key := kd_key k; kd_cardinality := kd_cardinality k;
     kd_domain := kd_domain k; kd_kind := kd_kind k; kd_state := kd_state k;
     kd_observed_at := kd_observed_at k; kd_last_confirmed_at := kd_last_confirmed_at k;
     kd_valid_from := kd_valid_from k; kd_valid_until := kd_valid_until k;
     kd_expected_staleness_days := kd_expected_staleness_days k; kd_sensitivity := kd_sensitivity k;
     kd_importance := kd_importance k; kd_related_entity_ids := kd_related_entity_ids k;
     kd_related_goal_ids := kd_related_goal_ids k; kd_related_project_ids := kd_related_project_ids k;
     kd_evidence_ids := kd_evidence_ids k; kd_conflicts_with := kd_conflicts_with k;
     kd_planning_allowed := kd_planning_allowed k; kd_source_evidence := kd_source_evidence k;
     kd_superseded_by := Some id; kd_routine := kd_routine k;
     kd_pending_confirmation := kd_pending_confirmation k; kd_project := kd_project k;
     kd_open_loop := kd_open_loop k |}.
Definition with_evidence (ids : list uuid) (k : KnowledgeDetails) : KnowledgeDetails :=
  {| kd_subject_id := kd_subject_id k; kd_key := kd_key k; kd_cardinality := kd_cardinality k;
     kd_domain := kd_domain k; kd_kind := kd_kind k; kd_state := kd_state k;
     kd_observed_at := kd_observed_at k; kd_last_confirmed_at := kd_last_confirmed_at k;
     kd_valid_from := kd_valid_from k; kd_valid_until := kd_valid_until k;
     kd_expected_staleness_days := kd_expected_staleness_days k; kd_sensitivity := kd_sensitivity k;
     kd_importance := kd_importance k; kd_related_entity_ids := kd_related_entity_ids k;
     kd_related_goal_ids := kd_related_goal_ids k; kd_related_project_ids := kd_related_project_ids k;
     kd_evidence_ids := ids; kd_conflicts_with := kd_conflicts_with k;
     kd_planning_allowed := kd_planning_allowed k; kd_source_evidence := kd_source_evidence k;
     kd_superseded_by := kd_superseded_by k; kd_routine := kd_routine k;
     kd_pending_confirmation := kd_pending_confirmation k; kd_project := kd_project k;
     kd_open_loop := kd_open_loop k |}.
(** The routine takes effect: confirmed now, no longer pending. *)
Definition with_routine (r : RoutineDetails) (at_ : datetime) (allowed : bool) (k : KnowledgeDetails) :
    KnowledgeDetails :=
  {| kd_subject_id := kd_subject_id k; kd_key := kd_key k; kd_cardinality := kd_cardinality k;
     kd_domain := kd_domain k; kd_kind := kd_kind k; kd_state := kd_state k;
     kd_observed_at := kd_observed_at k; kd_last_confirmed_at := Some at_;
     kd_valid_from := kd_valid_from k; kd_valid_until := kd_valid_until k;
     kd_expected_staleness_days := kd_expected_staleness_days k; kd_sensitivity := kd_sensitivity k;
     kd_importance := kd_importance k; kd_related_entity_ids := kd_related_entity_ids k;
     kd_related_goal_ids := kd_related_goal_ids k; kd_related_project_ids := kd_related_project_ids k;
     kd_evidence_ids := kd_evidence_ids k; kd_conflicts_with := kd_conflicts_with k;
     kd_planning_allowed := allowed; kd_source_evidence := kd_source_evidence k;
     kd_superseded_by := kd_superseded_by k; kd_routine := Some r; kd_pending_confirmation := None;
     kd_project := kd_project k; kd_open_loop := kd_open_loop k |}.
