(* ===== verification/Memory.v ===== *)
(** * Governed memory ([memory/legacy.py], [memory_repository.py])

    The repository keeps one live revision per memory in [governed_memories], a
    content-free tombstone for every revision it removed, and an audit entry per
    change; removing a revision also voids the backups that may hold it.
    Pydantic's JSON of a record is the class [RecordCodec]; HMAC is a parameter. *)

From stdpp Require Import prelude base strings list gmap.
From Stdlib Require Import ZArith Lia QArith.
From S2P Require Import Prelude PyTime PyText PyUuid Transactions AuditLedger Knowledge.
#[local] Open Scope string_scope.
#[local] Open Scope list_scope.
#[local] Open Scope Z_scope.

Module MemoryCategory.
Inductive t := PROFILE | PREFERENCE | COMMITMENT | EPISODE | OBSERVATION | INTERVIEW.
#[export] Instance eq_dec : EqDecision t.
Proof. solve_decision. Defined.
End MemoryCategory.

Module RetrievalScope.
Inductive t := PRIVATE | CONVERSATION | PLANNING | DELEGATION.
#[export] Instance eq_dec : EqDecision t.
Proof. solve_decision. Defined.
Definition index (s : t) : N :=
  match s with PRIVATE => 0 | CONVERSATION => 1 | PLANNING => 2 | DELEGATION => 3 end%N.
Definition of_index (n : N) : t :=
  match n with 0 => PRIVATE | 1 => CONVERSATION | 2 => PLANNING | _ => DELEGATION end%N.
#[export] Instance countable : Countable t.
Proof. refine (inj_countable' index of_index _). by intros []. Defined.
End RetrievalScope.

Module MemorySource.
Inductive t :=
| USER_STATEMENT | USER_CORRECTION | CONVERSATION | IMPORT | INFERENCE | CONNECTED_SYSTEM | BEHAVIOR.
#[export] Instance eq_dec : EqDecision t.
Proof. solve_decision. Defined.
End MemorySource.

Module MemoryRemovalReason.
Inductive t := USER_CORRECTION | USER_DELETION | RETENTION_EXPIRED.
#[export] Instance eq_dec : EqDecision t.
Proof. solve_decision. Defined.
End MemoryRemovalReason.
Export (hints) MemoryCategory RetrievalScope MemorySource MemoryRemovalReason.

Record MemoryProvenance := {
  mp_source : MemorySource.t;
  mp_source_id : string;
  mp_captured_at : datetime;
}.

Record MemoryRecord := {
  mr_memory_id : uuid;
  mr_category : MemoryCategory.t;
  mr_content : string;
  mr_provenance : MemoryProvenance;
  mr_confidence : Q;
  mr_retrieval_scopes : gset RetrievalScope.t;
  mr_created_at : datetime;
  mr_retain_until : option datetime;
  mr_revision : Z;
  mr_knowledge : option KnowledgeDetails;
  mr_interview : option InterviewProgress;
}.

Record MemoryCorrection := {
  mc_expected_revision : Z;
  mc_content : string;
  mc_provenance : MemoryProvenance;
  mc_confidence : Q;
  mc_retrieval_scopes : gset RetrievalScope.t;
  mc_retain_until : option datetime;
  mc_knowledge : option KnowledgeDetails;
  mc_interview : option InterviewProgress;
}.

Record MemoryTombstone := {
  ts_memory_id : uuid;
  ts_revision : Z;
  ts_removed_at : string;
  ts_reason : MemoryRemovalReason.t;
  ts_source_fingerprint : string;
}.

Inductive MemoryError :=
| MemoryNotFoundError (memory_id : uuid)
| StaleMemoryRevisionError (memory_id : uuid) (expected current : Z)
| MemoryValueError (message : string)
| MemoryValidationError (e : KnowledgeError)
| MemoryParseError                       (** a row that does not parse *)
| MemoryIntegrityError                   (** duplicate primary key *)
| MemoryTypeError                        (** naive against aware datetime *)
| MemoryLedgerError (e : AuditError).

(** ** Validation *)

Section record.
Context (zone_known : string → bool).
Open Scope py_scope.

Definition user_source (s : MemorySource.t) : bool :=
  match s with
  | MemorySource.USER_STATEMENT | MemorySource.USER_CORRECTION => true
  | _ => false
  end.
Definition direct_source (s : MemorySource.t) : bool :=
  match s with
  | MemorySource.CONNECTED_SYSTEM | MemorySource.BEHAVIOR | MemorySource.IMPORT => true
  | _ => false
  end.

Definition validate_knowledge_source (r : MemoryRecord) : result KnowledgeError unit :=
  let source := mp_source (mr_provenance r) in
  let* _ := match mr_knowledge r with
            | None => Ok tt
            | Some k =>
                let* _ := check (bool_decide (kd_state k = KnowledgeState.CONFIRMED)
                                 && negb (user_source source))
                            "confirmed knowledge requires explicit user provenance" in
                check (bool_decide (kd_state k = KnowledgeState.OBSERVED)
                       && negb (direct_source source))
                  "observed knowledge requires direct source evidence"
            end in
  check (has (mr_interview r)
         && (negb (bool_decide (mr_category r = MemoryCategory.INTERVIEW)) || has (mr_knowledge r)
             || negb (bool_decide (mr_retrieval_scopes r = {[ RetrievalScope.PRIVATE ]}))))
    "interview position must remain separate and private".

Definition validate_progress (p : InterviewProgress) : result KnowledgeError unit :=
  field (non_empty (ip_subject_id p)).

(** The record's own fields. *)
Definition validate_fields (r : MemoryRecord) : result KnowledgeError unit :=
  let* _ := field (non_empty (mr_content r)) in
  let* _ := field (Qle_bool 0 (mr_confidence r) && Qle_bool (mr_confidence r) 1) in
  let* _ := field (negb (bool_decide (mr_retrieval_scopes r = ∅))) in
  field (1 <=? mr_revision r).

(** The models nested in a record. *)
Definition validate_nested (p : MemoryProvenance) (k : option KnowledgeDetails)
    (i : option InterviewProgress) : result KnowledgeError unit :=
  let* _ := field (non_empty (mp_source_id p)) in
  let* _ := optional (validate_details zone_known) k in
  optional validate_progress i.

(** Building a record from model instances: pydantic checks the record's own
    fields and runs its validator, and takes instances as they are. *)
Definition validate_instance (r : MemoryRecord) : result KnowledgeError unit :=
  let* _ := validate_fields r in
  validate_knowledge_source r.

(** Building a record from its JSON. *)
Definition validate_record (r : MemoryRecord) : result KnowledgeError unit :=
  let* _ := validate_nested (mr_provenance r) (mr_knowledge r) (mr_interview r) in
  validate_instance r.

Definition record_valid (r : MemoryRecord) : bool := is_ok (validate_record r).

(** The models nested in a correction. *)
Definition validate_correction (m : MemoryCorrection) : result KnowledgeError unit :=
  validate_nested (mc_provenance m) (mc_knowledge m) (mc_interview m).

(** The correction's own fields. *)
Definition validate_correction_fields (m : MemoryCorrection) : result KnowledgeError unit :=
  let* _ := field (1 <=? mc_expected_revision m) in
  let* _ := field (non_empty (mc_content m)) in
  let* _ := field (Qle_bool 0 (mc_confidence m) && Qle_bool (mc_confidence m) 1) in
  field (negb (bool_decide (mc_retrieval_scopes m = ∅))).
End record.

(** Times with a fixed offset survive JSON unchanged. *)
Definition plain_time (d : datetime) : bool :=
  match dt_tz d with ZoneInfo _ _ => false | _ => true end.
Definition plain_opt (o : option datetime) : bool :=
  match o with None => true | Some d => plain_time d end.
Definition plain_details (k : KnowledgeDetails) : bool :=
  plain_time (kd_observed_at k) && plain_opt (kd_last_confirmed_at k) && plain_opt (kd_valid_from k)
  && plain_opt (kd_valid_until k)
  && match kd_source_evidence k with None => true | Some e => plain_time (se_generated_at e) end
  && match kd_project k with None => true | Some p => plain_opt (pj_deadline p) end
  && match kd_open_loop k with None => true | Some o => plain_opt (ol_deadline o) end.
Definition plain_record (r : MemoryRecord) : bool :=
  plain_time (mp_captured_at (mr_provenance r)) && plain_time (mr_created_at r)
  && plain_opt (mr_retain_until r)
  && match mr_knowledge r with None => true | Some k => plain_details k end.

(** ** Pydantic's JSON of a record *)

Class RecordCodec := {
  dump_record : MemoryRecord → string;            (** [model_dump_json] *)
  parse_record : string → option MemoryRecord;    (** [model_validate_json] *)
}.

(** Parsing validates, and gives back a record whose times have fixed offsets. *)
Class RecordCodecLaws (zone_known : string → bool) `{RecordCodec} := {
  parse_dump : ∀ r, plain_record r = true →
    parse_record (dump_record r) = if record_valid zone_known r then Some r else None;
}.

(** ** Tables *)

Record memory_row := {
  row_revision : Z;
  row_retain_until : option string;
  row_content_json : string;
  row_created_at : string;
}.

Record manifest_row := {
  bm_path : string;
  bm_created_at : string;
  bm_expires_at : string;
  bm_wrapped_data_key : option string;
  bm_nonce : option string;
  bm_status : string;
}.

Record memory_db := {
  md_memories : gmap uuid memory_row;
  md_tombstones : gmap (uuid * Z) MemoryTombstone;
  md_manifests : gmap string manifest_row;
  md_backup_records : gset (string * string * string);
  md_memory_coverage : gset string;
  md_audit : audit_db;
}.

Definition set_memories (db : memory_db) (m : gmap uuid memory_row) : memory_db :=
  {| md_memories := m; md_tombstones := md_tombstones db; md_manifests := md_manifests db;
     md_backup_records := md_backup_records db; md_memory_coverage := md_memory_coverage db;
     md_audit := md_audit db |}.
Definition set_tombstones (db : memory_db) (t : gmap (uuid * Z) MemoryTombstone) : memory_db :=
  {| md_memories := md_memories db; md_tombstones := t; md_manifests := md_manifests db;
     md_backup_records := md_backup_records db; md_memory_coverage := md_memory_coverage db;
     md_audit := md_audit db |}.
Definition set_manifests (db : memory_db) (m : gmap string manifest_row) : memory_db :=
  {| md_memories := md_memories db; md_tombstones := md_tombstones db; md_manifests := m;
     md_backup_records := md_backup_records db; md_memory_coverage := md_memory_coverage db;
     md_audit := md_audit db |}.
Definition set_audit (db : memory_db) (a : audit_db) : memory_db :=
  {| md_memories := md_memories db; md_tombstones := md_tombstones db;
     md_manifests := md_manifests db; md_backup_records := md_backup_records db;
     md_memory_coverage := md_memory_coverage db; md_audit := a |}.

Section repository.
Context (hmac : string → string → string) (audit_key : string).
Context `{RecordCodec}.
Abbreviation M A := (comp (connection memory_db) MemoryError A).

(** ** [MemoryAuditor] *)

Definition fingerprint (r : MemoryRecord) : string := tohex (hmac audit_key (dump_record r)).

Definition audit_verify : M unit := query (λ db,
  match verify_ledger hmac audit_key (md_audit db) with
  | Ok _ => Ok tt
  | Err e => Err (MemoryLedgerError e)
  end).

Definition memory_mutation (r : MemoryRecord) (action fp : string) (ctx : TransitionContext) :
    AuditMutation :=
  {| am_record_kind := NORMALIZED_FACT; am_record_id := uuid_str (mr_memory_id r);
     am_state := action; am_action_class := "memory." +:+ action; am_source_fingerprint := fp;
     am_actor := tc_actor ctx; am_correlation_id := tc_correlation_id ctx;
     am_occurred_at := tc_occurred_at ctx |}.

Definition audit_append (r : MemoryRecord) (action fp : string) (ctx : TransitionContext)
    (db : memory_db) : result MemoryError memory_db :=
  match append hmac audit_key (memory_mutation r action fp ctx) (md_audit db) with
  | (a, Ok _) => Ok (set_audit db a)
  | (_, Err e) => Err (MemoryLedgerError e)
  end.

(** ** [MemoryRepository] *)

Definition parse_row (row : memory_row) : result MemoryError MemoryRecord :=
  match parse_record (row_content_json row) with Some r => Ok r | None => Err MemoryParseError end.

Definition read (memory_id : uuid) (db : memory_db) : result MemoryError MemoryRecord :=
  match md_memories db !! memory_id with
  | None => Err (MemoryNotFoundError memory_id)
  | Some row => parse_row row
  end.

Definition record_ids (db : memory_db) : list uuid := (map_to_list (md_memories db)).*1.

Definition row_of_record (r : MemoryRecord) : memory_row :=
  {| row_revision := mr_revision r; row_retain_until := isoformat <$> mr_retain_until r;
     row_content_json := dump_record r; row_created_at := isoformat (mr_created_at r) |}.

Definition insert_memory (r : MemoryRecord) (db : memory_db) : result MemoryError memory_db :=
  match md_memories db !! mr_memory_id r with
  | Some _ => Err MemoryIntegrityError
  | None => Ok (set_memories db (<[mr_memory_id r := row_of_record r]> (md_memories db)))
  end.

(** [ORDER BY revision] *)
Definition tombstones (memory_id : uuid) (db : memory_db) : list MemoryTombstone :=
  py_sorted (λ a b, ts_revision a <? ts_revision b)
    (List.filter (λ t, ts_memory_id t =? memory_id) (map_to_list (md_tombstones db)).*2).

(** A backup may hold the record: it lists it, or it predates the inventory of
    memories and was made since the record was. *)
Definition backup_exposed (r : MemoryRecord) (db : memory_db) (id : string) (b : manifest_row) : bool :=
  String.eqb (bm_status b) "active"
  && (bool_decide ((id, "normalized_fact", uuid_str (mr_memory_id r)) ∈ md_backup_records db)
      || (negb (bool_decide (id ∈ md_memory_coverage db))
          && negb (String.ltb (bm_created_at b) (isoformat (mr_created_at r))))).

Definition invalidated (b : manifest_row) : manifest_row :=
  {| bm_path := bm_path b; bm_created_at := bm_created_at b; bm_expires_at := bm_expires_at b;
     bm_wrapped_data_key := None; bm_nonce := None; bm_status := "invalidated" |}.

Definition invalidate_backups (r : MemoryRecord) (db : memory_db) : result MemoryError memory_db :=
  Ok (set_manifests db
        (map_imap (λ id b, Some (if backup_exposed r db id b then invalidated b else b))
           (md_manifests db))).

(** The delete trigger is lifted for this statement by [MemoryLifecycle.deletion]. *)
Definition delete_memory (r : MemoryRecord) (db : memory_db) : result MemoryError memory_db :=
  Ok (set_memories db (delete (mr_memory_id r) (md_memories db))).

Definition tombstone_of (r : MemoryRecord) (reason : MemoryRemovalReason.t) (fp : string)
    (ctx : TransitionContext) : MemoryTombstone :=
  {| ts_memory_id := mr_memory_id r; ts_revision := mr_revision r;
     ts_removed_at := isoformat (tc_occurred_at ctx); ts_reason := reason;
     ts_source_fingerprint := fp |}.

Definition insert_tombstone (t : MemoryTombstone) (db : memory_db) : result MemoryError memory_db :=
  match md_tombstones db !! (ts_memory_id t, ts_revision t) with
  | Some _ => Err MemoryIntegrityError
  | None => Ok (set_tombstones db (<[(ts_memory_id t, ts_revision t) := t]> (md_tombstones db)))
  end.

Section remove.
(** How a statement runs: inside a block, or opening a transaction. *)
Context (run_statement : (memory_db → result MemoryError memory_db) → M unit).

Definition remove (r : MemoryRecord) (reason : MemoryRemovalReason.t) (fp : string)
    (ctx : TransitionContext) : M unit :=
  run_statement (invalidate_backups r) ≫= λ _,
  run_statement (delete_memory r) ≫= λ _,
  run_statement (insert_tombstone (tombstone_of r reason fp ctx)).
End remove.

Definition remember (r : MemoryRecord) (ctx : TransitionContext) : M unit :=
  match parse_record (dump_record r) with
  | None => throw MemoryParseError
  | Some record =>
      domain_transaction (
        audit_verify ≫= λ _,
        query (λ db, raise_if (negb (bool_decide (tombstones (mr_memory_id record) db = [])))
                       (MemoryValueError "forgotten memory identity cannot be reused")) ≫= λ _,
        execute (insert_memory record) ≫= λ _,
        execute (audit_append record "created" (fingerprint record) ctx))
  end.

(** [record.retain_until > now], a [TypeError] between naive and aware times. *)
Definition retained (now : datetime) (r : MemoryRecord) : result MemoryError bool :=
  match mr_retain_until r with
  | None => Ok true
  | Some t => if bool_decide (aware t = aware now) then Ok (dt_ltb now t) else Err MemoryTypeError
  end.

Definition visible (scope : RetrievalScope.t) (now : datetime) (r : MemoryRecord) :
    result MemoryError bool :=
  if bool_decide (scope ∈ mr_retrieval_scopes r) then retained now r else Ok false.

Fixpoint select {X : Type} (f : X → result MemoryError bool) (l : list X) :
    result MemoryError (list X) :=
  match l with
  | [] => Ok []
  | x :: l' => match f x with
               | Err e => Err e
               | Ok keep => match select f l' with
                            | Err e => Err e
                            | Ok rest => Ok (if keep then x :: rest else rest)
                            end
               end
  end.

Fixpoint parse_rows (rows : list memory_row) : result MemoryError (list MemoryRecord) :=
  match rows with
  | [] => Ok []
  | row :: rest =>
      match parse_row row with
      | Err e => Err e
      | Ok r => match parse_rows rest with Err e => Err e | Ok l => Ok (r :: l) end
      end
  end.

(** [ORDER BY created_at, memory_id], on the text columns. *)
Definition row_before (a b : uuid * memory_row) : bool :=
  String.ltb (row_created_at a.2) (row_created_at b.2)
  || (String.eqb (row_created_at a.2) (row_created_at b.2)
      && String.ltb (uuid_str a.1) (uuid_str b.1)).

Definition retrieve (scope : RetrievalScope.t) (now : datetime) (db : memory_db) :
    result MemoryError (list MemoryRecord) :=
  match parse_rows (py_sorted row_before (map_to_list (md_memories db))).*2 with
  | Err e => Err e
  | Ok records => select (visible scope now) records
  end.

Definition require_revision (current : MemoryRecord) (expected : Z) : result MemoryError unit :=
  raise_if (negb (expected =? mr_revision current))
    (StaleMemoryRevisionError (mr_memory_id current) expected (mr_revision current)).

Definition replacement_of (memory_id : uuid) (current : MemoryRecord) (m : MemoryCorrection) :
    MemoryRecord :=
  {| mr_memory_id := memory_id; mr_category := mr_category current;
     mr_content := mc_content m; mr_provenance := mc_provenance m;
     mr_confidence := mc_confidence m; mr_retrieval_scopes := mc_retrieval_scopes m;
     mr_created_at := mr_created_at current; mr_retain_until := mc_retain_until m;
     mr_revision := mr_revision current + 1; mr_knowledge := mc_knowledge m;
     mr_interview := mc_interview m |}.

(** [MemoryRecord(...)] of instances. *)
Definition built (r : MemoryRecord) : result MemoryError MemoryRecord :=
  match validate_instance r with Ok _ => Ok r | Err e => Err (MemoryValidationError e) end.

Definition correct (memory_id : uuid) (m : MemoryCorrection) (ctx : TransitionContext) :
    M MemoryRecord :=
  domain_transaction (
    audit_verify ≫= λ _,
    query (read memory_id) ≫= λ current,
    query (λ _, require_revision current (mc_expected_revision m)) ≫= λ _,
    query (λ _, raise_if (has (mr_knowledge current) && negb (has (mc_knowledge m)))
                  (MemoryValueError "knowledge correction must explicitly preserve its governance"))
    ≫= λ _,
    query (λ _, built (replacement_of memory_id current m)) ≫= λ replacement,
    remove execute current MemoryRemovalReason.USER_CORRECTION (fingerprint current) ctx ≫= λ _,
    execute (insert_memory replacement) ≫= λ _,
    execute (audit_append current "corrected" (fingerprint current) ctx) ≫= λ _,
    mret replacement).

Definition delete_record (memory_id : uuid) (expected_revision : Z) (ctx : TransitionContext) :
    M unit :=
  domain_transaction (
    audit_verify ≫= λ _,
    query (read memory_id) ≫= λ current,
    query (λ _, require_revision current expected_revision) ≫= λ _,
    remove execute current MemoryRemovalReason.USER_DELETION (fingerprint current) ctx ≫= λ _,
    execute (audit_append current "deleted" (fingerprint current) ctx)).

(** [retain_until IS NOT NULL AND retain_until<=?], on the text column. *)
Definition row_expired (now : datetime) (row : memory_row) : bool :=
  match row_retain_until row with
  | None => false
  | Some t => negb (String.ltb (isoformat now) t)
  end.

Definition purge_one (ctx : TransitionContext) (r : MemoryRecord) : M unit :=
  remove execute_dml r MemoryRemovalReason.RETENTION_EXPIRED (fingerprint r) ctx ≫= λ _,
  execute_dml (audit_append r "retention_expired" (fingerprint r) ctx).

Definition purge_memory (now : datetime) (ctx : TransitionContext) : M Z :=
  audit_verify ≫= λ _,
  query (λ db, parse_rows (List.filter (row_expired now) (map_to_list (md_memories db)).*2))
  ≫= λ expired,
  for_each (purge_one ctx) expired ≫= λ _,
  stateful (λ c, (commit c, Ok (Z.of_nat (length expired)))).
End repository.
