(* ===== verification/MemoryCodec.v ===== *)
(** * A text form of records

    Memory records are countable, which gives an injective text form that stands
    in for JSON in concrete runs: an instance of [RecordCodec] with its laws. *)

From stdpp Require Import prelude base strings list gmap countable.
From Stdlib Require Import ZArith Lia QArith.
From S2P Require Import Prelude PyTime PyText PyUuid Knowledge Memory.
#[local] Open Scope list_scope.

(** The position of a constructor in the list of all of them. *)
Definition index_in {A : Type} `{EqDecision A} (l : list A) (a : A) : nat :=
  match list_find (a =.) l with Some (i, _) => i | None => 0%nat end.

#[export] Instance Q_eq_dec : EqDecision Q.
Proof. solve_decision. Defined.
#[export] Instance Q_countable : Countable Q.
Proof.
  refine (inj_countable' (λ q, (Qnum q, Qden q)) (λ '(n, d), Qmake n d) _). by intros [].
Defined.

#[export] Instance disposition_eq_dec : EqDecision disposition.
Proof. solve_decision. Defined.
Definition disposition_all : list disposition :=
  [INBOX; CLARIFIED; DEFERRED; SOMEDAY; DELEGATED; DONE].
#[export] Instance disposition_countable : Countable disposition.
Proof.
  refine (inj_countable (index_in disposition_all) (λ n, disposition_all !! n) _).
  by intros [].
Defined.
#[export] Instance observation_precision_eq_dec : EqDecision observation_precision.
Proof. solve_decision. Defined.
Definition observation_precision_all : list observation_precision :=
  [INSTANT; DAY; MONTH; YEAR; SOURCE_SNAPSHOT].
#[export] Instance observation_precision_countable : Countable observation_precision.
Proof.
  refine (inj_countable (index_in observation_precision_all) (λ n, observation_precision_all !! n) _).
  by intros [].
Defined.
Definition cardinality_all : list cardinality :=
  [ONE; MANY].
#[export] Instance cardinality_countable : Countable cardinality.
Proof.
  refine (inj_countable (index_in cardinality_all) (λ n, cardinality_all !! n) _).
  by intros [].
Defined.
Definition objective_all : list objective :=
  [UNDERSTANDING; WEEK_PLANNING].
#[export] Instance objective_countable : Countable objective.
Proof.
  refine (inj_countable (index_in objective_all) (λ n, objective_all !! n) _).
  by intros [].
Defined.
Definition phase_all : list phase :=
  [PhaseActive; PhasePaused; PhaseContinuous].
#[export] Instance phase_countable : Countable phase.
Proof.
  refine (inj_countable (index_in phase_all) (λ n, phase_all !! n) _).
  by intros [].
Defined.
Definition KnowledgeState_all : list KnowledgeState.t :=
  [KnowledgeState.CONFIRMED; KnowledgeState.OBSERVED; KnowledgeState.INFERRED;
   KnowledgeState.STALE; KnowledgeState.CONFLICTED; KnowledgeState.UNKNOWN].
#[export] Instance KnowledgeState_countable : Countable KnowledgeState.t.
Proof.
  refine (inj_countable (index_in KnowledgeState_all) (λ n, KnowledgeState_all !! n) _).
  by intros [].
Defined.
Definition KnowledgeKind_all : list KnowledgeKind.t :=
  [KnowledgeKind.IDENTITY; KnowledgeKind.FACT; KnowledgeKind.PATTERN; KnowledgeKind.PREFERENCE;
   KnowledgeKind.CURRENT_STATE; KnowledgeKind.HISTORY; KnowledgeKind.ASPIRATION;
   KnowledgeKind.COMMITMENT; KnowledgeKind.ROUTINE; KnowledgeKind.RELATIONSHIP;
   KnowledgeKind.PROJECT; KnowledgeKind.OPEN_LOOP; KnowledgeKind.CONSTRAINT;
   KnowledgeKind.VALUE; KnowledgeKind.DECISION_PREFERENCE; KnowledgeKind.COMMUNICATION;
   KnowledgeKind.ENERGY; KnowledgeKind.PLACE; KnowledgeKind.LIFE_DOMAIN;
   KnowledgeKind.QUESTION; KnowledgeKind.ANTI_GOAL; KnowledgeKind.TRUST_PREFERENCE].
#[export] Instance KnowledgeKind_countable : Countable KnowledgeKind.t.
Proof.
  refine (inj_countable (index_in KnowledgeKind_all) (λ n, KnowledgeKind_all !! n) _).
  by intros [].
Defined.
Definition Sensitivity_all : list Sensitivity.t :=
  [Sensitivity.PERSONAL; Sensitivity.SENSITIVE; Sensitivity.RESTRICTED].
#[export] Instance Sensitivity_countable : Countable Sensitivity.t.
Proof.
  refine (inj_countable (index_in Sensitivity_all) (λ n, Sensitivity_all !! n) _).
  by intros [].
Defined.
Definition RoutineFlexibility_all : list RoutineFlexibility.t :=
  [RoutineFlexibility.FIXED; RoutineFlexibility.PREFERRED; RoutineFlexibility.FLEXIBLE;
   RoutineFlexibility.OPTIONAL].
#[export] Instance RoutineFlexibility_countable : Countable RoutineFlexibility.t.
Proof.
  refine (inj_countable (index_in RoutineFlexibility_all) (λ n, RoutineFlexibility_all !! n) _).
  by intros [].
Defined.
Definition MemoryCategory_all : list MemoryCategory.t :=
  [MemoryCategory.PROFILE; MemoryCategory.PREFERENCE; MemoryCategory.COMMITMENT;
   MemoryCategory.EPISODE; MemoryCategory.OBSERVATION; MemoryCategory.INTERVIEW].
#[export] Instance MemoryCategory_countable : Countable MemoryCategory.t.
Proof.
  refine (inj_countable (index_in MemoryCategory_all) (λ n, MemoryCategory_all !! n) _).
  by intros [].
Defined.
Definition MemorySource_all : list MemorySource.t :=
  [MemorySource.USER_STATEMENT; MemorySource.USER_CORRECTION; MemorySource.CONVERSATION;
   MemorySource.IMPORT; MemorySource.INFERENCE; MemorySource.CONNECTED_SYSTEM;
   MemorySource.BEHAVIOR].
#[export] Instance MemorySource_countable : Countable MemorySource.t.
Proof.
  refine (inj_countable (index_in MemorySource_all) (λ n, MemorySource_all !! n) _).
  by intros [].
Defined.

(** Records as the list of their encoded fields. *)

#[export] Instance clock_time_countable : Countable clock_time.
Proof.
  refine (inj_countable (λ r,
     [encode (ct_hour r); encode (ct_minute r); encode (ct_second r); encode (ct_microsecond r);
      encode (ct_aware r)])
    (λ l, match l with
          | [x0; x1; x2; x3; x4] =>
              x0 ← decode x0; x1 ← decode x1; x2 ← decode x2; x3 ← decode x3; x4 ← decode x4; Some
              (Build_clock_time x0 x1 x2 x3 x4)
          | _ => None
          end) _).
  intros []. cbv beta iota. by rewrite !decode_encode.
Defined.

#[export] Instance RoutineDetails_eq_dec : EqDecision RoutineDetails.
Proof. solve_decision. Defined.
#[export] Instance RoutineDetails_countable : Countable RoutineDetails.
Proof.
  refine (inj_countable (λ r,
     [encode (rd_days r); encode (rd_start_time r); encode (rd_duration_minutes r); encode
      (rd_timezone r); encode (rd_flexibility r); encode (rd_desired r); encode
      (rd_location_id r); encode (rd_travel_minutes r); encode (rd_preparation_minutes r);
      encode (rd_transition_minutes r); encode (rd_minimum_weekly_frequency r); encode
      (rd_priority r); encode (rd_can_move r); encode (rd_dependency_ids r)])
    (λ l, match l with
          | [x0; x1; x2; x3; x4; x5; x6; x7; x8; x9; x10; x11; x12; x13] =>
              x0 ← decode x0; x1 ← decode x1; x2 ← decode x2; x3 ← decode x3; x4 ← decode x4; x5 ←
              decode x5; x6 ← decode x6; x7 ← decode x7; x8 ← decode x8; x9 ← decode x9;
              x10 ← decode x10; x11 ← decode x11; x12 ← decode x12; x13 ← decode x13;
              Some (Build_RoutineDetails x0 x1 x2 x3 x4 x5 x6 x7 x8 x9 x10 x11 x12 x13)
          | _ => None
          end) _).
  intros []. cbv beta iota. by rewrite !decode_encode.
Defined.

#[export] Instance RoutineDraft_eq_dec : EqDecision RoutineDraft.
Proof. solve_decision. Defined.
#[export] Instance RoutineDraft_countable : Countable RoutineDraft.
Proof.
  refine (inj_countable (λ r,
     [encode (dr_days r); encode (dr_start_time r); encode (dr_duration_minutes r); encode
      (dr_timezone r); encode (dr_flexibility r); encode (dr_travel_minutes r); encode
      (dr_preparation_minutes r); encode (dr_transition_minutes r)])
    (λ l, match l with
          | [x0; x1; x2; x3; x4; x5; x6; x7] =>
              x0 ← decode x0; x1 ← decode x1; x2 ← decode x2; x3 ← decode x3; x4 ← decode x4; x5 ←
              decode x5; x6 ← decode x6; x7 ← decode x7; Some (Build_RoutineDraft x0 x1
              x2 x3 x4 x5 x6 x7)
          | _ => None
          end) _).
  intros []. cbv beta iota. by rewrite !decode_encode.
Defined.

#[export] Instance ProjectDetails_eq_dec : EqDecision ProjectDetails.
Proof. solve_decision. Defined.
#[export] Instance ProjectDetails_countable : Countable ProjectDetails.
Proof.
  refine (inj_countable (λ r,
     [encode (pj_desired_outcome r); encode (pj_why_it_matters r); encode (pj_current_state r);
      encode (pj_deadline r); encode (pj_next_action r); encode (pj_blocker r); encode
      (pj_dependency_ids r); encode (pj_people_ids r); encode (pj_resource_ids r); encode
      (pj_goal_graph_id r); encode (pj_active r)])
    (λ l, match l with
          | [x0; x1; x2; x3; x4; x5; x6; x7; x8; x9; x10] =>
              x0 ← decode x0; x1 ← decode x1; x2 ← decode x2; x3 ← decode x3; x4 ← decode x4; x5 ←
              decode x5; x6 ← decode x6; x7 ← decode x7; x8 ← decode x8; x9 ← decode x9;
              x10 ← decode x10; Some (Build_ProjectDetails x0 x1 x2 x3 x4 x5 x6 x7 x8 x9
              x10)
          | _ => None
          end) _).
  intros []. cbv beta iota. by rewrite !decode_encode.
Defined.

#[export] Instance OpenLoopDetails_eq_dec : EqDecision OpenLoopDetails.
Proof. solve_decision. Defined.
#[export] Instance OpenLoopDetails_countable : Countable OpenLoopDetails.
Proof.
  refine (inj_countable (λ r,
     [encode (ol_disposition r); encode (ol_actionable r); encode (ol_desired_outcome r); encode
      (ol_next_action r); encode (ol_deadline r); encode (ol_duration_minutes r); encode
      (ol_energy_required r); encode (ol_context r); encode (ol_dependency_ids r); encode
      (ol_delegate_id r)])
    (λ l, match l with
          | [x0; x1; x2; x3; x4; x5; x6; x7; x8; x9] =>
              x0 ← decode x0; x1 ← decode x1; x2 ← decode x2; x3 ← decode x3; x4 ← decode x4; x5 ←
              decode x5; x6 ← decode x6; x7 ← decode x7; x8 ← decode x8; x9 ← decode x9;
              Some (Build_OpenLoopDetails x0 x1 x2 x3 x4 x5 x6 x7 x8 x9)
          | _ => None
          end) _).
  intros []. cbv beta iota. by rewrite !decode_encode.
Defined.

#[export] Instance KnowledgeSourceEvidence_eq_dec : EqDecision KnowledgeSourceEvidence.
Proof. solve_decision. Defined.
#[export] Instance KnowledgeSourceEvidence_countable : Countable KnowledgeSourceEvidence.
Proof.
  refine (inj_countable (λ r,
     [encode (se_source_id r); encode (se_source_path r); encode (se_document_sha256 r); encode
      (se_generated_at r); encode (se_declared_state r); encode (se_observation_precision
      r); encode (se_original r)])
    (λ l, match l with
          | [x0; x1; x2; x3; x4; x5; x6] =>
              x0 ← decode x0; x1 ← decode x1; x2 ← decode x2; x3 ← decode x3; x4 ← decode x4; x5 ←
              decode x5; x6 ← decode x6; Some (Build_KnowledgeSourceEvidence x0 x1 x2 x3
              x4 x5 x6)
          | _ => None
          end) _).
  intros []. cbv beta iota. by rewrite !decode_encode.
Defined.

#[export] Instance KnowledgeDetails_eq_dec : EqDecision KnowledgeDetails.
Proof. solve_decision. Defined.
#[export] Instance KnowledgeDetails_countable : Countable KnowledgeDetails.
Proof.
  refine (inj_countable (λ r,
     [encode (kd_subject_id r); encode (kd_key r); encode (kd_cardinality r); encode (kd_domain
      r); encode (kd_kind r); encode (kd_state r); encode (kd_observed_at r); encode
      (kd_last_confirmed_at r); encode (kd_valid_from r); encode (kd_valid_until r); encode
      (kd_expected_staleness_days r); encode (kd_sensitivity r); encode (kd_importance r);
      encode (kd_related_entity_ids r); encode (kd_related_goal_ids r); encode
      (kd_related_project_ids r); encode (kd_evidence_ids r); encode (kd_conflicts_with r);
      encode (kd_planning_allowed r); encode (kd_source_evidence r); encode
      (kd_superseded_by r); encode (kd_routine r); encode (kd_pending_confirmation r);
      encode (kd_project r); encode (kd_open_loop r)])
    (λ l, match l with
          | [x0; x1; x2; x3; x4; x5; x6; x7; x8; x9; x10; x11; x12; x13; x14; x15; x16; x17;
            x18; x19; x20; x21; x22; x23; x24] =>
              x0 ← decode x0; x1 ← decode x1; x2 ← decode x2; x3 ← decode x3; x4 ← decode x4; x5 ←
              decode x5; x6 ← decode x6; x7 ← decode x7; x8 ← decode x8; x9 ← decode x9;
              x10 ← decode x10; x11 ← decode x11; x12 ← decode x12; x13 ← decode x13;
              x14 ← decode x14; x15 ← decode x15; x16 ← decode x16; x17 ← decode x17;
              x18 ← decode x18; x19 ← decode x19; x20 ← decode x20; x21 ← decode x21;
              x22 ← decode x22; x23 ← decode x23; x24 ← decode x24; Some
              (Build_KnowledgeDetails x0 x1 x2 x3 x4 x5 x6 x7 x8 x9 x10 x11 x12 x13 x14
              x15 x16 x17 x18 x19 x20 x21 x22 x23 x24)
          | _ => None
          end) _).
  intros []. cbv beta iota. by rewrite !decode_encode.
Defined.

#[export] Instance InterviewProgress_eq_dec : EqDecision InterviewProgress.
Proof. solve_decision. Defined.
#[export] Instance InterviewProgress_countable : Countable InterviewProgress.
Proof.
  refine (inj_countable (λ r,
     [encode (ip_subject_id r); encode (ip_objective r); encode (ip_phase r); encode
      (ip_skipped_keys r); encode (ip_permitted_domains r); encode (ip_skipped_domains r);
      encode (ip_last_question_key r); encode (ip_pending_confirmation_key r); encode
      (ip_sweep_complete r)])
    (λ l, match l with
          | [x0; x1; x2; x3; x4; x5; x6; x7; x8] =>
              x0 ← decode x0; x1 ← decode x1; x2 ← decode x2; x3 ← decode x3; x4 ← decode x4; x5 ←
              decode x5; x6 ← decode x6; x7 ← decode x7; x8 ← decode x8; Some
              (Build_InterviewProgress x0 x1 x2 x3 x4 x5 x6 x7 x8)
          | _ => None
          end) _).
  intros []. cbv beta iota. by rewrite !decode_encode.
Defined.

#[export] Instance MemoryProvenance_eq_dec : EqDecision MemoryProvenance.
Proof. solve_decision. Defined.
#[export] Instance MemoryProvenance_countable : Countable MemoryProvenance.
Proof.
  refine (inj_countable (λ r,
     [encode (mp_source r); encode (mp_source_id r); encode (mp_captured_at r)])
    (λ l, match l with
          | [x0; x1; x2] =>
              x0 ← decode x0; x1 ← decode x1; x2 ← decode x2; Some (Build_MemoryProvenance x0 x1 x2)
          | _ => None
          end) _).
  intros []. cbv beta iota. by rewrite !decode_encode.
Defined.

#[export] Instance MemoryRecord_eq_dec : EqDecision MemoryRecord.
Proof. solve_decision. Defined.
#[export] Instance MemoryRecord_countable : Countable MemoryRecord.
Proof.
  refine (inj_countable (λ r,
     [encode (mr_memory_id r); encode (mr_category r); encode (mr_content r); encode
      (mr_provenance r); encode (mr_confidence r); encode (mr_retrieval_scopes r); encode
      (mr_created_at r); encode (mr_retain_until r); encode (mr_revision r); encode
      (mr_knowledge r); encode (mr_interview r)])
    (λ l, match l with
          | [x0; x1; x2; x3; x4; x5; x6; x7; x8; x9; x10] =>
              x0 ← decode x0; x1 ← decode x1; x2 ← decode x2; x3 ← decode x3; x4 ← decode x4; x5 ←
              decode x5; x6 ← decode x6; x7 ← decode x7; x8 ← decode x8; x9 ← decode x9;
              x10 ← decode x10; Some (Build_MemoryRecord x0 x1 x2 x3 x4 x5 x6 x7 x8 x9
              x10)
          | _ => None
          end) _).
  intros []. cbv beta iota. by rewrite !decode_encode.
Defined.

Module TextCodec.
Section codec.
Context (zone_known : string → bool).
#[local] Instance codec : RecordCodec := {
  dump_record := encode_text;
  parse_record s := r ← decode_text s; if record_valid zone_known r then Some r else None;
}.
#[local] Instance laws : RecordCodecLaws zone_known.
Proof.
  split. intros r _. unfold parse_record, dump_record, codec. by rewrite decode_encode_text.
Qed.
End codec.
End TextCodec.
