(* ===== verification/MemorySpec.v ===== *)
(** * What governed memory guarantees ([memory_repository.py])

    The repository's tables hold an invariant that every operation keeps: the
    removed revisions of a memory are contiguous and end just below the live
    one.  From it: no lost updates, no reuse of a forgotten identity, atomic and
    audited changes, and backups that cannot bring erased content back. *)

From stdpp Require Import prelude base strings list gmap.
From Stdlib Require Import ZArith Lia QArith.
From S2P Require Import Prelude PyTime PyText PyUuid Transactions AuditLedger Knowledge Memory MemoryCodec.
#[local] Open Scope string_scope.
#[local] Open Scope list_scope.
#[local] Open Scope Z_scope.

Section spec.
Context (hmac : string → string → string) (audit_key : string) (zone_known : string → bool).
Context `{RecordCodec} `{!RecordCodecLaws zone_known}.

Abbreviation remember := (remember hmac audit_key).
Abbreviation correct := (correct hmac audit_key).
Abbreviation delete_record := (delete_record hmac audit_key).
Abbreviation purge_memory := (purge_memory hmac audit_key).

(** ** The invariant *)

(** The row stored for [id] is the JSON of a valid record of that identity. *)
Definition row_ok (id : uuid) (row : memory_row) : Prop :=
  ∃ r, mr_memory_id r = id ∧ row = row_of_record r ∧ plain_record r = true
    ∧ record_valid zone_known r = true.

(** Revisions [lo .. hi - 1] were removed; a live revision is [hi]. *)
Definition history (db : memory_db) (id : uuid) (lo hi : Z) : Prop :=
  lo <= hi
  ∧ (∀ n, is_Some (md_tombstones db !! (id, n)) ↔ lo <= n < hi)
  ∧ (∀ row, md_memories db !! id = Some row → row_revision row = hi).

Record memory_ok (db : memory_db) : Prop := {
  mo_rows : ∀ id row, md_memories db !! id = Some row → row_ok id row;
  mo_history : ∀ id, ∃ lo hi, history db id lo hi;
  mo_keys : ∀ k t, md_tombstones db !! k = Some t → k = (ts_memory_id t, ts_revision t);
  mo_anchor : is_Some (db_anchor (md_audit db));
  mo_ledger : ∃ v, verify_ledger hmac audit_key (md_audit db) = Ok v;
}.

Definition memory_conn_ok (c : connection memory_db) : Prop :=
  memory_ok (live c) ∧ durable c = live c ∧ in_transaction c = false.

Lemma parse_row_of r :
  plain_record r = true → record_valid zone_known r = true → parse_row (row_of_record r) = Ok r.
Proof. intros Hp Hv. unfold parse_row. simpl. by rewrite parse_dump, Hv. Qed.

Lemma read_live db id row :
  memory_ok db → md_memories db !! id = Some row →
  ∃ r, read id db = Ok r ∧ mr_memory_id r = id ∧ row = row_of_record r
    ∧ plain_record r = true ∧ record_valid zone_known r = true.
Proof.
  intros Hdb Hrow. destruct (mo_rows db Hdb _ _ Hrow) as (r & Hid & -> & Hp & Hv).
  exists r. unfold read. rewrite Hrow, parse_row_of by done. done.
Qed.

Lemma read_ok_live db id r :
  memory_ok db → read id db = Ok r →
  md_memories db !! id = Some (row_of_record r) ∧ mr_memory_id r = id
  ∧ plain_record r = true ∧ record_valid zone_known r = true.
Proof.
  intros Hdb Hr. destruct (md_memories db !! id) as [row|] eqn:Hrow.
  - destruct (read_live db id row Hdb Hrow) as (r' & Hr' & Hid & -> & Hp & Hv).
    rewrite Hr in Hr'. injection Hr' as <-. done.
  - unfold read in Hr. by rewrite Hrow in Hr.
Qed.

(** Tombstones of an identity, as the query returns them. *)
Lemma tombstones_nil db id :
  memory_ok db → tombstones id db = [] ↔ ∀ n, md_tombstones db !! (id, n) = None.
Proof.
  intros Hdb. unfold tombstones. split.
  - intros Hnil n. apply eq_None_not_Some. intros [t Ht].
    pose proof (mo_keys db Hdb _ _ Ht) as [= Hid Hn].
    assert (t ∈ py_sorted (λ a b, ts_revision a <? ts_revision b)
      (List.filter (λ t, ts_memory_id t =? id) (map_to_list (md_tombstones db)).*2)) as Hin.
    { apply elem_of_py_sorted, list_elem_of_In, filter_In. split; [|by apply Z.eqb_eq].
      apply list_elem_of_In, list_elem_of_fmap. exists ((id, n), t). split; [done|].
      by apply elem_of_map_to_list. }
    rewrite Hnil in Hin. by apply elem_of_nil in Hin.
  - intros Hnone. destruct (List.filter _ _) as [|t l] eqn:Hf; [done|exfalso].
    assert (In t (t :: l)) as Hin by (by left). rewrite <- Hf in Hin.
    apply filter_In in Hin as [Hin Hid%Z.eqb_eq]. apply list_elem_of_In, list_elem_of_fmap in Hin as ([k t'] & -> & Hin).
    apply elem_of_map_to_list in Hin. simpl in Hid. pose proof (mo_keys db Hdb _ _ Hin) as ->.
    by rewrite Hid, Hnone in Hin.
Qed.

(** ** Steps of the operations *)

Ltac within_block :=
  repeat (intros; first [apply within_bind | apply within_query | apply within_execute
                        | apply within_ret | apply within_throw]).

Lemma remove_within r reason fp ctx : within (remove execute r reason fp ctx).
Proof. unfold remove. within_block. Qed.

(** A block that raises changes nothing. *)
Lemma block_raises {A} (m : comp (connection memory_db) MemoryError A) c c' e :
  within m → memory_conn_ok c → domain_transaction m c = (c', Err e) → c' = c.
Proof.
  intros Hm (_ & Hd & _) Hrun. pose proof (domain_transaction_atomic m c e Hm) as Hat.
  rewrite Hrun in Hat. apply Hat; [|done]. by intros _.
Qed.

(** The ledger after an append: one more entry, naming the record. *)
Lemma audit_append_inv r action fp ctx db db' :
  memory_ok db → audit_append hmac audit_key r action fp ctx db = Ok db' →
  ∃ e, db' = set_audit db (md_audit db')
    ∧ entries (md_audit db') = entries (md_audit db) ++ [e]
    ∧ ae_record_id e = uuid_str (mr_memory_id r) ∧ ae_action_class e = "memory." +:+ action
    ∧ is_Some (db_anchor (md_audit db'))
    ∧ ∃ v, verify_ledger hmac audit_key (md_audit db') = Ok v.
Proof.
  intros Hdb. destruct (mo_ledger db Hdb) as [v Hv].
  destruct (append_verified hmac audit_key (memory_mutation r action fp ctx) _ v Hv (mo_anchor db Hdb))
    as [Happ Hv']. unfold audit_append. rewrite Happ. intros [= <-].
  eexists. split_and!; try done; [apply (mo_anchor db Hdb)|by eexists].
Qed.

(** The audit tables are independent of the others. *)
Lemma memory_ok_set_audit db a :
  memory_ok db → is_Some (db_anchor a) → (∃ v, verify_ledger hmac audit_key a = Ok v) →
  memory_ok (set_audit db a).
Proof. intros [M1 M2 M3 M4 M5] Ha Hv. by split. Qed.

Lemma append_keeps_ok r action fp ctx db db' :
  memory_ok db → audit_append hmac audit_key r action fp ctx db = Ok db' →
  memory_ok db' ∧ md_memories db' = md_memories db ∧ md_tombstones db' = md_tombstones db
  ∧ md_manifests db' = md_manifests db ∧ md_backup_records db' = md_backup_records db
  ∧ md_memory_coverage db' = md_memory_coverage db
  ∧ ∃ e, entries (md_audit db') = entries (md_audit db) ++ [e]
      ∧ ae_record_id e = uuid_str (mr_memory_id r) ∧ ae_action_class e = "memory." +:+ action.
Proof.
  intros Hdb Happ. destruct (audit_append_inv _ _ _ _ _ _ Hdb Happ) as (e & Heq & He & Hid & Hc & Ha & Hv).
  split_and!; [rewrite Heq; by apply memory_ok_set_audit|rewrite Heq; done..|by exists e].
Qed.

Lemma append_succeeds r action fp ctx db :
  memory_ok db → ∃ db', audit_append hmac audit_key r action fp ctx db = Ok db'.
Proof.
  intros Hdb. destruct (mo_ledger db Hdb) as [v Hv]. unfold audit_append.
  destruct (append_verified hmac audit_key (memory_mutation r action fp ctx) _ v Hv (mo_anchor db Hdb))
    as [-> _]. by eexists.
Qed.

Lemma insert_ok db r lo :
  memory_ok db → plain_record r = true → record_valid zone_known r = true →
  md_memories db !! mr_memory_id r = None → history db (mr_memory_id r) lo (mr_revision r) →
  memory_ok (set_memories db (<[mr_memory_id r := row_of_record r]> (md_memories db))).
Proof.
  intros [M1 M2 M3 M4 M5] Hp Hv Hnone (H1 & H2 & H3). split; simpl; try done.
  - intros id row [[<- <-]|[_ Hrow]]%lookup_insert_Some; [by exists r|by apply M1].
  - intros id. destruct (decide (mr_memory_id r = id)) as [<-|Hne].
    + exists lo, (mr_revision r). split_and!; [done..|]. simpl. rewrite lookup_insert_eq.
      by intros row [= <-].
    + destruct (M2 id) as (lo' & hi' & G1 & G2 & G3). exists lo', hi'. split_and!; [done..|].
      simpl. by rewrite lookup_insert_ne.
Qed.

(** What [remove] leaves: backups voided, the row gone, a tombstone in its place. *)
Definition removed (db : memory_db) (r : MemoryRecord) (t : MemoryTombstone) : memory_db :=
  set_tombstones
    (set_memories
       (set_manifests db
          (map_imap (λ id b, Some (if backup_exposed r db id b then invalidated b else b))
             (md_manifests db)))
       (delete (mr_memory_id r) (md_memories db)))
    (<[(mr_memory_id r, mr_revision r) := t]> (md_tombstones db)).

Lemma remove_inv r reason fp ctx c c' u :
  remove execute r reason fp ctx c = (c', Ok u) →
  md_tombstones (live c) !! (mr_memory_id r, mr_revision r) = None
  ∧ c' = Connection (removed (live c) r (tombstone_of r reason fp ctx)) (durable c) (in_transaction c).
Proof.
  intros (? & c1 & (db1 & [= <-] & ->)%execute_inv & (? & c2 & (db2 & [= <-] & ->)%execute_inv
    & (db3 & Hins & ->)%execute_inv)%bind_inv)%bind_inv.
  simpl in *. unfold insert_tombstone in Hins. simpl in Hins.
  destruct (md_tombstones (live c) !! _) eqn:E; [done|]. injection Hins as <-. done.
Qed.

Lemma removed_ok db r t :
  memory_ok db → md_memories db !! mr_memory_id r = Some (row_of_record r) →
  ts_memory_id t = mr_memory_id r → ts_revision t = mr_revision r →
  memory_ok (removed db r t) ∧ ∃ lo, history (removed db r t) (mr_memory_id r) lo (mr_revision r + 1).
Proof.
  intros [M1 M2 M3 M4 M5] Hrow Hti Htr.
  assert (∃ lo, history (removed db r t) (mr_memory_id r) lo (mr_revision r + 1)) as Hh.
  { destruct (M2 (mr_memory_id r)) as (lo & hi & G1 & G2 & G3). exists lo.
    specialize (G3 _ Hrow). simpl in G3. subst hi. split_and!; [lia| |].
    - intros n. simpl. destruct (decide (n = mr_revision r)) as [->|Hne].
      + rewrite lookup_insert_eq. split; [lia|by eexists].
      + rewrite lookup_insert_ne by congruence. rewrite G2. lia.
    - simpl. rewrite lookup_delete_eq. done. }
  split; [|done]. split; simpl; try done.
  - intros id row [_ Hr]%lookup_delete_Some. by apply M1.
  - intros id. destruct (decide (mr_memory_id r = id)) as [<-|Hne].
    + destruct Hh as [lo Hh]. by eexists _, _.
    + destruct (M2 id) as (lo & hi & G1 & G2 & G3). exists lo, hi. split_and!; [done| |].
      * intros n. simpl. rewrite lookup_insert_ne by congruence. done.
      * simpl. by rewrite lookup_delete_ne.
  - intros k t' [[<- <-]|[_ Ht]]%lookup_insert_Some; [by rewrite Hti, Htr|by apply M3].
Qed.

(** The live revision's own number has no tombstone yet. *)
Lemma live_no_tombstone db r :
  memory_ok db → md_memories db !! mr_memory_id r = Some (row_of_record r) →
  md_tombstones db !! (mr_memory_id r, mr_revision r) = None.
Proof.
  intros Hdb Hrow. destruct (mo_history db Hdb (mr_memory_id r)) as (lo & hi & G1 & G2 & G3).
  specialize (G3 _ Hrow). simpl in G3. apply eq_None_not_Some. rewrite G2. lia.
Qed.

(** ** The operations *)

(** One audit entry more, for that memory and action. *)
Definition audited (db db' : memory_db) (id : uuid) (action : string) : Prop :=
  ∃ e, entries (md_audit db') = entries (md_audit db) ++ [e]
    ∧ ae_record_id e = uuid_str id ∧ ae_action_class e = "memory." +:+ action.

Lemma audit_verify_inv c c' u : audit_verify hmac audit_key c = (c', Ok u) → c' = c.
Proof. by intros [-> _]%query_inv. Qed.

Lemma remember_spec r ctx c c' res :
  memory_conn_ok c → plain_record r = true → remember r ctx c = (c', res) →
  match res with
  | Err _ => c' = c
  | Ok _ =>
      memory_conn_ok c' ∧ record_valid zone_known r = true
      ∧ md_memories (live c) !! mr_memory_id r = None
      ∧ (∀ n, md_tombstones (live c) !! (mr_memory_id r, n) = None)
      ∧ md_memories (live c') = <[mr_memory_id r := row_of_record r]> (md_memories (live c))
      ∧ md_tombstones (live c') = md_tombstones (live c)
      ∧ md_manifests (live c') = md_manifests (live c)
      ∧ audited (live c) (live c') (mr_memory_id r) "created"
  end.
Proof.
  intros Hc Hp. unfold Memory.remember. rewrite parse_dump by done.
  destruct (record_valid zone_known r) eqn:Hv; [|by intros [= <- <-]].
  destruct res as [u|e].
  2:{ intros Hrun. eapply block_raises; [|done|done]. unfold audit_verify. within_block. }
  destruct Hc as (Hdb & Hd & Hin). intros (c1 & Hrun & ->)%domain_transaction_inv; [|done].
  apply bind_inv in Hrun as (? & c2 & ->%audit_verify_inv & Hrun).
  apply bind_inv in Hrun as (? & c3 & [-> Ht]%query_inv & Hrun).
  apply bind_inv in Hrun as (? & c4 & (db1 & Hins & ->)%execute_inv & (db2 & Happ & ->)%execute_inv).
  simpl in *. apply raise_if_ok in Ht. bool_to_prop.
  pose proof (proj1 (tombstones_nil _ _ Hdb) Ht) as Hnone.
  unfold insert_memory in Hins. destruct (md_memories (live c) !! mr_memory_id r) eqn:Hrow; [done|].
  injection Hins as <-.
  assert (memory_ok (set_memories (live c) (<[mr_memory_id r := row_of_record r]> (md_memories (live c))))) as Hok.
  { eapply (insert_ok _ _ (mr_revision r)); [done..|]. split_and!; [lia| |by rewrite Hrow].
    intros n. rewrite Hnone. split; [by intros []|lia]. }
  destruct (append_keeps_ok _ _ _ _ _ _ Hok Happ) as (Hok2 & Hm & Hs & Hman & _ & _ & He).
  split_and!; [by split_and!|done|done|done|done|done|done|done].
Qed.

(** A correction that was validated as a whole, with times of fixed offsets. *)
Definition plain_correction (m : MemoryCorrection) : bool :=
  plain_time (mp_captured_at (mc_provenance m)) && plain_opt (mc_retain_until m)
  && match mc_knowledge m with None => true | Some k => plain_details k end
  && is_ok (validate_correction zone_known m).

Lemma replacement_valid id current m u :
  validate_instance (replacement_of id current m) = Ok u → plain_correction m = true →
  record_valid zone_known (replacement_of id current m) = true.
Proof.
  intros Hi Hm. unfold plain_correction in Hm. apply andb_true_iff in Hm as [_ Hm].
  unfold record_valid, validate_record, validate_correction in *. simpl in *.
  destruct (validate_nested _ _ _ _); [|done]. simpl. by rewrite Hi.
Qed.

Lemma plain_replacement id current m :
  plain_record current = true → plain_correction m = true →
  plain_record (replacement_of id current m) = true.
Proof.
  unfold plain_record, plain_correction. simpl. intros Hc Hm. bool_to_prop.
  repeat (apply andb_true_iff; split); done.
Qed.

Lemma correct_spec id m ctx c c' res :
  memory_conn_ok c → plain_correction m = true → correct id m ctx c = (c', res) →
  match res with
  | Err _ => c' = c
  | Ok r' =>
      ∃ r, read id (live c) = Ok r ∧ mr_revision r = mc_expected_revision m
      ∧ r' = replacement_of id r m ∧ record_valid zone_known r' = true
      ∧ (has (mr_knowledge r) = true → has (mc_knowledge m) = true)
      ∧ memory_conn_ok c' ∧ read id (live c') = Ok r'
      ∧ md_memories (live c') = <[id := row_of_record r']> (md_memories (live c))
      ∧ md_tombstones (live c')
        = <[(id, mr_revision r) := tombstone_of r MemoryRemovalReason.USER_CORRECTION
                                     (fingerprint hmac audit_key r) ctx]> (md_tombstones (live c))
      ∧ md_manifests (live c')
        = map_imap (λ b row, Some (if backup_exposed r (live c) b row then invalidated row else row))
            (md_manifests (live c))
      ∧ audited (live c) (live c') id "corrected"
  end.
Proof.
  intros Hc Hp. destruct res as [r'|e].
  2:{ intros Hrun. eapply block_raises; [|done|done]. unfold audit_verify, remove. within_block. }
  destruct Hc as (Hdb & Hd & Hin). intros (c1 & Hrun & ->)%domain_transaction_inv; [|done].
  apply bind_inv in Hrun as (? & c2 & ->%audit_verify_inv & Hrun).
  apply bind_inv in Hrun as (r & c3 & [-> Hread]%query_inv & Hrun).
  apply bind_inv in Hrun as (? & c4 & [-> Hrev]%query_inv & Hrun).
  apply bind_inv in Hrun as (? & c5 & [-> Hkn]%query_inv & Hrun).
  apply bind_inv in Hrun as (rep & c6 & [-> Hb]%query_inv & Hrun).
  apply bind_inv in Hrun as (? & c7 & [Hnt ->]%remove_inv & Hrun).
  apply bind_inv in Hrun as (? & c8 & (db1 & Hins & ->)%execute_inv & Hrun).
  apply bind_inv in Hrun as (? & c9 & (db2 & Happ & ->)%execute_inv & Hrun).
  injection Hrun as <- <-. simpl in *.
  destruct (read_ok_live _ _ _ Hdb Hread) as (Hrow & Hid & Hpr & Hvr).
  apply raise_if_ok in Hrev, Hkn. bool_to_prop. unfold built in Hb.
  destruct (validate_instance (replacement_of id r m)) as [[]|] eqn:Hval; [|done].
  injection Hb as <-.
  assert (record_valid zone_known (replacement_of id r m) = true) as Hvalid
    by (by eapply replacement_valid).
  destruct (removed_ok (live c) r (tombstone_of r MemoryRemovalReason.USER_CORRECTION
              (fingerprint hmac audit_key r) ctx) Hdb) as (Hok1 & lo & Hh); [by rewrite Hid|done..|].
  rewrite Hid in Hh. unfold insert_memory in Hins. simpl in Hins.
  rewrite Hid, lookup_delete_eq in Hins. injection Hins as <-.
  assert (memory_ok (set_memories (removed (live c) r (tombstone_of r
     MemoryRemovalReason.USER_CORRECTION (fingerprint hmac audit_key r) ctx))
     (<[id := row_of_record (replacement_of id r m)]> (delete id (md_memories (live c)))))) as Hok2.
  { pose proof (insert_ok _ (replacement_of id r m) lo Hok1 (plain_replacement id r m Hpr Hp) Hvalid) as Hi.
    simpl in Hi. rewrite Hid in Hi. apply Hi; [by rewrite lookup_delete_eq|done]. }
  destruct (append_keeps_ok _ _ _ _ _ _ Hok2 Happ) as (Hok3 & Hm & Hs & Hman & _ & _ & e & He1 & He2 & He3).
  simpl in Hm, Hs, Hman, He1. rewrite insert_delete_eq in Hm. rewrite Hid in Hs.
  exists r. split_and!; try done.
  - intros Hk. destruct (has (mc_knowledge m)); [done|]. by rewrite Hk in Hkn.
  - unfold read. rewrite Hm, lookup_insert_eq. by apply parse_row_of; [apply plain_replacement|].
  - exists e. split_and!; [done| |done]. by rewrite He2, Hid.
Qed.

Lemma delete_spec id rev ctx c c' res :
  memory_conn_ok c → delete_record id rev ctx c = (c', res) →
  match res with
  | Err _ => c' = c
  | Ok _ =>
      ∃ r, read id (live c) = Ok r ∧ mr_revision r = rev
      ∧ memory_conn_ok c'
      ∧ md_memories (live c') = delete id (md_memories (live c))
      ∧ md_tombstones (live c')
        = <[(id, mr_revision r) := tombstone_of r MemoryRemovalReason.USER_DELETION
                                     (fingerprint hmac audit_key r) ctx]> (md_tombstones (live c))
      ∧ md_manifests (live c')
        = map_imap (λ b row, Some (if backup_exposed r (live c) b row then invalidated row else row))
            (md_manifests (live c))
      ∧ audited (live c) (live c') id "deleted"
  end.
Proof.
  intros Hc. destruct res as [u|e].
  2:{ intros Hrun. eapply block_raises; [|done|done]. unfold audit_verify, remove. within_block. }
  destruct Hc as (Hdb & Hd & Hin). intros (c1 & Hrun & ->)%domain_transaction_inv; [|done].
  apply bind_inv in Hrun as (? & c2 & ->%audit_verify_inv & Hrun).
  apply bind_inv in Hrun as (r & c3 & [-> Hread]%query_inv & Hrun).
  apply bind_inv in Hrun as (? & c4 & [-> Hrev]%query_inv & Hrun).
  apply bind_inv in Hrun as (? & c7 & [Hnt ->]%remove_inv & (db2 & Happ & ->)%execute_inv).
  simpl in *. destruct (read_ok_live _ _ _ Hdb Hread) as (Hrow & Hid & Hpr & Hvr).
  apply raise_if_ok in Hrev. bool_to_prop.
  destruct (removed_ok (live c) r (tombstone_of r MemoryRemovalReason.USER_DELETION
              (fingerprint hmac audit_key r) ctx) Hdb) as (Hok1 & lo & Hh); [by rewrite Hid|done..|].
  destruct (append_keeps_ok _ _ _ _ _ _ Hok1 Happ) as (Hok3 & Hm & Hs & Hman & _ & _ & e & He1 & He2 & He3).
  simpl in Hm, Hs, Hman, He1. rewrite Hid in *.
  exists r. split_and!; try done. by exists e.
Qed.

(** ** Retention *)

Definition gone (db : memory_db) (ids : list uuid) : gmap uuid memory_row :=
  foldl (λ m id, delete id m) (md_memories db) ids.

Lemma gone_lookup db ids id :
  gone db ids !! id = if bool_decide (id ∈ ids) then None else md_memories db !! id.
Proof.
  unfold gone. pose proof (foldl_delete_lookup (λ i : uuid, i) ids (md_memories db) id) as Hl.
  by rewrite map_id in Hl.
Qed.

Lemma purge_one_run ctx r c :
  memory_ok (live c) → md_memories (live c) !! mr_memory_id r = Some (row_of_record r) →
  ∃ db', purge_one hmac audit_key ctx r c = (Connection db' (durable c) true, Ok tt)
    ∧ memory_ok db' ∧ md_memories db' = delete (mr_memory_id r) (md_memories (live c))
    ∧ md_tombstones db'
      = <[(mr_memory_id r, mr_revision r) := tombstone_of r MemoryRemovalReason.RETENTION_EXPIRED
            (fingerprint hmac audit_key r) ctx]> (md_tombstones (live c))
    ∧ audited (live c) db' (mr_memory_id r) "retention_expired".
Proof.
  intros Hdb Hrow. set (t := tombstone_of r MemoryRemovalReason.RETENTION_EXPIRED
                               (fingerprint hmac audit_key r) ctx).
  destruct (removed_ok (live c) r t Hdb Hrow eq_refl eq_refl) as (Hok & _).
  destruct (append_succeeds r "retention_expired" (fingerprint hmac audit_key r) ctx _ Hok) as [db' Happ].
  destruct (append_keeps_ok _ _ _ _ _ _ Hok Happ) as (Hok' & Hm & Hs & _ & _ & _ & He).
  exists db'. split_and!; [|done|done|done|done].
  unfold purge_one, remove, mbind, comp_bind, execute_dml, execute. simpl.
  assert (live (if in_transaction c then c else begin_immediate c) = live c
    ∧ durable (if in_transaction c then c else begin_immediate c) = durable c
    ∧ in_transaction (if in_transaction c then c else begin_immediate c) = true) as (-> & -> & ->)
    by (by destruct (in_transaction c) eqn:E).
  simpl. unfold insert_tombstone. simpl. rewrite live_no_tombstone by done. simpl.
  match goal with |- context [audit_append _ _ _ _ _ _ ?db] => change db with (removed (live c) r t) end.
  by rewrite Happ.
Qed.

Lemma purge_loop_run ctx l c :
  memory_ok (live c) → NoDup (map mr_memory_id l) →
  (∀ r, r ∈ l → md_memories (live c) !! mr_memory_id r = Some (row_of_record r)) →
  ∃ c', for_each (purge_one hmac audit_key ctx) l c = (c', Ok tt)
    ∧ memory_ok (live c') ∧ durable c' = durable c
    ∧ md_memories (live c') = gone (live c) (map mr_memory_id l)
    ∧ length (entries (md_audit (live c'))) = (length (entries (md_audit (live c))) + length l)%nat
    ∧ (∀ r, r ∈ l → is_Some (md_tombstones (live c') !! (mr_memory_id r, mr_revision r)))
    ∧ md_tombstones (live c) ⊆ md_tombstones (live c').
Proof.
  revert c. induction l as [|r l IH]; intros c Hdb Hn Hl; simpl in *.
  { exists c. split_and!; try done; try (by rewrite Nat.add_0_r). by intros r ?%elem_of_nil. }
  apply NoDup_cons in Hn as [Hr Hn].
  destruct (purge_one_run ctx r c Hdb) as (db' & Hrun & Hok & Hm & Ht & e & He & _); [by apply Hl; left|].
  destruct (IH (Connection db' (durable c) true)) as (c' & Hrun' & Hok' & Hd & Hm' & Hlen & Hts & Hsub);
    [done|done| |].
  { intros r' Hr'. simpl. rewrite Hm, lookup_delete_ne; [by apply Hl; right|].
    intros Heq. apply Hr. rewrite Heq. apply list_elem_of_fmap. by exists r'. }
  assert (md_tombstones (live c) ⊆ md_tombstones db') as Hsub1.
  { rewrite Ht. apply insert_subseteq, live_no_tombstone; [done|]. by apply Hl; left. }
  exists c'. split_and!; [|done|done| | | |].
  - rewrite (bind_ok _ _ _ _ _ Hrun). done.
  - rewrite Hm'. unfold gone. simpl. by rewrite Hm.
  - rewrite Hlen. simpl. rewrite He, length_app. simpl. lia.
  - intros r' [->|Hr']%elem_of_cons; [|by apply Hts]. simpl in Hsub.
    eapply lookup_weaken_is_Some; [|exact Hsub]. rewrite Ht, lookup_insert_eq. by eexists.
  - by transitivity (md_tombstones db').
Qed.

(** The records a purge selects, and what it does with them. *)
Lemma parse_rows_ok db rows :
  memory_ok db → (∀ row, row ∈ rows → ∃ id, md_memories db !! id = Some row) →
  ∃ l, parse_rows rows = Ok l ∧ map row_of_record l = rows
    ∧ ∀ r, r ∈ l → md_memories db !! mr_memory_id r = Some (row_of_record r).
Proof.
  intros Hdb. induction rows as [|row rows IH]; intros Hrows; simpl.
  { exists []. split_and!; try done. by intros r ?%elem_of_nil. }
  destruct (Hrows row) as [id Hid]; [by left|].
  destruct (mo_rows db Hdb _ _ Hid) as (r & Hr & -> & Hp & Hv).
  rewrite parse_row_of by done. destruct IH as (l & Hl & Hm & Hlive); [by intros; apply Hrows; right|].
  rewrite Hl. exists (r :: l). split_and!; [done|simpl; by rewrite Hm|].
  intros r' [->|Hr']%elem_of_cons; [by rewrite Hr|by apply Hlive].
Qed.

Definition expired_rows (now : datetime) (db : memory_db) : list memory_row :=
  List.filter (row_expired now) (map_to_list (md_memories db)).*2.

Lemma row_of_record_id r r' :
  plain_record r = true → record_valid zone_known r = true →
  plain_record r' = true → record_valid zone_known r' = true →
  row_of_record r = row_of_record r' → r = r'.
Proof.
  intros Hp Hv Hp' Hv' Heq. apply (f_equal parse_row) in Heq.
  rewrite !parse_row_of in Heq by done. by injection Heq.
Qed.

(** Different rows belong to different identities. *)
Lemma live_rows_ids db l :
  memory_ok db → NoDup (map row_of_record l) →
  (∀ r, r ∈ l → md_memories db !! mr_memory_id r = Some (row_of_record r)) →
  NoDup (map mr_memory_id l).
Proof.
  intros Hdb. induction l as [|r l IH]; simpl; [constructor|]. intros [Hr Hn]%NoDup_cons Hl.
  apply NoDup_cons. split; [|apply IH; [done|]; intros; apply Hl; by right].
  intros (r' & Heq & Hr')%list_elem_of_fmap. apply Hr, list_elem_of_fmap. exists r'. split; [|done].
  pose proof (Hl r ltac:(by left)) as H1. pose proof (Hl r' ltac:(by right)) as H2.
  rewrite Heq in H1. congruence.
Qed.

Lemma rows_nodup db : memory_ok db → NoDup (map_to_list (md_memories db)).*2.
Proof.
  intros Hdb. apply NoDup_fmap_2_strong; [|apply NoDup_map_to_list].
  intros [i a] [j b] Ha Hb Heq. simpl in Heq. subst b.
  apply elem_of_map_to_list in Ha, Hb.
  destruct (mo_rows db Hdb _ _ Ha) as (r & <- & -> & Hp & Hv).
  destruct (mo_rows db Hdb _ _ Hb) as (r' & <- & Heq & Hp' & Hv').
  by rewrite (row_of_record_id r r' Hp Hv Hp' Hv' Heq).
Qed.

Lemma NoDup_list_filter {A} (f : A → bool) (l : list A) : NoDup l → NoDup (List.filter f l).
Proof. intros Hn. apply NoDup_ListNoDup, List.NoDup_filter. by apply NoDup_ListNoDup. Qed.

Lemma purge_spec now ctx c :
  memory_conn_ok c →
  ∃ l c', purge_memory now ctx c = (c', Ok (Z.of_nat (length l)))
    ∧ memory_conn_ok c' ∧ map row_of_record l = expired_rows now (live c)
    ∧ (∀ r, r ∈ l → md_memories (live c) !! mr_memory_id r = Some (row_of_record r))
    ∧ md_memories (live c') = gone (live c) (map mr_memory_id l)
    ∧ length (entries (md_audit (live c'))) = (length (entries (md_audit (live c))) + length l)%nat
    ∧ (∀ r, r ∈ l → is_Some (md_tombstones (live c') !! (mr_memory_id r, mr_revision r)))
    ∧ md_tombstones (live c) ⊆ md_tombstones (live c').
Proof.
  intros (Hdb & Hd & Hin).
  destruct (parse_rows_ok (live c) (expired_rows now (live c)) Hdb) as (l & Hl & Hrows & Hlive).
  { intros row Hrow. apply list_elem_of_In, filter_In in Hrow as [Hrow _].
    apply list_elem_of_In, list_elem_of_fmap in Hrow as ([id row'] & -> & Hrow).
    apply elem_of_map_to_list in Hrow. by exists id. }
  assert (NoDup (map mr_memory_id l)) as Hn.
  { apply (live_rows_ids (live c)); [done| |done]. rewrite Hrows.
    by apply NoDup_list_filter, rows_nodup. }
  destruct (purge_loop_run ctx l c Hdb Hn Hlive) as (c' & Hrun & Hok & Hdur & Hm & Hlen & Ht & Hsub).
  exists l, (commit c'). split_and!; try done.
  unfold Memory.purge_memory, audit_verify.
  destruct (mo_ledger _ Hdb) as [v Hv].
  erewrite bind_ok by (unfold query; by rewrite Hv).
  erewrite bind_ok by (unfold query; unfold expired_rows in Hl; by rewrite Hl).
  by rewrite (bind_ok _ _ _ _ _ Hrun).
Qed.

(** ** Histories of operations *)

Inductive memory_op :=
| OpRemember (r : MemoryRecord) (ctx : TransitionContext)
| OpCorrect (id : uuid) (m : MemoryCorrection) (ctx : TransitionContext)
| OpDelete (id : uuid) (revision : Z) (ctx : TransitionContext)
| OpPurge (now : datetime) (ctx : TransitionContext).

(** The times that enter carry fixed offsets, as the service's UTC clock yields. *)
Definition op_plain (op : memory_op) : bool :=
  match op with
  | OpRemember r _ => plain_record r
  | OpCorrect _ m _ => plain_correction m
  | _ => true
  end.

Definition settle {A : Type} (r : connection memory_db * result MemoryError A) :
    connection memory_db * option MemoryError :=
  (r.1, match r.2 with Ok _ => None | Err e => Some e end).

Definition memory_do (op : memory_op) (c : connection memory_db) :
    connection memory_db * option MemoryError :=
  match op with
  | OpRemember r ctx => settle (remember r ctx c)
  | OpCorrect id m ctx => settle (correct id m ctx c)
  | OpDelete id rev ctx => settle (delete_record id rev ctx c)
  | OpPurge now ctx => settle (purge_memory now ctx c)
  end.

Definition memory_run (ops : list memory_op) (c : connection memory_db) : connection memory_db :=
  foldl (λ c op, (memory_do op c).1) c ops.

(** A store with no memories yet, whatever backups it has. *)
Definition memory_fresh (c : connection memory_db) : Prop :=
  md_memories (live c) = ∅ ∧ md_tombstones (live c) = ∅ ∧ md_audit (live c) = empty_ledger
  ∧ durable c = live c ∧ in_transaction c = false.

Lemma memory_fresh_ok c : memory_fresh c → memory_conn_ok c.
Proof.
  intros (Hm & Ht & Ha & Hd & Hin). split_and!; [|done|done].
  split; rewrite ?Hm, ?Ht, ?Ha; try done; try (by eexists).
  intros id. exists 1, 1. split_and!; [done| |by rewrite Hm].
  intros n. rewrite Ht, lookup_empty. split; [by intros []|lia].
Qed.

(** What one operation does to the invariant, the tombstones and the ledger. *)
Lemma memory_do_spec op c :
  memory_conn_ok c → op_plain op = true →
  match (memory_do op c).2 with
  | Some _ => (memory_do op c).1 = c
  | None =>
      memory_conn_ok (memory_do op c).1
      ∧ md_tombstones (live c) ⊆ md_tombstones (live (memory_do op c).1)
      ∧ (∀ id, md_memories (live c) !! id = None → is_Some (md_memories (live (memory_do op c).1) !! id) →
           ∀ n, md_tombstones (live c) !! (id, n) = None)
  end.
Proof.
  intros Hc Hp. destruct op as [r ctx|id m ctx|id rev ctx|now ctx]; simpl in *.
  - destruct (remember r ctx c) as [c' res] eqn:Hr. pose proof (remember_spec _ _ _ _ _ Hc Hp Hr) as Hs.
    destruct res; [|done]. destruct Hs as (Hok & _ & _ & Hnt & Hm & Ht & _). simpl.
    split_and!; [done|by rewrite Ht|]. intros i Hi. rewrite Hm.
    destruct (decide (mr_memory_id r = i)) as [<-|Hne]; [done|].
    rewrite lookup_insert_ne, Hi by done. by intros [].
  - destruct (correct id m ctx c) as [c' res] eqn:Hr. pose proof (correct_spec _ _ _ _ _ _ Hc Hp Hr) as Hs.
    destruct res as [r'|]; [|done]. destruct Hs as (r & Hread & _ & _ & _ & _ & Hok & _ & Hm & Ht & _). simpl.
    destruct Hc as [Hdb _]. destruct (read_ok_live _ _ _ Hdb Hread) as (Hrow & <- & _).
    split_and!; [done|rewrite Ht; by apply insert_subseteq, live_no_tombstone|].
    intros i Hi. rewrite Hm, lookup_insert_ne, Hi by congruence. by intros [].
  - destruct (delete_record id rev ctx c) as [c' res] eqn:Hr. pose proof (delete_spec _ _ _ _ _ _ Hc Hr) as Hs.
    destruct res as [r'|]; [|done]. destruct Hs as (r & Hread & _ & Hok & Hm & Ht & _). simpl.
    destruct Hc as [Hdb _]. destruct (read_ok_live _ _ _ Hdb Hread) as (Hrow & <- & _).
    split_and!; [done|rewrite Ht; by apply insert_subseteq, live_no_tombstone|].
    intros i Hi. rewrite Hm. intros [row [_ Hrow']%lookup_delete_Some]. congruence.
  - destruct (purge_spec now ctx c Hc) as (l & c' & -> & Hok & _ & _ & Hm & _ & _ & Hsub). simpl.
    split_and!; [done|done|]. intros i Hi. rewrite Hm, gone_lookup.
    case_bool_decide; [by intros []|]. rewrite Hi. by intros [].
Qed.

Lemma memory_run_spec ops c :
  memory_conn_ok c → forallb op_plain ops = true →
  memory_conn_ok (memory_run ops c)
  ∧ md_tombstones (live c) ⊆ md_tombstones (live (memory_run ops c))
  ∧ ∀ id n, md_memories (live c) !! id = None → is_Some (md_tombstones (live c) !! (id, n)) →
      md_memories (live (memory_run ops c)) !! id = None.
Proof.
  revert c. induction ops as [|op ops IH]; intros c Hc Hp; [done|]. simpl in Hp.
  apply andb_true_iff in Hp as [Hop Hp]. pose proof (memory_do_spec op c Hc Hop) as Hs.
  change (memory_run (op :: ops) c) with (memory_run ops (memory_do op c).1).
  destruct ((memory_do op c).2) as [e|]; [rewrite Hs; by apply IH|].
  destruct Hs as (Hc' & Hsub & Hnew). destruct (IH _ Hc' Hp) as (K1 & K2 & K3).
  split_and!; [done|by transitivity (md_tombstones (live (memory_do op c).1))|].
  intros id n Hi Ht. eapply K3; [|by eapply lookup_weaken_is_Some].
  apply eq_None_not_Some. intros Hlive. specialize (Hnew id Hi Hlive n). rewrite Hnew in Ht. by destruct Ht.
Qed.

(** ** Guarantees *)

(** Every revision of a memory is accounted for: after any operations, the
    tombstones of an identity cover a contiguous range of revisions, and a live
    revision is the one that follows them. *)
Theorem memory_revisions_contiguous c ops id :
  memory_fresh c → forallb op_plain ops = true →
  ∃ lo hi, lo <= hi
    ∧ (∀ n, is_Some (md_tombstones (live (memory_run ops c)) !! (id, n)) ↔ lo <= n < hi)
    ∧ (∀ r, read id (live (memory_run ops c)) = Ok r → mr_revision r = hi ∧ mr_memory_id r = id).
Proof.
  intros Hc%memory_fresh_ok Hp. destruct (memory_run_spec ops c Hc Hp) as ((Hdb & _) & _).
  destruct (mo_history _ Hdb id) as (lo & hi & H1 & H2 & H3). exists lo, hi.
  split_and!; [done..|]. intros r Hr. destruct (read_ok_live _ _ _ Hdb Hr) as (Hrow & Hid & _).
  split; [|done]. by specialize (H3 _ Hrow).
Qed.

(** C22. Changes are atomic and audited: on a store that was fresh and has been used
    only through the memory operations, with validated corrections and times of fixed
    offset, the next such operation either raises and leaves every table and the disk
    as they were, or commits and leaves a ledger that verifies with the entry of the
    change; a purge of such a store never raises, and it records exactly one entry per
    removed memory. *)
Theorem memory_changes_atomic c ops op :
  memory_fresh c → forallb op_plain ops = true → op_plain op = true →
  let before := memory_run ops c in
  let after := (memory_do op before).1 in
  match (memory_do op before).2 with
  | Some _ => after = before ∧ (∀ now ctx, op ≠ OpPurge now ctx)
  | None =>
      durable after = live after ∧ in_transaction after = false
      ∧ (∃ v, verify_ledger hmac audit_key (md_audit (live after)) = Ok v)
      ∧ match op with
        | OpRemember r _ => audited (live before) (live after) (mr_memory_id r) "created"
        | OpCorrect id _ _ => audited (live before) (live after) id "corrected"
        | OpDelete id _ _ => audited (live before) (live after) id "deleted"
        | OpPurge now _ =>
            length (entries (md_audit (live after)))
            = (length (entries (md_audit (live before)))
               + length (expired_rows now (live before)))%nat
        end
  end.
Proof.
  intros Hf Hops Hop before after.
  destruct (memory_run_spec ops c (memory_fresh_ok c Hf) Hops) as (Hc & _). fold before in Hc.
  pose proof (memory_do_spec op before Hc Hop) as Hs. subst after.
  destruct op as [r ctx|id m ctx|id rev ctx|now ctx]; simpl in *.
  - destruct (remember r ctx before) as [c' res] eqn:Hr.
    pose proof (remember_spec _ _ _ _ _ Hc Hop Hr) as Hspec. destruct res; simpl in *; [|done].
    destruct Hs as ((Hdb & Hd & Hin) & _). split_and!; [done..|apply (mo_ledger _ Hdb)|apply Hspec].
  - destruct (correct id m ctx before) as [c' res] eqn:Hr.
    pose proof (correct_spec _ _ _ _ _ _ Hc Hop Hr) as Hspec. destruct res; simpl in *; [|done].
    destruct Hs as ((Hdb & Hd & Hin) & _). destruct Hspec as (r & Hspec).
    split_and!; [done..|apply (mo_ledger _ Hdb)|apply Hspec].
  - destruct (delete_record id rev ctx before) as [c' res] eqn:Hr.
    pose proof (delete_spec _ _ _ _ _ _ Hc Hr) as Hspec. destruct res; simpl in *; [|done].
    destruct Hs as ((Hdb & Hd & Hin) & _). destruct Hspec as (r & Hspec).
    split_and!; [done..|apply (mo_ledger _ Hdb)|apply Hspec].
  - destruct (purge_spec now ctx before Hc) as (l & c' & Hr & (Hdb & Hd & Hin) & Hrows & _ & _ & Hlen & _).
    rewrite Hr in *. simpl in *. split_and!; [done..|apply (mo_ledger _ Hdb)|].
    by rewrite Hlen, <- Hrows, length_map.
Qed.

(** A correction whose revision is out of date raises. *)
Lemma stale_refused c id m ctx n :
  memory_conn_ok c → plain_correction m = true → is_Some (md_tombstones (live c) !! (id, n)) →
  mc_expected_revision m <= n → ∃ e, correct id m ctx c = (c, Err e).
Proof.
  intros Hc Hp Ht Hle. destruct (correct id m ctx c) as [c' [r'|e]] eqn:Hr.
  - destruct (correct_spec _ _ _ _ _ _ Hc Hp Hr) as (r & Hread & Hrev & _).
    destruct Hc as [Hdb _]. destruct (read_ok_live _ _ _ Hdb Hread) as (Hrow & Hid & _).
    destruct (mo_history _ Hdb id) as (lo & hi & _ & H2 & H3). specialize (H3 _ Hrow). simpl in H3.
    apply H2 in Ht. lia.
  - pose proof (correct_spec _ _ _ _ _ _ Hc Hp Hr) as ->. by exists e.
Qed.

Lemma stale_delete_refused c id rev ctx n :
  memory_conn_ok c → is_Some (md_tombstones (live c) !! (id, n)) → rev <= n →
  ∃ e, delete_record id rev ctx c = (c, Err e).
Proof.
  intros Hc Ht Hle. destruct (delete_record id rev ctx c) as [c' [u|e]] eqn:Hr.
  - destruct (delete_spec _ _ _ _ _ _ Hc Hr) as (r & Hread & Hrev & _).
    destruct Hc as [Hdb _]. destruct (read_ok_live _ _ _ Hdb Hread) as (Hrow & Hid & _).
    destruct (mo_history _ Hdb id) as (lo & hi & _ & H2 & H3). specialize (H3 _ Hrow). simpl in H3.
    apply H2 in Ht. lia.
  - pose proof (delete_spec _ _ _ _ _ _ Hc Hr) as ->. by exists e.
Qed.

(** C23. No update is lost: once a correction against some revision has succeeded,
    then after any further operations every other correction or deletion
    against that revision or an older one is refused and changes nothing. *)
Theorem no_lost_updates c ops1 ops2 id m ctx c1 r :
  memory_fresh c → forallb op_plain (ops1 ++ ops2) = true → plain_correction m = true →
  correct id m ctx (memory_run ops1 c) = (c1, Ok r) →
  let c2 := memory_run ops2 c1 in
  ∀ m' ctx' rev,
    (plain_correction m' = true → mc_expected_revision m' <= mc_expected_revision m →
     ∃ e, correct id m' ctx' c2 = (c2, Err e))
    ∧ (rev <= mc_expected_revision m → ∃ e, delete_record id rev ctx' c2 = (c2, Err e)).
Proof.
  intros Hf Hops Hp Hr c2 m' ctx' rev. rewrite forallb_app in Hops.
  apply andb_true_iff in Hops as [Hp1 Hp2].
  destruct (memory_run_spec ops1 c (memory_fresh_ok c Hf) Hp1) as (Hc & _).
  destruct (correct_spec _ _ _ _ _ _ Hc Hp Hr) as (r0 & _ & Hrev & _ & _ & _ & Hc1 & _ & _ & Ht & _).
  destruct (memory_run_spec ops2 c1 Hc1 Hp2) as (Hc2 & Hsub & _).
  assert (is_Some (md_tombstones (live c2) !! (id, mc_expected_revision m))) as Hstone.
  { eapply lookup_weaken_is_Some; [|exact Hsub]. rewrite Ht, <- Hrev, lookup_insert_eq. by eexists. }
  split; [by intros; eapply stale_refused|by intros; eapply stale_delete_refused].
Qed.

(** C24. What is forgotten stays forgotten: once a memory was deleted, then after
    any further operations it cannot be read, corrected or remembered again
    under its identity. *)
Theorem forgotten_stays_forgotten c ops1 ops2 id rev ctx c1 :
  memory_fresh c → forallb op_plain (ops1 ++ ops2) = true →
  delete_record id rev ctx (memory_run ops1 c) = (c1, Ok tt) →
  let c2 := memory_run ops2 c1 in
  read id (live c2) = Err (MemoryNotFoundError id)
  ∧ (∀ r ctx', plain_record r = true → mr_memory_id r = id → ∃ e, remember r ctx' c2 = (c2, Err e))
  ∧ (∀ m ctx', plain_correction m = true → ∃ e, correct id m ctx' c2 = (c2, Err e)).
Proof.
  intros Hf Hops Hr c2. rewrite forallb_app in Hops. apply andb_true_iff in Hops as [Hp1 Hp2].
  destruct (memory_run_spec ops1 c (memory_fresh_ok c Hf) Hp1) as (Hc & _).
  destruct (delete_spec _ _ _ _ _ _ Hc Hr) as (r0 & _ & Hrev & Hc1 & Hm & Ht & _).
  destruct (memory_run_spec ops2 c1 Hc1 Hp2) as (Hc2 & Hsub & Hgone).
  assert (is_Some (md_tombstones (live c1) !! (id, mr_revision r0))) as Hstone
    by (rewrite Ht, lookup_insert_eq; by eexists).
  assert (md_memories (live c2) !! id = None) as Hnone
    by (eapply Hgone; [rewrite Hm; apply lookup_delete_eq|done]).
  assert (is_Some (md_tombstones (live c2) !! (id, mr_revision r0))) as Hstone2
    by (by eapply lookup_weaken_is_Some).
  assert (read id (live c2) = Err (MemoryNotFoundError id)) as Hread
    by (unfold read; by rewrite Hnone).
  split_and!; [done| |].
  - intros r ctx' Hp <-. destruct (remember r ctx' c2) as [c3 [u|e]] eqn:Hrem.
    + destruct (remember_spec _ _ _ _ _ Hc2 Hp Hrem) as (_ & _ & _ & Hnt & _).
      rewrite Hnt in Hstone2. by destruct Hstone2.
    + pose proof (remember_spec _ _ _ _ _ Hc2 Hp Hrem) as ->. by exists e.
  - intros m ctx' Hp. destruct (correct id m ctx' c2) as [c3 [u|e]] eqn:Hcor.
    + destruct (correct_spec _ _ _ _ _ _ Hc2 Hp Hcor) as (r & Hr2 & _).
      fold c2 in Hr2. rewrite Hread in Hr2. discriminate.
    + pose proof (correct_spec _ _ _ _ _ _ Hc2 Hp Hcor) as ->. by exists e.
Qed.

Lemma invalidated_not_exposed r db id b : backup_exposed r db id (invalidated b) = false.
Proof. done. Qed.

(** Erased content cannot come back from a backup: after a memory was deleted,
    every backup that is still active neither lists it nor could hold it
    unlisted, and each backup this voided has lost its key and nonce. *)
Theorem erased_backups_voided c ops id rev ctx c1 :
  memory_fresh c → forallb op_plain ops = true →
  delete_record id rev ctx (memory_run ops c) = (c1, Ok tt) →
  ∃ r, read id (live (memory_run ops c)) = Ok r
    ∧ ∀ b row, md_manifests (live c1) !! b = Some row →
        backup_exposed r (live (memory_run ops c)) b row = false
        ∧ (md_manifests (live (memory_run ops c)) !! b = Some row
           ∨ (bm_wrapped_data_key row = None ∧ bm_nonce row = None
              ∧ bm_status row = "invalidated")).
Proof.
  intros Hf Hops Hr. destruct (memory_run_spec ops c (memory_fresh_ok c Hf) Hops) as (Hc & _).
  destruct (delete_spec _ _ _ _ _ _ Hc Hr) as (r & Hread & _ & _ & _ & _ & Hman & _).
  exists r. split; [done|]. intros b row. rewrite Hman, map_lookup_imap.
  destruct (md_manifests (live (memory_run ops c)) !! b) as [old|] eqn:Hold; simpl; [|done].
  destruct (backup_exposed r _ b old) eqn:He; intros [= <-].
  - split; [apply invalidated_not_exposed|by right].
  - split; [done|by left].
Qed.
End spec.

(** * Governed memory at work

    Concrete records, a store with two backups, and runs of the repository on
    them: each guarantee of governed memory at an input where its hypotheses
    hold, and the retention purge on times with different offsets. *)

Module Diary.
Definition zones (key : string) : bool := true.
#[export] Instance codec : RecordCodec := TextCodec.codec zones.
#[export] Instance laws : RecordCodecLaws zones := TextCodec.laws zones.
Definition mac (key payload : string) : string := key.

Definition told (t : Z) : MemoryProvenance :=
  {| mp_source := MemorySource.USER_STATEMENT; mp_source_id := "chat"; mp_captured_at := utc_datetime t |}.
Definition note (id : uuid) (content : string) (until : option datetime) : MemoryRecord :=
  {| mr_memory_id := id; mr_category := MemoryCategory.PROFILE; mr_content := content;
     mr_provenance := told 0; mr_confidence := 1; mr_retrieval_scopes := {[ RetrievalScope.PRIVATE ]};
     mr_created_at := utc_datetime 0; mr_retain_until := until; mr_revision := 1;
     mr_knowledge := None; mr_interview := None |}.
Definition edit (revision : Z) (content : string) : MemoryCorrection :=
  {| mc_expected_revision := revision; mc_content := content; mc_provenance := told 5;
     mc_confidence := 1; mc_retrieval_scopes := {[ RetrievalScope.PRIVATE ]};
     mc_retain_until := None; mc_knowledge := None; mc_interview := None |}.
Definition ctx : TransitionContext :=
  {| tc_actor := "owner"; tc_correlation_id := "c"; tc_occurred_at := utc_datetime 9 |}.
Definition manifest (created : Z) : manifest_row :=
  {| bm_path := "b"; bm_created_at := isoformat (utc_datetime created); bm_expires_at := "";
     bm_wrapped_data_key := Some "k"; bm_nonce := Some "n"; bm_status := "active" |}.

(** Backup [b1] lists memory 7; [b2] is older than every memory. *)
Definition store : memory_db :=
  {| md_memories := ∅; md_tombstones := ∅;
     md_manifests := {[ "b1" := manifest 0; "b2" := manifest (-minute) ]};
     md_backup_records := {[ ("b1", "normalized_fact", uuid_str 7) ]};
     md_memory_coverage := {[ "b1" ]}; md_audit := empty_ledger |}.
Definition conn : connection memory_db := {| live := store; durable := store; in_transaction := false |}.
Lemma conn_fresh : memory_fresh conn.
Proof. by split_and!. Qed.

Definition first_ops : list memory_op :=
  [OpRemember (note 7 "tea" None) ctx; OpRemember (note 8 "run" (Some (utc_datetime 4))) ctx].
Definition later_ops : list memory_op := [OpPurge (utc_datetime 5) ctx; OpCorrect 7 (edit 1 "mate") ctx].
Abbreviation run := (memory_run mac "k").
End Diary.
#[local] Existing Instances Diary.codec Diary.laws.

Lemma memory_revisions_contiguous_witness :
  ∃ lo hi, lo <= hi
    ∧ (∀ n, is_Some (md_tombstones (live (Diary.run (Diary.first_ops ++ Diary.later_ops) Diary.conn))
                      !! (7, n)) ↔ lo <= n < hi).
Proof.
  destruct (memory_revisions_contiguous Diary.mac "k" Diary.zones Diary.conn
              (Diary.first_ops ++ Diary.later_ops) 7 Diary.conn_fresh) as (lo & hi & H1 & H2 & _).
  - vm_compute. reflexivity.
  - by exists lo, hi.
Defined.

Lemma memory_changes_atomic_witness :
  (memory_do Diary.mac "k" (OpCorrect 7 (Diary.edit 1 "mate") Diary.ctx)
     (Diary.run Diary.first_ops Diary.conn)).2 = None
  ∧ audited (live (Diary.run Diary.first_ops Diary.conn))
      (live (memory_do Diary.mac "k" (OpCorrect 7 (Diary.edit 1 "mate") Diary.ctx)
               (Diary.run Diary.first_ops Diary.conn)).1) 7 "corrected".
Proof.
  assert ((memory_do Diary.mac "k" (OpCorrect 7 (Diary.edit 1 "mate") Diary.ctx)
     (Diary.run Diary.first_ops Diary.conn)).2 = None) as Hok by (vm_compute; reflexivity).
  split; [exact Hok|].
  pose proof (memory_changes_atomic Diary.mac "k" Diary.zones Diary.conn Diary.first_ops
                (OpCorrect 7 (Diary.edit 1 "mate") Diary.ctx) Diary.conn_fresh eq_refl eq_refl) as H.
  cbv zeta in H. rewrite Hok in H. apply H.
Defined.

(** The state after the first correction of memory 7. *)
Definition corrected_once : connection memory_db :=
  (memory_do Diary.mac "k" (OpCorrect 7 (Diary.edit 1 "mate") Diary.ctx)
     (Diary.run Diary.first_ops Diary.conn)).1.

Lemma no_lost_updates_witness :
  ∃ e, correct Diary.mac "k" 7 (Diary.edit 1 "coffee") Diary.ctx
         (Diary.run [OpPurge (utc_datetime 5) Diary.ctx] corrected_once)
       = (Diary.run [OpPurge (utc_datetime 5) Diary.ctx] corrected_once, Err e).
Proof.
  refine (proj1 (no_lost_updates Diary.mac "k" Diary.zones Diary.conn Diary.first_ops
            [OpPurge (utc_datetime 5) Diary.ctx] 7 (Diary.edit 1 "mate") Diary.ctx corrected_once
            (replacement_of 7 (Diary.note 7 "tea" None) (Diary.edit 1 "mate"))
            Diary.conn_fresh eq_refl eq_refl _ (Diary.edit 1 "coffee") Diary.ctx 1) eq_refl _).
  - vm_compute. reflexivity.
  - reflexivity.
Defined.

Definition forgotten : connection memory_db :=
  (memory_do Diary.mac "k" (OpDelete 7 1 Diary.ctx) (Diary.run Diary.first_ops Diary.conn)).1.

Lemma forgotten_stays_forgotten_witness :
  read 7 (live (Diary.run [OpRemember (Diary.note 7 "tea" None) Diary.ctx] forgotten))
  = Err (MemoryNotFoundError 7).
Proof.
  refine (proj1 (forgotten_stays_forgotten Diary.mac "k" Diary.zones Diary.conn Diary.first_ops
            [OpRemember (Diary.note 7 "tea" None) Diary.ctx] 7 1 Diary.ctx forgotten
            Diary.conn_fresh eq_refl _)).
  vm_compute. reflexivity.
Defined.

Lemma erased_backups_voided_witness :
  (bm_status <$> md_manifests (live forgotten) !! "b1", bm_status <$> md_manifests (live forgotten) !! "b2")
  = (Some "invalidated", Some "active")
  ∧ ∃ r, read 7 (live (Diary.run Diary.first_ops Diary.conn)) = Ok r
    ∧ ∀ b row, md_manifests (live forgotten) !! b = Some row →
        backup_exposed r (live (Diary.run Diary.first_ops Diary.conn)) b row = false.
Proof.
  split; [vm_compute; reflexivity|].
  destruct (erased_backups_voided Diary.mac "k" Diary.zones Diary.conn Diary.first_ops 7 1 Diary.ctx
              forgotten Diary.conn_fresh) as (r & Hr & H).
  - reflexivity.
  - vm_compute. reflexivity.
  - exists r. split; [exact Hr|]. intros b row Hrow. apply (proj1 (H b row Hrow)).
Defined.

(** ** Retention across offsets *)

(** Midnight of the epoch at an offset of [h] hours. *)
Definition at_offset (h : Z) (local : Z) : datetime :=
  {| dt_local := local; dt_offset := h * 60 * minute; dt_tz := Offset (h * 60 * minute) |}.

(** The purge compares the texts of two times: a memory kept until 01:00 at
    UTC-8, that is 09:00 UTC, is erased by a purge at 02:00 UTC, seven hours
    before its retention ends and while retrieval still returns it. *)
Theorem purge_compares_text :
  let until := at_offset (-8) (60 * minute) in
  let now := utc_datetime (120 * minute) in
  let kept := Diary.run [OpRemember (Diary.note 7 "tea" (Some until)) Diary.ctx] Diary.conn in
  utc until - utc now = 7 * 60 * minute
  ∧ retrieve RetrievalScope.PRIVATE now (live kept) = Ok [Diary.note 7 "tea" (Some until)]
  ∧ (purge_memory Diary.mac "k" now Diary.ctx kept).2 = Ok 1
  ∧ retrieve RetrievalScope.PRIVATE now
      (live (purge_memory Diary.mac "k" now Diary.ctx kept).1) = Ok [].
Proof. vm_compute. done. Qed.

(** ** Corrections made from copied models *)

(** [details.model_copy(update={"importance": 11})]: a copy is not validated. *)
Definition copied_details : KnowledgeDetails :=
  {| kd_subject_id := "me"; kd_key := "home.city"; kd_cardinality := ONE;
     kd_domain := LifeDomain.LOGISTICS; kd_kind := KnowledgeKind.FACT;
     kd_state := KnowledgeState.CONFIRMED; kd_observed_at := utc_datetime 0;
     kd_last_confirmed_at := Some (utc_datetime 0); kd_valid_from := None; kd_valid_until := None;
     kd_expected_staleness_days := None; kd_sensitivity := Sensitivity.PERSONAL;
     kd_importance := 11; kd_related_entity_ids := []; kd_related_goal_ids := [];
     kd_related_project_ids := []; kd_evidence_ids := []; kd_conflicts_with := [];
     kd_planning_allowed := true; kd_source_evidence := None; kd_superseded_by := None;
     kd_routine := None; kd_pending_confirmation := None; kd_project := None;
     kd_open_loop := None |}.
Definition copied_edit : MemoryCorrection :=
  {| mc_expected_revision := 1; mc_content := "Paris"; mc_provenance := Diary.told 5;
     mc_confidence := 1; mc_retrieval_scopes := {[ RetrievalScope.PRIVATE ]};
     mc_retain_until := None; mc_knowledge := Some copied_details; mc_interview := None |}.

(** Unlike remembering, correcting does not revalidate what it stores: a
    correction that carries an invalid copy of a model is accepted, and from then
    on every retrieval raises, as does any attempt to correct or delete the
    memory that holds it. *)
Theorem unvalidated_correction_poisons_store :
  let before := Diary.run Diary.first_ops Diary.conn in
  let '(after, outcome) := correct Diary.mac "k" 7 copied_edit Diary.ctx before in
  is_ok outcome = true
  ∧ retrieve RetrievalScope.CONVERSATION (utc_datetime 0) (live before) = Ok []
  ∧ retrieve RetrievalScope.CONVERSATION (utc_datetime 0) (live after) = Err MemoryParseError
  ∧ (correct Diary.mac "k" 7 (Diary.edit 2 "mate") Diary.ctx after).2 = Err MemoryParseError
  ∧ (delete_record Diary.mac "k" 7 2 Diary.ctx after).2 = Err MemoryParseError.
Proof. vm_compute. done. Qed.
