(* ===== verification/LifeModel.v ===== *)
(** * Projections of the Life Model ([life_model.py])

    A view is a memory with the state derived for it at some time; assertions
    that contradict each other are all marked as conflicted, and the planning
    projection keeps what the user allowed and nothing uncertain.  Unicode case
    folding and stripping are parameters. *)

From stdpp Require Import prelude base strings list gmap.
From Stdlib Require Import ZArith Lia QArith.
From S2P Require Import Prelude PyTime PyText PyUuid Transactions AuditLedger Knowledge Memory MemoryCodec.
#[local] Open Scope string_scope.
#[local] Open Scope list_scope.
#[local] Open Scope Z_scope.

(** The double nearest to 0.8. *)
Definition MIN_CONFIDENCE : Q := 3602879701896397 # 4503599627370496.

Record KnowledgeView := {
  kv_record : MemoryRecord;
  kv_state : KnowledgeState.t;
  kv_current : bool;
}.

Definition source_label (s : MemorySource.t) : string :=
  match s with
  | MemorySource.USER_STATEMENT => "You told me this"
  | MemorySource.USER_CORRECTION => "You corrected this"
  | MemorySource.IMPORT => "This was imported"
  | MemorySource.CONNECTED_SYSTEM => "This came from a connected system"
  | MemorySource.BEHAVIOR => "This was observed in your activity"
  | MemorySource.INFERENCE => "This is an inference you have not confirmed"
  | MemorySource.CONVERSATION => "This came from a conversation"
  end.

Definition explanation (v : KnowledgeView) : string :=
  let provenance := mr_provenance (kv_record v) in
  source_label (mp_source provenance) +:+ " on "
  +:+ date_isoformat (date_of (mp_captured_at provenance)) +:+ "."
  +:+ match kv_state v with
      | KnowledgeState.CONFLICTED => " Sources disagree; I need your clarification."
      | KnowledgeState.STALE => " This may be outdated."
      | _ => ""
      end
  +:+ (if kv_current v then "" else " It does not apply to the current time.").

Section model.
Context `{RecordCodec} (casefold strip : string → string).

Definition knowledge_error {A : Type} (r : result KnowledgeError A) : result MemoryError A :=
  match r with Ok a => Ok a | Err e => Err (MemoryValidationError e) end.

Definition about (subject_id : string) (r : MemoryRecord) : bool :=
  match mr_knowledge r with
  | Some k => String.eqb (kd_subject_id k) subject_id
  | None => false
  end.

(** [current_at(now) and superseded_by is None], for an aware [now]. *)
Definition applies (k : KnowledgeDetails) (now : datetime) : bool :=
  match current_at k now with
  | Ok b => b && negb (has (kd_superseded_by k))
  | Err _ => false
  end.

Definition is_unknown (k : KnowledgeDetails) : bool :=
  bool_decide (kd_state k = KnowledgeState.UNKNOWN).

(** [other] is evidence against [record], whose knowledge is [k]. *)
Definition contradicts (now : datetime) (record : MemoryRecord) (k : KnowledgeDetails)
    (other : MemoryRecord) : bool :=
  negb (mr_memory_id other =? mr_memory_id record)
  && match mr_knowledge other with
     | None => false
     | Some o =>
         String.eqb (kd_key o) (kd_key k) && bool_decide (kd_cardinality o = ONE)
         && applies o now && negb (is_unknown o) && negb (is_unknown k)
         && negb (String.eqb (strip (casefold (mr_content other)))
                             (strip (casefold (mr_content record))))
     end.

Definition conflicted (now : datetime) (records : list MemoryRecord) (r : MemoryRecord)
    (k : KnowledgeDetails) : bool :=
  applies k now && bool_decide (kd_cardinality k = ONE) && existsb (contradicts now r k) records.

Definition view_of (now : datetime) (records : list MemoryRecord) (r : MemoryRecord)
    (k : KnowledgeDetails) : result MemoryError KnowledgeView :=
  rbind (λ state,
    rbind (λ _,
      Ok {| kv_record := r;
            kv_state := if conflicted now records r k then KnowledgeState.CONFLICTED else state;
            kv_current := applies k now |})
      (knowledge_error (current_at k now)))
    (knowledge_error (effective_state k now)).

Fixpoint views_of (now : datetime) (all records : list MemoryRecord) :
    result MemoryError (list KnowledgeView) :=
  match records with
  | [] => Ok []
  | r :: rest =>
      match mr_knowledge r with
      | None => views_of now all rest
      | Some k => rbind (λ v, rbind (λ l, Ok (v :: l)) (views_of now all rest)) (view_of now all r k)
      end
  end.

(** [clock] is the repository's, which decides what is still retained. *)
Definition knowledge (subject_id : string) (scope : RetrievalScope.t) (clock now : datetime)
    (db : memory_db) : result MemoryError (list KnowledgeView) :=
  match retrieve scope clock db with
  | Err e => Err e
  | Ok found => let records := List.filter (about subject_id) found in views_of now records records
  end.

Definition plannable (v : KnowledgeView) : bool :=
  match mr_knowledge (kv_record v) with
  | None => false
  | Some k =>
      bool_decide (RetrievalScope.PLANNING ∈ mr_retrieval_scopes (kv_record v))
      && kd_planning_allowed k
      && negb (bool_decide (kd_sensitivity k = Sensitivity.RESTRICTED))
      && kv_current v
      && (bool_decide (kv_state v = KnowledgeState.CONFIRMED)
          || bool_decide (kv_state v = KnowledgeState.OBSERVED))
      && Qle_bool MIN_CONFIDENCE (mr_confidence (kv_record v))
      && negb (bool_decide (kd_kind k ∈ [KnowledgeKind.OPEN_LOOP; KnowledgeKind.QUESTION;
                                         KnowledgeKind.TRUST_PREFERENCE]))
  end.

Definition planning_knowledge (subject_id : string) (clock now : datetime) (db : memory_db) :
    result MemoryError (list KnowledgeView) :=
  match knowledge subject_id RetrievalScope.PRIVATE clock now db with
  | Err e => Err e
  | Ok views => Ok (List.filter plannable views)
  end.

(** ** What the projections hold *)

Lemma views_of_elem now all records l v :
  views_of now all records = Ok l →
  v ∈ l ↔ ∃ r k, r ∈ records ∧ mr_knowledge r = Some k ∧ view_of now all r k = Ok v.
Proof.
  revert l. induction records as [|r rest IH]; intros l; simpl.
  { intros [= <-]. split; [by intros ?%elem_of_nil|by intros (? & ? & ?%elem_of_nil & _)]. }
  destruct (mr_knowledge r) as [k|] eqn:Hk.
  - intros (v0 & Hv & (l' & Hl' & [= <-])%rbind_ok)%rbind_ok. specialize (IH _ Hl').
    rewrite elem_of_cons, IH. split.
    + intros [->|(r' & k' & ? & ? & ?)]; [exists r, k|exists r', k']; rewrite elem_of_cons; auto.
    + intros (r' & k' & [->|Hin]%elem_of_cons & Hk' & Hv'); [left; congruence|right; eauto].
  - intros Hl. rewrite (IH _ Hl). split; intros (r' & k' & Hin & Hk' & Hv'); exists r', k'.
    + rewrite elem_of_cons. auto.
    + apply elem_of_cons in Hin as [->|]; [congruence|done].
Qed.

Lemma views_of_total now all records l r k :
  views_of now all records = Ok l → r ∈ records → mr_knowledge r = Some k →
  ∃ v, view_of now all r k = Ok v.
Proof.
  revert l. induction records as [|x rest IH]; intros l Hl Hr Hk; [by apply elem_of_nil in Hr|].
  simpl in Hl. apply elem_of_cons in Hr as [<-|Hr].
  - rewrite Hk in Hl. apply rbind_ok in Hl as (v & Hv & _). by exists v.
  - destruct (mr_knowledge x); [|by eapply IH].
    apply rbind_ok in Hl as (_ & _ & (l' & Hl' & _)%rbind_ok). by eapply IH.
Qed.

Lemma view_of_ok now all r k v :
  view_of now all r k = Ok v →
  aware now = true ∧ kv_record v = r ∧ kv_current v = applies k now
  ∧ ∃ s, effective_state k now = Ok s
      ∧ kv_state v = if conflicted now all r k then KnowledgeState.CONFLICTED else s.
Proof.
  unfold view_of. intros (s & Hs & (b & Hb & [= <-])%rbind_ok)%rbind_ok. simpl.
  destruct (effective_state k now) as [s'|] eqn:He; [|done]. injection Hs as <-.
  split_and!; [|done..|by exists s'].
  unfold current_at in Hb. destruct (require_aware now) as [u|] eqn:Ha; [|done].
  unfold require_aware, check in Ha. apply raise_if_ok in Ha. by destruct (aware now).
Qed.

Lemma effective_state_confirmed k now s :
  effective_state k now = Ok s → s = KnowledgeState.CONFIRMED ∨ s = KnowledgeState.OBSERVED →
  kd_state k = s
  ∧ ∀ n, kd_expected_staleness_days k = Some n → utc now < utc (reference_time k) + days_ n.
Proof.
  unfold effective_state. intros (_ & _ & He)%rbind_ok Hs.
  destruct (kd_state k); try (injection He as <-; by destruct Hs);
    (destruct (kd_expected_staleness_days k) as [n|];
     [apply rbind_ok in He as (_ & _ & [= <-]);
      destruct (Z.leb_spec (utc (reference_time k) + days_ n) (utc now)); [by destruct Hs|];
      split; [done|intros ? [= <-]; lia]
     |injection He as <-; split; [done|by intros]]).
Qed.

Lemma select_elem {X} (f : X → result MemoryError bool) l l' x :
  select f l = Ok l' → x ∈ l' ↔ x ∈ l ∧ f x = Ok true.
Proof.
  revert l'. induction l as [|y l IH]; intros l'; simpl.
  { intros [= <-]. split; [by intros []%elem_of_nil|by intros [[]%elem_of_nil _]]. }
  destruct (f y) as [keep|] eqn:Hy; [|done]. destruct (select f l) as [rest|]; [|done].
  intros [= <-]. specialize (IH _ eq_refl). rewrite elem_of_cons.
  destruct keep; rewrite ?elem_of_cons, IH; intuition (subst; congruence || auto).
Qed.

Lemma select_answers {X} (f : X → result MemoryError bool) l l' x :
  select f l = Ok l' → x ∈ l → ∃ b, f x = Ok b.
Proof.
  revert l'. induction l as [|y l IH]; intros l' Hl Hx; [by apply elem_of_nil in Hx|]. simpl in Hl.
  destruct (f y) as [keep|] eqn:Hy; [|done]. destruct (select f l) as [rest|]; [|done].
  apply elem_of_cons in Hx as [->|Hx]; [by exists keep|by eapply IH].
Qed.

Lemma parse_rows_elem rows l r :
  parse_rows rows = Ok l → r ∈ l → ∃ row, row ∈ rows ∧ parse_row row = Ok r.
Proof.
  revert l. induction rows as [|y rows IH]; intros l; simpl; [by intros [= <-] []%elem_of_nil|].
  destruct (parse_row y) as [r0|] eqn:Hy; [|done]. destruct (parse_rows rows) as [l'|]; [|done].
  intros [= <-] [->|Hr]%elem_of_cons; [exists y; rewrite elem_of_cons; auto|].
  destruct (IH _ eq_refl Hr) as (row & ? & ?). exists row. rewrite elem_of_cons. auto.
Qed.

Lemma retrieve_elem scope clock db l r :
  retrieve scope clock db = Ok l → r ∈ l →
  scope ∈ mr_retrieval_scopes r ∧ retained clock r = Ok true
  ∧ ∃ id row, md_memories db !! id = Some row ∧ parse_row row = Ok r.
Proof.
  unfold retrieve. destruct (parse_rows _) as [records|] eqn:Hp; [|done]. intros Hs Hr.
  apply (select_elem _ _ _ _ Hs) in Hr as [Hin Hv].
  unfold visible in Hv. case_bool_decide; [|done]. split_and!; [done..|].
  destruct (parse_rows_elem _ _ _ Hp Hin) as (row & Hrow & Hpr).
  apply list_elem_of_fmap in Hrow as ([id row'] & -> & Hin'). apply elem_of_py_sorted in Hin'.
  apply elem_of_map_to_list in Hin'. by exists id, row'.
Qed.

Lemma parse_rows_all rows l row :
  parse_rows rows = Ok l → row ∈ rows → ∃ r, parse_row row = Ok r ∧ r ∈ l.
Proof.
  revert l. induction rows as [|y rows IH]; intros l; simpl; [by intros _ []%elem_of_nil|].
  destruct (parse_row y) as [r0|] eqn:Hy; [|done]. destruct (parse_rows rows) as [l'|]; [|done].
  intros [= <-] [->|Hr]%elem_of_cons; [exists r0; rewrite elem_of_cons; auto|].
  destruct (IH _ eq_refl Hr) as (r & ? & ?). exists r. rewrite elem_of_cons. auto.
Qed.

(** The store holds [r], it is in the private scope, and its retention is not over. *)
Record privately_visible (clock : datetime) (db : memory_db) (r : MemoryRecord) : Prop := {
  pv_stored : ∃ id row, md_memories db !! id = Some row ∧ parse_row row = Ok r;
  pv_scope : RetrievalScope.PRIVATE ∈ mr_retrieval_scopes r;
  pv_retained : ∀ t, mr_retain_until r = Some t → dt_ltb clock t = true;
}.

Lemma retrieve_visible clock db found r :
  retrieve RetrievalScope.PRIVATE clock db = Ok found → r ∈ found ↔ privately_visible clock db r.
Proof.
  intros Hf. split.
  - intros Hr. destruct (retrieve_elem _ _ _ _ _ Hf Hr) as (Hsc & Hre & Hst). split; [done..|].
    intros t Ht. unfold retained in Hre. rewrite Ht in Hre. case_bool_decide; [|done]. congruence.
  - intros [(id & row & Hrow & Hp) Hsc Hre]. unfold retrieve in Hf.
    destruct (parse_rows _) as [records|] eqn:Hps; [|done].
    assert (r ∈ records) as Hin.
    { destruct (parse_rows_all _ _ row Hps) as (r' & Hp' & Hr'); [|congruence].
      apply list_elem_of_fmap. exists (id, row). split; [done|].
      by apply elem_of_py_sorted, elem_of_map_to_list. }
    apply (select_elem _ _ _ _ Hf). split; [done|]. unfold visible. rewrite bool_decide_true by done.
    destruct (select_answers _ _ _ _ Hf Hin) as [b Hb]. unfold visible in Hb.
    rewrite bool_decide_true in Hb by done. rewrite Hb. f_equal. unfold retained in Hb.
    destruct (mr_retain_until r) as [t|]; [|congruence]. rewrite (Hre t eq_refl) in Hb.
    case_bool_decide; congruence.
Qed.

(** The knowledge holds at [now]: its validity has begun and is not over, and
    nothing superseded it. *)
Record in_force (now : datetime) (k : KnowledgeDetails) : Prop := {
  if_begun : ∀ t, kd_valid_from k = Some t → dt_leb t now = true;
  if_lasting : ∀ t, kd_valid_until k = Some t → dt_ltb now t = true;
  if_standing : kd_superseded_by k = None;
}.

Lemma applies_in_force now k : aware now = true → applies k now = true ↔ in_force now k.
Proof.
  intros Haw. unfold applies, current_at, require_aware. rewrite Haw. simpl.
  rewrite !andb_true_iff, negb_true_iff. split.
  - intros [[Hf Hu] Hs]. split.
    + intros t Ht. by rewrite Ht in Hf.
    + intros t Ht. by rewrite Ht in Hu.
    + by destruct (kd_superseded_by k).
  - intros [Hf Hu Hs]. split_and!.
    + destruct (kd_valid_from k); auto.
    + destruct (kd_valid_until k); auto.
    + by rewrite Hs.
Qed.

(** Two assertions of one single-valued key of one subject, both in force and
    both known, that say different things. *)
Record disagree (now : datetime) (a b : MemoryRecord) (ka kb : KnowledgeDetails) : Prop := {
  dg_left : mr_knowledge a = Some ka;
  dg_right : mr_knowledge b = Some kb;
  dg_identity : mr_memory_id a ≠ mr_memory_id b;
  dg_subject : kd_subject_id ka = kd_subject_id kb;
  dg_key : kd_key ka = kd_key kb;
  dg_single : kd_cardinality ka = ONE ∧ kd_cardinality kb = ONE;
  dg_in_force : in_force now ka ∧ in_force now kb;
  dg_known : kd_state ka ≠ KnowledgeState.UNKNOWN ∧ kd_state kb ≠ KnowledgeState.UNKNOWN;
  dg_content : strip (casefold (mr_content a)) ≠ strip (casefold (mr_content b));
}.

Lemma disagree_sym now a b ka kb : disagree now a b ka kb → disagree now b a kb ka.
Proof. intros []. split; naive_solver. Qed.

(** What the planning projection promises of a memory, among those [found]. *)
Record worth_planning (subject_id : string) (now : datetime) (found : MemoryRecord → Prop)
    (r : MemoryRecord) (k : KnowledgeDetails) : Prop := {
  wp_subject : kd_subject_id k = subject_id;
  wp_scope : RetrievalScope.PLANNING ∈ mr_retrieval_scopes r;
  wp_allowed : kd_planning_allowed k = true;
  wp_sensitivity : kd_sensitivity k ≠ Sensitivity.RESTRICTED;
  wp_in_force : in_force now k;
  wp_state : kd_state k = KnowledgeState.CONFIRMED ∨ kd_state k = KnowledgeState.OBSERVED;
  wp_fresh : ∀ n, kd_expected_staleness_days k = Some n →
    utc now < utc (reference_time k) + days_ n;
  wp_confidence : Qle MIN_CONFIDENCE (mr_confidence r);
  wp_kind : kd_kind k ∉ [KnowledgeKind.OPEN_LOOP; KnowledgeKind.QUESTION;
                         KnowledgeKind.TRUST_PREFERENCE];
  wp_uncontradicted : ∀ other ko, found other → ¬ disagree now r other k ko;
}.

Lemma about_elem subject_id found r :
  r ∈ List.filter (about subject_id) found ↔ r ∈ found ∧ about subject_id r = true.
Proof. rewrite !list_elem_of_In. apply filter_In. Qed.

Lemma is_unknown_false k : is_unknown k = false ↔ kd_state k ≠ KnowledgeState.UNKNOWN.
Proof. unfold is_unknown. apply bool_decide_eq_false. Qed.

(** The code's test for contradicting evidence decides [disagree]. *)
Lemma conflicted_disagree now subject_id found r k :
  aware now = true → mr_knowledge r = Some k → kd_subject_id k = subject_id →
  conflicted now (List.filter (about subject_id) found) r k = true ↔
  ∃ other ko, other ∈ found ∧ disagree now r other k ko.
Proof.
  intros Haw Hk Hs. unfold conflicted.
  rewrite !andb_true_iff, applies_in_force, bool_decide_eq_true, existsb_exists by done. split.
  - intros ((Hf & H1) & other & Hin & Hc). rewrite <- list_elem_of_In, about_elem in Hin.
    destruct Hin as [Hin Hab]. unfold contradicts, about in *.
    destruct (mr_knowledge other) as [ko|] eqn:Hko; [|by rewrite andb_false_r in Hc].
    rewrite !andb_true_iff, !negb_true_iff, !is_unknown_false, Z.eqb_neq, !String.eqb_neq,
      String.eqb_eq, bool_decide_eq_true, applies_in_force in Hc by done.
    apply String.eqb_eq in Hab. exists other, ko. split; [done|].
    split; try done; naive_solver congruence.
  - intros (other & ko & Hin & [_ Hko Hid Hsu Hkey [H1 H2] [A1 A2] [U1 U2] Hct]).
    split; [done|]. exists other. rewrite <- list_elem_of_In, about_elem. split.
    + split; [done|]. unfold about. rewrite Hko, <- Hsu. by apply String.eqb_eq.
    + unfold contradicts. rewrite Hko.
      rewrite !andb_true_iff, !negb_true_iff, !is_unknown_false, Z.eqb_neq, !String.eqb_neq,
        String.eqb_eq, bool_decide_eq_true, applies_in_force by done. naive_solver congruence.
Qed.

Lemma plannable_worthy subject_id now found r k v :
  about subject_id r = true → mr_knowledge r = Some k →
  view_of now (List.filter (about subject_id) found) r k = Ok v →
  plannable v = true ↔ worth_planning subject_id now (λ other, other ∈ found) r k.
Proof.
  intros Hab Hk (Haw & Hr & Hcur & s & Hs & Hst)%view_of_ok. unfold plannable.
  rewrite Hr, Hk, Hcur. unfold about in Hab. rewrite Hk in Hab. apply String.eqb_eq in Hab.
  rewrite !andb_true_iff, orb_true_iff, !negb_true_iff, !bool_decide_eq_false, !bool_decide_eq_true,
    Qle_bool_iff, applies_in_force by done.
  pose proof (conflicted_disagree now subject_id found r k Haw Hk Hab) as Hcf.
  split.
  - intros ((((((Hsc & Hal) & Hse) & Hap) & Hstate) & Hco) & Hki).
    destruct (conflicted _ _ _ _); [rewrite Hst in Hstate; naive_solver|]. rewrite Hst in Hstate.
    destruct (effective_state_confirmed _ _ _ Hs Hstate) as [Hd Hf].
    split; try done; [by rewrite Hd|]. intros other ko Hin Hdis.
    by assert (false = true) by (apply Hcf; eauto).
  - intros [Hsu Hsc Hal Hse Hap Hstate Hf Hco Hki Hun].
    destruct (conflicted _ _ _ _).
    { destruct (proj1 Hcf eq_refl) as (other & ko & Hin & Hdis). by destruct (Hun other ko). }
    split_and!; try done. rewrite Hst. destruct Hstate as [Hd|Hd]; [left|right];
    (unfold effective_state in Hs; apply rbind_ok in Hs as (_ & _ & Hs); rewrite Hd in Hs;
     destruct (kd_expected_staleness_days k) as [n|]; [|congruence];
     apply rbind_ok in Hs as (_ & _ & [= <-]); specialize (Hf _ eq_refl);
     destruct (Z.leb_spec (utc (reference_time k) + days_ n) (utc now)); [lia|done]).
Qed.

#[global] Instance worth_planning_proper subject_id now :
  Proper (pointwise_relation _ iff ==> eq ==> eq ==> iff) (worth_planning subject_id now).
Proof.
  intros f g Hfg r ? <- k ? <-.
  split; intros []; split; try done; intros other ko Ho; apply Hfg in Ho; auto.
Qed.

(** C25. The planning projection is exactly what was promised: when it returns,
    a memory is in it if and only if the store holds it, it is in the private
    and the planning scope and still retained, it is about the subject, planning
    may use it and it is not restricted, its validity has begun and is not over
    and nothing superseded it, it is confirmed or observed and not stale,
    confident enough, no open loop, question or trust preference, and no
    privately visible memory that is itself in force and known says something
    else about the same single-valued key. *)
Theorem planning_projection_exact subject_id clock now db l :
  planning_knowledge subject_id clock now db = Ok l →
  ∀ r, r ∈ kv_record <$> l ↔
    privately_visible clock db r
    ∧ ∃ k, mr_knowledge r = Some k
        ∧ worth_planning subject_id now (privately_visible clock db) r k.
Proof.
  unfold planning_knowledge, knowledge.
  destruct (retrieve RetrievalScope.PRIVATE clock db) as [found|] eqn:Hf; [|done].
  destruct (views_of _ _ _) as [views|] eqn:Hv; [|done]. intros [= <-] r.
  assert (pointwise_relation _ iff (λ other, other ∈ found) (privately_visible clock db)) as Hpv
    by (intros other; by apply retrieve_visible).
  rewrite <- (Hpv r), list_elem_of_fmap. split.
  - intros (v & -> & [Hin Hp]%list_elem_of_In%filter_In). rewrite <- list_elem_of_In in Hin.
    apply (views_of_elem _ _ _ _ _ Hv) in Hin as (r & k & [Hr Hab]%about_elem & Hk & Hview).
    destruct (view_of_ok _ _ _ _ _ Hview) as (_ & -> & _). split; [done|]. exists k.
    split; [done|]. apply (worth_planning_proper subject_id now _ _ Hpv r r eq_refl k k eq_refl).
    by eapply plannable_worthy.
  - intros (Hr & k & Hk & Hw).
    assert (about subject_id r = true) as Hab
      by (unfold about; rewrite Hk; apply String.eqb_eq, (wp_subject _ _ _ _ _ Hw)).
    assert (∃ v, view_of now (List.filter (about subject_id) found) r k = Ok v) as [v Hview].
    { eapply views_of_total; [exact Hv|by apply about_elem|done]. }
    exists v. destruct (view_of_ok _ _ _ _ _ Hview) as (_ & Hrec & _). split; [done|].
    apply list_elem_of_In, filter_In. rewrite <- list_elem_of_In. split.
    + apply (views_of_elem _ _ _ _ _ Hv). exists r, k. by rewrite about_elem.
    + eapply plannable_worthy; [done..|]. by apply (worth_planning_proper subject_id now _ _ Hpv r r eq_refl k k eq_refl).
Qed.

(** No winner is chosen silently: when two retrieved assertions of a
    single-valued key disagree, each of them appears in the Life Model marked
    as conflicted, and neither reaches planning - even when one of them is
    withheld from the planning scope. *)
Theorem contradictions_stay_visible subject_id scope clock now db found views a b ka kb :
  retrieve scope clock db = Ok found → a ∈ found → b ∈ found →
  kd_subject_id ka = subject_id → disagree now a b ka kb →
  knowledge subject_id scope clock now db = Ok views →
  (∃ v, v ∈ views ∧ kv_record v = a ∧ kv_state v = KnowledgeState.CONFLICTED)
  ∧ (∃ v, v ∈ views ∧ kv_record v = b ∧ kv_state v = KnowledgeState.CONFLICTED)
  ∧ (scope = RetrievalScope.PRIVATE → ∀ l, planning_knowledge subject_id clock now db = Ok l →
       (a ∉ (kv_record <$> l)) ∧ (b ∉ (kv_record <$> l))).
Proof.
  intros Hf Ha Hb Hs Hd Hv.
  assert (∀ x y kx ky, x ∈ found → y ∈ found → kd_subject_id kx = subject_id →
    disagree now x y kx ky →
    (∃ v, v ∈ views ∧ kv_record v = x ∧ kv_state v = KnowledgeState.CONFLICTED)) as Hboth.
  { intros x y kx ky Hx Hy Hsx Hxy. unfold knowledge in Hv. rewrite Hf in Hv.
    assert (x ∈ List.filter (about subject_id) found) as Hin.
    { apply about_elem. split; [done|]. unfold about.
      rewrite (dg_left _ _ _ _ _ Hxy). by apply String.eqb_eq. }
    destruct (views_of_total _ _ _ _ _ _ Hv Hin (dg_left _ _ _ _ _ Hxy)) as [v Hview].
    exists v. split; [apply (views_of_elem _ _ _ _ _ Hv); exists x, kx; split_and!; [done|apply Hxy|done]|].
    destruct (view_of_ok _ _ _ _ _ Hview) as (Haw & Hr & _ & s & _ & Hst). split; [done|].
    rewrite Hst, (proj2 (conflicted_disagree now subject_id found x kx Haw (dg_left _ _ _ _ _ Hxy) Hsx))
      by eauto. done. }
  pose proof (disagree_sym _ _ _ _ _ Hd) as Hd'.
  assert (kd_subject_id kb = subject_id) as Hsb by (rewrite <- Hs; apply Hd').
  split_and!; [exact (Hboth a b ka kb Ha Hb Hs Hd)|exact (Hboth b a kb ka Hb Ha Hsb Hd')|].
  intros -> l Hl.
  assert (∀ x y kx ky, x ∈ found → y ∈ found → kd_subject_id kx = subject_id →
    disagree now x y kx ky → x ∉ (kv_record <$> l)) as Hout
    ; [|split; [exact (Hout a b ka kb Ha Hb Hs Hd)|exact (Hout b a kb ka Hb Ha Hsb Hd')]].
  intros x y kx ky Hx Hy Hsx Hxy Hin. unfold planning_knowledge in Hl. rewrite Hv in Hl.
  injection Hl as <-. apply list_elem_of_fmap in Hin as (v & -> & [Hin Hp]%list_elem_of_In%filter_In).
  unfold knowledge in Hv. rewrite Hf in Hv. rewrite <- list_elem_of_In in Hin.
  apply (views_of_elem _ _ _ _ _ Hv) in Hin as (r & k & _ & Hk & Hview).
  destruct (view_of_ok _ _ _ _ _ Hview) as (Haw & Hr & _ & s & _ & Hst). rewrite Hr in *.
  pose proof (dg_left _ _ _ _ _ Hxy) as Hkx. rewrite Hk in Hkx. injection Hkx as ->.
  rewrite (proj2 (conflicted_disagree now subject_id found r kx Haw Hk Hsx)) in Hst by eauto.
  unfold plannable in Hp. rewrite Hst in Hp. destruct (mr_knowledge (kv_record v)); [|done].
  rewrite !andb_true_iff in Hp. naive_solver.
Qed.
End model.

(** ** A concrete Life Model *)

Module Household.
Definition zones (key : string) : bool := true.
#[export] Instance codec : RecordCodec := TextCodec.codec zones.
Definition fold (s : string) : string := s.

Definition details (staleness : option Z) : KnowledgeDetails :=
  {| kd_subject_id := "me"; kd_key := "home.city"; kd_cardinality := ONE;
     kd_domain := LifeDomain.LOGISTICS; kd_kind := KnowledgeKind.FACT;
     kd_state := KnowledgeState.CONFIRMED; kd_observed_at := utc_datetime 0;
     kd_last_confirmed_at := Some (utc_datetime 0); kd_valid_from := None; kd_valid_until := None;
     kd_expected_staleness_days := staleness; kd_sensitivity := Sensitivity.PERSONAL;
     kd_importance := 5; kd_related_entity_ids := []; kd_related_goal_ids := [];
     kd_related_project_ids := []; kd_evidence_ids := []; kd_conflicts_with := [];
     kd_planning_allowed := true; kd_source_evidence := None; kd_superseded_by := None;
     kd_routine := None; kd_pending_confirmation := None; kd_project := None;
     kd_open_loop := None |}.

Definition fact (id : uuid) (content : string) (scopes : gset RetrievalScope.t)
    (staleness : option Z) : MemoryRecord :=
  {| mr_memory_id := id; mr_category := MemoryCategory.PROFILE; mr_content := content;
     mr_provenance := {| mp_source := MemorySource.USER_STATEMENT; mp_source_id := "chat";
                         mp_captured_at := utc_datetime 0 |};
     mr_confidence := 1; mr_retrieval_scopes := scopes; mr_created_at := utc_datetime 0;
     mr_retain_until := None; mr_revision := 1; mr_knowledge := Some (details staleness);
     mr_interview := None |}.
Definition shared : gset RetrievalScope.t := {[ RetrievalScope.PRIVATE; RetrievalScope.PLANNING ]}.

Definition holding (l : list MemoryRecord) : memory_db :=
  {| md_memories := list_to_map (map (λ r, (mr_memory_id r, row_of_record r)) l);
     md_tombstones := ∅; md_manifests := ∅; md_backup_records := ∅; md_memory_coverage := ∅;
     md_audit := empty_ledger |}.
Definition paris : MemoryRecord := fact 1 "Paris" shared None.
Definition rome : MemoryRecord := fact 2 "Rome" {[ RetrievalScope.PRIVATE ]} (Some 30).
Definition now : datetime := utc_datetime minute.
Definition view (r : MemoryRecord) (s : KnowledgeState.t) : KnowledgeView :=
  {| kv_record := r; kv_state := s; kv_current := true |}.
End Household.
#[local] Existing Instance Household.codec.

Lemma planning_projection_exact_witness :
  privately_visible Household.now (Household.holding [Household.paris]) Household.paris
  ∧ ∃ k, mr_knowledge Household.paris = Some k
    ∧ worth_planning Household.fold Household.fold "me" Household.now
        (privately_visible Household.now (Household.holding [Household.paris])) Household.paris k.
Proof.
  apply (planning_projection_exact Household.fold Household.fold "me" Household.now Household.now
    (Household.holding [Household.paris])
    [Household.view Household.paris KnowledgeState.CONFIRMED]).
  - vm_compute. reflexivity.
  - rewrite list_elem_of_fmap. eexists. split; [|by apply list_elem_of_singleton]. done.
Defined.

Lemma contradictions_stay_visible_witness :
  (∃ v, v ∈ [Household.view Household.paris KnowledgeState.CONFLICTED;
             Household.view Household.rome KnowledgeState.CONFLICTED]
        ∧ kv_record v = Household.rome ∧ kv_state v = KnowledgeState.CONFLICTED).
Proof.
  refine (proj1 (proj2 (contradictions_stay_visible Household.fold Household.fold "me"
    RetrievalScope.PRIVATE Household.now Household.now (Household.holding [Household.paris; Household.rome])
    [Household.paris; Household.rome] _ Household.paris Household.rome (Household.details None)
    (Household.details (Some 30)) _ _ _ eq_refl _ _))).
  - vm_compute. reflexivity.
  - rewrite elem_of_cons. by left.
  - rewrite !elem_of_cons. by right; left.
  - by split.
  - vm_compute. reflexivity.
Defined.

(** One assertion makes the model unreadable: a memory that passes every
    validator but expects to go stale after more days than a [datetime] can
    count makes each projection of its subject raise. *)
Theorem oversized_staleness_blocks_model :
  let oversized := Household.fact 1 "Paris" Household.shared (Some 4000000) in
  let db := Household.holding [oversized; Household.rome] in
  record_valid Household.zones oversized = true
  ∧ knowledge Household.fold Household.fold "me" RetrievalScope.PRIVATE Household.now Household.now db
    = Err (MemoryValidationError KnowledgeOverflowError)
  ∧ planning_knowledge Household.fold Household.fold "me" Household.now Household.now db
    = Err (MemoryValidationError KnowledgeOverflowError).
Proof. vm_compute. done. Qed.

(** A source withheld from the private scope does hide its conflict: against a
    contradicting assertion that only conversations may see, planning takes the
    other one as confirmed. *)
Theorem unprivate_source_hides_conflict :
  let rome := Household.fact 2 "Rome" {[ RetrievalScope.CONVERSATION ]} None in
  record_valid Household.zones rome = true
  ∧ planning_knowledge Household.fold Household.fold "me" Household.now Household.now
      (Household.holding [Household.paris; rome])
    = Ok [Household.view Household.paris KnowledgeState.CONFIRMED].
Proof. vm_compute. done. Qed.
