(* ===== verification/PyRe.v ===== *)
(** * Text and regular expressions

    A Python string is the list of its code points.  What Unicode says about the
    code points beyond ASCII is the class [Unicode].  Regular expressions are
    matched as [re] does: backtracking, leftmost, alternatives in order,
    repetitions greedy, with numbered groups. *)

From stdpp Require Import prelude base strings list numbers.
From Stdlib Require Import ZArith Lia Ascii NArith.
From S2P Require Import Prelude.
#[local] Open Scope list_scope.

Definition text : Type := list N.

(** A literal. *)
Fixpoint lit (s : string) : text :=
  match s with
  | EmptyString => []
  | String c s' => N_of_ascii c :: lit s'
  end.
Definition code (c : ascii) : N := N_of_ascii c.

(** The classes and foldings of code points from 128 up. *)
Class Unicode := {
  uni_word : N → bool;            (** [\w] *)
  uni_space : N → bool;           (** [str.isspace] *)
  uni_decimal : N → option Z;     (** the value of a decimal digit *)
  uni_fold : N → text;            (** full case folding *)
}.

Definition in_range (lo hi c : N) : bool := (N.leb lo c && N.leb c hi)%bool.
Definition is_lower (c : N) : bool := in_range 97 122 c.
Definition is_upper (c : N) : bool := in_range 65 90 c.

Section unicode.
Context `{Unicode}.

Definition decimal (c : N) : option Z :=
  if (c <? 128)%N then if in_range 48 57 c then Some (Z.of_N c - 48)%Z else None else uni_decimal c.
Definition is_digit (c : N) : bool := match decimal c with Some _ => true | None => false end.

(** Tab to carriage return, the separators 28 to 31, and the space. *)
Definition space (c : N) : bool :=
  if (c <? 128)%N then in_range 9 13 c || in_range 28 32 c else uni_space c.

Definition word (c : N) : bool :=
  if (c <? 128)%N then is_lower c || is_upper c || in_range 48 57 c || (c =? 95)%N else uni_word c.

Definition fold_code (c : N) : text :=
  if (c <? 128)%N then [if is_upper c then (c + 32)%N else c] else uni_fold c.
Definition casefold (t : text) : text := t ≫= fold_code.

Fixpoint lstrip_if (f : N → bool) (t : text) : text :=
  match t with
  | c :: t' => if f c then lstrip_if f t' else t
  | [] => []
  end.
Definition rstrip_if (f : N → bool) (t : text) : text := reverse (lstrip_if f (reverse t)).
Definition strip (t : text) : text := rstrip_if space (lstrip_if space t).
End unicode.

(** [c in chars] *)
Definition one_of (chars : string) (c : N) : bool := bool_decide (c ∈ lit chars).

Fixpoint starts_with (p t : text) : bool :=
  match p, t with
  | [], _ => true
  | a :: p', b :: t' => (a =? b)%N && starts_with p' t'
  | _, _ => false
  end.

(** [t.split(p, 1)] when [p] occurs: what is before it and what is after it. *)
Fixpoint split_once (p t : text) : option (text * text) :=
  if starts_with p t then Some ([], drop (length p) t)
  else match t with
       | [] => None
       | c :: t' => prod_map (cons c) id <$> split_once p t'
       end.

(** [p in t] *)
Definition contains (p t : text) : bool :=
  match split_once p t with Some _ => true | None => false end.

(** ** UTF-8 *)

Definition utf8_code (c : N) : string :=
  let byte n := ascii_of_N n in
  if (c <? 128)%N then String (byte c) ""
  else if (c <? 2048)%N then
    String (byte (192 + c / 64)%N) (String (byte (128 + c mod 64)%N) "")
  else if (c <? 65536)%N then
    String (byte (224 + c / 4096)%N) (String (byte (128 + (c / 64) mod 64)%N)
      (String (byte (128 + c mod 64)%N) ""))
  else
    String (byte (240 + c / 262144)%N) (String (byte (128 + (c / 4096) mod 64)%N)
      (String (byte (128 + (c / 64) mod 64)%N) (String (byte (128 + c mod 64)%N) ""))).
Definition utf8 (t : text) : string := foldr (λ c s, utf8_code c +:+ s) "" t.

(** ** Regular expressions *)

Inductive re :=
| Class_ (f : N → bool)
| Cat (a b : re)
| Alt (a b : re)
| Eps
| Rep (min : nat) (max : option nat) (a : re)
| Group (n : nat) (a : re)
| Boundary.

(** The character before, the text ahead, and the groups matched so far. *)
Record cursor := {
  cu_before : option N;
  cu_ahead : text;
  cu_groups : list (nat * text);
}.

Definition group (c : cursor) (n : nat) : option text := dict_get n (cu_groups c).

Section engine.
Context `{Unicode}.

Definition word_at (o : option N) : bool := match o with Some c => word c | None => false end.
Definition at_boundary (c : cursor) : bool :=
  xorb (word_at (cu_before c)) (word_at (head (cu_ahead c))).

Definition step (x : N) (rest : text) (c : cursor) : cursor :=
  {| cu_before := Some x; cu_ahead := rest; cu_groups := cu_groups c |}.
Definition set_group (n : nat) (t : text) (c : cursor) : cursor :=
  {| cu_before := cu_before c; cu_ahead := cu_ahead c; cu_groups := dict_set n t (cu_groups c) |}.

(** What lies between two cursors. *)
Definition between_cursors (a b : cursor) : text :=
  take (length (cu_ahead a) - length (cu_ahead b)) (cu_ahead a).

Definition below (n : nat) (max : option nat) : bool :=
  match max with Some m => n <? m | None => true end%nat.

(** At least [min] and at most [max] times [body], as often as it can, of which
    [n] are done.  An iteration consumes a character, so the length of the text
    bounds their number. *)
Fixpoint repeat_re (body : cursor → (cursor → option cursor) → option cursor) (min : nat)
    (max : option nat) (k : cursor → option cursor) (fuel n : nat) (c : cursor) : option cursor :=
  match fuel with
  | O => None
  | S fuel' =>
      match (if below n max then
               body c (λ c', if (length (cu_ahead c') <? length (cu_ahead c))%nat
                             then repeat_re body min max k fuel' (S n) c' else None)
             else None) with
      | Some x => Some x
      | None => if (min <=? n)%nat then k c else None
      end
  end.

(** [k] is what remains to be matched. *)
Fixpoint match_re (r : re) (c : cursor) (k : cursor → option cursor) {struct r} : option cursor :=
  match r with
  | Class_ f =>
      match cu_ahead c with
      | x :: rest => if f x then k (step x rest c) else None
      | [] => None
      end
  | Cat a b => match_re a c (λ c', match_re b c' k)
  | Alt a b => match match_re a c k with Some x => Some x | None => match_re b c k end
  | Eps => k c
  | Group n a => match_re a c (λ c', k (set_group n (between_cursors c c') c'))
  | Boundary => if at_boundary c then k c else None
  | Rep min max a => repeat_re (match_re a) min max k (S (length (cu_ahead c))) 0 c
  end.

(** [search] from a position: the cursor where the match ends. *)
Fixpoint search_from (r : re) (before : option N) (t : text) : option cursor :=
  match match_re r {| cu_before := before; cu_ahead := t; cu_groups := [] |} Some with
  | Some c => Some c
  | None => match t with [] => None | x :: t' => search_from r (Some x) t' end
  end.
Definition search (r : re) (t : text) : option cursor := search_from r None t.

(** [finditer]: each match starts where the previous one ended. *)
Fixpoint matches_from (fuel : nat) (r : re) (before : option N) (t : text) : list cursor :=
  match fuel with
  | O => []
  | S fuel' =>
      match search_from r before t with
      | None => []
      | Some c => c :: matches_from fuel' r (cu_before c) (cu_ahead c)
      end
  end.
Definition find_iter (r : re) (t : text) : list cursor := matches_from (S (length t)) r None t.
End engine.

(** ** Notation of patterns *)

Definition Chr (c : N) : re := Class_ (N.eqb c).
Definition word_re (s : string) : re := foldr (λ c r, Cat (Chr c) r) Eps (lit s).
Definition cat_all (l : list re) : re := foldr Cat Eps l.
Fixpoint alt_all (r : re) (l : list re) : re :=
  match l with [] => r | x :: l' => Alt r (alt_all x l') end.
Definition Opt (a : re) : re := Rep 0 (Some 1%nat) a.
Definition Star (a : re) : re := Rep 0 None a.
Definition Plus (a : re) : re := Rep 1 None a.
(** [s?] after a word. *)
Definition optional_s (w : string) : re := Cat (word_re w) (Opt (Chr (code "s"))).
Definition any_word (w : string) (ws : list string) : re := alt_all (word_re w) (map word_re ws).

(** ** What a match is *)

Section meaning.
Context `{Unicode}.

(** The cursors a pattern leads to from a cursor. *)
Fixpoint leads (r : re) (c c' : cursor) : Prop :=
  match r with
  | Class_ f => ∃ x rest, cu_ahead c = x :: rest ∧ f x = true ∧ c' = step x rest c
  | Cat a b => ∃ m, leads a c m ∧ leads b m c'
  | Alt a b => leads a c c' ∨ leads b c c'
  | Eps => c' = c
  | Rep _ _ a => rtc (leads a) c c'
  | Group n a => ∃ m, leads a c m ∧ c' = set_group n (between_cursors c m) m
  | Boundary => at_boundary c = true ∧ c' = c
  end.

Lemma match_re_sound r c k z :
  match_re r c k = Some z → ∃ c', leads r c c' ∧ k c' = Some z.
Proof.
  revert c k z. induction r as [f|a IHa b IHb|a IHa b IHb| |min max a IHa|n a IHa|]; intros c k z;
    cbn [match_re leads].
  - destruct (cu_ahead c) as [|x rest] eqn:Ha; [done|]. destruct (f x) eqn:Hf; [|done].
    intros Hk. exists (step x rest c). split; [by exists x, rest|done].
  - intros (m & Hm & (c' & Hc & Hk)%IHb)%IHa. exists c'. split; [by exists m|done].
  - destruct (match_re a c k) eqn:Ha.
    + intros [= <-]. apply IHa in Ha as (c' & ? & ?). exists c'. auto.
    + intros (c' & ? & ?)%IHb. exists c'. auto.
  - by exists c.
  - generalize (S (length (cu_ahead c))) 0%nat. intros fuel. revert c.
    induction fuel as [|fuel IH]; intros c n; [done|]. simpl.
    match goal with |- match ?t with _ => _ end = _ → _ => destruct t as [y|] eqn:Ht end.
    + intros [= <-]. destruct (below n max); [|done]. apply IHa in Ht as (m & Hm & Hl).
      destruct (_ <? _)%nat; [|done]. apply IH in Hl as (c' & ? & ?).
      exists c'. split; [by eapply rtc_l|done].
    + destruct (min <=? n)%nat; [|done]. intros Hk. by exists c.
  - intros (m & Hm & Hk)%IHa. exists (set_group n (between_cursors c m) m). split; [by exists m|done].
  - destruct (at_boundary c) eqn:Hb; [|done]. intros Hk. by exists c.
Qed.

Lemma search_from_sound r before t c :
  search_from r before t = Some c →
  ∃ before' t', leads r {| cu_before := before'; cu_ahead := t'; cu_groups := [] |} c.
Proof.
  revert before. induction t as [|x t IH]; intros before; simpl;
    destruct (match_re r _ Some) as [c'|] eqn:Hm.
  1,3: intros [= <-]; apply match_re_sound in Hm as (c0 & Hl & [= <-]); by eexists _, _.
  - done.
  - apply IH.
Qed.

Lemma find_iter_sound r t c :
  c ∈ find_iter r t →
  ∃ before t', leads r {| cu_before := before; cu_ahead := t'; cu_groups := [] |} c.
Proof.
  unfold find_iter. generalize (S (length t)) (@None N). intros fuel. revert t.
  induction fuel as [|fuel IH]; intros t before; simpl; [by intros []%elem_of_nil|].
  destruct (search_from r before t) as [c0|] eqn:Hs; [|by intros []%elem_of_nil].
  intros [->|Hin]%elem_of_cons; [by eapply search_from_sound|by eapply IH].
Qed.

(** A pattern that does not set a group leaves it alone. *)
Fixpoint sets_group (n : nat) (r : re) : bool :=
  match r with
  | Cat a b | Alt a b => sets_group n a || sets_group n b
  | Rep _ _ a => sets_group n a
  | Group m a => Nat.eqb m n || sets_group n a
  | _ => false
  end.

Lemma leads_keeps_group n r c c' :
  leads r c c' → sets_group n r = false → group c' n = group c n.
Proof.
  revert c c'. induction r as [f|a IHa b IHb|a IHa b IHb| |min max a IHa|m a IHa|]; intros c c'; simpl.
  - by intros (x & rest & _ & _ & ->).
  - intros (m & ? & ?) [? ?]%orb_false_iff. etransitivity; [by eapply IHb|by eapply IHa].
  - intros [?|?] [? ?]%orb_false_iff; [by apply IHa|by apply IHb].
  - by intros ->.
  - intros Hr Hf. induction Hr as [|x y z Hxy _ IH]; [done|]. rewrite IH. by apply IHa.
  - intros (m' & ? & ->) [Hm%Nat.eqb_neq ?]%orb_false_iff. unfold group. simpl.
    rewrite dict_get_set. case_decide; [congruence|by apply IHa].
  - by intros [_ ->].
Qed.

Lemma leads_word s c c' : leads (word_re s) c c' → cu_ahead c = (lit s ++ cu_ahead c')%list.
Proof.
  unfold word_re. generalize (lit s). intros l. revert c. induction l as [|x l IH]; intros c; simpl.
  - by intros ->.
  - intros (m & (y & rest & Ha & Hx%N.eqb_eq & ->) & Hm). apply IH in Hm. simpl in Hm.
    by rewrite Ha, Hm, Hx.
Qed.

Lemma leads_any_word w ws c c' :
  leads (any_word w ws) c c' → ∃ v, v ∈ w :: ws ∧ cu_ahead c = (lit v ++ cu_ahead c')%list.
Proof.
  unfold any_word. revert w. induction ws as [|x ws IH]; intros w; simpl.
  - intros ?%leads_word. exists w. rewrite elem_of_cons. auto.
  - intros [?%leads_word|Hl]; [exists w; rewrite elem_of_cons; auto|].
    destruct (IH x Hl) as (v & ? & ?). exists v. rewrite elem_of_cons. auto.
Qed.

Lemma between_app c c' t : cu_ahead c = (t ++ cu_ahead c')%list → between_cursors c c' = t.
Proof.
  unfold between_cursors. intros ->. rewrite length_app, Nat.add_sub. apply take_app_length.
Qed.

(** A group around alternatives of words holds one of the words. *)
Lemma leads_group_word n w ws c c' :
  leads (Group n (any_word w ws)) c c' → ∃ v, v ∈ w :: ws ∧ group c' n = Some (lit v).
Proof.
  intros (m & (v & Hv & Ha)%leads_any_word & ->). exists v. split; [done|].
  unfold group. simpl. rewrite dict_get_set, (between_app c m (lit v)) by done. by case_decide.
Qed.
End meaning.
