(* ===== verification/RoutineText.v ===== *)
(** * Reading a routine from text ([life_interview.py], module functions)

    The deterministic extraction of days, start time, durations and flexibility
    from an answer, as the source's regular expressions do it.  Floating-point
    durations follow binary64 rounding. *)

From stdpp Require Import prelude base strings list gmap numbers pretty.
From Stdlib Require Import ZArith Lia Ascii NArith QArith.
From S2P Require Import Prelude PyTime PyText PyFloat Knowledge PyRe.
#[local] Open Scope list_scope.
#[local] Open Scope string_scope.
#[local] Open Scope Z_scope.

(** What reading a number may raise. *)
Inductive NumberError :=
| IntDigitLimit            (** [int] of more than 4300 digits: [ValueError] *)
| FloatOverflow.           (** [round] of an infinity: [OverflowError] *)

Definition day_names : list string :=
  ["Monday"; "Tuesday"; "Wednesday"; "Thursday"; "Friday"; "Saturday"; "Sunday"].
Definition lower_days : list string :=
  ["monday"; "tuesday"; "wednesday"; "thursday"; "friday"; "saturday"; "sunday"].

(** [_DAY_INDEX_BY_NAME] *)
Definition day_index (name : text) : option Z :=
  match list_find (λ d, lit d = name) lower_days with
  | Some (i, _) => Some (Z.of_nat i)
  | None => None
  end.

Definition TRAVEL_KEYWORDS : list string := ["commute"; "travel"; "drive"; "transit"].
Definition PREPARATION_KEYWORDS : list string := ["preparation"; "prep"; "getting ready"].
Definition TRANSITION_KEYWORDS : list string :=
  ["transition"; "wind down"; "winding down"; "decompress"].

Definition weekdays : gset Z := {[ 0; 1; 2; 3; 4 ]}.
Definition weekend : gset Z := {[ 5; 6 ]}.
Definition every_day : gset Z := {[ 0; 1; 2; 3; 4; 5; 6 ]}.

Section extraction.
Context `{Unicode}.

Definition digit_re : re := Class_ is_digit.
Definition spaces : re := Star (Class_ space).
Definition bounded (r : re) : re := Cat Boundary (Cat r Boundary).
Definition any_day : re := any_word "monday" (tail lower_days).

Definition DAY_PATTERN : re := bounded (Group 1 any_day).
Definition DAY_ALIAS_PATTERNS : list (re * gset Z) :=
  [(bounded (optional_s "weekday"), weekdays);
   (bounded (optional_s "weekend"), weekend);
   (bounded (word_re "daily"), every_day);
   (bounded (word_re "every day"), every_day);
   (bounded (word_re "everyday"), every_day);
   (bounded (word_re "each day"), every_day);
   (bounded (word_re "all week"), every_day);
   (bounded (word_re "every weekday"), weekdays)].

(** [\b(day)\s*(?:-|to|through)\s*(day)\b] *)
Definition interval_pattern : re :=
  cat_all [Boundary; Group 1 any_day; spaces; any_word "-" ["to"; "through"]; spaces;
           Group 2 any_day; Boundary].

(** [(first + offset) % 7 for offset in range((last - first) % 7 + 1)] *)
Definition day_span (first last : Z) : list Z :=
  map (λ offset, (first + offset) mod 7) (seqZ 0 ((last - first) mod 7 + 1)).

Definition group_day (n : nat) (c : cursor) : option Z := t ← group c n; day_index t.

Definition interval_days (c : cursor) : list Z :=
  match group_day 1 c, group_day 2 c with
  | Some first, Some last => day_span first last
  | _, _ => []
  end.

Definition listed_days (t : text) : gset Z :=
  list_to_set (find_iter interval_pattern t ≫= interval_days)
  ∪ list_to_set (omap (group_day 1) (find_iter DAY_PATTERN t))
  ∪ ⋃ map (λ pi, match search pi.1 t with Some _ => pi.2 | None => ∅ end) DAY_ALIAS_PATTERNS.

Definition non_empty_set (s : gset Z) : option (gset Z) := if decide (s = ∅) then None else Some s.

(** The recursion is on what follows ["except"], which is shorter. *)
Fixpoint extract_days_fuel (fuel : nat) (t : text) : option (gset Z) :=
  match split_once (lit "except") t with
  | None => non_empty_set (listed_days t)
  | Some (included, excluded) =>
      match fuel with
      | O => None
      | S fuel' =>
          base ← extract_days_fuel fuel' included;
          exclusions ← extract_days_fuel fuel' excluded;
          non_empty_set (base ∖ exclusions)
      end
  end.
Definition extract_days (t : text) : option (gset Z) := extract_days_fuel (length t) t.

(** ** Numbers *)

Definition digits_value (t : text) : Z :=
  foldl (λ acc c, acc * 10 + match decimal c with Some d => d | None => 0 end) 0 t.

(** [int(t)] of a run of digits. *)
Definition int_of (t : text) : result NumberError Z :=
  if (4300 <? length t)%nat then Err IntDigitLimit else Ok (digits_value t).

(** [\d{1,2}] *)
Definition one_or_two_digits : re := Rep 1 (Some 2%nat) digit_re.
Definition two_digits : re := Cat digit_re digit_re.

(** [(\d{1,2})(?::(\d{2}))?\s*(am|pm)], with its groups numbered from 1 *)
Definition meridiem_time : re :=
  cat_all [Boundary; Group 1 one_or_two_digits; Opt (Cat (Chr (code ":")) (Group 2 two_digits));
           spaces; Group 3 (any_word "am" ["pm"]); Boundary].
Definition clock_pattern : re :=
  cat_all [Boundary; Group 1 one_or_two_digits; Chr (code ":"); Group 2 two_digits; Boundary].

Definition group_number (n : nat) (c : cursor) : Z :=
  match group c n with Some t => digits_value t | None => 0 end.

Definition extract_start_time (t : text) : option clock_time :=
  match search meridiem_time t with
  | Some c =>
      let written := group_number 1 c in
      let minute := group_number 2 c in
      let meridiem := casefold (default [] (group c 3)) in
      let hour := if bool_decide (meridiem = lit "pm") && (written <? 12) then written + 12
                  else if bool_decide (meridiem = lit "am") && (written =? 12) then 0
                  else written in
      if (1 <=? written) && (written <=? 12) && (0 <=? minute) && (minute <? 60)
      then Some (local_time hour minute) else None
  | None =>
      match search clock_pattern t with
      | Some c =>
          let hour := group_number 1 c in
          let minute := group_number 2 c in
          if (0 <=? hour) && (hour <? 24) && (0 <=? minute) && (minute <? 60)
          then Some (local_time hour minute) else None
      | None => None
      end
  end.

(** *** Binary64 *)

(** The double nearest to the non-negative fraction [n / d]; [None] is the infinity. *)
Definition to_double (n d : Z) : option (Z * Z) :=
  let '(rn, rd) := nearest n d in
  if 2 ^ 1024 * rd <=? rn then None else Some (rn, rd).

(** [round] of a finite double. *)
Definition round_double (x : option (Z * Z)) : result NumberError Z :=
  match x with
  | Some (n, d) => Ok (round_half_even n d)
  | None => Err FloatOverflow
  end.

(** [float(t)], for digits with an optional fraction: the fraction it denotes. *)
Definition decimal_fraction (t : text) : Z * Z :=
  match split_once (lit ".") t with
  | None => (digits_value t, 1)
  | Some (whole, frac) => (digits_value (whole ++ frac)%list, 10 ^ Z.of_nat (length frac))
  end.
Definition float_of (t : text) : option (Z * Z) :=
  let '(n, d) := decimal_fraction t in to_double n d.

(** [value * 60] *)
Definition times_sixty (x : option (Z * Z)) : option (Z * Z) :=
  match x with Some (n, d) => to_double (n * 60) d | None => None end.

(** ** Durations *)

Definition en_dash : N := 8211.

(** [\d{1,2}(?::\d{2})?\s*(?:am|pm)] *)
Definition time_pattern : re :=
  cat_all [one_or_two_digits; Opt (Cat (Chr (code ":")) two_digits); spaces; any_word "am" ["pm"]].
Definition range_pattern : re :=
  cat_all [Boundary; Group 1 time_pattern; spaces;
           Alt (Chr (code "-")) (Alt (Chr en_dash) (word_re "to")); spaces;
           Group 2 time_pattern; Boundary].
Definition duration_pattern : re :=
  cat_all [Boundary;
           Group 1 (Cat (Plus digit_re) (Opt (Cat (Chr (code ".")) (Plus digit_re))));
           spaces;
           Group 2 (alt_all (optional_s "hour") [optional_s "hr"; optional_s "minute"; optional_s "min"]);
           Boundary].

Definition minute_of_day (t : clock_time) : Z := ct_hour t * 60 + ct_minute t.

(** The first branch: an explicit range of times. *)
Definition range_duration (t : text) : option Z :=
  c ← search range_pattern t;
  start ← extract_start_time (default [] (group c 1));
  end_ ← extract_start_time (default [] (group c 2));
  let duration := (minute_of_day end_ - minute_of_day start) mod 1440 in
  if duration =? 0 then None else Some duration.

Definition starts_with_any (l : list string) (t : text) : bool :=
  existsb (λ p, starts_with (lit p) t) l.

(** The duration belongs to the commute, the preparation or the transition. *)
Definition overhead (c : cursor) : bool :=
  starts_with_any (TRAVEL_KEYWORDS ++ PREPARATION_KEYWORDS ++ TRANSITION_KEYWORDS)%list
    (lstrip_if (one_of " -") (cu_ahead c)).

Definition match_minutes (c : cursor) : result NumberError Z :=
  let value := float_of (default [] (group c 1)) in
  if starts_with_any ["hour"; "hr"] (default [] (group c 2))
  then round_double (times_sixty value) else round_double value.

Fixpoint first_duration (l : list cursor) : result NumberError (option Z) :=
  match l with
  | [] => Ok None
  | c :: l' =>
      if overhead c then first_duration l'
      else match match_minutes c with
           | Err e => Err e
           | Ok minutes => if between 1 1440 minutes then Ok (Some minutes) else first_duration l'
           end
  end.

Definition extract_duration (t : text) : result NumberError (option Z) :=
  match range_duration t with
  | Some duration => Ok (Some duration)
  | None => first_duration (find_iter duration_pattern t)
  end.

(** [\b(\d+)\s*(?:-|min(?:ute)?s?)?\s*(?:of\s+)?keyword\b] *)
Definition minutes_pattern (keyword : string) : re :=
  cat_all [Boundary; Group 1 (Plus digit_re); spaces;
           Opt (Alt (Chr (code "-"))
                    (cat_all [word_re "min"; Opt (word_re "ute"); Opt (Chr (code "s"))]));
           spaces; Opt (Cat (word_re "of") (Plus (Class_ space))); word_re keyword; Boundary].

Fixpoint extract_minutes (t : text) (keywords : list string) : result NumberError Z :=
  match keywords with
  | [] => Ok 0
  | keyword :: rest =>
      match search (minutes_pattern keyword) t with
      | Some c => int_of (default [] (group c 1))
      | None => extract_minutes t rest
      end
  end.

Definition found (r : re) (t : text) : bool := match search r t with Some _ => true | None => false end.

Definition extract_flexibility (t : text) : RoutineFlexibility.t :=
  if found (bounded (Group 1 (any_word "must" ["fixed"; "always"; "non-negotiable"]))) t
  then RoutineFlexibility.FIXED
  else if found (bounded (word_re "optional")) t then RoutineFlexibility.OPTIONAL
  else if found (bounded (Group 1 (any_word "flexible" ["whenever"; "anytime"; "any time"]))) t
  then RoutineFlexibility.FLEXIBLE
  else RoutineFlexibility.PREFERRED.
End extraction.

(** ** Bounds and termination *)

Section bounds.
Context `{Unicode}.

Lemma starts_with_app p t : starts_with p t = true → t = (p ++ drop (length p) t)%list.
Proof.
  revert t. induction p as [|x p IH]; intros [|y t]; simpl; try done.
  intros [->%N.eqb_eq ?]%andb_true_iff. by rewrite <- IH.
Qed.

Lemma split_once_app p t a b : split_once p t = Some (a, b) → t = (a ++ p ++ b)%list.
Proof.
  revert a. induction t as [|x t IH]; intros a; cbn [split_once];
    destruct (starts_with p _) eqn:Hs; try done.
  1,2: intros [= <- <-]; by apply starts_with_app in Hs.
  intros ([a' b'] & Hr & [= -> ->])%fmap_Some. simpl. by rewrite <- (IH a').
Qed.

Lemma split_except_shorter t a b :
  split_once (lit "except") t = Some (a, b) → (length a < length t ∧ length b < length t)%nat.
Proof. intros ->%split_once_app. rewrite !length_app. simpl. lia. Qed.

Lemma extract_days_fuel_enough fuel t :
  (length t <= fuel)%nat → extract_days_fuel fuel t = extract_days t.
Proof.
  unfold extract_days. revert t. induction fuel as [fuel IH] using lt_wf_ind. intros t Hle.
  destruct (split_once (lit "except") t) as [[a b]|] eqn:Hs.
  - destruct (split_except_shorter _ _ _ Hs) as [Ha Hb].
    destruct fuel as [|fuel]; [lia|]. destruct (length t) as [|n] eqn:Hn; [lia|].
    cbn [extract_days_fuel]. rewrite Hs. rewrite !(IH fuel) by lia.
    destruct (decide (fuel = n)) as [->|]; [by rewrite !(IH n) by lia|].
    by rewrite !(IH n) by lia.
  - destruct fuel, (length t); cbn [extract_days_fuel]; by rewrite Hs.
Qed.

(** Reading the days terminates and is the recursion that is written: with
    ["except"] in the text, the days before it less the days after it when both
    parts name days and some remain; otherwise the days that are listed. *)
Theorem extract_days_equation t :
  extract_days t =
  match split_once (lit "except") t with
  | None => non_empty_set (listed_days t)
  | Some (included, excluded) =>
      base ← extract_days included; exclusions ← extract_days excluded;
      non_empty_set (base ∖ exclusions)
  end.
Proof.
  destruct (split_once (lit "except") t) as [[a b]|] eqn:Hs.
  - destruct (split_except_shorter _ _ _ Hs) as [Ha Hb]. unfold extract_days at 1.
    destruct (length t) as [|n] eqn:Hn; [lia|]. cbn [extract_days_fuel]. rewrite Hs.
    by rewrite !extract_days_fuel_enough by lia.
  - unfold extract_days. destruct (length t); cbn [extract_days_fuel]; by rewrite Hs.
Qed.

Lemma day_index_range t d : day_index t = Some d → 0 <= d < 7.
Proof.
  unfold day_index. destruct (list_find _ _) as [[i x]|] eqn:Hf; [|done]. intros [= <-].
  apply list_find_Some in Hf as (Hi & _). apply lookup_lt_Some in Hi. simpl in Hi. lia.
Qed.

Lemma day_index_lower v : v ∈ lower_days → is_Some (day_index (lit v)).
Proof.
  intros Hv. unfold day_index.
  destruct (list_find_elem_of (λ d, lit d = lit v) lower_days v Hv eq_refl) as [[i x] ->]. by eexists.
Qed.

(** The groups of the patterns hold names of days. *)
Lemma day_groups_named t c :
  (c ∈ find_iter DAY_PATTERN t → is_Some (group_day 1 c))
  ∧ (c ∈ find_iter interval_pattern t → is_Some (group_day 1 c) ∧ is_Some (group_day 2 c)).
Proof.
  assert (∀ n x y, leads (Group n any_day) x y → is_Some (group_day n y)) as Hday.
  { intros n x y (v & Hv & Hg)%leads_group_word. unfold group_day. rewrite Hg. simpl.
    by apply day_index_lower. }
  split.
  - intros (b & t' & Hl)%find_iter_sound. destruct Hl as (m1 & _ & (m2 & Hg & [_ ->])). by eapply Hday.
  - intros (b & t' & Hl)%find_iter_sound.
    destruct Hl as (m1 & _ & m2 & Hg1 & m3 & Hs & m4 & Hw & m5 & Hs' & m6 & Hg2 & m7 & [_ ->] & ->).
    split; [|by eapply Hday]. unfold group_day.
    assert (group m6 1 = group m2 1) as ->.
    { transitivity (group m5 1); [by apply (leads_keeps_group 1 (Group 2 any_day))|].
      transitivity (group m4 1); [by apply (leads_keeps_group 1 spaces)|].
      transitivity (group m3 1); [by apply (leads_keeps_group 1 (any_word "-" ["to"; "through"]))|].
      by apply (leads_keeps_group 1 spaces). }
    by apply (Hday 1%nat m1 m2).
Qed.

Lemma day_span_range first last d : d ∈ day_span first last → 0 <= d < 7.
Proof. unfold day_span. rewrite list_elem_of_In, in_map_iff. intros (o & <- & _). by apply Z.mod_pos_bound. Qed.

Lemma listed_days_range t d : d ∈ listed_days t → 0 <= d < 7.
Proof.
  unfold listed_days. rewrite !elem_of_union, !elem_of_list_to_set, elem_of_union_list.
  intros [[Hi|Ho]|(s & Hs & Hd)].
  - apply list_elem_of_bind in Hi as (c & Hd & _). unfold interval_days in Hd.
    destruct (group_day 1 c), (group_day 2 c); try (by apply elem_of_nil in Hd).
    by eapply day_span_range.
  - apply list_elem_of_omap in Ho as (c & _ & Hd). unfold group_day in Hd.
    destruct (group c 1); [|done]. by eapply day_index_range.
  - apply list_elem_of_In, in_map_iff in Hs as ([r i] & <- & Hin). simpl in Hd.
    destruct (search r t); [|set_solver].
    assert (i = weekdays ∨ i = weekend ∨ i = every_day) as Hi.
    { simpl in Hin. repeat (destruct Hin as [[= <- <-]|Hin]; [tauto|]). done. }
    unfold weekdays, weekend, every_day in Hi. destruct Hi as [->|[->| ->]]; set_unfold; lia.
Qed.

Lemma extract_days_range t s d : extract_days t = Some s → s ≠ ∅ ∧ (d ∈ s → 0 <= d < 7).
Proof.
  remember (length t) as n eqn:Hn. revert t Hn s. induction n as [n IH] using lt_wf_ind.
  intros t -> s. rewrite extract_days_equation.
  assert (∀ x, non_empty_set x = Some s → x = s ∧ s ≠ ∅) as Hne.
  { intros x. unfold non_empty_set. case_decide; [done|]. by intros [= ->]. }
  destruct (split_once (lit "except") t) as [[a b]|] eqn:Hs.
  - destruct (split_except_shorter _ _ _ Hs) as [Ha Hb].
    destruct (extract_days a) as [base|] eqn:Hea; [|done].
    destruct (extract_days b) as [ex|]; [|done]. simpl. intros [<- ?]%Hne. split; [done|].
    intros [Hd _]%elem_of_difference. by eapply (IH _ Ha a eq_refl).
  - intros [<- ?]%Hne. split; [done|]. apply listed_days_range.
Qed.

Lemma extract_start_time_range t c :
  extract_start_time t = Some c →
  0 <= ct_hour c < 24 ∧ 0 <= ct_minute c < 60 ∧ c = local_time (ct_hour c) (ct_minute c).
Proof.
  unfold extract_start_time. destruct (search meridiem_time t) as [cu|].
  - destruct (_ && _ && _ && _) eqn:Hb; [|done]. intros [= <-]. simpl.
    rewrite !andb_true_iff, !Z.leb_le, Z.ltb_lt in Hb. split_and!; [..|done]; try lia.
    + destruct (_ && (_ <? _)); [lia|]. destruct (_ && (_ =? _)); lia.
    + destruct (bool_decide _ && (_ <? _)) eqn:H1.
      * rewrite andb_true_iff, Z.ltb_lt in H1. lia.
      * destruct (_ && (_ =? _)); lia.
  - destruct (search clock_pattern t) as [cu|]; [|done].
    destruct (_ && _ && _ && _) eqn:Hb; [|done]. intros [= <-]. simpl.
    rewrite !andb_true_iff, !Z.leb_le, !Z.ltb_lt in Hb. split_and!; try done; lia.
Qed.

Lemma between_range lo hi n : between lo hi n = true ↔ lo <= n <= hi.
Proof. unfold between. rewrite andb_true_iff, !Z.leb_le. lia. Qed.

Lemma first_duration_range l n : first_duration l = Ok (Some n) → 1 <= n <= 1440.
Proof.
  induction l as [|c l IH]; simpl; [done|]. destruct (overhead c); [done|].
  destruct (match_minutes c) as [m|]; [|done]. destruct (between 1 1440 m) eqn:Hb; [|done].
  intros [= <-]. by apply between_range.
Qed.

Lemma extract_duration_range t n : extract_duration t = Ok (Some n) → 1 <= n <= 1440.
Proof.
  unfold extract_duration. destruct (range_duration t) as [d|] eqn:Hr; [|apply first_duration_range].
  intros [= <-]. unfold range_duration in Hr. apply bind_Some in Hr as (c & _ & Hr).
  apply bind_Some in Hr as (a & _ & Hr). apply bind_Some in Hr as (b & _ & Hr). simpl in Hr.
  set (m := (minute_of_day b - minute_of_day a) mod 1440) in Hr.
  assert (0 <= m < 1440) by (by apply Z.mod_pos_bound).
  destruct (Z.eqb_spec m 0); [done|]. injection Hr as <-. lia.
Qed.

(** C26. Whatever the user writes, what is read from it is in range: the days are
    a non-empty set of week days, the start is a minute of the day without
    seconds or zone, and the duration is between one minute and one day. *)
Theorem extraction_in_bounds t :
  (∀ s, extract_days t = Some s → s ≠ ∅ ∧ ∀ d, d ∈ s → 0 <= d < 7)
  ∧ (∀ c, extract_start_time t = Some c →
       0 <= ct_hour c < 24 ∧ 0 <= ct_minute c < 60 ∧ c = local_time (ct_hour c) (ct_minute c))
  ∧ (∀ n, extract_duration t = Ok (Some n) → 1 <= n <= 1440).
Proof.
  split_and!; [|apply extract_start_time_range|apply extract_duration_range].
  intros s Hs. split; [by eapply (extract_days_range t s 0)|]. intros d. by eapply extract_days_range.
Qed.
End bounds.

(** ** Examples *)

Module Latin.
(** Only the en dash beyond ASCII. *)
#[export] Instance unicode : Unicode := {
  uni_word _ := false; uni_space _ := false; uni_decimal _ := None; uni_fold c := [c];
}.
End Latin.
#[local] Existing Instance Latin.unicode.

Lemma extraction_examples :
  extract_days (lit "weekdays except friday") = Some {[ 0; 1; 2; 3 ]}
  ∧ extract_days (lit "friday through monday") = Some {[ 0; 4; 5; 6 ]}
  ∧ extract_days (lit "someday") = None
  ∧ extract_start_time (lit "gym at 7:30 pm") = Some (local_time 19 30)
  ∧ extract_start_time (lit "12am") = Some (local_time 0 0)
  ∧ extract_duration (lit "11pm to 7am") = Ok (Some 480)
  ∧ extract_duration (lit "for 1.5 hours, 20 min commute") = Ok (Some 90)
  ∧ extract_duration (lit "20 min commute") = Ok None
  ∧ extract_minutes (lit "with a 20-minute commute") TRAVEL_KEYWORDS = Ok 0
  ∧ extract_minutes (lit "with a 20 minute commute") TRAVEL_KEYWORDS = Ok 20
  ∧ extract_flexibility (lit "this is non-negotiable") = RoutineFlexibility.FIXED.
Proof. vm_compute. done. Qed.
