(* ===== verification/Interview.v ===== *)
(** * The life interview ([life_interview.py], [LifeInterview])

    One question at a time, chosen from what the Life Model does not yet know;
    each answer is saved as governed memory together with the interview's own
    position, in one transaction.  Parameters: the identity [session_id] derived
    from the subject, the repository's [clock], which stands still during one
    operation, the identity [new_id] that [uuid4] yields, and how stored content
    is folded for comparison. *)

From stdpp Require Import prelude base strings list gmap pretty.
From Stdlib Require Import ZArith Lia QArith NArith.
From S2P Require Import Prelude PyTime PyText PyUuid Transactions AuditLedger Knowledge Memory LifeModel PyRe RoutineText InterviewCatalog.
#[local] Open Scope string_scope.
#[local] Open Scope list_scope.
#[local] Open Scope Z_scope.

Inductive InterviewError :=
| InterviewValueError (message : string)
| InterviewMemory (e : MemoryError)
| InterviewNumber (e : NumberError)
| InterviewValidation (e : KnowledgeError)
| InterviewStopIteration
| InterviewKeyError.

Inductive question_mode := ASK | REVIEW | PERMISSION | CONFIRM.
#[export] Instance question_mode_eq_dec : EqDecision question_mode.
Proof. solve_decision. Defined.

Inductive interview_action := ANSWER | SKIP | PAUSE | RESUME.
#[export] Instance interview_action_eq_dec : EqDecision interview_action.
Proof. solve_decision. Defined.

Record InterviewQuestion := {
  iq_key : string;
  iq_domain : LifeDomain.t;
  iq_prompt : string;
  iq_mode : question_mode;
  iq_evidence_ids : list uuid;
}.

Record DomainProgress := {
  dp_domain : LifeDomain.t;
  dp_known : Z;
  dp_total : Z;
  dp_skipped : bool;
}.

Record InterviewReply := {
  ir_session_id : uuid;
  ir_revision : Z;
  ir_phase : phase;
  ir_question : option InterviewQuestion;
  ir_progress : list DomainProgress;
  ir_acknowledgment : string;
}.

Definition MAX_ANSWER_CHARACTERS : Z := 8000.

Definition CONFIRM_PHRASES : list string :=
  ["yes"; "yep"; "yeah"; "yup"; "correct"; "right"; "exactly"; "confirmed"; "confirm";
   "that's right"; "that is right"; "that's correct"; "that is correct"; "sounds right";
   "sounds good"; "looks good"; "looks right"; "sure"; "ok"; "okay"; "fine"; "good";
   "yes that's right"; "yes correct"; "yes that's correct"; "that works"; "works for me"; "perfect"].
Definition UNKNOWN_PHRASES : list string := ["i don't know"; "not sure"; "unknown"].

Definition all_topics : list InterviewTopic := WEEK_PLANNING_TOPICS ++ TOPICS.

Section drafts.
Context `{Unicode} (timezone : string).
Open Scope py_scope.

Definition number {A : Type} (r : result NumberError A) : result InterviewError A :=
  match r with Ok a => Ok a | Err e => Err (InterviewNumber e) end.
Definition valid {A : Type} (r : result KnowledgeError A) : result InterviewError A :=
  match r with Ok a => Ok a | Err e => Err (InterviewValidation e) end.

(** The dictionary of what was found; the time zone is always set. *)
Record routine_fields := {
  rf_days : option (gset Z);
  rf_start_time : option clock_time;
  rf_duration_minutes : option Z;
  rf_travel_minutes : option Z;
  rf_preparation_minutes : option Z;
  rf_transition_minutes : option Z;
  rf_flexibility : option RoutineFlexibility.t;
}.

(** [if minutes:] *)
Definition truthy (n : Z) : option Z := if n =? 0 then None else Some n.

Definition extract_routine_fields (t : text) : result InterviewError routine_fields :=
  let lowered := casefold t in
  let* duration := number (extract_duration lowered) in
  let* travel := number (extract_minutes lowered TRAVEL_KEYWORDS) in
  let* preparation := number (extract_minutes lowered PREPARATION_KEYWORDS) in
  let* transition := number (extract_minutes lowered TRANSITION_KEYWORDS) in
  let flexibility := extract_flexibility lowered in
  Ok {| rf_days := extract_days lowered; rf_start_time := extract_start_time lowered;
        rf_duration_minutes := duration; rf_travel_minutes := truthy travel;
        rf_preparation_minutes := truthy preparation; rf_transition_minutes := truthy transition;
        rf_flexibility :=
          if negb (bool_decide (flexibility = RoutineFlexibility.PREFERRED))
             || contains (lit "preferred") lowered
          then Some flexibility else None |}.

(** [RoutineDraft(timezone=...)] *)
Definition empty_draft : RoutineDraft :=
  {| dr_days := None; dr_start_time := None; dr_duration_minutes := None; dr_timezone := timezone;
     dr_flexibility := RoutineFlexibility.PREFERRED; dr_travel_minutes := 0;
     dr_preparation_minutes := 0; dr_transition_minutes := 0 |}.

(** [RoutineDraft.model_validate(previous.model_dump() | fields)] *)
Definition merge_draft (previous : RoutineDraft) (f : routine_fields) :
    result InterviewError RoutineDraft :=
  let d := {| dr_days := match rf_days f with Some x => Some x | None => dr_days previous end;
              dr_start_time :=
                match rf_start_time f with Some x => Some x | None => dr_start_time previous end;
              dr_duration_minutes :=
                match rf_duration_minutes f with
                | Some x => Some x | None => dr_duration_minutes previous
                end;
              dr_timezone := timezone;
              dr_flexibility := default (dr_flexibility previous) (rf_flexibility f);
              dr_travel_minutes := default (dr_travel_minutes previous) (rf_travel_minutes f);
              dr_preparation_minutes :=
                default (dr_preparation_minutes previous) (rf_preparation_minutes f);
              dr_transition_minutes :=
                default (dr_transition_minutes previous) (rf_transition_minutes f) |} in
  let* _ := valid (validate_draft d) in Ok d.

Definition build_routine (f : routine_fields) : result InterviewError RoutineDraft :=
  merge_draft empty_draft f.

Definition parse_routine (t : text) : result InterviewError RoutineDraft :=
  let* f := extract_routine_fields t in build_routine f.

(** [strftime("%I:%M %p").lstrip("0")] *)
Definition clock_text (t : clock_time) : string :=
  let h := ct_hour t mod 12 in
  pretty (if h =? 0 then 12 else h) +:+ ":" +:+ pad 2 (ct_minute t)
  +:+ (if ct_hour t <? 12 then " AM" else " PM").

(** [_DAY_NAMES_BY_INDEX[i] for i in ...] *)
Fixpoint named_days (l : list Z) : result InterviewError (list string) :=
  match l with
  | [] => Ok []
  | d :: l' =>
      match (if (0 <=? d) then day_names !! Z.to_nat d else None) with
      | None => Err InterviewKeyError
      | Some name => let* rest := named_days l' in Ok (name :: rest)
      end
  end.

Definition overhead_part (name : string) (minutes : Z) : list string :=
  if minutes =? 0 then [] else [pretty minutes +:+ " minutes " +:+ name].

Definition routine_summary (d : RoutineDraft) : result InterviewError string :=
  let* names := named_days (py_sorted Z.ltb (elements (default ∅ (dr_days d)))) in
  let days := join ", " names in
  let start := match dr_start_time d with Some t => clock_text t | None => "unspecified time" end in
  let gaps := missing d in
  Ok (join "; "
        ([(if String.eqb days "" then "unspecified days" else days) +:+ " at " +:+ start]
         ++ match dr_duration_minutes d with Some n => [pretty n +:+ " minutes"] | None => [] end
         ++ overhead_part "travel" (dr_travel_minutes d)
         ++ overhead_part "preparation" (dr_preparation_minutes d)
         ++ overhead_part "transition" (dr_transition_minutes d)
         ++ [RoutineFlexibility.value (dr_flexibility d) +:+ " timing; timezone "
             +:+ dr_timezone d]
         ++ match gaps with [] => [] | _ => ["Still needed: " +:+ join ", " gaps] end)).
End drafts.

(** ** Choosing the question *)

Section question.
Context (state : InterviewProgress) (views : list KnowledgeView).

Definition details_of (v : KnowledgeView) : option KnowledgeDetails := mr_knowledge (kv_record v).
Definition with_details (f : KnowledgeDetails → bool) (v : KnowledgeView) : bool :=
  match details_of v with Some k => f k | None => false end.

Definition awaiting (key : string) (v : KnowledgeView) : bool :=
  with_details (λ k, String.eqb (kd_key k) key && has (kd_pending_confirmation k)) v.

Definition pending_draft (v : KnowledgeView) : option RoutineDraft :=
  k ← details_of v; kd_pending_confirmation k.

Definition confirm_prompt (summary : string) : string :=
  "I understood: " +:+ summary +:+ ". Is this correct? "
  +:+ "Say 'yes' to confirm these details and allow planning, " +:+ "or tell me what to change.".

(** The question that confirms the pending routine, if it is still pending. *)
Definition confirm_question : result InterviewError (option InterviewQuestion) :=
  match ip_pending_confirmation_key state with
  | None => Ok None
  | Some key =>
      match List.find (awaiting key) views with
      | None => Ok None
      | Some v =>
          match pending_draft v with
          | None => Ok None
          | Some draft =>
              match topic_named all_topics key with
              | None => Err InterviewStopIteration
              | Some t =>
                  match routine_summary draft with
                  | Err e => Err e
                  | Ok summary =>
                      Ok (Some {| iq_key := it_key t; iq_domain := it_domain t;
                                  iq_prompt := confirm_prompt summary; iq_mode := CONFIRM;
                                  iq_evidence_ids := [mr_memory_id (kv_record v)] |})
                  end
              end
          end
      end
  end.

Definition unsuperseded (k : KnowledgeDetails) : bool := negb (has (kd_superseded_by k)).

Definition open_loops : list KnowledgeView :=
  List.filter (with_details (λ k, bool_decide (kd_kind k = KnowledgeKind.OPEN_LOOP)
                                  && unsuperseded k)) views.

Definition evidence_about (key : string) : list KnowledgeView :=
  List.filter (λ v, with_details (λ k, String.eqb (kd_key k) key && unsuperseded k
                                       && (kv_current v || has (kd_source_evidence k))) v) views.

(** Current explicit or connected evidence outranks imported summaries. *)
Definition authoritative (v : KnowledgeView) : bool :=
  kv_current v
  && bool_decide (mp_source (mr_provenance (kv_record v)) ∈
       [MemorySource.USER_STATEMENT; MemorySource.USER_CORRECTION; MemorySource.CONNECTED_SYSTEM])
  && bool_decide (kv_state v ∈ [KnowledgeState.CONFIRMED; KnowledgeState.OBSERVED]).

Definition prefer_authoritative (relevant : list KnowledgeView) : list KnowledgeView :=
  match List.filter authoritative relevant with [] => relevant | l => l end.

Definition understood (v : KnowledgeView) : bool :=
  kv_current v && bool_decide (kv_state v = KnowledgeState.CONFIRMED)
  && Qle_bool MIN_CONFIDENCE (mr_confidence (kv_record v)).

Definition private_topic (t : InterviewTopic) (relevant : list KnowledgeView) : bool :=
  bool_decide (it_domain t ∈ SENSITIVE_DOMAINS)
  || existsb (with_details (λ k, negb (bool_decide (kd_sensitivity k = Sensitivity.PERSONAL)))) relevant.

Definition permission_question (d : LifeDomain.t) : InterviewQuestion :=
  {| iq_key := "permission." +:+ LifeDomain.value d; iq_domain := d; iq_mode := PERMISSION;
     iq_prompt := "May I use your saved " +:+ LifeDomain.value d +:+ " context? "
                  +:+ "It's optional. Say yes or skip; you can leave out any details.";
     iq_evidence_ids := [] |}.

Definition note_text (v : KnowledgeView) : string :=
  explanation v +:+ " The note says: “" +:+ mr_content (kv_record v) +:+ "”.".

Definition review_question (t : InterviewTopic) (relevant : list KnowledgeView) : InterviewQuestion :=
  {| iq_key := it_key t; iq_domain := it_domain t; iq_mode := REVIEW;
     iq_prompt := "I'd like to check something rather than assume. "
                  +:+ join " " (map note_text (take 3 relevant)) +:+ " " +:+ it_prompt t;
     iq_evidence_ids := map (λ v, mr_memory_id (kv_record v)) (take 3 relevant) |}.

Definition ask_question (t : InterviewTopic) : InterviewQuestion :=
  {| iq_key := it_key t; iq_domain := it_domain t; iq_prompt := it_prompt t; iq_mode := ASK;
     iq_evidence_ids := [] |}.

Definition loops_known (t : InterviewTopic) : bool := String.eqb (it_key t) "open_loops.known".
Definition loops_else (t : InterviewTopic) : bool := String.eqb (it_key t) "open_loops.else".
Definition is_nil {A : Type} (l : list A) : bool := match l with [] => true | _ => false end.

(** What the loop does for one topic: a question, or [None] for [continue]. *)
Definition consider (t : InterviewTopic) : option InterviewQuestion :=
  if bool_decide (it_key t ∈ ip_skipped_keys state)
     || bool_decide (it_domain t ∈ ip_skipped_domains state) then None
  else if loops_known t
          && (bool_decide (ip_last_question_key state = Some (it_key t)) || is_nil open_loops) then None
  else
    let relevant := prefer_authoritative
                      (if loops_known t then open_loops else evidence_about (it_key t)) in
    if private_topic t relevant && negb (bool_decide (it_domain t ∈ ip_permitted_domains state))
    then Some (permission_question (it_domain t))
    else if negb (is_nil relevant) && forallb understood relevant
            && (negb (loops_else t) || ip_sweep_complete state) then None
    else if negb (is_nil relevant) && negb (loops_else t)
    then Some (review_question t relevant)
    else Some (ask_question t).

Definition topics_for : list InterviewTopic :=
  match ip_objective state with WEEK_PLANNING => WEEK_PLANNING_TOPICS | UNDERSTANDING => TOPICS end.

Definition next_topic_question : option InterviewQuestion := head (omap consider topics_for).
End question.

Definition choose_question (state : InterviewProgress) (views : list KnowledgeView) :
    result InterviewError (option InterviewQuestion) :=
  match confirm_question state views with
  | Err e => Err e
  | Ok (Some q) => Ok (Some q)
  | Ok None => Ok (next_topic_question state views)
  end.

(** ** The interview *)

Section interview.
Context (hmac : string → string → string) (audit_key : string) (zone_known : string → bool).
Context `{RecordCodec} `{Unicode} (fold_content strip_content : string → string).
Context (subject_id timezone : string) (session_id : uuid).
Abbreviation I A := (comp (connection memory_db) InterviewError A).
Open Scope py_scope.

Definition lift_error {A : Type} (r : result MemoryError A) : result InterviewError A :=
  match r with Ok a => Ok a | Err e => Err (InterviewMemory e) end.
Definition lift {A : Type} (m : comp (connection memory_db) MemoryError A) : I A := λ c,
  let '(c', r) := m c in (c', lift_error r).
Definition pure {A : Type} (r : result InterviewError A) : I A := query (λ _, r).
Definition value_error {A : Type} (message : string) : I A := throw (InterviewValueError message).

Definition provenance (ctx : TransitionContext) (correction : bool) : MemoryProvenance :=
  {| mp_source := if correction then MemorySource.USER_CORRECTION else MemorySource.USER_STATEMENT;
     mp_source_id := "interview:" +:+ tc_correlation_id ctx; mp_captured_at := tc_occurred_at ctx |}.

(** [MemoryCorrection(...)], then [MemoryRepository.correct]. *)
Definition submit (id : uuid) (m : MemoryCorrection) (ctx : TransitionContext) : I MemoryRecord :=
  pure (valid (validate_correction_fields m)) ≫= λ _, lift (correct hmac audit_key id m ctx).

(** [MemoryRecord(...)], then [MemoryRepository.remember]. *)
Definition record_new (r : MemoryRecord) (ctx : TransitionContext) : I unit :=
  pure (lift_error (built r)) ≫= λ r, lift (remember hmac audit_key r ctx).

Section operation.
Context (clock : datetime) (new_id : uuid).

Definition private_records (db : memory_db) : result InterviewError (list MemoryRecord) :=
  lift_error (retrieve RetrievalScope.PRIVATE clock db).

Definition session (db : memory_db) : result InterviewError (option MemoryRecord) :=
  let* records := private_records db in
  Ok (List.find (λ r, (mr_memory_id r =? session_id) && has (mr_interview r)) records).

(** [{r.memory_id: r ...}[id]] *)
Definition by_id (records : list MemoryRecord) (id : uuid) : option MemoryRecord :=
  List.find (λ r, mr_memory_id r =? id) (reverse records).
Definition item (records : list MemoryRecord) (id : uuid) : result InterviewError MemoryRecord :=
  match by_id records id with Some r => Ok r | None => Err InterviewKeyError end.
Fixpoint items (records : list MemoryRecord) (ids : list uuid) :
    result InterviewError (list MemoryRecord) :=
  match ids with
  | [] => Ok []
  | id :: rest => let* r := item records id in let* l := items records rest in Ok (r :: l)
  end.

Definition all_views (now : datetime) (db : memory_db) : result InterviewError (list KnowledgeView) :=
  lift_error (knowledge fold_content strip_content subject_id RetrievalScope.PRIVATE clock now db).

(** [_question] *)
Definition question (state : InterviewProgress) (now : datetime) (db : memory_db) :
    result InterviewError (option InterviewQuestion) :=
  match ip_phase state with
  | PhasePaused => Ok None
  | _ => let* views := all_views now db in choose_question state views
  end.

Definition count {A : Type} (f : A → bool) (l : list A) : Z := Z.of_nat (length (List.filter f l)).

Definition known_keys (views : list KnowledgeView) : list string :=
  omap (λ v, if understood v then kd_key <$> details_of v else None) views.

Definition domain_progress (state : InterviewProgress) (views : list KnowledgeView) (d : LifeDomain.t) :
    DomainProgress :=
  {| dp_domain := d;
     dp_known := count (λ t, bool_decide (it_domain t = d)
                             && bool_decide (it_key t ∈ known_keys views)) TOPICS;
     dp_total := count (λ t, bool_decide (it_domain t = d)) TOPICS;
     dp_skipped := bool_decide (d ∈ ip_skipped_domains state) |}.

(** [_reply] *)
Definition reply (r : MemoryRecord) (now : datetime) (acknowledgment : string) (db : memory_db) :
    result InterviewError InterviewReply :=
  match mr_interview r with
  | None => Err (InterviewValueError "invalid interview state")
  | Some state =>
      let* views := all_views now db in
      let* q := question state now db in
      Ok {| ir_session_id := mr_memory_id r; ir_revision := mr_revision r;
            ir_phase := ip_phase state; ir_question := q;
            ir_progress := map (domain_progress state views) LifeDomain.all;
            ir_acknowledgment := acknowledgment |}
  end.

(** The correction that replaces the interview's own position. *)
Definition position_correction (r : MemoryRecord) (state : InterviewProgress)
    (ctx : TransitionContext) : MemoryCorrection :=
  {| mc_expected_revision := mr_revision r; mc_content := mr_content r;
     mc_provenance := provenance ctx false; mc_confidence := 1;
     mc_retrieval_scopes := mr_retrieval_scopes r; mc_retain_until := None; mc_knowledge := None;
     mc_interview := Some state |}.

Definition new_progress (o : objective) : InterviewProgress :=
  {| ip_subject_id := subject_id; ip_objective := o; ip_phase := PhaseActive; ip_skipped_keys := ∅;
     ip_permitted_domains := ∅; ip_skipped_domains := ∅; ip_last_question_key := None;
     ip_pending_confirmation_key := None; ip_sweep_complete := false |}.

Definition new_session (o : objective) (ctx : TransitionContext) : MemoryRecord :=
  {| mr_memory_id := session_id; mr_category := MemoryCategory.INTERVIEW;
     mr_content := "Know Me interview"; mr_provenance := provenance ctx false; mr_confidence := 1;
     mr_retrieval_scopes := {[ RetrievalScope.PRIVATE ]}; mr_created_at := tc_occurred_at ctx;
     mr_retain_until := None; mr_revision := 1; mr_knowledge := None;
     mr_interview := Some (new_progress o) |}.

Definition begin (ctx : TransitionContext) (o : option objective) : I InterviewReply :=
  query session ≫= λ s,
  (match s with
   | None =>
       let r := new_session (default UNDERSTANDING o) ctx in
       pure (valid (validate_progress (new_progress (default UNDERSTANDING o)))) ≫= λ _,
       record_new r ctx ≫= λ _, mret r
   | Some r =>
       match o, mr_interview r with
       | Some o', Some state =>
           if bool_decide (ip_objective state = o') then mret r
           else submit (mr_memory_id r)
                  (position_correction r (set_phase PhaseActive (set_objective o' state)) ctx) ctx
       | _, _ => mret r
       end
   end) ≫= λ r,
  query (reply r (tc_occurred_at ctx) "We can take this at your pace.").

(** *** Answers *)

Definition normalized (clean : text) : text := rstrip_if (one_of ".!?") (casefold clean).
Definition among (t : text) (phrases : list string) : bool := bool_decide (t ∈ map lit phrases).
Definition acceptable (clean : text) : bool :=
  negb (is_nil clean) && (Z.of_nat (length clean) <=? MAX_ANSWER_CHARACTERS).
Definition answer_length_error : string := "answer must contain between 1 and 8000 characters".

(** [_permission] *)
Definition permission (state : InterviewProgress) (d : LifeDomain.t) (answer : text) :
    result InterviewError InterviewProgress :=
  if among answer ["yes"; "yes please"; "yes, please"; "include it"] then Ok (permit_domain d state)
  else if among answer ["no"; "skip"; "not now"; "no thanks"; "no, thanks"]
  then Ok (skip_domain d state)
  else Err (InterviewValueError "please say yes or skip for this optional topic").

(** The correction of a record under review, everything else kept. *)
Definition revise (r : MemoryRecord) (content : string) (confidence : Q) (k : KnowledgeDetails)
    (ctx : TransitionContext) : MemoryCorrection :=
  {| mc_expected_revision := mr_revision r; mc_content := content;
     mc_provenance := provenance ctx true; mc_confidence := confidence;
     mc_retrieval_scopes := mr_retrieval_scopes r; mc_retain_until := None;
     mc_knowledge := Some k; mc_interview := None |}.

(** [_resolve_pending] *)
Definition resolve_pending (q : InterviewQuestion) (confirmed : bool) (ctx : TransitionContext) :
    I unit :=
  match iq_evidence_ids q with
  | [] => mret tt
  | id :: _ =>
      query private_records ≫= λ records,
      match by_id records id with
      | None => mret tt
      | Some r =>
          match mr_knowledge r with
          | None => mret tt
          | Some k =>
              match kd_pending_confirmation k with
              | None => mret tt
              | Some draft =>
                  (if confirmed then
                     pure (valid (routine_of_draft zone_known draft)) ≫= λ routine,
                     let allowed := bool_decide (RetrievalScope.PLANNING ∈ mr_retrieval_scopes r) in
                     mret (with_routine routine (tc_occurred_at ctx) allowed k, 1%Q)
                   else mret (with_pending None k, mr_confidence r)) ≫= λ kc,
                  submit (mr_memory_id r) (revise r (mr_content r) kc.2 kc.1 ctx) ctx ≫= λ _, mret tt
              end
          end
      end
  end.

(** [_reparse_pending] *)
Definition reparse_pending (q : InterviewQuestion) (t : text) (ctx : TransitionContext) : I string :=
  match iq_evidence_ids q with
  | [] => mret ""
  | id :: _ =>
      query private_records ≫= λ records,
      match by_id records id with
      | None => mret ""
      | Some r =>
          match mr_knowledge r with
          | None => mret ""
          | Some k =>
              pure (let* f := extract_routine_fields t in
                    match kd_pending_confirmation k with
                    | Some previous => merge_draft timezone previous f
                    | None => build_routine timezone f
                    end) ≫= λ routine,
              submit (mr_memory_id r)
                (revise r (mr_content r +:+ String (Ascii.ascii_of_nat 10) "Correction: " +:+ utf8 t)
                   (1 # 2) (with_pending (Some routine) k) ctx) ctx ≫= λ _,
              pure (routine_summary routine)
          end
      end
  end.

(** The [skip] branch of [_confirm]. *)
Definition confirm_skip (state : InterviewProgress) (q : InterviewQuestion) (ctx : TransitionContext) :
    I (InterviewProgress * string) :=
  resolve_pending q false ctx ≫= λ _,
  mret (skip_key (iq_key q) (set_pending None state),
        "Of course. I'll keep that as a note without scheduling it.").

Definition pending_of (r : MemoryRecord) : option RoutineDraft :=
  k ← mr_knowledge r; kd_pending_confirmation k.

(** The [_CONFIRM_PHRASES] branch of [_confirm]. *)
Definition confirm_yes (state : InterviewProgress) (q : InterviewQuestion) (ctx : TransitionContext) :
    I (InterviewProgress * string) :=
  query private_records ≫= λ records,
  pure (match iq_evidence_ids q with [] => Err InterviewKeyError | id :: _ => item records id end)
  ≫= λ r,
  match pending_of r with
  | Some draft =>
      if is_nil (missing draft) then
        resolve_pending q true ctx ≫= λ _,
        mret (set_pending None state,
              "I've confirmed your routine. Planning will respect its existing privacy limits.")
      else mret (set_pending (Some (iq_key q)) state,
                 "I still need the missing scheduling details before you can confirm. "
                 +:+ "You can also skip and keep this as a note.")
  | None => mret (set_pending (Some (iq_key q)) state,
                  "I still need the missing scheduling details before you can confirm. "
                  +:+ "You can also skip and keep this as a note.")
  end.

(** [_confirm] *)
Definition confirm (state : InterviewProgress) (q : InterviewQuestion) (t : text)
    (action : interview_action) (ctx : TransitionContext) : I (InterviewProgress * string) :=
  if bool_decide (action = SKIP) then confirm_skip state q ctx
  else
    let clean := strip t in
    if negb (acceptable clean) then value_error answer_length_error
    else if among (normalized clean)
              ["no"; "no thanks"; "not now"; "don't plan this"; "do not plan this"]
    then confirm_skip state q ctx
    else if among (normalized clean) CONFIRM_PHRASES then confirm_yes state q ctx
    else
      reparse_pending q clean ctx ≫= λ summary,
      mret (set_pending (Some (iq_key q)) state,
            "Got it. I understood: " +:+ summary +:+ ". Is this correct? "
            +:+ "Say 'yes' to confirm these details and allow planning, or tell me what to change.").

(** *** Saving an answer *)

Definition answer_unknown (t : text) : bool := among (normalized t) UNKNOWN_PHRASES.

Definition topic_of (key : string) : result InterviewError InterviewTopic :=
  match topic_named all_topics key with Some t => Ok t | None => Err InterviewStopIteration end.

(** The assertion an answer makes. *)
Definition answer_details (tp : InterviewTopic) (unknown : bool) (now : datetime) : KnowledgeDetails :=
  {| kd_subject_id := subject_id; kd_key := it_key tp;
     kd_cardinality := if bool_decide (it_kind tp = KnowledgeKind.OPEN_LOOP) then MANY else ONE;
     kd_domain := it_domain tp; kd_kind := it_kind tp;
     kd_state := if unknown then KnowledgeState.UNKNOWN else KnowledgeState.CONFIRMED;
     kd_observed_at := now; kd_last_confirmed_at := if unknown then None else Some now;
     kd_valid_from := Some now; kd_valid_until := None;
     kd_expected_staleness_days :=
       if bool_decide (it_domain tp = LifeDomain.NOW) then Some 7 else it_staleness_days tp;
     kd_sensitivity := if bool_decide (it_domain tp ∈ SENSITIVE_DOMAINS) then Sensitivity.SENSITIVE
                       else Sensitivity.PERSONAL;
     kd_importance := it_importance tp; kd_related_entity_ids := []; kd_related_goal_ids := [];
     kd_related_project_ids := []; kd_evidence_ids := []; kd_conflicts_with := [];
     kd_planning_allowed := false; kd_source_evidence := None; kd_superseded_by := None;
     kd_routine := None; kd_pending_confirmation := None; kd_project := None;
     kd_open_loop := if bool_decide (it_kind tp = KnowledgeKind.OPEN_LOOP) then Some inbox_loop
                     else None |}.

Record draft_answer := {
  da_details : KnowledgeDetails;
  da_scopes : gset RetrievalScope.t;
  da_confidence : Q;
  da_pending : bool;
}.

Definition spoken_scopes : gset RetrievalScope.t :=
  {[ RetrievalScope.PRIVATE; RetrievalScope.CONVERSATION ]}.

(** What is saved for an answer before any evidence is considered. *)
Definition draft_of_answer (tp : InterviewTopic) (t : text) (ctx : TransitionContext) :
    result InterviewError draft_answer :=
  let unknown := answer_unknown t in
  let details := answer_details tp unknown (tc_occurred_at ctx) in
  let* _ := valid (validate_details zone_known details) in
  if bool_decide (it_kind tp = KnowledgeKind.ROUTINE) && negb unknown then
    let* draft := parse_routine timezone t in
    Ok {| da_details := with_pending (Some draft) (with_planning false details);
          da_scopes := {[ RetrievalScope.PLANNING ]} ∪ spoken_scopes;
          da_confidence := 1 # 2; da_pending := true |}
  else if (String.eqb (it_key tp) "work.schedule" || String.eqb (it_key tp) "planning.fixed_commitments")
          && negb unknown then
    Ok {| da_details := with_planning true details;
          da_scopes := {[ RetrievalScope.PLANNING ]} ∪ spoken_scopes;
          da_confidence := 1; da_pending := false |}
  else
    Ok {| da_details := details; da_scopes := spoken_scopes;
          da_confidence := if unknown then 0 else 1; da_pending := false |}.

Definition sensitivities (sources : list MemoryRecord) : list Sensitivity.t :=
  omap (λ r, kd_sensitivity <$> mr_knowledge r) sources.

(** A source shared with conversations may inform planning. *)
Definition source_scopes (r : MemoryRecord) : gset RetrievalScope.t :=
  if bool_decide (RetrievalScope.CONVERSATION ∈ mr_retrieval_scopes r)
  then {[ RetrievalScope.PLANNING ]} ∪ mr_retrieval_scopes r else mr_retrieval_scopes r.

(** The most restrictive classification among the sources, when not personal. *)
Definition raised_sensitivity (sources : list MemoryRecord) : option Sensitivity.t :=
  if bool_decide (Sensitivity.RESTRICTED ∈ sensitivities sources) then Some Sensitivity.RESTRICTED
  else if bool_decide (Sensitivity.SENSITIVE ∈ sensitivities sources)
  then Some Sensitivity.SENSITIVE else None.

(** Reviewing must not widen the scope or lower the classification. *)
Definition narrow (a : draft_answer) (sources : list MemoryRecord) : draft_answer :=
  let scopes := foldl (λ acc r, acc ∩ source_scopes r) (da_scopes a) sources in
  match raised_sensitivity sources with
  | Some s => {| da_details := with_sensitivity s (da_details a);
                 da_scopes := {[ RetrievalScope.PRIVATE ]};
                 da_confidence := da_confidence a; da_pending := da_pending a |}
  | None => {| da_details := da_details a; da_scopes := scopes;
               da_confidence := da_confidence a; da_pending := da_pending a |}
  end.

Definition new_answer (a : draft_answer) (t : text) (k : KnowledgeDetails) (correction : bool)
    (ctx : TransitionContext) : MemoryRecord :=
  {| mr_memory_id := new_id; mr_category := MemoryCategory.PROFILE; mr_content := utf8 t;
     mr_provenance := provenance ctx correction; mr_confidence := da_confidence a;
     mr_retrieval_scopes := da_scopes a; mr_created_at := tc_occurred_at ctx;
     mr_retain_until := None; mr_revision := 1; mr_knowledge := Some k; mr_interview := None |}.

Definition imported (r : MemoryRecord) : bool :=
  match mr_knowledge r with Some k => has (kd_source_evidence k) | None => false end.

(** An ambiguous answer or inbox sweep does not resolve historical claims. *)
Definition supersedes (k : KnowledgeDetails) : bool :=
  bool_decide (kd_state k = KnowledgeState.CONFIRMED)
  && negb (bool_decide (kd_kind k = KnowledgeKind.OPEN_LOOP)).

Definition superseded_correction (r : MemoryRecord) (k : KnowledgeDetails) : MemoryCorrection :=
  {| mc_expected_revision := mr_revision r; mc_content := mr_content r;
     mc_provenance := mr_provenance r; mc_confidence := mr_confidence r;
     mc_retrieval_scopes := mr_retrieval_scopes r; mc_retain_until := mr_retain_until r;
     mc_knowledge := Some (with_successor new_id k); mc_interview := None |}.

(** One source of [_save_reconciliation]'s loop, at its evidence id. *)
Definition supersede (a : draft_answer) (ctx : TransitionContext) (source : uuid * MemoryRecord) :
    I unit :=
  match mr_knowledge source.2 with
  | Some k => if supersedes (da_details a)
              then submit source.1 (superseded_correction source.2 k) ctx ≫= λ _, mret tt else mret tt
  | None => mret tt
  end.

(** [_save_reconciliation]; raising the classification again changes nothing
    that [narrow] has not done. *)
Definition save_reconciliation (q : InterviewQuestion) (t : text) (a : draft_answer)
    (sources : list MemoryRecord) (ctx : TransitionContext) : I unit :=
  let a := match raised_sensitivity sources with
           | Some s => {| da_details := with_sensitivity s (da_details a);
                          da_scopes := {[ RetrievalScope.PRIVATE ]};
                          da_confidence := da_confidence a; da_pending := da_pending a |}
           | None => a
           end in
  for_each (supersede a ctx) (zip (iq_evidence_ids q) sources) ≫= λ _,
  record_new (new_answer a t (with_evidence (iq_evidence_ids q) (da_details a)) true ctx) ctx.

Definition replace_answer (a : draft_answer) (t : text) (first : MemoryRecord)
    (ctx : TransitionContext) : MemoryCorrection :=
  {| mc_expected_revision := mr_revision first; mc_content := utf8 t;
     mc_provenance := provenance ctx true; mc_confidence := da_confidence a;
     mc_retrieval_scopes := da_scopes a; mc_retain_until := None;
     mc_knowledge := Some (da_details a); mc_interview := None |}.

Definition forget (ctx : TransitionContext) (source : uuid * MemoryRecord) : I unit :=
  lift (delete_record hmac audit_key source.1 (mr_revision source.2) ctx).

(** [_save_answer]; the result says whether a routine awaits confirmation. *)
Definition save_answer (q : InterviewQuestion) (t : text) (ctx : TransitionContext) : I bool :=
  pure (topic_of (iq_key q)) ≫= λ tp,
  pure (draft_of_answer tp t ctx) ≫= λ a,
  match iq_evidence_ids q with
  | [] => record_new (new_answer a t (da_details a) false ctx) ctx ≫= λ _, mret (da_pending a)
  | first :: others =>
      query private_records ≫= λ records,
      pure (items records (iq_evidence_ids q)) ≫= λ sources,
      let a := narrow a sources in
      (if existsb imported sources then save_reconciliation q t a sources ctx
       else match sources with
            | [] => mret tt
            | r :: rest =>
                submit first (replace_answer a t r ctx) ctx ≫= λ _,
                for_each (forget ctx) (zip others rest)
            end) ≫= λ _,
      mret (da_pending a)
  end.

(** What skipping a question does to the position. *)
Definition after_skip (q : InterviewQuestion) (state : InterviewProgress) : InterviewProgress :=
  let skipped := skip_key (iq_key q) (set_last_key (iq_key q) state) in
  if bool_decide (iq_mode q = PERMISSION) then skip_domain (iq_domain q) skipped else skipped.

(** [_respond]: the position with its updates, and the acknowledgment. *)
Definition respond_answer (state : InterviewProgress) (q : InterviewQuestion) (clean : text)
    (ctx : TransitionContext) : I (InterviewProgress * string) :=
  let said := normalized clean in
  if String.eqb (iq_key q) "open_loops.else"
     && among said ["the sweep is complete"; "sweep complete"; "nothing else"; "that's everything"]
  then mret (skip_key (iq_key q) (set_sweep state),
             "Your inbox is ready for clarification whenever you are.")
  else
    save_answer q clean ctx ≫= λ pending : bool,
    let state := if String.eqb (iq_key q) "open_loops.known" then skip_key (iq_key q) state else state in
    let state := if among said UNKNOWN_PHRASES then skip_key (iq_key q) state
                 else if pending then set_pending (Some (iq_key q)) state else state in
    mret (state,
      if String.eqb (iq_key q) "work.schedule" then
        "I noted your work schedule but couldn't automatically schedule it — "
        +:+ "you can use 'Plan My Week' to manually place it."
      else if String.eqb (iq_key q) "planning.fixed_commitments" then
        "I noted your fixed commitments but couldn't automatically schedule them — "
        +:+ "you can use 'Plan My Week' to manually place them."
      else if pending then "I've saved that. Let me confirm the details before scheduling anything."
      else if bool_decide (iq_domain q = LifeDomain.OPEN_LOOPS)
      then "I've put that in your inbox. We can clarify it before scheduling anything."
      else "I've saved that.").

Definition respond (state : InterviewProgress) (q : InterviewQuestion) (t : text)
    (action : interview_action) (ctx : TransitionContext) : I (InterviewProgress * string) :=
  let state' := set_last_key (iq_key q) state in
  match iq_mode q with
  | CONFIRM => confirm state' q t action ctx
  | mode =>
      if bool_decide (action = SKIP)
      then mret (after_skip q state, "Of course. We can leave that out.")
      else
        let clean := strip t in
        if bool_decide (mode = PERMISSION) then
          pure (permission state' (iq_domain q) (normalized clean)) ≫= λ s, mret (s, "Saved.")
        else if negb (acceptable clean) then value_error answer_length_error
        else respond_answer state' q clean ctx
  end.

(** The branch of [advance] on the action. *)
Definition act (state : InterviewProgress) (action : interview_action) (t : text)
    (ctx : TransitionContext) (question_key : option string) : I (InterviewProgress * string) :=
  match action with
  | PAUSE => mret (set_phase PhasePaused state, "We can pick this up whenever you're ready.")
  | RESUME => mret (set_phase PhaseActive state, "We can pick this up whenever you're ready.")
  | _ =>
      if bool_decide (ip_phase state = PhasePaused)
      then value_error "resume the interview before answering"
      else
        query (question state (tc_occurred_at ctx)) ≫= λ oq,
        match oq with
        | None => value_error "there is no pending interview question"
        | Some q =>
            if negb (bool_decide (question_key = Some (iq_key q)))
            then value_error "the pending question changed; refresh before answering"
            else respond state q t action ctx
        end
  end.

(** With nothing left to ask, the interview becomes continuous. *)
Definition settle_phase (state : InterviewProgress) (now : datetime) (db : memory_db) :
    result InterviewError InterviewProgress :=
  match ip_phase state with
  | PhasePaused => Ok state
  | _ => let* q := question state now db in
         Ok (match q with None => set_phase PhaseContinuous state | Some _ => state end)
  end.

Definition advance_block (expected_revision : Z) (action : interview_action) (t : text)
    (ctx : TransitionContext) (question_key : option string) : I InterviewReply :=
  query session ≫= λ s,
  match s with
  | Some r =>
      match mr_interview r with
      | Some state =>
          throw_if (negb (mr_revision r =? expected_revision))
            (InterviewMemory (StaleMemoryRevisionError session_id expected_revision (mr_revision r)))
          ≫= λ _,
          act state action t ctx question_key ≫= λ outcome : InterviewProgress * string,
          pure (valid (validate_progress outcome.1)) ≫= λ _,
          query (settle_phase outcome.1 (tc_occurred_at ctx)) ≫= λ state',
          submit session_id (position_correction r state' ctx) ctx ≫= λ updated,
          query (reply updated (tc_occurred_at ctx) outcome.2)
      | None => value_error "start the interview before answering"
      end
  | None => value_error "start the interview before answering"
  end.

Definition advance (expected_revision : Z) (action : interview_action) (t : text)
    (ctx : TransitionContext) (question_key : option string) : I InterviewReply :=
  domain_transaction (advance_block expected_revision action t ctx question_key).
End operation.
End interview.
