(* ===== verification/InterviewSpec.v ===== *)
(** * What the interview guarantees ([life_interview.py])

    Its questions respect permissions and end when the user keeps skipping, and
    reviewing evidence never widens who may see it. *)

From stdpp Require Import prelude base strings list gmap.
From Stdlib Require Import ZArith Lia QArith.
From S2P Require Import Prelude PyTime PyText PyUuid Transactions AuditLedger Knowledge Memory MemorySpec LifeModel PyRe RoutineText InterviewCatalog Interview.
#[local] Open Scope string_scope.
#[local] Open Scope list_scope.
#[local] Open Scope Z_scope.

(** ** Questions *)

Lemma head_elem {A} (l : list A) x : head l = Some x → x ∈ l.
Proof. destruct l; [done|]. intros [= ->]. rewrite elem_of_cons. by left. Qed.

Lemma next_topic_elem state views q :
  next_topic_question state views = Some q →
  ∃ t, t ∈ topics_for state ∧ consider state views t = Some q.
Proof.
  intros (t & Ht & Hq)%head_elem%list_elem_of_omap. by exists t.
Qed.

(** The topic a question comes from, and what it shows. *)
Lemma consider_some state views t q :
  consider state views t = Some q →
  (it_key t ∉ ip_skipped_keys state) ∧ (it_domain t ∉ ip_skipped_domains state)
  ∧ iq_domain q = it_domain t
  ∧ ((q = permission_question (it_domain t) ∧ iq_mode q = PERMISSION
      ∧ it_domain t ∉ ip_permitted_domains state)
     ∨ (iq_key q = it_key t
        ∧ ∃ relevant,
            (private_topic t relevant = true → it_domain t ∈ ip_permitted_domains state)
            ∧ ((iq_mode q = ASK ∧ iq_evidence_ids q = [])
               ∨ (iq_mode q = REVIEW
                  ∧ iq_evidence_ids q = map (λ v, mr_memory_id (kv_record v)) (take 3 relevant))))).
Proof.
  unfold consider. destruct (bool_decide _ || bool_decide _) eqn:Hskip; [done|].
  apply orb_false_iff in Hskip as [?%bool_decide_eq_false ?%bool_decide_eq_false].
  destruct (loops_known t && _); [done|]. cbv zeta.
  set (relevant := prefer_authoritative _).
  destruct (private_topic t relevant && _) eqn:Hpriv.
  { apply andb_true_iff in Hpriv as [_ Hpriv%negb_true_iff%bool_decide_eq_false].
    intros [= <-]. split_and!; auto. }
  assert (private_topic t relevant = true → it_domain t ∈ ip_permitted_domains state) as Hperm.
  { intros Ht. rewrite Ht in Hpriv. simpl in Hpriv. apply negb_false_iff in Hpriv.
    by apply bool_decide_eq_true in Hpriv. }
  destruct (negb (is_nil relevant) && forallb understood relevant && _); [done|].
  destruct (negb (is_nil relevant) && _); intros [= <-]; simpl;
    (split_and!; [done..|]; right; split; [done|]; exists relevant; auto).
Qed.

(** What a question about a topic respects: a sensitive domain, and evidence that
    is not merely personal, need the user's permission for the domain. *)
Record permitted_question (state : InterviewProgress) (q : InterviewQuestion) : Prop := {
  pq_domain : iq_domain q ∈ SENSITIVE_DOMAINS → iq_domain q ∈ ip_permitted_domains state;
  pq_key : iq_key q ∉ ip_skipped_keys state;
  pq_open : iq_domain q ∉ ip_skipped_domains state;
  pq_shown : ∃ shown, iq_evidence_ids q = map (λ v, mr_memory_id (kv_record v)) shown
    ∧ ∀ v k, v ∈ shown → mr_knowledge (kv_record v) = Some k →
        kd_sensitivity k ≠ Sensitivity.PERSONAL → iq_domain q ∈ ip_permitted_domains state;
}.

(** The question that asks for a permission names the domain and nothing else. *)
Definition asks_permission (state : InterviewProgress) (q : InterviewQuestion) : Prop :=
  q = permission_question (iq_domain q) ∧ (iq_domain q ∉ ip_permitted_domains state)
  ∧ (iq_domain q ∉ ip_skipped_domains state).

(** The question that reads the routine awaiting confirmation back to the user. *)
Definition reads_back_draft (state : InterviewProgress) (views : list KnowledgeView)
    (q : InterviewQuestion) : Prop :=
  ∃ key v k d t summary, ip_pending_confirmation_key state = Some key
    ∧ v ∈ views ∧ mr_knowledge (kv_record v) = Some k ∧ kd_key k = key
    ∧ kd_pending_confirmation k = Some d ∧ topic_named all_topics key = Some t
    ∧ routine_summary d = Ok summary
    ∧ q = {| iq_key := it_key t; iq_domain := it_domain t; iq_prompt := confirm_prompt summary;
             iq_mode := CONFIRM; iq_evidence_ids := [mr_memory_id (kv_record v)] |}.

Lemma next_topic_permitted state views q :
  next_topic_question state views = Some q →
  match iq_mode q with
  | PERMISSION => asks_permission state q
  | CONFIRM => False
  | ASK | REVIEW => permitted_question state q
  end.
Proof.
  intros (t & _ & Hc)%next_topic_elem.
  destruct (consider_some _ _ _ _ Hc) as (Hk & Hd & Hdom & [(-> & -> & Hn)|(Hkey & rel & Hperm & Hev)]).
  { done. }
  assert (permitted_question state q) as Hq; [|by destruct Hev as [[-> _]|[-> _]]].
  rewrite <- Hkey in Hk. split; rewrite ?Hdom; [|done|done|].
  - intros Hs. apply Hperm. unfold private_topic. by rewrite bool_decide_eq_true_2.
  - destruct Hev as [[_ ->]|[_ ->]]; [exists []; split; [done|by intros v k []%elem_of_nil]|].
    exists (take 3 rel). split; [done|]. intros v k Hv Hvk Hs. apply Hperm. unfold private_topic.
    apply orb_true_iff. right. apply existsb_exists. exists v. split.
    + apply list_elem_of_In. rewrite <- (take_drop 3 rel). apply elem_of_app. by left.
    + unfold with_details, details_of. rewrite Hvk. by apply negb_true_iff, bool_decide_eq_false.
Qed.

Lemma confirm_question_some state views q :
  confirm_question state views = Ok (Some q) → reads_back_draft state views q.
Proof.
  unfold confirm_question. destruct (ip_pending_confirmation_key state) as [key|] eqn:Hkey; [|done].
  destruct (List.find (awaiting key) views) as [v|] eqn:Hfind; [|done].
  apply find_some in Hfind as [Hin Haw]. rewrite <- list_elem_of_In in Hin.
  unfold awaiting, with_details, details_of, pending_draft in *.
  destruct (mr_knowledge (kv_record v)) as [k|] eqn:Hk; [|done].
  apply andb_true_iff in Haw as [Hkk%String.eqb_eq _].
  unfold details_of. rewrite Hk. cbn [mbind option_bind].
  destruct (kd_pending_confirmation k) as [d|] eqn:Hd; [|done].
  destruct (topic_named all_topics key) as [t|] eqn:Ht; [|done].
  destruct (routine_summary d) as [summary|] eqn:Hs; [|done]. intros [= <-].
  by exists key, v, k, d, t, summary.
Qed.


(** *** Skipping *)

(** The position after the user skips [n] questions. *)
Fixpoint skip_times (n : nat) (views : list KnowledgeView) (state : InterviewProgress) :
    InterviewProgress :=
  match n with
  | O => state
  | S n' => match next_topic_question state views with
            | None => state
            | Some q => skip_times n' views (after_skip q state)
            end
  end.

Definition left_open (state : InterviewProgress) (t : InterviewTopic) : bool :=
  negb (bool_decide (it_key t ∈ ip_skipped_keys state))
  && negb (bool_decide (it_domain t ∈ ip_skipped_domains state)).
Definition open_topics (state : InterviewProgress) : nat :=
  length (List.filter (left_open state) (topics_for state)).

Lemma filter_length_lt {A} (f g : A → bool) l x :
  (∀ y, f y = true → g y = true) → x ∈ l → g x = true → f x = false →
  (length (List.filter f l) < length (List.filter g l))%nat.
Proof.
  intros Hfg. assert (∀ l, length (List.filter f l) <= length (List.filter g l))%nat as Hle.
  { clear x l. intros l. induction l as [|y l IH]; simpl; [done|].
    destruct (f y) eqn:Hf; [rewrite (Hfg y Hf); simpl; lia|]. destruct (g y); simpl; lia. }
  induction l as [|y l IH]; [by intros []%elem_of_nil|]. intros [<-|Hx]%elem_of_cons Hg Hf; simpl.
  - rewrite Hf, Hg. specialize (Hle l). simpl. lia.
  - specialize (IH Hx Hg Hf). destruct (f y) eqn:Hfy; [rewrite (Hfg y Hfy); simpl; lia|].
    destruct (g y); simpl; lia.
Qed.

Lemma skip_closes_topic state views q :
  next_topic_question state views = Some q →
  (open_topics (after_skip q state) < open_topics state)%nat.
Proof.
  intros (t & Ht & Hc)%next_topic_elem.
  destruct (consider_some _ _ _ _ Hc) as (Hk & Hd & Hdom & Hor).
  unfold open_topics. assert (topics_for (after_skip q state) = topics_for state) as ->.
  { unfold after_skip, topics_for. by case_bool_decide. }
  assert (ip_skipped_keys (after_skip q state) = {[ iq_key q ]} ∪ ip_skipped_keys state) as Hsk.
  { unfold after_skip. by case_bool_decide. }
  assert (ip_skipped_domains state ⊆ ip_skipped_domains (after_skip q state)) as Hsd.
  { unfold after_skip. case_bool_decide; simpl; set_solver. }
  apply (filter_length_lt _ _ _ t); [|done| |].
  - intros y. unfold left_open. rewrite !andb_true_iff, !negb_true_iff, !bool_decide_eq_false, Hsk.
    set_solver.
  - unfold left_open. by rewrite !bool_decide_eq_false_2.
  - apply not_true_iff_false. unfold left_open.
    rewrite andb_true_iff, !negb_true_iff, !bool_decide_eq_false, Hsk.
    intros [H1 H2]. destruct Hor as [(_ & Hm & _)|[Hkey _]]; [|set_solver].
    apply H2. unfold after_skip. rewrite bool_decide_eq_true_2 by done. simpl. set_solver.
Qed.

(** The interview never insists: whatever it knows, a user who skips every
    question is asked at most one question per topic, and then none. *)
Theorem skipping_finishes views state :
  next_topic_question (skip_times (length (topics_for state)) views state) views = None.
Proof.
  assert (∀ n s, (open_topics s <= n)%nat →
    next_topic_question (skip_times n views s) views = None) as Hgen.
  { intros n. induction n as [|n IH]; intros s Hn; simpl;
      destruct (next_topic_question s views) as [q|] eqn:Hq; try done.
    - apply skip_closes_topic in Hq. lia.
    - apply IH. apply skip_closes_topic in Hq. lia. }
  apply Hgen. unfold open_topics. apply filter_length_le.
Qed.

(** ** Evidence under review *)

Definition sensitivity_rank (s : Sensitivity.t) : Z :=
  match s with Sensitivity.PERSONAL => 0 | Sensitivity.SENSITIVE => 1 | Sensitivity.RESTRICTED => 2 end.

Lemma sensitivities_elem sources r k :
  r ∈ sources → mr_knowledge r = Some k → kd_sensitivity k ∈ sensitivities sources.
Proof.
  intros Hr Hk. unfold sensitivities. apply list_elem_of_omap. exists r. by rewrite Hk.
Qed.

Lemma raised_bounds sources r k :
  r ∈ sources → mr_knowledge r = Some k →
  match raised_sensitivity sources with
  | Some s => sensitivity_rank (kd_sensitivity k) <= sensitivity_rank s
  | None => kd_sensitivity k = Sensitivity.PERSONAL
  end.
Proof.
  intros Hr Hk. pose proof (sensitivities_elem _ _ _ Hr Hk) as Hin. unfold raised_sensitivity.
  case_bool_decide as H1; [by destruct (kd_sensitivity k)|].
  case_bool_decide as H2; destruct (kd_sensitivity k); done.
Qed.

Lemma narrowed_scopes (sources : list MemoryRecord) (scopes : gset RetrievalScope.t) s :
  s ∈ foldl (λ acc r, acc ∩ source_scopes r) scopes sources ↔
  s ∈ scopes ∧ ∀ r, r ∈ sources → s ∈ source_scopes r.
Proof.
  revert scopes. induction sources as [|x l IH]; intros scopes; simpl.
  - split; [intros; split; [done|by intros r []%elem_of_nil]|by intros []].
  - rewrite IH, elem_of_intersection. split.
    + intros [[? ?] Hl]. split; [done|]. intros r [->|]%elem_of_cons; auto.
    + intros [? Hall]. split_and!; [done|apply Hall; rewrite elem_of_cons; auto|].
      intros r Hr. apply Hall. rewrite elem_of_cons. auto.
Qed.

(** Reviewing evidence never widens its audience: what replaces reviewed
    sources is never classified below the answer's own class or any source's,
    is private when any source is not personal, and is otherwise retrieved only
    where every source was - planning counting as part of conversation. *)
Theorem review_never_widens `{Unicode} zone_known subject_id timezone tp t ctx a sources :
  draft_of_answer zone_known subject_id timezone tp t ctx = Ok a →
  let n := narrow a sources in
  sensitivity_rank (kd_sensitivity (da_details a)) <= sensitivity_rank (kd_sensitivity (da_details n))
  ∧ (∀ r k, r ∈ sources → mr_knowledge r = Some k →
       sensitivity_rank (kd_sensitivity k) <= sensitivity_rank (kd_sensitivity (da_details n))
       ∧ (kd_sensitivity k ≠ Sensitivity.PERSONAL → da_scopes n = {[ RetrievalScope.PRIVATE ]}))
  ∧ (∀ s r, s ∈ da_scopes n → s ≠ RetrievalScope.PRIVATE → r ∈ sources →
       s ∈ mr_retrieval_scopes r
       ∨ (s = RetrievalScope.PLANNING ∧ RetrievalScope.CONVERSATION ∈ mr_retrieval_scopes r)).
Proof.
  intros Ha n.
  assert (kd_sensitivity (da_details a) ≠ Sensitivity.RESTRICTED) as Hown.
  { unfold draft_of_answer in Ha. apply rbind_ok in Ha as (_ & _ & Ha).
    destruct (bool_decide (it_kind tp = _) && _);
      [apply rbind_ok in Ha as (d & _ & [= <-])|destruct (_ && _); injection Ha as <-];
      simpl; by destruct (bool_decide _). }
  assert (∀ r k, r ∈ sources → mr_knowledge r = Some k → _) as Hb by (intros; by eapply raised_bounds).
  subst n. unfold narrow. unfold raised_sensitivity in *.
  destruct (bool_decide (Sensitivity.RESTRICTED ∈ _)); simpl;
    [|destruct (bool_decide (Sensitivity.SENSITIVE ∈ _)); simpl].
  1,2: split_and!; [by destruct (kd_sensitivity (da_details a))|
         intros r k Hr Hk; split; [by apply (Hb r k)|done]|
         intros s r Hs Hne; by apply elem_of_singleton in Hs].
  split_and!; [done| |].
  - intros r k Hr Hk. rewrite (Hb r k Hr Hk). split; [by destruct (kd_sensitivity (da_details a))|done].
  - intros s r [_ Hs]%narrowed_scopes Hne Hr. specialize (Hs r Hr). unfold source_scopes in Hs.
    case_bool_decide; [|by left]. apply elem_of_union in Hs as [->%elem_of_singleton|]; auto.
Qed.
