(* ===== verification/InterviewStore.v ===== *)
(** * The store under the interview ([life_interview.py])

    Every step of the interview keeps the store readable, advances the position
    by exactly one revision or changes nothing, and never lets a routine into
    planning that the user has not confirmed. *)

From stdpp Require Import prelude base strings list gmap.
From Stdlib Require Import ZArith Lia QArith.
From S2P Require Import Prelude PyTime PyText PyUuid Transactions AuditLedger Knowledge Memory MemorySpec LifeModel PyRe RoutineText InterviewCatalog Interview InterviewSpec.
#[local] Open Scope string_scope.
#[local] Open Scope list_scope.
#[local] Open Scope Z_scope.

Section store.
Context (hmac : string → string → string) (audit_key : string) (zone_known : string → bool).
Context `{RecordCodec} `{!RecordCodecLaws zone_known} `{Unicode}.
Context (fold_content strip_content : string → string).
Context (subject_id timezone : string) (session_id : uuid).

(** Planning is allowed only for what awaits no confirmation, and for a routine
    only once its details are set; what awaits confirmation was stated. *)
Definition disciplined (k : KnowledgeDetails) : Prop :=
  (kd_planning_allowed k = true →
     kd_pending_confirmation k = None
     ∧ (kd_kind k = KnowledgeKind.ROUTINE → has (kd_routine k) = true))
  ∧ (has (kd_pending_confirmation k) = true → kd_state k = KnowledgeState.CONFIRMED).

Definition good (r : MemoryRecord) : Prop :=
  plain_record r = true ∧ record_valid zone_known r = true
  ∧ (∀ u, mr_retain_until r = Some u → aware u = true)
  ∧ ∀ k, mr_knowledge r = Some k → disciplined k.

(** Every row is the JSON of a good record with the row's identity. *)
Definition rows_good (db : memory_db) : Prop :=
  ∀ id row, md_memories db !! id = Some row → ∃ r, row = row_of_record r ∧ mr_memory_id r = id ∧ good r.

Lemma good_parses r : good r → parse_row (row_of_record r) = Ok r.
Proof. intros (Hp & Hv & _). by eapply parse_row_of. Qed.

Lemma read_good db id r :
  rows_good db → read id db = Ok r →
  md_memories db !! id = Some (row_of_record r) ∧ mr_memory_id r = id ∧ good r.
Proof.
  intros Hdb Hr. unfold read in Hr. destruct (md_memories db !! id) as [row|] eqn:Hrow; [|done].
  destruct (Hdb _ _ Hrow) as (r' & -> & Hid & Hg). rewrite (good_parses _ Hg) in Hr.
  by injection Hr as <-.
Qed.

Lemma parse_rows_good db rows :
  rows_good db → (∀ row, row ∈ rows → ∃ id, md_memories db !! id = Some row) →
  ∃ l, parse_rows rows = Ok l
    ∧ ∀ r, r ∈ l → good r ∧ md_memories db !! mr_memory_id r = Some (row_of_record r).
Proof.
  intros Hdb. induction rows as [|row rows IH]; intros Hin; [exists []; split; [done|]; by intros r []%elem_of_nil|].
  destruct IH as (l & Hl & Hg); [intros; apply Hin; rewrite elem_of_cons; auto|].
  destruct (Hin row) as [id Hrow]; [rewrite elem_of_cons; auto|].
  destruct (Hdb _ _ Hrow) as (r & -> & Hid & Hr). exists (r :: l). simpl.
  rewrite (good_parses _ Hr), Hl. split; [done|].
  intros x [->|Hx]%elem_of_cons; [|by apply Hg]. split; [done|]. by rewrite Hid.
Qed.

Lemma select_total {X} (f : X → result MemoryError bool) l :
  (∀ x, x ∈ l → is_ok (f x) = true) → ∃ l', select f l = Ok l'.
Proof.
  induction l as [|x l IH]; intros Hf; simpl; [by eexists|].
  pose proof (Hf x) as Hx. destruct (f x) as [b|]; [|by rewrite elem_of_cons in Hx; naive_solver].
  destruct IH as [l' ->]; [intros; apply Hf; rewrite elem_of_cons; auto|]. by eexists.
Qed.

(** Retrieval from a good store returns stored, good records. *)
Lemma retrieve_good scope clock db :
  rows_good db → aware clock = true →
  ∃ l, retrieve scope clock db = Ok l
    ∧ ∀ r, r ∈ l → good r ∧ md_memories db !! mr_memory_id r = Some (row_of_record r).
Proof.
  intros Hdb Hclock. unfold retrieve.
  destruct (parse_rows_good db (py_sorted row_before (map_to_list (md_memories db))).*2 Hdb)
    as (records & -> & Hg).
  { intros row ([id row'] & -> & Hin)%list_elem_of_fmap. exists id.
    by rewrite elem_of_py_sorted, elem_of_map_to_list in Hin. }
  destruct (select_total (visible scope clock) records) as [l Hl].
  { intros r (Hr & _)%Hg. unfold visible, retained. destruct Hr as (_ & _ & Haw & _).
    case_bool_decide; [|done]. destruct (mr_retain_until r) as [u|]; [|done].
    by rewrite (Haw u eq_refl), Hclock. }
  exists l. split; [done|]. intros r Hr. apply (select_elem _ _ _ _ Hl) in Hr as [Hr _]. by apply Hg.
Qed.

Lemma retrieve_good_elem scope clock db l r :
  rows_good db → aware clock = true → retrieve scope clock db = Ok l → r ∈ l →
  good r ∧ md_memories db !! mr_memory_id r = Some (row_of_record r).
Proof.
  intros Hdb Hc Hl Hr. destruct (retrieve_good scope clock db Hdb Hc) as (l' & Hl' & Hg).
  rewrite Hl in Hl'. injection Hl' as <-. by apply Hg.
Qed.

(** *** The repository's operations *)

(** A correction that leaves a good record whatever it corrects. *)
Definition sound_edit (m : MemoryCorrection) : Prop :=
  plain_correction zone_known m = true
  ∧ (∀ u, mc_retain_until m = Some u → aware u = true)
  ∧ ∀ k, mc_knowledge m = Some k → disciplined k.

Lemma sound_edit_good id current m u :
  good current → sound_edit m → validate_instance (replacement_of id current m) = Ok u →
  good (replacement_of id current m).
Proof.
  intros (Hp & _) (Hm & Hr & Hk) Hv.
  split_and!; [by eapply plain_replacement|by eapply replacement_valid|done|done].
Qed.

Lemma insert_memory_good db db' r :
  rows_good db → good r → insert_memory r db = Ok db' →
  rows_good db' ∧ md_memories db' !! mr_memory_id r = Some (row_of_record r).
Proof.
  intros Hdb Hr. unfold insert_memory. destruct (md_memories db !! mr_memory_id r); [done|].
  intros [= <-]. simpl. split; [|apply lookup_insert_eq].
  intros id row. simpl. intros [[<- <-]|[_ Hrow]]%lookup_insert_Some; [by exists r|by apply Hdb].
Qed.

Lemma audit_append_memories r action fp ctx db db' :
  audit_append hmac audit_key r action fp ctx db = Ok db' → md_memories db' = md_memories db.
Proof.
  unfold audit_append. destruct (append _ _ _ _) as [a [u|e]]; [|done]. by intros [= <-].
Qed.

Lemma memories_same_good db db' : md_memories db' = md_memories db → rows_good db → rows_good db'.
Proof. unfold rows_good. by intros ->. Qed.

Lemma upholds_append (P : memory_db → Prop) r action fp ctx :
  (∀ db db', md_memories db' = md_memories db → P db → P db') →
  upholds rows_good P (execute (audit_append hmac audit_key r action fp ctx)) (λ _, P).
Proof.
  intros HP. apply upholds_execute. intros db db' Hdb Hg Ha%audit_append_memories.
  split; [by eapply memories_same_good|by eapply HP].
Qed.

Lemma upholds_remove r reason fp ctx :
  upholds rows_good (λ _, True) (remove execute r reason fp ctx) (λ _ _, True).
Proof.
  unfold remove. eapply upholds_bind; [apply (upholds_execute _ _ _ (λ _ _, True))|intros []].
  { intros db db' _ Hg [= <-]. split; [|done]. by apply (memories_same_good db). }
  eapply upholds_bind; [apply (upholds_execute _ _ _ (λ _ _, True))|intros []].
  { intros db db' _ Hg [= <-]. split; [|done]. intros id row. simpl.
    intros [_ Hr]%lookup_delete_Some. by apply Hg. }
  apply upholds_execute. intros db db' _ Hg. unfold insert_tombstone.
  destruct (md_tombstones db !! _); [done|]. intros [= <-]. split; [|done].
  by apply (memories_same_good db).
Qed.

Lemma upholds_audit_verify (P : memory_db → Prop) :
  upholds rows_good P (audit_verify hmac audit_key) (λ _, P).
Proof. by apply upholds_query. Qed.

Lemma upholds_correct id m ctx :
  sound_edit m →
  upholds rows_good (λ _, True) (correct hmac audit_key id m ctx) (λ r db,
    md_memories db !! id = Some (row_of_record r) ∧ good r ∧ mr_interview r = mc_interview m
    ∧ mr_revision r = mc_expected_revision m + 1).
Proof.
  intros Hm. unfold correct. apply upholds_block.
  eapply upholds_bind; [apply upholds_audit_verify|intros []].
  eapply upholds_bind; [apply (upholds_query _ _ _ (λ r _, mr_memory_id r = id ∧ good r))|intros current].
  { intros db r _ Hg Hr. by destruct (read_good _ _ _ Hg Hr) as (_ & ? & ?). }
  apply (upholds_fact _ (mr_memory_id current = id ∧ good current)); [done|]. intros [Hid Hc].
  eapply upholds_bind; [apply (upholds_query _ _ _ (λ _ _, mr_revision current = mc_expected_revision m))|intros []].
  { intros db u _ _ Hr. unfold require_revision in Hr. apply raise_if_ok in Hr.
    apply negb_false_iff, Z.eqb_eq in Hr. done. }
  apply (upholds_fact _ (mr_revision current = mc_expected_revision m)); [done|]. intros Hrev.
  eapply upholds_bind; [apply (upholds_query _ _ _ (λ _ _, True)); done|intros []].
  eapply upholds_bind; [apply (upholds_query _ _ _ (λ r _, r = replacement_of id current m ∧ good r))|intros rep].
  { intros db r _ _ Hb. unfold built in Hb.
    destruct (validate_instance _) as [u|] eqn:Hv; [|done]. injection Hb as <-. split; [done|].
    by eapply sound_edit_good. }
  apply (upholds_fact _ (rep = replacement_of id current m ∧ good rep)); [done|]. intros [-> Hrep].
  eapply upholds_bind; [eapply upholds_conseq; [apply upholds_remove|done|done]|intros []].
  eapply upholds_bind.
  { apply (upholds_execute _ _ _ (λ _ db, md_memories db !! id = Some (row_of_record (replacement_of id current m)))).
    intros db db' _ Hg Hi. apply (insert_memory_good db db' _ Hg Hrep Hi). }
  intros []. eapply upholds_bind; [apply upholds_append; by intros db db' ->|intros []].
  apply upholds_ret. intros db Hrow _. split_and!; [done|done|done|]. simpl. by rewrite Hrev.
Qed.

Lemma upholds_remember r ctx :
  plain_record r = true → (∀ u, mr_retain_until r = Some u → aware u = true) →
  (∀ k, mr_knowledge r = Some k → disciplined k) →
  upholds rows_good (λ _, True) (remember hmac audit_key r ctx) (λ _ db,
    md_memories db !! mr_memory_id r = Some (row_of_record r)).
Proof.
  intros Hp Hu Hk. unfold remember. rewrite parse_dump by done.
  destruct (record_valid zone_known r) eqn:Hv; [|apply upholds_throw].
  apply upholds_block. eapply upholds_bind; [apply upholds_audit_verify|intros []].
  eapply upholds_bind; [apply (upholds_query _ _ _ (λ _ _, True)); done|intros []].
  eapply upholds_bind.
  { apply (upholds_execute _ _ _ (λ _ db, md_memories db !! mr_memory_id r = Some (row_of_record r))).
    intros db db' _ Hg Hi. by apply (insert_memory_good db db' r Hg). }
  intros []. apply upholds_append. by intros db db' ->.
Qed.

Lemma upholds_delete id rev ctx :
  upholds rows_good (λ _, True) (delete_record hmac audit_key id rev ctx) (λ _ _, True).
Proof.
  unfold delete_record. apply upholds_block. eapply upholds_bind; [apply upholds_audit_verify|intros []].
  eapply upholds_bind; [apply (upholds_query _ _ _ (λ _ _, True)); done|intros current].
  eapply upholds_bind; [apply (upholds_query _ _ _ (λ _ _, True)); done|intros []].
  eapply upholds_bind; [apply upholds_remove|intros []]. by apply upholds_append.
Qed.

(** *** Details *)

Definition details_ok (k : KnowledgeDetails) : Prop :=
  validate_details zone_known k = Ok tt ∧ plain_details k = true ∧ disciplined k.

Lemma validate_details_parts k :
  validate_details zone_known k = Ok tt ↔
  (validate_details zone_known (with_pending None k) = Ok tt
   ∧ optional validate_draft (kd_pending_confirmation k) = Ok tt
   ∧ kind_matches (has (kd_pending_confirmation k)) (kd_kind k) KnowledgeKind.ROUTINE = Ok tt).
Proof.
  unfold validate_details, validate_evidence. rewrite !rbind_unit_iff. simpl.
  unfold kind_matches at 6, check, raise_if at 6. simpl. tauto.
Qed.

Lemma good_details r k : good r → mr_knowledge r = Some k → details_ok k.
Proof.
  intros (Hp & Hv & _ & Hd) Hk. split_and!; [| |by apply Hd].
  - unfold record_valid, validate_record in Hv. rewrite Hk in Hv.
    destruct (validate_nested _ _ _ _) as [[]|] eqn:Hn; [|done].
    unfold validate_nested in Hn. rewrite !rbind_unit_iff in Hn. apply Hn.
  - unfold plain_record in Hp. rewrite Hk in Hp. by apply andb_true_iff in Hp as [_ ?].
Qed.

Lemma pending_routine k d :
  details_ok k → kd_pending_confirmation k = Some d →
  kd_kind k = KnowledgeKind.ROUTINE ∧ kd_planning_allowed k = false
  ∧ kd_state k = KnowledgeState.CONFIRMED.
Proof.
  intros (Hv & _ & Ha & Hs) Hd. apply validate_details_parts in Hv as (_ & _ & Hk).
  rewrite Hd in *. split_and!; [| |by apply Hs].
  - unfold kind_matches, check in Hk. apply raise_if_ok in Hk. simpl in Hk.
    apply negb_false_iff in Hk. by apply bool_decide_eq_true in Hk.
  - destruct (kd_planning_allowed k); [|done]. by destruct (Ha eq_refl).
Qed.

Lemma dropped_pending_ok k d :
  details_ok k → kd_pending_confirmation k = Some d → details_ok (with_pending None k).
Proof.
  intros Hk Hd. destruct (pending_routine _ _ Hk Hd) as (_ & Ha & _). destruct Hk as (Hv & Hp & _).
  split_and!; [by apply validate_details_parts in Hv as (? & _)|done|].
  split; simpl; [by rewrite Ha|done].
Qed.

Lemma set_pending_ok k d :
  details_ok k → kd_kind k = KnowledgeKind.ROUTINE → kd_planning_allowed k = false →
  kd_state k = KnowledgeState.CONFIRMED → validate_draft d = Ok tt →
  details_ok (with_pending (Some d) k).
Proof.
  intros (Hv & Hp & _) Hk Ha Hs Hd. split_and!; [|done|split; simpl; [by rewrite Ha|done]].
  apply validate_details_parts. split_and!; [|done|simpl; by rewrite Hk].
  by apply validate_details_parts in Hv as (? & _).
Qed.

Lemma with_routine_ok k d r at_ allowed :
  details_ok k → kd_pending_confirmation k = Some d → validate_routine zone_known r = Ok tt →
  aware at_ = true → plain_time at_ = true → details_ok (with_routine r at_ allowed k).
Proof.
  intros Hk Hd Hr Haw Hpl. destruct (pending_routine _ _ Hk Hd) as (Hkind & _ & Hstate).
  destruct Hk as (Hv & Hp & _). split_and!.
  - apply validate_details_parts in Hv as (Hv & _ & _). unfold validate_details, validate_evidence in *.
    rewrite !rbind_unit_iff in *. simpl in *. rewrite Hkind, Hstate in *.
    unfold require_aware, kind_matches, check in *. rewrite Haw. simpl in *. tauto.
  - unfold plain_details in *. simpl. bool_to_prop.
    repeat (apply andb_true_iff; split); done.
  - split; simpl; [done|done].
Qed.

(** *** The interview's own steps *)

Lemma upholds_lift {A} (P : memory_db → Prop) (m : comp (connection memory_db) MemoryError A)
    (Q : A → memory_db → Prop) :
  upholds rows_good P m Q → upholds rows_good P (lift m) Q.
Proof.
  intros Hm c HP H1 H2. specialize (Hm c HP H1 H2). unfold lift.
  by destruct (m c) as [c' [a|e]].
Qed.

Lemma upholds_pure {A} (P : memory_db → Prop) (r : result InterviewError A) (Q : A → memory_db → Prop) :
  (∀ db a, P db → r = Ok a → Q a db) → upholds rows_good P (pure r) Q.
Proof. intros HQ. apply upholds_query. auto. Qed.

Lemma upholds_submit id m ctx :
  sound_edit m →
  upholds rows_good (λ _, True) (submit hmac audit_key id m ctx) (λ r db,
    md_memories db !! id = Some (row_of_record r) ∧ good r ∧ mr_interview r = mc_interview m
    ∧ mr_revision r = mc_expected_revision m + 1).
Proof.
  intros Hm. unfold submit. eapply upholds_bind; [by apply (upholds_pure _ _ (λ _ _, True))|intros []].
  apply upholds_lift. by apply upholds_correct.
Qed.

Lemma upholds_submit_unit id m ctx :
  sound_edit m →
  upholds rows_good (λ _, True) (submit hmac audit_key id m ctx ≫= λ _, mret tt) (λ _ _, True).
Proof. intros Hm. eapply upholds_bind; [by apply upholds_submit|]. intros r. by apply upholds_ret. Qed.

Lemma upholds_record_new r ctx :
  plain_record r = true → (∀ u, mr_retain_until r = Some u → aware u = true) →
  (∀ k, mr_knowledge r = Some k → disciplined k) →
  upholds rows_good (λ _, True) (record_new hmac audit_key r ctx) (λ _ _, True).
Proof.
  intros Hp Hu Hk. unfold record_new.
  eapply upholds_bind; [apply (upholds_pure _ _ (λ r' _, r' = r))|intros r'].
  { intros db a _ Hb. unfold built in Hb. destruct (validate_instance r); [|done]. by injection Hb as <-. }
  apply (upholds_fact _ (r' = r)); [done|]. intros ->. apply upholds_lift.
  eapply upholds_conseq; [by apply upholds_remember|done|done].
Qed.

Section step.
Context (clock : datetime) (new_id : uuid) (ctx : TransitionContext).
Context (Hclock : aware clock = true).
Context (Hplain : plain_time (tc_occurred_at ctx) = true) (Haware : aware (tc_occurred_at ctx) = true).

Lemma private_records_good db records r :
  rows_good db → private_records clock db = Ok records → r ∈ records →
  good r ∧ md_memories db !! mr_memory_id r = Some (row_of_record r).
Proof.
  intros Hdb Hr. unfold private_records, lift_error in Hr.
  destruct (retrieve _ _ _) as [l|] eqn:Hl; [|done]. injection Hr as <-.
  intros Hin. exact (retrieve_good_elem _ _ _ _ _ Hdb Hclock Hl Hin).
Qed.

Lemma by_id_elem records id r : by_id records id = Some r → r ∈ records ∧ mr_memory_id r = id.
Proof.
  intros [Hin Hid]%find_some. split; [|by apply Z.eqb_eq].
  rewrite <- list_elem_of_In in Hin. by rewrite elem_of_reverse in Hin.
Qed.

(** Revising a record with sound details is a sound edit. *)
Lemma revise_sound r content confidence k : details_ok k → sound_edit (revise r content confidence k ctx).
Proof.
  intros (Hv & Hp & Hd). split_and!; [|done|by intros k' [= <-]].
  unfold plain_correction, revise. simpl. rewrite Hplain, Hp. simpl.
  unfold validate_correction, validate_nested. simpl. by rewrite Hv.
Qed.

Lemma upholds_private (P : memory_db → Prop) :
  upholds rows_good P (query (private_records clock)) (λ records db,
    P db ∧ private_records clock db = Ok records ∧ (∀ r, r ∈ records → good r)).
Proof.
  apply upholds_query. intros db records HP Hg Hr. split_and!; [done|done|].
  intros r Hin. by destruct (private_records_good _ _ _ Hg Hr Hin).
Qed.

Lemma routine_of_draft_valid d r :
  routine_of_draft zone_known d = Ok r → validate_routine zone_known r = Ok tt.
Proof.
  unfold routine_of_draft. destruct (dr_days d); [|done]. destruct (dr_duration_minutes d); [|done].
  cbv zeta. intros ([] & Hv & [= <-])%rbind_ok. done.
Qed.

Lemma valid_ok {A} (r : result KnowledgeError A) a : Interview.valid r = Ok a → r = Ok a.
Proof. destruct r; simpl; congruence. Qed.

Lemma upholds_resolve q confirmed :
  upholds rows_good (λ _, True) (resolve_pending hmac audit_key zone_known clock q confirmed ctx)
    (λ _ _, True).
Proof.
  unfold resolve_pending. destruct (iq_evidence_ids q) as [|id ids]; [by apply upholds_ret|].
  eapply upholds_bind; [apply upholds_private|intros records].
  apply (upholds_fact _ (∀ r, r ∈ records → good r)); [by intros db (_ & _ & ?)|intros Hrec].
  destruct (by_id records id) as [r|] eqn:Hid; [|by apply upholds_ret].
  destruct (by_id_elem _ _ _ Hid) as [Hin _].
  destruct (mr_knowledge r) as [k|] eqn:Hk; [|by apply upholds_ret].
  destruct (kd_pending_confirmation k) as [d|] eqn:Hd; [|by apply upholds_ret].
  pose proof (good_details r k (Hrec r Hin) Hk) as Hdk.
  apply (upholds_conseq _ _ (λ _, True) _ _ (λ _ _, True)); [|done|done].
  eapply upholds_bind; [|intros kc; apply (upholds_fact _ (details_ok kc.1));
    [intros db Hkc _; exact Hkc|intros Hkc; eapply upholds_conseq;
     [apply upholds_submit_unit, revise_sound; exact Hkc|done|done]]].
  simpl. destruct confirmed.
  - eapply upholds_bind; [apply (upholds_pure _ _ (λ r _, validate_routine zone_known r = Ok tt))|intros routine].
    { intros db routine _ Hr%valid_ok. by eapply routine_of_draft_valid. }
    apply (upholds_fact _ (validate_routine zone_known routine = Ok tt)); [done|intros Hr].
    apply upholds_ret. intros db _ _. simpl. by eapply with_routine_ok.
  - apply upholds_ret. intros db _ _. simpl. by eapply dropped_pending_ok.
Qed.

(** The record a question shows first still awaits confirmation. *)
Definition awaits (q : InterviewQuestion) (db : memory_db) : Prop :=
  ∀ records id ids r k, private_records clock db = Ok records → iq_evidence_ids q = id :: ids →
    by_id records id = Some r → mr_knowledge r = Some k → has (kd_pending_confirmation k) = true.

Lemma merge_draft_valid previous f d :
  merge_draft timezone previous f = Ok d → validate_draft d = Ok tt.
Proof. unfold merge_draft. cbv zeta. by intros ([] & Hv%valid_ok & [= <-])%rbind_ok. Qed.

Lemma upholds_reparse q t :
  upholds rows_good (awaits q) (reparse_pending hmac audit_key timezone clock q t ctx) (λ _ _, True).
Proof.
  unfold reparse_pending. destruct (iq_evidence_ids q) as [|id ids] eqn:Hids; [by apply upholds_ret|].
  eapply upholds_bind; [apply upholds_private|intros records].
  apply (upholds_fact _ ((∀ r, r ∈ records → good r)
    ∧ (∀ r k, by_id records id = Some r → mr_knowledge r = Some k →
         has (kd_pending_confirmation k) = true))).
  { intros db (Haw & Hr & Hg) _. split; [done|]. intros r k Hid Hk. by eapply (Haw records id ids r k). }
  intros [Hrec Haw]. destruct (by_id records id) as [r|] eqn:Hid; [|by apply upholds_ret].
  destruct (by_id_elem _ _ _ Hid) as [Hin _].
  destruct (mr_knowledge r) as [k|] eqn:Hk; [|by apply upholds_ret].
  specialize (Haw r k eq_refl Hk). destruct (kd_pending_confirmation k) as [d|] eqn:Hd; [|done].
  pose proof (good_details r k (Hrec r Hin) Hk) as Hdk.
  destruct (pending_routine _ _ Hdk Hd) as (Hkind & Hal & Hst).
  apply (upholds_conseq _ _ (λ _, True) _ _ (λ _ _, True)); [|done|done].
  eapply upholds_bind; [apply (upholds_pure _ _ (λ d _, validate_draft d = Ok tt))|intros routine].
  { intros db routine _ (f & _ & Hm)%rbind_ok. by eapply merge_draft_valid. }
  apply (upholds_fact _ (validate_draft routine = Ok tt)); [done|intros Hv].
  eapply upholds_bind.
  { apply (upholds_conseq _ _ (λ _, True) _ (λ _ _, True)
      _ (upholds_submit _ _ _ (revise_sound r _ _ _ (set_pending_ok _ _ Hdk Hkind Hal Hst Hv)))); done. }
  intros a. by apply upholds_pure.
Qed.

Lemma stored_once db r r' :
  good r → good r' → md_memories db !! mr_memory_id r = Some (row_of_record r) →
  md_memories db !! mr_memory_id r' = Some (row_of_record r') → mr_memory_id r = mr_memory_id r' →
  r = r'.
Proof.
  intros Hg Hg' Hr Hr' Hid. rewrite Hid, Hr' in Hr.
  assert (row_of_record r' = row_of_record r) as Heq by congruence.
  pose proof (good_parses _ Hg) as H1. rewrite <- Heq, (good_parses _ Hg') in H1. congruence.
Qed.

Lemma views_stored now db views v :
  rows_good db → all_views fold_content strip_content subject_id clock now db = Ok views → v ∈ views →
  good (kv_record v) ∧ md_memories db !! mr_memory_id (kv_record v) = Some (row_of_record (kv_record v)).
Proof.
  intros Hdb Hv Hin. unfold all_views, lift_error in Hv.
  destruct (knowledge _ _ _ _ _ _ _) as [vs|] eqn:Hk; [|done]. injection Hv as <-.
  unfold knowledge in Hk. destruct (retrieve _ _ _) as [found|] eqn:Hf; [|done].
  apply (views_of_elem _ _ _ _ _ _ _ Hk) in Hin as (r & k & [Hr _]%about_elem & _ & Hview).
  destruct (view_of_ok _ _ _ _ _ _ _ Hview) as (_ & -> & _).
  exact (retrieve_good_elem _ _ _ _ _ Hdb Hclock Hf Hr).
Qed.

Lemma next_topic_mode state views q :
  next_topic_question state views = Some q → iq_mode q ≠ CONFIRM.
Proof. intros Hq%next_topic_permitted Hm. by rewrite Hm in Hq. Qed.

Lemma confirm_awaits state now db q :
  rows_good db →
  question fold_content strip_content subject_id clock state now db = Ok (Some q) →
  iq_mode q = CONFIRM → awaits q db.
Proof.
  intros Hdb Hq Hmode. unfold question in Hq.
  assert (∃ views, all_views fold_content strip_content subject_id clock now db = Ok views
    ∧ choose_question state views = Ok (Some q)) as (views & Hv & Hc).
  { destruct (ip_phase state); [|done|]; apply rbind_ok in Hq as (views & ? & ?); by exists views. }
  unfold choose_question in Hc. destruct (confirm_question state views) as [[q'|]|] eqn:Hcq; [| |done].
  2:{ injection Hc as Hn. by apply next_topic_mode in Hn. }
  injection Hc as ->. unfold confirm_question in Hcq.
  destruct (ip_pending_confirmation_key state) as [key|]; [|done].
  destruct (List.find (awaiting key) views) as [v|] eqn:Hfind; [|done].
  apply find_some in Hfind as [Hin Haw]. rewrite <- list_elem_of_In in Hin.
  destruct (views_stored _ _ _ _ Hdb Hv Hin) as [Hg Hst].
  destruct (pending_draft v) as [d|]; [|done]. destruct (topic_named all_topics key) as [tp|]; [|done].
  destruct (routine_summary _) as [summary|]; [|done]. injection Hcq as <-.
  intros records id ids r k Hrec Hids Hid Hk. simpl in Hids. injection Hids as <- _.
  destruct (by_id_elem _ _ _ Hid) as [Hr Hrid].
  destruct (private_records_good _ _ _ Hdb Hrec Hr) as [Hgr Hsr].
  assert (r = kv_record v) as -> by (by eapply stored_once).
  unfold awaiting, with_details, details_of in Haw. rewrite Hk in Haw.
  by apply andb_true_iff in Haw as [_ ?].
Qed.

Lemma upholds_confirm_skip state q :
  upholds rows_good (λ _, True) (confirm_skip hmac audit_key zone_known clock state q ctx) (λ _ _, True).
Proof.
  unfold confirm_skip. eapply upholds_bind; [apply upholds_resolve|intros []]. by apply upholds_ret.
Qed.

Lemma upholds_confirm_yes state q :
  upholds rows_good (λ _, True) (confirm_yes hmac audit_key zone_known clock state q ctx) (λ _ _, True).
Proof.
  unfold confirm_yes. eapply upholds_bind; [by apply (upholds_query _ _ _ (λ _ _, True))|intros records].
  eapply upholds_bind; [by apply (upholds_pure _ _ (λ _ _, True))|intros r].
  destruct (pending_of r); [|by apply upholds_ret]. destruct (is_nil _); [|by apply upholds_ret].
  eapply upholds_bind; [apply upholds_resolve|intros []]. by apply upholds_ret.
Qed.

Lemma upholds_confirm state q t action :
  upholds rows_good (awaits q) (confirm hmac audit_key zone_known timezone clock state q t action ctx)
    (λ _ _, True).
Proof.
  unfold confirm. cbv zeta.
  destruct (bool_decide (action = SKIP)); [by eapply upholds_conseq; [apply upholds_confirm_skip|..]|].
  destruct (negb (acceptable _)); [apply upholds_throw|].
  destruct (among _ _); [by eapply upholds_conseq; [apply upholds_confirm_skip|..]|].
  destruct (among _ _); [by eapply upholds_conseq; [apply upholds_confirm_yes|..]|].
  eapply upholds_bind; [apply upholds_reparse|intros summary]. by apply upholds_ret.
Qed.

(** *** Saving an answer *)

Lemma draft_of_answer_ok tp t a :
  draft_of_answer zone_known subject_id timezone tp t ctx = Ok a → details_ok (da_details a).
Proof.
  unfold draft_of_answer. set (unknown := answer_unknown t).
  set (details := answer_details subject_id tp unknown (tc_occurred_at ctx)).
  intros ([] & Hv%valid_ok & Ha)%rbind_ok.
  assert (plain_details details = true) as Hp.
  { unfold plain_details, details. simpl.
    destruct unknown, (bool_decide (it_kind tp = KnowledgeKind.OPEN_LOOP)); simpl; by rewrite Hplain. }
  assert (details_ok details) as Hd by (split_and!; [done|done|by split]).
  destruct (bool_decide (it_kind tp = _) && negb unknown) eqn:Hr.
  - apply andb_true_iff in Hr as [Hk%bool_decide_eq_true Hu%negb_true_iff].
    apply rbind_ok in Ha as (d & (f & _ & Hm%merge_draft_valid)%rbind_ok & [= <-]). simpl.
    apply set_pending_ok; [done|done|done| |done]. simpl. by rewrite Hu.
  - destruct ((_ || _) && negb unknown) eqn:Hw; injection Ha as <-; simpl; [|done].
    split_and!; [done|done|]. split; simpl; [|done]. intros _. split; [done|]. intros Hk.
    apply andb_true_iff in Hw as [_ Hu]. by rewrite (bool_decide_eq_true_2 _ Hk), Hu in Hr.
Qed.

Lemma narrow_ok a sources : details_ok (da_details a) → details_ok (da_details (narrow a sources)).
Proof. intros Ha. unfold narrow. by destruct (raised_sensitivity sources). Qed.

Lemma new_answer_keeps a t k correction :
  plain_details k = true → disciplined k →
  upholds rows_good (λ _, True)
    (record_new hmac audit_key (new_answer new_id a t k correction ctx) ctx) (λ _ _, True).
Proof.
  intros Hp Hd. apply upholds_record_new; [|done|by intros k' [= <-]].
  unfold plain_record, new_answer. simpl. by rewrite Hplain, Hp.
Qed.

Lemma items_good records ids sources :
  (∀ r, r ∈ records → good r) → items records ids = Ok sources → ∀ r, r ∈ sources → good r.
Proof.
  intros Hrec. revert sources. induction ids as [|id ids IH]; intros sources; simpl.
  { intros [= <-] r []%elem_of_nil. }
  intros (r0 & Hr0 & (l & Hl & [= <-])%rbind_ok)%rbind_ok r [->|Hr]%elem_of_cons; [|by eapply IH].
  unfold item in Hr0. destruct (by_id records id) as [x|] eqn:Hid; [|done]. injection Hr0 as <-.
  by apply Hrec, (by_id_elem records id).
Qed.

Lemma superseded_sound r k : good r → mr_knowledge r = Some k → sound_edit (superseded_correction new_id r k).
Proof.
  intros Hr Hk. destruct (good_details _ _ Hr Hk) as (Hv & Hp & Hd).
  destruct Hr as (Hpr & Hvr & Hu & _). split_and!; [|done|by intros k' [= <-]].
  unfold plain_correction, superseded_correction. simpl.
  unfold plain_record in Hpr. apply andb_true_iff in Hpr as [[[Hc _]%andb_true_iff Hr]%andb_true_iff _].
  change (plain_details (with_successor new_id k)) with (plain_details k). rewrite Hc, Hr, Hp. simpl.
  unfold validate_correction, validate_nested. simpl.
  change (validate_details zone_known (with_successor new_id k)) with (validate_details zone_known k).
  unfold record_valid, validate_record, validate_nested in Hvr.
  destruct (field _) as [[]|]; [|done]. simpl. by rewrite Hv.
Qed.

Lemma upholds_supersede a source :
  good source.2 →
  upholds rows_good (λ _, True) (supersede hmac audit_key new_id a ctx source) (λ _ _, True).
Proof.
  intros Hs. unfold supersede. destruct (mr_knowledge source.2) as [k|] eqn:Hk; [|by apply upholds_ret].
  destruct (supersedes _); [|by apply upholds_ret]. by apply upholds_submit_unit, superseded_sound.
Qed.

Lemma upholds_reconciliation q t a sources :
  (∀ r, r ∈ sources → good r) → details_ok (da_details a) →
  upholds rows_good (λ _, True) (save_reconciliation hmac audit_key new_id q t a sources ctx) (λ _ _, True).
Proof.
  intros Hs Ha. unfold save_reconciliation. cbv zeta.
  set (a' := match raised_sensitivity sources with Some _ => _ | None => _ end).
  assert (details_ok (da_details a')) as (_ & Hp & Hd)
    by (unfold a'; by destruct (raised_sensitivity sources)).
  eapply upholds_bind; [apply upholds_for_each|intros []; by apply new_answer_keeps].
  intros [id r] Hin. apply upholds_supersede, Hs. by eapply elem_of_zip_r.
Qed.

Lemma upholds_replace t a first others r rest :
  details_ok (da_details a) →
  upholds rows_good (λ _, True)
    (submit hmac audit_key first (replace_answer a t r ctx) ctx ≫= λ _,
     for_each (forget hmac audit_key ctx) (zip others rest)) (λ _ _, True).
Proof.
  intros (Hv & Hp & Hd). eapply upholds_bind.
  - apply upholds_submit. split_and!; [|done|by intros k [= <-]].
    unfold plain_correction, replace_answer. simpl. rewrite Hplain, Hp. simpl.
    unfold validate_correction, validate_nested. simpl. by rewrite Hv.
  - intros x. apply (upholds_conseq _ _ (λ _, True) _ _ (λ _ _, True)); [|done|done].
    apply upholds_for_each. intros y _. apply upholds_lift, upholds_delete.
Qed.

Lemma upholds_save_answer q t :
  upholds rows_good (λ _, True)
    (save_answer hmac audit_key zone_known subject_id timezone clock new_id q t ctx) (λ _ _, True).
Proof.
  unfold save_answer. eapply upholds_bind; [by apply (upholds_pure _ _ (λ _ _, True))|intros tp].
  eapply upholds_bind; [apply (upholds_pure _ _ (λ a _, details_ok (da_details a)))|intros a].
  { intros db a _ Ha. by eapply draft_of_answer_ok. }
  apply (upholds_fact _ (details_ok (da_details a))); [done|intros Ha].
  apply (upholds_conseq _ _ (λ _, True) _ _ (λ _ _, True)); [|done|done].
  destruct (iq_evidence_ids q) as [|first others].
  { eapply upholds_bind; [apply new_answer_keeps; apply Ha|intros []]. by apply upholds_ret. }
  eapply upholds_bind; [apply upholds_private|intros records].
  apply (upholds_fact _ (∀ r, r ∈ records → good r)); [by intros db (_ & _ & ?)|intros Hrec].
  apply (upholds_conseq _ _ (λ _, True) _ _ (λ _ _, True)); [|done|done].
  eapply upholds_bind; [apply (upholds_pure _ _ (λ l _, ∀ r, r ∈ l → good r))|intros sources].
  { intros db l _ Hl. by eapply items_good. }
  apply (upholds_fact _ (∀ r, r ∈ sources → good r)); [done|intros Hs].
  apply (upholds_conseq _ _ (λ _, True) _ _ (λ _ _, True)); [|done|done].
  pose proof (narrow_ok a sources Ha) as Hn. cbv zeta.
  eapply upholds_bind; [|intros []; by apply (upholds_ret _ _ _ (λ _ _, True))].
  destruct (existsb imported sources); [by apply upholds_reconciliation|].
  destruct sources as [|r rest]; [by apply upholds_ret|]. by apply upholds_replace.
Qed.

Lemma upholds_respond_answer state q clean :
  upholds rows_good (λ _, True)
    (respond_answer hmac audit_key zone_known subject_id timezone clock new_id state q clean ctx)
    (λ _ _, True).
Proof.
  unfold respond_answer. cbv zeta. destruct (_ && _); [by apply upholds_ret|].
  eapply upholds_bind; [apply upholds_save_answer|intros pending]. by apply upholds_ret.
Qed.

Lemma upholds_respond state q t action :
  upholds rows_good (λ db, iq_mode q = CONFIRM → awaits q db)
    (respond hmac audit_key zone_known subject_id timezone clock new_id state q t action ctx)
    (λ _ _, True).
Proof.
  unfold respond. cbv zeta.
  assert (∀ mode, upholds rows_good (λ _, True)
    (if bool_decide (action = SKIP) then mret (after_skip q state, "Of course. We can leave that out.")
     else if bool_decide (mode = PERMISSION) then
       pure (permission (set_last_key (iq_key q) state) (iq_domain q) (normalized (strip t)))
       ≫= λ s, mret (s, "Saved.")
     else if negb (acceptable (strip t)) then value_error answer_length_error
     else respond_answer hmac audit_key zone_known subject_id timezone clock new_id
            (set_last_key (iq_key q) state) q (strip t) ctx) (λ _ _, True)) as Hother.
  { intros mode. destruct (bool_decide (action = SKIP)); [by apply upholds_ret|].
    destruct (bool_decide (mode = PERMISSION)).
    - eapply upholds_bind; [by apply (upholds_pure _ _ (λ _ _, True))|intros s]. by apply upholds_ret.
    - destruct (negb _); [apply upholds_throw|apply upholds_respond_answer]. }
  destruct (iq_mode q) eqn:Hmode.
  4:{ eapply upholds_conseq; [apply upholds_confirm|auto|done]. }
  all: by eapply upholds_conseq; [apply Hother|..].
Qed.

Lemma upholds_act state action t key :
  upholds rows_good (λ _, True)
    (act hmac audit_key zone_known fold_content strip_content subject_id timezone clock new_id
       state action t ctx key) (λ _ _, True).
Proof.
  unfold act. assert (∀ a, upholds rows_good (λ _, True)
    (if bool_decide (ip_phase state = PhasePaused)
     then value_error "resume the interview before answering"
     else query (question fold_content strip_content subject_id clock state (tc_occurred_at ctx)) ≫= λ oq,
       match oq with
       | None => value_error "there is no pending interview question"
       | Some q => if negb (bool_decide (key = Some (iq_key q)))
                   then value_error "the pending question changed; refresh before answering"
                   else respond hmac audit_key zone_known subject_id timezone clock new_id state q t a ctx
       end) (λ _ _, True)) as Hans.
  { intros a. destruct (bool_decide _); [apply upholds_throw|].
    eapply upholds_bind.
    - apply (upholds_query _ _ _ (λ oq db, match oq with
        | Some q => iq_mode q = CONFIRM → awaits q db | None => True end)).
      intros db [q|] _ Hg Hq; [|done]. intros Hmode. by eapply confirm_awaits.
    - intros [q|]; [|apply upholds_throw]. destruct (negb _); [apply upholds_throw|apply upholds_respond]. }
  destruct action; [apply Hans|apply Hans|by apply upholds_ret|by apply upholds_ret].
Qed.

Lemma session_good db r :
  rows_good db → session session_id clock db = Ok (Some r) →
  good r ∧ mr_memory_id r = session_id ∧ md_memories db !! session_id = Some (row_of_record r).
Proof.
  intros Hdb (records & Hr & [= Hf])%rbind_ok. apply find_some in Hf as [Hin Hb].
  apply andb_true_iff in Hb as [Hid%Z.eqb_eq _]. rewrite <- list_elem_of_In in Hin.
  destruct (private_records_good _ _ _ Hdb Hr Hin) as [Hg Hs]. by rewrite Hid in Hs.
Qed.

Lemma position_sound r state :
  validate_progress state = Ok tt → sound_edit (position_correction r state ctx).
Proof.
  intros Hv. split_and!; [|done|done]. unfold plain_correction, position_correction. simpl.
  rewrite Hplain. simpl. unfold validate_correction, validate_nested. simpl. by rewrite Hv.
Qed.

Lemma settle_phase_valid state now db state' :
  settle_phase fold_content strip_content subject_id clock state now db = Ok state' →
  validate_progress state = Ok tt → validate_progress state' = Ok tt.
Proof.
  unfold settle_phase. destruct (ip_phase state); intros Hs;
    [apply rbind_ok in Hs as ([q|] & _ & [= <-])|injection Hs as <-
    |apply rbind_ok in Hs as ([q|] & _ & [= <-])]; done.
Qed.

(** The reply describes the stored position: the next revision, its phase, and
    the question that follows from it. *)
Definition replied (expected : Z) (rep : InterviewReply) (db : memory_db) : Prop :=
  ∃ r state, md_memories db !! session_id = Some (row_of_record r) ∧ mr_interview r = Some state
    ∧ mr_revision r = expected + 1 ∧ ir_revision rep = expected + 1 ∧ ir_phase rep = ip_phase state
    ∧ question fold_content strip_content subject_id clock state (tc_occurred_at ctx) db
      = Ok (ir_question rep).

Lemma upholds_position expected r state ack :
  validate_progress state = Ok tt → mr_revision r = expected →
  upholds rows_good (λ _, True)
    (submit hmac audit_key session_id (position_correction r state ctx) ctx ≫= λ updated,
     query (reply fold_content strip_content subject_id clock updated (tc_occurred_at ctx) ack))
    (replied expected).
Proof.
  intros Hv Hrev. eapply upholds_bind; [by apply upholds_submit, position_sound|intros updated].
  apply upholds_query. intros db rep (Hrow & Hg & Hi & Hr) _ Hrep. simpl in Hi, Hr.
  unfold reply in Hrep. rewrite Hi in Hrep.
  apply rbind_ok in Hrep as (views & _ & (q & Hq & [= <-])%rbind_ok).
  exists updated, state. rewrite Hrev in Hr. split_and!; done.
Qed.

Lemma upholds_advance_block expected action t key :
  upholds rows_good (λ _, True)
    (advance_block hmac audit_key zone_known fold_content strip_content subject_id timezone session_id
       clock new_id expected action t ctx key) (replied expected).
Proof.
  unfold advance_block.
  eapply upholds_bind; [by apply (upholds_query _ _ _ (λ _ _, True))|intros [r|]; [|apply upholds_throw]].
  destruct (mr_interview r) as [state|]; [|apply upholds_throw].
  eapply upholds_bind; [apply (upholds_throw_if _ _ _ _ (λ _ _, mr_revision r = expected))|intros []].
  { intros db _ _ Hb%negb_false_iff. by apply Z.eqb_eq. }
  apply (upholds_fact _ (mr_revision r = expected)); [done|intros Hrev].
  eapply upholds_bind; [eapply upholds_conseq; [apply upholds_act|done|done]|intros [state' ack]]. simpl.
  eapply upholds_bind; [apply (upholds_pure _ _ (λ _ _, validate_progress state' = Ok tt))|intros []].
  { by intros db [] _ Hv%valid_ok. }
  apply (upholds_fact _ (validate_progress state' = Ok tt)); [done|intros Hv].
  eapply upholds_bind; [apply (upholds_query _ _ _ (λ s _, validate_progress s = Ok tt))|intros state''].
  { intros db s _ _ Hs. by eapply settle_phase_valid. }
  apply (upholds_fact _ (validate_progress state'' = Ok tt)); [done|intros Hv'].
  eapply upholds_conseq; [by apply upholds_position|done|done].
Qed.

(** *** Starting *)

Lemma session_progress_valid r state :
  good r → mr_interview r = Some state → validate_progress state = Ok tt.
Proof.
  intros (_ & Hv & _) Hi. unfold record_valid, validate_record in Hv. rewrite Hi in Hv.
  destruct (validate_nested _ _ _ _) as [[]|] eqn:Hn; [|done].
  unfold validate_nested in Hn. rewrite !rbind_unit_iff in Hn. apply Hn.
Qed.

Lemma upholds_begin o :
  upholds rows_good (λ _, True)
    (begin hmac audit_key fold_content strip_content subject_id session_id clock ctx o) (λ _ _, True).
Proof.
  unfold begin. eapply upholds_bind; [apply (upholds_query _ _ _ (λ s db, match s with
    | Some r => good r ∧ mr_memory_id r = session_id | None => True end))|intros s].
  { intros db [r|] _ Hg Hs; [|done]. by destruct (session_good _ _ Hg Hs) as (? & ? & _). }
  eapply upholds_bind; [|intros r; by apply (upholds_query _ _ _ (λ _ _, True))].
  destruct s as [r|]; cbv zeta.
  - apply (upholds_fact _ (good r)); [by intros db []|intros Hr].
    destruct o as [o|]; [|by apply (upholds_ret _ _ _ (λ _ _, True))].
    destruct (mr_interview r) as [state|] eqn:Hi; [|by apply (upholds_ret _ _ _ (λ _ _, True))].
    destruct (bool_decide _); [by apply (upholds_ret _ _ _ (λ _ _, True))|].
    pose proof (session_progress_valid r state Hr Hi) as Hv.
    eapply upholds_conseq; [by apply upholds_submit, position_sound|done|done].
  - eapply upholds_bind; [by apply (upholds_pure _ _ (λ _ _, True))|intros []].
    eapply upholds_bind; [|intros []; by apply (upholds_ret _ _ _ (λ _ _, True))].
    apply upholds_record_new; [|done|done]. unfold plain_record. simpl. by rewrite Hplain.
Qed.
End step.

(** ** Atomicity *)

Lemma within_lift {A} (m : comp (connection memory_db) MemoryError A) : within m → within (lift m).
Proof. intros Hm c Hc. unfold lift. by destruct (Hm c Hc), (m c) as [c' [a|e]]. Qed.

Ltac within_step :=
  match goal with
  | |- within (_ ≫= _) => apply within_bind
  | |- within (query _) => apply within_query
  | |- within (pure _) => apply within_query
  | |- within (execute _) => apply within_execute
  | |- within (mret _) => apply within_ret
  | |- within (throw _) => apply within_throw
  | |- within (throw_if _ _) => by intros c Hc
  | |- within (value_error _) => apply within_throw
  | |- within (lift _) => apply within_lift
  | |- within (for_each _ _) => apply within_for_each
  | |- within (domain_transaction _) => apply within_domain_transaction
  | |- within (match ?x with _ => _ end) => destruct x
  end.

Lemma within_submit id m ctx : within (submit hmac audit_key id m ctx).
Proof. unfold submit, correct, audit_verify, remove. repeat (intros; within_step). Qed.
Lemma within_record_new r ctx : within (record_new hmac audit_key r ctx).
Proof. unfold record_new, remember, audit_verify. repeat (intros; within_step). Qed.

Lemma within_advance_block clock new_id expected action t ctx key :
  within (advance_block hmac audit_key zone_known fold_content strip_content subject_id timezone
            session_id clock new_id expected action t ctx key).
Proof.
  unfold advance_block, act, respond, confirm, confirm_skip, confirm_yes, reparse_pending,
    resolve_pending, respond_answer, save_answer, save_reconciliation, supersede, forget,
    delete_record, audit_verify, remove. cbv zeta.
  repeat (intros; first [apply within_submit | apply within_record_new | within_step]).
Qed.

(** ** Histories *)

Inductive interview_op :=
| OpBegin (clock : datetime) (ctx : TransitionContext) (o : option objective)
| OpAdvance (clock : datetime) (new_id : uuid) (ctx : TransitionContext) (expected : Z)
    (action : interview_action) (t : text) (key : option string).

(** The clocks are aware, and the service stamps its steps with fixed offsets. *)
Definition op_timely (op : interview_op) : bool :=
  match op with
  | OpBegin clock ctx _ | OpAdvance clock _ ctx _ _ _ _ =>
      aware clock && plain_time (tc_occurred_at ctx) && aware (tc_occurred_at ctx)
  end.

Definition interview_do (op : interview_op) (c : connection memory_db) :
    connection memory_db * result InterviewError InterviewReply :=
  match op with
  | OpBegin clock ctx o =>
      begin hmac audit_key fold_content strip_content subject_id session_id clock ctx o c
  | OpAdvance clock new_id ctx expected action t key =>
      advance hmac audit_key zone_known fold_content strip_content subject_id timezone session_id
        clock new_id expected action t ctx key c
  end.

Definition interview_run (ops : list interview_op) (c : connection memory_db) : connection memory_db :=
  foldl (λ c op, (interview_do op c).1) c ops.

Definition conn_good (c : connection memory_db) : Prop := rows_good (live c) ∧ rows_good (durable c).

Lemma interview_do_good op c : conn_good c → op_timely op = true → conn_good (interview_do op c).1.
Proof.
  intros [Hl Hd] Ht. destruct op as [clock ctx o|clock new_id ctx expected action t key]; simpl in *;
    apply andb_true_iff in Ht as [[Hc Hp]%andb_true_iff Ha].
  - pose proof (upholds_begin clock ctx Hc Hp o c I Hl Hd) as Hk.
    destruct (begin _ _ _ _ _ _ _ _ _ c) as [c' [rep|e]]; [by destruct Hk as (_ & ? & ?)|done].
  - pose proof (upholds_block _ _ _ _ (upholds_advance_block clock new_id ctx Hc Hp Ha expected action t key)
      c I Hl Hd) as Hk.
    unfold advance.
    destruct (domain_transaction _ c) as [c' [rep|e]]; [by destruct Hk as (_ & ? & ?)|done].
Qed.

Lemma interview_run_good ops c :
  conn_good c → forallb op_timely ops = true → conn_good (interview_run ops c).
Proof.
  revert c. induction ops as [|op ops IH]; intros c Hc Ht; [done|]. simpl in Ht.
  apply andb_true_iff in Ht as [Hop Ht]. apply IH; [by apply interview_do_good|done].
Qed.

(** *** Between steps no transaction is open *)

Definition idle (c : connection memory_db) : Prop := durable c = live c ∧ in_transaction c = false.
Definition stays_idle {E A : Type} (m : comp (connection memory_db) E A) : Prop :=
  ∀ c, idle c → idle (m c).1.

Lemma idle_bind {E A B} (m : comp (connection memory_db) E A) (k : A → comp (connection memory_db) E B) :
  stays_idle m → (∀ a, stays_idle (k a)) → stays_idle (m ≫= k).
Proof.
  intros Hm Hk c Hc. unfold mbind, comp_bind. specialize (Hm c Hc).
  destruct (m c) as [c' [a|e]]; [by apply Hk|done].
Qed.

Lemma idle_block {E A} (m : comp (connection memory_db) E A) : stays_idle (domain_transaction m).
Proof.
  intros c [Hd Hin]. unfold domain_transaction. rewrite Hin. by destruct (m _) as [c' [a|e]].
Qed.

Lemma idle_lift {A} (m : comp (connection memory_db) MemoryError A) : stays_idle m → stays_idle (lift m).
Proof. intros Hm c Hc. specialize (Hm c Hc). unfold lift. by destruct (m c) as [c' [a|e]]. Qed.

Lemma idle_query {E A} (f : memory_db → result E A) : stays_idle (query f).
Proof. by intros c Hc. Qed.
Lemma idle_ret {A} (a : A) : stays_idle (E := InterviewError) (mret a).
Proof. by intros c Hc. Qed.

Lemma idle_submit id m ctx : stays_idle (submit hmac audit_key id m ctx).
Proof. apply idle_bind; [apply idle_query|]. intros _. apply idle_lift, idle_block. Qed.

Lemma idle_record_new r ctx : stays_idle (record_new hmac audit_key r ctx).
Proof.
  apply idle_bind; [apply idle_query|]. intros r'. apply idle_lift. unfold remember.
  destruct (parse_record _); [apply idle_block|by intros c Hc].
Qed.

Lemma idle_begin clock ctx o :
  stays_idle (begin hmac audit_key fold_content strip_content subject_id session_id clock ctx o).
Proof.
  unfold begin. apply idle_bind; [apply idle_query|]. intros s.
  apply idle_bind; [|intros; apply idle_query]. destruct s as [r|]; cbv zeta.
  - destruct o; [|apply idle_ret]. destruct (mr_interview r); [|apply idle_ret].
    destruct (bool_decide _); [apply idle_ret|apply idle_submit].
  - apply idle_bind; [apply idle_query|]. intros _.
    apply idle_bind; [apply idle_record_new|intros; apply idle_ret].
Qed.

Lemma interview_run_idle ops c : idle c → idle (interview_run ops c).
Proof.
  revert c. induction ops as [|op ops IH]; intros c Hc; [done|]. apply IH.
  destruct op; [by apply idle_begin|by apply idle_block].
Qed.

(** A store without memories. *)
Definition empty_store (c : connection memory_db) : Prop :=
  md_memories (live c) = ∅ ∧ md_memories (durable c) = ∅.

Lemma empty_store_good c : empty_store c → conn_good c.
Proof. intros [Hl Hd]. split; intros id row; [rewrite Hl|rewrite Hd]; by rewrite lookup_empty. Qed.

(** C28. The interview keeps the store readable: it corrects memories with copies
    of models that nothing revalidates, yet from any good store - its rows are valid
    records, imported evidence under review included, that plan nothing pending -
    after any of its steps, whatever the user said, the store is good again: every
    row is a valid record under its own identifier, every retrieval succeeds and it
    returns valid records. *)
Theorem interview_keeps_store_readable c ops scope clock :
  conn_good c → forallb op_timely ops = true → aware clock = true →
  conn_good (interview_run ops c)
  ∧ ∃ l, retrieve scope clock (live (interview_run ops c)) = Ok l
    ∧ ∀ r, r ∈ l → record_valid zone_known r = true.
Proof.
  intros Hc Ht Hclock. pose proof (interview_run_good ops c Hc Ht) as Hg. split; [done|].
  destruct (retrieve_good scope clock _ (proj1 Hg) Hclock) as (l & Hr & Hl). exists l. split; [done|].
  intros r Hin. by destruct (Hl r Hin) as [(_ & Hv & _) _].
Qed.

(** What a good store projects for planning awaits no confirmation. *)
Lemma projection_confirmed db clock now l :
  rows_good db → aware clock = true →
  planning_knowledge fold_content strip_content subject_id clock now db = Ok l →
  ∀ v k, v ∈ l → mr_knowledge (kv_record v) = Some k →
    kd_pending_confirmation k = None
    ∧ (kd_kind k = KnowledgeKind.ROUTINE → has (kd_routine k) = true).
Proof.
  intros Hl Hclock Hp v k Hv Hk. unfold planning_knowledge, knowledge in Hp.
  destruct (retrieve _ _ _) as [found|] eqn:Hf; [|done].
  destruct (views_of _ _ _ _ _) as [views|] eqn:Hviews; [|done]. injection Hp as <-.
  apply list_elem_of_In, filter_In in Hv as [Hin Hpl]. rewrite <- list_elem_of_In in Hin.
  apply (views_of_elem _ _ _ _ _ _ _ Hviews) in Hin as (r & k' & [Hr _]%about_elem & Hk' & Hview).
  destruct (view_of_ok _ _ _ _ _ _ _ Hview) as (_ & Hrec & _). rewrite Hrec in Hk.
  destruct (retrieve_good_elem _ _ _ _ _ Hl Hclock Hf Hr) as [(_ & _ & _ & Hd) _].
  apply (Hd k Hk). unfold plannable in Hpl. rewrite Hrec, Hk in Hpl.
  rewrite !andb_true_iff in Hpl. apply Hpl.
Qed.

(** Nothing unconfirmed is planned: after any steps of the interview, no
    assertion that the planning projection returns awaits confirmation, and each
    routine in it has the details the user confirmed. *)
Theorem drafts_never_planned c ops clock now l :
  empty_store c → forallb op_timely ops = true → aware clock = true →
  planning_knowledge fold_content strip_content subject_id clock now (live (interview_run ops c)) = Ok l →
  ∀ v k, v ∈ l → mr_knowledge (kv_record v) = Some k →
    kd_pending_confirmation k = None
    ∧ (kd_kind k = KnowledgeKind.ROUTINE → has (kd_routine k) = true).
Proof.
  intros Hc Ht Hclock. destruct (interview_run_good ops c (empty_store_good c Hc) Ht) as [Hl _].
  by apply projection_confirmed.
Qed.

(** A step of the interview is all or nothing: from any state it has reached,
    a step that raises changes neither memory nor disk, and one that returns was
    made against the stored revision, is durable, and leaves the position at
    exactly the next revision with the reply's phase and question. *)
Theorem advance_all_or_nothing c ops clock new_id ctx expected action t key :
  empty_store c → durable c = live c → in_transaction c = false →
  forallb op_timely (ops ++ [OpAdvance clock new_id ctx expected action t key]) = true →
  let before := interview_run ops c in
  match advance hmac audit_key zone_known fold_content strip_content subject_id timezone session_id
          clock new_id expected action t ctx key before with
  | (after, Err _) => after = before
  | (after, Ok rep) =>
      durable after = live after ∧ in_transaction after = false
      ∧ (∃ r, session session_id clock (live before) = Ok (Some r) ∧ mr_revision r = expected)
      ∧ replied clock ctx expected rep (live after)
  end.
Proof.
  intros Hc Hd0 Hin0 Ht before. rewrite forallb_app in Ht. apply andb_true_iff in Ht as [Ht Hop].
  simpl in Hop. apply andb_true_iff in Hop as [[[Hclock Hp]%andb_true_iff Ha]%andb_true_iff _].
  destruct (interview_run_good ops c (empty_store_good c Hc) Ht) as [Hl Hd]. fold before in Hl, Hd.
  assert (idle before) as [Hdur Hin] by (by apply interview_run_idle).
  pose proof (upholds_block _ _ _ _ (upholds_advance_block clock new_id ctx Hclock Hp Ha expected action t key)
      before I Hl Hd) as Hk.
  pose proof (λ e, domain_transaction_atomic _ before e
    (within_advance_block clock new_id expected action t ctx key) (λ _, eq_sym Hdur)) as Hat.
  unfold advance. destruct (domain_transaction _ before) as [after [rep|e]] eqn:Hrun; [|by apply (Hat e)].
  destruct (domain_transaction_inv _ _ _ _ Hin Hrun) as (c1 & Hblock & ->).
  split_and!; [done|done| |apply Hk].
  apply bind_inv in Hblock as (s & c2 & [-> Hs]%query_inv & Hblock). simpl in Hs.
  destruct s as [r|]; [|done]. destruct (mr_interview r); [|done].
  apply bind_inv in Hblock as ([] & c3 & Hthrow & _). exists r. split; [done|].
  unfold throw_if in Hthrow. injection Hthrow as _ Hthrow. apply raise_if_ok in Hthrow.
  by apply negb_false_iff, Z.eqb_eq in Hthrow.
Qed.
End store.
