(* ===== verification/InterviewScenarios.v ===== *)
(** * An interview, step by step

    A concrete interview about the coming week: sensitive topics are skipped, a
    routine is stated and confirmed; and what the code does in three corners. *)

From stdpp Require Import prelude base strings list gmap.
From Stdlib Require Import ZArith Lia QArith NArith.
From S2P Require Import Prelude PyTime PyText PyUuid Transactions AuditLedger Knowledge Memory MemoryCodec MemorySpec LifeModel PyRe RoutineText InterviewCatalog Interview InterviewSpec InterviewStore.
#[local] Open Scope string_scope.
#[local] Open Scope list_scope.
#[local] Open Scope Z_scope.

Module Chat.
Definition zones (key : string) : bool := true.
#[export] Instance codec : RecordCodec := TextCodec.codec zones.
#[export] Instance laws : RecordCodecLaws zones := TextCodec.laws zones.
#[export] Instance unicode : Unicode := Latin.unicode.
Definition mac (key payload : string) : string := key.
Definition same (s : string) : string := s.
Definition ctx (t : Z) : TransitionContext :=
  {| tc_actor := "owner"; tc_correlation_id := "c"; tc_occurred_at := utc_datetime t |}.
Definition db : memory_db :=
  {| md_memories := ∅; md_tombstones := ∅; md_manifests := ∅; md_backup_records := ∅;
     md_memory_coverage := ∅; md_audit := empty_ledger |}.
Definition conn : connection memory_db := {| live := db; durable := db; in_transaction := false |}.
Lemma conn_empty : empty_store conn.
Proof. done. Qed.
Definition session_id : uuid := 1000.

Abbreviation run := (interview_run mac "k" zones same same "me" "UTC" session_id).
Abbreviation step := (interview_do mac "k" zones same same "me" "UTC" session_id).
Definition skip (revision : Z) (key : string) : interview_op :=
  OpAdvance (utc_datetime 0) 0 (ctx 0) revision SKIP [] (Some key).
Definition say (id : uuid) (t : Z) (revision : Z) (key answer : string) : interview_op :=
  OpAdvance (utc_datetime t) id (ctx t) revision ANSWER (lit answer) (Some key).

(** The week's topics up to the first routine. *)
Definition opening : list interview_op :=
  [OpBegin (utc_datetime 0) (ctx 0) (Some WEEK_PLANNING);
   skip 1 "work.role"; skip 2 "work.schedule"; skip 3 "planning.fixed_commitments";
   skip 4 "permission.values"; skip 5 "education.program"; skip 6 "education.classes"].
Definition stated : list interview_op :=
  opening ++ [say 7 1 7 "routines.sleep" "Every day 11pm to 7am, 10 minutes wind down."].
Definition confirmed : list interview_op := stated ++ [say 8 2 8 "routines.sleep" "Yes!"].

Definition planned (ops : list interview_op) : option (list (uuid * bool)) :=
  match planning_knowledge same same "me" (utc_datetime 3) (utc_datetime 3) (live (run ops conn)) with
  | Ok l => Some (map (λ v, (mr_memory_id (kv_record v),
                             match mr_knowledge (kv_record v) with
                             | Some k => has (kd_routine k) | None => false end)) l)
  | Err _ => None
  end.
End Chat.
#[local] Existing Instances Chat.codec Chat.laws Chat.unicode.

(** The routine enters planning when it is confirmed, not when it is stated. *)
Lemma confirmation_promotes :
  Chat.planned Chat.stated = Some [] ∧ Chat.planned Chat.confirmed = Some [(7, true)].
Proof. vm_compute. done. Qed.

(** ** The guarantees at work *)

(** A position that permits the user's values but not their finances. *)
Definition open_minded : InterviewProgress :=
  permit_domain LifeDomain.VALUES
    (skip_domain LifeDomain.WORK (skip_domain LifeDomain.PLANNING (new_progress "me" WEEK_PLANNING))).


(** A restricted note about sleep, under review. *)
Definition night_details : KnowledgeDetails :=
  with_sensitivity Sensitivity.RESTRICTED
    (answer_details "me"
       (topic "routines.sleep" LifeDomain.ROUTINES KnowledgeKind.ROUTINE "" (Some 90) 5) false
       (utc_datetime 0)).
Definition night_note : MemoryRecord :=
  {| mr_memory_id := 5; mr_category := MemoryCategory.PROFILE; mr_content := "night shifts";
     mr_provenance := provenance (Chat.ctx 0) false; mr_confidence := 1;
     mr_retrieval_scopes := spoken_scopes; mr_created_at := utc_datetime 0;
     mr_retain_until := None; mr_revision := 1; mr_knowledge := Some night_details;
     mr_interview := None |}.
Definition sleep_topic : InterviewTopic :=
  topic "routines.sleep" LifeDomain.ROUTINES KnowledgeKind.ROUTINE "" (Some 90) 5.

Definition restricted_note : MemoryRecord :=
  {| mr_memory_id := 5; mr_category := MemoryCategory.PROFILE; mr_content := "night shifts";
     mr_provenance := provenance (Chat.ctx 0) false; mr_confidence := 1;
     mr_retrieval_scopes := {[ RetrievalScope.PRIVATE ]}; mr_created_at := utc_datetime 0;
     mr_retain_until := None; mr_revision := 2;
     mr_knowledge := Some (with_pending (Some (empty_draft "UTC")) night_details);
     mr_interview := None |}.

(** Confirming asks no permission: a routine that awaits confirmation is read back
    although the user has since restricted it and its domain is not permitted,
    where a review of the same evidence would have asked for the permission. *)
Lemma confirmation_ignores_permission :
  let views := [{| kv_record := restricted_note;
                   kv_state := KnowledgeState.CONFIRMED; kv_current := true |}] in
  let state := new_progress "me" WEEK_PLANNING in
  kd_sensitivity night_details = Sensitivity.RESTRICTED
  ∧ (LifeDomain.ROUTINES ∉ ip_permitted_domains state)
  ∧ private_topic sleep_topic views = true
  ∧ match choose_question (set_pending (Some "routines.sleep") state) views with
    | Ok (Some q) => iq_mode q = CONFIRM ∧ iq_domain q = LifeDomain.ROUTINES
    | _ => False
    end.
Proof. vm_compute. naive_solver. Qed.

Lemma review_never_widens_witness :
  match draft_of_answer Chat.zones "me" "UTC" sleep_topic (lit "daily 11pm to 7am") (Chat.ctx 1) with
  | Ok a => da_scopes (narrow a [night_note]) = {[ RetrievalScope.PRIVATE ]}
  | Err _ => False
  end.
Proof.
  destruct (draft_of_answer Chat.zones "me" "UTC" sleep_topic (lit "daily 11pm to 7am") (Chat.ctx 1))
    as [a|e] eqn:Ha; [|by vm_compute in Ha].
  refine (proj2 (proj1 (proj2 (review_never_widens Chat.zones "me" "UTC" sleep_topic
    (lit "daily 11pm to 7am") (Chat.ctx 1) a [night_note] Ha)) night_note night_details _ _) _).
  - rewrite elem_of_cons. by left.
  - reflexivity.
  - discriminate.
Defined.

(** A store that holds a note imported from a document. *)
Definition imported_details : KnowledgeDetails :=
  {| kd_subject_id := "me"; kd_key := "work.role"; kd_cardinality := ONE;
     kd_domain := LifeDomain.WORK; kd_kind := KnowledgeKind.FACT;
     kd_state := KnowledgeState.OBSERVED; kd_observed_at := utc_datetime 0;
     kd_last_confirmed_at := None; kd_valid_from := None; kd_valid_until := None;
     kd_expected_staleness_days := None; kd_sensitivity := Sensitivity.PERSONAL;
     kd_importance := 5; kd_related_entity_ids := []; kd_related_goal_ids := [];
     kd_related_project_ids := []; kd_evidence_ids := []; kd_conflicts_with := [];
     kd_planning_allowed := false;
     kd_source_evidence :=
       Some {| se_source_id := "cv"; se_source_path := "cv.md"; se_document_sha256 := "00";
               se_generated_at := utc_datetime 0; se_declared_state := None;
               se_observation_precision := DAY; se_original := "Nurse" |};
     kd_superseded_by := None; kd_routine := None; kd_pending_confirmation := None;
     kd_project := None; kd_open_loop := None |}.
Definition imported_note : MemoryRecord :=
  {| mr_memory_id := 5; mr_category := MemoryCategory.PROFILE; mr_content := "Nurse";
     mr_provenance := {| mp_source := MemorySource.IMPORT; mp_source_id := "cv";
                         mp_captured_at := utc_datetime 0 |};
     mr_confidence := 1 # 2; mr_retrieval_scopes := spoken_scopes; mr_created_at := utc_datetime 0;
     mr_retain_until := None; mr_revision := 1;
     mr_knowledge := Some imported_details; mr_interview := None |}.
Definition imported_db : memory_db :=
  {| md_memories := {[ 5 := row_of_record imported_note ]}; md_tombstones := ∅; md_manifests := ∅;
     md_backup_records := ∅; md_memory_coverage := ∅; md_audit := empty_ledger |}.
Definition imported_conn : connection memory_db :=
  {| live := imported_db; durable := imported_db; in_transaction := false |}.
Definition reviewed : list interview_op :=
  [OpBegin (utc_datetime 0) (Chat.ctx 0) (Some WEEK_PLANNING); Chat.say 21 1 1 "work.role" "Engineer"].

Lemma imported_conn_good : conn_good Chat.zones imported_conn.
Proof.
  assert (rows_good Chat.zones imported_db) as Hg; [|done].
  intros id row Hrow. apply (lookup_singleton_Some 5 id (row_of_record imported_note) row) in Hrow as [<- <-]. exists imported_note. split_and!; [done..|].
  split_and!; [vm_compute; reflexivity..| |]; [done|]. intros k [= <-]. by split.
Qed.

(** Answering its review reconciles the note: it stays, superseded by the answer. *)
Lemma review_reconciles_import :
  match retrieve RetrievalScope.PRIVATE (utc_datetime 3) (live (Chat.run reviewed imported_conn)) with
  | Ok l => omap (λ r, k ← mr_knowledge r; Some (mr_memory_id r, mr_content r, kd_superseded_by k)) l
            = [(5, "Nurse", Some 21); (21, "Engineer", None)]
  | Err _ => False
  end.
Proof. vm_compute. reflexivity. Qed.

Lemma interview_keeps_store_readable_witness :
  ∃ l, retrieve RetrievalScope.PRIVATE (utc_datetime 3) (live (Chat.run reviewed imported_conn)) = Ok l
    ∧ ∀ r, r ∈ l → record_valid Chat.zones r = true.
Proof.
  refine (proj2 (interview_keeps_store_readable Chat.mac "k" Chat.zones Chat.same Chat.same "me" "UTC"
    Chat.session_id imported_conn reviewed RetrievalScope.PRIVATE (utc_datetime 3)
    imported_conn_good _ eq_refl)).
  vm_compute. reflexivity.
Defined.

Lemma drafts_never_planned_witness :
  ∃ l, planning_knowledge Chat.same Chat.same "me" (utc_datetime 3) (utc_datetime 3)
         (live (Chat.run Chat.confirmed Chat.conn)) = Ok l
    ∧ l ≠ []
    ∧ ∀ v k, v ∈ l → mr_knowledge (kv_record v) = Some k → kd_pending_confirmation k = None.
Proof.
  assert (match planning_knowledge Chat.same Chat.same "me" (utc_datetime 3) (utc_datetime 3)
            (live (Chat.run Chat.confirmed Chat.conn)) with Ok (_ :: _) => true | _ => false end = true)
    as Hok by (vm_compute; reflexivity).
  destruct (planning_knowledge Chat.same Chat.same "me" (utc_datetime 3) (utc_datetime 3)
              (live (Chat.run Chat.confirmed Chat.conn))) as [l|e] eqn:Hl; [|discriminate Hok].
  exists l. split; [reflexivity|]. split.
  - intros ->. discriminate Hok.
  - intros v k Hv Hk.
    refine (proj1 (drafts_never_planned Chat.mac "k" Chat.zones Chat.same Chat.same "me" "UTC"
      Chat.session_id Chat.conn Chat.confirmed (utc_datetime 3) (utc_datetime 3) l
      Chat.conn_empty _ eq_refl Hl v k Hv Hk)).
    vm_compute. reflexivity.
Defined.

Lemma advance_all_or_nothing_witness :
  match advance Chat.mac "k" Chat.zones Chat.same Chat.same "me" "UTC" Chat.session_id
          (utc_datetime 2) 8 8 ANSWER (lit "Yes!") (Chat.ctx 2) (Some "routines.sleep")
          (Chat.run Chat.stated Chat.conn) with
  | (after, Err _) => False
  | (after, Ok rep) => durable after = live after ∧ ir_revision rep = 9
  end.
Proof.
  pose proof (advance_all_or_nothing Chat.mac "k" Chat.zones Chat.same Chat.same "me" "UTC"
    Chat.session_id Chat.conn Chat.stated (utc_datetime 2) 8 (Chat.ctx 2) 8 ANSWER (lit "Yes!")
    (Some "routines.sleep") Chat.conn_empty eq_refl eq_refl eq_refl) as H. cbv zeta in H.
  assert (is_ok (advance Chat.mac "k" Chat.zones Chat.same Chat.same "me" "UTC" Chat.session_id
          (utc_datetime 2) 8 8 ANSWER (lit "Yes!") (Chat.ctx 2) (Some "routines.sleep")
          (Chat.run Chat.stated Chat.conn)).2 = true) as Hok by (vm_compute; reflexivity).
  destruct (advance Chat.mac "k" Chat.zones Chat.same Chat.same "me" "UTC" Chat.session_id
          (utc_datetime 2) 8 8 ANSWER (lit "Yes!") (Chat.ctx 2) (Some "routines.sleep")
          (Chat.run Chat.stated Chat.conn)) as [after [rep|e]]; [|discriminate Hok].
  destruct H as (Hd & _ & _ & r & s & _ & _ & _ & Hrev & _). split; [exact Hd|exact Hrev].
Defined.

(** ** Three corners *)

(** The week's interview up to the inbox, two tasks noted, and a hundred days. *)
Definition hundred_days : Z := 100 * 24 * 60 * minute.
Definition inbox : list interview_op :=
  Chat.opening ++
  [Chat.skip 7 "routines.sleep"; Chat.skip 8 "routines.exercise"; Chat.skip 9 "routines.meals";
   Chat.skip 10 "projects.inventory"; Chat.skip 11 "now.success";
   Chat.say 21 1 12 "open_loops.head" "Call mum"; Chat.say 22 2 13 "open_loops.promises" "Send the report"].
Definition loops (c : connection memory_db) : list string :=
  match retrieve RetrievalScope.PRIVATE (utc_datetime hundred_days) (live c) with
  | Ok l => omap (λ r, match mr_knowledge r with Some _ => Some (mr_content r) | None => None end) l
  | Err _ => []
  end.

(** Reconciling the inbox loses tasks: answering the question about the tasks
    already in the inbox replaces the first of them by the answer and erases the
    others that were shown. *)
Theorem inbox_review_erases_tasks :
  loops (Chat.run inbox Chat.conn) = ["Call mum"; "Send the report"]
  ∧ loops (Chat.run (inbox ++ [Chat.say 23 hundred_days 14 "open_loops.known" "Both are still active"])
             Chat.conn) = ["Both are still active"].
Proof. vm_compute. done. Qed.

(** A commute "of" some minutes is taken as the activity's duration too, and a
    hyphenated one is not recognised as a commute at all. *)
Theorem commute_wording_misread :
  extract_minutes (lit "gym with 30 minutes of travel") TRAVEL_KEYWORDS = Ok 30
  ∧ extract_duration (lit "gym with 30 minutes of travel") = Ok (Some 30)
  ∧ extract_minutes (lit "gym with a 30-minute commute") TRAVEL_KEYWORDS = Ok 0
  ∧ extract_minutes (lit "gym with a 30 minute commute") TRAVEL_KEYWORDS = Ok 30.
Proof. vm_compute. done. Qed.

(** An answer within the permitted length can make the step raise something
    other than the documented refusals: a duration beyond the range of doubles. *)
Theorem long_number_raises :
  let digits := replicate 400 57%N in
  match advance Chat.mac "k" Chat.zones Chat.same Chat.same "me" "UTC" Chat.session_id
          (utc_datetime 1) 7 7 ANSWER (digits ++ lit " hours") (Chat.ctx 1) (Some "routines.sleep")
          (Chat.run Chat.opening Chat.conn) with
  | (_, r) => r = Err (InterviewNumber FloatOverflow)
  end.
Proof. vm_compute. done. Qed.
