(* ===== verification/WeekPlanning.v ===== *)
(** * Weekly planning ([week_planning.py])

    From the planning projection of the Life Model to the request of the planner
    and the events of the proposal: which knowledge becomes timed activities,
    which stays an explicit gap, and over which week. *)

From stdpp Require Import prelude base strings list gmap pretty.
From Stdlib Require Import ZArith Lia QArith.
From S2P Require Import Prelude PyTime PyText PyUuid Knowledge Memory LifeModel PlannerModels Planner.
#[local] Open Scope string_scope.
#[local] Open Scope list_scope.
#[local] Open Scope Z_scope.

(** ** Local times *)

(** The fold [astimezone] sets: the second occurrence of a repeated time. *)
Definition fold_of (z : zone) (d : datetime) : bool :=
  negb (dt_offset d =? wall_offset false (zone_data z) (dt_local d)).

(** [now.astimezone(zone).replace(hour=0, minute=0, second=0, microsecond=0)] *)
Definition start_of_day (z : zone) (now : datetime) : datetime :=
  let d := astimezone z (utc now) in in_zone z (fold_of z d) (date_of d * day).

(** [time] as microseconds of the day. *)
Definition time_of_day (t : clock_time) : Z :=
  ct_hour t * hour + ct_minute t * minute + ct_second t * second + ct_microsecond t.

(** ** Knowledge to activities *)

Record PlanningGap := {
  gap_memory_id : uuid;
  gap_title : string;
  gap_explanation : string;
}.

Record RoutineOccurrence := {
  oc_view : KnowledgeView;
  oc_routine : RoutineDetails;
  oc_local_date : Z;
  oc_activity_id : string;
}.

Inductive WeekError :=
| WeekZoneNotFound (key : string)
| WeekAssertion (message : string)
| WeekValidation (e : ValidationError)
| WeekKnowledge (e : MemoryError)
| WeekPlanner (e : PlannerError).

Definition view_id (v : KnowledgeView) : uuid := mr_memory_id (kv_record v).

(** [_gap] *)
Definition gap (v : KnowledgeView) : PlanningGap :=
  {| gap_memory_id := view_id v; gap_title := mr_content (kv_record v);
     gap_explanation := "Structured knowledge does not provide a safely schedulable time." |}.

Definition routine_of (v : KnowledgeView) : option RoutineDetails :=
  k ← mr_knowledge (kv_record v); kd_routine k.

Section mapping.
Context (db : zone_db).
Open Scope py_scope.

Definition zone_named (key : string) : option zone := mk_zone key <$> db key.

(** The dates of the week a routine permits. *)
Definition permitted_dates (first_date : Z) (days : gset Z) : list Z :=
  List.filter (λ d, bool_decide (weekday d ∈ days)) (seqZ first_date 7).

(** All of them, or as many as the minimum frequency asks for. *)
Definition selected_dates (first_date : Z) (r : RoutineDetails) : list Z :=
  let dates := permitted_dates first_date (rd_days r) in
  if rd_minimum_weekly_frequency r =? 0 then dates
  else take (Z.to_nat (rd_minimum_weekly_frequency r)) dates.

Definition routine_activity_id (id : uuid) (date : Z) : string :=
  "routine:" +:+ uuid_str id +:+ ":" +:+ date_isoformat date.

Definition occurrence (v : KnowledgeView) (r : RoutineDetails) (date : Z) : RoutineOccurrence :=
  {| oc_view := v; oc_routine := r; oc_local_date := date;
     oc_activity_id := routine_activity_id (view_id v) date |}.

(** The occurrences of a view, or [None] for a gap. *)
Definition occurrences_of (window_start : datetime) (v : KnowledgeView) :
    option (list RoutineOccurrence) :=
  r ← routine_of v;
  z ← zone_named (rd_timezone r);
  Some (map (occurrence v r) (selected_dates (date_of (astimezone z (utc window_start))) r)).

Definition occurrence_table : Type := list (uuid * list RoutineOccurrence).
Definition gap_table : Type := list (uuid * PlanningGap).

(** One step of the first loop. *)
Definition collect_view (window_start : datetime) (st : occurrence_table * gap_table)
    (v : KnowledgeView) : occurrence_table * gap_table :=
  match occurrences_of window_start v with
  | Some items => (dict_set (view_id v) items st.1, st.2)
  | None => (st.1, dict_set (view_id v) (gap v) st.2)
  end.

Definition sorted_views (views : list KnowledgeView) : list KnowledgeView :=
  py_sorted (λ a b, String.ltb (uuid_str (view_id a)) (uuid_str (view_id b))) views.

Definition collected (window_start : datetime) (views : list KnowledgeView) :
    occurrence_table * gap_table :=
  foldl (collect_view window_start) ([], []) (sorted_views views).

Definition minutes_between (a b : datetime) : Z := (utc b - utc a) / minute.

(** [_activity], before validation. *)
Definition fixed_activity (o : RoutineOccurrence) (nominal : datetime) (dependencies : list string)
    (planning_zone : zone) : PlanActivity :=
  let r := oc_routine o in
  let fixed_start := astimezone planning_zone
    (utc nominal - minutes (rd_preparation_minutes r + rd_travel_minutes r)) in
  let fixed_end := astimezone planning_zone
    (utc nominal + minutes (rd_duration_minutes r + rd_transition_minutes r)) in
  {| pa_activity_id := oc_activity_id o; pa_title := mr_content (kv_record (oc_view o));
     pa_flexibility := FIXED; pa_duration_minutes := minutes_between fixed_start fixed_end;
     pa_fixed_start := Some fixed_start; pa_fixed_end := Some fixed_end;
     pa_earliest_start := None; pa_latest_end := None; pa_deadline := None;
     pa_recover_missed_deadline := false; pa_dependencies := dependencies;
     pa_travel_minutes_before := 0; pa_travel_minutes_after := 0; pa_energy_required := 1;
     pa_goal_weight := 0; pa_importance := 0;
     pa_display_group := Some (mr_content (kv_record (oc_view o))); pa_display_title := None;
     pa_guidance := []; pa_calendar_eligible := false; pa_personal_micro_event := false |}.

Definition movable_activity (o : RoutineOccurrence) (nominal : option datetime)
    (dependencies : list string) (planning_zone : zone) : PlanActivity :=
  let r := oc_routine o in
  {| pa_activity_id := oc_activity_id o; pa_title := mr_content (kv_record (oc_view o));
     pa_flexibility := FLEXIBLE; pa_duration_minutes := rd_duration_minutes r;
     pa_fixed_start := None; pa_fixed_end := None;
     pa_earliest_start := (λ d, astimezone planning_zone (utc d)) <$> nominal;
     pa_latest_end := None; pa_deadline := None; pa_recover_missed_deadline := false;
     pa_dependencies := dependencies;
     pa_travel_minutes_before := rd_preparation_minutes r + rd_travel_minutes r;
     pa_travel_minutes_after := rd_transition_minutes r; pa_energy_required := 1;
     pa_goal_weight := if bool_decide (rd_flexibility r = RoutineFlexibility.OPTIONAL) then 0
                       else rd_priority r;
     pa_importance := 0; pa_display_group := Some (mr_content (kv_record (oc_view o)));
     pa_display_title := None; pa_guidance := []; pa_calendar_eligible := true;
     pa_personal_micro_event := false |}.

(** [datetime.combine(local_date, start_time, ZoneInfo(timezone))] *)
Definition nominal_start (z : zone) (o : RoutineOccurrence) : option datetime :=
  t ← rd_start_time (oc_routine o);
  Some (in_zone z false (oc_local_date o * day + time_of_day t)).

(** [PlanActivity(...)] *)
Definition built_activity (a : PlanActivity) : result WeekError PlanActivity :=
  match validate_activity a with Ok _ => Ok a | Err e => Err (WeekValidation e) end.

Definition activity (o : RoutineOccurrence) (dependencies : list string) (planning_zone : zone) :
    result WeekError PlanActivity :=
  match zone_named (rd_timezone (oc_routine o)) with
  | None => Err (WeekZoneNotFound (rd_timezone (oc_routine o)))
  | Some z =>
      match rd_flexibility (oc_routine o), nominal_start z o with
      | RoutineFlexibility.FIXED, None =>
          Err (WeekAssertion "validated fixed routine is missing a start time")
      | RoutineFlexibility.FIXED, Some nominal =>
          built_activity (fixed_activity o nominal dependencies planning_zone)
      | _, nominal => built_activity (movable_activity o nominal dependencies planning_zone)
      end
  end.

Fixpoint activities_of (items : list RoutineOccurrence) (dependencies : list string)
    (planning_zone : zone) : result WeekError (list PlanActivity) :=
  match items with
  | [] => Ok []
  | o :: rest =>
      let* a := activity o dependencies planning_zone in
      let* l := activities_of rest dependencies planning_zone in
      Ok (a :: l)
  end.

Definition dependencies_of (items : list RoutineOccurrence) : list uuid :=
  match items with [] => [] | o :: _ => rd_dependency_ids (oc_routine o) end.

Definition resolved (table : occurrence_table) (items : list RoutineOccurrence) : bool :=
  forallb (λ d, match dict_get d table with Some _ => true | None => false end)
    (dependencies_of items).

Definition dependency_activity_ids (table : occurrence_table) (items : list RoutineOccurrence) :
    list string :=
  dependencies_of items ≫= λ d, map oc_activity_id (default [] (dict_get d table)).

(** The second loop. *)
Fixpoint place_occurrences (table : occurrence_table) (planning_zone : zone)
    (rest : occurrence_table) (gaps : gap_table) :
    result WeekError (list PlanActivity * gap_table) :=
  match rest with
  | [] => Ok ([], gaps)
  | (id, items) :: rest' =>
      if resolved table items then
        let* l := activities_of items (dependency_activity_ids table items) planning_zone in
        let* out := place_occurrences table planning_zone rest' gaps in
        Ok (l ++ out.1, out.2)
      else
        place_occurrences table planning_zone rest'
          (match items with [] => gaps | o :: _ => dict_set id (gap (oc_view o)) gaps end)
  end.

Definition map_knowledge (views : list KnowledgeView) (window_start : datetime)
    (planning_zone : zone) : result WeekError (list PlanActivity * list PlanningGap) :=
  let '(table, gaps) := collected window_start views in
  let* out := place_occurrences table planning_zone table gaps in
  Ok (out.1, out.2.*2).

(** ** The week's request *)

Definition week_window (z : zone) (now : datetime) : datetime * datetime :=
  let window_start := start_of_day z now in
  (window_start, astimezone z (utc window_start + 7 * day)).

Definition week_request (timezone : string) (z : zone) (now : datetime)
    (activities : list PlanActivity) : DayPlanRequest :=
  let '(window_start, window_end) := week_window z now in
  {| dr_plan_date := date_of window_start; dr_timezone := timezone;
     dr_window_start := window_start; dr_window_end := window_end; dr_state_revision := 1;
     dr_expected_state_revision := 1; dr_activities := activities; dr_energy_windows := [];
     dr_baseline_blocks := []; dr_schedule_resolution := default_resolution |}.
End mapping.

(** The part of [preview] that plans: read-only, up to the proposed week. *)
Section preview.
Context `{RecordCodec} (db : zone_db) (fold_content strip_content : string → string).
Context (input_fingerprint : DayPlanRequest → string).
Open Scope py_scope.

Definition plan_week (subject_id : string) (clock now : datetime) (timezone : string)
    (store : memory_db) : result WeekError (DayPlanRequest * list PlanningGap * ProposedDay) :=
  match zone_named db timezone with
  | None => Err (WeekZoneNotFound timezone)
  | Some z =>
      let* views := match planning_knowledge fold_content strip_content subject_id clock now store with
                    | Ok l => Ok l | Err e => Err (WeekKnowledge e)
                    end in
      let* mapped := map_knowledge db views (start_of_day z now) z in
      let request := week_request timezone z now mapped.1 in
      let* _ := match validate_week db request with Ok u => Ok u | Err e => Err (WeekValidation e) end in
      let* proposed := match propose_week db input_fingerprint request with
                       | Ok p => Ok p | Err e => Err (WeekPlanner e)
                       end in
      Ok (request, mapped.2, proposed)
  end.
End preview.
