(* ===== verification/WeekPlanningSpec.v ===== *)
(** * What weekly planning guarantees ([week_planning.py])

    Each routine gets exactly the sessions it asks for on permitted days; every
    piece of planning knowledge becomes activities or an explicit gap; and every
    activity of the week stands on knowledge that may be planned. *)

From stdpp Require Import prelude base strings list gmap pretty.
From Stdlib Require Import ZArith Lia QArith.
From S2P Require Import Prelude PyTime PyText PyUuid Knowledge Memory MemoryCodec LifeModel PlannerModels Planner WeekPlanning.
#[local] Open Scope string_scope.
#[local] Open Scope list_scope.
#[local] Open Scope Z_scope.

(** ** Sessions of a routine *)

Definition week_days : list Z := [0; 1; 2; 3; 4; 5; 6].

Lemma seqZ_week first :
  seqZ first 7 = [first; first + 1; first + 2; first + 3; first + 4; first + 5; first + 6].
Proof.
  change (seqZ first 7) with ((λ i : nat, Z.of_nat i + first) <$> seq 0 7). simpl.
  repeat (f_equal; try lia).
Qed.

(** Seven consecutive dates have the seven week days. *)
Lemma week_of_dates first : map weekday (seqZ first 7) ≡ₚ week_days.
Proof.
  assert (∀ i, 0 <= i < 7 → weekday (first + i) = ((first + 3) mod 7 + i) mod 7) as Hw.
  { intros i Hi. unfold weekday. rewrite Z.add_mod_idemp_l by lia. f_equal. lia. }
  pose proof (Z.mod_pos_bound (first + 3) 7 ltac:(lia)) as Hm.
  assert (map weekday (seqZ first 7) =
    map (λ i, ((first + 3) mod 7 + i) mod 7) week_days) as ->.
  { rewrite seqZ_week. unfold week_days. cbn [map]. rewrite <- !Hw by lia. by rewrite Z.add_0_r. }
  set (m := (first + 3) mod 7) in *. clearbody m.
  assert (m = 0 ∨ m = 1 ∨ m = 2 ∨ m = 3 ∨ m = 4 ∨ m = 5 ∨ m = 6) as Hcase by lia.
  repeat destruct Hcase as [->|Hcase]; subst; apply (bool_decide_unpack _); vm_compute; exact I.
Qed.

Lemma length_filter_map {A B} (f : A → B) (p : B → bool) l :
  length (List.filter (λ x, p (f x)) l) = length (List.filter p (map f l)).
Proof. induction l as [|x l IH]; simpl; [done|]. destruct (p (f x)); simpl; lia. Qed.

Lemma filter_perm {A} (p : A → bool) (l l' : list A) :
  l ≡ₚ l' → List.filter p l ≡ₚ List.filter p l'.
Proof.
  induction 1; simpl.
  - done.
  - destruct (p x); [by constructor|done].
  - destruct (p x), (p y); try done. constructor.
  - by etransitivity.
Qed.

Lemma permitted_dates_length first (days : gset Z) :
  set_Forall (λ d, 0 <= d < 7) days → length (permitted_dates first days) = size days.
Proof.
  intros Hd. unfold permitted_dates.
  set (p := λ d : Z, bool_decide (d ∈ days)).
  change (length (List.filter (λ d, p (weekday d)) (seqZ first 7)) = size days).
  rewrite (length_filter_map weekday p).
  rewrite (Permutation_length (filter_perm _ _ _ (week_of_dates first))).
  change (size days) with (length (elements days)). apply Permutation_length, NoDup_Permutation.
  - apply NoDup_ListNoDup, List.NoDup_filter, NoDup_ListNoDup. apply (bool_decide_unpack _). vm_compute. exact I.
  - apply NoDup_elements.
  - intros d. rewrite elem_of_elements, list_elem_of_In, filter_In. unfold p.
    rewrite bool_decide_eq_true, <- list_elem_of_In.
    split; [by intros []|]. intros Hin. split; [|done]. specialize (Hd d Hin). simpl in Hd.
    unfold week_days. rewrite !elem_of_cons. lia.
Qed.

Lemma validate_routine_days zone_known r :
  validate_routine zone_known r = Ok tt →
  rd_days r ≠ ∅ ∧ set_Forall (λ d, 0 <= d < 7) (rd_days r)
  ∧ 0 <= rd_minimum_weekly_frequency r <= Z.of_nat (size (rd_days r)).
Proof.
  unfold validate_routine. rewrite !rbind_unit_iff. unfold field, check.
  rewrite !raise_if_iff.
  intros (H1 & _ & _ & _ & _ & _ & H7 & _ & _ & H10 & H11 & _).
  apply negb_false_iff, negb_true_iff, bool_decide_eq_false in H1.
  apply negb_false_iff in H7. unfold between in H7. apply andb_true_iff in H7 as [H7%Z.leb_le _].
  apply negb_false_iff, bool_decide_eq_true in H10. apply Z.ltb_ge in H11. done.
Qed.

Lemma permitted_dates_elem first days d :
  d ∈ permitted_dates first days ↔ first <= d < first + 7 ∧ weekday d ∈ days.
Proof.
  unfold permitted_dates. rewrite list_elem_of_In, filter_In, <- list_elem_of_In, elem_of_seqZ.
  by rewrite bool_decide_eq_true.
Qed.

Lemma routine_sessions zone_known first r :
  validate_routine zone_known r = Ok tt →
  NoDup (selected_dates first r)
  ∧ (∀ d, d ∈ selected_dates first r → first <= d < first + 7 ∧ weekday d ∈ rd_days r)
  ∧ Z.of_nat (length (selected_dates first r))
    = (if rd_minimum_weekly_frequency r =? 0 then Z.of_nat (size (rd_days r))
       else rd_minimum_weekly_frequency r)
  ∧ selected_dates first r ≠ [].
Proof.
  intros (Hne & Hd & Hf)%validate_routine_days.
  pose proof (permitted_dates_length first _ Hd) as Hlen.
  assert (size (rd_days r) ≠ 0%nat) as Hsz by (by rewrite size_non_empty_iff, leibniz_equiv_iff).
  assert (NoDup (permitted_dates first (rd_days r))) as Hnd
    by (apply NoDup_ListNoDup, List.NoDup_filter, NoDup_ListNoDup, NoDup_seqZ).
  unfold selected_dates. destruct (Z.eqb_spec (rd_minimum_weekly_frequency r) 0) as [Hz|Hz].
  - split_and!; [done|by intros d ?%permitted_dates_elem|by rewrite Hlen|].
    intros Hnil. rewrite Hnil in Hlen. simpl in Hlen. lia.
  - split_and!.
    + eapply sublist_NoDup; [exact Hnd|apply sublist_take].
    + intros d Hin. apply permitted_dates_elem.
      rewrite <- (take_drop (Z.to_nat (rd_minimum_weekly_frequency r)) (permitted_dates _ _)).
      apply elem_of_app. by left.
    + rewrite length_take, Hlen. lia.
    + intros Hnil%(f_equal length). rewrite length_take, Hlen in Hnil. simpl in Hnil. lia.
Qed.

(** A routine gets the sessions it asks for: distinct dates of the coming
    seven days, each on a permitted week day, exactly as many as its minimum
    frequency, or one on every permitted day when it sets none. *)
Theorem routine_sessions_exact zone_known first r :
  validate_routine zone_known r = Ok tt →
  NoDup (selected_dates first r)
  ∧ (∀ d, d ∈ selected_dates first r → first <= d < first + 7 ∧ weekday d ∈ rd_days r)
  ∧ Z.of_nat (length (selected_dates first r))
    = (if rd_minimum_weekly_frequency r =? 0 then Z.of_nat (size (rd_days r))
       else rd_minimum_weekly_frequency r)
  ∧ selected_dates first r ≠ [].
Proof. apply routine_sessions. Qed.

(** ** Nothing is dropped *)

Section mapping.
Context (db : zone_db) (window_start : datetime).

Definition table_of (l : list KnowledgeView) : occurrence_table :=
  omap (λ v, pair (view_id v) <$> occurrences_of db window_start v) l.
Definition first_gaps (l : list KnowledgeView) : gap_table :=
  omap (λ v, match occurrences_of db window_start v with
             | None => Some (view_id v, gap v) | Some _ => None end) l.

Lemma table_of_keys l k : k ∈ (table_of l).*1 → k ∈ map view_id l.
Proof.
  intros ([k' items] & -> & (v & Hv & Hp)%list_elem_of_omap)%list_elem_of_fmap.
  destruct (occurrences_of _ _ v); [|done]. injection Hp as <- _.
  simpl. rewrite list_elem_of_In. apply (in_map view_id). by rewrite <- list_elem_of_In.
Qed.
Lemma first_gaps_keys l k : k ∈ (first_gaps l).*1 → k ∈ map view_id l.
Proof.
  intros ([k' items] & -> & (v & Hv & Hp)%list_elem_of_omap)%list_elem_of_fmap.
  destruct (occurrences_of _ _ v); [done|]. injection Hp as <- _.
  simpl. rewrite list_elem_of_In. apply (in_map view_id). by rewrite <- list_elem_of_In.
Qed.

Lemma collected_from l table gaps :
  NoDup (map view_id l) → (∀ k, k ∈ map view_id l → (k ∉ table.*1) ∧ (k ∉ gaps.*1)) →
  foldl (collect_view db window_start) (table, gaps) l = (table ++ table_of l, gaps ++ first_gaps l).
Proof.
  revert table gaps. induction l as [|v l IH]; intros table gaps Hnd Hfresh; simpl.
  { by rewrite !app_nil_r. }
  apply NoDup_cons in Hnd as [Hv Hnd]. destruct (Hfresh (view_id v)) as [Ht Hg];
    [simpl; rewrite elem_of_cons; by left|].
  unfold collect_view at 2, table_of at 1, first_gaps at 1. simpl.
  destruct (occurrences_of db window_start v) as [items|]; simpl.
  - rewrite dict_set_fresh by done. rewrite IH; [by rewrite <- (assoc (++))|done|].
    intros k Hk. rewrite fmap_app, not_elem_of_app. simpl. destruct (Hfresh k) as [? ?].
    { simpl. rewrite elem_of_cons. by right. }
    split_and!; [done| |done]. rewrite list_elem_of_singleton. by intros ->.
  - rewrite dict_set_fresh by done. rewrite IH; [by rewrite <- (assoc (++))|done|].
    intros k Hk. rewrite fmap_app, not_elem_of_app. simpl. destruct (Hfresh k) as [? ?].
    { simpl. rewrite elem_of_cons. by right. }
    split_and!; [done|done|]. rewrite list_elem_of_singleton. by intros ->.
Qed.

Lemma sorted_views_perm views : sorted_views views ≡ₚ views.
Proof. apply py_sorted_perm. Qed.

Lemma collected_tables views :
  NoDup (map view_id views) →
  collected db window_start views = (table_of (sorted_views views), first_gaps (sorted_views views)).
Proof.
  intros Hnd. unfold collected. rewrite collected_from; [done| |].
  - by rewrite (Permutation_map view_id (sorted_views_perm views)).
  - intros k _. split; apply not_elem_of_nil.
Qed.

(** What the second loop leaves as a gap, and the activities it makes. *)
Definition left_over (table : occurrence_table) (entry : uuid * list RoutineOccurrence) :
    option (uuid * PlanningGap) :=
  if resolved table entry.2 then None
  else match entry.2 with [] => None | o :: _ => Some (entry.1, gap (oc_view o)) end.

Definition planned_ids (table : occurrence_table) (entry : uuid * list RoutineOccurrence) :
    list string :=
  if resolved table entry.2 then map oc_activity_id entry.2 else [].

Lemma activity_id_kept o deps z a :
  activity db o deps z = Ok a → pa_activity_id a = oc_activity_id o.
Proof.
  unfold activity, built_activity. destruct (zone_named _ _) as [rz|]; [|done].
  destruct (rd_flexibility (oc_routine o)), (nominal_start rz o); try done;
    destruct (validate_activity _); try done; by intros [= <-].
Qed.

Lemma activities_of_ids items deps z l :
  activities_of db items deps z = Ok l → map pa_activity_id l = map oc_activity_id items.
Proof.
  revert l. induction items as [|o items IH]; simpl; [by intros ? [= <-]|].
  intros l (a & Ha%activity_id_kept & (l' & Hl & [= <-])%rbind_ok)%rbind_ok.
  simpl. by rewrite Ha, (IH l').
Qed.

Lemma place_occurrences_ok table z rest gaps acts gaps' :
  NoDup rest.*1 → (∀ k, k ∈ rest.*1 → k ∉ gaps.*1) →
  place_occurrences db table z rest gaps = Ok (acts, gaps') →
  map pa_activity_id acts = rest ≫= planned_ids table
  ∧ gaps' = gaps ++ omap (left_over table) rest.
Proof.
  revert gaps acts gaps'. induction rest as [|[id items] rest IH]; simpl; intros gaps acts gaps'.
  { intros _ _ [= <- <-]. by rewrite app_nil_r. }
  intros [Hid Hnd]%NoDup_cons Hfresh.
  unfold planned_ids at 1, left_over at 1. simpl.
  destruct (resolved table items).
  - intros (l & Hl%activities_of_ids & ([acts0 gaps0] & Hout & [= <- <-])%rbind_ok)%rbind_ok.
    destruct (IH gaps acts0 gaps0) as [Ha Hg]; [done| |done|].
    { intros k Hk. apply Hfresh. rewrite elem_of_cons. by right. }
    split; [|done]. simpl. by rewrite map_app, Hl, Ha.
  - destruct items as [|o items]; simpl.
    + apply IH; [done|]. intros k Hk. apply Hfresh. rewrite elem_of_cons. by right.
    + rewrite dict_set_fresh by (apply Hfresh; rewrite elem_of_cons; by left).
      intros [Ha Hg]%IH; [|done|].
      * split; [done|]. by rewrite Hg, <- (assoc (++)).
      * intros k Hk. rewrite fmap_app, not_elem_of_app. simpl. split.
        -- apply Hfresh. rewrite elem_of_cons. by right.
        -- rewrite list_elem_of_singleton. by intros ->.
Qed.

(** A view whose routine has a known zone, and one whose routine also depends
    only on such views of the same week. *)
Definition timed (v : KnowledgeView) (r : RoutineDetails) (z : zone) : Prop :=
  routine_of v = Some r ∧ zone_named db (rd_timezone r) = Some z.
Definition schedulable (views : list KnowledgeView) (v : KnowledgeView) (r : RoutineDetails)
    (z : zone) : Prop :=
  timed v r z ∧ ∀ dep, dep ∈ rd_dependency_ids r →
    ∃ v' r' z', v' ∈ views ∧ view_id v' = dep ∧ timed v' r' z'.

Definition week_dates (z : zone) (r : RoutineDetails) : list Z :=
  selected_dates (date_of (astimezone z (utc window_start))) r.

Lemma occurrences_of_some v items :
  occurrences_of db window_start v = Some items ↔
  ∃ r z, timed v r z ∧ items = map (occurrence v r) (week_dates z r).
Proof.
  unfold occurrences_of, timed, week_dates. split.
  - intros (r & Hr & (z & Hz & [= <-])%bind_Some)%bind_Some. by exists r, z.
  - intros (r & z & [Hr Hz] & ->). rewrite Hr. simpl. by rewrite Hz.
Qed.

Lemma table_of_lookup l k :
  k ∈ (table_of l).*1 ↔ ∃ v r z, v ∈ l ∧ view_id v = k ∧ timed v r z.
Proof.
  rewrite list_elem_of_fmap. split.
  - intros ([k' items] & -> & (v & Hv & Hp)%list_elem_of_omap).
    destruct (occurrences_of db window_start v) as [its|] eqn:Ho; [|done].
    injection Hp as <- <-. apply occurrences_of_some in Ho as (r & z & Ht & _). by exists v, r, z.
  - intros (v & r & z & Hv & <- & Ht).
    exists (view_id v, map (occurrence v r) (week_dates z r)). split; [done|].
    apply list_elem_of_omap. exists v. split; [done|].
    assert (occurrences_of db window_start v = Some (map (occurrence v r) (week_dates z r))) as ->
      by (apply occurrences_of_some; eauto). done.
Qed.

Lemma resolved_iff l v r d dates :
  resolved (table_of l) (map (occurrence v r) (d :: dates)) = true ↔
  ∀ dep, dep ∈ rd_dependency_ids r → ∃ v' r' z', v' ∈ l ∧ view_id v' = dep ∧ timed v' r' z'.
Proof.
  unfold resolved. simpl. rewrite forallb_forall. split; intros H dep Hdep.
  - specialize (H dep ltac:(by rewrite <- list_elem_of_In)).
    apply table_of_lookup, dict_get_is_Some. by destruct (dict_get _ _); [eexists|].
  - rewrite <- list_elem_of_In in Hdep. apply H, table_of_lookup, dict_get_is_Some in Hdep as [? ->]. done.
Qed.

Lemma table_keys_nodup l : NoDup (map view_id l) → NoDup (table_of l).*1.
Proof.
  induction l as [|v l IH]; simpl; [constructor|]. intros [Hv Hnd]%NoDup_cons.
  unfold table_of. simpl. destruct (occurrences_of db window_start v); simpl; [|by apply IH].
  constructor; [|by apply IH]. by intros ?%table_of_keys.
Qed.

Lemma tables_disjoint l k :
  NoDup (map view_id l) → k ∈ (table_of l).*1 → k ∉ (first_gaps l).*1.
Proof.
  induction l as [|v l IH]; simpl; [intros _ []%elem_of_nil|]. intros [Hv Hnd]%NoDup_cons.
  unfold table_of, first_gaps. simpl. destruct (occurrences_of db window_start v); simpl.
  - rewrite elem_of_cons. intros [->|Hk]; [by intros ?%first_gaps_keys|by apply IH].
  - intros Hk. rewrite not_elem_of_cons. split; [|by apply IH].
    intros ->. by apply table_of_keys in Hk.
Qed.

Section accounted.
Context (zone_known : string → bool) (views : list KnowledgeView).
Hypothesis distinct_ids : NoDup (map view_id views).
Hypothesis valid_routines :
  ∀ v r, v ∈ views → routine_of v = Some r → validate_routine zone_known r = Ok tt.

Lemma week_dates_some v r z : v ∈ views → timed v r z → ∃ d dates, week_dates z r = d :: dates.
Proof.
  intros Hv [Hr _]. destruct (routine_sessions zone_known
    (date_of (astimezone z (utc window_start))) r) as (_ & _ & _ & Hne); [by eapply valid_routines|].
  unfold week_dates. destruct (selected_dates _ r) as [|d dates]; [done|]. by exists d, dates.
Qed.

Lemma week_ids_nodup : NoDup (map view_id (sorted_views views)).
Proof. by rewrite (Permutation_map view_id (sorted_views_perm views)). Qed.
#[local] Hint Resolve week_ids_nodup : core.

Lemma sorted_views_elem v : v ∈ sorted_views views ↔ v ∈ views.
Proof. by rewrite (sorted_views_perm views). Qed.

Lemma resolved_schedulable v r z :
  v ∈ views → timed v r z →
  resolved (table_of (sorted_views views)) (map (occurrence v r) (week_dates z r)) = true
  ↔ schedulable views v r z.
Proof.
  intros Hv Ht. destruct (week_dates_some v r z Hv Ht) as (d & dates & ->).
  rewrite resolved_iff. unfold schedulable. setoid_rewrite sorted_views_elem. tauto.
Qed.

Lemma planned_elem id :
  id ∈ table_of (sorted_views views) ≫= planned_ids (table_of (sorted_views views)) ↔
  ∃ v r z d, v ∈ views ∧ schedulable views v r z ∧ d ∈ week_dates z r
    ∧ id = routine_activity_id (view_id v) d.
Proof.
  rewrite list_elem_of_bind. split.
  - intros ([k items] & Hid & (v & Hv%sorted_views_elem & Hp)%list_elem_of_omap).
    destruct (occurrences_of db window_start v) as [its|] eqn:Ho; [|done].
    injection Hp as <- <-. apply occurrences_of_some in Ho as (r & z & Ht & ->).
    unfold planned_ids in Hid. simpl in Hid.
    destruct (resolved _ _) eqn:Hres; [|by apply elem_of_nil in Hid].
    apply resolved_schedulable in Hres; [|done|done].
    rewrite map_map in Hid. apply list_elem_of_In, in_map_iff in Hid as (d & <- & Hd).
    rewrite <- list_elem_of_In in Hd. by exists v, r, z, d.
  - intros (v & r & z & d & Hv & Hs & Hd & ->).
    exists (view_id v, map (occurrence v r) (week_dates z r)). split.
    + unfold planned_ids. simpl. rewrite (proj2 (resolved_schedulable v r z Hv (proj1 Hs)) Hs).
      rewrite map_map. apply list_elem_of_In, in_map_iff. exists d.
      by rewrite <- list_elem_of_In.
    + apply list_elem_of_omap. exists v. rewrite sorted_views_elem. split; [done|].
      by rewrite (proj2 (occurrences_of_some v _)) by (exists r, z; split; [apply Hs|done]).
Qed.

Lemma gaps_elem g :
  g ∈ (first_gaps (sorted_views views) ++
       omap (left_over (table_of (sorted_views views))) (table_of (sorted_views views))).*2 ↔
  ∃ v, v ∈ views ∧ g = gap v ∧ ∀ r z, ¬ schedulable views v r z.
Proof.
  rewrite fmap_app, elem_of_app, !list_elem_of_fmap. split.
  - intros [([k g'] & -> & (v & Hv%sorted_views_elem & Hp)%list_elem_of_omap)
           |([k g'] & -> & ([k' items] & (v & Hv%sorted_views_elem & Hp)%list_elem_of_omap & Hl)%list_elem_of_omap)].
    + destruct (occurrences_of db window_start v) as [its|] eqn:Ho; [done|].
      injection Hp as <- <-. exists v. split_and!; [done|done|]. intros r z [Ht _].
      by rewrite (proj2 (occurrences_of_some v _)) in Ho by (exists r, z; by split).
    + destruct (occurrences_of db window_start v) as [its|] eqn:Ho; [|done].
      injection Hp as <- <-. apply occurrences_of_some in Ho as (r & z & Ht & ->).
      unfold left_over in Hl. simpl in Hl. destruct (resolved _ _) eqn:Hres; [done|].
      destruct (week_dates_some v r z Hv Ht) as (d & dates & Hd). rewrite Hd in Hl. simpl in Hl.
      injection Hl as <- <-. exists v. split_and!; [done|done|]. intros r' z' Hs.
      destruct (proj1 Hs) as [Hr' Hz'], Ht as [Hr Hz]. rewrite Hr in Hr'. injection Hr' as <-.
      rewrite Hz in Hz'. injection Hz' as <-.
      by rewrite (proj2 (resolved_schedulable v r z Hv (proj1 Hs)) Hs) in Hres.
  - intros (v & Hv & -> & Hns). destruct (occurrences_of db window_start v) as [its|] eqn:Ho.
    + right. pose proof Ho as (r & z & Ht & ->)%occurrences_of_some.
      exists (view_id v, gap v). split; [done|]. apply list_elem_of_omap.
      exists (view_id v, map (occurrence v r) (week_dates z r)). split.
      * apply list_elem_of_omap. exists v. by rewrite sorted_views_elem, Ho.
      * unfold left_over. simpl. destruct (resolved _ _) eqn:Hres.
        { apply resolved_schedulable in Hres; [|done|done]. by apply Hns in Hres. }
        destruct (week_dates_some v r z Hv Ht) as (d & dates & ->). done.
    + left. exists (view_id v, gap v). split; [done|]. apply list_elem_of_omap.
      exists v. by rewrite sorted_views_elem, Ho.
Qed.

(** Nothing of the planning knowledge is dropped or invented: a session is
    planned exactly for the selected dates of the routines whose zone is known and
    whose dependencies are such routines of the same week, and exactly the other
    views are returned as explicit gaps. *)
Theorem week_accounts_for_knowledge planning_zone activities gaps :
  map_knowledge db views window_start planning_zone = Ok (activities, gaps) →
  (∀ id, id ∈ map pa_activity_id activities ↔
     ∃ v r z d, v ∈ views ∧ schedulable views v r z ∧ d ∈ week_dates z r
       ∧ id = routine_activity_id (view_id v) d)
  ∧ (∀ g, g ∈ gaps ↔ ∃ v, v ∈ views ∧ g = gap v ∧ ∀ r z, ¬ schedulable views v r z).
Proof.
  unfold map_knowledge. rewrite collected_tables by done.
  intros ([acts gs] & Hp & [= <- <-])%rbind_ok.
  apply place_occurrences_ok in Hp as [Ha ->].
  - simpl. rewrite Ha. split; [exact planned_elem|exact gaps_elem].
  - by apply table_keys_nodup.
  - intros k. by apply tables_disjoint.
Qed.

End accounted.
End mapping.
