(* ===== verification/WeekPlanningStore.v ===== *)
(** * The week's plan stands on confirmed knowledge ([week_planning.py])

    Weekly planning composed with the interview, the memory repository and the
    planner: what a preview plans after any interview. *)

From stdpp Require Import prelude base strings list gmap.
From Stdlib Require Import ZArith Lia QArith.
From S2P Require Import Prelude PyTime PyText PyUuid PlannerModels Planner PlannerSpec Transactions Knowledge Memory MemoryCodec MemorySpec LifeModel PyRe RoutineText InterviewCatalog Interview InterviewSpec InterviewStore InterviewScenarios WeekPlanning WeekPlanningSpec.
#[local] Open Scope string_scope.
#[local] Open Scope list_scope.
#[local] Open Scope Z_scope.

Section lists.
Context `{RecordCodec}.

Lemma filter_sublist {A} (p : A → bool) (l : list A) : List.filter p l `sublist_of` l.
Proof. induction l as [|x l IH]; simpl; [constructor|]. destruct (p x); by constructor. Qed.

Lemma select_sublist {X} (f : X → result MemoryError bool) l l' :
  select f l = Ok l' → l' `sublist_of` l.
Proof.
  revert l'. induction l as [|x l IH]; intros l'; simpl; [by intros [= <-]|].
  destruct (f x) as [keep|]; [|done]. destruct (select f l) as [rest|]; [|done].
  intros [= <-]. destruct keep; constructor; by apply IH.
Qed.

Lemma views_of_sublist fold_content strip_content now all l views :
  views_of fold_content strip_content now all l = Ok views → map kv_record views `sublist_of` l.
Proof.
  revert views. induction l as [|r l IH]; intros views; simpl; [by intros [= <-]|].
  destruct (mr_knowledge r) as [k|]; [|intros; constructor; by apply IH].
  intros (v & Hv & (vs & Hvs & [= <-])%rbind_ok)%rbind_ok. simpl.
  destruct (view_of_ok _ _ _ _ _ _ _ Hv) as (_ & -> & _). constructor. by apply IH.
Qed.
End lists.

Section grounded.
Context (hmac : string → string → string) (audit_key : string) (zone_known : string → bool).
Context `{RecordCodec} `{!RecordCodecLaws zone_known} `{Unicode}.
Context (fold_content strip_content : string → string).
Context (subject_id : string).

Lemma parse_rows_ids db entries l :
  rows_good zone_known db → (∀ e, e ∈ entries → md_memories db !! e.1 = Some e.2) →
  parse_rows entries.*2 = Ok l → map mr_memory_id l = entries.*1.
Proof.
  intros Hdb. revert l. induction entries as [|[id row] entries IH]; intros l Hin;
    [by intros [= <-]|].
  rewrite !fmap_cons. cbn [parse_rows fst snd].
  destruct (Hdb id row) as (r & -> & Hid & Hg).
  { apply (Hin (id, row)). rewrite elem_of_cons. by left. }
  rewrite (good_parses _ _ Hg). destruct (parse_rows entries.*2) as [l'|]; [|done].
  intros [= <-]. simpl. rewrite Hid. f_equal. apply IH; [|reflexivity].
  intros e He. apply Hin. rewrite elem_of_cons. by right.
Qed.

(** The records a good store returns have distinct identifiers. *)
Lemma retrieve_ids_distinct scope clock db l :
  rows_good zone_known db → retrieve scope clock db = Ok l → NoDup (map mr_memory_id l).
Proof.
  intros Hdb. unfold retrieve. destruct (parse_rows _) as [records|] eqn:Hp; [|done].
  intros Hs%select_sublist. eapply sublist_NoDup; [|apply (fmap_sublist mr_memory_id _ _ Hs)].
  change (NoDup (map mr_memory_id records)). rewrite (λ Hin, parse_rows_ids db _ _ Hdb Hin Hp).
  - rewrite (fmap_Permutation fst _ _ (py_sorted_perm _ _)). apply NoDup_fst_map_to_list.
  - intros [id row]. by rewrite elem_of_py_sorted, elem_of_map_to_list.
Qed.

Lemma planning_ids_distinct clock now db views :
  rows_good zone_known db →
  planning_knowledge fold_content strip_content subject_id clock now db = Ok views →
  NoDup (map view_id views).
Proof.
  intros Hdb. unfold planning_knowledge, knowledge.
  destruct (retrieve _ _ _) as [found|] eqn:Hf; [|done].
  destruct (views_of _ _ _ _ _) as [vs|] eqn:Hv; [|done]. intros [= <-].
  apply (retrieve_ids_distinct _ _ _ _ Hdb) in Hf.
  eapply sublist_NoDup; [exact Hf|]. change (map view_id) with (fmap (M:=list) view_id).
  etransitivity; [apply fmap_sublist, filter_sublist|].
  etransitivity; [|apply (fmap_sublist mr_memory_id), (filter_sublist (about subject_id))].
  etransitivity; [|apply (fmap_sublist mr_memory_id), (views_of_sublist _ _ _ _ _ _ Hv)].
  change (fmap (M:=list) mr_memory_id) with (map mr_memory_id). rewrite map_map. done.
Qed.

Lemma planning_views_found clock now db views v :
  planning_knowledge fold_content strip_content subject_id clock now db = Ok views → v ∈ views →
  ∃ found, retrieve RetrievalScope.PRIVATE clock db = Ok found ∧ kv_record v ∈ found.
Proof.
  unfold planning_knowledge, knowledge. destruct (retrieve _ _ _) as [found|] eqn:Hf; [|done].
  destruct (views_of _ _ _ _ _) as [vs|] eqn:Hv; [|done]. intros [= <-] Hin.
  exists found. split; [done|]. apply list_elem_of_In, filter_In in Hin as [Hin _].
  rewrite <- list_elem_of_In in Hin.
  apply (views_of_elem _ _ _ _ _ _ _ Hv) in Hin as (r & k & [Hr _]%about_elem & _ & Hview).
  by destruct (view_of_ok _ _ _ _ _ _ _ Hview) as (_ & -> & _).
Qed.

Lemma record_routine_valid r k rd :
  record_valid zone_known r = true → mr_knowledge r = Some k → kd_routine k = Some rd →
  validate_routine zone_known rd = Ok tt.
Proof.
  intros Hv Hk Hrd. unfold record_valid, validate_record, validate_nested in Hv.
  rewrite Hk in Hv. simpl in Hv. destruct (rbind _ _) as [u|] eqn:Hok; [|done]. clear Hv. rename Hok into Hv.
  apply rbind_ok in Hv as (? & Hv & _). apply rbind_ok in Hv as (? & _ & Hv).
  apply rbind_ok in Hv as (? & Hv & _). unfold validate_details in Hv.
  rewrite Hrd in Hv. repeat (apply rbind_unit_iff in Hv as [? Hv]). done.
Qed.

Lemma planning_routines_valid clock now db views v rd :
  rows_good zone_known db → aware clock = true →
  planning_knowledge fold_content strip_content subject_id clock now db = Ok views →
  v ∈ views → routine_of v = Some rd → validate_routine zone_known rd = Ok tt.
Proof.
  intros Hdb Hc Hp Hv Hr. destruct (planning_views_found _ _ _ _ _ Hp Hv) as (found & Hf & Hin).
  destruct (retrieve_good_elem hmac zone_known fold_content strip_content
    subject_id _ _ _ _ _ Hdb Hc Hf Hin) as [(_ & Hvalid & _) _].
  unfold routine_of in Hr. apply bind_Some in Hr as (k & Hk & Hrd).
  exact (record_routine_valid _ _ _ Hvalid Hk Hrd).
Qed.

Context (db : zone_db) (input_fingerprint : DayPlanRequest → string).
Context (timezone : string) (session_id : uuid).

(** C29. From interview to planning request: when a week is planned after any interview
    on an empty store, the request that the planner is given has an activity exactly
    for the selected dates of the projected routines whose dependencies can be
    scheduled too, every other piece of the projection is an explicit gap, the request
    is valid, the proposal is the planner's answer to it, and none of the knowledge it
    stands on awaits confirmation.  Where the planner then places the activities is
    for the theorems on plans to say. *)
Theorem week_plan_grounded c ops clock now week_zone request gaps proposed :
  let store := live (interview_run hmac audit_key zone_known fold_content strip_content subject_id
                       timezone session_id ops c) in
  empty_store c → forallb op_timely ops = true → aware clock = true →
  plan_week db fold_content strip_content input_fingerprint subject_id clock now week_zone store
    = Ok (request, gaps, proposed) →
  ∃ views z, zone_named db week_zone = Some z
    ∧ planning_knowledge fold_content strip_content subject_id clock now store = Ok views
    ∧ validate_week db request = Ok tt
    ∧ propose_week db input_fingerprint request = Ok proposed
    ∧ (∀ id, id ∈ map pa_activity_id (dr_activities request) ↔
         ∃ v r rz d, v ∈ views ∧ schedulable db views v r rz
           ∧ d ∈ week_dates (start_of_day z now) rz r
           ∧ id = routine_activity_id (view_id v) d)
    ∧ (∀ g, g ∈ gaps ↔ ∃ v, v ∈ views ∧ g = gap v ∧ ∀ r rz, ¬ schedulable db views v r rz)
    ∧ (∀ v k, v ∈ views → mr_knowledge (kv_record v) = Some k →
         kd_pending_confirmation k = None
         ∧ (kd_kind k = KnowledgeKind.ROUTINE → has (kd_routine k) = true)).
Proof.
  intros store Hc Ht Hclock Hplan.
  destruct (interview_run_good hmac audit_key zone_known fold_content strip_content subject_id
    timezone session_id ops c (empty_store_good _ _ Hc) Ht) as [Hgood _].
  fold store in Hgood. clearbody store. unfold plan_week in Hplan.
  destruct (zone_named db week_zone) as [z|]; [|done].
  apply rbind_ok in Hplan as (views & Hviews & Hplan).
  destruct (planning_knowledge _ _ _ _ _ _) as [views'|] eqn:Hp; [|done]. injection Hviews as <-.
  apply rbind_ok in Hplan as ([acts gs] & Hmap & Hplan).
  apply rbind_ok in Hplan as ([] & Hval & Hplan).
  apply rbind_ok in Hplan as (p & Hprop & [= <- <- <-]).
  destruct (validate_week _ _) as [[]|] eqn:Hvw; [|done].
  destruct (propose_week _ _ _) as [p'|] eqn:Hpw; [|done]. injection Hprop as ->.
  exists views', z. split_and!; [done|done|done|done| | |].
  - by apply (week_accounts_for_knowledge db (start_of_day z now) zone_known views'
      (planning_ids_distinct _ _ _ _ Hgood Hp)
      (λ v r, planning_routines_valid _ _ _ _ v r Hgood Hclock Hp) z acts gs).
  - by apply (week_accounts_for_knowledge db (start_of_day z now) zone_known views'
      (planning_ids_distinct _ _ _ _ Hgood Hp)
      (λ v r, planning_routines_valid _ _ _ _ v r Hgood Hclock Hp) z acts gs).
  - by eapply projection_confirmed.
Qed.
End grounded.

(** * A planned week, and three corners ([week_planning.py])

    A week planned end to end from an interview, and what happens to routines
    without a start time, that cross the end of the window, or whose logistics
    are long. *)

#[local] Existing Instances Chat.codec Chat.laws Chat.unicode.

Module Week.
(** Monday 2026-01-05, nine in the morning. *)
Definition monday : Z := 20458.
Definition now : datetime := utc_datetime (monday * day + 9 * hour).
Definition utc_zone : zone := mk_zone "UTC" {| tz_initial := 0; tz_transitions := [] |}.
Definition at_hour (h : Z) : clock_time :=
  {| ct_hour := h; ct_minute := 0; ct_second := 0; ct_microsecond := 0; ct_aware := false |}.
Definition routine (days : gset Z) (start : option clock_time) (duration travel : Z)
    (f : RoutineFlexibility.t) (deps : list uuid) : RoutineDetails :=
  {| rd_days := days; rd_start_time := start; rd_duration_minutes := duration;
     rd_timezone := "UTC"; rd_flexibility := f; rd_desired := true; rd_location_id := None;
     rd_travel_minutes := travel; rd_preparation_minutes := travel; rd_transition_minutes := 0;
     rd_minimum_weekly_frequency := 0; rd_priority := 5; rd_can_move := false;
     rd_dependency_ids := deps |}.
Definition details (r : option RoutineDetails) : KnowledgeDetails :=
  {| kd_subject_id := "me"; kd_key := "routines.gym"; kd_cardinality := MANY;
     kd_domain := LifeDomain.ROUTINES;
     kd_kind := if r is Some _ then KnowledgeKind.ROUTINE else KnowledgeKind.FACT;
     kd_state := KnowledgeState.CONFIRMED; kd_observed_at := utc_datetime 0;
     kd_last_confirmed_at := Some (utc_datetime 0); kd_valid_from := None; kd_valid_until := None;
     kd_expected_staleness_days := None; kd_sensitivity := Sensitivity.PERSONAL;
     kd_importance := 5; kd_related_entity_ids := []; kd_related_goal_ids := [];
     kd_related_project_ids := []; kd_evidence_ids := []; kd_conflicts_with := [];
     kd_planning_allowed := true; kd_source_evidence := None; kd_superseded_by := None;
     kd_routine := r; kd_pending_confirmation := None; kd_project := None;
     kd_open_loop := None |}.
Definition record (id : uuid) (r : option RoutineDetails) : MemoryRecord :=
  {| mr_memory_id := id; mr_category := MemoryCategory.PROFILE; mr_content := "gym";
     mr_provenance := {| mp_source := MemorySource.USER_STATEMENT; mp_source_id := "chat";
                         mp_captured_at := utc_datetime 0 |};
     mr_confidence := 1;
     mr_retrieval_scopes := {[ RetrievalScope.PRIVATE; RetrievalScope.PLANNING ]};
     mr_created_at := utc_datetime 0; mr_retain_until := None; mr_revision := 1;
     mr_knowledge := Some (details r); mr_interview := None |}.
Definition view (id : uuid) (r : option RoutineDetails) : KnowledgeView :=
  {| kv_record := record id r; kv_state := KnowledgeState.CONFIRMED; kv_current := true |}.
Definition holding (l : list MemoryRecord) : memory_db :=
  {| md_memories := list_to_map (map (λ r, (mr_memory_id r, row_of_record r)) l);
     md_tombstones := ∅; md_manifests := ∅; md_backup_records := ∅; md_memory_coverage := ∅;
     md_audit := AuditLedger.empty_ledger |}.
Abbreviation planned store :=
  (plan_week Demo.utc_db Chat.same Chat.same (λ _, "f") "me" now now "UTC" store).

(** The scheduled sessions: hours from Monday midnight. *)
Definition sessions (p : ProposedDay) : list (Z * Z) :=
  omap (λ b, match pb_activity_id b with
             | None => None
             | Some _ => Some ((utc (pb_starts_at b) - monday * day) / hour,
                               (utc (pb_ends_at b) - monday * day) / hour)
             end) (py_internal_plan p).
Definition monday_wednesday_friday : gset Z := {[ 0; 2; 4 ]}.
Definition every_day : gset Z := {[ 0; 1; 2; 3; 4; 5; 6 ]}.
End Week.

Lemma routine_sessions_exact_witness :
  selected_dates Week.monday
    (Week.routine Week.monday_wednesday_friday None 60 0 RoutineFlexibility.FLEXIBLE [])
    = [Week.monday; Week.monday + 2; Week.monday + 4]
  ∧ ∀ d, d ∈ [Week.monday; Week.monday + 2; Week.monday + 4] →
      weekday d ∈ Week.monday_wednesday_friday.
Proof.
  split; [vm_compute; reflexivity|]. intros d Hd.
  refine (proj2 (proj1 (proj2 (routine_sessions_exact Chat.zones Week.monday
    (Week.routine Week.monday_wednesday_friday None 60 0 RoutineFlexibility.FLEXIBLE []) _)) d _)).
  - vm_compute. reflexivity.
  - exact Hd.
Defined.

(** Three memories: a class, homework after it, and a plain fact; and a routine
    that depends on something the week does not have. *)
Definition study_views : list KnowledgeView :=
  let timed hour deps :=
    Some (Week.routine {[ 1 ]} (Some (Week.at_hour hour)) 60 0 RoutineFlexibility.PREFERRED deps) in
  [Week.view 1 (timed 10 []); Week.view 2 (timed 12 [1]); Week.view 3 None; Week.view 4 (timed 14 [9])].
Definition study_start : datetime := start_of_day Week.utc_zone Week.now.

Lemma study_ids : NoDup (map view_id study_views).
Proof. apply (bool_decide_unpack _). vm_compute. exact I. Qed.
Lemma study_valid v r :
  v ∈ study_views → routine_of v = Some r → validate_routine Chat.zones r = Ok tt.
Proof.
  intros [->|[->|[->|[->|[]%elem_of_nil]%elem_of_cons]%elem_of_cons]%elem_of_cons]%elem_of_cons Hr;
    vm_compute in Hr; try discriminate Hr; injection Hr as <-; vm_compute; reflexivity.
Qed.

Lemma week_accounts_for_knowledge_witness :
  ∃ activities gaps,
    map_knowledge Demo.utc_db study_views study_start Week.utc_zone = Ok (activities, gaps)
    ∧ map gap_memory_id gaps = [3; 4]
    ∧ ∀ g, g ∈ gaps → ∃ v, v ∈ study_views ∧ g = gap v.
Proof.
  destruct (map_knowledge Demo.utc_db study_views study_start Week.utc_zone) as [[activities gaps]|e]
    eqn:Hm; [|by vm_compute in Hm].
  exists activities, gaps. split; [reflexivity|]. split.
  - vm_compute in Hm. injection Hm as _ <-. reflexivity.
  - intros g Hg.
    destruct (proj1 (proj2 (week_accounts_for_knowledge Demo.utc_db study_start Chat.zones study_views
      study_ids study_valid Week.utc_zone activities gaps Hm) g) Hg) as (v & Hv & Heq & _).
    exists v. exact (conj Hv Heq).
Defined.

Abbreviation chat_week :=
  (plan_week Demo.utc_db Chat.same Chat.same (λ _, "f") "me" (utc_datetime 3) (utc_datetime 3) "UTC"
     (live (Chat.run Chat.confirmed Chat.conn))).
Lemma week_plan_grounded_witness :
  ∃ request gaps proposed,
    chat_week = Ok (request, gaps, proposed)
    ∧ length (dr_activities request) = 7%nat
    ∧ validate_week Demo.utc_db request = Ok tt.
Proof.
  assert (match chat_week with
          | Ok (request, _, _) => length (dr_activities request) = 7%nat | Err _ => False end)
    as Hlen by (vm_compute; reflexivity).
  destruct (chat_week) as [[[request gaps] proposed]|e]
    eqn:Hp; [|destruct Hlen].
  exists request, gaps, proposed. split; [reflexivity|]. split; [exact Hlen|].
  destruct (week_plan_grounded Chat.mac "k" Chat.zones Chat.same Chat.same "me" Demo.utc_db (λ _, "f")
    "UTC" Chat.session_id Chat.conn Chat.confirmed (utc_datetime 3) (utc_datetime 3) "UTC" request gaps proposed
    Chat.conn_empty ltac:(vm_compute; reflexivity) eq_refl Hp) as (views & z & _ & _ & Hv & _).
  exact Hv.
Defined.

(** ** Corners *)

(** A routine for Mondays, Wednesdays and Fridays with flexible timing has its
    three sessions planned one after the other on Monday from midnight, nine
    hours before the plan is made: nothing ties a session to its day. *)
Theorem flexible_routine_ignores_days :
  let gym := Week.record 1
    (Some (Week.routine Week.monday_wednesday_friday None 60 0 RoutineFlexibility.FLEXIBLE [])) in
  record_valid Chat.zones gym = true
  ∧ match Week.planned (Week.holding [gym]) with
    | Ok (_, _, p) => py_status p = FEASIBLE ∧ Week.sessions p = [(0, 1); (1, 2); (2, 3)]
    | Err _ => False
    end.
Proof. vm_compute. done. Qed.

(** A fixed nightly routine leaves the window on its last night, which makes the
    whole week infeasible: the fixed lunch on Tuesday is not planned either. *)
Theorem overnight_routine_voids_week :
  let sleep := Week.record 1
    (Some (Week.routine Week.every_day (Some (Week.at_hour 23)) 480 0 RoutineFlexibility.FIXED [])) in
  let lunch := Week.record 2
    (Some (Week.routine {[ 1 ]} (Some (Week.at_hour 12)) 60 0 RoutineFlexibility.FIXED [])) in
  forallb (record_valid Chat.zones) [sleep; lunch] = true
  ∧ match Week.planned (Week.holding [sleep; lunch]), Week.planned (Week.holding [lunch]) with
    | Ok (_, _, p), Ok (_, _, alone) =>
        py_status p = INFEASIBLE ∧ Week.sessions p = [] ∧ Week.sessions alone = [(36, 37)]
    | _, _ => False
    end.
Proof. vm_compute. done. Qed.

(** A valid routine that the planner cannot represent does not stay a gap: its
    preparation and travel together, or its dependency on itself, make the
    preview of the whole week raise. *)
Theorem unrepresentable_routine_raises :
  let remote := Week.record 1
    (Some (Week.routine {[ 1 ]} (Some (Week.at_hour 12)) 60 800 RoutineFlexibility.FLEXIBLE [])) in
  let circular := Week.record 1
    (Some (Week.routine {[ 1 ]} (Some (Week.at_hour 12)) 60 0 RoutineFlexibility.FLEXIBLE [1])) in
  forallb (record_valid Chat.zones) [remote; circular] = true
  ∧ Week.planned (Week.holding [remote]) = Err (WeekValidation (FieldConstraint "travel_minutes_before"))
  ∧ Week.planned (Week.holding [circular])
    = Err (WeekValidation (ModelValidator "an activity cannot depend on itself")).
Proof. vm_compute. done. Qed.
