(* ===== verification/DomainRecords.v ===== *)
(** * Domain records ([models.py])

    The typed records the state store persists, their field constraints, and
    pydantic's JSON of a record as a class with its law. *)

From stdpp Require Import prelude base strings list gmap countable.
From Stdlib Require Import ZArith.
From S2P Require Import Prelude PyTime PyText PyUuid AuditLedger Memory.
#[local] Open Scope string_scope.
#[local] Open Scope list_scope.
#[local] Open Scope Z_scope.

Module Domain.

(** Fields shared by every version of a record. *)
Record RecordBase := {
  rb_record_id : uuid;
  rb_created_at : datetime;
  rb_state : string;
}.

Record ProposalFields := {
  pf_proposal_type : string;
  pf_payload : string;
  pf_policy_decision : string;
  pf_provider_version : string;
  pf_reversible : bool;
  pf_approval_state : string;
}.

(** The variants without their shared fields; [source_type] has one value. *)
Inductive Variant :=
| Identity (display_name : string)
| Connector (name secret_reference : string)
| Capability (connector_id : uuid) (name : string) (granted : bool)
| SourceItem (external_id raw_content : string)
| NormalizedFact (source_id : uuid) (fact_type value : string)
| Task (title : string)
| Event (title : string) (starts_at : datetime)
| Proposal (fields : ProposalFields)
| Approval (proposal_id : uuid) (decision : string)
| Execution (proposal_id : uuid) (outcome : string)
| EnergyCheckIn (energy : Z) (mood : string)
| Goal (title : string)
| PatternSnapshot (label : string) (sample_count : Z)
| ConsentRecord (scope : string) (granted : bool).

Record DomainRecord := { dr_base : RecordBase; dr_variant : Variant }.

Definition record_kind (r : DomainRecord) : RecordKind :=
  match dr_variant r with
  | Identity _ => IDENTITY | Connector _ _ => CONNECTOR | Capability _ _ _ => CAPABILITY
  | SourceItem _ _ => SOURCE_ITEM | NormalizedFact _ _ _ => NORMALIZED_FACT | Task _ => TASK
  | Event _ _ => EVENT | Proposal _ => PROPOSAL | Approval _ _ => APPROVAL
  | Execution _ _ => EXECUTION | EnergyCheckIn _ _ => ENERGY_CHECK_IN | Goal _ => GOAL
  | PatternSnapshot _ _ => PATTERN_SNAPSHOT | ConsentRecord _ _ => CONSENT_RECORD
  end.

(** Explicit source provenance, which only normalized facts have. *)
Definition source_reference (r : DomainRecord) : option uuid :=
  match dr_variant r with NormalizedFact source_id _ _ => Some source_id | _ => None end.

Definition record_id (r : DomainRecord) : uuid := rb_record_id (dr_base r).
Definition state (r : DomainRecord) : string := rb_state (dr_base r).
Definition created_at (r : DomainRecord) : datetime := rb_created_at (dr_base r).

(** [NonEmpty], [ge] and [le] of each model. *)
Definition filled (s : string) : bool := negb (String.eqb s "").
Definition variant_valid (v : Variant) : bool :=
  match v with
  | Identity a | Task a | Goal a => filled a
  | Connector a b | SourceItem a b => filled a && filled b
  | Capability _ a _ | Event a _ | Approval _ a | Execution _ a | ConsentRecord a _ => filled a
  | NormalizedFact _ a b => filled a && filled b
  | Proposal p =>
      filled (pf_proposal_type p) && filled (pf_payload p) && filled (pf_policy_decision p)
      && filled (pf_provider_version p) && filled (pf_approval_state p)
  | EnergyCheckIn energy mood => (1 <=? energy) && (energy <=? 5) && filled mood
  | PatternSnapshot label n => filled label && (0 <=? n)
  end.
Definition domain_valid (r : DomainRecord) : bool := filled (state r) && variant_valid (dr_variant r).

(** [record.model_copy(update={"state": new_state})], which validates nothing. *)
Definition with_state (r : DomainRecord) (new_state : string) : DomainRecord :=
  {| dr_base := {| rb_record_id := record_id r; rb_created_at := created_at r;
                   rb_state := new_state |};
     dr_variant := dr_variant r |}.

(** Times with a fixed offset survive JSON unchanged. *)
Definition plain (r : DomainRecord) : bool :=
  plain_time (created_at r)
  && match dr_variant r with Event _ starts_at => plain_time starts_at | _ => true end.

Lemma with_state_kind r s : record_kind (with_state r s) = record_kind r.
Proof. done. Qed.
Lemma with_state_plain r s : plain (with_state r s) = plain r.
Proof. done. Qed.
End Domain.

(** ** Pydantic's JSON of a record *)

Class DomainCodec := {
  dump_domain : Domain.DomainRecord → string;            (** [model_dump_json] *)
  (** [DOMAIN_RECORD_ADAPTER.validate_json] *)
  parse_domain : string → option Domain.DomainRecord;
}.

(** A dump names its kind, so it parses as the same variant if it is valid. *)
Class DomainCodecLaws `{DomainCodec} := {
  parse_dump_domain : ∀ r, Domain.plain r = true →
    parse_domain (dump_domain r) = if Domain.domain_valid r then Some r else None;
}.

(** ** A text form that stands in for JSON in concrete runs *)

Module DomainText.
Import Domain.

Definition fields_of (v : Variant) : nat * list positive :=
  match v with
  | Identity a => (0%nat, [encode a])
  | Connector a b => (1%nat, [encode a; encode b])
  | Capability i a g => (2%nat, [encode i; encode a; encode g])
  | SourceItem a b => (3%nat, [encode a; encode b])
  | NormalizedFact i a b => (4%nat, [encode i; encode a; encode b])
  | Task a => (5%nat, [encode a])
  | Event a t => (6%nat, [encode a; encode t])
  | Proposal p =>
      (7%nat, [encode (pf_proposal_type p); encode (pf_payload p); encode (pf_policy_decision p);
               encode (pf_provider_version p); encode (pf_reversible p); encode (pf_approval_state p)])
  | Approval i a => (8%nat, [encode i; encode a])
  | Execution i a => (9%nat, [encode i; encode a])
  | EnergyCheckIn n a => (10%nat, [encode n; encode a])
  | Goal a => (11%nat, [encode a])
  | PatternSnapshot a n => (12%nat, [encode a; encode n])
  | ConsentRecord a g => (13%nat, [encode a; encode g])
  end.

Definition variant_of (f : nat * list positive) : option Variant :=
  match f with
  | (0%nat, [a]) => a ← decode a; Some (Identity a)
  | (1%nat, [a; b]) => a ← decode a; b ← decode b; Some (Connector a b)
  | (2%nat, [i; a; g]) => i ← decode i; a ← decode a; g ← decode g; Some (Capability i a g)
  | (3%nat, [a; b]) => a ← decode a; b ← decode b; Some (SourceItem a b)
  | (4%nat, [i; a; b]) => i ← decode i; a ← decode a; b ← decode b; Some (NormalizedFact i a b)
  | (5%nat, [a]) => a ← decode a; Some (Task a)
  | (6%nat, [a; t]) => a ← decode a; t ← decode t; Some (Event a t)
  | (7%nat, [a; b; c; d; e; f]) =>
      a ← decode a; b ← decode b; c ← decode c; d ← decode d; e ← decode e; f ← decode f;
      Some (Proposal {| pf_proposal_type := a; pf_payload := b; pf_policy_decision := c;
                        pf_provider_version := d; pf_reversible := e; pf_approval_state := f |})
  | (8%nat, [i; a]) => i ← decode i; a ← decode a; Some (Approval i a)
  | (9%nat, [i; a]) => i ← decode i; a ← decode a; Some (Execution i a)
  | (10%nat, [n; a]) => n ← decode n; a ← decode a; Some (EnergyCheckIn n a)
  | (11%nat, [a]) => a ← decode a; Some (Goal a)
  | (12%nat, [a; n]) => a ← decode a; n ← decode n; Some (PatternSnapshot a n)
  | (13%nat, [a; g]) => a ← decode a; g ← decode g; Some (ConsentRecord a g)
  | _ => None
  end.

Lemma variant_of_fields v : variant_of (fields_of v) = Some v.
Proof.
  destruct v; cbv beta iota delta [fields_of variant_of]; rewrite !decode_encode; try done.
  by destruct fields.
Qed.

#[export] Instance RecordBase_eq_dec : EqDecision RecordBase.
Proof. solve_decision. Defined.
#[export] Instance ProposalFields_eq_dec : EqDecision ProposalFields.
Proof. solve_decision. Defined.
#[export] Instance Variant_eq_dec : EqDecision Variant.
Proof. solve_decision. Defined.
#[export] Instance DomainRecord_eq_dec : EqDecision DomainRecord.
Proof. solve_decision. Defined.
#[export] Instance Variant_countable : Countable Variant := inj_countable _ _ variant_of_fields.
#[export] Instance DomainRecord_countable : Countable DomainRecord.
Proof.
  refine (inj_countable' (λ r, (record_id r, created_at r, state r, dr_variant r))
    (λ '(i, t, s, v), {| dr_base := {| rb_record_id := i; rb_created_at := t; rb_state := s |};
                         dr_variant := v |}) _).
  by intros [[] ?].
Defined.

#[local] Instance codec : DomainCodec := {
  dump_domain := encode_text;
  parse_domain s := r ← decode_text s; if domain_valid r then Some r else None;
}.
#[local] Instance laws : DomainCodecLaws.
Proof.
  split. intros r _. unfold parse_domain, dump_domain, codec. by rewrite decode_encode_text.
Qed.
End DomainText.
