(* ===== verification/DomainRepository.v ===== *)
(** * The domain repository ([domain_repository.py], [storage.py])

    Append-only versions of domain records with their audit entries, tombstones
    of what was deleted, and the consumed authority keys of the same encrypted
    connection.  The fourteen tables have the same columns; a row carries the
    kind of its table. *)

From stdpp Require Import prelude base strings list gmap.
From Stdlib Require Import ZArith Lia.
From S2P Require Import Prelude PyTime PyText PyUuid Transactions AuditLedger Consumption DomainRecords.
#[local] Open Scope string_scope.
#[local] Open Scope list_scope.
#[local] Open Scope Z_scope.

(** The tables in the order of [TABLES]. *)
Definition TABLES : list RecordKind :=
  [IDENTITY; CONNECTOR; CAPABILITY; SOURCE_ITEM; NORMALIZED_FACT; TASK; EVENT; PROPOSAL; APPROVAL;
   EXECUTION; ENERGY_CHECK_IN; GOAL; PATTERN_SNAPSHOT; CONSENT_RECORD].

Record domain_row := {
  dw_kind : RecordKind;
  dw_record_id : uuid;
  dw_version : Z;
  dw_state : string;
  dw_content_json : string;
  dw_created_at : string;
}.

Record tombstone_row := {
  tr_record_kind : string;
  tr_deleted_at : string;
  tr_source_fingerprint : string;
}.

Record state_db := {
  sd_records : list domain_row;
  sd_tombstones : gmap uuid tombstone_row;
  sd_consumption : list ConsumptionKey;
  sd_audit : audit_db;
}.

Inductive DomainError :=
| RecordNotFoundError (record_kind : RecordKind) (record_id : uuid)
| DomainValueError (message : string)
| DomainValidationError           (** a row or a copy that does not parse *)
| DomainIntegrityError            (** duplicate primary key *)
| LifecycleRequired               (** the delete trigger *)
| DomainLedgerError (e : AuditError).

Definition set_records (db : state_db) (l : list domain_row) : state_db :=
  {| sd_records := l; sd_tombstones := sd_tombstones db; sd_consumption := sd_consumption db;
     sd_audit := sd_audit db |}.
Definition set_domain_tombstones (db : state_db) (t : gmap uuid tombstone_row) : state_db :=
  {| sd_records := sd_records db; sd_tombstones := t; sd_consumption := sd_consumption db;
     sd_audit := sd_audit db |}.
Definition set_consumption (db : state_db) (l : list ConsumptionKey) : state_db :=
  {| sd_records := sd_records db; sd_tombstones := sd_tombstones db; sd_consumption := l;
     sd_audit := sd_audit db |}.
Definition set_domain_audit (db : state_db) (a : audit_db) : state_db :=
  {| sd_records := sd_records db; sd_tombstones := sd_tombstones db;
     sd_consumption := sd_consumption db; sd_audit := a |}.

(** ** Statements *)

(** The rows of one record in its table. *)
Definition of_record (kind : RecordKind) (record_id : uuid) (row : domain_row) : bool :=
  bool_decide (dw_kind row = kind) && (dw_record_id row =? record_id).
Definition versions (kind : RecordKind) (record_id : uuid) (db : state_db) : list domain_row :=
  List.filter (of_record kind record_id) (sd_records db).

Definition insert_row (row : domain_row) (db : state_db) : result DomainError state_db :=
  if existsb (λ old, of_record (dw_kind row) (dw_record_id row) old
                     && (dw_version old =? dw_version row)) (sd_records db)
  then Err DomainIntegrityError
  else Ok (set_records db (sd_records db ++ [row])).

(** The trigger refuses to delete a row unless the lifecycle authorizes it. *)
Definition delete_rows (lifecycle_authorized : bool) (kind : RecordKind) (record_id : uuid)
    (db : state_db) : result DomainError state_db :=
  if negb lifecycle_authorized && existsb (of_record kind record_id) (sd_records db)
  then Err LifecycleRequired
  else Ok (set_records db (List.filter (λ row, negb (of_record kind record_id row)) (sd_records db))).

Definition insert_domain_tombstone (record_id : uuid) (t : tombstone_row) (db : state_db) :
    result DomainError state_db :=
  match sd_tombstones db !! record_id with
  | Some _ => Err DomainIntegrityError
  | None => Ok (set_domain_tombstones db (<[record_id := t]> (sd_tombstones db)))
  end.

(** ** The consumed keys *)

Definition insert_claim (k : ConsumptionKey) (db : state_db) : result SqlError state_db :=
  match insert_key k (sd_consumption db) with
  | Ok l => Ok (set_consumption db l)
  | Err e => Err e
  end.

Definition claim_rows (keys : list ConsumptionKey) : comp (connection state_db) SqlError unit :=
  domain_transaction (for_each (λ k, execute (insert_claim k)) keys).

#[export] Instance state_consumption : ConsumptionStore (connection state_db) := {
  generation c p := length (filter (λ k, k.1 = reset_round p) (sd_consumption (live c)));
  consume keys c :=
    match claim_rows keys c with
    | (c', Ok _) => (c', true)
    | (c', Err IntegrityError) => (c', false)
    end;
}.

Section repository.
Context (hmac : string → string → string) (audit_key : string) `{DomainCodec}.
Abbreviation M := (comp (connection state_db) DomainError).

(** [_fingerprint] *)
Definition domain_fingerprint (r : Domain.DomainRecord) : string :=
  tohex (hmac audit_key (dump_domain r)).

Definition verify_chain (db : state_db) : result DomainError unit :=
  match verify_ledger hmac audit_key (sd_audit db) with
  | Ok _ => Ok tt
  | Err e => Err (DomainLedgerError e)
  end.

Definition domain_mutation (kind : RecordKind) (record_id : uuid) (state action fp : string)
    (ctx : TransitionContext) : AuditMutation :=
  {| am_record_kind := kind; am_record_id := uuid_str record_id; am_state := state;
     am_action_class := kind_value kind +:+ "." +:+ action; am_source_fingerprint := fp;
     am_actor := tc_actor ctx; am_correlation_id := tc_correlation_id ctx;
     am_occurred_at := tc_occurred_at ctx |}.

Definition append_entry (m : AuditMutation) (db : state_db) : result DomainError state_db :=
  match append hmac audit_key m (sd_audit db) with
  | (a, Ok _) => Ok (set_domain_audit db a)
  | (_, Err e) => Err (DomainLedgerError e)
  end.

Definition row_of_version (r : Domain.DomainRecord) (version : Z) : domain_row :=
  {| dw_kind := Domain.record_kind r; dw_record_id := Domain.record_id r; dw_version := version;
     dw_state := Domain.state r; dw_content_json := dump_domain r;
     dw_created_at := isoformat (Domain.created_at r) |}.

(** ** Queries *)

(** [ORDER BY version DESC LIMIT 1] *)
Definition latest (kind : RecordKind) (record_id : uuid) (db : state_db) : option domain_row :=
  head (py_sorted (λ a b, dw_version b <? dw_version a) (versions kind record_id db)).

Definition parse_version (row : domain_row) : result DomainError Domain.DomainRecord :=
  match parse_domain (dw_content_json row) with
  | Some r => Ok r
  | None => Err DomainValidationError
  end.

Definition read_domain (kind : RecordKind) (record_id : uuid) (db : state_db) :
    result DomainError (option Domain.DomainRecord) :=
  match latest kind record_id db with
  | None => Ok None
  | Some row => match parse_version row with Ok r => Ok (Some r) | Err e => Err e end
  end.

Definition version_count (kind : RecordKind) (record_id : uuid) (db : state_db) : Z :=
  Z.of_nat (length (versions kind record_id db)).

(** The rows whose version is the greatest of their record, table by table. *)
Definition newest (db : state_db) (row : domain_row) : bool :=
  forallb (λ other, dw_version other <=? dw_version row)
    (versions (dw_kind row) (dw_record_id row) db).

Fixpoint parse_versions (rows : list domain_row) : result DomainError (list Domain.DomainRecord) :=
  match rows with
  | [] => Ok []
  | row :: rest =>
      match parse_version row with
      | Err e => Err e
      | Ok r => match parse_versions rest with Err e => Err e | Ok l => Ok (r :: l) end
      end
  end.

Definition all_records (db : state_db) : result DomainError (list Domain.DomainRecord) :=
  parse_versions
    (TABLES ≫= λ kind, List.filter (λ row, bool_decide (dw_kind row = kind) && newest db row)
                         (sd_records db)).

(** [tombstone]; its row gives the kind, time and fingerprint. *)
Definition tombstone (record_id : uuid) (db : state_db) : result DomainError tombstone_row :=
  match sd_tombstones db !! record_id with
  | Some t => Ok t
  | None => Err (RecordNotFoundError SOURCE_ITEM record_id)
  end.

(** ** Mutations *)

Definition create (r : Domain.DomainRecord) (ctx : TransitionContext) : M unit :=
  let kind := Domain.record_kind r in
  domain_transaction (
    query verify_chain ≫= λ _,
    query (λ db, raise_if (match sd_tombstones db !! Domain.record_id r with
                           | Some _ => true | None => false end)
                   (DomainValueError "deleted record identity cannot be reused")) ≫= λ _,
    execute (insert_row (row_of_version r 1)) ≫= λ _,
    execute (append_entry (domain_mutation kind (Domain.record_id r) (Domain.state r) "created"
                             (domain_fingerprint r) ctx))).

(** [DOMAIN_RECORD_ADAPTER.validate_json(copy.model_dump_json())] *)
Definition revalidated (r : Domain.DomainRecord) : result DomainError Domain.DomainRecord :=
  match parse_domain (dump_domain r) with
  | Some changed => Ok changed
  | None => Err DomainValidationError
  end.

(** The row is written under the identifier and creation time that were read. *)
Definition version_row (kind : RecordKind) (record_id : uuid) (version : Z) (new_state : string)
    (changed current : Domain.DomainRecord) : domain_row :=
  {| dw_kind := kind; dw_record_id := record_id; dw_version := version; dw_state := new_state;
     dw_content_json := dump_domain changed;
     dw_created_at := isoformat (Domain.created_at current) |}.

Definition required_record (kind : RecordKind) (record_id : uuid) : M Domain.DomainRecord :=
  query (read_domain kind record_id) ≫= λ current,
  match current with
  | None => throw (RecordNotFoundError kind record_id)
  | Some current => mret current
  end.

Definition _transition (kind : RecordKind) (record_id : uuid) (new_state : string)
    (ctx : TransitionContext) : M unit :=
  required_record kind record_id ≫= λ current,
  query (λ db, Ok (version_count kind record_id db + 1)) ≫= λ version,
  query (λ _, revalidated (Domain.with_state current new_state)) ≫= λ changed,
  execute (insert_row (version_row kind record_id version new_state changed current)) ≫= λ _,
  execute (append_entry (domain_mutation kind record_id new_state "transitioned"
                           (domain_fingerprint changed) ctx)).

Definition transition (kind : RecordKind) (record_id : uuid) (new_state : string)
    (ctx : TransitionContext) : M unit :=
  domain_transaction (query verify_chain ≫= λ _, _transition kind record_id new_state ctx).

Definition _delete (kind : RecordKind) (record_id : uuid) (ctx : TransitionContext) : M unit :=
  required_record kind record_id ≫= λ current,
  execute (delete_rows true kind record_id) ≫= λ _,
  execute (insert_domain_tombstone record_id
             {| tr_record_kind := kind_value kind;
                tr_deleted_at := isoformat (tc_occurred_at ctx);
                tr_source_fingerprint := domain_fingerprint current |}) ≫= λ _,
  execute (append_entry (domain_mutation kind record_id "deleted" "deleted"
                           (domain_fingerprint current) ctx)).

Definition delete_domain (kind : RecordKind) (record_id : uuid) (ctx : TransitionContext) : M unit :=
  domain_transaction (query verify_chain ≫= λ _, _delete kind record_id ctx).

(** [store.domain_transaction()]: a block that verifies the ledger first. *)
Definition store_transaction {A : Type} (body : M A) : M A :=
  domain_transaction (query verify_chain ≫= λ _, body).

(** [append_export_audit], which commits whatever transaction is open. *)
Definition append_export_audit (marker_id : uuid) (ctx : TransitionContext) : M unit :=
  query verify_chain ≫= λ _,
  execute_dml (append_entry
    {| am_record_kind := IDENTITY; am_record_id := uuid_str marker_id; am_state := "redacted";
       am_action_class := "export.redacted";
       am_source_fingerprint := tohex (hmac audit_key (uuid_str marker_id));
       am_actor := tc_actor ctx; am_correlation_id := tc_correlation_id ctx;
       am_occurred_at := tc_occurred_at ctx |}) ≫= λ _,
  stateful (λ c, (commit c, Ok tt)).
End repository.
