(* ===== verification/DomainSpec.v ===== *)
(** * What the domain repository promises ([domain_repository.py])

    An abstract store keeps, for each kind and identifier, the list of versions
    of a record, and the set of deleted identifiers.  The repository implements
    it: every operation succeeds exactly when the abstract one does and leaves
    tables that represent its result, with exactly one audit entry more. *)

From stdpp Require Import prelude base strings list gmap.
From Stdlib Require Import ZArith Lia.
From S2P Require Import Prelude PyTime PyText PyUuid Transactions Consumption AuditLedger DomainRecords DomainRepository.
#[local] Open Scope string_scope.
#[local] Open Scope list_scope.
#[local] Open Scope Z_scope.

(** ** The abstract store *)

Definition history : Type := RecordKind → uuid → list Domain.DomainRecord.

Record versioned := {
  vs_history : history;
  vs_deleted : gset uuid;
}.

Definition set_history (h : history) (kind : RecordKind) (id : uuid)
    (l : list Domain.DomainRecord) : history :=
  λ kind' id', if bool_decide (kind' = kind ∧ id' = id) then l else h kind' id'.

Inductive domain_op :=
| OpCreate (r : Domain.DomainRecord) (ctx : TransitionContext)
| OpTransition (kind : RecordKind) (id : uuid) (new_state : string) (ctx : TransitionContext)
| OpDeleteRecord (kind : RecordKind) (id : uuid) (ctx : TransitionContext).

Definition abstract_step (op : domain_op) (s : versioned) : option versioned :=
  match op with
  | OpCreate r _ =>
      if bool_decide (Domain.record_id r ∈ vs_deleted s) then None
      else match vs_history s (Domain.record_kind r) (Domain.record_id r) with
           | [] => Some {| vs_history := set_history (vs_history s) (Domain.record_kind r)
                                           (Domain.record_id r) [r];
                           vs_deleted := vs_deleted s |}
           | _ => None
           end
  | OpTransition kind id new_state _ =>
      match last (vs_history s kind id) with
      | None => None
      | Some current =>
          if Domain.filled new_state then
            Some {| vs_history := set_history (vs_history s) kind id
                      (vs_history s kind id ++ [Domain.with_state current new_state]);
                    vs_deleted := vs_deleted s |}
          else None
      end
  | OpDeleteRecord kind id _ =>
      match last (vs_history s kind id) with
      | None => None
      | Some _ =>
          if bool_decide (id ∈ vs_deleted s) then None
          else Some {| vs_history := set_history (vs_history s) kind id [];
                       vs_deleted := {[ id ]} ∪ vs_deleted s |}
      end
  end.

(** A refused operation changes nothing. *)
Definition abstract_run (ops : list domain_op) (s : versioned) : versioned :=
  foldl (λ s op, default s (abstract_step op s)) s ops.

Definition nothing : versioned := {| vs_history := λ _ _, []; vs_deleted := ∅ |}.

(** A constructed record is valid; its times have fixed offsets. *)
Definition op_valid (op : domain_op) : bool :=
  match op with
  | OpCreate r _ => Domain.domain_valid r && Domain.plain r
  | _ => true
  end.

Section spec.
Context (hmac : string → string → string) (audit_key : string).
Context `{DomainCodec} `{!DomainCodecLaws}.

Abbreviation create := (create hmac audit_key).
Abbreviation transition := (transition hmac audit_key).
Abbreviation delete_domain := (delete_domain hmac audit_key).

(** ** Representation *)

Definition stored_as (kind : RecordKind) (id : uuid) (r : Domain.DomainRecord) : Prop :=
  Domain.record_kind r = kind ∧ Domain.record_id r = id ∧ Domain.plain r = true
  ∧ Domain.domain_valid r = true.

(** The rows of versions [n + 1], [n + 2], ... *)
Fixpoint numbered (n : Z) (l : list Domain.DomainRecord) : list domain_row :=
  match l with
  | [] => []
  | r :: l' => row_of_version r (n + 1) :: numbered (n + 1) l'
  end.

Record represents (db : state_db) (s : versioned) : Prop := {
  rp_rows : ∀ kind id, versions kind id db = numbered 0 (vs_history s kind id);
  rp_stored : ∀ kind id, Forall (stored_as kind id) (vs_history s kind id);
  rp_deleted : dom (sd_tombstones db) = vs_deleted s;
  rp_anchor : is_Some (db_anchor (sd_audit db));
  rp_ledger : ∃ v, verify_ledger hmac audit_key (sd_audit db) = Ok v;
}.

Lemma numbered_app n l r :
  numbered n (l ++ [r]) = numbered n l ++ [row_of_version r (n + Z.of_nat (length l) + 1)].
Proof.
  revert n. induction l as [|x l IH]; intros n; simpl; [by rewrite Z.add_0_r|].
  rewrite IH. do 4 f_equal. lia.
Qed.

Lemma numbered_versions n l row :
  row ∈ numbered n l → n < dw_version row <= n + Z.of_nat (length l).
Proof.
  revert n. induction l as [|x l IH]; intros n; simpl; [by intros []%elem_of_nil|].
  intros [->|Hr]%elem_of_cons; [simpl; lia|]. apply IH in Hr. lia.
Qed.

Lemma numbered_length n l : length (numbered n l) = length l.
Proof. revert n. induction l as [|x l IH]; intros n; simpl; [done|]. by rewrite IH. Qed.

Lemma numbered_last n l : last (numbered n l) = (λ r, row_of_version r (n + Z.of_nat (length l))) <$> last l.
Proof.
  destruct l as [|r l] using rev_ind; [done|]. rewrite numbered_app, !last_snoc, length_app. simpl.
  do 2 f_equal. lia.
Qed.

(** [ORDER BY version DESC] reverses them. *)
Lemma numbered_sorted n l :
  py_sorted (λ a b, dw_version b <? dw_version a) (numbered n l) = reverse (numbered n l).
Proof.
  revert n. induction l as [|x l IH]; intros n; [done|]. cbn [numbered py_sorted foldr].
  change (foldr (py_insert _) [] (numbered (n + 1) l))
    with (py_sorted (λ a b, dw_version b <? dw_version a) (numbered (n + 1) l)).
  rewrite IH, reverse_cons. apply py_insert_last. intros y Hy. apply elem_of_reverse, numbered_versions in Hy.
  simpl. apply Z.ltb_lt. lia.
Qed.

Lemma head_reverse {A} (l : list A) : head (reverse l) = last l.
Proof. destruct l as [|x l] using rev_ind; [done|]. by rewrite reverse_snoc, last_snoc. Qed.

(** Reading gives the last version, counting counts them. *)
Lemma read_represented db s kind id :
  represents db s → read_domain kind id db = Ok (last (vs_history s kind id)).
Proof.
  intros Hs. unfold read_domain, latest. rewrite (rp_rows db s Hs), numbered_sorted, head_reverse, numbered_last.
  destruct (last (vs_history s kind id)) as [r|] eqn:Hl; simpl; [|done].
  pose proof (rp_stored db s Hs kind id) as Hst. rewrite Forall_forall in Hst.
  destruct (Hst r (last_Some_elem_of _ _ Hl)) as (_ & _ & Hp & Hv).
  unfold parse_version. simpl. by rewrite parse_dump_domain, Hv.
Qed.

Lemma count_represented db s kind id :
  represents db s → version_count kind id db = Z.of_nat (length (vs_history s kind id)).
Proof. intros Hs. unfold version_count. by rewrite (rp_rows db s Hs), numbered_length. Qed.

(** ** Statements on represented tables *)

Lemma existsb_filter {A} (p q : A → bool) l :
  existsb (λ x, p x && q x) l = existsb q (List.filter p l).
Proof. induction l as [|x l IH]; simpl; [done|]. rewrite IH. by destruct (p x). Qed.

Lemma filter_filter {A} (p q : A → bool) l :
  List.filter p (List.filter q l) = List.filter (λ x, q x && p x) l.
Proof. induction l as [|x l IH]; simpl; [done|]. destruct (q x); simpl; by rewrite IH. Qed.

Lemma numbered_has_version l v :
  existsb (λ row, dw_version row =? v) (numbered 0 l) = true ↔ 1 <= v <= Z.of_nat (length l).
Proof.
  rewrite existsb_exists. setoid_rewrite <- list_elem_of_In. split.
  - intros (row & Hr%numbered_versions & Hv%Z.eqb_eq). lia.
  - revert v. induction l as [|r l IH] using rev_ind; intros v Hv; [simpl in *; lia|].
    rewrite numbered_app. rewrite length_app in Hv. simpl in Hv.
    destruct (decide (v = Z.of_nat (length l) + 1)) as [->|Hne].
    + exists (row_of_version r (0 + Z.of_nat (length l) + 1)). rewrite elem_of_app, list_elem_of_singleton.
      split; [by right|]. simpl. apply Z.eqb_eq. lia.
    + destruct (IH v ltac:(lia)) as (row & Hr & Hv'). exists row. rewrite elem_of_app. auto.
Qed.

Lemma insert_row_represented db s row :
  represents db s →
  insert_row row db =
  if bool_decide (1 <= dw_version row
                  <= Z.of_nat (length (vs_history s (dw_kind row) (dw_record_id row))))
  then Err DomainIntegrityError else Ok (set_records db (sd_records db ++ [row])).
Proof.
  intros Hs. unfold insert_row. rewrite (existsb_filter (of_record _ _) (λ old, dw_version old =? dw_version row)).
  change (List.filter _ _) with (versions (dw_kind row) (dw_record_id row) db).
  rewrite (rp_rows db s Hs). pose proof (numbered_has_version
    (vs_history s (dw_kind row) (dw_record_id row)) (dw_version row)) as Hv.
  destruct (existsb _ _); case_bool_decide; naive_solver.
Qed.

Lemma of_record_spec kind id row :
  of_record kind id row = bool_decide (kind = dw_kind row ∧ id = dw_record_id row).
Proof.
  unfold of_record. destruct (Z.eqb_spec (dw_record_id row) id), (bool_decide_reflect (dw_kind row = kind));
    case_bool_decide; naive_solver.
Qed.

(** Appending the row of the next version. *)
Lemma insert_version_represents db s r :
  represents db s → stored_as (Domain.record_kind r) (Domain.record_id r) r →
  let l := vs_history s (Domain.record_kind r) (Domain.record_id r) in
  represents (set_records db (sd_records db ++ [row_of_version r (Z.of_nat (length l) + 1)]))
    {| vs_history := set_history (vs_history s) (Domain.record_kind r) (Domain.record_id r) (l ++ [r]);
       vs_deleted := vs_deleted s |}.
Proof.
  intros Hs Hr l. split; simpl; try apply Hs.
  - intros kind id. unfold versions, set_history. simpl. rewrite List.filter_app. simpl.
    rewrite of_record_spec. simpl.
    change (List.filter (of_record kind id) (sd_records db)) with (versions kind id db).
    rewrite (rp_rows db s Hs). case_bool_decide as Hk; [|by rewrite app_nil_r].
    destruct Hk as [-> ->]. fold l. by rewrite numbered_app.
  - intros kind id. unfold set_history. case_bool_decide as Hk; [|apply Hs].
    destruct Hk as [-> ->]. apply Forall_app. split; [apply Hs|]. by apply Forall_singleton.
Qed.

Lemma delete_rows_represents db s kind id t :
  represents db s → sd_tombstones db !! id = None →
  represents (set_domain_tombstones
                (set_records db (List.filter (λ row, negb (of_record kind id row)) (sd_records db)))
                (<[id := t]> (sd_tombstones db)))
    {| vs_history := set_history (vs_history s) kind id []; vs_deleted := {[ id ]} ∪ vs_deleted s |}.
Proof.
  intros Hs Ht. split; simpl; try apply Hs.
  - intros kind' id'. unfold versions, set_history. simpl. rewrite filter_filter.
    case_bool_decide as Hk.
    + destruct Hk as [-> ->]. rewrite (filter_none _ (sd_records db)); [done|].
      intros row. by destruct (of_record kind id row).
    + rewrite <- (rp_rows db s Hs). unfold versions. apply filter_ext. intros row.
      rewrite !of_record_spec. do 2 case_bool_decide; naive_solver.
  - intros kind' id'. unfold set_history. case_bool_decide; [constructor|apply Hs].
  - rewrite dom_insert_L. by rewrite (rp_deleted db s Hs).
Qed.

(** One audit entry more, for the record. *)
Definition entry_added (db db' : state_db) (kind : RecordKind) (id : uuid) (action : string) : Prop :=
  ∃ e, entries (sd_audit db') = entries (sd_audit db) ++ [e]
    ∧ ae_record_kind e = kind ∧ ae_record_id e = uuid_str id
    ∧ ae_action_class e = kind_value kind +:+ "." +:+ action.

Lemma verify_represented db s : represents db s → verify_chain hmac audit_key db = Ok tt.
Proof. intros Hs. destruct (rp_ledger db s Hs) as [v Hv]. unfold verify_chain. by rewrite Hv. Qed.

Lemma append_entry_represents db s kind id state action fp ctx :
  represents db s →
  ∃ db', append_entry hmac audit_key (domain_mutation kind id state action fp ctx) db = Ok db'
    ∧ represents db' s ∧ entry_added db db' kind id action
    ∧ sd_records db' = sd_records db ∧ sd_tombstones db' = sd_tombstones db
    ∧ sd_consumption db' = sd_consumption db.
Proof.
  intros Hs. destruct (rp_ledger db s Hs) as [v Hv].
  destruct (append_verified hmac audit_key (domain_mutation kind id state action fp ctx) _ v Hv
    (rp_anchor db s Hs)) as [Happ Hv'].
  unfold append_entry. rewrite Happ. eexists. split; [done|]. split_and!; try done.
  - split; simpl; try apply Hs. by eexists.
  - eexists. split; [done|]. done.
Qed.

(** ** The operations implement the abstract store *)

(** [m] is an implementation of [op]: it succeeds exactly when the abstract step
    does, leaves tables that represent its result, adds one audit entry and
    consumes no authority. *)
Definition op_entry (op : domain_op) : RecordKind * uuid * string :=
  match op with
  | OpCreate r _ => (Domain.record_kind r, Domain.record_id r, "created")
  | OpTransition kind id _ _ => (kind, id, "transitioned")
  | OpDeleteRecord kind id _ => (kind, id, "deleted")
  end.

Definition step_of (op : domain_op) (db : state_db) (s : versioned)
    (res : result DomainError (unit * state_db)) : Prop :=
  match abstract_step op s with
  | Some s' =>
      ∃ db', res = Ok (tt, db') ∧ represents db' s'
        ∧ entry_added db db' (op_entry op).1.1 (op_entry op).1.2 (op_entry op).2
        ∧ sd_consumption db' = sd_consumption db
  | None => ∃ e, res = Err e
  end.

Definition implements (m : comp (connection state_db) DomainError unit) (op : domain_op) : Prop :=
  ∃ f, computes m f ∧
    ∀ db s, represents db s → op_valid op = true → step_of op db s (f db).

(** The operations are blocks around such bodies. *)
Definition block_implements (m : comp (connection state_db) DomainError unit) (op : domain_op) : Prop :=
  ∃ body, m = domain_transaction body ∧ implements body op.

Lemma tombstone_represented db s id :
  represents db s → (sd_tombstones db !! id = None ↔ id ∉ vs_deleted s).
Proof. intros Hs. by rewrite <- (rp_deleted db s Hs), not_elem_of_dom. Qed.

Lemma create_implements r ctx : block_implements (create r ctx) (OpCreate r ctx).
Proof.
  eexists. split; [reflexivity|]. eexists. split.
  { eapply computes_bind; [apply computes_query|intros u1].
    eapply computes_bind; [apply computes_query|intros u2].
    eapply computes_bind; [apply computes_execute|intros u3]. apply computes_execute. }
  intros db s Hs Hv. unfold step_of, then_, asks, does. simpl in *.
  rewrite (verify_represented db s Hs). apply andb_true_iff in Hv as [Hv Hp].
  pose proof (tombstone_represented db s (Domain.record_id r) Hs) as Ht.
  destruct (sd_tombstones db !! Domain.record_id r) as [t|] eqn:Hlook; simpl.
  { rewrite bool_decide_true; [by eexists|]. by destruct (decide (Domain.record_id r ∈ vs_deleted s)); [|naive_solver]. }
  rewrite bool_decide_false by naive_solver. rewrite (insert_row_represented db s) by done. simpl.
  pose proof (insert_version_represents db s r Hs) as Hi. cbv zeta in Hi.
  destruct (vs_history s _ _) as [|x l] eqn:Hh; simpl.
  - specialize (Hi ltac:(done)). change (Z.of_nat (length []) + 1) with 1 in Hi. simpl in Hi.
    destruct (append_entry_represents _ _ (Domain.record_kind r) (Domain.record_id r) (Domain.state r)
      "created" (domain_fingerprint hmac audit_key r) ctx Hi) as (db' & -> & Hr & He & _ & _ & Hc).
    by exists db'.
  - rewrite bool_decide_true by lia. by eexists.
Qed.

Lemma required_computes kind id :
  computes (required_record kind id)
    (λ db, match read_domain kind id db with
           | Ok (Some r) => Ok (r, db)
           | Ok None => Err (RecordNotFoundError kind id)
           | Err e => Err e
           end).
Proof.
  eapply computes_ext.
  - eapply computes_bind; [apply computes_query|].
    intros o. apply (computes_ext _
      (λ db, match o with Some r => Ok (r, db) | None => Err (RecordNotFoundError kind id) end)); [|done].
    destruct o; [apply computes_ret|apply computes_throw].
  - intros db. unfold then_, asks. by destruct (read_domain kind id db) as [[r|]|e].
Qed.

Lemma last_stored db s kind id r :
  represents db s → last (vs_history s kind id) = Some r → stored_as kind id r.
Proof.
  intros Hs Hl. pose proof (rp_stored db s Hs kind id) as Hst. rewrite Forall_forall in Hst.
  by apply Hst, last_Some_elem_of.
Qed.

Lemma with_state_valid r new_state :
  Domain.domain_valid r = true → Domain.domain_valid (Domain.with_state r new_state) = Domain.filled new_state.
Proof. intros [_ Hv]%andb_true_iff. unfold Domain.domain_valid. simpl. by rewrite Hv, andb_true_r. Qed.

Lemma transition_implements kind id new_state ctx :
  block_implements (transition kind id new_state ctx) (OpTransition kind id new_state ctx).
Proof.
  eexists. split; [reflexivity|]. eexists. split.
  { eapply computes_bind; [apply computes_query|intros u1].
    eapply computes_bind; [apply required_computes|intros current].
    eapply computes_bind; [apply computes_query|intros version].
    eapply computes_bind; [apply computes_query|intros changed].
    eapply computes_bind; [apply computes_execute|intros u2]. apply computes_execute. }
  intros db s Hs _. unfold step_of, then_, asks, does. simpl.
  rewrite (verify_represented db s Hs), (read_represented db s) by done.
  destruct (last (vs_history s kind id)) as [r|] eqn:Hl; [|by eexists].
  destruct (last_stored db s kind id r Hs Hl) as (<- & <- & Hp & Hv).
  unfold revalidated. rewrite parse_dump_domain, with_state_valid by done.
  destruct (Domain.filled new_state) eqn:Hfill; [|by eexists].
  rewrite (count_represented db s), (insert_row_represented db s) by done. simpl.
  rewrite bool_decide_false by lia.
  destruct (append_entry_represents _ _ (Domain.record_kind r) (Domain.record_id r) new_state
    "transitioned" (domain_fingerprint hmac audit_key (Domain.with_state r new_state)) ctx
    (insert_version_represents db s (Domain.with_state r new_state) Hs
       ltac:(split_and!; [done..|by rewrite with_state_valid])))
    as (db' & Happ & Hr & He & _ & _ & Hc).
  exists db'. split; [|done].
  exact (f_equal (λ x, match x with Ok db' => Ok (tt, db') | Err e => Err e end) Happ).
Qed.

Lemma delete_implements kind id ctx :
  block_implements (delete_domain kind id ctx) (OpDeleteRecord kind id ctx).
Proof.
  eexists. split; [reflexivity|]. eexists. split.
  { eapply computes_bind; [apply computes_query|intros u1].
    eapply computes_bind; [apply required_computes|intros current].
    eapply computes_bind; [apply computes_execute|intros u2].
    eapply computes_bind; [apply computes_execute|intros u3]. apply computes_execute. }
  intros db s Hs _. unfold step_of, then_, asks, does. simpl.
  rewrite (verify_represented db s Hs), (read_represented db s) by done.
  destruct (last (vs_history s kind id)) as [r|] eqn:Hl; [|by eexists].
  unfold insert_domain_tombstone. simpl.
  pose proof (tombstone_represented db s id Hs) as Ht.
  destruct (sd_tombstones db !! id) as [t|] eqn:Hlook.
  { rewrite bool_decide_true; [by eexists|]. by destruct (decide (id ∈ vs_deleted s)); [|naive_solver]. }
  rewrite bool_decide_false by naive_solver.
  destruct (append_entry_represents _ _ kind id "deleted" "deleted"
    (domain_fingerprint hmac audit_key r) ctx
    (delete_rows_represents db s kind id
       {| tr_record_kind := kind_value kind; tr_deleted_at := isoformat (tc_occurred_at ctx);
          tr_source_fingerprint := domain_fingerprint hmac audit_key r |} Hs Hlook))
    as (db' & Happ & Hr & He & _ & _ & Hc).
  simpl in Happ. rewrite Happ. by exists db'.
Qed.

(** ** Sequences of operations *)

Definition perform (op : domain_op) : comp (connection state_db) DomainError unit :=
  match op with
  | OpCreate r ctx => create r ctx
  | OpTransition kind id new_state ctx => transition kind id new_state ctx
  | OpDeleteRecord kind id ctx => delete_domain kind id ctx
  end.

Definition domain_run (ops : list domain_op) (c : connection state_db) : connection state_db :=
  foldl (λ c op, (perform op c).1) c ops.

Definition domain_fresh (c : connection state_db) : Prop :=
  sd_records (live c) = [] ∧ sd_tombstones (live c) = ∅ ∧ sd_audit (live c) = empty_ledger
  ∧ live c = durable c ∧ in_transaction c = false.

(** A connection at rest whose contents represent [s]. *)
Definition rests (c : connection state_db) (s : versioned) : Prop :=
  represents (live c) s ∧ live c = durable c ∧ in_transaction c = false.

Lemma fresh_rests c : domain_fresh c → rests c nothing.
Proof.
  intros (Hr & Ht & Ha & Hd & Hin). split_and!; [|done..].
  split; rewrite ?Ha; try done; try by eexists.
  - intros kind id. unfold versions. by rewrite Hr.
  - rewrite Ht. by rewrite dom_empty_L.
Qed.

Lemma perform_implements op : block_implements (perform op) op.
Proof. destruct op; [apply create_implements|apply transition_implements|apply delete_implements]. Qed.

(** One operation on a store at rest. *)
Lemma perform_rests op c s :
  rests c s → op_valid op = true →
  match abstract_step op s with
  | Some s' =>
      (perform op c).2 = Ok tt ∧ rests (perform op c).1 s'
      ∧ entry_added (live c) (live (perform op c).1) (op_entry op).1.1 (op_entry op).1.2 (op_entry op).2
      ∧ sd_consumption (live (perform op c).1) = sd_consumption (live c)
  | None => ∃ e, perform op c = (c, Err e)
  end.
Proof.
  intros (Hs & Hd & Hin) Hv. destruct (perform_implements op) as (m & -> & f & Hm & Hf).
  rewrite (block_outermost m f c Hm Hin Hd). specialize (Hf _ _ Hs Hv). unfold step_of in Hf.
  destruct (abstract_step op s) as [s'|].
  - destruct Hf as (db' & -> & Hr & He & Hc). by split_and!.
  - destruct Hf as [e ->]. by exists e.
Qed.

Lemma domain_run_rests ops c s :
  rests c s → forallb op_valid ops = true → rests (domain_run ops c) (abstract_run ops s).
Proof.
  revert c s. induction ops as [|op ops IH]; intros c s Hc Hv; [done|]. simpl in Hv.
  apply andb_true_iff in Hv as [Hop Hv]. pose proof (perform_rests op c s Hc Hop) as Hp.
  unfold domain_run, abstract_run. simpl. apply IH; [|done].
  destruct (abstract_step op s) as [s'|]; simpl; [apply Hp|]. by destruct Hp as [e ->].
Qed.

(** C17. The repository is a store of version histories: after any operations it
    reads, for every kind and identifier, the last version that the abstract store
    has, and counts as many; its tombstones are the deleted identifiers; the next
    operation succeeds exactly when the abstract one does, then adds exactly one
    audit entry for its record, and otherwise raises and changes nothing; and
    everything is on disk under a ledger that verifies. *)
Theorem repository_keeps_histories c ops op :
  domain_fresh c → forallb op_valid ops = true → op_valid op = true →
  let before := domain_run ops c in
  let s := abstract_run ops nothing in
  (∀ kind id, read_domain kind id (live before) = Ok (last (vs_history s kind id))
     ∧ version_count kind id (live before) = Z.of_nat (length (vs_history s kind id)))
  ∧ (∀ id, is_Some (sd_tombstones (live before) !! id) ↔ id ∈ vs_deleted s)
  ∧ live before = durable before ∧ in_transaction before = false
  ∧ (∃ v, verify_ledger hmac audit_key (sd_audit (live before)) = Ok v)
  ∧ match abstract_step op s with
    | Some s' =>
        (perform op before).2 = Ok tt
        ∧ entry_added (live before) (live (perform op before).1)
            (op_entry op).1.1 (op_entry op).1.2 (op_entry op).2
    | None => ∃ e, perform op before = (before, Err e)
    end.
Proof.
  intros Hf Hv Hop before s. pose proof (domain_run_rests ops c nothing (fresh_rests c Hf) Hv) as Hr.
  fold before s in Hr. pose proof (perform_rests op before s Hr Hop) as Hp. destruct Hr as (Hs & Hd & Hin).
  split_and!; [|intros id|done|done|apply Hs|].
  - intros kind id. split; [by apply read_represented|by apply count_represented].
  - by rewrite <- elem_of_dom, (rp_deleted _ _ Hs).
  - destruct (abstract_step op s); [|done]. by destruct Hp as (? & _ & ? & _).
Qed.

(** ** Deletion and append-only versions *)

Lemma abstract_deleted_mono op s s' : abstract_step op s = Some s' → vs_deleted s ⊆ vs_deleted s'.
Proof.
  destruct op; simpl; intros Hs; repeat case_match; try done; injection Hs as <-; simpl; set_solver.
Qed.

Lemma abstract_gone op s s' kind id :
  abstract_step op s = Some s' → id ∈ vs_deleted s → vs_history s kind id = [] →
  vs_history s' kind id = [].
Proof.
  intros Hs Hid Hnil. destruct op as [r ctx|k i st ctx|k i ctx]; simpl in Hs.
  - case_bool_decide; [done|]. case_match; [|done]. injection Hs as <-. simpl. unfold set_history.
    case_bool_decide as Hk; [|done]. destruct Hk as [-> ->]. done.
  - destruct (last _) eqn:Hl; [|done]. case_match; [|done]. injection Hs as <-. simpl. unfold set_history.
    case_bool_decide as Hk; [|done]. destruct Hk as [-> ->]. by rewrite Hnil in Hl.
  - destruct (last _) eqn:Hl; [|done]. case_bool_decide; [done|]. injection Hs as <-. simpl.
    unfold set_history. by case_bool_decide.
Qed.

Lemma abstract_run_gone ops s kind id :
  id ∈ vs_deleted s → vs_history s kind id = [] →
  id ∈ vs_deleted (abstract_run ops s) ∧ vs_history (abstract_run ops s) kind id = [].
Proof.
  revert s. induction ops as [|op ops IH]; intros s Hid Hnil; [done|]. unfold abstract_run. simpl.
  apply IH; destruct (abstract_step op s) as [s'|] eqn:Hs; simpl; try done.
  - by apply (abstract_deleted_mono op s s' Hs).
  - by eapply abstract_gone.
Qed.

(** Deletion is final: once a record is deleted, whatever follows, its content
    is never read again, it has no version, and no record of any kind can be
    created under its identifier. *)
Theorem deleted_records_stay_deleted c ops kind id ctx later r ctx' :
  domain_fresh c → forallb op_valid ops = true → forallb op_valid later = true →
  (perform (OpDeleteRecord kind id ctx) (domain_run ops c)).2 = Ok tt →
  let after := domain_run later (perform (OpDeleteRecord kind id ctx) (domain_run ops c)).1 in
  read_domain kind id (live after) = Ok None
  ∧ version_count kind id (live after) = 0
  ∧ (op_valid (OpCreate r ctx') = true → Domain.record_id r = id →
     ∃ e, perform (OpCreate r ctx') after = (after, Err e)).
Proof.
  intros Hf Hv Hl Hdel. pose proof (domain_run_rests ops c nothing (fresh_rests c Hf) Hv) as Hr.
  pose proof (perform_rests (OpDeleteRecord kind id ctx) _ _ Hr eq_refl) as Hp.
  destruct (abstract_step (OpDeleteRecord kind id ctx) (abstract_run ops nothing)) as [s'|] eqn:Hs.
  2:{ destruct Hp as [e He]. by rewrite He in Hdel. }
  destruct Hp as (_ & Hr' & _). pose proof (domain_run_rests later _ _ Hr' Hl) as Hr''.
  assert (id ∈ vs_deleted s' ∧ vs_history s' kind id = []) as [Hid Hnil].
  { simpl in Hs. destruct (last _); [|done]. case_bool_decide; [done|]. injection Hs as <-. simpl.
    split; [set_solver|]. unfold set_history. by rewrite bool_decide_true. }
  destruct (abstract_run_gone later s' kind id Hid Hnil) as [Hid' Hnil']. intros after.
  fold after in Hr''. destruct Hr'' as (Hrep & Hd & Hin). split_and!.
  - by rewrite (read_represented _ _ kind id Hrep), Hnil'.
  - by rewrite (count_represented _ _ kind id Hrep), Hnil'.
  - intros Hop Hrid. pose proof (perform_rests (OpCreate r ctx') after _ (conj Hrep (conj Hd Hin)) Hop) as Hc.
    simpl in Hc. rewrite Hrid in Hc. by rewrite bool_decide_true in Hc.
Qed.
End spec.

(** * Records of the domain repository, step by step ([domain_repository.py]) *)

#[local] Existing Instances DomainText.codec DomainText.laws.

Module Cabinet.
Definition mac (key payload : string) : string := key.
Definition ctx : TransitionContext :=
  {| tc_actor := "owner"; tc_correlation_id := "c"; tc_occurred_at := utc_datetime 5 |}.
Definition empty_db : state_db :=
  {| sd_records := []; sd_tombstones := ∅; sd_consumption := []; sd_audit := empty_ledger |}.
Definition empty : connection state_db := Connection empty_db empty_db false.
Definition base (id : uuid) : Domain.RecordBase :=
  {| Domain.rb_record_id := id; Domain.rb_created_at := utc_datetime 1; Domain.rb_state := "open" |}.
Definition task (id : uuid) : Domain.DomainRecord :=
  {| Domain.dr_base := base id; Domain.dr_variant := Domain.Task "water the plants" |}.
Definition goal (id : uuid) : Domain.DomainRecord :=
  {| Domain.dr_base := base id; Domain.dr_variant := Domain.Goal "a green home" |}.
Definition opened : list domain_op :=
  [OpCreate (task 1) ctx; OpTransition TASK 1 "done" ctx; OpCreate (goal 2) ctx].
Abbreviation run := (domain_run mac "k").
Abbreviation perform := (perform mac "k").

Lemma cabinet_fresh : domain_fresh empty.
Proof. done. Qed.
End Cabinet.

Lemma repository_keeps_histories_witness :
  read_domain TASK 1 (live (Cabinet.run Cabinet.opened Cabinet.empty))
  = Ok (Some (Domain.with_state (Cabinet.task 1) "done"))
  ∧ version_count TASK 1 (live (Cabinet.run Cabinet.opened Cabinet.empty)) = 2.
Proof.
  destruct (repository_keeps_histories Cabinet.mac "k" Cabinet.empty Cabinet.opened
    (OpDeleteRecord TASK 1 Cabinet.ctx) Cabinet.cabinet_fresh eq_refl eq_refl) as [H _].
  destruct (H TASK 1) as [Hr Hc]. split.
  - rewrite Hr. vm_compute. reflexivity.
  - rewrite Hc. vm_compute. reflexivity.
Defined.

Lemma deleted_records_stay_deleted_witness :
  let deleted := (Cabinet.perform (OpDeleteRecord TASK 1 Cabinet.ctx)
                    (Cabinet.run Cabinet.opened Cabinet.empty)).1 in
  let after := Cabinet.run [OpTransition GOAL 2 "done" Cabinet.ctx] deleted in
  ∃ e, Cabinet.perform (OpCreate (Cabinet.goal 1) Cabinet.ctx) after = (after, Err e).
Proof.
  refine (proj2 (proj2 (deleted_records_stay_deleted Cabinet.mac "k" Cabinet.empty Cabinet.opened TASK 1
    Cabinet.ctx [OpTransition GOAL 2 "done" Cabinet.ctx] (Cabinet.goal 1) Cabinet.ctx
    Cabinet.cabinet_fresh eq_refl eq_refl _)) eq_refl eq_refl).
  vm_compute. reflexivity.
Defined.

(** Two records of different kinds may share an identifier, but tombstones are
    keyed by the identifier alone: once one of them is deleted, the other can
    never be, and its content stays readable. *)
Theorem shared_identity_blocks_deletion :
  let before := Cabinet.run [OpCreate (Cabinet.task 1) Cabinet.ctx; OpCreate (Cabinet.goal 1) Cabinet.ctx;
                             OpDeleteRecord TASK 1 Cabinet.ctx] Cabinet.empty in
  read_domain TASK 1 (live before) = Ok None
  ∧ Cabinet.perform (OpDeleteRecord GOAL 1 Cabinet.ctx) before = (before, Err DomainIntegrityError)
  ∧ read_domain GOAL 1 (live before) = Ok (Some (Cabinet.goal 1)).
Proof. split_and!; vm_compute; reflexivity. Qed.
