(* ===== verification/WeekExecution.v ===== *)
(** * Proposing, approving, applying and recovering a week ([week_planning.py],
    [durable_calendar.py])

    The service composes the encrypted store, the authority lifecycle, the lease
    issuer and the calendar adapter.  Its state is the connection, the issuer's
    consumed leases and the provider.  The file lock serializes its calls across
    processes, so calls are taken one after the other. *)

From stdpp Require Import prelude base strings list gmap pretty.
From Stdlib Require Import ZArith Lia.
From S2P Require Import Prelude PyTime PyText PyUuid Transactions AuditLedger Consumption Enrollment Authority Leases Calendar Memory DomainRecords DomainRepository PlannerModels Planner WeekPlanning.
#[local] Open Scope string_scope.
#[local] Open Scope list_scope.
#[local] Open Scope Z_scope.

Definition ACTION : string := "calendar.apply".
Definition WORKER : string := "lifeos-calendar-worker".
Definition ACTOR : string := "lifeos".
Definition CORRELATION : string := "week-planning".

(** The errors the service translates, and those it lets through. *)
Inductive ServiceError :=
| WeekPlanProposalError (proposal_id : uuid) (reason : string)
| WeekPlanningPolicyError (reason : string)
| WeekPlanningProviderError (reason : string)
| PreviewError (e : WeekError)
| ServiceValidationError                    (** a pydantic [ValidationError] *)
| StoreError (e : DomainError)
| AuthorityRaised (e : AuthorityError)
| LeaseRaised (e : LeaseError)
| CalendarRaised (e : CalendarError).

Record WeekPlanExecutionResult := {
  er_proposal_id : uuid;
  er_state : ProposalState;
  er_lease_id : string;
  er_applied_operations : Z;
  er_message : string;
}.

Record WeekPlanProposal := {
  wpp_proposal_id : uuid;
  wpp_payload_hash : string;
  wpp_status : PlanStatus;
  wpp_plan_date : Z;
  wpp_timezone : string;
  wpp_window_start : datetime;
  wpp_window_end : datetime;
  wpp_blocks : list PlanBlock;
  wpp_calendar_blocks : list CalendarBlock;
  wpp_explanations : list TaskExplanation;
  wpp_unscheduled : list UnscheduledActivity;
  wpp_gaps : list PlanningGap;
  wpp_calendar_dry_run : CalendarPreview;
}.

Record CalendarRecoveryOutcome := {
  ro_proposal_id : uuid;
  ro_state : ProposalState;
  ro_outcome : string;
  ro_succeeded_events : list string;
  ro_missing_events : list string;
}.

(** The times the clock shows during one call, and the identifiers it draws. *)
Record call_context := {
  cc_now : Z;                  (** when the approval is checked *)
  cc_issued : Z;               (** when the lease is issued *)
  cc_verified : Z;             (** when the lease is verified *)
  cc_applied : Z;              (** when the lifecycle applies *)
  cc_lease_id : string;        (** [uuid4] of the lease *)
  cc_record_id : uuid;         (** [uuid4] of a new record *)
}.

Section service.
Context {T : Type} `{GoogleCalendarTransport T} {P : Type} `{DevicePersistence P}.
Context (hmac : string → string → string) (audit_key : string) `{DomainCodec}.
Context (parse_device : string → option Device).
Context (sha256 sha256_hex : string → string).
Context (dump_instant : Z → string) (dump_time : datetime → string).
Context (public_key_ok : string → bool) (ed25519_verify : string → string → string → bool).
Context (config : CalendarAdapterConfig) (access_token : result CalendarError string).
(** The events of a JSON array: [None] when the text is not one, [Some None] when
    an element is not a valid event. *)
Context (parse_events : string → option (option (list CalendarEventDraft))).
(** [CalendarRecoveryOutcome.model_dump_json] *)
Context (dump_outcome : CalendarRecoveryOutcome → string).
Context (devices : DeviceRegistry P).

Record world := { w_store : connection state_db; w_leases : LeaseIssuer; w_calendar : T }.

Definition set_store (w : world) (c : connection state_db) : world :=
  {| w_store := c; w_leases := w_leases w; w_calendar := w_calendar w |}.

Abbreviation S_ := (comp world ServiceError).

(** ** Running the parts *)

Definition on_store {E A : Type} (wrap : E → ServiceError) (m : comp (connection state_db) E A) : S_ A :=
  λ w, match m (w_store w) with
       | (c, Ok a) => (set_store w c, Ok a)
       | (c, Err e) => (set_store w c, Err (wrap e))
       end.
Definition on_leases {A : Type} (wrap : LeaseError → ServiceError) (m : comp LeaseIssuer LeaseError A) :
    S_ A :=
  λ w, match m (w_leases w) with
       | (i, Ok a) => ({| w_store := w_store w; w_leases := i; w_calendar := w_calendar w |}, Ok a)
       | (i, Err e) => ({| w_store := w_store w; w_leases := i; w_calendar := w_calendar w |}, Err (wrap e))
       end.
Definition on_calendar {A : Type} (wrap : CalendarError → ServiceError) (m : comp T CalendarError A) :
    S_ A :=
  λ w, match m (w_calendar w) with
       | (t, Ok a) => ({| w_store := w_store w; w_leases := w_leases w; w_calendar := t |}, Ok a)
       | (t, Err e) => ({| w_store := w_store w; w_leases := w_leases w; w_calendar := t |}, Err (wrap e))
       end.
Definition settled_value {A : Type} (r : result ServiceError A) : S_ A := λ w, (w, r).

(** [with self._store.domain_transaction():] around service code: only the store
    takes part in the transaction. *)
Definition store_block {A : Type} (body : S_ A) : S_ A := λ w,
  let body' := on_store StoreError (query (verify_chain hmac audit_key)) ≫= λ _, body in
  let c := w_store w in
  if in_transaction c then
    match body' w with
    | (w', Ok a) => (w', Ok a)
    | (w', Err e) => (set_store w' (rollback_to (live c) (w_store w')), Err e)
    end
  else
    match body' (set_store w (begin_immediate c)) with
    | (w', Ok a) => (set_store w' (commit (w_store w')), Ok a)
    | (w', Err e) => (set_store w' (rollback (w_store w')), Err e)
    end.

(** [except PolicyViolationError] *)
Definition policy_error (reason : string) (e : AuthorityError) : ServiceError :=
  match e with
  | PolicyViolationError _ => WeekPlanningPolicyError reason
  | e => AuthorityRaised e
  end.

(** [except LeaseViolationError] *)
Definition lease_error (e : LeaseError) : ServiceError :=
  match e with
  | LeaseViolationError _ => WeekPlanningPolicyError "lease_rejected"
  | e => LeaseRaised e
  end.

Definition transient_error (e : CalendarError) : ServiceError :=
  match e with
  | CalendarTransientError _ => WeekPlanningProviderError "calendar_transient"
  | CalendarInterruptedError _ => WeekPlanningProviderError "calendar_interrupted"
  | e => CalendarRaised e
  end.

Definition provider_error (e : CalendarError) : ServiceError :=
  match e with
  | CalendarAuthorizationError _ => WeekPlanningProviderError "calendar_authorization"
  | CalendarContractError _ => WeekPlanningProviderError "calendar_contract"
  | e => transient_error e
  end.

(** ** The proposal *)

Definition _check_device (a : Approval) (expected_device_id : string) : result ServiceError unit :=
  raise_if (match ap_device_id a with
            | None => true
            | Some d => negb (String.eqb d expected_device_id)
            end) (WeekPlanningPolicyError "device_mismatch").

Definition proposal_record (r : Domain.DomainRecord) (f : Domain.ProposalFields) (state : ProposalState) :
    ProposalRecord :=
  {| pr_proposal_id := uuid_str (Domain.record_id r); pr_action_class := ACTION;
     pr_payload := Domain.pf_payload f; pr_state := state; pr_created_at := utc (Domain.created_at r) |}.

Definition find_proposal (proposal_id : uuid) (state : ProposalState)
    (found : option Domain.DomainRecord) : result ServiceError ProposalRecord :=
  match found with
  | None => Err (WeekPlanProposalError proposal_id "unknown_proposal")
  | Some r =>
      match Domain.dr_variant r with
      | Domain.Proposal f =>
          if negb (String.eqb (Domain.pf_proposal_type f) ACTION)
          then Err (WeekPlanProposalError proposal_id "invalid_proposal")
          else if negb (String.eqb (Domain.state r) (state_value state))
          then Err (WeekPlanProposalError proposal_id "stale_proposal")
          else Ok (proposal_record r f state)
      | _ => Err (WeekPlanProposalError proposal_id "invalid_proposal")
      end
  end.

Definition _proposal (proposal_id : uuid) (state : ProposalState) : S_ ProposalRecord :=
  on_store StoreError (query (read_domain PROPOSAL proposal_id)) ≫= λ found,
  settled_value (find_proposal proposal_id state found).

(** [model_copy(update={"state": state})] *)
Definition in_state (p : ProposalRecord) (state : ProposalState) : ProposalRecord :=
  {| pr_proposal_id := pr_proposal_id p; pr_action_class := pr_action_class p;
     pr_payload := pr_payload p; pr_state := state; pr_created_at := pr_created_at p |}.

(** [EVENTS.validate_json] and [CalendarPlan(...)] *)
Definition approved_plan (approved : ProposalRecord) : result ServiceError CalendarPlan :=
  match parse_events (pr_payload approved) with
  | Some (Some events) =>
      let plan := {| cp_authorization := approved; cp_events := events |} in
      if require_payload_binding dump_time plan then Ok plan else Err ServiceValidationError
  | _ => Err ServiceValidationError
  end.

Definition lease_request (a : Approval) : LeaseRequest :=
  {| lr_capability := ACTION; lr_worker_id := WORKER; lr_actor := ACTOR;
     lr_correlation_id := CORRELATION; lr_idempotency_key := fa_fact_id (ap_fact a) |}.

Definition apply_lease (cc : call_context) (approved : ProposalRecord) (a : Approval) :
    S_ CapabilityLease :=
  store_block (
    (λ w, (w, match issue sha256_hex hmac (cc_issued cc) (cc_lease_id cc) approved (lease_request a)
                      (w_leases w) with
              | Ok lease => Ok lease
              | Err e => Err (lease_error e)
              end) : world * result ServiceError CapabilityLease) ≫= λ lease,
    on_leases lease_error (Leases.verify sha256_hex hmac (cc_verified cc) lease approved) ≫= λ _,
    on_store (policy_error "lease_rejected") (apply_ sha256_hex (cc_applied cc) approved lease) ≫= λ _,
    mret lease).

Definition applied_operations (r : CalendarApplyResult) : Z :=
  Z.of_nat (length (List.filter (λ d, negb (bool_decide (df_operation d = NOOP))) (ar_operations r))).

Definition _execute_approved (cc : call_context) (proposal_id : uuid) (approved : ProposalRecord)
    (a : Approval) (ctx : TransitionContext) : S_ WeekPlanExecutionResult :=
  apply_lease cc approved a ≫= λ lease,
  settled_value (approved_plan approved) ≫= λ plan,
  on_calendar provider_error (apply_plan sha256 sha256_hex config access_token plan) ≫= λ result_,
  on_store StoreError (transition hmac audit_key PROPOSAL proposal_id "applied" ctx) ≫= λ _,
  mret {| er_proposal_id := proposal_id; er_state := APPLIED;
          er_lease_id := fa_fact_id (le_fact lease);
          er_applied_operations := applied_operations result_;
          er_message := "Week plan applied to the LifeOS Proposed calendar." |}.

Definition approve_proposal (cc : call_context) (proposal_id : uuid) (a : Approval)
    (ctx : TransitionContext) (expected_device_id : string) : S_ ProposalRecord :=
  store_block (
    _proposal proposal_id PROPOSED ≫= λ proposal,
    settled_value (_check_device a expected_device_id) ≫= λ _,
    on_store (policy_error "approval_rejected")
      (approve parse_device sha256_hex dump_instant public_key_ok ed25519_verify (cc_now cc) devices
         proposal a default_approval_matrix) ≫= λ state,
    on_store StoreError (transition hmac audit_key PROPOSAL proposal_id (state_value state) ctx) ≫= λ _,
    mret (in_state proposal state)).

Definition approve_and_apply (cc : call_context) (proposal_id : uuid) (a : Approval)
    (ctx : TransitionContext) (expected_device_id : string) : S_ WeekPlanExecutionResult :=
  approve_proposal cc proposal_id a ctx expected_device_id ≫= λ approved,
  _execute_approved cc proposal_id approved a ctx.

(** ** Recovery of an interrupted apply *)

Definition stored_proposal (found : option Domain.DomainRecord) : result ServiceError ProposalRecord :=
  match found with
  | Some r =>
      match Domain.dr_variant r with
      | Domain.Proposal f =>
          if negb (String.eqb (Domain.pf_proposal_type f) ACTION)
          then Err (AuthorityRaised (PolicyViolationError "stored calendar proposal required"))
          else if negb (String.eqb (Domain.state r) (state_value APPROVED))
          then Err (AuthorityRaised (PolicyViolationError
                      ("cannot recover proposal in state " +:+ Domain.state r)))
          else Ok (proposal_record r f APPROVED)
      | _ => Err (AuthorityRaised (PolicyViolationError "stored calendar proposal required"))
      end
  | None => Err (AuthorityRaised (PolicyViolationError "stored calendar proposal required"))
  end.

Definition stored_plan (p : ProposalRecord) : result ServiceError CalendarPlan :=
  match parse_events (pr_payload p) with
  | None => Err (AuthorityRaised (PolicyViolationError
                   "stored calendar proposal payload must be an event list"))
  | Some None => Err ServiceValidationError
  | Some (Some events) =>
      let plan := {| cp_authorization := p; cp_events := events |} in
      if require_payload_binding dump_time plan then Ok plan else Err ServiceValidationError
  end.

Definition event_ids (operation : CalendarOperation) (r : CalendarReconciliation) : list string :=
  py_sorted String.ltb
    (map df_event_id (List.filter (λ d, bool_decide (df_operation d = operation)) (cr_operations r))).

(** Changed or unexpected events of the proposal: neither success nor no effect. *)
Definition uncertain (proposal_id : string) (r : CalendarReconciliation) : bool :=
  existsb (λ d, negb (bool_decide (df_operation d = NOOP)) && negb (bool_decide (df_operation d = MISSING)))
    (cr_operations r)
  || existsb (λ e, match re_ownership e with
                   | None => false
                   | Some o => String.eqb (ow_proposal_id o) proposal_id
                               && negb (bool_decide (re_event_id e ∈ map df_event_id (cr_operations r)))
                   end) (ss_events (cr_sync_state r)).

(** The state and outcome; an apply without effects is reset. *)
Definition judged (cc : call_context) (p : ProposalRecord) (proof : Approval)
    (r : CalendarReconciliation) : S_ (ProposalState * string) :=
  if uncertain (pr_proposal_id p) r then mret (APPROVED, "conflict")
  else match event_ids MISSING r, event_ids NOOP r with
       | [], _ => mret (APPLIED, "applied")
       | _ :: _, [] =>
           on_store AuthorityRaised
             (reset parse_device sha256_hex dump_instant public_key_ok ed25519_verify (cc_now cc) devices
                p proof default_approval_matrix true) ≫= λ state,
           mret (state, "reset")
       | _ :: _, _ :: _ => mret (APPROVED, "partial")
       end.

Definition recovery_context (cc : call_context) (proof : Approval) : TransitionContext :=
  {| tc_actor := fa_actor (ap_fact proof); tc_correlation_id := fa_correlation_id (ap_fact proof);
     tc_occurred_at := utc_datetime (cc_now cc) |}.

Definition execution_record (cc : call_context) (proposal_id : uuid) (outcome : string) :
    Domain.DomainRecord :=
  {| Domain.dr_base := {| Domain.rb_record_id := cc_record_id cc;
                          Domain.rb_created_at := utc_datetime (cc_now cc);
                          Domain.rb_state := "recorded" |};
     Domain.dr_variant := Domain.Execution proposal_id outcome |}.

Definition reconcile_interrupted_apply (cc : call_context) (proposal_id : uuid) (proof : Approval) :
    S_ CalendarRecoveryOutcome :=
  store_block (
    on_store StoreError (query (read_domain PROPOSAL proposal_id)) ≫= λ found,
    settled_value (stored_proposal found) ≫= λ p,
    settled_value (match validate_approval parse_device sha256_hex dump_instant public_key_ok
                           ed25519_verify (cc_now cc) devices p (as_reset proof)
                           default_approval_matrix with
                   | Ok u => Ok u
                   | Err e => Err (AuthorityRaised e)
                   end) ≫= λ _,
    settled_value (stored_plan p) ≫= λ plan,
    on_calendar CalendarRaised (reconcile_plan sha256 sha256_hex config access_token plan None) ≫= λ r,
    judged cc p proof r ≫= λ verdict,
    let result_ := {| ro_proposal_id := proposal_id; ro_state := verdict.1; ro_outcome := verdict.2;
                      ro_succeeded_events := event_ids NOOP r;
                      ro_missing_events := event_ids MISSING r |} in
    on_store StoreError (create hmac audit_key
      (execution_record cc proposal_id (dump_outcome result_)) (recovery_context cc proof)) ≫= λ _,
    (if bool_decide (verdict.1 = APPROVED) then mret tt
     else on_store StoreError (transition hmac audit_key PROPOSAL proposal_id (state_value verdict.1)
                                 (recovery_context cc proof))) ≫= λ _,
    mret result_).

Definition recovery_keys (proof : Approval) : list ConsumptionKey :=
  [ ("recover", fa_fact_id (ap_fact proof));
    ("recover-idempotency",
     device_text (ap_device_id proof) +:+ ":" +:+ fa_idempotency_key (ap_fact proof)) ].

(** Completing the missing events consumes the proof before any provider effect. *)
Definition resume (cc : call_context) (proposal_id : uuid) (p : ProposalRecord) (proof : Approval)
    (ctx : TransitionContext) (outcome : CalendarRecoveryOutcome) : S_ CalendarRecoveryOutcome :=
  store_block (on_store (policy_error "approval_rejected") (consume_or (recovery_keys proof) ""))
    ≫= λ _,
  _execute_approved cc proposal_id p (as_reset proof) ctx ≫= λ _,
  mret {| ro_proposal_id := ro_proposal_id outcome; ro_state := APPLIED; ro_outcome := "applied";
          ro_succeeded_events :=
            py_sorted String.ltb (ro_succeeded_events outcome ++ ro_missing_events outcome);
          ro_missing_events := [] |}.

Definition recover_interrupted_apply (cc : call_context) (proposal_id : uuid) (proof : Approval)
    (ctx : TransitionContext) (expected_device_id : string) : S_ CalendarRecoveryOutcome :=
  settled_value (_check_device proof expected_device_id) ≫= λ _,
  _proposal proposal_id APPROVED ≫= λ p,
  catch (reconcile_interrupted_apply cc proposal_id proof)
    (λ e, match e with
          | AuthorityRaised (PolicyViolationError _) => throw (WeekPlanningPolicyError "approval_rejected")
          | e => throw e
          end) ≫= λ outcome,
  if negb (String.eqb (ro_outcome outcome) "partial") then mret outcome
  else resume cc proposal_id p proof ctx outcome.

(** ** Preview *)

Definition week_event (proposal_id : uuid) (index : nat) (b : CalendarBlock) : CalendarEventDraft :=
  {| ed_event_key := "week_" +:+ hex_digits 32 proposal_id +:+ "_" +:+ pretty (N.of_nat index);
     ed_summary := if String.eqb (cb_display_group b) "" then cb_title b else cb_display_group b;
     ed_starts_at := cb_starts_at b; ed_ends_at := cb_ends_at b |}.

Definition week_events (proposal_id : uuid) (p : ProposedDay) : list CalendarEventDraft :=
  imap (week_event proposal_id) (py_calendar_projection p).

Definition week_proposal (proposal_id : uuid) (now : datetime) (payload : string) : Domain.DomainRecord :=
  {| Domain.dr_base := {| Domain.rb_record_id := proposal_id; Domain.rb_created_at := now;
                          Domain.rb_state := state_value PROPOSED |};
     Domain.dr_variant := Domain.Proposal
       {| Domain.pf_proposal_type := ACTION; Domain.pf_payload := payload;
          Domain.pf_policy_decision := "approval-required";
          Domain.pf_provider_version := "google.calendar.v3"; Domain.pf_reversible := true;
          Domain.pf_approval_state := state_value PROPOSED |} |}.

(** From the planned week on: persist the proposal, then look at the calendar. *)
Definition propose (cc : call_context) (now : datetime) (proposed : ProposedDay) :
    S_ (list CalendarEventDraft * CalendarPreview) :=
  let events := week_events (cc_record_id cc) proposed in
  settled_value (raise_if (negb (forallb draft_valid events)) ServiceValidationError) ≫= λ _,
  let record := week_proposal (cc_record_id cc) now (calendar_payload dump_time events) in
  on_store StoreError (create hmac audit_key record
    {| tc_actor := ACTOR; tc_correlation_id := CORRELATION; tc_occurred_at := now |}) ≫= λ _,
  on_calendar transient_error (dry_run sha256 sha256_hex config access_token
    {| cp_authorization := {| pr_proposal_id := uuid_str (cc_record_id cc); pr_action_class := ACTION;
                              pr_payload := calendar_payload dump_time events; pr_state := PROPOSED;
                              pr_created_at := utc now |};
       cp_events := events |}) ≫= λ preview,
  mret (events, preview).

(** [preview]: plan the week, persist its proposal, look at the calendar. *)
Definition preview `{RecordCodec} (db : zone_db) (fold_content strip_content : string → string)
    (input_fingerprint : DayPlanRequest → string) (cc : call_context) (subject_id : string)
    (clock now : datetime) (timezone : string) (memories : memory_db) : S_ WeekPlanProposal :=
  match plan_week db fold_content strip_content input_fingerprint subject_id clock now timezone memories with
  | Err e => throw (PreviewError e)
  | Ok (request, gaps, proposed) =>
      propose cc now proposed ≫= λ found,
      mret {| wpp_proposal_id := cc_record_id cc;
              wpp_payload_hash := sha256_hex (calendar_payload dump_time found.1);
              wpp_status := py_status proposed; wpp_plan_date := dr_plan_date request;
              wpp_timezone := timezone; wpp_window_start := dr_window_start request;
              wpp_window_end := dr_window_end request; wpp_blocks := py_internal_plan proposed;
              wpp_calendar_blocks := py_calendar_projection proposed;
              wpp_explanations := py_explanations proposed;
              wpp_unscheduled := py_unscheduled proposed; wpp_gaps := gaps;
              wpp_calendar_dry_run := found.2 |}
  end.
End service.
