(* ===== verification/WeekExecutionSpec.v ===== *)
(** * What the execution of a week guarantees ([week_planning.py],
    [durable_calendar.py])

    The calendar changes only under a fresh, valid approval of the stored
    proposal, each approval is used once whatever happens in between, and a
    failure leaves a state from which only a signed recovery continues. *)

From stdpp Require Import prelude base strings list gmap.
From Stdlib Require Import ZArith Lia.
From S2P Require Import Prelude PyTime PyText PyUuid Transactions AuditLedger Consumption Enrollment Authority AuthoritySpec Memory Leases Calendar DomainRecords DomainRepository DomainSpec PlannerModels Planner WeekPlanning WeekExecution.
#[local] Open Scope string_scope.
#[local] Open Scope list_scope.
#[local] Open Scope Z_scope.

(** ** The consumed keys of the shared store *)

Definition claims_of (c : connection state_db) : list ConsumptionKey := sd_consumption (live c).

(** The connection after claiming [keys] inside a transaction. *)
Definition claimed (c : connection state_db) (keys : list ConsumptionKey) : connection state_db :=
  Connection (set_consumption (live c) (claims_of c ++ keys)) (durable c) (in_transaction c).

Lemma claimed_nil c : claimed c [] = c.
Proof. destruct c as [[]]. unfold claimed, claims_of. simpl. by rewrite app_nil_r. Qed.

Lemma claim_rows_computes keys :
  computes (for_each (λ k, execute (insert_claim k)) keys)
    (λ db, if claimable keys (sd_consumption db)
           then Ok (tt, set_consumption db (sd_consumption db ++ keys)) else Err IntegrityError).
Proof.
  induction keys as [|k keys IH].
  { eapply computes_ext; [apply computes_ret|]. intros []. unfold claimable, set_consumption. simpl. by rewrite app_nil_r. }
  eapply computes_ext; [eapply computes_bind; [apply computes_execute|intros u; exact IH]|].
  intros db. unfold then_, does, insert_claim, insert_key.
  assert (claimable (k :: keys) (sd_consumption db)
    = negb (bool_decide (k ∈ sd_consumption db)) && claimable keys (sd_consumption db ++ [k])) as ->.
  { unfold claimable. rewrite <- bool_decide_not, <- bool_decide_and. apply bool_decide_ext.
    rewrite NoDup_cons, Forall_cons, !Forall_forall. set_solver. }
  destruct (bool_decide (k ∈ sd_consumption db)); simpl; [done|].
  destruct (claimable _ _); [|done]. unfold set_consumption. simpl. by rewrite <- app_assoc.
Qed.

Lemma consume_nested keys (c : connection state_db) :
  in_transaction c = true →
  consume keys c = if claimable keys (claims_of c) then (claimed c keys, true) else (c, false).
Proof.
  intros Hc. simpl. unfold claim_rows. rewrite (block_nested _ _ c (claim_rows_computes keys) Hc).
  unfold claims_of. destruct (claimable _ _); [|done]. unfold claimed, claims_of. by rewrite Hc.
Qed.

Lemma consume_outermost keys (c : connection state_db) :
  in_transaction c = false → live c = durable c →
  consume keys c = if claimable keys (claims_of c)
                   then (commit (claimed c keys), true) else (c, false).
Proof.
  intros Hc Hs. simpl. unfold claim_rows. rewrite (block_outermost _ _ c (claim_rows_computes keys) Hc Hs).
  unfold claims_of. by destruct (claimable _ _).
Qed.

(** The shared store has the laws of a consumption store, in and outside of a
    transaction. *)
#[export] Instance state_laws : ConsumptionLaws (connection state_db).
Proof.
  refine (Build_ConsumptionLaws _ _ (λ c, settled c ∧ NoDup (claims_of c))
            (λ c, list_to_set (claims_of c)) _ _).
  - intros c p [_ Hnd]. by apply size_filter_list.
  - intros keys c [Hs Hnd] Hk ok. unfold ok.
    assert (bool_decide (Forall (λ k, k ∉ (list_to_set (claims_of c) : gset ConsumptionKey)) keys)
            = claimable keys (claims_of c)) as ->.
    { apply bool_decide_ext. rewrite !Forall_forall. set_solver. }
    assert (consume keys c = if claimable keys (claims_of c)
      then ((if in_transaction c then claimed c keys else commit (claimed c keys)), true) else (c, false)) as ->.
    { destruct (in_transaction c) eqn:Hc; [by apply consume_nested|]. apply consume_outermost; auto. }
    unfold claimable. case_bool_decide as Hd; simpl; [|done].
    assert (claims_of (if in_transaction c then claimed c keys else commit (claimed c keys))
            = claims_of c ++ keys) as -> by (by destruct (in_transaction c)).
    split_and!; [done| | | |done].
    + destruct (in_transaction c) eqn:Hc; intros Hf; simpl in *; [congruence|done].
    + destruct Hd as [? Hf]. rewrite Forall_forall in Hf. apply NoDup_app. set_solver.
    + by rewrite list_to_set_app_L.
Defined.

(** Code that changes nothing of the store but claims keys. *)
Definition only_claims {E A : Type} (m : comp (connection state_db) E A) : Prop :=
  ∀ c, in_transaction c = true → NoDup (claims_of c) →
    ∃ keys, (m c).1 = claimed c keys ∧ NoDup (claims_of c ++ keys).

Lemma only_claims_value {E A} (r : result E A) : only_claims (λ c, (c, r)).
Proof. intros c _ Hn. exists []. by rewrite claimed_nil, app_nil_r. Qed.

Lemma only_claims_bind {E A B} (m : comp (connection state_db) E A) (k : A → comp (connection state_db) E B) :
  only_claims m → (∀ a, only_claims (k a)) → only_claims (m ≫= k).
Proof.
  intros Hm Hk c Hc Hn. destruct (Hm c Hc Hn) as (keys & Heq & Hn'). unfold mbind, comp_bind.
  destruct (m c) as [c' [a|e]]; simpl in *; [|by exists keys]. subst c'.
  destruct (Hk a (claimed c keys) Hc Hn') as (keys' & -> & Hn''). exists (keys ++ keys').
  unfold claimed, claims_of in *. simpl in *. by rewrite app_assoc.
Qed.

Lemma only_claims_consume keys message : only_claims (consume_or keys message).
Proof.
  intros c Hc Hn. unfold consume_or. rewrite (consume_nested keys c Hc). unfold claimable.
  case_bool_decide as Hd; simpl.
  - exists keys. split; [done|]. destruct Hd as [? Hf]. rewrite Forall_forall in Hf. apply NoDup_app. set_solver.
  - exists []. by rewrite claimed_nil, app_nil_r.
Qed.
#[export] Hint Resolve only_claims_value only_claims_bind only_claims_consume : lifeos.

Section guarantees.
Context {T : Type} `{GoogleCalendarTransport T} {P : Type} `{DevicePersistence P}.
Context (hmac : string → string → string) (audit_key : string) `{DomainCodec} `{!DomainCodecLaws}.
Context (parse_device : string → option Device).
Context (sha256 sha256_hex : string → string).
Context (dump_instant : Z → string) (dump_time : datetime → string).
Context (public_key_ok : string → bool) (ed25519_verify : string → string → string → bool).
Context (config : CalendarAdapterConfig) (access_token : result CalendarError string).
Context (parse_events : string → option (option (list CalendarEventDraft))).
Context (dump_outcome : CalendarRecoveryOutcome → string).
Context (devices : DeviceRegistry P).

Abbreviation S_ := (comp (world (T := T)) ServiceError).
Abbreviation represents := (represents hmac audit_key).
Abbreviation rests := (rests hmac audit_key).
Abbreviation store_block := (store_block hmac audit_key).

Lemma only_claims_approve now proposal a matrix :
  only_claims (approve parse_device sha256_hex dump_instant public_key_ok ed25519_verify now devices
                 proposal a matrix).
Proof.
  intros c Hc Hn. unfold approve.
  set (keys := approve_keys _ _ _). clearbody keys. revert c Hc Hn.
  change (only_claims (throw_if (negb (bool_decide (pr_state proposal = PROPOSED)))
     (PolicyViolationError ("cannot approve proposal in state "
                            +:+ state_value (pr_state proposal))) ≫= λ _,
   throw_if (bool_decide (ap_kind a = ResetRequest))
     (PolicyViolationError "reset proof cannot approve execution") ≫= λ _,
   checked (validate_approval parse_device sha256_hex dump_instant public_key_ok ed25519_verify now devices
              proposal a matrix) ≫= λ _,
   consume_or keys "approval replay" ≫= λ _,
   mret APPROVED)).
  unfold throw_if, checked. eauto 10 with lifeos.
Qed.

Lemma only_claims_apply now proposal lease :
  only_claims (apply_ sha256_hex (S := connection state_db) now proposal lease).
Proof. unfold apply_, bound_transition, throw_if, _consume, mret, comp_ret. eauto 20 with lifeos. Qed.

Lemma only_claims_reset now proposal a matrix zero :
  only_claims (reset parse_device sha256_hex dump_instant public_key_ok ed25519_verify now devices
                 proposal a matrix zero).
Proof.
  unfold reset, throw_if, checked, throw, mret, comp_ret. destruct (ap_device_id a); eauto 20 with lifeos.
Qed.

(** ** Code inside a transaction *)

(** Inside a transaction: the transaction stays open, nothing reaches the disk,
    the tables keep representing a store of histories, no key is given back. *)
Definition steady {A : Type} (m : S_ A) : Prop :=
  ∀ w s, in_transaction (w_store w) = true → represents (live (w_store w)) s →
    NoDup (claims_of (w_store w)) →
    let c := w_store (m w).1 in
    in_transaction c = true ∧ durable c = durable (w_store w)
    ∧ (∃ s', represents (live c) s') ∧ NoDup (claims_of c)
    ∧ claims_of (w_store w) ⊆ claims_of c.

Lemma steady_same {A} (m : S_ A) : (∀ w, w_store (m w).1 = w_store w) → steady m.
Proof. intros Hm w s Hin Hs Hn c. subst c. rewrite Hm. split_and!; eauto. Qed.

Lemma steady_value {A} (r : result ServiceError A) : steady (settled_value r).
Proof. by apply steady_same. Qed.
Lemma steady_ret {A} (a : A) : steady (mret a).
Proof. by apply steady_same. Qed.
Lemma steady_leases {A} wrap (m : comp LeaseIssuer LeaseError A) : steady (on_leases wrap m).
Proof. apply steady_same. intros w. unfold on_leases. by destruct (m _) as [? []]. Qed.
Lemma steady_calendar {A} wrap (m : comp T CalendarError A) : steady (on_calendar wrap m).
Proof. apply steady_same. intros w. unfold on_calendar. by destruct (m _) as [? []]. Qed.

Lemma steady_query {E A} wrap (f : state_db → result E A) : steady (on_store wrap (query f)).
Proof. apply steady_same. intros [c l t]. unfold on_store, query. simpl. by destruct (f _). Qed.

Lemma steady_bind {A B} (m : S_ A) (k : A → S_ B) :
  steady m → (∀ a, steady (k a)) → steady (m ≫= k).
Proof.
  intros Hm Hk w s Hin Hs Hn. unfold mbind, comp_bind. pose proof (Hm w s Hin Hs Hn) as Hw. cbv zeta in *.
  destruct (m w) as [w1 [a|e]]; simpl in *; [|done]. destruct Hw as (Hin1 & Hd1 & (s1 & Hs1) & Hn1 & Hc1).
  destruct (Hk a w1 s1 Hin1 Hs1 Hn1) as (Hin2 & Hd2 & Hs2 & Hn2 & Hc2).
  split_and!; [done|congruence|done|done|]. by transitivity (claims_of (w_store w1)).
Qed.

Lemma represents_claims db s l : represents db s → represents (set_consumption db l) s.
Proof. intros []. by split. Qed.

Lemma steady_claims {E A} wrap (m : comp (connection state_db) E A) :
  only_claims m → steady (on_store wrap m).
Proof.
  intros Hm w s Hin Hs Hn. destruct (Hm _ Hin Hn) as (keys & Heq & Hn'). unfold on_store. cbv zeta.
  destruct (m (w_store w)) as [c' [a|e]]; simpl in *; subst c'; simpl;
    (split_and!; [done|done|exists s; by apply represents_claims|done|set_solver]).
Qed.

(** A repository operation inside a transaction. *)
Lemma perform_nested op c s :
  in_transaction c = true → represents (live c) s → op_valid op = true →
  match abstract_step op s with
  | Some s' => ∃ db', perform hmac audit_key op c = (Connection db' (durable c) true, Ok tt)
                 ∧ represents db' s' ∧ sd_consumption db' = claims_of c
  | None => ∃ e, perform hmac audit_key op c = (c, Err e)
  end.
Proof.
  intros Hin Hs Hop. destruct (perform_implements hmac audit_key op) as (m & Hm & f & Hf & Hstep).
  rewrite Hm, (block_nested m f _ Hf Hin). specialize (Hstep _ _ Hs Hop). unfold step_of in Hstep.
  destruct (abstract_step op s) as [s'|].
  - destruct Hstep as (db' & -> & Hr & _ & Hc). by exists db'.
  - destruct Hstep as [e ->]. by exists e.
Qed.

Lemma steady_perform op wrap :
  op_valid op = true → steady (on_store wrap (perform hmac audit_key op)).
Proof.
  intros Hop w s Hin Hs Hn. pose proof (perform_nested op _ s Hin Hs Hop) as Hp. unfold on_store. cbv zeta.
  destruct (abstract_step op s) as [s'|].
  - destruct Hp as (db' & -> & Hr & Hc). simpl. unfold claims_of in *. simpl. rewrite Hc. eauto 6.
  - destruct Hp as [e ->]. simpl. eauto 6.
Qed.

(** ** Calls on a service at rest *)

Definition at_rest (w : world (T := T)) (s : versioned) : Prop :=
  rests (w_store w) s ∧ NoDup (claims_of (w_store w)).

(** A call leaves the service at rest and gives no key back. *)
Definition restful {A : Type} (m : S_ A) : Prop :=
  ∀ w s, at_rest w s →
    (∃ s', at_rest (m w).1 s') ∧ claims_of (w_store w) ⊆ claims_of (w_store (m w).1).

Lemma block_unfold {A} (body : S_ A) w s :
  at_rest w s →
  store_block body w =
  match body (set_store w (begin_immediate (w_store w))) with
  | (w', Ok a) => (set_store w' (commit (w_store w')), Ok a)
  | (w', Err e) => (set_store w' (rollback (w_store w')), Err e)
  end.
Proof.
  intros ((Hs & _ & Hin) & _). unfold WeekExecution.store_block. rewrite Hin.
  erewrite bind_ok; [reflexivity|]. unfold on_store, query. simpl.
  by rewrite (verify_represented hmac audit_key _ s Hs).
Qed.

(** A block that raises leaves the store as it was; one that returns commits. *)
Lemma block_runs {A} (body : S_ A) w s :
  at_rest w s → steady body →
  match store_block body w with
  | (w', Err _) => w_store w' = w_store w
  | (w', Ok a) =>
      ∃ w1, body (set_store w (begin_immediate (w_store w))) = (w1, Ok a)
        ∧ w' = set_store w1 (commit (w_store w1))
        ∧ (∃ s', represents (live (w_store w1)) s') ∧ NoDup (claims_of (w_store w1))
        ∧ claims_of (w_store w) ⊆ claims_of (w_store w1)
  end.
Proof.
  intros Hw Hb. rewrite (block_unfold body w s Hw). destruct Hw as ((Hs & Hd & Hin) & Hn).
  set (w0 := set_store w (begin_immediate (w_store w))).
  destruct (Hb w0 s eq_refl Hs Hn) as (Hin1 & Hd1 & Hs1 & Hn1 & Hc1).
  destruct (body w0) as [w1 [a|e]]; simpl in *.
  - exists w1. split_and!; done.
  - unfold rollback. rewrite Hd1. destruct (w_store w). simpl in *. congruence.
Qed.

Lemma restful_block {A} (body : S_ A) : steady body → restful (store_block body).
Proof.
  intros Hb w s Hw. pose proof (block_runs body w s Hw Hb) as Hr.
  destruct (store_block body w) as [w' [a|e]]; simpl.
  - destruct Hr as (w1 & _ & -> & (s' & Hs') & Hn & Hc). split; [|done]. exists s'. done.
  - rewrite Hr. split; [|done]. exists s. unfold at_rest. by rewrite Hr.
Qed.

Lemma restful_same {A} (m : S_ A) : (∀ w, w_store (m w).1 = w_store w) → restful m.
Proof. intros Hm w s Hw. unfold at_rest. rewrite Hm. split; [by exists s|done]. Qed.

Lemma restful_bind {A B} (m : S_ A) (k : A → S_ B) :
  restful m → (∀ a, restful (k a)) → restful (m ≫= k).
Proof.
  intros Hm Hk w s Hw. unfold mbind, comp_bind. destruct (Hm w s Hw) as [[s1 Hw1] Hc1].
  destruct (m w) as [w1 [a|e]]; simpl in *; [|by split; [exists s1|]].
  destruct (Hk a w1 s1 Hw1) as [Hw2 Hc2]. split; [done|]. by transitivity (claims_of (w_store w1)).
Qed.

Lemma restful_catch {A} (m : S_ A) h :
  restful m → (∀ e, restful (h e)) → restful (catch m h).
Proof.
  intros Hm Hh w s Hw. unfold catch. destruct (Hm w s Hw) as [[s1 Hw1] Hc1].
  destruct (m w) as [w1 [a|e]]; simpl in *; [by split; [exists s1|]|].
  destruct (Hh e w1 s1 Hw1) as [Hw2 Hc2]. split; [done|]. by transitivity (claims_of (w_store w1)).
Qed.

Lemma restful_value {A} (r : result ServiceError A) : restful (settled_value r).
Proof. by apply restful_same. Qed.
Lemma restful_ret {A} (a : A) : restful (mret a).
Proof. by apply restful_same. Qed.
Lemma restful_throw {A} e : restful (A := A) (throw e).
Proof. by apply restful_same. Qed.
Lemma restful_calendar {A} wrap (m : comp T CalendarError A) : restful (on_calendar wrap m).
Proof. apply restful_same. intros w. unfold on_calendar. by destruct (m _) as [? []]. Qed.
Lemma restful_query {E A} wrap (f : state_db → result E A) : restful (on_store wrap (query f)).
Proof. apply restful_same. intros [c l t]. unfold on_store, query. simpl. by destruct (f _). Qed.

(** A repository operation on its own. *)
Lemma perform_at_rest op wrap w s :
  at_rest w s → op_valid op = true →
  let w' := (on_store wrap (perform hmac audit_key op) w).1 in
  claims_of (w_store w') = claims_of (w_store w)
  ∧ match abstract_step op s with
    | Some s' => (on_store wrap (perform hmac audit_key op) w).2 = Ok tt ∧ at_rest w' s'
    | None => (∃ e, (on_store wrap (perform hmac audit_key op) w).2 = Err e) ∧ w' = w
    end.
Proof.
  intros [Hr Hn] Hop. pose proof (perform_rests hmac audit_key op _ s Hr Hop) as Hp. unfold on_store.
  destruct (abstract_step op s) as [s'|].
  - destruct Hp as (Hok & Hr' & _ & Hc). destruct (perform hmac audit_key op (w_store w)) as [c' res].
    simpl in *. subst res. simpl. unfold claims_of in *. rewrite Hc. split_and!; [done..|]. split; [done|].
    simpl. unfold claims_of. by rewrite Hc.
  - destruct Hp as [e ->]. destruct w. simpl. split_and!; [done| |done]. by eexists.
Qed.

Lemma restful_perform op wrap :
  op_valid op = true → restful (on_store wrap (perform hmac audit_key op)).
Proof.
  intros Hop w s Hw. destruct (perform_at_rest op wrap w s Hw Hop) as [Hc Hs]. rewrite Hc.
  split; [|done]. destruct (abstract_step op s) as [s'|]; [exists s'; apply Hs|].
  exists s. destruct Hs as [_ ->]. done.
Qed.

(** ** Approval *)

(** Code that leaves the provider and the leases alone. *)
Definition store_only {A : Type} (m : S_ A) : Prop :=
  ∀ w, w_calendar (m w).1 = w_calendar w ∧ w_leases (m w).1 = w_leases w.

Lemma store_only_bind {A B} (m : S_ A) (k : A → S_ B) :
  store_only m → (∀ a, store_only (k a)) → store_only (m ≫= k).
Proof.
  intros Hm Hk w. unfold mbind, comp_bind. pose proof (Hm w) as Hw. destruct (m w) as [w1 [a|e]]; [|done].
  simpl in *. pose proof (Hk a w1). intuition congruence.
Qed.
Lemma store_only_ret {A} (a : A) : store_only (mret a).
Proof. done. Qed.
Lemma store_only_value {A} (r : result ServiceError A) : store_only (settled_value r).
Proof. done. Qed.
Lemma store_only_store {E A} wrap (m : comp (connection state_db) E A) : store_only (on_store wrap m).
Proof. intros w. unfold on_store. by destruct (m _) as [? []]. Qed.
Lemma store_only_block {A} (body : S_ A) : store_only body → store_only (store_block body).
Proof.
  intros Hb w. unfold WeekExecution.store_block.
  set (m := on_store StoreError (query (verify_chain hmac audit_key)) ≫= λ _, body).
  assert (store_only m) as Hm by (apply store_only_bind; [apply store_only_store|done]).
  clearbody m. destruct (in_transaction (w_store w)).
  - pose proof (Hm w) as Hw. by destruct (m w) as [w1 [a|e]].
  - pose proof (Hm (set_store w (begin_immediate (w_store w)))) as Hw. by destruct (m _) as [w1 [a|e]].
Qed.
Hint Resolve store_only_bind store_only_ret store_only_value store_only_store store_only_block : lifeos.
Hint Resolve steady_bind steady_ret steady_value steady_query steady_leases steady_calendar steady_claims : lifeos.
Hint Resolve restful_bind restful_ret restful_value restful_query restful_throw restful_calendar
  restful_block restful_catch : lifeos.
Hint Resolve only_claims_approve only_claims_apply only_claims_reset : lifeos.

Lemma on_store_inv {E A} wrap (m : comp (connection state_db) E A) (w w' : world (T := T)) a :
  on_store wrap m w = (w', Ok a) → ∃ c, m (w_store w) = (c, Ok a) ∧ w' = set_store w c.
Proof. unfold on_store. destruct (m (w_store w)) as [c [x|e]]; [|done]. intros [= <- <-]. by exists c. Qed.

Lemma settled_inv {A} (r : result ServiceError A) (w w' : world (T := T)) a :
  settled_value r w = (w', Ok a) → w' = w ∧ r = Ok a.
Proof. by intros [= <- <-]. Qed.

Lemma transition_steady id new_state ctx wrap :
  steady (on_store wrap (transition hmac audit_key PROPOSAL id new_state ctx)).
Proof. by apply (steady_perform (OpTransition PROPOSAL id new_state ctx)). Qed.
Lemma transition_restful id new_state ctx wrap :
  restful (on_store wrap (transition hmac audit_key PROPOSAL id new_state ctx)).
Proof. by apply (restful_perform (OpTransition PROPOSAL id new_state ctx)). Qed.
Hint Resolve transition_steady transition_restful : lifeos.

(** The proposal a state of the store has for approval. *)
Definition proposal_in (s : versioned) (id : uuid) (state : ProposalState) (p : ProposalRecord) : Prop :=
  ∃ r f, last (vs_history s PROPOSAL id) = Some r ∧ Domain.dr_variant r = Domain.Proposal f
    ∧ Domain.pf_proposal_type f = ACTION ∧ Domain.state r = state_value state
    ∧ p = proposal_record r f state.

Lemma find_proposal_ok s id state p :
  find_proposal id state (last (vs_history s PROPOSAL id)) = Ok p → proposal_in s id state p.
Proof.
  unfold find_proposal. destruct (last _) as [r|] eqn:Hl; [|done].
  destruct (Domain.dr_variant r) eqn:Hv; try done.
  destruct (String.eqb_spec (Domain.pf_proposal_type fields) ACTION) as [Ht|]; [|done].
  destruct (String.eqb_spec (Domain.state r) (state_value state)) as [Hst|]; [|done].
  intros [= <-]. exists r, fields. done.
Qed.

Lemma proposal_inv id state (w w' : world (T := T)) s p :
  represents (live (w_store w)) s → _proposal id state w = (w', Ok p) → w' = w ∧ proposal_in s id state p.
Proof.
  intros Hs (found & w1 & (c & [-> Hread]%query_inv & ->)%on_store_inv & [-> Hf]%settled_inv)%bind_inv.
  rewrite (read_represented hmac audit_key _ s) in Hread by done. injection Hread as <-.
  split; [by destruct w|]. by apply find_proposal_ok.
Qed.

Abbreviation approve_ := (approve parse_device sha256_hex dump_instant public_key_ok ed25519_verify).
Abbreviation approval_valid :=
  (approval_valid parse_device sha256_hex dump_instant public_key_ok ed25519_verify).

(** An approval that succeeds inside a transaction claims exactly its keys. *)
Lemma approve_nested now proposal a matrix (c c' : connection state_db) st :
  in_transaction c = true → NoDup (claims_of c) →
  approve_ now devices proposal a matrix c = (c', Ok st) →
  let keys := approve_keys (generation c (pr_proposal_id proposal)) proposal a in
  st = APPROVED ∧ pr_state proposal = PROPOSED ∧ ap_kind a = OrdinaryApproval
  ∧ approval_valid now devices proposal a matrix
  ∧ c' = claimed c keys ∧ Forall (λ k, k ∉ claims_of c) keys.
Proof.
  intros Hin Hn Hrun keys.
  assert (store_ok c) as Hok by (split; [intros ?; congruence|done]).
  destruct (approve_claims parse_device sha256_hex dump_instant public_key_ok ed25519_verify now devices
    proposal a matrix c Hok) as [_ Hcl].
  pose proof (approve_ok_iff parse_device sha256_hex dump_instant public_key_ok ed25519_verify now devices
    proposal a matrix c Hok) as Hiff. rewrite Hrun in Hcl, Hiff. simpl in Hcl, Hiff. destruct Hcl as [-> _].
  destruct (proj1 Hiff eq_refl) as (Hst & Hk & Hv & Hfresh). fold keys in Hfresh.
  assert (Forall (λ k, k ∉ claims_of c) keys) as Hf.
  { eapply Forall_impl; [exact Hfresh|]. intros k. simpl. set_solver. }
  split_and!; [done..| |done]. unfold approve in Hrun. fold keys in Hrun.
  apply bind_inv in Hrun as (? & c1 & [= -> _] & Hrun). apply bind_inv in Hrun as (? & c2 & [= -> _] & Hrun).
  apply bind_inv in Hrun as (? & c3 & [= -> _] & Hrun). apply bind_inv in Hrun as (? & c4 & Hc4 & [= <-]).
  unfold consume_or in Hc4. rewrite consume_nested in Hc4 by done.
  assert (claimable keys (claims_of c3) = true) as Hcl.
  { unfold claimable. rewrite bool_decide_eq_true. split; [apply approve_keys_nodup|done]. }
  rewrite Hcl in Hc4. by injection Hc4 as ->.
Qed.

Abbreviation approve_proposal :=
  (approve_proposal hmac audit_key parse_device sha256_hex dump_instant public_key_ok ed25519_verify
     devices).
Abbreviation apply_lease := (apply_lease hmac audit_key sha256_hex).
Abbreviation approved_plan := (approved_plan dump_time parse_events).
Abbreviation apply_plan := (apply_plan sha256 sha256_hex config access_token).
Abbreviation _execute_approved :=
  (_execute_approved hmac audit_key sha256 sha256_hex dump_time config access_token parse_events).
Abbreviation approve_and_apply :=
  (approve_and_apply hmac audit_key parse_device sha256 sha256_hex dump_instant dump_time public_key_ok
     ed25519_verify config access_token parse_events devices).

Definition approval_body (cc : call_context) (id : uuid) (a : Approval) (ctx : TransitionContext)
    (dev : string) : S_ ProposalRecord :=
  _proposal id PROPOSED ≫= λ proposal,
  settled_value (_check_device a dev) ≫= λ _,
  on_store (policy_error "approval_rejected")
    (approve_ (cc_now cc) devices proposal a default_approval_matrix) ≫= λ state,
  on_store StoreError (transition hmac audit_key PROPOSAL id (state_value state) ctx) ≫= λ _,
  mret (in_state proposal state).

Lemma approval_body_steady cc id a ctx dev : steady (approval_body cc id a ctx dev).
Proof. unfold approval_body, _proposal. eauto 20 with lifeos. Qed.
Lemma approval_body_store_only cc id a ctx dev : store_only (approval_body cc id a ctx dev).
Proof. unfold approval_body, _proposal. eauto 20 with lifeos. Qed.

Lemma world_eq (w w' : world (T := T)) :
  w_store w = w_store w' → w_calendar w = w_calendar w' → w_leases w = w_leases w' → w = w'.
Proof. destruct w, w'. simpl. congruence. Qed.

(** The store after its proposal moved to [state]. *)
Definition moved (s : versioned) (id : uuid) (state : ProposalState) (ctx : TransitionContext) : versioned :=
  default s (abstract_step (OpTransition PROPOSAL id (state_value state) ctx) s).

Lemma moved_step s id state ctx r :
  last (vs_history s PROPOSAL id) = Some r →
  abstract_step (OpTransition PROPOSAL id (state_value state) ctx) s = Some (moved s id state ctx)
  ∧ last (vs_history (moved s id state ctx) PROPOSAL id)
    = Some (Domain.with_state r (state_value state)).
Proof.
  intros Hl. unfold moved. simpl. rewrite Hl.
  assert (Domain.filled (state_value state) = true) as -> by (by destruct state). simpl. split; [done|].
  unfold set_history. rewrite bool_decide_true by done. by rewrite last_snoc.
Qed.

(** What a call was approved for. *)
Record approved_by (s : versioned) (claims : list ConsumptionKey) (cc : call_context) (id : uuid)
    (a : Approval) (dev : string) (p : ProposalRecord) (keys : list ConsumptionKey) : Prop := {
  ab_proposal : proposal_in s id PROPOSED p;
  ab_device : ap_device_id a = Some dev;
  ab_kind : ap_kind a = OrdinaryApproval;
  ab_valid : approval_valid (cc_now cc) devices p a default_approval_matrix;
  ab_keys : ∃ g, keys = approve_keys g p a;
  ab_fresh : Forall (λ k, k ∉ claims) keys;
}.

Lemma approve_stage w s cc id a ctx dev :
  at_rest w s →
  match approve_proposal cc id a ctx dev w with
  | (w', Err _) => w' = w
  | (w', Ok approved) =>
      ∃ p keys, approved_by s (claims_of (w_store w)) cc id a dev p keys
        ∧ approved = in_state p APPROVED
        ∧ w_calendar w' = w_calendar w ∧ w_leases w' = w_leases w
        ∧ at_rest w' (moved s id APPROVED ctx)
        ∧ claims_of (w_store w') = claims_of (w_store w) ++ keys
  end.
Proof.
  intros Hw. pose proof (block_runs _ w s Hw (approval_body_steady cc id a ctx dev)) as Hr.
  pose proof (store_only_block _ (approval_body_store_only cc id a ctx dev) w) as Ho.
  change (approve_proposal cc id a ctx dev w) with (store_block (approval_body cc id a ctx dev) w).
  destruct (store_block (approval_body cc id a ctx dev) w) as [w' [approved|e]]; simpl in Ho.
  2:{ apply world_eq; tauto. }
  destruct Hr as (w1 & Hrun & -> & _ & Hn1 & _). destruct Hw as ((Hs & Hd & Hin) & Hn).
  apply bind_inv in Hrun as (p & w2 & Hp & Hrun).
  apply (proposal_inv _ _ _ _ s) in Hp as [-> Hp]; [|done].
  apply bind_inv in Hrun as (? & w3 & [-> Hdev]%settled_inv & Hrun).
  apply bind_inv in Hrun as (st & w4 & (c & Hap & ->)%on_store_inv & Hrun).
  apply bind_inv in Hrun as (u & w5 & (c' & Htr & ->)%on_store_inv & [= <- <-]).
  apply approve_nested in Hap as (-> & Hst & Hk & Hv & -> & Hf); [|done|done].
  simpl in Hf. set (keys := approve_keys _ _ _) in *.
  destruct Hp as (r & fl & Hl & Hvar & Hty & Hstate & ->).
  pose proof (perform_nested (OpTransition PROPOSAL id (state_value APPROVED) ctx)
    (claimed (begin_immediate (w_store w)) keys) s eq_refl (represents_claims _ _ _ Hs) eq_refl) as Hpn.
  destruct (moved_step s id APPROVED ctx r Hl) as [Hms _]. rewrite Hms in Hpn.
  destruct Hpn as (db' & Hpn & Hr' & Hc'). simpl in Htr, Hpn. rewrite Hpn in Htr. injection Htr as <- _.
  exists (proposal_record r fl PROPOSED), keys. split_and!; [|done..| |].
  - split; try done; [by exists r, fl| |by eexists].
    unfold _check_device in Hdev. apply raise_if_ok in Hdev. destruct (ap_device_id a) as [d|]; [|done].
    apply negb_false_iff, String.eqb_eq in Hdev. by subst.
  - split; [by split_and!|]. done.
  - exact Hc'.
Qed.

(** ** Execution *)

(** Code that leaves the provider alone. *)
Definition calendar_same {A : Type} (m : S_ A) : Prop := ∀ w, w_calendar (m w).1 = w_calendar w.

Lemma calendar_same_bind {A B} (m : S_ A) (k : A → S_ B) :
  calendar_same m → (∀ a, calendar_same (k a)) → calendar_same (m ≫= k).
Proof.
  intros Hm Hk w. unfold mbind, comp_bind. specialize (Hm w). destruct (m w) as [w1 [a|e]]; [|done].
  simpl in *. by rewrite Hk.
Qed.
Lemma calendar_same_store {E A} wrap (m : comp (connection state_db) E A) : calendar_same (on_store wrap m).
Proof. intros w. unfold on_store. by destruct (m _) as [? []]. Qed.
Lemma calendar_same_leases {A} wrap (m : comp LeaseIssuer LeaseError A) : calendar_same (on_leases wrap m).
Proof. intros w. unfold on_leases. by destruct (m _) as [? []]. Qed.
Lemma calendar_same_block {A} (body : S_ A) : calendar_same body → calendar_same (store_block body).
Proof.
  intros Hb w. unfold WeekExecution.store_block.
  set (m := on_store StoreError (query (verify_chain hmac audit_key)) ≫= λ _, body).
  assert (calendar_same m) as Hm by (apply calendar_same_bind; [apply calendar_same_store|done]).
  clearbody m. destruct (in_transaction (w_store w)).
  - pose proof (Hm w) as Hw. by destruct (m w) as [w1 [a|e]].
  - pose proof (Hm (set_store w (begin_immediate (w_store w)))) as Hw. by destruct (m _) as [w1 [a|e]].
Qed.

Definition lease_body (cc : call_context) (approved : ProposalRecord) (a : Approval) :
    S_ CapabilityLease :=
  (λ w, (w, match issue sha256_hex hmac (cc_issued cc) (cc_lease_id cc) approved (lease_request a)
                    (w_leases w) with
            | Ok lease => Ok lease
            | Err e => Err (lease_error e)
            end) : world * result ServiceError CapabilityLease) ≫= λ lease,
  on_leases lease_error (Leases.verify sha256_hex hmac (cc_verified cc) lease approved) ≫= λ _,
  on_store (policy_error "lease_rejected") (apply_ sha256_hex (cc_applied cc) approved lease) ≫= λ _,
  mret lease.

Lemma lease_body_steady cc approved a : steady (lease_body cc approved a).
Proof. apply steady_bind; [by apply steady_same|]. eauto 20 with lifeos. Qed.
Lemma lease_body_calendar cc approved a : calendar_same (lease_body cc approved a).
Proof.
  apply calendar_same_bind; [done|intros lease]. apply calendar_same_bind; [apply calendar_same_leases|].
  intros v. apply calendar_same_bind; [apply calendar_same_store|done].
Qed.

(** A lease that is applied inside a transaction claims its identifier. *)
Lemma apply_nested now p lease (c c' : connection state_db) st :
  in_transaction c = true → NoDup (claims_of c) →
  apply_ sha256_hex now p lease c = (c', Ok st) →
  pr_state p = APPROVED ∧ now < fa_expires_at (le_fact lease)
  ∧ c' = claimed c [("apply", fa_fact_id (le_fact lease))]
  ∧ ("apply", fa_fact_id (le_fact lease)) ∉ claims_of c.
Proof.
  intros Hin Hn. unfold apply_, bound_transition.
  intros (? & c1 & [= <- Hst] & Hrun)%bind_inv. apply bind_inv in Hrun as (? & c2 & [= <- _] & Hrun).
  apply bind_inv in Hrun as (? & c3 & [= <- _] & Hrun). apply bind_inv in Hrun as (? & c4 & [= <- Hexp] & Hrun).
  apply bind_inv in Hrun as (? & c5 & Hc5 & [= <- _]). unfold _consume, consume_or in Hc5.
  rewrite consume_nested in Hc5 by done. destruct (claimable _ _) eqn:Hcl; [|done]. injection Hc5 as <- _.
  apply raise_if_ok in Hst, Hexp. apply negb_false_iff, bool_decide_eq_true in Hst. apply Z.leb_gt in Hexp.
  unfold claimable in Hcl. apply bool_decide_eq_true in Hcl as [_ Hf]. rewrite Forall_singleton in Hf. split_and!; done.
Qed.

Lemma lease_stage w s cc approved a :
  at_rest w s →
  match apply_lease cc approved a w with
  | (w', Err _) => w_store w' = w_store w ∧ w_calendar w' = w_calendar w
  | (w', Ok lease) =>
      w_calendar w' = w_calendar w ∧ at_rest w' s
      ∧ claims_of (w_store w') = claims_of (w_store w) ++ [("apply", fa_fact_id (le_fact lease))]
  end.
Proof.
  intros Hw. pose proof (block_runs _ w s Hw (lease_body_steady cc approved a)) as Hr.
  pose proof (calendar_same_block _ (lease_body_calendar cc approved a) w) as Ho.
  change (apply_lease cc approved a w) with (store_block (lease_body cc approved a) w).
  destruct (store_block (lease_body cc approved a) w) as [w' [lease|e]]; simpl in Ho; [|done].
  destruct Hr as (w1 & Hrun & -> & _ & Hn1 & _). destruct Hw as ((Hs & Hd & Hin) & Hn).
  split; [done|]. unfold lease_body in Hrun. apply bind_inv in Hrun as (l & w2 & [= <- _] & Hrun).
  apply bind_inv in Hrun as (v & w3 & Hv & Hrun).
  assert (w_store w3 = begin_immediate (w_store w)) as Hw3.
  { unfold on_leases in Hv. destruct (Leases.verify _ _ _ _ _ _) as [i [x|e]]; [|done].
    by injection Hv as <- _. }
  apply bind_inv in Hrun as (st & w4 & (c & Hap & ->)%on_store_inv & [= <- <-]).
  rewrite Hw3 in Hap. apply apply_nested in Hap as (_ & _ & -> & _); [|done|done].
  split; [|done]. split; [|done]. split_and!; [|done..]. simpl. by apply represents_claims.
Qed.

Lemma execute_stage w s cc id approved a ctx r :
  at_rest w s → last (vs_history s PROPOSAL id) = Some r →
  match _execute_approved cc id approved a ctx w with
  | (w', Err _) =>
      at_rest w' s ∧ claims_of (w_store w) ⊆ claims_of (w_store w')
      ∧ (w_calendar w' = w_calendar w
         ∨ ∃ plan, approved_plan approved = Ok plan
             ∧ w_calendar w' = (apply_plan plan (w_calendar w)).1)
  | (w', Ok done_) =>
      at_rest w' (moved s id APPLIED ctx) ∧ claims_of (w_store w) ⊆ claims_of (w_store w')
      ∧ ∃ plan result_, approved_plan approved = Ok plan
          ∧ apply_plan plan (w_calendar w) = (w_calendar w', Ok result_)
          ∧ er_applied_operations done_ = applied_operations result_
  end.
Proof.
  intros Hw Hl. pose proof (lease_stage w s cc approved a Hw) as Hls.
  unfold WeekExecution._execute_approved. unfold mbind at 1, comp_bind at 1.
  destruct (apply_lease cc approved a w) as [w1 [lease|e]].
  2:{ destruct Hls as [Hst Hcal]. unfold at_rest. rewrite Hst. by split_and!; [apply Hw..| |left]. }
  destruct Hls as (Hcal & Hw1 & Hc1).
  assert (claims_of (w_store w) ⊆ claims_of (w_store w1)) as Hsub by (rewrite Hc1; set_solver).
  unfold settled_value, mbind at 1, comp_bind at 1.
  destruct (approved_plan approved) as [plan|e] eqn:Hplan; [|by split_and!; [|done|left]].
  unfold mbind at 1, comp_bind at 1, on_calendar.
  destruct (apply_plan plan (w_calendar w1)) as [t [result_|e]] eqn:Hap.
  2:{ split_and!; [exact Hw1|done|]. right. exists plan. split; [done|]. by rewrite <- Hcal, Hap. }
  set (w2 := {| w_store := w_store w1; w_leases := w_leases w1; w_calendar := t |}).
  assert (at_rest w2 s) as Hw2 by exact Hw1.
  destruct (perform_at_rest (OpTransition PROPOSAL id (state_value APPLIED) ctx) StoreError w2 s Hw2 eq_refl)
    as [Hc2 Hp]. destruct (moved_step s id APPLIED ctx r Hl) as [Hms _]. rewrite Hms in Hp.
  destruct Hp as [Hok Hw3]. cbn [perform state_value] in *. unfold mbind, comp_bind.
  pose proof (calendar_same_store StoreError (transition hmac audit_key PROPOSAL id "applied" ctx) w2) as Hcal3.
  destruct (on_store StoreError _ w2) as [w3 res]. simpl in *. subst res.
  split_and!; [done|by rewrite Hc2|]. exists plan, result_. rewrite Hcal3, <- Hcal. done.
Qed.

(** ** The calendar changes only under approval *)

Abbreviation signed_by_device :=
  (signed_by_device parse_device dump_instant public_key_ok ed25519_verify).

Lemma approved_signed s claims cc id a dev p keys :
  approved_by s claims cc id a dev p keys →
  ap_proof a = DEVICE_SIGNED ∧ signed_by_device devices p a
  ∧ fa_payload_hash (ap_fact a) = sha256_hex (pr_payload p).
Proof.
  intros Hab. destruct (ab_valid _ _ _ _ _ _ _ _ Hab) as [(rule & Hrule & Hproof) _ Hpay _ Hdev].
  destruct (ab_proposal _ _ _ _ _ _ _ _ Hab) as (r & f & _ & _ & _ & _ & ->).
  vm_compute in Hrule. injection Hrule as <-. specialize (Hproof eq_refl). simpl in Hproof.
  rewrite list_elem_of_singleton in Hproof. auto.
Qed.

Definition approval_governs (w : world) (s : versioned) (cc : call_context) (id : uuid) (a : Approval)
    (ctx : TransitionContext) (dev : string) (w' : world) (res : result ServiceError WeekPlanExecutionResult) :
    Prop :=
  ∃ p keys, approved_by s (claims_of (w_store w)) cc id a dev p keys
    ∧ ap_proof a = DEVICE_SIGNED ∧ signed_by_device devices p a
    ∧ fa_payload_hash (ap_fact a) = sha256_hex (pr_payload p)
    ∧ keys ⊆ sd_consumption (durable (w_store w'))
    ∧ match res with
      | Ok r => at_rest w' (moved (moved s id APPROVED ctx) id APPLIED ctx)
          ∧ ∃ plan result_, approved_plan (in_state p APPROVED) = Ok plan
              ∧ apply_plan plan (w_calendar w) = (w_calendar w', Ok result_)
              ∧ er_applied_operations r = applied_operations result_
      | Err _ => at_rest w' (moved s id APPROVED ctx)
          ∧ (w_calendar w' = w_calendar w
             ∨ ∃ plan, approved_plan (in_state p APPROVED) = Ok plan
                 ∧ w_calendar w' = (apply_plan plan (w_calendar w)).1)
      end.

Lemma approve_and_apply_cases w s cc id a ctx dev :
  at_rest w s →
  let '(w', res) := approve_and_apply cc id a ctx dev w in
  (w' = w ∧ ∃ e, res = Err e) ∨ approval_governs w s cc id a ctx dev w' res.
Proof.
  intros Hw. pose proof (approve_stage w s cc id a ctx dev Hw) as Hst.
  unfold WeekExecution.approve_and_apply, mbind, comp_bind.
  destruct (approve_proposal cc id a ctx dev w) as [w1 [approved|e]]; [|by left; eauto].
  destruct Hst as (p & keys & Hab & -> & Hcal & Hle & Hw1 & Hc1).
  destruct (ab_proposal _ _ _ _ _ _ _ _ Hab) as (r & f & Hl & _).
  destruct (moved_step s id APPROVED ctx r Hl) as [_ Hl1].
  pose proof (execute_stage w1 _ cc id (in_state p APPROVED) a ctx _ Hw1 Hl1) as Hex.
  destruct (approved_signed _ _ _ _ _ _ _ _ Hab) as (Hds & Hsig & Hpay).
  destruct (_execute_approved cc id (in_state p APPROVED) a ctx w1) as [w2 [done_|e]]; right; exists p, keys;
    rewrite Hcal in Hex; destruct Hex as (Hw2 & Hc2 & Hres); (split_and!; [done..| |done|done]).
  all: destruct Hw2 as [(_ & <- & _) _]; change (keys ⊆ claims_of (w_store w2)).
  all: etransitivity; [|exact Hc2]; rewrite Hc1; intros k Hk; apply elem_of_app; by right.
Qed.

(** C10. The calendar changes only under approval: a call that approves and applies
    a week either raises and changes nothing at all, or it was made with an
    ordinary, unused approval, signed by the expected active device over the very
    payload of the stored, still proposed week; then its keys are on disk, and the
    calendar is as it was or as applying exactly the approved events left it.  When
    the call returns, the events were applied and the week is stored as applied;
    when it raises, the week is stored as approved. *)
Theorem calendar_effects_need_approval w s cc id a ctx dev :
  at_rest w s →
  let '(w', res) := approve_and_apply cc id a ctx dev w in
  (w' = w ∧ ∃ e, res = Err e) ∨ approval_governs w s cc id a ctx dev w' res.
Proof. apply approve_and_apply_cases. Qed.

(** ** Sequences of calls *)

Abbreviation reconcile_interrupted_apply :=
  (reconcile_interrupted_apply hmac audit_key parse_device sha256 sha256_hex dump_instant dump_time
     public_key_ok ed25519_verify config access_token parse_events dump_outcome devices).
Abbreviation recover_interrupted_apply :=
  (recover_interrupted_apply hmac audit_key parse_device sha256 sha256_hex dump_instant dump_time
     public_key_ok ed25519_verify config access_token parse_events dump_outcome devices).
Abbreviation propose := (propose hmac audit_key sha256 sha256_hex dump_time config access_token).

(** The JSON of an outcome is an object, never the empty text. *)
Hypothesis outcome_text : ∀ o, Domain.filled (dump_outcome o) = true.

Lemma restful_execute cc id p a ctx : restful (_execute_approved cc id p a ctx).
Proof.
  unfold WeekExecution._execute_approved.
  apply restful_bind; [apply (restful_block _ (lease_body_steady cc p a))|]. eauto 20 with lifeos.
Qed.

Lemma restful_approve_and_apply cc id a ctx dev : restful (approve_and_apply cc id a ctx dev).
Proof.
  apply restful_bind; [apply (restful_block _ (approval_body_steady cc id a ctx dev))|].
  intros p. apply restful_execute.
Qed.

Lemma judged_steady cc p proof r :
  steady (judged parse_device sha256_hex dump_instant public_key_ok ed25519_verify devices cc p proof r).
Proof.
  unfold judged. destruct (uncertain _ _); [auto with lifeos|].
  destruct (event_ids MISSING r), (event_ids NOOP r); eauto with lifeos.
Qed.

Lemma restful_reconcile cc id proof : restful (reconcile_interrupted_apply cc id proof).
Proof.
  apply restful_block. apply steady_bind; [auto with lifeos|intros found].
  apply steady_bind; [auto with lifeos|intros p]. apply steady_bind; [auto with lifeos|intros u].
  apply steady_bind; [auto with lifeos|intros plan]. apply steady_bind; [auto with lifeos|intros r].
  apply steady_bind; [apply judged_steady|intros verdict].
  apply steady_bind; [|intros u'; apply steady_bind; [case_bool_decide|]; auto with lifeos].
  apply (steady_perform (OpCreate _ _)). simpl. unfold Domain.domain_valid. simpl. by rewrite outcome_text.
Qed.

Lemma restful_recover cc id proof ctx dev : restful (recover_interrupted_apply cc id proof ctx dev).
Proof.
  unfold WeekExecution.recover_interrupted_apply.
  apply restful_bind; [auto with lifeos|intros u]. apply restful_bind; [unfold _proposal; eauto with lifeos|].
  intros p. apply restful_bind.
  - apply restful_catch; [apply restful_reconcile|]. intros []; try apply restful_throw.
    destruct e; apply restful_throw.
  - intros outcome. destruct (negb _); [apply restful_ret|]. unfold resume.
    apply restful_bind; [|intros u'; apply restful_bind; [apply restful_execute|auto with lifeos]].
    apply restful_block, steady_claims, only_claims_consume.
Qed.

Lemma restful_propose cc now proposed : plain_time now = true → restful (propose cc now proposed).
Proof.
  intros Hnow. unfold WeekExecution.propose. apply restful_bind; [auto with lifeos|intros u].
  apply restful_bind; [|eauto with lifeos]. apply (restful_perform (OpCreate _ _)).
  simpl. unfold Domain.plain, Domain.created_at. simpl. by rewrite Hnow.
Qed.

Inductive service_op :=
| OpPropose (cc : call_context) (now : datetime) (proposed : ProposedDay)
| OpApproveApply (cc : call_context) (id : uuid) (a : Approval) (ctx : TransitionContext) (dev : string)
| OpRecover (cc : call_context) (id : uuid) (proof : Approval) (ctx : TransitionContext) (dev : string).

Definition service_do (op : service_op) (w : world) : world :=
  match op with
  | OpPropose cc now proposed => (propose cc now proposed w).1
  | OpApproveApply cc id a ctx dev => (approve_and_apply cc id a ctx dev w).1
  | OpRecover cc id proof ctx dev => (recover_interrupted_apply cc id proof ctx dev w).1
  end.

(** The relay's clock is UTC. *)
Definition service_plain (op : service_op) : bool :=
  match op with OpPropose _ now _ => plain_time now | _ => true end.

Definition service_run (ops : list service_op) (w : world) : world := foldl (λ w op, service_do op w) w ops.

Lemma service_run_rests ops w s :
  at_rest w s → forallb service_plain ops = true →
  (∃ s', at_rest (service_run ops w) s')
  ∧ claims_of (w_store w) ⊆ claims_of (w_store (service_run ops w)).
Proof.
  revert w s. induction ops as [|op ops IH]; intros w s Hw Hp; [by split; [exists s|]|]. simpl in Hp.
  apply andb_true_iff in Hp as [Hop Hp].
  assert ((∃ s', at_rest (service_do op w) s')
    ∧ claims_of (w_store w) ⊆ claims_of (w_store (service_do op w))) as [[s' Hw'] Hc].
  { destruct op; simpl; [by eapply restful_propose|by eapply restful_approve_and_apply|by eapply restful_recover]. }
  destruct (IH _ _ Hw' Hp) as [Hend Hc']. split; [done|].
  by transitivity (claims_of (w_store (service_do op w))).
Qed.

(** C11. An approval is executed once: after a call that changed the calendar, and
    any further proposals, approvals and recoveries, an approval with the same fact,
    or of the same device with the same idempotency key, is refused and changes
    nothing. *)
Theorem approval_executes_once w s cc id a ctx dev ops cc' id' a' ctx' dev' :
  at_rest w s → forallb service_plain ops = true →
  w_calendar (approve_and_apply cc id a ctx dev w).1 ≠ w_calendar w →
  fa_fact_id (ap_fact a') = fa_fact_id (ap_fact a)
  ∨ ap_device_id a' = ap_device_id a ∧ fa_idempotency_key (ap_fact a') = fa_idempotency_key (ap_fact a) →
  let later := service_run ops (approve_and_apply cc id a ctx dev w).1 in
  ∃ e, approve_and_apply cc' id' a' ctx' dev' later = (later, Err e).
Proof.
  intros Hw Hops Hne Hsame later. pose proof (approve_and_apply_cases w s cc id a ctx dev Hw) as Hcase.
  destruct (restful_approve_and_apply cc id a ctx dev w s Hw) as [[s1 Hw1] _].
  destruct (approve_and_apply cc id a ctx dev w) as [w1 res]. simpl in *.
  destruct Hcase as [[-> _]|(p & keys & Hab & _ & _ & _ & Hkeys & _)]; [done|].
  destruct (service_run_rests ops w1 s1 Hw1 Hops) as [[s2 Hw2] Hc2].
  fold later in Hw2, Hc2. pose proof (approve_and_apply_cases later s2 cc' id' a' ctx' dev' Hw2) as Hcase2.
  destruct (approve_and_apply cc' id' a' ctx' dev' later) as [w3 res3].
  destruct Hcase2 as [[-> [e ->]]|(p' & keys' & Hab' & _)]; [by exists e|]. exfalso.
  destruct (ab_keys _ _ _ _ _ _ _ _ Hab) as [g Hg], (ab_keys _ _ _ _ _ _ _ _ Hab') as [g' Hg'].
  pose proof (ab_fresh _ _ _ _ _ _ _ _ Hab') as Hf. rewrite Forall_forall in Hf.
  destruct Hw1 as [(_ & Hd1 & _) _]. unfold claims_of in *. rewrite <- Hd1 in Hkeys.
  assert (∀ k, k ∈ keys' → k ∉ keys) as Hdis.
  { intros k Hk' Hk. apply (Hf k Hk'), Hc2, Hkeys, Hk. }
  subst keys keys'.
  destruct Hsame as [Hfact|[Hdev Hidem]].
  - apply (Hdis ("approve", fa_fact_id (ap_fact a'))); unfold approve_keys; rewrite ?Hfact, !elem_of_cons; auto.
  - apply (Hdis ("approve-idempotency", device_text (ap_device_id a') +:+ ":" +:+ fa_idempotency_key (ap_fact a')));
      unfold approve_keys; rewrite ?Hdev, ?Hidem, !elem_of_cons; auto.
Qed.

(** ** Recovery *)

Abbreviation reconcile_plan := (reconcile_plan sha256 sha256_hex config access_token).
Abbreviation stored_plan := (stored_plan dump_time parse_events).

(** What a recovery may look at: the stored approved week, under a valid signed
    proof of the expected device. *)
Record recoverable (s : versioned) (cc : call_context) (id : uuid) (proof : Approval) (dev : string)
    (p : ProposalRecord) (plan : CalendarPlan) : Prop := {
  rv_proposal : proposal_in s id APPROVED p;
  rv_device : ap_device_id proof = Some dev;
  rv_valid : approval_valid (cc_now cc) devices p (as_reset proof) default_approval_matrix;
  rv_plan : approved_plan p = Ok plan;
}.

(** The provider after the reconciliation has read it. *)
Definition looked_at (plan : CalendarPlan) (w : world (T := T)) : T := (reconcile_plan plan None (w_calendar w)).1.

Lemma stored_plan_approved p plan : stored_plan p = Ok plan → approved_plan p = Ok plan.
Proof.
  unfold WeekExecution.stored_plan, WeekExecution.approved_plan.
  by destruct (parse_events _) as [[events|]|].
Qed.

Lemma stored_proposal_ok s id p :
  stored_proposal (last (vs_history s PROPOSAL id)) = Ok p → proposal_in s id APPROVED p.
Proof.
  unfold stored_proposal. destruct (last _) as [r|] eqn:Hl; [|done].
  destruct (Domain.dr_variant r) eqn:Hv; try done.
  destruct (String.eqb_spec (Domain.pf_proposal_type fields) ACTION) as [Ht|]; [|done].
  destruct (String.eqb_spec (Domain.state r) (state_value APPROVED)) as [Hst|]; [|done].
  intros [= <-]. exists r, fields. done.
Qed.

Lemma judged_calendar cc p proof r :
  calendar_same (judged parse_device sha256_hex dump_instant public_key_ok ed25519_verify devices cc p proof r).
Proof.
  unfold judged. destruct (uncertain _ _); [done|].
  destruct (event_ids MISSING r), (event_ids NOOP r); try done.
  apply calendar_same_bind; [apply calendar_same_store|done].
Qed.

(** What follows the reconciliation writes only to the store. *)
Definition recorded (cc : call_context) (id : uuid) (p : ProposalRecord) (proof : Approval)
    (r : CalendarReconciliation) : S_ CalendarRecoveryOutcome :=
  judged parse_device sha256_hex dump_instant public_key_ok ed25519_verify devices cc p proof r ≫= λ verdict,
  let result_ := {| ro_proposal_id := id; ro_state := verdict.1; ro_outcome := verdict.2;
                    ro_succeeded_events := event_ids NOOP r;
                    ro_missing_events := event_ids MISSING r |} in
  on_store StoreError (create hmac audit_key
    (execution_record cc id (dump_outcome result_)) (recovery_context cc proof)) ≫= λ _,
  (if bool_decide (verdict.1 = APPROVED) then mret tt
   else on_store StoreError (transition hmac audit_key PROPOSAL id (state_value verdict.1)
                               (recovery_context cc proof))) ≫= λ _,
  mret result_.

Lemma recorded_calendar cc id p proof r : calendar_same (recorded cc id p proof r).
Proof.
  apply calendar_same_bind; [apply judged_calendar|intros verdict].
  apply calendar_same_bind; [apply calendar_same_store|intros u].
  apply calendar_same_bind; [|done]. case_bool_decide; [done|apply calendar_same_store].
Qed.

Definition reconcile_body (cc : call_context) (id : uuid) (proof : Approval) : S_ CalendarRecoveryOutcome :=
  on_store StoreError (query (read_domain PROPOSAL id)) ≫= λ found,
  settled_value (stored_proposal found) ≫= λ p,
  settled_value (match validate_approval parse_device sha256_hex dump_instant public_key_ok
                         ed25519_verify (cc_now cc) devices p (as_reset proof)
                         default_approval_matrix with
                 | Ok u => Ok u
                 | Err e => Err (AuthorityRaised e)
                 end) ≫= λ _,
  settled_value (stored_plan p) ≫= λ plan,
  on_calendar CalendarRaised (reconcile_plan plan None) ≫= λ r,
  recorded cc id p proof r.

Lemma reconcile_body_calendar cc id proof dev (w : world (T := T)) s :
  represents (live (w_store w)) s → ap_device_id proof = Some dev →
  let '(w', res) := reconcile_body cc id proof w in
  (w_calendar w' = w_calendar w ∧ ∃ e, res = Err e)
  ∨ ∃ p plan, recoverable s cc id proof dev p plan ∧ w_calendar w' = looked_at plan w.
Proof.
  intros Hs Hdev. unfold reconcile_body. erewrite bind_ok.
  2:{ unfold on_store, query. rewrite (read_represented hmac audit_key _ s) by done. reflexivity. }
  assert (set_store w (w_store w) = w) as -> by (by destruct w).
  unfold settled_value, mbind at 1, comp_bind at 1.
  destruct (stored_proposal _) as [p|e] eqn:Hp; [|left; eauto]. apply stored_proposal_ok in Hp.
  unfold mbind at 1, comp_bind at 1.
  destruct (validate_approval _ _ _ _ _ _ _ _ _ _) as [[]|e] eqn:Hv; [|left; eauto].
  apply validate_approval_ok in Hv.
  unfold mbind at 1, comp_bind at 1. destruct (stored_plan p) as [plan|e] eqn:Hplan; [|left; eauto].
  apply stored_plan_approved in Hplan.
  unfold mbind at 1, comp_bind at 1, on_calendar.
  destruct (reconcile_plan plan None (w_calendar w)) as [t [r|e]] eqn:Hrec.
  - pose proof (recorded_calendar cc id p proof r
      {| w_store := w_store w; w_leases := w_leases w; w_calendar := t |}) as Hcal.
    destruct (recorded cc id p proof r _) as [w' res]. simpl in Hcal. right. exists p, plan.
    split; [done|]. unfold looked_at. by rewrite Hrec.
  - right. exists p, plan. split; [done|]. unfold looked_at. by rewrite Hrec.
Qed.

Lemma reconcile_calendar cc id proof dev w s :
  at_rest w s → ap_device_id proof = Some dev →
  let '(w', res) := reconcile_interrupted_apply cc id proof w in
  (w_calendar w' = w_calendar w ∧ ∃ e, res = Err e)
  ∨ ∃ p plan, recoverable s cc id proof dev p plan ∧ w_calendar w' = looked_at plan w.
Proof.
  intros Hw Hdev.
  change (reconcile_interrupted_apply cc id proof w) with (store_block (reconcile_body cc id proof) w).
  rewrite (block_unfold _ w s Hw). destruct Hw as ((Hs & _) & _).
  pose proof (reconcile_body_calendar cc id proof dev (set_store w (begin_immediate (w_store w))) s Hs Hdev) as Hb.
  by destruct (reconcile_body cc id proof _) as [w1 [o|e]].
Qed.

Lemma execute_calendar cc id p a ctx w :
  w_calendar (_execute_approved cc id p a ctx w).1 = w_calendar w
  ∨ ∃ plan, approved_plan p = Ok plan
      ∧ w_calendar (_execute_approved cc id p a ctx w).1 = (apply_plan plan (w_calendar w)).1.
Proof.
  unfold WeekExecution._execute_approved. rewrite bind_run.
  pose proof (calendar_same_block _ (lease_body_calendar cc p a) w) as Hcal.
  change (store_block (lease_body cc p a) w) with (apply_lease cc p a w) in Hcal.
  destruct (apply_lease cc p a w) as [w1 [lease|e]]; simpl in Hcal; [|by left].
  rewrite bind_run. unfold settled_value.
  destruct (approved_plan p) as [plan|e] eqn:Hplan; [|by left]. right. exists plan. split; [done|].
  rewrite bind_run. unfold on_calendar. rewrite <- Hcal.
  destruct (apply_plan plan (w_calendar w1)) as [t [result_|e]]; [|done].
  set (w2 := {| w_store := w_store w1; w_leases := w_leases w1; w_calendar := t |}).
  pose proof (calendar_same_store StoreError (transition hmac audit_key PROPOSAL id "applied" ctx) w2) as Hc2.
  rewrite bind_run. by destruct (on_store StoreError _ w2) as [w3 [u|e]].
Qed.

(** A proof that completes an apply is claimed before the provider is touched. *)
Lemma claim_stage keys w s :
  at_rest w s →
  match store_block (on_store (policy_error "approval_rejected") (consume_or keys "")) w with
  | (w', Err _) => w_calendar w' = w_calendar w
  | (w', Ok _) => w_calendar w' = w_calendar w ∧ (∃ s', at_rest w' s')
      ∧ keys ⊆ claims_of (w_store w') ∧ Forall (λ k, k ∉ claims_of (w_store w)) keys
  end.
Proof.
  intros Hw. destruct (restful_block _ (steady_claims (policy_error "approval_rejected") _
    (only_claims_consume keys "")) w s Hw) as [Hr _].
  rewrite (block_unfold _ w s Hw) in *. unfold on_store, consume_or in *. simpl in *.
  pose proof (consume_nested keys (begin_immediate (w_store w)) eq_refl) as Hc. simpl in Hc. rewrite Hc in *.
  destruct (claimable keys _) eqn:Hcl; simpl in *; [|done]. split_and!; [done|done| |].
  - unfold claims_of. simpl. set_solver.
  - unfold claimable in Hcl. by apply bool_decide_eq_true in Hcl as [_ Hf].
Qed.

Lemma check_device_ok a dev u : _check_device a dev = Ok u → ap_device_id a = Some dev.
Proof.
  unfold _check_device. destruct u. intros Hchk%raise_if_ok. destruct (ap_device_id a) as [d|]; [|done].
  apply negb_false_iff, String.eqb_eq in Hchk. by subst.
Qed.

Lemma proposal_calendar id state : calendar_same (_proposal id state).
Proof. apply calendar_same_bind; [apply calendar_same_store|done]. Qed.

Lemma proposal_in_unique s id state p p' : proposal_in s id state p → proposal_in s id state p' → p = p'.
Proof. intros (r & f & Hl & Hv & _ & _ & ->) (r' & f' & Hl' & Hv' & _ & _ & ->). congruence. Qed.

Lemma recovery_cases w s cc id proof ctx dev :
  at_rest w s →
  let w' := (recover_interrupted_apply cc id proof ctx dev w).1 in
  w_calendar w' = w_calendar w
  ∨ ∃ p plan, recoverable s cc id proof dev p plan
      ∧ (w_calendar w' = looked_at plan w
         ∨ w_calendar w' = (apply_plan plan (looked_at plan w)).1
           ∧ recovery_keys proof ⊆ sd_consumption (durable (w_store w'))
           ∧ Forall (λ k, k ∉ claims_of (w_store w)) (recovery_keys proof)).
Proof.
  intros Hw. cbv zeta. unfold WeekExecution.recover_interrupted_apply. rewrite bind_run. unfold settled_value.
  destruct (_check_device proof dev) as [[]|e] eqn:Hchk; [|by left]. apply check_device_ok in Hchk as Hdev.
  rewrite bind_run. destruct (_proposal id APPROVED w) as [w1 [p|e]] eqn:Hp.
  2:{ left. pose proof (proposal_calendar id APPROVED w) as Hcal. by rewrite Hp in Hcal. }
  apply (proposal_inv _ _ _ _ s) in Hp as [-> Hp]; [|apply Hw].
  pose proof (reconcile_calendar cc id proof dev w s Hw Hdev) as Hrec.
  destruct (restful_reconcile cc id proof w s Hw) as [[s1 Hw1] Hc1].
  rewrite bind_run. unfold catch.
  destruct (reconcile_interrupted_apply cc id proof w) as [w1 [o|e]].
  2:{ destruct Hrec as [[Hcal _]|(p' & plan & Hr & Hcal)]; [left|right; exists p', plan; split; [done|left]];
        destruct e as [| | | | | |[]| |]; done. }
  simpl in Hw1, Hc1. destruct Hrec as [[_ [e He]]|(p' & plan & Hr & Hcal)]; [done|].
  assert (p' = p) as -> by (by eapply proposal_in_unique; [apply Hr|]).
  right. exists p, plan. split; [done|]. destruct (negb _); [by left|]. unfold resume. rewrite bind_run.
  pose proof (claim_stage (recovery_keys proof) w1 s1 Hw1) as Hcl.
  destruct (store_block _ w1) as [w2 [u|e]]; [|left; simpl; congruence].
  destruct Hcl as (Hcal2 & [s2 Hw2] & Hkeys & Hfresh).
  pose proof (execute_calendar cc id p (as_reset proof) ctx w2) as Hex.
  destruct (restful_execute cc id p (as_reset proof) ctx w2 s2 Hw2) as [[s3 Hw3] Hc3].
  rewrite bind_run. destruct (_execute_approved cc id p (as_reset proof) ctx w2) as [w3 res]. simpl in *.
  destruct Hex as [Hex|(plan' & Hplan' & Hex)]; [left; destruct res; simpl; congruence|right].
  rewrite (rv_plan _ _ _ _ _ _ _ Hr) in Hplan'. injection Hplan' as <-.
  assert (recovery_keys proof ⊆ sd_consumption (durable (w_store w3))) as Hd.
  { destruct Hw3 as [(_ & <- & _) _]. by transitivity (claims_of (w_store w2)). }
  assert (Forall (λ k, k ∉ claims_of (w_store w)) (recovery_keys proof)) as Hf.
  { eapply Forall_impl; [exact Hfresh|]. intros k Hk Hin. by apply Hk, Hc1. }
  rewrite Hcal2, Hcal in Hex. by destruct res.
Qed.

(** C12. Recovery writes only under a fresh proof: a recovery leaves the provider as
    it was, or as reading it for the reconciliation left it, unless the stored week
    is approved, the proof is signed as a reset by the expected device over its
    payload and was never used; then the proof's keys are on disk and the provider
    is as applying exactly the approved events left it. *)
Theorem recovery_effects_need_proof w s cc id proof ctx dev :
  at_rest w s →
  let w' := (recover_interrupted_apply cc id proof ctx dev w).1 in
  w_calendar w' = w_calendar w
  ∨ ∃ p plan, recoverable s cc id proof dev p plan
      ∧ (w_calendar w' = looked_at plan w
         ∨ w_calendar w' = (apply_plan plan (looked_at plan w)).1
           ∧ recovery_keys proof ⊆ sd_consumption (durable (w_store w'))
           ∧ Forall (λ k, k ∉ claims_of (w_store w)) (recovery_keys proof)).
Proof. apply recovery_cases. Qed.
End guarantees.
