(* ===== verification/WeekExecutionScenarios.v ===== *)
(** * A week proposed, approved, applied and recovered

    The planned week of a concrete routine, its proposal, its device-signed
    approval on the sandbox provider, and the recovery of an apply that the
    provider interrupted. *)

From stdpp Require Import prelude base strings list gmap pretty.
From Stdlib Require Import ZArith Lia.
From S2P Require Import Prelude PyTime PyText PyUuid Transactions AuditLedger Consumption Enrollment Authority AuthoritySpec Leases Calendar CalendarSandbox CalendarApply Knowledge Memory DomainRecords DomainRepository DomainSpec PlannerModels Planner InterviewScenarios WeekPlanning WeekPlanningStore WeekExecution WeekExecutionSpec.
#[local] Open Scope string_scope.
#[local] Open Scope list_scope.
#[local] Open Scope Z_scope.
#[local] Existing Instances DomainText.codec DomainText.laws Chat.codec.

Module Relay.
Definition gym : MemoryRecord := Week.record 1
  (Some (Week.routine Week.monday_wednesday_friday (Some (Week.at_hour 7)) 60 0
           RoutineFlexibility.PREFERRED [])).
Definition planned : option ProposedDay := Eval vm_compute in
  match Week.planned (Week.holding [gym]) with Ok (_, _, p) => Some p | Err _ => None end.
Definition proposal_id : uuid := 77.
Definition events : list CalendarEventDraft := Eval vm_compute in
  match planned with Some p => week_events proposal_id p | None => [] end.
Definition payload : string := Eval vm_compute in calendar_payload isoformat events.
Definition parse (text : string) : option (option (list CalendarEventDraft)) :=
  if String.eqb text payload then Some (Some events) else None.

Definition t0 : Z := utc Week.now.
Definition cc (n : Z) (lease : string) (record : uuid) : call_context :=
  {| cc_now := t0 + n; cc_issued := t0 + n; cc_verified := t0 + n; cc_applied := t0 + n;
     cc_lease_id := lease; cc_record_id := record |}.

(** The phone signs the hash of the payload. *)
Definition signed (id : string) (kind : ApprovalKind) : Approval :=
  let fact := {| fa_fact_id := id; fa_proposal_id := uuid_str proposal_id;
                 fa_payload_hash := Desk.hash payload; fa_issued_at := t0; fa_expires_at := t0 + 1000;
                 fa_idempotency_key := "k-" +:+ id; fa_actor := "owner"; fa_correlation_id := "c" |} in
  let unsigned := {| ap_fact := fact; ap_proof := DEVICE_SIGNED; ap_device_id := Some "phone";
                     ap_signature := ""; ap_kind := kind |} in
  {| ap_fact := fact; ap_proof := DEVICE_SIGNED; ap_device_id := Some "phone";
     ap_signature := tohex (signing_bytes pretty unsigned "calendar.apply"); ap_kind := kind |}.

Abbreviation propose := (propose Cabinet.mac "k" Account.sha Desk.hash isoformat Account.config (Ok "tok")).
Abbreviation approve := (approve_and_apply Cabinet.mac "k" decode_text Account.sha Desk.hash pretty isoformat
  (λ _, true) Desk.verify Account.config (Ok "tok") parse Desk.devices).
Definition outcome_json (o : CalendarRecoveryOutcome) : string := "{" +:+ ro_outcome o +:+ "}".
Abbreviation recover := (recover_interrupted_apply Cabinet.mac "k" decode_text Account.sha Desk.hash pretty
  isoformat (λ _, true) Desk.verify Account.config (Ok "tok") parse outcome_json Desk.devices).
Abbreviation run := (service_run Cabinet.mac "k" decode_text Account.sha Desk.hash pretty isoformat
  (λ _, true) Desk.verify Account.config (Ok "tok") parse outcome_json Desk.devices).

Definition start (calendar : GoogleCalendarSandbox) : world :=
  {| w_store := Cabinet.empty; w_leases := Worker.issuer; w_calendar := calendar |}.
(** The world once the week is proposed. *)
Definition proposed (calendar : GoogleCalendarSandbox) : world :=
  match planned with
  | Some p => (propose (cc 0 "" proposal_id) Week.now p (start calendar)).1
  | None => start calendar
  end.

(** A provider that performs the next write but loses its answer. *)
Definition flaky : GoogleCalendarSandbox :=
  let s := Account.empty in
  {| gs_valid_token := gs_valid_token s; gs_revoked := gs_revoked s;
     gs_proposed_calendar := gs_proposed_calendar s; gs_events := gs_events s;
     gs_changes := gs_changes s; gs_generation := gs_generation s;
     gs_minimum_sync_token := gs_minimum_sync_token s; gs_write_failures := gs_write_failures s;
     gs_interrupt_after_write := true; gs_misreport_write := gs_misreport_write s;
     gs_mutation_count := gs_mutation_count s |}.

Definition proposal_state (w : world (T := GoogleCalendarSandbox)) : option string :=
  match read_domain PROPOSAL proposal_id (live (w_store w)) with
  | Ok (Some r) => Some (Domain.state r) | _ => None end.
End Relay.

Lemma relay_starts (calendar : GoogleCalendarSandbox) :
  at_rest Cabinet.mac "k" (Relay.start calendar) nothing.
Proof. split; [by apply fresh_rests|constructor]. Qed.

Lemma outcome_json_filled o : Domain.filled (Relay.outcome_json o) = true.
Proof. done. Qed.

(** The proposed week leaves the service at rest. *)
Lemma proposed_rests calendar :
  ∃ s, at_rest Cabinet.mac "k" (Relay.proposed calendar) s.
Proof.
  unfold Relay.proposed. destruct Relay.planned as [p|]; [|exists nothing; apply relay_starts].
  destruct (service_run_rests Cabinet.mac "k" decode_text Account.sha Desk.hash pretty isoformat
    (λ _, true) Desk.verify Account.config (Ok "tok") Relay.parse Relay.outcome_json Desk.devices
    outcome_json_filled [OpPropose (Relay.cc 0 "" Relay.proposal_id) Week.now p]
    (Relay.start calendar) nothing (relay_starts calendar) eq_refl) as [Hs _].
  exact Hs.
Qed.

Abbreviation first_call := (Relay.approve (Relay.cc 10 "lease" 0) Relay.proposal_id
  (Relay.signed "a" OrdinaryApproval) Cabinet.ctx "phone").

Lemma calendar_effects_need_approval_witness :
  ∃ plan result_,
    apply_plan Account.sha Desk.hash Account.config (Ok "tok") plan Account.empty
    = (w_calendar (first_call (Relay.proposed Account.empty)).1, Ok result_).
Proof.
  destruct (proposed_rests Account.empty) as [s Hs].
  pose proof (calendar_effects_need_approval Cabinet.mac "k" decode_text Account.sha Desk.hash pretty
    isoformat (λ _, true) Desk.verify Account.config (Ok "tok") Relay.parse Desk.devices
    (Relay.proposed Account.empty) s (Relay.cc 10 "lease" 0) Relay.proposal_id
    (Relay.signed "a" OrdinaryApproval) Cabinet.ctx "phone" Hs) as H.
  assert (is_ok (first_call (Relay.proposed Account.empty)).2 = true) as Hok by (vm_compute; reflexivity).
  destruct (first_call (Relay.proposed Account.empty)) as [w' [r|e]]; [|discriminate Hok].
  destruct H as [[_ [e He]]|(p & keys & _ & _ & _ & _ & _ & _ & plan & result_ & _ & Happ & _)];
    [discriminate He|].
  exists plan, result_. exact Happ.
Defined.

Lemma approval_executes_once_witness :
  let later := Relay.run [OpRecover (Relay.cc 20 "lease2" 99) Relay.proposal_id
                            (Relay.signed "b" ResetRequest) Cabinet.ctx "phone"]
                 (first_call (Relay.proposed Account.empty)).1 in
  ∃ e, Relay.approve (Relay.cc 30 "lease3" 0) Relay.proposal_id (Relay.signed "a" OrdinaryApproval)
         Cabinet.ctx "phone" later = (later, Err e).
Proof.
  destruct (proposed_rests Account.empty) as [s Hs].
  refine (approval_executes_once Cabinet.mac "k" decode_text Account.sha Desk.hash pretty isoformat
    (λ _, true) Desk.verify Account.config (Ok "tok") Relay.parse Relay.outcome_json Desk.devices
    outcome_json_filled (Relay.proposed Account.empty) s (Relay.cc 10 "lease" 0) Relay.proposal_id
    (Relay.signed "a" OrdinaryApproval) Cabinet.ctx "phone"
    [OpRecover (Relay.cc 20 "lease2" 99) Relay.proposal_id (Relay.signed "b" ResetRequest) Cabinet.ctx "phone"]
    (Relay.cc 30 "lease3" 0) Relay.proposal_id (Relay.signed "a" OrdinaryApproval) Cabinet.ctx "phone"
    Hs eq_refl _ (or_introl eq_refl)).
  intros Heq. apply (f_equal gs_mutation_count) in Heq. vm_compute in Heq. discriminate Heq.
Defined.

(** The recovery of an interrupted apply changes the provider, so what it needed holds. *)
Lemma recovery_effects_need_proof_witness :
  let interrupted := (first_call (Relay.proposed Relay.flaky)).1 in
  ∃ s p plan, recoverable decode_text Desk.hash pretty isoformat (λ _, true) Desk.verify Relay.parse
    Desk.devices s (Relay.cc 20 "lease2" 99) Relay.proposal_id (Relay.signed "b" ResetRequest) "phone" p plan.
Proof.
  intros interrupted. destruct (proposed_rests Relay.flaky) as [s0 Hs0].
  destruct (service_run_rests Cabinet.mac "k" decode_text Account.sha Desk.hash pretty isoformat
    (λ _, true) Desk.verify Account.config (Ok "tok") Relay.parse Relay.outcome_json Desk.devices
    outcome_json_filled [OpApproveApply (Relay.cc 10 "lease" 0) Relay.proposal_id
      (Relay.signed "a" OrdinaryApproval) Cabinet.ctx "phone"]
    (Relay.proposed Relay.flaky) s0 Hs0 eq_refl) as [[s Hs] _].
  destruct (recovery_effects_need_proof Cabinet.mac "k" decode_text Account.sha Desk.hash pretty
    isoformat (λ _, true) Desk.verify Account.config (Ok "tok") Relay.parse Relay.outcome_json Desk.devices
    outcome_json_filled interrupted s (Relay.cc 20 "lease2" 99) Relay.proposal_id
    (Relay.signed "b" ResetRequest) Cabinet.ctx "phone" Hs) as [Heq|(p & plan & Hr & _)].
  - apply (f_equal gs_mutation_count) in Heq. vm_compute in Heq. discriminate Heq.
  - exists s, p, plan. exact Hr.
Defined.

(** An apply whose provider loses an answer leaves the week approved and refuses
    the same approval; a signed recovery finds the event that was written, adds
    the missing ones and stores the week as applied. *)
Theorem interrupted_week_recovers :
  let interrupted := first_call (Relay.proposed Relay.flaky) in
  let again := first_call interrupted.1 in
  let recovered := Relay.recover (Relay.cc 20 "lease2" 99) Relay.proposal_id
                     (Relay.signed "b" ResetRequest) Cabinet.ctx "phone" interrupted.1 in
  interrupted.2 = Err (WeekPlanningProviderError "calendar_interrupted")
  ∧ Relay.proposal_state interrupted.1 = Some "approved"
  ∧ again.2 = Err (WeekPlanProposalError Relay.proposal_id "stale_proposal")
  ∧ match recovered.2 with
    | Ok o => ro_outcome o = "applied" ∧ length (ro_succeeded_events o) = 3%nat ∧ ro_missing_events o = []
    | Err _ => False
    end
  ∧ Relay.proposal_state recovered.1 = Some "applied".
Proof. vm_compute. split_and!; reflexivity. Qed.
