(* ===== verification/Learning.v ===== *)
(** * Learning from outcomes ([learning/models.py], [learning/learner.py],
      [learning/proposal_ops.py], [learning/errors.py])

    Repeated outcomes become proposals with a confidence: a procedure when
    completed activities of one trigger share their steps, a memory update when
    outcomes diverge from the plan in the same way.  Nothing is activated here.
    The name-based UUID of a proposal is the parameter [uuid5]. *)

From stdpp Require Import prelude base strings list gmap pretty.
From Stdlib Require Import ZArith QArith Lia.
From S2P Require Import Prelude PyTime PyText PyUuid PyFloat Knowledge Memory.
#[local] Open Scope string_scope.
#[local] Open Scope list_scope.
#[local] Open Scope Z_scope.

Module LearningSource.
Inductive t := PLANNER | CONVERSATION | USER_STATEMENT | USER_CORRECTION.
Definition value (s : t) : string :=
  match s with
  | PLANNER => "planner" | CONVERSATION => "conversation"
  | USER_STATEMENT => "user_statement" | USER_CORRECTION => "user_correction"
  end.
#[export] Instance eq_dec : EqDecision t.
Proof. solve_decision. Defined.
End LearningSource.

Module ActualOutcome.
Inductive t := COMPLETED | ABANDONED | RESCHEDULED | DEFERRED.
Definition value (o : t) : string :=
  match o with
  | COMPLETED => "completed" | ABANDONED => "abandoned"
  | RESCHEDULED => "rescheduled" | DEFERRED => "deferred"
  end.
#[export] Instance eq_dec : EqDecision t.
Proof. solve_decision. Defined.
End ActualOutcome.

Module ProposalStatus.
Inductive t := PROPOSED | APPROVED | CORRECTED | DELETED.
Definition value (s : t) : string :=
  match s with
  | PROPOSED => "proposed" | APPROVED => "approved" | CORRECTED => "corrected" | DELETED => "deleted"
  end.
#[export] Instance eq_dec : EqDecision t.
Proof. solve_decision. Defined.
End ProposalStatus.

Module ProposalKind.
Inductive t := PROCEDURE | MEMORY_UPDATE.
#[export] Instance eq_dec : EqDecision t.
Proof. solve_decision. Defined.
End ProposalKind.
Export (hints) LearningSource ActualOutcome ProposalStatus ProposalKind.

Record LearningProvenance := {
  lp_source : LearningSource.t;
  lp_source_id : string;
  lp_captured_at : datetime;
}.

Record LearnedActivity := {
  la_activity_id : uuid;
  la_title : string;
  la_planned_start : datetime;
  la_planned_end : datetime;
  la_energy_required : option Z;
}.

Record ObservationTrigger := { ot_kind : string; ot_source : string }.
#[export] Instance trigger_eq_dec : EqDecision ObservationTrigger.
Proof. solve_decision. Defined.

Record LearningObservation := {
  lo_observation_id : uuid;
  lo_planned : LearnedActivity;
  lo_outcome : ActualOutcome.t;
  lo_actual_start : option datetime;
  lo_actual_end : option datetime;
  lo_trigger : option ObservationTrigger;
  lo_procedure_steps : list string;
  lo_context_tags : list string;
  lo_provenance : LearningProvenance;
  lo_observed_at : datetime;
  lo_retain_until : option datetime;
}.

(** What the two kinds of proposal have of their own. *)
Inductive Lesson :=
| Procedure (trigger : ObservationTrigger) (procedure : list string)
| MemoryUpdate (category : MemoryCategory.t) (content : string).

(** [SkillProposal | MemoryUpdateProposal] *)
Record LearningProposal := {
  pr_proposal_id : uuid;
  pr_lesson : Lesson;
  pr_supporting_observation_ids : list uuid;
  pr_confidence : Q;
  pr_explanation : string;
  pr_status : ProposalStatus.t;
  pr_created_at : datetime;
  pr_corrected_at : option datetime;
  pr_correction_note : option string;
}.
Definition pr_kind (p : LearningProposal) : ProposalKind.t :=
  match pr_lesson p with Procedure _ _ => ProposalKind.PROCEDURE | MemoryUpdate _ _ => ProposalKind.MEMORY_UPDATE end.

Record ProposalCorrection := {
  cr_expected_status : ProposalStatus.t;
  cr_note : string;
  cr_procedure : option (list string);
  cr_content : option string;
}.

Record LearningMetrics := {
  lm_observation_count : Z;
  lm_proposal_count : Z;
  lm_procedure_proposals : Z;
  lm_memory_update_proposals : Z;
  lm_proposed : Z;
  lm_approved : Z;
  lm_corrected : Z;
  lm_deleted : Z;
  lm_mean_confidence : option Q;
}.

(** ** Field constraints *)

Definition texts_valid (l : list string) : bool := forallb non_empty l.
Definition optional_text (o : option string) : bool :=
  match o with Some s => non_empty s | None => true end.
Definition trigger_valid (t : ObservationTrigger) : bool := non_empty (ot_kind t) && non_empty (ot_source t).
Definition activity_valid (a : LearnedActivity) : bool :=
  non_empty (la_title a) && match la_energy_required a with Some n => between 1 5 n | None => true end.
Definition observation_valid (o : LearningObservation) : bool :=
  activity_valid (lo_planned o)
  && match lo_trigger o with Some t => trigger_valid t | None => true end
  && texts_valid (lo_procedure_steps o) && texts_valid (lo_context_tags o)
  && non_empty (lp_source_id (lo_provenance o)).
Definition lesson_valid (l : Lesson) : bool :=
  match l with
  | Procedure t steps => trigger_valid t && texts_valid steps
  | MemoryUpdate _ content => non_empty content
  end.
Definition confidence_valid (c : Q) : bool := Qle_bool 0 c && Qle_bool c 1.
Definition proposal_valid (p : LearningProposal) : bool :=
  lesson_valid (pr_lesson p) && confidence_valid (pr_confidence p) && non_empty (pr_explanation p)
  && optional_text (pr_correction_note p).
Definition correction_valid (c : ProposalCorrection) : bool :=
  non_empty (cr_note c) && match cr_procedure c with Some l => texts_valid l | None => true end
  && optional_text (cr_content c).

Inductive LearningError :=
| ProposalNotFoundError (proposal_id : uuid)
| InvalidProposalTransitionError (proposal_id : uuid) (current requested : ProposalStatus.t)
| StaleProposalStatusError (proposal_id : uuid) (expected current : ProposalStatus.t)
| CorrectionMismatchError (proposal_id : uuid) (kind : ProposalKind.t)
| LearningValidationError          (** pydantic's, on building a model or reading a row *)
| LearningIntegrityError           (** duplicate primary key *)
| LearningLedgerError (e : AuditLedger.AuditError).

(** ** Aggregation *)

Definition MINIMUM_OBSERVATIONS : nat := 3.
Definition FULL_CONFIDENCE_OBSERVATIONS : Z := 5.
Definition MINIMUM_PROPOSAL_CONFIDENCE : Q := Eval vm_compute in fl (6 # 10).

(** [defaultdict(list)] filled by [grouped[key].append(item)]. *)
Definition group_add {K X : Type} `{EqDecision K} (k : K) (x : X) (d : list (K * list X)) : list (K * list X) :=
  dict_set k (default [] (dict_get k d) ++ [x]) d.
Definition group_by {K X : Type} `{EqDecision K} (key : X → option K) (l : list X) : list (K * list X) :=
  foldl (λ d x, match key x with Some k => group_add k x d | None => d end) [] l.

Definition count_eq {X : Type} `{EqDecision X} (x : X) (l : list X) : nat :=
  length (List.filter (λ y, bool_decide (y = x)) l).

(** [counts[value] += 1], then the first key with the highest count. *)
Definition counts {X : Type} `{EqDecision X} (values : list X) : list (X * nat) :=
  foldl (λ d v, dict_set v (S (default 0%nat (dict_get v d))) d) [] values.
Definition first_max {X : Type} (l : list (X * nat)) : option (X * nat) :=
  foldl (λ best e, match best with
                   | None => Some e
                   | Some b => if (b.2 <? e.2)%nat then Some e else best
                   end) None l.
Definition _most_common {X : Type} `{EqDecision X} (values : list X) : option X :=
  fst <$> first_max (counts values).

(** [sorted({...})] of texts *)
Definition sorted_set (l : list string) : list string := py_sorted String.ltb (dict_of ((λ s, (s, tt)) <$> l)).*1.

Definition samples_factor (n : nat) : Q :=
  fmin 1 (fdiv (inject_Z (Z.of_nat n)) (inject_Z FULL_CONFIDENCE_OBSERVATIONS)).
Definition agreement (agreeing n : nat) : Q := fdiv (inject_Z (Z.of_nat agreeing)) (inject_Z (Z.of_nat n)).

Section learner.
Context (uuid5 : string → uuid).
Open Scope py_scope.

Definition _proposal_id (parts : list string) : uuid := uuid5 (join unit_separator parts).

Definition built_proposal (p : LearningProposal) : result LearningError LearningProposal :=
  if proposal_valid p then Ok p else Err LearningValidationError.

(** The proposals of the groups, in order, [None] where a group is passed over. *)
Fixpoint proposals_of {G : Type} (f : G → option LearningProposal) (groups : list G) :
    result LearningError (list LearningProposal) :=
  match groups with
  | [] => Ok []
  | g :: rest =>
      match f g with
      | None => proposals_of f rest
      | Some p => let* p' := built_proposal p in
                  let* l := proposals_of f rest in Ok (p' :: l)
      end
  end.

Definition sources_text (samples : list LearningObservation) : string :=
  join ", " (sorted_set ((λ o, LearningSource.value (lp_source (lo_provenance o))) <$> samples)).
Definition supporting (samples : list LearningObservation) : list uuid :=
  py_sorted Z.ltb (lo_observation_id <$> samples).

Definition procedure_key (o : LearningObservation) : option ObservationTrigger :=
  if bool_decide (lo_outcome o = ActualOutcome.COMPLETED) && negb (bool_decide (lo_procedure_steps o = []))
  then lo_trigger o else None.

Definition procedure_proposal (learned_at : datetime)
    (g : ObservationTrigger * list LearningObservation) : option LearningProposal :=
  let '(trigger, samples) := g in
  let n := length samples in
  if (n <? MINIMUM_OBSERVATIONS)%nat then None
  else
    let taken := lo_procedure_steps <$> samples in
    match _most_common taken with
    | None => None
    | Some steps =>
        let confidence := round6 (fmul (agreement (count_eq steps taken) n) (samples_factor n)) in
        if flt confidence MINIMUM_PROPOSAL_CONFIDENCE then None
        else Some {|
          pr_proposal_id := _proposal_id ["procedure"; ot_kind trigger; ot_source trigger];
          pr_lesson := Procedure trigger steps;
          pr_supporting_observation_ids := supporting samples;
          pr_confidence := confidence;
          pr_explanation := pretty n +:+ " completed " +:+ ot_kind trigger +:+ " observations from "
            +:+ sources_text samples +:+ " followed the same " +:+ pretty (length steps) +:+ "-step procedure";
          pr_status := ProposalStatus.PROPOSED; pr_created_at := learned_at;
          pr_corrected_at := None; pr_correction_note := None |}
    end.

Definition _learn_procedure_proposals (observations : list LearningObservation) (learned_at : datetime) :
    result LearningError (list LearningProposal) :=
  proposals_of (procedure_proposal learned_at) (group_by procedure_key observations).

Definition memory_key (o : LearningObservation) : option (ActualOutcome.t * list string) :=
  if bool_decide (lo_outcome o = ActualOutcome.COMPLETED) then None
  else Some (lo_outcome o, lo_context_tags o).

Definition memory_content (title : string) (outcome : ActualOutcome.t) (context_tags : list string) : string :=
  let context := join ", " context_tags in
  if String.eqb context "" then title +:+ " is usually " +:+ ActualOutcome.value outcome
  else title +:+ " is usually " +:+ ActualOutcome.value outcome +:+ " after " +:+ context.

Definition memory_proposal (learned_at : datetime)
    (g : (ActualOutcome.t * list string) * list LearningObservation) : option LearningProposal :=
  let '((outcome, context_tags), samples) := g in
  let n := length samples in
  if (n <? MINIMUM_OBSERVATIONS)%nat then None
  else
    let confidence := round6 (samples_factor n) in
    if flt confidence MINIMUM_PROPOSAL_CONFIDENCE then None
    else
      match _most_common ((λ o, la_title (lo_planned o)) <$> samples) with
      | None => None
      | Some title => Some {|
          pr_proposal_id := _proposal_id ("memory_update" :: ActualOutcome.value outcome :: context_tags);
          pr_lesson := MemoryUpdate MemoryCategory.OBSERVATION (memory_content title outcome context_tags);
          pr_supporting_observation_ids := supporting samples;
          pr_confidence := confidence;
          pr_explanation := pretty n +:+ " " +:+ ActualOutcome.value outcome +:+ " observations from "
            +:+ sources_text samples +:+ " share the same outcome";
          pr_status := ProposalStatus.PROPOSED; pr_created_at := learned_at;
          pr_corrected_at := None; pr_correction_note := None |}
      end.

Definition _learn_memory_update_proposals (observations : list LearningObservation) (learned_at : datetime) :
    result LearningError (list LearningProposal) :=
  proposals_of (memory_proposal learned_at) (group_by memory_key observations).

Definition learn_proposals (observations : list LearningObservation) (learned_at : datetime) :
    result LearningError (list LearningProposal) :=
  let* procedures := _learn_procedure_proposals observations learned_at in
  let* memory_updates := _learn_memory_update_proposals observations learned_at in
  Ok (procedures ++ memory_updates).
End learner.

(** ** Lifecycle of one proposal *)

Definition require_status (current : LearningProposal) (expected requested : ProposalStatus.t) :
    result LearningError unit :=
  raise_if (negb (bool_decide (pr_status current = expected)))
    (InvalidProposalTransitionError (pr_proposal_id current) (pr_status current) requested).

Definition require_expected_status (current : LearningProposal) (expected : ProposalStatus.t) :
    result LearningError unit :=
  raise_if (negb (bool_decide (expected = pr_status current)))
    (StaleProposalStatusError (pr_proposal_id current) expected (pr_status current)).

(** [current.model_copy(update=...)] of a correction. *)
Definition corrected_copy (p : LearningProposal) (l : Lesson) (occurred_at : datetime) (note : string) :
    LearningProposal :=
  {| pr_proposal_id := pr_proposal_id p; pr_lesson := l;
     pr_supporting_observation_ids := pr_supporting_observation_ids p;
     pr_confidence := pr_confidence p; pr_explanation := pr_explanation p;
     pr_status := ProposalStatus.CORRECTED; pr_created_at := pr_created_at p;
     pr_corrected_at := Some occurred_at; pr_correction_note := Some note |}.

Definition with_status (p : LearningProposal) (s : ProposalStatus.t) : LearningProposal :=
  {| pr_proposal_id := pr_proposal_id p; pr_lesson := pr_lesson p;
     pr_supporting_observation_ids := pr_supporting_observation_ids p;
     pr_confidence := pr_confidence p; pr_explanation := pr_explanation p; pr_status := s;
     pr_created_at := pr_created_at p; pr_corrected_at := pr_corrected_at p;
     pr_correction_note := pr_correction_note p |}.

Definition apply_correction (current : LearningProposal) (c : ProposalCorrection) (occurred_at : datetime) :
    result LearningError LearningProposal :=
  match pr_lesson current with
  | Procedure trigger _ =>
      match cr_procedure c with
      | None => Err (CorrectionMismatchError (pr_proposal_id current) ProposalKind.PROCEDURE)
      | Some steps => Ok (corrected_copy current (Procedure trigger steps) occurred_at (cr_note c))
      end
  | MemoryUpdate category _ =>
      match cr_content c with
      | None => Err (CorrectionMismatchError (pr_proposal_id current) ProposalKind.MEMORY_UPDATE)
      | Some content => Ok (corrected_copy current (MemoryUpdate category content) occurred_at (cr_note c))
      end
  end.
