(* ===== verification/LearningSpec.v ===== *)
(** * What the learner proposes

    Groups of observations, the first most frequent value, and the confidence of
    a proposal in doubles; together they say exactly which lessons are proposed. *)

From stdpp Require Import prelude base strings list gmap pretty.
From Stdlib Require Import ZArith QArith Lia Lqa.
From S2P Require Import Prelude PyTime PyText PyUuid PyFloat Knowledge Memory Learning.
#[local] Open Scope list_scope.
#[local] Open Scope Z_scope.

(** ** Groups *)

Section groups.
Context {K X : Type} `{EqDecision K} (key : X → option K).

Definition of_group (k : K) (l : list X) : list X := List.filter (λ x, bool_decide (key x = Some k)) l.

Lemma of_group_elem k l x : x ∈ of_group k l ↔ x ∈ l ∧ key x = Some k.
Proof. unfold of_group. rewrite !list_elem_of_In, filter_In. by rewrite bool_decide_eq_true. Qed.

Lemma group_by_spec l :
  NoDup (group_by key l).*1
  ∧ ∀ k, dict_get k (group_by key l) = match of_group k l with [] => None | g => Some g end.
Proof.
  unfold group_by. induction l as [|x l IH] using rev_ind; [by split; [constructor|]|].
  rewrite foldl_app. simpl. destruct IH as [Hnd Hget]. unfold of_group in *.
  setoid_rewrite List.filter_app. simpl. destruct (key x) as [k'|] eqn:Hx.
  - split; [by apply dict_set_nodup|]. intros k. unfold group_add. rewrite dict_get_set, !Hget.
    case_bool_decide as Hk; case_bool_decide as Hk'; try congruence.
    + injection Hk' as ->. by destruct (List.filter _ l).
    + by rewrite app_nil_r.
  - split; [done|]. intros k. rewrite Hget. by rewrite bool_decide_eq_false_2, app_nil_r.
Qed.

Lemma group_by_elem l k g : (k, g) ∈ group_by key l ↔ g = of_group k l ∧ g ≠ [].
Proof.
  destruct (group_by_spec l) as [Hnd Hget]. rewrite <- (dict_get_elem k g) by done. rewrite Hget.
  destruct (of_group k l); naive_solver.
Qed.
End groups.

(** ** The most common value *)

Section common.
Context {X : Type} `{EqDecision X}.

Lemma count_eq_snoc (x y : X) l : count_eq x (l ++ [y]) = (count_eq x l + if bool_decide (y = x) then 1 else 0)%nat.
Proof. unfold count_eq. rewrite List.filter_app, length_app. simpl. by case_bool_decide. Qed.

Lemma count_eq_pos (x : X) l : (0 < count_eq x l)%nat ↔ x ∈ l.
Proof.
  unfold count_eq. split.
  - intros Hl. destruct (List.filter _ l) as [|y r] eqn:Hf; [simpl in Hl; lia|].
    assert (In y (List.filter (λ y, bool_decide (y = x)) l)) as Hin by (rewrite Hf; by left).
    apply filter_In in Hin as [Hin ->%bool_decide_eq_true]. by apply list_elem_of_In.
  - intros Hx%list_elem_of_In. assert (In x (List.filter (λ y, bool_decide (y = x)) l)) as Hin
      by (apply filter_In; by rewrite bool_decide_eq_true_2).
    destruct (List.filter _ l); [done|simpl; lia].
Qed.

Lemma counts_spec (l : list X) v :
  dict_get v (counts l) = if bool_decide (v ∈ l) then Some (count_eq v l) else None.
Proof.
  unfold counts. induction l as [|x l IH] using rev_ind; [done|].
  rewrite foldl_app. simpl. rewrite dict_get_set, count_eq_snoc. revert IH. set (d := foldl _ _ _). intros IH.
  pose proof (count_eq_pos v l). destruct (decide (v = x)) as [->|Hne].
  - rewrite (bool_decide_eq_true_2 (x = x)), (bool_decide_eq_true_2 (x ∈ l ++ [x])) by (set_solver || done).
    rewrite IH. case_bool_decide as Hin; simpl; f_equal; [lia|].
    destruct (count_eq x l) eqn:Hc; [done|]. exfalso. apply Hin, count_eq_pos. lia.
  - rewrite !(bool_decide_eq_false_2 (x = v)), IH by congruence.
    rewrite Nat.add_0_r. rewrite (bool_decide_ext (v ∈ l ++ [x]) (v ∈ l)); [done|set_solver].
Qed.

Lemma counts_nodup (l : list X) : NoDup (counts l).*1.
Proof.
  unfold counts. induction l as [|x l IH] using rev_ind; [constructor|]. rewrite foldl_app. simpl.
  by apply dict_set_nodup.
Qed.

Lemma first_max_spec (l : list (X * nat)) :
  match first_max l with
  | None => l = []
  | Some b => b ∈ l ∧ ∀ e, e ∈ l → (e.2 <= b.2)%nat
  end.
Proof.
  unfold first_max. induction l as [|x l IH] using rev_ind; [done|]. rewrite foldl_app. simpl.
  revert IH. destruct (foldl _ None l) as [b|]; intros IH.
  - destruct IH as [Hin Hmax]. destruct (Nat.ltb_spec b.2 x.2) as [Hlt|Hle].
    + split; [set_solver|]. intros e [He|He%list_elem_of_singleton]%elem_of_app; [|by subst].
      apply Hmax in He. lia.
    + split; [set_solver|]. intros e [He|He%list_elem_of_singleton]%elem_of_app; [by apply Hmax|by subst].
  - subst l. split; [set_solver|]. intros e He%list_elem_of_singleton. by subst.
Qed.

Lemma most_common_spec (l : list X) :
  l ≠ [] → ∃ x, _most_common l = Some x ∧ x ∈ l ∧ ∀ y, (count_eq y l <= count_eq x l)%nat.
Proof.
  intros Hl. unfold _most_common. pose proof (first_max_spec (counts l)) as Hm.
  assert (∀ v, v ∈ l → (v, count_eq v l) ∈ counts l) as Hall.
  { intros v Hv. apply dict_get_elem; [apply counts_nodup|]. by rewrite counts_spec, bool_decide_eq_true_2. }
  destruct (first_max (counts l)) as [[x n]|].
  - destruct Hm as [Hin Hmax]. apply (dict_get_elem x n) in Hin; [|apply counts_nodup].
    rewrite counts_spec in Hin. case_bool_decide as Hx; [|done]. injection Hin as <-.
    exists x. split_and!; [done|done|]. intros y. destruct (decide (y ∈ l)) as [Hy|Hy].
    + by apply (Hmax (y, count_eq y l)), Hall.
    + destruct (count_eq y l) eqn:Hc; [lia|]. exfalso. apply Hy, count_eq_pos. lia.
  - destruct l as [|v l]; [done|]. specialize (Hall v ltac:(set_solver)). rewrite Hm in Hall. by apply elem_of_nil in Hall.
Qed.
End common.

(** ** Confidence *)

Lemma factor_full n : (5 <= n)%nat → samples_factor n = 1%Q.
Proof.
  intros Hn. unfold samples_factor, fmin. replace (Qle_bool _ _) with true; [done|]. symmetry.
  apply Qle_bool_spec. change 1%Q with (inject_Z 1). rewrite <- (fl_int 1) at 1 by done. apply fl_mono; [done|].
  unfold FULL_CONFIDENCE_OBSERVATIONS, Qle. simpl. lia.
Qed.

Lemma factor_bounds n : (0 <= samples_factor n <= 1)%Q.
Proof.
  unfold samples_factor, fmin. destruct (Qle_bool 1 _) eqn:Hb; [done|]. split.
  - apply fl_nonneg. unfold FULL_CONFIDENCE_OBSERVATIONS, Qle. simpl. lia.
  - rewrite <- not_true_iff_false, Qle_bool_spec in Hb. lra.
Qed.

Lemma agreement_mono k n q : (inject_Z (Z.of_nat k) <= q * inject_Z (Z.of_nat n))%Q → (0 < n)%nat → (agreement k n <= fl q)%Q.
Proof.
  intros Hk Hn. apply fl_mono.
  - apply Qle_shift_div_l; unfold Qle, Qlt; simpl; lia.
  - apply Qle_shift_div_r; [unfold Qlt; simpl; lia|done].
Qed.

Lemma agreement_ge k n q : (0 <= q)%Q → (q * inject_Z (Z.of_nat n) <= inject_Z (Z.of_nat k))%Q → (0 < n)%nat →
  (fl q <= agreement k n)%Q.
Proof. intros Hq Hk Hn. apply fl_mono; [done|]. apply Qle_shift_div_l; [unfold Qlt; simpl; lia|done]. Qed.

Definition procedure_confidence (k n : nat) : Q := round6 (fmul (agreement k n) (samples_factor n)).

Lemma procedure_confidence_valid k n : (k <= n)%nat → (0 < n)%nat → confidence_valid (procedure_confidence k n) = true.
Proof.
  intros Hk Hn. destruct (factor_bounds n) as [H0 H1].
  assert (0 <= agreement k n)%Q as Ha.
  { apply fl_nonneg, Qle_shift_div_l; unfold Qle, Qlt; simpl; lia. }
  assert (agreement k n <= fl 1)%Q as Hb by (apply agreement_mono; [unfold Qle; simpl; lia|done]).
  unfold confidence_valid, procedure_confidence. apply andb_true_iff. rewrite !Qle_bool_spec. split.
  - apply round6_nonneg, fl_nonneg. nra.
  - apply (Qle_trans _ (round6 (fmul (fl 1) 1))); [|by vm_compute].
    apply round6_mono; [apply fl_nonneg; nra|]. by apply fmul_mono.
Qed.

Lemma memory_confidence_valid n : confidence_valid (round6 (samples_factor n)) = true.
Proof.
  destruct (factor_bounds n) as [H0 H1]. apply andb_true_iff. rewrite !Qle_bool_spec.
  split; [by apply round6_nonneg|]. apply (Qle_trans _ (round6 1)); [by apply round6_mono|by vm_compute].
Qed.

(** Three samples are enough for a memory update. *)
Lemma memory_confident n : (3 <= n)%nat → flt (round6 (samples_factor n)) MINIMUM_PROPOSAL_CONFIDENCE = false.
Proof.
  intros Hn. destruct (decide (5 <= n)%nat) as [H5|H5]; [by rewrite factor_full|].
  assert (n = 3 ∨ n = 4)%nat as [->| ->] by lia; by vm_compute.
Qed.

(** Up to five samples, by computation. *)
Lemma small_confident k n : (3 <= n <= 5)%nat → (k <= 5)%nat →
  flt (procedure_confidence k n) MINIMUM_PROPOSAL_CONFIDENCE = negb (3 <=? k)%nat.
Proof.
  intros Hn Hk.
  assert (forallb (λ n, forallb (λ k, Bool.eqb (flt (procedure_confidence k n) MINIMUM_PROPOSAL_CONFIDENCE)
    (negb (3 <=? k)%nat)) (seq 0 6)) (seq 3 3) = true) as Hall by (vm_compute; reflexivity).
  rewrite forallb_forall in Hall. specialize (Hall n). rewrite in_seq in Hall. specialize (Hall ltac:(lia)).
  rewrite forallb_forall in Hall. specialize (Hall k). rewrite in_seq in Hall. by apply eqb_prop, Hall; lia.
Qed.

(** A procedure needs three samples that agree, and three in five. *)
Lemma procedure_confident k n :
  (3 <= n)%nat → (k <= n)%nat → Z.of_nat n <= 300000 →
  flt (procedure_confidence k n) MINIMUM_PROPOSAL_CONFIDENCE = false ↔ (3 <= k)%nat ∧ (3 * n <= 5 * k)%nat.
Proof.
  intros Hn Hk Hmax. destruct (decide (n <= 5)%nat) as [Hs|Hs].
  { rewrite small_confident by lia. destruct (Nat.leb_spec 3 k); simpl; split; intros; lia || done. }
  unfold procedure_confidence. rewrite factor_full by lia.
  assert (0 <= agreement k n)%Q as Ha by (apply fl_nonneg, Qle_shift_div_l; unfold Qle, Qlt; simpl; lia).
  rewrite <- not_true_iff_false, flt_spec. split.
  - intros Hc. destruct (decide (3 * n <= 5 * k)%nat) as [|Hlt]; [lia|exfalso]. apply Hc.
    apply (Qle_lt_trans _ (round6 (fmul (fl (899999 # 1500000)) 1))); [|by vm_compute].
    apply round6_mono; [apply fl_nonneg; lra|]. apply fmul_mono; [done| |done|done].
    apply agreement_mono; [unfold Qle; simpl; lia|lia].
  - intros [_ H5] Hc. apply (Qlt_not_le _ _ Hc).
    apply (Qle_trans _ (round6 (fmul (fl (3 # 5)) 1))); [by vm_compute|].
    apply round6_mono; [by vm_compute|]. apply fmul_mono; [by vm_compute| |done|done].
    apply agreement_ge; [done|unfold Qle; simpl; lia|lia].
Qed.

(** ** Lessons *)

Section lessons.
Context (uuid5 : string → uuid).
Abbreviation learn_proposals := (learn_proposals uuid5).

Definition procedure_samples (t : ObservationTrigger) (obs : list LearningObservation) : list LearningObservation :=
  of_group procedure_key t obs.
Definition memory_samples (o : ActualOutcome.t) (tags : list string) (obs : list LearningObservation) :
    list LearningObservation :=
  of_group memory_key (o, tags) obs.
Definition followers (steps : list string) (samples : list LearningObservation) : nat :=
  count_eq steps (lo_procedure_steps <$> samples).

(** A procedure that three of the completed activities of its trigger followed, and
    three in five of them. *)
Record procedure_lesson (obs : list LearningObservation) (p : LearningProposal) (t : ObservationTrigger)
    (steps : list string) : Prop := {
  pl_lesson : pr_lesson p = Procedure t steps;
  pl_evidence : pr_supporting_observation_ids p = supporting (procedure_samples t obs);
  pl_three : (3 <= followers steps (procedure_samples t obs))%nat;
  pl_share : (3 * length (procedure_samples t obs) <= 5 * followers steps (procedure_samples t obs))%nat;
}.

(** An outcome that at least three activities of the same context had. *)
Record memory_lesson (obs : list LearningObservation) (p : LearningProposal) (o : ActualOutcome.t)
    (tags : list string) (title : string) : Prop := {
  ml_lesson : pr_lesson p = MemoryUpdate MemoryCategory.OBSERVATION (memory_content title o tags);
  ml_evidence : pr_supporting_observation_ids p = supporting (memory_samples o tags obs);
  ml_title : title ∈ (λ x, la_title (lo_planned x)) <$> memory_samples o tags obs;
  ml_three : (3 <= length (memory_samples o tags obs))%nat;
}.

Lemma proposals_of_ok {G} (f : G → option LearningProposal) groups :
  (∀ g p, g ∈ groups → f g = Some p → proposal_valid p = true) → proposals_of f groups = Ok (omap f groups).
Proof.
  induction groups as [|g rest IH]; intros Hv; [done|]. simpl. rewrite IH by (intros; eapply Hv; [by right|done]).
  destruct (f g) as [p|] eqn:Hf; [|done]. unfold built_proposal. by rewrite (Hv g p) by (done || left).
Qed.

Lemma non_empty_app a b : non_empty b = true → non_empty (a +:+ b)%string = true.
Proof. by destruct a. Qed.

Lemma valid_sample {K} `{EqDecision K} (key : LearningObservation → option K) k obs o :
  Forall (λ o, observation_valid o = true) obs → o ∈ of_group key k obs → observation_valid o = true ∧ key o = Some k.
Proof. intros Hv [Hin Hk]%of_group_elem. rewrite Forall_forall in Hv. auto. Qed.

Lemma count_eq_le {X} `{EqDecision X} (x : X) l : (count_eq x l <= length l)%nat.
Proof. unfold count_eq. apply filter_length_le. Qed.

Lemma of_group_length {K X} `{EqDecision K} (key : X → option K) k l : (length (of_group key k l) <= length l)%nat.
Proof. apply filter_length_le. Qed.

(** What one group of completed activities yields. *)
Lemma procedure_proposal_spec obs t at_ :
  Forall (λ o, observation_valid o = true) obs → Z.of_nat (length obs) <= 300000 →
  procedure_samples t obs ≠ [] →
  match procedure_proposal uuid5 at_ (t, procedure_samples t obs) with
  | Some p => (∃ steps, procedure_lesson obs p t steps) ∧ proposal_valid p = true ∧ pr_status p = ProposalStatus.PROPOSED
  | None => ∀ steps, (3 <= followers steps (procedure_samples t obs))%nat →
              (5 * followers steps (procedure_samples t obs) < 3 * length (procedure_samples t obs))%nat
  end.
Proof.
  intros Hv Hmax Hne. unfold procedure_proposal. set (samples := procedure_samples t obs) in *.
  assert (∀ steps, (followers steps samples <= length samples)%nat) as Hle.
  { intros steps. rewrite <- (length_fmap lo_procedure_steps samples). apply count_eq_le. }
  destruct (Nat.ltb_spec (length samples) MINIMUM_OBSERVATIONS) as [Hlt|Hge]; unfold MINIMUM_OBSERVATIONS in *.
  { intros steps. specialize (Hle steps). lia. }
  destruct (most_common_spec (lo_procedure_steps <$> samples)) as (steps & -> & Hin & Hbest).
  { by destruct samples. }
  assert (Z.of_nat (length samples) <= 300000) as Hn.
  { pose proof (of_group_length procedure_key t obs : length samples <= length obs)%nat. lia. }
  pose proof (procedure_confident (followers steps samples) (length samples) Hge (Hle steps) Hn) as Hconf.
  unfold procedure_confidence in Hconf. fold (followers steps samples).
  destruct (flt _ _) eqn:Hflt.
  - intros steps' H3. specialize (Hbest steps'). fold (followers steps' samples) (followers steps samples) in Hbest.
    destruct Hconf as [_ Hconf]. destruct (decide (3 * length samples <= 5 * followers steps samples)%nat); [|lia].
    exfalso. assert (true = false); [|done]. apply Hconf. lia.
  - destruct Hconf as [Hconf _]. destruct (Hconf eq_refl) as [H3 H5]. split_and!; [by exists steps| |done].
    apply list_elem_of_fmap in Hin as (o & -> & Ho). apply valid_sample in Ho as [Hvo Hko]; [|done].
    unfold procedure_key in Hko. destruct (bool_decide _ && _); [|done].
    unfold observation_valid in Hvo. rewrite Hko in Hvo. bool_to_prop.
    unfold proposal_valid, lesson_valid. cbn [pr_lesson pr_confidence pr_explanation pr_correction_note].
    rewrite !andb_true_iff. split_and!; try done.
    + apply procedure_confidence_valid; [apply Hle|lia].
    + by do 7 apply non_empty_app.
Qed.

Lemma memory_proposal_spec obs o tags at_ :
  Forall (λ o, observation_valid o = true) obs →
  memory_samples o tags obs ≠ [] →
  match memory_proposal uuid5 at_ ((o, tags), memory_samples o tags obs) with
  | Some p => (∃ title, memory_lesson obs p o tags title) ∧ proposal_valid p = true ∧ pr_status p = ProposalStatus.PROPOSED
  | None => (length (memory_samples o tags obs) < 3)%nat
  end.
Proof.
  intros Hv Hne. unfold memory_proposal. set (samples := memory_samples o tags obs) in *.
  destruct (Nat.ltb_spec (length samples) MINIMUM_OBSERVATIONS) as [Hlt|Hge]; unfold MINIMUM_OBSERVATIONS in *; [done|].
  rewrite memory_confident by done.
  destruct (most_common_spec ((λ o, la_title (lo_planned o)) <$> samples)) as (title & -> & Hin & _).
  { by destruct samples. }
  split_and!; [by exists title| |done]. apply list_elem_of_fmap in Hin as (x & -> & Hx).
  apply valid_sample in Hx as [Hvx _]; [|done]. unfold observation_valid, activity_valid in Hvx. bool_to_prop.
  unfold proposal_valid, lesson_valid. cbn [pr_lesson pr_confidence pr_explanation pr_correction_note].
  rewrite !andb_true_iff. split_and!; [|apply memory_confidence_valid|by do 5 apply non_empty_app|done].
  unfold memory_content. destruct (String.eqb _ _); by apply non_empty_app.
Qed.

Lemma group_by_of_group {K X} `{EqDecision K} (key : X → option K) k l :
  of_group key k l ≠ [] → (k, of_group key k l) ∈ group_by key l.
Proof. intros Hne. by apply group_by_elem. Qed.

Lemma share_nonempty steps samples : (3 <= followers steps samples)%nat → samples ≠ [].
Proof. intros H3 ->. unfold followers, count_eq in H3. simpl in H3. lia. Qed.

Lemma procedures_learned obs at_ :
  Forall (λ o, observation_valid o = true) obs → Z.of_nat (length obs) <= 300000 →
  ∃ l, _learn_procedure_proposals uuid5 obs at_ = Ok l
    ∧ (∀ p, p ∈ l → pr_status p = ProposalStatus.PROPOSED ∧ ∃ t steps, procedure_lesson obs p t steps)
    ∧ (∀ t steps, (3 <= followers steps (procedure_samples t obs))%nat →
         (3 * length (procedure_samples t obs) <= 5 * followers steps (procedure_samples t obs))%nat →
         ∃ p steps', p ∈ l ∧ procedure_lesson obs p t steps').
Proof.
  intros Hv Hmax. eexists. split_and!.
  - apply proposals_of_ok. intros [t samples] p [-> Hne]%group_by_elem Hp.
    pose proof (procedure_proposal_spec obs t at_ Hv Hmax Hne) as Hspec. unfold procedure_samples in Hspec.
    rewrite Hp in Hspec. by destruct Hspec as (_ & ? & _).
  - intros p ([t samples] & [-> Hne]%group_by_elem & Hp)%list_elem_of_omap.
    pose proof (procedure_proposal_spec obs t at_ Hv Hmax Hne) as Hspec. unfold procedure_samples in Hspec.
    rewrite Hp in Hspec. destruct Hspec as ([steps Hl] & _ & Hst). eauto.
  - intros t steps H3 H5. pose proof (share_nonempty _ _ H3) as Hne.
    pose proof (procedure_proposal_spec obs t at_ Hv Hmax Hne) as Hspec.
    destruct (procedure_proposal uuid5 at_ (t, procedure_samples t obs)) as [p|] eqn:Hp.
    + destruct Hspec as ([steps' Hl] & _). exists p, steps'. split; [|done]. apply list_elem_of_omap.
      exists (t, procedure_samples t obs). split; [|done]. by apply group_by_of_group.
    + specialize (Hspec steps H3). lia.
Qed.

Lemma memories_learned obs at_ :
  Forall (λ o, observation_valid o = true) obs →
  ∃ l, _learn_memory_update_proposals uuid5 obs at_ = Ok l
    ∧ (∀ p, p ∈ l → pr_status p = ProposalStatus.PROPOSED ∧ ∃ o tags title, memory_lesson obs p o tags title)
    ∧ (∀ o tags, (3 <= length (memory_samples o tags obs))%nat → ∃ p title, p ∈ l ∧ memory_lesson obs p o tags title).
Proof.
  intros Hv. eexists. split_and!.
  - apply proposals_of_ok. intros [[o tags] samples] p [-> Hne]%group_by_elem Hp.
    pose proof (memory_proposal_spec obs o tags at_ Hv Hne) as Hspec. unfold memory_samples in Hspec.
    rewrite Hp in Hspec. by destruct Hspec as (_ & ? & _).
  - intros p ([[o tags] samples] & [-> Hne]%group_by_elem & Hp)%list_elem_of_omap.
    pose proof (memory_proposal_spec obs o tags at_ Hv Hne) as Hspec. unfold memory_samples in Hspec.
    rewrite Hp in Hspec. destruct Hspec as ([title Hl] & _ & Hst). eauto 6.
  - intros o tags H3. assert (memory_samples o tags obs ≠ []) as Hne by (intros Hz; rewrite Hz in H3; simpl in H3; lia).
    pose proof (memory_proposal_spec obs o tags at_ Hv Hne) as Hspec.
    destruct (memory_proposal uuid5 at_ (o, tags, memory_samples o tags obs)) as [p|] eqn:Hp; [|lia].
    destruct Hspec as ([title Hl] & _). exists p, title. split; [|done]. apply list_elem_of_omap.
    exists ((o, tags), memory_samples o tags obs). split; [|done]. by apply group_by_of_group.
Qed.

(** Lessons need repeated, agreeing evidence: the learner answers for any valid
    observations, up to the size for which the confidence in doubles is decided;
    every proposal awaits approval and is a procedure that at least three, and three
    in five, of the completed activities of its trigger followed, or an outcome at
    least three activities of one context had, and every such pattern is proposed. *)
Theorem lessons_need_agreement obs at_ :
  Forall (λ o, observation_valid o = true) obs → Z.of_nat (length obs) <= 300000 →
  ∃ l, learn_proposals obs at_ = Ok l
    ∧ (∀ p, p ∈ l → pr_status p = ProposalStatus.PROPOSED
         ∧ ((∃ t steps, procedure_lesson obs p t steps) ∨ ∃ o tags title, memory_lesson obs p o tags title))
    ∧ (∀ t steps, (3 <= followers steps (procedure_samples t obs))%nat →
         (3 * length (procedure_samples t obs) <= 5 * followers steps (procedure_samples t obs))%nat →
         ∃ p steps', p ∈ l ∧ procedure_lesson obs p t steps')
    ∧ (∀ o tags, (3 <= length (memory_samples o tags obs))%nat → ∃ p title, p ∈ l ∧ memory_lesson obs p o tags title).
Proof.
  intros Hv Hmax. destruct (procedures_learned obs at_ Hv Hmax) as (lp & Hp & Hp1 & Hp2).
  destruct (memories_learned obs at_ Hv) as (lm & Hm & Hm1 & Hm2).
  unfold Learning.learn_proposals. rewrite Hp, Hm. simpl. exists (lp ++ lm). split_and!; [done|..].
  - intros p [Hin|Hin]%elem_of_app; [apply Hp1 in Hin|apply Hm1 in Hin]; naive_solver.
  - intros t steps H3 H5. destruct (Hp2 t steps H3 H5) as (p & steps' & Hin & Hl). exists p, steps'. split; [set_solver|done].
  - intros o tags H3. destruct (Hm2 o tags H3) as (p & title & Hin & Hl). exists p, title. split; [set_solver|done].
Qed.
End lessons.
