(* ===== verification/LearningStore.v ===== *)
(** * The learning repository ([learning/repository.py], [learning/audit.py],
      [learning/lifecycle.py], [migrations/004_learning.sql])

    Observations, proposals and the tombstones of deleted proposals, each change
    audited.  Operations run statement by statement on the connection: a change
    opens a transaction, [commit] ends it, and an exception in between leaves it
    open with what was changed.  The clock is read once per operation. *)

From stdpp Require Import prelude base strings list gmap.
From Stdlib Require Import ZArith QArith Lia.
From S2P Require Import Prelude PyTime PyText PyUuid PyFloat Transactions AuditLedger Knowledge Memory Learning.
#[local] Open Scope string_scope.
#[local] Open Scope list_scope.
#[local] Open Scope Z_scope.

Definition plain_observation (o : LearningObservation) : bool :=
  plain_time (la_planned_start (lo_planned o)) && plain_time (la_planned_end (lo_planned o))
  && plain_opt (lo_actual_start o) && plain_opt (lo_actual_end o)
  && plain_time (lp_captured_at (lo_provenance o)) && plain_time (lo_observed_at o)
  && plain_opt (lo_retain_until o).
Definition plain_proposal (p : LearningProposal) : bool :=
  plain_time (pr_created_at p) && plain_opt (pr_corrected_at p).

(** Pydantic's JSON of the models. *)
Class LearningCodec := {
  dump_observation : LearningObservation → string;
  parse_observation : string → option LearningObservation;
  dump_proposal : LearningProposal → string;
  parse_proposal : string → option LearningProposal;
  dump_trigger : ObservationTrigger → string;
}.
Class LearningCodecLaws `{LearningCodec} := {
  parse_dump_observation : ∀ o, plain_observation o = true →
    parse_observation (dump_observation o) = if observation_valid o then Some o else None;
  parse_dump_proposal : ∀ p, plain_proposal p = true →
    parse_proposal (dump_proposal p) = if proposal_valid p then Some p else None;
}.

(** ** Tables *)

Record observation_row := {
  or_retain_until : option string;
  or_content_json : string;
  or_observed_at : string;
}.
Record proposal_row := {
  wr_status : string;
  wr_content_json : string;
  wr_created_at : string;
}.
Record learning_tombstone := {
  lt_removed_at : string;
  lt_reason : string;
  lt_source_fingerprint : string;
  lt_pattern_fingerprint : string;
}.
Record learning_db := {
  ld_observations : gmap uuid observation_row;
  ld_proposals : gmap uuid proposal_row;
  ld_tombstones : gmap uuid learning_tombstone;
  ld_audit : audit_db;
}.
Definition set_observations (db : learning_db) (m : gmap uuid observation_row) : learning_db :=
  {| ld_observations := m; ld_proposals := ld_proposals db; ld_tombstones := ld_tombstones db; ld_audit := ld_audit db |}.
Definition set_proposals (db : learning_db) (m : gmap uuid proposal_row) : learning_db :=
  {| ld_observations := ld_observations db; ld_proposals := m; ld_tombstones := ld_tombstones db; ld_audit := ld_audit db |}.
Definition set_learning_tombstones (db : learning_db) (m : gmap uuid learning_tombstone) : learning_db :=
  {| ld_observations := ld_observations db; ld_proposals := ld_proposals db; ld_tombstones := m; ld_audit := ld_audit db |}.
Definition set_learning_audit (db : learning_db) (a : audit_db) : learning_db :=
  {| ld_observations := ld_observations db; ld_proposals := ld_proposals db; ld_tombstones := ld_tombstones db; ld_audit := a |}.

Section repository.
Context (hmac : string → string → string) (audit_key : string) (uuid5 : string → uuid).
Context `{LearningCodec}.
Abbreviation L A := (comp (connection learning_db) LearningError A).

(** ** [LearningAuditor] *)

Definition learning_fingerprint (payload : string) : string := tohex (hmac audit_key payload).

Definition learning_verify : L unit := query (λ db,
  match verify_ledger hmac audit_key (ld_audit db) with
  | Ok _ => Ok tt
  | Err e => Err (LearningLedgerError e)
  end).

Definition learning_mutation (record_id : uuid) (action fp : string) (ctx : TransitionContext) : AuditMutation :=
  {| am_record_kind := NORMALIZED_FACT; am_record_id := uuid_str record_id;
     am_state := action; am_action_class := "learning." +:+ action; am_source_fingerprint := fp;
     am_actor := tc_actor ctx; am_correlation_id := tc_correlation_id ctx;
     am_occurred_at := tc_occurred_at ctx |}.

Definition learning_append (record_id : uuid) (action fp : string) (ctx : TransitionContext) (db : learning_db) :
    result LearningError learning_db :=
  match append hmac audit_key (learning_mutation record_id action fp ctx) (ld_audit db) with
  | (a, Ok _) => Ok (set_learning_audit db a)
  | (_, Err e) => Err (LearningLedgerError e)
  end.

(** ** [LearningRepository] *)

Definition _pattern (p : LearningProposal) : string :=
  match pr_lesson p with Procedure trigger _ => dump_trigger trigger | MemoryUpdate _ content => content end.

Definition commit_changes : L unit := λ c, (commit c, Ok tt).

Definition observation_row_of (o : LearningObservation) : observation_row :=
  {| or_retain_until := isoformat <$> lo_retain_until o; or_content_json := dump_observation o;
     or_observed_at := isoformat (lo_observed_at o) |}.

Definition insert_observation (o : LearningObservation) (db : learning_db) : result LearningError learning_db :=
  match ld_observations db !! lo_observation_id o with
  | Some _ => Err LearningIntegrityError
  | None => Ok (set_observations db (<[lo_observation_id o := observation_row_of o]> (ld_observations db)))
  end.

Definition record_observation (o : LearningObservation) (ctx : TransitionContext) : L unit :=
  learning_verify ≫= λ _,
  execute_dml (insert_observation o) ≫= λ _,
  execute_dml (learning_append (lo_observation_id o) "observed" (learning_fingerprint (dump_observation o)) ctx) ≫= λ _,
  commit_changes.

Fixpoint parse_all {A : Type} (parse : string → option A) (rows : list string) : result LearningError (list A) :=
  match rows with
  | [] => Ok []
  | row :: rest =>
      match parse row with
      | None => Err LearningValidationError
      | Some a => match parse_all parse rest with Err e => Err e | Ok l => Ok (a :: l) end
      end
  end.

(** [retain_until IS NULL OR retain_until>?], on the texts. *)
Definition row_retained (now : datetime) (row : observation_row) : bool :=
  match or_retain_until row with None => true | Some t => String.ltb (isoformat now) t end.

(** [ORDER BY observed_at, observation_id] *)
Definition observation_before (a b : uuid * observation_row) : bool :=
  String.ltb (or_observed_at a.2) (or_observed_at b.2)
  || (String.eqb (or_observed_at a.2) (or_observed_at b.2) && String.ltb (uuid_str a.1) (uuid_str b.1)).

Definition observations (now : datetime) (db : learning_db) : result LearningError (list LearningObservation) :=
  parse_all parse_observation
    ((λ r, or_content_json r.2) <$>
       py_sorted observation_before
         (List.filter (λ r, row_retained now r.2) (map_to_list (ld_observations db)))).

Definition proposal_row_of (p : LearningProposal) : proposal_row :=
  {| wr_status := ProposalStatus.value (pr_status p); wr_content_json := dump_proposal p;
     wr_created_at := isoformat (pr_created_at p) |}.

Definition _insert (p : LearningProposal) (db : learning_db) : result LearningError learning_db :=
  match ld_proposals db !! pr_proposal_id p with
  | Some _ => Err LearningIntegrityError
  | None => Ok (set_proposals db (<[pr_proposal_id p := proposal_row_of p]> (ld_proposals db)))
  end.

Definition _exists (proposal_id : uuid) (db : learning_db) : bool := has (ld_proposals db !! proposal_id).

Definition _suppressed (p : LearningProposal) (db : learning_db) : bool :=
  existsb (λ t, String.eqb (lt_pattern_fingerprint t.2) (learning_fingerprint (_pattern p)))
    (map_to_list (ld_tombstones db)).

Definition propose_one (ctx : TransitionContext) (p : LearningProposal) : L (list LearningProposal) :=
  query (λ db, Ok (_exists (pr_proposal_id p) db || _suppressed p db)) ≫= λ skip,
  if skip : bool then mret []
  else
    execute_dml (_insert p) ≫= λ _,
    execute_dml (learning_append (pr_proposal_id p) "proposed" (learning_fingerprint (dump_proposal p)) ctx) ≫= λ _,
    mret [p].

Fixpoint propose_all (ctx : TransitionContext) (l : list LearningProposal) : L (list LearningProposal) :=
  match l with
  | [] => mret []
  | p :: rest => propose_one ctx p ≫= λ created, propose_all ctx rest ≫= λ others, mret (created ++ others)
  end.

Definition learn (now : datetime) (ctx : TransitionContext) : L (list LearningProposal) :=
  learning_verify ≫= λ _,
  query (λ db, match observations now db with
               | Err e => Err e
               | Ok obs => learn_proposals uuid5 obs now
               end) ≫= λ found,
  propose_all ctx found ≫= λ created,
  commit_changes ≫= λ _,
  mret created.

(** [ORDER BY created_at, proposal_id] *)
Definition proposal_before (a b : uuid * proposal_row) : bool :=
  String.ltb (wr_created_at a.2) (wr_created_at b.2)
  || (String.eqb (wr_created_at a.2) (wr_created_at b.2) && String.ltb (uuid_str a.1) (uuid_str b.1)).

Definition proposals_where (f : proposal_row → bool) (db : learning_db) : result LearningError (list LearningProposal) :=
  parse_all parse_proposal
    ((λ r, wr_content_json r.2) <$>
       py_sorted proposal_before (List.filter (λ r, f r.2) (map_to_list (ld_proposals db)))).
Definition proposals : learning_db → result LearningError (list LearningProposal) := proposals_where (λ _, true).
Definition route_candidates : learning_db → result LearningError (list LearningProposal) :=
  proposals_where (λ row, String.eqb (wr_status row) (ProposalStatus.value ProposalStatus.APPROVED)).

Definition _read (proposal_id : uuid) (db : learning_db) : result LearningError LearningProposal :=
  match ld_proposals db !! proposal_id with
  | None => Err (ProposalNotFoundError proposal_id)
  | Some row => match parse_proposal (wr_content_json row) with
                | Some p => Ok p
                | None => Err LearningValidationError
                end
  end.

Definition delete_proposal (proposal_id : uuid) (db : learning_db) : result LearningError learning_db :=
  Ok (set_proposals db (delete proposal_id (ld_proposals db))).

Definition _replace (current replacement : LearningProposal) (action : string) (ctx : TransitionContext) : L unit :=
  execute_dml (delete_proposal (pr_proposal_id current)) ≫= λ _,
  execute_dml (_insert replacement) ≫= λ _,
  execute_dml (learning_append (pr_proposal_id current) action (learning_fingerprint (dump_proposal current)) ctx).

Definition settle {A : Type} (r : result LearningError A) : L A := query (λ _, r).

Definition approve_lesson (proposal_id : uuid) (ctx : TransitionContext) : L LearningProposal :=
  learning_verify ≫= λ _,
  query (_read proposal_id) ≫= λ current,
  settle (require_status current ProposalStatus.PROPOSED ProposalStatus.APPROVED) ≫= λ _,
  let approved := with_status current ProposalStatus.APPROVED in
  _replace current approved "approved" ctx ≫= λ _,
  commit_changes ≫= λ _,
  mret approved.

Definition correct_lesson (proposal_id : uuid) (correction : ProposalCorrection) (ctx : TransitionContext) :
    L LearningProposal :=
  learning_verify ≫= λ _,
  query (_read proposal_id) ≫= λ current,
  settle (require_expected_status current (cr_expected_status correction)) ≫= λ _,
  settle (apply_correction current correction (tc_occurred_at ctx)) ≫= λ corrected,
  _replace current corrected "corrected" ctx ≫= λ _,
  commit_changes ≫= λ _,
  mret corrected.

Definition insert_learning_tombstone (proposal_id : uuid) (t : learning_tombstone) (db : learning_db) :
    result LearningError learning_db :=
  match ld_tombstones db !! proposal_id with
  | Some _ => Err LearningIntegrityError
  | None => Ok (set_learning_tombstones db (<[proposal_id := t]> (ld_tombstones db)))
  end.

Definition delete_lesson (proposal_id : uuid) (expected_status : ProposalStatus.t) (ctx : TransitionContext) : L unit :=
  learning_verify ≫= λ _,
  query (_read proposal_id) ≫= λ current,
  settle (require_expected_status current expected_status) ≫= λ _,
  let fp := learning_fingerprint (dump_proposal current) in
  execute_dml (delete_proposal proposal_id) ≫= λ _,
  execute_dml (insert_learning_tombstone proposal_id
    {| lt_removed_at := isoformat (tc_occurred_at ctx); lt_reason := "user_deletion";
       lt_source_fingerprint := fp; lt_pattern_fingerprint := learning_fingerprint (_pattern current) |}) ≫= λ _,
  execute_dml (learning_append proposal_id "deleted" fp ctx) ≫= λ _,
  commit_changes.

(** [retain_until IS NOT NULL AND retain_until<=?] *)
Definition row_expired (now : datetime) (row : observation_row) : bool :=
  match or_retain_until row with None => false | Some t => String.leb t (isoformat now) end.

Definition delete_observation (observation_id : uuid) (db : learning_db) : result LearningError learning_db :=
  Ok (set_observations db (delete observation_id (ld_observations db))).

Definition expire_one (ctx : TransitionContext) (o : LearningObservation) : L unit :=
  execute_dml (delete_observation (lo_observation_id o)) ≫= λ _,
  execute_dml (learning_append (lo_observation_id o) "retention_expired"
    (learning_fingerprint (dump_observation o)) ctx).

Definition expired (now : datetime) (db : learning_db) : result LearningError (list LearningObservation) :=
  parse_all parse_observation
    ((λ r, or_content_json r.2) <$> List.filter (λ r, row_expired now r.2) (map_to_list (ld_observations db))).

Definition purge_expired (now : datetime) (ctx : TransitionContext) : L Z :=
  learning_verify ≫= λ _,
  query (expired now) ≫= λ gone,
  for_each (expire_one ctx) gone ≫= λ _,
  commit_changes ≫= λ _,
  mret (Z.of_nat (length gone)).

Definition count_status (s : ProposalStatus.t) (l : list LearningProposal) : Z :=
  Z.of_nat (length (List.filter (λ p, bool_decide (pr_status p = s)) l)).

Definition metrics (db : learning_db) : result LearningError LearningMetrics :=
  match proposals db with
  | Err e => Err e
  | Ok l =>
      let n := Z.of_nat (length l) in
      let procedures := Z.of_nat (length (List.filter (λ p, bool_decide (pr_kind p = ProposalKind.PROCEDURE)) l)) in
      let m := {| lm_observation_count := Z.of_nat (size (ld_observations db));
                  lm_proposal_count := n; lm_procedure_proposals := procedures;
                  lm_memory_update_proposals := n - procedures;
                  lm_proposed := count_status ProposalStatus.PROPOSED l;
                  lm_approved := count_status ProposalStatus.APPROVED l;
                  lm_corrected := count_status ProposalStatus.CORRECTED l;
                  lm_deleted := Z.of_nat (size (ld_tombstones db));
                  lm_mean_confidence :=
                    match l with
                    | [] => None
                    | _ => Some (round6 (fdiv (float_sum (pr_confidence <$> l)) (inject_Z n)))
                    end |} in
      match lm_mean_confidence m with
      | Some c => if confidence_valid c then Ok m else Err LearningValidationError
      | None => Ok m
      end
  end.
End repository.
