(* ===== verification/LearningGovernance.v ===== *)
(** * Governance of lessons

    Every operation of the learning repository is a labelled step on the tables of
    proposals and tombstones, and every run a sequence of such steps, restarts
    included.  From the steps: only what was approved is routed, and what was
    corrected or deleted as a procedure never is again. *)

From stdpp Require Import prelude base strings list gmap.
From Stdlib Require Import ZArith QArith Lia.
From S2P Require Import Prelude PyTime PyText PyUuid PyFloat Transactions AuditLedger Knowledge Memory Learning LearningSpec LearningStore.
#[local] Open Scope string_scope.
#[local] Open Scope list_scope.
#[local] Open Scope Z_scope.

Section governance.
Context (hmac : string → string → string) (audit_key : string) (uuid5 : string → uuid).
Context `{LearningCodecLaws}.
Abbreviation conn := (connection learning_db).
Abbreviation learn := (learn hmac audit_key uuid5).
Abbreviation approve_lesson := (approve_lesson hmac audit_key).
Abbreviation correct_lesson := (correct_lesson hmac audit_key).
Abbreviation delete_lesson := (delete_lesson hmac audit_key).
Abbreviation purge_expired := (purge_expired hmac audit_key).
Abbreviation record_observation := (record_observation hmac audit_key).
Abbreviation learning_append := (learning_append hmac audit_key).
Abbreviation learning_verify := (learning_verify hmac audit_key).
Abbreviation learning_fingerprint := (learning_fingerprint hmac audit_key).
Abbreviation propose_one := (propose_one hmac audit_key).
Abbreviation propose_all := (propose_all hmac audit_key).
Abbreviation _suppressed := (_suppressed hmac audit_key).

(** ** Well-formed contents *)

Definition procedure_id (t : ObservationTrigger) : uuid := _proposal_id uuid5 ["procedure"; ot_kind t; ot_source t].
Definition memory_id (o : ActualOutcome.t) (tags : list string) : uuid :=
  _proposal_id uuid5 ("memory_update" :: ActualOutcome.value o :: tags).

(** A stored proposal: valid, with fixed offsets, and under an identity derived
    from its pattern. *)
Record stored (id : uuid) (p : LearningProposal) : Prop := {
  st_id : pr_proposal_id p = id;
  st_valid : proposal_valid p = true;
  st_plain : plain_proposal p = true;
  st_derived : match pr_lesson p with
               | Procedure t _ => id = procedure_id t
               | MemoryUpdate _ _ => ∃ o tags, id = memory_id o tags
               end;
}.

(** An observation that pydantic accepted, with fixed offsets. *)
Definition sound_observation (o : LearningObservation) : bool := observation_valid o && plain_observation o.

Record learning_ok (db : learning_db) : Prop := {
  lk_ledger : ∃ v, verify_ledger hmac audit_key (ld_audit db) = Ok v;
  lk_anchor : is_Some (db_anchor (ld_audit db));
  lk_rows : ∀ id row, ld_proposals db !! id = Some row → ∃ p, row = proposal_row_of p ∧ stored id p;
  lk_tombstones : ∀ id t, ld_tombstones db !! id = Some t →
    ∃ p, stored id p ∧ lt_pattern_fingerprint t = learning_fingerprint (_pattern p);
  lk_observations : ∀ id row, ld_observations db !! id = Some row →
    ∃ o, row = observation_row_of o ∧ lo_observation_id o = id ∧ sound_observation o = true;
}.

Lemma stored_unique id id' p p' : stored id p → stored id' p' → proposal_row_of p = proposal_row_of p' → p = p'.
Proof.
  intros Hp Hp' Heq. apply (f_equal wr_content_json) in Heq. simpl in Heq.
  pose proof (parse_dump_proposal p (st_plain _ _ Hp)) as H1. pose proof (parse_dump_proposal p' (st_plain _ _ Hp')) as H2.
  rewrite Heq, H2, (st_valid _ _ Hp), (st_valid _ _ Hp') in H1. congruence.
Qed.

Lemma stored_row_unique id id' p p' : stored id p → stored id' p' → Some (proposal_row_of p) = Some (proposal_row_of p') → p = p'.
Proof. intros Hp Hp' Heq. eapply stored_unique; [done|done|]. by apply (inj Some). Qed.

Lemma read_stored db id p : learning_ok db → _read id db = Ok p →
  ld_proposals db !! id = Some (proposal_row_of p) ∧ stored id p.
Proof.
  intros Hok Hr. unfold _read in Hr. destruct (ld_proposals db !! id) as [row|] eqn:Hl; [|done].
  destruct (lk_rows db Hok id row Hl) as (p' & -> & Hs). simpl in Hr.
  rewrite parse_dump_proposal, (st_valid _ _ Hs) in Hr by apply Hs. injection Hr as ->. done.
Qed.

(** ** Statements *)

Lemma verify_run (c : conn) : learning_ok (live c) → learning_verify c = (c, Ok tt).
Proof. intros Hok. unfold LearningStore.learning_verify, query. by destruct (lk_ledger _ Hok) as [v ->]. Qed.

Lemma dml_run (f : learning_db → result LearningError learning_db) (c : conn) db :
  f (live c) = Ok db → execute_dml f c = (Connection db (durable c) true, Ok tt).
Proof. intros Hf. unfold execute_dml, execute. by destruct c as [? ? []]; simpl in *; rewrite Hf. Qed.

Lemma dml_fails (f : learning_db → result LearningError learning_db) (c : conn) e :
  f (live c) = Err e → execute_dml f c = (Connection (live c) (durable c) true, Err e).
Proof. intros Hf. unfold execute_dml, execute. destruct c as [? ? []]; simpl in *; by rewrite Hf. Qed.

(** On a ledger that verifies, an audit entry can be appended, and it verifies again. *)
Lemma append_run db id action fp ctx : learning_ok db →
  ∃ a, learning_append id action fp ctx db = Ok (set_learning_audit db a) ∧ learning_ok (set_learning_audit db a).
Proof.
  intros Hok. destruct (lk_ledger _ Hok) as [v Hv].
  destruct (append_verified hmac audit_key (learning_mutation id action fp ctx) (ld_audit db) v Hv (lk_anchor _ Hok)) as [Ha Hv'].
  unfold LearningStore.learning_append. rewrite Ha. eexists. split; [done|]. split; [by eexists|apply Hok..].
Qed.

Lemma append_dml (c : conn) id action fp ctx : learning_ok (live c) →
  ∃ a, execute_dml (learning_append id action fp ctx) c = (Connection (set_learning_audit (live c) a) (durable c) true, Ok tt)
     ∧ learning_ok (set_learning_audit (live c) a).
Proof. intros Hok. destruct (append_run _ id action fp ctx Hok) as (a & Ha & Ha'). exists a. split; [by apply dml_run|done]. Qed.

Lemma set_rows_ok db rows : learning_ok db →
  (∀ id row, rows !! id = Some row → ∃ p, row = proposal_row_of p ∧ stored id p) → learning_ok (set_proposals db rows).
Proof. intros Hok Hrows. split; [apply Hok|apply Hok|done|apply Hok..]. Qed.

Lemma insert_row_ok db p : learning_ok db → stored (pr_proposal_id p) p →
  learning_ok (set_proposals db (<[pr_proposal_id p := proposal_row_of p]> (ld_proposals db))).
Proof.
  intros Hok Hp. apply set_rows_ok; [done|]. intros id row [[<- <-]|[_ Hl]]%lookup_insert_Some; [by exists p|].
  by apply (lk_rows db Hok).
Qed.

Lemma delete_row_ok db id : learning_ok db → learning_ok (set_proposals db (delete id (ld_proposals db))).
Proof. intros Hok. apply set_rows_ok; [done|]. intros id' row [_ Hl]%lookup_delete_Some. by apply (lk_rows db Hok). Qed.

(** ** Steps *)

(** What one operation does to the proposals and the tombstones, labelled with the
    proposal it approves. *)
Inductive lesson_step (db db' : learning_db) : option LearningProposal → Prop :=
| step_kept : ld_proposals db' = ld_proposals db → ld_tombstones db' = ld_tombstones db → lesson_step db db' None
| step_learned : ld_tombstones db' = ld_tombstones db →
    (∀ id, ld_proposals db' !! id = ld_proposals db !! id
       ∨ ∃ p, ld_proposals db !! id = None ∧ ld_proposals db' !! id = Some (proposal_row_of p)
           ∧ stored id p ∧ pr_status p = ProposalStatus.PROPOSED ∧ _suppressed p db = false) →
    lesson_step db db' None
| step_approved id p : ld_proposals db !! id = Some (proposal_row_of p) →
    stored id p → pr_status p = ProposalStatus.PROPOSED →
    ld_proposals db' = <[id := proposal_row_of (with_status p ProposalStatus.APPROVED)]> (ld_proposals db) →
    ld_tombstones db' = ld_tombstones db → lesson_step db db' (Some (with_status p ProposalStatus.APPROVED))
| step_corrected id p p' : ld_proposals db !! id = Some (proposal_row_of p) →
    stored id p → stored id p' → pr_status p' = ProposalStatus.CORRECTED →
    ld_proposals db' = <[id := proposal_row_of p']> (ld_proposals db) →
    ld_tombstones db' = ld_tombstones db → lesson_step db db' None
| step_removed id p t : ld_proposals db !! id = Some (proposal_row_of p) →
    stored id p → ld_proposals db' = delete id (ld_proposals db) →
    ld_tombstones db !! id = None → ld_tombstones db' = <[id := t]> (ld_tombstones db) →
    lt_pattern_fingerprint t = learning_fingerprint (_pattern p) → lesson_step db db' None
(** the tombstone exists already: the row is gone, and the operation raised *)
| step_half_removed id : is_Some (ld_tombstones db !! id) →
    ld_proposals db' = delete id (ld_proposals db) → ld_tombstones db' = ld_tombstones db → lesson_step db db' None.

(** A run of an operation: its step, and what is on disk afterwards. *)
Record stepped (c c' : conn) (approved : option LearningProposal) : Prop := {
  sp_ok : learning_ok (live c');
  sp_step : lesson_step (live c) (live c') approved;
  sp_disk : durable c' = durable c ∨ durable c' = live c';
}.

Lemma stepped_same c : learning_ok (live c) → stepped c c None.
Proof. intros Hok. split; [done|by apply step_kept|by left]. Qed.

Lemma stepped_kept c c' : learning_ok (live c') →
  ld_proposals (live c') = ld_proposals (live c) → ld_tombstones (live c') = ld_tombstones (live c) →
  (durable c' = durable c ∨ durable c' = live c') → stepped c c' None.
Proof. intros Hok Hp Ht Hd. split; [done|by apply step_kept|done]. Qed.

Lemma observe_stepped o ctx c : learning_ok (live c) → sound_observation o = true → stepped c (record_observation o ctx c).1 None.
Proof.
  intros Hok Ho. unfold LearningStore.record_observation. rewrite bind_run, verify_run by done. rewrite bind_run.
  destruct (insert_observation o (live c)) as [db|e] eqn:Hi.
  - rewrite (dml_run _ _ _ Hi). unfold insert_observation in Hi. case_match; [done|]. injection Hi as <-.
    rewrite bind_run. edestruct append_dml as (a & Ha & Hok'); [|rewrite Ha].
    { split; simpl; try apply Hok. intros id row [[<- <-]|[_ Hl]]%lookup_insert_Some; [by exists o|].
      by apply (lk_observations _ Hok). }
    by apply stepped_kept; [|..|right].
  - rewrite (dml_fails _ _ _ Hi). by apply stepped_kept; [|..|left].
Qed.

(** ** Approval, correction and deletion *)

Lemma replace_run c current repl action ctx :
  learning_ok (live c) → pr_proposal_id repl = pr_proposal_id current → stored (pr_proposal_id repl) repl →
  ∃ a, let db := set_learning_audit (set_proposals (live c)
                   (<[pr_proposal_id current := proposal_row_of repl]> (ld_proposals (live c)))) a in
    _replace hmac audit_key current repl action ctx c = (Connection db (durable c) true, Ok tt) ∧ learning_ok db.
Proof.
  intros Hok Hid Hs. unfold _replace. rewrite bind_run. erewrite dml_run by reflexivity. rewrite bind_run.
  erewrite dml_run; [|unfold _insert; simpl; rewrite Hid, lookup_delete_eq; reflexivity].
  simpl. rewrite insert_delete_eq. rewrite <- Hid.
  set (db := set_proposals _ _). edestruct (append_dml (Connection db (durable c) true)) as (a & Ha & Hok').
  { simpl. apply (insert_row_ok (live c) repl Hok Hs). }
  exists a. split; [exact Ha|exact Hok'].
Qed.

Lemma with_status_stored id p s : stored id p → stored id (with_status p s).
Proof. intros Hs. split; apply Hs. Qed.

Lemma approve_stepped id ctx c : learning_ok (live c) →
  let '(c', res) := approve_lesson id ctx c in
  stepped c c' (match res with Ok p => Some p | Err _ => None end) ∧ ∀ p, res = Ok p → stored id p.
Proof.
  intros Hok. unfold LearningStore.approve_lesson. rewrite bind_run, verify_run by done. rewrite bind_run. unfold query at 1.
  destruct (_read id (live c)) as [p|e] eqn:Hr; [|by split; [apply stepped_same|]].
  apply read_stored in Hr as [Hl Hs]; [|done]. assert (pr_proposal_id p = id) as <- by apply Hs. rewrite bind_run.
  unfold settle, query. destruct (require_status p _ _) as [[]|e] eqn:Hst; [|by split; [apply stepped_same|]].
  apply raise_if_ok, negb_false_iff, bool_decide_eq_true in Hst. rewrite bind_run.
  destruct (replace_run c p (with_status p ProposalStatus.APPROVED) "approved" ctx Hok eq_refl) as (a & Ha & Hok').
  { by apply with_status_stored. }
  rewrite Ha. simpl. split.
  - split; [done| |by right]. by eapply (step_approved _ _ (pr_proposal_id p) p).
  - intros q [= <-]. by apply with_status_stored.
Qed.

Lemma correction_stored id p p' corr at_ :
  stored id p → correction_valid corr = true → plain_time at_ = true → apply_correction p corr at_ = Ok p' →
  stored id p' ∧ pr_proposal_id p' = pr_proposal_id p ∧ pr_status p' = ProposalStatus.CORRECTED.
Proof.
  intros Hs Hc Ht Ha. unfold apply_correction in Ha. pose proof (st_valid _ _ Hs) as Hv. pose proof (st_plain _ _ Hs) as Hp.
  unfold correction_valid, proposal_valid, plain_proposal in *. bool_to_prop.
  destruct (pr_lesson p) as [t steps|cat content] eqn:Hl.
  - destruct (cr_procedure corr) as [steps'|] eqn:Hcr; [|done]. injection Ha as <-. split_and!; [|done..].
    simpl in *. bool_to_prop. split; simpl; try apply Hs.
    + unfold proposal_valid. simpl. by rewrite !andb_true_iff.
    + unfold plain_proposal. simpl. by rewrite andb_true_iff.
    + pose proof (st_derived _ _ Hs) as Hd. by rewrite Hl in Hd.
  - destruct (cr_content corr) as [content'|] eqn:Hcr; [|done]. injection Ha as <-. split_and!; [|done..].
    simpl in *. split; simpl; try apply Hs.
    + unfold proposal_valid. simpl. by rewrite !andb_true_iff.
    + unfold plain_proposal. simpl. by rewrite andb_true_iff.
    + pose proof (st_derived _ _ Hs) as Hd. by rewrite Hl in Hd.
Qed.

Lemma correct_stepped id corr ctx c :
  learning_ok (live c) → correction_valid corr = true → plain_time (tc_occurred_at ctx) = true →
  let '(c', res) := correct_lesson id corr ctx c in
  stepped c c' None
  ∧ ∀ p, res = Ok p → stored id p ∧ pr_status p = ProposalStatus.CORRECTED ∧ live c' = durable c'
      ∧ ld_proposals (live c') !! id = Some (proposal_row_of p).
Proof.
  intros Hok Hc Ht. unfold LearningStore.correct_lesson. rewrite bind_run, verify_run by done. rewrite bind_run. unfold query at 1.
  destruct (_read id (live c)) as [p|e] eqn:Hr; [|by split; [apply stepped_same|]].
  apply read_stored in Hr as [Hl Hs]; [|done]. assert (pr_proposal_id p = id) as <- by apply Hs. rewrite bind_run.
  unfold settle, query. destruct (require_expected_status p _) as [[]|e]; [|by split; [apply stepped_same|]].
  rewrite bind_run. destruct (apply_correction p corr _) as [p'|e] eqn:Ha; [|by split; [apply stepped_same|]].
  destruct (correction_stored _ _ _ _ _ Hs Hc Ht Ha) as (Hs' & Hid & Hst). rewrite bind_run.
  destruct (replace_run c p p' "corrected" ctx Hok Hid) as (a & Hrun & Hok'); [by rewrite Hid|].
  rewrite Hrun. simpl. split.
  - split; [done| |by right]. by eapply (step_corrected _ _ (pr_proposal_id p) p p').
  - intros q [= <-]. split_and!; [done|done|done|]. simpl. by rewrite lookup_insert_eq.
Qed.

Lemma delete_stepped id s ctx c :
  learning_ok (live c) →
  let '(c', res) := delete_lesson id s ctx c in
  stepped c c' None
  ∧ (res = Ok tt → live c' = durable c' ∧ ld_proposals (live c') !! id = None
      ∧ ∃ p t, _read id (live c) = Ok p ∧ stored id p ∧ ld_tombstones (live c') !! id = Some t
          ∧ lt_pattern_fingerprint t = learning_fingerprint (_pattern p)).
Proof.
  intros Hok. unfold LearningStore.delete_lesson. rewrite bind_run, verify_run by done. rewrite bind_run. unfold query at 1.
  destruct (_read id (live c)) as [p|e] eqn:Hr; [|by split; [apply stepped_same|]].
  destruct (read_stored _ _ _ Hok Hr) as [Hl Hs]. assert (pr_proposal_id p = id) as <- by apply Hs. rewrite bind_run.
  unfold settle, query. destruct (require_expected_status p _) as [[]|e]; [|by split; [apply stepped_same|]].
  rewrite bind_run. erewrite dml_run by reflexivity. rewrite bind_run. set (t := Build_learning_tombstone _ _ _ _).
  destruct (ld_tombstones (live c) !! pr_proposal_id p) as [t'|] eqn:Ht.
  - erewrite dml_fails; [|unfold insert_learning_tombstone; simpl; rewrite Ht; reflexivity].
    split; [|done]. split; [by apply delete_row_ok| |by left]. by apply (step_half_removed _ _ (pr_proposal_id p)).
  - erewrite dml_run; [|unfold insert_learning_tombstone; simpl; rewrite Ht; reflexivity].
    simpl. rewrite bind_run. edestruct append_dml as (a & Ha & Hok'); [|rewrite Ha].
    { simpl. split; simpl; [apply Hok|apply Hok|apply (delete_row_ok _ _ Hok)| |apply Hok].
      intros id t0 [[<- <-]|[_ Hl0]]%lookup_insert_Some; [by exists p|]. by apply (lk_tombstones _ Hok). }
    simpl. split.
    + split; [done| |by right]. by eapply (step_removed _ _ (pr_proposal_id p) p t).
    + intros _. split_and!; [done|by rewrite lookup_delete_eq|]. exists p, t. split_and!; [done|done|by rewrite lookup_insert_eq|done].
Qed.

(** ** Learning and purging *)

Lemma proposals_of_inv {G} (f : G → option LearningProposal) groups l p :
  proposals_of f groups = Ok l → p ∈ l → proposal_valid p = true ∧ ∃ g, f g = Some p.
Proof.
  revert l. induction groups as [|g rest IH]; intros l Hl Hp; simpl in Hl; [injection Hl as <-; by apply elem_of_nil in Hp|].
  destruct (f g) as [q|] eqn:Hf; [|eauto].
  unfold built_proposal in Hl. destruct (proposal_valid q) eqn:Hv; [|done]. simpl in Hl.
  destruct (proposals_of f rest) as [l'|] eqn:Hr; [|done]. injection Hl as <-.
  apply elem_of_cons in Hp as [->|Hp]; eauto.
Qed.

(** What the learner yields is stored under derived identities and awaits approval. *)
Lemma learned_stored obs now l p : plain_time now = true → learn_proposals uuid5 obs now = Ok l → p ∈ l →
  stored (pr_proposal_id p) p ∧ pr_status p = ProposalStatus.PROPOSED.
Proof.
  intros Hnow Hl Hp. unfold learn_proposals in Hl. destruct (_learn_procedure_proposals _ _ _) as [lp|] eqn:H1; [|done].
  simpl in Hl. destruct (_learn_memory_update_proposals _ _ _) as [lm|] eqn:H2; [|done]. injection Hl as <-.
  apply elem_of_app in Hp as [Hp|Hp].
  - destruct (proposals_of_inv _ _ _ _ H1 Hp) as [Hv [[t samples] Hf]]. unfold procedure_proposal in Hf.
    destruct (_ <? _)%nat; [done|]. destruct (_most_common _) as [steps|]; [|done]. destruct (flt _ _); [done|].
    injection Hf as <-. split; [|done]. split; [done|done| |done].
    unfold plain_proposal. simpl. by rewrite Hnow.
  - destruct (proposals_of_inv _ _ _ _ H2 Hp) as [Hv [[[o tags] samples] Hf]]. unfold memory_proposal in Hf.
    destruct (_ <? _)%nat; [done|]. destruct (flt _ _); [done|]. destruct (_most_common _) as [title|]; [|done].
    injection Hf as <-. split; [|done]. split; [done|done| |by exists o, tags].
    unfold plain_proposal. simpl. by rewrite Hnow.
Qed.

(** Only new rows, proposed and not suppressed. *)
Definition grown (db db' : learning_db) : Prop :=
  ld_tombstones db' = ld_tombstones db
  ∧ ∀ id, ld_proposals db' !! id = ld_proposals db !! id
      ∨ ∃ p, ld_proposals db !! id = None ∧ ld_proposals db' !! id = Some (proposal_row_of p)
          ∧ stored id p ∧ pr_status p = ProposalStatus.PROPOSED ∧ _suppressed p db = false.

Lemma grown_trans db1 db2 db3 : grown db1 db2 → grown db2 db3 → grown db1 db3.
Proof.
  intros [Ht1 H1] [Ht2 H2]. split; [congruence|]. intros id.
  assert (∀ p, _suppressed p db2 = _suppressed p db1) as Hsup by (intros p; unfold LearningStore._suppressed; by rewrite Ht1).
  destruct (H1 id) as [E1|(p & Hn & Hp & Hs & Hst & Hx)], (H2 id) as [E2|(q & Hn' & Hq & Hs' & Hst' & Hx')].
  - left. congruence.
  - right. exists q. rewrite <- Hsup. split_and!; congruence || done.
  - right. exists p. split_and!; congruence || done.
  - congruence.
Qed.

Lemma propose_one_run ctx p c :
  learning_ok (live c) → stored (pr_proposal_id p) p → pr_status p = ProposalStatus.PROPOSED →
  let '(c', res) := propose_one ctx p c in
  learning_ok (live c') ∧ durable c' = durable c ∧ grown (live c) (live c') ∧ ∃ l, res = Ok l.
Proof.
  intros Hok Hs Hst. unfold LearningStore.propose_one. rewrite bind_run. unfold query.
  destruct (_exists _ _ || _) eqn:Hskip.
  { simpl. split_and!; [done|done|split; [done|by left]|eauto]. }
  apply orb_false_iff in Hskip as [He Hsup]. unfold _exists in He.
  destruct (ld_proposals (live c) !! pr_proposal_id p) eqn:Hl; [done|]. rewrite bind_run.
  erewrite dml_run; [|unfold _insert; rewrite Hl; reflexivity]. rewrite bind_run.
  edestruct append_dml as (a & Ha & Hok'); [|rewrite Ha]; [by apply insert_row_ok|].
  simpl. split_and!; [done|done| |eauto]. split; [done|]. intros id. simpl.
  destruct (decide (id = pr_proposal_id p)) as [->|Hne]; [|left; by rewrite lookup_insert_ne].
  right. exists p. by rewrite lookup_insert_eq.
Qed.

Lemma propose_all_run ctx l c :
  learning_ok (live c) → (∀ p, p ∈ l → stored (pr_proposal_id p) p ∧ pr_status p = ProposalStatus.PROPOSED) →
  let '(c', res) := propose_all ctx l c in
  learning_ok (live c') ∧ durable c' = durable c ∧ grown (live c) (live c') ∧ ∃ created, res = Ok created.
Proof.
  revert c. induction l as [|p l IH]; intros c Hok Hl; [by split_and!; [..|split; [|left]|exists []]|].
  simpl. rewrite bind_run. destruct (Hl p) as [Hs Hst]; [set_solver|].
  pose proof (propose_one_run ctx p c Hok Hs Hst) as H1. destruct (propose_one ctx p c) as [c1 res].
  destruct H1 as (Hok1 & Hd1 & Hg1 & l1 & ->). rewrite bind_run.
  specialize (IH c1 Hok1 ltac:(intros; apply Hl; set_solver)). destruct (propose_all ctx l c1) as [c2 res2].
  destruct IH as (Hok2 & Hd2 & Hg2 & l2 & ->). simpl. split_and!; [done|congruence|by eapply grown_trans|eauto].
Qed.

Lemma learn_stepped now ctx c :
  learning_ok (live c) → plain_time now = true → stepped c (learn now ctx c).1 None.
Proof.
  intros Hok Hnow. unfold LearningStore.learn. rewrite bind_run, verify_run by done. rewrite bind_run. unfold query.
  destruct (observations now (live c)) as [obs|e]; [|by apply stepped_same].
  destruct (learn_proposals uuid5 obs now) as [l|e] eqn:Hl; [|by apply stepped_same]. rewrite bind_run.
  pose proof (propose_all_run ctx l c Hok (λ p, learned_stored obs now l p Hnow Hl)) as Hrun.
  destruct (propose_all ctx l c) as [c' res]. destruct Hrun as (Hok' & _ & [Ht Hg] & created & ->). simpl.
  split; [done|by apply step_learned|by right].
Qed.

Lemma expire_all_run ctx l c : learning_ok (live c) →
  let '(c', res) := for_each (expire_one hmac audit_key ctx) l c in
  learning_ok (live c') ∧ ld_proposals (live c') = ld_proposals (live c) ∧ ld_tombstones (live c') = ld_tombstones (live c)
  ∧ ld_observations (live c') = foldl (λ m o, delete (lo_observation_id o) m) (ld_observations (live c)) l ∧ res = Ok tt.
Proof.
  revert c. induction l as [|o l IH]; intros c Hok; [by split_and!|]. simpl. rewrite bind_run.
  unfold expire_one at 1. rewrite bind_run. erewrite dml_run by reflexivity.
  edestruct append_dml as (a & Ha & Hok'); [|rewrite Ha].
  { split; simpl; try apply Hok. intros id row [_ Hl]%lookup_delete_Some. by apply (lk_observations _ Hok). }
  simpl.
  specialize (IH (Connection (set_learning_audit (set_observations (live c) (delete (lo_observation_id o) (ld_observations (live c)))) a)
    (durable c) true) Hok'). by destruct (for_each _ _ _).
Qed.

Lemma purge_stepped now ctx c : learning_ok (live c) → stepped c (purge_expired now ctx c).1 None.
Proof.
  intros Hok. unfold LearningStore.purge_expired. rewrite bind_run, verify_run by done. rewrite bind_run. unfold query.
  destruct (expired now (live c)) as [gone|e]; [|by apply stepped_same]. rewrite bind_run.
  pose proof (expire_all_run ctx gone c Hok) as Hrun. destruct (for_each _ _ _) as [c' res].
  destruct Hrun as (Hok' & Hp & Ht & _ & ->). simpl. apply stepped_kept; [done|done|done|by right].
Qed.

(** ** Runs *)

Inductive lesson_op :=
| OpObserve (o : LearningObservation) (ctx : TransitionContext)
| OpLearn (now : datetime) (ctx : TransitionContext)
| OpApproveLesson (id : uuid) (ctx : TransitionContext)
| OpCorrectLesson (id : uuid) (correction : ProposalCorrection) (ctx : TransitionContext)
| OpDeleteLesson (id : uuid) (expected : ProposalStatus.t) (ctx : TransitionContext)
| OpPurgeLessons (now : datetime) (ctx : TransitionContext)
| OpReopen.                          (** the process restarts from what is on disk *)

Definition lesson_do (op : lesson_op) (c : conn) : conn :=
  match op with
  | OpObserve o ctx => (record_observation o ctx c).1
  | OpLearn now ctx => (learn now ctx c).1
  | OpApproveLesson id ctx => (approve_lesson id ctx c).1
  | OpCorrectLesson id corr ctx => (correct_lesson id corr ctx c).1
  | OpDeleteLesson id s ctx => (delete_lesson id s ctx c).1
  | OpPurgeLessons now ctx => (purge_expired now ctx c).1
  | OpReopen => Connection (durable c) (durable c) false
  end.
Definition lesson_run (ops : list lesson_op) (c : conn) : conn := foldl (λ c op, lesson_do op c) c ops.

(** Clocks with fixed offsets, and corrections that pydantic accepted. *)
Definition lesson_plain (op : lesson_op) : bool :=
  match op with
  | OpObserve o _ => sound_observation o
  | OpLearn now _ => plain_time now
  | OpCorrectLesson _ corr ctx => correction_valid corr && plain_time (tc_occurred_at ctx)
  | _ => true
  end.

(** What the operation approved, if it did. *)
Definition lesson_approved (op : lesson_op) (c : conn) : option LearningProposal :=
  match op with
  | OpApproveLesson id ctx => match (approve_lesson id ctx c).2 with Ok p => Some p | Err _ => None end
  | _ => None
  end.

Definition learning_fresh (c : conn) : Prop :=
  learning_ok (live c) ∧ live c = durable c ∧ ld_proposals (live c) = ∅ ∧ ld_tombstones (live c) = ∅.

(** A property of the contents holds in memory and on disk. *)
Definition everywhere (P : learning_db → Prop) (c : conn) : Prop := P (live c) ∧ P (durable c).

Lemma lesson_do_stepped op c : learning_ok (live c) → lesson_plain op = true → op ≠ OpReopen →
  stepped c (lesson_do op c) (lesson_approved op c).
Proof.
  intros Hok Hop Hne. destruct op as [o ctx|now ctx|id ctx|id corr ctx|id s ctx|now ctx|]; simpl in *.
  - by apply observe_stepped.
  - by apply learn_stepped.
  - pose proof (approve_stepped id ctx c Hok) as Hs. destruct (approve_lesson id ctx c). apply Hs.
  - apply andb_true_iff in Hop as [Hcorr Ht].
    pose proof (correct_stepped id corr ctx c Hok Hcorr Ht) as Hs. destruct (correct_lesson id corr ctx c). apply Hs.
  - pose proof (delete_stepped id s ctx c Hok) as Hs. destruct (delete_lesson id s ctx c). apply Hs.
  - by apply purge_stepped.
  - done.
Qed.

(** A property kept by the steps is kept everywhere by the operations. *)
Lemma everywhere_do (P : learning_db → Prop) op c :
  everywhere learning_ok c → lesson_plain op = true → everywhere P c →
  (∀ db', lesson_step (live c) db' (lesson_approved op c) → P db') →
  everywhere (λ db, learning_ok db ∧ P db) (lesson_do op c).
Proof.
  intros [Hok Hokd] Hop [HP HPd] Hstep. assert (op = OpReopen ∨ op ≠ OpReopen) as [->|Hne] by (destruct op; (by left) || (by right)); [by split|].
  destruct (lesson_do_stepped op c Hok Hop Hne) as [Hok' Hs' Hd]. apply Hstep in Hs'.
  split; [done|]. by destruct Hd as [-> | ->].
Qed.

Lemma everywhere_impl (P Q : learning_db → Prop) c : (∀ db, P db → Q db) → everywhere P c → everywhere Q c.
Proof. intros HPQ [? ?]. split; auto. Qed.

Lemma lesson_run_ok ops c : everywhere learning_ok c → forallb lesson_plain ops = true → everywhere learning_ok (lesson_run ops c).
Proof.
  revert c. induction ops as [|op ops IH]; intros c Hc Hops; [done|]. simpl in *. apply andb_true_iff in Hops as [Hop Hops].
  apply IH; [|done]. eapply everywhere_impl; [|by apply (everywhere_do (λ _, True) op c Hc Hop)]. by intros db [? _].
Qed.

Lemma proposal_rows_parse (rows : list proposal_row) :
  (∀ row, row ∈ rows → ∃ id p, row = proposal_row_of p ∧ stored id p) →
  ∃ l, parse_all parse_proposal (wr_content_json <$> rows) = Ok l
    ∧ ∀ p, p ∈ l → ∃ id, proposal_row_of p ∈ rows ∧ stored id p.
Proof.
  induction rows as [|row rows IH]; intros Hrows; [exists []; split; [done|by intros p Hp%elem_of_nil]|].
  destruct (Hrows row) as (id & p & -> & Hs); [by left|].
  destruct IH as (l & Hl & Hin); [intros r Hr; apply Hrows; by right|].
  exists (p :: l). rewrite fmap_cons. cbn [parse_all wr_content_json proposal_row_of].
  rewrite parse_dump_proposal, (st_valid _ _ Hs), Hl by apply Hs. split; [done|].
  intros q [->|Hq]%elem_of_cons; [exists id; split; [by left|done]|]. destruct (Hin q Hq) as (id' & Hr & Hs').
  exists id'. split; [by right|done].
Qed.

(** A query on the proposals returns stored proposals whose rows it selects. *)
Lemma proposals_where_ok f db : learning_ok db →
  ∃ l, proposals_where f db = Ok l
    ∧ ∀ p, p ∈ l → ∃ id, ld_proposals db !! id = Some (proposal_row_of p) ∧ stored id p ∧ f (proposal_row_of p) = true.
Proof.
  intros Hok. unfold proposals_where. set (rows := py_sorted _ _).
  assert (∀ id row, (id, row) ∈ rows → ld_proposals db !! id = Some row ∧ f row = true) as Hrows.
  { intros id row Hin. unfold rows in Hin. rewrite elem_of_py_sorted, list_elem_of_In, filter_In, <- list_elem_of_In in Hin.
    by rewrite elem_of_map_to_list in Hin. }
  destruct (proposal_rows_parse rows.*2) as (l & Hl & Hin).
  { intros row ([id row'] & -> & Hr)%list_elem_of_fmap. destruct (Hrows id row' Hr) as [Hlk _].
    destruct (lk_rows db Hok id row' Hlk) as (p & -> & Hs). by exists id, p. }
  exists l. rewrite <- Hl. split; [by rewrite <- list_fmap_compose|]. intros p Hp. destruct (Hin p Hp) as (id & Hr & Hs).
  apply list_elem_of_fmap in Hr as ([id' row] & Heq & Hr). simpl in Heq. subst row.
  destruct (Hrows id' _ Hr) as [Hlk Hf]. exists id'. split_and!; [done| |done].
  destruct (lk_rows db Hok id' _ Hlk) as (p' & Heq & Hs'). by rewrite (stored_unique _ _ _ _ Hs Hs' Heq).
Qed.

(** ** Only approved lessons are routed *)

(** The row was written by an approval of the history. *)
Definition approved_before (c0 : conn) (ops : list lesson_op) (p : LearningProposal) : Prop :=
  ∃ before ctx after, ops = before ++ OpApproveLesson (pr_proposal_id p) ctx :: after
    ∧ (approve_lesson (pr_proposal_id p) ctx (lesson_run before c0)).2 = Ok p.

Definition only_approved (c0 : conn) (ops : list lesson_op) (db : learning_db) : Prop :=
  ∀ id p, ld_proposals db !! id = Some (proposal_row_of p) → stored id p →
    pr_status p = ProposalStatus.APPROVED → approved_before c0 ops p.

Lemma approved_before_snoc c0 ops op p : approved_before c0 ops p → approved_before c0 (ops ++ [op]) p.
Proof. intros (b & ctx & a & -> & Hr). exists b, ctx, (a ++ [op]). by rewrite <- app_assoc. Qed.

Lemma approved_now c0 ops op p : lesson_approved op (lesson_run ops c0) = Some p →
  learning_ok (live (lesson_run ops c0)) → approved_before c0 (ops ++ [op]) p.
Proof.
  intros Ha Hok. destruct op as [| |id ctx| | | |]; try done. simpl in Ha.
  pose proof (approve_stepped id ctx _ Hok) as Hs. destruct (approve_lesson id ctx (lesson_run ops c0)) as [c' [q|e]] eqn:Hrun; [|done].
  injection Ha as ->. destruct Hs as [_ Hs]. destruct (Hs p eq_refl) as [<- _ _ _]. exists ops, ctx, []. by rewrite Hrun.
Qed.

Lemma approved_step c0 ops op db' :
  let c := lesson_run ops c0 in
  learning_ok (live c) → only_approved c0 ops (live c) →
  lesson_step (live c) db' (lesson_approved op c) → only_approved c0 (ops ++ [op]) db'.
Proof.
  intros c Hok Hinv Hstep id p Hl Hs Hst.
  assert (∀ id, ld_proposals (live c) !! id = Some (proposal_row_of p) → stored id p → approved_before c0 (ops ++ [op]) p) as Hold.
  { intros id' Hl' Hs'. apply approved_before_snoc. by eapply Hinv. }
  inversion Hstep as [Hp Ht Hlab|Ht Hg Hlab|id' q Hq Hsq Hstq Hp Ht Hlab|id' q q' Hq Hsq Hsq' Hstq Hp Ht Hlab
    |id' q t Hq Hsq Hp Hn Ht Hf Hlab|id' Hx Hp Ht Hlab]; rewrite ?Hp in Hl.
  - by eapply Hold.
  - destruct (Hg id) as [Heq|(q & _ & Hq & Hsq & Hstq & _)]; [rewrite Heq in Hl; by eapply Hold|].
    rewrite Hq in Hl. rewrite (stored_row_unique _ _ _ _ Hsq Hs Hl) in Hstq. congruence.
  - apply lookup_insert_Some in Hl as [[<- Heq]|[_ Hl]]; [|by eapply Hold].
    rewrite (stored_unique _ _ _ _ Hs (with_status_stored _ _ _ Hsq) (eq_sym Heq)). by apply approved_now.
  - apply lookup_insert_Some in Hl as [[<- Heq]|[_ Hl]]; [|by eapply Hold].
    rewrite (stored_unique _ _ _ _ Hs Hsq' (eq_sym Heq)) in Hst. congruence.
  - apply lookup_delete_Some in Hl as [_ Hl]. by eapply Hold.
  - apply lookup_delete_Some in Hl as [_ Hl]. by eapply Hold.
Qed.

Lemma lesson_run_snoc ops op c : lesson_run (ops ++ [op]) c = lesson_do op (lesson_run ops c).
Proof. unfold lesson_run. by rewrite foldl_app. Qed.

Lemma run_only_approved ops c : learning_fresh c → forallb lesson_plain ops = true →
  everywhere (λ db, learning_ok db ∧ only_approved c ops db) (lesson_run ops c).
Proof.
  intros (Hok & Hd & Hempty & _). induction ops as [|op ops IH] using rev_ind; intros Hops.
  { unfold everywhere. simpl. rewrite <- Hd. assert (only_approved c [] (live c)); [|done].
    intros id p Hl. by rewrite Hempty, lookup_empty in Hl. }
  rewrite forallb_app in Hops. apply andb_true_iff in Hops as [Hops Hop]. simpl in Hop. rewrite andb_true_r in Hop.
  specialize (IH Hops). destruct IH as [[Hok1 H1] [Hok2 H2]]. rewrite lesson_run_snoc. apply everywhere_do; [done|done| |].
  - split; intros id p Hl Hs Hst; apply approved_before_snoc; by eauto.
  - intros db' Hstep. by eapply approved_step.
Qed.

(** C30. Only approved lessons are routed: after any history of observations, lessons,
    approvals, corrections, deletions, purges and restarts, the query for routing
    succeeds, and each lesson it returns is exactly what an explicit approval of the
    history returned. *)
Theorem routed_lessons_were_approved c ops :
  learning_fresh c → forallb lesson_plain ops = true →
  ∃ l, route_candidates (live (lesson_run ops c)) = Ok l
    ∧ ∀ p, p ∈ l → pr_status p = ProposalStatus.APPROVED
        ∧ ∃ before ctx after, ops = before ++ OpApproveLesson (pr_proposal_id p) ctx :: after
            ∧ (approve_lesson (pr_proposal_id p) ctx (lesson_run before c)).2 = Ok p.
Proof.
  intros Hc Hops. destruct (run_only_approved ops c Hc Hops) as [[Hok Hinv] _].
  destruct (proposals_where_ok (λ row, String.eqb (wr_status row) "approved") _ Hok) as (l & Hl & Hin).
  exists l. split; [exact Hl|]. intros p Hp. destruct (Hin p Hp) as (id & Hlk & Hs & Hst%String.eqb_eq).
  assert (pr_status p = ProposalStatus.APPROVED) as Ha by (simpl in Hst; by destruct (pr_status p)).
  split; [done|]. by eapply Hinv.
Qed.

(** ** Retired procedures *)

(** No other pattern shares the identity of the trigger. *)
Definition sole_identity (t : ObservationTrigger) : Prop :=
  (∀ t', procedure_id t' = procedure_id t → t' = t) ∧ ∀ o tags, memory_id o tags ≠ procedure_id t.

Lemma sole_stored t p : sole_identity t → stored (procedure_id t) p → ∃ steps, pr_lesson p = Procedure t steps.
Proof.
  intros [H1 H2] Hs. pose proof (st_derived _ _ Hs) as Hd. destruct (pr_lesson p) as [t' steps|cat content].
  - apply eq_sym, H1 in Hd as ->. eauto.
  - destruct Hd as (o & tags & Hd). by apply eq_sym, H2 in Hd.
Qed.

Definition tombstoned (t : ObservationTrigger) (db : learning_db) : Prop :=
  ∃ id tm, ld_tombstones db !! id = Some tm ∧ lt_pattern_fingerprint tm = learning_fingerprint (dump_trigger t).

(** The procedure is corrected, or gone and its pattern suppressed. *)
Definition retired (t : ObservationTrigger) (db : learning_db) : Prop :=
  (∃ p, ld_proposals db !! procedure_id t = Some (proposal_row_of p) ∧ stored (procedure_id t) p
      ∧ pr_status p = ProposalStatus.CORRECTED)
  ∨ (ld_proposals db !! procedure_id t = None ∧ tombstoned t db).

Lemma tombstoned_suppressed t p steps db : tombstoned t db → pr_lesson p = Procedure t steps → _suppressed p db = true.
Proof.
  intros (id & tm & Hl & Hf) Hp. unfold LearningStore._suppressed. apply existsb_exists. exists (id, tm).
  split; [by apply list_elem_of_In, elem_of_map_to_list|]. simpl. rewrite Hf. unfold _pattern. rewrite Hp. apply String.eqb_refl.
Qed.

Lemma tombstoned_sole t db tm : sole_identity t → learning_ok db → ld_tombstones db !! procedure_id t = Some tm → tombstoned t db.
Proof.
  intros Ht Hok Hl. destruct (lk_tombstones db Hok _ _ Hl) as (p & Hs & Hf). destruct (sole_stored t p Ht Hs) as [steps Hp].
  exists (procedure_id t), tm. split; [done|]. rewrite Hf. unfold _pattern. by rewrite Hp.
Qed.

Lemma tombstoned_mono t db db' :
  ld_tombstones db ⊆ ld_tombstones db' → tombstoned t db → tombstoned t db'.
Proof. intros Hsub (id & tm & Hl & Hf). exists id, tm. split; [by eapply lookup_weaken|done]. Qed.

Lemma retired_step t db db' lab :
  sole_identity t → learning_ok db → retired t db → lesson_step db db' lab → retired t db'.
Proof.
  intros Ht Hok Hr Hstep. destruct Hstep as [Hp Hts|Hts Hg|id q Hq Hsq Hstq Hp Hts|id q q' Hq Hsq Hsq' Hstq Hp Hts
    |id q tm Hq Hsq Hp Hn Hts Hf|id [tm Hx] Hp Hts]; unfold retired in *; rewrite ?Hp.
  - destruct Hr as [Hr|[Hr Htm]]; [by left|right]. split; [done|]. eapply tombstoned_mono; [|done]. by rewrite Hts.
  - destruct Hr as [(p & Hl & Hs & Hst)|[Hr Htm]].
    + left. exists p. split_and!; [|done|done]. destruct (Hg (procedure_id t)) as [->|(q & Hn & _)]; congruence.
    + right. split; [|eapply tombstoned_mono; [|done]; by rewrite Hts].
      destruct (Hg (procedure_id t)) as [->|(q & _ & _ & Hsq & _ & Hsup)]; [done|].
      destruct (sole_stored t q Ht Hsq) as [steps Hq]. by rewrite (tombstoned_suppressed _ _ _ _ Htm Hq) in Hsup.
  - destruct (decide (id = procedure_id t)) as [->|Hne]; [|rewrite lookup_insert_ne by done].
    + exfalso. destruct Hr as [(p & Hl & Hs & Hst)|[Hr _]]; [|congruence].
      rewrite Hq in Hl. rewrite (stored_row_unique _ _ _ _ Hsq Hs Hl) in Hstq. congruence.
    + destruct Hr as [Hr|[Hr Htm]]; [by left|right]. split; [done|]. eapply tombstoned_mono; [|done]. by rewrite Hts.
  - destruct (decide (id = procedure_id t)) as [->|Hne]; [|rewrite lookup_insert_ne by done].
    + left. exists q'. by rewrite lookup_insert_eq.
    + destruct Hr as [Hr|[Hr Htm]]; [by left|right]. split; [done|]. eapply tombstoned_mono; [|done]. by rewrite Hts.
  - assert (ld_tombstones db ⊆ ld_tombstones db') as Hsub by (rewrite Hts; by apply insert_subseteq).
    destruct (decide (id = procedure_id t)) as [->|Hne]; [|rewrite lookup_delete_ne by done].
    + right. split; [by rewrite lookup_delete_eq|]. destruct (sole_stored t q Ht Hsq) as [steps Hl].
      exists (procedure_id t), tm. split; [by rewrite Hts, lookup_insert_eq|]. rewrite Hf. unfold _pattern. by rewrite Hl.
    + destruct Hr as [Hr|[Hr Htm]]; [by left|right]. split; [done|]. by eapply tombstoned_mono.
  - destruct (decide (id = procedure_id t)) as [->|Hne]; [|rewrite lookup_delete_ne by done].
    + right. split; [by rewrite lookup_delete_eq|]. eapply tombstoned_mono; [|by eapply tombstoned_sole]. by rewrite Hts.
    + destruct Hr as [Hr|[Hr Htm]]; [by left|right]. split; [done|]. eapply tombstoned_mono; [|done]. by rewrite Hts.
Qed.

Lemma run_retired t ops c : sole_identity t → everywhere learning_ok c → everywhere (retired t) c →
  forallb lesson_plain ops = true → everywhere (λ db, learning_ok db ∧ retired t db) (lesson_run ops c).
Proof.
  intros Ht. revert c. induction ops as [|op ops IH]; intros c Hok Hr Hops; [destruct Hok, Hr; by split|].
  simpl in *. apply andb_true_iff in Hops as [Hop Hops].
  assert (everywhere (λ db, learning_ok db ∧ retired t db) (lesson_do op c)) as He.
  { apply everywhere_do; [done|done|done|]. intros db' Hstep. destruct Hok as [Hok _], Hr as [Hr _]. by eapply retired_step. }
  apply IH; [..|done]; (eapply everywhere_impl; [|exact He]); by intros db [? ?].
Qed.

(** The operation corrected or deleted the procedure of the trigger. *)
Definition retires (t : ObservationTrigger) (op : lesson_op) (c : conn) : bool :=
  match op with
  | OpCorrectLesson id corr ctx => (id =? procedure_id t) && is_ok (correct_lesson id corr ctx c).2
  | OpDeleteLesson id s ctx => (id =? procedure_id t) && is_ok (delete_lesson id s ctx c).2
  | _ => false
  end.

Lemma retires_retired t op c : sole_identity t → learning_ok (live c) → lesson_plain op = true → retires t op c = true →
  everywhere (λ db, learning_ok db ∧ retired t db) (lesson_do op c).
Proof.
  intros Ht Hok Hop Hret. destruct op as [| | |id corr ctx|id s ctx| |]; try done; simpl in Hop; simpl in Hret |- *.
  - apply andb_true_iff in Hret as [->%Z.eqb_eq Hres]. apply andb_true_iff in Hop as [Hcorr Htime].
    pose proof (correct_stepped (procedure_id t) corr ctx c Hok Hcorr Htime) as Hs.
    destruct (correct_lesson _ corr ctx c) as [c' [p|e]]; [|done]. destruct Hs as [[Hok' _ _] Hs].
    destruct (Hs p eq_refl) as (Hst & Hcor & Hd & Hl). unfold everywhere. simpl. rewrite <- Hd.
    assert (retired t (live c')) by (left; eauto). done.
  - apply andb_true_iff in Hret as [->%Z.eqb_eq Hres]. pose proof (delete_stepped (procedure_id t) s ctx c Hok) as Hs.
    destruct (delete_lesson _ s ctx c) as [c' [[]|e]]; [|done]. destruct Hs as [[Hok' _ _] Hs].
    destruct (Hs eq_refl) as (Hd & Hl & p & tm & _ & Hst & Htm & Hf). unfold everywhere. simpl. rewrite <- Hd.
    assert (retired t (live c')) by (right; split; [done|by eapply tombstoned_sole]). done.
Qed.

(** Retired procedures never route: once a procedure was corrected or deleted by the
    user, no later history of observations, learning, approvals, corrections,
    deletions and restarts makes a procedure of its trigger a candidate for routing
    again, however often the learner sees the pattern. *)
Theorem retired_procedures_never_route c ops op later t :
  learning_fresh c → forallb lesson_plain ops = true → lesson_plain op = true → forallb lesson_plain later = true →
  sole_identity t → retires t op (lesson_run ops c) = true →
  ∃ l, route_candidates (live (lesson_run later (lesson_do op (lesson_run ops c)))) = Ok l
    ∧ ∀ p steps, p ∈ l → pr_lesson p ≠ Procedure t steps.
Proof.
  intros (Hok & Hd & _) Hops Hop Hlater Ht Hret.
  assert (everywhere learning_ok c) as Hc by (split; [done|by rewrite <- Hd]).
  destruct (lesson_run_ok ops c Hc Hops) as [Hok1 _].
  pose proof (retires_retired t op _ Ht Hok1 Hop Hret) as He.
  assert (everywhere learning_ok (lesson_do op (lesson_run ops c))) as He1
    by (eapply everywhere_impl; [|exact He]; by intros db [? ?]).
  assert (everywhere (retired t) (lesson_do op (lesson_run ops c))) as He2
    by (eapply everywhere_impl; [|exact He]; by intros db [? ?]).
  destruct (run_retired t later _ Ht He1 He2 Hlater) as [[Hok2 Hr] _].
  destruct (proposals_where_ok (λ row, String.eqb (wr_status row) "approved") _ Hok2) as (l & Hl & Hin).
  exists l. split; [exact Hl|]. intros p steps Hp Hles. destruct (Hin p Hp) as (id & Hlk & Hs & Hst%String.eqb_eq).
  pose proof (st_derived _ _ Hs) as Hid. rewrite Hles in Hid. subst id.
  destruct Hr as [(q & Hq & Hsq & Hcor)|[Hn _]]; [|congruence].
  rewrite Hlk in Hq. rewrite <- (stored_row_unique _ _ _ _ Hs Hsq Hq) in Hcor. simpl in Hst. by rewrite Hcor in Hst.
Qed.

(** ** Retention *)

Lemma parse_observations_ok (rows : list observation_row) :
  (∀ row, row ∈ rows → ∃ o, row = observation_row_of o ∧ sound_observation o = true) →
  ∃ l, parse_all parse_observation (or_content_json <$> rows) = Ok l
    ∧ rows = observation_row_of <$> l ∧ Forall (λ o, sound_observation o = true) l.
Proof.
  induction rows as [|row rows IH]; intros Hrows; [by exists []|].
  destruct (Hrows row) as (o & -> & Ho); [by left|]. destruct IH as (l & Hl & -> & Hs); [intros r Hr; apply Hrows; by right|].
  exists (o :: l). rewrite fmap_cons. cbn [parse_all or_content_json observation_row_of].
  apply andb_true_iff in Ho as [Hv Hp]. rewrite parse_dump_observation, Hv, Hl by done. split_and!; [done|done|].
  constructor; [|done]. unfold sound_observation. by rewrite Hv, Hp.
Qed.

Lemma expired_retained now row : row_expired now row = negb (row_retained now row).
Proof. unfold row_expired, row_retained. destruct (or_retain_until row); [|done]. by rewrite string_ltb_leb, negb_involutive. Qed.

Lemma observation_unique o o' : sound_observation o = true → sound_observation o' = true →
  observation_row_of o = observation_row_of o' → o = o'.
Proof.
  intros [Hv Hp]%andb_true_iff [Hv' Hp']%andb_true_iff Heq. apply (f_equal or_content_json) in Heq. simpl in Heq.
  pose proof (parse_dump_observation o Hp) as H1. rewrite Heq, (parse_dump_observation o' Hp'), Hv, Hv' in H1. congruence.
Qed.

(** The observations a purge removes are those whose text of retention has passed. *)
Definition expired_now (now : datetime) (db : learning_db) : list (uuid * observation_row) :=
  List.filter (λ r, negb (row_retained now r.2)) (map_to_list (ld_observations db)).

Lemma expired_rows now db : learning_ok db →
  ∃ gone, expired now db = Ok gone
    ∧ length gone = length (expired_now now db)
    ∧ ∀ id, id ∈ lo_observation_id <$> gone ↔ ∃ row, ld_observations db !! id = Some row ∧ row_retained now row = false.
Proof.
  intros Hok. unfold expired. set (rows := List.filter _ _).
  assert (rows = expired_now now db) as Hnow by (apply filter_ext; intros r; apply expired_retained).
  assert (∀ id row, (id, row) ∈ rows ↔ ld_observations db !! id = Some row ∧ row_retained now row = false) as Hrows.
  { intros id row. unfold rows. rewrite list_elem_of_In, filter_In, <- list_elem_of_In, elem_of_map_to_list. simpl.
    by rewrite expired_retained, negb_true_iff. }
  destruct (parse_observations_ok rows.*2) as (gone & Hl & Heq & Hs).
  { intros row ([id row'] & -> & Hr)%list_elem_of_fmap. apply Hrows in Hr as [Hr _].
    destruct (lk_observations db Hok id row' Hr) as (o & -> & _ & Ho). by exists o. }
  exists gone. rewrite <- list_fmap_compose in Hl. split; [exact Hl|]. rewrite Forall_forall in Hs. split.
  { by rewrite <- Hnow, <- (length_fmap snd rows), Heq, length_fmap. }
  intros id. rewrite list_elem_of_fmap. split.
  - intros (o & -> & Ho). assert (observation_row_of o ∈ rows.*2) as Hr by (rewrite Heq; by apply list_elem_of_fmap_2).
    apply list_elem_of_fmap in Hr as ([id row] & Hro & Hr). simpl in Hro. subst row. apply Hrows in Hr as [Hlk Hx].
    destruct (lk_observations db Hok _ _ Hlk) as (o' & Hoo & Hid & Ho'). assert (o = o') as <-; [|by rewrite Hid; eauto].
    by apply observation_unique; [apply Hs|..].
  - intros (row & Hlk & Hx). destruct (lk_observations db Hok _ _ Hlk) as (o & -> & Hid & Ho).
    assert (observation_row_of o ∈ rows.*2) as Hr by (apply list_elem_of_fmap; exists (id, observation_row_of o); by rewrite Hrows).
    rewrite Heq in Hr. apply list_elem_of_fmap in Hr as (o' & Hoo & Ho'). exists o'. split; [|done].
    by rewrite <- Hid, (observation_unique _ _ Ho (Hs o' Ho') Hoo).
Qed.

(** A purge removes exactly what has expired: it always succeeds, is on disk, counts
    the rows whose retention has passed, removes those and keeps every other
    observation, proposal and tombstone as it was. *)
Theorem purge_removes_exactly_expired now ctx c :
  learning_ok (live c) →
  let '(c', res) := purge_expired now ctx c in
  res = Ok (Z.of_nat (length (expired_now now (live c)))) ∧ durable c' = live c'
  ∧ (∀ id, ld_observations (live c') !! id =
       match ld_observations (live c) !! id with
       | Some row => if row_retained now row then Some row else None
       | None => None
       end)
  ∧ ld_proposals (live c') = ld_proposals (live c) ∧ ld_tombstones (live c') = ld_tombstones (live c).
Proof.
  intros Hok. unfold LearningStore.purge_expired. rewrite bind_run, verify_run by done. rewrite bind_run. unfold query.
  destruct (expired_rows now _ Hok) as (gone & -> & Hlen & Hin). rewrite bind_run.
  pose proof (expire_all_run ctx gone c Hok) as Hrun. destruct (for_each _ _ _) as [c' res].
  destruct Hrun as (_ & Hp & Ht & Ho & ->). simpl. rewrite Hlen. split_and!; [done|done| |done|done].
  intros id. rewrite Ho, foldl_delete_lookup. specialize (Hin id).
  change (map lo_observation_id gone) with (lo_observation_id <$> gone).
  destruct (ld_observations (live c) !! id) as [row|] eqn:Hl; [|by case_bool_decide].
  case_bool_decide as Hg; destruct (row_retained now row) eqn:Hr; try done.
  - apply Hin in Hg as (row' & [= <-] & Hr'). congruence.
  - exfalso. apply Hg, Hin. eauto.
Qed.
End governance.
