(* ===== verification/LearningScenarios.v ===== *)
(** * Lessons on concrete histories

    A text form of the learning models that stands in for their JSON, runs of the
    repository on it, and what happens to a memory update that was corrected
    before it was deleted. *)

From stdpp Require Import prelude base strings list gmap countable.
From Stdlib Require Import ZArith QArith Lia.
From S2P Require Import Prelude PyTime PyText PyUuid PyFloat Transactions AuditLedger Knowledge Memory MemoryCodec Learning LearningSpec LearningStore LearningGovernance.
#[local] Open Scope string_scope.
#[local] Open Scope list_scope.
#[local] Open Scope Z_scope.

#[export] Instance LearningSource_countable : Countable LearningSource.t.
Proof.
  refine (inj_countable (index_in [LearningSource.PLANNER; LearningSource.CONVERSATION; LearningSource.USER_STATEMENT; LearningSource.USER_CORRECTION])
    (λ n, [LearningSource.PLANNER; LearningSource.CONVERSATION; LearningSource.USER_STATEMENT; LearningSource.USER_CORRECTION] !! n) _). by intros [].
Defined.

#[export] Instance ActualOutcome_countable : Countable ActualOutcome.t.
Proof.
  refine (inj_countable (index_in [ActualOutcome.COMPLETED; ActualOutcome.ABANDONED; ActualOutcome.RESCHEDULED; ActualOutcome.DEFERRED])
    (λ n, [ActualOutcome.COMPLETED; ActualOutcome.ABANDONED; ActualOutcome.RESCHEDULED; ActualOutcome.DEFERRED] !! n) _). by intros [].
Defined.

#[export] Instance ProposalStatus_countable : Countable ProposalStatus.t.
Proof.
  refine (inj_countable (index_in [ProposalStatus.PROPOSED; ProposalStatus.APPROVED; ProposalStatus.CORRECTED; ProposalStatus.DELETED])
    (λ n, [ProposalStatus.PROPOSED; ProposalStatus.APPROVED; ProposalStatus.CORRECTED; ProposalStatus.DELETED] !! n) _). by intros [].
Defined.

#[export] Instance LearningProvenance_eq_dec : EqDecision LearningProvenance.
Proof. solve_decision. Defined.
#[export] Instance LearningProvenance_countable : Countable LearningProvenance.
Proof.
  refine (inj_countable (λ r,
     [encode (lp_source r); encode (lp_source_id r); encode (lp_captured_at r)])
    (λ l, match l with
          | [x0; x1; x2] =>
              x0 ← decode x0; x1 ← decode x1; x2 ← decode x2;
              Some (Build_LearningProvenance x0 x1 x2)
          | _ => None
          end) _).
  intros []. cbv beta iota. by rewrite !decode_encode.
Defined.

#[export] Instance LearnedActivity_eq_dec : EqDecision LearnedActivity.
Proof. solve_decision. Defined.
#[export] Instance LearnedActivity_countable : Countable LearnedActivity.
Proof.
  refine (inj_countable (λ r,
     [encode (la_activity_id r); encode (la_title r); encode (la_planned_start r); encode (la_planned_end r); encode (la_energy_required r)])
    (λ l, match l with
          | [x0; x1; x2; x3; x4] =>
              x0 ← decode x0; x1 ← decode x1; x2 ← decode x2; x3 ← decode x3; x4 ← decode x4;
              Some (Build_LearnedActivity x0 x1 x2 x3 x4)
          | _ => None
          end) _).
  intros []. cbv beta iota. by rewrite !decode_encode.
Defined.

#[export] Instance ObservationTrigger_countable : Countable ObservationTrigger.
Proof.
  refine (inj_countable' (λ t, (ot_kind t, ot_source t)) (λ p, Build_ObservationTrigger p.1 p.2) _). by intros [].
Defined.

#[export] Instance LearningObservation_eq_dec : EqDecision LearningObservation.
Proof. solve_decision. Defined.
#[export] Instance LearningObservation_countable : Countable LearningObservation.
Proof.
  refine (inj_countable (λ r,
     [encode (lo_observation_id r); encode (lo_planned r); encode (lo_outcome r); encode (lo_actual_start r); encode (lo_actual_end r); encode (lo_trigger r); encode (lo_procedure_steps r); encode (lo_context_tags r); encode (lo_provenance r); encode (lo_observed_at r); encode (lo_retain_until r)])
    (λ l, match l with
          | [x0; x1; x2; x3; x4; x5; x6; x7; x8; x9; x10] =>
              x0 ← decode x0; x1 ← decode x1; x2 ← decode x2; x3 ← decode x3; x4 ← decode x4; x5 ← decode x5; x6 ← decode x6; x7 ← decode x7; x8 ← decode x8; x9 ← decode x9; x10 ← decode x10;
              Some (Build_LearningObservation x0 x1 x2 x3 x4 x5 x6 x7 x8 x9 x10)
          | _ => None
          end) _).
  intros []. cbv beta iota. by rewrite !decode_encode.
Defined.

#[export] Instance Lesson_eq_dec : EqDecision Lesson.
Proof. solve_decision. Defined.
#[export] Instance Lesson_countable : Countable Lesson.
Proof.
  refine (inj_countable' (λ l, match l with Procedure t s => inl (t, s) | MemoryUpdate c x => inr (c, x) end)
    (λ s, match s with inl (t, s) => Procedure t s | inr (c, x) => MemoryUpdate c x end) _). by intros [].
Defined.

#[export] Instance LearningProposal_eq_dec : EqDecision LearningProposal.
Proof. solve_decision. Defined.
#[export] Instance LearningProposal_countable : Countable LearningProposal.
Proof.
  refine (inj_countable (λ r,
     [encode (pr_proposal_id r); encode (pr_lesson r); encode (pr_supporting_observation_ids r); encode (pr_confidence r); encode (pr_explanation r); encode (pr_status r); encode (pr_created_at r); encode (pr_corrected_at r); encode (pr_correction_note r)])
    (λ l, match l with
          | [x0; x1; x2; x3; x4; x5; x6; x7; x8] =>
              x0 ← decode x0; x1 ← decode x1; x2 ← decode x2; x3 ← decode x3; x4 ← decode x4; x5 ← decode x5; x6 ← decode x6; x7 ← decode x7; x8 ← decode x8;
              Some (Build_LearningProposal x0 x1 x2 x3 x4 x5 x6 x7 x8)
          | _ => None
          end) _).
  intros []. cbv beta iota. by rewrite !decode_encode.
Defined.

Module LearningText.
#[export] Instance codec : LearningCodec := {
  dump_observation := encode_text;
  parse_observation s := o ← decode_text s; if observation_valid o then Some o else None;
  dump_proposal := encode_text;
  parse_proposal s := p ← decode_text s; if proposal_valid p then Some p else None;
  dump_trigger t := "{kind:" +:+ ot_kind t +:+ ",source:" +:+ ot_source t +:+ "}";
}.
#[export] Instance laws : LearningCodecLaws.
Proof.
  split.
  - intros o _. unfold parse_observation, dump_observation, codec. by rewrite decode_encode_text.
  - intros p _. unfold parse_proposal, dump_proposal, codec. by rewrite decode_encode_text.
Qed.
End LearningText.
#[local] Existing Instances LearningText.codec LearningText.laws.

Module Coach.
Fixpoint checksum (acc : N) (s : string) : N :=
  match s with
  | EmptyString => acc
  | String c s' => checksum (N.land (acc * 31 + Ascii.N_of_ascii c) 65535) s'
  end.
Definition mac (key payload : string) : string :=
  let n := checksum 7 payload in
  String (Ascii.ascii_of_N (N.shiftr n 8)) (String (Ascii.ascii_of_N (N.land n 255)) "").
Definition uuid5 (name : string) : uuid := Z.pos (encode name).
Definition ctx : TransitionContext :=
  {| tc_actor := "owner"; tc_correlation_id := "c"; tc_occurred_at := utc_datetime 50 |}.
Definition now : datetime := utc_datetime 60.
Definition empty_db : learning_db :=
  {| ld_observations := ∅; ld_proposals := ∅; ld_tombstones := ∅; ld_audit := empty_ledger |}.
Definition empty : connection learning_db := Connection empty_db empty_db false.

Definition trigger : ObservationTrigger := {| ot_kind := "alarm"; ot_source := "phone" |}.
Definition seen (id : uuid) (outcome : ActualOutcome.t) (steps : list string) (until : option datetime) :
    LearningObservation :=
  {| lo_observation_id := id;
     lo_planned := {| la_activity_id := 9; la_title := "run"; la_planned_start := utc_datetime 0;
                      la_planned_end := utc_datetime 10; la_energy_required := None |};
     lo_outcome := outcome; lo_actual_start := None; lo_actual_end := None; lo_trigger := Some trigger;
     lo_procedure_steps := steps; lo_context_tags := ["work"];
     lo_provenance := {| lp_source := LearningSource.PLANNER; lp_source_id := "plan"; lp_captured_at := utc_datetime 11 |};
     lo_observed_at := utc_datetime 11; lo_retain_until := until |}.
Definition done_ (id : uuid) : LearningObservation := seen id ActualOutcome.COMPLETED ["shoes"; "water"] None.
Definition deferred (id : uuid) : LearningObservation := seen id ActualOutcome.DEFERRED [] None.

Abbreviation run := (lesson_run mac "k" uuid5).
Abbreviation do_ := (lesson_do mac "k" uuid5).
Definition procedure : uuid := procedure_id uuid5 trigger.
Definition update : uuid := memory_id uuid5 ActualOutcome.DEFERRED ["work"].
Definition observed (f : uuid → LearningObservation) : list lesson_op :=
  (λ id, OpObserve (f id) ctx) <$> [1; 2; 3].
Definition correction : ProposalCorrection :=
  {| cr_expected_status := ProposalStatus.PROPOSED; cr_note := "no"; cr_procedure := Some ["water"];
     cr_content := Some "run is fine" |}.

Lemma empty_learning : learning_fresh mac "k" uuid5 empty.
Proof. split_and!; [|done..]. split; [by eexists|by eexists|..]; intros id x Hl; simpl in Hl; by rewrite lookup_empty in Hl. Qed.

Lemma trigger_alone : sole_identity uuid5 trigger.
Proof.
  assert (∀ a b : string, uuid5 a = uuid5 b → a = b) as Hinj by (intros a b [= Heq%(inj encode)]; done).
  split.
  - intros [k s] Heq%Hinj. unfold trigger. cbn [ot_kind ot_source] in Heq. rewrite !join_cons in Heq.
    do 2 apply append_inj_l in Heq. apply free_of_split_once in Heq as [-> Heq]; [|done..].
    simpl in Heq. by subst.
  - intros o tags Heq%Hinj. destruct tags; discriminate Heq.
Qed.
End Coach.

Lemma lessons_need_agreement_witness :
  ∃ l p steps, learn_proposals Coach.uuid5 (Coach.done_ <$> [1; 2; 3]) Coach.now = Ok l ∧ p ∈ l
    ∧ procedure_lesson (Coach.done_ <$> [1; 2; 3]) p Coach.trigger steps.
Proof.
  destruct (lessons_need_agreement Coach.uuid5 (Coach.done_ <$> [1; 2; 3]) Coach.now) as (l & Hl & _ & Hp & _).
  - repeat constructor.
  - vm_compute. discriminate.
  - destruct (Hp Coach.trigger ["shoes"; "water"]) as (p & steps & Hin & Hles); [vm_compute; lia..|]. eauto 6.
Defined.

Module Approved.
Definition ops : list lesson_op :=
  Coach.observed Coach.done_ ++ [OpLearn Coach.now Coach.ctx; OpApproveLesson Coach.procedure Coach.ctx; OpReopen].
Definition routed : list LearningProposal :=
  match route_candidates (live (Coach.run ops Coach.empty)) with Ok l => l | Err _ => [] end.
End Approved.

Lemma routed_lessons_were_approved_witness :
  length Approved.routed = 1%nat
  ∧ Forall (λ p, ∃ before ctx after, Approved.ops = before ++ OpApproveLesson (pr_proposal_id p) ctx :: after
      ∧ (approve_lesson Coach.mac "k" (pr_proposal_id p) ctx (Coach.run before Coach.empty)).2 = Ok p) Approved.routed.
Proof.
  split; [vm_compute; reflexivity|].
  destruct (routed_lessons_were_approved Coach.mac "k" Coach.uuid5 Coach.empty Approved.ops Coach.empty_learning) as (l & Hl & Hin).
  { vm_compute. reflexivity. }
  unfold Approved.routed. rewrite Hl. apply list.Forall_forall. intros p Hp. apply (Hin p Hp).
Defined.

Module Retired.
Definition ops : list lesson_op := Coach.observed Coach.done_ ++ [OpLearn Coach.now Coach.ctx].
Definition op : lesson_op := OpCorrectLesson Coach.procedure Coach.correction Coach.ctx.
Definition later : list lesson_op :=
  [OpApproveLesson Coach.procedure Coach.ctx; OpDeleteLesson Coach.procedure ProposalStatus.CORRECTED Coach.ctx;
   OpLearn Coach.now Coach.ctx; OpApproveLesson Coach.procedure Coach.ctx].
End Retired.

Lemma retired_procedures_never_route_witness :
  ∃ l, route_candidates (live (Coach.run Retired.later (Coach.do_ Retired.op (Coach.run Retired.ops Coach.empty)))) = Ok l
    ∧ ∀ p steps, p ∈ l → pr_lesson p ≠ Procedure Coach.trigger steps.
Proof.
  apply (retired_procedures_never_route Coach.mac "k" Coach.uuid5 Coach.empty Retired.ops Retired.op Retired.later Coach.trigger
    Coach.empty_learning); [vm_compute; reflexivity..|exact Coach.trigger_alone|vm_compute; reflexivity].
Defined.

Module Purged.
Definition ops : list lesson_op :=
  [OpObserve (Coach.seen 1 ActualOutcome.DEFERRED [] (Some (utc_datetime 55))) Coach.ctx;
   OpObserve (Coach.seen 2 ActualOutcome.DEFERRED [] (Some (utc_datetime 65))) Coach.ctx].
End Purged.

Lemma purge_removes_exactly_expired_witness :
  (purge_expired Coach.mac "k" Coach.now Coach.ctx (Coach.run Purged.ops Coach.empty)).2 = Ok 1.
Proof.
  assert (forallb lesson_plain Purged.ops = true) as Hops by (vm_compute; reflexivity).
  destruct Coach.empty_learning as (Hok & Hd & _).
  destruct (lesson_run_ok Coach.mac "k" Coach.uuid5 Purged.ops Coach.empty (conj Hok Hok) Hops) as [Hok' _].
  pose proof (purge_removes_exactly_expired Coach.mac "k" Coach.uuid5 Coach.now Coach.ctx _ Hok') as H.
  destruct (purge_expired Coach.mac "k" Coach.now Coach.ctx (Coach.run Purged.ops Coach.empty)) as [c' res].
  destruct H as [-> _]. vm_compute. reflexivity.
Defined.

(** A memory update that was corrected and then deleted is learned again word for
    word, because the tombstone holds the corrected text; deleting it again raises on
    the tombstone of the first deletion, and leaves the row's removal pending: the
    next operation commits it without any audit entry of a second deletion. *)
Theorem deleted_update_returns :
  let learned := Coach.run (Coach.observed Coach.deferred ++ [OpLearn Coach.now Coach.ctx]) Coach.empty in
  let deleted := Coach.run [OpCorrectLesson Coach.update Coach.correction Coach.ctx;
                            OpDeleteLesson Coach.update ProposalStatus.CORRECTED Coach.ctx] learned in
  let again := Coach.do_ (OpLearn Coach.now Coach.ctx) deleted in
  let second := delete_lesson Coach.mac "k" Coach.update ProposalStatus.PROPOSED Coach.ctx again in
  let next := Coach.do_ (OpObserve (Coach.deferred 4) Coach.ctx) second.1 in
  _read Coach.update (live again) = _read Coach.update (live learned)
  ∧ second.2 = Err LearningIntegrityError
  ∧ _exists Coach.update (durable second.1) = true
  ∧ _exists Coach.update (durable next) = false
  ∧ length (db_entries (ld_audit (durable next))) = S (length (db_entries (ld_audit (durable again)))).
Proof. vm_compute. split_and!; reflexivity. Qed.
