(* ===== verification/Energy.v ===== *)
(** * Energy check-ins ([energy/models.py], [energy/checkins.py], [energy/learning.py],
      [energy/planner_feedback.py])

    Prompts that ask how much energy the user has, under consent and the user's own
    hours; the patterns learned from the answers; and what a pattern may change in a
    proposed day.  The zone database is a parameter. *)

From stdpp Require Import prelude base strings list gmap sorting.
From Stdlib Require Import ZArith QArith Qabs Qround Lia.
From S2P Require Import Prelude PyTime PyFloat PlannerModels PlannerScoring PlannerPlacement PlannerExplanation PlannerProjection Planner PlannerSpec Learning.
#[local] Open Scope string_scope.
#[local] Open Scope list_scope.
#[local] Open Scope Z_scope.

Inductive EnergyError :=
| EnergyTypeError                          (** naive against aware times *)
| EnergyZoneNotFound (key : string)
| EnergyOverflowError                      (** a [datetime] out of range *)
| EnergyValidationError
| UnsafeEnergyReplanError (activity_ids : list string)
| EnergyPlannerError (e : PlannerError).

(** ** Models *)

(** A [datetime.time]: microseconds of the day, and the offset it may carry. *)
Record wall_clock := { wc_micros : Z; wc_offset : option Z }.

Definition wc_utc (t : wall_clock) : Z := wc_micros t - default 0 (wc_offset t).
Definition wc_aware (t : wall_clock) : bool := match wc_offset t with Some _ => true | None => false end.
Definition wc_eqb (a b : wall_clock) : bool :=
  if Bool.eqb (wc_aware a) (wc_aware b) then wc_utc a =? wc_utc b else false.
Definition wc_compare (f : Z → Z → bool) (a b : wall_clock) : result EnergyError bool :=
  if Bool.eqb (wc_aware a) (wc_aware b) then Ok (f (wc_utc a) (wc_utc b)) else Err EnergyTypeError.

Record DailyWindow := { dw_starts_at : wall_clock; dw_ends_at : wall_clock }.
Definition validate_window (w : DailyWindow) : bool := negb (wc_eqb (dw_starts_at w) (dw_ends_at w)).

Record EnergyPreferences := {
  ep_timezone : string;
  ep_awake_window : DailyWindow;
  ep_quiet_window : option DailyWindow;
  ep_notifications_enabled : bool;
  ep_response_window_minutes : Z;
  ep_snooze_minutes : Z;
}.
Definition preferences_valid (p : EnergyPreferences) : bool :=
  nonempty (ep_timezone p) && validate_window (ep_awake_window p)
  && match ep_quiet_window p with Some w => validate_window w | None => true end
  && in_range 1 180 (ep_response_window_minutes p) && in_range 1 180 (ep_snooze_minutes p).

Record EnergyConsent := { ec_granted : bool; ec_decided_at : datetime; ec_provenance_id : string }.
Definition consent_valid (c : EnergyConsent) : bool := nonempty (ec_provenance_id c) && aware (ec_decided_at c).

Record EnergyResponse := { er_rating : Z; er_responded_at : datetime }.
Definition response_valid (r : EnergyResponse) : bool := in_range 1 5 (er_rating r).

Inductive SuppressionReason := CONSENT_REQUIRED | NOTIFICATIONS_DISABLED | OUTSIDE_AWAKE_WINDOW | QUIET_HOURS.

(** The fields [ScheduledCheckIn] and [SnoozedCheckIn] share. *)
Record ActiveCheckIn := {
  ac_check_in_id : string;
  ac_scheduled_at : datetime;
  ac_respond_by : datetime;
  ac_snooze_count : Z;
}.
Record EnergyObservation := {
  eo_check_in_id : string;
  eo_rating : Z;
  eo_observed_at : datetime;
  eo_provenance_id : string;
}.
Inductive CheckIn :=
| ScheduledCheckIn (a : ActiveCheckIn)
| SnoozedCheckIn (a : ActiveCheckIn)
| SuppressedNotification (check_in_id : string) (reason : SuppressionReason)
| MissedCheckIn (check_in_id : string) (missed_at : datetime) (snooze_count : Z)
| CompletedCheckIn (check_in_id : string) (observation : EnergyObservation) (snooze_count : Z).

(** Constraints on the fields the code computes. *)
Definition check_in_valid (c : CheckIn) : bool :=
  match c with
  | ScheduledCheckIn a => nonempty (ac_check_in_id a)
  | SnoozedCheckIn a => nonempty (ac_check_in_id a) && (1 <=? ac_snooze_count a)
  | SuppressedNotification id _ => nonempty id
  | MissedCheckIn id _ n => nonempty id && (0 <=? n)
  | CompletedCheckIn id o n =>
      nonempty id && (0 <=? n) && nonempty (eo_check_in_id o) && in_range 1 5 (eo_rating o)
      && nonempty (eo_provenance_id o)
  end.
Definition built_check_in (c : CheckIn) : result EnergyError CheckIn :=
  if check_in_valid c then Ok c else Err EnergyValidationError.

(** ** Policy *)

Section energy.
Context (db : zone_db).
Open Scope py_scope.

Definition known_zone (key : string) : result EnergyError zone :=
  match db key with Some data => Ok (mk_zone key data) | None => Err (EnergyZoneNotFound key) end.

Definition compare_times (f : datetime → datetime → bool) (a b : datetime) : result EnergyError bool :=
  if Bool.eqb (aware a) (aware b) then Ok (f a b) else Err EnergyTypeError.
Definition dt_leb (a b : datetime) : bool := negb (dt_ltb b a).

(** [d + timedelta(minutes=n)]: on the wall clock of the zone the time is in. *)
Definition add_minutes (d : datetime) (n : Z) : result EnergyError datetime :=
  let local := dt_local d + minutes n in
  if Knowledge.datetime_range local
  then Ok (match dt_tz d with
           | ZoneInfo key data => in_zone (mk_zone key data) false local
           | tz => {| dt_local := local; dt_offset := dt_offset d; dt_tz := tz |}
           end)
  else Err EnergyOverflowError.

Definition _contains (w : DailyWindow) (value : wall_clock) : result EnergyError bool :=
  let* ordered := wc_compare Z.ltb (dw_starts_at w) (dw_ends_at w) in
  if ordered : bool
  then let* after := wc_compare Z.leb (dw_starts_at w) value in
       if after : bool then wc_compare Z.ltb value (dw_ends_at w) else Ok false
  else let* after := wc_compare Z.leb (dw_starts_at w) value in
       if after : bool then Ok true else wc_compare Z.ltb value (dw_ends_at w).

(** The wall clock of an instant in the user's zone. *)
Definition local_clock (z : zone) (t : datetime) : wall_clock :=
  {| wc_micros := dt_local (astimezone z (utc t)) mod day; wc_offset := None |}.

Definition _suppression_reason (p : EnergyPreferences) (c : EnergyConsent) (evaluated_at : datetime) :
    result EnergyError (option SuppressionReason) :=
  let* refused := if ec_granted c then compare_times (λ a b, dt_ltb b a) (ec_decided_at c) evaluated_at else Ok true in
  if refused : bool then Ok (Some CONSENT_REQUIRED)
  else if negb (ep_notifications_enabled p) then Ok (Some NOTIFICATIONS_DISABLED)
  else
    let* z := known_zone (ep_timezone p) in
    let now := local_clock z evaluated_at in
    let* awake := _contains (ep_awake_window p) now in
    if negb awake then Ok (Some OUTSIDE_AWAKE_WINDOW)
    else match ep_quiet_window p with
         | None => Ok None
         | Some w => let* quiet := _contains w now in
                     Ok (if quiet : bool then Some QUIET_HOURS else None)
         end.

Definition schedule_check_in (p : EnergyPreferences) (c : EnergyConsent) (check_in_id : string)
    (evaluated_at : datetime) : result EnergyError CheckIn :=
  let* reason := _suppression_reason p c evaluated_at in
  match reason with
  | Some why => built_check_in (SuppressedNotification check_in_id why)
  | None =>
      let* respond_by := add_minutes evaluated_at (ep_response_window_minutes p) in
      built_check_in (ScheduledCheckIn
        {| ac_check_in_id := check_in_id; ac_scheduled_at := evaluated_at;
           ac_respond_by := respond_by; ac_snooze_count := 0 |})
  end.

(** [None] when the prompt is still open. *)
Definition mark_missed (a : ActiveCheckIn) (evaluated_at : datetime) : result EnergyError (option CheckIn) :=
  let* open_ := compare_times dt_leb evaluated_at (ac_respond_by a) in
  if open_ : bool then Ok None
  else let* missed := built_check_in (MissedCheckIn (ac_check_in_id a) (ac_respond_by a) (ac_snooze_count a)) in
       Ok (Some missed).

Definition respond_active (a : ActiveCheckIn) (r : EnergyResponse) (c : EnergyConsent) : result EnergyError CheckIn :=
  let* refused := if ec_granted c then compare_times (λ x y, dt_ltb y x) (ec_decided_at c) (er_responded_at r)
                  else Ok true in
  if refused : bool then built_check_in (SuppressedNotification (ac_check_in_id a) CONSENT_REQUIRED)
  else
    let* resolved := mark_missed a (er_responded_at r) in
    match resolved with
    | Some missed => Ok missed
    | None =>
        built_check_in (CompletedCheckIn (ac_check_in_id a)
          {| eo_check_in_id := ac_check_in_id a; eo_rating := er_rating r; eo_observed_at := er_responded_at r;
             eo_provenance_id := "notification:" +:+ ac_check_in_id a |} (ac_snooze_count a))
    end.
(** Prompts that are no longer active are not of the accepted type. *)
Definition respond_to_check_in (prompt : CheckIn) (r : EnergyResponse) (c : EnergyConsent) :
    option (result EnergyError CheckIn) :=
  match prompt with
  | SuppressedNotification _ _ => Some (Ok prompt)
  | ScheduledCheckIn a | SnoozedCheckIn a => Some (respond_active a r c)
  | _ => None
  end.

Definition snooze_active (a : ActiveCheckIn) (p : EnergyPreferences) (c : EnergyConsent) (acted_at : datetime) :
    result EnergyError CheckIn :=
  let* reason := _suppression_reason p c acted_at in
  match reason with
  | Some why => built_check_in (SuppressedNotification (ac_check_in_id a) why)
  | None =>
      let* resolved := mark_missed a acted_at in
      match resolved with
      | Some missed => Ok missed
      | None =>
          let* scheduled_at := add_minutes acted_at (ep_snooze_minutes p) in
          let* target := _suppression_reason p c scheduled_at in
          match target with
          | Some _ => built_check_in (MissedCheckIn (ac_check_in_id a) scheduled_at (ac_snooze_count a + 1))
          | None =>
              let* respond_by := add_minutes scheduled_at (ep_response_window_minutes p) in
              built_check_in (SnoozedCheckIn
                {| ac_check_in_id := ac_check_in_id a; ac_scheduled_at := scheduled_at;
                   ac_respond_by := respond_by; ac_snooze_count := ac_snooze_count a + 1 |})
          end
      end
  end.
Definition snooze_check_in (prompt : CheckIn) (p : EnergyPreferences) (c : EnergyConsent) (acted_at : datetime) :
    option (result EnergyError CheckIn) :=
  match prompt with
  | SuppressedNotification _ _ => Some (Ok prompt)
  | ScheduledCheckIn a | SnoozedCheckIn a => Some (snooze_active a p c acted_at)
  | _ => None
  end.

(** ** Patterns *)

Inductive TimeBucket := MORNING | AFTERNOON | EVENING | NIGHT.
#[export] Instance bucket_eq_dec : EqDecision TimeBucket.
Proof. solve_decision. Defined.
Definition buckets : list TimeBucket := [MORNING; AFTERNOON; EVENING; NIGHT].

Definition MINIMUM_PATTERN_SAMPLES : nat := 3.
Definition ENERGY_RANGE : Z := 4.

Record EnergyPattern := {
  en_bucket : TimeBucket;
  en_expected_level : Z;
  en_sample_count : Z;
  en_confidence : Q;
  en_provenance_ids : list string;
  en_learned_at : datetime;
}.
Definition pattern_valid (p : EnergyPattern) : bool :=
  in_range 1 5 (en_expected_level p) && (3 <=? en_sample_count p) && confidence_valid (en_confidence p)
  && forallb nonempty (en_provenance_ids p) && (3 <=? length (en_provenance_ids p))%nat.

Definition bucket_of_hour (h : Z) : TimeBucket :=
  if (5 <=? h) && (h <? 12) then MORNING
  else if (12 <=? h) && (h <? 17) then AFTERNOON
  else if (17 <=? h) && (h <? 22) then EVENING
  else NIGHT.
Definition _bucket (z : zone) (observed_at : datetime) : TimeBucket :=
  bucket_of_hour (dt_local (astimezone z (utc observed_at)) mod day / hour).

Definition rating_sum (samples : list EnergyObservation) : Z := foldr (λ o s, eo_rating o + s) 0 samples.
Definition mean_rating (samples : list EnergyObservation) : Q :=
  fdiv (inject_Z (rating_sum samples)) (inject_Z (Z.of_nat (length samples))).
Definition energy_agreement (samples : list EnergyObservation) : Q :=
  let mean := mean_rating samples in
  let deviations := (λ o, Qabs (fsub (inject_Z (eo_rating o)) mean)) <$> samples in
  fsub 1 (fdiv (float_sum deviations) (inject_Z (Z.of_nat (length samples) * ENERGY_RANGE))).

Definition energy_pattern (learned_at : datetime) (bucket : TimeBucket) (samples : list EnergyObservation) :
    EnergyPattern :=
  {| en_bucket := bucket; en_expected_level := Qfloor (fadd (mean_rating samples) (1 # 2));
     en_sample_count := Z.of_nat (length samples);
     en_confidence := round6 (fmul (energy_agreement samples) (samples_factor (length samples)));
     en_provenance_ids := py_sorted String.ltb (eo_provenance_id <$> samples);
     en_learned_at := learned_at |}.

Fixpoint patterns_of (z : zone) (observations : list EnergyObservation) (learned_at : datetime)
    (l : list TimeBucket) : result EnergyError (list EnergyPattern) :=
  match l with
  | [] => Ok []
  | bucket :: rest =>
      let samples := List.filter (λ o, bool_decide (_bucket z (eo_observed_at o) = bucket)) observations in
      if (length samples <? MINIMUM_PATTERN_SAMPLES)%nat then patterns_of z observations learned_at rest
      else
        let p := energy_pattern learned_at bucket samples in
        let* _ := raise_if (negb (pattern_valid p)) EnergyValidationError in
        let* others := patterns_of z observations learned_at rest in
        Ok (p :: others)
  end.

(** Observations are grouped in order; the zone is looked up for each of them. *)
Definition learn_energy_patterns (observations : list EnergyObservation) (timezone : string) (learned_at : datetime) :
    result EnergyError (list EnergyPattern) :=
  match observations with
  | [] => Ok []
  | _ => let* z := known_zone timezone in patterns_of z observations learned_at buckets
  end.

(** ** Feedback to the planner *)

Definition MINIMUM_PLANNER_CONFIDENCE : Q := Eval vm_compute in fl (6 # 10).

Record PlannerEnergyFeedback := {
  pf_applied : bool;
  pf_bucket : TimeBucket;
  pf_confidence : Q;
  pf_provenance_ids : list string;
  pf_affected_activity_ids : list string;
}.
Record EnergyReplanResult := { rr_proposal : ProposedDay; rr_feedback : PlannerEnergyFeedback }.

Definition at_hour (z : zone) (date h : Z) : datetime := in_zone z false (date * day + h * hour).

Definition bucket_bounds (z : zone) (date : Z) (b : TimeBucket) : list (datetime * datetime) :=
  match b with
  | MORNING => [(at_hour z date 5, at_hour z date 12)]
  | AFTERNOON => [(at_hour z date 12, at_hour z date 17)]
  | EVENING => [(at_hour z date 17, at_hour z date 22)]
  | NIGHT => [(at_hour z date 0, at_hour z date 5); (at_hour z date 22, at_hour z (date + 1) 0)]
  end.

Definition _bucket_intervals (z : zone) (p : EnergyPattern) (r : DayPlanRequest) : list (datetime * datetime) :=
  omap (λ bounds : datetime * datetime,
    let start := Z.max (utc bounds.1) (utc (dr_window_start r)) in
    let end_ := Z.min (utc bounds.2) (utc (dr_window_end r)) in
    if start <? end_ then Some (astimezone z start, astimezone z end_) else None)
    (bucket_bounds z (dr_plan_date r) (en_bucket p)).

Definition planned_kind (k : PlanBlockKind) : bool :=
  match k with KFIXED | KFLEXIBLE | KPROTECTED => true | _ => false end.
Definition reserved_kind (k : PlanBlockKind) : bool :=
  match k with KFIXED | KPROTECTED => true | _ => false end.

Definition _baseline (proposal : ProposedDay) : list ExistingPlanBlock :=
  omap (λ b, match pb_activity_id b with
             | Some id =>
                 if planned_kind (pb_kind b)
                 then Some {| eb_block_id := pb_block_id b; eb_activity_id := id; eb_title := pb_title b;
                              eb_starts_at := pb_starts_at b; eb_ends_at := pb_ends_at b |}
                 else None
             | None => None
             end) (py_internal_plan proposal).

Definition _protected_intervals (proposal : ProposedDay) : list (string * datetime * datetime) :=
  omap (λ b, if reserved_kind (pb_kind b)
             then Some (default "" (pb_activity_id b), pb_starts_at b, pb_ends_at b) else None)
    (py_internal_plan proposal).

Fixpoint intervals_equal (l m : list (string * datetime * datetime)) : bool :=
  match l, m with
  | [], [] => true
  | (i, s, e) :: l', (i', s', e') :: m' =>
      String.eqb i i' && dt_eqb s s' && dt_eqb e e' && intervals_equal l' m'
  | _, _ => false
  end.

(** [request.model_copy(update=...)] *)
Definition with_energy (r : DayPlanRequest) (baseline : list ExistingPlanBlock) (windows : list EnergyWindow) :
    DayPlanRequest :=
  {| dr_plan_date := dr_plan_date r; dr_timezone := dr_timezone r;
     dr_window_start := dr_window_start r; dr_window_end := dr_window_end r;
     dr_state_revision := dr_state_revision r; dr_expected_state_revision := dr_expected_state_revision r;
     dr_activities := dr_activities r; dr_energy_windows := windows;
     dr_baseline_blocks := baseline; dr_schedule_resolution := dr_schedule_resolution r |}.

Definition flexible_ids (r : DayPlanRequest) : gset string :=
  list_to_set (pa_activity_id <$> List.filter (λ a, bool_decide (pa_flexibility a = FLEXIBLE)) (dr_activities r)).
Definition changed_ids (d : PlanDiff) : gset string :=
  list_to_set ((bc_activity_id <$> pd_added d) ++ (bc_activity_id <$> pd_removed d) ++ (mb_activity_id <$> pd_moved d)).

Definition energy_feedback (p : EnergyPattern) (affected : list string) : PlannerEnergyFeedback :=
  {| pf_applied := negb (bool_decide (affected = [])); pf_bucket := en_bucket p; pf_confidence := en_confidence p;
     pf_provenance_ids := en_provenance_ids p; pf_affected_activity_ids := affected |}.

Definition apply_energy_pattern (input_fingerprint : DayPlanRequest → string) (r : DayPlanRequest)
    (previous : ProposedDay) (p : EnergyPattern) : result EnergyError EnergyReplanResult :=
  let* z := known_zone (dr_timezone r) in
  let intervals := _bucket_intervals z p r in
  if flt (en_confidence p) MINIMUM_PLANNER_CONFIDENCE || bool_decide (intervals = [])
  then Ok {| rr_proposal := previous; rr_feedback := energy_feedback p [] |}
  else
    let windows := (λ i, {| ew_starts_at := i.1; ew_ends_at := i.2; ew_level := en_expected_level p |}) <$> intervals in
    let* _ := raise_if (negb (forallb (λ w, is_ok (validate_energy_window w)) windows
                              && forallb (λ b, is_ok (validate_existing_block b)) (_baseline previous)))
                EnergyValidationError in
    match propose_day db input_fingerprint (with_energy r (_baseline previous) windows) with
    | Err e => Err (EnergyPlannerError e)
    | Ok replanned =>
        let protected_ := _protected_intervals previous in
        let* _ := raise_if (negb (intervals_equal protected_ (_protected_intervals replanned)))
                    (UnsafeEnergyReplanError ((λ i, i.1.1) <$> protected_)) in
        let changed := changed_ids (py_diff replanned) in
        let ineligible := sorted_ids (changed ∖ flexible_ids r) in
        let* _ := raise_if (negb (bool_decide (ineligible = []))) (UnsafeEnergyReplanError ineligible) in
        Ok {| rr_proposal := replanned; rr_feedback := energy_feedback p (sorted_ids changed) |}
    end.
End energy.

(** * What energy check-ins guarantee

    When a prompt may be shown and an answer recorded, and what a learned pattern
    may change in a proposed day. *)

(** ** Prompts *)

(** A time of the day in a daily window, the days wrapping around. *)
Definition in_window (w : DailyWindow) (t : Z) : Prop :=
  (t - wc_micros (dw_starts_at w)) mod day < (wc_micros (dw_ends_at w) - wc_micros (dw_starts_at w)) mod day.

Definition clock_wf (t : wall_clock) : Prop := wc_offset t = None ∧ 0 <= wc_micros t < day.
(** The times of a window are wall clocks without an offset, and differ. *)
Definition window_wf (w : DailyWindow) : Prop :=
  clock_wf (dw_starts_at w) ∧ clock_wf (dw_ends_at w) ∧ validate_window w = true.

Lemma day_pos : 0 < day.
Proof. done. Qed.

Lemma cyclic_order a b t : 0 <= a < day → 0 <= b < day → 0 <= t < day → a ≠ b →
  (t - a) mod day < (b - a) mod day ↔ (if a <? b then a <= t ∧ t < b else a <= t ∨ t < b).
Proof.
  intros Ha Hb Ht Hab. assert (∀ x, 0 <= x < day → ∀ y, 0 <= y < day →
    (x - y) mod day = if y <=? x then x - y else x - y + day) as Hmod.
  { intros x Hx y Hy. destruct (Z.leb_spec y x); [apply Z.mod_small; lia|].
    symmetry. apply (Z.mod_unique_pos _ _ (-1)); lia. }
  rewrite (Hmod t Ht a Ha), (Hmod b Hb a Ha).
  destruct (Z.ltb_spec a b), (Z.leb_spec a t), (Z.leb_spec a b); lia.
Qed.

Lemma contains_spec w t : window_wf w → 0 <= t < day →
  ∃ b, _contains w {| wc_micros := t; wc_offset := None |} = Ok b ∧ (b = true ↔ in_window w t).
Proof.
  intros ([Hso Hs] & [Heo He] & Hv) Ht. unfold _contains, wc_compare, wc_aware, wc_utc, in_window.
  rewrite Hso, Heo. simpl. rewrite ?Z.sub_0_r.
  assert (wc_micros (dw_starts_at w) ≠ wc_micros (dw_ends_at w)) as Hne.
  { unfold validate_window, wc_eqb, wc_aware, wc_utc in Hv. rewrite Hso, Heo in Hv. simpl in Hv. bool_to_prop. lia. }
  setoid_rewrite (cyclic_order _ _ t Hs He Ht Hne).
  destruct (Z.ltb_spec (wc_micros (dw_starts_at w)) (wc_micros (dw_ends_at w))); simpl;
    destruct (Z.leb_spec (wc_micros (dw_starts_at w)) t); simpl; eexists; (split; [reflexivity|]);
    rewrite ?Z.ltb_lt; split; intros; lia || done.
Qed.

(** What the user's policy allows at a time: consent given before it, notifications
    on, inside the waking hours and outside the quiet ones, on the user's clock. *)
Record permitted (z : zone) (p : EnergyPreferences) (c : EnergyConsent) (t : datetime) : Prop := {
  pm_granted : ec_granted c = true;
  pm_decided : dt_ltb t (ec_decided_at c) = false;
  pm_enabled : ep_notifications_enabled p = true;
  pm_awake : in_window (ep_awake_window p) (wc_micros (local_clock z t));
  pm_quiet : ∀ w, ep_quiet_window p = Some w → ¬ in_window w (wc_micros (local_clock z t));
}.

Section prompts.
Context (db : zone_db).
Abbreviation _suppression_reason := (_suppression_reason db).
Abbreviation schedule_check_in := (schedule_check_in db).
Abbreviation snooze_check_in := (snooze_check_in db).

(** Preferences as the user sets them: valid, in a known zone, naive hours. *)
Definition policy_wf (p : EnergyPreferences) (z : zone) : Prop :=
  preferences_valid p = true ∧ known_zone db (ep_timezone p) = Ok z ∧ window_wf (ep_awake_window p)
  ∧ ∀ w, ep_quiet_window p = Some w → window_wf w.

Lemma local_clock_range z t : 0 <= wc_micros (local_clock z t) < day.
Proof. apply Z.mod_pos_bound, day_pos. Qed.

(** On aware times the policy decides, and allows exactly what is permitted. *)
Lemma suppression_exact p c z t :
  policy_wf p z → consent_valid c = true → aware t = true →
  ∃ why, _suppression_reason p c t = Ok why ∧ (why = None ↔ permitted z p c t).
Proof.
  intros (_ & Hz & Haw & Hqw) [_ Hc]%andb_true_iff Ht. unfold Energy._suppression_reason, compare_times.
  rewrite Hc, Ht, Hz. simpl. destruct (ec_granted c) eqn:Hg; simpl.
  2:{ eexists. split; [done|]. split; [done|]. intros [? _ _ _ _]. congruence. }
  destruct (dt_ltb t (ec_decided_at c)) eqn:Hd; simpl.
  { eexists. split; [done|]. split; [done|]. intros [_ ? _ _ _]. congruence. }
  destruct (ep_notifications_enabled p) eqn:He; simpl.
  2:{ eexists. split; [done|]. split; [done|]. intros [_ _ ? _ _]. congruence. }
  destruct (contains_spec _ _ Haw (local_clock_range z t)) as (ba & Ha & Hba).
  change (_contains (ep_awake_window p) (local_clock z t) = Ok ba) in Ha. rewrite Ha. simpl.
  destruct ba; simpl.
  2:{ eexists. split; [done|]. split; [done|]. intros [_ _ _ Hin _]. by apply Hba in Hin. }
  destruct (ep_quiet_window p) as [w|] eqn:Hq.
  - destruct (contains_spec w _ (Hqw w eq_refl) (local_clock_range z t)) as (bq & Hb & Hbq).
    change (_contains w (local_clock z t) = Ok bq) in Hb. rewrite Hb. simpl. eexists. split; [done|].
    destruct bq; (split; [intros Hn|intros [_ _ _ _ Hn]]); try done.
    + exfalso. apply (Hn w Hq). by apply Hbq.
    + split; [done|done|done|by apply Hba|]. intros w' Hw'. rewrite Hq in Hw'. injection Hw' as <-. intros Hin%Hbq. done.
  - eexists. split; [done|]. split; [|done]. intros _. split; [done|done|done|by apply Hba|]. intros w' Hw'. by rewrite Hq in Hw'.
Qed.

(** A prompt that some history of scheduling and snoozing led to, under the
    preferences and the consent of the last call and acted on at its time. *)
Inductive prompted : EnergyPreferences → EnergyConsent → datetime → CheckIn → Prop :=
| prompted_schedule p c id t d z :
    schedule_check_in p c id t = Ok d → aware t = true → consent_valid c = true → policy_wf p z →
    prompted p c t d
| prompted_snooze p0 c0 t0 d p c t d' z :
    prompted p0 c0 t0 d → snooze_check_in d p c t = Some (Ok d') → aware t = true →
    consent_valid c = true → policy_wf p z → prompted p c t d'.

Definition active (d : CheckIn) : option ActiveCheckIn :=
  match d with ScheduledCheckIn a | SnoozedCheckIn a => Some a | _ => None end.

(** When the prompt of a call made at [t] is due: at once, or after the snooze. *)
Definition due_time (p : EnergyPreferences) (t : datetime) (d : CheckIn) : result EnergyError datetime :=
  match d with ScheduledCheckIn _ => Ok t | _ => add_minutes t (ep_snooze_minutes p) end.

(** An open prompt: due when the call asked for, permitted by the policy of the
    call at that time, answerable for the time the user set. *)
Definition prompt_ok (p : EnergyPreferences) (c : EnergyConsent) (t : datetime) (d : CheckIn)
    (a : ActiveCheckIn) : Prop :=
  0 <= ac_snooze_count a ∧ nonempty (ac_check_in_id a) = true ∧ aware (ac_respond_by a) = true
  ∧ due_time p t d = Ok (ac_scheduled_at a)
  ∧ (∃ z, known_zone db (ep_timezone p) = Ok z ∧ permitted z p c (ac_scheduled_at a))
  ∧ add_minutes (ac_scheduled_at a) (ep_response_window_minutes p) = Ok (ac_respond_by a).

Lemma built_ok c c' : built_check_in c = Ok c' → c' = c ∧ check_in_valid c = true.
Proof. unfold built_check_in. destruct (check_in_valid c) eqn:Hv; [|done]. by intros [= ->]. Qed.

Lemma add_minutes_aware d n d' : add_minutes d n = Ok d' → aware d' = aware d.
Proof. unfold add_minutes. destruct (Knowledge.datetime_range _); [|done]. intros [= <-]. unfold aware. by destruct (dt_tz d). Qed.

Lemma prompted_ok p c t d a : prompted p c t d → active d = Some a → prompt_ok p c t d a.
Proof.
  intros Hd. revert a. induction Hd as [p c id t d z Hrun Ht Hc Hp|p0 c0 t0 d p c t d' z Hd IH Hrun Ht Hc Hp]; intros a Ha.
  - unfold Energy.schedule_check_in in Hrun. destruct (suppression_exact p c z t Hp Hc Ht) as (why & Hw & Hwhy).
    rewrite Hw in Hrun. simpl in Hrun. destruct why as [why|]; [by apply built_ok in Hrun as [-> _]|].
    destruct (add_minutes t _) as [by_|] eqn:Hadd; [|done]. apply built_ok in Hrun as [-> Hv]. injection Ha as <-.
    unfold prompt_ok. simpl. split_and!; [done|done|by rewrite (add_minutes_aware _ _ _ Hadd)|done| |done].
    exists z. split; [apply Hp|by apply Hwhy].
  - assert (active d = None ∨ ∃ a0, active d = Some a0) as [Hn|[a0 Ha0]] by (destruct (active d); eauto).
    { destruct d; try done. injection Hrun as <-. done. }
    assert (snooze_active db a0 p c t = Ok d') as Hs by (destruct d; try done; injection Ha0 as <-; by injection Hrun).
    destruct (IH a0 Ha0) as (Hn & Hid & Hby & _). unfold snooze_active in Hs.
    destruct (suppression_exact p c z t Hp Hc Ht) as (why & Hw & _). rewrite Hw in Hs. simpl in Hs.
    destruct why as [why|]; [by apply built_ok in Hs as [-> _]|].
    unfold mark_missed in Hs. destruct (compare_times _ _ _) as [op|]; [|done]. simpl in Hs.
    destruct op; simpl in Hs; [|destruct (built_check_in _) eqn:Hb; [|done]; simpl in Hs; apply built_ok in Hb as [-> _]; by injection Hs as <-].
    destruct (add_minutes t _) as [due|] eqn:Hdue; [|done]. simpl in Hs.
    assert (aware due = true) as Hda by by rewrite (add_minutes_aware _ _ _ Hdue).
    destruct (suppression_exact p c z due Hp Hc Hda) as (why & Hw2 & Hwhy). rewrite Hw2 in Hs. simpl in Hs.
    destruct why as [why|]; [by apply built_ok in Hs as [-> _]|].
    destruct (add_minutes due _) as [by_|] eqn:Hadd; [|done]. simpl in Hs. apply built_ok in Hs as [-> Hv].
    injection Ha as <-. unfold prompt_ok. simpl. split_and!; [lia|done|by rewrite (add_minutes_aware _ _ _ Hadd)|done| |done].
    exists z. split; [apply Hp|by apply Hwhy].
Qed.

(** C31. Check-ins respect consent and hours: a prompt that any history of scheduling
    and snoozing leaves open is due at the time the last call gave it - at once, or
    after the snooze - and at that time the preferences and the consent of that call
    permit it: consent given before, notifications on, inside the waking and outside
    the quiet hours on the clock of the user's own zone; it may be answered for
    exactly the time those preferences set.  A valid answer to it is recorded exactly
    when consent was given before the answer and the answer came within that time, as
    the rating the user gave, and otherwise the prompt is suppressed or missed, never
    answered on the user's behalf. *)
Theorem check_ins_respect_policy p0 c0 t d a r c :
  prompted p0 c0 t d → active d = Some a → response_valid r = true → consent_valid c = true →
  aware (er_responded_at r) = true →
  due_time p0 t d = Ok (ac_scheduled_at a)
  ∧ (∃ z, known_zone db (ep_timezone p0) = Ok z ∧ permitted z p0 c0 (ac_scheduled_at a))
  ∧ add_minutes (ac_scheduled_at a) (ep_response_window_minutes p0) = Ok (ac_respond_by a)
  ∧ ∃ d', respond_to_check_in d r c = Some (Ok d')
      ∧ match d' with
        | CompletedCheckIn id o _ =>
            ec_granted c = true ∧ dt_ltb (er_responded_at r) (ec_decided_at c) = false
            ∧ dt_leb (er_responded_at r) (ac_respond_by a) = true
            ∧ id = ac_check_in_id a ∧ eo_rating o = er_rating r ∧ eo_observed_at o = er_responded_at r
        | MissedCheckIn _ missed_at _ =>
            missed_at = ac_respond_by a ∧ dt_leb (er_responded_at r) (ac_respond_by a) = false
        | SuppressedNotification _ why =>
            why = CONSENT_REQUIRED ∧ (ec_granted c = false ∨ dt_ltb (er_responded_at r) (ec_decided_at c) = true)
        | _ => False
        end.
Proof.
  intros Hd Ha Hr [_ Hca]%andb_true_iff Hra. destruct (prompted_ok p0 c0 t d a Hd Ha) as (Hn & Hid & Hby & Hdue & Hperm & Hwin).
  split_and!; [done..|].
  assert (respond_to_check_in d r c = Some (respond_active a r c)) as -> by (destruct d; by simplify_eq/=).
  unfold respond_active, compare_times. rewrite Hca, Hra. simpl.
  assert (∀ why, check_in_valid (SuppressedNotification (ac_check_in_id a) why) = true) as Hsup by done.
  destruct (ec_granted c) eqn:Hg; simpl; [|unfold built_check_in; rewrite Hsup; eexists; split; [done|]; simpl; tauto].
  destruct (dt_ltb (er_responded_at r) (ec_decided_at c)) eqn:Hlt; [unfold built_check_in; rewrite Hsup; eexists; split; [done|]; simpl; tauto|].
  unfold mark_missed, compare_times. rewrite Hra, Hby. simpl.
  destruct (dt_leb (er_responded_at r) (ac_respond_by a)) eqn:Hle; simpl.
  - unfold response_valid in Hr. unfold built_check_in. simpl. rewrite Hid, (proj2 (Z.leb_le _ _) Hn), Hr. simpl. eexists. by split; [done|].
  - unfold built_check_in. simpl. rewrite Hid, (proj2 (Z.leb_le _ _) Hn). simpl. eexists. split; [done|]. done.
Qed.
End prompts.
