(* ===== verification/EnergyReplan.v ===== *)
(** * Replanning a day for an energy pattern

    The composition of [energy/planner_feedback.py] with the planner: what replanning
    a day the planner proposed can change, and that the replan guards never refuse it
    when fixed and protected activities have no travel and no dependencies. *)

From stdpp Require Import prelude base strings list gmap sorting.
From Stdlib Require Import ZArith QArith Lia.
From S2P Require Import Prelude PyTime PyFloat PlannerModels PlannerScoring PlannerPlacement PlannerExplanation PlannerProjection Planner PlannerSpec Energy.
#[local] Open Scope string_scope.
#[local] Open Scope list_scope.
#[local] Open Scope Z_scope.

(** ** Lists strictly sorted by a number *)

Section strictly_sorted.
Context {A : Type} (f : A → Z).
Abbreviation ordered := (StronglySorted (λ x y, f x < f y)).

Lemma ordered_ext (l m : list A) : ordered l → ordered m → (∀ x, x ∈ l ↔ x ∈ m) → l = m.
Proof.
  intros Hl. revert m. induction Hl as [|x l Hl IH Hx]; intros m Hm Heq.
  - destruct m as [|y m]; [done|]. exfalso. apply (not_elem_of_nil y), Heq. left.
  - destruct Hm as [|y m Hm Hy]; [exfalso; apply (not_elem_of_nil x), Heq; left|].
    rewrite list.Forall_forall in Hx, Hy. assert (x = y) as <-.
    { pose proof (proj1 (Heq x) ltac:(left)) as [->|Hxm]%elem_of_cons; [done|].
      pose proof (proj2 (Heq y) ltac:(left)) as [->|Hyl]%elem_of_cons; [done|].
      specialize (Hx y Hyl). specialize (Hy x Hxm). simpl in *. lia. }
    f_equal. apply IH; [done|]. intros z. specialize (Heq z). rewrite !elem_of_cons in Heq. split; intros Hz.
    + destruct (proj1 Heq (or_intror Hz)) as [->|?]; [|done]. specialize (Hx x Hz). simpl in Hx. lia.
    + destruct (proj2 Heq (or_intror Hz)) as [->|?]; [|done]. specialize (Hy x Hz). simpl in Hy. lia.
Qed.

Lemma ordered_nodup {K} (k : A → K) l :
  ordered l → (∀ x y, x ∈ l → y ∈ l → k x = k y → f x = f y) → NoDup (map k l).
Proof.
  intros Hl. induction Hl as [|x l Hl IH Hx]; intros Hk; simpl; [constructor|].
  rewrite list.Forall_forall in Hx. constructor; [|apply IH; set_solver].
  intros (y & Hy & Hin)%list_elem_of_fmap. specialize (Hx y Hin). simpl in Hx.
  specialize (Hk x y ltac:(left) ltac:(by right) Hy). lia.
Qed.

Lemma ordered_omap {B} (g : B → Z) (h : A → option B) l :
  ordered l → (∀ x y, h x = Some y → g y = f x) → StronglySorted (λ x y, g x < g y) (omap h l).
Proof.
  intros Hl Hh. induction Hl as [|x l Hl IH Hx]; simpl; [constructor|].
  destruct (h x) as [y|] eqn:Hy; [|done]. constructor; [done|].
  apply list.Forall_forall. intros z (x' & Hx' & Hz)%list_elem_of_omap.
  rewrite (Hh x y Hy), (Hh x' z Hz). by apply (proj1 (list.Forall_forall _ _) Hx).
Qed.
End strictly_sorted.

Lemma tiles_ordered lo hi bs :
  tiles lo hi bs → StronglySorted (λ b c, bstart b < bstart c) bs ∧ Forall (λ b, lo <= bstart b) bs.
Proof.
  revert lo. induction bs as [|b bs IH]; intros lo; simpl; [repeat constructor|].
  intros (Hb & Hlt & Ht). destruct (IH _ Ht) as [Hs Hf]. split.
  - constructor; [done|]. eapply Forall_impl; [exact Hf|]. simpl. lia.
  - constructor; [lia|]. eapply Forall_impl; [exact Hf|]. simpl. lia.
Qed.

(** ** The blocks of a plan *)

Section blocks.
Context (r : DayPlanRequest) (z : zone) (ps : list Placement).
Abbreviation plan := (build_internal_plan r z ps).

Lemma plan_elem b :
  b ∈ plan → (∃ p, p ∈ ps ∧ b ∈ placement_blocks r z p) ∨ pb_activity_id b = None.
Proof.
  intros [Hb|Hb]%with_gaps_elem; [left|by right]. unfold activity_blocks in Hb.
  by rewrite elem_of_py_sorted, concat_elem in Hb.
Qed.

Lemma plan_keeps p b : p ∈ ps → b ∈ placement_blocks r z p → b ∈ plan.
Proof.
  intros Hp Hb. apply with_gaps_keeps. unfold activity_blocks. rewrite elem_of_py_sorted, concat_elem. eauto.
Qed.

Lemma placement_blocks_cases p b :
  b ∈ placement_blocks r z p →
  b = activity_block p z (_explanation_code (pl_activity p) r)
  ∨ (pb_kind b = KTRAVEL ∧ pb_activity_id b = Some (pl_id p)
     ∧ (pa_travel_minutes_before (pl_activity p) ≠ 0 ∨ pa_travel_minutes_after (pl_activity p) ≠ 0)).
Proof.
  unfold placement_blocks. rewrite !elem_of_app. intros [Hb|[Hb|Hb]].
  - destruct (_ =? 0) eqn:E; [set_solver|]. bool_to_prop. apply list_elem_of_singleton in Hb as ->. eauto.
  - apply list_elem_of_singleton in Hb as ->. by left.
  - destruct (_ =? 0) eqn:E; [set_solver|]. bool_to_prop. apply list_elem_of_singleton in Hb as ->. eauto.
Qed.

Lemma own_block p : activity_block p z (_explanation_code (pl_activity p) r) ∈ placement_blocks r z p.
Proof. unfold placement_blocks. set_solver. Qed.

Lemma planned_block_inv b :
  b ∈ plan → planned_kind (pb_kind b) = true →
  ∃ p, p ∈ ps ∧ b = activity_block p z (_explanation_code (pl_activity p) r).
Proof.
  intros [Hb|(s & e & ->)]%with_gaps_cases Hk; [|done].
  unfold activity_blocks in Hb. rewrite elem_of_py_sorted, concat_elem in Hb. destruct Hb as (p & Hp & Hb).
  apply placement_blocks_cases in Hb as [->|(Ht & _)]; [eauto|by rewrite Ht in Hk].
Qed.
End blocks.

(** The diff's maps, by block. *)
Lemma proposed_map_elem blocks id b :
  proposed_map blocks !! id = Some b → b ∈ blocks ∧ is_Some (pb_activity_id b).
Proof.
  unfold proposed_map. induction blocks as [|c blocks IH] using rev_ind; simpl; [done|].
  rewrite foldl_app. simpl. rewrite elem_of_app.
  destruct (bool_decide (pb_activity_id c = None)) eqn:Hc; simpl; [naive_solver|].
  destruct (bool_decide (pb_kind c = KAVAILABLE)); [naive_solver|]. rewrite lookup_insert. case_decide; [|naive_solver].
  intros [= <-]. split; [right; left|]. apply bool_decide_eq_false in Hc. by destruct (pb_activity_id c).
Qed.

Lemma proposed_map_some blocks b :
  b ∈ blocks → is_Some (pb_activity_id b) → pb_kind b ≠ KAVAILABLE → is_Some (proposed_map blocks !! pb_block_id b).
Proof.
  intros Hb [id Hid] Hk. unfold proposed_map. induction blocks as [|c blocks IH] using rev_ind; simpl; [by apply elem_of_nil in Hb|].
  rewrite foldl_app. simpl. apply elem_of_app in Hb as [Hb|Hb].
  - destruct (_ || _); [by apply IH|]. rewrite lookup_insert. case_decide; [by eexists|by apply IH].
  - apply list_elem_of_singleton in Hb as <-. rewrite !bool_decide_eq_false_2 by congruence. simpl.
    rewrite lookup_insert_eq. by eexists.
Qed.

Lemma baseline_map_elem blocks id e : baseline_map blocks !! id = Some e → e ∈ blocks.
Proof.
  unfold baseline_map. induction blocks as [|c blocks IH] using rev_ind; simpl; [done|].
  rewrite foldl_app. simpl. rewrite elem_of_app, lookup_insert. case_decide; [|naive_solver]. intros [= <-]. right. left.
Qed.

Lemma baseline_map_some blocks e : e ∈ blocks → is_Some (baseline_map blocks !! eb_block_id e).
Proof.
  unfold baseline_map. induction blocks as [|c blocks IH] using rev_ind; simpl; [by intros Hb%elem_of_nil|].
  rewrite foldl_app. simpl. rewrite elem_of_app, lookup_insert. case_decide as Hd; [by eexists|].
  intros [?|Hb]; [by apply IH|]. apply list_elem_of_singleton in Hb as <-. done.
Qed.

(** ** Fixed work under another energy profile *)

Section replan.
Context (r : DayPlanRequest) (base : list ExistingPlanBlock) (windows : list EnergyWindow).
Context (Hwf : request_wf r) (Hbase : NoDup (map eb_block_id base)).
Abbreviation r' := (with_energy r base windows).
Abbreviation counts := (dependent_counts r).

Lemma with_energy_wf : request_wf r'.
Proof. destruct Hwf. by constructor. Qed.

Lemma place_fixed_decides q (Hq : request_wf q) :
  (∃ ps, place_fixed q counts = FixedPlacements ps) ↔ ∀ a, a ∈ fixed_activities q → ¬ conflicted q counts a.
Proof.
  pose proof (place_fixed_conflict_set q Hq counts) as Hc. unfold place_fixed.
  destruct (foldl _ _ _) as [ps cs]. simpl in Hc. case_bool_decide as He.
  - split; [|eauto]. intros _ a Ha Hca. apply (not_elem_of_empty (C := gset string) (pa_activity_id a)).
    rewrite <- He. apply Hc. eauto.
  - split; [intros [? [=]]|]. intros Hn. destruct He. apply set_eq. intros x. rewrite Hc. set_solver.
Qed.

(** The energy profile changes scores, never where fixed work is. *)
Lemma place_fixed_same : (∃ ps, place_fixed r counts = FixedPlacements ps) ↔ ∃ ps, place_fixed r' counts = FixedPlacements ps.
Proof using Hwf Hbase. rewrite (place_fixed_decides r Hwf), (place_fixed_decides r' with_energy_wf). done. Qed.

Lemma placement_unique ps p p' : NoDup (map pl_id ps) → p ∈ ps → p' ∈ ps → pl_id p = pl_id p' → p = p'.
Proof.
  intros Hn Hp Hp' Hid. apply (inj Some). rewrite <- (proj2 (placements_by_id_lookup ps (pl_id p) p Hn)) by done.
  by apply placements_by_id_lookup.
Qed.

Lemma fixed_in_plan q fixed ps p :
  request_wf q → place_fixed q counts = FixedPlacements fixed → fixed ⊆ ps → placements_ok q ps →
  p ∈ ps → pa_flexibility (pl_activity p) ≠ FLEXIBLE →
  pl_activity p ∈ fixed_activities q ∧ p = fixed_placement q counts (pl_activity p).
Proof.
  intros Hq Hf Hsub [Hok _ Hids] Hp Hfl. destruct (place_fixed_ok q Hq counts fixed Hf) as [-> _].
  rewrite list.Forall_forall in Hok. pose proof (pk_activity q p (Hok p Hp)) as Ha.
  assert (pl_activity p ∈ fixed_activities q) as Hin by by apply fixed_activities_elem.
  split; [done|]. apply (placement_unique ps); [done|done|by apply Hsub, list_elem_of_fmap_2|done].
Qed.

Lemma fixed_planned q fixed ps a :
  request_wf q → place_fixed q counts = FixedPlacements fixed → fixed ⊆ ps → a ∈ fixed_activities q →
  fixed_placement q counts a ∈ ps.
Proof. intros Hq Hf Hsub Ha. destruct (place_fixed_ok q Hq counts fixed Hf) as [-> _]. by apply Hsub, list_elem_of_fmap_2. Qed.

Lemma no_broken_dependencies q ps un :
  plan_ok q ps un → (∀ a, a ∈ dr_activities q → pa_flexibility a ≠ FLEXIBLE → pa_dependencies a = []) →
  invalid_dependencies ps = ∅.
Proof using Type.
  clear. intros Hok Hdep. apply set_eq. intros x. rewrite (invalid_dependencies_elem ps x); [|apply (po_placements q ps un Hok)].
  split; [|set_solver]. intros (p & Hp & _ & Hm). destruct Hm.
  destruct (decide (pa_flexibility (pl_activity p) = FLEXIBLE)) as [Hf|Hf]; [by apply (po_dependencies q ps un Hok)|].
  intros d Hd. pose proof (ps_each q ps (po_placements q ps un Hok)) as He. rewrite list.Forall_forall in He.
  rewrite (Hdep _ (pk_activity q p (He p Hp)) Hf) in Hd. by apply elem_of_nil in Hd.
Qed.
End replan.

(** ** A planned day *)

(** A day rendered from placements that keep the fixed ones. *)
Record rendered (db : zone_db) (q : DayPlanRequest) (day_ : ProposedDay) (ps : list Placement) : Prop := {
  rn_wf : request_wf q;
  rn_blocks : py_internal_plan day_ = build_internal_plan q (request_zone db q) ps;
  rn_ok : placements_ok q ps;
  rn_keeps : ∀ a, a ∈ fixed_activities q → fixed_placement q (dependent_counts q) a ∈ ps;
  rn_fixed : ∀ p, p ∈ ps → pa_flexibility (pl_activity p) ≠ FLEXIBLE →
    pl_activity p ∈ fixed_activities q ∧ p = fixed_placement q (dependent_counts q) (pl_activity p);
}.

Section rendered_day.
Context (db : zone_db) (q : DayPlanRequest) (day_ : ProposedDay) (ps : list Placement).
Context (Hr : rendered db q day_ ps).
Abbreviation z := (request_zone db q).
Abbreviation fixed a := (fixed_placement q (dependent_counts q) a).

Lemma rendered_ordered : StronglySorted (λ b c, bstart b < bstart c) (py_internal_plan day_).
Proof using Hr.
  destruct Hr as [Hwf -> Hok _ _]. by apply (tiles_ordered _ _ _ (build_internal_plan_tiles q z Hwf ps Hok)).
Qed.

Lemma protected_ordered : StronglySorted (λ s t, utc s.1.2 < utc t.1.2) (_protected_intervals day_).
Proof using Hr.
  apply (ordered_omap (λ b, bstart b)); [apply rendered_ordered|]. intros b t. destruct (reserved_kind _); [|done]. by intros [= <-].
Qed.

Lemma activity_block_elem p :
  p ∈ ps → activity_block p z (_explanation_code (pl_activity p) q) ∈ py_internal_plan day_.
Proof using Hr. intros Hp. rewrite (rn_blocks _ _ _ _ Hr). apply (plan_keeps q z ps p _ Hp), own_block. Qed.

Lemma activity_block_inv b :
  b ∈ py_internal_plan day_ → planned_kind (pb_kind b) = true →
  ∃ p, p ∈ ps ∧ b = activity_block p z (_explanation_code (pl_activity p) q).
Proof using Hr. rewrite (rn_blocks _ _ _ _ Hr). apply planned_block_inv. Qed.

(** Where fixed work is shown, by activity. *)
Lemma protected_elem t :
  t ∈ _protected_intervals day_ ↔
  ∃ a, a ∈ fixed_activities q
       ∧ t = (pa_activity_id a, astimezone z (utc (pl_starts_at (fixed a))), astimezone z (utc (pl_ends_at (fixed a)))).
Proof using Hr.
  unfold _protected_intervals. rewrite list_elem_of_omap. split.
  - intros (b & Hb & Ht). destruct (reserved_kind (pb_kind b)) eqn:Hk; [|done]. injection Ht as <-.
    destruct (activity_block_inv b Hb) as (p & Hp & ->); [by destruct (pb_kind b)|].
    destruct (rn_fixed _ _ _ _ Hr p Hp) as [Ha Hpa].
    { intros Hf. simpl in Hk. by rewrite Hf in Hk. }
    exists (pl_activity p). split; [done|]. by rewrite <- Hpa.
  - intros (a & Ha & ->). eexists. split; [apply activity_block_elem, (rn_keeps _ _ _ _ Hr a Ha)|].
    apply fixed_activities_elem in Ha as [_ Hf]. simpl. by destruct (pa_flexibility a).
Qed.

Definition existing_of (p : Placement) : ExistingPlanBlock :=
  {| eb_block_id := "activity:" +:+ pl_id p; eb_activity_id := pl_id p; eb_title := pa_title (pl_activity p);
     eb_starts_at := astimezone z (utc (pl_starts_at p)); eb_ends_at := astimezone z (utc (pl_ends_at p)) |}.

Lemma baseline_elem e : e ∈ _baseline day_ ↔ ∃ p, p ∈ ps ∧ e = existing_of p.
Proof using Hr.
  unfold _baseline. rewrite list_elem_of_omap. split.
  - intros (b & Hb & He). destruct (pb_activity_id b) as [id|] eqn:Hid; [|done].
    destruct (planned_kind (pb_kind b)) eqn:Hk; [|done]. injection He as <-.
    destruct (activity_block_inv b Hb Hk) as (p & Hp & ->). exists p. split; [done|]. by injection Hid as <-.
  - intros (p & Hp & ->). eexists. split; [by apply activity_block_elem|]. simpl. by destruct (pa_flexibility (pl_activity p)).
Qed.

Lemma existing_inj p p' : p ∈ ps → p' ∈ ps → eb_block_id (existing_of p) = eb_block_id (existing_of p') → p = p'.
Proof using Hr.
  intros Hp Hp' Hid. apply (placement_unique ps); [apply (rn_ok _ _ _ _ Hr)|done|done|].
  simpl in Hid. by apply (inj (String.app "activity:")) in Hid.
Qed.

Lemma baseline_ids : NoDup (map eb_block_id (_baseline day_)).
Proof using Hr.
  apply (ordered_nodup (λ e, utc (eb_starts_at e))).
  - apply (ordered_omap (λ b, bstart b)); [apply rendered_ordered|]. intros b e.
    destruct (pb_activity_id b); [|done]. destruct (planned_kind _); [|done]. by intros [= <-].
  - intros e e' (p & Hp & ->)%baseline_elem (p' & Hp' & ->)%baseline_elem Hid. by rewrite (existing_inj p p').
Qed.
End rendered_day.

Lemma planned_rendered db fp q fixed ps un es :
  request_wf q → place_fixed q (dependent_counts q) = FixedPlacements fixed → fixed ⊆ ps → plan_ok q ps un →
  rendered db q (planned_result db fp q ps un es) ps.
Proof.
  intros Hwf Hf Hsub Hok. pose proof (po_placements q ps un Hok) as Hps. constructor; [done|done|done| |].
  - intros a Ha. by apply (fixed_planned q q fixed).
  - intros p Hp Hfl. by apply (fixed_in_plan q q fixed ps).
Qed.

(** ** The replanned day against the previous one *)

Definition free_to_start (r : DayPlanRequest) : Prop :=
  ∀ a, a ∈ dr_activities r → pa_flexibility a ≠ FLEXIBLE →
    pa_travel_minutes_before a = 0 ∧ pa_travel_minutes_after a = 0 ∧ pa_dependencies a = [].

Section replanned_day.
Context (db : zone_db) (r : DayPlanRequest) (before after : ProposedDay) (windows : list EnergyWindow).
Context (ps ps' : list Placement) (Hfree : free_to_start r).
Context (Hids : ∀ a, a ∈ dr_activities r → pa_activity_id a ≠ "").
Abbreviation r' := (with_energy r (_baseline before) windows).
Context (Hb : rendered db r before ps) (Ha : rendered db r' after ps').

Lemma protected_same : _protected_intervals after = _protected_intervals before.
Proof using Hb Ha.
  apply (ordered_ext (λ t, utc t.1.2)); [by apply (protected_ordered db r' after ps')|by apply (protected_ordered db r before ps)|].
  intros t. rewrite (protected_elem db r' after ps' Ha), (protected_elem db r before ps Hb). done.
Qed.

(** A fixed activity's block has the same interval in both plans. *)
Lemma fixed_same p p' :
  p ∈ ps → p' ∈ ps' → pl_id p = pl_id p' → pa_flexibility (pl_activity p') ≠ FLEXIBLE →
  utc (pl_starts_at p) = utc (pl_starts_at p') ∧ utc (pl_ends_at p) = utc (pl_ends_at p').
Proof using Hb Ha.
  intros Hp Hp' Hid Hf. destruct (rn_fixed _ _ _ _ Ha p' Hp' Hf) as [Hin Heq].
  rewrite (placement_unique ps p (fixed_placement r (dependent_counts r) (pl_activity p'))).
  - by rewrite Heq.
  - apply (rn_ok _ _ _ _ Hb).
  - done.
  - by apply (rn_keeps _ _ _ _ Hb).
  - by rewrite Hid.
Qed.

Lemma placed_flexible q qs p :
  dr_activities q = dr_activities r → placements_ok q qs → p ∈ qs → pa_flexibility (pl_activity p) = FLEXIBLE →
  pl_id p ∈ flexible_ids r.
Proof.
  intros Hq [Hok _ _] Hp Hf. rewrite list.Forall_forall in Hok. pose proof (pk_activity _ _ (Hok p Hp)) as Hin.
  unfold flexible_ids. apply elem_of_list_to_set, list_elem_of_fmap. exists (pl_activity p). split; [done|].
  apply list_elem_of_In, filter_In. rewrite <- Hq. split; [by apply list_elem_of_In|by apply bool_decide_eq_true_2].
Qed.

(** A block of the new plan belongs to flexible work, or is a fixed activity's own. *)
Lemma new_block b id :
  b ∈ py_internal_plan after → pb_activity_id b = Some id → id ∉ flexible_ids r →
  ∃ p', p' ∈ ps' ∧ id = pl_id p' ∧ pa_flexibility (pl_activity p') ≠ FLEXIBLE
    ∧ b = activity_block p' (request_zone db r) (_explanation_code (pl_activity p') r).
Proof using Ha Hfree.
  intros Hin Hid Hfl. pose proof Ha as [Hwf Hbl Hok _ _]. rewrite Hbl in Hin.
  apply plan_elem in Hin as [(p' & Hp' & Hin)|Hn]; [|congruence].
  assert (pb_activity_id b = Some (pl_id p')) as Hpb
    by (apply placement_blocks_cases in Hin as [->|(_ & ? & _)]; done).
  assert (id = pl_id p') as -> by congruence.
  assert (pa_flexibility (pl_activity p') ≠ FLEXIBLE) as Hne
    by (intros Hf; destruct Hfl; by apply (placed_flexible r' ps')).
  exists p'. split_and!; [done|done|done|]. apply placement_blocks_cases in Hin as [?|(_ & _ & Ht)]; [done|].
  exfalso. pose proof (ps_each _ _ Hok) as He. rewrite list.Forall_forall in He.
  destruct (Hfree (pl_activity p') (pk_activity _ _ (He p' Hp')) Hne) as (Hz1 & Hz2 & _). destruct Ht; congruence.
Qed.

Lemma block_id_named b id : b ∈ py_internal_plan after → pb_activity_id b = Some id → str_or (Some id) "unreachable" = id.
Proof using Ha Hids.
  intros Hin Hid. pose proof Ha as [_ Hbl Hok _ _]. rewrite Hbl in Hin.
  apply plan_elem in Hin as [(p' & Hp' & Hin)|Hn]; [|congruence].
  assert (pb_activity_id b = Some (pl_id p')) as Hpb
    by (apply placement_blocks_cases in Hin as [->|(_ & ? & _)]; done).
  assert (id = pl_id p') as -> by congruence. pose proof (ps_each _ _ Hok) as He. rewrite list.Forall_forall in He.
  pose proof (Hids _ (pk_activity _ _ (He p' Hp'))) as Hne. unfold str_or, pl_id. by rewrite (proj2 (String.eqb_neq _ _) Hne).
Qed.

Lemma changes_flexible id : id ∈ changed_ids (build_diff r' (py_internal_plan after)) → id ∈ flexible_ids r.
Proof using Ha Hb Hfree Hids.
  intros Hc. destruct (decide (id ∈ flexible_ids r)) as [?|Hfl]; [done|exfalso].
  unfold changed_ids in Hc. rewrite elem_of_list_to_set, !elem_of_app, !list_elem_of_fmap in Hc.
  pose proof (proposed_map_key (py_internal_plan after)) as Hk.
  pose proof (baseline_map_key (_baseline before)) as Hk'.
  destruct Hc as [(c & -> & Hc)|[(c & -> & Hc)|(c & -> & Hc)]].
  - apply added_elem in Hc as (b & Hpb & Hnone & ->); [|done]. simpl in *.
    destruct (proposed_map_elem _ _ _ Hpb) as [Hin [id Hid]]. rewrite Hid, (block_id_named b id Hin Hid) in Hfl.
    destruct (new_block b id Hin Hid Hfl) as (p' & Hp' & -> & Hne & ->). simpl in Hnone.
    destruct (rn_fixed _ _ _ _ Ha p' Hp' Hne) as [Hfa _].
    destruct (baseline_map_some (_baseline before) (existing_of db r (fixed_placement r (dependent_counts r) (pl_activity p')))) as [e He].
    { apply (baseline_elem db r before ps Hb). eexists. split; [by apply (rn_keeps _ _ _ _ Hb)|done]. }
    assert (Some e = None) by (rewrite <- He; exact Hnone). done.
  - apply removed_elem in Hc as (e & Hbe & Hnone & ->); [|done]. simpl in *.
    apply baseline_map_elem, (baseline_elem db r before ps Hb) in Hbe as (p & Hp & ->). simpl in *.
    assert (pa_flexibility (pl_activity p) ≠ FLEXIBLE) as Hne
      by (intros Hf; destruct Hfl; by apply (placed_flexible r ps p); [|apply (rn_ok _ _ _ _ Hb)|..]).
    destruct (rn_fixed _ _ _ _ Hb p Hp Hne) as [Hfa _].
    destruct (proposed_map_some (py_internal_plan after) _ (activity_block_elem db r' after ps' Ha _ (rn_keeps _ _ _ _ Ha _ Hfa)))
      as [b Hbb]; [by eexists|simpl; by destruct (pa_flexibility (pl_activity p))|]. 
    assert (Some b = None) by (rewrite <- Hbb; exact Hnone). done.
  - apply moved_elem in Hc as (b & e & Hpb & Hbe & Hm & Hc). rewrite Hc in Hfl. simpl in Hfl.
    destruct (proposed_map_elem _ _ _ Hpb) as [Hin [id Hid]]. rewrite Hid, (block_id_named b id Hin Hid) in Hfl.
    destruct (new_block b id Hin Hid Hfl) as (p' & Hp' & -> & Hne & ->).
    pose proof (Hk' _ _ Hbe) as Hei. pose proof (Hk _ _ Hpb) as Hbi.
    apply baseline_map_elem, (baseline_elem db r before ps Hb) in Hbe as (p & Hp & ->). simpl in *.
    rewrite <- Hbi in Hei. apply (inj (String.app "activity:")) in Hei.
    destruct (fixed_same p p' Hp Hp' Hei Hne) as [Hs He]. unfold interval_moved in Hm. simpl in Hm.
    rewrite Hs, He, !dt_eqb_refl in Hm. done.
Qed.

Lemma proposed_activity_inv id b :
  proposed_map (py_internal_plan after) !! ("activity:" +:+ id) = Some b →
  ∃ p', p' ∈ ps' ∧ pl_id p' = id
    ∧ b = activity_block p' (request_zone db r) (_explanation_code (pl_activity p') r).
Proof using Ha.
  intros Hbb. pose proof (proposed_map_key _ _ _ Hbb) as Hk. destruct (proposed_map_elem _ _ _ Hbb) as [Hin [id' Hid]].
  pose proof Ha as [_ Hbl Hok _ _]. rewrite Hbl in Hin. apply plan_elem in Hin as [(p2 & Hp2 & Hin)|Hn]; [|congruence].
  unfold placement_blocks in Hin. rewrite !elem_of_app in Hin. destruct Hin as [Hin|[Hin|Hin]].
  - destruct (_ =? 0); [by apply elem_of_nil in Hin|]. apply list_elem_of_singleton in Hin as ->. done.
  - apply list_elem_of_singleton in Hin as ->. simpl in Hk. apply (inj (String.app "activity:")) in Hk. by exists p2.
  - destruct (_ =? 0); [by apply elem_of_nil in Hin|]. apply list_elem_of_singleton in Hin as ->. done.
Qed.

Lemma proposed_activity p' :
  p' ∈ ps' → proposed_map (py_internal_plan after) !! ("activity:" +:+ pl_id p')
    = Some (activity_block p' (request_zone db r) (_explanation_code (pl_activity p') r)).
Proof using Ha.
  intros Hp'. destruct (proposed_map_some _ _ (activity_block_elem db r' after ps' Ha p' Hp')) as [b Hbb];
    [by eexists|simpl; by destruct (pa_flexibility (pl_activity p'))|].
  change (proposed_map (py_internal_plan after) !! ("activity:" +:+ pl_id p') = Some b) in Hbb. rewrite Hbb. f_equal.
  destruct (proposed_activity_inv _ _ Hbb) as (p2 & Hp2 & Hid & ->). pose proof Ha as [_ _ Hok _ _].
  by rewrite (placement_unique ps' p2 p'); [|apply Hok|..].
Qed.

(** An activity that is not reported as changed is where it was. *)
Lemma unreported_unmoved b id :
  b ∈ py_internal_plan after → pb_activity_id b = Some id → planned_kind (pb_kind b) = true →
  id ∉ changed_ids (build_diff r' (py_internal_plan after)) →
  ∃ b0, b0 ∈ py_internal_plan before ∧ pb_activity_id b0 = Some id ∧ planned_kind (pb_kind b0) = true
    ∧ dt_eqb (pb_starts_at b) (pb_starts_at b0) = true ∧ dt_eqb (pb_ends_at b) (pb_ends_at b0) = true.
Proof using Ha Hb Hids.
  intros Hin Hid Hk Hc. pose proof (block_id_named b id Hin Hid) as Hname.
  destruct (activity_block_inv db r' after ps' Ha b Hin Hk) as (p' & Hp' & ->).
  pose proof (proposed_activity p' Hp') as Hpm. injection Hid as <-. unfold changed_ids in Hc.
  rewrite elem_of_list_to_set, !elem_of_app, !list_elem_of_fmap in Hc.
  destruct (baseline_map (_baseline before) !! ("activity:" +:+ pl_id p')) as [e|] eqn:He.
  2:{ destruct Hc. left. exists (_as_change (activity_block p' (request_zone db r) (_explanation_code (pl_activity p') r))).
      split; [by rewrite <- Hname at 1|]. apply added_elem; [apply proposed_map_key|]. by eexists. }
  destruct (interval_moved (activity_block p' (request_zone db r) (_explanation_code (pl_activity p') r)) e) eqn:Hm.
  { destruct Hc. right. right. exists (moved_block ("activity:" +:+ pl_id p') (activity_block p' (request_zone db r) (_explanation_code (pl_activity p') r)) e).
    split; [by rewrite <- Hname at 1|]. apply moved_elem. do 2 eexists. split_and!; [exact Hpm|exact He|done|done]. }
  pose proof (baseline_map_key _ _ _ He) as Hei. apply baseline_map_elem, (baseline_elem db r before ps Hb) in He as (p & Hp & ->).
  eexists. split_and!; [by apply (activity_block_elem db r before ps Hb p)| | | |].
  - simpl in *. apply (inj (String.app "activity:")) in Hei. change (Some (pl_id p) = Some (pl_id p')); by rewrite Hei.
  - simpl. by destruct (pa_flexibility (pl_activity p)).
  - unfold interval_moved in Hm. bool_to_prop. done.
  - unfold interval_moved in Hm. bool_to_prop. done.
Qed.

(** And one that was planned and is not reported is still planned, where it was. *)
Lemma unreported_kept b0 id :
  b0 ∈ py_internal_plan before → pb_activity_id b0 = Some id → planned_kind (pb_kind b0) = true →
  id ∉ changed_ids (build_diff r' (py_internal_plan after)) →
  ∃ b, b ∈ py_internal_plan after ∧ pb_activity_id b = Some id ∧ planned_kind (pb_kind b) = true
    ∧ dt_eqb (pb_starts_at b) (pb_starts_at b0) = true ∧ dt_eqb (pb_ends_at b) (pb_ends_at b0) = true.
Proof using Ha Hb Hids.
  intros Hin Hid Hk Hc. destruct (activity_block_inv db r before ps Hb b0 Hin Hk) as (p & Hp & ->).
  injection Hid as <-. change (pl_id p ∉ changed_ids (build_diff r' (py_internal_plan after))) in Hc.
  destruct (proposed_map (py_internal_plan after) !! ("activity:" +:+ pl_id p)) as [b|] eqn:Hpm.
  - destruct (proposed_activity_inv _ _ Hpm) as (p' & Hp' & Hid & ->).
    assert (planned_kind (pb_kind (activity_block p' (request_zone db r) (_explanation_code (pl_activity p') r))) = true)
      as Hk' by (simpl; by destruct (pa_flexibility (pl_activity p'))).
    pose proof (activity_block_elem db r' after ps' Ha p' Hp') as Hin'. rewrite <- Hid in Hc.
    destruct (unreported_unmoved _ (pl_id p') Hin' eq_refl Hk' Hc) as (b1 & Hb1 & Hid1 & Hk1 & Hs & He).
    destruct (activity_block_inv db r before ps Hb b1 Hb1 Hk1) as (p1 & Hp1 & ->). injection Hid1 as Hid1.
    assert (p1 = p) as -> by (apply (placement_unique ps); [apply (rn_ok _ _ _ _ Hb)|done|done|]; rewrite <- Hid; exact Hid1).
    eexists. split_and!; [exact Hin'| |done|exact Hs|exact He]. change (Some (pl_id p') = Some (pl_id p)). by f_equal.
  - destruct (baseline_map_some (_baseline before) (existing_of db r p)) as [e He].
    { apply (baseline_elem db r before ps Hb). by exists p. }
    change (baseline_map (_baseline before) !! ("activity:" +:+ pl_id p) = Some e) in He.
    pose proof (baseline_map_key _ _ _ He) as Hkey.
    assert (eb_activity_id e = pl_id p) as Hact.
    { pose proof (baseline_map_elem _ _ _ He) as (p2 & _ & ->)%(baseline_elem db r before ps Hb).
      by apply (inj (String.app "activity:")) in Hkey. }
    destruct Hc. unfold changed_ids. rewrite elem_of_list_to_set, !elem_of_app, !list_elem_of_fmap.
    right. left. exists (removed_change e). split; [done|].
    apply removed_elem; [apply baseline_map_key|]. exists e. simpl. by rewrite Hkey.
Qed.
End replanned_day.

(** A day the planner answers is rendered from placements, or empty because fixed work conflicts. *)
Lemma answered_day db fp q d :
  request_wf q → (∀ a, a ∈ dr_activities q → pa_flexibility a ≠ FLEXIBLE → pa_dependencies a = []) →
  propose_day db fp q = Ok d →
  dr_expected_state_revision q = dr_state_revision q
  ∧ ((∃ ps, rendered db q d ps ∧ ∃ fixed, place_fixed q (dependent_counts q) = FixedPlacements fixed)
     ∨ (py_internal_plan d = [] ∧ ∃ cs, place_fixed q (dependent_counts q) = FixedConflicts cs)).
Proof.
  intros Hwf Hdep Hd. assert (dr_expected_state_revision q = dr_state_revision q) as Hrev.
  { unfold propose_day in Hd. destruct (_ =? _) eqn:E; [by apply Z.eqb_eq in E|done]. }
  split; [done|]. pose proof (propose_day_outcome db fp q Hwf) as Ho. rewrite Hd in Ho.
  inversion Ho as [|cs Hf|fixed ps un es Hf Hok Hbr|fixed ps un es Hf Hsub Hok Hbr]; subst.
  - right. eauto.
  - destruct Hbr. by apply (no_broken_dependencies q ps un).
  - left. exists ps. split; [by apply (planned_rendered db fp q fixed)|eauto].
Qed.

(** ** What the replan's own models can refuse *)

Definition off_grid (t : datetime) : Prop := dt_local t mod minute ≠ 0.

Lemma minute_ok t field : aware t = true → ¬ off_grid t → _validate_minute t field = Ok tt.
Proof. intros Ha Hg. unfold _validate_minute. rewrite Ha. simpl. unfold off_grid in Hg. destruct (Z.eqb_spec (dt_local t mod minute) 0); [done|tauto]. Qed.

Lemma window_ok z p r i :
  i ∈ _bucket_intervals z p r → pattern_valid p = true → ¬ off_grid i.1 → ¬ off_grid i.2 →
  validate_energy_window {| ew_starts_at := i.1; ew_ends_at := i.2; ew_level := en_expected_level p |} = Ok tt.
Proof.
  intros Hi Hp H1 H2. unfold _bucket_intervals in Hi. apply list_elem_of_omap in Hi as (bounds & _ & Hi). cbv zeta in Hi.
  destruct (_ <? _) eqn:Hlt; [|done]. injection Hi as <-. bool_to_prop.
  assert (in_range 1 5 (en_expected_level p) = true) as Hl by (unfold pattern_valid in Hp; do 4 (apply andb_true_iff in Hp as [Hp _]); done).
  unfold validate_energy_window. simpl in *. rewrite Hl, !minute_ok by done. simpl. rewrite !utc_astimezone.
  destruct (Z.leb_spec (Z.min (utc bounds.2) (utc (dr_window_end r))) (Z.max (utc bounds.1) (utc (dr_window_start r)))); [lia|done].
Qed.

Lemma activity_names a : validate_activity a = Ok tt → nonempty (pa_activity_id a) = true ∧ nonempty (pa_title a) = true.
Proof.
  unfold validate_activity. intros H. unbind H. unfold activity_fields in Hv. unbind Hv.
  repeat match goal with H : require _ _ = Ok tt |- _ => apply require_ok in H end. done.
Qed.

Lemma validated_names db r a : validate_request db r = Ok tt → a ∈ dr_activities r →
  nonempty (pa_activity_id a) = true ∧ nonempty (pa_title a) = true.
Proof.
  unfold validate_request. intros H Ha. unbind H. apply validate_all_ok in Hv2. rewrite list.Forall_forall in Hv2.
  by apply activity_names, Hv2.
Qed.

Lemma existing_ok db r d ps e :
  validate_request db r = Ok tt → rendered db r d ps → e ∈ _baseline d → ¬ off_grid (eb_starts_at e) → ¬ off_grid (eb_ends_at e) →
  validate_existing_block e = Ok tt.
Proof.
  intros Hv Hr (p & Hp & ->)%(baseline_elem db r d ps Hr) H1 H2. pose proof Hr as [Hwf _ [Hok _ _] _ _].
  rewrite list.Forall_forall in Hok. destruct (placement_length r Hwf p (Hok p Hp)) as (_ & Hlt & _).
  pose proof (pk_activity r p (Hok p Hp)) as Ha. destruct (validated_names db r _ Hv Ha) as [Hid Ht].
  unfold validate_existing_block. simpl in *. unfold pl_id. rewrite Hid, Ht, !minute_ok by done. simpl. rewrite !utc_astimezone.
  destruct (Z.leb_spec (utc (pl_ends_at p)) (utc (pl_starts_at p))); [lia|done].
Qed.

Lemma forallb_fails {A} (f : A → bool) l : forallb f l = false → ∃ x, x ∈ l ∧ f x = false.
Proof.
  induction l as [|x l IH]; simpl; [done|]. intros [Hx|Hl]%andb_false_iff; [exists x; set_solver|].
  destruct (IH Hl) as (y & ? & ?). exists y. set_solver.
Qed.

Definition off_grid_interval (s e : datetime) : Prop := off_grid s ∨ off_grid e.
#[export] Instance off_grid_dec s e : Decision (off_grid_interval s e).
Proof. unfold off_grid_interval, off_grid. apply _. Defined.

(** A replan is refused by a model only for a pattern or a time no planner input has. *)
Lemma replan_models_ok db r d ps p z windows :
  windows = (λ i, {| ew_starts_at := i.1; ew_ends_at := i.2; ew_level := en_expected_level p |}) <$> _bucket_intervals z p r →
  validate_request db r = Ok tt → rendered db r d ps ∨ py_internal_plan d = [] →
  forallb (λ w, is_ok (validate_energy_window w)) windows && forallb (λ b, is_ok (validate_existing_block b)) (_baseline d) = false →
  pattern_valid p = false
  ∨ (∃ i, i ∈ _bucket_intervals z p r ∧ off_grid_interval i.1 i.2)
  ∨ ∃ e, e ∈ _baseline d ∧ off_grid_interval (eb_starts_at e) (eb_ends_at e).
Proof.
  intros -> Hv Hr Hf. destruct (pattern_valid p) eqn:Hp; [right|by left].
  apply andb_false_iff in Hf as [(w & (i & -> & Hi)%list_elem_of_fmap & Hw)%forallb_fails|(e & He & Hw)%forallb_fails].
  - left. exists i. split; [done|]. destruct (decide (off_grid_interval i.1 i.2)) as [?|Hg]; [done|].
    rewrite (window_ok z p r i) in Hw; [done|done|done|..]; intros ?; apply Hg; [by left|by right].
  - right. exists e. split; [done|]. destruct (decide (off_grid_interval (eb_starts_at e) (eb_ends_at e))) as [?|Hg]; [done|].
    destruct Hr as [Hr|Hr]; [|unfold _baseline in He; rewrite Hr in He; by apply elem_of_nil in He].
    rewrite (existing_ok db r d ps e) in Hw; [done|done|done|done|..]; intros ?; apply Hg; [by left|by right].
Qed.

(** The replanned day: rendered when the previous one was, and empty otherwise. *)
Lemma replanned db fp r previous windows :
  request_wf r → free_to_start r → propose_day db fp r = Ok previous →
  ∃ after, propose_day db fp (with_energy r (_baseline previous) windows) = Ok after
    ∧ ((∃ ps ps', rendered db r previous ps ∧ rendered db (with_energy r (_baseline previous) windows) after ps')
       ∨ (py_internal_plan previous = [] ∧ py_internal_plan after = [])).
Proof.
  intros Hwf Hfree Hprev.
  assert (∀ a, a ∈ dr_activities r → pa_flexibility a ≠ FLEXIBLE → pa_dependencies a = []) as Hdep by (intros; by apply Hfree).
  destruct (answered_day db fp r previous Hwf Hdep Hprev) as [Hrev Hcase].
  assert (NoDup (map eb_block_id (_baseline previous))) as Hn.
  { destruct Hcase as [(ps & Hr & _)|[He _]]; [by apply (baseline_ids db r previous ps)|]. unfold _baseline. rewrite He. constructor. }
  set (r' := with_energy r (_baseline previous) windows).
  assert (request_wf r') as Hwf' by by apply with_energy_wf.
  assert (∃ after, propose_day db fp r' = Ok after) as [after Hafter].
  { pose proof (propose_day_outcome db fp r' Hwf') as Ho. inversion Ho as [Hs| | |]; eauto. destruct Hs. exact Hrev. }
  exists after. split; [done|]. destruct (answered_day db fp r' after Hwf' Hdep Hafter) as [_ Hcase'].
  pose proof (place_fixed_same r (_baseline previous) windows Hwf Hn) as Hsame.
  destruct Hcase as [(ps & Hr & fixed & Hf)|[He (cs & Hf)]], Hcase' as [(ps' & Hr' & fixed' & Hf')|[He' (cs' & Hf')]].
  - left. eauto.
  - destruct (proj1 Hsame (ex_intro _ _ Hf)) as [x Hx]. exfalso. assert (FixedConflicts cs' = FixedPlacements x) by (by rewrite <- Hx). done.
  - destruct (proj2 Hsame (ex_intro _ _ Hf')) as [x Hx]. congruence.
  - by right.
Qed.

Lemma intervals_equal_refl l : intervals_equal l l = true.
Proof. induction l as [|[[i s] e] l IH]; simpl; [done|]. by rewrite String.eqb_refl, !dt_eqb_refl, IH. Qed.

Lemma raise_if_false {E} (b : bool) (e : E) : b = false → raise_if b e = Ok tt.
Proof. by intros ->. Qed.

Lemma no_ineligible (changed flexible : gset string) : changed ⊆ flexible → sorted_ids (changed ∖ flexible) = [].
Proof. intros Hs. apply elem_of_nil_inv. intros x Hx%elem_of_sorted_ids. set_solver. Qed.

(** An activity is planned in both days at the same times. *)
Definition kept_in_place (previous replanned : ProposedDay) (id : string) : Prop :=
  ∃ b0 b, b0 ∈ py_internal_plan previous ∧ pb_activity_id b0 = Some id ∧ planned_kind (pb_kind b0) = true
    ∧ b ∈ py_internal_plan replanned ∧ pb_activity_id b = Some id ∧ planned_kind (pb_kind b) = true
    ∧ dt_eqb (pb_starts_at b) (pb_starts_at b0) = true ∧ dt_eqb (pb_ends_at b) (pb_ends_at b0) = true.

(** An activity has a block of its own in the day. *)
Definition planned_in (d : ProposedDay) (id : string) : Prop :=
  ∃ b, b ∈ py_internal_plan d ∧ pb_activity_id b = Some id ∧ planned_kind (pb_kind b) = true.

(** C32. Replanning for energy keeps what must not move: on a day the planner proposed,
    whose fixed and protected activities have no travel and no dependencies, the
    guards never refuse the replan (only times off the minute grid do); fixed and
    protected work stays exactly where it was; only flexible activities are reported
    as affected; and an activity that is planned before or after and not reported is
    planned both before and after, at the same times: what was added, removed or
    moved is reported. *)
Theorem energy_replan_safe db fp r previous p :
  validate_request db r = Ok tt → free_to_start r → propose_day db fp r = Ok previous →
  match apply_energy_pattern db fp r previous p with
  | Err why =>
      why = EnergyValidationError
      ∧ (pattern_valid p = false
         ∨ (∃ i, i ∈ _bucket_intervals (request_zone db r) p r ∧ off_grid_interval i.1 i.2)
         ∨ ∃ e, e ∈ _baseline previous ∧ off_grid_interval (eb_starts_at e) (eb_ends_at e))
  | Ok res =>
      _protected_intervals (rr_proposal res) = _protected_intervals previous
      ∧ (∀ id, id ∈ pf_affected_activity_ids (rr_feedback res) → id ∈ flexible_ids r)
      ∧ ∀ id, planned_in previous id ∨ planned_in (rr_proposal res) id →
          id ∉ pf_affected_activity_ids (rr_feedback res) → kept_in_place previous (rr_proposal res) id
  end.
Proof.
  intros Hv Hfree Hprev. pose proof (validate_request_wf db r Hv) as Hwf.
  destruct (validate_request_zone db r Hv) as [data Hz].
  assert (known_zone db (dr_timezone r) = Ok (request_zone db r)) as Hkz by (unfold known_zone, request_zone; by rewrite Hz).
  unfold apply_energy_pattern. rewrite Hkz. simpl.
  destruct (flt _ _ || bool_decide _).
  { simpl. split_and!; [done|intros id Hid; by apply elem_of_nil in Hid|]. intros id [(b & Hb & Hid & Hk)|(b & Hb & Hid & Hk)] _;
      exists b, b; by rewrite !dt_eqb_refl. }
  set (windows := _ <$> _). destruct (replanned db fp r previous windows Hwf Hfree Hprev) as (after & Hafter & Hcase).
  destruct (raise_if _ _) as [[]|e] eqn:Hguard; simpl.
  2:{ unfold raise_if in Hguard. destruct (negb _) eqn:Hg; [|done]. injection Hguard as <-. apply negb_true_iff in Hg. split; [done|].
      destruct Hcase as [(ps & _ & Hr & _)|[He _]]; [by eapply (replan_models_ok db r previous ps); eauto|].
      eapply (replan_models_ok db r previous []); eauto. }
  rewrite Hafter. pose proof (propose_day_diff _ _ _ _ Hafter) as Hdiff.
  destruct Hcase as [(ps & ps' & Hr & Hr')|[He He']].
  - rewrite (protected_same db r previous after windows ps ps' Hr Hr').
    assert (∀ a, a ∈ dr_activities r → pa_activity_id a ≠ "") as Hids.
    { intros a Ha Hn. destruct (validated_names db r a Hv Ha) as [Hne _]. by rewrite Hn in Hne. }
    pose proof (changes_flexible db r previous after windows ps ps' Hfree Hids Hr Hr') as Hch. rewrite <- Hdiff in Hch.
    rewrite (raise_if_false (negb (intervals_equal _ _))) by by rewrite intervals_equal_refl. simpl.
    rewrite raise_if_false by by rewrite bool_decide_eq_true_2 by by apply no_ineligible. simpl.
    split_and!; [by apply (protected_same db r previous after windows ps ps')|intros id Hid; by apply Hch, elem_of_sorted_ids|].
    intros id Hpl Hn. rewrite elem_of_sorted_ids, Hdiff in Hn. destruct Hpl as [(b0 & Hb0 & Hid & Hk)|(b & Hb & Hid & Hk)].
    + destruct (unreported_kept db r previous after windows ps ps' Hids Hr Hr' b0 id Hb0 Hid Hk Hn) as (b & ?). by exists b0, b.
    + destruct (unreported_unmoved db r previous after windows ps ps' Hids Hr Hr' b id Hb Hid Hk Hn) as (b0 & ?). exists b0, b. naive_solver.
  - unfold _protected_intervals. rewrite He, He'. simpl. rewrite Hdiff, He'. unfold _baseline. rewrite He.
    change (changed_ids _) with (changed_ids (diff_maps ∅ ∅)).
    assert (changed_ids (diff_maps ∅ ∅) = ∅) as -> by reflexivity.
    rewrite raise_if_false by by rewrite bool_decide_eq_true_2 by by apply no_ineligible. simpl.
    split_and!; [by rewrite ?He, ?He'|intros id Hid%elem_of_sorted_ids; set_solver|].
    intros id [(b & Hb & _)|(b & Hb & _)]; [rewrite He in Hb|rewrite He' in Hb]; by apply elem_of_nil in Hb.
Qed.

(** * Energy check-ins on concrete days

    A prompt scheduled, snoozed and answered; a day replanned for a learned pattern;
    and the replan that travel to fixed work always refuses. *)

Module EnergyDemo.
Import Demo.

(** ** A prompt *)

Definition clock (h m : Z) : wall_clock := {| wc_micros := h * hour + m * minute; wc_offset := None |}.
Definition preferences : EnergyPreferences :=
  {| ep_timezone := "UTC"; ep_awake_window := {| dw_starts_at := clock 7 0; dw_ends_at := clock 22 0 |};
     ep_quiet_window := Some {| dw_starts_at := clock 12 0; dw_ends_at := clock 13 0 |};
     ep_notifications_enabled := true; ep_response_window_minutes := 30; ep_snooze_minutes := 15 |}.
Definition consent : EnergyConsent := {| ec_granted := true; ec_decided_at := at_ 8 0; ec_provenance_id := "consent:1" |}.

Definition prompt (h m n : Z) : ActiveCheckIn :=
  {| ac_check_in_id := "check-in"; ac_scheduled_at := at_ h m; ac_respond_by := at_ h (m + 30); ac_snooze_count := n |}.

Lemma preferences_wf : policy_wf utc_db preferences (mk_zone "UTC" {| tz_initial := 0; tz_transitions := [] |}).
Proof. unfold policy_wf, window_wf, clock_wf. split_and!; try done. intros w [= <-]. split_and!; done. Defined.

Lemma snoozed_prompt : prompted utc_db preferences consent (at_ 9 0) (SnoozedCheckIn (prompt 9 15 1)).
Proof.
  refine (prompted_snooze utc_db preferences consent (at_ 9 0) (ScheduledCheckIn (prompt 9 0 0)) preferences
    consent (at_ 9 0) _ _ _ _ eq_refl eq_refl preferences_wf); [|vm_compute; reflexivity].
  refine (prompted_schedule utc_db preferences consent "check-in" (at_ 9 0) _ _ _ eq_refl eq_refl preferences_wf).
  vm_compute. reflexivity.
Defined.

Definition response (h m rating : Z) : EnergyResponse := {| er_rating := rating; er_responded_at := at_ h m |}.

Lemma check_ins_respect_policy_witness :
  ∃ z, known_zone utc_db (ep_timezone preferences) = Ok z ∧ permitted z preferences consent (at_ 9 15).
Proof.
  exact (proj1 (proj2 (check_ins_respect_policy utc_db preferences consent (at_ 9 0)
    (SnoozedCheckIn (prompt 9 15 1)) (prompt 9 15 1) (response 9 20 4) consent
    snoozed_prompt eq_refl eq_refl eq_refl eq_refl))).
Defined.

(** In time, too late, and without consent. *)
Lemma answers :
  respond_to_check_in (SnoozedCheckIn (prompt 9 15 1)) (response 9 45 4) consent
    = Some (Ok (CompletedCheckIn "check-in"
        {| eo_check_in_id := "check-in"; eo_rating := 4; eo_observed_at := at_ 9 45; eo_provenance_id := "notification:check-in" |} 1))
  ∧ respond_to_check_in (SnoozedCheckIn (prompt 9 15 1)) (response 9 46 4) consent
    = Some (Ok (MissedCheckIn "check-in" (at_ 9 45) 1))
  ∧ respond_to_check_in (SnoozedCheckIn (prompt 9 15 1)) (response 7 59 4) consent
    = Some (Ok (SuppressedNotification "check-in" CONSENT_REQUIRED)).
Proof. split_and!; reflexivity. Qed.

(** ** A replanned day *)

Definition energised (id : string) (need : Z) (a : PlanActivity) : PlanActivity :=
  {| pa_activity_id := id; pa_title := id; pa_flexibility := pa_flexibility a;
     pa_duration_minutes := pa_duration_minutes a; pa_fixed_start := pa_fixed_start a; pa_fixed_end := pa_fixed_end a;
     pa_earliest_start := None; pa_latest_end := None; pa_deadline := None; pa_recover_missed_deadline := false;
     pa_dependencies := []; pa_travel_minutes_before := pa_travel_minutes_before a;
     pa_travel_minutes_after := pa_travel_minutes_after a; pa_energy_required := need; pa_goal_weight := 2;
     pa_importance := 0; pa_display_group := None; pa_display_title := None; pa_guidance := [];
     pa_calendar_eligible := true; pa_personal_micro_event := false |}.

(** 9:00 to 15:00; focus needs all the energy there is. *)
Definition workday (activities : list PlanActivity) : DayPlanRequest :=
  {| dr_plan_date := 20458; dr_timezone := "UTC"; dr_window_start := at_ 9 0; dr_window_end := at_ 15 0;
     dr_state_revision := 3; dr_expected_state_revision := 3; dr_activities := activities; dr_energy_windows := [];
     dr_baseline_blocks := []; dr_schedule_resolution := default_resolution |}.
Definition focus : PlanActivity := energised "focus" 5 (activity "focus" FLEXIBLE 60 None None [] 0 0).
Definition today : DayPlanRequest := workday [standup; focus].

Definition afternoons : EnergyPattern :=
  {| en_bucket := AFTERNOON; en_expected_level := 5; en_sample_count := 4; en_confidence := 1;
     en_provenance_ids := ["notification:a"; "notification:b"; "notification:c"; "notification:d"]; en_learned_at := at_ 8 0 |}.

Definition planned (r : DayPlanRequest) : ProposedDay :=
  match propose_day utc_db fingerprint r with Ok d => d | Err _ => conflict_result fingerprint r ∅ ∅ end.
Definition replanned_today (r : DayPlanRequest) : result EnergyError EnergyReplanResult :=
  apply_energy_pattern utc_db fingerprint r (planned r) afternoons.

Lemma today_free : free_to_start today.
Proof. intros a Ha Hf. unfold today, workday in Ha. simpl in Ha. repeat (apply elem_of_cons in Ha as [->|Ha]; [done|]). by apply elem_of_nil in Ha. Defined.

(** Focus moves to the afternoon, the standup stays. *)
Lemma energy_replan_safe_witness :
  ∃ res, replanned_today today = Ok res ∧ pf_affected_activity_ids (rr_feedback res) = ["focus"]
    ∧ _protected_intervals (rr_proposal res) = _protected_intervals (planned today).
Proof.
  assert (propose_day utc_db fingerprint today = Ok (planned today)) as Hp by (vm_compute; reflexivity).
  pose proof (energy_replan_safe utc_db fingerprint today (planned today) afternoons
    ltac:(vm_compute; reflexivity) today_free Hp) as Hsafe.
  destruct (apply_energy_pattern utc_db fingerprint today (planned today) afternoons) as [res|why] eqn:Hres.
  - exists res. split; [exact Hres|]. split; [|exact (proj1 Hsafe)].
    vm_compute in Hres. injection Hres as <-. reflexivity.
  - exfalso. vm_compute in Hres. discriminate Hres.
Defined.

(** ** Travel *)

Definition commute : PlanActivity := activity "office" FIXED 30 (Some (at_ 9 30, at_ 10 0)) None [] 15 0.
Definition errand : PlanActivity := activity "errand" FLEXIBLE 30 None None [] 10 10.

Definition intervals_of (d : ProposedDay) (id : string) : list (Z * Z) :=
  omap (λ b, if bool_decide (pb_activity_id b = Some id) then Some (utc (pb_starts_at b), utc (pb_ends_at b)) else None)
    (py_internal_plan d).

(** The baseline a replan is compared with leaves travel out, while the planner's
    diff counts the travel of the new plan as added.  A day with travel to fixed work
    is refused as unsafe although nothing of it moves, and a flexible activity with
    travel is reported as affected although all its blocks stay where they were. *)
Theorem travel_blocks_energy_replan :
  replanned_today (workday [commute; focus]) = Err (UnsafeEnergyReplanError ["office"])
  ∧ ∃ res, replanned_today (workday [errand]) = Ok res
      ∧ pf_affected_activity_ids (rr_feedback res) = ["errand"]
      ∧ intervals_of (rr_proposal res) "errand" = intervals_of (planned (workday [errand])) "errand".
Proof.
  split; [vm_compute; reflexivity|].
  destruct (replanned_today (workday [errand])) as [res|why] eqn:Hres; [|vm_compute in Hres; discriminate Hres].
  exists res. split; [done|]. vm_compute in Hres. injection Hres as <-. split; vm_compute; reflexivity.
Qed.

(** ** Hours with an offset *)

(** The hours of the user may carry an offset, and pass validation; every prompt then fails. *)
Definition offset_hours : EnergyPreferences :=
  {| ep_timezone := "UTC";
     ep_awake_window := {| dw_starts_at := {| wc_micros := 7 * hour; wc_offset := Some 0 |};
                           dw_ends_at := {| wc_micros := 22 * hour; wc_offset := Some 0 |} |};
     ep_quiet_window := None; ep_notifications_enabled := true; ep_response_window_minutes := 30; ep_snooze_minutes := 15 |}.

Theorem offset_hours_never_prompt :
  preferences_valid offset_hours = true
  ∧ schedule_check_in utc_db offset_hours consent "check-in" (at_ 9 0) = Err EnergyTypeError.
Proof. split; reflexivity. Qed.
End EnergyDemo.
