(* ===== verification/OpenClaw.v ===== *)
(** * The OpenClaw boundary ([openclaw/contracts.py], [openclaw/bindings.py],
      [openclaw/adapter.py])

    An external text channel reaches a conversation only through a binding that the
    owner enrolled, and only by the pinned service account.  The conversation API
    behind the adapter is an interface. *)

From stdpp Require Import prelude base strings list gmap.
From Stdlib Require Import ZArith Lia.
From S2P Require Import Prelude PyTime PyText PyUuid Transactions Enrollment Conversation.
#[local] Open Scope string_scope.
#[local] Open Scope list_scope.
#[local] Open Scope Z_scope.

(** ** Contracts *)

Module ChannelKind.
Inductive t := OPENCLAW_WEBCHAT | TELEGRAM | IMESSAGE | EMAIL.
Definition value (k : t) : string :=
  match k with
  | OPENCLAW_WEBCHAT => "openclaw_webchat" | TELEGRAM => "telegram"
  | IMESSAGE => "imessage" | EMAIL => "email"
  end.
#[export] Instance eq_dec : EqDecision t.
Proof. solve_decision. Defined.
End ChannelKind.
Export (hints) ChannelKind.

Module ChannelBindingState.
Inductive t := ACTIVE | REVOKED.
#[export] Instance eq_dec : EqDecision t.
Proof. solve_decision. Defined.
End ChannelBindingState.
Export (hints) ChannelBindingState.

Record ChannelBinding := {
  bi_binding_id : uuid;
  bi_conversation_id : uuid;
  bi_channel_kind : ChannelKind.t;
  bi_external_channel_id : string;
  bi_external_user_id : string;
  bi_bound_at : Z;
  bi_state : ChannelBindingState.t;
}.

Definition OPENCLAW_REVISION : string := "befc0c24".
Definition ADAPTER_VERSION : string := "1.0.0".
Definition CONTRACT_VERSION : string := "1.0.0".

Module AdapterEndpoint.
Inductive t := GET_CONVERSATION | LIST_EVENTS | APPEND_EVENT.
Definition value (e : t) : string :=
  match e with
  | GET_CONVERSATION => "conversation.get" | LIST_EVENTS => "conversation.events.list"
  | APPEND_EVENT => "conversation.events.append"
  end.
Definition all : list t := [GET_CONVERSATION; LIST_EVENTS; APPEND_EVENT].
End AdapterEndpoint.

Module AdapterCapability.
Inductive t := CONVERSATION_READ | CONVERSATION_WRITE.
Definition value (c : t) : string :=
  match c with CONVERSATION_READ => "conversation.read" | CONVERSATION_WRITE => "conversation.write" end.
Definition all : list t := [CONVERSATION_READ; CONVERSATION_WRITE].
End AdapterCapability.

Inductive ChannelSupportState := INITIAL_TEXT | LATER_CONSTRAINED.
#[export] Instance support_eq_dec : EqDecision ChannelSupportState.
Proof. solve_decision. Defined.

Record MtlsClientIdentity := { mc_device_id : string; mc_public_key_fingerprint : string }.

(** The external identity of a binding, with the participant and device it speaks as. *)
Record BoundChannelIdentity := {
  bc_binding : ChannelBinding;
  bc_participant_id : uuid;
  bc_device_id : uuid;
  bc_service_account_device_id : string;
}.

Record ChannelIdentityClaim := {
  cl_binding_id : uuid;
  cl_channel_kind : ChannelKind.t;
  cl_external_channel_id : string;
  cl_external_user_id : string;
}.

Record OpenClawTextEnvelope := { en_claim : ChannelIdentityClaim; en_event : ConversationEvent }.

Record AccessDecision := { ac_allowed : bool; ac_endpoint : string; ac_reason : string }.
Record ChannelCompatibility := { cc_channel : ChannelKind.t; cc_state : ChannelSupportState }.
Record RevisionCompatibility := {
  rv_compatible : bool;
  rv_expected_revision : string;
  rv_presented_revision : string;
}.
(** The status is always [ok]. *)
Record AdapterHealth := {
  ah_adapter_version : string;
  ah_conversation_contract_version : string;
  ah_openclaw_revision : string;
  ah_channels : list ChannelCompatibility;
}.

Definition CHANNEL_MATRIX : list ChannelCompatibility :=
  [ {| cc_channel := ChannelKind.OPENCLAW_WEBCHAT; cc_state := INITIAL_TEXT |};
    {| cc_channel := ChannelKind.TELEGRAM; cc_state := INITIAL_TEXT |};
    {| cc_channel := ChannelKind.IMESSAGE; cc_state := LATER_CONSTRAINED |};
    {| cc_channel := ChannelKind.EMAIL; cc_state := LATER_CONSTRAINED |} ].
Definition INITIAL_TEXT_CHANNELS : list ChannelKind.t :=
  map cc_channel (filter (λ item, cc_state item = INITIAL_TEXT) CHANNEL_MATRIX).

Definition adapter_health : AdapterHealth :=
  {| ah_adapter_version := ADAPTER_VERSION; ah_conversation_contract_version := CONTRACT_VERSION;
     ah_openclaw_revision := OPENCLAW_REVISION; ah_channels := CHANNEL_MATRIX |}.

(** The presented revision is a [NonEmpty] field of the decision. *)
Definition assess_revision (presented : string) : option RevisionCompatibility :=
  if String.eqb presented "" then None
  else Some {| rv_compatible := String.eqb presented OPENCLAW_REVISION;
               rv_expected_revision := OPENCLAW_REVISION; rv_presented_revision := presented |}.

(** ** Errors *)

Inductive BindingRejection :=
| APPROVER_REQUIRED | SERVICE_ACCOUNT_UNKNOWN | UNSUPPORTED_CHANNEL | REPLAYED | UNKNOWN
| BINDING_REVOKED | IDENTITY_MISMATCH.

(** What the adapter raises.  [ApiConnectionError] and [ApiFailure] come from the
    conversation API. *)
Inductive OpenClawError :=
| BindingViolationError (binding_id : uuid) (reason : BindingRejection)
| OpenClawAuthenticationError (device_id : string)
| OpenClawDeviceError (e : EnrollmentError)
| ApiConnectionError
| ApiFailure (why : string).

(** The narrow client of the conversation service. *)
Class ConversationApi (S : Type) := {
  get_conversation : uuid → comp S OpenClawError Conversation_;
  list_events : uuid → comp S OpenClawError (list ConversationEvent);
  append_event : ConversationEvent → comp S OpenClawError ConversationAcceptance;
}.

(** ** Bindings *)

Module IdentityBindingRegistry.
(** [_devices] is a reference to the shared registry and an argument here. *)
Record t := {
  owner_device_id : string;
  bindings : gmap uuid BoundChannelIdentity;
  used_binding_ids : gset uuid;
  used_external_identities : gset (string * string * string);
}.

Definition create (owner : string) : t :=
  {| owner_device_id := owner; bindings := ∅; used_binding_ids := ∅; used_external_identities := ∅ |}.

Definition external_identity (b : ChannelBinding) : string * string * string :=
  (ChannelKind.value (bi_channel_kind b), bi_external_channel_id b, bi_external_user_id b).

Definition revoked_identity (i : BoundChannelIdentity) : BoundChannelIdentity :=
  let b := bc_binding i in
  {| bc_binding :=
       {| bi_binding_id := bi_binding_id b; bi_conversation_id := bi_conversation_id b;
          bi_channel_kind := bi_channel_kind b; bi_external_channel_id := bi_external_channel_id b;
          bi_external_user_id := bi_external_user_id b; bi_bound_at := bi_bound_at b;
          bi_state := ChannelBindingState.REVOKED |};
     bc_participant_id := bc_participant_id i; bc_device_id := bc_device_id i;
     bc_service_account_device_id := bc_service_account_device_id i |}.

Section registry.
Context {P : Type} `{DevicePersistence P}.
Context (parse_device : string → option Device).
Open Scope py_scope.

Definition _verify_owner (devices : DeviceRegistry P) (r : t) (binding_id : uuid) (approver : MtlsClientIdentity) :
    result OpenClawError unit :=
  if negb (String.eqb (mc_device_id approver) (owner_device_id r))
  then Err (BindingViolationError binding_id APPROVER_REQUIRED)
  else match verify_mtls_identity parse_device devices (mc_device_id approver) (mc_public_key_fingerprint approver) with
       | Ok _ => Ok tt
       | Err e => Err (OpenClawDeviceError e)
       end.

Definition service_account_known (devices : DeviceRegistry P) (device_id : string) : result OpenClawError bool :=
  match device parse_device devices device_id with
  | Err e => Err (OpenClawDeviceError e)
  | Ok None => Ok false
  | Ok (Some d) => Ok (bool_decide (dv_state d = ENROLLED))
  end.

(** [r._bindings[binding_id] = identity], with both identifiers noted as used. *)
Definition insert_binding (r : t) (i : BoundChannelIdentity) : t :=
  let b := bc_binding i in
  {| owner_device_id := owner_device_id r; bindings := <[bi_binding_id b := i]> (bindings r);
     used_binding_ids := {[bi_binding_id b]} ∪ used_binding_ids r;
     used_external_identities := {[external_identity b]} ∪ used_external_identities r |}.

(** The checks of [enroll], in order. *)
Definition enroll_checks (devices : DeviceRegistry P) (r : t) (i : BoundChannelIdentity) (approver : MtlsClientIdentity) :
    result OpenClawError unit :=
  let b := bc_binding i in
  let id := bi_binding_id b in
  let* _ := _verify_owner devices r id approver in
  let* known := service_account_known devices (bc_service_account_device_id i) in
  let* _ := raise_if (negb known) (BindingViolationError id SERVICE_ACCOUNT_UNKNOWN) in
  let* _ := raise_if (negb (bool_decide (bi_channel_kind b ∈ INITIAL_TEXT_CHANNELS)))
              (BindingViolationError id UNSUPPORTED_CHANNEL) in
  let* _ := raise_if (bool_decide (id ∈ used_binding_ids r)
                      || bool_decide (external_identity b ∈ used_external_identities r))
              (BindingViolationError id REPLAYED) in
  raise_if (negb (bool_decide (bi_state b = ChannelBindingState.ACTIVE))) (BindingViolationError id BINDING_REVOKED).

Definition enroll (devices : DeviceRegistry P) (i : BoundChannelIdentity) (approver : MtlsClientIdentity) :
    comp t OpenClawError BoundChannelIdentity := λ r,
  match enroll_checks devices r i approver with
  | Err e => (r, Err e)
  | Ok _ => (insert_binding r i, Ok i)
  end.

Definition revoke (devices : DeviceRegistry P) (binding_id : uuid) (approver : MtlsClientIdentity) :
    comp t OpenClawError BoundChannelIdentity := λ r,
  match _verify_owner devices r binding_id approver with
  | Err e => (r, Err e)
  | Ok _ =>
      match bindings r !! binding_id with
      | None => (r, Err (BindingViolationError binding_id UNKNOWN))
      | Some i =>
          ({| owner_device_id := owner_device_id r;
              bindings := <[binding_id := revoked_identity i]> (bindings r);
              used_binding_ids := used_binding_ids r;
              used_external_identities := used_external_identities r |}, Ok (revoked_identity i))
      end
  end.

Definition resolve (r : t) (claim : ChannelIdentityClaim) (service_account : string) :
    result OpenClawError BoundChannelIdentity :=
  match bindings r !! cl_binding_id claim with
  | None => Err (BindingViolationError (cl_binding_id claim) UNKNOWN)
  | Some i =>
      let b := bc_binding i in
      if negb (bool_decide (bi_state b = ChannelBindingState.ACTIVE))
      then Err (BindingViolationError (cl_binding_id claim) BINDING_REVOKED)
      else if bool_decide (bi_channel_kind b = cl_channel_kind claim)
              && String.eqb (bi_external_channel_id b) (cl_external_channel_id claim)
              && String.eqb (bi_external_user_id b) (cl_external_user_id claim)
              && String.eqb (bc_service_account_device_id i) service_account
      then Ok i
      else Err (BindingViolationError (cl_binding_id claim) IDENTITY_MISMATCH)
  end.
End registry.
End IdentityBindingRegistry.

(** ** The adapter *)

Module OpenClawAdapter.
Section adapter.
Context {S P : Type} `{ConversationApi S} `{DevicePersistence P}.
Context (parse_device : string → option Device).

(** The pinned service account and the injected API and registries. *)
Record t := {
  service_account_device_id : string;
  api : S;
  devices : DeviceRegistry P;
  bindings : IdentityBindingRegistry.t;
}.
Definition with_api (a : t) (s : S) : t :=
  {| service_account_device_id := service_account_device_id a; api := s; devices := devices a; bindings := bindings a |}.
Abbreviation A X := (comp t OpenClawError X).

(** A call of the API. *)
Definition call {X : Type} (m : comp S OpenClawError X) : A X := λ a, let '(s, r) := m (api a) in (with_api a s, r).

Definition allowed_endpoints : list AdapterEndpoint.t := AdapterEndpoint.all.

Definition endpoint_access (endpoint : string) : AccessDecision :=
  let allowed := bool_decide (endpoint ∈ map AdapterEndpoint.value AdapterEndpoint.all) in
  {| ac_allowed := allowed; ac_endpoint := endpoint;
     ac_reason := if allowed then "typed Conversation API endpoint" else "endpoint is not allowlisted" |}.
Definition capability_access (capability : string) : AccessDecision :=
  let allowed := bool_decide (capability ∈ map AdapterCapability.value AdapterCapability.all) in
  {| ac_allowed := allowed; ac_endpoint := capability;
     ac_reason := if allowed then "conversation capability" else "capability is not granted" |}.

Definition _authenticate (client : MtlsClientIdentity) : A unit := λ a,
  match verify_mtls_identity parse_device (devices a) (mc_device_id client) (mc_public_key_fingerprint client) with
  | Err e => (a, Err (OpenClawDeviceError e))
  | Ok _ =>
      (a, raise_if (negb (String.eqb (mc_device_id client) (service_account_device_id a)))
            (OpenClawAuthenticationError (mc_device_id client)))
  end.

Definition health (client : MtlsClientIdentity) : A AdapterHealth :=
  _authenticate client ≫= λ _, mret adapter_health.

Definition resolved (claim : ChannelIdentityClaim) (client : MtlsClientIdentity) : A BoundChannelIdentity := λ a,
  (a, IdentityBindingRegistry.resolve (bindings a) claim (mc_device_id client)).

Definition conversation (claim : ChannelIdentityClaim) (client : MtlsClientIdentity) : A Conversation_ :=
  _authenticate client ≫= λ _,
  resolved claim client ≫= λ i,
  call (get_conversation (bi_conversation_id (bc_binding i))).

Definition events (claim : ChannelIdentityClaim) (client : MtlsClientIdentity) : A (list ConversationEvent) :=
  _authenticate client ≫= λ _,
  resolved claim client ≫= λ i,
  call (list_events (bi_conversation_id (bc_binding i))).

Definition append_text (envelope : OpenClawTextEnvelope) (client : MtlsClientIdentity) : A ConversationAcceptance :=
  _authenticate client ≫= λ _,
  resolved (en_claim envelope) client ≫= λ i,
  let e := en_event envelope in
  if negb ((ce_conversation_id e =? bi_conversation_id (bc_binding i)) && (ce_participant_id e =? bc_participant_id i)
           && (ce_device_id e =? bc_device_id i))
  then throw (BindingViolationError (cl_binding_id (en_claim envelope)) IDENTITY_MISMATCH)
  else match ce_payload e with
       | TranscriptPartial _ _ | TranscriptFinal _ _ => call (append_event e)
       | _ => throw (BindingViolationError (cl_binding_id (en_claim envelope)) UNSUPPORTED_CHANNEL)
       end.
End adapter.
Arguments t : clear implicits.
End OpenClawAdapter.

(** * Bindings of channels belong to the owner

    In any history of enrolments and revocations, whoever asked for them, what the
    registry resolves was enrolled once, by the owner's verified device, and not
    revoked. *)

Import IdentityBindingRegistry.

Lemma initial_channels k : k ∈ INITIAL_TEXT_CHANNELS ↔ k = ChannelKind.OPENCLAW_WEBCHAT ∨ k = ChannelKind.TELEGRAM.
Proof. unfold INITIAL_TEXT_CHANNELS. cbn. set_solver. Qed.

Section bindings.
Context {P : Type} `{DevicePersistence P}.
Context (parse_device : string → option Device).
Abbreviation enroll := (enroll parse_device).
Abbreviation revoke := (revoke parse_device).

(** A change of the registry, with the devices known at the time and who asked. *)
Inductive change :=
| Enrolled (devices : DeviceRegistry P) (i : BoundChannelIdentity) (approver : MtlsClientIdentity)
| Revoked (devices : DeviceRegistry P) (binding_id : uuid) (approver : MtlsClientIdentity).

(** Enrolments and revocations, accepted or refused; the accepted ones in order. *)
Inductive registry_history (owner : string) : list change → t → Prop :=
| registry_new : registry_history owner [] (create owner)
| registry_enrolls log r devices i approver r' x :
    registry_history owner log r → enroll devices i approver r = (r', Ok x) →
    registry_history owner (log ++ [Enrolled devices i approver]) r'
| registry_revokes log r devices id approver r' x :
    registry_history owner log r → revoke devices id approver r = (r', Ok x) →
    registry_history owner (log ++ [Revoked devices id approver]) r'
| registry_refuses log r devices i id approver r' e :
    registry_history owner log r →
    enroll devices i approver r = (r', Err e) ∨ revoke devices id approver r = (r', Err e) →
    registry_history owner log r'.

(** The owner, with a device that was enrolled and not revoked. *)
Definition by_owner (owner : string) (devices : DeviceRegistry P) (approver : MtlsClientIdentity) : Prop :=
  mc_device_id approver = owner
  ∧ is_ok (verify_mtls_identity parse_device devices (mc_device_id approver) (mc_public_key_fingerprint approver)) = true.

Definition enrolled_in (log : list change) (i : BoundChannelIdentity) : Prop :=
  ∃ devices approver, Enrolled devices i approver ∈ log.
Definition revoked_in (log : list change) (id : uuid) : Prop := ∃ devices approver, Revoked devices id approver ∈ log.
Definition id_of (i : BoundChannelIdentity) : uuid := bi_binding_id (bc_binding i).
Definition external_of (i : BoundChannelIdentity) : string * string * string := external_identity (bc_binding i).

Lemma verify_owner_ok devices r id approver u :
  _verify_owner parse_device devices r id approver = Ok u → by_owner (owner_device_id r) devices approver.
Proof.
  unfold _verify_owner, by_owner. destruct (String.eqb _ _) eqn:E; simpl; [|done]. apply String.eqb_eq in E.
  by destruct (verify_mtls_identity _ _ _ _).
Qed.

Lemma enroll_ok devices i approver r r' x : enroll devices i approver r = (r', Ok x) →
  r' = insert_binding r i ∧ by_owner (owner_device_id r) devices approver
  ∧ service_account_known parse_device devices (bc_service_account_device_id i) = Ok true
  ∧ (bi_channel_kind (bc_binding i) = ChannelKind.OPENCLAW_WEBCHAT ∨ bi_channel_kind (bc_binding i) = ChannelKind.TELEGRAM)
  ∧ bi_state (bc_binding i) = ChannelBindingState.ACTIVE
  ∧ (id_of i ∉ used_binding_ids r) ∧ (external_of i ∉ used_external_identities r).
Proof.
  unfold IdentityBindingRegistry.enroll. destruct (enroll_checks _ _ _ _ _) as [u|e] eqn:Hc; [|done]. intros [= <- <-].
  unfold enroll_checks in Hc. apply rbind_ok in Hc as (u1 & Hown & Hc). apply rbind_ok in Hc as (known & Hk & Hc).
  unbind Hc. apply raise_if_ok in Hv, Hv0, Hv1, Hc. bool_to_prop. subst. apply verify_owner_ok in Hown.
  split_and!; try done. by apply initial_channels.
Qed.

Lemma revoke_ok devices id approver r r' x : revoke devices id approver r = (r', Ok x) →
  by_owner (owner_device_id r) devices approver ∧ ∃ i, bindings r !! id = Some i
  ∧ bindings r' = <[id := revoked_identity i]> (bindings r) ∧ owner_device_id r' = owner_device_id r
  ∧ used_binding_ids r' = used_binding_ids r ∧ used_external_identities r' = used_external_identities r.
Proof.
  unfold IdentityBindingRegistry.revoke. destruct (_verify_owner _ _ _ _ _) as [u|e] eqn:Ho; [|done]. apply verify_owner_ok in Ho.
  destruct (bindings r !! id) as [i|] eqn:Hi; [|done]. intros [= <- <-]. split; [done|]. by exists i.
Qed.

(** The registry holds what its accepted changes say. *)
Record registry_inv (owner : string) (log : list change) (r : t) : Prop := {
  ri_owner : owner_device_id r = owner;
  ri_changes : ∀ c, c ∈ log → match c with
    | Enrolled devices i approver => by_owner owner devices approver ∧ bi_state (bc_binding i) = ChannelBindingState.ACTIVE
        ∧ service_account_known parse_device devices (bc_service_account_device_id i) = Ok true
        ∧ (bi_channel_kind (bc_binding i) = ChannelKind.OPENCLAW_WEBCHAT ∨ bi_channel_kind (bc_binding i) = ChannelKind.TELEGRAM)
    | Revoked devices id approver => by_owner owner devices approver
    end;
  ri_used : ∀ i, enrolled_in log i → id_of i ∈ used_binding_ids r ∧ external_of i ∈ used_external_identities r;
  ri_unique : ∀ i i', enrolled_in log i → enrolled_in log i' → id_of i = id_of i' ∨ external_of i = external_of i' → i = i';
  ri_revoked : ∀ id, revoked_in log id → ∃ i, bindings r !! id = Some (revoked_identity i);
  ri_bound : ∀ id i, bindings r !! id = Some i → ∃ i0, enrolled_in log i0 ∧ id_of i0 = id
    ∧ ((i = i0 ∧ ¬ revoked_in log id) ∨ i = revoked_identity i0);
}.

Lemma enrolled_snoc log c i : enrolled_in (log ++ [c]) i ↔ enrolled_in log i ∨ ∃ devices approver, c = Enrolled devices i approver.
Proof. unfold enrolled_in. setoid_rewrite elem_of_app. setoid_rewrite list_elem_of_singleton. naive_solver. Qed.
Lemma revoked_snoc log c id : revoked_in (log ++ [c]) id ↔ revoked_in log id ∨ ∃ devices approver, c = Revoked devices id approver.
Proof. unfold revoked_in. setoid_rewrite elem_of_app. setoid_rewrite list_elem_of_singleton. naive_solver. Qed.

Lemma enroll_inv owner log r devices i approver r' x : registry_inv owner log r → enroll devices i approver r = (r', Ok x) →
  registry_inv owner (log ++ [Enrolled devices i approver]) r'.
Proof.
  intros [Ho Hc Hu Hq Hr Hb] (-> & Hown & Hsa & Hk & Hact & Hid & Hext)%enroll_ok. rewrite Ho in Hown.
  assert (bindings r !! id_of i = None) as Hnone.
  { destruct (bindings r !! id_of i) as [y|] eqn:Hy; [|done]. destruct (Hb _ _ Hy) as (i0 & Hi0 & Heq & _).
    destruct (Hu i0 Hi0) as [Hin _]. by rewrite Heq in Hin. }
  split; simpl.
  - done.
  - intros c [Hin| ->%list_elem_of_singleton]%elem_of_app; [by apply Hc|done].
  - intros y [Hy|(? & ? & [= _ <- _])]%enrolled_snoc; [destruct (Hu y Hy)|]; set_solver.
  - assert (∀ y, enrolled_in log y → id_of i = id_of y ∨ external_of i = external_of y → False) as Hnew.
    { intros y Hy Heq. destruct (Hu y Hy) as [H1 H2]. destruct Heq as [Heq|Heq]; rewrite <- Heq in *; done. }
    intros y y' [Hy|(? & ? & [= _ <- _])]%enrolled_snoc [Hy'|(? & ? & [= _ <- _])]%enrolled_snoc Heq; [by apply Hq| | |done].
    + destruct (Hnew y Hy). destruct Heq; auto.
    + destruct (Hnew y' Hy'). destruct Heq; auto.
  - intros id [Hid'|(? & ? & ?)]%revoked_snoc; [|done]. destruct (Hr id Hid') as (y & Hy). exists y.
    rewrite lookup_insert_ne; [done|]. intros Heq. fold (id_of i) in Heq. congruence.
  - intros id y Hy. fold (id_of i) in Hy. destruct (decide (id = id_of i)) as [->|Hne].
    + rewrite lookup_insert_eq in Hy. injection Hy as <-. exists i. split_and!; [apply enrolled_snoc; right; eauto|done|].
      left. split; [done|]. intros [Hrev|(? & ? & ?)]%revoked_snoc; [|done]. destruct (Hr _ Hrev) as (y & Hy). congruence.
    + rewrite lookup_insert_ne in Hy by done. destruct (Hb id y Hy) as (i0 & Hi0 & Heq & Hcase). exists i0.
      split_and!; [apply enrolled_snoc; by left|done|]. destruct Hcase as [[-> Hnr]| ->]; [left|by right].
      split; [done|]. by intros [?|(? & ? & ?)]%revoked_snoc.
Qed.

Lemma revoke_inv owner log r devices id approver r' x : registry_inv owner log r → revoke devices id approver r = (r', Ok x) →
  registry_inv owner (log ++ [Revoked devices id approver]) r'.
Proof.
  intros [Ho Hc Hu Hq Hr Hb] (Hown & i & Hi & Hb' & Ho' & Hu1 & Hu2)%revoke_ok. rewrite Ho in Hown.
  assert (∀ y, enrolled_in (log ++ [Revoked devices id approver]) y → enrolled_in log y) as Hback.
  { intros y [Hy|(? & ? & ?)]%enrolled_snoc; done. }
  destruct (Hb id i Hi) as (i0 & Hi0 & Hid0 & Hcase0).
  assert (revoked_identity i = revoked_identity i0) as Hri by (destruct Hcase0 as [[-> _]| ->]; done).
  split; rewrite ?Ho', ?Hu1, ?Hu2, ?Hb'; try done.
  - intros c [Hin| ->%list_elem_of_singleton]%elem_of_app; [by apply Hc|done].
  - intros y Hy. by apply Hu, Hback.
  - intros y y' Hy Hy'. by apply Hq; apply Hback.
  - intros k [Hk|(? & ? & [= _ <- _])]%revoked_snoc; [|exists i; apply lookup_insert_eq].
    destruct (decide (k = id)) as [->|Hne]; [exists i; apply lookup_insert_eq|]. rewrite lookup_insert_ne by done. by apply Hr.
  - intros k y Hy. destruct (decide (k = id)) as [->|Hne].
    + rewrite lookup_insert_eq in Hy. injection Hy as <-. exists i0.
      split_and!; [apply enrolled_snoc; by left|done|by right].
    + rewrite lookup_insert_ne in Hy by done. destruct (Hb k y Hy) as (z & Hz & Heq & Hcase). exists z.
      split_and!; [apply enrolled_snoc; by left|done|]. destruct Hcase as [[-> Hnr]| ->]; [left|by right].
      split; [done|]. intros [?|(? & ? & [= _ ? _])]%revoked_snoc; [done|]. congruence.
Qed.

Lemma registry_history_inv owner log r : registry_history owner log r → registry_inv owner log r.
Proof.
  induction 1 as [|log r devices i approver r' x _ IH Hrun|log r devices id approver r' x _ IH Hrun
    |log r devices i id approver r' e _ IH Hrun].
  - split; simpl; try done; try (intros; by destruct_or?). all: try (by intros ? ?%elem_of_nil).
    + intros i (? & ? & ?%elem_of_nil). done.
    + intros i i' (? & ? & ?%elem_of_nil). done.
    + intros id (? & ? & ?%elem_of_nil). done.
  - by eapply enroll_inv.
  - by eapply revoke_inv.
  - assert (r' = r) as ->; [|done]. destruct Hrun as [Hrun|Hrun].
    + unfold IdentityBindingRegistry.enroll in Hrun. by destruct (enroll_checks _ _ _ _ _); injection Hrun.
    + unfold IdentityBindingRegistry.revoke in Hrun. destruct (_verify_owner _ _ _ _ _); [|by injection Hrun].
      by destruct (bindings r !! id); injection Hrun.
Qed.

(** Bindings belong to the owner: whatever enrolments and revocations were asked for,
    an identity that a claim resolves to matches the claim in every field, was enrolled
    by the owner's verified device for a text channel, with a service account that was
    enrolled then, and was not revoked; nothing else was ever enrolled under its
    identifier or its external identity; and no claim resolves through a revoked
    binding. *)
Theorem bindings_belong_to_owner owner log r claim account i :
  registry_history owner log r → resolve r claim account = Ok i →
  (cl_binding_id claim = id_of i ∧ cl_channel_kind claim = bi_channel_kind (bc_binding i)
   ∧ cl_external_channel_id claim = bi_external_channel_id (bc_binding i)
   ∧ cl_external_user_id claim = bi_external_user_id (bc_binding i) ∧ bc_service_account_device_id i = account)
  ∧ (∃ devices approver, Enrolled devices i approver ∈ log ∧ by_owner owner devices approver
     ∧ service_account_known parse_device devices account = Ok true)
  ∧ (bi_channel_kind (bc_binding i) = ChannelKind.OPENCLAW_WEBCHAT ∨ bi_channel_kind (bc_binding i) = ChannelKind.TELEGRAM)
  ∧ ¬ revoked_in log (id_of i)
  ∧ ∀ i', enrolled_in log i' → id_of i' = id_of i ∨ external_of i' = external_of i → i' = i.
Proof.
  intros Hh Hres. apply registry_history_inv in Hh as [Ho Hc Hu Hq Hr Hb]. unfold resolve in Hres.
  destruct (bindings r !! cl_binding_id claim) as [x|] eqn:Hx; [|done].
  destruct (bool_decide (bi_state (bc_binding x) = ChannelBindingState.ACTIVE)) eqn:Hact; [|done]. cbn [negb] in Hres.
  destruct (_ && _) eqn:Hm; [|done]. injection Hres as ->. bool_to_prop.
  destruct (Hb _ _ Hx) as (i0 & (devices & approver & Hin) & Hid & Hcase). destruct Hcase as [[<- Hnr]| ->]; [|done].
  destruct (Hc _ Hin) as (Hown & _ & Hsa & Hk). subst account.
  split_and!; try done.
  - by exists devices, approver.
  - by rewrite Hid.
  - intros i' Hi' Heq. apply Hq; [done| |done]. by exists devices, approver.
Qed.
End bindings.
