(* ===== verification/Channels.v ===== *)
(** * Text channels ([channels/contracts.py], [channels/events.py], [channels/relay.py],
      [channels/bindings.py], [channels/telegram.py], [channels/webchat.py])

    A relay turns each delivery of an external channel into two canonical events, whose
    identifiers are derived from the delivery, and sends them through the OpenClaw
    adapter; deliveries that meet a broken connection wait in the relay.  [uuid5] is a
    parameter. *)

From stdpp Require Import prelude base strings list gmap pretty.
From Stdlib Require Import ZArith Lia.
From S2P Require Import Prelude PyTime PyText PyUuid Transactions Enrollment Conversation OpenClaw.
#[local] Open Scope string_scope.
#[local] Open Scope list_scope.
#[local] Open Scope Z_scope.

(** ** Contracts *)

Module DeliveryStatus.
Inductive t := ACCEPTED | DUPLICATE | QUEUED | REJECTED.
#[export] Instance eq_dec : EqDecision t.
Proof. solve_decision. Defined.
End DeliveryStatus.
Export (hints) DeliveryStatus.

(** Times are carried along and compared for equality only. *)
Record ChannelTextDelivery := {
  dl_delivery_id : string;
  dl_channel_kind : ChannelKind.t;
  dl_external_channel_id : string;
  dl_external_user_id : string;
  dl_sent_at : Z;
  dl_text : string;
}.
#[export] Instance delivery_eq_dec : EqDecision ChannelTextDelivery.
Proof. solve_decision. Defined.

Record DeliveryReceipt := {
  rt_delivery_id : string;
  rt_status : DeliveryStatus.t;
  rt_canonical_event_ids : list uuid;
  rt_next_sequence : option Z;
  rt_rejection : option ConversationRejection;
}.

Record ChannelSyncBatch := {
  sb_after_sequence : Z;
  sb_next_sequence : Z;
  sb_events : list ConversationEvent;
}.

Inductive ChannelConsentRejection := DECLINED | CONSENT_MISMATCH.

Inductive ChannelError :=
| OpenClawRaised (e : OpenClawError)
| ChannelReplayError (delivery_id : string)
| ChannelConfigurationError (kind : ChannelKind.t)
| ChannelCursorError (after_sequence : Z)
| AppendRejectedError (rejection : ConversationRejection) (next_sequence : Z)
| ClaimValidationError                       (** an empty field of a claim *)
| ChannelConsentError (binding_id : uuid) (reason : ChannelConsentRejection)
| TelegramAuthenticationError (update_id : Z)
| TelegramReplayError (update_id last_update_id : Z)
| SecretTypeError.                           (** a secret that is not ASCII *)

(** ** Canonical events *)

Definition CHANNEL_EVENT_NAMESPACE : uuid := 0x837d61ee41b94c67a8e8a376b28cd52d.

Module TranscriptStage.
Inductive t := PARTIAL | FINAL.
Definition value (s : t) : string := match s with PARTIAL => "partial" | FINAL => "final" end.
#[export] Instance eq_dec : EqDecision t.
Proof. solve_decision. Defined.
End TranscriptStage.
Export (hints) TranscriptStage.

Definition delivery_key (d : ChannelTextDelivery) : string :=
  ChannelKind.value (dl_channel_kind d) +:+ ":" +:+ dl_external_channel_id d +:+ ":" +:+ dl_external_user_id d
  +:+ ":" +:+ dl_delivery_id d.

Section events.
Context (uuid5 : uuid → string → uuid).

Definition event_id (d : ChannelTextDelivery) (stage : TranscriptStage.t) : uuid :=
  uuid5 CHANNEL_EVENT_NAMESPACE (delivery_key d +:+ ":" +:+ TranscriptStage.value stage).
Definition delivery_turn (d : ChannelTextDelivery) : uuid :=
  uuid5 CHANNEL_EVENT_NAMESPACE (delivery_key d +:+ ":turn").

Definition event (i : BoundChannelIdentity) (d : ChannelTextDelivery) (stage : TranscriptStage.t) (sequence : Z) :
    ConversationEvent :=
  {| ce_event_id := event_id d stage; ce_conversation_id := bi_conversation_id (bc_binding i);
     ce_participant_id := bc_participant_id i; ce_device_id := bc_device_id i; ce_sequence := sequence;
     ce_occurred_at := dl_sent_at d;
     ce_kind := match stage with TranscriptStage.PARTIAL => TRANSCRIPT_PARTIAL | TranscriptStage.FINAL => TRANSCRIPT_FINAL end;
     ce_payload := match stage with
                   | TranscriptStage.PARTIAL => TranscriptPartial (delivery_turn d) (dl_text d)
                   | TranscriptStage.FINAL => TranscriptFinal (delivery_turn d) (dl_text d)
                   end |}.
End events.

Definition with_sequence (e : ConversationEvent) (n : Z) : ConversationEvent :=
  {| ce_event_id := ce_event_id e; ce_conversation_id := ce_conversation_id e; ce_participant_id := ce_participant_id e;
     ce_device_id := ce_device_id e; ce_sequence := n; ce_occurred_at := ce_occurred_at e; ce_kind := ce_kind e;
     ce_payload := ce_payload e |}.

(** ** The relay *)

Definition MAX_SEQUENCE_REBASE_ATTEMPTS : nat := 3.

Section relay.
Context {S P : Type} `{ConversationApi S} `{DevicePersistence P}.
Context (parse_device : string → option Device) (uuid5 : uuid → string → uuid).

Record TextChannelRelay := {
  tr_openclaw : OpenClawAdapter.t S P;
  tr_client : MtlsClientIdentity;
  tr_identity : BoundChannelIdentity;
  tr_channel_kind : ChannelKind.t;
  tr_pending : list (string * ChannelTextDelivery);
}.
Abbreviation R X := (comp TextChannelRelay ChannelError X).

Definition with_openclaw (t : TextChannelRelay) (a : OpenClawAdapter.t S P) : TextChannelRelay :=
  {| tr_openclaw := a; tr_client := tr_client t; tr_identity := tr_identity t; tr_channel_kind := tr_channel_kind t;
     tr_pending := tr_pending t |}.
Definition with_pending (t : TextChannelRelay) (pending : list (string * ChannelTextDelivery)) : TextChannelRelay :=
  {| tr_openclaw := tr_openclaw t; tr_client := tr_client t; tr_identity := tr_identity t;
     tr_channel_kind := tr_channel_kind t; tr_pending := pending |}.

Definition new_relay (openclaw : OpenClawAdapter.t S P) (client : MtlsClientIdentity) (identity : BoundChannelIdentity)
    (kind : ChannelKind.t) : result ChannelError TextChannelRelay :=
  if negb (bool_decide (bi_channel_kind (bc_binding identity) = kind)) then Err (ChannelConfigurationError kind)
  else Ok {| tr_openclaw := openclaw; tr_client := client; tr_identity := identity; tr_channel_kind := kind;
             tr_pending := [] |}.

Definition pending_count (t : TextChannelRelay) : nat := length (tr_pending t).

(** A call of the OpenClaw adapter as this relay's client. *)
Definition openclaw {X : Type} (m : MtlsClientIdentity → comp (OpenClawAdapter.t S P) OpenClawError X) : R X := λ t,
  match m (tr_client t) (tr_openclaw t) with
  | (a, Ok x) => (with_openclaw t a, Ok x)
  | (a, Err e) => (with_openclaw t a, Err (OpenClawRaised e))
  end.
Definition the_relay : R TextChannelRelay := λ t, (t, Ok t).

Definition _claim_for (t : TextChannelRelay) (d : ChannelTextDelivery) : ChannelIdentityClaim :=
  {| cl_binding_id := bi_binding_id (bc_binding (tr_identity t)); cl_channel_kind := dl_channel_kind d;
     cl_external_channel_id := dl_external_channel_id d; cl_external_user_id := dl_external_user_id d |}.

Definition _configured_claim (t : TextChannelRelay) : result ChannelError ChannelIdentityClaim :=
  let b := bc_binding (tr_identity t) in
  if String.eqb (bi_external_channel_id b) "" || String.eqb (bi_external_user_id b) "" then Err ClaimValidationError
  else Ok {| cl_binding_id := bi_binding_id b; cl_channel_kind := bi_channel_kind b;
             cl_external_channel_id := bi_external_channel_id b; cl_external_user_id := bi_external_user_id b |}.

Definition _receipt (d : ChannelTextDelivery) (status : DeliveryStatus.t) (next_sequence : option Z) : DeliveryReceipt :=
  {| rt_delivery_id := dl_delivery_id d; rt_status := status;
     rt_canonical_event_ids := [event_id uuid5 d TranscriptStage.PARTIAL; event_id uuid5 d TranscriptStage.FINAL];
     rt_next_sequence := next_sequence; rt_rejection := None |}.
Definition rejected_receipt (d : ChannelTextDelivery) (r : ConversationRejection) (next_sequence : Z) : DeliveryReceipt :=
  {| rt_delivery_id := dl_delivery_id d; rt_status := DeliveryStatus.REJECTED;
     rt_canonical_event_ids := [event_id uuid5 d TranscriptStage.PARTIAL; event_id uuid5 d TranscriptStage.FINAL];
     rt_next_sequence := Some next_sequence; rt_rejection := Some r |}.

Definition _verify_replay (d : ChannelTextDelivery) (stage : TranscriptStage.t) (existing : ConversationEvent) : R unit := λ t,
  (t, raise_if (negb (bool_decide (existing = event uuid5 (tr_identity t) d stage (ce_sequence existing))))
        (ChannelReplayError (dl_delivery_id d))).

Definition _canonical_event (claim : ChannelIdentityClaim) (id : uuid) : R ConversationEvent :=
  openclaw (OpenClawAdapter.events parse_device claim) ≫= λ events,
  match List.find (λ e, ce_event_id e =? id) events with
  | Some e => mret e
  | None => throw (ChannelReplayError (uuid_str id))
  end.

(** The [for _attempt in range(MAX_SEQUENCE_REBASE_ATTEMPTS)] loop with [fuel] attempts left. *)
Fixpoint append_attempts (fuel : nat) (d : ChannelTextDelivery) (stage : TranscriptStage.t) (e : ConversationEvent)
    (claim : ChannelIdentityClaim) : R (ConversationEvent * Z) :=
  match fuel with
  | O => throw (AppendRejectedError OUT_OF_ORDER (ce_sequence e))
  | Datatypes.S fuel' =>
      openclaw (OpenClawAdapter.append_text parse_device {| en_claim := claim; en_event := e |}) ≫= λ answer,
      if ca_accepted answer then mret (e, ca_next_sequence answer)
      else match ca_rejection answer with
           | Some OUT_OF_ORDER => append_attempts fuel' d stage (with_sequence e (ca_next_sequence answer)) claim
           | Some DUPLICATE_EVENT =>
               _canonical_event claim (ce_event_id e) ≫= λ replayed,
               _verify_replay d stage replayed ≫= λ _,
               mret (replayed, ca_next_sequence answer)
           | Some rejection => throw (AppendRejectedError rejection (ca_next_sequence answer))
           | None => throw (ChannelReplayError (dl_delivery_id d))
           end
  end.

Definition _append_stage (d : ChannelTextDelivery) (stage : TranscriptStage.t) (sequence : Z) (claim : ChannelIdentityClaim) :
    R (ConversationEvent * Z) :=
  the_relay ≫= λ t,
  append_attempts MAX_SEQUENCE_REBASE_ATTEMPTS d stage (event uuid5 (tr_identity t) d stage sequence) claim.

(** [remote_by_id.get(id)]: the last event of that identifier. *)
Definition remote_get (id : uuid) (remote : list ConversationEvent) : option ConversationEvent :=
  List.find (λ e, ce_event_id e =? id) (rev remote).
(** [events[-1].sequence + 1 if events else 1] *)
Definition next_sequence (events : list ConversationEvent) : Z :=
  match last events with Some e => ce_sequence e + 1 | None => 1 end.

Definition verify_if (d : ChannelTextDelivery) (stage : TranscriptStage.t) (existing : option ConversationEvent) : R unit :=
  match existing with Some e => _verify_replay d stage e | None => mret tt end.

(** Append a stage that is not there yet; the next sequence. *)
Definition append_unless (d : ChannelTextDelivery) (stage : TranscriptStage.t) (existing : option ConversationEvent)
    (claim : ChannelIdentityClaim) (sequence : Z) : R Z :=
  match existing with
  | Some _ => mret sequence
  | None => _append_stage d stage sequence claim ≫= λ out, mret out.2
  end.
Definition append_missing (d : ChannelTextDelivery) (claim : ChannelIdentityClaim) (sequence : Z)
    (partial final : option ConversationEvent) : R DeliveryReceipt :=
  append_unless d TranscriptStage.PARTIAL partial claim sequence ≫= λ sequence,
  append_unless d TranscriptStage.FINAL final claim sequence ≫= λ sequence,
  mret (_receipt d DeliveryStatus.ACCEPTED (Some sequence)).

Definition _deliver (d : ChannelTextDelivery) : R DeliveryReceipt :=
  the_relay ≫= λ t,
  let claim := _claim_for t d in
  openclaw (OpenClawAdapter.events parse_device claim) ≫= λ remote,
  let partial := remote_get (event_id uuid5 d TranscriptStage.PARTIAL) remote in
  let final := remote_get (event_id uuid5 d TranscriptStage.FINAL) remote in
  throw_if (bool_decide (is_Some final) && bool_decide (partial = None)) (ChannelReplayError (dl_delivery_id d)) ≫= λ _,
  verify_if d TranscriptStage.PARTIAL partial ≫= λ _,
  verify_if d TranscriptStage.FINAL final ≫= λ _,
  match partial, final with
  | Some _, Some f => mret (_receipt d DeliveryStatus.DUPLICATE (Some (ce_sequence f + 1)))
  | _, _ =>
      catch (append_missing d claim (next_sequence remote) partial final)
        (λ e, match e with
              | AppendRejectedError r n => mret (rejected_receipt d r n)
              | _ => throw e
              end)
  end.

Definition receive_delivery (d : ChannelTextDelivery) : R DeliveryReceipt :=
  the_relay ≫= λ t,
  throw_if (negb (bool_decide (dl_channel_kind d = tr_channel_kind t))) (ChannelConfigurationError (dl_channel_kind d)) ≫= λ _,
  match dict_get (dl_delivery_id d) (tr_pending t) with
  | Some queued =>
      throw_if (negb (bool_decide (queued = d))) (ChannelReplayError (dl_delivery_id d)) ≫= λ _,
      mret (_receipt d DeliveryStatus.QUEUED None)
  | None =>
      stateful (λ t,
        match _deliver d t with
        | (t', Err (OpenClawRaised ApiConnectionError)) =>
            (with_pending t' (dict_set (dl_delivery_id d) d (tr_pending t')), Ok (_receipt d DeliveryStatus.QUEUED None))
        | (t', Err e) => (t', Err e)
        | (t', Ok receipt) => (with_pending t' (dict_del (dl_delivery_id d) (tr_pending t')), Ok receipt)
        end)
  end.

(** The loop of [reconnect] over the deliveries that were pending when it started. *)
Fixpoint flush (deliveries : list ChannelTextDelivery) (receipts : list DeliveryReceipt) : R (list DeliveryReceipt) :=
  match deliveries with
  | [] => mret receipts
  | d :: rest =>
      stateful (λ t, receive_delivery d (with_pending t (dict_del (dl_delivery_id d) (tr_pending t)))) ≫= λ receipt,
      match rt_status receipt with
      | DeliveryStatus.QUEUED => mret (receipts ++ [receipt])
      | _ => flush rest (receipts ++ [receipt])
      end
  end.
Definition reconnect : R (list DeliveryReceipt) :=
  the_relay ≫= λ t, flush (tr_pending t).*2 [].

Definition synchronize (after_sequence : Z) : R ChannelSyncBatch :=
  throw_if (after_sequence <? 0) (ChannelCursorError after_sequence) ≫= λ _,
  the_relay ≫= λ t,
  stateful (λ t, (t, _configured_claim t)) ≫= λ claim,
  openclaw (OpenClawAdapter.events parse_device claim) ≫= λ events,
  mret {| sb_after_sequence := after_sequence; sb_next_sequence := next_sequence events;
          sb_events := filter (λ e, after_sequence < ce_sequence e) events |}.

(** ** WebChat and Telegram *)

Record WebChatMessage := {
  wm_message_id : string;
  wm_conversation_id : string;
  wm_user_id : string;
  wm_sent_at : Z;
  wm_text : string;
}.
Definition webchat_delivery (m : WebChatMessage) : ChannelTextDelivery :=
  {| dl_delivery_id := wm_message_id m; dl_channel_kind := ChannelKind.OPENCLAW_WEBCHAT;
     dl_external_channel_id := wm_conversation_id m; dl_external_user_id := wm_user_id m;
     dl_sent_at := wm_sent_at m; dl_text := wm_text m |}.
Definition webchat_receive (m : WebChatMessage) : R DeliveryReceipt := receive_delivery (webchat_delivery m).

(** An update with its message: the chat, the sender, the date and the text. *)
Record TelegramUpdate := {
  tu_update_id : Z;
  tu_sent_at : Z;
  tu_chat_id : Z;
  tu_sender_id : Z;
  tu_text : string;
}.
Record TelegramAdapter := {
  ta_relay : TextChannelRelay;
  ta_webhook_secret : string;
  ta_last_update_id : option Z;
}.
Definition telegram_delivery (u : TelegramUpdate) : ChannelTextDelivery :=
  {| dl_delivery_id := pretty (tu_update_id u); dl_channel_kind := ChannelKind.TELEGRAM;
     dl_external_channel_id := pretty (tu_chat_id u); dl_external_user_id := pretty (tu_sender_id u);
     dl_sent_at := tu_sent_at u; dl_text := tu_text u |}.

Definition with_relay (a : TelegramAdapter) (t : TextChannelRelay) (cursor : option Z) : TelegramAdapter :=
  {| ta_relay := t; ta_webhook_secret := ta_webhook_secret a; ta_last_update_id := cursor |}.

Definition telegram_receive (u : TelegramUpdate) (presented_secret : string) :
    comp TelegramAdapter ChannelError DeliveryReceipt := λ a,
  if negb (is_ascii presented_secret && is_ascii (ta_webhook_secret a)) then (a, Err SecretTypeError)
  else if negb (String.eqb presented_secret (ta_webhook_secret a)) then (a, Err (TelegramAuthenticationError (tu_update_id u)))
  else match ta_last_update_id a with
  | Some last =>
      if tu_update_id u <? last then (a, Err (TelegramReplayError (tu_update_id u) last))
      else match receive_delivery (telegram_delivery u) (ta_relay a) with
           | (t, Err e) => (with_relay a t (Some last), Err e)
           | (t, Ok receipt) =>
               (with_relay a t (Some (if last <? tu_update_id u then tu_update_id u else last)), Ok receipt)
           end
  | None =>
      match receive_delivery (telegram_delivery u) (ta_relay a) with
      | (t, Err e) => (with_relay a t None, Err e)
      | (t, Ok receipt) => (with_relay a t (Some (tu_update_id u)), Ok receipt)
      end
  end.
End relay.
Arguments TextChannelRelay : clear implicits.
Arguments TelegramAdapter : clear implicits.

(** ** Consent to a binding *)

Record ChannelBindingConsent := {
  bs_binding_id : uuid;
  bs_channel_kind : ChannelKind.t;
  bs_external_channel_id : string;
  bs_external_user_id : string;
  bs_granted : bool;
}.

(** [NonEmpty] external identifiers. *)
Definition from_identity (i : BoundChannelIdentity) (granted : bool) : option ChannelBindingConsent :=
  let b := bc_binding i in
  if String.eqb (bi_external_channel_id b) "" || String.eqb (bi_external_user_id b) "" then None
  else Some {| bs_binding_id := bi_binding_id b; bs_channel_kind := bi_channel_kind b;
               bs_external_channel_id := bi_external_channel_id b; bs_external_user_id := bi_external_user_id b;
               bs_granted := granted |}.

Definition enforce_consent (i : BoundChannelIdentity) (c : ChannelBindingConsent) : result ChannelError unit :=
  let b := bc_binding i in
  if negb (bs_granted c) then Err (ChannelConsentError (bi_binding_id b) DECLINED)
  else if (bs_binding_id c =? bi_binding_id b) && bool_decide (bs_channel_kind c = bi_channel_kind b)
          && String.eqb (bs_external_channel_id c) (bi_external_channel_id b)
          && String.eqb (bs_external_user_id c) (bi_external_user_id b)
  then Ok tt
  else Err (ChannelConsentError (bi_binding_id b) CONSENT_MISMATCH).

Definition coordinated_enroll {P : Type} `{DevicePersistence P} (parse_device : string → option Device)
    (devices : DeviceRegistry P) (i : BoundChannelIdentity) (c : ChannelBindingConsent) (approver : MtlsClientIdentity) :
    comp IdentityBindingRegistry.t ChannelError BoundChannelIdentity := λ r,
  match enforce_consent i c with
  | Err e => (r, Err e)
  | Ok _ =>
      match IdentityBindingRegistry.enroll parse_device devices i approver r with
      | (r', Ok i') => (r', Ok i')
      | (r', Err e) => (r', Err (OpenClawRaised e))
      end
  end.
