(* ===== verification/ChannelsSpec.v ===== *)
(** * Deliveries of text channels are accounted for

    The conversation service is taken at its contract: events of a conversation go
    through its journal, in whatever order clients reach it, and a call may fail before
    or after it took effect.  Under that contract, and with other clients writing at
    any moment, every receipt of a relay is true. *)

From stdpp Require Import prelude base strings list gmap pretty.
From Stdlib Require Import ZArith Lia.
From S2P Require Import Prelude PyTime PyText PyUuid Transactions Enrollment Conversation OpenClaw Channels.
#[local] Open Scope string_scope.
#[local] Open Scope list_scope.
#[local] Open Scope Z_scope.

(** ** The contract of the conversation service *)

Abbreviation journalled := (ConversationJournal * list ConversationEvent)%type.

(** The journal after some events that satisfy [allowed] reached it. *)
Definition evolves (allowed : ConversationEvent → Prop) (g g' : journalled) : Prop :=
  ∃ es, Forall allowed es ∧ g' = foldl journal_step g es.

(** Between and during calls, other clients write [foreign] events. *)
Class ConversationApiLaws (S : Type) `{ConversationApi S} (foreign : ConversationEvent → Prop) := {
  api_ok : S → Prop;
  journalled_of : S → uuid → journalled;
  journalled_inv : ∀ s id, api_ok s →
    ∃ c ds, journal_inv c ds (journalled_of s id) ∧ cv_conversation_id c = id;
  list_events_law : ∀ id s s' r, api_ok s → list_events id s = (s', r) →
    api_ok s' ∧ (∀ k, evolves foreign (journalled_of s k) (journalled_of s' k))
    ∧ (∀ l, r = Ok l → l = (journalled_of s' id).2);
  append_event_law : ∀ e s s' r, api_ok s → append_event e s = (s', r) →
    api_ok s' ∧ (∀ k, k ≠ ce_conversation_id e → evolves foreign (journalled_of s k) (journalled_of s' k))
    ∧ ∃ before after, evolves foreign (journalled_of s (ce_conversation_id e)) before
        ∧ evolves foreign after (journalled_of s' (ce_conversation_id e))
        ∧ ((after = before ∧ ∃ x, r = Err x)
           ∨ (after = journal_step before e ∧ ∀ a, r = Ok a → a = (accept e before.1).2));
}.

(** ** Journals that evolve *)

Lemma evolves_refl allowed g : evolves allowed g g.
Proof. by exists []. Qed.

Lemma evolves_trans allowed g1 g2 g3 : evolves allowed g1 g2 → evolves allowed g2 g3 → evolves allowed g1 g3.
Proof. intros (es & H1 & ->) (es' & H2 & ->). exists (es ++ es'). by rewrite foldl_app, Forall_app. Qed.

Lemma evolves_step (allowed : ConversationEvent → Prop) g e : allowed e → evolves allowed g (journal_step g e).
Proof. intros He. exists [e]. split; [by constructor|done]. Qed.

Lemma evolves_mono (P Q : ConversationEvent → Prop) g g' : (∀ e, P e → Q e) → evolves P g g' → evolves Q g g'.
Proof. intros HPQ (es & Hes & ->). exists es. split; [|done]. by eapply list.Forall_impl. Qed.

Lemma journal_step_cases g e :
  ((accept e g.1).2.(ca_accepted) = false ∧ journal_step g e = g)
  ∨ ((accept e g.1).2.(ca_accepted) = true ∧ (journal_step g e).2 = g.2 ++ [e]).
Proof.
  destruct g as [j acc]. unfold journal_step. simpl.
  destruct (accept_cases e j) as [(r & ->)|(_ & _ & j' & -> & _)]; simpl; [by left|by right].
Qed.

(** The stream grows at its end, by allowed events. *)
Lemma evolves_stream (allowed : ConversationEvent → Prop) g g' : evolves allowed g g' →
  ∃ new, g'.2 = g.2 ++ new ∧ Forall allowed new.
Proof.
  intros (es & Hes & ->). revert g. induction Hes as [|e es He _ IH]; intros g; [exists []; by rewrite app_nil_r|].
  simpl. destruct (IH (journal_step g e)) as (new & -> & Hnew).
  destruct (journal_step_cases g e) as [(_ & ->)|(_ & ->)]; [by exists new|].
  exists (e :: new). rewrite <- app_assoc. split; [done|by constructor].
Qed.

Lemma evolves_elem allowed g g' e : evolves allowed g g' → e ∈ g.2 → e ∈ g'.2.
Proof. intros (new & -> & _)%evolves_stream. set_solver. Qed.

Lemma evolves_inv c ds allowed g g' : evolves allowed g g' → journal_inv c ds g → journal_inv c ds g'.
Proof.
  intros (es & _ & ->). revert g. induction es as [|e es IH]; intros g Hg; [done|]. by apply IH, journal_step_inv.
Qed.

(** ** A relay over the service *)

Section relay.
Context {S P : Type} `{ConversationApi S} `{DevicePersistence P}.
Context (parse_device : string → option Device) (uuid5 : uuid → string → uuid).

(** Events of other clients never carry an identifier of a channel. *)
Definition foreign (e : ConversationEvent) : Prop := ∀ d stage, ce_event_id e ≠ event_id uuid5 d stage.
Context `{!ConversationApiLaws S foreign}.

Abbreviation relay := (TextChannelRelay S P).
Abbreviation event := (event uuid5).
Abbreviation deliver := (_deliver parse_device uuid5).
Abbreviation receive := (receive_delivery parse_device uuid5).
Abbreviation reconnect := (reconnect parse_device uuid5).
Abbreviation partial_of i d n := (event i d TranscriptStage.PARTIAL n).
Abbreviation final_of i d n := (event i d TranscriptStage.FINAL n).

Definition api_of (t : relay) : S := OpenClawAdapter.api (tr_openclaw t).
Definition conversation_of (t : relay) : uuid := bi_conversation_id (bc_binding (tr_identity t)).
Definition journal_of (t : relay) : journalled := journalled_of (api_of t) (conversation_of t).
Definition stream (t : relay) : list ConversationEvent := (journal_of t).2.

(** The same relay over a service that went on. *)
Record same_relay (t t' : relay) : Prop := {
  sr_client : tr_client t' = tr_client t;
  sr_identity : tr_identity t' = tr_identity t;
  sr_kind : tr_channel_kind t' = tr_channel_kind t;
  sr_pending : tr_pending t' = tr_pending t;
  sr_ok : api_ok (api_of t) → api_ok (api_of t');
}.
Record goes (allowed : ConversationEvent → Prop) (t t' : relay) : Prop := {
  go_same : same_relay t t';
  go_evolves : api_ok (api_of t) → evolves (λ e, foreign e ∨ allowed e) (journal_of t) (journal_of t');
}.
Abbreviation idles := (goes (λ _, False)).

Lemma goes_refl allowed t : goes allowed t t.
Proof. split; [done|]. intros _. apply evolves_refl. Qed.

Lemma same_relay_trans t1 t2 t3 : same_relay t1 t2 → same_relay t2 t3 → same_relay t1 t3.
Proof. intros [] []. split; try congruence. auto. Qed.

Lemma goes_trans allowed t1 t2 t3 : goes allowed t1 t2 → goes allowed t2 t3 → goes allowed t1 t3.
Proof.
  intros [H1 H1'] [H2 H2']. split; [by eapply same_relay_trans|]. intros Hok.
  eapply evolves_trans; [by apply H1'|]. apply H2'. by apply (sr_ok _ _ H1).
Qed.

Lemma goes_mono (A B : ConversationEvent → Prop) t t' : (∀ e, A e → B e) → goes A t t' → goes B t t'.
Proof. intros HAB [H1 H2]. split; [done|]. intros Hok. eapply evolves_mono; [|by apply H2]. intros e [?|?]; auto. Qed.

Lemma idles_goes allowed t t' : idles t t' → goes allowed t t'.
Proof. by apply goes_mono. Qed.

Lemma goes_elem allowed t t' e : goes allowed t t' → api_ok (api_of t) → e ∈ stream t → e ∈ stream t'.
Proof. intros [_ Hg] Hok. apply evolves_elem with (1 := Hg Hok). Qed.

Lemma goes_ok allowed t t' : goes allowed t t' → api_ok (api_of t) → api_ok (api_of t').
Proof. intros [[] _]. done. Qed.

(** *** Calls through the adapter *)

Lemma authenticate_state client (a : OpenClawAdapter.t S P) : (OpenClawAdapter._authenticate parse_device client a).1 = a.
Proof. unfold OpenClawAdapter._authenticate. by destruct (verify_mtls_identity _ _ _ _). Qed.

(** Reading events: those of the conversation the binding names. *)
Lemma openclaw_events claim t t' r :
  openclaw (OpenClawAdapter.events parse_device claim) t = (t', r) →
  idles t t' ∧ (api_ok (api_of t) → ∀ l, r = Ok l → ∃ id, l = (journalled_of (api_of t') id).2).
Proof.
  intros Hrun. unfold openclaw, OpenClawAdapter.events in Hrun. rewrite bind_run in Hrun.
  pose proof (authenticate_state (tr_client t) (tr_openclaw t)) as Ha.
  destruct (OpenClawAdapter._authenticate parse_device (tr_client t) (tr_openclaw t)) as [a [u|e]]; simpl in Ha; subst a.
  2: { injection Hrun as <- <-. split; [|done]. destruct t. apply goes_refl. }
  rewrite bind_run in Hrun. simpl in Hrun.
  destruct (IdentityBindingRegistry.resolve _ _ _) as [i|e].
  2: { injection Hrun as <- <-. split; [|done]. destruct t. apply goes_refl. }
  unfold OpenClawAdapter.call in Hrun.
  destruct (list_events (bi_conversation_id (bc_binding i)) (OpenClawAdapter.api (tr_openclaw t))) as [s out] eqn:Hl.
  assert (t' = with_openclaw t (OpenClawAdapter.with_api (tr_openclaw t) s)
    ∧ ∀ l, r = Ok l → out = Ok l) as [-> Hr].
  { destruct out; injection Hrun as <- <-; split; try done. by intros l [= ->]. }
  split.
  - split; [split; try done|].
    + intros Hok. by destruct (list_events_law _ _ _ _ Hok Hl) as [? _].
    + intros Hok. destruct (list_events_law _ _ _ _ Hok Hl) as (_ & Hev & _).
      eapply evolves_mono; [|exact (Hev (conversation_of t))]. auto.
  - intros Hok l Heq. destruct (list_events_law _ _ _ _ Hok Hl) as (_ & _ & Hout).
    exists (bi_conversation_id (bc_binding i)). by apply Hout, Hr.
Qed.

(** Appending an event of this relay's conversation. *)
Lemma openclaw_append claim e t t' r :
  ce_conversation_id e = conversation_of t →
  openclaw (OpenClawAdapter.append_text parse_device {| en_claim := claim; en_event := e |}) t = (t', r) →
  goes (λ x, x = e) t t'
  ∧ (api_ok (api_of t) → ∀ a, r = Ok a →
     if ca_accepted a then e ∈ stream t' else idles t t').
Proof.
  intros Hconv Hrun. unfold openclaw, OpenClawAdapter.append_text in Hrun. rewrite bind_run in Hrun.
  pose proof (authenticate_state (tr_client t) (tr_openclaw t)) as Ha.
  assert (idles t (with_openclaw t (tr_openclaw t))) as Hsame by (destruct t; apply goes_refl).
  destruct (OpenClawAdapter._authenticate parse_device (tr_client t) (tr_openclaw t)) as [a [u|x]]; simpl in Ha; subst a.
  2: { injection Hrun as <- <-. by split; [apply idles_goes|]. }
  rewrite bind_run in Hrun. simpl in Hrun.
  destruct (IdentityBindingRegistry.resolve _ _ _) as [i|x].
  2: { injection Hrun as <- <-. by split; [apply idles_goes|]. }
  destruct (negb _).
  { injection Hrun as <- <-. by split; [apply idles_goes|]. }
  assert ((∃ x, t' = with_openclaw t (tr_openclaw t) ∧ r = Err x)
    ∨ (∃ s out, append_event e (api_of t) = (s, out) ∧ t' = with_openclaw t (OpenClawAdapter.with_api (tr_openclaw t) s)
       ∧ ∀ a, r = Ok a ↔ out = Ok a)) as [(x & -> & ->)|(s & out & Hcall & -> & Hr)].
  { destruct (ce_payload e); try (injection Hrun as <- <-; left; by eexists).
    all: right; unfold OpenClawAdapter.call in Hrun; fold (api_of t) in Hrun.
    all: destruct (append_event e (api_of t)) as [s out] eqn:Hcall; exists s, out; split; [done|].
    all: destruct out; injection Hrun as <- <-; split; try done; intros b; split; by intros [= ->]. }
  { by split; [apply idles_goes|]. }
  assert (api_ok (api_of t) → ∃ before after,
    evolves foreign (journal_of t) before ∧ evolves foreign after (journalled_of s (conversation_of t))
    ∧ ((after = before ∧ ∃ x, out = Err x) ∨ (after = journal_step before e ∧ ∀ a, out = Ok a → a = (accept e before.1).2)))
    as Hlaw.
  { intros Hok. destruct (append_event_law _ _ _ _ Hok Hcall) as (_ & _ & Hb). by rewrite Hconv in Hb. }
  assert (∀ P g g', evolves foreign g g' → evolves (λ e, foreign e ∨ P e) g g') as Hmono.
  { intros Q g g'. apply evolves_mono. auto. }
  assert (same_relay t (with_openclaw t (OpenClawAdapter.with_api (tr_openclaw t) s))) as Hsr.
  { split; try done. intros Hok. by destruct (append_event_law _ _ _ _ Hok Hcall) as [? _]. }
  split.
  - split; [done|]. intros Hok. destruct (Hlaw Hok) as (before & after & Hb & Ha & Hcase).
    eapply evolves_trans; [by apply Hmono|]. eapply evolves_trans; [|by apply Hmono].
    destruct Hcase as [[-> _]|[-> _]]; [apply evolves_refl|]. apply evolves_step. by right.
  - intros Hok a Heq. apply Hr in Heq. destruct (Hlaw Hok) as (before & after & Hb & Ha & Hcase).
    destruct Hcase as [[_ [x Hx]]|[-> Hans]]; [congruence|]. rewrite (Hans a Heq).
    destruct (journal_step_cases before e) as [(Hno & Hstep)|(Hyes & Hstep)].
    + rewrite Hno. split; [done|]. intros _. rewrite Hstep in Ha.
      eapply evolves_trans; by apply Hmono.
    + rewrite Hyes. apply (evolves_elem _ _ _ e Ha). rewrite Hstep. set_solver.
Qed.

(** *** Appending a stage *)

Definition own (i : BoundChannelIdentity) (d : ChannelTextDelivery) (stage : TranscriptStage.t) (e : ConversationEvent) : Prop :=
  ∃ n, e = event i d stage n.

Lemma with_sequence_event i d stage n m : with_sequence (event i d stage n) m = event i d stage m.
Proof. done. Qed.

Lemma event_conversation i d stage n : ce_conversation_id (event i d stage n) = bi_conversation_id (bc_binding i).
Proof. done. Qed.

(** An event read in some conversation and equal to one of this relay's is in its stream. *)
Lemma read_own (t : relay) id e d stage n : api_ok (api_of t) → e ∈ (journalled_of (api_of t) id).2 →
  e = event (tr_identity t) d stage n → e ∈ stream t.
Proof.
  intros Hok Hin ->. destruct (journalled_inv _ id Hok) as (c & ds & Hinv & Hid).
  pose proof (ji_belongs _ _ _ Hinv) as Hb. rewrite list.Forall_forall in Hb.
  destruct (Hb _ Hin) as [Hconv _]. rewrite event_conversation in Hconv. unfold stream, journal_of, conversation_of.
  by rewrite Hconv, Hid.
Qed.

Lemma verify_replay_run d stage e (t t' : relay) r : _verify_replay uuid5 d stage e t = (t', r) →
  t' = t ∧ (is_ok r = true → e = event (tr_identity t) d stage (ce_sequence e)) ∧ ∀ x n, r ≠ Err (AppendRejectedError x n).
Proof.
  intros [= <- <-]. split; [done|]. split; [|by intros x n; case_bool_decide].
  intros Hok. apply dec_stable. intros Hne. by rewrite bool_decide_eq_false_2 in Hok.
Qed.

Lemma canonical_event_run claim id (t t' : relay) r : _canonical_event parse_device claim id t = (t', r) →
  idles t t' ∧ (∀ x n, r ≠ Err (AppendRejectedError x n))
  ∧ (api_ok (api_of t) → ∀ e, r = Ok e → ∃ k, e ∈ (journalled_of (api_of t') k).2).
Proof.
  unfold _canonical_event. rewrite bind_run. intros Hrun.
  destruct (openclaw _ t) as [t1 out] eqn:Hev. destruct (openclaw_events _ _ _ _ Hev) as [Hidle Hread].
  destruct out as [l|x].
  - destruct (List.find _ l) as [e|] eqn:Hfind; injection Hrun as <- <-; split_and!; try done.
    intros Hok e' [= <-]. destruct (Hread Hok l eq_refl) as (k & ->). exists k.
    apply List.find_some in Hfind as [Hin _]. by apply list_elem_of_In.
  - injection Hrun as <- <-. split_and!; [done| |done]. unfold openclaw in Hev.
    intros y n [= ->]. by destruct (OpenClawAdapter.events _ _ _ _) as [? [|?]].
Qed.

Lemma append_attempts_run fuel d stage n claim (t t' : relay) r :
  append_attempts parse_device uuid5 fuel d stage (event (tr_identity t) d stage n) claim t = (t', r) →
  goes (own (tr_identity t) d stage) t t'
  ∧ (api_ok (api_of t) →
     (∀ e m, r = Ok (e, m) → e = event (tr_identity t) d stage (ce_sequence e) ∧ e ∈ stream t')
     ∧ (∀ x m, r = Err (AppendRejectedError x m) → idles t t')).
Proof.
  revert n t. induction fuel as [|fuel IH]; intros n t Hrun.
  { injection Hrun as <- <-. split; [apply goes_refl|]. intros _. split; [done|]. intros x m _. apply goes_refl. }
  simpl in Hrun. rewrite bind_run in Hrun.
  destruct (openclaw (OpenClawAdapter.append_text _ _) t) as [t1 out] eqn:Happ.
  destruct (openclaw_append claim (event (tr_identity t) d stage n) t t1 out eq_refl Happ) as [Hgo Hans].
  assert (goes (own (tr_identity t) d stage) t t1) as Hown.
  { eapply goes_mono; [|exact Hgo]. intros x ->. by exists n. }
  destruct out as [a|x].
  2: { injection Hrun as <- <-. split; [done|]. intros _. split; [done|]. intros y m [= ->]. unfold openclaw in Happ.
       by destruct (OpenClawAdapter.append_text _ _ _ _) as [? [|?]]. }
  destruct (ca_accepted a) eqn:Hacc.
  { injection Hrun as <- <-. split; [done|]. intros Hok. split; [|done]. intros e m [= <- <-].
    split; [done|]. specialize (Hans Hok a eq_refl). by rewrite Hacc in Hans. }
  assert (api_ok (api_of t) → idles t t1) as Hidle.
  { intros Hok. specialize (Hans Hok a eq_refl). by rewrite Hacc in Hans. }
  assert (tr_identity t1 = tr_identity t) as Hid by apply Hgo.
  assert (∀ x m, (t1, Err (AppendRejectedError x m)) = (t', r) →
    goes (own (tr_identity t) d stage) t t' ∧ (api_ok (api_of t) →
     (∀ e m, r = Ok (e, m) → e = event (tr_identity t) d stage (ce_sequence e) ∧ e ∈ stream t')
     ∧ (∀ x m, r = Err (AppendRejectedError x m) → idles t t'))) as Hrej.
  { intros x m [= <- <-]. split; [done|]. intros Hok. split; [done|]. intros _ _ _. by apply Hidle. }
  destruct (ca_rejection a) as [rej|].
  2: { injection Hrun as <- <-. by split. }
  destruct rej; try (by eapply Hrej; exact Hrun).
  - (* duplicate *)
    rewrite bind_run in Hrun. destruct (_canonical_event _ _ _ t1) as [t2 out] eqn:Hcan.
    destruct (canonical_event_run _ _ _ _ _ Hcan) as (Hidle2 & Hnorej & Hread).
    assert (goes (own (tr_identity t) d stage) t t2) as Hown2 by (eapply goes_trans; [done|by apply idles_goes]).
    destruct out as [e|x]; [|injection Hrun as <- <-; by split; [|split; [|intros y m [= ->]; edestruct Hnorej]]].
    rewrite bind_run in Hrun. destruct (_verify_replay uuid5 d stage e t2) as [t3 v] eqn:Hver.
    destruct (verify_replay_run _ _ _ _ _ _ Hver) as (-> & Heq & Hnov).
    destruct v as [u|x]; injection Hrun as <- <-.
    2: { split; [done|]. intros _. split; [done|]. intros y m [= ->]. by edestruct Hnov. }
    split; [done|]. intros Hok. split; [|done]. intros e' m [= <- <-]. specialize (Heq eq_refl).
    assert (tr_identity t2 = tr_identity t) as Hid2 by (rewrite <- Hid; apply Hidle2). rewrite Hid2 in Heq.
    split; [done|]. pose proof (goes_ok _ _ _ Hown Hok) as Hok1. destruct (Hread Hok1 e eq_refl) as (k & Hin).
    apply (read_own t2 k e d stage (ce_sequence e)); [by apply (goes_ok _ _ _ Hidle2)|done|by rewrite Hid2].
  - (* out of order *)
    rewrite with_sequence_event, <- Hid in Hrun. destruct (IH _ _ Hrun) as [Hgo2 Hres]. rewrite Hid in Hgo2, Hres.
    split; [by eapply goes_trans|]. intros Hok. destruct (Hres (goes_ok _ _ _ Hown Hok)) as [H1 H2].
    split; [done|]. intros x m Heq. eapply goes_trans; [by apply Hidle|by eapply H2].
Qed.

Lemma with_the_relay {A : Type} (k : relay → comp relay ChannelError A) t : (the_relay ≫= k) t = k t t.
Proof. done. Qed.

Lemma append_unless_run d stage existing claim n (t t' : relay) r :
  append_unless parse_device uuid5 d stage existing claim n t = (t', r) →
  goes (own (tr_identity t) d stage) t t'
  ∧ (api_ok (api_of t) → existing = None → ∀ m, r = Ok m → ∃ k, event (tr_identity t) d stage k ∈ stream t').
Proof.
  unfold append_unless. destruct existing as [e|].
  { intros [= <- <-]. split; [apply goes_refl|done]. }
  rewrite bind_run. unfold _append_stage. rewrite with_the_relay. intros Hrun.
  destruct (append_attempts _ _ _ _ _ _ _ _) as [t1 out] eqn:Happ.
  destruct (append_attempts_run _ _ _ _ _ _ _ _ Happ) as [Hgo Hres].
  destruct out as [[e m]|x]; injection Hrun as <- <-; (split; [done|]); [|done].
  intros Hok _ m' _. destruct (Hres Hok) as [Hin _]. destruct (Hin e m eq_refl) as [Heq He].
  exists (ce_sequence e). by rewrite <- Heq.
Qed.

(** Forwarding a delivery adds its partial event, then, once that is there, its final one. *)
Definition forwards (i : BoundChannelIdentity) (d : ChannelTextDelivery) (t t' : relay) : Prop :=
  ∃ t1, goes (own i d TranscriptStage.PARTIAL) t t1
    ∧ goes (λ e, own i d TranscriptStage.FINAL e ∧ ∃ n, partial_of i d n ∈ stream t1) t1 t'.
Definition arrived (t : relay) (d : ChannelTextDelivery) : Prop :=
  ∃ n m, partial_of (tr_identity t) d n ∈ stream t ∧ final_of (tr_identity t) d m ∈ stream t.

Lemma goes_forwards i d t1 t2 t3 : idles t1 t2 → forwards i d t2 t3 → forwards i d t1 t3.
Proof. intros Hi (t & H1 & H2). exists t. split; [|done]. eapply goes_trans; [by apply idles_goes|done]. Qed.

Lemma idles_forwards i d t t' : idles t t' → forwards i d t t'.
Proof. intros Hi. exists t. split; [apply goes_refl|by apply idles_goes]. Qed.

Lemma forwards_same i d t t' : forwards i d t t' → same_relay t t'.
Proof. intros (t1 & [H1 _] & [H2 _]). by eapply same_relay_trans. Qed.

Lemma append_missing_run d claim n partial (t t' : relay) r : api_ok (api_of t) →
  (is_Some partial → ∃ k, partial_of (tr_identity t) d k ∈ stream t) →
  append_missing parse_device uuid5 d claim n partial None t = (t', r) →
  forwards (tr_identity t) d t t'
  ∧ (∀ rc, r = Ok rc → rt_delivery_id rc = dl_delivery_id d ∧ rt_status rc = DeliveryStatus.ACCEPTED ∧ arrived t' d).
Proof.
  intros Hok Hpart. unfold append_missing. rewrite bind_run. intros Hrun.
  destruct (append_unless _ _ _ _ partial _ _ t) as [t1 o1] eqn:H1.
  destruct (append_unless_run _ _ _ _ _ _ _ _ H1) as [Hgo1 Hin1].
  assert (tr_identity t1 = tr_identity t) as Hid by apply Hgo1.
  destruct o1 as [m1|x].
  2: { injection Hrun as <- <-. split; [|done]. exists t1. split; [done|apply goes_refl]. }
  assert (∃ k, partial_of (tr_identity t) d k ∈ stream t1) as Hp1.
  { destruct partial as [e|]; [|by eapply Hin1]. destruct Hpart as [k Hk]; [done|]. exists k. by apply (goes_elem _ _ _ _ Hgo1). }
  rewrite bind_run in Hrun. destruct (append_unless _ _ _ _ None _ _ t1) as [t2 o2] eqn:H2.
  destruct (append_unless_run _ _ _ _ _ _ _ _ H2) as [Hgo2 Hin2]. rewrite Hid in Hgo2, Hin2.
  assert (forwards (tr_identity t) d t t2) as Hf.
  { exists t1. split; [done|]. eapply goes_mono; [|exact Hgo2]. auto. }
  destruct o2 as [m2|x]; injection Hrun as <- <-; (split; [done|]); [|done].
  intros rc [= <-]. split_and!; [done..|]. pose proof (goes_ok _ _ _ Hgo1 Hok) as Hok1.
  destruct Hp1 as [k Hk]. destruct (Hin2 Hok1 eq_refl m2 eq_refl) as [k2 Hk2].
  unfold arrived. assert (tr_identity t2 = tr_identity t) as -> by (rewrite <- Hid; apply Hgo2).
  exists k, k2. split; [by apply (goes_elem _ _ _ _ Hgo2)|done].
Qed.

Lemma remote_get_elem id l e : remote_get id l = Some e → e ∈ l.
Proof. unfold remote_get. intros [Hin _]%List.find_some. by rewrite <- List.in_rev, <- list_elem_of_In in Hin. Qed.

Lemma verify_if_run d stage existing (t t' : relay) r : verify_if uuid5 d stage existing t = (t', r) →
  t' = t ∧ (is_ok r = true → ∀ e, existing = Some e → e = event (tr_identity t) d stage (ce_sequence e)).
Proof.
  destruct existing as [e|]; simpl; [|by intros [= <- <-]].
  intros (-> & Heq & _)%verify_replay_run. split; [done|]. intros Hr e' [= <-]. auto.
Qed.

Lemma deliver_run d (t t' : relay) r : deliver d t = (t', r) → api_ok (api_of t) →
  forwards (tr_identity t) d t t'
  ∧ (∀ rc, r = Ok rc → rt_delivery_id rc = dl_delivery_id d
     ∧ (rt_status rc = DeliveryStatus.REJECTED
        ∨ ((rt_status rc = DeliveryStatus.ACCEPTED ∨ rt_status rc = DeliveryStatus.DUPLICATE) ∧ arrived t' d))).
Proof.
  intros Hrun Hok. unfold _deliver in Hrun. rewrite with_the_relay in Hrun. cbv zeta in Hrun. rewrite bind_run in Hrun.
  destruct (openclaw _ t) as [t1 out] eqn:Hev. destruct (openclaw_events _ _ _ _ Hev) as [Hidle Hread].
  pose proof (goes_ok _ _ _ Hidle Hok) as Hok1. assert (tr_identity t1 = tr_identity t) as Hid by apply Hidle.
  destruct out as [remote|x].
  2: { injection Hrun as <- <-. by split; [apply idles_forwards|]. }
  destruct (Hread Hok remote eq_refl) as (k & Hremote).
  set (partial := remote_get (event_id uuid5 d TranscriptStage.PARTIAL) remote) in Hrun.
  set (final := remote_get (event_id uuid5 d TranscriptStage.FINAL) remote) in Hrun.
  assert (∀ stage e, remote_get (event_id uuid5 d stage) remote = Some e →
    e = event (tr_identity t1) d stage (ce_sequence e) → event (tr_identity t) d stage (ce_sequence e) ∈ stream t1) as Hfound.
  { intros stage e Hget Heq. rewrite Hid in Heq. rewrite <- Heq.
    apply (read_own t1 k e d stage (ce_sequence e)); [done| |by rewrite Hid].
    rewrite <- Hremote. by apply remote_get_elem in Hget. }
  rewrite bind_run in Hrun. unfold throw_if, raise_if in Hrun.
  destruct (bool_decide (is_Some final) && bool_decide (partial = None)) eqn:Horphan.
  { injection Hrun as <- <-. by split; [apply idles_forwards|]. }
  rewrite bind_run in Hrun. destruct (verify_if uuid5 d TranscriptStage.PARTIAL partial t1) as [t2 v1] eqn:Hv1.
  destruct (verify_if_run _ _ _ _ _ _ Hv1) as [-> Hp]. destruct v1 as [u1|x].
  2: { injection Hrun as <- <-. by split; [apply idles_forwards|]. }
  rewrite bind_run in Hrun. destruct (verify_if uuid5 d TranscriptStage.FINAL final t1) as [t2 v2] eqn:Hv2.
  destruct (verify_if_run _ _ _ _ _ _ Hv2) as [-> Hf]. destruct v2 as [u2|x].
  2: { injection Hrun as <- <-. by split; [apply idles_forwards|]. }
  specialize (Hp eq_refl). specialize (Hf eq_refl).
  destruct final as [f|] eqn:Hfinal.
  - destruct partial as [p|] eqn:Hpartial; [|by rewrite bool_decide_eq_true_2, bool_decide_eq_true_2 in Horphan].
    injection Hrun as <- <-. split; [by apply idles_forwards|]. intros rc [= <-]. split; [done|]. right. split; [by right|].
    exists (ce_sequence p), (ce_sequence f). rewrite Hid.
    split; [apply (Hfound _ p Hpartial), Hp|apply (Hfound _ f Hfinal), Hf]; done.
  - assert (catch (append_missing parse_device uuid5 d (_claim_for t d) (next_sequence remote) partial None)
      (λ e, match e with AppendRejectedError r n => mret (rejected_receipt uuid5 d r n) | _ => throw e end) t1 = (t', r)) as Hrun'
      by (by destruct partial).
    clear Hrun. unfold catch in Hrun'.
    destruct (append_missing parse_device uuid5 d _ _ partial None t1) as [t2 out] eqn:Hmiss.
    edestruct append_missing_run as [Hfw Hacc]; [exact Hok1| |exact Hmiss|].
    { intros [p Hp1]. exists (ce_sequence p). rewrite Hid. apply Hfound; [done|by apply Hp]. }
    rewrite Hid in Hfw. apply (goes_forwards _ _ _ _ _ Hidle) in Hfw.
    destruct out as [rc|x].
    + injection Hrun' as <- <-. split; [done|]. intros rc' [= <-]. destruct (Hacc rc eq_refl) as (? & ? & ?).
      split; [done|]. right. split; [by left|done].
    + destruct x; injection Hrun' as <- <-; (split; [done|]); try done. intros rc [= <-]. split; [done|by left].
Qed.

(** *** Receiving *)

Lemma receive_run d (t t' : relay) r : receive d t = (t', r) → api_ok (api_of t) →
  ∃ t1, forwards (tr_identity t) d t t1
  ∧ match r with
    | Err _ => t' = t1
    | Ok rc =>
        rt_delivery_id rc = dl_delivery_id d
        ∧ (if bool_decide (rt_status rc = DeliveryStatus.QUEUED)
           then t' = with_pending t1 (dict_set (dl_delivery_id d) d (tr_pending t))
           else t' = with_pending t1 (dict_del (dl_delivery_id d) (tr_pending t)))
        ∧ (rt_status rc = DeliveryStatus.ACCEPTED ∨ rt_status rc = DeliveryStatus.DUPLICATE → arrived t1 d)
    end.
Proof.
  intros Hrun Hok. unfold receive_delivery in Hrun. rewrite with_the_relay in Hrun. rewrite bind_run in Hrun.
  unfold throw_if, raise_if in Hrun.
  assert (forwards (tr_identity t) d t t) as Hstay by apply idles_forwards, goes_refl.
  destruct (negb (bool_decide (dl_channel_kind d = tr_channel_kind t))).
  { injection Hrun as <- <-. by exists t. }
  destruct (dict_get (dl_delivery_id d) (tr_pending t)) as [queued|] eqn:Hget.
  - rewrite bind_run in Hrun. destruct (bool_decide (queued = d)) eqn:Hq; simpl in Hrun; injection Hrun as <- <-.
    2: by exists t.
    apply bool_decide_eq_true_1 in Hq as ->. exists t. split_and!; [done..| |by intros [|]].
    simpl. rewrite dict_set_get by done. by destruct t.
  - unfold stateful in Hrun. destruct (deliver d t) as [t1 out] eqn:Hdel.
    destruct (deliver_run _ _ _ _ Hdel Hok) as [Hfw Hrc]. exists t1.
    assert (tr_pending t1 = tr_pending t) as Hpend by apply (forwards_same _ _ _ _ Hfw).
    destruct out as [rc|x].
    + injection Hrun as <- <-. destruct (Hrc rc eq_refl) as [Hid Hst]. split_and!; [done..| |].
      * rewrite bool_decide_eq_false_2; [by rewrite Hpend|]. destruct Hst as [->|[[->| ->] _]]; done.
      * intros Ha. destruct Hst as [Hst|[_ Har]]; [|done]. rewrite Hst in Ha. by destruct Ha.
    + assert ((t', r) = (with_pending t1 (dict_set (dl_delivery_id d) d (tr_pending t)), Ok (_receipt uuid5 d DeliveryStatus.QUEUED None))
        ∨ (t' = t1 ∧ ∃ e, r = Err e)) as [[= -> ->]|[-> [e ->]]].
      { rewrite <- Hpend. destruct x as [x| | | | | | | | |]; try destruct x; injection Hrun as <- <-; eauto. }
      * split_and!; [done..|by intros [|]].
      * done.
Qed.

(** *** What is known of a stream *)

(** An event is explained by what was received and came before it. *)
Definition explained (i : BoundChannelIdentity) (received : list ChannelTextDelivery)
    (before : list ConversationEvent) (e : ConversationEvent) : Prop :=
  foreign e ∨ ∃ d, d ∈ received
    ∧ (own i d TranscriptStage.PARTIAL e ∨ (own i d TranscriptStage.FINAL e ∧ ∃ m, partial_of i d m ∈ before)).
Definition sound (i : BoundChannelIdentity) (received : list ChannelTextDelivery) (l : list ConversationEvent) : Prop :=
  ∀ A1 e A2, l = A1 ++ e :: A2 → explained i received A1 e.

Lemma explained_mono i rec rec' A B e : (∀ d, d ∈ rec → d ∈ rec') → (∀ x, x ∈ A → x ∈ B) →
  explained i rec A e → explained i rec' B e.
Proof. intros Hr Hl [Hf|(d & Hd & Hcase)]; [by left|]. right. exists d. split; [auto|]. destruct Hcase as [?|[? [m ?]]]; eauto. Qed.

Lemma sound_app i rec l new : sound i rec l → Forall (explained i rec l) new → sound i rec (l ++ new).
Proof.
  intros Hl Hnew A1 e A2 Heq. apply app_eq_inv in Heq as [(B & -> & HB)|(B & -> & ->)].
  - destruct B as [|x B]; simpl in HB.
    + rewrite app_nil_r in *. subst. apply Forall_cons in Hnew as [He _]. eapply explained_mono; [..|done]; set_solver.
    + injection HB as -> ->. by eapply Hl.
  - apply Forall_app in Hnew as [_ [He _]%Forall_cons]. eapply explained_mono; [..|done]; set_solver.
Qed.

Lemma sound_goes i rec allowed (t t' : relay) : goes allowed t t' → api_ok (api_of t) →
  (∀ e, allowed e → explained i rec (stream t) e) → sound i rec (stream t) → sound i rec (stream t').
Proof.
  intros [_ Hg] Hok Hall Hs. destruct (evolves_stream _ _ _ (Hg Hok)) as (new & Heq & Hnew).
  unfold stream at 1. rewrite Heq. apply sound_app; [done|]. eapply list.Forall_impl; [done|].
  intros e [He|He]; [by left|by apply Hall].
Qed.

Lemma forwards_sound i rec d (t t' : relay) : forwards i d t t' → api_ok (api_of t) → d ∈ rec →
  sound i rec (stream t) → sound i rec (stream t').
Proof.
  intros (t1 & H1 & H2) Hok Hd Hs. apply (sound_goes i rec) in H1 as Hs1; [|done| |done].
  - apply (sound_goes i rec) in H2; [done|by apply (goes_ok _ _ _ H1)| |done]. intros e [He Hp]. right. exists d. auto.
  - intros e He. right. exists d. auto.
Qed.

Lemma forwards_elem i d (t t' : relay) e : forwards i d t t' → api_ok (api_of t) → e ∈ stream t → e ∈ stream t'.
Proof.
  intros (t1 & H1 & H2) Hok Hin. apply (goes_elem _ _ _ _ H2); [by apply (goes_ok _ _ _ H1)|]. by apply (goes_elem _ _ _ _ H1).
Qed.

(** *** Histories *)

(** What a relay has received and answered, with the deliveries in [gap] out of its
    hands for a moment. *)
Record accounted (gap : list string) (received : list ChannelTextDelivery) (log : list DeliveryReceipt) (t : relay) : Prop := {
  ac_ok : api_ok (api_of t);
  ac_sound : sound (tr_identity t) received (stream t);
  ac_arrived : ∀ rc, rc ∈ log → rt_status rc = DeliveryStatus.ACCEPTED ∨ rt_status rc = DeliveryStatus.DUPLICATE →
    ∃ d, d ∈ received ∧ dl_delivery_id d = rt_delivery_id rc ∧ arrived t d;
  ac_queued : ∀ L1 rc L2, log = L1 ++ rc :: L2 → rt_status rc = DeliveryStatus.QUEUED →
    rt_delivery_id rc ∈ gap ∨ rt_delivery_id rc ∈ (tr_pending t).*1
    ∨ ∃ rc', rc' ∈ L2 ∧ rt_delivery_id rc' = rt_delivery_id rc ∧ rt_status rc' ≠ DeliveryStatus.QUEUED;
  ac_pending : ∀ k d, (k, d) ∈ tr_pending t → k = dl_delivery_id d ∧ d ∈ received;
}.

Lemma arrived_later i (t t' : relay) d x : forwards i x t t' → api_ok (api_of t) → arrived t d → arrived t' d.
Proof.
  intros Hf Hok (n & m & H1 & H2). exists n, m. rewrite (sr_identity _ _ (forwards_same _ _ _ _ Hf)).
  split; by apply (forwards_elem _ _ _ _ _ Hf).
Qed.

(** Forwarding changes the stream only. *)
Lemma accounted_forwards gap received log d (t t' : relay) : accounted gap received log t → d ∈ received →
  forwards (tr_identity t) d t t' → accounted gap received log t'.
Proof.
  intros [Hok Hs Ha Hq Hp] Hd Hf. pose proof (forwards_same _ _ _ _ Hf) as [_ Hid _ Hpend Hok']. split.
  - auto.
  - rewrite Hid. by eapply forwards_sound.
  - intros rc Hrc Hst. destruct (Ha rc Hrc Hst) as (x & ? & ? & ?). exists x. split_and!; [done..|]. by eapply arrived_later.
  - by rewrite Hpend.
  - by rewrite Hpend.
Qed.

Lemma accounted_receive gap received log d (t t' : relay) r : accounted gap received log t → d ∈ received →
  receive d t = (t', r) →
  match r with
  | Err _ => accounted gap received log t'
  | Ok rc => accounted (filter (λ k, k ≠ dl_delivery_id d) gap) received (log ++ [rc]) t'
  end.
Proof.
  intros Hacc Hd Hrun. destruct (receive_run _ _ _ _ Hrun (ac_ok _ _ _ _ Hacc)) as (t1 & Hf & Hcase).
  apply (accounted_forwards _ _ _ _ _ _ Hacc Hd) in Hf as Hacc1. destruct r as [rc|e]; [|by subst t'].
  destruct Hcase as (Hid & Ht' & Har). rewrite <- (sr_pending _ _ (forwards_same _ _ _ _ Hf)) in Ht'.
  clear Hf Hrun Hacc t. destruct Hacc1 as [Hok Hs Ha Hq Hp].
  set (queued := bool_decide (rt_status rc = DeliveryStatus.QUEUED)) in Ht'.
  set (pending' := if queued then dict_set (dl_delivery_id d) d (tr_pending t1) else dict_del (dl_delivery_id d) (tr_pending t1)).
  assert (t' = with_pending t1 pending') as -> by (unfold pending'; by destruct queued). clear Ht'.
  split; simpl; [done|done| | |].
  - intros rc' [Hin|Hin]%elem_of_app Hst; [by apply Ha|]. apply list_elem_of_singleton in Hin as ->.
    exists d. split_and!; [done|done|by apply Har].
  - intros L1 rc' L2 Heq Hst.
    destruct (decide (rt_delivery_id rc' = dl_delivery_id d)) as [Hsame|Hne].
    { unfold pending', queued. case_bool_decide as Hqd; [right; left; rewrite Hsame; apply elem_of_dict_set_keys; by left|].
      right; right. exists rc. rewrite Hsame. split_and!; [|done|done].
      destruct L2 as [|x L2 _] using rev_ind; [by apply app_inj_tail in Heq as [_ ->]|].
      rewrite app_comm_cons, app_assoc in Heq. apply app_inj_tail in Heq as [_ ->]. set_solver. }
    destruct L2 as [|x L2 _] using rev_ind; [apply app_inj_tail in Heq as [_ ->]; congruence|].
    rewrite app_comm_cons, app_assoc in Heq. apply app_inj_tail in Heq as [Heq ->].
    destruct (Hq L1 rc' L2 Heq Hst) as [Hg|[Hk|(y & ? & ? & ?)]].
    + left. by apply list_elem_of_filter.
    + right; left. unfold pending'. destruct queued; [apply elem_of_dict_set_keys; by right|by apply elem_of_dict_del_keys].
    + right; right. exists y. split_and!; [set_solver|done|done].
  - intros k x Hin. unfold pending' in Hin. destruct queued.
    + apply elem_of_dict_set in Hin as [[= -> ->]|Hin]; [done|by apply Hp].
    + apply elem_of_dict_del in Hin as [_ Hin]. by apply Hp.
Qed.

(** Taking a delivery out of the queue leaves a gap. *)
Lemma accounted_pop received log k (t : relay) : accounted [] received log t →
  accounted [k] received log (with_pending t (dict_del k (tr_pending t))).
Proof.
  intros [Hok Hs Ha Hq Hp]. split; simpl; try done.
  - intros L1 rc L2 Heq Hst. destruct (Hq L1 rc L2 Heq Hst) as [Hg|[Hk|Hl]]; [by apply elem_of_nil in Hg| |by right; right].
    destruct (decide (rt_delivery_id rc = k)) as [->|Hne]; [left; set_solver|]. right; left. by apply elem_of_dict_del_keys.
  - intros k' d [_ Hin]%elem_of_dict_del. by apply Hp.
Qed.

Lemma accounted_flush received log ds : ∀ receipts (t t' : relay) l, accounted [] received (log ++ receipts) t →
  (∀ d, d ∈ ds → d ∈ received) → flush parse_device uuid5 ds receipts t = (t', Ok l) → accounted [] received (log ++ l) t'.
Proof.
  induction ds as [|d ds IH]; intros receipts t t' l Hacc Hds Hrun.
  { by injection Hrun as <- <-. }
  cbn [flush] in Hrun. rewrite bind_run in Hrun. unfold stateful in Hrun.
  destruct (receive d _) as [t1 out] eqn:Hrec.
  apply (accounted_pop _ _ (dl_delivery_id d)) in Hacc.
  pose proof (accounted_receive _ _ _ _ _ _ _ Hacc (Hds d (list_elem_of_here d ds)) Hrec) as Hacc1.
  destruct out as [rc|e]; [|done]. rewrite filter_cons_False in Hacc1 by tauto. rewrite filter_nil in Hacc1.
  rewrite <- app_assoc in Hacc1.
  destruct (rt_status rc); try (apply IH in Hrun; [done|done|set_solver]). by injection Hrun as <- <-.
Qed.

(** Calls of a relay that started with nothing waiting, with other clients, devices and
    bindings changing in between. *)
Inductive channel_history : list ChannelTextDelivery → list DeliveryReceipt → relay → Prop :=
| history_starts t :
    tr_pending t = [] → api_ok (api_of t) → Forall foreign (stream t) → channel_history [] [] t
| history_receives received log t d t' r :
    channel_history received log t → receive d t = (t', r) →
    channel_history (received ++ [d]) (log ++ match r with Ok rc => [rc] | Err _ => [] end) t'
| history_reconnects received log t t' l :
    channel_history received log t → reconnect t = (t', Ok l) → channel_history received (log ++ l) t'
| history_others received log t t' :
    channel_history received log t → tr_identity t' = tr_identity t → tr_pending t' = tr_pending t →
    api_ok (api_of t') → evolves foreign (journal_of t) (journal_of t') → channel_history received log t'.

Lemma accounted_more received d log (t : relay) : accounted [] received log t → accounted [] (received ++ [d]) log t.
Proof.
  intros [Hok Hs Ha Hq Hp]. split; try done.
  - intros A1 e A2 Heq. eapply explained_mono; [..|by eapply Hs]; set_solver.
  - intros rc Hin Hst. destruct (Ha rc Hin Hst) as (x & ? & ? & ?). exists x. split_and!; [set_solver|done|done].
  - intros k x Hin. destruct (Hp k x Hin). split; [done|set_solver].
Qed.

Lemma history_accounted received log (t : relay) : channel_history received log t → accounted [] received log t.
Proof.
  intros Hh. induction Hh as [t Hp Hok Hfor|received log t d t' r Hh IH Hrun|received log t t' l Hh IH Hrun
    |received log t t' Hh IH Hid Hpend Hok Hev].
  - split; [done| |by intros rc ?%elem_of_nil|by intros [|??] rc L2|by rewrite Hp; intros k d ?%elem_of_nil].
    intros A1 e A2 Heq. left. rewrite Heq in Hfor. by apply Forall_app in Hfor as [_ [? _]%Forall_cons].
  - apply (accounted_more _ d) in IH. assert (d ∈ received ++ [d]) as Hd by set_solver.
    pose proof (accounted_receive _ _ _ _ _ _ _ IH Hd Hrun) as Hacc.
    destruct r; [done|by rewrite app_nil_r].
  - unfold Channels.reconnect in Hrun. rewrite with_the_relay in Hrun.
    eapply accounted_flush; [by rewrite app_nil_r| |exact Hrun].
    intros d ([k x] & -> & Hin)%list_elem_of_fmap. by apply (ac_pending _ _ _ _ IH k).
  - destruct IH as [Hok0 Hs Ha Hq Hp]. split; rewrite ?Hid, ?Hpend; try done.
    + destruct (evolves_stream _ _ _ Hev) as (new & Heq & Hnew). unfold stream. rewrite Heq.
      apply sound_app; [done|]. eapply list.Forall_impl; [done|]. by left.
    + intros rc Hin Hst. destruct (Ha rc Hin Hst) as (d & ? & ? & n & m & H1 & H2). exists d. split_and!; [done..|].
      exists n, m. rewrite Hid. split; by apply (evolves_elem _ _ _ _ Hev).
Qed.

(** Channel messages are accounted for: whatever fails, before or after it took
    effect, and whatever other clients do in between, the stream of the conversation
    holds every identifier once, each event that carries an identifier of the channel
    has the content of a delivery received, and a final event follows the partial one
    of the same delivery; a delivery answered as accepted or duplicate has both events
    in the stream; and one answered as queued still waits or was answered later. *)
Theorem channel_messages_accounted received log (t : relay) :
  channel_history received log t →
  NoDup (map ce_event_id (stream t))
  ∧ (∀ A1 e A2, stream t = A1 ++ e :: A2 → explained (tr_identity t) received A1 e)
  ∧ (∀ rc, rc ∈ log → rt_status rc = DeliveryStatus.ACCEPTED ∨ rt_status rc = DeliveryStatus.DUPLICATE →
       ∃ d, d ∈ received ∧ dl_delivery_id d = rt_delivery_id rc ∧ arrived t d)
  ∧ (∀ L1 rc L2, log = L1 ++ rc :: L2 → rt_status rc = DeliveryStatus.QUEUED →
       rt_delivery_id rc ∈ (tr_pending t).*1
       ∨ ∃ rc', rc' ∈ L2 ∧ rt_delivery_id rc' = rt_delivery_id rc ∧ rt_status rc' ≠ DeliveryStatus.QUEUED).
Proof.
  intros [Hok Hs Ha Hq _]%history_accounted. split_and!; [|exact Hs|exact Ha|].
  - destruct (journalled_inv _ (conversation_of t) Hok) as (c & ds & Hinv & _). apply Hinv.
  - intros L1 rc L2 Heq Hst. destruct (Hq L1 rc L2 Heq Hst) as [?%elem_of_nil|?]; done.
Qed.
End relay.
