(* ===== verification/ChannelsLiveness.v ===== *)
(** * Deliveries that waited arrive

    When the service answers again, a relay empties its queue: every delivery that
    waited is forwarded in the order of the queue, with nothing repeated, whichever
    part of the first one had already arrived. *)

From stdpp Require Import countable prelude base strings list gmap pretty.
From Stdlib Require Import ZArith Lia.
From S2P Require Import Prelude PyTime PyText PyUuid Transactions Enrollment Conversation OpenClaw Channels ChannelsSpec.
#[local] Open Scope string_scope.
#[local] Open Scope list_scope.
#[local] Open Scope Z_scope.

(** A service that is [up] answers every call, and nobody else writes meanwhile. *)
Class ConversationApiLive (S : Type) `{ConversationApi S} (foreign : ConversationEvent → Prop)
    `{!ConversationApiLaws S foreign} := {
  up : S → Prop;
  list_events_up : ∀ id s, up s → ∃ s', list_events id s = (s', Ok (journalled_of s id).2) ∧ up s'
    ∧ ∀ k, journalled_of s' k = journalled_of s k;
  append_event_up : ∀ e s, up s → let g := journalled_of s (ce_conversation_id e) in
    ∃ s', append_event e s = (s', Ok (accept e g.1).2) ∧ up s' ∧ journalled_of s' (ce_conversation_id e) = journal_step g e;
}.

(** ** Names of events *)

Lemma string_eq_list s t : String.list_ascii_of_string s = String.list_ascii_of_string t → s = t.
Proof.
  intros Heq. rewrite <- (String.string_of_list_ascii_of_string s), <- (String.string_of_list_ascii_of_string t).
  by rewrite Heq.
Qed.

Lemma list_ascii_app s t : String.list_ascii_of_string (s +:+ t) = String.list_ascii_of_string s ++ String.list_ascii_of_string t.
Proof. induction s as [|c s IH]; simpl; [done|]. by rewrite IH. Qed.

Lemma append_inj_r s t p : s +:+ p = t +:+ p → s = t.
Proof.
  intros Heq%(f_equal String.list_ascii_of_string). rewrite !list_ascii_app in Heq.
  apply string_eq_list. by apply app_inv_tail in Heq.
Qed.

Lemma stage_names_differ s t : s +:+ ":partial" ≠ t +:+ ":final".
Proof.
  intros Heq%(f_equal (λ x, rev (String.list_ascii_of_string x))). rewrite !list_ascii_app, !rev_app_distr in Heq.
  simpl in Heq. discriminate Heq.
Qed.

(** Deliveries through one external identity. *)
Definition through (i : BoundChannelIdentity) (d : ChannelTextDelivery) : Prop :=
  let b := bc_binding i in
  dl_channel_kind d = bi_channel_kind b ∧ dl_external_channel_id d = bi_external_channel_id b
  ∧ dl_external_user_id d = bi_external_user_id b.

Lemma delivery_key_inj i d d' : through i d → through i d' → delivery_key d = delivery_key d' → dl_delivery_id d = dl_delivery_id d'.
Proof.
  intros (H1 & H2 & H3) (H1' & H2' & H3'). unfold delivery_key. rewrite H1, H1', H2, H2', H3, H3'.
  by intros Heq%append_inj_l%append_inj_l%append_inj_l%append_inj_l%append_inj_l%append_inj_l.
Qed.

Section live.
Context {S P : Type} `{ConversationApi S} `{DevicePersistence P}.
Context (parse_device : string → option Device) (uuid5 : uuid → string → uuid).
Context `{!ConversationApiLaws S (foreign uuid5)} `{!ConversationApiLive S (foreign uuid5)}.
(** Name-based identifiers of different names differ. *)
Context (uuid5_distinct : ∀ m n, uuid5 CHANNEL_EVENT_NAMESPACE m = uuid5 CHANNEL_EVENT_NAMESPACE n → m = n).

Abbreviation relay := (TextChannelRelay S P).
Abbreviation event := (event uuid5).
Abbreviation event_id := (event_id uuid5).
Abbreviation turn := (delivery_turn uuid5).
Abbreviation deliver := (_deliver parse_device uuid5).
Abbreviation receive := (receive_delivery parse_device uuid5).
Abbreviation reconnect := (reconnect parse_device uuid5).
Abbreviation stream := (stream (S := S) (P := P) uuid5).
Abbreviation journal_of := (journal_of (S := S) (P := P) uuid5).
Abbreviation PARTIAL := TranscriptStage.PARTIAL.
Abbreviation FINAL := TranscriptStage.FINAL.

Lemma event_id_inj i d d' stage stage' : through i d → through i d' → event_id d stage = event_id d' stage' →
  dl_delivery_id d = dl_delivery_id d' ∧ stage = stage'.
Proof.
  intros Hd Hd' Heq%uuid5_distinct. destruct stage, stage'; simpl in Heq.
  - apply append_inj_r in Heq. split; [by eapply delivery_key_inj|done].
  - by apply stage_names_differ in Heq.
  - symmetry in Heq. by apply stage_names_differ in Heq.
  - apply append_inj_r in Heq. split; [by eapply delivery_key_inj|done].
Qed.

Lemma turn_inj i d d' : through i d → through i d' → turn d = turn d' → dl_delivery_id d = dl_delivery_id d'.
Proof. intros Hd Hd' Heq%uuid5_distinct. apply append_inj_r in Heq. by eapply delivery_key_inj. Qed.

(** ** One delivery against the journal *)

(** The binding's participant and device may write to the conversation. *)
Definition may_write (i : BoundChannelIdentity) (j : ConversationJournal) : Prop :=
  let c := cj_conversation j in
  bi_conversation_id (bc_binding i) = cv_conversation_id c ∧ cv_state c = ACTIVE
  ∧ bc_participant_id i ∈ cv_participant_ids c ∧ bc_device_id i ∈ cv_device_ids c
  ∧ ∃ dev, cj_devices j !! bc_device_id i = Some dev ∧ cd_participant_id dev = bc_participant_id i.

Lemma may_write_belongs i j d stage n : may_write i j → belongs (cj_conversation j) (cj_devices j) (event i d stage n).
Proof. intros (H1 & H2 & H3 & H4 & H5). unfold belongs. destruct stage; split_and!; done. Qed.

Definition ids (l : list ConversationEvent) : list uuid := map ce_event_id l.

(** How much of a delivery is in the stream. *)
Inductive progress (i : BoundChannelIdentity) (g : journalled) (d : ChannelTextDelivery) : Prop :=
| not_begun : event_id d PARTIAL ∉ ids g.2 → event_id d FINAL ∉ ids g.2 → cj_open_turn_id g.1 = None →
    cj_cancelled_turn_id g.1 ≠ Some (turn d) → progress i g d
| begun n : event i d PARTIAL n ∈ g.2 → event_id d FINAL ∉ ids g.2 → cj_open_turn_id g.1 = Some (turn d) →
    cj_cancelled_turn_id g.1 ≠ Some (turn d) → progress i g d
| done_ n m : event i d PARTIAL n ∈ g.2 → event i d FINAL m ∈ g.2 → cj_open_turn_id g.1 = None → progress i g d.

(** The events of a delivery that a stream lacks. *)
Definition missing (i : BoundChannelIdentity) (l : list ConversationEvent) (d : ChannelTextDelivery) : list ConversationEvent :=
  let n := 1 + Z.of_nat (length l) in
  if bool_decide (event_id d FINAL ∈ ids l) then []
  else if bool_decide (event_id d PARTIAL ∈ ids l) then [event i d FINAL n]
  else [event i d PARTIAL n; event i d FINAL (n + 1)].

(** The stream after the deliveries were forwarded in order. *)
Fixpoint forwarded (i : BoundChannelIdentity) (l : list ConversationEvent) (ds : list ChannelTextDelivery) : list ConversationEvent :=
  match ds with
  | [] => l
  | d :: rest => forwarded i (l ++ missing i l d) rest
  end.

Lemma accepted_step c ds g e : journal_inv c ds g → belongs (cj_conversation g.1) (cj_devices g.1) e →
  ce_event_id e ∉ ids g.2 → ce_sequence e = 1 + Z.of_nat (length g.2) → payload_rejection e g.1 = None →
  (accept e g.1).2 = {| ca_accepted := true; ca_rejection := None; ca_next_sequence := ce_sequence e + 1 |}
  ∧ (journal_step g e).2 = g.2 ++ [e]
  ∧ cj_conversation (journal_step g e).1 = cj_conversation g.1 ∧ cj_devices (journal_step g e).1 = cj_devices g.1
  ∧ (cj_open_turn_id (journal_step g e).1, cj_cancelled_turn_id (journal_step g e).1)
    = turn_step (cj_open_turn_id g.1, cj_cancelled_turn_id g.1) e.
Proof.
  intros Hinv Hb Hfresh Hseq Hpay. destruct g as [j acc]. simpl in *. pose proof (ji_next _ _ _ Hinv) as Hn. simpl in Hn.
  assert (envelope_rejection e j = None) as Henv.
  { apply envelope_rejection_None. split_and!; [done| |lia].
    pose proof (ji_seen _ _ _ Hinv) as Hs. simpl in Hs. rewrite Hs. by rewrite elem_of_list_to_set. }
  destruct (accept_cases e j) as [(r & Hr)|(_ & _ & j' & -> & Hc & Hd & _ & _ & Ht)].
  { unfold accept in Hr. rewrite Henv, Hpay in Hr. discriminate Hr. }
  simpl. rewrite <- Hn in Hseq. rewrite Hseq. done.
Qed.

(** ** Calls of a relay whose binding is in force *)

Definition identity_claim (i : BoundChannelIdentity) : ChannelIdentityClaim :=
  let b := bc_binding i in
  {| cl_binding_id := bi_binding_id b; cl_channel_kind := bi_channel_kind b;
     cl_external_channel_id := bi_external_channel_id b; cl_external_user_id := bi_external_user_id b |}.

(** The service account is authentic and the registry knows the binding as this relay does. *)
Definition linked (t : relay) : Prop :=
  OpenClawAdapter._authenticate parse_device (tr_client t) (tr_openclaw t) = (tr_openclaw t, Ok tt)
  ∧ IdentityBindingRegistry.resolve (OpenClawAdapter.bindings (tr_openclaw t)) (identity_claim (tr_identity t))
      (mc_device_id (tr_client t)) = Ok (tr_identity t).
Definition with_service (t : relay) (s : S) : relay := with_openclaw t (OpenClawAdapter.with_api (tr_openclaw t) s).

Lemma claim_through (t : relay) d : through (tr_identity t) d → _claim_for t d = identity_claim (tr_identity t).
Proof. intros (H1 & H2 & H3). unfold _claim_for, identity_claim. by rewrite H1, H2, H3. Qed.

Lemma linked_service t s : linked t → linked (with_service t s).
Proof.
  intros [Ha Hr]. split; [|exact Hr]. unfold OpenClawAdapter._authenticate in *. simpl.
  destruct (verify_mtls_identity _ _ _ _); [|done]. unfold raise_if in *. by destruct (negb _).
Qed.

Lemma with_service_twice t s s' : with_service (with_service t s) s' = with_service t s'.
Proof. done. Qed.

(** A relay over a service that answers, whose participant may write. *)
Record healthy (t : relay) : Prop := {
  he_ok : api_ok (api_of t);
  he_up : up (api_of t);
  he_linked : linked t;
  he_write : may_write (tr_identity t) (journal_of t).1;
}.

Lemma healthy_inv t : healthy t → ∃ c ds, journal_inv c ds (journal_of t).
Proof. intros Hh. destruct (journalled_inv _ (conversation_of t) (he_ok _ Hh)) as (c & ds & Hinv & _). eauto. Qed.

Lemma events_up t : healthy t → ∃ s, healthy (with_service t s) ∧ journal_of (with_service t s) = journal_of t
  ∧ openclaw (OpenClawAdapter.events parse_device (identity_claim (tr_identity t))) t = (with_service t s, Ok (stream t)).
Proof.
  intros [Hok Hup [Ha Hr] Hw]. destruct (list_events_up (conversation_of t) _ Hup) as (s & Hl & Hup' & Hsame).
  destruct (list_events_law _ _ _ _ Hok Hl) as (Hok' & _). exists s. split_and!.
  - split; [done|done|by apply linked_service|]. unfold ChannelsSpec.journal_of. simpl. by rewrite Hsame.
  - unfold ChannelsSpec.journal_of. simpl. apply Hsame.
  - unfold openclaw, OpenClawAdapter.events. rewrite bind_run, Ha, bind_run. unfold OpenClawAdapter.resolved. rewrite Hr.
    unfold OpenClawAdapter.call. unfold conversation_of, api_of in Hl. by rewrite Hl.
Qed.

Lemma append_up t d stage n : healthy t → event_id d stage ∉ ids (stream t) → n = 1 + Z.of_nat (length (stream t)) →
  payload_rejection (event (tr_identity t) d stage n) (journal_of t).1 = None →
  ∃ s, healthy (with_service t s)
  ∧ openclaw (OpenClawAdapter.append_text parse_device {| en_claim := identity_claim (tr_identity t);
      en_event := event (tr_identity t) d stage n |}) t
    = (with_service t s, Ok {| ca_accepted := true; ca_rejection := None; ca_next_sequence := n + 1 |})
  ∧ stream (with_service t s) = stream t ++ [event (tr_identity t) d stage n]
  ∧ (cj_open_turn_id (journal_of (with_service t s)).1, cj_cancelled_turn_id (journal_of (with_service t s)).1)
    = turn_step (cj_open_turn_id (journal_of t).1, cj_cancelled_turn_id (journal_of t).1) (event (tr_identity t) d stage n).
Proof.
  intros Hh Hfresh Hn Hpay. destruct (healthy_inv t Hh) as (c & ds & Hinv). destruct Hh as [Hok Hup [Ha Hr] Hw].
  set (e := event (tr_identity t) d stage n) in *.
  destruct (accepted_step c ds (journal_of t) e Hinv) as (Hans & Hstream & Hc & Hd & Hturns);
    [by apply may_write_belongs|done|done|done|].
  destruct (append_event_up e _ Hup) as (s & Hl & Hup' & Hj). change (ce_conversation_id e) with (conversation_of t) in Hl, Hj.
  fold (journal_of t) in Hl, Hj. destruct (append_event_law _ _ _ _ Hok Hl) as (Hok' & _).
  assert (journal_of (with_service t s) = journal_step (journal_of t) e) as Hj' by (rewrite <- Hj; done).
  exists s. split_and!.
  - split; [done|done|by apply linked_service|]. rewrite Hj'. unfold may_write. by rewrite Hc, Hd.
  - unfold openclaw, OpenClawAdapter.append_text. rewrite bind_run, Ha, bind_run. unfold OpenClawAdapter.resolved.
    cbn [en_claim en_event]. rewrite Hr, !Z.eqb_refl. cbn [andb negb].
    assert (∀ x, (match ce_payload e with TranscriptPartial _ _ | TranscriptFinal _ _ => OpenClawAdapter.call (append_event e)
      | _ => throw (S := OpenClawAdapter.t S P) x end) = OpenClawAdapter.call (append_event e)) as Hpl
      by (intros x; unfold e; by destruct stage).
    rewrite Hpl. unfold OpenClawAdapter.call. unfold api_of in Hl. by rewrite Hl, Hans.
  - unfold ChannelsSpec.stream. by rewrite Hj'.
  - by rewrite Hj'.
Qed.

(** ** One delivery *)

Lemma append_stage_up t d stage n : healthy t → event_id d stage ∉ ids (stream t) → n = 1 + Z.of_nat (length (stream t)) →
  payload_rejection (event (tr_identity t) d stage n) (journal_of t).1 = None →
  ∃ s, healthy (with_service t s)
  ∧ append_unless parse_device uuid5 d stage None (identity_claim (tr_identity t)) n t = (with_service t s, Ok (n + 1))
  ∧ stream (with_service t s) = stream t ++ [event (tr_identity t) d stage n]
  ∧ (cj_open_turn_id (journal_of (with_service t s)).1, cj_cancelled_turn_id (journal_of (with_service t s)).1)
    = turn_step (cj_open_turn_id (journal_of t).1, cj_cancelled_turn_id (journal_of t).1) (event (tr_identity t) d stage n).
Proof.
  intros Hh Hfresh Hn Hpay. destruct (append_up t d stage n Hh Hfresh Hn Hpay) as (s & Hh' & Hrun & Hstream & Hturns).
  exists s. split_and!; [done| |done|done]. unfold append_unless, _append_stage.
  rewrite bind_run, with_the_relay. unfold MAX_SEQUENCE_REBASE_ATTEMPTS. cbn [append_attempts]. rewrite bind_run, Hrun. done.
Qed.

Lemma remote_get_none l id : id ∉ ids l → remote_get id l = None.
Proof.
  intros Hid. unfold remote_get. destruct (List.find _ (rev l)) as [e|] eqn:Hf; [|done].
  apply List.find_some in Hf as [Hin Heq%Z.eqb_eq]. destruct Hid. subst id. apply list_elem_of_fmap.
  exists e. split; [done|]. by rewrite list_elem_of_In, List.in_rev.
Qed.

Lemma nodup_map_inj {A B : Type} (f : A → B) l x y : NoDup (map f l) → x ∈ l → y ∈ l → f x = f y → x = y.
Proof.
  intros Hnd [i Hi]%list_elem_of_lookup [k Hk]%list_elem_of_lookup Heq.
  assert (i = k) as ->; [|congruence]. eapply NoDup_lookup; [exact Hnd|..].
  - by rewrite list_lookup_fmap, Hi.
  - by rewrite list_lookup_fmap, Hk, Heq.
Qed.

Lemma remote_get_some l e : NoDup (ids l) → e ∈ l → remote_get (ce_event_id e) l = Some e.
Proof.
  intros Hnd Hin. unfold remote_get. destruct (List.find _ (rev l)) as [x|] eqn:Hf.
  - apply List.find_some in Hf as [Hx Heq%Z.eqb_eq]. apply List.in_rev, list_elem_of_In in Hx. f_equal.
    by apply (nodup_map_inj ce_event_id l).
  - apply List.find_none with (x := e) in Hf; [by rewrite Z.eqb_refl in Hf|]. by rewrite <- List.in_rev, <- list_elem_of_In.
Qed.

Lemma next_sequence_length l : map ce_sequence l = seqZ 1 (Z.of_nat (length l)) → next_sequence l = 1 + Z.of_nat (length l).
Proof.
  destruct l as [|e l _] using rev_ind; [done|]. unfold next_sequence. rewrite last_snoc, map_app, length_app. simpl.
  rewrite Nat2Z.inj_add, seqZ_app by lia. intros [_ [= ->]]%app_inj_tail. lia.
Qed.

Lemma verified_event t i d stage n : tr_identity t = i →
  verify_if (S := S) (P := P) uuid5 d stage (Some (event i d stage n)) t = (t, Ok tt).
Proof. intros <-. simpl. unfold _verify_replay. by rewrite bool_decide_eq_true_2. Qed.

(** What is left to do once the stream was read. *)
Lemma deliver_reads t t0 d remote : 
  openclaw (OpenClawAdapter.events parse_device (_claim_for t d)) t = (t0, Ok remote) →
  let partial := remote_get (event_id d PARTIAL) remote in
  let final := remote_get (event_id d FINAL) remote in
  (is_Some final → is_Some partial) →
  verify_if uuid5 d PARTIAL partial t0 = (t0, Ok tt) → verify_if uuid5 d FINAL final t0 = (t0, Ok tt) →
  deliver d t = match partial, final with
    | Some _, Some f => (t0, Ok (_receipt uuid5 d DeliveryStatus.DUPLICATE (Some (ce_sequence f + 1))))
    | _, _ => catch (append_missing parse_device uuid5 d (_claim_for t d) (next_sequence remote) partial final)
        (λ e, match e with AppendRejectedError r n => mret (rejected_receipt uuid5 d r n) | _ => throw e end) t0
    end.
Proof.
  intros Hev partial final Hboth Hp Hf. unfold _deliver. rewrite with_the_relay. cbv zeta. rewrite bind_run, Hev.
  fold partial final. rewrite bind_run. unfold throw_if, raise_if.
  destruct (bool_decide (is_Some final) && bool_decide (partial = None)) eqn:Horphan.
  { apply andb_true_iff in Horphan as [H1%bool_decide_eq_true_1 H2%bool_decide_eq_true_1].
    destruct (Hboth H1) as [x Hx]. congruence. }
  rewrite bind_run, Hp, bind_run, Hf. by destruct partial, final.
Qed.

Lemma append_missing_up t d (partial : option ConversationEvent) : healthy t → event_id d FINAL ∉ ids (stream t) →
  cj_cancelled_turn_id (journal_of t).1 ≠ Some (turn d) →
  match partial with
  | None => (event_id d PARTIAL ∉ ids (stream t)) ∧ cj_open_turn_id (journal_of t).1 = None
  | Some _ => cj_open_turn_id (journal_of t).1 = Some (turn d)
  end →
  let n := 1 + Z.of_nat (length (stream t)) in
  ∃ s m, healthy (with_service t s)
  ∧ append_missing parse_device uuid5 d (identity_claim (tr_identity t)) n partial None t
    = (with_service t s, Ok (_receipt uuid5 d DeliveryStatus.ACCEPTED (Some m)))
  ∧ stream (with_service t s) = stream t ++ match partial with
      | Some _ => [event (tr_identity t) d FINAL n]
      | None => [event (tr_identity t) d PARTIAL n; event (tr_identity t) d FINAL (n + 1)]
      end
  ∧ cj_open_turn_id (journal_of (with_service t s)).1 = None
  ∧ cj_cancelled_turn_id (journal_of (with_service t s)).1 = cj_cancelled_turn_id (journal_of t).1.
Proof.
  intros Hh Hf Hcan Hpart n. unfold append_missing.
  assert (∀ k, cj_open_turn_id (journal_of t).1 = Some (turn d) ∨ k = PARTIAL ∧ cj_open_turn_id (journal_of t).1 = None →
    payload_rejection (event (tr_identity t) d k n) (journal_of t).1 = None) as Hpay.
  { intros k Hk. unfold payload_rejection, transcript_rejection. destruct k; cbn [ce_payload Channels.event];
      (rewrite bool_decide_eq_false_2 by done); destruct Hk as [->|[? ->]]; rewrite ?Z.eqb_refl; done. }
  destruct partial as [e|].
  - destruct (append_stage_up t d FINAL n Hh Hf eq_refl (Hpay _ (or_introl Hpart))) as (s & Hh' & Hr & Hst & Ht).
    injection Ht as Ho Hc. exists s, (n + 1). split_and!; [done| |done|done|done].
    rewrite (bind_ok _ _ t t n) by done. by rewrite bind_run, Hr.
  - destruct Hpart as [Hp Hopen].
    destruct (append_stage_up t d PARTIAL n Hh Hp eq_refl (Hpay _ (or_intror (conj eq_refl Hopen)))) as (s1 & Hh1 & Hr1 & Hst1 & Ht1).
    injection Ht1 as Ho1 Hc1. set (t1 := with_service t s1) in *.
    destruct (append_stage_up t1 d FINAL (n + 1) Hh1) as (s2 & Hh2 & Hr2 & Hst2 & Ht2).
    + rewrite Hst1. unfold ids. rewrite map_app. intros [Hin|Hin]%elem_of_app; [done|]. apply list_elem_of_singleton in Hin.
      by apply uuid5_distinct, eq_sym, stage_names_differ in Hin.
    + rewrite Hst1, length_app. simpl. unfold n. lia.
    + unfold payload_rejection, transcript_rejection. cbn [ce_payload Channels.event]. rewrite Hc1, Ho1.
      rewrite bool_decide_eq_false_2 by done. by rewrite Z.eqb_refl.
    + injection Ht2 as Ho2 Hc2. exists s2, (n + 1 + 1). change (with_service t1 s2) with (with_service t s2) in *.
      split_and!; [done| | |done|by rewrite Hc2].
      * rewrite bind_run, Hr1, bind_run. change (tr_identity t) with (tr_identity t1). by rewrite Hr2.
      * rewrite Hst2, Hst1, <- app_assoc. done.
Qed.

Lemma deliver_up t d : healthy t → through (tr_identity t) d → progress (tr_identity t) (journal_of t) d →
  ∃ s rc, healthy (with_service t s) ∧ deliver d t = (with_service t s, Ok rc) ∧ rt_delivery_id rc = dl_delivery_id d
  ∧ (rt_status rc = DeliveryStatus.ACCEPTED ∨ rt_status rc = DeliveryStatus.DUPLICATE)
  ∧ stream (with_service t s) = stream t ++ missing (tr_identity t) (stream t) d
  ∧ cj_open_turn_id (journal_of (with_service t s)).1 = None
  ∧ cj_cancelled_turn_id (journal_of (with_service t s)).1 = cj_cancelled_turn_id (journal_of t).1.
Proof.
  intros Hh Hthrough Hp. destruct (healthy_inv t Hh) as (c & ds & Hinv). pose proof (ji_ids _ _ _ Hinv) as Hnd.
  pose proof (next_sequence_length _ (ji_sequences _ _ _ Hinv)) as Hnext. fold (stream t) in Hnd, Hnext.
  destruct (events_up t Hh) as (s0 & Hh0 & Hj0 & Hev). rewrite <- (claim_through t d Hthrough) in Hev.
  assert (stream (with_service t s0) = stream t) as Hs0 by (unfold ChannelsSpec.stream; by rewrite Hj0).
  pose proof (deliver_reads _ _ d _ Hev) as Hrun. cbv zeta in Hrun. rewrite (claim_through t d Hthrough), Hnext in Hrun.
  assert (∀ e, e ∈ stream t → ce_event_id e ∈ ids (stream t)) as Hin by (intros e He; apply list_elem_of_fmap; eauto).
  unfold missing.
  destruct Hp as [Hp Hf Hopen Hcan|n Hp Hf Hopen Hcan|n m Hp Hf Hopen]; fold (stream t) in Hp, Hf.
  - rewrite (remote_get_none _ _ Hp), (remote_get_none _ _ Hf) in Hrun.
    destruct (append_missing_up (with_service t s0) d None Hh0) as (s & m & Hh' & Hr & Hst & Ho & Hc);
      rewrite ?Hs0, ?Hj0; try done.
    rewrite Hs0 in Hr. unfold catch in Hrun. simpl tr_identity in *. rewrite Hr, Hs0, Hj0 in *.
    exists s, (_receipt uuid5 d DeliveryStatus.ACCEPTED (Some m)).
    rewrite !bool_decide_eq_false_2 by done. split_and!; [done| |done|by left|done..]. by apply Hrun.
  - rewrite (remote_get_some _ _ Hnd Hp : remote_get (event_id d PARTIAL) _ = _), (remote_get_none _ _ Hf) in Hrun.
    destruct (append_missing_up (with_service t s0) d (Some (event (tr_identity t) d PARTIAL n)) Hh0) as (s & m & Hh' & Hr & Hst & Ho & Hc);
      rewrite ?Hs0, ?Hj0; try done.
    rewrite Hs0 in Hr. unfold catch in Hrun. simpl tr_identity in *. rewrite Hr, Hs0, Hj0 in *.
    exists s, (_receipt uuid5 d DeliveryStatus.ACCEPTED (Some m)).
    rewrite bool_decide_eq_false_2 by done. rewrite (bool_decide_eq_true_2 (event_id d PARTIAL ∈ _)) by (by apply Hin in Hp).
    split_and!; [done| |done|by left|done..]. apply Hrun; [by intros [? ?]|by apply verified_event|done].
  - rewrite (remote_get_some _ _ Hnd Hp : remote_get (event_id d PARTIAL) _ = _) in Hrun.
    rewrite (remote_get_some _ _ Hnd Hf : remote_get (event_id d FINAL) _ = _) in Hrun.
    eexists s0, _. rewrite (bool_decide_eq_true_2 (event_id d FINAL ∈ _)) by (by apply Hin in Hf).
    rewrite Hj0, app_nil_r. split_and!; [done|apply Hrun; [done|by apply verified_event..]|done|by right|done..].
Qed.

(** ** The queue *)

Definition entry (d : ChannelTextDelivery) : string * ChannelTextDelivery := (dl_delivery_id d, d).

(** A delivery that was not begun, or was forwarded entirely. *)
Definition waiting (i : BoundChannelIdentity) (g : journalled) (d : ChannelTextDelivery) : Prop :=
  ((event_id d PARTIAL ∉ ids g.2) ∧ (event_id d FINAL ∉ ids g.2) ∧ cj_cancelled_turn_id g.1 ≠ Some (turn d))
  ∨ ∃ n m, event i d PARTIAL n ∈ g.2 ∧ event i d FINAL m ∈ g.2.

Lemma waiting_progress i g d : waiting i g d → cj_open_turn_id g.1 = None → progress i g d.
Proof. intros [(? & ? & ?)|(n & m & ? & ?)] Ho; [by apply not_begun|by eapply done_]. Qed.

Lemma missing_ids i l d x : x ∈ missing i l d → ∃ stage, ce_event_id x = event_id d stage.
Proof.
  unfold missing. case_bool_decide; [by intros ?%elem_of_nil|]. case_bool_decide.
  - intros ->%list_elem_of_singleton. by exists FINAL.
  - intros [->|Hx]%elem_of_cons; [by exists PARTIAL|]. apply list_elem_of_singleton in Hx as ->. by exists FINAL.
Qed.

(** Forwarding another delivery leaves a waiting one as it is. *)
Lemma waiting_later i (g g' : journalled) d d' : through i d → through i d' → dl_delivery_id d ≠ dl_delivery_id d' →
  g'.2 = g.2 ++ missing i g.2 d → cj_cancelled_turn_id g'.1 = cj_cancelled_turn_id g.1 → waiting i g d' → waiting i g' d'.
Proof.
  intros Hd Hd' Hne Hstream Hcan Hw.
  assert (∀ stage, event_id d' stage ∉ ids g.2 → event_id d' stage ∉ ids g'.2) as Hids.
  { intros stage Hout. rewrite Hstream. unfold ids. rewrite map_app. intros [Hin|Hin]%elem_of_app; [done|].
    apply list_elem_of_fmap in Hin as (x & Hx & (stage' & Hm)%missing_ids). rewrite Hm in Hx.
    by apply (event_id_inj i d' d) in Hx as [? _]. }
  destruct Hw as [(H1 & H2 & H3)|(n & m & H1 & H2)]; [left|right].
  - rewrite Hcan. split_and!; [by apply Hids|by apply Hids|done].
  - exists n, m. rewrite Hstream. set_solver.
Qed.

Lemma healthy_pending t pending : healthy t → healthy (with_pending t pending).
Proof. intros [? ? ? ?]. by split. Qed.

Lemma dict_del_fresh (k : string) (l : list (string * ChannelTextDelivery)) : k ∉ l.*1 → dict_del k l = l.
Proof.
  intros Hk. unfold dict_del. apply list_filter_all, list.Forall_forall. intros [k' v] Hin Heq. simpl in Heq. subst k'.
  apply Hk, list_elem_of_fmap. by exists (k, v).
Qed.

(** Receiving a delivery that is not in the queue. *)
Lemma receive_up t d : healthy t → through (tr_identity t) d → dl_channel_kind d = tr_channel_kind t →
  dl_delivery_id d ∉ (tr_pending t).*1 → progress (tr_identity t) (journal_of t) d →
  ∃ s rc, healthy (with_service t s) ∧ receive d t = (with_service t s, Ok rc) ∧ rt_delivery_id rc = dl_delivery_id d
  ∧ (rt_status rc = DeliveryStatus.ACCEPTED ∨ rt_status rc = DeliveryStatus.DUPLICATE)
  ∧ stream (with_service t s) = stream t ++ missing (tr_identity t) (stream t) d
  ∧ cj_open_turn_id (journal_of (with_service t s)).1 = None
  ∧ cj_cancelled_turn_id (journal_of (with_service t s)).1 = cj_cancelled_turn_id (journal_of t).1.
Proof.
  intros Hh Hth Hkind Hk Hp. destruct (deliver_up t d Hh Hth Hp) as (s & rc & Hh' & Hrun & Hrest).
  exists s, rc. split_and!; [done| |apply Hrest..]. unfold receive_delivery. rewrite with_the_relay, bind_run.
  unfold throw_if, raise_if. rewrite bool_decide_eq_true_2 by done. cbn [negb].
  destruct (dict_get (dl_delivery_id d) (tr_pending t)) as [q|] eqn:Hget.
  { destruct Hk. apply dict_get_is_Some. by exists q. }
  unfold stateful. rewrite Hrun. simpl tr_pending. rewrite dict_del_fresh by done. done.
Qed.

Lemma flush_up ds : ∀ t receipts, healthy t → tr_pending t = map entry ds → NoDup (map dl_delivery_id ds) →
  bi_channel_kind (bc_binding (tr_identity t)) = tr_channel_kind t →
  Forall (through (tr_identity t)) ds →
  match ds with [] => True | d :: rest => progress (tr_identity t) (journal_of t) d ∧ Forall (waiting (tr_identity t) (journal_of t)) rest end →
  ∃ t' l, flush parse_device uuid5 ds receipts t = (t', Ok (receipts ++ l)) ∧ tr_pending t' = [] ∧ tr_identity t' = tr_identity t
    ∧ map rt_delivery_id l = map dl_delivery_id ds
    ∧ Forall (λ rc, rt_status rc = DeliveryStatus.ACCEPTED ∨ rt_status rc = DeliveryStatus.DUPLICATE) l
    ∧ stream t' = forwarded (tr_identity t) (stream t) ds.
Proof.
  induction ds as [|d ds IH]; intros t receipts Hh Hpend Hnd Hkind Hth Hready.
  { exists t, []. rewrite app_nil_r. split_and!; done. }
  apply NoDup_cons in Hnd as [Hnew Hnd]. apply Forall_cons in Hth as [Hd Hth]. destruct Hready as [Hp Hw].
  assert ((map entry ds).*1 = map dl_delivery_id ds) as Hkeys by (clear; induction ds as [|x ds IH]; [done|exact (f_equal (cons _) IH)]).
  assert (dict_del (dl_delivery_id d) (tr_pending t) = map entry ds) as Hdel.
  { rewrite Hpend. unfold dict_del. simpl. rewrite filter_cons_False by (simpl; tauto). fold (dict_del (dl_delivery_id d) (map entry ds)).
    apply dict_del_fresh. by rewrite Hkeys. }
  cbn [flush]. rewrite bind_run. unfold stateful. rewrite Hdel. set (t0 := with_pending t (map entry ds)).
  destruct (receive_up t0 d (healthy_pending t _ Hh) Hd) as (s & rc & Hh' & Hrun & Hid & Hst & Hstream & Hopen & Hcan).
  { change (tr_channel_kind t0) with (tr_channel_kind t). rewrite <- Hkind. apply Hd. } { unfold t0. simpl. by rewrite Hkeys. } { exact Hp. }
  rewrite Hrun. set (t1 := with_service t0 s) in *.
  assert (match rt_status rc with
    | DeliveryStatus.QUEUED => mret (receipts ++ [rc])
    | _ => flush parse_device uuid5 ds (receipts ++ [rc]) end = flush parse_device uuid5 ds (receipts ++ [rc])) as ->.
  { by destruct Hst as [-> | ->]. }
  destruct (IH t1 (receipts ++ [rc]) Hh' eq_refl Hnd Hkind Hth) as (t' & l & Hfl & Hpend' & Hid' & Hmap & Hall & Hst').
  { assert (Forall (waiting (tr_identity t) (journal_of t1)) ds) as Hw1.
    { apply list.Forall_forall. intros x Hx. rewrite list.Forall_forall in Hw, Hth.
      apply (waiting_later _ (journal_of t) _ d); [done|by apply Hth| |exact Hstream|exact Hcan|by apply Hw].
      intros Heq. apply Hnew. rewrite Heq. apply list_elem_of_fmap. by exists x. }
    destruct ds as [|x ds]; [done|]. apply Forall_cons in Hw1 as [Hx Hw1]. split; [|exact Hw1]. by apply waiting_progress. }
  exists t', (rc :: l). rewrite Hfl, <- app_assoc. split_and!; [done|done|by rewrite Hid'|simpl; by rewrite Hid, Hmap|by constructor|].
  rewrite Hst', Hstream. done.
Qed.

End live.

(** * A conversation service and channels over it

    A service that keeps one conversation and fails as a script says is an instance of
    the contract the theorems on channels assume; the theorems at concrete deliveries;
    and a queue that loses a delivery because reconnecting reorders it. *)

(** ** A service that follows a script *)

Inductive fate := ANSWERED | REQUEST_LOST | ANSWER_LOST.

(** For each call: what others write before it, its fate, what others write after it.
    When the script is over every call is answered. *)
Record Service := {
  sv_id : uuid;
  sv_journal : journalled;
  sv_script : list (list ConversationEvent * fate * list ConversationEvent);
}.

Definition no_conversation (id : uuid) : journalled :=
  (new_journal {| cv_conversation_id := id; cv_title := ""; cv_participant_ids := []; cv_device_ids := [];
                  cv_created_at := 0; cv_state := CANCELLED |} [], []).
Definition service_journal (s : Service) (id : uuid) : journalled :=
  if bool_decide (id = sv_id s) then sv_journal s else no_conversation id.

Definition scripted (s : Service) : list ConversationEvent * fate * list ConversationEvent :=
  match sv_script s with [] => ([], ANSWERED, []) | step :: _ => step end.
Definition service_after (s : Service) (g : journalled) : Service :=
  {| sv_id := sv_id s; sv_journal := g; sv_script := tail (sv_script s) |}.
Definition written (g : journalled) (es : list ConversationEvent) : journalled := foldl journal_step g es.

#[export] Instance service_api : ConversationApi Service := {
  get_conversation id := λ s,
    let '(before, f, after) := scripted s in
    (service_after s (written (sv_journal s) (before ++ after)),
     match f with ANSWERED => Ok (cj_conversation (service_journal s id).1) | _ => Err ApiConnectionError end);
  list_events id := λ s,
    let '(before, f, after) := scripted s in
    let s' := service_after s (written (sv_journal s) (before ++ after)) in
    (s', match f with ANSWERED => Ok (service_journal s' id).2 | _ => Err ApiConnectionError end);
  append_event e := λ s,
    let '(before, f, after) := scripted s in
    let g := written (sv_journal s) before in
    let here := bool_decide (ce_conversation_id e = sv_id s) in
    let g' := match f with REQUEST_LOST => g | _ => if here then journal_step g e else g end in
    (service_after s (written g' after),
     match f with
     | ANSWERED => Ok (accept e (if here then g.1 else (no_conversation (ce_conversation_id e)).1)).2
     | _ => Err ApiConnectionError
     end);
}.

Section laws.
Context (foreign : ConversationEvent → Prop).

Definition service_ok (s : Service) : Prop :=
  (∃ c ds, journal_inv c ds (sv_journal s) ∧ cv_conversation_id c = sv_id s)
  ∧ Forall (λ step, Forall foreign (step.1.1 ++ step.2)) (sv_script s).

Lemma scripted_foreign s : service_ok s → Forall foreign ((scripted s).1.1 ++ (scripted s).2).
Proof. intros [_ Hs]. unfold scripted. destruct Hs; [constructor|done]. Qed.

Lemma evolves_written g es : Forall foreign es → evolves foreign g (written g es).
Proof. intros He. by exists es. Qed.

Lemma service_after_ok s g : service_ok s → (∃ allowed, evolves allowed (sv_journal s) g) → service_ok (service_after s g).
Proof.
  intros [(c & ds & Hinv & Hid) Hs] [allowed Hev]. split.
  - exists c, ds. split; [by eapply evolves_inv|done].
  - simpl. by destruct Hs.
Qed.

Lemma service_journal_after s g k : k ≠ sv_id s ∨ evolves foreign (sv_journal s) g →
  evolves foreign (service_journal s k) (service_journal (service_after s g) k).
Proof.
  intros Hk. unfold service_journal. simpl. case_bool_decide as He; [|apply evolves_refl]. by destruct Hk.
Qed.

Lemma no_conversation_closed e id : journal_step (no_conversation id) e = no_conversation id
  ∧ accept e (no_conversation id).1 = ((no_conversation id).1, (accept e (no_conversation id).1).2).
Proof.
  unfold journal_step, no_conversation, accept, envelope_rejection. simpl.
  by destruct (negb (ce_conversation_id e =? id)).
Qed.

#[export] Instance service_laws : ConversationApiLaws Service foreign.
Proof.
  refine {| api_ok := service_ok; journalled_of := service_journal |}.
  - intros s id [(c & ds & Hinv & Hid) _]. unfold service_journal. case_bool_decide as He; [subst; eauto|].
    eexists _, _. split; [apply journal_inv_new|done].
  - intros id s s' r Hok Hrun. pose proof (scripted_foreign s Hok) as Hfor. unfold list_events, service_api in Hrun.
    destruct (scripted s) as [[before f] after]. injection Hrun as <- <-. simpl in Hfor.
    pose proof (evolves_written (sv_journal s) _ Hfor) as Hev. split_and!.
    + apply service_after_ok; eauto.
    + intros k. apply service_journal_after. by right.
    + intros l Hl. destruct f; try discriminate Hl. by injection Hl as <-.
  - intros e s s' r Hok Hrun. pose proof (scripted_foreign s Hok) as Hfor. unfold append_event, service_api in Hrun.
    destruct (scripted s) as [[before f] after]. injection Hrun as <- <-. simpl in Hfor.
    apply Forall_app in Hfor as [Hb Ha]. pose proof (evolves_written (sv_journal s) _ Hb) as Hev.
    set (g := written (sv_journal s) before) in *.
    set (here := bool_decide (ce_conversation_id e = sv_id s)) in *.
    set (g' := match f with REQUEST_LOST => g | _ => if here then journal_step g e else g end).
    assert (evolves (λ _, True) (sv_journal s) g') as Hany.
    { apply (evolves_mono _ (λ _, True)) in Hev; [|done]. unfold g'. destruct f, here; try done; eapply evolves_trans; try done; by apply evolves_step. }
    assert (evolves foreign g' (written g' after)) as Hev' by by apply evolves_written. split_and!.
    + apply service_after_ok; [done|]. exists (λ _, True). eapply evolves_trans; [done|]. by eapply evolves_mono; [|exact Hev'].
    + intros k Hk. destruct (decide (k = sv_id s)) as [->|Hne]; [|apply service_journal_after; by left].
      apply service_journal_after. right. eapply evolves_trans; [exact Hev|]. assert (g' = g) as Hg; [|by rewrite Hg in Hev' |- *].
      unfold g', here. rewrite bool_decide_eq_false_2 by done. by destruct f.
    + unfold service_journal. cbn [sv_id sv_journal service_after]. fold here. destruct here eqn:Hh.
      * exists g, g'. split_and!; [done|done|]. unfold g'. destruct f; [right|left|right]; (split; [done|]); try eauto.
        -- by intros a [= <-].
        -- done.
      * exists (no_conversation (ce_conversation_id e)), (no_conversation (ce_conversation_id e)).
        split_and!; [apply evolves_refl..|]. right. rewrite (proj1 (no_conversation_closed e _)). split; [done|].
        intros a Hans. destruct f; try discriminate Hans. by injection Hans as <-.
Defined.
End laws.

#[export] Instance service_live (foreign : ConversationEvent → Prop) : ConversationApiLive Service foreign.
Proof.
  refine {| up := λ s : Service, sv_script s = [] |}.
  - intros id s Hs. unfold list_events, service_api, scripted. rewrite Hs. eexists. split; [reflexivity|].
    split; [simpl; by rewrite Hs|]. intros k. by destruct s.
  - intros e s Hs. cbv zeta. unfold append_event, service_api, scripted. rewrite Hs.
    exists (service_after s (if bool_decide (ce_conversation_id e = sv_id s) then journal_step (sv_journal s) e else sv_journal s)).
    unfold journalled_of, service_laws, service_journal. split; [|split; [simpl; by rewrite Hs|]].
    + simpl. by case_bool_decide.
    + simpl. case_bool_decide; [done|]. symmetry. apply no_conversation_closed.
Defined.

(** ** A web chat over the service *)

Module ChannelsDemo.
(** Every name has an identifier of its own. *)
Definition uuid5 (namespace : uuid) (name : string) : uuid := Z.pos (encode name).
Lemma uuid5_distinct m n : uuid5 CHANNEL_EVENT_NAMESPACE m = uuid5 CHANNEL_EVENT_NAMESPACE n → m = n.
Proof. intros Heq. unfold uuid5 in Heq. injection Heq as Heq. by apply (inj encode) in Heq. Qed.

Definition parse_device (_ : string) : option Device := None.
Abbreviation persistence := (connection (list device_row)).
Definition no_devices : DeviceRegistry persistence :=
  {| reg_persistence := None; reg_devices := ∅; reg_by_fingerprint := ∅ |}.
Definition devices : DeviceRegistry persistence :=
  {| reg_persistence := None;
     reg_devices := <["iphone-owner" := new_device "iphone-owner" "owner-fp" "user" None 0]>
                      {["openclaw-service" := new_device "openclaw-service" "service-fp" "user" None 0]};
     reg_by_fingerprint := ∅ |}.
Definition owner : MtlsClientIdentity := {| mc_device_id := "iphone-owner"; mc_public_key_fingerprint := "owner-fp" |}.
Definition service_account : MtlsClientIdentity :=
  {| mc_device_id := "openclaw-service"; mc_public_key_fingerprint := "service-fp" |}.

Definition talk : Conversation_ :=
  {| cv_conversation_id := 1; cv_title := "One conversation"; cv_participant_ids := [7]; cv_device_ids := [9; 10];
     cv_created_at := 0; cv_state := ACTIVE |}.
Definition web : ConversationDevice :=
  {| cd_device_id := 9; cd_participant_id := 7; cd_kind := CHANNEL; cd_name := "webchat"; cd_created_at := 0 |}.

Definition identity : BoundChannelIdentity :=
  {| bc_binding := {| bi_binding_id := 6; bi_conversation_id := 1; bi_channel_kind := ChannelKind.OPENCLAW_WEBCHAT;
                      bi_external_channel_id := "web-session"; bi_external_user_id := "web-user"; bi_bound_at := 0;
                      bi_state := ChannelBindingState.ACTIVE |};
     bc_participant_id := 7; bc_device_id := 9; bc_service_account_device_id := "openclaw-service" |}.
Definition registry : IdentityBindingRegistry.t :=
  (IdentityBindingRegistry.enroll parse_device devices identity owner (IdentityBindingRegistry.create "iphone-owner")).1.
Definition claim : ChannelIdentityClaim := identity_claim identity.

Lemma bindings_belong_to_owner_witness :
  IdentityBindingRegistry.resolve registry claim "openclaw-service" = Ok identity
  ∧ ∃ approver, by_owner parse_device "iphone-owner" devices approver.
Proof.
  assert (IdentityBindingRegistry.resolve registry claim "openclaw-service" = Ok identity) as Hres by (vm_compute; reflexivity).
  split; [exact Hres|].
  assert (registry_history parse_device "iphone-owner" [Enrolled devices identity owner] registry) as Hh.
  { apply (registry_enrolls parse_device "iphone-owner" [] (IdentityBindingRegistry.create "iphone-owner") devices identity owner registry identity).
    - apply registry_new.
    - vm_compute. reflexivity. }
  destruct (bindings_belong_to_owner parse_device _ _ _ _ _ _ Hh Hres) as (_ & (ds & approver & Hin & Hown & _) & _).
  apply list_elem_of_singleton in Hin. injection Hin as -> _. exists approver. exact Hown.
Defined.

Definition relay_over (script : list (list ConversationEvent * fate * list ConversationEvent)) : TextChannelRelay Service persistence :=
  {| tr_openclaw := {| OpenClawAdapter.service_account_device_id := "openclaw-service";
       OpenClawAdapter.api := {| sv_id := 1; sv_journal := (new_journal talk [web], []); sv_script := script |};
       OpenClawAdapter.devices := devices; OpenClawAdapter.bindings := registry |};
     tr_client := service_account; tr_identity := identity; tr_channel_kind := ChannelKind.OPENCLAW_WEBCHAT; tr_pending := [] |}.
Definition message (id text : string) : ChannelTextDelivery :=
  webchat_delivery {| wm_message_id := id; wm_conversation_id := "web-session"; wm_user_id := "web-user";
                      wm_sent_at := 0; wm_text := text |}.
Definition first : ChannelTextDelivery := message "m1" "buy milk".
Definition second : ChannelTextDelivery := message "m2" "call home".

Abbreviation receive := (receive_delivery parse_device uuid5).
Abbreviation reconnect := (reconnect parse_device uuid5).
Definition stream_of (t : TextChannelRelay Service persistence) : list ConversationEvent :=
  (sv_journal (OpenClawAdapter.api (tr_openclaw t))).2.

(** *** An answer is lost after the message arrived *)

Definition ok : list ConversationEvent * fate * list ConversationEvent := ([], ANSWERED, []).
Definition lossy : TextChannelRelay Service persistence := relay_over [ok; ok; ([], ANSWER_LOST, [])].
Definition queued_once : TextChannelRelay Service persistence := (receive first lossy).1.
Definition settled : TextChannelRelay Service persistence := (reconnect queued_once).1.

Lemma lossy_receipts :
  rt_status <$> match (receive first lossy).2 with Ok rc => Some rc | Err _ => None end = Some DeliveryStatus.QUEUED
  ∧ map rt_status (match (reconnect queued_once).2 with Ok l => l | Err _ => [] end) = [DeliveryStatus.DUPLICATE]
  ∧ length (stream_of settled) = 2%nat.
Proof. split_and!; vm_compute; reflexivity. Qed.

Lemma channel_messages_accounted_witness :
  ∃ received log, channel_history parse_device uuid5 received log settled ∧ length log = 2%nat ∧ arrived uuid5 settled first.
Proof.
  destruct (receive first lossy) as [t1 [rc|e]] eqn:H1; [|vm_compute in H1; discriminate H1].
  destruct (reconnect t1) as [t2 [l|e]] eqn:H2.
  2: { pose proof H1 as H1'. vm_compute in H1. injection H1 as <- _. vm_compute in H2. discriminate H2. }
  assert (channel_history parse_device uuid5 [first] ([rc] ++ l) t2) as Hh.
  { apply (history_reconnects parse_device uuid5 [first] [rc] t1 t2 l); [|exact H2].
    apply (history_receives parse_device uuid5 [] [] lossy first t1 (Ok rc)); [|exact H1].
    apply history_starts; [reflexivity| |constructor]. split; [|repeat constructor].
    eexists _, _. split; [apply journal_inv_new|reflexivity]. }
  assert (t2 = settled) as -> by (unfold settled, queued_once; rewrite H1; simpl; by rewrite H2).
  exists [first], ([rc] ++ l). split; [exact Hh|].
  assert (map rt_status l = [DeliveryStatus.DUPLICATE]) as Hst.
  { destruct lossy_receipts as (_ & Hl & _). unfold queued_once in Hl. rewrite H1 in Hl. simpl in Hl. by rewrite H2 in Hl. }
  destruct l as [|rc2 [|]]; try discriminate Hst. injection Hst as Hst. split; [reflexivity|].
  destruct (channel_messages_accounted parse_device uuid5 _ _ _ Hh) as (_ & _ & Hacc & _).
  destruct (Hacc rc2) as (d & Hd & _ & Hal); [set_solver|right; exact Hst|].
  apply list_elem_of_singleton in Hd as ->. exact Hal.
Defined.

(** *** Two messages wait, the first one in part there *)

Definition offline : list ConversationEvent * fate * list ConversationEvent := ([], REQUEST_LOST, []).
Definition two_waiting (script : list (list ConversationEvent * fate * list ConversationEvent)) : TextChannelRelay Service persistence :=
  (receive second (receive first (relay_over ([ok; ok; offline; offline] ++ script))).1).1.


(** *** Identities that share a key *)

Definition chat_of (channel user : string) : ChannelTextDelivery :=
  webchat_delivery {| wm_message_id := "1"; wm_conversation_id := channel; wm_user_id := user; wm_sent_at := 0; wm_text := "hi" |}.

(** The parts of a delivery key are joined by colons, which they may contain: two users
    in two channels have the same key, and so the same events, whatever [uuid5] is. *)
Theorem delivery_key_ambiguous uuid5' stage :
  dl_external_user_id (chat_of "room:a" "b") ≠ dl_external_user_id (chat_of "room" "a:b")
  ∧ delivery_key (chat_of "room:a" "b") = delivery_key (chat_of "room" "a:b")
  ∧ event_id uuid5' (chat_of "room:a" "b") stage = event_id uuid5' (chat_of "room" "a:b") stage.
Proof. split_and!; [discriminate|reflexivity|reflexivity]. Qed.

(** *** Reconnecting reorders the queue *)

(** The connection breaks again while the first of two waiting messages is forwarded. *)
Definition broken_again : TextChannelRelay Service persistence := two_waiting [ok; offline].
Definition statuses (r : result ChannelError (list DeliveryReceipt)) : list (string * DeliveryStatus.t * option ConversationRejection) :=
  match r with Ok l => map (λ rc, (rt_delivery_id rc, rt_status rc, rt_rejection rc)) l | Err _ => [] end.

(** A delivery that fails while it is flushed goes back to the end of the queue.  Its
    turn is already open, so the next reconnection offers the other message first, which
    the journal refuses: it leaves the queue rejected and never enters the stream, though
    the connection works and both would be accepted in the order of their arrival. *)
Theorem reconnect_loses_message :
  map fst (tr_pending broken_again) = ["m1"; "m2"]
  ∧ statuses (reconnect broken_again).2 = [("m1", DeliveryStatus.QUEUED, None)]
  ∧ map fst (tr_pending (reconnect broken_again).1) = ["m2"; "m1"]
  ∧ statuses (reconnect (reconnect broken_again).1).2
    = [("m2", DeliveryStatus.REJECTED, Some TURN_CLOSED); ("m1", DeliveryStatus.ACCEPTED, None)]
  ∧ tr_pending (reconnect (reconnect broken_again).1).1 = []
  ∧ map ce_payload (stream_of (reconnect (reconnect broken_again).1).1)
    = [TranscriptPartial (delivery_turn uuid5 first) "buy milk"; TranscriptFinal (delivery_turn uuid5 first) "buy milk"].
Proof. split_and!; vm_compute; reflexivity. Qed.
End ChannelsDemo.
