(* ===== verification/RelayStore.v ===== *)
(** * The conversation relay's store ([relay_store.py], [canonical.py],
      [migrations/007_conversation_relay.sql], [migrations/008_conversation_retention.sql])

    Conversations, their events and the devices bound to their participants, over the
    encrypted connection.  Content is kept in canonical records, each a version of a
    record with its JSON; the relay's own tables index it.  JSON is an interface with its
    laws, HMAC and the audit key are parameters, and a drawn identifier is an argument.
    The [state] and [created_at] columns of canonical rows repeat fields of the content
    and are read by nothing here. *)

From stdpp Require Import prelude base strings list gmap pretty.
From Stdlib Require Import ZArith Ascii Lia.
From S2P Require Import Prelude PyTime PyText PyUuid Transactions AuditLedger Conversation.
#[local] Open Scope string_scope.
#[local] Open Scope list_scope.
#[local] Open Scope Z_scope.

(** ** Canonical records *)

Record CanonicalIdentity := {
  id_record_id : uuid;
  id_created_at : Z;
  id_state : string;
  id_display_name : string;
  id_is_primary : bool;
}.
#[export] Instance CanonicalIdentity_eq_dec : EqDecision CanonicalIdentity.
Proof. unfold EqDecision, uuid. solve_decision. Defined.

Record ConversationRecord := {
  cr_record_id : uuid;
  cr_created_at : Z;
  cr_state : string;
  cr_title : option string;
  cr_participant_ids : list uuid;
}.
(** The state and a title, when there is one, are not empty. *)
Definition conversation_record_valid (r : ConversationRecord) : bool :=
  negb (String.eqb (cr_state r) "")
  && match cr_title r with Some t => negb (String.eqb t "") | None => true end.

Record CanonicalEvent := {
  cn_record_id : uuid;
  cn_created_at : Z;
  cn_state : string;
  cn_conversation_id : uuid;
  cn_sequence : Z;
  cn_event_type : string;
  cn_payload : string;
}.
Definition canonical_event_valid (r : CanonicalEvent) : bool :=
  negb (String.eqb (cn_state r) "") && (1 <=? cn_sequence r) && negb (String.eqb (cn_event_type r) "")
  && negb (String.eqb (cn_payload r) "").

#[export] Instance ConversationDevice_eq_dec : EqDecision ConversationDevice.
Proof. unfold EqDecision, uuid. assert (EqDecision DeviceKind) by solve_decision. solve_decision. Defined.

(** [ConversationState(value)] *)
Definition conversation_state_of (s : string) : option ConversationState :=
  if String.eqb s "active" then Some ACTIVE
  else if String.eqb s "cancelled" then Some CANCELLED
  else if String.eqb s "completed" then Some COMPLETED
  else None.

(** Pydantic's JSON, and what [json_extract] finds in it. *)
Class RelayCodec := {
  dump_identity : CanonicalIdentity → string;
  parse_identity : string → option CanonicalIdentity;
  dump_conversation : ConversationRecord → string;
  parse_conversation : string → option ConversationRecord;
  dump_canonical : CanonicalEvent → string;
  parse_canonical : string → option CanonicalEvent;
  dump_device : ConversationDevice → string;
  parse_device : string → option ConversationDevice;
  dump_event : ConversationEvent → string;
  parse_event : string → option ConversationEvent;
  extract_conversation_id : string → option string;
  extract_event_type : string → option string;
  extract_sequence : string → option Z;
}.
Class RelayCodecLaws `{RelayCodec} := {
  parse_dump_conversation : ∀ r, conversation_record_valid r = true → parse_conversation (dump_conversation r) = Some r;
  parse_dump_canonical : ∀ r, canonical_event_valid r = true → parse_canonical (dump_canonical r) = Some r;
  parse_dump_device : ∀ d, parse_device (dump_device d) = Some d;
  parse_dump_event : ∀ e, parse_event (dump_event e) = Some e;
  dump_event_filled : ∀ e, dump_event e ≠ "";
  extract_dump_conversation_id : ∀ r, extract_conversation_id (dump_canonical r) = Some (uuid_str (cn_conversation_id r));
  extract_dump_event_type : ∀ r, extract_event_type (dump_canonical r) = Some (cn_event_type r);
  extract_dump_sequence : ∀ r, extract_sequence (dump_canonical r) = Some (cn_sequence r);
}.

(** ** Tables *)

(** Canonical rows by record and version; the relay's indexes by their primary keys,
    devices in the order of their insertion. *)
Record relay_db := {
  rd_enrolled : gset uuid;
  rd_identities : gmap (uuid * Z) string;
  rd_conversations : gmap (uuid * Z) string;
  rd_events : gmap (uuid * Z) string;
  rd_devices : list (uuid * string);
  rd_relay_conversations : gset uuid;
  rd_relay_events : gmap uuid (uuid * Z);
  rd_retention : gmap uuid string;
  rd_audit : audit_db;
}.

Definition set_canonical (db : relay_db) (identities conversations events : gmap (uuid * Z) string) : relay_db :=
  {| rd_enrolled := rd_enrolled db; rd_identities := identities; rd_conversations := conversations; rd_events := events;
     rd_devices := rd_devices db; rd_relay_conversations := rd_relay_conversations db;
     rd_relay_events := rd_relay_events db; rd_retention := rd_retention db; rd_audit := rd_audit db |}.
Definition set_relay (db : relay_db) (devices : list (uuid * string)) (conversations : gset uuid)
    (events : gmap uuid (uuid * Z)) (retention : gmap uuid string) : relay_db :=
  {| rd_enrolled := rd_enrolled db; rd_identities := rd_identities db; rd_conversations := rd_conversations db;
     rd_events := rd_events db; rd_devices := devices; rd_relay_conversations := conversations;
     rd_relay_events := events; rd_retention := retention; rd_audit := rd_audit db |}.
Definition set_relay_audit (db : relay_db) (a : audit_db) : relay_db :=
  {| rd_enrolled := rd_enrolled db; rd_identities := rd_identities db; rd_conversations := rd_conversations db;
     rd_events := rd_events db; rd_devices := rd_devices db; rd_relay_conversations := rd_relay_conversations db;
     rd_relay_events := rd_relay_events db; rd_retention := rd_retention db; rd_audit := a |}.

Inductive RelayError :=
| RelayConflictError
| RelayAccessError
| RelayValidationError          (** content that a model refuses *)
| RelayIntegrityError           (** a constraint of the tables *)
| RelayOperationalError         (** [BEGIN] inside a transaction *)
| RelayIndexError               (** a stored turn without its newline *)
| RelayLedgerError (e : AuditError).

Definition MAX_CONVERSATION_EVENTS : Z := 10000.
Definition MAX_BATCH_EVENTS : Z := 100.
Definition MAX_EVENT_BYTES : Z := 16 * 1024.
Definition CONVERSATION_RETENTION : Z := 180 * day.
Definition client_kind (k : ConversationEventKind) : bool :=
  match k with TRANSCRIPT_PARTIAL | TRANSCRIPT_FINAL | CANCELLATION | RESUME => true | _ => false end.

(** [len(text.encode())]: code points from 128 take two bytes. *)
Fixpoint encoded_length (s : string) : Z :=
  match s with
  | "" => 0
  | String c s' => (if (nat_of_ascii c <? 128)%nat then 1 else 2) + encoded_length s'
  end.

(** The row of a record with the highest version. *)
Definition latest (id : uuid) (rows : gmap (uuid * Z) string) : option string :=
  snd <$> py_min (λ a b, b.1.2 <? a.1.2) (filter (λ row, row.1.1 = id) (map_to_list rows)).

(** [datetime + timedelta]: on the wall clock of the zone. *)
Definition shifted (d : datetime) (delta : Z) : datetime :=
  match dt_tz d with
  | ZoneInfo key data => in_zone {| zone_key := key; zone_data := data |} false (dt_local d + delta)
  | tz => mk_datetime (dt_local d + delta) (dt_offset d) tz
  end.

(** [text.replace("\n", " ")] and [text.split("\n", 1)], [None] without a newline. *)
Definition newline : ascii := ascii_of_nat 10.
Fixpoint one_line (s : string) : string :=
  match s with "" => "" | String c s' => String (if Ascii.eqb c newline then " " else c) (one_line s') end.
Fixpoint split_line (s : string) : option (string * string) :=
  match s with
  | "" => None
  | String c s' =>
      if Ascii.eqb c newline then Some ("", s')
      else match split_line s' with Some (a, b) => Some (String c a, b) | None => None end
  end.

(** An event as a client sends it; a time without a zone is possible. *)
Record IncomingEvent := { in_event : ConversationEvent; in_aware : bool }.

(** ** The store *)

Section store.
Context (hmac : string → string → string) (audit_key : string).
Context `{RelayCodec}.
Abbreviation C A := (comp (connection relay_db) RelayError A).

(** [with connection: connection.execute("BEGIN IMMEDIATE")]; inside a transaction the
    statement raises and the block rolls that transaction back. *)
Definition transaction {A : Type} (body : C A) : C A := λ c,
  if in_transaction c then (rollback c, Err RelayOperationalError) else with_connection body c.

Definition relay_mutation (record_id : uuid) (action content : string) (ctx : TransitionContext) : AuditMutation :=
  {| am_record_kind := EVENT; am_record_id := uuid_str record_id; am_state := "accepted"; am_action_class := action;
     am_source_fingerprint := tohex (hmac audit_key content); am_actor := tc_actor ctx;
     am_correlation_id := tc_correlation_id ctx; am_occurred_at := tc_occurred_at ctx |}.
(** Verify the ledger, then append to it. *)
Definition _audit (record_id : uuid) (action content : string) (ctx : TransitionContext) : C unit :=
  execute (λ db,
    match verify_ledger hmac audit_key (rd_audit db) with
    | Err e => Err (RelayLedgerError e)
    | Ok _ =>
        match AuditLedger.append hmac audit_key (relay_mutation record_id action content ctx) (rd_audit db) with
        | (a, Ok _) => Ok (set_relay_audit db a)
        | (_, Err e) => Err (RelayLedgerError e)
        end
    end).

(** Content that is read back through its model. *)
Definition validated {A : Type} (parse : string → option A) (content : string) : result RelayError A :=
  match parse content with Some x => Ok x | None => Err RelayValidationError end.
Fixpoint validated_all {A : Type} (parse : string → option A) (contents : list string) : result RelayError (list A) :=
  match contents with
  | [] => Ok []
  | x :: rest => match validated parse x with
                 | Err e => Err e
                 | Ok a => match validated_all parse rest with Ok l => Ok (a :: l) | Err e => Err e end
                 end
  end.

(** *** Devices *)

Definition read_device (device_id : uuid) (db : relay_db) : result RelayError (option ConversationDevice) :=
  match dict_get device_id (rd_devices db) with
  | None => Ok None
  | Some json => match validated parse_device json with Ok d => Ok (Some d) | Err e => Err e end
  end.
Definition device (device_id : uuid) : C (option ConversationDevice) := query (read_device device_id).

Definition read_devices_for (participant_ids : list uuid) (db : relay_db) : result RelayError (list ConversationDevice) :=
  match validated_all parse_device (rd_devices db).*2 with
  | Err e => Err e
  | Ok devices => Ok (filter (λ d, cd_participant_id d ∈ participant_ids) devices)
  end.
Definition _devices_for (participant_ids : list uuid) : C (list ConversationDevice) := query (read_devices_for participant_ids).

(** [INSERT INTO canonical_... VALUES (?, 1, ...)] *)
Definition insert_version (id : uuid) (content : string) (rows : gmap (uuid * Z) string) : result RelayError (gmap (uuid * Z) string) :=
  match rows !! (id, 1) with Some _ => Err RelayIntegrityError | None => Ok (<[(id, 1) := content]> rows) end.

Definition insert_identity (i : CanonicalIdentity) (db : relay_db) : result RelayError relay_db :=
  match insert_version (id_record_id i) (dump_identity i) (rd_identities db) with
  | Ok rows => Ok (set_canonical db rows (rd_conversations db) (rd_events db))
  | Err e => Err e
  end.
(** [device_id PRIMARY KEY REFERENCES enrolled_devices] *)
Definition insert_relay_device (d : ConversationDevice) (db : relay_db) : result RelayError relay_db :=
  if bool_decide (cd_device_id d ∈ (rd_devices db).*1) || negb (bool_decide (cd_device_id d ∈ rd_enrolled db))
  then Err RelayIntegrityError
  else Ok (set_relay db (rd_devices db ++ [(cd_device_id d, dump_device d)]) (rd_relay_conversations db)
             (rd_relay_events db) (rd_retention db)).

Definition provision (identity : CanonicalIdentity) (d : ConversationDevice) (ctx : TransitionContext) : C unit :=
  if negb (id_record_id identity =? cd_participant_id d) then throw RelayAccessError
  else transaction (
    query (λ db, Ok (latest (id_record_id identity) (rd_identities db))) ≫= λ row,
    (match row with
     | None => execute (insert_identity identity)
     | Some json => stateful (λ c, (c,
         match validated parse_identity json with
         | Err e => Err e
         | Ok stored => raise_if (negb (bool_decide (stored = identity))) RelayConflictError
         end))
     end) ≫= λ _,
    device (cd_device_id d) ≫= λ existing,
    match existing with
    | Some bound => throw_if (negb (bool_decide (bound = d))) RelayConflictError
    | None =>
        execute (insert_relay_device d) ≫= λ _,
        _audit (cd_device_id d) "device.bound" (dump_device d) ctx
    end).

(** *** Conversations *)

(** The newest canonical version of a conversation of the relay. *)
Definition read_record (conversation_id : uuid) (db : relay_db) : option string :=
  if bool_decide (conversation_id ∈ rd_relay_conversations db) then latest conversation_id (rd_conversations db) else None.

Definition read_conversation (conversation_id device_id : uuid) (db : relay_db) : result RelayError Conversation_ :=
  match read_device device_id db with
  | Err e => Err e
  | Ok device =>
      match device, read_record conversation_id db with
      | Some d, Some json =>
          match validated parse_conversation json with
          | Err e => Err e
          | Ok record =>
              if negb (bool_decide (cd_participant_id d ∈ cr_participant_ids record)) then Err RelayAccessError
              else match read_devices_for (cr_participant_ids record) db, conversation_state_of (cr_state record) with
                   | Err e, _ => Err e
                   | Ok _, None => Err RelayValidationError
                   | Ok devices, Some state =>
                       Ok {| cv_conversation_id := conversation_id;
                             cv_title := match cr_title record with Some t => t | None => "" end;
                             cv_participant_ids := cr_participant_ids record;
                             cv_device_ids := map cd_device_id devices;
                             cv_created_at := cr_created_at record; cv_state := state |}
                   end
          end
      | _, _ => Err RelayAccessError
      end
  end.
Definition conversation (conversation_id device_id : uuid) : C Conversation_ := query (read_conversation conversation_id device_id).

Definition new_record (conversation_id : uuid) (title : string) (d : ConversationDevice) (ctx : TransitionContext) : ConversationRecord :=
  {| cr_record_id := conversation_id; cr_created_at := utc (tc_occurred_at ctx); cr_state := "active";
     cr_title := Some title; cr_participant_ids := [cd_participant_id d] |}.

Definition insert_conversation (r : ConversationRecord) (db : relay_db) : result RelayError relay_db :=
  match insert_version (cr_record_id r) (dump_conversation r) (rd_conversations db) with
  | Ok rows => Ok (set_canonical db (rd_identities db) rows (rd_events db))
  | Err e => Err e
  end.
Definition insert_relay_conversation (id : uuid) (db : relay_db) : result RelayError relay_db :=
  if bool_decide (id ∈ rd_relay_conversations db) then Err RelayIntegrityError
  else Ok (set_relay db (rd_devices db) ({[id]} ∪ rd_relay_conversations db) (rd_relay_events db) (rd_retention db)).
Definition insert_retention (id : uuid) (expires_at : string) (db : relay_db) : result RelayError relay_db :=
  if negb (bool_decide (rd_retention db !! id = None)) || negb (bool_decide (id ∈ rd_relay_conversations db))
  then Err RelayIntegrityError
  else Ok (set_relay db (rd_devices db) (rd_relay_conversations db) (rd_relay_events db) (<[id := expires_at]> (rd_retention db))).

Definition create (conversation_id : uuid) (title : string) (device_id : uuid) (ctx : TransitionContext) : C Conversation_ :=
  device device_id ≫= λ bound,
  match bound with
  | None => throw RelayAccessError
  | Some d =>
      transaction (
        query (λ db, Ok (latest conversation_id (rd_conversations db))) ≫= λ exists_,
        match exists_ with
        | Some _ =>
            conversation conversation_id device_id ≫= λ current,
            throw_if (negb (String.eqb (cv_title current) title)) RelayConflictError ≫= λ _,
            mret (Some current)
        | None =>
            let record := new_record conversation_id title d ctx in
            throw_if (negb (conversation_record_valid record)) RelayValidationError ≫= λ _,
            execute (insert_conversation record) ≫= λ _,
            execute (insert_relay_conversation conversation_id) ≫= λ _,
            execute (insert_retention conversation_id (isoformat (shifted (tc_occurred_at ctx) CONVERSATION_RETENTION))) ≫= λ _,
            _audit conversation_id "conversation.created" (dump_conversation record) ctx ≫= λ _,
            mret None
        end) ≫= λ out,
      match out with
      | Some current => mret current
      | None => conversation conversation_id device_id
      end
  end.

(** *** Events *)

(** [SELECT record_id ... WHERE json_extract(content_json, '$.conversation_id')=?] *)
Definition canonical_rows_of (conversation_id : uuid) (db : relay_db) : list ((uuid * Z) * string) :=
  filter (λ row, extract_conversation_id row.2 = Some (uuid_str conversation_id)) (map_to_list (rd_events db)).

(** The page of a conversation: its index rows after a sequence, in order, joined with
    the first version of their canonical records. *)
Definition index_rows (conversation_id : uuid) (after : Z) (db : relay_db) : list (uuid * (uuid * Z)) :=
  py_sorted (λ a b, a.2.2 <? b.2.2)
    (filter (λ row, row.2.1 = conversation_id ∧ after < row.2.2 ∧ is_Some (rd_events db !! (row.1, 1))) (map_to_list (rd_relay_events db))).
Definition page (conversation_id : uuid) (after limit : Z) (db : relay_db) : list string :=
  omap (λ row, rd_events db !! (row.1, 1)) (take (Z.to_nat limit) (index_rows conversation_id after db)).

Definition parse_stored (content : string) : option ConversationEvent :=
  r ← parse_canonical content; parse_event (cn_payload r).

Definition read_events (conversation_id device_id : uuid) (after limit : Z) (db : relay_db) : result RelayError (list ConversationEvent) :=
  match read_conversation conversation_id device_id db with
  | Err e => Err e
  | Ok _ =>
      if (after <? 0) || negb ((1 <=? limit) && (limit <=? MAX_CONVERSATION_EVENTS)) then Err RelayConflictError
      else validated_all parse_stored (page conversation_id after limit db)
  end.
Definition events (conversation_id device_id : uuid) (after limit : Z) : C (list ConversationEvent) :=
  query (read_events conversation_id device_id after limit).

Definition canonical_of (e : ConversationEvent) : CanonicalEvent :=
  {| cn_record_id := ce_event_id e; cn_created_at := ce_occurred_at e; cn_state := "accepted";
     cn_conversation_id := ce_conversation_id e; cn_sequence := ce_sequence e; cn_event_type := "relay.v1";
     cn_payload := dump_event e |}.

Definition insert_canonical (r : CanonicalEvent) (db : relay_db) : result RelayError relay_db :=
  match insert_version (cn_record_id r) (dump_canonical r) (rd_events db) with
  | Ok rows => Ok (set_canonical db (rd_identities db) (rd_conversations db) rows)
  | Err e => Err e
  end.
(** [event_id PRIMARY KEY], a conversation of the relay, [sequence > 0] and
    [UNIQUE(conversation_id, sequence)] *)
Definition insert_index (e : ConversationEvent) (db : relay_db) : result RelayError relay_db :=
  if negb (bool_decide (rd_relay_events db !! ce_event_id e = None))
     || negb (bool_decide (ce_conversation_id e ∈ rd_relay_conversations db)) || (ce_sequence e <=? 0)
     || existsb (λ row, bool_decide (row.2 = (ce_conversation_id e, ce_sequence e))) (map_to_list (rd_relay_events db))
  then Err RelayIntegrityError
  else Ok (set_relay db (rd_devices db) (rd_relay_conversations db)
             (<[ce_event_id e := (ce_conversation_id e, ce_sequence e)]> (rd_relay_events db)) (rd_retention db)).

Definition _insert_event (e : ConversationEvent) (ctx : TransitionContext) : C unit :=
  throw_if (negb (canonical_event_valid (canonical_of e))) RelayValidationError ≫= λ _,
  execute (insert_canonical (canonical_of e)) ≫= λ _,
  execute (insert_index e) ≫= λ _,
  _audit (ce_event_id e) "conversation.event.accepted" (dump_event e) ctx.

(** The stored events replayed through a fresh journal. *)
Fixpoint replay (history : list ConversationEvent) (j : ConversationJournal) : result RelayError ConversationJournal :=
  match history with
  | [] => Ok j
  | e :: rest => let '(j', a) := accept e j in if ca_accepted a then replay rest j' else Err RelayConflictError
  end.

(** The loop over the events of a batch. *)
Fixpoint append_events (device_id : uuid) (batch : list IncomingEvent) (known : list (uuid * ConversationEvent))
    (j : ConversationJournal) (ctx : TransitionContext) : C (list (uuid * ConversationEvent)) :=
  match batch with
  | [] => mret known
  | i :: rest =>
      let e := in_event i in
      if negb (ce_device_id e =? device_id) || negb (client_kind (ce_kind e)) then throw RelayAccessError
      else if negb (in_aware i) || (MAX_EVENT_BYTES <? encoded_length (dump_event e)) then throw RelayConflictError
      else match dict_get (ce_event_id e) known with
           | Some stored =>
               if bool_decide (e = stored) then append_events device_id rest known j ctx else throw RelayConflictError
           | None =>
               if MAX_CONVERSATION_EVENTS <=? Z.of_nat (length known) then throw RelayConflictError
               else let '(j', a) := accept e j in
                    if ca_accepted a
                    then _insert_event e ctx ≫= λ _, append_events device_id rest (dict_set (ce_event_id e) e known) j' ctx
                    else throw RelayConflictError
           end
  end.

Definition append (conversation_id device_id : uuid) (batch : list IncomingEvent) (ctx : TransitionContext) : C Z :=
  transaction (
    conversation conversation_id device_id ≫= λ c,
    _devices_for (cv_participant_ids c) ≫= λ devices,
    events conversation_id device_id 0 MAX_CONVERSATION_EVENTS ≫= λ history,
    let known := dict_of (map (λ e, (ce_event_id e, e)) history) in
    stateful (λ s, (s, replay history (new_journal c devices))) ≫= λ j,
    throw_if (negb ((1 <=? Z.of_nat (length batch)) && (Z.of_nat (length batch) <=? MAX_BATCH_EVENTS))
              || negb (bool_decide (NoDup (map (λ i, ce_event_id (in_event i)) batch)))) RelayConflictError ≫= λ _,
    append_events device_id batch known j ctx ≫= λ known,
    mret (Z.of_nat (length known) + 1)).

(** *** Removal *)

Definition without_conversation (conversation_id : uuid) (db : relay_db) : relay_db :=
  let doomed := map (λ row, row.1.1) (canonical_rows_of conversation_id db) in
  let events := filter (λ row, row.1.1 ∉ doomed) (rd_events db) in
  let conversations := filter (λ row, row.1.1 ≠ conversation_id) (rd_conversations db) in
  set_relay (set_canonical db (rd_identities db) conversations events) (rd_devices db)
    (rd_relay_conversations db ∖ {[conversation_id]}) (filter (λ row, row.2.1 ≠ conversation_id) (rd_relay_events db))
    (delete conversation_id (rd_retention db)).

(** The delete triggers are lifted between [authorize_delete] and [revoke_delete]. *)
Definition _delete (conversation_id : uuid) (ctx : TransitionContext) : C Z :=
  transaction (
    query (λ db, Ok (canonical_rows_of conversation_id db)) ≫= λ rows,
    execute (λ db, Ok (without_conversation conversation_id db)) ≫= λ _,
    _audit conversation_id "conversation.deleted"
      (uuid_str conversation_id +:+ ":" +:+ pretty (Z.of_nat (length rows))) ctx ≫= λ _,
    mret (Z.of_nat (length rows))).

Definition delete_conversation (conversation_id device_id : uuid) (ctx : TransitionContext) : C Z :=
  conversation conversation_id device_id ≫= λ _, _delete conversation_id ctx.

(** [WHERE expires_at<=? ORDER BY expires_at], on the texts. *)
Definition expired_conversations (now : string) (db : relay_db) : list uuid :=
  (py_sorted (λ a b, String.ltb a.2 b.2) (filter (λ row, String.leb row.2 now = true) (map_to_list (rd_retention db)))).*1.
Definition expire (now : datetime) (ctx : TransitionContext) : C Z :=
  query (λ db, Ok (expired_conversations (isoformat now) db)) ≫= λ ids,
  for_each (λ id, _delete id ctx ≫= λ _, mret tt) ids ≫= λ _,
  mret (Z.of_nat (length ids)).

(** *** Turns of the assistant *)

(** The last four turns, newest first. *)
Definition turn_rows (conversation_id : uuid) (db : relay_db) : list string :=
  take 4 (py_sorted (λ a b, match extract_sequence a, extract_sequence b with
                            | Some x, Some y => y <? x | Some _, None => true | None, _ => false end)
    (map snd (filter (λ row, extract_event_type row.2 = Some "agent.turn") (canonical_rows_of conversation_id db)))).

Fixpoint split_turns (records : list CanonicalEvent) : result RelayError (list (string * string)) :=
  match records with
  | [] => Ok []
  | r :: rest => match split_line (cn_payload r), split_turns rest with
                 | Some exchange, Ok l => Ok (exchange :: l)
                 | None, _ => Err RelayIndexError
                 | _, Err e => Err e
                 end
  end.

Definition read_history (conversation_id device_id : uuid) (db : relay_db) : result RelayError (Z * list (string * string)) :=
  match read_conversation conversation_id device_id db with
  | Err e => Err e
  | Ok c =>
      if negb (bool_decide (cv_state c = ACTIVE)) then Err RelayConflictError
      else match validated_all parse_canonical (turn_rows conversation_id db) with
           | Err e => Err e
           | Ok records =>
               match split_turns (rev records) with
               | Err e => Err e
               | Ok l => Ok (match records with [] => 0 | r :: _ => cn_sequence r end, l)
               end
           end
  end.
Definition agent_history (conversation_id device_id : uuid) : C (Z * list (string * string)) :=
  query (read_history conversation_id device_id).

Record AgentTurnPersistence := {
  ap_conversation_id : uuid;
  ap_device_id : uuid;
  ap_expected_revision : Z;
  ap_text : string;
  ap_reply : string;
  ap_context : TransitionContext;
}.
Definition turn_record (record_id : uuid) (r : AgentTurnPersistence) (revision : Z) : CanonicalEvent :=
  {| cn_record_id := record_id; cn_created_at := utc (tc_occurred_at (ap_context r)); cn_state := "accepted";
     cn_conversation_id := ap_conversation_id r; cn_sequence := revision + 1; cn_event_type := "agent.turn";
     cn_payload := one_line (ap_text r) +:+ String newline (ap_reply r) |}.

Definition save_agent_turn (record_id : uuid) (r : AgentTurnPersistence) : C unit :=
  transaction (
    agent_history (ap_conversation_id r) (ap_device_id r) ≫= λ '(revision, _),
    throw_if (negb (revision =? ap_expected_revision r) || (MAX_CONVERSATION_EVENTS <=? revision)) RelayConflictError ≫= λ _,
    execute (insert_canonical (turn_record record_id r revision)) ≫= λ _,
    _audit record_id "conversation.agent.accepted" (cn_payload (turn_record record_id r revision)) (ap_context r)).
End store.
