(* ===== verification/RelaySpec.v ===== *)
(** * The relay's store keeps one ordered stream per conversation

    The tables represent, for every conversation, its record and the stream of events
    its journal accepted.  Operations change that view as an ordered log with
    idempotent batches would, or nothing at all. *)

From stdpp Require Import prelude base strings list gmap pretty sorting.
From Stdlib Require Import ZArith Ascii Lia.
From S2P Require Import Prelude PyTime PyText PyUuid Transactions AuditLedger Conversation RelayStore.
#[local] Open Scope string_scope.
#[local] Open Scope list_scope.
#[local] Open Scope Z_scope.

(** ** Replaying a stream *)

Lemma replay_app h1 h2 j : replay (h1 ++ h2) j = match replay h1 j with Ok j' => replay h2 j' | Err e => Err e end.
Proof.
  revert j. induction h1 as [|e h1 IH]; intros j; [done|]. simpl. destruct (accept e j) as [j' a].
  by destruct (ca_accepted a).
Qed.

Lemma replay_run h : ∀ j j' acc, replay h j = Ok j' → foldl journal_step (j, acc) h = (j', acc ++ h).
Proof.
  induction h as [|e h IH]; intros j j' acc Hr; simpl in *; [injection Hr as ->; by rewrite app_nil_r|].
  destruct (accept e j) as [j1 a]. destruct (ca_accepted a); [|done].
  rewrite (IH j1 j' (acc ++ [e])); [|done]. by rewrite <- app_assoc.
Qed.

Lemma replay_inv c devices h j : replay h (new_journal c devices) = Ok j →
  journal_inv c (cj_devices (new_journal c devices)) (j, h).
Proof.
  intros Hr. pose proof (journal_run_inv c devices h) as Hinv. unfold journal_run in Hinv.
  by rewrite (replay_run h _ j [] Hr) in Hinv.
Qed.

(** Journals that differ in what they know of devices. *)
Definition knows_more (j k : ConversationJournal) : Prop :=
  cv_conversation_id (cj_conversation k) = cv_conversation_id (cj_conversation j)
  ∧ cv_participant_ids (cj_conversation k) = cv_participant_ids (cj_conversation j)
  ∧ cv_state (cj_conversation k) = cv_state (cj_conversation j)
  ∧ (∀ d, d ∈ cv_device_ids (cj_conversation j) → d ∈ cv_device_ids (cj_conversation k))
  ∧ cj_devices j ⊆ cj_devices k
  ∧ cj_next_sequence k = cj_next_sequence j ∧ cj_seen_event_ids k = cj_seen_event_ids j
  ∧ cj_open_turn_id k = cj_open_turn_id j ∧ cj_cancelled_turn_id k = cj_cancelled_turn_id j.

Lemma accept_knows_more e j k : knows_more j k → ca_accepted (accept e j).2 = true →
  ca_accepted (accept e k).2 = true ∧ knows_more (accept e j).1 (accept e k).1.
Proof.
  intros (H1 & H2 & H3 & H4 & H5 & H6 & H7 & H8 & H9).
  destruct (accept_cases e j) as [(r & ->)|(He & Hp & j' & -> & Hc & Hd & Hn & Hs & Ht)]; [done|]. intros _.
  apply envelope_rejection_None in He as ((B1 & B2 & B3 & B4 & (d & B5 & B6) & B7) & Hfresh & Hseq).
  assert (envelope_rejection e k = None) as He'.
  { apply envelope_rejection_None. unfold belongs. rewrite H1, H2, H3, H6, H7. split_and!; auto.
    exists d. split; [|done]. by eapply lookup_weaken. }
  assert (payload_rejection e k = None) as Hp'.
  { unfold payload_rejection, transcript_rejection in *. by rewrite H8, H9. }
  destruct (accept_cases e k) as [(r & Hr)|(_ & _ & k' & -> & Hc' & Hd' & Hn' & Hs' & Ht')].
  { unfold accept in Hr. rewrite He', Hp' in Hr. done. }
  split; [done|]. simpl. unfold knows_more. rewrite Hc, Hc', Hd, Hd', Hn, Hn', Hs, Hs'.
  rewrite H8, H9, <- Ht in Ht'. injection Ht' as Ho Hx. split_and!; try done; congruence.
Qed.

Lemma replay_knows_more h : ∀ j k j', knows_more j k → replay h j = Ok j' → ∃ k', replay h k = Ok k' ∧ knows_more j' k'.
Proof.
  induction h as [|e h IH]; intros j k j' Hk Hr; simpl in *; [injection Hr as <-; eauto|].
  destruct (ca_accepted (accept e j).2) eqn:Ha; [|destruct (accept e j) as [j1 a]; simpl in Ha; by rewrite Ha in Hr].
  destruct (accept_knows_more e j k Hk Ha) as [Hka Hk1].
  destruct (accept e j) as [j1 a], (accept e k) as [k1 b]. simpl in *. rewrite Ha in Hr. rewrite Hka. by eapply IH.
Qed.

Section store.
Context `{RelayCodecLaws}.
Abbreviation conn := (connection relay_db).

(** ** What the tables represent *)

Definition device_row (d : ConversationDevice) : uuid * string := (cd_device_id d, dump_device d).
Definition bound_devices (devices : list ConversationDevice) (r : ConversationRecord) : list ConversationDevice :=
  filter (λ d, cd_participant_id d ∈ cr_participant_ids r) devices.
(** The conversation that the store returns for a record. *)
Definition conversation_of (devices : list ConversationDevice) (r : ConversationRecord) : Conversation_ :=
  {| cv_conversation_id := cr_record_id r; cv_title := match cr_title r with Some t => t | None => "" end;
     cv_participant_ids := cr_participant_ids r; cv_device_ids := map cd_device_id (bound_devices devices r);
     cv_created_at := cr_created_at r; cv_state := ACTIVE |}.
Definition journal_for (devices : list ConversationDevice) (r : ConversationRecord) : ConversationJournal :=
  new_journal (conversation_of devices r) (bound_devices devices r).

Record relay_view := {
  v_devices : list ConversationDevice;
  v_conversations : gmap uuid (ConversationRecord * list ConversationEvent);
}.
Definition valid_uuid (u : uuid) : Prop := 0 <= u < 2 ^ 128.

(** A record and the stream its journal accepted. *)
Record conversation_ok (devices : list ConversationDevice) (id : uuid) (r : ConversationRecord) (h : list ConversationEvent) : Prop := {
  co_id : cr_record_id r = id;
  co_uuid : valid_uuid id;
  co_valid : conversation_record_valid r = true;
  co_active : cr_state r = "active";
  co_accepted : is_ok (replay h (journal_for devices r)) = true;
  co_bounded : Z.of_nat (length h) <= MAX_CONVERSATION_EVENTS;
}.

Record represents (db : relay_db) (v : relay_view) : Prop := {
  rp_devices : rd_devices db = map device_row (v_devices v);
  rp_device_ids : NoDup (map cd_device_id (v_devices v));
  rp_relay : rd_relay_conversations db = dom (v_conversations v);
  rp_retention : dom (rd_retention db) = dom (v_conversations v);
  rp_versions : ∀ k c, rd_events db !! k = Some c ∨ rd_conversations db !! k = Some c → k.2 = 1;
  rp_conversation : ∀ id r h, v_conversations v !! id = Some (r, h) →
    rd_conversations db !! (id, 1) = Some (dump_conversation r) ∧ conversation_ok (v_devices v) id r h;
  rp_index : ∀ eid id n, rd_relay_events db !! eid = Some (id, n) ↔
    ∃ r h e, v_conversations v !! id = Some (r, h) ∧ e ∈ h ∧ ce_event_id e = eid ∧ ce_sequence e = n;
  rp_events : ∀ id r h e, v_conversations v !! id = Some (r, h) → e ∈ h →
    rd_events db !! (ce_event_id e, 1) = Some (dump_canonical (canonical_of e));
  rp_owned_records : ∀ k c, rd_conversations db !! k = Some c → k.1 ∈ dom (v_conversations v);
  rp_owned_events : ∀ k c, rd_events db !! k = Some c →
    ∃ id, id ∈ dom (v_conversations v) ∧ extract_conversation_id c = Some (uuid_str id);
}.

(** ** Reading *)

Lemma validated_devices devices : validated_all parse_device (map device_row devices).*2 = Ok devices.
Proof.
  induction devices as [|d devices IH]; [done|]. cbn [map fmap list_fmap validated_all device_row snd].
  unfold validated. rewrite parse_dump_device. by rewrite IH.
Qed.

Lemma read_device_view db v id : represents db v →
  read_device id db = Ok (List.find (λ d, cd_device_id d =? id) (v_devices v)).
Proof.
  intros Hv. unfold read_device, dict_get. rewrite (rp_devices _ _ Hv). generalize (v_devices v) as devices. intros devices.
  induction devices as [|d devices IH]; [done|]. cbn [map List.find device_row fst].
  destruct (bool_decide_reflect (cd_device_id d = id)) as [Heq|Hne].
  - rewrite (proj2 (Z.eqb_eq _ _) Heq). simpl. unfold validated. by rewrite parse_dump_device.
  - rewrite (proj2 (Z.eqb_neq _ _) Hne). exact IH.
Qed.

Lemma read_devices_view db v participants : represents db v →
  read_devices_for participants db = Ok (filter (λ d, cd_participant_id d ∈ participants) (v_devices v)).
Proof. intros Hv. unfold read_devices_for. by rewrite (rp_devices _ _ Hv), validated_devices. Qed.

Lemma latest_single (rows : gmap (uuid * Z) string) id c : (∀ k x, rows !! k = Some x → k.2 = 1) →
  latest id rows = Some c ↔ rows !! (id, 1) = Some c.
Proof.
  intros Hv. unfold latest.
  destruct (rows !! (id, 1)) as [x|] eqn:Hx.
  - assert (filter (λ row : uuid * Z * string, row.1.1 = id) (map_to_list rows) = [((id, 1), x)]) as ->; [|simpl; naive_solver].
    assert (NoDup (filter (λ row : uuid * Z * string, row.1.1 = id) (map_to_list rows))) as Hnd
      by apply NoDup_filter, NoDup_map_to_list.
    assert (∀ y, y ∈ filter (λ row : uuid * Z * string, row.1.1 = id) (map_to_list rows) ↔ y = ((id, 1), x)) as Hel.
    { intros [[a b] y]. rewrite list_elem_of_filter, elem_of_map_to_list. simpl. split; [|naive_solver].
      intros [-> Hl]. pose proof (Hv _ _ Hl) as Hb. simpl in Hb. subst b. congruence. }
    destruct (filter _ _) as [|y l]; [by destruct (Hel ((id, 1), x)) as [_ ?%elem_of_nil]; auto|].
    assert (y = ((id, 1), x)) as -> by (apply Hel; set_solver). destruct l as [|z l]; [done|].
    assert (z = ((id, 1), x)) as -> by (apply Hel; set_solver). apply NoDup_cons in Hnd as [Hn _]. set_solver.
  - assert (filter (λ row : uuid * Z * string, row.1.1 = id) (map_to_list rows) = []) as ->; [|simpl; naive_solver].
    apply elem_of_nil_inv. intros [[a b] y]. rewrite list_elem_of_filter, elem_of_map_to_list. simpl. intros [-> Hl].
    pose proof (Hv _ _ Hl) as Hb. simpl in Hb. subst b. congruence.
Qed.

(** The device may use the conversation: it is bound to a participant. *)
Definition member (v : relay_view) (device_id : uuid) (r : ConversationRecord) : bool :=
  match List.find (λ d, cd_device_id d =? device_id) (v_devices v) with
  | Some d => bool_decide (cd_participant_id d ∈ cr_participant_ids r)
  | None => false
  end.

Lemma read_conversation_view db v id device_id : represents db v →
  read_conversation id device_id db
  = match v_conversations v !! id with
    | Some (r, _) => if member v device_id r then Ok (conversation_of (v_devices v) r) else Err RelayAccessError
    | None => Err RelayAccessError
    end.
Proof.
  intros Hv. unfold read_conversation, member. rewrite (read_device_view db v) by done. unfold read_record.
  rewrite (rp_relay _ _ Hv). destruct (v_conversations v !! id) as [[r h]|] eqn:Hid.
  - rewrite bool_decide_eq_true_2 by (by apply elem_of_dom_2 in Hid).
    destruct (rp_conversation _ _ Hv id r h Hid) as [Hrow Hok].
    rewrite (proj2 (latest_single (rd_conversations db) id (dump_conversation r) ltac:(intros k x Hk; by eapply (rp_versions _ _ Hv); right)) Hrow).
    destruct (List.find _ _) as [d|]; [|done]. unfold validated. rewrite parse_dump_conversation by apply Hok.
    destruct (bool_decide (cd_participant_id d ∈ cr_participant_ids r)); [|done]. cbn [negb].
    rewrite (read_devices_view db v) by done. rewrite (co_active _ _ _ _ Hok). simpl.
    unfold conversation_of. by rewrite (co_id _ _ _ _ Hok).
  - rewrite bool_decide_eq_false_2 by (by apply not_elem_of_dom). by destruct (List.find _ _).
Qed.

(** *** The stream of a conversation *)

Definition index_row (id : uuid) (e : ConversationEvent) : uuid * (uuid * Z) := (ce_event_id e, (id, ce_sequence e)).

Lemma sorted_by_key {A : Type} (key : A → Z) (l m : list A) : l ≡ₚ m → StronglySorted (λ a b, key a < key b) m →
  py_sorted (λ a b, key a <? key b) l = m.
Proof.
  intros Hperm Hsorted.
  assert (∀ x y, x ∈ m → y ∈ m → key x = key y → x = y) as Hinj.
  { clear Hperm. induction Hsorted as [|x m Hs IH Hx]; [by intros ? ? ?%elem_of_nil|].
    rewrite list.Forall_forall in Hx.
    intros a b [->|Ha]%elem_of_cons [->|Hb]%elem_of_cons Heq; [done| | |by apply IH].
    - specialize (Hx _ Hb). lia.
    - specialize (Hx _ Ha). lia. }
  apply (StronglySorted_unique_strong (not_after (λ a b, key a <? key b))).
  - intros x y Hx Hy H1 H2. rewrite py_sorted_perm, Hperm in Hx. unfold not_after in *. bool_to_prop. apply Hinj; [done|done|lia].
  - apply py_sorted_strongly; unfold not_after; intros *; rewrite ?Z.ltb_lt, ?Z.ltb_ge; lia.
  - clear Hperm Hinj. induction Hsorted as [|x m Hs IH Hx]; [constructor|]. constructor; [done|]. eapply list.Forall_impl; [done|].
    unfold not_after. intros y Hy. apply Z.ltb_ge. lia.
  - by rewrite py_sorted_perm.
Qed.

(** Events numbered from [n] on. *)
Lemma stream_sorted h : ∀ n, map ce_sequence h = seqZ n (Z.of_nat (length h)) →
  StronglySorted (λ a b, ce_sequence a < ce_sequence b) h ∧ Forall (λ e, n <= ce_sequence e) h.
Proof.
  induction h as [|e h IH]; intros n Hn; [split; constructor|]. simpl length in Hn. rewrite Nat2Z.inj_succ, seqZ_cons in Hn by lia.
  simpl in Hn. injection Hn as He Hn. rewrite Z.pred_succ in Hn. destruct (IH (Z.succ n) Hn) as [Hs Hall].
  split; constructor; [done| |lia|]; (eapply list.Forall_impl; [done|]); intros x Hx; simpl in Hx; lia.
Qed.

Lemma numbered_lookup h i e : map ce_sequence h = seqZ 1 (Z.of_nat (length h)) → h !! i = Some e → ce_sequence e = 1 + Z.of_nat i.
Proof.
  intros Hn Hi. assert (map ce_sequence h !! i = Some (ce_sequence e)) as Hl by (rewrite list_lookup_fmap; by rewrite Hi).
  rewrite Hn, lookup_seqZ in Hl. lia.
Qed.

Lemma elem_of_drop_numbered h k e : map ce_sequence h = seqZ 1 (Z.of_nat (length h)) →
  e ∈ drop k h ↔ e ∈ h ∧ Z.of_nat k < ce_sequence e.
Proof.
  intros Hn. rewrite !list_elem_of_lookup. setoid_rewrite lookup_drop. split.
  - intros [i Hi]. rewrite (numbered_lookup h (k + i) e Hn Hi). split; [eauto|lia].
  - intros [[i Hi] Hlt]. rewrite (numbered_lookup h i e Hn Hi) in Hlt. exists (i - k)%nat. by replace (k + (i - k))%nat with i by lia.
Qed.

Lemma conversation_inv devices id r h : conversation_ok devices id r h →
  ∃ j, replay h (journal_for devices r) = Ok j
  ∧ journal_inv (conversation_of devices r) (cj_devices (journal_for devices r)) (j, h).
Proof.
  intros Hok. pose proof (co_accepted _ _ _ _ Hok) as Ha. destruct (replay h (journal_for devices r)) as [j|] eqn:Hr; [|done].
  exists j. split; [done|]. by apply replay_inv.
Qed.

Lemma stored_valid e : 1 <= ce_sequence e → canonical_event_valid (canonical_of e) = true.
Proof.
  intros Hs. unfold canonical_event_valid. simpl. rewrite (proj2 (Z.leb_le _ _) Hs). simpl.
  apply negb_true_iff, String.eqb_neq, dump_event_filled.
Qed.

Lemma parse_stored_ok e : 1 <= ce_sequence e → parse_stored (dump_canonical (canonical_of e)) = Some e.
Proof. intros Hs. unfold parse_stored. rewrite parse_dump_canonical by (by apply stored_valid). simpl. apply parse_dump_event. Qed.

Lemma index_rows_view db v id r h after : represents db v → v_conversations v !! id = Some (r, h) → 0 <= after →
  index_rows id after db = map (index_row id) (drop (Z.to_nat after) h).
Proof.
  intros Hv Hid Hafter. destruct (rp_conversation _ _ Hv id r h Hid) as [_ Hok].
  destruct (conversation_inv _ _ _ _ Hok) as (j & _ & Hinv). pose proof (ji_sequences _ _ _ Hinv) as Hn. simpl in Hn.
  assert (∀ e, e ∈ h ∧ after < ce_sequence e ↔ e ∈ drop (Z.to_nat after) h) as Hdrop.
  { intros e. rewrite (elem_of_drop_numbered h _ e Hn). rewrite Z2Nat.id by lia. done. }
  unfold index_rows. apply (sorted_by_key (λ row : uuid * (uuid * Z), row.2.2)).
  - apply NoDup_Permutation.
    + apply NoDup_filter, NoDup_map_to_list.
    + apply (NoDup_fmap_1 fst). rewrite <- list_fmap_compose. unfold compose. simpl.
      eapply sublist_NoDup; [exact (ji_ids _ _ _ Hinv)|]. simpl. apply (fmap_sublist ce_event_id). apply sublist_drop.
    + intros [eid [k n]]. rewrite list_elem_of_filter, elem_of_map_to_list, list_elem_of_fmap. cbn [fst snd]. split.
      * intros ((-> & Hlt & _) & Hrow). apply (rp_index _ _ Hv) in Hrow as (r' & h' & e & Hid' & He & <- & <-).
        rewrite Hid in Hid'. injection Hid' as <- <-. exists e. split; [done|]. by apply Hdrop.
      * intros (e & [= -> -> ->] & [He Hlt]%Hdrop). split_and!; [done|done| |].
        -- by rewrite (rp_events _ _ Hv id r h e Hid He).
        -- apply (rp_index _ _ Hv). by exists r, h, e.
  - destruct (stream_sorted h 1 Hn) as [Hs _].
    assert (StronglySorted (λ a b, ce_sequence a < ce_sequence b) (drop (Z.to_nat after) h)) as Hs'.
    { rewrite <- (take_drop (Z.to_nat after) h) in Hs. by apply StronglySorted_app in Hs as (_ & _ & ?). }
    clear -Hs'. induction Hs' as [|e l Hl IH He]; [constructor|]. simpl. constructor; [done|]. apply Forall_fmap. exact He.
Qed.

Lemma read_events_view db v id device_id after limit : represents db v → 0 <= after → 1 <= limit <= MAX_CONVERSATION_EVENTS →
  read_events id device_id after limit db
  = match v_conversations v !! id with
    | Some (r, h) => if member v device_id r then Ok (take (Z.to_nat limit) (drop (Z.to_nat after) h)) else Err RelayAccessError
    | None => Err RelayAccessError
    end.
Proof.
  intros Hv Hafter Hlimit. unfold read_events. rewrite (read_conversation_view db v) by done.
  destruct (v_conversations v !! id) as [[r h]|] eqn:Hid; [|done]. destruct (member v device_id r); [|done].
  rewrite (proj2 (Z.ltb_ge _ _) Hafter), (proj2 (Z.leb_le _ _) (proj1 Hlimit)), (proj2 (Z.leb_le _ _) (proj2 Hlimit)). cbn [orb andb negb].
  unfold page. rewrite (index_rows_view db v id r h) by done. rewrite <- fmap_take. fold (map (index_row id)).
  destruct (rp_conversation _ _ Hv id r h Hid) as [_ Hok]. destruct (conversation_inv _ _ _ _ Hok) as (j & _ & Hinv).
  destruct (stream_sorted h 1 (ji_sequences _ _ _ Hinv)) as [_ Hpos].
  assert (∀ e, e ∈ take (Z.to_nat limit) (drop (Z.to_nat after) h) → e ∈ h ∧ 1 <= ce_sequence e) as Hin.
  { intros e He. assert (e ∈ h) as Heh by (rewrite <- (take_drop (Z.to_nat after) h), <- (take_drop (Z.to_nat limit) (drop (Z.to_nat after) h)); set_solver).
    split; [done|].
    rewrite list.Forall_forall in Hpos. by apply Hpos. }
  induction (take (Z.to_nat limit) (drop (Z.to_nat after) h)) as [|e l IH]; [done|].
  destruct (Hin e) as [Heh Hseq]; [set_solver|]. rewrite fmap_cons. cbn [omap list_omap]. change ((index_row id e).1, 1) with (ce_event_id e, 1).
  rewrite (rp_events _ _ Hv id r h e Hid Heh). cbn [validated_all]. unfold validated. rewrite parse_stored_ok by done.
  rewrite IH; [done|]. intros x Hx. apply Hin. set_solver.
Qed.

(** ** Writing *)

Definition with_stream (v : relay_view) (id : uuid) (r : ConversationRecord) (h : list ConversationEvent) : relay_view :=
  {| v_devices := v_devices v; v_conversations := <[id := (r, h)]> (v_conversations v) |}.

Context (hmac : string → string → string) (audit_key : string).

(** Changes to the ledger leave the view alone. *)
Lemma represents_audit db v a : represents db v → represents (set_relay_audit db a) v.
Proof. intros []. by split. Qed.

Lemma audit_run record_id action content ctx (c c' : conn) u :
  _audit hmac audit_key record_id action content ctx c = (c', Ok u) → ∃ a, live c' = set_relay_audit (live c) a.
Proof.
  unfold _audit. intros (db & Hdb & ->)%execute_inv. simpl. destruct (verify_ledger _ _ _); [|done].
  destruct (AuditLedger.append _ _ _ _) as [led [x|x]]; [|done]. injection Hdb as <-. eauto.
Qed.

(** The entry that recording a change appends, without its place in the chain. *)
Definition recorded (m : AuditMutation) (e : AuditEntry) : Prop :=
  ∃ sequence previous hash, e = with_hash (unsigned_entry m sequence previous) hash.

Lemma audit_entry record_id action content ctx (c c' : conn) u :
  _audit hmac audit_key record_id action content ctx c = (c', Ok u) →
  ∃ e, recorded (relay_mutation hmac audit_key record_id action content ctx) e
    ∧ entries (rd_audit (live c')) ≡ₚ entries (rd_audit (live c)) ++ [e].
Proof.
  unfold _audit. intros (db & Hdb & ->)%execute_inv. simpl. destruct (verify_ledger _ _ _); [|done].
  unfold AuditLedger.append in Hdb. destruct (insert_entry _ _) as [table|] eqn:Hi; [|done]. injection Hdb as <-.
  unfold insert_entry in Hi. destruct (existsb _ _); [done|]. injection Hi as <-.
  eexists. split; [by do 3 eexists|]. simpl. unfold entries. rewrite py_insert_perm. apply Permutation_cons_append.
Qed.

(** One more event that the journal accepts. *)
Lemma represents_event db v id r h j e : represents db v → v_conversations v !! id = Some (r, h) →
  replay h (journal_for (v_devices v) r) = Ok j → ca_accepted (accept e j).2 = true → Z.of_nat (length h) < MAX_CONVERSATION_EVENTS →
  ce_conversation_id e = id → rd_events db !! (ce_event_id e, 1) = None → rd_relay_events db !! ce_event_id e = None →
  represents (set_relay (set_canonical db (rd_identities db) (rd_conversations db)
      (<[(ce_event_id e, 1) := dump_canonical (canonical_of e)]> (rd_events db)))
      (rd_devices db) (rd_relay_conversations db) (<[ce_event_id e := (id, ce_sequence e)]> (rd_relay_events db)) (rd_retention db))
    (with_stream v id r (h ++ [e])).
Proof.
  intros Hv Hid Hr Ha Hlen Hconv Hfree Hfresh. destruct (Hv) as [Hd Hdi Hrel Hret Hver Hc Hidx Hev Hor Hoe]. split; simpl.
  - done.
  - done.
  - rewrite Hrel, dom_insert_L. apply elem_of_dom_2 in Hid. set_solver.
  - rewrite Hret, dom_insert_L. apply elem_of_dom_2 in Hid. set_solver.
  - intros k x [Hk|Hk]; [|by eapply Hver; right]. destruct (decide (k = (ce_event_id e, 1))) as [->|Hne]; [done|].
    rewrite lookup_insert_ne in Hk by done. eapply Hver; by left.
  - intros id' r' h' Hl. destruct (decide (id' = id)) as [->|Hne].
    + rewrite lookup_insert_eq in Hl. injection Hl as <- <-. destruct (Hc id r h Hid) as [Hrow [C1 C2 C3 C4 C5 C6]]. split; [done|].
      split; try done; [|rewrite length_app; simpl; lia]. rewrite replay_app, Hr. simpl.
      destruct (accept e j) as [j' a]. simpl in Ha. by rewrite Ha.
    + rewrite lookup_insert_ne in Hl by done. by apply Hc.
  - intros eid id' n. destruct (decide (eid = ce_event_id e)) as [->|Hne].
    + rewrite lookup_insert_eq. split.
      * intros [= <- <-]. exists r, (h ++ [e]), e. rewrite lookup_insert_eq. split_and!; [done|set_solver|done|done].
      * intros (r' & h' & x & Hl & Hx & Heq & Hn). destruct (decide (id' = id)) as [->|Hne'].
        -- rewrite lookup_insert_eq in Hl. injection Hl as <- <-. apply elem_of_app in Hx as [Hx| ->%list_elem_of_singleton]; [|by subst].
           assert (rd_relay_events db !! ce_event_id e = Some (id, n)) as Hrow by (apply Hidx; by exists r, h, x). congruence.
        -- rewrite lookup_insert_ne in Hl by done.
           assert (rd_relay_events db !! ce_event_id e = Some (id', n)) as Hrow by (apply Hidx; by exists r', h', x). congruence.
    + rewrite lookup_insert_ne by done. rewrite Hidx. split; intros (r' & h' & x & Hl & Hx & Heq & Hn).
      * destruct (decide (id' = id)) as [->|Hne'].
        -- rewrite Hid in Hl. injection Hl as <- <-. exists r, (h ++ [e]), x. rewrite lookup_insert_eq. split_and!; [done|set_solver|done|done].
        -- exists r', h', x. by rewrite lookup_insert_ne.
      * destruct (decide (id' = id)) as [->|Hne'].
        -- rewrite lookup_insert_eq in Hl. injection Hl as <- <-. apply elem_of_app in Hx as [Hx| ->%list_elem_of_singleton]; [|done].
           by exists r, h, x.
        -- rewrite lookup_insert_ne in Hl by done. by exists r', h', x.
  - intros id' r' h' x Hl Hx. destruct (decide (id' = id)) as [->|Hne].
    + rewrite lookup_insert_eq in Hl. injection Hl as <- <-.
      apply elem_of_app in Hx as [Hx| ->%list_elem_of_singleton]; [|apply lookup_insert_eq].
      pose proof (Hev id r h x Hid Hx) as Hrow. rewrite lookup_insert_ne; [done|]. intros Heq. congruence.
    + rewrite lookup_insert_ne in Hl by done. pose proof (Hev id' r' h' x Hl Hx) as Hrow.
      rewrite lookup_insert_ne; [done|]. intros Heq. congruence.
  - intros k x Hk. rewrite dom_insert. apply elem_of_union_r. by eapply Hor.
  - intros k x [[<- <-]|[_ Hk]]%lookup_insert_Some; rewrite dom_insert_L.
    + exists id. rewrite extract_dump_conversation_id. simpl. rewrite Hconv. split; [set_solver|done].
    + destruct (Hoe k x Hk) as (o & Ho & Hx). exists o. split; [set_solver|done].
Qed.

Lemma insert_event_run e ctx (c c' : conn) u v id r h j :
  _insert_event hmac audit_key e ctx c = (c', Ok u) → represents (live c) v → v_conversations v !! id = Some (r, h) →
  replay h (journal_for (v_devices v) r) = Ok j → ca_accepted (accept e j).2 = true →
  Z.of_nat (length h) < MAX_CONVERSATION_EVENTS → ce_conversation_id e = id →
  represents (live c') (with_stream v id r (h ++ [e])).
Proof.
  intros Hrun Hv Hid Hr Ha Hlen Hconv. unfold _insert_event in Hrun.
  apply bind_inv in Hrun as (u1 & c1 & [= <- _] & Hrun). apply bind_inv in Hrun as (u2 & c2 & (db2 & Hdb2 & ->)%execute_inv & Hrun).
  apply bind_inv in Hrun as (u3 & c3 & (db3 & Hdb3 & ->)%execute_inv & Hrun). apply audit_run in Hrun as [a ->].
  apply represents_audit. simpl in *. unfold insert_canonical, insert_version in Hdb2. simpl cn_record_id in Hdb2.
  destruct (rd_events (live c) !! (ce_event_id e, 1)) eqn:Hfree; [done|]. injection Hdb2 as <-.
  unfold insert_index in Hdb3. destruct (_ || existsb _ _) eqn:Hchk; [done|]. injection Hdb3 as <-. simpl in *. bool_to_prop.
  rewrite Hconv in *. by eapply represents_event.
Qed.

(** ** Batches *)

Definition ids (h : list ConversationEvent) : list uuid := map ce_event_id h.
Definition keyed (h : list ConversationEvent) : list (uuid * ConversationEvent) := map (λ e, (ce_event_id e, e)) h.
Definition batch_events (batch : list IncomingEvent) : list ConversationEvent := map in_event batch.
(** The events of a batch that the stream lacks, in the order of the batch. *)
Definition fresh (h : list ConversationEvent) (batch : list IncomingEvent) : list ConversationEvent :=
  filter (λ e, ce_event_id e ∉ ids h) (batch_events batch).

(** What a client may send. *)
Definition sendable (device_id : uuid) (i : IncomingEvent) : Prop :=
  ce_device_id (in_event i) = device_id ∧ client_kind (ce_kind (in_event i)) = true ∧ in_aware i = true
  ∧ encoded_length (dump_event (in_event i)) <= MAX_EVENT_BYTES.

Lemma keyed_keys h : (keyed h).*1 = ids h.
Proof. induction h as [|e h IH]; [done|]. exact (f_equal (cons (ce_event_id e)) IH). Qed.

Lemma keyed_get h id e : NoDup (ids h) → dict_get id (keyed h) = Some e → e ∈ h ∧ ce_event_id e = id.
Proof.
  intros Hnd. rewrite dict_get_elem by (by rewrite keyed_keys). unfold keyed. rewrite list_elem_of_fmap.
  intros (x & [= -> ->] & Hx). done.
Qed.
Lemma keyed_get_in h e : NoDup (ids h) → e ∈ h → dict_get (ce_event_id e) (keyed h) = Some e.
Proof. intros Hnd He. rewrite dict_get_elem by (by rewrite keyed_keys). unfold keyed. rewrite list_elem_of_fmap. by exists e. Qed.
Lemma keyed_get_out h id : dict_get id (keyed h) = None ↔ id ∉ ids h.
Proof. rewrite <- keyed_keys. rewrite <- dict_get_is_Some. rewrite <- not_eq_None_Some. destruct (dict_get _ _); naive_solver. Qed.

Lemma fresh_snoc h e batch : ce_event_id e ∉ ids (batch_events batch) → fresh (h ++ [e]) batch = fresh h batch.
Proof.
  unfold fresh, ids. induction batch as [|i batch IH]; intros Hout; [done|]. cbn [batch_events map] in *.
  apply not_elem_of_cons in Hout as [Hne Hout]. rewrite map_app, !filter_cons. fold (batch_events batch) in *.
  rewrite map_app in IH. rewrite (IH Hout). simpl.
  destruct (decide (ce_event_id (in_event i) ∉ map ce_event_id h)) as [Hd|Hd].
  - rewrite decide_True; [done|]. rewrite elem_of_app, list_elem_of_singleton. naive_solver.
  - rewrite decide_False; [done|]. rewrite elem_of_app. naive_solver.
Qed.

Lemma with_stream_same v id r h : v_conversations v !! id = Some (r, h) → with_stream v id r h = v.
Proof. intros Hid. unfold with_stream. rewrite insert_id by done. by destruct v. Qed.
Lemma with_stream_twice v id r h h' : with_stream (with_stream v id r h) id r h' = with_stream v id r h'.
Proof. unfold with_stream. simpl. by rewrite insert_insert_eq. Qed.

Lemma stream_ids db v id r h : represents db v → v_conversations v !! id = Some (r, h) → NoDup (ids h).
Proof.
  intros Hv Hid. destruct (rp_conversation _ _ Hv id r h Hid) as [_ Hok].
  destruct (conversation_inv _ _ _ _ Hok) as (j & _ & Hinv). exact (ji_ids _ _ _ Hinv).
Qed.

Lemma keyed_snoc h e : ce_event_id e ∉ ids h → dict_set (ce_event_id e) e (keyed h) = keyed (h ++ [e]).
Proof. intros Hout. rewrite dict_set_fresh by (by rewrite keyed_keys). unfold keyed. by rewrite map_app. Qed.

Lemma accepted_conversation devices id r h j e : conversation_ok devices id r h → replay h (journal_for devices r) = Ok j →
  ca_accepted (accept e j).2 = true → ce_conversation_id e = id.
Proof.
  intros Hok Hr Ha. destruct (conversation_inv _ _ _ _ Hok) as (j' & Hr' & Hinv). rewrite Hr in Hr'. injection Hr' as <-.
  destruct (accept_cases e j) as [(x & Hx)|(He & _)]; [by rewrite Hx in Ha|].
  apply envelope_rejection_None in He as [(Hc & _) _]. pose proof (ji_conversation _ _ _ Hinv) as Hcj. simpl in Hcj.
  rewrite Hcj in Hc. simpl in Hc. by rewrite Hc, (co_id _ _ _ _ Hok).
Qed.

Lemma append_events_run device_id batch ctx : ∀ h j (c c' : conn) known v id r,
  append_events hmac audit_key device_id batch (keyed h) j ctx c = (c', Ok known) →
  represents (live c) v → v_conversations v !! id = Some (r, h) → replay h (journal_for (v_devices v) r) = Ok j →
  NoDup (ids (batch_events batch)) →
  known = keyed (h ++ fresh h batch) ∧ represents (live c') (with_stream v id r (h ++ fresh h batch))
  ∧ Forall (sendable device_id) batch ∧ (∀ e, e ∈ batch_events batch → e ∈ h ++ fresh h batch).
Proof.
  induction batch as [|i batch IH]; intros h j c c' known v id r Hrun Hv Hid Hr Hnd.
  { injection Hrun as <- <-. unfold fresh. simpl. rewrite app_nil_r, with_stream_same by done. split_and!; [done|done|constructor|].
    by intros e ?%elem_of_nil. }
  cbn [append_events] in Hrun. pose proof (stream_ids _ _ _ _ _ Hv Hid) as Hids.
  destruct (_ || negb (client_kind _)) eqn:Hdev; [done|]. destruct (negb (in_aware i) || _) eqn:Hsize; [done|].
  assert (sendable device_id i) as Hsend by (bool_to_prop; done).
  apply NoDup_cons in Hnd as [Hnew Hnd]. set (e := in_event i) in *. unfold fresh. cbn [batch_events map]. fold (batch_events batch) e.
  destruct (dict_get (ce_event_id e) (keyed h)) as [stored|] eqn:Hget.
  - destruct (bool_decide (e = stored)) eqn:Hb; [|done]. apply bool_decide_eq_true_1 in Hb as <-.
    apply (keyed_get h) in Hget as [He _]; [|done].
    destruct (IH h j c c' known v id r Hrun Hv Hid Hr Hnd) as (Hk & Hrep & Hs & Hall).
    rewrite filter_cons_False by (intros Hout; apply Hout, list_elem_of_fmap; by exists e). fold (fresh h batch).
    split_and!; [done|done|by constructor|]. intros x [->|Hx]%elem_of_cons; [set_solver|by apply Hall].
  - apply keyed_get_out in Hget. destruct (MAX_CONVERSATION_EVENTS <=? _) eqn:Hmax; [done|].
    destruct (accept e j) as [j' a] eqn:Hacc. destruct (ca_accepted a) eqn:Ha; [|done].
    assert (Z.of_nat (length h) < MAX_CONVERSATION_EVENTS) as Hlen.
    { apply Z.leb_gt in Hmax. unfold keyed in Hmax. by rewrite length_map in Hmax. }
    apply bind_inv in Hrun as (u & c1 & Hins & Hrun).
    destruct (rp_conversation _ _ Hv id r h Hid) as [_ Hok].
    assert (ca_accepted (accept e j).2 = true) as Ha' by (by rewrite Hacc).
    pose proof (accepted_conversation _ _ _ _ _ _ Hok Hr Ha') as Hconv.
    pose proof (insert_event_run _ _ _ _ _ _ _ _ _ _ Hins Hv Hid Hr Ha' Hlen Hconv) as Hv1.
    rewrite keyed_snoc in Hrun by done.
    destruct (IH (h ++ [e]) j' c1 c' known (with_stream v id r (h ++ [e])) id r Hrun Hv1) as (Hk & Hrep & Hs & Hall).
    { simpl. apply lookup_insert_eq. }
    { simpl. rewrite replay_app, Hr. simpl. by rewrite Hacc, Ha. }
    { done. }
    rewrite (fresh_snoc h e batch Hnew) in *. rewrite with_stream_twice in Hrep.
    rewrite filter_cons_True by done. fold (fresh h batch).
    replace (h ++ e :: fresh h batch) with ((h ++ [e]) ++ fresh h batch) by (by rewrite <- app_assoc).
    split_and!; [done|done|by constructor|]. intros x [->|Hx]%elem_of_cons; [set_solver|by apply Hall].
Qed.

(** A batch whose events are all there changes nothing. *)
Lemma append_events_again device_id batch ctx h j (c : conn) : NoDup (ids h) → Forall (sendable device_id) batch →
  (∀ e, e ∈ batch_events batch → e ∈ h) →
  append_events hmac audit_key device_id batch (keyed h) j ctx c = (c, Ok (keyed h)).
Proof.
  intros Hnd. induction batch as [|i batch IH]; intros Hs Hall; [done|]. apply Forall_cons in Hs as [(Hd & Hk & Ha & Hl) Hs].
  cbn [append_events]. rewrite Hd, Z.eqb_refl, Hk, Ha. cbn [negb orb]. rewrite (proj2 (Z.ltb_ge _ _) Hl).
  rewrite (keyed_get_in h) by (auto; apply Hall; simpl; set_solver). rewrite bool_decide_eq_true_2 by done.
  apply IH; [done|]. intros e He. apply Hall. simpl. set_solver.
Qed.

(** ** Transactions of the store *)

(** Between operations: no transaction is open and everything is on disk. *)
Definition idle (c : conn) : Prop := in_transaction c = false ∧ live c = durable c.

Lemma transaction_run {A : Type} (body : comp conn RelayError A) (c c' : conn) r : idle c → within body →
  transaction body c = (c', r) →
  match r with
  | Ok a => idle c' ∧ ∃ c1, body (begin_immediate c) = (c1, Ok a) ∧ live c' = live c1
  | Err _ => c' = c
  end.
Proof.
  intros [Hin Hlive] Hw. unfold transaction, with_connection. rewrite Hin.
  destruct (Hw (begin_immediate c) eq_refl) as [_ Hdur]. destruct (body (begin_immediate c)) as [c1 [a|e]]; intros [= <- <-].
  - split; [done|]. by exists c1.
  - unfold rollback. simpl in Hdur. rewrite Hdur. destruct c. simpl in *. by subst.
Qed.

Lemma transaction_ok {A : Type} (body : comp conn RelayError A) (c c1 : conn) a : idle c →
  body (begin_immediate c) = (c1, Ok a) → transaction body c = (commit c1, Ok a).
Proof. intros [Hin _] Hrun. unfold transaction, with_connection. by rewrite Hin, Hrun. Qed.

Lemma within_audit record_id action content ctx : within (_audit hmac audit_key record_id action content ctx).
Proof. apply within_execute. Qed.
Lemma within_throw_if b e : within (Db := relay_db) (E := RelayError) (throw_if b e).
Proof. intros c Hc. done. Qed.
Lemma within_pure {A : Type} (x : result RelayError A) : within (Db := relay_db) (stateful (λ c, (c, x))).
Proof. intros c Hc. done. Qed.
Hint Resolve within_audit within_throw_if within_pure within_execute within_query within_ret within_throw : lifeos.

Lemma within_insert_event e ctx : within (_insert_event hmac audit_key e ctx).
Proof. unfold _insert_event. repeat (apply within_bind; [auto with lifeos|intros ?]). auto with lifeos. Qed.

Lemma within_append_events device_id batch ctx : ∀ known j, within (append_events hmac audit_key device_id batch known j ctx).
Proof.
  induction batch as [|i batch IH]; intros known j; [apply within_ret|]. cbn [append_events].
  destruct (_ || negb (client_kind _)); [apply within_throw|]. destruct (negb (in_aware i) || _); [apply within_throw|].
  destruct (dict_get _ _); [destruct (bool_decide _); [apply IH|apply within_throw]|].
  destruct (_ <=? _); [apply within_throw|]. destruct (accept _ j) as [j' a]. destruct (ca_accepted a); [|apply within_throw].
  apply within_bind; [apply within_insert_event|intros ?; apply IH].
Qed.

Definition append_body (id device_id : uuid) (batch : list IncomingEvent) (ctx : TransitionContext) : comp conn RelayError Z :=
  conversation id device_id ≫= λ c,
  _devices_for (cv_participant_ids c) ≫= λ devices,
  events id device_id 0 MAX_CONVERSATION_EVENTS ≫= λ history,
  let known := dict_of (map (λ e, (ce_event_id e, e)) history) in
  stateful (λ s, (s, replay history (new_journal c devices))) ≫= λ j,
  throw_if (negb ((1 <=? Z.of_nat (length batch)) && (Z.of_nat (length batch) <=? MAX_BATCH_EVENTS))
            || negb (bool_decide (NoDup (map (λ i, ce_event_id (in_event i)) batch)))) RelayConflictError ≫= λ _,
  append_events hmac audit_key device_id batch known j ctx ≫= λ known,
  mret (Z.of_nat (length known) + 1).

Lemma within_append id device_id batch ctx : within (append_body id device_id batch ctx).
Proof.
  unfold append_body, conversation, _devices_for, events. repeat first [apply within_append_events|apply within_bind; [|intros ?]|solve [auto with lifeos]].
Qed.

(** The size and the identifiers of a batch. *)
Definition batch_ok (batch : list IncomingEvent) : Prop :=
  1 <= Z.of_nat (length batch) <= MAX_BATCH_EVENTS ∧ NoDup (ids (batch_events batch)).

Lemma batch_ids batch : map (λ i, ce_event_id (in_event i)) batch = ids (batch_events batch).
Proof. unfold ids, batch_events. by rewrite map_map. Qed.

(** The body, once the conversation and its stream were read. *)
Lemma append_body_reads id device_id batch ctx (c : conn) v r h j : represents (live c) v → v_conversations v !! id = Some (r, h) →
  member v device_id r = true → replay h (journal_for (v_devices v) r) = Ok j → batch_ok batch →
  append_body id device_id batch ctx c
  = match append_events hmac audit_key device_id batch (keyed h) j ctx c with
    | (c1, Ok known) => (c1, Ok (Z.of_nat (length known) + 1))
    | (c1, Err e) => (c1, Err e)
    end.
Proof.
  intros Hv Hid Hm Hr [Hsize Hnd]. unfold append_body, conversation, _devices_for, events.
  rewrite bind_run. unfold query at 1. rewrite (read_conversation_view _ v), Hid, Hm by done.
  rewrite bind_run. unfold query at 1. rewrite (read_devices_view _ v) by done.
  rewrite bind_run. unfold query at 1. rewrite (read_events_view _ v), Hid, Hm by (done || unfold MAX_CONVERSATION_EVENTS; lia).
  change (Z.to_nat 0) with 0%nat. rewrite drop_0, take_ge.
  2: { destruct (rp_conversation _ _ Hv id r h Hid) as [_ Hok]. pose proof (co_bounded _ _ _ _ Hok). lia. }
  cbv zeta. rewrite bind_run. unfold stateful. change (new_journal _ _) with (journal_for (v_devices v) r). rewrite Hr.
  rewrite bind_run. unfold throw_if, raise_if. rewrite (batch_ids batch), (bool_decide_eq_true_2 _ Hnd).
  rewrite (proj2 (Z.leb_le _ _) (proj1 Hsize)), (proj2 (Z.leb_le _ _) (proj2 Hsize)). cbn [andb negb orb].
  rewrite bind_run, dict_of_nodup; [done|]. change (NoDup (keyed h).*1). rewrite keyed_keys. by eapply stream_ids.
Qed.

Abbreviation append := (RelayStore.append hmac audit_key).

(** A batch is taken as a whole or not at all. *)
Lemma relay_append_run id device_id batch ctx (c c' : conn) v res : idle c → represents (live c) v →
  append id device_id batch ctx c = (c', res) →
  match res with
  | Err _ => c' = c
  | Ok n => idle c' ∧ batch_ok batch ∧ Forall (sendable device_id) batch
      ∧ ∃ r h, v_conversations v !! id = Some (r, h) ∧ member v device_id r = true
          ∧ represents (live c') (with_stream v id r (h ++ fresh h batch))
          ∧ n = Z.of_nat (length (h ++ fresh h batch)) + 1 ∧ ∀ e, e ∈ batch_events batch → e ∈ h ++ fresh h batch
  end.
Proof.
  intros Hidle Hv Hrun. apply (transaction_run (append_body id device_id batch ctx)) in Hrun; [|done|apply within_append].
  destruct res as [n|e]; [|done]. destruct Hrun as (Hidle' & c1 & Hbody & Hlive). split; [done|]. rewrite Hlive. clear Hlive Hidle' c'.
  pose proof Hbody as Hrun. unfold append_body in Hrun.
  apply bind_inv in Hrun as (cv & c2 & [-> Hcv]%query_inv & Hrun). change (live (begin_immediate c)) with (live c) in Hcv.
  rewrite (read_conversation_view _ v) in Hcv by done. destruct (v_conversations v !! id) as [[r h]|] eqn:Hid; [|done].
  destruct (member v device_id r) eqn:Hm; [|done]. clear Hcv.
  apply bind_inv in Hrun as (ds & c2 & [-> _]%query_inv & Hrun). apply bind_inv in Hrun as (hist & c2 & [-> _]%query_inv & Hrun).
  cbv zeta in Hrun. apply bind_inv in Hrun as (j0 & c2 & [= <- _] & Hrun). apply bind_inv in Hrun as (u & c2 & [= <- Hthrow] & _).
  apply raise_if_ok in Hthrow. rewrite batch_ids in Hthrow. bool_to_prop.
  assert (batch_ok batch) as Hbatch by (unfold batch_ok; split; [lia|done]).
  destruct (rp_conversation _ _ Hv id r h Hid) as [_ Hok]. destruct (conversation_inv _ _ _ _ Hok) as (j & Hr & _).
  rewrite (append_body_reads id device_id batch ctx (begin_immediate c) v r h j) in Hbody by done.
  destruct (append_events _ _ _ _ _ _ _ _) as [c2 [known|e]] eqn:Happ; [|done]. injection Hbody as <- <-.
  destruct (append_events_run _ _ _ _ _ _ _ _ _ _ _ Happ Hv Hid Hr (proj2 Hbatch)) as (-> & Hrep & Hs & Hall).
  split_and!; [done|done|]. exists r, h. split_and!; try done. unfold keyed. by rewrite length_map.
Qed.

(** Sending a batch again acknowledges it and changes nothing. *)
Lemma append_again id device_id batch ctx (c : conn) v r h : idle c → represents (live c) v → v_conversations v !! id = Some (r, h) →
  member v device_id r = true → batch_ok batch → Forall (sendable device_id) batch → (∀ e, e ∈ batch_events batch → e ∈ h) →
  append id device_id batch ctx c = (c, Ok (Z.of_nat (length h) + 1)).
Proof.
  intros Hidle Hv Hid Hm Hb Hs Hall. destruct (rp_conversation _ _ Hv id r h Hid) as [_ Hok].
  destruct (conversation_inv _ _ _ _ Hok) as (j & Hr & _).
  assert (append_body id device_id batch ctx (begin_immediate c) = (begin_immediate c, Ok (Z.of_nat (length h) + 1))) as Hbody.
  { rewrite (append_body_reads _ _ _ _ _ v r h j) by done. rewrite append_events_again; [|by eapply stream_ids|done|done].
    unfold keyed. by rewrite length_map. }
  pose proof (transaction_ok (append_body id device_id batch ctx) c _ _ Hidle Hbody) as Hrun.
  destruct Hidle as [H1 H2]. etransitivity; [exact Hrun|]. destruct c. unfold commit. simpl in *. by subst.
Qed.
End store.
