(* ===== verification/RelayHistory.v ===== *)
(** * Histories of the relay's store

    Every operation of the store keeps its tables a representation of ordered streams;
    batches are taken once and as a whole, and a removed conversation leaves nothing
    behind. *)

From stdpp Require Import countable prelude base strings list gmap pretty.
From Stdlib Require Import ZArith Ascii Lia.
From S2P Require Import Prelude PyTime PyText PyUuid Transactions AuditLedger Conversation MemoryCodec RelayStore RelaySpec.
#[local] Open Scope string_scope.
#[local] Open Scope list_scope.
#[local] Open Scope Z_scope.

Section store.
Context (hmac : string → string → string) (audit_key : string).
Context `{RelayCodecLaws}.
Abbreviation conn := (connection relay_db).
Abbreviation append := (RelayStore.append hmac audit_key).
Abbreviation provision := (provision hmac audit_key).
Abbreviation create := (create hmac audit_key).
Abbreviation _delete := (_delete hmac audit_key).
Abbreviation delete_conversation := (delete_conversation hmac audit_key).
Abbreviation expire := (expire hmac audit_key).
Abbreviation save_agent_turn := (save_agent_turn hmac audit_key).

(** ** Devices *)

Definition with_device (v : relay_view) (d : ConversationDevice) : relay_view :=
  {| v_devices := v_devices v ++ [d]; v_conversations := v_conversations v |}.

Lemma new_devices_lookup c devices k d : cj_devices (new_journal c devices) !! k = Some d → k ∈ map cd_device_id devices.
Proof.
  unfold new_journal. simpl. revert d. induction devices as [|x devices IH] using rev_ind; intros d; [done|].
  rewrite foldl_app. simpl. rewrite map_app, elem_of_app. simpl. destruct (decide (k = cd_device_id x)) as [->|Hne]; [right; set_solver|].
  rewrite lookup_insert_ne by done. intros Hd%IH. by left.
Qed.

Lemma bound_devices_snoc devices d r :
  bound_devices (devices ++ [d]) r = bound_devices devices r ++ (if bool_decide (cd_participant_id d ∈ cr_participant_ids r) then [d] else []).
Proof.
  unfold bound_devices. rewrite filter_app. f_equal. case_bool_decide as Hd; [by rewrite filter_cons_True|by rewrite filter_cons_False].
Qed.

Lemma journal_for_more devices d r : cd_device_id d ∉ map cd_device_id devices →
  knows_more (journal_for devices r) (journal_for (devices ++ [d]) r).
Proof.
  intros Hnew. unfold journal_for, knows_more. rewrite bound_devices_snoc. simpl. rewrite bound_devices_snoc. split_and!; try done.
  - intros x. rewrite map_app. set_solver.
  - rewrite foldl_app. case_bool_decide; simpl; [|done]. apply insert_subseteq.
    destruct (foldl _ ∅ (bound_devices devices r) !! cd_device_id d) as [x|] eqn:Hx; [|done]. exfalso. apply Hnew.
    apply (new_devices_lookup (conversation_of devices r)) in Hx. unfold bound_devices in Hx.
    apply list_elem_of_fmap in Hx as (y & -> & [_ Hy]%list_elem_of_filter). apply list_elem_of_fmap. by exists y.
Qed.

Lemma represents_identities db v rows : represents db v →
  represents (set_canonical db rows (rd_conversations db) (rd_events db)) v.
Proof. intros []. by split. Qed.

Lemma represents_device db v d : represents db v → cd_device_id d ∉ (rd_devices db).*1 →
  represents (set_relay db (rd_devices db ++ [(cd_device_id d, dump_device d)]) (rd_relay_conversations db) (rd_relay_events db) (rd_retention db))
    (with_device v d).
Proof.
  intros [Hd Hdi Hrel Hret Hver Hc Hidx Hev Hor Hoe] Hnew.
  assert (cd_device_id d ∉ map cd_device_id (v_devices v)) as Hout.
  { rewrite Hd in Hnew. intros Hin. apply Hnew. apply list_elem_of_fmap in Hin as (x & Hx & Hin). apply list_elem_of_fmap.
    exists (device_row x). split; [done|]. apply list_elem_of_fmap. by exists x. }
  split; simpl; try done.
  - rewrite Hd. by rewrite map_app.
  - rewrite map_app. apply NoDup_app. split_and!; [done| |apply NoDup_singleton]. intros x Hx ->%list_elem_of_singleton. done.
  - intros id r h Hid. destruct (Hc id r h Hid) as [Hrow [C1 C2 C3 C4 C5 C6]]. split; [done|]. split; try done.
    destruct (replay h (journal_for (v_devices v) r)) as [j|] eqn:Hr; [|done].
    destruct (replay_knows_more _ _ _ _ (journal_for_more (v_devices v) d r Hout) Hr) as (k & -> & _). done.
Qed.

(** What an operation leaves behind: an idle connection that represents some view. *)
Definition keeps (c : conn) (v : relay_view) : Prop := idle c ∧ represents (live c) v.

Definition provision_body (i : CanonicalIdentity) (d : ConversationDevice) (ctx : TransitionContext) : comp conn RelayError unit :=
  query (λ db, Ok (latest (id_record_id i) (rd_identities db))) ≫= λ row,
  (match row with
   | None => execute (insert_identity i)
   | Some json => stateful (λ c, (c,
       match validated parse_identity json with
       | Err e => Err e
       | Ok stored => raise_if (negb (bool_decide (stored = i))) RelayConflictError
       end))
   end) ≫= λ _,
  device (cd_device_id d) ≫= λ existing,
  match existing with
  | Some bound => throw_if (negb (bool_decide (bound = d))) RelayConflictError
  | None => execute (insert_relay_device d) ≫= λ _, _audit hmac audit_key (cd_device_id d) "device.bound" (dump_device d) ctx
  end.

Lemma within_provision i d ctx : within (provision_body i d ctx).
Proof.
  unfold provision_body. apply within_bind; [apply within_query|]. intros row. apply within_bind.
  { destruct row; [apply within_pure|apply within_execute]. }
  intros _. apply within_bind; [apply within_query|]. intros [bound|]; [apply within_throw_if|].
  apply within_bind; [apply within_execute|]. intros _. apply within_audit.
Qed.

Lemma provision_keeps i d ctx (c c' : conn) res v : keeps c v → provision i d ctx c = (c', res) →
  keeps c' v ∨ (res = Ok tt ∧ keeps c' (with_device v d)).
Proof.
  intros [Hidle Hv] Hrun. unfold RelayStore.provision in Hrun. destruct (negb _); [injection Hrun as <- <-; by left|].
  apply (transaction_run (provision_body i d ctx)) in Hrun; [|done|apply within_provision].
  destruct res as [u|e]; [|subst; by left]. destruct Hrun as (Hidle' & c1 & Hbody & Hlive).
  unfold provision_body in Hbody. apply bind_inv in Hbody as (row & c2 & [-> _]%query_inv & Hbody).
  apply bind_inv in Hbody as (u1 & c2 & Hid & Hbody).
  assert (represents (live c2) v) as Hv2.
  { destruct row as [json|]; [by injection Hid as <- _|]. apply execute_inv in Hid as (db & Hdb & ->). simpl in *.
    unfold insert_identity in Hdb. destruct (insert_version _ _ _); [|done]. injection Hdb as <-. by apply represents_identities. }
  apply bind_inv in Hbody as (existing & c3 & [-> _]%query_inv & Hbody). destruct existing as [bound|].
  { injection Hbody as <- _. left. split; [done|]. by rewrite Hlive. }
  apply bind_inv in Hbody as (u2 & c3 & (db & Hdb & ->)%execute_inv & Hbody). apply audit_run in Hbody as [a Ha].
  right. split; [by destruct u|]. split; [done|]. rewrite Hlive, Ha. apply represents_audit. simpl in *.
  unfold insert_relay_device in Hdb. destruct (_ || _) eqn:Hchk; [done|]. injection Hdb as <-. bool_to_prop. by apply represents_device.
Qed.

(** ** New conversations *)

Lemma represents_conversation db v id r expiry : represents db v → valid_uuid id → conversation_record_valid r = true →
  cr_record_id r = id → cr_state r = "active" → id ∉ dom (v_conversations v) →
  represents (set_relay (set_canonical db (rd_identities db) (<[(id, 1) := dump_conversation r]> (rd_conversations db)) (rd_events db))
      (rd_devices db) ({[id]} ∪ rd_relay_conversations db) (rd_relay_events db) (<[id := expiry]> (rd_retention db)))
    (with_stream v id r []).
Proof.
  intros [Hd Hdi Hrel Hret Hver Hc Hidx Hev Hor Hoe] Huuid Hvalid Hrid Hact Hnew.
  assert (v_conversations v !! id = None) as Hnone by (by apply not_elem_of_dom).
  split; simpl; try done.
  - by rewrite Hrel, dom_insert_L.
  - by rewrite !dom_insert_L, Hret.
  - intros k x [Hk|[[<- _]|[_ Hk]]%lookup_insert_Some]; [eapply Hver; by left|done|eapply Hver; by right].
  - intros id' r' h' [[<- [= <- <-]]|[Hne Hl]]%lookup_insert_Some.
    + rewrite lookup_insert_eq. split; [done|]. split; try done.
    + rewrite lookup_insert_ne by congruence. by apply Hc.
  - intros eid id' n. rewrite Hidx. split; intros (r' & h' & e & Hl & He & Hrest).
    + exists r', h', e. rewrite lookup_insert_ne by congruence. done.
    + apply lookup_insert_Some in Hl as [[<- [= <- <-]]|[_ Hl]]; [by apply elem_of_nil in He|]. by exists r', h', e.
  - intros id' r' h' e [[<- [= <- <-]]|[_ Hl]]%lookup_insert_Some He; [by apply elem_of_nil in He|]. by eapply Hev.
  - intros k x [[<- _]|[_ Hk]]%lookup_insert_Some; rewrite dom_insert_L; [set_solver|]. apply elem_of_union_r. by eapply Hor.
  - intros k x Hk. destruct (Hoe k x Hk) as (o & Ho & Hx). exists o. split; [rewrite dom_insert_L; set_solver|done].
Qed.

Definition create_body (id : uuid) (title : string) (device_id : uuid) (d : ConversationDevice) (ctx : TransitionContext) :
    comp conn RelayError (option Conversation_) :=
  query (λ db, Ok (latest id (rd_conversations db))) ≫= λ exists_,
  match exists_ with
  | Some _ =>
      conversation id device_id ≫= λ current,
      throw_if (negb (String.eqb (cv_title current) title)) RelayConflictError ≫= λ _,
      mret (Some current)
  | None =>
      let record := new_record id title d ctx in
      throw_if (negb (conversation_record_valid record)) RelayValidationError ≫= λ _,
      execute (insert_conversation record) ≫= λ _,
      execute (insert_relay_conversation id) ≫= λ _,
      execute (insert_retention id (isoformat (shifted (tc_occurred_at ctx) CONVERSATION_RETENTION))) ≫= λ _,
      _audit hmac audit_key id "conversation.created" (dump_conversation record) ctx ≫= λ _,
      mret None
  end.

Lemma within_create id title device_id d ctx : within (create_body id title device_id d ctx).
Proof.
  unfold create_body, conversation. apply within_bind; [apply within_query|]. intros [|]; cbv zeta;
    repeat first [apply within_bind; [|intros ?]|apply within_query|apply within_throw_if|apply within_execute|apply within_audit|apply within_ret].
Qed.

Lemma create_body_run id title device_id d ctx (c c' : conn) out v : represents (live c) v → valid_uuid id →
  create_body id title device_id d ctx c = (c', Ok out) →
  represents (live c') v ∨ ((id ∉ dom (v_conversations v)) ∧ represents (live c') (with_stream v id (new_record id title d ctx) [])).
Proof.
  intros Hv Huuid Hrun. unfold create_body in Hrun. apply bind_inv in Hrun as (row & c1 & [-> _]%query_inv & Hrun).
  destruct row as [json|].
  { apply bind_inv in Hrun as (cur & c1 & [-> _]%query_inv & Hrun). apply bind_inv in Hrun as (u & c1 & [= <- _] & [= <- _]). by left. }
  right. cbv zeta in Hrun. apply bind_inv in Hrun as (u & c1 & [= <- Hvalid%raise_if_ok] & Hrun). apply negb_false_iff in Hvalid.
  apply bind_inv in Hrun as (u1 & c1 & (db1 & Hdb1 & ->)%execute_inv & Hrun).
  apply bind_inv in Hrun as (u2 & c1 & (db2 & Hdb2 & ->)%execute_inv & Hrun).
  apply bind_inv in Hrun as (u3 & c1 & (db3 & Hdb3 & ->)%execute_inv & Hrun).
  apply bind_inv in Hrun as (u4 & c1 & [a Ha]%audit_run & [= <- _]). rewrite Ha. simpl in *.
  unfold insert_conversation, insert_version in Hdb1. simpl cr_record_id in Hdb1. destruct (rd_conversations (live c) !! (id, 1)); [done|].
  injection Hdb1 as <-. unfold insert_relay_conversation in Hdb2. simpl in Hdb2.
  destruct (bool_decide (id ∈ rd_relay_conversations (live c))) eqn:Hin; [done|]. injection Hdb2 as <-. apply bool_decide_eq_false_1 in Hin.
  unfold insert_retention in Hdb3. destruct (_ || _); [done|]. injection Hdb3 as <-.
  rewrite (rp_relay _ _ Hv) in Hin. split; [done|]. apply represents_audit. by apply represents_conversation.
Qed.

Lemma relay_create_keeps id title device_id ctx (c c' : conn) res v : keeps c v → valid_uuid id →
  create id title device_id ctx c = (c', res) →
  keeps c' v ∨ ((id ∉ dom (v_conversations v)) ∧ ∃ d, List.find (λ d, cd_device_id d =? device_id) (v_devices v) = Some d
    ∧ keeps c' (with_stream v id (new_record id title d ctx) [])).
Proof.
  intros [Hidle Hv] Huuid Hrun. unfold RelayStore.create in Hrun. rewrite bind_run in Hrun.
  unfold device, query in Hrun. rewrite (read_device_view _ v) in Hrun by done.
  destruct (List.find _ _) as [d|] eqn:Hfind; [|injection Hrun as <- _; by left].
  rewrite bind_run in Hrun. destruct (transaction _ c) as [c1 r] eqn:Htx.
  assert (c' = c1) as -> by (destruct r as [[current|]|]; by injection Hrun as <- _).
  apply (transaction_run (create_body id title device_id d ctx)) in Htx; [|done|apply within_create].
  destruct r as [out|e]; [|subst; by left]. destruct Htx as (Hidle' & c2 & Hbody & Hlive).
  unfold keeps. rewrite Hlive. destruct (create_body_run _ _ _ _ _ (begin_immediate c) _ _ v Hv Huuid Hbody) as [Hsame|[Hnew Hrep]]; [by left|].
  right. split; [done|]. by exists d.
Qed.

(** ** Removal *)

Definition without (v : relay_view) (id : uuid) : relay_view :=
  {| v_devices := v_devices v; v_conversations := delete id (v_conversations v) |}.

(** No row of the five tables of conversations belongs to the conversation: neither
    the list of relayed conversations, nor its records, deadline, index or events.
    The audit ledger is not among them. *)
Record no_trace (id : uuid) (db : relay_db) : Prop := {
  nt_relay : id ∉ rd_relay_conversations db;
  nt_records : ∀ version, rd_conversations db !! (id, version) = None;
  nt_retention : rd_retention db !! id = None;
  nt_index : ∀ eid row, rd_relay_events db !! eid = Some row → row.1 ≠ id;
  nt_events : ∀ k c, rd_events db !! k = Some c → extract_conversation_id c ≠ Some (uuid_str id);
}.

Lemma represents_no_trace db v id : represents db v → valid_uuid id → id ∉ dom (v_conversations v) → no_trace id db.
Proof.
  intros Hv Huuid Hout. split.
  - by rewrite (rp_relay _ _ Hv).
  - intros n. destruct (rd_conversations db !! (id, n)) eqn:Hl; [|done]. by apply (rp_owned_records _ _ Hv) in Hl.
  - rewrite <- not_elem_of_dom. by rewrite (rp_retention _ _ Hv).
  - intros eid [o n] Hrow Heq. simpl in Heq. subst o. apply (rp_index _ _ Hv) in Hrow as (r & h & e & Hl & _). by apply elem_of_dom_2 in Hl.
  - intros k x Hk Hx. destruct (rp_owned_events _ _ Hv k x Hk) as (o & Ho & Hox). assert (uuid_str id = uuid_str o) as Heq by congruence.
    apply elem_of_dom in Ho as Ho'. destruct Ho' as [[r h] Hl]. destruct (rp_conversation _ _ Hv o r h Hl) as [_ Hok].
    apply uuid_str_inj in Heq; [by subst|done|apply Hok].
Qed.

Lemma stream_conversation devices id r h e : conversation_ok devices id r h → e ∈ h → ce_conversation_id e = id.
Proof.
  intros Hok He. destruct (conversation_inv _ _ _ _ Hok) as (j & _ & Hinv).
  pose proof (proj1 (list.Forall_forall _ _) (ji_belongs _ _ _ Hinv) e He) as [Hc _]. simpl in Hc. by rewrite Hc, (co_id _ _ _ _ Hok).
Qed.

Lemma elem_of_doomed id db rid : rid ∈ map (λ row : uuid * Z * string, row.1.1) (canonical_rows_of id db)
  ↔ ∃ n c, rd_events db !! (rid, n) = Some c ∧ extract_conversation_id c = Some (uuid_str id).
Proof.
  unfold canonical_rows_of. rewrite list_elem_of_fmap. split.
  - intros ([[a n] c] & -> & [Hx Hl]%list_elem_of_filter). apply elem_of_map_to_list in Hl. by exists n, c.
  - intros (n & c & Hl & Hx). exists ((rid, n), c). split; [done|]. apply list_elem_of_filter. by rewrite elem_of_map_to_list.
Qed.

(** The events of another conversation are not removed. *)
Lemma other_stream_kept db v id id' r h e : represents db v → id ∈ dom (v_conversations v) → id' ≠ id →
  v_conversations v !! id' = Some (r, h) → e ∈ h →
  ce_event_id e ∉ map (λ row : uuid * Z * string, row.1.1) (canonical_rows_of id db).
Proof.
  intros Hv Hin Hne Hl He (n & c & Hrow & Hx)%elem_of_doomed. pose proof (rp_versions _ _ Hv (ce_event_id e, n) c (or_introl Hrow)) as Hn. simpl in Hn. subst n.
  rewrite (rp_events _ _ Hv id' r h e Hl He) in Hrow. injection Hrow as <-. rewrite extract_dump_conversation_id in Hx.
  destruct (rp_conversation _ _ Hv id' r h Hl) as [_ Hok]. cbn [cn_conversation_id canonical_of] in Hx.
  rewrite (stream_conversation _ _ _ _ _ Hok He) in Hx. assert (uuid_str id' = uuid_str id) as Heq by congruence.
  apply elem_of_dom in Hin as [[r0 h0] Hl0]. destruct (rp_conversation _ _ Hv id r0 h0 Hl0) as [_ Hok0].
  apply uuid_str_inj in Heq; [done|apply Hok|apply Hok0].
Qed.

Lemma represents_without db v id : represents db v → id ∈ dom (v_conversations v) →
  represents (without_conversation id db) (without v id).
Proof.
  intros Hv Hin. destruct (Hv) as [Hd Hdi Hrel Hret Hver Hc Hidx Hev Hor Hoe]. split; simpl; try done.
  - by rewrite Hrel, dom_delete_L.
  - by rewrite !dom_delete_L, Hret.
  - intros k x [[Hk _]%map_lookup_filter_Some|[Hk _]%map_lookup_filter_Some]; eapply Hver; eauto.
  - intros id' r h [Hne Hl]%lookup_delete_Some. destruct (Hc id' r h Hl) as [Hrow Hok]. split; [|done].
    apply map_lookup_filter_Some. split; [done|]. simpl. congruence.
  - intros eid id' n. rewrite map_lookup_filter_Some, Hidx. simpl. setoid_rewrite lookup_delete_Some. naive_solver.
  - intros id' r h e [Hne Hl]%lookup_delete_Some He. apply map_lookup_filter_Some. split; [by eapply Hev|]. simpl.
    eapply other_stream_kept; eauto.
  - intros k x [Hk Hne]%map_lookup_filter_Some. rewrite dom_delete_L. apply elem_of_difference. split; [by eapply Hor|]. simpl in Hne. set_solver.
  - intros k x [Hk Hkept]%map_lookup_filter_Some. destruct (Hoe k x Hk) as (o & Ho & Hx). exists o. split; [|done].
    rewrite dom_delete_L. apply elem_of_difference. split; [done|]. intros ->%elem_of_singleton. apply Hkept, elem_of_doomed.
    destruct k as [a n]. by exists n, x.
Qed.

(** All that remains of a removed conversation: an entry of the ledger that names it,
    with a keyed hash of its identifier and of how many rows were removed. *)
Definition deletion_entry (ctx : TransitionContext) (e : AuditEntry) (id : uuid) : Prop :=
  ∃ rows : nat, recorded (relay_mutation hmac audit_key id "conversation.deleted"
    (uuid_str id +:+ ":" +:+ pretty (Z.of_nat rows)) ctx) e.
Definition ledger_notes (ctx : TransitionContext) (removed : list uuid) (c c' : conn) : Prop :=
  ∃ l, entries (rd_audit (live c')) ≡ₚ entries (rd_audit (live c)) ++ l ∧ Forall2 (deletion_entry ctx) l removed.

Lemma ledger_notes_nil ctx c : ledger_notes ctx [] c c.
Proof. exists []. by rewrite app_nil_r. Qed.
Lemma ledger_notes_cons ctx id removed c c1 c' :
  ledger_notes ctx [id] c c1 → ledger_notes ctx removed c1 c' → ledger_notes ctx (id :: removed) c c'.
Proof.
  intros (l1 & H1 & F1) (l2 & H2 & F2). exists (l1 ++ l2). split; [by rewrite H2, H1, app_assoc|].
  change (id :: removed) with ([id] ++ removed). by apply Forall2_app.
Qed.

Lemma delete_run id ctx (c c' : conn) res v : keeps c v → id ∈ dom (v_conversations v) → _delete id ctx c = (c', res) →
  match res with
  | Ok n => keeps c' (without v id) ∧ n = Z.of_nat (length (canonical_rows_of id (live c))) ∧ ledger_notes ctx [id] c c'
  | Err _ => c' = c
  end.
Proof.
  intros [Hidle Hv] Hin Hrun. apply transaction_run in Hrun; [|done|].
  2: { repeat (apply within_bind; [first [apply within_query|apply within_execute|apply within_audit]|intros ?]). apply within_ret. }
  destruct res as [n|e]; [|done]. destruct Hrun as (Hidle' & c1 & Hbody & Hlive).
  apply bind_inv in Hbody as (rows & c2 & [-> Hrows]%query_inv & Hbody). injection Hrows as <-.
  apply bind_inv in Hbody as (u & c2 & (db & Hdb & ->)%execute_inv & Hbody). injection Hdb as <-.
  apply bind_inv in Hbody as (u2 & c2 & Haud & [= <- <-]). destruct (audit_run _ _ _ _ _ _ _ _ _ Haud) as [a Ha]. split_and!.
  - split; [done|]. rewrite Hlive, Ha. apply represents_audit. by apply represents_without.
  - done.
  - destruct (audit_entry _ _ _ _ _ _ _ _ _ Haud) as (e & He & Hperm). exists [e]. rewrite Hlive. split; [exact Hperm|].
    constructor; [|constructor]. by eexists.
Qed.

Lemma delete_conversation_run id device_id ctx (c c' : conn) res v : keeps c v → delete_conversation id device_id ctx c = (c', res) →
  match res with
  | Ok n => ∃ r h, v_conversations v !! id = Some (r, h) ∧ member v device_id r = true
      ∧ keeps c' (without v id) ∧ n = Z.of_nat (length (canonical_rows_of id (live c))) ∧ ledger_notes ctx [id] c c'
  | Err _ => c' = c
  end.
Proof.
  intros Hk Hrun. unfold RelayStore.delete_conversation in Hrun. rewrite bind_run in Hrun.
  unfold conversation, query in Hrun. rewrite (read_conversation_view _ v) in Hrun by apply Hk.
  destruct (v_conversations v !! id) as [[r h]|] eqn:Hl; [|by injection Hrun as <- <-].
  destruct (member v device_id r) eqn:Hm; [|by injection Hrun as <- <-].
  apply (delete_run id ctx c c' res v) in Hrun; [|done|by apply elem_of_dom_2 in Hl]. destruct res as [n|e]; [|done].
  exists r, h. naive_solver.
Qed.

(** The conversations whose time is over are removed one by one, until a removal fails. *)
Lemma removals_run ctx l : ∀ (c c' : conn) res v, keeps c v → NoDup l → (∀ id, id ∈ l → id ∈ dom (v_conversations v)) →
  for_each (λ id, _delete id ctx ≫= λ _, mret tt) l c = (c', res) →
  ∃ removed, removed `prefix_of` l ∧ keeps c' (foldl without v removed) ∧ (is_ok res = true → removed = l)
    ∧ ledger_notes ctx removed c c'.
Proof.
  induction l as [|id l IH]; intros c c' res v Hk Hnd Hall Hrun; simpl in Hrun.
  { injection Hrun as <- <-. exists []. split_and!; [done|done|done|apply ledger_notes_nil]. }
  rewrite !bind_run in Hrun. destruct (_delete id ctx c) as [c1 r] eqn:Hdel.
  apply (delete_run id ctx c c1 r v) in Hdel; [|done|apply Hall; set_solver]. destruct r as [n|e].
  - destruct Hdel as (Hk1 & _ & Hnote). apply NoDup_cons in Hnd as [Hout Hnd]. apply (IH _ _ _ _ Hk1 Hnd) in Hrun as (removed & [l' ->] & Hk' & Hok & Hnotes).
    + exists (id :: removed). split_and!; [by exists l'|done| |by eapply ledger_notes_cons]. intros Hr. by rewrite <- (Hok Hr) at 1.
    + intros x Hx. simpl. rewrite dom_delete_L. apply elem_of_difference. split; [apply Hall; set_solver|]. set_solver.
  - injection Hrun as <- <-. subst c1. exists []. split_and!; [apply prefix_nil|done|done|apply ledger_notes_nil].
Qed.

Lemma elem_of_expired now db id : id ∈ expired_conversations now db ↔ ∃ t, rd_retention db !! id = Some t ∧ String.leb t now = true.
Proof.
  unfold expired_conversations. rewrite list_elem_of_fmap. split.
  - intros ([i t] & -> & Hin). rewrite py_sorted_perm in Hin. apply list_elem_of_filter in Hin as [Hle Hin].
    apply elem_of_map_to_list in Hin. by exists t.
  - intros (t & Hl & Hle). exists (id, t). split; [done|]. rewrite py_sorted_perm. apply list_elem_of_filter. by rewrite elem_of_map_to_list.
Qed.
Lemma expired_nodup now db : NoDup (expired_conversations now db).
Proof.
  unfold expired_conversations. rewrite py_sorted_perm. eapply sublist_NoDup; [apply (NoDup_fst_map_to_list (rd_retention db))|].
  apply fmap_sublist, sublist_filter.
Qed.

Lemma expire_run now ctx (c c' : conn) res v : keeps c v → expire now ctx c = (c', res) →
  ∃ removed, removed `prefix_of` expired_conversations (isoformat now) (live c) ∧ keeps c' (foldl without v removed)
    ∧ (∀ n, res = Ok n → removed = expired_conversations (isoformat now) (live c) ∧ n = Z.of_nat (length removed))
    ∧ ledger_notes ctx removed c c'.
Proof.
  intros Hk Hrun. unfold RelayStore.expire in Hrun. rewrite bind_run in Hrun. unfold query in Hrun. rewrite bind_run in Hrun.
  destruct (for_each _ _ c) as [c1 r] eqn:Hfor. apply (removals_run ctx _ c c1 r v) in Hfor as (removed & Hpre & Hk' & Hok & Hnotes); [|done|apply expired_nodup|].
  - exists removed. destruct r as [u|e]; injection Hrun as <- <-; (split_and!; [done|done| |done]); [|done].
    intros n [= <-]. by rewrite (Hok eq_refl).
  - intros id (t & Ht & _)%elem_of_expired. rewrite <- (rp_retention _ _ (proj2 Hk)). by apply elem_of_dom_2 in Ht.
Qed.

(** ** Turns of the assistant *)

Lemma represents_turn db v r : represents db v → cn_conversation_id r ∈ dom (v_conversations v) → rd_events db !! (cn_record_id r, 1) = None →
  represents (set_canonical db (rd_identities db) (rd_conversations db) (<[(cn_record_id r, 1) := dump_canonical r]> (rd_events db))) v.
Proof.
  intros [Hd Hdi Hrel Hret Hver Hc Hidx Hev Hor Hoe] Hin Hnew. split; simpl; try done.
  - intros k x [[[<- _]|[_ Hk]]%lookup_insert_Some|Hk]; [done|eapply Hver; by left|eapply Hver; by right].
  - intros id r' h e Hl He. pose proof (Hev id r' h e Hl He) as Hrow. rewrite lookup_insert_ne; [done|]. intros Heq. congruence.
  - intros k x [[<- <-]|[_ Hk]]%lookup_insert_Some; [|by eapply Hoe]. exists (cn_conversation_id r). by rewrite extract_dump_conversation_id.
Qed.

Lemma save_agent_turn_keeps record_id r (c c' : conn) res v : keeps c v → save_agent_turn record_id r c = (c', res) → keeps c' v.
Proof.
  intros [Hidle Hv] Hrun. apply transaction_run in Hrun; [|done|].
  2: { apply within_bind; [apply within_query|intros [revision l]].
       repeat (apply within_bind; [first [apply within_throw_if|apply within_execute]|intros ?]). apply within_audit. }
  destruct res as [n|e]; [|by subst]. destruct Hrun as (Hidle' & c1 & Hbody & Hlive). split; [done|]. rewrite Hlive. clear Hlive.
  apply bind_inv in Hbody as ([revision l] & c2 & [-> Hread]%query_inv & Hbody).
  apply bind_inv in Hbody as (u & c2 & [= <- _] & Hbody). apply bind_inv in Hbody as (u2 & c2 & (db & Hdb & ->)%execute_inv & Hbody).
  apply audit_run in Hbody as [a ->]. apply represents_audit. simpl in *. unfold insert_canonical, insert_version in Hdb.
  destruct (rd_events (live c) !! _) eqn:Hnew; [done|]. injection Hdb as <-. apply represents_turn; [done| |done].
  unfold read_history in Hread. rewrite (read_conversation_view _ v) in Hread by done. simpl.
  destruct (v_conversations v !! ap_conversation_id r) eqn:Hl; [by apply elem_of_dom_2 in Hl|done].
Qed.

(** ** Histories *)

(** Changes made by other components: enrolment, identities and the ledger. *)
Record elsewhere (c c' : conn) : Prop := {
  el_idle : idle c';
  el_conversations : rd_conversations (live c') = rd_conversations (live c);
  el_events : rd_events (live c') = rd_events (live c);
  el_devices : rd_devices (live c') = rd_devices (live c);
  el_relay : rd_relay_conversations (live c') = rd_relay_conversations (live c);
  el_index : rd_relay_events (live c') = rd_relay_events (live c);
  el_retention : rd_retention (live c') = rd_retention (live c);
}.

Inductive relay_step : conn → conn → Prop :=
| step_elsewhere c c' : elsewhere c c' → relay_step c c'
| step_provision i d ctx c c' res : provision i d ctx c = (c', res) → relay_step c c'
| step_create id title device_id ctx c c' res : valid_uuid id → create id title device_id ctx c = (c', res) → relay_step c c'
| step_append id device_id batch ctx c c' res : append id device_id batch ctx c = (c', res) → relay_step c c'
| step_turn record_id r c c' res : save_agent_turn record_id r c = (c', res) → relay_step c c'
| step_delete id device_id ctx c c' res : delete_conversation id device_id ctx c = (c', res) → relay_step c c'
| step_expire now ctx c c' res : expire now ctx c = (c', res) → relay_step c c'.

Inductive relay_history : conn → Prop :=
| history_new c : idle c → rd_conversations (live c) = ∅ → rd_events (live c) = ∅ → rd_devices (live c) = [] →
    rd_relay_conversations (live c) = ∅ → rd_relay_events (live c) = ∅ → rd_retention (live c) = ∅ → relay_history c
| history_step c c' : relay_history c → relay_step c c' → relay_history c'.

Lemma represents_elsewhere c c' v : elsewhere c c' → represents (live c) v → represents (live c') v.
Proof.
  intros [_ E1 E2 E3 E4 E5 E6] []. by split; rewrite ?E1, ?E2, ?E3, ?E4, ?E5, ?E6.
Qed.

Lemma new_keeps c : idle c → rd_conversations (live c) = ∅ → rd_events (live c) = ∅ → rd_devices (live c) = [] →
  rd_relay_conversations (live c) = ∅ → rd_relay_events (live c) = ∅ → rd_retention (live c) = ∅ →
  keeps c {| v_devices := []; v_conversations := ∅ |}.
Proof.
  intros Hidle E1 E2 E3 E4 E5 E6. split; [done|]. split; rewrite ?E1, ?E2, ?E3, ?E4, ?E5, ?E6; simpl; try done.
  - constructor.
  - by intros k x [Hk|Hk].
  - intros eid id n. split; [done|]. by intros (r & h & e & Hl & _).
Qed.

Lemma step_keeps c c' v : keeps c v → relay_step c c' → ∃ v', keeps c' v'.
Proof.
  intros Hk Hs. destruct Hs as [c c' He|i d ctx c c' res Hrun|id title device_id ctx c c' res Huuid Hrun|id device_id batch ctx c c' res Hrun
    |record_id r c c' res Hrun|id device_id ctx c c' res Hrun|now ctx c c' res Hrun].
  - destruct Hk as [_ Hv]. exists v. split; [apply He|]. by eapply represents_elsewhere.
  - destruct (provision_keeps _ _ _ _ _ _ _ Hk Hrun) as [?|[_ ?]]; eauto.
  - destruct (relay_create_keeps _ _ _ _ _ _ _ _ Hk Huuid Hrun) as [?|(_ & d & _ & ?)]; eauto.
  - apply (relay_append_run hmac audit_key _ _ _ _ _ _ v) in Hrun; [|apply Hk..]. destruct res as [n|e]; [|subst; eauto].
    destruct Hrun as (Hidle' & _ & _ & r & h & _ & _ & Hrep & _). exists (with_stream v id r (h ++ fresh h batch)). by split.
  - exists v. by eapply save_agent_turn_keeps.
  - apply (delete_conversation_run _ _ _ _ _ _ v) in Hrun; [|done]. destruct res as [n|e]; [|subst; eauto].
    destruct Hrun as (r & h & _ & _ & ? & _). eauto.
  - apply (expire_run _ _ _ _ _ v) in Hrun as (removed & _ & ? & _); [|done]. eauto.
Qed.

Lemma history_keeps c : relay_history c → ∃ v, keeps c v.
Proof. induction 1 as [c|c c' _ [v Hv] Hs]; [eexists; by apply new_keeps|by eapply step_keeps]. Qed.

(** ** What clients see *)

(** Reads depend on the devices and the conversation alone. *)
Lemma read_events_same db db' v v' id device_id after limit : represents db v → represents db' v' →
  v_devices v' = v_devices v → v_conversations v' !! id = v_conversations v !! id →
  read_events id device_id after limit db' = read_events id device_id after limit db.
Proof.
  intros Hv Hv' Hd Hc. destruct ((after <? 0) || negb ((1 <=? limit) && (limit <=? MAX_CONVERSATION_EVENTS))) eqn:Hrange.
  - unfold read_events. rewrite Hrange, (read_conversation_view db v), (read_conversation_view db' v') by done.
    unfold member, conversation_of, bound_devices. rewrite Hd, Hc. destruct (v_conversations v !! id) as [[r h]|]; [|done].
    by destruct (match List.find _ _ with Some d => _ | None => _ end).
  - bool_to_prop. rewrite (read_events_view db v), (read_events_view db' v') by (done || lia).
    unfold member. by rewrite Hd, Hc.
Qed.

Lemma read_events_removed db v id device_id after limit : represents db v → id ∉ dom (v_conversations v) →
  read_events id device_id after limit db = Err RelayAccessError.
Proof.
  intros Hv Hout. unfold read_events. rewrite (read_conversation_view db v) by done. apply not_elem_of_dom in Hout. by rewrite Hout.
Qed.

Lemma read_stream db v id r h device_id after limit : represents db v → v_conversations v !! id = Some (r, h) → member v device_id r = true →
  0 <= after → 1 <= limit <= MAX_CONVERSATION_EVENTS →
  read_events id device_id after limit db = Ok (take (Z.to_nat limit) (drop (Z.to_nat after) h)).
Proof. intros Hv Hid Hm Ha Hl. rewrite (read_events_view db v) by done. by rewrite Hid, Hm. Qed.

Lemma read_whole db v id r h device_id : represents db v → v_conversations v !! id = Some (r, h) → member v device_id r = true →
  read_events id device_id 0 MAX_CONVERSATION_EVENTS db = Ok h ∧ map ce_sequence h = seqZ 1 (Z.of_nat (length h)).
Proof.
  intros Hv Hid Hm. destruct (rp_conversation _ _ Hv id r h Hid) as [_ Hok]. split.
  - rewrite (read_stream db v id r h) by (done || unfold MAX_CONVERSATION_EVENTS; lia). change (Z.to_nat 0) with 0%nat.
    rewrite drop_0, take_ge; [done|]. pose proof (co_bounded _ _ _ _ Hok). lia.
  - destruct (conversation_inv _ _ _ _ Hok) as (j & _ & Hinv). exact (ji_sequences _ _ _ Hinv).
Qed.

(** What a batch that was taken does to the streams that clients read. *)
Record batch_taken (id device_id : uuid) (batch : list IncomingEvent) (n : Z) (c c' : conn) : Prop := {
  bt_stream : ∃ h, read_events id device_id 0 MAX_CONVERSATION_EVENTS (live c) = Ok h
    ∧ n = Z.of_nat (length (h ++ fresh h batch)) + 1
    ∧ map ce_sequence (h ++ fresh h batch) = seqZ 1 (Z.of_nat (length (h ++ fresh h batch)))
    ∧ (∀ e, e ∈ batch_events batch → e ∈ h ++ fresh h batch)
    ∧ ∀ after limit, 0 <= after → 1 <= limit <= MAX_CONVERSATION_EVENTS →
        read_events id device_id after limit (live c') = Ok (take (Z.to_nat limit) (drop (Z.to_nat after) (h ++ fresh h batch)));
  bt_own : ∀ i, i ∈ batch → sendable device_id i;
  bt_others : ∀ id' device_id' after limit, id' ≠ id →
    read_events id' device_id' after limit (live c') = read_events id' device_id' after limit (live c);
  bt_again : ∀ ctx, append id device_id batch ctx c' = (c', Ok n);
}.

(** C35. Through every history of the relay's store (devices bound, conversations created,
    removed and expired, turns saved, batches sent), a batch of events is taken as a
    whole or not at all, and once: a refused batch leaves the database as it was; an
    accepted one extends the conversation's stream by exactly the events it lacked, in
    order and numbered without a gap, every page then read is a slice of that stream, no
    other conversation changes, and sending the batch again acknowledges it with the
    same number and writes nothing. *)
Theorem relay_batches_exactly_once (c : conn) : relay_history c →
  ∀ id device_id batch ctx c' res, append id device_id batch ctx c = (c', res) →
  match res with
  | Err _ => c' = c
  | Ok n => batch_taken id device_id batch n c c'
  end.
Proof.
  intros [v [Hidle Hv]]%history_keeps id device_id batch ctx c' res Hrun.
  apply (relay_append_run hmac audit_key _ _ _ _ _ _ v) in Hrun; [|done|done]. destruct res as [n|e]; [|done].
  destruct Hrun as (Hidle' & Hbatch & Hs & r & h & Hid & Hm & Hrep & -> & Hall).
  assert (v_conversations (with_stream v id r (h ++ fresh h batch)) !! id = Some (r, h ++ fresh h batch)) as Hid'
    by (simpl; apply lookup_insert_eq).
  assert (member (with_stream v id r (h ++ fresh h batch)) device_id r = true) as Hm' by done. split.
  - exists h. destruct (read_whole _ _ _ _ _ _ Hv Hid Hm) as [Hread _]. destruct (read_whole _ _ _ _ _ _ Hrep Hid' Hm') as [_ Hseq].
    split_and!; try done. intros after limit Ha Hl. by apply (read_stream _ _ id r _ device_id after limit Hrep Hid').
  - by apply list.Forall_forall.
  - intros id' device' after limit Hne. apply (read_events_same _ _ v (with_stream v id r (h ++ fresh h batch))); try done.
    simpl. by rewrite lookup_insert_ne.
  - intros ctx'. by apply (append_again hmac audit_key id device_id batch ctx' c' (with_stream v id r (h ++ fresh h batch)) r).
Qed.

Lemma without_lookup removed : ∀ v id, v_conversations (foldl without v removed) !! id
  = if bool_decide (id ∈ removed) then None else v_conversations v !! id.
Proof.
  induction removed as [|x removed IH]; intros v id; [done|]. simpl foldl. rewrite IH. simpl.
  destruct (decide (id = x)) as [->|Hne].
  - rewrite lookup_delete_eq. rewrite (bool_decide_eq_true_2 (x ∈ x :: removed)) by set_solver. by destruct (bool_decide _).
  - rewrite lookup_delete_ne by done. rewrite (bool_decide_ext (id ∈ x :: removed) (id ∈ removed)) by set_solver. done.
Qed.
Lemma without_devices removed : ∀ v, v_devices (foldl without v removed) = v_devices v.
Proof. induction removed as [|x removed IH]; intros v; [done|]. simpl. by rewrite IH. Qed.

(** A set of conversations is gone: nothing is left of them, nobody can read them, and
    the others read as before. *)
Definition purged (ids : list uuid) (c c' : conn) : Prop :=
  (∀ id, id ∈ ids → no_trace id (live c'))
  ∧ (∀ id device_id after limit, id ∈ ids → read_events id device_id after limit (live c') = Err RelayAccessError)
  ∧ ∀ id device_id after limit, id ∉ ids →
      read_events id device_id after limit (live c') = read_events id device_id after limit (live c).

Lemma removed_purged c c' v removed : represents (live c) v → (∀ id, id ∈ removed → id ∈ dom (v_conversations v)) →
  represents (live c') (foldl without v removed) → purged removed c c'.
Proof.
  intros Hv Hin Hv'.
  assert (∀ id, id ∈ removed → id ∉ dom (v_conversations (foldl without v removed))) as Hout.
  { intros id Hid. apply not_elem_of_dom. by rewrite without_lookup, bool_decide_eq_true_2. }
  split_and!.
  - intros id Hid. apply (represents_no_trace _ (foldl without v removed)); [done| |by apply Hout].
    destruct (proj1 (elem_of_dom _ _) (Hin id Hid)) as [[r h] Hl]. apply (rp_conversation _ _ Hv id r h Hl).
  - intros id device_id after limit Hid. by apply (read_events_removed _ (foldl without v removed)), Hout.
  - intros id device_id after limit Hid. apply (read_events_same _ _ v (foldl without v removed)); [done|done|apply without_devices|].
    by rewrite without_lookup, bool_decide_eq_false_2.
Qed.

(** C36. A conversation that was deleted, or whose retention is over, leaves nothing behind
    but the proof of its removal: in the five tables of conversations no record, event,
    turn, index row or deadline carries its identifier, every read of it is refused, and
    all other conversations read as before.  The audit ledger only grows, by one entry
    for each removed conversation that names it and carries a keyed hash of its
    identifier and number of rows, not its content.  A refused deletion changes nothing;
    an expiry that fails midway has removed a prefix of the conversations that were due,
    each of them completely. *)
Theorem removed_conversations_leave_nothing (c : conn) : relay_history c →
  (∀ id device_id ctx c' res, delete_conversation id device_id ctx c = (c', res) →
    match res with
    | Err _ => c' = c
    | Ok n => purged [id] c c' ∧ n = Z.of_nat (length (canonical_rows_of id (live c))) ∧ ledger_notes ctx [id] c c'
    end)
  ∧ (∀ now ctx c' res, expire now ctx c = (c', res) →
    ∃ removed, removed `prefix_of` expired_conversations (isoformat now) (live c) ∧ purged removed c c' ∧ ledger_notes ctx removed c c'
      ∧ ∀ n, res = Ok n → n = Z.of_nat (length removed)
          ∧ ∀ id, id ∈ removed ↔ ∃ t, rd_retention (live c) !! id = Some t ∧ String.leb t (isoformat now) = true).
Proof.
  intros [v Hk]%history_keeps. split.
  - intros id device_id ctx c' res Hrun. apply (delete_conversation_run _ _ _ _ _ _ v) in Hrun; [|done]. destruct res as [n|e]; [|done].
    destruct Hrun as (r & h & Hl & _ & Hk' & -> & Hnote). split; [|done]. apply (removed_purged _ _ v [id]); [apply Hk| |apply Hk'].
    intros x ->%list_elem_of_singleton. by apply elem_of_dom_2 in Hl.
  - intros now ctx c' res Hrun. apply (expire_run _ _ _ _ _ v) in Hrun as (removed & Hpre & Hk' & Hok & Hnotes); [|done].
    exists removed. split_and!; [done| |done|].
    + apply (removed_purged _ _ v removed); [apply Hk| |apply Hk']. intros id Hid. rewrite <- (rp_retention _ _ (proj2 Hk)).
      destruct Hpre as [rest Hpre]. assert (id ∈ expired_conversations (isoformat now) (live c)) as Hex by (rewrite Hpre; set_solver).
      apply elem_of_expired in Hex as (t & Ht & _). by apply elem_of_dom_2 in Ht.
    + intros n Hn. destruct (Hok n Hn) as [-> ->]. split; [done|]. intros id. apply elem_of_expired.
Qed.
End store.

(** * The relay's store on concrete conversations

    A text form of the canonical models that stands in for their JSON, a device that is
    bound, talks and deletes, and the theorems on histories there. *)

#[export] Instance DeviceKind_eq_dec : EqDecision DeviceKind.
Proof. solve_decision. Defined.
#[export] Instance DeviceKind_countable : Countable DeviceKind.
Proof. refine (inj_countable (index_in [IOS; MAC; WEB; CHANNEL]) (λ n, [IOS; MAC; WEB; CHANNEL] !! n) _). by intros []. Defined.
#[export] Instance ConversationEventKind_countable : Countable ConversationEventKind.
Proof.
  refine (inj_countable (index_in [TRANSCRIPT_PARTIAL; TRANSCRIPT_FINAL; ATTACHMENT; TOOL_RESULT; CANCELLATION; RESUME; ERROR])
    (λ n, [TRANSCRIPT_PARTIAL; TRANSCRIPT_FINAL; ATTACHMENT; TOOL_RESULT; CANCELLATION; RESUME; ERROR] !! n) _). by intros [].
Defined.

#[export] Instance ConversationEventPayload_countable : Countable ConversationEventPayload.
Proof.
  refine (inj_countable (λ p, match p with
     | TranscriptPartial t x => [encode 0; encode t; encode x]
     | TranscriptFinal t x => [encode 1; encode t; encode x]
     | Attachment a m s r => [encode 2; encode a; encode m; encode s; encode r]
     | ToolResult i n s r => [encode 3; encode i; encode n; encode (bool_decide (s = ToolOk)); encode r]
     | Cancellation t r => [encode 4; encode t; encode r]
     | Resume t r => [encode 5; encode t; encode r]
     | ConversationError c m r => [encode 6; encode c; encode m; encode r]
     end)
    (λ l, match l with
     | tag :: fields =>
         n ← decode (A := Z) tag;
         match n, fields with
         | 0, [t; x] => t ← decode t; x ← decode x; Some (TranscriptPartial t x)
         | 1, [t; x] => t ← decode t; x ← decode x; Some (TranscriptFinal t x)
         | 2, [a; m; s; r] => a ← decode a; m ← decode m; s ← decode s; r ← decode r; Some (Attachment a m s r)
         | 3, [i; n; s; r] => i ← decode i; n ← decode n; s ← decode s; r ← decode r;
                              Some (ToolResult i n (if s : bool then ToolOk else ToolError) r)
         | 4, [t; r] => t ← decode t; r ← decode r; Some (Cancellation t r)
         | 5, [t; r] => t ← decode t; r ← decode r; Some (Resume t r)
         | 6, [c; m; r] => c ← decode c; m ← decode m; r ← decode r; Some (ConversationError c m r)
         | _, _ => None
         end
     | [] => None
     end) _).
  intros []; cbv beta iota; rewrite decode_encode; cbn [mbind option_bind]; rewrite !decode_encode; try done. by destruct status.
Defined.

#[export] Instance ConversationEvent_countable : Countable ConversationEvent.
Proof.
  refine (inj_countable (λ r,
     [encode (ce_event_id r); encode (ce_conversation_id r); encode (ce_participant_id r); encode (ce_device_id r);
      encode (ce_sequence r); encode (ce_occurred_at r); encode (ce_kind r); encode (ce_payload r)])
    (λ l, match l with
          | [x0; x1; x2; x3; x4; x5; x6; x7] =>
              x0 ← decode x0; x1 ← decode x1; x2 ← decode x2; x3 ← decode x3; x4 ← decode x4; x5 ← decode x5;
              x6 ← decode x6; x7 ← decode x7; Some (Build_ConversationEvent x0 x1 x2 x3 x4 x5 x6 x7)
          | _ => None
          end) _).
  intros []. cbv beta iota. by rewrite !decode_encode.
Defined.

#[export] Instance ConversationDevice_countable : Countable ConversationDevice.
Proof.
  refine (inj_countable' (λ d, (cd_device_id d, cd_participant_id d, cd_kind d, cd_name d, cd_created_at d))
    (λ '(a, b, c, d, e), Build_ConversationDevice a b c d e) _). by intros [].
Defined.
#[export] Instance CanonicalIdentity_countable : Countable CanonicalIdentity.
Proof.
  refine (inj_countable' (λ i, (id_record_id i, id_created_at i, id_state i, id_display_name i, id_is_primary i))
    (λ '(a, b, c, d, e), Build_CanonicalIdentity a b c d e) _). by intros [].
Defined.
#[export] Instance ConversationRecord_eq_dec : EqDecision ConversationRecord.
Proof. unfold EqDecision, uuid. solve_decision. Defined.
#[export] Instance ConversationRecord_countable : Countable ConversationRecord.
Proof.
  refine (inj_countable' (λ r, (cr_record_id r, cr_created_at r, cr_state r, cr_title r, cr_participant_ids r))
    (λ '(a, b, c, d, e), Build_ConversationRecord a b c d e) _). by intros [].
Defined.
#[export] Instance CanonicalEvent_eq_dec : EqDecision CanonicalEvent.
Proof. unfold EqDecision, uuid. solve_decision. Defined.
#[export] Instance CanonicalEvent_countable : Countable CanonicalEvent.
Proof.
  refine (inj_countable' (λ r, (cn_record_id r, cn_created_at r, cn_state r, cn_conversation_id r, cn_sequence r, cn_event_type r, cn_payload r))
    (λ '(a, b, c, d, e, f, g), Build_CanonicalEvent a b c d e f g) _). by intros [].
Defined.

Module RelayText.
#[export] Instance codec : RelayCodec := {
  dump_identity := encode_text;
  parse_identity := decode_text;
  dump_conversation := encode_text;
  parse_conversation s := r ← decode_text s; if conversation_record_valid r then Some r else None;
  dump_canonical := encode_text;
  parse_canonical s := r ← decode_text s; if canonical_event_valid r then Some r else None;
  dump_device := encode_text;
  parse_device := decode_text;
  dump_event e := String "{" (encode_text e);
  parse_event s := match s with String _ s' => decode_text s' | "" => None end;
  extract_conversation_id s := uuid_str ∘ cn_conversation_id <$> decode_text s;
  extract_event_type s := cn_event_type <$> decode_text s;
  extract_sequence s := cn_sequence <$> decode_text s;
}.
#[export] Instance laws : RelayCodecLaws.
Proof.
  split; intros r; try intros Hv; cbn [codec parse_conversation dump_conversation parse_canonical dump_canonical parse_device dump_device
    parse_event dump_event extract_conversation_id extract_event_type extract_sequence]; rewrite ?decode_encode_text; cbn [mbind option_bind fmap option_fmap option_map];
    rewrite ?Hv; try done.
Defined.
End RelayText.
#[local] Existing Instances RelayText.codec RelayText.laws.

Module RelayDemo.
Fixpoint checksum (acc : N) (s : string) : N :=
  match s with
  | EmptyString => acc
  | String c s' => checksum (N.land (acc * 31 + N_of_ascii c) 65535) s'
  end.
Definition mac (key payload : string) : string :=
  let n := checksum 7 payload in String (ascii_of_N (N.shiftr n 8)) (String (ascii_of_N (N.land n 255)) "").
Definition ctx : TransitionContext :=
  {| tc_actor := "owner"; tc_correlation_id := "c"; tc_occurred_at := utc_datetime 50 |}.
Definition later : TransitionContext :=
  {| tc_actor := "owner"; tc_correlation_id := "d"; tc_occurred_at := utc_datetime 60 |}.

Definition owner : CanonicalIdentity :=
  {| id_record_id := 7; id_created_at := 0; id_state := "active"; id_display_name := "Owner"; id_is_primary := true |}.
Definition phone : ConversationDevice :=
  {| cd_device_id := 1; cd_participant_id := 7; cd_kind := IOS; cd_name := "phone"; cd_created_at := 0 |}.
Definition empty_db : relay_db :=
  {| rd_enrolled := {[1]}; rd_identities := ∅; rd_conversations := ∅; rd_events := ∅; rd_devices := [];
     rd_relay_conversations := ∅; rd_relay_events := ∅; rd_retention := ∅; rd_audit := empty_ledger |}.
Definition empty : connection relay_db := Connection empty_db empty_db false.

Definition said (id sequence : Z) (final : bool) (text : string) : IncomingEvent :=
  {| in_event := {| ce_event_id := id; ce_conversation_id := 5; ce_participant_id := 7; ce_device_id := 1; ce_sequence := sequence;
       ce_occurred_at := 51; ce_kind := if final then TRANSCRIPT_FINAL else TRANSCRIPT_PARTIAL;
       ce_payload := if final then TranscriptFinal 30 text else TranscriptPartial 30 text |};
     in_aware := true |}.
Definition first_part : list IncomingEvent := [said 101 1 false "buy"].
(** The client repeats what it sent and goes on. *)
Definition resent : list IncomingEvent := [said 101 1 false "buy"; said 102 2 true "buy milk"].

Abbreviation provision := (provision mac "k").
Abbreviation create := (create mac "k").
Abbreviation append := (RelayStore.append mac "k").
Abbreviation expire := (expire mac "k").
Abbreviation delete_conversation := (delete_conversation mac "k").
Definition bound : connection relay_db := (provision owner phone ctx empty).1.
Definition opened : connection relay_db := (create 5 "errands" 1 ctx bound).1.
Definition started : connection relay_db := (append 5 1 first_part ctx opened).1.
Definition continued : connection relay_db := (append 5 1 resent later started).1.

Lemma opened_history : relay_history mac "k" opened.
Proof.
  apply (history_step mac "k" bound).
  - apply (history_step mac "k" empty); [by apply history_new|].
    apply (step_provision mac "k" owner phone ctx empty bound (provision owner phone ctx empty).2). apply surjective_pairing.
  - apply (step_create mac "k" 5 "errands" 1 ctx bound opened (create 5 "errands" 1 ctx bound).2); [split; vm_compute; congruence|apply surjective_pairing].
Defined.
Lemma started_history : relay_history mac "k" started.
Proof.
  apply (history_step mac "k" opened); [exact opened_history|]. apply (step_append mac "k" 5 1 first_part ctx opened started (append 5 1 first_part ctx opened).2).
  apply surjective_pairing.
Defined.

Lemma resent_run : (append 5 1 resent later started).2 = Ok 3.
Proof. vm_compute. reflexivity. Qed.

Lemma relay_batches_exactly_once_witness :
  append 5 1 resent later started = (continued, Ok 3) ∧ append 5 1 resent ctx continued = (continued, Ok 3).
Proof.
  assert (append 5 1 resent later started = (continued, Ok 3)) as Hrun.
  { unfold continued. rewrite <- resent_run. apply surjective_pairing. }
  split; [exact Hrun|].
  exact (bt_again _ _ _ _ _ _ _ _ (relay_batches_exactly_once mac "k" started started_history 5 1 resent later continued (Ok 3) Hrun) ctx).
Defined.

Definition much_later : datetime := utc_datetime (50 + CONVERSATION_RETENTION).

Lemma removed_conversations_leave_nothing_witness :
  (delete_conversation 5 1 later started).2 = Ok 1 ∧ no_trace 5 (live (delete_conversation 5 1 later started).1)
  ∧ (expire much_later later started).2 = Ok 1 ∧ no_trace 5 (live (expire much_later later started).1).
Proof.
  destruct (removed_conversations_leave_nothing mac "k" started started_history) as [Hdel Hexp].
  destruct (delete_conversation 5 1 later started) as [c' res] eqn:Hrun.
  destruct (expire much_later later started) as [c2 res2] eqn:Hrun2.
  assert (res = Ok 1) as -> by (apply (f_equal snd) in Hrun; vm_compute in Hrun; congruence).
  assert (res2 = Ok 1) as -> by (apply (f_equal snd) in Hrun2; vm_compute in Hrun2; congruence).
  split_and!; [done| |done|].
  - destruct (Hdel _ _ _ _ _ Hrun) as [Hp _]. apply Hp, list_elem_of_singleton. reflexivity.
  - destruct (Hexp _ _ _ _ Hrun2) as (removed & _ & Hp & _ & Hok). destruct (Hok 1 eq_refl) as [_ Hin]. apply Hp, Hin.
    eexists. split; vm_compute; reflexivity.
Defined.
End RelayDemo.
