(* ===== verification/RelayApi.v ===== *)
(** * Authenticated requests of the relay ([relay_auth.py])

    A request carries a proof: who sent it, an identifier of its own, when it was issued
    and an Ed25519 signature over the method, the target and the digest of the body.
    SHA-256, Ed25519 and the JSON of devices are parameters. *)

From stdpp Require Import prelude base strings list gmap pretty.
From Stdlib Require Import ZArith QArith Ascii Lia.
From S2P Require Import Prelude PyTime PyText PyUuid PyFloat Transactions Consumption Enrollment Authority AuditLedger CalendarSandbox Conversation RelayStore.
#[local] Open Scope string_scope.
#[local] Open Scope list_scope.
#[local] Open Scope Z_scope.

Definition MAX_REQUEST_AGE : Z := 60.
Definition FUTURE_CLOCK_TOLERANCE : Z := 5.

Inductive RequestError :=
| RequestAuthenticationError
| RequestOverflowError.        (** an [int] that no [float] holds *)

Record RequestProof := {
  pf_device_id : uuid;
  pf_request_id : uuid;
  pf_issued_at : Z;
  pf_signature : string;
}.

Fixpoint has_line_break (s : string) : bool :=
  match s with
  | "" => false
  | String c s' => (Ascii.eqb c (ascii_of_nat 10) || Ascii.eqb c (ascii_of_nat 13)) || has_line_break s'
  end.
Fixpoint is_ascii (s : string) : bool :=
  match s with "" => true | String c s' => (nat_of_ascii c <? 128)%nat && is_ascii s' end.

(** [datetime.timestamp()] of an aware time: the microseconds divided by a million. *)
Definition timestamp (d : datetime) : Q := fl (Qmake (utc d) 1000000).
(** [timestamp - issued_at]: the [int] becomes a [float] first. *)
Definition request_age (now : datetime) (issued_at : Z) : option Q :=
  if 2 ^ 1024 - 2 ^ 970 <=? Z.abs issued_at then None else Some (fsub (timestamp now) (float_int issued_at)).

Section authenticator.
Context {P : Type} `{DevicePersistence P} {S : Type} `{ConsumptionStore S}.
Context (parse_device : string → option Device) (sha256_hex : string → string).
Context (public_key_ok : string → bool) (ed25519_verify : string → string → string → bool).

Definition signing_fields (proof : RequestProof) (method target body : string) : list string :=
  ["lifeos.request.v1"; method; target; uuid_str (pf_device_id proof); uuid_str (pf_request_id proof);
   pretty (pf_issued_at proof); sha256_hex body].
(** [None]: a line break in a field, or text that is not ASCII. *)
Definition request_bytes (proof : RequestProof) (method target body : string) : option string :=
  let fields := signing_fields proof method target body in
  let joined := join (String (ascii_of_nat 10) "") fields in
  if existsb has_line_break fields || negb (is_ascii joined) then None else Some joined.

(** The part of [verify] whose exceptions all become one. *)
Definition request_signed (reg : DeviceRegistry P) (proof : RequestProof) (method target body peer : string) : bool :=
  match verify_mtls_identity parse_device reg (uuid_str (pf_device_id proof)) peer with
  | Err _ => false
  | Ok d =>
      match dv_approval_public_key d, request_bytes proof method target body with
      | Some key, Some message => signature_valid public_key_ok ed25519_verify key (pf_signature proof) message
      | _, _ => false
      end
  end.

Definition request_key (request_id : uuid) : ConsumptionKey := ("relay.request", uuid_str request_id).

Definition fresh_age (age : Q) : bool :=
  Qle_bool (inject_Z (- FUTURE_CLOCK_TOLERANCE)) age && Qle_bool age (inject_Z MAX_REQUEST_AGE).

Definition verify (reg : DeviceRegistry P) (now : datetime) (proof : RequestProof) (method target body peer : string) :
    comp S RequestError uuid := λ s,
  match request_age now (pf_issued_at proof) with
  | None => (s, Err RequestOverflowError)
  | Some age =>
      if negb (fresh_age age) then (s, Err RequestAuthenticationError)
      else if negb (request_signed reg proof method target body peer) then (s, Err RequestAuthenticationError)
      else match consume [request_key (pf_request_id proof)] s with
           | (s', true) => (s', Ok (pf_device_id proof))
           | (s', false) => (s', Err RequestAuthenticationError)
           end
  end.
End authenticator.

(** ** The signed text determines the request *)

Lemma no_breaks fields : existsb has_line_break fields = false → Forall (λ f, free_of (ascii_of_nat 10) f = true) fields.
Proof.
  assert (∀ f, has_line_break f = false → free_of (ascii_of_nat 10) f = true) as Hone.
  { induction f as [|c f IH]; [done|]. cbn [has_line_break free_of]. intros [[Hc _]%orb_false_iff Hf]%orb_false_iff. by rewrite Hc, IH. }
  induction fields as [|f fields IH]; [constructor|]. simpl. intros [Hf Hl]%orb_false_iff. constructor; auto.
Qed.

(** The signed text determines every field of the request. *)
Lemma request_bytes_inj sha256_hex p q m t b m' t' b' x :
  request_bytes sha256_hex p m t b = Some x → request_bytes sha256_hex q m' t' b' = Some x →
  signing_fields sha256_hex p m t b = signing_fields sha256_hex q m' t' b'.
Proof.
  unfold request_bytes. cbv zeta. intros H1 H2.
  destruct (existsb _ (signing_fields _ p m t b) || _) eqn:E1; [done|].
  destruct (existsb _ (signing_fields _ q m' t' b') || _) eqn:E2; [done|].
  apply orb_false_iff in E1 as [E1 _]. apply orb_false_iff in E2 as [E2 _].
  apply (join_inj (ascii_of_nat 10)); [done|by apply no_breaks|by apply no_breaks|]. congruence.
Qed.

(** * The relay's conversation routes ([relay_api.py])

    Every handler reads a bounded body, authenticates the exact bytes, and only then
    parses them and calls the store.  The handlers share one encrypted store: its device
    table, its consumption table and the conversation store.  What other components keep
    in it is [S], of which these handlers use the consumption alone.  The stream of a
    request is its chunks and whether it ended in time; a client that disconnects gets
    no answer and is not modelled.  Pydantic's JSON of the bodies is a parameter. *)

Definition MAX_BODY_BYTES : Z := 256 * 1024.
Definition CONVERSATION_CONTRACT_VERSION : string := "1.0.0".

Inductive ApiError :=
| HTTPException (status : Z) (detail : string)
| InternalServerError.          (** an exception no handler translates *)

(** A request as the server presents it; header names are in lower case, and the peer's
    fingerprint is there when the TLS adapter set it. *)
Record Request := {
  rq_scheme : string;
  rq_peer : option string;
  rq_method : string;
  rq_raw_path : string;
  rq_query_string : string;
  rq_headers : list (string * string);
  rq_chunks : list string;
  rq_in_time : bool;
}.

(** ** Reading a request *)

Fixpoint body_chunks (size : Z) (chunks : list string) (in_time : bool) : result ApiError string :=
  match chunks with
  | [] => if in_time then Ok "" else Err (HTTPException 408 "request body timed out")
  | chunk :: rest =>
      let size := size + Z.of_nat (String.length chunk) in
      if MAX_BODY_BYTES <? size then Err (HTTPException 413 "request too large")
      else match body_chunks size rest in_time with Ok s => Ok (chunk +:+ s) | Err e => Err e end
  end.
Definition _body (r : Request) : result ApiError string := body_chunks 0 (rq_chunks r) (rq_in_time r).

Definition getlist (name : string) (r : Request) : list string := map snd (filter (λ h, h.1 = name) (rq_headers r)).
(** The value of a header that occurs once. *)
Definition sole_header (name : string) (r : Request) : option string :=
  match getlist name r with [v] => Some v | _ => None end.

(** [int(text)] refuses more than 4300 digits. *)
Fixpoint digit_count (s : string) : Z :=
  match s with "" => 0 | String c s' => (match digit_value c with Some _ => 1 | None => 0 end) + digit_count s' end.
Definition header_int (s : string) : option Z := if 4300 <? digit_count s then None else py_int s.

(** [None]: the exceptions that the caller turns into a refusal. *)
Definition _request_identity (r : Request) : option (RequestProof * string * string) :=
  match rq_peer r with
  | None => None
  | Some peer =>
      if negb (String.eqb (rq_scheme r) "https") then None
      else
        device ← sole_header "x-lifeos-device" r;
        request ← sole_header "x-lifeos-request-id" r;
        issued ← sole_header "x-lifeos-issued-at" r;
        signature ← sole_header "x-lifeos-signature" r;
        device_id ← uuid_of_text device;
        request_id ← uuid_of_text request;
        issued_at ← header_int issued;
        if negb (is_ascii (rq_raw_path r)) || negb (is_ascii (rq_query_string r)) then None
        else Some ({| pf_device_id := device_id; pf_request_id := request_id; pf_issued_at := issued_at;
                      pf_signature := signature |}, peer,
                   rq_raw_path r +:+ (if String.eqb (rq_query_string r) "" then "" else String "?" (rq_query_string r)))
  end.

(** The times the clock shows to the authenticator and to the handler. *)
Record clock_readings := { ck_verified : datetime; ck_context : datetime }.

(** ** State and bodies *)

Record relay_state (P S : Type) := { rs_devices : P; rs_services : S; rs_store : connection relay_db }.
Arguments rs_devices {P S}.
Arguments rs_services {P S}.
Arguments rs_store {P S}.
Arguments Build_relay_state {P S}.

Record CreateConversation := { cc_conversation_id : uuid; cc_title : string }.
Definition create_conversation_valid (c : CreateConversation) : bool :=
  (1 <=? Z.of_nat (String.length (cc_title c))) && (Z.of_nat (String.length (cc_title c)) <=? 200).
Definition event_batch_valid (events : list IncomingEvent) : bool :=
  (1 <=? Z.of_nat (length events)) && (Z.of_nat (length events) <=? 100).

(** The fields of a JSON body, [None] when it does not have the model's shape. *)
Class RelayBodies := {
  json_create : string → option CreateConversation;
  json_batch : string → option (list IncomingEvent);
}.
Class RelayBodiesLaws `{RelayBodies} := {
  json_create_uuid : ∀ s c, json_create s = Some c → 0 <= cc_conversation_id c < 2 ^ 128;
}.
Definition parse_create `{RelayBodies} (s : string) : option CreateConversation :=
  c ← json_create s; if create_conversation_valid c then Some c else None.
Definition parse_batch `{RelayBodies} (s : string) : option (list IncomingEvent) :=
  b ← json_batch s; if event_batch_valid b then Some b else None.

Record EventAcknowledgment := { ak_acknowledged_event_ids : list uuid; ak_next_sequence : Z }.
Record EventPage := { pg_events : list ConversationEvent; pg_cursor : Z }.

(** ** Handlers *)

Section routes.
Context {P : Type} `{DevicePersistence P} {S : Type} `{ConsumptionStore S}.
Context (hmac : string → string → string) (audit_key : string) `{RelayCodec} `{RelayBodies}.
Context (parse_device : string → option Device) (sha256_hex : string → string).
Context (public_key_ok : string → bool) (ed25519_verify : string → string → string → bool).
Abbreviation R A := (comp (relay_state P S) ApiError A).

(** [DeviceRegistry(clock, store.devices)] *)
Definition registry (s : relay_state P S) : DeviceRegistry P :=
  {| reg_persistence := Some (rs_devices s); reg_devices := ∅; reg_by_fingerprint := ∅ |}.
Definition set_services (s : relay_state P S) (x : S) : relay_state P S :=
  {| rs_devices := rs_devices s; rs_services := x; rs_store := rs_store s |}.
Definition set_store (s : relay_state P S) (c : connection relay_db) : relay_state P S :=
  {| rs_devices := rs_devices s; rs_services := rs_services s; rs_store := c |}.

(** Run an operation of the conversation store; [translate] is the [except] clauses. *)
Definition on_store {A : Type} (translate : RelayError → ApiError) (m : comp (connection relay_db) RelayError A) : R A := λ s,
  match m (rs_store s) with
  | (c, Ok a) => (set_store s c, Ok a)
  | (c, Err e) => (set_store s c, Err (translate e))
  end.

Definition unauthenticated : ApiError := HTTPException 401 "device authentication failed".

Definition request_context (proof : RequestProof) (ck : clock_readings) : TransitionContext :=
  {| tc_actor := uuid_str (pf_device_id proof); tc_correlation_id := uuid_str (pf_request_id proof);
     tc_occurred_at := ck_context ck |}.

Definition authenticate (r : Request) (ck : clock_readings) : R (string * uuid * TransitionContext) := λ s,
  match _body r with
  | Err e => (s, Err e)
  | Ok raw =>
      if negb (bool_decide (head (getlist "x-lifeos-contract-version" r) = Some CONVERSATION_CONTRACT_VERSION))
      then (s, Err (HTTPException 426 "unsupported conversation contract"))
      else match _request_identity r with
           | None => (s, Err unauthenticated)
           | Some (proof, peer, target) =>
               match verify parse_device sha256_hex public_key_ok ed25519_verify (registry s) (ck_verified ck) proof
                       (rq_method r) target raw peer (rs_services s) with
               | (x, Ok device_id) => (set_services s x, Ok (raw, device_id, request_context proof ck))
               | (x, Err RequestAuthenticationError) => (set_services s x, Err unauthenticated)
               | (x, Err RequestOverflowError) => (set_services s x, Err InternalServerError)
               end
           end
  end.

(** A pydantic [ValidationError] of the store is caught with the ones of the body. *)
Definition write_error (invalid conflict : string) (e : RelayError) : ApiError :=
  match e with
  | RelayValidationError => HTTPException 422 invalid
  | RelayAccessError => HTTPException 403 "conversation unavailable"
  | RelayConflictError | RelayIntegrityError | RelayLedgerError AuditIntegrityError => HTTPException 409 conflict
  | RelayOperationalError | RelayIndexError | RelayLedgerError _ => InternalServerError
  end.
Definition access_error (e : RelayError) : ApiError :=
  match e with RelayAccessError => HTTPException 403 "conversation unavailable" | _ => InternalServerError end.

Definition create_route (r : Request) (ck : clock_readings) : R Conversation_ :=
  authenticate r ck ≫= λ '(raw, device_id, ctx),
  match parse_create raw with
  | None => throw (HTTPException 422 "invalid conversation")
  | Some value =>
      on_store (write_error "invalid conversation" "conversation conflict")
        (create hmac audit_key (cc_conversation_id value) (cc_title value) device_id ctx)
  end.

Definition append_route (conversation_id : uuid) (r : Request) (ck : clock_readings) : R EventAcknowledgment :=
  authenticate r ck ≫= λ '(raw, device_id, ctx),
  match parse_batch raw with
  | None => throw (HTTPException 422 "invalid event batch")
  | Some batch =>
      on_store (write_error "invalid event batch" "event sequence or content conflict; resume before retrying")
        (RelayStore.append hmac audit_key conversation_id device_id batch ctx) ≫= λ next_sequence,
      mret {| ak_acknowledged_event_ids := map (λ i, ce_event_id (in_event i)) batch; ak_next_sequence := next_sequence |}
  end.

Definition last_sequence (events : list ConversationEvent) (after : Z) : Z :=
  match last events with Some e => ce_sequence e | None => after end.
(** The bounds of the query are checked before the handler runs. *)
Definition read_route (conversation_id : uuid) (after limit : Z) (r : Request) (ck : clock_readings) : R EventPage :=
  if (after <? 0) || negb ((1 <=? limit) && (limit <=? 100)) then throw (HTTPException 422 "invalid request parameters")
  else
    authenticate r ck ≫= λ '(_, device_id, _),
    on_store access_error (events conversation_id device_id after limit) ≫= λ events,
    mret {| pg_events := events; pg_cursor := last_sequence events after |}.

Definition delete_route (conversation_id : uuid) (r : Request) (ck : clock_readings) : R unit :=
  authenticate r ck ≫= λ '(raw, device_id, ctx),
  if negb (String.eqb raw "") then throw (HTTPException 422 "deletion request body must be empty")
  else on_store access_error (delete_conversation hmac audit_key conversation_id device_id ctx) ≫= λ _, mret tt.
End routes.
