(* ===== verification/RelayApiSpec.v ===== *)
(** * Admission of requests, and what clients read back

    A request has an effect only when its device, its signature over the exact bytes and
    its age are good and its identifier was never used; an identifier admits one request.
    What was acknowledged is read back by following the cursor. *)

From stdpp Require Import countable prelude base strings list gmap pretty.
From Stdlib Require Import ZArith QArith Ascii Lia.
From S2P Require Import Prelude PyTime PyText PyUuid PyFloat Transactions Consumption Enrollment Authority AuditLedger Conversation RelayStore RelaySpec RelayHistory RelayApi.
#[local] Open Scope string_scope.
#[local] Open Scope list_scope.
#[local] Open Scope Z_scope.

Section routes.
Context {P : Type} `{DevicePersistence P} {S : Type} `{ConsumptionLaws S}.
Context (hmac : string → string → string) (audit_key : string) `{RelayCodec} `{RelayBodies}.
Context (parse_device : string → option Device) (sha256_hex : string → string).
Context (public_key_ok : string → bool) (ed25519_verify : string → string → string → bool).
Abbreviation state := (relay_state P S).
Abbreviation authenticate := (authenticate parse_device sha256_hex public_key_ok ed25519_verify).

(** ** Admission *)

(** What the relay knows of a request it admits: the device is enrolled under the
    certificate of the connection and signed this method, target and body a short
    time ago, and the request's identifier is new. *)
Record admission (r : Request) (ck : clock_readings) (s : state) (proof : RequestProof) (raw : string) : Prop := {
  ad_body : _body r = Ok raw;
  ad_signed : ∃ peer target d key message,
    _request_identity r = Some (proof, peer, target)
    ∧ verify_mtls_identity parse_device (registry s) (uuid_str (pf_device_id proof)) peer = Ok d
    ∧ dv_approval_public_key d = Some key
    ∧ request_bytes sha256_hex proof (rq_method r) target raw = Some message
    ∧ signature_valid public_key_ok ed25519_verify key (pf_signature proof) message = true;
  ad_fresh : ∃ age, request_age (ck_verified ck) (pf_issued_at proof) = Some age ∧ fresh_age age = true;
  ad_unused : request_key (pf_request_id proof) ∉ consumed (rs_services s);
}.

Lemma request_signed_inv (reg : DeviceRegistry P) proof method target body peer :
  request_signed parse_device sha256_hex public_key_ok ed25519_verify reg proof method target body peer = true →
  ∃ d key message, verify_mtls_identity parse_device reg (uuid_str (pf_device_id proof)) peer = Ok d
    ∧ dv_approval_public_key d = Some key ∧ request_bytes sha256_hex proof method target body = Some message
    ∧ signature_valid public_key_ok ed25519_verify key (pf_signature proof) message = true.
Proof.
  unfold request_signed. destruct (verify_mtls_identity _ _ _ _) as [d|e]; [|done].
  destruct (dv_approval_public_key d) as [key|] eqn:Hk; [|done]. destruct (request_bytes _ _ _ _ _) as [m|]; [|done]. intros Hs. by exists d, key, m.
Qed.

(** Authentication admits a request and marks it used, or changes nothing. *)
Lemma authenticate_run r ck (s s' : state) res : store_ok (rs_services s) → authenticate r ck s = (s', res) →
  match res with
  | Ok (raw, device_id, ctx) => ∃ proof, admission r ck s proof raw ∧ device_id = pf_device_id proof ∧ ctx = request_context proof ck
      ∧ store_ok (rs_services s') ∧ consumed (rs_services s') = consumed (rs_services s) ∪ {[request_key (pf_request_id proof)]}
      ∧ rs_store s' = rs_store s ∧ rs_devices s' = rs_devices s
  | Err _ => s' = s
  end.
Proof.
  intros Hok Hrun. unfold RelayApi.authenticate in Hrun. destruct (_body r) as [raw|e] eqn:Hbody; [|injection Hrun as <- <-; done].
  destruct (negb _); [injection Hrun as <- <-; done|]. destruct (_request_identity r) as [[[proof peer] target]|] eqn:Hid; [|injection Hrun as <- <-; done].
  assert (∀ x, set_services s x = s ↔ x = rs_services s) as Hset by (intros x; destruct s; unfold set_services; simpl; split; congruence).
  unfold verify in Hrun. destruct (request_age _ _) as [age|] eqn:Hage.
  2: { injection Hrun as <- <-. by apply Hset. }
  destruct (negb (fresh_age age)) eqn:Hfresh; [injection Hrun as <- <-; by apply Hset|].
  destruct (negb (request_signed _ _ _ _ _ _ _ _ _ _)) eqn:Hsig; [injection Hrun as <- <-; by apply Hset|].
  apply negb_false_iff in Hfresh, Hsig. apply request_signed_inv in Hsig as (d & key & m & Hd & Hkey & Hm & Hv).
  destruct (consume_spec [request_key (pf_request_id proof)] (rs_services s) Hok (NoDup_singleton _)) as (Hb & Hok' & Hcons & Hsame).
  destruct (consume _ _) as [x b]. simpl in *. destruct b; injection Hrun as <- <-.
  - symmetry in Hb. apply bool_decide_eq_true_1 in Hb as Hnew. rewrite Forall_singleton in Hnew. rewrite Hb in Hcons.
    exists proof. split_and!; try done; [|cbn [rs_services set_services]; rewrite Hcons; simpl; by rewrite union_empty_r_L].
    split; [done| |by exists age|done]. by exists peer, target, d, key, m.
  - apply Hset. by apply Hsame.
Qed.

(** ** Requests through the handlers *)

Inductive api_op :=
| ApiCreate (r : Request) (ck : clock_readings)
| ApiAppend (conversation_id : uuid) (r : Request) (ck : clock_readings)
| ApiRead (conversation_id : uuid) (after limit : Z) (r : Request) (ck : clock_readings)
| ApiDelete (conversation_id : uuid) (r : Request) (ck : clock_readings).
Definition op_request (op : api_op) : Request :=
  match op with ApiCreate r _ | ApiAppend _ r _ | ApiRead _ _ _ r _ | ApiDelete _ r _ => r end.
Definition op_clock (op : api_op) : clock_readings :=
  match op with ApiCreate _ ck | ApiAppend _ _ ck | ApiRead _ _ _ _ ck | ApiDelete _ _ ck => ck end.

Definition forget {A : Type} (m : comp state ApiError A) : comp state ApiError unit := m ≫= λ _, mret tt.
Definition api_do (op : api_op) : comp state ApiError unit :=
  match op with
  | ApiCreate r ck => forget (create_route hmac audit_key parse_device sha256_hex public_key_ok ed25519_verify r ck)
  | ApiAppend id r ck => forget (append_route hmac audit_key parse_device sha256_hex public_key_ok ed25519_verify id r ck)
  | ApiRead id after limit r ck => forget (read_route parse_device sha256_hex public_key_ok ed25519_verify id after limit r ck)
  | ApiDelete id r ck => forget (delete_route hmac audit_key parse_device sha256_hex public_key_ok ed25519_verify id r ck)
  end.

(** What runs after authentication leaves devices and the other services alone. *)
Definition beyond_store {A : Type} (m : comp state ApiError A) : Prop :=
  ∀ s s' res, m s = (s', res) → rs_services s' = rs_services s ∧ rs_devices s' = rs_devices s.
Lemma beyond_throw {A : Type} e : beyond_store (A := A) (throw e).
Proof. by intros s s' res [= <- <-]. Qed.
Lemma beyond_ret {A : Type} (a : A) : beyond_store (mret a).
Proof. by intros s s' res [= <- <-]. Qed.
Lemma beyond_on_store {A : Type} t (m : comp (connection relay_db) RelayError A) : beyond_store (on_store t m).
Proof. intros s s' res. unfold on_store. destruct (m (rs_store s)) as [c [a|e]]; by intros [= <- <-]. Qed.
Lemma beyond_bind {A B : Type} (m : comp state ApiError A) (f : A → comp state ApiError B) :
  beyond_store m → (∀ a, beyond_store (f a)) → beyond_store (m ≫= f).
Proof.
  intros Hm Hf s s' res. rewrite bind_run. destruct (m s) as [s1 [a|e]] eqn:Hrun; [|intros [= <- <-]; by eapply Hm].
  intros Hrun'. destruct (Hm _ _ _ Hrun) as [Ha Hb], (Hf a _ _ _ Hrun') as [Hc Hd]. split; congruence.
Qed.

(** The handlers, after what they check first. *)
Definition handled (op : api_op) : option (string * uuid * TransitionContext → comp state ApiError unit) :=
  match op with
  | ApiRead id after limit _ _ =>
      if (after <? 0) || negb ((1 <=? limit) && (limit <=? 100)) then None
      else Some (λ '(_, device_id, _), on_store access_error (events id device_id after limit) ≫= λ _, mret tt)
  | ApiCreate _ _ => Some (λ '(raw, device_id, ctx),
      match parse_create raw with
      | None => throw (HTTPException 422 "invalid conversation")
      | Some value => on_store (write_error "invalid conversation" "conversation conflict")
          (create hmac audit_key (cc_conversation_id value) (cc_title value) device_id ctx) ≫= λ _, mret tt
      end)
  | ApiAppend id _ _ => Some (λ '(raw, device_id, ctx),
      match parse_batch raw with
      | None => throw (HTTPException 422 "invalid event batch")
      | Some batch => on_store (write_error "invalid event batch" "event sequence or content conflict; resume before retrying")
          (RelayStore.append hmac audit_key id device_id batch ctx) ≫= λ _, mret tt
      end)
  | ApiDelete id _ _ => Some (λ '(raw, device_id, ctx),
      if negb (String.eqb raw "") then throw (HTTPException 422 "deletion request body must be empty")
      else on_store access_error (delete_conversation hmac audit_key id device_id ctx) ≫= λ _, mret tt)
  end.

Lemma api_do_handled op (s : state) :
  api_do op s = match handled op with
                | None => (s, Err (HTTPException 422 "invalid request parameters"))
                | Some f => (authenticate (op_request op) (op_clock op) ≫= f) s
                end.
Proof.
  destruct op as [r ck|id r ck|id after limit r ck|id r ck]; unfold api_do, forget, handled, op_request, op_clock.
  - unfold create_route. rewrite !bind_run. destruct (authenticate r ck s) as [s1 [[[raw dev] ctx]|e]]; [|done].
    destruct (parse_create raw); [|done]. rewrite bind_run. by destruct (on_store _ _ s1) as [? [?|?]].
  - unfold append_route. rewrite !bind_run. destruct (authenticate r ck s) as [s1 [[[raw dev] ctx]|e]]; [|done].
    destruct (parse_batch raw); [|done]. rewrite !bind_run. by destruct (on_store _ _ s1) as [? [?|?]].
  - unfold read_route. destruct (_ || _); [done|]. rewrite !bind_run. destruct (authenticate r ck s) as [s1 [[[raw dev] ctx]|e]]; [|done].
    rewrite !bind_run. by destruct (on_store _ _ s1) as [? [?|?]].
  - unfold delete_route. rewrite !bind_run. destruct (authenticate r ck s) as [s1 [[[raw dev] ctx]|e]]; [|done].
    destruct (negb _); [done|]. rewrite !bind_run. by destruct (on_store _ _ s1) as [? [?|?]].
Qed.

Lemma handled_beyond op f x : handled op = Some f → beyond_store (f x).
Proof.
  destruct x as [[raw dev] ctx]. destruct op as [r ck|id r ck|id after limit r ck|id r ck]; unfold handled.
  - intros [= <-]. destruct (parse_create raw); [|apply beyond_throw]. apply beyond_bind; [apply beyond_on_store|intros ?; apply beyond_ret].
  - intros [= <-]. destruct (parse_batch raw); [|apply beyond_throw]. apply beyond_bind; [apply beyond_on_store|intros ?; apply beyond_ret].
  - destruct (_ || _); [done|]. intros [= <-]. apply beyond_bind; [apply beyond_on_store|intros ?; apply beyond_ret].
  - intros [= <-]. destruct (negb _); [apply beyond_throw|]. apply beyond_bind; [apply beyond_on_store|intros ?; apply beyond_ret].
Qed.

(** The identifier of a request that a handler admits. *)
Definition admitted (op : api_op) (s : state) : option uuid :=
  match handled op, (authenticate (op_request op) (op_clock op) s).2, _request_identity (op_request op) with
  | Some _, Ok _, Some (proof, _, _) => Some (pf_request_id proof)
  | _, _, _ => None
  end.

Lemma api_do_cases op (s s' : state) res : store_ok (rs_services s) → api_do op s = (s', res) →
  (admitted op s = None ∧ s' = s ∧ is_ok res = false)
  ∨ ∃ proof raw, admitted op s = Some (pf_request_id proof) ∧ admission (op_request op) (op_clock op) s proof raw
      ∧ store_ok (rs_services s') ∧ rs_devices s' = rs_devices s
      ∧ consumed (rs_services s') = consumed (rs_services s) ∪ {[request_key (pf_request_id proof)]}.
Proof.
  intros Hok. rewrite api_do_handled. unfold admitted. destruct (handled op) as [f|] eqn:Hf; [|intros [= <- <-]; by left].
  rewrite bind_run. destruct (authenticate _ _ s) as [s1 r] eqn:Hauth. pose proof (authenticate_run _ _ _ _ _ Hok Hauth) as Hrun.
  destruct r as [x|e]; [|subst; intros [= <- <-]; by left]. intros Hrest. right.
  destruct (handled_beyond op f x Hf _ _ _ Hrest) as [Hs Hd].
  destruct x as [[raw dev] ctx]. destruct Hrun as (proof & Had & -> & -> & Hok1 & Hcons & Hst & Hdev).
  exists proof, raw. destruct (ad_signed _ _ _ _ _ Had) as (peer & target & d & key & m & Hid & _). simpl. rewrite Hid.
  rewrite Hs, Hd, Hcons, Hdev. done.
Qed.

(** ** Histories of requests *)

(** The identifiers that were admitted, in order.  Other components may change what they
    keep in the store at any time, but a consumed key stays consumed. *)
Inductive api_history : state → list uuid → Prop :=
| api_new s : store_ok (rs_services s) → api_history s []
| api_elsewhere s s' log : api_history s log → store_ok (rs_services s') →
    consumed (rs_services s) ⊆ consumed (rs_services s') → api_history s' log
| api_request op s s' res log : api_history s log → api_do op s = (s', res) →
    api_history s' (log ++ match admitted op s with Some id => [id] | None => [] end).

Lemma api_history_used s log : api_history s log →
  store_ok (rs_services s) ∧ NoDup log ∧ ∀ id, id ∈ log → request_key id ∈ consumed (rs_services s).
Proof.
  induction 1 as [s Hok|s s' log _ (Hok & Hnd & Hin) Hok' Hsub|op s s' res log _ (Hok & Hnd & Hin) Hrun].
  - split_and!; [done|constructor|]. by intros id ?%elem_of_nil.
  - split_and!; [done..|]. intros id Hid. by apply Hsub, Hin.
  - destruct (api_do_cases _ _ _ _ Hok Hrun) as [(-> & -> & _)|(proof & raw & -> & Had & Hok' & _ & Hcons)].
    + by rewrite app_nil_r.
    + split_and!; [done| |].
      * apply NoDup_app. split_and!; [done| |apply NoDup_singleton]. intros id Hid ->%list_elem_of_singleton.
        by apply (ad_unused _ _ _ _ _ Had), Hin.
      * rewrite Hcons. intros id [Hid| ->%list_elem_of_singleton]%elem_of_app; [|set_solver]. apply elem_of_union_l. by apply Hin.
Qed.

(** C37. Every request identifier admits at most one request in the life of a relay, across
    restarts and whatever else uses the same store; and a handler has an effect only for
    an admitted request: a device enrolled under the connection's certificate signed
    exactly this method, target and body, the signature is at most a minute old, and the
    identifier was not used before.  A request that is not admitted changes nothing, and
    an admitted one marks its identifier used even when the handler then refuses it. *)
Theorem relay_requests_single_use (s : state) log : api_history s log →
  NoDup log
  ∧ ∀ op s' res, api_do op s = (s', res) →
      (admitted op s = None ∧ s' = s ∧ is_ok res = false)
      ∨ ∃ proof raw, admitted op s = Some (pf_request_id proof) ∧ (pf_request_id proof ∉ log)
          ∧ admission (op_request op) (op_clock op) s proof raw
          ∧ request_key (pf_request_id proof) ∈ consumed (rs_services s').
Proof.
  intros (Hok & Hnd & Hin)%api_history_used. split; [done|]. intros op s' res Hrun.
  destruct (api_do_cases _ _ _ _ Hok Hrun) as [?|(proof & raw & Hadm & Had & _ & _ & Hcons)]; [by left|]. right.
  exists proof, raw. split_and!; [done| |done|].
  - intros Hlog. by apply (ad_unused _ _ _ _ _ Had), Hin.
  - rewrite Hcons. set_solver.
Qed.

(** ** Following the cursor *)

Section cursor.
Context `{!RelayCodecLaws}.

Inductive read_outcome :=
| ReadAll (events : list ConversationEvent)   (** a page was empty *)
| RequestsUsedUp                              (** no page was empty yet *)
| ReadRefused (e : ApiError) (r : Request) (ck : clock_readings) (s : state).

(** A client that sends its signed requests to the handler one after the other, each
    with the cursor of the page before, until a page is empty. *)
Fixpoint read_pages (requests : list (Request * clock_readings)) (id : uuid) (after limit : Z) (s : state) : read_outcome :=
  match requests with
  | [] => RequestsUsedUp
  | (r, ck) :: rest =>
      match read_route parse_device sha256_hex public_key_ok ed25519_verify id after limit r ck s with
      | (_, Err e) => ReadRefused e r ck s
      | (s', Ok page) =>
          match pg_events page with
          | [] => ReadAll []
          | l => match read_pages rest id (pg_cursor page) limit s' with
                 | ReadAll more => ReadAll (l ++ more)
                 | other => other
                 end
          end
      end
  end.

(** The device whose proof the request carries. *)
Definition from_device (device_id : uuid) (r : Request) : Prop :=
  ∀ proof peer target, _request_identity r = Some (proof, peer, target) → pf_device_id proof = device_id.

(** The handler reads what the store holds for the device, or refuses the request. *)
Lemma read_route_run id after limit r ck (s : state) device_id :
  store_ok (rs_services s) → from_device device_id r → 0 <= after → 1 <= limit <= 100 →
  (∃ e, (authenticate r ck s).2 = Err e
     ∧ read_route parse_device sha256_hex public_key_ok ed25519_verify id after limit r ck s = (s, Err e))
  ∨ ∃ s1, store_ok (rs_services s1) ∧ rs_store s1 = rs_store s
      ∧ read_route parse_device sha256_hex public_key_ok ed25519_verify id after limit r ck s
        = (s1, match read_events id device_id after limit (live (rs_store s)) with
               | Ok l => Ok {| pg_events := l; pg_cursor := last_sequence l after |}
               | Err e => Err (access_error e)
               end).
Proof.
  intros Hok Hdev Ha Hl. unfold read_route.
  assert ((after <? 0) || negb ((1 <=? limit) && (limit <=? 100)) = false) as ->.
  { apply orb_false_iff. split; [lia|]. apply negb_false_iff, andb_true_iff. split; lia. }
  rewrite bind_run. destruct (authenticate r ck s) as [s1 [[[raw dev] ctx]|e]] eqn:Hauth.
  2:{ left. exists e. pose proof (authenticate_run _ _ _ _ _ Hok Hauth) as ->. done. }
  right. destruct (authenticate_run _ _ _ _ _ Hok Hauth) as (proof & Had & -> & _ & Hok1 & _ & Hst & _).
  destruct (ad_signed _ _ _ _ _ Had) as (peer & target & _ & _ & _ & Hid & _). rewrite (Hdev _ _ _ Hid).
  exists s1. split_and!; [done|done|]. rewrite bind_run. unfold on_store, events, query. rewrite Hst.
  assert (set_store s1 (rs_store s) = s1) as -> by (rewrite <- Hst; by destruct s1).
  by destruct (read_events _ _ _ _ _).
Qed.

Lemma last_sequence_page h (k n : nat) after : map ce_sequence h = seqZ 1 (Z.of_nat (length h)) → (k < length h)%nat → (0 < n)%nat →
  last_sequence (take n (drop k h)) after = Z.of_nat (k + length (take n (drop k h))).
Proof.
  intros Hn Hk Hpos. unfold last_sequence. rewrite last_lookup. set (l := take n (drop k h)).
  assert (0 < length l)%nat as Hl by (unfold l; rewrite length_take, length_drop; lia).
  destruct (l !! pred (length l)) as [e|] eqn:He; [|apply lookup_ge_None in He; lia].
  assert (h !! (k + pred (length l))%nat = Some e) as Hh.
  { rewrite <- lookup_drop. unfold l in He at 1. apply lookup_take_Some in He as [He _]. done. }
  rewrite (numbered_lookup h _ e Hn Hh). lia.
Qed.

(** A page in the middle of the stream, with the rest of it. *)
Lemma page_rest {X} (h : list X) (k n : nat) : (k <= length h)%nat →
  take n (drop k h) ++ drop (k + length (take n (drop k h))) h = drop k h.
Proof.
  intros Hk. rewrite <- drop_drop, length_take, length_drop. rewrite <- (take_drop n (drop k h)) at 3. f_equal.
  destruct (Nat.le_gt_cases n (length h - k)).
  - by rewrite Nat.min_l.
  - rewrite Nat.min_r by lia. rewrite !drop_ge; [done|rewrite length_drop; lia|rewrite length_drop; lia].
Qed.

Lemma read_pages_stream v id r h device_id limit :
  v_conversations v !! id = Some (r, h) → member v device_id r = true → 1 <= limit <= 100 →
  ∀ requests k (s : state), store_ok (rs_services s) → represents (live (rs_store s)) v → (k <= length h)%nat →
  Forall (λ q, from_device device_id q.1) requests →
  match read_pages requests id (Z.of_nat k) limit s with
  | ReadAll l => l = drop k h
  | RequestsUsedUp => (length requests <= length h - k)%nat
  | ReadRefused e q ck s1 => (q, ck) ∈ requests ∧ rs_store s1 = rs_store s ∧ (authenticate q ck s1).2 = Err e
  end.
Proof.
  intros Hid Hm Hlimit. induction requests as [|[q ck] requests IH]; intros k s Hok Hv Hk Hf; [simpl; lia|].
  apply Forall_cons in Hf as [Hq Hf]. cbn [read_pages].
  destruct (read_route_run id (Z.of_nat k) limit q ck s device_id Hok Hq ltac:(lia) Hlimit) as [(e & He & ->)|(s1 & Hok1 & Hst & ->)].
  { split_and!; [left|done|done]. }
  rewrite (read_stream _ v id r h) by (done || unfold MAX_CONVERSATION_EVENTS; lia). rewrite Nat2Z.id. cbn [pg_events pg_cursor].
  destruct (decide (k = length h)) as [->|Hne]; [by rewrite drop_all, take_nil|].
  destruct (read_whole _ _ _ _ _ _ Hv Hid Hm) as [_ Hn].
  pose proof (last_sequence_page h k (Z.to_nat limit) (Z.of_nat k) Hn ltac:(lia) ltac:(lia)) as Hlast.
  pose proof (page_rest h k (Z.to_nat limit) Hk) as Hrest.
  assert (length (take (Z.to_nat limit) (drop k h)) = Z.to_nat limit `min` (length h - k))%nat as Hlen
    by by rewrite length_take, length_drop.
  destruct (take (Z.to_nat limit) (drop k h)) as [|e l] eqn:Hpage; [simpl in Hlen; lia|]. rewrite Hlast.
  rewrite <- Hst in Hv. specialize (IH (k + length (e :: l))%nat s1 Hok1 Hv ltac:(lia) Hf). rewrite Hst in IH.
  destruct (read_pages requests _ _ _ s1) as [more| |e' q' ck' s2].
  - by rewrite IH.
  - simpl in Hlen |- *. simpl in IH. lia.
  - destruct IH as (? & ? & ?). split_and!; [by right|done|done].
Qed.

(** C38. What the relay acknowledges can be read back: after a batch was acknowledged over
    HTTP there is one stream, numbered from 1 without a gap and with every identifier
    once, that holds every event of the batch as it was sent; the acknowledgment names
    exactly those events and the number after the last of the stream.  A client of the
    same device that then sends signed read requests, each with the cursor the handler
    returned with the page before and with pages of any size, reads exactly this stream:
    when a page is empty it has read it all, the requests are used up only when they are
    no more than its events, and a request is refused only by authentication. *)
Theorem acknowledged_events_read_back id r ck (s s' : state) ack : store_ok (rs_services s) → relay_history hmac audit_key (rs_store s) →
  append_route hmac audit_key parse_device sha256_hex public_key_ok ed25519_verify id r ck s = (s', Ok ack) →
  ∃ proof raw batch stream, admission r ck s proof raw ∧ parse_batch raw = Some batch
    ∧ map ce_sequence stream = seqZ 1 (Z.of_nat (length stream)) ∧ NoDup (map ce_event_id stream)
    ∧ (∀ e, e ∈ map in_event batch → e ∈ stream)
    ∧ ak_acknowledged_event_ids ack = map ce_event_id (map in_event batch)
    ∧ ak_next_sequence ack = Z.of_nat (length stream) + 1
    ∧ ∀ limit requests, 1 <= limit <= 100 → Forall (λ q, from_device (pf_device_id proof) q.1) requests →
        match read_pages requests id 0 limit s' with
        | ReadAll l => l = stream
        | RequestsUsedUp => (length requests <= length stream)%nat
        | ReadRefused e q qck s1 => (q, qck) ∈ requests ∧ rs_store s1 = rs_store s' ∧ (authenticate q qck s1).2 = Err e
        end.
Proof.
  intros Hok Hhist Hrun. destruct (history_keeps hmac audit_key _ Hhist) as [v [Hidle Hv]]. unfold append_route in Hrun.
  apply bind_inv in Hrun as ([[raw device_id] ctx] & s1 & Hauth & Hrun).
  apply authenticate_run in Hauth as (proof & Had & -> & -> & Hok1 & _ & Hst & _); [|done].
  destruct (parse_batch raw) as [batch|] eqn:Hbatch; [|done].
  apply bind_inv in Hrun as (n & s2 & Happ & Hret). injection Hret as <- <-. unfold on_store in Happ. rewrite Hst in Happ.
  destruct (RelayStore.append _ _ _ _ _ _ (rs_store s)) as [c [m|e]] eqn:Hrun; [|done]. injection Happ as <- <-.
  apply (relay_append_run hmac audit_key _ _ _ _ _ _ v) in Hrun; [|done|done].
  destruct Hrun as (_ & _ & _ & rec & h & Hid & Hm & Hrep & -> & Hall).
  assert (v_conversations (with_stream v id rec (h ++ fresh h batch)) !! id = Some (rec, h ++ fresh h batch)) as Hid'
    by (simpl; apply lookup_insert_eq).
  destruct (read_whole _ _ _ _ _ (pf_device_id proof) Hrep Hid' Hm) as [_ Hseq].
  exists proof, raw, batch, (h ++ fresh h batch).
  split_and!; [done|done|done|by eapply (stream_ids _ _ _ _ _ Hrep Hid')|done|by rewrite map_map|done|].
  intros limit requests Hl Hf.
  pose proof (read_pages_stream _ id rec (h ++ fresh h batch) _ limit Hid' Hm Hl requests 0 (set_store s1 c) Hok1 Hrep ltac:(lia) Hf) as Hread.
  change (Z.of_nat 0) with 0 in Hread. rewrite Nat.sub_0_r in Hread. exact Hread.
Qed.
End cursor.
End routes.

(** * Requests to the relay, concretely

    A phone signs its requests to a relay whose hash and signature scheme are small
    stand-ins; the theorems on admission and on the cursor there, and a header that the
    authenticator does not refuse but fails on. *)

#[local] Existing Instances RelayText.codec RelayText.laws.

#[export] Instance IncomingEvent_eq_dec : EqDecision IncomingEvent.
Proof. solve_decision. Defined.
#[export] Instance IncomingEvent_countable : Countable IncomingEvent.
Proof. refine (inj_countable' (λ i, (in_event i, in_aware i)) (λ '(e, a), Build_IncomingEvent e a) _). by intros []. Defined.

Module ApiDemo.
(** JSON stands for the text form of its values. *)
#[export] Instance bodies : RelayBodies := {
  json_create s := '(id, title) ← decode_text (A := Z * string) s;
                   if (0 <=? id) && (id <? 2 ^ 128) then Some (Build_CreateConversation id title) else None;
  json_batch := decode_text;
}.
#[export] Instance bodies_laws : RelayBodiesLaws.
Proof.
  split. intros s c Hs. unfold json_create, bodies in Hs. destruct (decode_text s) as [[id title]|]; [|done]. simpl in Hs.
  destruct (0 <=? id) eqn:H1; [|done]. destruct (id <? 2 ^ 128) eqn:H2; [|done]. injection Hs as <-. simpl. lia.
Qed.

Definition sha256_hex (s : string) : string := tohex (RelayDemo.mac "" s).
Definition key_ok (key : string) : bool := true.
Definition verified (key signature message : string) : bool := String.eqb signature message.

Definition phone : Device := new_device (uuid_str 1) "fp" "owner" (Some "0a") 0.
Definition devices : EncryptedDevicePersistence :=
  let table := [{| row_device_id := uuid_str 1; row_fingerprint := "fp"; row_record := encode_text phone |}] in
  Connection table table false.
Abbreviation state := (relay_state EncryptedDevicePersistence MemoryConsumptionStore).
(** The phone is bound and has opened a conversation. *)
Definition initial : state := Build_relay_state devices ∅ RelayDemo.opened.

Definition clock : clock_readings :=
  {| ck_verified := utc_datetime (50 * second); ck_context := utc_datetime (50 * second + 1) |}.
Definition proof (request_id : uuid) : RequestProof :=
  {| pf_device_id := 1; pf_request_id := request_id; pf_issued_at := 45; pf_signature := "" |}.
Definition signed (p : RequestProof) (method path body : string) : RequestProof :=
  {| pf_device_id := pf_device_id p; pf_request_id := pf_request_id p; pf_issued_at := pf_issued_at p;
     pf_signature := tohex (default "" (request_bytes sha256_hex p method path body)) |}.
Definition request (p : RequestProof) (method path body : string) : Request :=
  {| rq_scheme := "https"; rq_peer := Some "fp"; rq_method := method; rq_raw_path := path; rq_query_string := "";
     rq_headers := [("x-lifeos-contract-version", "1.0.0"); ("x-lifeos-device", uuid_str (pf_device_id p));
       ("x-lifeos-request-id", uuid_str (pf_request_id p)); ("x-lifeos-issued-at", pretty (pf_issued_at p));
       ("x-lifeos-signature", pf_signature p)];
     rq_chunks := [body]; rq_in_time := true |}.
Definition sent (request_id : uuid) (method path body : string) : Request :=
  request (signed (proof request_id) method path body) method path body.

Definition batch_request (request_id : uuid) (batch : list IncomingEvent) : Request :=
  sent request_id "POST" "/v1/conversations/5/events" (encode_text batch).

Abbreviation append_route := (append_route RelayDemo.mac "k" decode_text sha256_hex key_ok verified).
Abbreviation api_do := (api_do RelayDemo.mac "k" decode_text sha256_hex key_ok verified).
Abbreviation api_history := (api_history RelayDemo.mac "k" decode_text sha256_hex key_ok verified).
Abbreviation admitted := (admitted RelayDemo.mac "k" decode_text sha256_hex key_ok verified).

Definition sending : api_op := ApiAppend 5 (batch_request 900 RelayDemo.resent) clock.
Definition after_sending : state := (api_do sending initial).1.

(** The same bytes a second time are refused, although the device and the signature are good. *)
Lemma replayed_request : (api_do sending initial).2 = Ok tt ∧ admitted sending initial = Some 900
  ∧ (api_do sending after_sending).2 = Err unauthenticated ∧ admitted sending after_sending = None.
Proof. split; [|split; [|split]]; vm_compute; reflexivity. Qed.

Lemma relay_requests_single_use_witness :
  ∃ log, api_history after_sending log ∧ log = [900] ∧ (api_do sending after_sending).1 = after_sending.
Proof.
  exists [900]. assert (api_history after_sending [900]) as Hh.
  { change [900] with ([] ++ [900]). destruct replayed_request as (_ & Hadm & _).
    replace [900] with (match admitted sending initial with Some id => [id] | None => [] end) by (by rewrite Hadm).
    apply (api_request _ _ _ _ _ _ sending initial after_sending (api_do sending initial).2); [by apply api_new|apply surjective_pairing]. }
  split_and!; [exact Hh|reflexivity|].
  destruct (relay_requests_single_use RelayDemo.mac "k" decode_text sha256_hex key_ok verified after_sending [900] Hh) as [_ Hdo].
  destruct replayed_request as (_ & _ & _ & Hno).
  destruct (Hdo sending _ _ (surjective_pairing _)) as [(_ & Hsame & _)|(pf & raw & Hadm & _)]; [exact Hsame|].
  rewrite Hno in Hadm. discriminate Hadm.
Defined.

Definition acknowledged : result ApiError EventAcknowledgment := (append_route 5 (batch_request 900 RelayDemo.resent) clock initial).2.

(** Three signed requests for the events, each with its own identifier. *)
Definition reading (request_id : uuid) : Request * clock_readings :=
  (sent request_id "GET" "/v1/conversations/5/events" "", clock).
Abbreviation read_pages := (read_pages decode_text sha256_hex key_ok verified).

Lemma acknowledged_events_read_back_witness :
  ∃ ack stream, acknowledged = Ok ack ∧ ak_acknowledged_event_ids ack = [101; 102] ∧ length stream = 2%nat
    ∧ read_pages [reading 910; reading 911; reading 912] 5 0 1 after_sending = ReadAll stream.
Proof.
  assert (acknowledged = Ok {| ak_acknowledged_event_ids := [101; 102]; ak_next_sequence := 3 |}) as Hack by (vm_compute; reflexivity).
  destruct (append_route 5 (batch_request 900 RelayDemo.resent) clock initial) as [s' res] eqn:Hrun.
  assert (res = acknowledged) as -> by (unfold acknowledged; by rewrite Hrun). rewrite Hack in Hrun.
  assert (s' = after_sending) as ->.
  { unfold after_sending, RelayApiSpec.api_do, sending, forget. rewrite bind_run. by rewrite Hrun. }
  assert (store_ok (S := MemoryConsumptionStore) (rs_services initial)) as Hok by exact I.
  destruct (acknowledged_events_read_back RelayDemo.mac "k" decode_text sha256_hex key_ok verified 5 _ _ initial after_sending _ Hok RelayDemo.opened_history Hrun)
    as (pf & raw & batch & stream & Had & _ & _ & _ & _ & _ & Hnext & Hread).
  eexists _, stream. split_and!; [exact Hack|reflexivity|simpl in Hnext; lia|].
  specialize (Hread 1 [reading 910; reading 911; reading 912] ltac:(lia)).
  assert (match read_pages [reading 910; reading 911; reading 912] 5 0 1 after_sending with ReadAll _ => true | _ => false end = true)
    as Hall by (vm_compute; reflexivity).
  destruct (read_pages [reading 910; reading 911; reading 912] 5 0 1 after_sending) as [l| |]; [|discriminate Hall..].
  f_equal. apply Hread.
  assert (pf_device_id pf = 1) as ->.
  { destruct (ad_signed _ _ _ _ _ _ _ _ _ Had) as (peer & target & d & key & m & Hid & _). vm_compute in Hid. by injection Hid as <-. }
  repeat (constructor; [intros p peer target Hid; vm_compute in Hid; by injection Hid as <-|]). constructor.
Defined.

(** A time of issue that no [float] holds is not refused: subtracting it raises, and no
    handler translates that. *)
Definition huge : Request :=
  let p := {| pf_device_id := 1; pf_request_id := 901; pf_issued_at := 10 ^ 400; pf_signature := "" |} in
  request (signed p "POST" "/v1/conversations" "") "POST" "/v1/conversations" "".
Lemma huge_issue_time_unhandled :
  (authenticate decode_text sha256_hex key_ok verified huge clock initial).2 = Err InternalServerError.
Proof. vm_compute. reflexivity. Qed.
End ApiDemo.
