(* ===== verification/PyUrl.v ===== *)
(** * URLs as [urllib.parse.urlsplit] reads them

    The parts of [SplitResult] that the program uses: scheme, user information, host
    and port.  What [ipaddress] accepts, what lowercasing does beyond ASCII and
    whether a host survives NFKC normalisation are parameters. *)

From stdpp Require Import prelude base strings list.
From Stdlib Require Import ZArith Ascii Lia.
From S2P Require Import Prelude PyText.
#[local] Open Scope string_scope.
#[local] Open Scope list_scope.
#[local] Open Scope Z_scope.

Definition code (c : ascii) : nat := nat_of_ascii c.

Definition is_char (d c : ascii) : bool := Ascii.eqb c d.
Definition upper_letter (c : ascii) : bool := Nat.leb 65 (code c) && Nat.leb (code c) 90.
Definition letter (c : ascii) : bool := upper_letter c || (Nat.leb 97 (code c) && Nat.leb (code c) 122).
Definition digit (c : ascii) : bool := Nat.leb 48 (code c) && Nat.leb (code c) 57.
Definition scheme_char (c : ascii) : bool := letter c || digit c || is_char "+" c || is_char "-" c || is_char "." c.
Definition hex_letter (c : ascii) : bool :=
  digit c || (Nat.leb 65 (code c) && Nat.leb (code c) 70) || (Nat.leb 97 (code c) && Nat.leb (code c) 102).

Fixpoint all_chars (f : ascii → bool) (s : string) : bool :=
  match s with String c s' => f c && all_chars f s' | EmptyString => true end.
Definition has_char (d : ascii) (s : string) : bool := negb (all_chars (λ c, negb (is_char d c)) s).

Fixpoint strip_left (f : ascii → bool) (s : string) : string :=
  match s with String c s' => if f c then strip_left f s' else s | EmptyString => s end.
Fixpoint drop_chars (f : ascii → bool) (s : string) : string :=
  match s with String c s' => if f c then drop_chars f s' else String c (drop_chars f s') | EmptyString => s end.

(** The longest prefix without a character of [f], and the rest. *)
Fixpoint span_until (f : ascii → bool) (s : string) : string * string :=
  match s with
  | String c s' => if f c then ("", s) else let '(p, q) := span_until f s' in (String c p, q)
  | EmptyString => ("", "")
  end.

(** [s.partition(d)]: the text before the first [d], whether there is one, the rest. *)
Definition partition (d : ascii) (s : string) : string * bool * string :=
  match span_until (is_char d) s with
  | (p, String _ q) => (p, true, q)
  | (p, EmptyString) => (p, false, "")
  end.

(** [s.rpartition(d)] *)
Fixpoint rpartition (d : ascii) (s : string) : string * bool * string :=
  match s with
  | EmptyString => ("", false, "")
  | String c s' =>
      match rpartition d s' with
      | (p, true, q) => (String c p, true, q)
      | (_, false, _) => if is_char d c then ("", true, s') else ("", false, s)
      end
  end.

Definition lower_ascii (c : ascii) : ascii := if upper_letter c then ascii_of_nat (code c + 32) else c.
Fixpoint map_chars (f : ascii → ascii) (s : string) : string :=
  match s with String c s' => String (f c) (map_chars f s') | EmptyString => s end.

Definition digits_value (s : string) : Z :=
  foldl (λ n c, 10 * n + Z.of_nat (code c - 48)) 0 (String.list_ascii_of_string s).

Section urls.
Context (ipv6 : string → bool) (lower_beyond : string → string) (nfkc_safe : string → bool).

Definition lower (s : string) : string := if is_ascii s then map_chars lower_ascii s else lower_beyond s.

Record SplitResult := { sr_scheme : string; sr_netloc : string }.

(** Controls and spaces in front, and tabs and line ends anywhere, are dropped. *)
Definition clean_url (url : string) : string :=
  drop_chars (λ c, Nat.eqb (code c) 9 || Nat.eqb (code c) 10 || Nat.eqb (code c) 13)
    (strip_left (λ c, Nat.leb (code c) 32) url).

Definition split_scheme (url : string) : string * string :=
  match url, partition ":" url with
  | String c _, (scheme, true, rest) =>
      if letter c && all_chars scheme_char scheme then (map_chars lower_ascii scheme, rest) else ("", url)
  | _, _ => ("", url)
  end.

Definition split_netloc (url : string) : string :=
  match url with
  | String a (String b rest) =>
      if is_char "/" a && is_char "/" b
      then (span_until (λ c, is_char "/" c || is_char "?" c || is_char "#" c) rest).1 else ""
  | _ => ""
  end.

(** [v] followed by hex digits, a dot and at least one character. *)
Definition ip_future (host : string) : bool :=
  match host with
  | String _ rest =>
      match span_until (λ c, negb (hex_letter c)) rest with
      | (String _ _, String dot (String _ _)) => is_char "." dot
      | _ => false
      end
  | EmptyString => false
  end.

Definition _check_bracketed_host (host : string) : bool :=
  match host with
  | String c _ => if is_char "v" c then ip_future host else ipv6 host
  | EmptyString => ipv6 host
  end.

Definition _check_bracketed_netloc (netloc : string) : bool :=
  let '(_, _, hostname_and_port) := rpartition "@" netloc in
  match partition "[" hostname_and_port with
  | (before, true, bracketed) =>
      let '(host, _, port) := partition "]" bracketed in
      String.eqb before "" && (String.eqb port "" || String.prefix ":" port) && _check_bracketed_host host
  | (_, false, _) => let '(host, _, _) := partition ":" hostname_and_port in _check_bracketed_host host
  end.

(** [None] is [ValueError]. *)
Definition urlsplit (url : string) : option SplitResult :=
  let '(scheme, rest) := split_scheme (clean_url url) in
  let netloc := split_netloc rest in
  let opens := has_char "[" netloc in
  let closes := has_char "]" netloc in
  if negb (Bool.eqb opens closes) then None
  else if opens && closes && negb (_check_bracketed_netloc netloc) then None
  else if negb (String.eqb netloc "") && negb (is_ascii netloc) && negb (nfkc_safe netloc) then None
  else Some {| sr_scheme := scheme; sr_netloc := netloc |}.

Definition _userinfo (r : SplitResult) : option string * option string :=
  match rpartition "@" (sr_netloc r) with
  | (userinfo, true, _) =>
      let '(username, have_password, password) := partition ":" userinfo in
      (Some username, if have_password : bool then Some password else None)
  | (_, false, _) => (None, None)
  end.

Definition _hostinfo (r : SplitResult) : string * option string :=
  let '(_, _, hostinfo) := rpartition "@" (sr_netloc r) in
  let '(host, port) :=
    match partition "[" hostinfo with
    | (_, true, bracketed) =>
        let '(host, _, after) := partition "]" bracketed in
        let '(_, _, port) := partition ":" after in (host, port)
    | (_, false, _) => let '(host, _, port) := partition ":" hostinfo in (host, port)
    end in
  (host, if String.eqb port "" then None else Some port).

Definition hostname (r : SplitResult) : option string :=
  let host := (_hostinfo r).1 in
  if String.eqb host "" then None
  else let '(name, percent, zone) := partition "%" host in
       Some (lower name +:+ (if percent : bool then "%" else "") +:+ zone).

(** [None] is [ValueError]: not a number, or out of range. *)
Definition port (r : SplitResult) : option (option Z) :=
  match (_hostinfo r).2 with
  | None => Some None
  | Some text =>
      if all_chars digit text && (digits_value text <=? 65535) then Some (Some (digits_value text)) else None
  end.
End urls.

Lemma urlsplit_examples ipv6 lower_beyond nfkc_safe :
  let split := urlsplit ipv6 nfkc_safe in
  (λ r, (sr_scheme r, hostname lower_beyond r, port r, _userinfo r)) <$> split " HTTPS://Me:pw@Example.ORG:443/a?b"
    = Some ("https", Some "example.org", Some (Some 443), (Some "Me", Some "pw"))
  ∧ (λ r, (sr_scheme r, hostname lower_beyond r, port r, _userinfo r)) <$> split "https://example.org:/x"
    = Some ("https", Some "example.org", Some None, (None, None))
  ∧ port <$> split "https://example.org:70000" = Some None
  ∧ split "https://[::1" = None.
Proof. repeat split. Qed.
