(* ===== verification/Commander.v ===== *)
(** * Commander: delegation to workers ([commander/contracts.py], [commander/routing.py],
      [commander/credentials.py], [commander/dispatch.py])

    Requests for workers, the decision whether a request may run, and the dispatch
    that runs it.  Runtimes and credential brokers are interfaces; the lease issuer
    is that of [leases.py]. *)

From stdpp Require Import prelude base strings list gmap pretty.
From Stdlib Require Import ZArith Ascii Lia.
From S2P Require Import Prelude PyTime PyText PyUuid Consumption Enrollment Authority Leases.
#[local] Open Scope string_scope.
#[local] Open Scope list_scope.
#[local] Open Scope Z_scope.

(** ** Contracts *)

Inductive DelegationTarget := JARED | AGENT | ASSIST.

Module WorkerCapability.
Inductive t := CODE | BROWSER | COMPUTER | DOCUMENT | EXTERNAL_SEND.
Definition value (c : t) : string :=
  match c with
  | CODE => "code.execute" | BROWSER => "browser.execute" | COMPUTER => "computer.execute"
  | DOCUMENT => "document.execute" | EXTERNAL_SEND => "message.send"
  end.
#[export] Instance eq_dec : EqDecision t.
Proof. solve_decision. Defined.
End WorkerCapability.
Export (hints) WorkerCapability.

Inductive WorkerRuntimeClass := NOOP | SANDBOX | LIVE.
#[export] Instance runtime_class_eq_dec : EqDecision WorkerRuntimeClass.
Proof. solve_decision. Defined.

Inductive WorkerResultStatus :=
| WORK_SUCCEEDED | WORK_FAILED | RETRY_EXHAUSTED | DENIED | UNAVAILABLE.
#[export] Instance result_status_eq_dec : EqDecision WorkerResultStatus.
Proof. solve_decision. Defined.
Inductive WorkerAttemptStatus := ATTEMPT_SUCCEEDED | ATTEMPT_FAILED | ATTEMPT_RETRY.

Record DelegationCase := {
  dc_requires_jared_judgment : bool;
  dc_independently_executable : bool;
  dc_scope_is_complete : bool;
}.
Record DelegationDecision := { dd_target : DelegationTarget; dd_reason : string }.

Record WorkerScope := { ws_resources : list string; ws_operations : list string }.
Record WorkerBudget := { wb_max_attempts : Z; wb_max_tokens : Z; wb_max_cost_microunits : Z }.
Record WorkerRequestProvenance := {
  wp_source : string;
  wp_source_id : string;
  wp_actor : string;
  wp_correlation_id : string;
}.
Record WorkerRequest := {
  wr_request_id : uuid;
  wr_worker_id : string;
  wr_capability : WorkerCapability.t;
  wr_objective : string;
  wr_scope : WorkerScope;
  wr_budget : WorkerBudget;
  wr_timeout_seconds : Z;
  wr_provenance : WorkerRequestProvenance;
  wr_credential_references : list string;
}.

Definition filled (s : string) : bool := negb (String.eqb s "").

(** Field constraints of a request and of the models in it. *)
Definition request_valid (r : WorkerRequest) : bool :=
  (0 <=? wr_request_id r) && (wr_request_id r <? 2 ^ 128)
  && filled (wr_worker_id r) && filled (wr_objective r)
  && forallb filled (ws_resources (wr_scope r)) && (1 <=? length (ws_resources (wr_scope r)))%nat
  && forallb filled (ws_operations (wr_scope r)) && (1 <=? length (ws_operations (wr_scope r)))%nat
  && (1 <=? wb_max_attempts (wr_budget r)) && (wb_max_attempts (wr_budget r) <=? 5)
  && (1 <=? wb_max_tokens (wr_budget r)) && (0 <=? wb_max_cost_microunits (wr_budget r))
  && (1 <=? wr_timeout_seconds r) && (wr_timeout_seconds r <=? 3600)
  && filled (wp_source (wr_provenance r)) && filled (wp_source_id (wr_provenance r))
  && filled (wp_actor (wr_provenance r)) && filled (wp_correlation_id (wr_provenance r))
  && forallb filled (wr_credential_references r).

(** [json.dumps(..., sort_keys=True, separators=(",", ":"))] *)
Definition json_object (fields : list (string * string)) : string :=
  "{" +:+ join "," (map json_field fields) +:+ "}".
Definition json_texts (l : list string) : string := "[" +:+ join "," (map json_string l) +:+ "]".
Definition json_int (n : Z) : string := pretty n.

Definition canonical_payload (r : WorkerRequest) : string :=
  json_object
    [ ("budget", json_object
         [ ("max_attempts", json_int (wb_max_attempts (wr_budget r)));
           ("max_cost_microunits", json_int (wb_max_cost_microunits (wr_budget r)));
           ("max_tokens", json_int (wb_max_tokens (wr_budget r))) ]);
      ("capability", json_string (WorkerCapability.value (wr_capability r)));
      ("credential_references", json_texts (wr_credential_references r));
      ("objective", json_string (wr_objective r));
      ("provenance", json_object
         [ ("actor", json_string (wp_actor (wr_provenance r)));
           ("correlation_id", json_string (wp_correlation_id (wr_provenance r)));
           ("source", json_string (wp_source (wr_provenance r)));
           ("source_id", json_string (wp_source_id (wr_provenance r))) ]);
      ("request_id", json_string (uuid_str (wr_request_id r)));
      ("scope", json_object
         [ ("operations", json_texts (ws_operations (wr_scope r)));
           ("resources", json_texts (ws_resources (wr_scope r))) ]);
      ("timeout", json_object [ ("seconds", json_int (wr_timeout_seconds r)) ]);
      ("worker_id", json_string (wr_worker_id r)) ].

Definition authority_action_class (r : WorkerRequest) : string :=
  match wr_capability r with WorkerCapability.EXTERNAL_SEND => "message.send" | _ => "worker.execute" end.

Record CredentialGrant := {
  cg_reference : string;
  cg_handle : string;
  cg_expires_at : datetime;
  cg_request_id : option uuid;
  cg_capability : option WorkerCapability.t;
  cg_issued_at : option datetime;
}.

Record RuntimeDescriptor := { rd_name : string; rd_version : string; rd_execution_class : WorkerRuntimeClass }.

Record WorkerAttemptResult := {
  at_status : WorkerAttemptStatus;
  at_detail : string;
  at_output_reference : option string;
}.
Definition succeeded (output_reference : string) : WorkerAttemptResult :=
  {| at_status := ATTEMPT_SUCCEEDED; at_detail := "completed"; at_output_reference := Some output_reference |}.
Definition failed (reason : string) : WorkerAttemptResult :=
  {| at_status := ATTEMPT_FAILED; at_detail := reason; at_output_reference := None |}.
Definition retry (reason : string) : WorkerAttemptResult :=
  {| at_status := ATTEMPT_RETRY; at_detail := reason; at_output_reference := None |}.

Record WorkerResult := {
  wk_status : WorkerResultStatus;
  wk_detail : string;
  wk_attempts : Z;
  wk_request_id : uuid;
  wk_runtime : RuntimeDescriptor;
  wk_output_reference : option string;
}.

Record DispatchAuthorization := { da_proposal : ProposalRecord; da_lease : CapabilityLease }.

(** ** Routing *)

Definition route_delegation (c : DelegationCase) : DelegationDecision :=
  if dc_requires_jared_judgment c
  then {| dd_target := JARED; dd_reason := "jared_judgment_required" |}
  else if dc_independently_executable c && dc_scope_is_complete c
  then {| dd_target := AGENT; dd_reason := "bounded_independent_execution" |}
  else {| dd_target := ASSIST; dd_reason := "collaboration_required" |}.

(** ** Runtimes and brokers *)

(** What a runtime or a broker raises that dispatch does not catch. *)
Inductive WorkerError :=
| WorkerTypeError            (** naive against aware times, or a handle that is not ASCII *)
| WorkerValueError           (** a resource that cannot be parsed *)
| WorkerKeyError (key : uuid)
| LeaseSignatureTypeError.

(** A runtime of type [R]: one attempt, which may change it. *)
Class WorkerRuntime (R : Type) := {
  descriptor : RuntimeDescriptor;
  execute : WorkerRequest → list CredentialGrant → comp R WorkerError WorkerAttemptResult;
}.

(** Handles for a request, or the reference that is unavailable. *)
Abbreviation CredentialBroker := (WorkerRequest → list CredentialGrant + string).

Definition no_credential_broker : CredentialBroker := λ r,
  match wr_credential_references r with [] => inl [] | reference :: _ => inr reference end.

Definition NO_WORKER_RUNTIME : RuntimeDescriptor :=
  {| rd_name := "none"; rd_version := "none"; rd_execution_class := NOOP |}.

Definition protected_capability (c : WorkerCapability.t) : bool :=
  match c with WorkerCapability.CODE => false | _ => true end.
Definition live_control (c : WorkerCapability.t) : bool :=
  match c with WorkerCapability.BROWSER | WorkerCapability.COMPUTER | WorkerCapability.DOCUMENT => true | _ => false end.

(** ** Dispatch *)

Section dispatch.
Context {R : Type} `{WorkerRuntime R}.
Context (sha256 : string → string) (hmac : string → string → string).

(** The runtime and the issuer may be absent. *)
Record Commander := {
  co_runtime : option R;
  co_lease_issuer : option LeaseIssuer;
  co_broker : CredentialBroker;
  co_promoted : list WorkerCapability.t;
}.
Abbreviation C A := (comp Commander WorkerError A).

Definition set_runtime (c : Commander) (rt : R) : Commander :=
  {| co_runtime := Some rt; co_lease_issuer := co_lease_issuer c; co_broker := co_broker c; co_promoted := co_promoted c |}.
Definition set_issuer (c : Commander) (i : LeaseIssuer) : Commander :=
  {| co_runtime := co_runtime c; co_lease_issuer := Some i; co_broker := co_broker c; co_promoted := co_promoted c |}.

Definition runtime_descriptor (c : Commander) : RuntimeDescriptor :=
  match co_runtime c with Some _ => descriptor | None => NO_WORKER_RUNTIME end.

Definition live (c : Commander) : bool :=
  match co_runtime c with
  | Some _ => bool_decide (rd_execution_class (descriptor (R := R)) = LIVE)
  | None => false
  end.

Definition first_failed (checks : list (bool * string)) : option string :=
  snd <$> List.find fst checks.

(** The bindings between a request, its proposal and its lease. *)
Definition binding_checks (r : WorkerRequest) (a : DispatchAuthorization) : list (bool * string) :=
  [ (negb (bool_decide (pr_state (da_proposal a) = APPROVED)), "approved_proposal_required");
    (negb (String.eqb (pr_action_class (da_proposal a)) (authority_action_class r)), "proposal_action_class_mismatch");
    (negb (String.eqb (pr_payload (da_proposal a)) (canonical_payload r)), "proposal_payload_mismatch");
    (negb (String.eqb (le_capability (da_lease a)) (WorkerCapability.value (wr_capability r))), "lease_capability_mismatch");
    (negb (String.eqb (le_worker_id (da_lease a)) (wr_worker_id r)), "lease_worker_mismatch") ].

(** [None] when the request may run; verifying the lease consumes it. *)
Definition _authorization_denial (now : Z) (r : WorkerRequest) (authorization : option DispatchAuthorization) :
    C (option string) := λ c,
  if bool_decide (wr_capability r = WorkerCapability.CODE) && live c
  then (c, Ok (Some "live_code_execution_disabled"))
  else if negb (protected_capability (wr_capability r)) then (c, Ok None)
  else if live_control (wr_capability r) && live c && negb (bool_decide (wr_capability r ∈ co_promoted c))
  then (c, Ok (Some "live_capability_not_promoted"))
  else
    match authorization, co_lease_issuer c with
    | None, _ => (c, Ok (Some "capability_lease_required"))
    | Some _, None => (c, Ok (Some "capability_lease_verifier_unavailable"))
    | Some a, Some issuer =>
        match first_failed (binding_checks r a) with
        | Some denial => (c, Ok (Some denial))
        | None =>
            match Leases.verify sha256 hmac now (da_lease a) (da_proposal a) issuer with
            | (issuer', Ok _) => (set_issuer c issuer', Ok None)
            | (issuer', Err (LeaseViolationError reason)) => (set_issuer c issuer', Ok (Some reason))
            | (issuer', Err _) => (set_issuer c issuer', Err LeaseSignatureTypeError)
            end
        end
    end.

Definition _result (c : Commander) (r : WorkerRequest) (status : WorkerResultStatus) (detail : string)
    (attempts : Z) (output_reference : option string) : WorkerResult :=
  {| wk_status := status; wk_detail := detail; wk_attempts := attempts; wk_request_id := wr_request_id r;
     wk_runtime := runtime_descriptor c; wk_output_reference := output_reference |}.

(** The [for attempt in range(1, max_attempts + 1)] loop, from [attempt]; the fuel
    is the number of attempts left.  A valid budget leaves at least one. *)
Fixpoint attempts_from (fuel : nat) (attempt : Z) (r : WorkerRequest) (credentials : list CredentialGrant) :
    C (option WorkerResult) := λ c,
  match fuel with
  | O => (c, Ok None)
  | S fuel' =>
      match co_runtime c with
      | None => (c, Ok None)
      | Some rt =>
          match execute r credentials rt with
          | (rt', Err e) => (set_runtime c rt', Err e)
          | (rt', Ok outcome) =>
              let c' := set_runtime c rt' in
              match at_status outcome with
              | ATTEMPT_SUCCEEDED =>
                  (c', Ok (Some (_result c' r WORK_SUCCEEDED (at_detail outcome) attempt (at_output_reference outcome))))
              | ATTEMPT_FAILED => (c', Ok (Some (_result c' r WORK_FAILED (at_detail outcome) attempt None)))
              | ATTEMPT_RETRY =>
                  if attempt =? wb_max_attempts (wr_budget r)
                  then (c', Ok (Some (_result c' r RETRY_EXHAUSTED (at_detail outcome) attempt None)))
                  else attempts_from fuel' (attempt + 1) r credentials c'
              end
          end
      end
  end.

(** [None] is the [AssertionError] after the loop. *)
Definition dispatch (now : Z) (r : WorkerRequest) (authorization : option DispatchAuthorization) :
    C (option WorkerResult) :=
  _authorization_denial now r authorization ≫= λ denial,
  match denial with
  | Some reason => stateful (λ c, (c, Ok (Some (_result c r DENIED reason 0 None))))
  | None => stateful (λ c,
      match co_runtime c with
      | None => (c, Ok (Some (_result c r UNAVAILABLE "no_worker_configured" 0 None)))
      | Some _ =>
          match co_broker c r with
          | inr reference =>
              (c, Ok (Some (_result c r DENIED ("credential reference is unavailable: " +:+ reference) 0 None)))
          | inl credentials =>
              attempts_from (Z.to_nat (wb_max_attempts (wr_budget r))) 1 r credentials c
          end
      end)
  end.
End dispatch.
Arguments Commander : clear implicits.
