(* ===== verification/Workers.v ===== *)
(** * Isolated workers ([workers/credentials.py], [workers/models.py], [workers/sandbox.py],
      [workers/policy.py])

    Credential handles bound to one request, the inert sandbox that simulates browser
    and document work, and the profiles that decide what may run without asking.
    HMAC, SHA-256, the file system behind [Path.resolve] and what [urlsplit] takes from
    Unicode and [ipaddress] are parameters; readings of the clock and drawn
    identifiers are supplies in the state. *)

From stdpp Require Import prelude base strings list gmap pretty.
From Stdlib Require Import ZArith QArith Ascii Lia.
From S2P Require Import Prelude PyTime PyText PyUuid PyFloat PyUrl Consumption Enrollment Authority Leases Learning Commander.
#[local] Open Scope string_scope.
#[local] Open Scope list_scope.
#[local] Open Scope Z_scope.

(** ** Credentials *)

Inductive GateError :=
| CredentialGateError (reason : string)
| GateTypeError.                           (** naive against aware times, or a handle that is not ASCII *)

Record ScopedCredentialIssuer := {
  ci_signing_key : string;
  ci_ttl : Z;
  ci_consumed : gset string;
}.

(** [a - b] of two datetimes: on the wall clock when they share their zone. *)
Definition dt_sub (a b : datetime) : result GateError Z :=
  if negb (Bool.eqb (aware a) (aware b)) then Err GateTypeError
  else Ok (if same_zone a b then dt_local a - dt_local b else utc a - utc b).
Definition dt_le (a b : datetime) : result GateError bool :=
  if negb (Bool.eqb (aware a) (aware b)) then Err GateTypeError else Ok (negb (dt_ltb b a)).

Section credentials.
Context (hmac : string → string → string).
Open Scope py_scope.

Definition handle_fields (r : WorkerRequest) (reference issued_at expires_at : string) : list string :=
  [ uuid_str (wr_request_id r); wr_worker_id r; WorkerCapability.value (wr_capability r);
    reference; issued_at; expires_at ].
Definition _sign (key : string) (r : WorkerRequest) (reference issued_at expires_at : string) : string :=
  tohex (hmac key (join unit_separator (handle_fields r reference issued_at expires_at))).

Definition issue_grants (now : Z) (i : ScopedCredentialIssuer) (r : WorkerRequest) : list CredentialGrant :=
  let issued_at := utc_datetime now in
  let expires_at := utc_datetime (now + ci_ttl i) in
  (λ reference,
     {| cg_reference := reference;
        cg_handle := _sign (ci_signing_key i) r reference (isoformat issued_at) (isoformat expires_at);
        cg_expires_at := expires_at; cg_request_id := Some (wr_request_id r);
        cg_capability := Some (wr_capability r); cg_issued_at := Some issued_at |})
    <$> wr_credential_references r.

(** The checks of one grant; nothing is consumed yet. *)
Definition check_grant (now : Z) (i : ScopedCredentialIssuer) (r : WorkerRequest) (maximum_ttl : Z)
    (g : CredentialGrant) : result GateError unit :=
  let* _ := raise_if (negb (bool_decide (cg_request_id g = Some (wr_request_id r)))
                      || negb (bool_decide (cg_capability g = Some (wr_capability r))))
              (CredentialGateError "credential_scope_mismatch") in
  match cg_issued_at g with
  | None => Err (CredentialGateError "credential_ttl_exceeded")
  | Some issued_at =>
      let* lifetime := dt_sub (cg_expires_at g) issued_at in
      let* _ := raise_if (maximum_ttl <? lifetime) (CredentialGateError "credential_ttl_exceeded") in
      let* over := dt_le (cg_expires_at g) (utc_datetime now) in
      let* _ := raise_if over (CredentialGateError "credential_expired") in
      let expected := _sign (ci_signing_key i) r (cg_reference g) (isoformat issued_at) (isoformat (cg_expires_at g)) in
      match compare_digest expected (cg_handle g) with
      | None => Err GateTypeError
      | Some equal =>
          let* _ := raise_if (negb equal) (CredentialGateError "credential_forged") in
          raise_if (bool_decide (cg_handle g ∈ ci_consumed i)) (CredentialGateError "credential_replay")
      end
  end.

Fixpoint check_grants (now : Z) (i : ScopedCredentialIssuer) (r : WorkerRequest) (maximum_ttl : Z)
    (grants : list CredentialGrant) : result GateError unit :=
  match grants with
  | [] => Ok tt
  | g :: rest => let* _ := check_grant now i r maximum_ttl g in check_grants now i r maximum_ttl rest
  end.

Definition consume_grants (now : Z) (r : WorkerRequest) (grants : list CredentialGrant) (maximum_ttl : Z) :
    comp ScopedCredentialIssuer GateError unit := λ i,
  if negb (bool_decide ((cg_reference <$> grants) = wr_credential_references r))
  then (i, Err (CredentialGateError "credential_scope_mismatch"))
  else match check_grants now i r maximum_ttl grants with
       | Err e => (i, Err e)
       | Ok _ =>
           ({| ci_signing_key := ci_signing_key i; ci_ttl := ci_ttl i;
               ci_consumed := list_to_set (cg_handle <$> grants) ∪ ci_consumed i |}, Ok tt)
       end.
End credentials.

(** ** Models *)

Inductive EffectStatus := EFFECT_APPLIED | EFFECT_COMPENSATED | EFFECT_RECONCILED.
Inductive WorkerGateStatus := MATCHED | MISSING.

Record SandboxLimits := {
  sl_filesystem_roots : list string;
  sl_allowed_sites : list string;
  sl_max_attempts : Z;
  sl_max_timeout_seconds : Z;
  sl_max_tokens : Z;
  sl_max_cost_microunits : Z;
  sl_credential_ttl : Z;
}.

Record ArtifactProvenance := {
  af_reference : string;
  af_request_id : uuid;
  af_worker_id : string;
  af_capability : WorkerCapability.t;
  af_source : string;
  af_source_id : string;
  af_correlation_id : string;
  af_created_at : Z;
  af_payload_sha256 : string;
  af_runtime : RuntimeDescriptor;
}.

Record WorkerEffect := {
  we_effect_id : uuid;
  we_request_id : uuid;
  we_artifact_reference : string;
  we_status : EffectStatus;
  we_reversible : bool;
  we_reconciliation : option WorkerGateStatus;
  we_updated_at : Z;
}.

(** ** The inert runtimes *)

Definition noop_descriptor : RuntimeDescriptor :=
  {| rd_name := "lifeos-noop"; rd_version := "1"; rd_execution_class := NOOP |}.
#[export] Instance noop_worker : WorkerRuntime unit :=
  {| descriptor := noop_descriptor; execute := λ _ _ s, (s, Ok (failed "noop_worker")) |}.

Definition sandbox_descriptor : RuntimeDescriptor :=
  {| rd_name := "lifeos-sandbox"; rd_version := "1"; rd_execution_class := SANDBOX |}.

(** The sandbox with its gates, the supplies of clock readings and identifiers, and
    how many of each were drawn.  Effects are a dictionary in creation order. *)
Record SandboxWorker := {
  sw_limits : SandboxLimits;
  sw_credential_issuer : option ScopedCredentialIssuer;
  sw_cancelled : gset uuid;
  sw_artifacts : list ArtifactProvenance;
  sw_effects : list (uuid * WorkerEffect);
  sw_clock : nat → Z;
  sw_ticks : nat;
  sw_uuid4 : nat → uuid;
  sw_drawn : nat;
}.

Definition sandbox_with (s : SandboxWorker) (issuer : option ScopedCredentialIssuer) (cancelled : gset uuid)
    (artifacts : list ArtifactProvenance) (effects : list (uuid * WorkerEffect)) (ticks drawn : nat) : SandboxWorker :=
  {| sw_limits := sw_limits s; sw_credential_issuer := issuer; sw_cancelled := cancelled;
     sw_artifacts := artifacts; sw_effects := effects; sw_clock := sw_clock s; sw_ticks := ticks;
     sw_uuid4 := sw_uuid4 s; sw_drawn := drawn |}.

Definition set_sandbox_issuer (s : SandboxWorker) (i : ScopedCredentialIssuer) : SandboxWorker :=
  sandbox_with s (Some i) (sw_cancelled s) (sw_artifacts s) (sw_effects s) (sw_ticks s) (sw_drawn s).
Definition set_effect (s : SandboxWorker) (id : uuid) (e : WorkerEffect) : SandboxWorker :=
  sandbox_with s (sw_credential_issuer s) (sw_cancelled s) (sw_artifacts s) (dict_set id e (sw_effects s))
    (sw_ticks s) (sw_drawn s).

Definition cancel (request_id : uuid) (s : SandboxWorker) : SandboxWorker :=
  sandbox_with s (sw_credential_issuer s) ({[request_id]} ∪ sw_cancelled s) (sw_artifacts s) (sw_effects s)
    (sw_ticks s) (sw_drawn s).
Definition is_cancelled (request_id : uuid) (s : SandboxWorker) : bool := bool_decide (request_id ∈ sw_cancelled s).

Abbreviation W A := (comp SandboxWorker WorkerError A).

Definition clock_now : W Z := λ s,
  (sandbox_with s (sw_credential_issuer s) (sw_cancelled s) (sw_artifacts s) (sw_effects s) (S (sw_ticks s)) (sw_drawn s),
   Ok (sw_clock s (sw_ticks s))).
Definition draw_uuid4 : W uuid := λ s,
  (sandbox_with s (sw_credential_issuer s) (sw_cancelled s) (sw_artifacts s) (sw_effects s) (sw_ticks s) (S (sw_drawn s)),
   Ok (sw_uuid4 s (sw_drawn s))).
Definition state : W SandboxWorker := λ s, (s, Ok s).

(** [datetime.timestamp()], the nearest double. *)
Definition timestamp (t : Z) : Q := fl (t # 1000000).

(** Whether the components of a path extend those of a root. *)
Fixpoint is_relative_to (path root : list string) : bool :=
  match path, root with
  | _, [] => true
  | p :: path', q :: root' => String.eqb p q && is_relative_to path' root'
  | [], _ :: _ => false
  end.

Section sandbox.
Context (sha256 : string → string) (hmac : string → string → string).
(** [Path(text).resolve()]: the components of the resolved path, [None] when it raises. *)
Context (resolve : string → option (list string)).
Context (ipv6 : string → bool) (lower_beyond : string → string) (nfkc_safe : string → bool).
Open Scope py_scope.

(** The denial of one resource of a browser request. *)
Definition site_denial (limits : SandboxLimits) (resource : string) : result WorkerError (option string) :=
  match urlsplit ipv6 nfkc_safe resource with
  | None => Err WorkerValueError
  | Some parsed =>
      match port parsed with
      | None => Ok (Some "site_not_allowed")
      | Some port =>
          let '(username, password) := _userinfo parsed in
          Ok (first_failed
            [ (negb (String.eqb (sr_scheme parsed) "https"), "https_required");
              (negb (bool_decide (username = None)) || negb (bool_decide (password = None)), "site_not_allowed");
              (match hostname lower_beyond parsed with
               | None => true
               | Some h => negb (bool_decide (h ∈ sl_allowed_sites limits))
               end, "site_not_allowed");
              (match port with None => false | Some p => negb (p =? 443) end, "site_not_allowed") ])
      end
  end.

(** The first denial over the resources, in order. *)
Fixpoint first_denial (f : string → result WorkerError (option string)) (l : list string) :
    result WorkerError (option string) :=
  match l with
  | [] => Ok None
  | x :: rest => let* denial := f x in match denial with Some why => Ok (Some why) | None => first_denial f rest end
  end.

Definition _browser_denial (limits : SandboxLimits) (r : WorkerRequest) : result WorkerError (option string) :=
  if existsb (λ op, negb (String.eqb op "navigate" || String.eqb op "read")) (ws_operations (wr_scope r))
  then Ok (Some "operation_not_allowed")
  else first_denial (site_denial limits) (ws_resources (wr_scope r)).

Definition resolved (path : string) : result WorkerError (list string) :=
  match resolve path with Some l => Ok l | None => Err WorkerValueError end.
Fixpoint resolved_all (paths : list string) : result WorkerError (list (list string)) :=
  match paths with
  | [] => Ok []
  | p :: rest => let* l := resolved p in let* ls := resolved_all rest in Ok (l :: ls)
  end.

Definition _document_denial (limits : SandboxLimits) (r : WorkerRequest) : result WorkerError (option string) :=
  if existsb (λ op, negb (String.eqb op "read" || String.eqb op "write")) (ws_operations (wr_scope r))
  then Ok (Some "operation_not_allowed")
  else
    let* roots := resolved_all (sl_filesystem_roots limits) in
    first_denial (λ resource,
      let* path := resolved resource in
      Ok (if existsb (is_relative_to path) roots then None else Some "filesystem_not_allowed"))
      (ws_resources (wr_scope r)).

Definition _request_denial (limits : SandboxLimits) (r : WorkerRequest) : result WorkerError (option string) :=
  if sl_max_timeout_seconds limits <? wr_timeout_seconds r then Ok (Some "timeout_exceeded")
  else if (sl_max_attempts limits <? wb_max_attempts (wr_budget r))
          || (sl_max_tokens limits <? wb_max_tokens (wr_budget r))
          || (sl_max_cost_microunits limits <? wb_max_cost_microunits (wr_budget r))
  then Ok (Some "budget_exceeded")
  else match wr_capability r with
       | WorkerCapability.BROWSER => _browser_denial limits r
       | WorkerCapability.DOCUMENT => _document_denial limits r
       | _ => Ok (Some "capability_disabled")
       end.

Definition _credential_denial (r : WorkerRequest) (credentials : list CredentialGrant) : W (option string) :=
  state ≫= λ s,
  if bool_decide (wr_credential_references r = []) && bool_decide (length credentials = 0%nat) then mret None
  else match sw_credential_issuer s with
       | None => mret (Some "credential_verifier_unavailable")
       | Some _ =>
           clock_now ≫= λ now, stateful (λ s,
           match sw_credential_issuer s with
           | None => (s, Ok None)
           | Some issuer =>
               match consume_grants hmac now r credentials (sl_credential_ttl (sw_limits s)) issuer with
               | (i, Ok _) => (set_sandbox_issuer s i, Ok None)
               | (i, Err (CredentialGateError why)) => (set_sandbox_issuer s i, Ok (Some why))
               | (i, Err GateTypeError) => (set_sandbox_issuer s i, Err WorkerTypeError)
               end
           end)
       end.

Definition lift {A : Type} (r : result WorkerError A) : W A := λ s, (s, r).
(** Continue unless there is a denial. *)
Definition unless_denied (denial : option string) (k : W WorkerAttemptResult) : W WorkerAttemptResult :=
  match denial with Some why => mret (failed why) | None => k end.
Definition unless_cancelled (request_id : uuid) (k : W WorkerAttemptResult) : W WorkerAttemptResult :=
  state ≫= λ s, if is_cancelled request_id s then mret (failed "cancelled") else k.

Definition sandbox_artifact (r : WorkerRequest) (created_at : Z) : ArtifactProvenance :=
  let digest := sha256 (canonical_payload r) in
  {| af_reference := "sandbox:" +:+ digest; af_request_id := wr_request_id r; af_worker_id := wr_worker_id r;
     af_capability := wr_capability r; af_source := wp_source (wr_provenance r);
     af_source_id := wp_source_id (wr_provenance r); af_correlation_id := wp_correlation_id (wr_provenance r);
     af_created_at := created_at; af_payload_sha256 := digest; af_runtime := sandbox_descriptor |}.

Definition record_effect (a : ArtifactProvenance) (e : WorkerEffect) : W unit := λ s,
  (sandbox_with s (sw_credential_issuer s) (sw_cancelled s) (sw_artifacts s ++ [a])
     (dict_set (we_effect_id e) e (sw_effects s)) (sw_ticks s) (sw_drawn s), Ok tt).

Definition sandbox_execute (r : WorkerRequest) (credentials : list CredentialGrant) : W WorkerAttemptResult :=
  clock_now ≫= λ started_at,
  state ≫= λ s,
  lift (_request_denial (sw_limits s) r) ≫= λ denial,
  unless_denied denial (
    unless_cancelled (wr_request_id r) (
      _credential_denial r credentials ≫= λ credential_denial,
      unless_denied credential_denial (
        let deadline := fadd (timestamp started_at) (inject_Z (wr_timeout_seconds r)) in
        clock_now ≫= λ now,
        if Qle_bool deadline (timestamp now) then mret (failed "timeout")
        else
          unless_cancelled (wr_request_id r) (
            clock_now ≫= λ created_at,
            let artifact := sandbox_artifact r created_at in
            draw_uuid4 ≫= λ effect_id,
            clock_now ≫= λ updated_at,
            record_effect artifact
              {| we_effect_id := effect_id; we_request_id := wr_request_id r;
                 we_artifact_reference := af_reference artifact; we_status := EFFECT_APPLIED;
                 we_reversible := true; we_reconciliation := None; we_updated_at := updated_at |} ≫= λ _,
            mret (succeeded (af_reference artifact)))))).

#[export] Instance sandbox_worker : WorkerRuntime SandboxWorker :=
  {| descriptor := sandbox_descriptor; execute := sandbox_execute |}.

(** [effect.model_copy(update=...)] *)
Definition effect_update (e : WorkerEffect) (status : EffectStatus) (rc : option WorkerGateStatus) (now : Z) : WorkerEffect :=
  {| we_effect_id := we_effect_id e; we_request_id := we_request_id e;
     we_artifact_reference := we_artifact_reference e; we_status := status; we_reversible := we_reversible e;
     we_reconciliation := rc; we_updated_at := now |}.

Definition the_effect (effect_id : uuid) : W WorkerEffect := λ s,
  match dict_get effect_id (sw_effects s) with Some e => (s, Ok e) | None => (s, Err (WorkerKeyError effect_id)) end.

Definition compensate (effect_id : uuid) : W WorkerEffect :=
  the_effect effect_id ≫= λ e,
  clock_now ≫= λ now,
  let compensated := effect_update e EFFECT_COMPENSATED (we_reconciliation e) now in
  stateful (λ s, (set_effect s effect_id compensated, Ok compensated)).

Definition reconcile_effect (effect_id : uuid) : W WorkerEffect :=
  the_effect effect_id ≫= λ e,
  state ≫= λ s,
  let matched := existsb (λ a, String.eqb (af_reference a) (we_artifact_reference e)) (sw_artifacts s) in
  clock_now ≫= λ now,
  let reconciled := effect_update e EFFECT_RECONCILED (Some (if matched then MATCHED else MISSING)) now in
  stateful (λ s, (set_effect s effect_id reconciled, Ok reconciled)).
End sandbox.

(** ** Profiles *)

Inductive AuthorityMode := MANUAL | COPILOT | AUTOPILOT.
Inductive AuthorityAction := CALENDAR_RULE_APPLY | SPEND | DELETE | SEND | BROWSE | COMPUTE | DOCUMENTS.
#[export] Instance authority_action_eq_dec : EqDecision AuthorityAction.
Proof. solve_decision. Defined.

Definition LIFEOS_CALENDAR_WORKER : string := "lifeos-calendar".

Record AuthorityDecision := {
  ad_allowed : bool;
  ad_reason : string;
  ad_may_propose : bool;
  ad_requires_confirmation : bool;
}.

(** The rule is a [SkillProposal]: its trigger, besides the proposal it is. *)
Record CalendarRuleAuthorization := {
  cr_rule : LearningProposal;
  cr_trigger : ObservationTrigger;
  cr_proposal : ProposalRecord;
  cr_lease : CapabilityLease;
  cr_rollback : option Rollback;
  cr_reconciliation : option Reconciliation;
}.
Definition rule_wf (a : CalendarRuleAuthorization) : Prop :=
  ∃ steps, pr_lesson (cr_rule a) = Procedure (cr_trigger a) steps.

Section policy.
Context (sha256 : string → string) (hmac : string → string → string).

Definition _denied (reason : string) : AuthorityDecision :=
  {| ad_allowed := false; ad_reason := reason; ad_may_propose := true; ad_requires_confirmation := false |}.

Definition initial_checks (a : CalendarRuleAuthorization) : list (bool * string) :=
  [ (negb (bool_decide (pr_status (cr_rule a) = ProposalStatus.APPROVED)), "approved_learning_rule_required");
    (negb (String.eqb (ot_kind (cr_trigger a)) "calendar_rule")
     || negb (String.eqb (ot_source (cr_trigger a)) "lifeos.calendar"), "lifeos_calendar_rule_required");
    (negb (bool_decide (pr_state (cr_proposal a) = APPROVED))
     || negb (String.eqb (pr_action_class (cr_proposal a)) "calendar.apply"), "calendar_apply_proposal_required");
    (negb (String.eqb (le_capability (cr_lease a)) "calendar.apply")
     || negb (String.eqb (le_worker_id (cr_lease a)) LIFEOS_CALENDAR_WORKER), "calendar_capability_lease_required") ].

Definition bound_to (p : ProposalRecord) (f : PayloadBoundFact) : bool :=
  String.eqb (fa_proposal_id f) (Authority.pr_proposal_id p) && String.eqb (fa_payload_hash f) (payload_hash sha256 p).

Definition final_checks (now : Z) (p : ProposalRecord) (rollback : Rollback) (rc : Reconciliation) : list (bool * string) :=
  [ (negb (bound_to p (rb_fact rollback)), "rollback_binding_mismatch");
    (negb (bound_to p (rc_fact rc)), "reconciliation_binding_mismatch");
    (fa_expires_at (rb_fact rollback) <=? now, "rollback_expired");
    (fa_expires_at (rc_fact rc) <=? now, "reconciliation_expired") ].

Definition _calendar_denial (now : Z) (a : CalendarRuleAuthorization) : option string :=
  match first_failed (initial_checks a) with
  | Some why => Some why
  | None =>
      match cr_rollback a, cr_reconciliation a with
      | None, _ => Some "rollback_required"
      | Some _, None => Some "reconciliation_required"
      | Some rollback, Some rc => first_failed (final_checks now (cr_proposal a) rollback rc)
      end
  end.

(** The lease verifier may be absent; a verified lease is consumed.  The policy and
    the verifier read the clock once each. *)
Definition _authorize_autopilot (now verified_at : Z) (action : AuthorityAction)
    (authorization : option CalendarRuleAuthorization) : comp (option LeaseIssuer) WorkerError AuthorityDecision := λ issuer,
  if negb (bool_decide (action = CALENDAR_RULE_APPLY)) then (issuer, Ok (_denied "autopilot_action_denied"))
  else match authorization with
  | None => (issuer, Ok (_denied "calendar_rule_authorization_required"))
  | Some a =>
      match _calendar_denial now a, issuer with
      | Some why, _ => (issuer, Ok (_denied why))
      | None, None => (issuer, Ok (_denied "capability_lease_verifier_unavailable"))
      | None, Some i =>
          match Leases.verify sha256 hmac verified_at (cr_lease a) (cr_proposal a) i with
          | (i', Ok _) =>
              (Some i', Ok {| ad_allowed := true; ad_reason := "approved_reversible_calendar_rule";
                              ad_may_propose := true; ad_requires_confirmation := false |})
          | (i', Err (LeaseViolationError why)) => (Some i', Ok (_denied why))
          | (i', Err _) => (Some i', Err LeaseSignatureTypeError)
          end
      end
  end.

Definition authorize (now verified_at : Z) (mode : AuthorityMode) (action : AuthorityAction)
    (authorization : option CalendarRuleAuthorization) : comp (option LeaseIssuer) WorkerError AuthorityDecision :=
  match mode with
  | MANUAL => λ i, (i, Ok {| ad_allowed := false; ad_reason := "manual_confirmation_required";
                             ad_may_propose := true; ad_requires_confirmation := true |})
  | COPILOT => λ i, (i, Ok {| ad_allowed := false; ad_reason := "copilot_proposal_only";
                              ad_may_propose := true; ad_requires_confirmation := false |})
  | AUTOPILOT => _authorize_autopilot now verified_at action authorization
  end.
End policy.
