(* ===== verification/CommanderSpec.v ===== *)
(** * What delegation to workers guarantees

    The payload of a request determines it; protected work runs only under an approved
    proposal for exactly that request and a lease that is used once; credentials are
    used once; the sandbox keeps the evidence of its effects; and the only thing that
    may run without asking is an approved, reversible calendar rule. *)

From stdpp Require Import prelude base strings list gmap pretty.
From Stdlib Require Import ZArith Ascii Lia.
From S2P Require Import Prelude PyTime PyText PyUuid Consumption Enrollment Authority Leases Commander.
#[local] Open Scope string_scope.
#[local] Open Scope list_scope.
#[local] Open Scope Z_scope.

(** ** The payload of a request *)

Definition ends_number (c : ascii) : Prop := c = ","%char ∨ c = "}"%char.

Lemma json_int_inj c a b r r' :
  ends_number c → json_int a +:+ String c r = json_int b +:+ String c r' → a = b ∧ r = r'.
Proof.
  intros Hc Heq. assert (∀ z : Z, free_of c (pretty z) = true) as Hfree.
  { intros z. apply pretty_free; [|by destruct Hc as [->| ->]]. intros n Hn.
    destruct Hc as [->| ->]; unfold pretty_N_char; by repeat case_match. }
  apply free_of_split in Heq as [Hab ->]; [|apply Hfree..]. by apply (inj pretty) in Hab.
Qed.

Lemma json_int_comma a b r r' : json_int a +:+ "," +:+ r = json_int b +:+ "," +:+ r' → a = b ∧ r = r'.
Proof. apply json_int_inj. by left. Qed.
Lemma json_int_close a b r r' : json_int a +:+ "}" +:+ r = json_int b +:+ "}" +:+ r' → a = b ∧ r = r'.
Proof. apply json_int_inj. by right. Qed.

Lemma json_texts_inj l l' r r' : json_texts l +:+ r = json_texts l' +:+ r' → l = l' ∧ r = r'.
Proof.
  unfold json_texts. rewrite !string_app_assoc. intros H. apply append_inj_l in H.
  revert l' H. induction l as [|s l IH]; intros [|s' l'] H.
  - cbn [map join] in H. rewrite !string_app_nil_l in H. by apply append_inj_l in H.
  - destruct l'; cbn [map join] in H; unfold json_string in H; rewrite ?string_app_assoc in H; discriminate H.
  - destruct l; cbn [map join] in H; unfold json_string in H; rewrite ?string_app_assoc in H; discriminate H.
  - destruct l as [|s2 l], l' as [|s2' l']; cbn [map] in *; rewrite ?join_cons, ?string_app_assoc in H.
    + apply json_string_inj in H as [-> H]. by apply append_inj_l in H as ->.
    + cbn [join] in H. apply json_string_inj in H as [_ H]. discriminate H.
    + cbn [join] in H. apply json_string_inj in H as [_ H]. discriminate H.
    + apply json_string_inj in H as [-> H]. apply append_inj_l in H. by destruct (IH (s2' :: l') H) as [-> ->].
Qed.

Lemma capability_value_inj c d : WorkerCapability.value c = WorkerCapability.value d → c = d.
Proof. by destruct c, d. Qed.

(** Steps of reading one payload back: an opening, the name of a member, a value. *)
Ltac read_open H := rewrite !string_app_assoc in H; apply append_inj_l in H.
Ltac read_name H := apply json_field_inj in H; rewrite ?string_app_assoc in H.
Ltac read_text H := apply json_string_inj in H as [? H].
Ltac read_texts H := apply json_texts_inj in H as [? H].
Ltac read_past H := apply append_inj_l in H.

(** A canonical payload is the payload of one valid request. *)
Lemma canonical_payload_inj r r' :
  request_valid r = true → request_valid r' = true → canonical_payload r = canonical_payload r' → r = r'.
Proof.
  assert (∀ q, request_valid q = true → 0 <= wr_request_id q < 2 ^ 128) as Hid.
  { intros q Hq. unfold request_valid in Hq. do 17 apply andb_true_iff in Hq as [Hq _]. apply andb_true_iff in Hq as [H1 H2].
    apply Z.leb_le in H1. apply Z.ltb_lt in H2. lia. }
  intros Hv Hv' H. specialize (Hid r Hv) as Hr. specialize (Hid r' Hv') as Hr'.
  unfold canonical_payload, json_object in H. cbn [map join] in H. read_open H.
  read_name H. read_past H. read_name H. apply json_int_comma in H as [? H]. read_name H. apply json_int_comma in H as [? H].
  read_name H. apply json_int_close in H as [? H]. read_past H.
  read_name H. read_text H. read_past H. read_name H. read_texts H. read_past H. read_name H. read_text H. read_past H.
  read_name H. read_past H. do 3 (read_name H; read_text H; read_past H). read_name H. read_text H. read_past H. read_past H.
  read_name H. read_text H. read_past H.
  read_name H. read_past H. read_name H. read_texts H. read_past H. read_name H. read_texts H. read_past H. read_past H.
  read_name H. read_past H. read_name H. apply json_int_close in H as [? H]. read_past H. read_name H. read_text H.
  destruct r as [id w cap obj [] [] t [] refs], r' as [id' w' cap' obj' [] [] t' [] refs']; simpl in *.
  match goal with E : uuid_str _ = uuid_str _ |- _ => apply uuid_str_inj in E; [|done..] end.
  match goal with E : WorkerCapability.value _ = WorkerCapability.value _ |- _ => apply capability_value_inj in E end.
  by subst.
Qed.

(** ** Which work runs *)

(** A runtime that remembers the requests it was given to run. *)
Record recorded (R : Type) := { rec_inner : R; rec_log : list WorkerRequest }.
Arguments rec_inner {R}.
Arguments rec_log {R}.
#[export] Instance recorded_runtime {R : Type} `{WorkerRuntime R} : WorkerRuntime (recorded R) :=
  {| descriptor := descriptor (R := R);
     execute := λ r g s,
       let '(inner, res) := execute r g (rec_inner s) in
       ({| rec_inner := inner; rec_log := rec_log s ++ [r] |}, res) |}.

Section histories.
Context {R : Type} `{WorkerRuntime R}.
Context (sha256 : string → string) (hmac : string → string → string).
Abbreviation commander := (Commander (recorded R)).

Definition log (c : commander) : list WorkerRequest :=
  match co_runtime c with Some s => rec_log s | None => [] end.
Definition consumed (c : commander) : gset string :=
  match co_lease_issuer c with Some i => li_consumed i | None => ∅ end.

(** One dispatch of a history: the call, the issuer it met, what it ran, its answer. *)
Record turn := {
  tn_now : Z;
  tn_request : WorkerRequest;
  tn_authorization : option DispatchAuthorization;
  tn_issuer : option LeaseIssuer;
  tn_promoted : list WorkerCapability.t;
  tn_ran : list WorkerRequest;
  tn_result : result WorkerError (option WorkerResult);
}.

(** What others may do meanwhile: rotate keys, issue and use leases, change the
    runtime, but not run requests behind the commander's back. *)
Definition meanwhile (c c' : commander) : Prop := log c' = log c ∧ consumed c ⊆ consumed c'.

Inductive history : commander → list turn → commander → Prop :=
| history_nil c : history c [] c
| history_meanwhile c c' l d : meanwhile c c' → history c' l d → history c l d
| history_dispatch c now r a c' res l d :
    request_valid r = true → dispatch sha256 hmac now r a c = (c', res) → history c' l d →
    history c ({| tn_now := now; tn_request := r; tn_authorization := a; tn_issuer := co_lease_issuer c;
                  tn_promoted := co_promoted c;
                  tn_ran := drop (length (log c)) (log c'); tn_result := res |} :: l) d.

(** The authority a protected request runs under. *)
Record authorised (now : Z) (r : WorkerRequest) (a : DispatchAuthorization) (i : LeaseIssuer) : Prop := {
  az_approved : pr_state (da_proposal a) = APPROVED;
  az_action : pr_action_class (da_proposal a) = authority_action_class r;
  az_payload : pr_payload (da_proposal a) = canonical_payload r;
  az_capability : le_capability (da_lease a) = WorkerCapability.value (wr_capability r);
  az_worker : le_worker_id (da_lease a) = wr_worker_id r;
  az_signed : le_signature (da_lease a) = sign hmac (li_keys i) (_lease_payload (da_lease a));
  az_proposal : fa_proposal_id (le_fact (da_lease a)) = pr_proposal_id (da_proposal a);
  az_hash : fa_payload_hash (le_fact (da_lease a)) = payload_hash sha256 (da_proposal a);
  az_time : now < fa_expires_at (le_fact (da_lease a));
}.

Definition lease_id (a : DispatchAuthorization) : string := fa_fact_id (le_fact (da_lease a)).

(** The lease a turn used to run protected work. *)
Definition spent (t : turn) : option string :=
  if negb (bool_decide (wr_capability (tn_request t) = WorkerCapability.CODE))
     && negb (bool_decide (length (tn_ran t) = 0%nat))
  then lease_id <$> tn_authorization t else None.

Record turn_ok (t : turn) : Prop := {
  tk_request : ∀ q, q ∈ tn_ran t → q = tn_request t;
  tk_bound : Z.of_nat (length (tn_ran t)) <= wb_max_attempts (wr_budget (tn_request t));
  tk_authority : tn_ran t ≠ [] → wr_capability (tn_request t) ≠ WorkerCapability.CODE →
    ∃ a i, tn_authorization t = Some a ∧ tn_issuer t = Some i ∧ authorised (tn_now t) (tn_request t) a i
      ∧ (lease_id a ∉ li_consumed i)
      ∧ ∀ q, request_valid q = true → canonical_payload q = pr_payload (da_proposal a) → q = tn_request t;
  tk_live : rd_execution_class (descriptor (R := R)) = LIVE → tn_ran t ≠ [] →
    wr_capability (tn_request t) ≠ WorkerCapability.CODE
    ∧ (wr_capability (tn_request t) ∈
         [WorkerCapability.BROWSER; WorkerCapability.COMPUTER; WorkerCapability.DOCUMENT] →
       wr_capability (tn_request t) ∈ tn_promoted t);
  tk_answer : match tn_result t with
              | Ok (Some w) => wk_attempts w = Z.of_nat (length (tn_ran t)) ∧ wk_request_id w = wr_request_id (tn_request t)
              | Ok None => False
              | Err _ => True
              end;
}.

Lemma protected_not_code c : protected_capability c = negb (bool_decide (c = WorkerCapability.CODE)).
Proof. by destruct c. Qed.

Lemma live_control_listed c :
  c ∈ [WorkerCapability.BROWSER; WorkerCapability.COMPUTER; WorkerCapability.DOCUMENT] → live_control c = true.
Proof. intros [->|[->|[->|[]%elem_of_nil]%elem_of_cons]%elem_of_cons]%elem_of_cons; done. Qed.

Lemma log_app_drop (l k : list WorkerRequest) : drop (length l) (l ++ k) = k.
Proof. by rewrite drop_app_length. Qed.

(** The loop runs the request at least once and within its budget. *)
Lemma attempts_run fuel attempt r g s (c c' : commander) res :
  attempts_from fuel attempt r g c = (c', res) → co_runtime c = Some s → (0 < fuel)%nat →
  attempt + Z.of_nat fuel = wb_max_attempts (wr_budget r) + 1 →
  ∃ k, log c' = log c ++ replicate k r ∧ (0 < k)%nat ∧ (k <= fuel)%nat
    ∧ co_lease_issuer c' = co_lease_issuer c
    ∧ match res with
      | Ok (Some w) => wk_attempts w = attempt + Z.of_nat k - 1 ∧ wk_request_id w = wr_request_id r
      | Ok None => False
      | Err _ => True
      end.
Proof.
  revert attempt c s. induction fuel as [|fuel IH]; intros attempt c s Hrun Hc Hf Hb; [lia|].
  cbn [attempts_from] in Hrun. rewrite Hc in Hrun. cbn [execute recorded_runtime] in Hrun.
  destruct (execute r g (rec_inner s)) as [inner out].
  set (s' := {| rec_inner := inner; rec_log := rec_log s ++ [r] |}) in *.
  assert (log (set_runtime c s') = log c ++ [r]) as Hlog by (unfold log; by rewrite Hc).
  destruct out as [o|e]; [|injection Hrun as <- <-; exists 1%nat; split_and!; [done|lia|lia|done|done]].
  destruct (at_status o); [injection Hrun as <- <-; exists 1%nat; split_and!; [done|lia|lia|done|simpl; lia|done]..|].
  destruct (Z.eqb_spec attempt (wb_max_attempts (wr_budget r))) as [Heq|Hne].
  { injection Hrun as <- <-. exists 1%nat. split_and!; [done|lia|lia|done|simpl; lia|done]. }
  destruct (IH (attempt + 1) (set_runtime c s') s' Hrun eq_refl ltac:(lia) ltac:(lia)) as (k & Hk & _ & Hle & Hi & Hres).
  exists (S k). split_and!; [|lia|lia|done|].
  - rewrite Hk, Hlog, <- app_assoc. done.
  - destruct res as [[w|]|]; [|done|done]. destruct Hres as [-> ?]. split; [lia|done].
Qed.

(** ** Leases *)

Lemma verify_result now lease proposal i i' res :
  Leases.verify sha256 hmac now lease proposal i = (i', res) →
  li_consumed i ⊆ li_consumed i'
  ∧ (is_ok res = true →
     le_signature lease = sign hmac (li_keys i) (_lease_payload lease)
     ∧ fa_proposal_id (le_fact lease) = pr_proposal_id proposal
     ∧ fa_payload_hash (le_fact lease) = payload_hash sha256 proposal
     ∧ now < fa_expires_at (le_fact lease)
     ∧ (fa_fact_id (le_fact lease) ∉ li_consumed i) ∧ fa_fact_id (le_fact lease) ∈ li_consumed i').
Proof.
  unfold Leases.verify, verify_signature, sign, compare_digest. intros Hv.
  destruct (_ && _); [|by injection Hv as <- <-].
  destruct (String.eqb_spec (le_signature lease) (tohex (hmac (kr_current_key (li_keys i)) (_lease_payload lease)))) as [Hs|];
    [|by injection Hv as <- <-].
  destruct (String.eqb_spec (fa_proposal_id (le_fact lease)) (pr_proposal_id proposal)) as [Hp|]; [|by injection Hv as <- <-].
  destruct (String.eqb_spec (fa_payload_hash (le_fact lease)) (payload_hash sha256 proposal)) as [Hh|]; [|by injection Hv as <- <-].
  destruct (Z.leb_spec (fa_expires_at (le_fact lease)) now); [by injection Hv as <- <-|].
  case_bool_decide as Hin; simpl in Hv; injection Hv as <- <-; [done|]. simpl. split; [set_solver|]. intros _. split_and!; [done..|set_solver].
Qed.

Lemma first_failed_none checks : first_failed checks = None → ∀ b why, In (b, why) checks → b = false.
Proof.
  unfold first_failed. destruct (List.find fst checks) eqn:Hf; [done|]. intros _ b why Hin.
  by pose proof (find_none fst checks Hf (b, why) Hin).
Qed.

Lemma binding_ok r a : first_failed (binding_checks r a) = None →
  pr_state (da_proposal a) = APPROVED ∧ pr_action_class (da_proposal a) = authority_action_class r
  ∧ pr_payload (da_proposal a) = canonical_payload r
  ∧ le_capability (da_lease a) = WorkerCapability.value (wr_capability r) ∧ le_worker_id (da_lease a) = wr_worker_id r.
Proof.
  intros Hn. pose proof (first_failed_none _ Hn) as Hall. unfold binding_checks in Hall.
  pose proof (Hall _ _ (or_introl eq_refl)) as H1. pose proof (Hall _ _ (or_intror (or_introl eq_refl))) as H2.
  pose proof (Hall _ _ (or_intror (or_intror (or_introl eq_refl)))) as H3.
  pose proof (Hall _ _ (or_intror (or_intror (or_intror (or_introl eq_refl))))) as H4.
  pose proof (Hall _ _ (or_intror (or_intror (or_intror (or_intror (or_introl eq_refl)))))) as H5.
  apply negb_false_iff in H1, H2, H3, H4, H5. apply bool_decide_eq_true in H1. apply String.eqb_eq in H2, H3, H4, H5. done.
Qed.

Lemma denial_result now r a (c c' : commander) res :
  _authorization_denial sha256 hmac now r a c = (c', res) →
  co_runtime c' = co_runtime c ∧ co_broker c' = co_broker c ∧ consumed c ⊆ consumed c'
  ∧ (res = Ok None →
     (protected_capability (wr_capability r) = true →
       ∃ a' i, a = Some a' ∧ co_lease_issuer c = Some i ∧ authorised now r a' i
         ∧ (lease_id a' ∉ li_consumed i) ∧ lease_id a' ∈ consumed c')
     ∧ (rd_execution_class (descriptor (R := R)) = LIVE → is_Some (co_runtime c) →
        wr_capability r ≠ WorkerCapability.CODE
        ∧ (live_control (wr_capability r) = true → wr_capability r ∈ co_promoted c))).
Proof.
  unfold _authorization_denial. intros Hrun.
  assert (rd_execution_class (descriptor (R := R)) = LIVE → is_Some (co_runtime c) → live c = true) as Hlive.
  { intros Hl [s Hs]. unfold live. rewrite Hs. by apply bool_decide_eq_true. }
  destruct (bool_decide (wr_capability r = WorkerCapability.CODE) && live c) eqn:Hcode; [by injection Hrun as <- <-|].
  destruct (protected_capability (wr_capability r)) eqn:Hprot; simpl in Hrun.
  2:{ injection Hrun as <- <-. split_and!; [done..|]. intros _. split; [done|]. intros Hl Hs. rewrite (Hlive Hl Hs), andb_true_r in Hcode.
      apply bool_decide_eq_false in Hcode. split; [done|]. by destruct (wr_capability r). }
  destruct (live_control (wr_capability r) && live c && negb (bool_decide (wr_capability r ∈ co_promoted c))) eqn:Hpro;
    [by injection Hrun as <- <-|].
  destruct a as [a|]; [|by injection Hrun as <- <-]. destruct (co_lease_issuer c) as [i|] eqn:Hi; [|by injection Hrun as <- <-].
  destruct (first_failed (binding_checks r a)) as [why|] eqn:Hbind; [by injection Hrun as <- <-|].
  destruct (binding_ok r a Hbind) as (H1 & H2 & H3 & H4 & H5).
  destruct (Leases.verify sha256 hmac now (da_lease a) (da_proposal a) i) as [i' v] eqn:Hver.
  destruct (verify_result _ _ _ _ _ _ Hver) as [Hsub Hok].
  assert (∀ x, x ∈ consumed c → x ∈ consumed (set_issuer c i')) as Hsub'.
  { intros x. unfold consumed. rewrite Hi. simpl. apply Hsub. }
  destruct v as [v|e]; [|destruct e; by injection Hrun as <- <-].
  destruct (Hok eq_refl) as (? & ? & ? & ? & ? & ?). injection Hrun as <- <-. split_and!; [done|done|done|]. intros _. split.
  - intros _. exists a, i. by split_and!.
  - intros Hl Hs. rewrite (Hlive Hl Hs), !andb_true_r in *. split; [by apply bool_decide_eq_false in Hcode|].
    intros Hc. rewrite Hc in Hpro. simpl in Hpro. apply negb_false_iff in Hpro. by apply bool_decide_eq_true in Hpro.
Qed.

(** ** One dispatch *)

Definition turn_of (now : Z) (r : WorkerRequest) (a : option DispatchAuthorization) (c c' : commander)
    (res : result WorkerError (option WorkerResult)) : turn :=
  {| tn_now := now; tn_request := r; tn_authorization := a; tn_issuer := co_lease_issuer c;
     tn_promoted := co_promoted c; tn_ran := drop (length (log c)) (log c'); tn_result := res |}.

Lemma budget_valid r : request_valid r = true → 1 <= wb_max_attempts (wr_budget r).
Proof.
  intros Hv. unfold request_valid in Hv. do 10 apply andb_true_iff in Hv as [Hv _]. apply andb_true_iff in Hv as [_ Hv].
  by apply Z.leb_le in Hv.
Qed.

(** A dispatch runs nothing, or the whole loop under an authorisation that held. *)
Lemma dispatch_cases now r a (c c' : commander) res :
  request_valid r = true → dispatch sha256 hmac now r a c = (c', res) →
  consumed c ⊆ consumed c'
  ∧ ((log c' = log c
      ∧ match res with
        | Ok (Some w) => wk_attempts w = 0 ∧ wk_request_id w = wr_request_id r
        | Ok None => False
        | Err _ => True
        end)
     ∨ ∃ k, log c' = log c ++ replicate k r ∧ (0 < k)%nat ∧ Z.of_nat k <= wb_max_attempts (wr_budget r)
         ∧ (protected_capability (wr_capability r) = true →
             ∃ a' i, a = Some a' ∧ co_lease_issuer c = Some i ∧ authorised now r a' i
               ∧ (lease_id a' ∉ li_consumed i) ∧ lease_id a' ∈ consumed c')
         ∧ (rd_execution_class (descriptor (R := R)) = LIVE →
             wr_capability r ≠ WorkerCapability.CODE
             ∧ (live_control (wr_capability r) = true → wr_capability r ∈ co_promoted c))
         ∧ match res with
           | Ok (Some w) => wk_attempts w = Z.of_nat k ∧ wk_request_id w = wr_request_id r
           | Ok None => False
           | Err _ => True
           end).
Proof.
  intros Hv Hrun. pose proof (budget_valid r Hv) as Hb. unfold dispatch, mbind, comp_bind in Hrun.
  destruct (_authorization_denial sha256 hmac now r a c) as [c1 out] eqn:Hden.
  destruct (denial_result now r a c c1 out Hden) as (Hrt & Hbr & Hsub & Hok).
  assert (log c1 = log c) as Hlog by (unfold log; by rewrite Hrt).
  destruct out as [[why|]|e]; [injection Hrun as <- <-; eauto 10| |injection Hrun as <- <-; eauto 10].
  destruct (Hok eq_refl) as [Hauth Hlive]. unfold stateful in Hrun.
  destruct (co_runtime c1) as [s|] eqn:Hs; [|injection Hrun as <- <-; eauto 10].
  destruct (co_broker c1 r) as [g|ref]; [|injection Hrun as <- <-; eauto 10].
  destruct (attempts_run _ _ r g s c1 c' res Hrun Hs ltac:(lia) ltac:(lia)) as (k & Hk & Hpos & Hle & Hi & Hres).
  assert (consumed c' = consumed c1) as Hcons by (unfold consumed; by rewrite Hi). rewrite Hcons. split; [done|]. right.
  exists k. rewrite Hk, Hlog. split_and!; [done|done|lia|done| |].
  - intros Hl. apply Hlive; [done|]. rewrite <- Hrt. by eexists.
  - destruct res as [[w|]|]; [|done|done]. destruct Hres as [-> ?]. split; [lia|done].
Qed.

Lemma dispatch_turn now r a (c c' : commander) res :
  request_valid r = true → dispatch sha256 hmac now r a c = (c', res) →
  let t := turn_of now r a c c' res in
  consumed c ⊆ consumed c' ∧ log c' = log c ++ tn_ran t ∧ turn_ok t
  ∧ ∀ x, spent t = Some x → (x ∉ consumed c) ∧ x ∈ consumed c'.
Proof.
  intros Hv Hrun t. pose proof (budget_valid r Hv) as Hb.
  destruct (dispatch_cases now r a c c' res Hv Hrun) as [Hsub [[Hlog Hres]|(k & Hlog & Hpos & Hle & Hauth & Hlive & Hres)]].
  - assert (tn_ran t = []) as Hran by (unfold t, turn_of; simpl; by rewrite Hlog, drop_all).
    rewrite Hran. split_and!; [done|by rewrite app_nil_r| |].
    + constructor; rewrite ?Hran; [set_solver|simpl; lia|done|done|]. unfold t. simpl. by destruct res as [[w|]|].
    + intros x. unfold spent. rewrite Hran. by rewrite andb_false_r.
  - assert (tn_ran t = replicate k r) as Hran by (unfold t, turn_of; simpl; by rewrite Hlog, log_app_drop).
    rewrite Hran. split_and!; [done|done| |].
    + constructor; rewrite ?Hran, ?length_replicate.
      * intros q [-> _]%elem_of_replicate. done.
      * done.
      * intros _ Hp. destruct (Hauth ltac:(by rewrite protected_not_code, bool_decide_eq_false_2)) as (a' & i & -> & Hi & Haz & Hnot & _). exists a', i. split_and!; [done|done|done|done|].
        intros q Hq Heq. rewrite (az_payload _ _ _ _ Haz) in Heq. by apply canonical_payload_inj.
      * intros Hl _. destruct (Hlive Hl) as [? Hpro]. split; [done|]. intros Hc%live_control_listed. by apply Hpro.
      * done.
    + intros x. unfold spent. rewrite Hran, length_replicate, <- protected_not_code.
      destruct (protected_capability _) eqn:Hp; [|done].
      rewrite bool_decide_eq_false_2 by lia. simpl. destruct (Hauth eq_refl) as (a' & i & Ha & Hi & _ & Hnot & Hin). unfold t, turn_of. simpl. rewrite Ha.
      intros [= <-]. unfold consumed at 1. by rewrite Hi.
Qed.

Lemma history_fresh c l d : history c l d →
  consumed c ⊆ consumed d ∧ log d = log c ++ concat (tn_ran <$> l) ∧ Forall turn_ok l
  ∧ NoDup (omap spent l) ∧ ∀ x, x ∈ omap spent l → x ∉ consumed c.
Proof.
  induction 1 as [c|c c' l d [Hlog Hsub] _ (IH1 & IH2 & IH3 & IH4 & IH5)|c now r a c' res l d Hv Hrun _ (IH1 & IH2 & IH3 & IH4 & IH5)].
  - simpl. split_and!; [done|by rewrite app_nil_r|constructor|constructor|set_solver].
  - rewrite IH2, Hlog. split_and!; [set_solver|done|done|done|set_solver].
  - destruct (dispatch_turn now r a c c' res Hv Hrun) as (Hsub & Hlog & Hok & Hspent).
    unfold turn_of in Hlog, Hok, Hspent. set (t := Build_turn _ _ _ _ _ _ _) in *.
    split_and!; [set_solver|rewrite IH2, Hlog, <- app_assoc; done|by constructor| |].
    + simpl. destruct (spent t) as [x|] eqn:Hx; [|done]. constructor; [|done].
      intros Hin%IH5. destruct (Hspent x eq_refl). done.
    + simpl. destruct (spent t) as [x|] eqn:Hx.
      * intros y [->|Hy]%elem_of_cons; [by apply Hspent|set_solver].
      * set_solver.
Qed.

(** C33. Protected work needs approval: in any history of dispatches, between which keys
    may be rotated and leases issued and used by others, the runtime is given
    exactly the requests of the history, each within its budget of attempts and,
    unless the runtime raises, each answered; protected work runs only under an
    approved proposal whose payload is that of this request and of no other, and a
    lease signed by the key in force for its worker and capability; no lease runs
    protected work in two dispatches; a live runtime never runs code, and controls a
    browser, a computer or a document only when that control was promoted.  Sending
    to the outside on a live runtime needs the approval and no promotion. *)
Theorem protected_work_needs_approval c l d :
  history c l d →
  log d = log c ++ concat (tn_ran <$> l) ∧ Forall turn_ok l ∧ NoDup (omap spent l).
Proof. intros Hh. by destruct (history_fresh c l d Hh) as (_ & ? & ? & ? & _). Qed.
End histories.
