(* ===== verification/WorkersSpec.v ===== *)
(** * What isolated workers guarantee

    Credential handles are used once and only as they were issued; every effect of
    the sandbox is backed by an artifact of a request its limits allow; and nothing
    runs without asking but an approved, reversible calendar rule. *)

From stdpp Require Import prelude base strings list gmap pretty.
From Stdlib Require Import ZArith QArith Ascii Lia.
From S2P Require Import Prelude PyTime PyText PyUuid PyFloat Consumption Enrollment Authority Leases Learning PyUrl Commander Workers CommanderSpec.
#[local] Open Scope string_scope.
#[local] Open Scope list_scope.
#[local] Open Scope Z_scope.

(** ** Credentials *)

Section credentials.
Context (hmac : string → string → string).

(** What an accepted grant is: a handle signed for this request, of a bounded life, not over. *)
Record genuine (now : Z) (key : string) (r : WorkerRequest) (ttl : Z) (g : CredentialGrant) : Prop := {
  gn_request : cg_request_id g = Some (wr_request_id r);
  gn_capability : cg_capability g = Some (wr_capability r);
  gn_issued : ∃ issued life, cg_issued_at g = Some issued
    ∧ dt_sub (cg_expires_at g) issued = Ok life ∧ life <= ttl
    ∧ cg_handle g = _sign hmac key r (cg_reference g) (isoformat issued) (isoformat (cg_expires_at g));
  gn_time : dt_le (cg_expires_at g) (utc_datetime now) = Ok false;
}.

Lemma check_grant_ok now i r ttl g :
  check_grant hmac now i r ttl g = Ok tt ↔ genuine now (ci_signing_key i) r ttl g ∧ cg_handle g ∉ ci_consumed i.
Proof.
  unfold check_grant. split.
  - destruct (bool_decide (cg_request_id g = _)) eqn:H1, (bool_decide (cg_capability g = _)) eqn:H2; simpl; try done.
    destruct (cg_issued_at g) as [issued|] eqn:Hi; [|done]. destruct (dt_sub _ _) as [life|] eqn:Hl; [|done]. simpl.
    destruct (Z.ltb_spec ttl life) as [|Hle]; [done|]. simpl. destruct (dt_le _ _) as [[]|] eqn:Ht; [done| |done]. simpl.
    set (expected := _sign _ _ _ _ _ _). unfold compare_digest. destruct (_ && _); [|done].
    destruct (String.eqb_spec expected (cg_handle g)) as [He|]; [|done]. simpl.
    destruct (bool_decide (cg_handle g ∈ ci_consumed i)) eqn:Hin; [done|]. intros _.
    apply bool_decide_eq_true in H1, H2. apply bool_decide_eq_false in Hin. split; [|done]. constructor; [done|done| |done]. exists issued, life. by rewrite <- He.
  - intros [[H1 H2 (issued & life & Hi & Hl & Hle & Hs) Ht] Hin]. rewrite (bool_decide_eq_true_2 _ H1), (bool_decide_eq_true_2 _ H2). simpl.
    rewrite Hi, Hl. simpl. destruct (Z.ltb_spec ttl life); [lia|]. simpl. rewrite Ht. simpl. rewrite Hs.
    unfold _sign. rewrite compare_digest_hex, String.eqb_refl. simpl. rewrite bool_decide_eq_false_2; [done|]. by rewrite Hs in Hin.
Qed.

Lemma check_grants_ok now i r ttl grants :
  check_grants hmac now i r ttl grants = Ok tt ↔
  Forall (λ g, genuine now (ci_signing_key i) r ttl g ∧ cg_handle g ∉ ci_consumed i) grants.
Proof.
  induction grants as [|g grants IH]; simpl; [done|]. rewrite Forall_cons, <- IH, <- check_grant_ok.
  destruct (check_grant _ _ _ _ _ _) as [[]|]; simpl; naive_solver.
Qed.

Lemma consume_cases now r grants ttl i i' res :
  consume_grants hmac now r grants ttl i = (i', res) →
  ci_signing_key i' = ci_signing_key i ∧ ci_consumed i ⊆ ci_consumed i'
  ∧ match res with
    | Ok _ => (cg_reference <$> grants) = wr_credential_references r
              ∧ Forall (λ g, genuine now (ci_signing_key i) r ttl g ∧ cg_handle g ∉ ci_consumed i) grants
              ∧ ∀ g, g ∈ grants → cg_handle g ∈ ci_consumed i'
    | Err _ => i' = i
    end.
Proof.
  unfold consume_grants. case_bool_decide as Href; simpl; [|by intros [= <- <-]].
  destruct (check_grants _ _ _ _ _ _) as [[]|e] eqn:Hc; intros [= <- <-]; [|done]. simpl.
  split_and!; [done|set_solver|done|by apply check_grants_ok|]. intros g Hg. apply elem_of_union_l, elem_of_list_to_set, list_elem_of_fmap. eauto.
Qed.

(** Calls of [consume] on one issuer, with what each answered. *)
Record gate_call := {
  gc_now : Z;
  gc_request : WorkerRequest;
  gc_grants : list CredentialGrant;
  gc_ttl : Z;
}.
Fixpoint gate_run (calls : list gate_call) (i : ScopedCredentialIssuer) : ScopedCredentialIssuer * list (gate_call * bool) :=
  match calls with
  | [] => (i, [])
  | k :: rest =>
      let '(i', res) := consume_grants hmac (gc_now k) (gc_request k) (gc_grants k) (gc_ttl k) i in
      let '(i'', out) := gate_run rest i' in (i'', (k, is_ok res) :: out)
  end.

Definition accepted_handles (out : list (gate_call * bool)) : list (list string) :=
  omap (λ o, if o.2 : bool then Some (cg_handle <$> gc_grants o.1) else None) out.

Lemma gate_run_fresh calls i i' out :
  gate_run calls i = (i', out) →
  ci_signing_key i' = ci_signing_key i ∧ ci_consumed i ⊆ ci_consumed i'
  ∧ Forall (λ o : gate_call * bool, o.2 = true →
      (cg_reference <$> gc_grants o.1) = wr_credential_references (gc_request o.1)
      ∧ Forall (genuine (gc_now o.1) (ci_signing_key i) (gc_request o.1) (gc_ttl o.1)) (gc_grants o.1)
      ∧ (∀ g, g ∈ gc_grants o.1 → (cg_handle g ∉ ci_consumed i) ∧ cg_handle g ∈ ci_consumed i')) out
  ∧ ForallOrdPairs (λ l m, ∀ h, h ∈ l → h ∉ m) (accepted_handles out).
Proof.
  revert i out. induction calls as [|k calls IH]; intros i out Hrun; simpl in Hrun.
  { injection Hrun as <- <-. split_and!; [done|done|constructor|constructor]. }
  destruct (consume_grants _ _ _ _ _ _) as [i1 res] eqn:Hc. destruct (gate_run calls i1) as [i2 rest] eqn:Hr.
  injection Hrun as <- <-. destruct (IH i1 rest Hr) as (Hk & Hsub & Hall & Hpairs).
  destruct (consume_cases _ _ _ _ _ _ _ Hc) as (Hk1 & Hsub1 & Hres). rewrite Hk1 in Hk, Hall.
  assert (Forall (λ o : gate_call * bool, o.2 = true →
      (cg_reference <$> gc_grants o.1) = wr_credential_references (gc_request o.1)
      ∧ Forall (genuine (gc_now o.1) (ci_signing_key i) (gc_request o.1) (gc_ttl o.1)) (gc_grants o.1)
      ∧ (∀ g, g ∈ gc_grants o.1 → (cg_handle g ∉ ci_consumed i) ∧ cg_handle g ∈ ci_consumed i2)) rest) as Hall'.
  { eapply Forall_impl; [exact Hall|]. intros o Ho Ht. destruct (Ho Ht) as (? & ? & Hg). split_and!; [done|done|].
    intros g Hin. destruct (Hg g Hin). set_solver. }
  destruct res as [[]|e]; simpl.
  - destruct Hres as (Href & Hgen & Hin). split_and!; [done|set_solver| |].
    + constructor; [|done]. intros _. simpl. split_and!; [done| |].
      * eapply Forall_impl; [exact Hgen|]. by intros g [? _].
      * intros g Hg. rewrite list.Forall_forall in Hgen. split; [by apply Hgen|set_solver].
    + constructor; [|done]. apply list.Forall_forall. intros m Hm h (g & -> & Hg)%list_elem_of_fmap Hhm.
      apply list_elem_of_omap in Hm as ([k' b] & Ho & Hm). simpl in Hm. destruct b; [|done]. injection Hm as <-.
      apply list_elem_of_fmap in Hhm as (g' & Heq & Hg'). rewrite list.Forall_forall in Hall.
      destruct (Hall _ Ho eq_refl) as (_ & _ & Hfresh). destruct (Hfresh g' Hg') as [Hn _]. apply Hn. rewrite <- Heq. by apply Hin.
  - subst i1. split_and!; [done|set_solver| |done]. by constructor.
Qed.

Lemma issued_genuine now later i r ttl g :
  ci_ttl i <= ttl → later < now + ci_ttl i → g ∈ issue_grants hmac now i r → genuine later (ci_signing_key i) r ttl g.
Proof.
  intros Httl Hlater (ref & -> & Href)%list_elem_of_fmap. constructor; simpl; [done|done| |].
  - exists (utc_datetime now), (ci_ttl i). split_and!; [done| |done|done]. unfold dt_sub. simpl. rewrite !utc_utc_datetime. f_equal. lia.
  - unfold dt_le, dt_ltb. simpl. rewrite !utc_utc_datetime. f_equal. by apply negb_false_iff, Z.ltb_lt.
Qed.

(** Credentials are used once: in any history of uses of an issuer, an accepted use
    presents exactly the references of its request, each with a handle signed for
    this request, worker, capability and lifetime, not too long and not over; no
    handle is accepted in two uses; and handles just issued and not used yet are
    accepted until they expire. *)
Theorem credentials_single_use calls i i' out :
  gate_run calls i = (i', out) →
  (∀ k, (k, true) ∈ out →
     (cg_reference <$> gc_grants k) = wr_credential_references (gc_request k)
     ∧ Forall (genuine (gc_now k) (ci_signing_key i) (gc_request k) (gc_ttl k)) (gc_grants k))
  ∧ ForallOrdPairs (λ l m, ∀ h, h ∈ l → h ∉ m) (accepted_handles out)
  ∧ ∀ now later r ttl, ci_ttl i' <= ttl → later < now + ci_ttl i' →
      (∀ g, g ∈ issue_grants hmac now i' r → cg_handle g ∉ ci_consumed i') →
      is_ok (consume_grants hmac later r (issue_grants hmac now i' r) ttl i').2 = true.
Proof.
  intros Hrun. destruct (gate_run_fresh calls i i' out Hrun) as (_ & _ & Hall & Hpairs). split_and!; [|done|].
  - intros k Hk. rewrite list.Forall_forall in Hall. by destruct (Hall _ Hk eq_refl) as (? & ? & _).
  - intros now later r ttl Httl Hlater Hfresh. unfold consume_grants.
    assert ((cg_reference <$> issue_grants hmac now i' r) = wr_credential_references r) as Href.
    { unfold issue_grants. rewrite <- list_fmap_compose. apply list_fmap_id. }
    rewrite (bool_decide_eq_true_2 _ Href). simpl.
    assert (check_grants hmac later i' r ttl (issue_grants hmac now i' r) = Ok tt) as ->; [|done].
    apply check_grants_ok, list.Forall_forall. intros g Hg. split; [by apply (issued_genuine now)|by apply Hfresh].
Qed.
End credentials.

(** ** The sandbox *)

Section sandbox.
Context (sha256 : string → string) (hmac : string → string → string).
Context (resolve : string → option (list string)).
Context (ipv6 : string → bool) (lower_beyond : string → string) (nfkc_safe : string → bool).
Abbreviation run_request := (sandbox_execute sha256 hmac resolve ipv6 lower_beyond nfkc_safe).
Abbreviation request_denial := (_request_denial resolve ipv6 lower_beyond nfkc_safe).

(** Nothing but clocks, identifiers and credentials changed. *)
Definition same_evidence (s s' : SandboxWorker) : Prop :=
  sw_artifacts s' = sw_artifacts s ∧ sw_effects s' = sw_effects s
  ∧ sw_limits s' = sw_limits s ∧ sw_cancelled s' = sw_cancelled s.

Lemma credential_denial_evidence r g s s' res : _credential_denial hmac r g s = (s', res) → same_evidence s s'.
Proof.
  unfold _credential_denial, state, mbind, comp_bind. simpl. destruct (_ && _); [by intros [= <- _]|].
  destruct (sw_credential_issuer s) as [i|] eqn:Hi; [|by intros [= <- _]]. unfold clock_now, stateful. simpl. rewrite Hi.
  destruct (consume_grants _ _ _ _ _ _) as [i' [?|[]]]; by intros [= <- _].
Qed.

Lemma unless_cancelled_run id k s :
  unless_cancelled id k s = if is_cancelled id s then (s, Ok (failed "cancelled")) else k s.
Proof. unfold unless_cancelled, state, mbind, comp_bind. by destruct (is_cancelled id s). Qed.

(** What an attempt leaves behind: nothing, or an artifact and an effect that cites it,
    for a request within the limits that was not cancelled. *)
Lemma execute_evidence r g s s' res :
  run_request r g s = (s', res) →
  sw_limits s' = sw_limits s ∧ sw_cancelled s' = sw_cancelled s
  ∧ ((sw_artifacts s' = sw_artifacts s ∧ sw_effects s' = sw_effects s ∧ ∀ ref, res ≠ Ok (succeeded ref))
     ∨ ∃ at_ e, request_denial (sw_limits s) r = Ok None ∧ (wr_request_id r ∉ sw_cancelled s)
         ∧ sw_artifacts s' = sw_artifacts s ++ [sandbox_artifact sha256 r at_]
         ∧ sw_effects s' = dict_set (we_effect_id e) e (sw_effects s)
         ∧ we_artifact_reference e = af_reference (sandbox_artifact sha256 r at_) ∧ we_request_id e = wr_request_id r
         ∧ we_status e = EFFECT_APPLIED ∧ res = Ok (succeeded (we_artifact_reference e))).
Proof.
  unfold sandbox_execute, lift, state, mbind, comp_bind at 1 2 3. intros Hrun.
  change (clock_now s) with (sandbox_with s (sw_credential_issuer s) (sw_cancelled s) (sw_artifacts s) (sw_effects s) (S (sw_ticks s)) (sw_drawn s),
    Ok (E := WorkerError) (sw_clock s (sw_ticks s))) in Hrun. cbn [sandbox_with sw_limits] in Hrun.
  destruct (request_denial (sw_limits s) r) as [[why|]|e] eqn:Hden; simpl in Hrun;
    [injection Hrun as <- <-; simpl; eauto 10|
     |injection Hrun as <- <-; simpl; split_and!; [done..|left; split_and!; done]].
  rewrite unless_cancelled_run in Hrun.
  destruct (is_cancelled (wr_request_id r) (sandbox_with s _ _ _ _ _ _)) eqn:Hcan; [injection Hrun as <- <-; simpl; eauto 10|].
  apply bool_decide_eq_false in Hcan. simpl in Hcan. unfold comp_bind at 1 in Hrun.
  set (s1 := sandbox_with s _ _ _ _ _ _) in *.
  destruct (_credential_denial hmac r g s1) as [s2 out] eqn:Hcred.
  destruct (credential_denial_evidence _ _ _ _ _ Hcred) as (Ha & He & Hl & Hc). simpl in Ha, He, Hl, Hc.
  destruct out as [[why|]|e]; [injection Hrun as <- <-; simpl; split_and!; [done..|left; split_and!; done]| |
    injection Hrun as <- <-; split_and!; [done..|left; split_and!; done]].
  unfold unless_denied, comp_bind at 1, clock_now at 1 in Hrun.
  destruct (Qle_bool _ _); [injection Hrun as <- <-; simpl; split_and!; [done..|left; split_and!; done]|].
  rewrite unless_cancelled_run in Hrun. destruct (is_cancelled (wr_request_id r) (sandbox_with s2 _ _ _ _ _ _)); [injection Hrun as <- <-; simpl; split_and!; [done..|left; split_and!; done]|].
  injection Hrun as <- <-. simpl. split_and!; [done|done|]. right.
  eexists _, {| we_effect_id := _; we_request_id := wr_request_id r; we_artifact_reference := _; we_status := EFFECT_APPLIED;
                we_reversible := true; we_reconciliation := None; we_updated_at := _ |}.
  rewrite Ha, He. split_and!; done.
Qed.

(** Operations on a sandbox, and what they may be interleaved with. *)
Inductive sandbox_op :=
| OpExecute (r : WorkerRequest) (g : list CredentialGrant)
| OpCompensate (effect_id : uuid)
| OpReconcile (effect_id : uuid)
| OpCancel (request_id : uuid)
| OpCredentials (i : option ScopedCredentialIssuer).

Definition sandbox_step (s : SandboxWorker) (op : sandbox_op) : SandboxWorker :=
  match op with
  | OpExecute r g => (run_request r g s).1
  | OpCompensate id => (compensate id s).1
  | OpReconcile id => (reconcile_effect id s).1
  | OpCancel id => cancel id s
  | OpCredentials i => sandbox_with s i (sw_cancelled s) (sw_artifacts s) (sw_effects s) (sw_ticks s) (sw_drawn s)
  end.

Definition executed (ops : list sandbox_op) (r : WorkerRequest) : Prop := ∃ g, OpExecute r g ∈ ops.

(** Every artifact is that of an executed request within the limits, every effect cites one. *)
Record evidenced (limits : SandboxLimits) (ops : list sandbox_op) (s : SandboxWorker) : Prop := {
  ev_limits : sw_limits s = limits;
  ev_artifacts : ∀ a, a ∈ sw_artifacts s →
    ∃ r at_, a = sandbox_artifact sha256 r at_ ∧ executed ops r ∧ request_denial limits r = Ok None;
  ev_effects : ∀ id e, dict_get id (sw_effects s) = Some e →
    ∃ a, a ∈ sw_artifacts s ∧ af_reference a = we_artifact_reference e ∧ af_request_id a = we_request_id e;
}.

Lemma evidenced_weaken limits ops ops' s s' :
  evidenced limits ops s → ops ⊆ ops' → sw_limits s' = sw_limits s → sw_artifacts s' = sw_artifacts s →
  sw_effects s' = sw_effects s → evidenced limits ops' s'.
Proof.
  intros [H1 H2 H3] Hsub Hl Ha He. constructor; [congruence| |by rewrite Ha, He]. rewrite Ha. intros a Hin.
  destruct (H2 a Hin) as (r & t & ? & [g Hg] & ?). exists r, t. split_and!; [done| |done]. exists g. by apply Hsub.
Qed.

(** Updating an effect keeps what it cites. *)
Lemma evidenced_update limits ops s id e status rc now ticks :
  evidenced limits ops s → dict_get id (sw_effects s) = Some e →
  evidenced limits ops (sandbox_with s (sw_credential_issuer s) (sw_cancelled s) (sw_artifacts s)
    (dict_set id (effect_update e status rc now) (sw_effects s)) ticks (sw_drawn s)).
Proof.
  intros [H1 H2 H3] He. constructor; [done|done|]. simpl. intros id' e'. rewrite dict_get_set. case_bool_decide; [|by apply H3].
  intros [= <-]. simpl. by apply (H3 id).
Qed.

Lemma update_evidence limits ops s op :
  evidenced limits ops s → evidenced limits (ops ++ [op]) (sandbox_step s op).
Proof.
  intros Hev. assert (evidenced limits (ops ++ [op]) s) as Hev' by (by apply (evidenced_weaken limits ops _ s); [|set_solver|..]).
  destruct op as [r g|id|id|id|i]; simpl.
  - destruct (run_request r g s) as [s' res] eqn:Hrun. simpl.
    destruct (execute_evidence r g s s' res Hrun) as (Hl & _ & [(Ha & He & _)|(t & e & Hden & _ & Ha & He & Href & Hid & _)]);
      [by apply (evidenced_weaken limits (ops ++ [OpExecute r g]) _ s)|].
    pose proof Hev' as [H1 H2 H3]. constructor; [congruence| |].
    + rewrite Ha. intros a [Hin|Hin]%elem_of_app; [by apply H2|]. apply list_elem_of_singleton in Hin as ->.
      exists r, t. split_and!; [done| |by rewrite <- H1]. exists g. set_solver.
    + rewrite Ha, He. intros id e'. rewrite dict_get_set. case_bool_decide.
      * intros [= <-]. exists (sandbox_artifact sha256 r t). split_and!; [set_solver|done|done].
      * intros (a & ? & ? & ?)%H3. exists a. set_solver.
  - unfold compensate, the_effect, mbind, comp_bind. destruct (dict_get id (sw_effects s)) as [e|] eqn:He; [|done].
    exact (evidenced_update _ _ _ _ _ _ _ _ _ Hev' He).
  - unfold reconcile_effect, the_effect, state, mbind, comp_bind. destruct (dict_get id (sw_effects s)) as [e|] eqn:He; [|done].
    exact (evidenced_update _ _ _ _ _ _ _ _ _ Hev' He).
  - by apply (evidenced_weaken limits (ops ++ [OpCancel id]) _ s).
  - by apply (evidenced_weaken limits (ops ++ [OpCredentials i]) _ s).
Qed.

Lemma evidenced_run limits ops s0 : sw_limits s0 = limits → sw_artifacts s0 = [] → sw_effects s0 = [] →
  evidenced limits ops (foldl sandbox_step s0 ops).
Proof.
  intros Hl Ha He. induction ops as [|op ops IH] using rev_ind.
  - constructor; simpl; [done| |]; [rewrite Ha; by intros a ?%elem_of_nil|rewrite He; done].
  - rewrite foldl_app. by apply update_evidence.
Qed.

Lemma artifact_capability limits r : request_denial limits r = Ok None →
  wr_capability r = WorkerCapability.BROWSER ∨ wr_capability r = WorkerCapability.DOCUMENT.
Proof. unfold _request_denial. destruct (_ <? _); [done|]. destruct (_ || _); [done|]. destruct (wr_capability r); auto; done. Qed.

(** The sandbox keeps the evidence of its effects: after any history of attempts,
    compensations, reconciliations, cancellations and changes of credentials, every
    artifact is that of an executed browser or document request within the limits,
    and reconciling any effect finds the artifact it cites. *)
Theorem sandbox_evidence_complete s0 ops id e :
  sw_artifacts s0 = [] → sw_effects s0 = [] →
  let s := foldl sandbox_step s0 ops in
  (∀ a, a ∈ sw_artifacts s →
     ∃ r at_, a = sandbox_artifact sha256 r at_ ∧ executed ops r ∧ request_denial (sw_limits s0) r = Ok None
       ∧ (wr_capability r = WorkerCapability.BROWSER ∨ wr_capability r = WorkerCapability.DOCUMENT))
  ∧ (dict_get id (sw_effects s) = Some e →
     ∃ s' e', reconcile_effect id s = (s', Ok e') ∧ we_reconciliation e' = Some MATCHED
       ∧ we_artifact_reference e' = we_artifact_reference e).
Proof.
  intros Ha He s. destruct (evidenced_run (sw_limits s0) ops s0 eq_refl Ha He) as [H1 H2 H3]. fold s in H1, H2, H3. split.
  - intros a Hin. destruct (H2 a Hin) as (r & t & ? & ? & Hden). exists r, t. split_and!; [done|done|done|by apply (artifact_capability (sw_limits s0))].
  - intros Hget. destruct (H3 id e Hget) as (a & Hin & Href & _).
    unfold reconcile_effect, the_effect, state, mbind, comp_bind. rewrite Hget. simpl.
    assert (existsb (λ a, String.eqb (af_reference a) (we_artifact_reference e)) (sw_artifacts s) = true) as Hm.
    { apply existsb_exists. exists a. split; [by apply list_elem_of_In|by apply String.eqb_eq]. }
    rewrite Hm. do 2 eexists. split; [done|]. done.
Qed.
End sandbox.

(** ** Profiles *)

Section policy.
Context (sha256 : string → string) (hmac : string → string → string).

(** All that must hold of a rule that runs without asking. *)
Record rule_authority (now verified_at : Z) (a : CalendarRuleAuthorization) (i : LeaseIssuer) : Prop := {
  ra_rule : pr_status (cr_rule a) = ProposalStatus.APPROVED;
  ra_trigger : cr_trigger a = {| ot_kind := "calendar_rule"; ot_source := "lifeos.calendar" |};
  ra_proposal : pr_state (cr_proposal a) = APPROVED ∧ pr_action_class (cr_proposal a) = "calendar.apply";
  ra_scope : le_capability (cr_lease a) = "calendar.apply" ∧ le_worker_id (cr_lease a) = LIFEOS_CALENDAR_WORKER;
  ra_lease : le_signature (cr_lease a) = sign hmac (li_keys i) (_lease_payload (cr_lease a))
    ∧ fa_proposal_id (le_fact (cr_lease a)) = Authority.pr_proposal_id (cr_proposal a)
    ∧ fa_payload_hash (le_fact (cr_lease a)) = payload_hash sha256 (cr_proposal a)
    ∧ verified_at < fa_expires_at (le_fact (cr_lease a));
  ra_reversible : ∃ rollback rc, cr_rollback a = Some rollback ∧ cr_reconciliation a = Some rc
    ∧ (∀ f, f = rb_fact rollback ∨ f = rc_fact rc →
         fa_proposal_id f = Authority.pr_proposal_id (cr_proposal a)
         ∧ fa_payload_hash f = payload_hash sha256 (cr_proposal a) ∧ now < fa_expires_at f);
}.

Lemma bound_to_spec p f : bound_to sha256 p f = true ↔
  fa_proposal_id f = Authority.pr_proposal_id p ∧ fa_payload_hash f = payload_hash sha256 p.
Proof. unfold bound_to. rewrite andb_true_iff, !String.eqb_eq. done. Qed.

Lemma checks_cons b why l : first_failed ((b, why) :: l) = None → b = false ∧ first_failed l = None.
Proof. unfold first_failed. simpl. by destruct b. Qed.

Lemma initial_ok a : first_failed (initial_checks a) = None →
  pr_status (cr_rule a) = ProposalStatus.APPROVED
  ∧ cr_trigger a = {| ot_kind := "calendar_rule"; ot_source := "lifeos.calendar" |}
  ∧ (pr_state (cr_proposal a) = APPROVED ∧ pr_action_class (cr_proposal a) = "calendar.apply")
  ∧ le_capability (cr_lease a) = "calendar.apply" ∧ le_worker_id (cr_lease a) = LIFEOS_CALENDAR_WORKER.
Proof.
  unfold initial_checks. intros (H1%negb_false_iff & ([H2 H3]%orb_false_iff & ([H4 H5]%orb_false_iff & ([H6 H7]%orb_false_iff & _)%checks_cons)%checks_cons)%checks_cons)%checks_cons.
  apply negb_false_iff in H2, H3, H4, H5, H6, H7. apply String.eqb_eq in H2, H3, H5, H6, H7.
  apply bool_decide_eq_true in H4. apply bool_decide_eq_true in H1. destruct (cr_trigger a); simpl in *; subst. done.
Qed.

Lemma final_ok now p rollback rc : first_failed (final_checks sha256 now p rollback rc) = None →
  ∀ f, f = rb_fact rollback ∨ f = rc_fact rc →
    fa_proposal_id f = Authority.pr_proposal_id p ∧ fa_payload_hash f = payload_hash sha256 p ∧ now < fa_expires_at f.
Proof.
  unfold final_checks. intros (H1%negb_false_iff & (H2%negb_false_iff & (H3 & (H4 & _)%checks_cons)%checks_cons)%checks_cons)%checks_cons.
  apply bound_to_spec in H1 as [? ?], H2 as [? ?]. apply Z.leb_gt in H3, H4. by intros f [->| ->]; split_and!.
Qed.

(** Only approved, reversible calendar rules run without asking: an action is allowed
    only by the autopilot, for applying a calendar rule that the user approved,
    under an approved proposal with a rollback and a reconciliation bound to it and
    not expired, and a lease for the calendar worker that was not used before and is
    used up by it: whatever the profile and the action, no later call under that
    lease is allowed. *)
Theorem autopilot_only_approved_rules now verified_at mode action authorization i i' d :
  authorize sha256 hmac now verified_at mode action authorization i = (i', Ok d) →
  ad_may_propose d = true
  ∧ (ad_allowed d = true →
     mode = AUTOPILOT ∧ action = CALENDAR_RULE_APPLY
     ∧ ∃ a issuer issuer', authorization = Some a ∧ i = Some issuer ∧ i' = Some issuer'
         ∧ rule_authority now verified_at a issuer
         ∧ (fa_fact_id (le_fact (cr_lease a)) ∉ li_consumed issuer)
         ∧ fa_fact_id (le_fact (cr_lease a)) ∈ li_consumed issuer'
         ∧ ∀ now' verified_at' mode' action' b j j' d', cr_lease b = cr_lease a → li_consumed issuer' ⊆ li_consumed j →
             authorize sha256 hmac now' verified_at' mode' action' (Some b) (Some j) = (j', Ok d') → ad_allowed d' = false).
Proof.
  intros Hrun. destruct mode; simpl in Hrun; [injection Hrun as <- <-; done..|].
  unfold _authorize_autopilot in Hrun. case_bool_decide as Hact; simpl in Hrun; [|injection Hrun as <- <-; done].
  destruct authorization as [a|]; [|injection Hrun as <- <-; done].
  destruct (_calendar_denial sha256 now a) as [why|] eqn:Hden; [injection Hrun as <- <-; done|].
  destruct i as [issuer|]; [|injection Hrun as <- <-; done].
  destruct (Leases.verify sha256 hmac verified_at (cr_lease a) (cr_proposal a) issuer) as [issuer' v] eqn:Hver.
  destruct v as [v|e]; [|destruct e; try discriminate Hrun; injection Hrun as <- <-; done].
  destruct (verify_result sha256 hmac _ _ _ _ _ _ Hver) as [_ Hok]. destruct (Hok eq_refl) as (Hs & Hp & Hh & Ht & Hnot & Hin).
  injection Hrun as <- <-. split; [done|]. intros _. split_and!; [done|done|].
  exists a, issuer, issuer'. split_and!; [done|done|done| |done|done|].
  - unfold _calendar_denial in Hden. destruct (first_failed (initial_checks a)) eqn:Hi; [done|].
    destruct (initial_ok a Hi) as (? & ? & ? & ? & ?).
    destruct (cr_rollback a) as [rb|] eqn:Hrb; [|done]. destruct (cr_reconciliation a) as [rc|] eqn:Hrc; [|done].
    constructor; [done..|]. exists rb, rc. split_and!; [done|done|]. by apply final_ok.
  - intros now' verified' mode' action' b j j' d' Hlease Hsub Hrun'. destruct (ad_allowed d') eqn:Hd'; [exfalso|done].
    destruct mode'; simpl in Hrun'; [injection Hrun' as <- <-; done..|]. unfold _authorize_autopilot in Hrun'.
    case_bool_decide; simpl in Hrun'; [|injection Hrun' as <- <-; done].
    destruct (_calendar_denial sha256 now' b); [injection Hrun' as <- <-; done|].
    destruct (Leases.verify sha256 hmac verified' (cr_lease b) (cr_proposal b) j) as [j1 v'] eqn:Hver'.
    destruct v' as [v'|e]; [|destruct e; try discriminate Hrun'; injection Hrun' as <- <-; done].
    destruct (verify_result sha256 hmac _ _ _ _ _ _ Hver') as [_ Hok']. destruct (Hok' eq_refl) as (_ & _ & _ & _ & Hnot' & _).
    rewrite Hlease in Hnot'. set_solver.
Qed.
End policy.

(** * Workers on concrete requests

    A document request dispatched to the sandbox under a lease, its credential used
    once, an approved calendar rule on autopilot; a credential handle read as that of
    another capability, and a resource whose address makes the sandbox raise. *)

Module WorkersDemo.
Definition hmac (key text : string) : string := key +:+ ":" +:+ text.
Definition sha256 (text : string) : string := "h" +:+ text.
(** Absolute paths without links, split at their slashes. *)
Fixpoint components (cur : string) (s : string) : list string :=
  match s with
  | EmptyString => if String.eqb cur "" then [] else [cur]
  | String c s' =>
      if Ascii.eqb c "/" then (if String.eqb cur "" then components "" s' else cur :: components "" s')
      else components (cur +:+ String c "") s'
  end.
Definition resolve (path : string) : option (list string) := Some (components "" path).
Definition ipv6 (host : string) : bool := String.eqb host "::1".
#[export] Instance sandbox : WorkerRuntime SandboxWorker := sandbox_worker sha256 hmac resolve ipv6 id (λ _, true).

Definition document (worker : string) (cap : WorkerCapability.t) (refs resources : list string) : WorkerRequest :=
  {| wr_request_id := 7; wr_worker_id := worker; wr_capability := cap; wr_objective := "summarise";
     wr_scope := {| ws_resources := resources; ws_operations := ["read"] |};
     wr_budget := {| wb_max_attempts := 1; wb_max_tokens := 10; wb_max_cost_microunits := 0 |};
     wr_timeout_seconds := 60;
     wr_provenance := {| wp_source := "chat"; wp_source_id := "1"; wp_actor := "user"; wp_correlation_id := "c" |};
     wr_credential_references := refs |}.
Definition notes : WorkerRequest := document "writer" WorkerCapability.DOCUMENT ["vault"] ["/home/me/notes.md"].

(** Noon of a day, and a clock that advances a second at each reading. *)
Definition noon : Z := 20458 * day + 12 * hour.
Definition issuer : ScopedCredentialIssuer := {| ci_signing_key := "k"; ci_ttl := 2 * minute; ci_consumed := ∅ |}.
Definition box : SandboxWorker :=
  {| sw_limits := {| sl_filesystem_roots := ["/home/me"]; sl_allowed_sites := ["example.org"]; sl_max_attempts := 2;
                     sl_max_timeout_seconds := 600; sl_max_tokens := 100; sl_max_cost_microunits := 0;
                     sl_credential_ttl := 5 * minute |};
     sw_credential_issuer := Some issuer; sw_cancelled := ∅; sw_artifacts := []; sw_effects := [];
     sw_clock := λ n, noon + Z.of_nat n * second; sw_ticks := 0; sw_uuid4 := λ n, 100 + Z.of_nat n; sw_drawn := 0 |}.

Definition leases : LeaseIssuer :=
  {| li_keys := {| kr_current_key := "lease-key"; kr_generation := 0 |}; li_lease_ttl := hour; li_consumed := ∅ |}.
Definition proposal (action payload : string) : ProposalRecord :=
  {| Authority.pr_proposal_id := "p1"; pr_action_class := action; pr_payload := payload; pr_state := APPROVED;
     Authority.pr_created_at := noon |}.
Definition fact (p : ProposalRecord) (id : string) : PayloadBoundFact :=
  {| fa_fact_id := id; fa_proposal_id := Authority.pr_proposal_id p; fa_payload_hash := payload_hash sha256 p;
     fa_issued_at := noon; fa_expires_at := noon + hour; fa_idempotency_key := "i"; fa_actor := "user"; fa_correlation_id := "c" |}.
Definition lease_of (p : ProposalRecord) (cap worker : string) : CapabilityLease :=
  let f := fact p "lease-1" in
  {| le_fact := f; le_capability := cap; le_worker_id := worker;
     le_signature := sign hmac (li_keys leases) (join unit_separator (signed_fields f cap worker)) |}.
Definition approved_notes : DispatchAuthorization :=
  let p := proposal "worker.execute" (canonical_payload notes) in
  {| da_proposal := p; da_lease := lease_of p "document.execute" "writer" |}.

Definition commander : Commander (recorded SandboxWorker) :=
  {| co_runtime := Some {| rec_inner := box; rec_log := [] |}; co_lease_issuer := Some leases;
     co_broker := λ r, inl (issue_grants hmac noon issuer r); co_promoted := [] |}.

Definition first_dispatch := dispatch sha256 hmac noon notes (Some approved_notes) commander.
Definition second_dispatch := dispatch sha256 hmac noon notes (Some approved_notes) first_dispatch.1.

(** The first dispatch runs the request, the second finds its lease used. *)
Lemma notes_run_once :
  wk_status <$> match first_dispatch.2 with Ok o => o | Err _ => None end = Some WORK_SUCCEEDED
  ∧ wk_detail <$> match second_dispatch.2 with Ok o => o | Err _ => None end = Some "lease replay".
Proof. split; vm_compute; reflexivity. Qed.

Definition two_turns : list turn :=
  [ turn_of noon notes (Some approved_notes) commander first_dispatch.1 first_dispatch.2;
    turn_of noon notes (Some approved_notes) first_dispatch.1 second_dispatch.1 second_dispatch.2 ].

Lemma protected_work_needs_approval_witness :
  Forall (turn_ok (R := SandboxWorker) sha256 hmac) two_turns ∧ log second_dispatch.1 = [notes].
Proof.
  assert (history sha256 hmac commander two_turns second_dispatch.1) as Hh.
  { apply (history_dispatch _ _ _ noon notes (Some approved_notes) first_dispatch.1 first_dispatch.2);
      [vm_compute; reflexivity|unfold first_dispatch; by destruct (dispatch _ _ _ _ _ commander)|].
    apply (history_dispatch _ _ _ noon notes (Some approved_notes) second_dispatch.1 second_dispatch.2);
      [vm_compute; reflexivity|unfold second_dispatch; by destruct (dispatch _ _ _ _ _ first_dispatch.1)|].
    apply history_nil. }
  split; [exact (proj1 (proj2 (protected_work_needs_approval sha256 hmac commander two_turns second_dispatch.1 Hh)))|].
  vm_compute. reflexivity.
Defined.

(** ** A handle *)

Definition use (now : Z) : gate_call :=
  {| gc_now := now; gc_request := notes; gc_grants := issue_grants hmac noon issuer notes; gc_ttl := 5 * minute |}.

(** Used in time, used again, and used too late. *)
Lemma credentials_single_use_witness :
  gate_run hmac [use (noon + minute); use (noon + minute)] issuer
    = ((gate_run hmac [use (noon + minute); use (noon + minute)] issuer).1, [(use (noon + minute), true); (use (noon + minute), false)])
  ∧ ForallOrdPairs (λ l m, ∀ h, h ∈ l → h ∉ m) (accepted_handles [(use (noon + minute), true); (use (noon + minute), false)]).
Proof.
  assert (gate_run hmac [use (noon + minute); use (noon + minute)] issuer
    = ((gate_run hmac [use (noon + minute); use (noon + minute)] issuer).1, [(use (noon + minute), true); (use (noon + minute), false)])) as Hrun
    by (vm_compute; reflexivity).
  split; [exact Hrun|]. exact (proj1 (proj2 (credentials_single_use hmac _ _ _ _ Hrun))).
Defined.

(** ** Evidence *)

Definition session : list sandbox_op :=
  [ OpExecute notes (issue_grants hmac noon issuer notes); OpCompensate 100; OpCancel 7;
    OpExecute notes (issue_grants hmac noon issuer notes) ].

Lemma sandbox_evidence_complete_witness :
  let s := foldl (sandbox_step sha256 hmac resolve ipv6 id (λ _, true)) box session in
  ∃ s' e, reconcile_effect 100 s = (s', Ok e) ∧ we_reconciliation e = Some MATCHED.
Proof.
  intros s. destruct (dict_get 100 (sw_effects s)) as [e0|] eqn:He; [|vm_compute in He; discriminate He].
  destruct (proj2 (sandbox_evidence_complete sha256 hmac resolve ipv6 id (λ _, true) box session 100 e0 eq_refl eq_refl) He)
    as (s' & e & Hr & Hm & _).
  exists s', e. split; [exact Hr|exact Hm].
Defined.

(** ** Autopilot *)

Definition morning_rule : LearningProposal :=
  {| Learning.pr_proposal_id := 3; pr_lesson := Procedure {| ot_kind := "calendar_rule"; ot_source := "lifeos.calendar" |} ["protect mornings"];
     pr_supporting_observation_ids := [1; 2; 4]; pr_confidence := 1; pr_explanation := "three mornings";
     pr_status := ProposalStatus.APPROVED; Learning.pr_created_at := utc_datetime noon; pr_corrected_at := None; pr_correction_note := None |}.
Definition calendar_rule : CalendarRuleAuthorization :=
  let p := proposal "calendar.apply" "[]" in
  {| cr_rule := morning_rule; cr_trigger := {| ot_kind := "calendar_rule"; ot_source := "lifeos.calendar" |};
     cr_proposal := p; cr_lease := lease_of p "calendar.apply" "lifeos-calendar";
     cr_rollback := Some {| rb_fact := fact p "rollback-1"; rb_reason := "undo" |};
     cr_reconciliation := Some {| rc_fact := fact p "reconciliation-1"; rc_outcome := "checked" |} |}.

Definition autopilot := authorize sha256 hmac noon noon AUTOPILOT CALENDAR_RULE_APPLY (Some calendar_rule).

Lemma autopilot_only_approved_rules_witness :
  ∃ i d, autopilot (Some leases) = (i, Ok d) ∧ ad_allowed d = true
    ∧ ∃ d', (autopilot i).2 = Ok d' ∧ ad_allowed d' = false.
Proof.
  destruct (autopilot (Some leases)) as [i res] eqn:Hrun. destruct res as [d|e]; [|vm_compute in Hrun; discriminate Hrun].
  assert (ad_allowed d = true) as Hd by (vm_compute in Hrun; injection Hrun as _ <-; reflexivity).
  exists i, d. split; [reflexivity|]. split; [exact Hd|].
  destruct (proj2 (autopilot_only_approved_rules sha256 hmac _ _ _ _ _ _ _ _ Hrun) Hd)
    as (_ & _ & a & j & j' & Ha & _ & -> & _ & _ & _ & Hlater).
  injection Ha as <-. destruct (autopilot (Some j')) as [k [d'|e]] eqn:Hagain; [|exfalso].
  - exists d'. split; [reflexivity|]. exact (Hlater noon noon AUTOPILOT CALENDAR_RULE_APPLY calendar_rule j' k d' eq_refl (reflexivity _) Hagain).
  - vm_compute in Hrun. injection Hrun as <- _. vm_compute in Hagain. discriminate Hagain.
Defined.

(** ** A handle read as another *)

Definition us : string := unit_separator.
Definition issued_for : WorkerRequest :=
  document "writer" WorkerCapability.CODE ["document.execute" +:+ us +:+ "vault"] ["/home/me"].
Definition read_as : WorkerRequest :=
  document ("writer" +:+ us +:+ "code.execute") WorkerCapability.DOCUMENT ["vault"] ["/home/me"].

(** The fields of a handle are joined by a separator that worker names and references
    may contain: whatever the hash, a handle issued for one capability and worker is
    accepted for another capability, worker and reference. *)
Theorem credential_handle_resplit hmac' :
  ∃ g, issue_grants hmac' noon issuer issued_for = [g]
    ∧ let forged := {| cg_reference := "vault"; cg_handle := cg_handle g; cg_expires_at := cg_expires_at g;
                       cg_request_id := cg_request_id g; cg_capability := Some WorkerCapability.DOCUMENT;
                       cg_issued_at := cg_issued_at g |} in
      is_ok (consume_grants hmac' (noon + minute) read_as [forged] (5 * minute) issuer).2 = true.
Proof.
  eexists. split; [reflexivity|]. intros forged. unfold consume_grants. rewrite bool_decide_eq_true_2 by reflexivity. cbn [negb].
  assert (check_grants hmac' (noon + minute) issuer read_as (5 * minute) [forged] = Ok tt) as ->; [|reflexivity].
  apply check_grants_ok. constructor; [|constructor]. split; [|set_solver]. constructor; [reflexivity|reflexivity| |reflexivity].
  exists (utc_datetime noon), (2 * minute). split_and!; [reflexivity|reflexivity|done|]. unfold forged, _sign. simpl cg_handle. unfold _sign. do 2 f_equal.
Qed.

(** ** An address the sandbox cannot read *)

(** [urlsplit] raises outside the block that catches its errors: a browser request
    for a malformed address raises instead of being denied. *)
Theorem malformed_address_raises :
  let r := document "reader" WorkerCapability.BROWSER [] ["https://[example.org/"] in
  request_valid r = true ∧ (execute r [] box).2 = Err WorkerValueError
  ∧ (execute (document "reader" WorkerCapability.BROWSER [] ["https://example.org:x/"]) [] box).2 = Ok (failed "site_not_allowed").
Proof. split_and!; vm_compute; reflexivity. Qed.
End WorkersDemo.
