(* ===== verification/KnowledgeCommands.v ===== *)
(** * Commands of the user on the Life Model ([knowledge_commands.py])

    What a person sees of the assertions about them, and the explicit changes they may
    ask for: corrections, confirmations, restrictions, ends of validity and erasure. *)

From stdpp Require Import prelude base strings list gmap.
From Stdlib Require Import ZArith QArith Lia.
From S2P Require Import Prelude PyTime PyText PyUuid Transactions AuditLedger Knowledge Memory MemoryCodec MemorySpec LifeModel.
#[local] Open Scope string_scope.
#[local] Open Scope list_scope.
#[local] Open Scope Z_scope.

Module CommandAction.
Inductive t := CORRECT | CONFIRM | MAKE_PRIVATE | EXCLUDE_PLANNING | ALLOW_PLANNING | NO_LONGER_TRUE | TEMPORARY | FORGET.
#[global] Instance eq_dec : EqDecision t.
Proof. solve_decision. Defined.
End CommandAction.

Record KnowledgeCommand := {
  kc_expected_revision : Z;
  kc_action : CommandAction.t;
  kc_text : string;
  kc_valid_until : option datetime;
}.
Definition command_valid (c : KnowledgeCommand) : bool :=
  (1 <=? kc_expected_revision c) && (Z.of_nat (String.length (kc_text c)) <=? 8000).

Record KnowledgeItem := {
  ki_memory_id : uuid;
  ki_revision : Z;
  ki_domain : LifeDomain.t;
  ki_content : string;
  ki_state : KnowledgeState.t;
  ki_current : bool;
  ki_explanation : string;
  ki_sensitivity : Sensitivity.t;
  ki_planning_allowed : bool;
}.

(** ** Updated details *)

(** [details.model_dump() | {...}] of a correction or a confirmation. *)
Definition with_confirmation (now : datetime) (k : KnowledgeDetails) : KnowledgeDetails :=
  {| kd_subject_id := kd_subject_id k; kd_key := kd_key k; kd_cardinality := kd_cardinality k;
     kd_domain := kd_domain k; kd_kind := kd_kind k; kd_state := KnowledgeState.CONFIRMED;
     kd_observed_at := now; kd_last_confirmed_at := Some now;
     kd_valid_from := Some now; kd_valid_until := None;
     kd_expected_staleness_days := kd_expected_staleness_days k; kd_sensitivity := kd_sensitivity k;
     kd_importance := kd_importance k; kd_related_entity_ids := kd_related_entity_ids k;
     kd_related_goal_ids := kd_related_goal_ids k; kd_related_project_ids := kd_related_project_ids k;
     kd_evidence_ids := kd_evidence_ids k; kd_conflicts_with := [];
     kd_planning_allowed := kd_planning_allowed k; kd_source_evidence := kd_source_evidence k;
     kd_superseded_by := kd_superseded_by k; kd_routine := kd_routine k;
     kd_pending_confirmation := kd_pending_confirmation k; kd_project := kd_project k;
     kd_open_loop := kd_open_loop k |}.
Definition with_end (until : datetime) (k : KnowledgeDetails) : KnowledgeDetails :=
  {| kd_subject_id := kd_subject_id k; kd_key := kd_key k; kd_cardinality := kd_cardinality k;
     kd_domain := kd_domain k; kd_kind := kd_kind k; kd_state := kd_state k;
     kd_observed_at := kd_observed_at k; kd_last_confirmed_at := kd_last_confirmed_at k;
     kd_valid_from := kd_valid_from k; kd_valid_until := Some until;
     kd_expected_staleness_days := kd_expected_staleness_days k; kd_sensitivity := kd_sensitivity k;
     kd_importance := kd_importance k; kd_related_entity_ids := kd_related_entity_ids k;
     kd_related_goal_ids := kd_related_goal_ids k; kd_related_project_ids := kd_related_project_ids k;
     kd_evidence_ids := kd_evidence_ids k; kd_conflicts_with := kd_conflicts_with k;
     kd_planning_allowed := kd_planning_allowed k; kd_source_evidence := kd_source_evidence k;
     kd_superseded_by := kd_superseded_by k; kd_routine := kd_routine k;
     kd_pending_confirmation := kd_pending_confirmation k; kd_project := kd_project k;
     kd_open_loop := kd_open_loop k |}.

(** ** Commands *)

Section commands.
Context (hmac : string → string → string) (audit_key : string) (zone_known : string → bool).
Context `{RecordCodec} (fold_content strip_content : string → string).
Abbreviation K A := (comp (connection memory_db) MemoryError A).

Definition item_of (v : KnowledgeView) : option KnowledgeItem :=
  k ← mr_knowledge (kv_record v);
  Some {| ki_memory_id := mr_memory_id (kv_record v); ki_revision := mr_revision (kv_record v); ki_domain := kd_domain k;
          ki_content := mr_content (kv_record v); ki_state := kv_state v; ki_current := kv_current v;
          ki_explanation := explanation v; ki_sensitivity := kd_sensitivity k; ki_planning_allowed := kd_planning_allowed k |}.
(** [clock] is the repository's. *)
Definition knowledge_items (subject_id : string) (clock now : datetime) (db : memory_db) : result MemoryError (list KnowledgeItem) :=
  match knowledge fold_content strip_content subject_id RetrievalScope.PRIVATE clock now db with
  | Ok views => Ok (omap item_of views)
  | Err e => Err e
  end.

Definition _valid_until (c : KnowledgeCommand) (now : datetime) : result MemoryError datetime :=
  match (if bool_decide (kc_action c = CommandAction.NO_LONGER_TRUE) then Some now else kc_valid_until c) with
  | None => Err (MemoryValueError "temporary knowledge requires an end time")
  | Some until => Ok until
  end.

(** The new content, details, scopes and confidence; everything but erasure. *)
Definition changed (c : KnowledgeCommand) (r : MemoryRecord) (k : KnowledgeDetails) (now : datetime) :
    result MemoryError (string * KnowledgeDetails * gset RetrievalScope.t * Q) :=
  let content := mr_content r in
  let scopes := mr_retrieval_scopes r in
  let confidence := mr_confidence r in
  match kc_action c with
  | CommandAction.CORRECT =>
      if String.eqb (strip_content (kc_text c)) "" then Err (MemoryValueError "a correction requires the replacement fact")
      else Ok (strip_content (kc_text c), with_confirmation now k, scopes, 1%Q)
  | CommandAction.CONFIRM => Ok (content, with_confirmation now k, scopes, 1%Q)
  | CommandAction.MAKE_PRIVATE =>
      Ok (content, with_planning false (with_sensitivity Sensitivity.RESTRICTED k), {[RetrievalScope.PRIVATE]}, confidence)
  | CommandAction.EXCLUDE_PLANNING => Ok (content, with_planning false k, scopes ∖ {[RetrievalScope.PLANNING]}, confidence)
  | CommandAction.ALLOW_PLANNING => Ok (content, with_planning true k, scopes ∪ {[RetrievalScope.PLANNING]}, confidence)
  | CommandAction.NO_LONGER_TRUE | CommandAction.TEMPORARY =>
      match _valid_until c now with Ok until => Ok (content, with_end until k, scopes, confidence) | Err e => Err e end
  | CommandAction.FORGET => Ok (content, k, scopes, confidence)
  end.

Definition correction_of (r : MemoryRecord) (x : string * KnowledgeDetails * gset RetrievalScope.t * Q) (ctx : TransitionContext) :
    MemoryCorrection :=
  let '(content, k, scopes, confidence) := x in
  {| mc_expected_revision := mr_revision r; mc_content := content;
     mc_provenance := {| mp_source := MemorySource.USER_CORRECTION; mp_source_id := "correction:" +:+ tc_correlation_id ctx;
                         mp_captured_at := tc_occurred_at ctx |};
     mc_confidence := confidence; mc_retrieval_scopes := scopes; mc_retain_until := mr_retain_until r;
     mc_knowledge := Some k; mc_interview := None |}.

(** [model.memory.correct(memory_id, MemoryCorrection(...), context)] with details that
    were validated before. *)
Definition apply_change (memory_id : uuid) (r : MemoryRecord) (x : string * KnowledgeDetails * gset RetrievalScope.t * Q)
    (ctx : TransitionContext) : K unit :=
  let '(_, k, _, _) := x in
  query (λ _, knowledge_error (validate_details zone_known k)) ≫= λ _,
  query (λ _, knowledge_error (validate_correction_fields (correction_of r x ctx))) ≫= λ _,
  correct hmac audit_key memory_id (correction_of r x ctx) ctx ≫= λ _, mret tt.

Definition correct_knowledge (subject_id : string) (clock : datetime) (memory_id : uuid) (c : KnowledgeCommand) (ctx : TransitionContext) : K unit :=
  domain_transaction (
    query (knowledge fold_content strip_content subject_id RetrievalScope.PRIVATE clock (tc_occurred_at ctx)) ≫= λ views,
    match List.find (λ v, mr_memory_id (kv_record v) =? memory_id) views with
    | None => throw (MemoryValueError "knowledge unavailable")
    | Some v =>
        let r := kv_record v in
        match mr_knowledge r with
        | None => throw (MemoryValueError "knowledge unavailable")
        | Some k =>
            throw_if (negb (mr_revision r =? kc_expected_revision c))
              (StaleMemoryRevisionError memory_id (kc_expected_revision c) (mr_revision r)) ≫= λ _,
            if bool_decide (kc_action c = CommandAction.FORGET)
            then delete_record hmac audit_key memory_id (mr_revision r) ctx
            else query (λ _, changed c r k (tc_occurred_at ctx)) ≫= λ x, apply_change memory_id r x ctx
        end
    end).
End commands.

(** * What the user's commands achieve

    Restrictions hold from the moment they are acknowledged, and what was made private
    stays out of planning whatever is commanded later; an assertion that was observed
    rather than stated cannot be restricted at all. *)

(** A block that returns ran its body on the contents it found. *)
Lemma block_ran {Db E A : Type} (m : comp (connection Db) E A) c c' a : domain_transaction m c = (c', Ok a) →
  ∃ c0 c1, live c0 = live c ∧ m c0 = (c1, Ok a) ∧ live c' = live c1.
Proof.
  unfold domain_transaction. destruct (in_transaction c).
  - destruct (m c) as [c1 [b|e]] eqn:Hm; [|done]. intros [= <- <-]. by exists c, c1.
  - destruct (m (begin_immediate c)) as [c1 [b|e]] eqn:Hm; [|done]. intros [= <- <-]. by exists (begin_immediate c), c1.
Qed.

Section commands.
Context (hmac : string → string → string) (audit_key : string) (zone_known : string → bool).
Context `{RecordCodec} `{!RecordCodecLaws zone_known} (fold_content strip_content : string → string).
Abbreviation conn := (connection memory_db).
Abbreviation correct_knowledge := (correct_knowledge hmac audit_key zone_known fold_content strip_content).
Abbreviation knowledge := (knowledge fold_content strip_content).
Abbreviation planning_knowledge := (planning_knowledge fold_content strip_content).

(** Every row is the JSON of a valid record under its identifier. *)
Definition rows_valid (db : memory_db) : Prop := ∀ id row, md_memories db !! id = Some row → row_ok zone_known id row.

(** ** The record a command changes *)

Lemma valid_parses id row r : row_ok zone_known id row → parse_row row = Ok r →
  mr_memory_id r = id ∧ row = row_of_record r ∧ plain_record r = true ∧ record_valid zone_known r = true.
Proof. intros (r' & Hid & -> & Hp & Hv) Hr. rewrite (parse_row_of zone_known) in Hr by done. injection Hr as <-. done. Qed.

Lemma stored_view subject scope clock now db views v : rows_valid db → knowledge subject scope clock now db = Ok views → v ∈ views →
  md_memories db !! mr_memory_id (kv_record v) = Some (row_of_record (kv_record v))
  ∧ plain_record (kv_record v) = true ∧ record_valid zone_known (kv_record v) = true.
Proof.
  intros Hdb Hk Hv. unfold LifeModel.knowledge in Hk. destruct (retrieve scope clock db) as [found|] eqn:Hf; [|done].
  apply (views_of_elem _ _ _ _ _ _ _ Hk) in Hv as (r & k & [Hr _]%about_elem & _ & Hview).
  destruct (view_of_ok _ _ _ _ _ _ _ Hview) as (_ & -> & _).
  destruct (retrieve_elem _ _ _ _ _ Hf Hr) as (_ & _ & id & row & Hrow & Hp).
  destruct (valid_parses id row r (Hdb _ _ Hrow) Hp) as (-> & -> & ? & ?). done.
Qed.

Lemma read_stored_record db r : md_memories db !! mr_memory_id r = Some (row_of_record r) → plain_record r = true → record_valid zone_known r = true →
  read (mr_memory_id r) db = Ok r.
Proof. intros Hrow Hp Hv. unfold read. rewrite Hrow. by apply (parse_row_of zone_known). Qed.

Lemma ledger_keeps_memories r action fp ctx db db' :
  audit_append hmac audit_key r action fp ctx db = Ok db' → md_memories db' = md_memories db.
Proof. unfold audit_append. destruct (AuditLedger.append _ _ _ _) as [a [u|e]]; [|done]. by intros [= <-]. Qed.

(** [correct], in whatever transaction it runs. *)
Lemma correct_ran id m ctx (c c' : conn) r' current : correct hmac audit_key id m ctx c = (c', Ok r') → read id (live c) = Ok current →
  mr_memory_id current = id →
  r' = replacement_of id current m ∧ is_ok (validate_instance r') = true
  ∧ md_memories (live c') = <[id := row_of_record r']> (md_memories (live c)).
Proof.
  intros (c0 & c1 & Hlive & Hrun & ->)%block_ran Hread Hid. rewrite <- Hlive in *.
  apply bind_inv in Hrun as (? & c2 & [-> _]%query_inv & Hrun). apply bind_inv in Hrun as (cur & c3 & [-> Hcur]%query_inv & Hrun).
  rewrite Hread in Hcur. injection Hcur as <-.
  apply bind_inv in Hrun as (? & c4 & [-> _]%query_inv & Hrun). apply bind_inv in Hrun as (? & c5 & [-> _]%query_inv & Hrun).
  apply bind_inv in Hrun as (rep & c6 & [-> Hb]%query_inv & Hrun). apply bind_inv in Hrun as (? & c7 & [_ ->]%remove_inv & Hrun).
  apply bind_inv in Hrun as (? & c8 & (db1 & Hins & ->)%execute_inv & Hrun).
  apply bind_inv in Hrun as (? & c9 & (db2 & Happ & ->)%execute_inv & [= <- <-]). simpl in *.
  unfold built in Hb. destruct (validate_instance (replacement_of id current m)) eqn:Hval; [|done]. injection Hb as <-.
  apply ledger_keeps_memories in Happ as ->. unfold insert_memory in Hins. simpl in Hins.
  rewrite Hid, lookup_delete_eq in Hins. injection Hins as <-. simpl. rewrite Hval, insert_delete_eq. done.
Qed.

Lemma delete_ran id rev ctx (c c' : conn) u current : delete_record hmac audit_key id rev ctx c = (c', Ok u) → read id (live c) = Ok current →
  mr_memory_id current = id → md_memories (live c') = delete id (md_memories (live c)).
Proof.
  intros (c0 & c1 & Hlive & Hrun & ->)%block_ran Hread Hid. rewrite <- Hlive in *.
  apply bind_inv in Hrun as (? & c2 & [-> _]%query_inv & Hrun). apply bind_inv in Hrun as (cur & c3 & [-> Hcur]%query_inv & Hrun).
  rewrite Hread in Hcur. injection Hcur as <-. apply bind_inv in Hrun as (? & c4 & [-> _]%query_inv & Hrun).
  apply bind_inv in Hrun as (? & c7 & [_ ->]%remove_inv & (db2 & Happ & ->)%execute_inv). simpl in *.
  apply ledger_keeps_memories in Happ as ->. simpl. by rewrite Hid.
Qed.

(** Times of a command that survive JSON. *)
Definition plain_command (c : KnowledgeCommand) (ctx : TransitionContext) : bool :=
  plain_time (tc_occurred_at ctx) && plain_opt (kc_valid_until c) && negb (String.eqb (tc_correlation_id ctx) "").

Lemma changed_plain c r k now x : plain_details k = true → plain_time now = true → plain_opt (kc_valid_until c) = true →
  changed strip_content c r k now = Ok x → plain_details x.1.1.2 = true.
Proof.
  intros Hk Hnow Huntil. unfold changed, _valid_until.
  assert (plain_details (with_confirmation now k) = true) as Hconf.
  { unfold plain_details in *. simpl. rewrite Hnow. simpl. bool_to_prop. repeat (apply andb_true_iff; split); done. }
  assert (∀ u, plain_time u = true → plain_details (with_end u k) = true) as Hend.
  { intros u Hu. unfold plain_details in *. simpl. rewrite Hu. bool_to_prop. repeat (apply andb_true_iff; split); done. }
  destruct (kc_action c); simpl; try (by intros [= <-]).
  - destruct (String.eqb _ _); [done|]. by intros [= <-].
  - intros [= <-]. by apply Hend.
  - destruct (kc_valid_until c) as [u|]; [|done]. intros [= <-]. by apply Hend.
Qed.

(** What a command that returns has done. *)
Lemma command_ran subject clock id cmd ctx (c c' : conn) u : rows_valid (live c) → in_transaction c = false → plain_command cmd ctx = true →
  correct_knowledge subject clock id cmd ctx c = (c', Ok u) →
  in_transaction c' = false ∧ durable c' = live c'
  ∧ ∃ r k, mr_memory_id r = id ∧ mr_knowledge r = Some k ∧ mr_revision r = kc_expected_revision cmd
      ∧ md_memories (live c) !! id = Some (row_of_record r) ∧ plain_record r = true ∧ record_valid zone_known r = true
      ∧ if bool_decide (kc_action cmd = CommandAction.FORGET) then md_memories (live c') = delete id (md_memories (live c))
        else ∃ x, changed strip_content cmd r k (tc_occurred_at ctx) = Ok x
               ∧ plain_record (replacement_of id r (correction_of r x ctx)) = true
               ∧ record_valid zone_known (replacement_of id r (correction_of r x ctx)) = true
               ∧ md_memories (live c') = <[id := row_of_record (replacement_of id r (correction_of r x ctx))]> (md_memories (live c)).
Proof.
  intros Hdb Hin Hplain Hrun. apply domain_transaction_inv in Hrun as (c1 & Hrun & ->); [|done]. split_and!; [done|done|].
  unfold plain_command in Hplain. bool_to_prop. apply bind_inv in Hrun as (views & c2 & [-> Hviews]%query_inv & Hrun).
  destruct (List.find _ views) as [v|] eqn:Hfind; [|done]. apply find_some in Hfind as [Hv Hid%Z.eqb_eq].
  rewrite <- list_elem_of_In in Hv. destruct (stored_view _ _ _ _ _ _ _ Hdb Hviews Hv) as (Hrow & Hp & Hval).
  cbv zeta in Hrun. destruct (mr_knowledge (kv_record v)) as [k|] eqn:Hk; [|done].
  apply bind_inv in Hrun as (u2 & c2 & [= <- Hrev%raise_if_ok] & Hrun). apply negb_false_iff, Z.eqb_eq in Hrev.
  assert (read id (live (begin_immediate c)) = Ok (kv_record v)) as Hread by (rewrite <- Hid; by apply read_stored_record).
  exists (kv_record v), k. split_and!; [done|done|done|by rewrite <- Hid|done|done|].
  destruct (bool_decide (kc_action cmd = CommandAction.FORGET)).
  { exact (delete_ran _ _ _ _ _ _ _ Hrun Hread Hid). }
  apply bind_inv in Hrun as (x & c2 & [-> Hx]%query_inv & Hrun). exists x. split; [done|].
  destruct x as [[[content k'] scopes] confidence]. unfold apply_change in Hrun.
  apply bind_inv in Hrun as (u3 & c2 & [-> Hdet]%query_inv & Hrun). apply bind_inv in Hrun as (u4 & c2 & [-> _]%query_inv & Hrun).
  apply bind_inv in Hrun as (r' & c3 & Hcor & [= <- _]). apply (correct_ran _ _ _ _ _ _ _ Hcor Hread) in Hid as Hcr.
  destruct Hcr as (-> & Hinst & Hmem).
  set (m := correction_of _ _ _) in *.
  assert (plain_correction zone_known m = true) as Hm.
  { unfold plain_correction, m. simpl. pose proof Hp as Hp'. unfold plain_record in Hp'. rewrite Hk in Hp'. bool_to_prop.
    assert (plain_details k' = true) as -> by (by eapply (changed_plain cmd (kv_record v) k (tc_occurred_at ctx) (content, k', scopes, confidence))).
    unfold validate_correction, validate_nested. simpl. unfold knowledge_error in Hdet.
    destruct (validate_details zone_known k') as [[]|]; [|done]. simpl. rewrite ?andb_true_r. by apply andb_true_iff. }
  split_and!; [by apply (plain_replacement zone_known)| |done].
  destruct (validate_instance _) as [u5|] eqn:Hi; [|done]. by eapply (replacement_valid zone_known).
Qed.

(** ** Histories of commands *)

Record command := {
  co_subject : string;
  co_clock : datetime;
  co_memory : uuid;
  co_command : KnowledgeCommand;
  co_context : TransitionContext;
}.
Definition plain_call (x : command) : Prop := plain_command (co_command x) (co_context x) = true.
Definition command_do (x : command) : comp conn MemoryError unit :=
  correct_knowledge (co_subject x) (co_clock x) (co_memory x) (co_command x) (co_context x).
Definition commands_run (xs : list command) (c : conn) : conn := foldl (λ c x, (command_do x c).1) c xs.

(** Between commands: valid rows, on disk as in memory. *)
Definition conn_valid (c : conn) : Prop := rows_valid (live c) ∧ in_transaction c = false ∧ durable c = live c.

Ltac within_all :=
  repeat (intros; first [apply within_domain_transaction | apply within_bind | apply within_query | apply within_execute
                        | apply within_ret | apply within_throw]).

(** A refused command changes nothing. *)
Lemma command_refused x c c' e : conn_valid c → command_do x c = (c', Err e) → c' = c.
Proof.
  intros (_ & _ & Hd) Hrun. unfold command_do, KnowledgeCommands.correct_knowledge in Hrun.
  match type of Hrun with domain_transaction ?m c = _ => pose proof (domain_transaction_atomic m c e) as Hat end.
  rewrite Hrun in Hat. simpl in Hat. apply Hat; [|by intros _|done]. clear Hat Hrun.
  apply within_bind; [apply within_query|]. intros views.
  destruct (List.find _ views) as [v|]; [|apply within_throw]. cbv zeta. destruct (mr_knowledge _); [|apply within_throw].
  apply within_bind; [by intros c0 Hc0|intros _]. destruct (bool_decide _).
  - unfold delete_record, audit_verify, remove. within_all.
  - apply within_bind; [apply within_query|]. intros [[[content k'] scopes] confidence].
    unfold apply_change, correct, audit_verify, remove. within_all.
Qed.

Lemma command_keeps x c : conn_valid c → plain_call x → conn_valid (command_do x c).1.
Proof.
  intros Hc Hp. destruct (command_do x c) as [c' [u|e]] eqn:Hrun; [|by rewrite (command_refused x c c' e Hc Hrun)]. simpl.
  destruct Hc as (Hdb & Hin & Hd). destruct (command_ran _ _ _ _ _ _ _ _ Hdb Hin Hp Hrun) as (Hin' & Hd' & r & k & Hid & Hk & _ & Hrow & _ & _ & Hcase).
  split_and!; [|done|done]. intros id row Hl. destruct (bool_decide _).
  - rewrite Hcase in Hl. apply lookup_delete_Some in Hl as [_ Hl]. by apply Hdb.
  - destruct Hcase as (y & _ & Hpy & Hvy & Hmem). rewrite Hmem in Hl. apply lookup_insert_Some in Hl as [[<- <-]|[_ Hl]]; [|by apply Hdb].
    exists (replacement_of (co_memory x) r (correction_of r y (co_context x))). split_and!; try done.
Qed.

Lemma commands_keep xs c : conn_valid c → Forall plain_call xs → conn_valid (commands_run xs c).
Proof. revert c. induction xs as [|x xs IH]; intros c Hc Hp; [done|]. apply Forall_cons in Hp as [Hx Hxs]. simpl. apply IH; [by apply command_keeps|done]. Qed.

(** ** What stays out of planning *)

(** The memory is gone, or restricted. *)
Definition withheld (id : uuid) (db : memory_db) : Prop :=
  ∀ r k, md_memories db !! id = Some (row_of_record r) → mr_memory_id r = id → plain_record r = true → record_valid zone_known r = true →
    mr_knowledge r = Some k → kd_sensitivity k = Sensitivity.RESTRICTED.

Lemma changed_sensitivity cmd r k now x : changed strip_content cmd r k now = Ok x →
  kd_sensitivity x.1.1.2 = kd_sensitivity k ∨ kd_sensitivity x.1.1.2 = Sensitivity.RESTRICTED.
Proof.
  unfold changed, _valid_until. destruct (kc_action cmd); simpl; try (intros [= <-]; by auto).
  - destruct (String.eqb _ _); [done|]. intros [= <-]. by left.
  - destruct (kc_valid_until cmd); [|done]. intros [= <-]. by left.
Qed.

Lemma row_of_record_inj r r' : plain_record r = true → record_valid zone_known r = true → plain_record r' = true → record_valid zone_known r' = true →
  row_of_record r = row_of_record r' → r = r'.
Proof.
  intros Hp Hv Hp' Hv' Heq. pose proof (parse_row_of zone_known r Hp Hv) as H1. rewrite Heq, (parse_row_of zone_known r' Hp' Hv') in H1. congruence.
Qed.

Lemma withheld_stays x id c : conn_valid c → plain_call x → withheld id (live c) → withheld id (live (command_do x c).1).
Proof.
  intros Hc Hp Hw. destruct (command_do x c) as [c' [u|e]] eqn:Hrun; [|by rewrite (command_refused x c c' e Hc Hrun)]. simpl.
  destruct Hc as (Hdb & Hin & Hd). destruct (command_ran _ _ _ _ _ _ _ _ Hdb Hin Hp Hrun) as (_ & _ & r & k & Hid & Hk & _ & Hrow & Hpr & Hvr & Hcase).
  intros r1 k1 Hl1 Hid1 Hp1 Hv1 Hk1. destruct (bool_decide _).
  { rewrite Hcase in Hl1. apply lookup_delete_Some in Hl1 as [_ Hl1]. by eapply Hw. }
  destruct Hcase as (y & Hy & Hpy & Hvy & Hmem). rewrite Hmem in Hl1. apply lookup_insert_Some in Hl1 as [[<- Hrow1]|[_ Hl1]]; [|by eapply Hw].
  apply row_of_record_inj in Hrow1 as <-; [|done..]. destruct y as [[[content k'] scopes] confidence]. simpl in Hk1. injection Hk1 as <-.
  destruct (changed_sensitivity _ _ _ _ _ Hy) as [Hs|Hs]; simpl in Hs; [|done]. rewrite Hs. by apply (Hw r).
Qed.

Lemma withheld_run xs id c : conn_valid c → Forall plain_call xs → withheld id (live c) → withheld id (live (commands_run xs c)).
Proof.
  revert c. induction xs as [|x xs IH]; intros c Hc Hp Hw; [done|]. apply Forall_cons in Hp as [Hx Hxs].
  simpl. apply IH; [by apply command_keeps|done|by apply withheld_stays].
Qed.

(** What a planning view says of the row it came from. *)
Lemma planning_view subject clock now db views v : rows_valid db → planning_knowledge subject clock now db = Ok views → v ∈ views →
  ∃ k, mr_knowledge (kv_record v) = Some k ∧ plannable v = true ∧ kv_current v = applies k now
    ∧ md_memories db !! mr_memory_id (kv_record v) = Some (row_of_record (kv_record v))
    ∧ plain_record (kv_record v) = true ∧ record_valid zone_known (kv_record v) = true.
Proof.
  intros Hdb. unfold LifeModel.planning_knowledge. destruct (knowledge subject _ clock now db) as [all|] eqn:Hk; [|done].
  intros [= <-] Hv. apply list_elem_of_In, filter_In in Hv as [Hv Hpl]. rewrite <- list_elem_of_In in Hv.
  destruct (stored_view _ _ _ _ _ _ _ Hdb Hk Hv) as (Hrow & Hp & Hval).
  unfold LifeModel.knowledge in Hk. destruct (retrieve _ clock db) as [found|]; [|done].
  apply (views_of_elem _ _ _ _ _ _ _ Hk) in Hv as (r & k & _ & Hkr & Hview).
  destruct (view_of_ok _ _ _ _ _ _ _ Hview) as (_ & <- & Hcur & _). by exists k.
Qed.

Lemma plannable_inv v k : plannable v = true → mr_knowledge (kv_record v) = Some k →
  RetrievalScope.PLANNING ∈ mr_retrieval_scopes (kv_record v) ∧ kd_planning_allowed k = true
  ∧ kd_sensitivity k ≠ Sensitivity.RESTRICTED ∧ kv_current v = true.
Proof. unfold plannable. intros Hpl Hk. rewrite Hk in Hpl. by bool_to_prop. Qed.

Lemma withheld_unplanned id c subject clock now views v : conn_valid c → withheld id (live c) →
  planning_knowledge subject clock now (live c) = Ok views → v ∈ views → mr_memory_id (kv_record v) ≠ id.
Proof.
  intros (Hdb & _) Hw Hviews Hv Hid. destruct (planning_view _ _ _ _ _ _ Hdb Hviews Hv) as (k & Hk & Hpl & _ & Hrow & Hp & Hval).
  destruct (plannable_inv _ _ Hpl Hk) as (_ & _ & Hs & _). apply Hs. rewrite Hid in Hrow. by apply (Hw (kv_record v)).
Qed.

(** The commands after which a memory may not be planned with. *)
Definition withholding (a : CommandAction.t) : bool :=
  match a with
  | CommandAction.MAKE_PRIVATE | CommandAction.EXCLUDE_PLANNING | CommandAction.NO_LONGER_TRUE | CommandAction.FORGET => true
  | _ => false
  end.

Lemma withholding_effective x (c c' : conn) subject clock now views v : conn_valid c → plain_call x → command_do x c = (c', Ok tt) →
  withholding (kc_action (co_command x)) = true →
  (kc_action (co_command x) = CommandAction.NO_LONGER_TRUE → dt_ltb now (tc_occurred_at (co_context x)) = false) →
  planning_knowledge subject clock now (live c') = Ok views → v ∈ views → mr_memory_id (kv_record v) ≠ co_memory x.
Proof.
  intros Hc Hp Hrun Hact Hnow Hviews Hv Hid. pose proof (command_keeps x c Hc Hp) as Hc'. rewrite Hrun in Hc'. simpl in Hc'.
  destruct (planning_view _ _ _ _ _ _ (proj1 Hc') Hviews Hv) as (kv & Hkv & Hpl & Hcur & Hrow & Hpv & Hvv).
  destruct (plannable_inv _ _ Hpl Hkv) as (Hscope & Hallow & Hsens & Hnowv). rewrite Hid in Hrow. destruct Hc as (Hdb & Hin & _).
  destruct (command_ran _ _ _ _ _ _ _ _ Hdb Hin Hp Hrun) as (_ & _ & r & k & _ & Hk & _ & _ & _ & _ & Hcase).
  case_bool_decide as Hforget; [by rewrite Hcase, lookup_delete_eq in Hrow|]. destruct Hcase as (y & Hy & Hpy & Hvy & Hmem).
  rewrite Hmem, lookup_insert_eq in Hrow.
  assert (row_of_record (replacement_of (co_memory x) r (correction_of r y (co_context x))) = row_of_record (kv_record v)) as Heq by congruence.
  apply row_of_record_inj in Heq; [|done..]. rewrite <- Heq in *. clear Hrow Heq.
  unfold changed, _valid_until in Hy. destruct (kc_action (co_command x)) eqn:Ha; try done; simpl in Hy; injection Hy as <-;
    simpl in *; injection Hkv as <-; try done.
  rewrite Hcur in Hnowv. unfold applies, current_at in Hnowv. simpl in Hnowv. destruct (require_aware now); [|done]. simpl in Hnowv.
  rewrite (Hnow eq_refl), andb_false_r in Hnowv. done.
Qed.

(** C39. Restrictions of the user hold: once a command to make a memory private, to keep it
    out of planning, to end it or to forget it was acknowledged, no planning projection
    contains it (for an ended one, at any time that is not earlier); other memories are
    as they were and the change is on disk; and what was made private or forgotten stays
    out of planning whatever commands follow, even one that allows planning again. *)
Theorem withheld_knowledge_never_plans x (c c' : conn) : conn_valid c → plain_call x → command_do x c = (c', Ok tt) →
  (withholding (kc_action (co_command x)) = true → ∀ subject clock now views v,
     (kc_action (co_command x) = CommandAction.NO_LONGER_TRUE → dt_ltb now (tc_occurred_at (co_context x)) = false) →
     planning_knowledge subject clock now (live c') = Ok views → v ∈ views → mr_memory_id (kv_record v) ≠ co_memory x)
  ∧ (∀ other, other ≠ co_memory x → md_memories (live c') !! other = md_memories (live c) !! other)
  ∧ durable c' = live c'
  ∧ (kc_action (co_command x) ∈ [CommandAction.MAKE_PRIVATE; CommandAction.FORGET] → ∀ xs subject clock now views v,
      Forall plain_call xs → planning_knowledge subject clock now (live (commands_run xs c')) = Ok views → v ∈ views →
      mr_memory_id (kv_record v) ≠ co_memory x).
Proof.
  intros Hc Hp Hrun. pose proof (command_keeps x c Hc Hp) as Hc'. rewrite Hrun in Hc'. simpl in Hc'.
  split_and!; [intros Ha subject clock now views v Hnow; by apply (withholding_effective x c c')| |apply Hc'|].
  - destruct Hc as (Hdb & Hin & _). destruct (command_ran _ _ _ _ _ _ _ _ Hdb Hin Hp Hrun) as (_ & _ & r & k & _ & _ & _ & _ & _ & _ & Hcase).
    intros other Hne. case_bool_decide; [by rewrite Hcase, lookup_delete_ne|]. destruct Hcase as (y & _ & _ & _ & ->). by rewrite lookup_insert_ne.
  - intros Ha xs subject clock now views v Hxs. apply (withheld_unplanned (co_memory x)); [by apply commands_keep|].
    apply withheld_run; [done|done|]. destruct Hc as (Hdb & Hin & _).
    destruct (command_ran _ _ _ _ _ _ _ _ Hdb Hin Hp Hrun) as (_ & _ & r & k & _ & _ & _ & _ & _ & _ & Hcase).
    intros r1 k1 Hrow Hid1 Hp1 Hv1 Hk1. case_bool_decide as Hforget; [by rewrite Hcase, lookup_delete_eq in Hrow|].
    destruct Hcase as (y & Hy & Hpy & Hvy & Hmem). rewrite Hmem, lookup_insert_eq in Hrow.
    assert (row_of_record (replacement_of (co_memory x) r (correction_of r y (co_context x))) = row_of_record r1) as Heq by congruence.
    apply row_of_record_inj in Heq as <-; [|done..]. unfold changed in Hy. destruct (kc_action (co_command x)); try (set_solver);
      injection Hy as <-; by injection Hk1 as <-.
Qed.

(** ** Observed knowledge *)

(** A memory that was observed, imported or read from a connected system cannot be made
    private, excluded from planning, allowed for it or ended: the change is recorded as the
    user's correction, and an observed assertion with that source is not valid. *)
Theorem observed_knowledge_cannot_be_restricted subject clock id cmd ctx (c c' : conn) u : rows_valid (live c) → in_transaction c = false →
  plain_command cmd ctx = true → kc_action cmd ∉ [CommandAction.CORRECT; CommandAction.CONFIRM; CommandAction.FORGET] →
  (∀ r k, md_memories (live c) !! id = Some (row_of_record r) → record_valid zone_known r = true → mr_knowledge r = Some k →
     kd_state k = KnowledgeState.OBSERVED) →
  correct_knowledge subject clock id cmd ctx c ≠ (c', Ok u).
Proof.
  intros Hdb Hin Hp Ha Hobs Hrun. destruct (command_ran _ _ _ _ _ _ _ _ Hdb Hin Hp Hrun) as (_ & _ & r & k & _ & Hk & _ & Hrow & _ & Hvr & Hcase).
  specialize (Hobs r k Hrow Hvr Hk). rewrite bool_decide_eq_false_2 in Hcase by set_solver. destruct Hcase as (y & Hy & _ & Hvy & _).
  destruct y as [[[content k'] scopes] confidence].
  assert (kd_state k' = KnowledgeState.OBSERVED) as Hk'.
  { unfold changed, _valid_until in Hy. destruct (kc_action cmd); try set_solver; simpl in Hy;
      [..|destruct (kc_valid_until cmd); [|done]]; injection Hy as _ Heq _ _; by rewrite <- Heq. }
  unfold record_valid, validate_record, validate_instance, validate_knowledge_source in Hvy. simpl in Hvy. rewrite Hk' in Hvy.
  destruct (validate_nested _ _ _ _); [|done]. simpl in Hvy. destruct (validate_fields _); [|done]. done.
Qed.
End commands.

(** ** A person at work on their model *)

Module Commands.
#[export] Instance codec : RecordCodec := Household.codec.
#[export] Instance laws : RecordCodecLaws Household.zones := TextCodec.laws Household.zones.
Definition mac (key payload : string) : string := key.
Definition home : connection memory_db := Connection (Household.holding [Household.paris]) (Household.holding [Household.paris]) false.
Definition ask (action : CommandAction.t) (revision : Z) : command :=
  {| co_subject := "me"; co_clock := Household.now; co_memory := 1;
     co_command := {| kc_expected_revision := revision; kc_action := action; kc_text := ""; kc_valid_until := None |};
     co_context := {| tc_actor := "owner"; tc_correlation_id := "c"; tc_occurred_at := Household.now |} |}.
Abbreviation do_ := (command_do mac "k" Household.zones Household.fold Household.fold).
Abbreviation run := (commands_run mac "k" Household.zones Household.fold Household.fold).
Abbreviation planned := (planning_knowledge Household.fold Household.fold "me" Household.now Household.now).
Definition hide : command := ask CommandAction.MAKE_PRIVATE 1.
Definition made_private : connection memory_db := (do_ hide home).1.
Definition allowed_again : connection memory_db := run [ask CommandAction.ALLOW_PLANNING 2] made_private.

(** Planned with before; private and allowed again after, and not planned with. *)
Lemma hidden_run : match planned (live home) with Ok views => length views = 1%nat | Err _ => False end ∧ (do_ hide home).2 = Ok tt
  ∧ (do_ (ask CommandAction.ALLOW_PLANNING 2) made_private).2 = Ok tt.
Proof. split_and!; vm_compute; reflexivity. Qed.

Lemma home_valid : conn_valid Household.zones home.
Proof.
  split_and!; [|reflexivity|reflexivity]. intros id row Hl. unfold home, Household.holding in Hl. simpl in Hl.
  apply lookup_insert_Some in Hl as [[<- <-]|[_ Hl]]; [|by rewrite lookup_empty in Hl]. exists Household.paris. by split_and!.
Defined.

Lemma withheld_knowledge_never_plans_witness :
  (do_ hide home).2 = Ok tt ∧ ∀ views v, planned (live allowed_again) = Ok views → v ∈ views → mr_memory_id (kv_record v) ≠ 1.
Proof.
  destruct hidden_run as (_ & Hok & _). split; [exact Hok|]. intros views v Hviews Hv.
  assert (do_ hide home = (made_private, Ok tt)) as Hrun by (unfold made_private; rewrite <- Hok; apply surjective_pairing).
  destruct (withheld_knowledge_never_plans mac "k" Household.zones Household.fold Household.fold hide home made_private home_valid eq_refl Hrun)
    as (_ & _ & _ & Hlater).
  refine (Hlater _ [ask CommandAction.ALLOW_PLANNING 2] "me" Household.now Household.now views v _ Hviews Hv).
  - by left.
  - repeat constructor.
Defined.
End Commands.
