(* ===== verification/ConversationTurn.v ===== *)
(** * Turns of the assistant ([conversation_turn.py], [capabilities/router.py])

    An utterance is routed by keywords: a request to plan the week is answered by a fixed
    reply that points to the planner, anything else by the advisory agent, which sees the
    last exchanges and has no credentials.  Inference runs in a thread while the relay
    serves other requests, so a turn is two steps: reading the history, and saving the
    exchange if the history has not moved on.  The agent is a parameter. *)

From stdpp Require Import prelude base strings list gmap pretty.
From Stdlib Require Import ZArith Ascii Lia.
From S2P Require Import Prelude PyTime PyText PyUuid Transactions AuditLedger Conversation RelayStore.
#[local] Open Scope string_scope.
#[local] Open Scope list_scope.
#[local] Open Scope Z_scope.

(** ** Routing *)

Module Capability.
Inductive t := WEEK_PLANNING | CONVERSATION | MEMORY | CODING.
#[global] Instance eq_dec : EqDecision t.
Proof. solve_decision. Defined.
End Capability.

(** [str.lower] on code points below 256: ASCII and the Latin-1 capitals. *)
Definition lower_char (c : ascii) : ascii :=
  let n := nat_of_ascii c in
  if ((65 <=? n) && (n <=? 90) || (192 <=? n) && (n <=? 222) && negb (n =? 215))%nat then ascii_of_nat (n + 32) else c.
Fixpoint lower (s : string) : string :=
  match s with "" => "" | String c s' => String (lower_char c) (lower s') end.

(** [word in text] *)
Fixpoint occurs_in (word text : string) : bool :=
  String.prefix word text || match text with "" => false | String _ rest => occurs_in word rest end.

Definition _PLANNING_VERBS : list string := ["plan"; "schedule"; "organize"].
Definition _WEEKLY_SCOPES : list string := ["week"; "calendar"].
Definition _MEMORY_KEYWORDS : list string := ["remember"; "remind"; "memory"; "forget"; "recall"].
Definition _CODING_KEYWORDS : list string := ["code"; "script"; "bug"; "function"; "refactor"; "compile"; "program"].

Definition classify (text : string) : Capability.t :=
  let lowered := lower text in
  let any words := existsb (λ w, occurs_in w lowered) words in
  if any _PLANNING_VERBS && any _WEEKLY_SCOPES then Capability.WEEK_PLANNING
  else if any _MEMORY_KEYWORDS then Capability.MEMORY
  else if any _CODING_KEYWORDS then Capability.CODING
  else Capability.CONVERSATION.
Definition dispatch (text : option string) : Capability.t :=
  match text with None | Some "" => Capability.CONVERSATION | Some text => classify text end.

Definition is_planning_intent (text : string) : bool :=
  let lowered := lower text in
  (occurs_in "plan" lowered || occurs_in "schedule" lowered || occurs_in "organize" lowered)
  && (occurs_in "week" lowered || occurs_in "calendar" lowered).

(** ** Turns *)

Record ConversationTurn := { tn_conversation_id : uuid; tn_text : string }.
Definition turn_valid (t : ConversationTurn) : bool :=
  (1 <=? Z.of_nat (String.length (tn_text t))) && (Z.of_nat (String.length (tn_text t)) <=? 16000).

Inductive action_class := WEEK_PLAN_PREVIEW | APPROVAL_REQUIRED.
(** The payload of an action has no fields; there is at most one action. *)
Record ConversationTurnReply := { rp_reply_text : string; rp_proposed_actions : list action_class }.
Definition reply_valid (r : ConversationTurnReply) : bool :=
  (1 <=? Z.of_nat (String.length (rp_reply_text r))) && (Z.of_nat (String.length (rp_reply_text r)) <=? 8000)
  && (Z.of_nat (length (rp_proposed_actions r)) <=? 1).

Inductive role := USER | ASSISTANT.
Record AgentUtterance := { ut_role : role; ut_content : string }.
Definition utterance_valid (u : AgentUtterance) : bool :=
  (1 <=? Z.of_nat (String.length (ut_content u))) && (Z.of_nat (String.length (ut_content u)) <=? 16000).

Inductive ProviderStatus := PROVIDER_UNAVAILABLE | RATE_LIMITED | CONSENT_REQUIRED.
Inductive TurnError :=
| TurnProviderError (status : ProviderStatus)    (** [ConversationTurnProviderError] *)
| TurnValidationError               (** an utterance that the model refuses *)
| TurnStoreError (e : RelayError).

(** [FreeModelConversationAgent.respond] on what the interpreter drafted: the number of
    activities of a proposal, or no usable result. *)
Definition drafted_reply (activities : nat) : ConversationTurnReply :=
  {| rp_reply_text := "I drafted an advisory plan with " +:+ pretty (Z.of_nat activities) +:+ " activities. "
       +:+ "Review a LifeOS proposal before anything changes.";
     rp_proposed_actions := [] |}.
Definition role_name (r : role) : string := match r with USER => "user" | ASSISTANT => "assistant" end.
Definition prompt_of (history : list AgentUtterance) : string :=
  join (String newline "") (map (λ u, role_name (ut_role u) +:+ ": " +:+ ut_content u) history).
Definition respond (interpret : string → option nat) (history : list AgentUtterance) :
    result (option ProviderStatus) ConversationTurnReply :=
  match interpret (prompt_of history) with Some activities => Ok (drafted_reply activities) | None => Err None end.

Definition planning_reply : ConversationTurnReply :=
  {| rp_reply_text := "I'll preview your week plan from your LifeOS schedule."; rp_proposed_actions := [WEEK_PLAN_PREVIEW] |}.

Definition utterances (stored : list (string * string)) (text : string) : list AgentUtterance :=
  concat (map (λ '(said, reply), [{| ut_role := USER; ut_content := said |}; {| ut_role := ASSISTANT; ut_content := reply |}]) stored)
  ++ [{| ut_role := USER; ut_content := text |}].

Section service.
Context (hmac : string → string → string) (audit_key : string) `{RelayCodec}.
(** How an agent fails: an [InterpretationProviderError], or an error of the turn with its own status. *)
Context (agent : list AgentUtterance → result (option ProviderStatus) ConversationTurnReply).
Abbreviation T A := (comp (connection relay_db) TurnError A).

Definition on_conversations {A : Type} (m : comp (connection relay_db) RelayError A) : T A := λ c,
  match m c with (c', Ok a) => (c', Ok a) | (c', Err e) => (c', Err (TurnStoreError e)) end.

(** Before the thread: the revision and the utterances. *)
Definition begin_turn (t : ConversationTurn) (device_id : uuid) : T (Z * list AgentUtterance) :=
  on_conversations (agent_history (tn_conversation_id t) device_id) ≫= λ '(revision, stored),
  let history := utterances stored (tn_text t) in
  throw_if (negb (forallb utterance_valid history)) TurnValidationError ≫= λ _,
  mret (revision, history).

(** In the thread, unless the planner answers. *)
Definition infer (t : ConversationTurn) (history : list AgentUtterance) : result TurnError ConversationTurnReply :=
  if bool_decide (dispatch (Some (tn_text t)) = Capability.WEEK_PLANNING) then Ok planning_reply
  else match agent history with
       | Ok reply => Ok reply
       | Err None => Err (TurnProviderError PROVIDER_UNAVAILABLE)
       | Err (Some status) => Err (TurnProviderError status)
       end.

(** After it; [record_id] is drawn by the store. *)
Definition finish_turn (record_id : uuid) (t : ConversationTurn) (device_id : uuid) (revision : Z) (reply : ConversationTurnReply)
    (ctx : TransitionContext) : T ConversationTurnReply :=
  on_conversations (save_agent_turn hmac audit_key record_id
    {| ap_conversation_id := tn_conversation_id t; ap_device_id := device_id; ap_expected_revision := revision;
       ap_text := tn_text t; ap_reply := rp_reply_text reply; ap_context := ctx |}) ≫= λ _,
  mret reply.

(** A turn that nothing interrupts. *)
Definition turn (record_id : uuid) (t : ConversationTurn) (device_id : uuid) (ctx : TransitionContext) : T ConversationTurnReply :=
  begin_turn t device_id ≫= λ '(revision, history),
  stateful (λ c, (c, infer t history)) ≫= λ reply,
  finish_turn record_id t device_id revision reply ctx.
End service.

(** ** Routing keeps its promises *)

(** The keyword classifier plans exactly what the older predicate did. *)
Lemma classify_planning text : classify text = Capability.WEEK_PLANNING ↔ is_planning_intent text = true.
Proof.
  unfold classify, is_planning_intent, _PLANNING_VERBS, _WEEKLY_SCOPES. cbn [existsb]. rewrite !orb_false_r, !orb_assoc.
  destruct (_ && _); [done|]. split; [|done]. by repeat case_match.
Qed.

(** * Turns of the assistant while others write

    Inference runs outside the store, so other requests, other turns of the same
    conversation among them, come between the reading of the history and the saving of
    the exchange.  The exchanges of a conversation form one list that only grows, and a
    turn that is saved extends exactly the list it read. *)

From stdpp Require Import relations.
From Stdlib Require Import Sorted.
From S2P Require Import RelaySpec RelayHistory.
#[local] Open Scope string_scope.
#[local] Open Scope list_scope.
#[local] Open Scope Z_scope.
(** ** Lines *)

Lemma split_one_line text reply : split_line (one_line text +:+ String newline reply) = Some (one_line text, reply).
Proof.
  induction text as [|a text IH]; [done|]. cbn [one_line]. destruct (Ascii.eqb a newline) eqn:Ha.
  - change (String " " (one_line text) +:+ String newline reply) with (String " " (one_line text +:+ String newline reply)).
    cbn [split_line]. by rewrite IH.
  - change (String a (one_line text) +:+ String newline reply) with (String a (one_line text +:+ String newline reply)).
    cbn [split_line]. by rewrite Ha, IH.
Qed.

Section turns.
Context `{RelayCodec} `{!RelayCodecLaws}.
Context (hmac : string → string → string) (audit_key : string).
Abbreviation conn := (connection relay_db).
Abbreviation save_agent_turn := (save_agent_turn hmac audit_key).
Abbreviation relay_step := (relay_step hmac audit_key).
Abbreviation relay_history := (relay_history hmac audit_key).

(** ** The turns in the table *)

Definition is_turn (content : string) : Prop := extract_event_type content = Some "agent.turn".
Definition turn_pairs (id : uuid) (db : relay_db) : list ((uuid * Z) * string) :=
  filter (λ row, extract_event_type row.2 = Some "agent.turn") (canonical_rows_of id db).

Lemma elem_of_turn_pairs id db k x : (k, x) ∈ turn_pairs id db
  ↔ rd_events db !! k = Some x ∧ extract_conversation_id x = Some (uuid_str id) ∧ is_turn x.
Proof.
  unfold turn_pairs, canonical_rows_of. rewrite !list_elem_of_filter, elem_of_map_to_list. simpl. unfold is_turn. tauto.
Qed.
Lemma turn_pairs_nodup id db : NoDup (turn_pairs id db).
Proof. apply NoDup_filter, NoDup_filter, NoDup_map_to_list. Qed.

Lemma turn_pairs_same id db db' :
  (∀ k x, is_turn x → extract_conversation_id x = Some (uuid_str id) → rd_events db' !! k = Some x ↔ rd_events db !! k = Some x) →
  turn_pairs id db' ≡ₚ turn_pairs id db.
Proof.
  intros Heq. apply NoDup_Permutation; [apply turn_pairs_nodup..|]. intros [k x]. rewrite !elem_of_turn_pairs. naive_solver.
Qed.

(** The list of a conversation's turns, oldest first, of which the table holds the rows. *)
Record said (id : uuid) (h : list CanonicalEvent) (db : relay_db) : Prop := {
  sd_rows : map snd (turn_pairs id db) ≡ₚ map dump_canonical h;
  sd_numbers : map cn_sequence h = seqZ 1 (Z.of_nat (length h));
  sd_lines : Forall (λ r, canonical_event_valid r = true ∧ ∃ text reply, cn_payload r = one_line text +:+ String newline reply) h;
}.
Definition exchange (r : CanonicalEvent) : string * string := default ("", "") (split_line (cn_payload r)).
(** The exchanges of a conversation, oldest first. *)
Definition exchanges (id : uuid) (xs : list (string * string)) (db : relay_db) : Prop := ∃ h, said id h db ∧ xs = map exchange h.

Lemma said_same id h db db' : turn_pairs id db' ≡ₚ turn_pairs id db → said id h db → said id h db'.
Proof. intros Hp [Hr Hn Hl]. split; [|done..]. by rewrite Hp. Qed.

(** ** Reading them *)

Definition newest_first (a b : string) : bool :=
  match extract_sequence a, extract_sequence b with Some x, Some y => y <? x | Some _, None => true | None, _ => false end.

Lemma py_insert_ext {A : Type} (f g : A → A → bool) x l : (∀ y, y ∈ l → f y x = g y x) → py_insert f x l = py_insert g x l.
Proof.
  induction l as [|y l IH]; intros Hfg; [done|]. simpl. rewrite (Hfg y) by set_solver. rewrite IH by set_solver. done.
Qed.
Lemma py_sorted_ext {A : Type} (f g : A → A → bool) l : (∀ x y, x ∈ l → y ∈ l → f x y = g x y) → py_sorted f l = py_sorted g l.
Proof.
  induction l as [|x l IH]; intros Hfg; [done|]. simpl. rewrite IH by set_solver. apply py_insert_ext.
  intros y Hy%elem_of_py_sorted. apply Hfg; set_solver.
Qed.

Lemma numbered_descending h : ∀ n, map cn_sequence h = seqZ n (Z.of_nat (length h)) →
  StronglySorted (λ a b, - cn_sequence a < - cn_sequence b) (rev h) ∧ Forall (λ r, n <= cn_sequence r) h.
Proof.
  induction h as [|r h IH]; intros n Hn; [split; constructor|]. simpl length in Hn. rewrite Nat2Z.inj_succ, seqZ_cons in Hn by lia.
  simpl in Hn. injection Hn as Hr Hn. rewrite Z.pred_succ in Hn. destruct (IH (Z.succ n) Hn) as [Hs Hall].
  split; [|constructor; [lia|eapply list.Forall_impl; [done|simpl; lia]]]. simpl.
  assert (Forall (λ x, - cn_sequence x < - cn_sequence r) (rev h)) as Hlast.
  { rewrite list.Forall_forall in Hall |- *. intros x Hx. assert (x ∈ h) as Hin by (apply list_elem_of_In, in_rev, list_elem_of_In, Hx).
    specialize (Hall x Hin). lia. }
  clear -Hs Hlast. induction Hs as [|x l Hs IH Hx]; simpl; [repeat constructor|]. apply Forall_cons in Hlast as [Hxr Hlast].
  constructor; [by apply IH|]. apply Forall_app. split; [done|]. by repeat constructor.
Qed.

Lemma turn_rows_said id h db : said id h db → turn_rows id db = take 4 (rev (map dump_canonical h)).
Proof.
  intros [Hr Hn _]. unfold turn_rows. fold (turn_pairs id db). f_equal.
  set (key := λ x, - default 0 (extract_sequence x)).
  assert (∀ x, x ∈ map snd (turn_pairs id db) → ∃ r, r ∈ h ∧ x = dump_canonical r) as Hdump.
  { intros x Hx. rewrite Hr in Hx. apply list_elem_of_fmap in Hx as (r & -> & Hin). eauto. }
  rewrite (py_sorted_ext _ (λ a b, key a <? key b)).
  - apply sorted_by_key.
    + by rewrite Hr, <- Permutation_rev.
    + rewrite <- map_rev. destruct (numbered_descending h 1 Hn) as [Hs _]. clear -Hs H0. induction Hs as [|r l Hs IH Hr]; [constructor|].
      simpl. constructor; [done|]. apply Forall_fmap. eapply list.Forall_impl; [exact Hr|]. unfold key. simpl. intros x.
      by rewrite !extract_dump_sequence.
  - intros x y (r & _ & ->)%Hdump (r' & _ & ->)%Hdump. unfold key. rewrite !extract_dump_sequence. simpl.
    destruct (Z.ltb_spec (cn_sequence r') (cn_sequence r)), (Z.ltb_spec (- cn_sequence r) (- cn_sequence r')); lia || done.
Qed.

Lemma parse_turns h : Forall (λ r, canonical_event_valid r = true) h → validated_all parse_canonical (map dump_canonical h) = Ok h.
Proof.
  induction 1 as [|r h Hr _ IH]; [done|]. simpl. unfold validated. by rewrite parse_dump_canonical, IH by done.
Qed.
Lemma split_said h : Forall (λ r, ∃ text reply, cn_payload r = one_line text +:+ String newline reply) h → split_turns h = Ok (map exchange h).
Proof.
  induction 1 as [|r h (text & reply & Hp) _ IH]; [done|]. simpl. unfold exchange at 1. by rewrite Hp, split_one_line, IH.
Qed.

Lemma last_number h x : map cn_sequence (h ++ [x]) = seqZ 1 (Z.of_nat (length (h ++ [x]))) → cn_sequence x = Z.of_nat (length (h ++ [x])).
Proof.
  rewrite length_app, Nat.add_1_r, seqZ_S, map_app. intros [_ Heq]%app_inj_tail. lia.
Qed.

(** The last four. *)
Definition recent {A : Type} (l : list A) : list A := rev (take 4 (rev l)).

Lemma read_history_said db v id r hh device_id h : represents db v → v_conversations v !! id = Some (r, hh) → member v device_id r = true →
  said id h db → read_history id device_id db = Ok (Z.of_nat (length h), map exchange (recent h)).
Proof.
  intros Hv Hid Hm Hs. unfold read_history. rewrite (read_conversation_view db v) by done. rewrite Hid, Hm.
  destruct (rp_conversation _ _ Hv id r hh Hid) as [_ Hok]. unfold conversation_of. cbn [cv_state]. simpl negb.
  rewrite (turn_rows_said id h) by done. destruct Hs as [_ Hn Hl]. rewrite <- map_rev, <- fmap_take.
  rewrite parse_turns.
  2: { apply Forall_take. rewrite <- (Permutation_rev h). eapply list.Forall_impl; [done|]. by intros x [? _]. }
  rewrite split_said.
  2: { rewrite <- Permutation_rev. apply Forall_take. rewrite <- (Permutation_rev h). eapply list.Forall_impl; [done|]. by intros x [_ ?]. }
  f_equal. f_equal. destruct h as [|x h _] using rev_ind; [done|]. rewrite rev_app_distr. simpl. by apply last_number.
Qed.

(** ** Who changes them *)

(** Rows of turns are untouched. *)
Definition turns_alone (db db' : relay_db) : Prop := ∀ k x, is_turn x → rd_events db' !! k = Some x ↔ rd_events db !! k = Some x.
Definition silent {A : Type} (m : comp conn RelayError A) : Prop := ∀ c c' a, m c = (c', Ok a) → turns_alone (live c) (live c').

Lemma turns_alone_said id h db db' : turns_alone db db' → said id h db → said id h db'.
Proof. intros Ha. apply said_same, turn_pairs_same. intros k x Hx _. by apply Ha. Qed.
Lemma turns_alone_events db db' : rd_events db' = rd_events db → turns_alone db db'.
Proof. by intros Heq k x _; rewrite Heq. Qed.

Lemma silent_bind {A B : Type} (m : comp conn RelayError A) (k : A → comp conn RelayError B) : silent m → (∀ a, silent (k a)) → silent (m ≫= k).
Proof.
  intros Hm Hk c c' b (a & c1 & Hrun & Hrest)%bind_inv x y Hy. rewrite (Hk a c1 c' b Hrest x y Hy). by apply (Hm c c1 a).
Qed.
Lemma silent_pure {A : Type} (m : comp conn RelayError A) : (∀ c c' a, m c = (c', Ok a) → c' = c) → silent m.
Proof. intros Hm c c' a Hrun%Hm. by subst. Qed.
Lemma silent_ret {A : Type} (a : A) : silent (mret a).
Proof. apply silent_pure. by intros c c' x [= <- _]. Qed.
Lemma silent_throw {A : Type} e : silent (throw e : comp conn RelayError A).
Proof. by intros c c' x [=]. Qed.
Lemma silent_throw_if b e : silent (throw_if b e).
Proof. apply silent_pure. by intros c c' x [= <- _]. Qed.
Lemma silent_query {A : Type} (f : relay_db → result RelayError A) : silent (query f).
Proof. apply silent_pure. by intros c c' x [-> _]%query_inv. Qed.
Lemma silent_stateful {A : Type} (x : result RelayError A) : silent (stateful (λ c, (c, x))).
Proof. apply silent_pure. by intros c c' a [= <- _]. Qed.
Lemma silent_execute f : (∀ db db', f db = Ok db' → turns_alone db db') → silent (execute f).
Proof. intros Hf c c' u (db & Hdb & ->)%execute_inv. by apply Hf. Qed.
Lemma silent_audit record_id action content ctx : silent (_audit hmac audit_key record_id action content ctx).
Proof. intros c c' u [a ->]%audit_run. by apply turns_alone_events. Qed.
Hint Resolve silent_ret silent_throw silent_throw_if silent_query silent_stateful silent_audit : lifeos.

(** A statement on another table. *)
Ltac other_table :=
  apply silent_execute; intros ?db ?db' ?Hdb; apply turns_alone_events;
  repeat match goal with Hdb : _ = Ok _ |- _ => progress (unfold insert_identity, insert_relay_device, insert_conversation, insert_relay_conversation, insert_retention, insert_index in Hdb) end;
  repeat case_match; simplify_eq; done.
Ltac silence := repeat first [apply silent_bind; [|intros ?]|solve [auto with lifeos]|other_table|case_match].

Lemma silent_provision i d ctx : silent (provision_body hmac audit_key i d ctx).
Proof. unfold provision_body, device. silence. Qed.
Lemma silent_create id title device_id d ctx : silent (create_body hmac audit_key id title device_id d ctx).
Proof. unfold create_body, conversation. silence. Qed.

Lemma silent_insert_event e ctx : silent (_insert_event hmac audit_key e ctx).
Proof.
  unfold _insert_event. apply silent_bind; [auto with lifeos|intros ?]. apply silent_bind; [|intros ?; silence].
  apply silent_execute. intros db db' Hdb k x Hx. unfold insert_canonical, insert_version in Hdb.
  destruct (rd_events db !! _) eqn:Hfree; [done|]. injection Hdb as <-. simpl. rewrite lookup_insert_Some. split; [|naive_solver].
  intros [[_ <-]|[_ Hk]]; [|done]. unfold is_turn in Hx. by rewrite extract_dump_event_type in Hx.
Qed.
Lemma silent_append_events device_id batch ctx : ∀ known j, silent (append_events hmac audit_key device_id batch known j ctx).
Proof.
  induction batch as [|i batch IH]; intros known j; [apply silent_ret|]. cbn [append_events].
  destruct (_ || negb (client_kind _)); [apply silent_throw|]. destruct (negb (in_aware i) || _); [apply silent_throw|].
  destruct (dict_get _ _); [destruct (bool_decide _); [apply IH|apply silent_throw]|].
  destruct (_ <=? _); [apply silent_throw|]. destruct (accept _ j) as [j' a]. destruct (ca_accepted a); [|apply silent_throw].
  apply silent_bind; [apply silent_insert_event|intros ?; apply IH].
Qed.
Lemma silent_append id device_id batch ctx : silent (append_body hmac audit_key id device_id batch ctx).
Proof.
  unfold append_body, conversation, _devices_for, events. repeat first [apply silent_append_events|apply silent_bind; [|intros ?]|solve [auto with lifeos]].
Qed.

Lemma silent_transaction {A : Type} (body : comp conn RelayError A) (c c' : conn) r : idle c → within body → silent body →
  transaction body c = (c', r) → turns_alone (live c) (live c').
Proof.
  intros Hi Hw Hs Hrun. apply transaction_run in Hrun; [|done..]. destruct r as [a|e]; [|by subst].
  destruct Hrun as (_ & c1 & Hbody & ->). by apply Hs in Hbody.
Qed.

(** *** Removal *)

Lemma delete_effect id ctx (c c' : conn) n : idle c → _delete hmac audit_key id ctx c = (c', Ok n) →
  ∃ a, live c' = set_relay_audit (without_conversation id (live c)) a.
Proof.
  intros Hi Hrun. apply transaction_run in Hrun; [|done|].
  2: { repeat (apply within_bind; [first [apply within_query|apply within_execute|apply within_audit]|intros ?]). apply within_ret. }
  destruct Hrun as (_ & c1 & Hbody & ->). apply bind_inv in Hbody as (rows & c2 & [-> _]%query_inv & Hbody).
  apply bind_inv in Hbody as (u & c2 & (db & Hdb & ->)%execute_inv & Hbody). injection Hdb as <-.
  apply bind_inv in Hbody as (u2 & c2 & [a Ha]%audit_run & [= <- _]). by exists a.
Qed.

Lemma said_without db v id id' h : represents db v → id' ∈ dom (v_conversations v) → valid_uuid id → id ≠ id' → said id h db →
  said id h (without_conversation id' db).
Proof.
  intros Hv Hin Hu Hne. apply said_same, turn_pairs_same. intros k x _ Hx. unfold without_conversation. simpl.
  rewrite map_lookup_filter_Some. simpl. split; [by intros [? _]|]. intros Hk. split; [done|]. destruct k as [rid n].
  rewrite elem_of_doomed. intros (n' & x' & Hk' & Hx'). simpl in *.
  pose proof (rp_versions _ _ Hv _ _ (or_introl Hk)) as Hn. pose proof (rp_versions _ _ Hv _ _ (or_introl Hk')) as Hn'. simpl in *. subst n n'.
  rewrite Hk in Hk'. injection Hk' as <-. assert (uuid_str id = uuid_str id') as Heq by congruence. apply uuid_str_inj in Heq; [done..|].
  apply elem_of_dom in Hin as [[r hh] Hl]. apply (rp_conversation _ _ Hv id' r hh Hl).
Qed.

Lemma said_nothing db id : no_trace id db → said id [] db.
Proof.
  intros Hnt. split; [|done|constructor]. destruct (turn_pairs id db) as [|[k x] l] eqn:Heq; [done|].
  assert ((k, x) ∈ turn_pairs id db) as (Hk & Hx & _)%elem_of_turn_pairs by (rewrite Heq; set_solver). by apply (nt_events _ _ Hnt) in Hk.
Qed.
Lemma said_absent db v id : represents db v → valid_uuid id → id ∉ dom (v_conversations v) → said id [] db.
Proof. intros Hv Hu Hout. apply said_nothing. by eapply represents_no_trace. Qed.

(** What a step does to the turns of a conversation. *)
Definition moved (id : uuid) (h : list CanonicalEvent) (db : relay_db) : Prop :=
  said id h db ∨ (∃ r, said id (h ++ [r]) db) ∨ ((id ∉ rd_relay_conversations db) ∧ said id [] db).

Lemma removals_moved ctx l : ∀ (c c' : conn) res v id h, keeps c v → NoDup l → (∀ id, id ∈ l → id ∈ dom (v_conversations v)) →
  valid_uuid id → for_each (λ id, _delete hmac audit_key id ctx ≫= λ _, mret tt) l c = (c', res) → said id h (live c) →
  said id h (live c') ∨ ((id ∉ rd_relay_conversations (live c')) ∧ said id [] (live c')).
Proof.
  induction l as [|d l IH]; intros c c' res v id h Hk Hnd Hall Hu Hrun Hs; simpl in Hrun.
  { injection Hrun as <- _. by left. }
  pose proof Hrun as Hwhole. rewrite !bind_run in Hrun. destruct (_delete hmac audit_key d ctx c) as [c1 r] eqn:Hdel.
  destruct r as [n|e].
  - pose proof (delete_effect _ _ _ _ _ (proj1 Hk) Hdel) as [a Ha].
    apply (delete_run hmac audit_key d ctx c c1 (Ok n) v) in Hdel as [Hk1 _]; [|done|apply Hall; set_solver].
    apply NoDup_cons in Hnd as [Hout Hnd]. assert (∀ x, x ∈ l → x ∈ dom (v_conversations (without v d))) as Hall1.
    { intros x Hx. simpl. rewrite dom_delete_L. apply elem_of_difference. split; [apply Hall; set_solver|]. set_solver. }
    destruct (decide (id = d)) as [->|Hne].
    + destruct (removals_run hmac audit_key ctx l c1 c' res (without v d) Hk1 Hnd Hall1 Hrun) as (removed & Hpre & Hk' & _).
      right. assert (d ∉ dom (v_conversations (foldl without (without v d) removed))) as Hgone.
      { clear -Hk. assert (∀ l v, d ∉ dom (v_conversations v) → d ∉ dom (v_conversations (foldl without v l))) as Hg.
        { induction l as [|x l IH]; intros w Hw; [done|]. simpl. apply IH. simpl. set_solver. }
        apply Hg. simpl. set_solver. }
      split; [by rewrite (rp_relay _ _ (proj2 Hk'))|]. by eapply said_absent; [apply Hk'|..].
    + apply (IH c1 c' res (without v d) id h Hk1 Hnd Hall1 Hu Hrun). rewrite Ha. apply (said_same id h (without_conversation d (live c))); [done|].
      apply (said_without (live c) v); [apply Hk|apply Hall; set_solver|done..].
  - apply (delete_run hmac audit_key d ctx c c1 (Err e) v) in Hdel as ->; [|done|apply Hall; set_solver].
    injection Hrun as <- _. by left.
Qed.

(** *** A new turn *)

Lemma turn_pairs_insert id db r : rd_events db !! (cn_record_id r, 1) = None → cn_event_type r = "agent.turn" → cn_conversation_id r = id →
  turn_pairs id (set_canonical db (rd_identities db) (rd_conversations db) (<[(cn_record_id r, 1) := dump_canonical r]> (rd_events db)))
  ≡ₚ ((cn_record_id r, 1), dump_canonical r) :: turn_pairs id db.
Proof.
  intros Hfree Ht Hc. apply NoDup_Permutation; [apply turn_pairs_nodup| |].
  - apply NoDup_cons. split; [|apply turn_pairs_nodup]. rewrite elem_of_turn_pairs. intros [Hl _]. congruence.
  - intros [k x]. rewrite elem_of_cons, !elem_of_turn_pairs. simpl. rewrite lookup_insert_Some. split.
    + intros [[[<- <-]|[Hk Hl]] Hx]; [by left|by right].
    + intros [[= -> ->]|[Hl Hx]]; [|split; [right; split; [congruence|done]|done]].
      split; [by left|]. unfold is_turn. by rewrite extract_dump_conversation_id, extract_dump_event_type, Hc, Ht.
Qed.

Lemma said_turn id h db record_id t : said id h db → rd_events db !! (record_id, 1) = None → ap_conversation_id t = id →
  let r := turn_record record_id t (Z.of_nat (length h)) in
  said id (h ++ [r]) (set_canonical db (rd_identities db) (rd_conversations db) (<[(cn_record_id r, 1) := dump_canonical r]> (rd_events db))).
Proof.
  intros [Hr Hn Hl] Hfree Hid r. split.
  - rewrite turn_pairs_insert by done. simpl. rewrite Hr, map_app. simpl. by rewrite Permutation_cons_append.
  - rewrite length_app, Nat.add_1_r, seqZ_S, map_app, Hn. simpl. do 2 f_equal. lia.
  - apply Forall_app. split; [done|]. apply Forall_singleton. split; [|by eexists _, _]. unfold canonical_event_valid, r, turn_record. simpl.
    replace (1 <=? Z.of_nat (length h) + 1) with true by (symmetry; apply Z.leb_le; lia). by destruct (one_line (ap_text t)).
Qed.

Lemma save_inv record_id t (c c' : conn) res v : keeps c v → save_agent_turn record_id t c = (c', res) →
  match res with
  | Ok _ => ∃ rec hh revision l a, v_conversations v !! ap_conversation_id t = Some (rec, hh) ∧ member v (ap_device_id t) rec = true
      ∧ read_history (ap_conversation_id t) (ap_device_id t) (live c) = Ok (revision, l)
      ∧ revision = ap_expected_revision t ∧ revision < MAX_CONVERSATION_EVENTS ∧ rd_events (live c) !! (record_id, 1) = None
      ∧ live c' = set_relay_audit (set_canonical (live c) (rd_identities (live c)) (rd_conversations (live c))
          (<[(record_id, 1) := dump_canonical (turn_record record_id t revision)]> (rd_events (live c)))) a
  | Err _ => c' = c
  end.
Proof.
  intros [Hidle Hv] Hrun. apply transaction_run in Hrun; [|done|].
  2: { apply within_bind; [apply within_query|intros [revision l]].
       repeat (apply within_bind; [first [apply within_throw_if|apply within_execute]|intros ?]). apply within_audit. }
  destruct res as [u|e]; [|done]. destruct Hrun as (_ & c1 & Hbody & ->).
  apply bind_inv in Hbody as ([revision l] & c2 & [-> Hread]%query_inv & Hbody). simpl in Hread. pose proof Hread as Hconv.
  unfold read_history in Hconv. rewrite (read_conversation_view _ v) in Hconv by done.
  destruct (v_conversations v !! ap_conversation_id t) as [[rec hh]|]; [|done]. destruct (member v (ap_device_id t) rec) eqn:Hm; [|done]. clear Hconv.
  apply bind_inv in Hbody as (u1 & c2 & Hif & Hbody). unfold throw_if, raise_if in Hif. destruct (_ || _) eqn:Hchk; [done|]. injection Hif as <- _.
  apply bind_inv in Hbody as (u2 & c2 & (db & Hdb & ->)%execute_inv & Hbody). apply audit_run in Hbody as [a ->].
  simpl in *. unfold insert_canonical, insert_version in Hdb. destruct (rd_events (live c) !! _) eqn:Hfree; [done|]. injection Hdb as <-.
  bool_to_prop. exists rec, hh, revision, l, a. by split_and!.
Qed.

(** A turn is saved only on the revision it expects, after exactly the turns before it. *)
Lemma save_run record_id t (c c' : conn) u v h : keeps c v → said (ap_conversation_id t) h (live c) →
  save_agent_turn record_id t c = (c', Ok u) →
  Z.of_nat (length h) = ap_expected_revision t ∧ Z.of_nat (length h) < MAX_CONVERSATION_EVENTS
  ∧ said (ap_conversation_id t) (h ++ [turn_record record_id t (Z.of_nat (length h))]) (live c').
Proof.
  intros Hk Hs Hrun. apply (save_inv _ _ _ _ _ v) in Hrun as (rec & hh & revision & l & a & Hl & Hm & Hread & Hrev & Hmax & Hfree & ->); [|done].
  rewrite (read_history_said _ v _ rec hh _ h) in Hread by (apply Hk || done). injection Hread as <- _.
  split_and!; [done..|]. eapply said_same; [|by apply (said_turn _ h (live c) record_id t)]. done.
Qed.
Lemma save_others record_id t (c c' : conn) u v id : keeps c v → save_agent_turn record_id t c = (c', Ok u) →
  id ≠ ap_conversation_id t → valid_uuid id → turn_pairs id (live c') ≡ₚ turn_pairs id (live c).
Proof.
  intros Hk Hrun Hne Hu. apply (save_inv _ _ _ _ _ v) in Hrun as (rec & hh & revision & l & a & Hl & Hm & Hread & Hrev & Hmax & Hfree & ->); [|done].
  apply turn_pairs_same. intros k x _ Hx. simpl. rewrite lookup_insert_Some. split; [|intros ?; right; split; [congruence|done]].
  intros [[_ <-]|[_ ?]]; [|done]. rewrite extract_dump_conversation_id in Hx. simpl in Hx.
  assert (uuid_str id = uuid_str (ap_conversation_id t)) as Heq by congruence. apply uuid_str_inj in Heq; [done..|].
  apply (rp_conversation _ _ (proj2 Hk) _ rec hh Hl).
Qed.

(** ** Histories *)

Lemma step_moved c c' v id h : keeps c v → relay_step c c' → valid_uuid id → said id h (live c) → moved id h (live c').
Proof.
  intros Hk Hs Hu Hh. destruct Hs as [c c' He|i d ctx c c' res Hrun|id' title device_id ctx c c' res Huuid Hrun|id' device_id batch ctx c c' res Hrun
    |record_id r c c' res Hrun|id' device_id ctx c c' res Hrun|now ctx c c' res Hrun].
  - left. eapply turns_alone_said; [|done]. apply turns_alone_events, He.
  - left. eapply turns_alone_said; [|done]. unfold RelayStore.provision in Hrun. destruct (negb _); [by injection Hrun as <- _|].
    eapply (silent_transaction (provision_body hmac audit_key i d ctx)); [apply Hk|apply within_provision|apply silent_provision|done].
  - left. eapply turns_alone_said; [|done]. unfold RelayStore.create in Hrun. rewrite bind_run in Hrun. unfold device, query in Hrun.
    destruct (read_device _ _) as [[d|]|]; [|by injection Hrun as <- _..]. rewrite bind_run in Hrun.
    destruct (transaction _ c) as [c1 r] eqn:Htx. assert (c' = c1) as -> by (destruct r as [[current|]|]; by injection Hrun as <- _).
    eapply (silent_transaction (create_body hmac audit_key id' title device_id d ctx)); [apply Hk|apply within_create|apply silent_create|done].
  - left. eapply turns_alone_said; [|done].
    eapply (silent_transaction (append_body hmac audit_key id' device_id batch ctx)); [apply Hk|apply within_append|apply silent_append|done].
  - destruct res as [u|e]; [|left; by rewrite (save_inv _ _ _ _ _ v Hk Hrun)].
    destruct (decide (id = ap_conversation_id r)) as [->|Hne]; [right; left; eexists; by eapply save_run|].
    left. eapply said_same; [|done]. by eapply save_others.
  - destruct res as [n|e].
    + pose proof Hrun as Hdel. unfold RelayStore.delete_conversation in Hdel. apply bind_inv in Hdel as (cv & c1 & [-> _]%query_inv & Hdel).
      apply (delete_conversation_run hmac audit_key _ _ _ _ _ _ v) in Hrun as (r & hh & Hl & _ & Hk' & _); [|done].
      destruct (decide (id = id')) as [->|Hne].
      * right. right. split; [rewrite (rp_relay _ _ (proj2 Hk')); simpl; set_solver|]. eapply said_absent; [apply Hk'|done|simpl; set_solver].
      * left. destruct (delete_effect _ _ _ _ _ (proj1 Hk) Hdel) as [a ->]. apply (said_same id h (without_conversation id' (live c))); [done|].
        eapply said_without; [apply Hk|by eapply elem_of_dom_2|done..].
    + left. by rewrite (delete_conversation_run hmac audit_key _ _ _ _ _ _ v Hk Hrun).
  - unfold RelayStore.expire in Hrun. rewrite bind_run in Hrun. unfold query in Hrun. rewrite bind_run in Hrun.
    destruct (for_each _ _ c) as [c1 r] eqn:Hfor. assert (c' = c1) as -> by (destruct r; by injection Hrun as <- _).
    eapply removals_moved in Hfor; [|done|apply expired_nodup| |done..].
    + destruct Hfor; [by left|by right; right].
    + intros x (t & Ht & _)%elem_of_expired. rewrite <- (rp_retention _ _ (proj2 Hk)). by apply elem_of_dom_2 in Ht.
Qed.

Lemma history_said c : relay_history c → ∃ v, keeps c v ∧ ∀ id, valid_uuid id → ∃ h, said id h (live c).
Proof.
  induction 1 as [c|c c' _ (v & Hk & Hall) Hs].
  - eexists. split; [by apply new_keeps|]. intros id Hu. exists []. apply (said_absent _ {| v_devices := []; v_conversations := ∅ |}); [by apply new_keeps|done|set_solver].
  - destruct (step_keeps hmac audit_key c c' v Hk Hs) as [v' Hk']. exists v'. split; [done|]. intros id Hu. destruct (Hall id Hu) as [h Hh].
    destruct (step_moved c c' v id h Hk Hs Hu Hh) as [?|[[r ?]|[_ ?]]]; eauto.
Qed.

(** Later states of a relay in which the conversation was there all the time. *)
Definition kept_through (id : uuid) : conn → conn → Prop :=
  rtc (λ c c', relay_step c c' ∧ id ∈ rd_relay_conversations (live c')).

Lemma kept_said id c c' h : relay_history c → valid_uuid id → kept_through id c c' → said id h (live c) →
  relay_history c' ∧ ∃ more, said id (h ++ more) (live c').
Proof.
  intros Hh Hu Hrtc. revert h Hh. induction Hrtc as [c|c c1 c' [Hs Hin] _ IH]; intros h Hh Hsaid.
  { split; [done|]. exists []. by rewrite app_nil_r. }
  destruct (history_said c Hh) as (v & Hk & _). assert (relay_history c1) as Hh1 by (by eapply history_step).
  destruct (step_moved c c1 v id h Hk Hs Hu Hsaid) as [Hs1|[[r Hs1]|[Hout _]]]; [by apply IH| |done].
  destruct (IH _ Hh1 Hs1) as [Hh' [more Hm]]. split; [done|]. exists (r :: more). by rewrite <- app_assoc in Hm.
Qed.

(** ** The two steps of a turn *)

Lemma recent_map {A B : Type} (f : A → B) l : map f (recent l) = recent (map f l).
Proof. unfold recent. by rewrite map_rev, fmap_take, map_rev. Qed.

Lemma begin_inv t device_id (c c' : conn) revision history h : relay_history c → begin_turn t device_id c = (c', Ok (revision, history)) →
  said (tn_conversation_id t) h (live c) →
  c' = c ∧ revision = Z.of_nat (length h) ∧ history = utterances (recent (map exchange h)) (tn_text t).
Proof.
  intros Hh Hrun Hs. destruct (history_said c Hh) as (v & Hk & _). unfold begin_turn in Hrun.
  apply bind_inv in Hrun as ([n l] & c1 & Hread & Hrun). unfold on_conversations, agent_history, query in Hread.
  destruct (read_history _ _ _) as [[n' l']|] eqn:Hr; [|done]. injection Hread as <- <- <-.
  apply bind_inv in Hrun as (u & c1 & Hif & [= <- <- <-]). unfold throw_if, raise_if in Hif. destruct (negb _); [done|]. injection Hif as <- _.
  pose proof Hr as Hconv. unfold read_history in Hconv. rewrite (read_conversation_view _ v) in Hconv by apply Hk.
  destruct (v_conversations v !! _) as [[rec hh]|] eqn:Hl; [|done]. destruct (member v device_id rec) eqn:Hm; [|done].
  rewrite (read_history_said _ v _ rec hh _ h) in Hr by (apply Hk || done). injection Hr as <- <-. by rewrite recent_map.
Qed.
Lemma begin_valid t device_id (c c' : conn) x : relay_history c → begin_turn t device_id c = (c', Ok x) → valid_uuid (tn_conversation_id t).
Proof.
  intros Hh Hrun. destruct (history_said c Hh) as (v & Hk & _). unfold begin_turn in Hrun. apply bind_inv in Hrun as (y & c1 & Hread & _).
  unfold on_conversations, agent_history, query, read_history in Hread. rewrite (read_conversation_view _ v) in Hread by apply Hk.
  destruct (v_conversations v !! _) as [[rec hh]|] eqn:Hl; [|done]. apply (rp_conversation _ _ (proj2 Hk) _ rec hh Hl).
Qed.

Lemma finish_inv record_id t device_id revision reply ctx (c c' : conn) res :
  finish_turn hmac audit_key record_id t device_id revision reply ctx c = (c', res) →
  ∃ saved, save_agent_turn record_id {| ap_conversation_id := tn_conversation_id t; ap_device_id := device_id; ap_expected_revision := revision;
      ap_text := tn_text t; ap_reply := rp_reply_text reply; ap_context := ctx |} c = (c', saved)
    ∧ match saved with Ok _ => res = Ok reply | Err e => res = Err (TurnStoreError e) end.
Proof.
  unfold finish_turn, on_conversations. rewrite bind_run. destruct (save_agent_turn _ _ c) as [c1 [u|e]]; intros [= <- <-]; by eexists.
Qed.

Lemma exchange_turn record_id t device_id revision n reply ctx :
  exchange (turn_record record_id {| ap_conversation_id := tn_conversation_id t; ap_device_id := device_id; ap_expected_revision := revision;
    ap_text := tn_text t; ap_reply := reply; ap_context := ctx |} n) = (one_line (tn_text t), reply).
Proof. unfold exchange. simpl. by rewrite split_one_line. Qed.

(** C40. Turns of the assistant are serialized although inference runs outside the store:
    whatever requests come between the two steps of a turn, as long as the conversation
    is not removed, a turn that is saved extends exactly the list of exchanges it read,
    of which the agent saw the last four; the next reading has the exchange at its end;
    and no other turn that read the same list can be saved any more, then or later. *)
Theorem agent_turns_serialized (c0 c0' c1 c2 : conn) t device_id revision history record_id reply ctx reply' :
  relay_history c0 → begin_turn t device_id c0 = (c0', Ok (revision, history)) → kept_through (tn_conversation_id t) c0' c1 →
  finish_turn hmac audit_key record_id t device_id revision reply ctx c1 = (c2, Ok reply') →
  let id := tn_conversation_id t in
  let exchange := (one_line (tn_text t), rp_reply_text reply) in
  ∃ xs, exchanges id xs (live c0) ∧ exchanges id xs (live c1) ∧ exchanges id (xs ++ [exchange]) (live c2)
    ∧ history = utterances (recent xs) (tn_text t)
    ∧ agent_history id device_id c2 = (c2, Ok (revision + 1, recent (xs ++ [exchange])))
    ∧ (∀ c3 c4 record_id' t' device_id' reply'' ctx' res, kept_through id c2 c3 → tn_conversation_id t' = id →
        finish_turn hmac audit_key record_id' t' device_id' revision reply'' ctx' c3 = (c4, res) → c4 = c3 ∧ is_ok res = false).
Proof.
  intros Hh0 Hbegin Hkept Hfin id exchange'. pose proof (begin_valid _ _ _ _ _ Hh0 Hbegin) as Hu.
  destruct (history_said c0 Hh0) as (v0 & _ & Hall). destruct (Hall id Hu) as [h Hs0].
  destruct (begin_inv _ _ _ _ _ _ h Hh0 Hbegin Hs0) as (-> & Hrev & ->).
  destruct (kept_said id c0 c1 h Hh0 Hu Hkept Hs0) as [Hh1 [more Hs1]]. destruct (history_said c1 Hh1) as (v1 & Hk1 & _).
  apply finish_inv in Hfin as ([u|e] & Hsave & Hrep); [|done]. pose proof (save_agent_turn_keeps hmac audit_key _ _ _ _ _ _ Hk1 Hsave) as Hk2.
  pose proof Hsave as Hs2. eapply save_run in Hs2 as (Hlen & Hmax & Hs2); [|exact Hk1|exact Hs1]. simpl in Hlen, Hs2. fold id in Hs2.
  assert (more = []) as -> by (destruct more; [done|rewrite length_app in Hlen; simpl in Hlen; lia]). rewrite app_nil_r in *.
  assert (map exchange (h ++ [turn_record record_id {| ap_conversation_id := id; ap_device_id := device_id; ap_expected_revision := revision;
    ap_text := tn_text t; ap_reply := rp_reply_text reply; ap_context := ctx |} (Z.of_nat (length h))]) = map exchange h ++ [exchange']) as Hmap.
  { rewrite map_app. simpl. unfold id. by rewrite exchange_turn. }
  exists (map exchange h). split_and!; [by exists h|by exists h|by eexists|done| |].
  - destruct (save_inv _ _ _ _ _ v1 Hk1 Hsave) as (rec & hh & _ & _ & _ & Hl & Hm & _). simpl in Hl, Hm. unfold agent_history, query. f_equal. fold id in Hl.
    rewrite (read_history_said _ v1 _ rec hh _ _ (proj2 Hk2) Hl Hm Hs2), recent_map, Hmap. f_equal. f_equal. rewrite length_app. simpl. lia.
  - intros c3 c4 record_id' t' device_id' reply'' ctx' res Hkept' Hid Hfin'. assert (relay_history c2) as Hh2.
    { eapply history_step; [done|]. by eapply step_turn. }
    destruct (kept_said id c2 c3 _ Hh2 Hu Hkept' Hs2) as [Hh3 [more Hs3]]. destruct (history_said c3 Hh3) as (v3 & Hk3 & _).
    apply finish_inv in Hfin' as ([u'|e] & Hsave' & ->).
    + rewrite <- Hid in Hs3. eapply save_run in Hsave' as (Hlen' & _); [|exact Hk3|exact Hs3]. simpl in Hlen'. rewrite !length_app in Hlen'. simpl in Hlen'. lia.
    + split; [|done]. apply (save_inv _ _ _ _ _ v3 Hk3 Hsave').
Qed.
End turns.

(** ** Two turns in one conversation *)

Module TurnDemo.
#[local] Existing Instances RelayText.codec RelayText.laws.
Import RelayDemo.
Definition asking (text : string) : ConversationTurn := {| tn_conversation_id := 5; tn_text := text |}.
Definition answer (text : string) : ConversationTurnReply := {| rp_reply_text := text; rp_proposed_actions := [] |}.
Abbreviation finish := (finish_turn mac "k").

Lemma first_begins text : utterance_valid {| ut_role := USER; ut_content := text |} = true →
  begin_turn (asking text) 1 opened = (opened, Ok (0, [{| ut_role := USER; ut_content := text |}])).
Proof.
  intros Hv. unfold begin_turn, on_conversations, agent_history, query. rewrite bind_run.
  assert (read_history 5 1 (live opened) = Ok (0, [])) as Hr by (vm_compute; reflexivity).
  change (tn_conversation_id (asking text)) with 5. rewrite Hr. unfold utterances. simpl. by rewrite Hv.
Qed.

(** The event stream goes on while the agent thinks; the turn is saved. *)
Definition saved := finish 201 (asking "hello") 1 0 (answer "hi") ctx started.
Lemma saved_ok : saved.2 = Ok (answer "hi").
Proof. vm_compute. reflexivity. Qed.

Lemma thinking : kept_through mac "k" 5 opened started.
Proof.
  apply rtc_once. split; [|vm_compute; reflexivity].
  apply (step_append mac "k" 5 1 first_part ctx opened started (append 5 1 first_part ctx opened).2). apply surjective_pairing.
Defined.

(** A second turn that began at the same time is refused. *)
Lemma agent_turns_serialized_witness :
  agent_history 5 1 saved.1 = (saved.1, Ok (1, [("hello", "hi")]))
  ∧ is_ok (finish 202 (asking "and me") 1 0 (answer "no") ctx saved.1).2 = false.
Proof.
  assert (finish 201 (asking "hello") 1 0 (answer "hi") ctx started = (saved.1, Ok (answer "hi"))) as Hfin
    by (rewrite <- saved_ok; apply surjective_pairing).
  destruct (agent_turns_serialized mac "k" opened opened started saved.1 (asking "hello") 1 0 _ 201 (answer "hi") ctx _ opened_history
    (first_begins "hello" eq_refl) thinking Hfin) as (xs & _ & _ & _ & Hut & Hread & Hstale).
  assert (xs = []) as ->.
  { destruct xs as [|x xs _] using rev_ind; [done|]. unfold recent, utterances in Hut. rewrite rev_app_distr in Hut. simpl in Hut.
    apply (f_equal length) in Hut. rewrite length_app in Hut. simpl in Hut. destruct (rev (x :: take 3 (rev xs))) as [|y l] eqn:Hrev.
    - by apply (f_equal length) in Hrev; rewrite length_rev in Hrev.
    - simpl in Hrev. rewrite Hrev in Hut. destruct y. simpl in Hut. lia. }
  split; [exact Hread|].
  eapply (Hstale saved.1 _ 202 (asking "and me") 1 (answer "no") ctx _ (rtc_refl _ _) eq_refl). apply surjective_pairing.
Defined.

(** *** A conversation that is removed and created again *)

Definition removed : connection relay_db := (delete_conversation 5 1 later opened).1.
Definition reopened : connection relay_db := (create 5 "another matter" 1 later removed).1.

(** The revision starts over, so a turn of the removed conversation is saved in the new one. *)
Theorem turn_outlives_its_conversation :
  (begin_turn (asking "hello") 1 opened).2 = Ok (0, [{| ut_role := USER; ut_content := "hello" |}])
  ∧ is_ok (delete_conversation 5 1 later opened).2 = true
  ∧ (finish 201 (asking "hello") 1 0 (answer "hi") later reopened).2 = Ok (answer "hi").
Proof. split; [by rewrite first_begins|]. split; vm_compute; reflexivity. Qed.
End TurnDemo.
