(* ===== verification/RelayServices.v ===== *)
(** * The relay's routes to the governed services ([relay_api.py])

    Interview, knowledge, week planning and turns of the assistant.  The handlers are
    written against an interface of the services; [LifeStore] discharges it with the
    modelled components.  Pydantic's JSON of the bodies is a parameter. *)

From stdpp Require Import prelude base strings list gmap pretty.
From Stdlib Require Import ZArith QArith Ascii Lia.
From S2P Require Import Prelude PyTime PyText PyUuid PyRe Transactions AuditLedger Enrollment Consumption Authority Knowledge Memory LifeModel RoutineText Interview Calendar DomainRecords DomainRepository PlannerModels WeekPlanning WeekExecution KnowledgeCommands Conversation RelayStore RelayApi ConversationTurn.
#[local] Open Scope string_scope.
#[local] Open Scope list_scope.
#[local] Open Scope Z_scope.

(** ** The services *)

(** What the relay may ask of the rest of the store [S]; [subject] is the person the
    device belongs to. *)
Class LifeServices (S : Type) := {
  begin_interview : string → string → TransitionContext → comp S InterviewError InterviewReply;
  advance_interview : string → string → Z → interview_action → text → TransitionContext → option string →
    comp S InterviewError InterviewReply;
  items_about : string → datetime → comp S MemoryError (list KnowledgeItem);
  change_knowledge : string → uuid → KnowledgeCommand → TransitionContext → comp S MemoryError unit;
  preview_week : string → datetime → string → comp S ServiceError WeekPlanProposal;
  approve_week : uuid → Approval → TransitionContext → string → comp S ServiceError WeekPlanExecutionResult;
  recover_week : uuid → Approval → TransitionContext → string → comp S ServiceError CalendarRecoveryOutcome;
}.

Record InterviewTurn := {
  it_expected_revision : Z;
  it_action : interview_action;
  it_text : text;
  it_question_key : option string;
}.
Definition interview_turn_valid (t : InterviewTurn) : bool :=
  (1 <=? it_expected_revision t) && (Z.of_nat (length (it_text t)) <=? 8000).

Class ServiceBodies := {
  json_interview_turn : string → option InterviewTurn;
  json_command : string → option KnowledgeCommand;
  json_approval : string → option Approval;
  json_recovery : string → option Approval;
  json_turn : string → option ConversationTurn;
}.
Definition guarded {A : Type} (ok : A → bool) (o : option A) : option A := a ← o; if ok a then Some a else None.

(** ** Exceptions *)

(** The errors that are a Python [ValueError]. *)
Definition knowledge_value_error (e : KnowledgeError) : bool :=
  match e with FieldError | KnowledgeValueError _ => true | ZoneInfoNotFoundError _ | KnowledgeOverflowError => false end.
Definition memory_value_error (e : MemoryError) : bool :=
  match e with
  | MemoryValueError _ | MemoryParseError => true
  | MemoryValidationError e => knowledge_value_error e
  | _ => false
  end.
Definition interview_value_error (e : InterviewError) : bool :=
  match e with
  | InterviewValueError _ | InterviewNumber IntDigitLimit => true
  | InterviewMemory e => memory_value_error e
  | InterviewValidation e => knowledge_value_error e
  | InterviewNumber FloatOverflow | InterviewStopIteration | InterviewKeyError => false
  end.

Definition answer_error : ApiError := HTTPException 422 "answer unavailable; check the current question".
Definition interview_error (e : InterviewError) : ApiError :=
  match e with
  | InterviewMemory (StaleMemoryRevisionError _ _ _) => HTTPException 409 "interview changed; resume before retrying"
  | _ => if interview_value_error e then answer_error else InternalServerError
  end.
Definition command_error (e : MemoryError) : ApiError :=
  match e with
  | StaleMemoryRevisionError _ _ _ => HTTPException 409 "knowledge changed; refresh before correcting"
  | _ => if memory_value_error e then HTTPException 422 "knowledge correction unavailable" else InternalServerError
  end.

Definition unavailable_calendar : ApiError :=
  HTTPException 503 "calendar temporarily unavailable; check LifeOS calendar before retrying".
Definition preview_error (e : ServiceError) : ApiError :=
  match e with
  | PreviewError (WeekZoneNotFound _) | PreviewError (WeekKnowledge (MemoryValidationError (ZoneInfoNotFoundError _))) =>
      HTTPException 422 "planning timezone is unavailable"
  | CalendarRaised (CalendarAuthorizationError _) | CalendarRaised (CalendarContractError _) =>
      HTTPException 502 "calendar provider is unavailable"
  | WeekPlanningProviderError reason =>
      if String.eqb reason "calendar_transient" then unavailable_calendar
      else HTTPException 502 "calendar preview outcome is uncertain; retry preview later"
  | _ => InternalServerError
  end.
Definition recovery_error (e : ServiceError) : ApiError :=
  match e with
  | WeekPlanProposalError _ _ => HTTPException 409 "proposal is not awaiting recovery"
  | WeekPlanningPolicyError _ => HTTPException 403 "week-plan recovery proof was rejected"
  | WeekPlanningProviderError _ | CalendarRaised (CalendarAuthorizationError _) | CalendarRaised (CalendarContractError _)
  | CalendarRaised (CalendarTransientError _) | CalendarRaised (CalendarInterruptedError _) =>
      HTTPException 502 "calendar recovery is unresolved; request recovery again"
  | _ => InternalServerError
  end.
Definition approval_error (e : ServiceError) : ApiError :=
  match e with
  | WeekPlanProposalError _ reason =>
      if String.eqb reason "unknown_proposal" then HTTPException 404 "week-plan proposal not found"
      else if String.eqb reason "invalid_proposal" then HTTPException 422 "week-plan proposal is invalid"
      else HTTPException 409 "week-plan proposal is no longer reviewable"
  | WeekPlanningPolicyError reason =>
      if String.eqb reason "lease_rejected" then HTTPException 409 "execution lease was rejected"
      else HTTPException 403 "week-plan approval was rejected"
  | WeekPlanningProviderError reason =>
      if String.eqb reason "calendar_contract" then HTTPException 409 "calendar contract was rejected; resync before retrying"
      else if String.eqb reason "calendar_transient" then unavailable_calendar
      else if String.eqb reason "calendar_interrupted"
      then HTTPException 502 "calendar apply outcome is uncertain; check LifeOS calendar before retrying"
      else HTTPException 502 "calendar provider failed to apply the plan"
  | _ => InternalServerError
  end.
(** Only the agent's failure is translated. *)
Definition turn_error (e : TurnError) : ApiError :=
  match e with
  | TurnProviderError CONSENT_REQUIRED => HTTPException 403 "agent consent is not granted"
  | TurnProviderError RATE_LIMITED => HTTPException 503 "agent provider is rate limited; try again shortly"
  | TurnProviderError PROVIDER_UNAVAILABLE => HTTPException 502 "agent provider is unavailable"
  | _ => InternalServerError
  end.

(** ** Handlers *)

Section routes.
Context {P : Type} `{DevicePersistence P} {S : Type} `{ConsumptionStore S} `{LifeServices S}.
Context (hmac : string → string → string) (audit_key : string) `{RelayCodec} `{ServiceBodies}.
Context (parse_device : string → option Device) (sha256_hex : string → string).
Context (public_key_ok : string → bool) (ed25519_verify : string → string → string → bool).
(** The relay's configuration. *)
Context (planning_timezone : string) (week_configured : bool).
Context (agent : option (list AgentUtterance → result (option ProviderStatus) ConversationTurnReply)).
Abbreviation R A := (comp (relay_state P S) ApiError A).
Abbreviation authenticate := (authenticate parse_device sha256_hex public_key_ok ed25519_verify).

Definition on_services {E A : Type} (translate : E → ApiError) (m : comp S E A) : R A := λ s,
  match m (rs_services s) with
  | (x, Ok a) => (set_services s x, Ok a)
  | (x, Err e) => (set_services s x, Err (translate e))
  end.

(** [_interview]: the person the device is bound to. *)
Definition subject_of (translate : RelayError → ApiError) (device_id : uuid) : R string :=
  on_store translate (device device_id) ≫= λ bound,
  match bound with
  | None => throw (HTTPException 403 "user unavailable")
  | Some d => mret (uuid_str (cd_participant_id d))
  end.
Definition unhandled {E : Type} (e : E) : ApiError := InternalServerError.

Definition start_interview (r : Request) (ck : clock_readings) : R InterviewReply :=
  authenticate r ck ≫= λ '(raw, device_id, ctx),
  throw_if (negb (String.eqb raw "")) (HTTPException 422 "start request body must be empty") ≫= λ _,
  subject_of unhandled device_id ≫= λ subject,
  on_services unhandled (begin_interview subject planning_timezone ctx).

Definition interview_turn (r : Request) (ck : clock_readings) : R InterviewReply :=
  authenticate r ck ≫= λ '(raw, device_id, ctx),
  match guarded interview_turn_valid (json_interview_turn raw) with
  | None => throw answer_error
  | Some t =>
      subject_of (λ e, match e with RelayValidationError => answer_error | _ => InternalServerError end) device_id ≫= λ subject,
      on_services interview_error
        (advance_interview subject planning_timezone (it_expected_revision t) (it_action t) (it_text t) ctx (it_question_key t))
  end.

Definition knowledge_route (r : Request) (ck : clock_readings) : R (list KnowledgeItem) :=
  authenticate r ck ≫= λ '(_, device_id, ctx),
  subject_of unhandled device_id ≫= λ subject,
  on_services unhandled (items_about subject (tc_occurred_at ctx)).

Definition correct_knowledge_route (memory_id : uuid) (r : Request) (ck : clock_readings) : R unit :=
  authenticate r ck ≫= λ '(raw, device_id, ctx),
  subject_of unhandled device_id ≫= λ subject,
  match guarded command_valid (json_command raw) with
  | None => throw (HTTPException 422 "knowledge correction unavailable")
  | Some c => on_services command_error (change_knowledge subject memory_id c ctx)
  end.

Definition not_configured : ApiError := HTTPException 501 "week planning is not configured on this relay".

Definition preview_week_plan (r : Request) (ck : clock_readings) : R WeekPlanProposal :=
  authenticate r ck ≫= λ '(raw, device_id, ctx),
  throw_if (negb (String.eqb raw "")) (HTTPException 422 "week-plan preview request body must be empty") ≫= λ _,
  subject_of unhandled device_id ≫= λ subject,
  throw_if (negb week_configured) not_configured ≫= λ _,
  on_services preview_error (preview_week subject (tc_occurred_at ctx) planning_timezone).

Definition recover_week_plan (proposal_id : uuid) (r : Request) (ck : clock_readings) : R CalendarRecoveryOutcome :=
  authenticate r ck ≫= λ '(raw, device_id, ctx),
  match json_recovery raw with
  | None => throw (HTTPException 422 "invalid week-plan recovery proof")
  | Some approval =>
      throw_if (negb week_configured) not_configured ≫= λ _,
      on_services recovery_error (recover_week proposal_id approval ctx (uuid_str device_id))
  end.

Definition approve_week_plan (proposal_id : uuid) (r : Request) (ck : clock_readings) : R WeekPlanExecutionResult :=
  authenticate r ck ≫= λ '(raw, device_id, ctx),
  throw_if (negb week_configured) not_configured ≫= λ _,
  match json_approval raw with
  | None => throw (HTTPException 422 "invalid week-plan approval")
  | Some approval => on_services approval_error (approve_week proposal_id approval ctx (uuid_str device_id))
  end.

Definition on_turns {A : Type} (m : comp (connection relay_db) TurnError A) : R A := λ s,
  match m (rs_store s) with
  | (c, Ok a) => (RelayApi.set_store s c, Ok a)
  | (c, Err e) => (RelayApi.set_store s c, Err (turn_error e))
  end.
(** A turn without other requests while the agent thinks. *)
Definition conversation_turn (record_id : uuid) (r : Request) (ck : clock_readings) : R ConversationTurnReply :=
  authenticate r ck ≫= λ '(raw, device_id, ctx),
  match guarded turn_valid (json_turn raw) with
  | None => throw (HTTPException 422 "invalid conversation turn")
  | Some t =>
      match agent with
      | None => throw (HTTPException 501 "conversation turns are not configured on this relay")
      | Some agent => on_turns (turn hmac audit_key agent record_id t device_id ctx)
      end
  end.
End routes.

(** ** The modelled services *)

(** The tables of the governed services, with the calendar they write to. *)
Record LifeStore (T : Type) := { ls_world : world (T := T); ls_memory : connection memory_db }.
Arguments ls_world {T}.
Arguments ls_memory {T}.
Arguments Build_LifeStore {T}.

Section life.
Context {T : Type} `{GoogleCalendarTransport T} {P : Type} `{DevicePersistence P}.
Context (hmac : string → string → string) (audit_key : string) `{DomainCodec} `{RecordCodec} `{Unicode}.
Context (parse_device : string → option Device) (sha256 sha256_hex : string → string).
Context (dump_instant : Z → string) (dump_time : datetime → string).
Context (public_key_ok : string → bool) (ed25519_verify : string → string → string → bool).
Context (config : CalendarAdapterConfig) (access_token : result CalendarError string).
Context (parse_events : string → option (option (list CalendarEventDraft))) (dump_outcome : CalendarRecoveryOutcome → string).
Context (devices : DeviceRegistry P).
Context (zones : zone_db) (fold_content strip_content : string → string) (input_fingerprint : DayPlanRequest → string).
(** [uuid5] of the person's interview. *)
Context (session_id : string → uuid).
(** What one call reads from clocks and draws. *)
Context (cc : call_context) (clock : datetime) (new_id : uuid).

Definition on_world {E A : Type} (m : comp (world (T := T)) E A) : comp (LifeStore T) E A := λ s,
  let '(w, r) := m (ls_world s) in (Build_LifeStore w (ls_memory s), r).
Definition on_memory {E A : Type} (m : comp (connection memory_db) E A) : comp (LifeStore T) E A := λ s,
  let '(c, r) := m (ls_memory s) in (Build_LifeStore (ls_world s) c, r).
Definition zone_known (key : string) : bool := bool_decide (is_Some (zones key)).

#[export] Instance life_services : LifeServices (LifeStore T) := {
  begin_interview subject timezone ctx :=
    on_memory (begin hmac audit_key fold_content strip_content subject (session_id subject) clock ctx None);
  advance_interview subject timezone expected action t ctx key :=
    on_memory (advance hmac audit_key zone_known fold_content strip_content subject timezone (session_id subject) clock new_id
      expected action t ctx key);
  items_about subject now := on_memory (query (knowledge_items fold_content strip_content subject clock now));
  change_knowledge subject memory_id c ctx :=
    on_memory (correct_knowledge hmac audit_key zone_known fold_content strip_content subject clock memory_id c ctx);
  preview_week subject now timezone := λ s,
    on_world (preview hmac audit_key sha256 sha256_hex dump_time config access_token zones fold_content strip_content
      input_fingerprint cc subject clock now timezone (live (ls_memory s))) s;
  approve_week proposal_id a ctx device_id :=
    on_world (approve_and_apply hmac audit_key parse_device sha256 sha256_hex dump_instant dump_time public_key_ok ed25519_verify
      config access_token parse_events devices cc proposal_id a ctx device_id);
  recover_week proposal_id a ctx device_id :=
    on_world (recover_interrupted_apply hmac audit_key parse_device sha256 sha256_hex dump_instant dump_time public_key_ok
      ed25519_verify config access_token parse_events dump_outcome devices cc proposal_id a ctx device_id);
}.
End life.

(** Requests and approvals consume keys of the same table. *)
#[export] Instance life_consumption (T : Type) : ConsumptionStore (LifeStore T) := {
  generation s := generation (w_store (ls_world s));
  consume keys s :=
    let '(c, b) := consume keys (w_store (ls_world s)) in
    (Build_LifeStore (WeekExecution.set_store (ls_world s) c) (ls_memory s), b);
}.
