(* ===== verification/RelayServicesSpec.v ===== *)
(** * What reaches the governed services through the relay

    Requests and approvals claim keys of one table.  A request over HTTP changes the
    calendar only when one device signed both the request and the approval, or the proof
    of recovery, in it. *)

From stdpp Require Import countable prelude base strings list gmap pretty.
From Stdlib Require Import ZArith QArith Ascii Lia.
From S2P Require Import Prelude PyTime PyText PyUuid PlannerModels Planner PlannerSpec Transactions Consumption Enrollment Authority AuthoritySpec Leases AuditLedger Calendar CalendarSandbox CalendarApply Conversation Knowledge Memory LifeModel PyRe RoutineText Interview InterviewScenarios WeekPlanning WeekPlanningStore DomainRecords DomainRepository DomainSpec WeekExecution WeekExecutionSpec WeekExecutionScenarios RelayStore RelayHistory RelayApi RelayApiSpec KnowledgeCommands ConversationTurn RelayServices.
#[local] Open Scope string_scope.
#[local] Open Scope list_scope.
#[local] Open Scope Z_scope.

#[export] Instance life_laws (T : Type) : ConsumptionLaws (LifeStore T).
Proof.
  refine (Build_ConsumptionLaws _ _ (λ x, store_ok (w_store (ls_world x))) (λ x, consumed (w_store (ls_world x))) _ _).
  - intros x p Hx. exact (generation_spec (w_store (ls_world x)) p Hx).
  - intros keys x Hx Hk. pose proof (consume_spec keys (w_store (ls_world x)) Hx Hk) as Hc. cbv zeta in Hc. destruct Hc as (H1 & H2 & H3 & H4).
    unfold consume at 1 2 3 4, life_consumption. destruct (consume keys (w_store (ls_world x))) as [c b]. cbn [fst snd ls_world w_store WeekExecution.set_store] in *.
    split_and!; [done..|]. intros Hf. rewrite (H4 Hf). destruct x as [[]]. done.
Defined.

Section services.
Context {T : Type} `{GoogleCalendarTransport T} {P : Type} `{DevicePersistence P}.
Context (hmac : string → string → string) (audit_key : string) `{DomainCodec} `{!DomainCodecLaws} `{RecordCodec} `{Unicode} `{ServiceBodies}.
Context (parse_device : string → option Device) (sha256 sha256_hex : string → string).
Context (dump_instant : Z → string) (dump_time : datetime → string).
Context (public_key_ok : string → bool) (ed25519_verify : string → string → string → bool).
Context (config : CalendarAdapterConfig) (access_token : result CalendarError string).
Context (parse_events : string → option (option (list CalendarEventDraft))) (dump_outcome : CalendarRecoveryOutcome → string).
Context (zones : zone_db) (fold_content strip_content : string → string) (input_fingerprint : DayPlanRequest → string).
Context (session_id : string → uuid) (cc : call_context) (clock : datetime) (new_id : uuid).
(** The relay: its conversations, its configuration and its agent. *)
Context `{RelayCodec} `{RelayBodies} (planning_timezone : string) (week_configured : bool).
Context (agent : option (list AgentUtterance → result (option ProviderStatus) ConversationTurnReply)).
(** The JSON of an outcome is an object, never the empty text. *)
Hypothesis outcome_text : ∀ o, Domain.filled (dump_outcome o) = true.
Abbreviation state := (relay_state P (LifeStore T)).
Abbreviation at_rest := (at_rest hmac audit_key (T := T)).

(** The services as the relay builds them: over its own device table. *)
Definition services_of (s : state) : LifeServices (LifeStore T) :=
  life_services hmac audit_key parse_device sha256 sha256_hex dump_instant dump_time public_key_ok ed25519_verify config access_token
    parse_events dump_outcome (registry s) zones fold_content strip_content input_fingerprint session_id cc clock new_id.

Definition world_of (s : state) : world := ls_world (rs_services s).
Definition calendar_of (s : state) : T := w_calendar (world_of s).

(** Every route that [create_relay_app] adds; a turn draws the identifier of its record. *)
Inductive http_route :=
| CreateConversationRoute
| AppendEvents (conversation_id : uuid)
| ReadEvents (conversation_id : uuid) (after limit : Z)
| DeleteConversation (conversation_id : uuid)
| StartInterview
| InterviewTurnRoute
| ReadKnowledge
| CorrectKnowledge (memory_id : uuid)
| PreviewWeek
| RecoverWeek (proposal_id : uuid)
| ApproveWeek (proposal_id : uuid)
| ConversationTurnRoute (record_id : uuid).

Definition handle (route : http_route) (r : Request) (ck : clock_readings) (s : state) : state :=
  let services := services_of s in
  match route with
  | CreateConversationRoute => (create_route hmac audit_key parse_device sha256_hex public_key_ok ed25519_verify r ck s).1
  | AppendEvents id => (append_route hmac audit_key parse_device sha256_hex public_key_ok ed25519_verify id r ck s).1
  | ReadEvents id after limit => (read_route parse_device sha256_hex public_key_ok ed25519_verify id after limit r ck s).1
  | DeleteConversation id => (delete_route hmac audit_key parse_device sha256_hex public_key_ok ed25519_verify id r ck s).1
  | StartInterview => (start_interview parse_device sha256_hex public_key_ok ed25519_verify planning_timezone r ck s).1
  | InterviewTurnRoute => (interview_turn parse_device sha256_hex public_key_ok ed25519_verify planning_timezone r ck s).1
  | ReadKnowledge => (knowledge_route parse_device sha256_hex public_key_ok ed25519_verify r ck s).1
  | CorrectKnowledge id => (correct_knowledge_route parse_device sha256_hex public_key_ok ed25519_verify id r ck s).1
  | PreviewWeek => (preview_week_plan parse_device sha256_hex public_key_ok ed25519_verify planning_timezone week_configured r ck s).1
  | RecoverWeek id => (recover_week_plan parse_device sha256_hex public_key_ok ed25519_verify week_configured id r ck s).1
  | ApproveWeek id => (approve_week_plan parse_device sha256_hex public_key_ok ed25519_verify week_configured id r ck s).1
  | ConversationTurnRoute id => (conversation_turn hmac audit_key parse_device sha256_hex public_key_ok ed25519_verify agent id r ck s).1
  end.

(** ** Authentication and the shared table *)

Lemma authenticate_services r ck (s s1 : state) res :
  RelayApi.authenticate parse_device sha256_hex public_key_ok ed25519_verify r ck s = (s1, res) →
  rs_services s1 = rs_services s ∨ ∃ id, rs_services s1 = (consume [request_key id] (rs_services s)).1.
Proof.
  intros Hrun. unfold RelayApi.authenticate, verify in Hrun. destruct (_body r) as [raw|e]; [|injection Hrun as <- _; by left].
  destruct (negb _); [injection Hrun as <- _; by left|]. destruct (_request_identity r) as [[[proof peer] target]|]; [|injection Hrun as <- _; by left].
  destruct (request_age _ _) as [age|]; [|injection Hrun as <- _; by left]. destruct (negb (fresh_age age)); [injection Hrun as <- _; by left|].
  destruct (negb (request_signed _ _ _ _ _ _ _ _ _ _)); [injection Hrun as <- _; by left|]. right. exists (pf_request_id proof).
  destruct (consume _ _) as [x [|]]; by injection Hrun as <- _.
Qed.

(** A claimed key leaves the rest of the store at rest and the calendar alone. *)
Lemma claim_rests (x : LifeStore T) k s0 : at_rest (ls_world x) s0 →
  at_rest (ls_world (consume [k] x).1) s0 ∧ w_calendar (ls_world (consume [k] x).1) = w_calendar (ls_world x)
  ∧ claims_of (w_store (ls_world x)) ⊆ claims_of (w_store (ls_world (consume [k] x).1)).
Proof.
  intros [(Hrep & Hlive & Hin) Hnd]. unfold consume at 1 2 3, life_consumption. rewrite (consume_outermost [k] _ Hin Hlive).
  destruct (claimable [k] _) eqn:Hcl; simpl; [|by destruct x as [[]]]. split_and!; [|done|unfold claims_of; simpl; set_solver]. split; [split_and!; [|done|done]|].
  - destruct Hrep. split; simpl; done.
  - unfold claims_of. simpl. unfold claimable in Hcl. apply bool_decide_eq_true_1 in Hcl as [_ Hf]. rewrite Forall_singleton in Hf.
    apply NoDup_app. split_and!; [done| |apply NoDup_singleton]. intros y Hy ->%list_elem_of_singleton. by apply Hf.
Qed.

(** Authentication leaves the calendar alone and the rest of the store at rest; who passes
    it was admitted. *)
Lemma authenticated r ck (s s1 : state) s0 res : at_rest (world_of s) s0 →
  RelayApi.authenticate parse_device sha256_hex public_key_ok ed25519_verify r ck s = (s1, res) →
  at_rest (world_of s1) s0 ∧ calendar_of s1 = calendar_of s ∧ claims_of (w_store (world_of s)) ⊆ claims_of (w_store (world_of s1))
  ∧ match res with
    | Ok (raw, device_id, _) => ∃ proof, admission parse_device sha256_hex public_key_ok ed25519_verify r ck s proof raw
                                  ∧ device_id = pf_device_id proof
    | Err _ => True
    end.
Proof.
  intros Hrest Hauth.
  assert (at_rest (world_of s1) s0 ∧ calendar_of s1 = calendar_of s ∧ claims_of (w_store (world_of s)) ⊆ claims_of (w_store (world_of s1)))
    as (Hrest1 & Hcal1 & Hcl).
  { unfold calendar_of, world_of. destruct (authenticate_services _ _ _ _ _ Hauth) as [-> |[k ->]]; [done|]. by apply claim_rests. }
  split_and!; [done..|]. assert (store_ok (rs_services s)) as Hok.
  { destruct Hrest as [(_ & Hlive & Hin) Hnd]. split; [|done]. intros _. by symmetry. }
  apply (authenticate_run _ _ _ _ _ _ _ _ _ Hok) in Hauth. destruct res as [[[raw device_id] ctx]|e]; [|done].
  destruct Hauth as (proof & Had & -> & _ & _). by exists proof.
Qed.

(** What an authenticated handler does to the calendar decides what the route does. *)
Lemma after_authentication {A : Type} (k : string * uuid * TransitionContext → comp state ApiError A) (Q : state → Prop) r ck (s : state) s0 :
  at_rest (world_of s) s0 → (∀ s1, calendar_of s1 = calendar_of s → Q s1) →
  (∀ s1 proof raw ctx, at_rest (world_of s1) s0 → calendar_of s1 = calendar_of s →
     claims_of (w_store (world_of s)) ⊆ claims_of (w_store (world_of s1)) →
     admission parse_device sha256_hex public_key_ok ed25519_verify r ck s proof raw → Q (k (raw, pf_device_id proof, ctx) s1).1) →
  Q ((RelayApi.authenticate parse_device sha256_hex public_key_ok ed25519_verify r ck ≫= k) s).1.
Proof.
  intros Hrest Hsame Hk. rewrite bind_run. destruct (RelayApi.authenticate _ _ _ _ r ck s) as [s1 res] eqn:Hauth.
  destruct (authenticated r ck s s1 s0 res Hrest Hauth) as (Hrest1 & Hcal & Hcl & Had).
  destruct res as [[[raw device_id] ctx]|e]; [|by apply Hsame]. destruct Had as (proof & Had & ->). by apply Hk.
Qed.

(** Handlers that do not reach the calendar. *)
Definition calendar_kept {A : Type} (m : comp state ApiError A) : Prop := ∀ s, calendar_of (m s).1 = calendar_of s.

Lemma kept_ret {A} (a : A) : calendar_kept (mret a).
Proof. done. Qed.
Lemma kept_throw {A} e : calendar_kept (A := A) (throw e).
Proof. done. Qed.
Lemma kept_throw_if b e : calendar_kept (throw_if b e).
Proof. intros s. by destruct b. Qed.
Lemma kept_bind {A B} (m : comp state ApiError A) (k : A → comp state ApiError B) :
  calendar_kept m → (∀ a, calendar_kept (k a)) → calendar_kept (m ≫= k).
Proof. intros Hm Hk s. rewrite bind_run. specialize (Hm s). destruct (m s) as [s1 [a|e]]; [|done]. by rewrite Hk. Qed.
Lemma kept_store {A} translate (m : comp (connection relay_db) RelayError A) : calendar_kept (RelayApi.on_store translate m).
Proof. intros s. unfold RelayApi.on_store. by destruct (m (rs_store s)) as [c [a|e]]. Qed.
Lemma kept_turns {A} (m : comp (connection relay_db) TurnError A) : calendar_kept (on_turns m).
Proof. intros s. unfold on_turns. by destruct (m (rs_store s)) as [c [a|e]]. Qed.
Lemma kept_memory {E A} translate (m : comp (connection memory_db) E A) : calendar_kept (on_services translate (on_memory m)).
Proof. intros s. unfold on_services, on_memory. by destruct (m (ls_memory (rs_services s))) as [c [a|e]]. Qed.
Lemma kept_subject translate device_id : calendar_kept (subject_of translate device_id).
Proof. apply kept_bind; [apply kept_store|]. intros [d|]; [apply kept_ret|apply kept_throw]. Qed.

Ltac keeps_calendar :=
  repeat (intros; first [apply kept_bind | apply kept_ret | apply kept_throw | apply kept_throw_if | apply kept_subject
                        | apply kept_store | apply kept_turns | apply kept_memory | case_match]).

Lemma kept_route {A : Type} (k : string * uuid * TransitionContext → comp state ApiError A) r ck (s : state) s0 :
  at_rest (world_of s) s0 → (∀ x, calendar_kept (k x)) →
  calendar_of ((RelayApi.authenticate parse_device sha256_hex public_key_ok ed25519_verify r ck ≫= k) s).1 = calendar_of s.
Proof.
  intros Hrest Hk. apply (after_authentication k (λ s', calendar_of s' = calendar_of s) r ck s s0 Hrest); [done|].
  intros s1 proof raw ctx _ Hcal _ _. by rewrite Hk.
Qed.

(** A preview plans, stores the proposal and looks at the provider. *)
Lemma preview_looks subject now (s s1 : state) translate :
  let s' := (on_services translate (@preview_week _ (services_of s) subject now planning_timezone) s1).1 in
  calendar_of s' = calendar_of s1 ∨ ∃ plan, calendar_of s' = (dry_run sha256 sha256_hex config access_token plan (calendar_of s1)).1.
Proof.
  cbv zeta. unfold on_services, preview_week, services_of, life_services, on_world, calendar_of, world_of.
  unfold preview. destruct (plan_week _ _ _ _ _ _ _ _ _) as [[[request gaps] proposed]|e]; [|by left].
  rewrite bind_run. unfold propose. rewrite bind_run. unfold settled_value.
  destruct (raise_if _ _) as [[]|e]; [|by left]. rewrite bind_run.
  match goal with |- context [WeekExecution.on_store ?w ?m ?x] => pose proof (calendar_same_store w m x) as Hc; destruct (WeekExecution.on_store w m x) as [w1 [u|e]] end;
    simpl in Hc; [|by left]. rewrite bind_run. unfold on_calendar. rewrite Hc.
  match goal with |- context [dry_run _ _ _ _ ?p ?t] => destruct (dry_run sha256 sha256_hex config access_token p t) as [t' [o|e]] eqn:Hd; right; exists p; by rewrite Hd end.
Qed.

(** A proof of recovery is signed by its device over the payload. *)
Lemma recoverable_signed (devices : DeviceRegistry P) s0 id proof dev p plan :
  recoverable parse_device sha256_hex dump_instant dump_time public_key_ok ed25519_verify parse_events devices s0 cc id proof dev p plan →
  signed_by_device parse_device dump_instant public_key_ok ed25519_verify devices p (as_reset proof)
  ∧ fa_payload_hash (ap_fact proof) = sha256_hex (pr_payload p).
Proof.
  intros [(rec & f & _ & _ & _ & _ & ->) _ [(rule & Hrule & Hproof) _ Hpay _ Hdev] _].
  vm_compute in Hrule. injection Hrule as <-. specialize (Hproof eq_refl). simpl in Hproof. rewrite list_elem_of_singleton in Hproof. auto.
Qed.

(** The device whose certificate and signature admitted the request also signed the
    approval of the stored, still proposed week in its body. *)
Definition approved_by_sender (s : state) (s0 : versioned) (r : Request) (ck : clock_readings) (id : uuid)
    (p : ProposalRecord) (plan : CalendarPlan) : Prop :=
  ∃ proof raw a, admission parse_device sha256_hex public_key_ok ed25519_verify r ck s proof raw ∧ json_approval raw = Some a
    ∧ Authority.ap_device_id a = Some (uuid_str (pf_device_id proof)) ∧ proposal_in s0 id PROPOSED p
    ∧ signed_by_device parse_device dump_instant public_key_ok ed25519_verify (registry s) p a
    ∧ fa_payload_hash (ap_fact a) = sha256_hex (pr_payload p)
    ∧ approved_plan dump_time parse_events (in_state p APPROVED) = Ok plan.

(** The same for a proof of recovery of the stored, approved week. *)
Definition recovered_by_sender (s : state) (s0 : versioned) (r : Request) (ck : clock_readings) (id : uuid)
    (proof : Approval) (p : ProposalRecord) (plan : CalendarPlan) : Prop :=
  ∃ request raw, admission parse_device sha256_hex public_key_ok ed25519_verify r ck s request raw ∧ json_recovery raw = Some proof
    ∧ Authority.ap_device_id proof = Some (uuid_str (pf_device_id request)) ∧ proposal_in s0 id APPROVED p
    ∧ signed_by_device parse_device dump_instant public_key_ok ed25519_verify (registry s) p (as_reset proof)
    ∧ fa_payload_hash (ap_fact proof) = sha256_hex (pr_payload p)
    ∧ approved_plan dump_time parse_events p = Ok plan.

Lemma preview_route_looks r ck (s : state) s0 : at_rest (world_of s) s0 →
  let s' := handle PreviewWeek r ck s in
  calendar_of s' = calendar_of s ∨ ∃ plan, calendar_of s' = (dry_run sha256 sha256_hex config access_token plan (calendar_of s)).1.
Proof.
  intros Hrest. simpl. unfold preview_week_plan.
  apply (after_authentication _ (λ s', calendar_of s' = calendar_of s ∨ ∃ plan, calendar_of s' = _) r ck s s0 Hrest); [by left|].
  intros s1 proof raw ctx _ Hcal _ _. rewrite bind_run. unfold throw_if, raise_if. destruct (negb (String.eqb raw "")); [by left|].
  rewrite bind_run. pose proof (kept_subject unhandled (pf_device_id proof) s1) as Hc1.
  destruct (subject_of unhandled (pf_device_id proof) s1) as [s2 [subject|e]]; simpl in Hc1; [|left; simpl; congruence].
  rewrite bind_run. destruct (negb week_configured); [left; simpl; congruence|].
  destruct (preview_looks subject (tc_occurred_at ctx) s s2 preview_error) as [Hs|[plan Hp]]; [left|right; exists plan]; rewrite <- Hcal, <- Hc1; done.
Qed.

Lemma approve_route_writes id r ck (s : state) s0 : at_rest (world_of s) s0 →
  let s' := handle (ApproveWeek id) r ck s in
  calendar_of s' = calendar_of s
  ∨ ∃ p plan, approved_by_sender s s0 r ck id p plan
      ∧ calendar_of s' = (apply_plan sha256 sha256_hex config access_token plan (calendar_of s)).1.
Proof.
  intros Hrest. simpl. unfold approve_week_plan.
  apply (after_authentication _ (λ s', calendar_of s' = calendar_of s ∨ ∃ p plan, approved_by_sender s s0 r ck id p plan ∧ calendar_of s' = _) r ck s s0 Hrest);
    [by left|].
  intros s1 proof raw ctx Hrest1 Hcal1 _ Had. rewrite bind_run. unfold throw_if, raise_if.
  destruct (negb week_configured); [by left|]. destruct (json_approval raw) as [a|] eqn:Ha; [|by left].
  unfold on_services, services_of, approve_week, life_services, on_world. fold (world_of s1).
  pose proof (approve_and_apply_cases hmac audit_key parse_device sha256 sha256_hex dump_instant dump_time public_key_ok ed25519_verify config access_token
    parse_events (registry s) (world_of s1) s0 cc id a ctx (uuid_str (pf_device_id proof)) Hrest1) as Hcases.
  destruct (approve_and_apply _ _ _ _ _ _ _ _ _ _ _ _ _ _ _ _ _ _ (world_of s1)) as [w' sres].
  match goal with |- calendar_of ?s' = _ ∨ _ => assert (calendar_of s' = w_calendar w') as -> by (by destruct sres) end.
  rewrite <- Hcal1. destruct Hcases as [[-> _]|(p & keys & Hab & _ & Hsig & Hpay & _ & Hres)]; [by left|].
  assert (∀ plan, approved_plan dump_time parse_events (in_state p APPROVED) = Ok plan → approved_by_sender s s0 r ck id p plan) as Hby.
  { intros plan Hplan. exists proof, raw, a. split_and!; try done; apply Hab. }
  destruct sres as [o|e].
  - destruct Hres as (_ & plan & out & Hplan & Happ & _). right. exists p, plan. split; [by apply Hby|]. unfold calendar_of at 1. by rewrite Happ.
  - destruct Hres as (_ & [Hsame|(plan & Hplan & Happ)]); [by left|]. right. exists p, plan. split; [by apply Hby|done].
Qed.

Lemma recover_route_writes id r ck (s : state) s0 : at_rest (world_of s) s0 →
  let s' := handle (RecoverWeek id) r ck s in
  calendar_of s' = calendar_of s
  ∨ ∃ proof p plan, recovered_by_sender s s0 r ck id proof p plan
      ∧ let looked := (reconcile_plan sha256 sha256_hex config access_token plan None (calendar_of s)).1 in
        calendar_of s' = looked
        ∨ calendar_of s' = (apply_plan sha256 sha256_hex config access_token plan looked).1
          ∧ recovery_keys proof ⊆ sd_consumption (durable (w_store (world_of s')))
          ∧ Forall (λ k, k ∉ claims_of (w_store (world_of s))) (recovery_keys proof).
Proof.
  intros Hrest. cbv zeta. simpl. unfold recover_week_plan.
  apply (after_authentication _ (λ s', calendar_of s' = calendar_of s ∨ ∃ proof p plan, recovered_by_sender s s0 r ck id proof p plan
    ∧ (calendar_of s' = _ ∨ calendar_of s' = _ ∧ _ ⊆ sd_consumption (durable (w_store (world_of s'))) ∧ _)) r ck s s0 Hrest); [by left|].
  intros s1 request raw ctx Hrest1 Hcal1 Hcl Had. destruct (json_recovery raw) as [proof|] eqn:Ha; [|by left]. rewrite bind_run. unfold throw_if, raise_if.
  destruct (negb week_configured); [by left|]. unfold on_services, services_of, recover_week, life_services, on_world. fold (world_of s1).
  pose proof (recovery_cases hmac audit_key parse_device sha256 sha256_hex dump_instant dump_time public_key_ok ed25519_verify config access_token
    parse_events dump_outcome (registry s) outcome_text (world_of s1) s0 cc id proof ctx (uuid_str (pf_device_id request)) Hrest1) as Hcases.
  cbv zeta in Hcases. destruct (recover_interrupted_apply _ _ _ _ _ _ _ _ _ _ _ _ _ _ _ _ _ _ _ (world_of s1)) as [w' sres].
  match goal with |- calendar_of ?s' = _ ∨ _ => assert (world_of s' = w') as Hw by (by destruct sres) end.
  unfold calendar_of at 1 3 5. rewrite Hw, <- Hcal1. destruct Hcases as [Hsame|(p & plan & Hr & Hres)]; [by left|]. right. exists proof, p, plan.
  destruct (recoverable_signed _ _ _ _ _ _ _ Hr) as [Hsig Hpay]. destruct Hr as [Hprop Hdev _ Hplan]. split.
  - exists request, raw. split_and!; done.
  - destruct Hres as [Hres|(Hres & Hkeys & Hfresh)]; [by left|right]. split_and!; [done|done|].
    eapply Forall_impl; [exact Hfresh|]. intros k Hk Hin. by apply Hk, Hcl.
Qed.

(** C13. Over HTTP the calendar is written only under two signatures of one device.  Whatever
    route a request takes, the calendar stays as it was, or is as looking at it for a preview
    left it, except in two cases.  A request to approve a week, admitted under the certificate
    and signature of a device (over its exact bytes, a short time ago, under an identifier
    never used), holds an approval of the stored, still proposed week that the same device
    signed over its payload; then the calendar is as applying exactly that week's events left
    it.  A request to recover a week, admitted in the same way, holds a proof that the same
    device signed over the payload of the stored, approved week; then the calendar is as
    looking at it left it, or the proof was unused, is spent, and that week's events were
    applied. *)
Theorem calendar_writes_doubly_signed (s : state) s0 route r ck : at_rest (world_of s) s0 →
  let s' := handle route r ck s in
  calendar_of s' = calendar_of s
  ∨ (route = PreviewWeek ∧ ∃ plan, calendar_of s' = (dry_run sha256 sha256_hex config access_token plan (calendar_of s)).1)
  ∨ (∃ id p plan, route = ApproveWeek id ∧ approved_by_sender s s0 r ck id p plan
       ∧ calendar_of s' = (apply_plan sha256 sha256_hex config access_token plan (calendar_of s)).1)
  ∨ (∃ id proof p plan, route = RecoverWeek id ∧ recovered_by_sender s s0 r ck id proof p plan
       ∧ let looked := (reconcile_plan sha256 sha256_hex config access_token plan None (calendar_of s)).1 in
         calendar_of s' = looked
         ∨ calendar_of s' = (apply_plan sha256 sha256_hex config access_token plan looked).1
           ∧ recovery_keys proof ⊆ sd_consumption (durable (w_store (world_of s')))
           ∧ Forall (λ k, k ∉ claims_of (w_store (world_of s))) (recovery_keys proof)).
Proof.
  intros Hrest s'. destruct route as [|id|id after limit|id| | | |id| |id|id|id]; unfold s'.
  all: try (left; simpl; apply (kept_route _ r ck s s0 Hrest); intros [[raw device_id] ctx]; keeps_calendar; fail).
  - left. simpl. unfold read_route. destruct (_ || _); [done|]. apply (kept_route _ r ck s s0 Hrest). intros [[raw device_id] ctx]. keeps_calendar.
  - destruct (preview_route_looks r ck s s0 Hrest) as [Hsame|Hlook]; [by left|by right; left].
  - destruct (recover_route_writes id r ck s s0 Hrest) as [Hsame|(proof & p & plan & H')]; [by left|]. do 3 right. by exists id, proof, p, plan.
  - destruct (approve_route_writes id r ck s s0 Hrest) as [Hsame|(p & plan & H')]; [by left|]. do 2 right. left. by exists id, p, plan.
Qed.

End services.

(** * A week approved over HTTP, concretely

    The phone signs a request whose body is an approval it also signed; the relay of the
    sandbox provider applies the week. *)

#[local] Existing Instances ApiDemo.bodies RelayText.codec DomainText.codec DomainText.laws Chat.codec Chat.unicode.

Module ServicesDemo.
Definition approval : Approval :=
  let fact := Authority.ap_fact (Relay.signed "a" OrdinaryApproval) in
  let unsigned := {| Authority.ap_fact := fact; Authority.ap_proof := DEVICE_SIGNED; Authority.ap_device_id := Some (uuid_str 1);
                     Authority.ap_signature := ""; Authority.ap_kind := OrdinaryApproval |} in
  {| Authority.ap_fact := fact; Authority.ap_proof := DEVICE_SIGNED; Authority.ap_device_id := Some (uuid_str 1);
     Authority.ap_signature := tohex (signing_bytes pretty unsigned "calendar.apply"); Authority.ap_kind := OrdinaryApproval |}.
#[export] Instance bodies : ServiceBodies := {
  json_interview_turn _ := None;
  json_command _ := None;
  json_approval raw := if String.eqb raw "approval" then Some approval else None;
  json_recovery _ := None;
  json_turn raw := if String.eqb raw "turn" then Some {| tn_conversation_id := 6; tn_text := "hello" |} else None;
}.

Abbreviation state := (relay_state EncryptedDevicePersistence (LifeStore GoogleCalendarSandbox)).
Definition initial : state :=
  Build_relay_state ApiDemo.devices (Build_LifeStore (Relay.proposed Account.empty) Chat.conn) RelayDemo.opened.

Definition clock : clock_readings := {| ck_verified := utc_datetime (Relay.t0 + 5); ck_context := utc_datetime (Relay.t0 + 6) |}.
Definition path : string := "/v1/week-plan/00000000-0000-0000-0000-00000000004d/approve".
Definition request : Request :=
  let p := {| pf_device_id := 1; pf_request_id := 900; pf_issued_at := Relay.t0 / second; pf_signature := "" |} in
  ApiDemo.request {| pf_device_id := 1; pf_request_id := 900; pf_issued_at := Relay.t0 / second;
    pf_signature := tohex (default "" (request_bytes Desk.hash p "POST" path "approval")) |} "POST" path "approval".

Definition approve_http (s : state) : state :=
  handle Cabinet.mac "k" decode_text Account.sha Desk.hash pretty isoformat (λ _, true) Desk.verify Account.config (Ok "tok") Relay.parse
    Relay.outcome_json Demo.utc_db Chat.same Chat.same (λ _, "") (λ _, 0) (Relay.cc 10 "lease" 0) Week.now 0 "UTC" true None
    (ApproveWeek Relay.proposal_id) request clock s.

Lemma approved_over_http : gs_mutation_count (calendar_of (approve_http initial)) = 4.
Proof. vm_compute. reflexivity. Qed.

(** The sessions of the week reached the calendar, so both signatures were checked. *)
Lemma calendar_writes_doubly_signed_witness :
  ∃ s0 p plan, approved_by_sender decode_text Desk.hash pretty isoformat (λ _, true) Desk.verify Relay.parse initial s0 request clock
      Relay.proposal_id p plan
    ∧ calendar_of (approve_http initial)
      = (apply_plan Account.sha Desk.hash Account.config (Ok "tok") plan (calendar_of initial)).1.
Proof.
  destruct (proposed_rests Account.empty) as [s0 Hs0]. exists s0.
  pose proof (calendar_writes_doubly_signed Cabinet.mac "k" decode_text Account.sha Desk.hash pretty isoformat (λ _, true) Desk.verify
    Account.config (Ok "tok") Relay.parse Relay.outcome_json Demo.utc_db Chat.same Chat.same (λ _, "") (λ _, 0) (Relay.cc 10 "lease" 0)
    Week.now 0 "UTC" true None outcome_json_filled initial s0 (ApproveWeek Relay.proposal_id) request clock Hs0) as H.
  cbv zeta in H. fold (approve_http initial) in H. pose proof approved_over_http as Hcount.
  destruct H as [Hsame|[[Hroute _]|[(id & p & plan & Hroute & Hby & Happ)|(id & proof & p & plan & Hroute & _)]]].
  - rewrite Hsame in Hcount. vm_compute in Hcount. discriminate Hcount.
  - discriminate Hroute.
  - injection Hroute as <-. exists p, plan. split; [exact Hby|exact Happ].
  - discriminate Hroute.
Defined.

(** ** A turn in a conversation the device may not use *)

Definition speaking (id : uuid) : Request := ApiDemo.sent id "POST" "/v1/conversation/turn" "turn".
Definition quiet (history : list AgentUtterance) : result (option ProviderStatus) ConversationTurnReply := Err None.

(** The store refuses access, no handler translates that and the client is told of a
    failure of the server; reading the same conversation is answered by 403. *)
Theorem foreign_turn_unhandled :
  (conversation_turn RelayDemo.mac "k" decode_text ApiDemo.sha256_hex ApiDemo.key_ok ApiDemo.verified (Some quiet) 700 (speaking 950)
     ApiDemo.clock ApiDemo.initial).2 = Err InternalServerError
  ∧ (read_route decode_text ApiDemo.sha256_hex ApiDemo.key_ok ApiDemo.verified 6 0 10 (ApiDemo.sent 951 "GET" "/v1/conversations/6/events" "")
     ApiDemo.clock ApiDemo.initial).2 = Err (HTTPException 403 "conversation unavailable").
Proof. split; vm_compute; reflexivity. Qed.
End ServicesDemo.
