(* ===== verification/Slice.v ===== *)
(** * The tomorrow-planning slice ([slice/service.py], [slice/models.py], [slice/interpreter.py],
    [slice/validation.py])

    A capture of transcript events is ordered by a journal, kept as a source item and
    interpreted; the plan of the interpretation becomes a stored proposal with a dry run.
    An approval recomputes the plan from the stored request and applies it; a rollback
    removes it.  The interpreter and the JSON of a request are parameters; the clock shows
    UTC. *)

From stdpp Require Import prelude base strings list gmap pretty.
From Stdlib Require Import ZArith Lia.
From S2P Require Import Prelude PyTime PyText PyUuid Transactions AuditLedger Consumption Enrollment Authority Leases Calendar Conversation DomainRecords DomainRepository PlannerModels Planner WeekExecution.
#[local] Open Scope string_scope.
#[local] Open Scope list_scope.
#[local] Open Scope Z_scope.

Module Slice.
Definition DEFAULT_ACTOR : string := "lifeos".
Definition DEFAULT_CORRELATION : string := "tomorrow-slice".
Definition DEFAULT_WORKER : string := "lifeos-calendar-worker".
Definition DEFAULT_CAPABILITY : string := "calendar.apply".
Definition FINGERPRINT_KEY : string := "task-8-tomorrow-slice".

Inductive SliceError :=
| CaptureRejectedError (rejection : ConversationRejection)
| UnsupportedCaptureError (event_kind : string)
| InterpretationNotFoundError (source_fingerprint : string)
| InterpretationProviderError
| SliceProposalNotFoundError (proposal_id : uuid)
| ProtectedConstraintViolationError (activity_id : string)
| SliceValidationError                 (** a pydantic [ValidationError] or an unknown state *)
| SliceAssertionError
| SliceIndexError                      (** a capture without events *)
| SlicePlannerError (e : PlannerError)
| SliceStoreError (e : DomainError)
| SliceAuthorityError (e : AuthorityError)
| SliceLeaseError (e : LeaseError)
| SliceCalendarError (e : CalendarError).

Record CaptureReceipt := {
  rc_accepted_event_ids : list uuid;
  rc_next_sequence : Z;
  rc_source_record_id : uuid;
  rc_text : string;
  rc_source_fingerprint : string;
}.
Record InterpretationSeed := {
  is_text : string;
  is_proposal_id : uuid;
  is_provider_version : string;
  is_plan_request : DayPlanRequest;
}.
Record InterpretationProposal := {
  ip_proposal_id : uuid;
  ip_source_event_id : uuid;
  ip_provider_version : string;
  ip_plan_request : DayPlanRequest;
}.
Record TomorrowPreview := {
  tp_capture : CaptureReceipt;
  tp_interpretation : InterpretationProposal;
  tp_authorization : ProposalRecord;
  tp_plan : ProposedDay;
  tp_calendar : CalendarPreview;
}.
Record TomorrowApplyResult := { ta_authorization : ProposalRecord; ta_calendar : CalendarApplyResult }.
Record TomorrowReplanResult := {
  tr_previous_proposal_id : uuid;
  tr_preview : TomorrowPreview;
  tr_preserved_protected_activity_ids : list string;
}.
Record TomorrowRollbackResult := { tb_authorization : ProposalRecord; tb_calendar : CalendarRollbackResult }.

(** [events: Field(min_length=2)] *)
Definition capture_valid (events : list ConversationEvent) : bool := (2 <=? Z.of_nat (length events)).

(** ** Interpretation *)

(** The hermetic adapter. *)
Definition fixture_interpret (sha256_hex : string → string) (interpretations : list InterpretationSeed) (text : string) (source_event_id : uuid) :
    result SliceError InterpretationProposal :=
  match List.find (λ i, String.eqb (is_text i) text) interpretations with
  | None => Err (InterpretationNotFoundError (sha256_hex text))
  | Some found => Ok {| ip_proposal_id := is_proposal_id found; ip_source_event_id := source_event_id;
                        ip_provider_version := is_provider_version found; ip_plan_request := is_plan_request found |}
  end.

#[global] Instance ScheduleResolution_eq_dec : EqDecision ScheduleResolution.
Proof. solve_decision. Defined.

(** Equality of models compares times as Python does. *)
Definition opt_eqb {A : Type} (eqb : A → A → bool) (a b : option A) : bool :=
  match a, b with Some x, Some y => eqb x y | None, None => true | _, _ => false end.
Fixpoint seq_eqb {A : Type} (eqb : A → A → bool) (a b : list A) : bool :=
  match a, b with [], [] => true | x :: a, y :: b => eqb x y && seq_eqb eqb a b | _, _ => false end.
Definition activity_eqb (a b : PlanActivity) : bool :=
  String.eqb (pa_activity_id a) (pa_activity_id b) && String.eqb (pa_title a) (pa_title b)
  && bool_decide (pa_flexibility a = pa_flexibility b) && (pa_duration_minutes a =? pa_duration_minutes b)
  && opt_eqb dt_eqb (pa_fixed_start a) (pa_fixed_start b) && opt_eqb dt_eqb (pa_fixed_end a) (pa_fixed_end b)
  && opt_eqb dt_eqb (pa_earliest_start a) (pa_earliest_start b) && opt_eqb dt_eqb (pa_latest_end a) (pa_latest_end b)
  && opt_eqb dt_eqb (pa_deadline a) (pa_deadline b) && Bool.eqb (pa_recover_missed_deadline a) (pa_recover_missed_deadline b)
  && bool_decide (pa_dependencies a = pa_dependencies b) && (pa_travel_minutes_before a =? pa_travel_minutes_before b)
  && (pa_travel_minutes_after a =? pa_travel_minutes_after b) && (pa_energy_required a =? pa_energy_required b)
  && (pa_goal_weight a =? pa_goal_weight b) && (pa_importance a =? pa_importance b)
  && bool_decide (pa_display_group a = pa_display_group b) && bool_decide (pa_display_title a = pa_display_title b)
  && bool_decide (pa_guidance a = pa_guidance b) && Bool.eqb (pa_calendar_eligible a) (pa_calendar_eligible b)
  && Bool.eqb (pa_personal_micro_event a) (pa_personal_micro_event b).
Definition window_eqb (a b : EnergyWindow) : bool :=
  dt_eqb (ew_starts_at a) (ew_starts_at b) && dt_eqb (ew_ends_at a) (ew_ends_at b) && (ew_level a =? ew_level b).
Definition block_eqb (a b : ExistingPlanBlock) : bool :=
  String.eqb (eb_block_id a) (eb_block_id b) && String.eqb (eb_activity_id a) (eb_activity_id b)
  && String.eqb (eb_title a) (eb_title b) && dt_eqb (eb_starts_at a) (eb_starts_at b) && dt_eqb (eb_ends_at a) (eb_ends_at b).
Definition metadata_equal (base plan : DayPlanRequest) : bool :=
  (dr_plan_date plan =? dr_plan_date base) && String.eqb (dr_timezone plan) (dr_timezone base)
  && dt_eqb (dr_window_start plan) (dr_window_start base) && dt_eqb (dr_window_end plan) (dr_window_end base)
  && (dr_state_revision plan =? dr_state_revision base) && (dr_expected_state_revision plan =? dr_expected_state_revision base)
  && seq_eqb block_eqb (dr_baseline_blocks plan) (dr_baseline_blocks base)
  && bool_decide (dr_schedule_resolution plan = dr_schedule_resolution base)
  && seq_eqb window_eqb (dr_energy_windows plan) (dr_energy_windows base).

(** [proposed = {activity.activity_id: activity ...}]: the last of a name. *)
Definition proposed_activity (plan : DayPlanRequest) (id : string) : option PlanActivity :=
  List.find (λ a, String.eqb (pa_activity_id a) id) (rev (dr_activities plan)).
Definition is_protected (a : PlanActivity) : bool := bool_decide (pa_flexibility a = PROTECTED).
Definition preserve_plan_constraints (base plan : DayPlanRequest) : result SliceError unit :=
  let recovery_allowed := map pa_activity_id (List.filter pa_recover_missed_deadline (dr_activities base)) in
  raise_if
    (negb (metadata_equal base plan)
     || existsb (λ item, negb (match proposed_activity plan (pa_activity_id item) with
                               | Some a => activity_eqb a item | None => false end))
          (List.filter is_protected (dr_activities base))
     || existsb (λ item, pa_recover_missed_deadline item && negb (bool_decide (pa_activity_id item ∈ recovery_allowed)))
          (dr_activities plan))
    InterpretationProviderError.

(** ** Plans *)

(** [block_id.replace(":", "-")] *)
Fixpoint dashed (s : string) : string :=
  match s with
  | "" => ""
  | String c s' => String (if Ascii.eqb c (Ascii.ascii_of_nat 58) then Ascii.ascii_of_nat 45 else c) (dashed s')
  end.
Definition calendar_events (plan : ProposedDay) : list CalendarEventDraft :=
  map (λ b, {| ed_event_key := dashed (cb_block_id b); ed_summary := cb_title b; ed_starts_at := cb_starts_at b; ed_ends_at := cb_ends_at b |})
    (py_calendar_projection plan).
Definition protected_ids (plan : ProposedDay) : list string :=
  omap (λ b, if bool_decide (pb_kind b = KPROTECTED) then pb_activity_id b else None) (py_internal_plan plan).

Section slice.
Context {T : Type} `{GoogleCalendarTransport T} {P : Type} `{DevicePersistence P}.
Context (hmac : string → string → string) (audit_key : string) `{DomainCodec}.
Context (parse_device : string → option Device).
Context (sha256 sha256_hex : string → string).
Context (dump_instant : Z → string) (dump_time : datetime → string).
Context (public_key_ok : string → bool) (ed25519_verify : string → string → string → bool).
Context (config : CalendarAdapterConfig) (access_token : result CalendarError string).
Context (devices : DeviceRegistry P) (matrix : ApprovalMatrix).
Context (zones : zone_db) (input_fingerprint : DayPlanRequest → string).
(** [DayPlanRequest.model_dump_json] and [model_validate_json] *)
Context (dump_request : DayPlanRequest → string) (parse_request : string → option DayPlanRequest).
Context (interpret : string → uuid → result SliceError InterpretationProposal).
Abbreviation L A := (comp (world (T := T)) SliceError A).

(** ** Running the parts *)

Definition pure {A : Type} (r : result SliceError A) : L A := λ w, (w, r).
Definition stored {E A : Type} (wrap : E → SliceError) (m : comp (connection state_db) E A) : L A := λ w,
  match m (w_store w) with
  | (c, Ok a) => (set_store w c, Ok a)
  | (c, Err e) => (set_store w c, Err (wrap e))
  end.
Definition leased {A : Type} (m : comp LeaseIssuer LeaseError A) : L A := λ w,
  let set i := {| w_store := w_store w; w_leases := i; w_calendar := w_calendar w |} in
  match m (w_leases w) with
  | (i, Ok a) => (set i, Ok a)
  | (i, Err e) => (set i, Err (SliceLeaseError e))
  end.
Definition on_provider {A : Type} (m : comp T CalendarError A) : L A := λ w,
  let set t := {| w_store := w_store w; w_leases := w_leases w; w_calendar := t |} in
  match m (w_calendar w) with
  | (t, Ok a) => (set t, Ok a)
  | (t, Err e) => (set t, Err (SliceCalendarError e))
  end.

(** ** Proposals in the encrypted store *)

Definition slice_context (occurred_at : Z) : TransitionContext :=
  {| tc_actor := DEFAULT_ACTOR; tc_correlation_id := DEFAULT_CORRELATION; tc_occurred_at := utc_datetime occurred_at |}.
Definition proposal_of (id : uuid) (p : ProposalRecord) (request : DayPlanRequest) (provider_version : string) : Domain.DomainRecord :=
  {| Domain.dr_base := {| Domain.rb_record_id := id; Domain.rb_created_at := utc_datetime (pr_created_at p);
                          Domain.rb_state := state_value (pr_state p) |};
     Domain.dr_variant := Domain.Proposal
       {| Domain.pf_proposal_type := pr_action_class p; Domain.pf_payload := pr_payload p;
          Domain.pf_policy_decision := dump_request request; Domain.pf_provider_version := provider_version;
          Domain.pf_reversible := true; Domain.pf_approval_state := state_value (pr_state p) |} |}.

(** [save]; the identifier is that of the proposal. *)
Definition save (id : uuid) (p : ProposalRecord) (request : option (DayPlanRequest * string)) : L unit :=
  stored SliceStoreError (query (read_domain PROPOSAL id)) ≫= λ existing,
  match existing with
  | None =>
      match request with
      | None => pure (Err (SliceProposalNotFoundError id))
      | Some (plan_request, provider_version) =>
          let record := proposal_of id p plan_request provider_version in
          pure (raise_if (negb (Domain.domain_valid record)) SliceValidationError) ≫= λ _,
          stored SliceStoreError (create hmac audit_key record (slice_context (pr_created_at p)))
      end
  | Some _ => stored SliceStoreError (transition hmac audit_key PROPOSAL id (state_value (pr_state p)) (slice_context (pr_created_at p)))
  end.

(** [ProposalState(record.state)] *)
Definition proposal_state_of (s : string) : option ProposalState :=
  List.find (λ x, String.eqb (state_value x) s) [PROPOSED; APPROVED; REJECTED; EXPIRED; APPLIED; REVERTED; RECONCILED].
Definition loaded (id : uuid) (found : option Domain.DomainRecord) : result SliceError (option ProposalRecord) :=
  match found with
  | None => Ok None
  | Some r =>
      match Domain.dr_variant r with
      | Domain.Proposal f =>
          match proposal_state_of (Domain.state r) with
          | Some state => Ok (Some {| pr_proposal_id := uuid_str id; pr_action_class := Domain.pf_proposal_type f;
                                      pr_payload := Domain.pf_payload f; pr_state := state; pr_created_at := utc (Domain.created_at r) |})
          | None => Err SliceValidationError
          end
      | _ => Err SliceAssertionError
      end
  end.
Definition load (id : uuid) : L (option ProposalRecord) :=
  stored SliceStoreError (query (read_domain PROPOSAL id)) ≫= λ found, pure (loaded id found).
Definition stored_request (id : uuid) (found : option Domain.DomainRecord) : result SliceError DayPlanRequest :=
  match found with
  | Some r =>
      match Domain.dr_variant r with
      | Domain.Proposal f => match parse_request (Domain.pf_policy_decision f) with Some q => Ok q | None => Err SliceValidationError end
      | _ => Err (SliceProposalNotFoundError id)
      end
  | None => Err (SliceProposalNotFoundError id)
  end.
Definition plan_request (id : uuid) : L DayPlanRequest :=
  stored SliceStoreError (query (read_domain PROPOSAL id)) ≫= λ found, pure (stored_request id found).

(** ** Captures *)

Definition capture_journal (first : ConversationEvent) : ConversationJournal :=
  new_journal
    {| cv_conversation_id := ce_conversation_id first; cv_title := "Tomorrow planning"; cv_participant_ids := [ce_participant_id first];
       cv_device_ids := [ce_device_id first]; cv_created_at := ce_occurred_at first; cv_state := ACTIVE |}
    [{| cd_device_id := ce_device_id first; cd_participant_id := ce_participant_id first; cd_kind := IOS; cd_name := "iPhone";
        cd_created_at := ce_occurred_at first |}].
Fixpoint accept_all (j : ConversationJournal) (events : list ConversationEvent) : result SliceError (list uuid) :=
  match events with
  | [] => Ok []
  | e :: rest =>
      let '(j', a) := accept e j in
      if ca_accepted a then match accept_all j' rest with Ok ids => Ok (ce_event_id e :: ids) | Err x => Err x end
      else match ca_rejection a with Some r => Err (CaptureRejectedError r) | None => Err SliceAssertionError end
  end.
Definition source_item (e : ConversationEvent) (text : string) : Domain.DomainRecord :=
  {| Domain.dr_base := {| Domain.rb_record_id := ce_event_id e; Domain.rb_created_at := utc_datetime (ce_occurred_at e); Domain.rb_state := "captured" |};
     Domain.dr_variant := Domain.SourceItem (uuid_str (ce_event_id e)) text |}.
Definition _accept_capture (events : list ConversationEvent) : L CaptureReceipt :=
  match events with
  | [] => pure (Err SliceIndexError)
  | first :: _ =>
      pure (accept_all (capture_journal first) events) ≫= λ accepted,
      match List.find (λ e, bool_decide (ce_kind e = TRANSCRIPT_FINAL)) events with
      | None => pure (Err (UnsupportedCaptureError "no-final-transcript"))
      | Some final =>
          match ce_payload final with
          | TranscriptFinal _ text =>
              pure (raise_if (negb (Domain.domain_valid (source_item final text))) SliceValidationError) ≫= λ _,
              stored SliceStoreError (create hmac audit_key (source_item final text) (slice_context (ce_occurred_at final))) ≫= λ _,
              mret {| rc_accepted_event_ids := accepted; rc_next_sequence := Z.of_nat (length events) + 1;
                      rc_source_record_id := ce_event_id final; rc_text := text;
                      rc_source_fingerprint := tohex (hmac FINGERPRINT_KEY text) |}
          | _ => pure (Err SliceAssertionError)
          end
      end
  end.

(** ** The service *)

Definition _propose (cc : call_context) (i : InterpretationProposal) (plan : ProposedDay) : result SliceError ProposalRecord :=
  let events := calendar_events plan in
  if negb (forallb draft_valid events) then Err SliceValidationError
  else Ok {| pr_proposal_id := uuid_str (ip_proposal_id i); pr_action_class := "calendar.apply";
             pr_payload := calendar_payload dump_time events; pr_state := PROPOSED; pr_created_at := cc_now cc |}.
Definition _calendar_plan (p : ProposalRecord) (plan : ProposedDay) : result SliceError CalendarPlan :=
  let c := {| cp_authorization := p; cp_events := calendar_events plan |} in
  if forallb draft_valid (cp_events c) && require_payload_binding dump_time c then Ok c else Err SliceValidationError.
Definition planned (r : DayPlanRequest) : result SliceError ProposedDay :=
  match propose_day zones input_fingerprint r with Ok plan => Ok plan | Err e => Err (SlicePlannerError e) end.
Definition _plan_for (id : uuid) : L ProposedDay := plan_request id ≫= λ r, pure (planned r).
Definition _require (id : uuid) : L ProposalRecord :=
  load id ≫= λ found, pure (match found with Some p => Ok p | None => Err (SliceProposalNotFoundError id) end).

(** From the plan on: what [preview] and [replan] share. *)
Definition previewed (cc : call_context) (receipt : CaptureReceipt) (i : InterpretationProposal) (plan : ProposedDay) : L TomorrowPreview :=
  pure (_propose cc i plan) ≫= λ proposal,
  pure (_calendar_plan proposal plan) ≫= λ calendar_plan,
  on_provider (dry_run sha256 sha256_hex config access_token calendar_plan) ≫= λ calendar,
  save (ip_proposal_id i) proposal (Some (ip_plan_request i, ip_provider_version i)) ≫= λ _,
  mret {| tp_capture := receipt; tp_interpretation := i; tp_authorization := proposal; tp_plan := plan; tp_calendar := calendar |}.
(** [receipt.accepted_event_ids[-1]] *)
Definition interpreted (receipt : CaptureReceipt) : result SliceError InterpretationProposal :=
  match last (rc_accepted_event_ids receipt) with Some id => interpret (rc_text receipt) id | None => Err SliceIndexError end.

Definition preview (cc : call_context) (events : list ConversationEvent) : L TomorrowPreview :=
  _accept_capture events ≫= λ receipt,
  pure (interpreted receipt) ≫= λ i,
  pure (planned (ip_plan_request i)) ≫= λ plan,
  previewed cc receipt i plan.

Definition slice_lease_request (a : Approval) : LeaseRequest :=
  {| lr_capability := DEFAULT_CAPABILITY; lr_worker_id := DEFAULT_WORKER; lr_actor := DEFAULT_ACTOR;
     lr_correlation_id := DEFAULT_CORRELATION; lr_idempotency_key := fa_fact_id (ap_fact a) |}.
Definition issued (cc : call_context) (approved : ProposalRecord) (a : Approval) : L CapabilityLease := λ w,
  (w, match issue sha256_hex hmac (cc_issued cc) (cc_lease_id cc) approved (slice_lease_request a) (w_leases w) with
      | Ok lease => Ok lease | Err e => Err (SliceLeaseError e) end).

Definition approve_and_apply (cc : call_context) (id : uuid) (a : Approval) : L TomorrowApplyResult :=
  _require id ≫= λ proposal,
  stored SliceAuthorityError (approve parse_device sha256_hex dump_instant public_key_ok ed25519_verify (cc_now cc) devices
    proposal a matrix) ≫= λ state,
  let approved := in_state proposal state in
  save id approved None ≫= λ _,
  issued cc approved a ≫= λ lease,
  leased (Leases.verify sha256_hex hmac (cc_verified cc) lease approved) ≫= λ _,
  _plan_for id ≫= λ day_plan,
  pure (_calendar_plan approved day_plan) ≫= λ plan,
  on_provider (apply_plan sha256 sha256_hex config access_token plan) ≫= λ calendar,
  stored SliceAuthorityError (apply_ sha256_hex (cc_applied cc) approved lease) ≫= λ applied_state,
  let applied := in_state approved applied_state in
  save id applied None ≫= λ _,
  mret {| ta_authorization := applied; ta_calendar := calendar |}.

Definition least (l : list string) : option string := py_min String.ltb l.
Definition _assert_protected_preserved (id : uuid) (plan : ProposedDay) : L unit :=
  _plan_for id ≫= λ previous,
  let missing := List.filter (λ x, negb (bool_decide (x ∈ protected_ids plan))) (protected_ids previous) in
  pure (match least missing with Some x => Err (ProtectedConstraintViolationError x) | None => Ok tt end).

Definition require_applied (id : uuid) (p : ProposalRecord) : result SliceError unit :=
  raise_if (negb (bool_decide (pr_state p = APPLIED))) (SliceProposalNotFoundError id).

Definition replan (cc : call_context) (previous_id : uuid) (events : list ConversationEvent) : L TomorrowReplanResult :=
  _require previous_id ≫= λ previous,
  pure (require_applied previous_id previous) ≫= λ _,
  _accept_capture events ≫= λ receipt,
  pure (interpreted receipt) ≫= λ i,
  pure (planned (ip_plan_request i)) ≫= λ plan,
  _assert_protected_preserved previous_id plan ≫= λ _,
  previewed cc receipt i plan ≫= λ shown,
  mret {| tr_previous_proposal_id := previous_id; tr_preview := shown; tr_preserved_protected_activity_ids := protected_ids plan |}.

Definition rollback (cc : call_context) (id : uuid) (rb : Rollback) : L TomorrowRollbackResult :=
  _require id ≫= λ proposal,
  pure (require_applied id proposal) ≫= λ _,
  _plan_for id ≫= λ day_plan,
  pure (_calendar_plan proposal day_plan) ≫= λ plan,
  on_provider (rollback_plan sha256_hex config access_token (cc_now cc) plan rb) ≫= λ calendar,
  stored SliceAuthorityError (revert sha256_hex (cc_applied cc) proposal rb) ≫= λ state,
  let reverted := in_state proposal state in
  save id reverted None ≫= λ _,
  mret {| tb_authorization := reverted; tb_calendar := calendar |}.
Definition cleanup : call_context → uuid → Rollback → L TomorrowRollbackResult := rollback.
End slice.
End Slice.
