(* ===== verification/SliceSpec.v ===== *)
(** * What the tomorrow slice guarantees ([slice/service.py])

    The plan is computed again when it is applied; what reaches the calendar is
    nevertheless what was shown.  Concrete runs show the lifecycle and where the service
    departs from its documentation. *)

From stdpp Require Import prelude base strings list gmap pretty.
From Stdlib Require Import ZArith Lia.
From S2P Require Import Prelude PyTime PyText PyUuid Transactions AuditLedger Consumption Enrollment Authority AuthoritySpec Leases Calendar CalendarSandbox CalendarApply Conversation DomainRecords DomainRepository DomainSpec PlannerModels Planner PlannerSpec WeekExecution WeekExecutionSpec WeekExecutionScenarios Slice.
#[local] Open Scope string_scope.
#[local] Open Scope list_scope.
#[local] Open Scope Z_scope.

Import Slice.

Section spec.
Context {T : Type} `{GoogleCalendarTransport T} {P : Type} `{DevicePersistence P}.
Context (hmac : string → string → string) (audit_key : string) `{DomainCodec} `{!DomainCodecLaws}.
Context (parse_device : string → option Device).
Context (sha256 sha256_hex : string → string).
Context (dump_instant : Z → string) (dump_time : datetime → string).
Context (public_key_ok : string → bool) (ed25519_verify : string → string → string → bool).
Context (config : CalendarAdapterConfig) (access_token : result CalendarError string).
Context (devices : DeviceRegistry P) (matrix : ApprovalMatrix).
Context (zones : zone_db) (input_fingerprint : DayPlanRequest → string).
Context (dump_request : DayPlanRequest → string) (parse_request : string → option DayPlanRequest).
Context (interpret : string → uuid → result SliceError InterpretationProposal).
Abbreviation L A := (comp (world (T := T)) SliceError A).
Abbreviation rests := (rests hmac audit_key).
Abbreviation at_rest := (at_rest hmac audit_key (T := T)).
Abbreviation save := (save hmac audit_key dump_request).
Abbreviation planned := (planned zones input_fingerprint).
Abbreviation preview := (preview hmac audit_key sha256 sha256_hex dump_time config access_token zones input_fingerprint dump_request interpret).
Abbreviation approve_and_apply := (approve_and_apply hmac audit_key parse_device sha256 sha256_hex dump_instant dump_time public_key_ok
  ed25519_verify config access_token devices matrix zones input_fingerprint dump_request parse_request).
Abbreviation approval_valid := (approval_valid parse_device sha256_hex dump_instant public_key_ok ed25519_verify).
Abbreviation apply_plan := (apply_plan sha256 sha256_hex config access_token).

(** ** Inversion of the parts *)

Lemma pure_inv {A} (r : result SliceError A) (w w' : world (T := T)) a : pure r w = (w', Ok a) → w' = w ∧ r = Ok a.
Proof. by intros [= <- <-]. Qed.
Lemma stored_inv {E A} wrap (m : comp (connection state_db) E A) (w w' : world (T := T)) a :
  stored wrap m w = (w', Ok a) → ∃ c, m (w_store w) = (c, Ok a) ∧ w' = set_store w c.
Proof. unfold stored. destruct (m (w_store w)) as [c [x|e]]; [|done]. intros [= <- <-]. by exists c. Qed.
Lemma stored_query_inv {E A} wrap (f : state_db → result E A) (w w' : world (T := T)) a :
  stored wrap (query f) w = (w', Ok a) → w' = w ∧ f (live (w_store w)) = Ok a.
Proof. intros (c & [-> Hf]%query_inv & ->)%stored_inv. split; [by destruct w|done]. Qed.
Lemma provider_inv {A} (m : comp T CalendarError A) (w w' : world (T := T)) a : on_provider m w = (w', Ok a) →
  w_store w' = w_store w ∧ w_leases w' = w_leases w ∧ m (w_calendar w) = (w_calendar w', Ok a).
Proof. unfold on_provider. destruct (m (w_calendar w)) as [t [x|e]]; [|done]. by intros [= <- <-]. Qed.

Lemma at_rest_store (w w' : world (T := T)) s : w_store w' = w_store w → at_rest w s → at_rest w' s.
Proof. unfold WeekExecutionSpec.at_rest. by intros ->. Qed.
Lemma read_at_rest (w : world (T := T)) s kind id : at_rest w s → read_domain kind id (live (w_store w)) = Ok (last (vs_history s kind id)).
Proof. intros [(Hs & _) _]. by apply (read_represented hmac audit_key). Qed.

Lemma perform_stored op (w w' : world (T := T)) s u wrap : at_rest w s → op_valid op = true →
  stored wrap (perform hmac audit_key op) w = (w', Ok u) →
  ∃ s', abstract_step op s = Some s' ∧ at_rest w' s' ∧ claims_of (w_store w') = claims_of (w_store w)
    ∧ w_calendar w' = w_calendar w ∧ w_leases w' = w_leases w.
Proof.
  intros [Hr Hn] Hop (c & Hrun & ->)%stored_inv. pose proof (perform_rests hmac audit_key op _ s Hr Hop) as Hp.
  destruct (abstract_step op s) as [s'|]; [|destruct Hp as [e He]; congruence]. rewrite Hrun in Hp. destruct Hp as (_ & Hr' & _ & Hc).
  exists s'. simpl in *. split_and!; try done. split; [done|]. unfold claims_of in *. simpl. by rewrite Hc.
Qed.

(** ** Stored proposals *)

(** The store has [p] under [id], with the request its plan is computed from. *)
Definition holds (s : versioned) (id : uuid) (p : ProposalRecord) (q : DayPlanRequest) : Prop :=
  ∃ r, last (vs_history s PROPOSAL id) = Some r ∧ loaded id (Some r) = Ok (Some p) ∧ stored_request parse_request id (Some r) = Ok q.

Lemma proposal_state_value st : proposal_state_of (state_value st) = Some st.
Proof. by destruct st. Qed.

Lemma save_new id p q version (w w' : world (T := T)) s u : at_rest w s → vs_history s PROPOSAL id = [] → pr_proposal_id p = uuid_str id →
  parse_request (dump_request q) = Some q → save id p (Some (q, version)) w = (w', Ok u) →
  ∃ s', at_rest w' s' ∧ holds s' id p q ∧ claims_of (w_store w') = claims_of (w_store w) ∧ w_calendar w' = w_calendar w.
Proof.
  intros Hw Hnew Hid Hq Hrun. unfold Slice.save in Hrun. apply bind_inv in Hrun as (existing & w1 & [-> Hread]%stored_query_inv & Hrun).
  rewrite (read_at_rest _ s) in Hread by done. rewrite Hnew in Hread. injection Hread as <-.
  apply bind_inv in Hrun as (v & w1 & [-> Hvalid]%pure_inv & Hrun). apply raise_if_ok, negb_false_iff in Hvalid.
  set (r := proposal_of dump_request id p q version) in *.
  apply (perform_stored (OpCreate r (slice_context (pr_created_at p))) _ _ s) in Hrun as (s' & Hstep & Hw' & Hc & Hcal & _); [|done|simpl; by rewrite Hvalid].
  exists s'. split_and!; [done| |done|done]. simpl in Hstep. destruct (bool_decide _); [done|].
  change (Domain.record_id r) with id in Hstep. change (Domain.record_kind r) with PROPOSAL in Hstep. rewrite Hnew in Hstep. injection Hstep as <-.
  exists r. simpl. unfold set_history. rewrite bool_decide_true by done. split_and!; [done| |].
  - simpl. unfold Domain.state. simpl. rewrite proposal_state_value. do 2 f_equal. unfold Domain.created_at. simpl. destruct p. simpl in *. subst.
    by rewrite utc_utc_datetime.
  - simpl. by rewrite Hq.
Qed.

Lemma save_moved id p q st (w w' : world (T := T)) s u : at_rest w s → holds s id p q → save id (in_state p st) None w = (w', Ok u) →
  ∃ s', at_rest w' s' ∧ holds s' id (in_state p st) q ∧ claims_of (w_store w') = claims_of (w_store w)
    ∧ w_calendar w' = w_calendar w ∧ w_leases w' = w_leases w.
Proof.
  intros Hw (r & Hl & Hp & Hq) Hrun. unfold Slice.save in Hrun. apply bind_inv in Hrun as (existing & w1 & [-> Hread]%stored_query_inv & Hrun).
  rewrite (read_at_rest _ s) in Hread by done. rewrite Hl in Hread. injection Hread as <-.
  apply (perform_stored (OpTransition PROPOSAL id (state_value st) (slice_context (pr_created_at p))) _ _ s) in Hrun
    as (s' & Hstep & Hw' & Hc & Hcal & Hls); [|done..].
  exists s'. split_and!; [done| |done..]. simpl in Hstep. rewrite Hl in Hstep.
  assert (Domain.filled (state_value st) = true) as Hf by (by destruct st). rewrite Hf in Hstep. injection Hstep as <-.
  exists (Domain.with_state r (state_value st)). simpl. unfold set_history. rewrite bool_decide_true by done. rewrite last_snoc. split_and!; [done| |].
  - simpl in Hp |- *. destruct (Domain.dr_variant r); try done. destruct (proposal_state_of (Domain.state r)); [|done]. injection Hp as <-.
    unfold Domain.state. simpl. by rewrite proposal_state_value.
  - simpl in Hq |- *. by destruct (Domain.dr_variant r).
Qed.

(** ** Claims outside of a transaction *)

(** Code that changes nothing of a settled store but claims keys, each claim on disk at once. *)
Definition claims_outside {E A : Type} (m : comp (connection state_db) E A) : Prop :=
  ∀ c, in_transaction c = false → live c = durable c → NoDup (claims_of c) →
    ∃ keys, (m c).1 = commit (claimed c keys) ∧ NoDup (claims_of c ++ keys).

Lemma commit_claimed_nil (c : connection state_db) : in_transaction c = false → live c = durable c → commit (claimed c []) = c.
Proof. rewrite claimed_nil. destruct c. simpl. by intros -> ->. Qed.
Lemma outside_value {E A} (r : result E A) : claims_outside (λ c, (c, r)).
Proof. intros c Hin Hd Hn. exists []. by rewrite commit_claimed_nil, app_nil_r. Qed.
Lemma outside_bind {E A B} (m : comp (connection state_db) E A) (k : A → comp (connection state_db) E B) :
  claims_outside m → (∀ a, claims_outside (k a)) → claims_outside (m ≫= k).
Proof.
  intros Hm Hk c Hin Hd Hn. destruct (Hm c Hin Hd Hn) as (keys & Heq & Hn'). unfold mbind, comp_bind.
  destruct (m c) as [c' [a|e]]; simpl in *; [|by exists keys]. subst c'.
  destruct (Hk a (commit (claimed c keys)) eq_refl eq_refl Hn') as (keys' & -> & Hn''). exists (keys ++ keys').
  unfold claimed, claims_of, commit in *. simpl in *. by rewrite app_assoc.
Qed.
Lemma outside_consume keys message : claims_outside (consume_or keys message).
Proof.
  intros c Hin Hd Hn. unfold consume_or. rewrite (consume_outermost keys c Hin Hd). unfold claimable.
  case_bool_decide as Hk; simpl.
  - exists keys. split; [done|]. destruct Hk as [? Hf]. rewrite Forall_forall in Hf. apply NoDup_app. set_solver.
  - exists []. by rewrite commit_claimed_nil, app_nil_r.
Qed.
Hint Resolve outside_value outside_bind outside_consume : lifeos.

Lemma outside_approve now proposal a :
  claims_outside (approve parse_device sha256_hex dump_instant public_key_ok ed25519_verify now devices proposal a matrix).
Proof.
  intros c Hc Hd Hn. unfold approve. set (keys := approve_keys _ _ _). clearbody keys. revert c Hc Hd Hn.
  change (claims_outside (throw_if (negb (bool_decide (pr_state proposal = PROPOSED)))
     (PolicyViolationError ("cannot approve proposal in state " +:+ state_value (pr_state proposal))) ≫= λ _,
   throw_if (bool_decide (ap_kind a = ResetRequest)) (PolicyViolationError "reset proof cannot approve execution") ≫= λ _,
   checked (validate_approval parse_device sha256_hex dump_instant public_key_ok ed25519_verify now devices proposal a matrix) ≫= λ _,
   consume_or keys "approval replay" ≫= λ _, mret APPROVED)).
  unfold throw_if, checked. eauto 20 with lifeos.
Qed.
Lemma outside_apply now proposal lease : claims_outside (apply_ sha256_hex now proposal lease).
Proof. unfold apply_, bound_transition, throw_if, _consume, mret, comp_ret. eauto 20 with lifeos. Qed.

Lemma outside_stored {E A} wrap (m : comp (connection state_db) E A) (w : world (T := T)) s : claims_outside m → at_rest w s →
  at_rest (stored wrap m w).1 s ∧ w_calendar (stored wrap m w).1 = w_calendar w.
Proof.
  intros Hm [(Hs & Hd & Hin) Hn]. destruct (Hm (w_store w) Hin Hd Hn) as (keys & Heq & Hn'). unfold stored.
  destruct (m (w_store w)) as [c' [a|e]]; simpl in *; subst c'; (split; [|done]); (split; [|done]);
    (split_and!; [|done|done]); by apply represents_claims.
Qed.

(** ** From preview to apply *)

Lemma accept_inv events (w w' : world (T := T)) s receipt : at_rest w s → _accept_capture hmac audit_key events w = (w', Ok receipt) →
  ∃ s', at_rest w' s' ∧ (∀ id, vs_history s' PROPOSAL id = vs_history s PROPOSAL id).
Proof.
  intros Hw Hrun. destruct events as [|first events]; [done|]. cbn [_accept_capture] in Hrun.
  apply bind_inv in Hrun as (ids & w1 & [-> _]%pure_inv & Hrun). destruct (List.find _ _) as [final|]; [|done].
  destruct (ce_payload final) as [|t text| | | | |]; try done.
  apply bind_inv in Hrun as (u & w1 & [-> Hvalid]%pure_inv & Hrun). apply raise_if_ok, negb_false_iff in Hvalid.
  apply bind_inv in Hrun as (u2 & w1 & Hcreate & [= <- _]).
  apply (perform_stored (OpCreate (source_item final text) (slice_context (ce_occurred_at final))) _ _ s) in Hcreate
    as (s' & Hstep & Hw' & _); [|done|simpl; by rewrite Hvalid].
  exists s'. split; [done|]. intros id. simpl in Hstep. destruct (bool_decide _); [done|]. destruct (vs_history s _ _); [|done].
  injection Hstep as <-. simpl. unfold set_history. rewrite bool_decide_false; [done|]. by intros [? _].
Qed.

(** What the interpreter returns was parsed from JSON, so it survives being stored. *)
Hypothesis interpreted_json : ∀ text id i, interpret text id = Ok i → parse_request (dump_request (ip_plan_request i)) = Some (ip_plan_request i).

Lemma preview_holds cc events (w w' : world (T := T)) s pv : at_rest w s → preview cc events w = (w', Ok pv) →
  vs_history s PROPOSAL (ip_proposal_id (tp_interpretation pv)) = [] →
  ∃ s', at_rest w' s' ∧ holds s' (ip_proposal_id (tp_interpretation pv)) (tp_authorization pv) (ip_plan_request (tp_interpretation pv))
    ∧ planned (ip_plan_request (tp_interpretation pv)) = Ok (tp_plan pv) ∧ pr_state (tp_authorization pv) = PROPOSED
    ∧ _calendar_plan dump_time (in_state (tp_authorization pv) APPROVED) (tp_plan pv)
      = Ok {| cp_authorization := in_state (tp_authorization pv) APPROVED; cp_events := calendar_events (tp_plan pv) |}.
Proof.
  intros Hw Hrun Hnew. unfold Slice.preview in Hrun. apply bind_inv in Hrun as (receipt & w1 & Hacc & Hrun).
  destruct (accept_inv _ _ _ s _ Hw Hacc) as (s1 & Hw1 & Hsame). apply bind_inv in Hrun as (i & w2 & [-> Hi]%pure_inv & Hrun).
  apply bind_inv in Hrun as (plan & w2 & [-> Hplan]%pure_inv & Hrun). unfold previewed in Hrun.
  apply bind_inv in Hrun as (p & w2 & [-> Hp]%pure_inv & Hrun). apply bind_inv in Hrun as (cp & w2 & [-> Hcp]%pure_inv & Hrun).
  apply bind_inv in Hrun as (shown & w2 & (Hst & _ & _)%provider_inv & Hrun). apply bind_inv in Hrun as (u & w3 & Hsave & [= <- <-]). simpl in *.
  unfold _propose in Hp. destruct (forallb draft_valid _) eqn:Hdrafts; [|done]. injection Hp as <-.
  apply (save_new _ _ _ _ _ _ s1) in Hsave as (s' & Hw' & Hh & _); [|by eapply at_rest_store|by rewrite Hsame|done|].
  - exists s'. split_and!; try done. unfold _calendar_plan, require_payload_binding. simpl. by rewrite Hdrafts, String.eqb_refl.
  - unfold interpreted in Hi. destruct (last _); [|done]. by eapply interpreted_json.
Qed.

(** Everything but calls of the provider leaves the calendar alone. *)
Definition offline {A : Type} (m : L A) : Prop := ∀ w, w_calendar (m w).1 = w_calendar w.
Lemma offline_bind {A B} (m : L A) (k : A → L B) : offline m → (∀ a, offline (k a)) → offline (m ≫= k).
Proof.
  intros Hm Hk w. unfold mbind, comp_bind. pose proof (Hm w) as Hw. destruct (m w) as [w1 [a|e]]; [|done]. simpl in *. by rewrite Hk.
Qed.
Lemma offline_pure {A} (r : result SliceError A) : offline (pure r).
Proof. done. Qed.
Lemma offline_ret {A} (a : A) : offline (mret a).
Proof. done. Qed.
Lemma offline_stored {E A} wrap (m : comp (connection state_db) E A) : offline (stored wrap m).
Proof. intros w. unfold stored. by destruct (m _) as [? []]. Qed.
Lemma offline_leased {A} (m : comp LeaseIssuer LeaseError A) : offline (leased m).
Proof. intros w. unfold leased. by destruct (m _) as [? []]. Qed.
Lemma offline_save id p r : offline (save id p r).
Proof. unfold Slice.save. apply offline_bind; [apply offline_stored|]. intros [r0|]; [apply offline_stored|]. destruct r as [[q v]|]; [|done].
  apply offline_bind; [done|]. intros ?. apply offline_stored. Qed.
Lemma stored_store {E A} wrap (m : comp (connection state_db) E A) (w w' : world (T := T)) r : stored wrap m w = (w', r) → w_leases w' = w_leases w.
Proof. unfold stored. destruct (m _) as [? []]; by intros [= <- _]. Qed.

Lemma require_holds id p q (w : world (T := T)) s : at_rest w s → holds s id p q → _require id w = (w, Ok p).
Proof.
  intros Hw (r & Hl & Hp & _). unfold _require, load, stored. rewrite !bind_run. unfold query. rewrite (read_at_rest _ s), Hl by done.
  simpl in Hp |- *. unfold pure. destruct (Domain.dr_variant r); try done. destruct (proposal_state_of _); [|done]. injection Hp as <-. by destruct w.
Qed.
Lemma plan_for_holds id p q (w : world (T := T)) s : at_rest w s → holds s id p q →
  _plan_for zones input_fingerprint parse_request id w = (w, planned q).
Proof.
  intros Hw (r & Hl & _ & Hq). unfold _plan_for, plan_request, stored. rewrite !bind_run. unfold query. rewrite (read_at_rest _ s), Hl by done.
  unfold pure. cbn [stored_request] in Hq |- *. rewrite Hq. by destruct w.
Qed.

Lemma rest_ok (w : world (T := T)) s : at_rest w s → store_ok (w_store w).
Proof. intros [(_ & Hd & _) Hn]. split; [|done]. by intros _. Qed.

(** What an approval was accepted for. *)
Record approved_for (cc : call_context) (c : connection state_db) (p : ProposalRecord) (a : Approval) : Prop := {
  af_state : pr_state p = PROPOSED;
  af_kind : ap_kind a = OrdinaryApproval;
  af_valid : approval_valid (cc_now cc) devices p a matrix;
  af_fresh : Forall (λ k, k ∉ claims_of c) (approve_keys (generation c (pr_proposal_id p)) p a);
}.

Lemma approve_run cc p a (w w' : world (T := T)) s st : at_rest w s →
  stored SliceAuthorityError (approve parse_device sha256_hex dump_instant public_key_ok ed25519_verify (cc_now cc) devices p a matrix) w = (w', Ok st) →
  st = APPROVED ∧ approved_for cc (w_store w) p a ∧ at_rest w' s ∧ w_calendar w' = w_calendar w ∧ w_leases w' = w_leases w.
Proof.
  intros Hw Hrun. pose proof (outside_stored SliceAuthorityError _ w s (outside_approve (cc_now cc) p a) Hw) as [Hw' Hcal]. rewrite Hrun in Hw', Hcal.
  pose proof (stored_store _ _ _ _ _ Hrun) as Hls. apply stored_inv in Hrun as (c & Hrun & ->).
  pose proof (rest_ok w s Hw) as Hok.
  pose proof (approve_ok_iff parse_device sha256_hex dump_instant public_key_ok ed25519_verify (cc_now cc) devices p a matrix (w_store w) Hok) as Hiff.
  destruct (approve_claims parse_device sha256_hex dump_instant public_key_ok ed25519_verify (cc_now cc) devices p a matrix (w_store w) Hok) as [_ Hcl].
  rewrite Hrun in Hiff, Hcl. simpl in Hiff, Hcl. destruct Hcl as [-> _]. destruct (proj1 Hiff eq_refl) as (Hst & Hk & Hv & Hf).
  split_and!; [done| |done..]. split; [done..|]. eapply Forall_impl; [exact Hf|]. intros k. simpl. set_solver.
Qed.

Lemma approve_cases cc id a (w : world (T := T)) s p q plan : at_rest w s → holds s id p q → planned q = Ok plan →
  _calendar_plan dump_time (in_state p APPROVED) plan = Ok {| cp_authorization := in_state p APPROVED; cp_events := calendar_events plan |} →
  let '(w', res) := approve_and_apply cc id a w in
  (w_calendar w' = w_calendar w ∧ is_ok res = false)
  ∨ approved_for cc (w_store w) p a
    ∧ w_calendar w' = (apply_plan {| cp_authorization := in_state p APPROVED; cp_events := calendar_events plan |} (w_calendar w)).1
    ∧ (is_ok res = true → ∃ s', at_rest w' s' ∧ holds s' id (in_state p APPLIED) q).
Proof.
  intros Hw Hh Hplan Hcp. destruct (approve_and_apply cc id a w) as [w' res] eqn:Hrun. unfold Slice.approve_and_apply in Hrun.
  rewrite bind_run, (require_holds _ _ _ _ _ Hw Hh) in Hrun. rewrite bind_run in Hrun.
  destruct (stored SliceAuthorityError _ w) as [w1 [st|e]] eqn:Happ.
  2: { injection Hrun as <- <-. left. split; [|done]. unfold stored in Happ. destruct (approve _ _ _ _ _ _ _ _ _ _ _) as [c [x|x]]; [done|]. by injection Happ as <- _. }
  apply (approve_run cc p a w w1 s) in Happ as (-> & Hfor & Hw1 & Hcal1 & Hls1); [|done].
  cbv zeta in Hrun. rewrite bind_run in Hrun. destruct (save id (in_state p APPROVED) None w1) as [w2 [u|e]] eqn:Hsave.
  2: { injection Hrun as <- <-. left. split; [|done]. pose proof (offline_save id (in_state p APPROVED) None w1) as Ho. rewrite Hsave in Ho. simpl in Ho. congruence. }
  apply (save_moved id p q APPROVED w1 w2 s) in Hsave as (s2 & Hw2 & Hh2 & _ & Hcal2 & Hls2); [|done..].
  rewrite bind_run in Hrun. unfold issued in Hrun. destruct (issue _ _ _ _ _ _ _) as [lease|e]; [|injection Hrun as <- <-; left; split; [congruence|done]].
  rewrite bind_run in Hrun. destruct (leased _ w2) as [w3 [v|e]] eqn:Hlease.
  2: { injection Hrun as <- <-. left. split; [|done]. pose proof (offline_leased (Leases.verify sha256_hex hmac (cc_verified cc) lease (in_state p APPROVED)) w2) as Ho.
       rewrite Hlease in Ho. simpl in Ho. congruence. }
  assert (w_store w3 = w_store w2 ∧ w_calendar w3 = w_calendar w2) as [Hst3 Hcal3].
  { unfold leased in Hlease. destruct (Leases.verify _ _ _ _ _ _) as [i [x|x]]; [|done]. by injection Hlease as <- _. }
  assert (at_rest w3 s2) as Hw3 by (by eapply at_rest_store).
  rewrite bind_run, (plan_for_holds _ _ _ _ _ Hw3 Hh2), Hplan in Hrun. rewrite bind_run in Hrun. unfold pure in Hrun at 1. rewrite Hcp in Hrun.
  rewrite bind_run in Hrun. set (cplan := {| cp_authorization := _ |}) in *.
  assert (w_calendar w3 = w_calendar w) as Hcalw by congruence.
  destruct (on_provider (apply_plan cplan) w3) as [w4 [result_|e]] eqn:Hprov; right; (split; [done|]).
  - unfold on_provider in Hprov. rewrite Hcalw in Hprov. destruct (apply_plan cplan (w_calendar w)) as [t [x|x]]; [|done]. injection Hprov as <- <-.
    rewrite bind_run in Hrun. set (w4 := {| w_store := w_store w3; w_leases := w_leases w3; w_calendar := t |}) in *.
    assert (at_rest w4 s2) as Hw4 by (by eapply at_rest_store).
    pose proof (outside_stored SliceAuthorityError _ w4 s2 (outside_apply (cc_applied cc) (in_state p APPROVED) lease) Hw4) as [Hw5 Hcal5].
    destruct (stored SliceAuthorityError (apply_ _ _ _ _) w4) as [w5 [st|e]] eqn:Happl; simpl in Hw5, Hcal5; [|by injection Hrun as <- <-].
    assert (st = APPLIED) as ->.
    { apply stored_inv in Happl as (c & Happl & _). pose proof (rest_ok w4 s2 Hw4) as Hok.
      destruct (bound_transition_claims sha256_hex "apply" "lease" APPROVED APPLIED (cc_applied cc) (in_state p APPROVED) (le_fact lease) (w_store w4) Hok) as [_ Hcl].
      unfold apply_ in Happl. rewrite Happl in Hcl. by destruct Hcl. }
    cbv zeta in Hrun. change (in_state (in_state p APPROVED) APPLIED) with (in_state p APPLIED) in Hrun. rewrite bind_run in Hrun.
    pose proof (offline_save id (in_state p APPLIED) None w5) as Ho. destruct (save id (in_state p APPLIED) None w5) as [w6 [u2|e]] eqn:Hsave2; simpl in Ho;
      injection Hrun as <- <-; (split; [simpl in *; congruence|]); [|done].
    intros _. apply (save_moved id (in_state p APPROVED) q APPLIED w5 w6 s2) in Hsave2 as (s6 & Hw6 & Hh6 & _); [|done..]. by exists s6.
  - injection Hrun as <- <-. unfold on_provider in Hprov. rewrite Hcalw in Hprov. destruct (apply_plan cplan (w_calendar w)) as [t [x|x]]; [done|].
    by injection Hprov as <- _.
Qed.

(** C16. What reaches the calendar is what was shown, although the plan is computed again
    from the stored request.  A preview stored a proposal under an identifier the store did
    not have; meanwhile the calendar, and the store outside of that proposal, changed in any
    way.  An approval of it then either raises and leaves the calendar alone, or it was valid and unused, bound to the payload that was shown, and
    the calendar is as applying exactly the events of the shown plan left it; when the
    call returns, the proposal is stored as applied. *)
Theorem slice_applies_what_was_shown cc events (w w1 w2 : world (T := T)) s s2 pv cc' a :
  at_rest w s → preview cc events w = (w1, Ok pv) → at_rest w2 s2 →
  let id := ip_proposal_id (tp_interpretation pv) in
  read_domain PROPOSAL id (live (w_store w2)) = read_domain PROPOSAL id (live (w_store w1)) →
  let p := tp_authorization pv in
  let shown := {| cp_authorization := in_state p APPROVED; cp_events := calendar_events (tp_plan pv) |} in
  read_domain PROPOSAL id (live (w_store w)) = Ok None →
  let '(w3, res) := approve_and_apply cc' id a w2 in
  (w_calendar w3 = w_calendar w2 ∧ is_ok res = false)
  ∨ approved_for cc' (w_store w2) p a ∧ fa_payload_hash (ap_fact a) = sha256_hex (calendar_payload dump_time (cp_events shown))
    ∧ w_calendar w3 = (apply_plan shown (w_calendar w2)).1
    ∧ (is_ok res = true → ∃ r, read_domain PROPOSAL id (live (w_store w3)) = Ok (Some r) ∧ Domain.state r = state_value APPLIED).
Proof.
  intros Hw Hprev Hw2 id Hsame p shown Hnew. rewrite (read_at_rest _ s) in Hnew by done. injection Hnew as Hnew.
  assert (vs_history s PROPOSAL id = []) as Hempty by (destruct (vs_history s PROPOSAL id) as [|x l _] using rev_ind; [done|by rewrite last_snoc in Hnew]).
  destruct (preview_holds cc events w w1 s pv Hw Hprev Hempty) as (s1 & Hw1 & Hh & Hplan & Hp & Hcp).
  rewrite (read_at_rest w2 s2), (read_at_rest w1 s1) in Hsame by done. injection Hsame as Hsame.
  assert (holds s2 id p (ip_plan_request (tp_interpretation pv))) as Hh2.
  { destruct Hh as (r & Hl & Hld). exists r. by rewrite Hsame. }
  pose proof (approve_cases cc' id a w2 s2 p _ _ Hw2 Hh2 Hplan Hcp) as Hcases. destruct (approve_and_apply cc' id a w2) as [w3 res].
  destruct Hcases as [?|(Hfor & Hcal & Hok)]; [by left|right]. split_and!; [done| |done|].
  - destruct Hfor as [_ _ Hv _]. rewrite (av_payload _ _ _ _ _ _ _ _ _ _ Hv). unfold _calendar_plan, require_payload_binding in Hcp. simpl in Hcp.
    fold p in Hcp. destruct (forallb draft_valid _); [|done]. simpl in Hcp. destruct (String.eqb (pr_action_class p) "calendar.apply"); [|done].
    simpl in Hcp. destruct (String.eqb (pr_payload p) _) eqn:Heq; [|done]. apply String.eqb_eq in Heq. unfold payload_hash. simpl. by rewrite Heq.
  - intros (s' & Hw' & r & Hl & Hld & _)%Hok. exists r. rewrite (read_at_rest _ s') by done. rewrite Hl. split; [done|].
    simpl in Hld. destruct (Domain.dr_variant r); try done. destruct (proposal_state_of (Domain.state r)) as [st|] eqn:Hs; [|done].
    injection Hld as _ _ _ -> _. unfold proposal_state_of in Hs. apply find_some in Hs as [_ Heq%String.eqb_eq]. done.
Qed.
End spec.

(** ** Concrete runs *)

Module SliceDemo.
#[local] Existing Instances DomainText.codec DomainText.laws.

(** The workout is protected; the second request moves it by an hour. *)
Definition workout (h : Z) : PlanActivity := Demo.activity "workout" PROTECTED 30 (Some (Demo.at_ h 0, Demo.at_ h 30)) None [] 0 0.
Definition day (revision : Z) (h : Z) : DayPlanRequest :=
  {| dr_plan_date := 20458; dr_timezone := "UTC"; dr_window_start := Demo.at_ 9 0; dr_window_end := Demo.at_ 12 0;
     dr_state_revision := revision; dr_expected_state_revision := revision; dr_activities := [workout h; Demo.draft];
     dr_energy_windows := []; dr_baseline_blocks := []; dr_schedule_resolution := default_resolution |}.
Definition usual : DayPlanRequest := day 1 9.
Definition moved_workout : DayPlanRequest := day 2 10.
(** JSON stands for the revision of the request. *)
Definition dump_request (r : DayPlanRequest) : string := if dr_state_revision r =? 1 then "usual" else "moved".
Definition parse_request (s : string) : option DayPlanRequest :=
  if String.eqb s "usual" then Some usual else if String.eqb s "moved" then Some moved_workout else None.
Definition seed (text : string) (id : uuid) (r : DayPlanRequest) : InterpretationSeed :=
  {| is_text := text; is_proposal_id := id; is_provider_version := "v1"; is_plan_request := r |}.
Definition interpret := fixture_interpret Desk.hash [seed "plan tomorrow" 77 usual; seed "later please" 78 moved_workout].

Lemma interpreted_json text id i : interpret text id = Ok i → parse_request (dump_request (ip_plan_request i)) = Some (ip_plan_request i).
Proof.
  unfold interpret, fixture_interpret. cbn [List.find seed is_text]. destruct (String.eqb "plan tomorrow" text); [by intros [= <-]|].
  destruct (String.eqb "later please" text); [by intros [= <-]|done].
Qed.

(** A spoken request: the transcript in part and in full. *)
Definition capture (n : Z) (text : string) : list ConversationEvent :=
  let event id sequence kind payload :=
    {| ce_event_id := id; ce_conversation_id := 5; ce_participant_id := 7; ce_device_id := 1; ce_sequence := sequence; ce_occurred_at := 40;
       ce_kind := kind; ce_payload := payload |} in
  [event n 1 TRANSCRIPT_PARTIAL (TranscriptPartial 30 text); event (n + 1) 2 TRANSCRIPT_FINAL (TranscriptFinal 30 text)].

Definition cc (n : Z) : call_context :=
  {| cc_now := n; cc_issued := n; cc_verified := n; cc_applied := n; cc_lease_id := "lease" +:+ pretty n; cc_record_id := 0 |}.
Abbreviation preview := (Slice.preview Cabinet.mac "k" Account.sha Desk.hash isoformat Account.config (Ok "tok") Demo.utc_db Demo.fingerprint
  dump_request interpret).
Abbreviation approve_and_apply := (Slice.approve_and_apply Cabinet.mac "k" decode_text Account.sha Desk.hash pretty isoformat (λ _, true) Desk.verify
  Account.config (Ok "tok") Desk.devices default_approval_matrix Demo.utc_db Demo.fingerprint dump_request parse_request).
Abbreviation replan := (Slice.replan Cabinet.mac "k" Account.sha Desk.hash isoformat Account.config (Ok "tok") Demo.utc_db Demo.fingerprint
  dump_request parse_request interpret).
Abbreviation rollback := (Slice.rollback Cabinet.mac "k" Desk.hash isoformat Account.config (Ok "tok") Demo.utc_db Demo.fingerprint dump_request parse_request).
Abbreviation cleanup := (Slice.cleanup Cabinet.mac "k" Desk.hash isoformat Account.config (Ok "tok") Demo.utc_db Demo.fingerprint dump_request parse_request).

Definition start : world := Relay.start Account.empty.
Definition payload : string := Eval vm_compute in
  match (preview (cc 50) (capture 101 "plan tomorrow") start).2 with Ok pv => pr_payload (tp_authorization pv) | Err _ => "" end.
Definition fact (id : string) : PayloadBoundFact :=
  {| fa_fact_id := id; fa_proposal_id := uuid_str 77; fa_payload_hash := Desk.hash payload; fa_issued_at := 45; fa_expires_at := 500;
     fa_idempotency_key := "k-" +:+ id; fa_actor := "owner"; fa_correlation_id := "c" |}.
Definition approval : Approval :=
  let unsigned := {| ap_fact := fact "a"; ap_proof := DEVICE_SIGNED; ap_device_id := Some "phone"; ap_signature := ""; ap_kind := OrdinaryApproval |} in
  {| ap_fact := fact "a"; ap_proof := DEVICE_SIGNED; ap_device_id := Some "phone";
     ap_signature := tohex (signing_bytes pretty unsigned "calendar.apply"); ap_kind := OrdinaryApproval |}.
Definition undo : Rollback := {| rb_fact := fact "r"; rb_reason := "changed my mind" |}.

Definition shown : world := (preview (cc 50) (capture 101 "plan tomorrow") start).1.
Definition applied : world := (approve_and_apply (cc 60) 77 approval shown).1.
Definition status (id : uuid) (w : world (T := GoogleCalendarSandbox)) : option string :=
  match read_domain PROPOSAL id (live (w_store w)) with Ok (Some r) => Some (Domain.state r) | _ => None end.

Lemma runs : is_ok (preview (cc 50) (capture 101 "plan tomorrow") start).2 = true ∧ is_ok (approve_and_apply (cc 60) 77 approval shown).2 = true
  ∧ status 77 applied = Some "applied" ∧ gs_mutation_count (w_calendar applied) = 3.
Proof. split_and!; vm_compute; reflexivity. Qed.

Lemma start_rests : at_rest Cabinet.mac "k" start nothing.
Proof. apply relay_starts. Qed.

Lemma slice_applies_what_was_shown_witness :
  ∃ pv, (preview (cc 50) (capture 101 "plan tomorrow") start).2 = Ok pv
    ∧ w_calendar applied = (apply_plan Account.sha Desk.hash Account.config (Ok "tok")
        {| cp_authorization := in_state (tp_authorization pv) APPROVED; cp_events := calendar_events (tp_plan pv) |} (w_calendar shown)).1.
Proof.
  destruct runs as (Hprev & Happ & _ & _). destruct (preview (cc 50) (capture 101 "plan tomorrow") start) as [w1 res] eqn:Hrun.
  destruct res as [pv|e]; [|discriminate Hprev]. exists pv. split; [reflexivity|].
  assert (w1 = shown) as -> by (unfold shown; by rewrite Hrun).
  assert (ip_proposal_id (tp_interpretation pv) = 77) as Hid.
  { assert (Ok pv = (preview (cc 50) (capture 101 "plan tomorrow") start).2) as Heq by (by rewrite Hrun). vm_compute in Heq. injection Heq as ->. reflexivity. }
  destruct (preview_holds Cabinet.mac "k" Account.sha Desk.hash isoformat Account.config (Ok "tok") Demo.utc_db Demo.fingerprint dump_request parse_request
    interpret interpreted_json (cc 50) (capture 101 "plan tomorrow") start shown nothing pv start_rests Hrun eq_refl) as (s1 & Hs1 & _).
  pose proof (slice_applies_what_was_shown Cabinet.mac "k" decode_text Account.sha Desk.hash pretty isoformat (λ _, true) Desk.verify Account.config (Ok "tok")
    Desk.devices default_approval_matrix Demo.utc_db Demo.fingerprint dump_request parse_request interpret interpreted_json (cc 50)
    (capture 101 "plan tomorrow") start shown shown nothing s1 pv (cc 60) approval start_rests Hrun Hs1) as H. cbv zeta in H. rewrite Hid in H.
  specialize (H eq_refl eq_refl). unfold applied. destruct (approve_and_apply (cc 60) 77 approval shown) as [w3 res]. simpl in Happ |- *.
  destruct H as [[_ Hno]|(_ & _ & Hcal & _)]; [congruence|exact Hcal].
Defined.

(** *** Where the service departs from its documentation *)

(** The "idempotent" cleanup raises when it is repeated. *)
Theorem cleanup_not_idempotent :
  let once := cleanup (cc 70) 77 undo applied in
  is_ok once.2 = true ∧ status 77 once.1 = Some "reverted" ∧ (cleanup (cc 80) 77 undo once.1).2 = Err (SliceProposalNotFoundError 77).
Proof. split_and!; vm_compute; reflexivity. Qed.

(** A replan that moves a protected interval is accepted: only the names are compared. *)
Theorem replan_moves_protected_interval :
  let result_ := (replan (cc 70) 77 (capture 201 "later please") applied).2 in
  is_ok result_ = true
  ∧ (match result_ with Ok r => tr_preserved_protected_activity_ids r | Err _ => [] end) = ["workout"]
  ∧ pa_fixed_start (workout 9) ≠ pa_fixed_start (workout 10).
Proof. split; [vm_compute; reflexivity|]. split; [vm_compute; reflexivity|]. vm_compute. congruence. Qed.

(** The same words in a new capture name the same proposal: the preview moves the applied
    proposal back to proposed, and its events can no longer be rolled back. *)
Theorem repeated_capture_reopens_applied :
  let again := preview (cc 70) (capture 301 "plan tomorrow") applied in
  status 77 applied = Some "applied" ∧ is_ok again.2 = true ∧ status 77 again.1 = Some "proposed"
  ∧ w_calendar again.1 = w_calendar applied
  ∧ (rollback (cc 80) 77 undo again.1).2 = Err (SliceProposalNotFoundError 77).
Proof. split_and!; vm_compute; reflexivity. Qed.
End SliceDemo.
