(* ===== verification/Cell.v ===== *)
(** * The dedicated cloud cell ([postgres_store.py], [postgres_outbox.py], [postgres_devices.py],
    [cloud_crypto.py], [durable_calendar.py])

    One PostgreSQL database holds a tenant's records, tombstones, audit chain, replay keys,
    calendar jobs and devices.  Every stored text is sealed for the place it is stored at.
    A unit of work locks the cell, verifies the audit chain and commits everything its body
    did or nothing.  An approval becomes a queued job in one unit; a worker claims it in
    another, which checks the approval again.

    [connection.transaction()] is a block of [Transactions]; the row lock makes units run one
    after another.  AES-GCM, HMAC, SHA-256, Ed25519, random bytes and the JSON of the models
    are parameters. *)

From stdpp Require Import countable prelude base strings list gmap pretty.
From Stdlib Require Import ZArith Lia.
From S2P Require Import Prelude PyTime PyText PyUuid Transactions AuditLedger Consumption Enrollment Authority Memory DomainRecords.
#[local] Open Scope string_scope.
#[local] Open Scope list_scope.
#[local] Open Scope Z_scope.

Module Cell.

(** ** Envelopes *)

(** [AESGCM(key).encrypt] and [decrypt] with the nonce in front and in base64. *)
Class AeadCipher := {
  aead_seal : string → string → string → string;   (** nonce, text, associated data *)
  aead_open : string → string → option string;     (** envelope, associated data *)
}.
(** What was sealed opens, under its own associated data only. *)
Class AeadLaws `{AeadCipher} := {
  aead_opens : ∀ nonce text data, aead_open (aead_seal nonce text data) data = Some text;
  aead_bound : ∀ nonce text data data', data' ≠ data → aead_open (aead_seal nonce text data) data' = None;
}.

Definition KEY_BYTES : Z := 32.
(** [CloudStateKeys.__post_init__] *)
Definition cloud_keys_valid (data audit : string) : bool :=
  (Z.of_nat (String.length data) =? KEY_BYTES) && (Z.of_nat (String.length audit) =? KEY_BYTES)
  && negb (String.eqb data audit).

(** [_aad] *)
Definition aad (tenant_id : uuid) (identity : list string) : string :=
  "[" +:+ join ", " (map json_string ("lifeos.cloud.v1" :: uuid_str tenant_id :: identity)) +:+ "]".
Definition seal `{AeadCipher} (tenant_id : uuid) (nonce text : string) (identity : list string) : string :=
  aead_seal nonce text (aad tenant_id identity).
Definition open_ `{AeadCipher} (tenant_id : uuid) (envelope : string) (identity : list string) : option string :=
  aead_open envelope (aad tenant_id identity).

(** ** Jobs *)

Inductive JobStatus := queued | running | uncertain | needs_reconciliation | succeeded | cancelled | expired.
#[global] Instance JobStatus_eq_dec : EqDecision JobStatus.
Proof. solve_decision. Defined.
Definition status_value (s : JobStatus) : string :=
  match s with
  | queued => "queued" | running => "running" | uncertain => "uncertain" | needs_reconciliation => "needs_reconciliation"
  | succeeded => "succeeded" | cancelled => "cancelled" | expired => "expired"
  end.

Record PendingCalendarOperation := {
  pj_operation_id : uuid;
  pj_proposal_id : uuid;
  pj_payload : string;
  pj_approval : Approval;
  pj_authorized_until : Z;
  pj_status : JobStatus;
  pj_claim_token : option uuid;
  pj_claim_deadline : option Z;
  pj_result_reference : option string;
}.
(** [job.model_copy(update={"status": ...})] and with the other updates. *)
Definition job_with (j : PendingCalendarOperation) (status : JobStatus) (token : option uuid) (deadline : option Z) (reference : option string) :
    PendingCalendarOperation :=
  {| pj_operation_id := pj_operation_id j; pj_proposal_id := pj_proposal_id j; pj_payload := pj_payload j; pj_approval := pj_approval j;
     pj_authorized_until := pj_authorized_until j; pj_status := status; pj_claim_token := token; pj_claim_deadline := deadline;
     pj_result_reference := reference |}.
Definition with_status (j : PendingCalendarOperation) (status : JobStatus) : PendingCalendarOperation :=
  job_with j status (pj_claim_token j) (pj_claim_deadline j) (pj_result_reference j).
Definition with_result (j : PendingCalendarOperation) (status : JobStatus) (reference : string) : PendingCalendarOperation :=
  job_with j status (pj_claim_token j) (pj_claim_deadline j) (Some reference).

(** [CLAIM_DURATION] in microseconds *)
Definition CLAIM_DURATION : Z := 2 * 60 * 1000000.

(** ** JSON of the models *)

Record Tombstone := {
  to_record_id : uuid;
  to_record_kind : RecordKind;
  to_deleted_at : datetime;
  to_source_fingerprint : string;
}.
Class CellCodec := {
  dump_entry : AuditEntry → string;
  parse_entry : string → option AuditEntry;
  dump_job : PendingCalendarOperation → string;
  parse_job : string → option PendingCalendarOperation;
  dump_tombstone : Tombstone → string;
}.
Class CellCodecLaws `{CellCodec} := {
  parse_dump_entry : ∀ e, plain_time (ae_occurred_at e) = true → parse_entry (dump_entry e) = Some e;
  parse_dump_job : ∀ j, parse_job (dump_job j) = Some j;
}.

(** ** The tables ([postgres_schema.sql]) *)

Record cell_row := { cl_tenant_id : uuid; cl_schema_version : Z; cl_audit_sequence : Z; cl_audit_hash : string }.
Record record_row := { rw_kind : RecordKind; rw_record_id : uuid; rw_version : Z; rw_envelope : string }.
Record device_row := { dw_fingerprint : string; dw_revoked : bool; dw_envelope : string }.
Record cell_db := {
  cb_cell : option cell_row;
  cb_domain : list record_row;
  cb_tombstones : gmap (string * uuid) string;
  cb_audit : list (Z * string);                 (** in the order of [sequence] *)
  cb_consumption : list ConsumptionKey;
  cb_outbox : gmap uuid (string * string);      (** status and envelope *)
  cb_devices : gmap string device_row;
}.
Definition empty_cell : cell_db :=
  {| cb_cell := None; cb_domain := []; cb_tombstones := ∅; cb_audit := []; cb_consumption := []; cb_outbox := ∅; cb_devices := ∅ |}.

Definition set_cell (db : cell_db) (c : cell_row) : cell_db :=
  {| cb_cell := Some c; cb_domain := cb_domain db; cb_tombstones := cb_tombstones db; cb_audit := cb_audit db;
     cb_consumption := cb_consumption db; cb_outbox := cb_outbox db; cb_devices := cb_devices db |}.
Definition set_domain (db : cell_db) (l : list record_row) : cell_db :=
  {| cb_cell := cb_cell db; cb_domain := l; cb_tombstones := cb_tombstones db; cb_audit := cb_audit db;
     cb_consumption := cb_consumption db; cb_outbox := cb_outbox db; cb_devices := cb_devices db |}.
Definition set_tombstones (db : cell_db) (t : gmap (string * uuid) string) : cell_db :=
  {| cb_cell := cb_cell db; cb_domain := cb_domain db; cb_tombstones := t; cb_audit := cb_audit db;
     cb_consumption := cb_consumption db; cb_outbox := cb_outbox db; cb_devices := cb_devices db |}.
Definition set_audit (db : cell_db) (l : list (Z * string)) : cell_db :=
  {| cb_cell := cb_cell db; cb_domain := cb_domain db; cb_tombstones := cb_tombstones db; cb_audit := l;
     cb_consumption := cb_consumption db; cb_outbox := cb_outbox db; cb_devices := cb_devices db |}.
Definition set_consumption (db : cell_db) (l : list ConsumptionKey) : cell_db :=
  {| cb_cell := cb_cell db; cb_domain := cb_domain db; cb_tombstones := cb_tombstones db; cb_audit := cb_audit db;
     cb_consumption := l; cb_outbox := cb_outbox db; cb_devices := cb_devices db |}.
Definition set_outbox (db : cell_db) (m : gmap uuid (string * string)) : cell_db :=
  {| cb_cell := cb_cell db; cb_domain := cb_domain db; cb_tombstones := cb_tombstones db; cb_audit := cb_audit db;
     cb_consumption := cb_consumption db; cb_outbox := m; cb_devices := cb_devices db |}.
Definition set_devices (db : cell_db) (m : gmap string device_row) : cell_db :=
  {| cb_cell := cb_cell db; cb_domain := cb_domain db; cb_tombstones := cb_tombstones db; cb_audit := cb_audit db;
     cb_consumption := cb_consumption db; cb_outbox := cb_outbox db; cb_devices := m |}.

Inductive CellError :=
| CellMismatchError
| UnitError                          (** [RuntimeError]: a unit inside a unit, or a handle outside its unit *)
| UniqueViolation
| CheckViolation
| InvalidTag                         (** an envelope that does not open at its place *)
| CellValidationError                (** a text or an update that does not validate *)
| CellValueError (message : string)
| CellRecordNotFoundError (kind : RecordKind) (record_id : uuid)
| CellTamperError (sequence : Z)
| CellDigestError                    (** [compare_digest] of a hash outside ASCII *)
| CellAuthorityError (e : AuthorityError).
Definition unique_violation (e : CellError) : bool := match e with UniqueViolation => true | _ => false end.

(** ** Statements *)

Definition of_record (kind : RecordKind) (id : uuid) (row : record_row) : bool := bool_decide (rw_kind row = kind) && (rw_record_id row =? id).
Definition versions (kind : RecordKind) (id : uuid) (db : cell_db) : list record_row := List.filter (of_record kind id) (cb_domain db).
Definition insert_version (row : record_row) (db : cell_db) : result CellError cell_db :=
  if rw_version row <=? 0 then Err CheckViolation
  else if existsb (λ old, of_record (rw_kind row) (rw_record_id row) old && (rw_version old =? rw_version row)) (cb_domain db) then Err UniqueViolation
  else Ok (set_domain db (cb_domain db ++ [row])).
Definition delete_versions (kind : RecordKind) (id : uuid) (db : cell_db) : result CellError cell_db :=
  Ok (set_domain db (List.filter (λ row, negb (of_record kind id row)) (cb_domain db))).
Definition insert_tombstone (kind : RecordKind) (id : uuid) (envelope : string) (db : cell_db) : result CellError cell_db :=
  match cb_tombstones db !! (kind_value kind, id) with
  | Some _ => Err UniqueViolation
  | None => Ok (set_tombstones db (<[(kind_value kind, id) := envelope]> (cb_tombstones db)))
  end.
(** The row goes to the place of its key. *)
Definition insert_audit (sequence : Z) (json : string) (db : cell_db) : result CellError cell_db :=
  if sequence <=? 0 then Err CheckViolation
  else if existsb (λ row, row.1 =? sequence) (cb_audit db) then Err UniqueViolation
  else Ok (set_audit db (py_insert (λ a b, a.1 <? b.1) (sequence, json) (cb_audit db))).
Definition insert_claim (k : ConsumptionKey) (db : cell_db) : result CellError cell_db :=
  match insert_key k (cb_consumption db) with Ok l => Ok (set_consumption db l) | Err _ => Err UniqueViolation end.
(** [CHECK (status IN (...))] of [lifeos_outbox] *)
Definition OUTBOX_STATUSES : list string := ["queued"; "running"; "uncertain"; "succeeded"; "cancelled"; "expired"].
Definition insert_job (id : uuid) (row : string * string) (db : cell_db) : result CellError cell_db :=
  if negb (bool_decide (row.1 ∈ OUTBOX_STATUSES)) then Err CheckViolation
  else match cb_outbox db !! id with
       | Some _ => Err UniqueViolation
       | None => Ok (set_outbox db (<[id := row]> (cb_outbox db)))
       end.
(** An update of no row checks nothing. *)
Definition update_job (id : uuid) (row : string * string) (db : cell_db) : result CellError cell_db :=
  match cb_outbox db !! id with
  | None => Ok db
  | Some _ => if negb (bool_decide (row.1 ∈ OUTBOX_STATUSES)) then Err CheckViolation else Ok (set_outbox db (<[id := row]> (cb_outbox db)))
  end.
(** [device_id PRIMARY KEY], [fingerprint UNIQUE] *)
Definition insert_device (id : string) (row : device_row) (db : cell_db) : result CellError cell_db :=
  match cb_devices db !! id with
  | Some _ => Err UniqueViolation
  | None =>
      if existsb (λ old, String.eqb (dw_fingerprint old.2) (dw_fingerprint row)) (map_to_list (cb_devices db)) then Err UniqueViolation
      else Ok (set_devices db (<[id := row]> (cb_devices db)))
  end.
Definition update_device (id envelope : string) (db : cell_db) : result CellError cell_db :=
  Ok (set_devices db (alter (λ row, {| dw_fingerprint := dw_fingerprint row; dw_revoked := true; dw_envelope := envelope |}) id (cb_devices db))).

Section cell.
Context (hmac : string → string → string) (audit_key : string) (tenant_id : uuid).
Context `{DomainCodec} `{AeadCipher} `{CellCodec}.
(** [os.urandom(12)], the next bytes. *)
Context (urandom : cell_db → string).
(** [uuid5(tenant_id, text)] *)
Context (uuid5 : uuid → string → uuid).
Context (dump_device : Device → string) (parse_device : string → option Device).
Abbreviation M := (comp (connection cell_db) CellError).

(** [require_active]: the repository an operation goes through is that of the open unit. *)
Definition require_active (active : bool) : M unit := throw_if (negb active) UnitError.
(** A statement that writes an envelope. *)
Definition sealing (text : string) (identity : list string) (statement : string → cell_db → result CellError cell_db) : M unit :=
  execute (λ db, statement (seal tenant_id (urandom db) text identity) db).
Definition opened (envelope : string) (identity : list string) : result CellError string :=
  match open_ tenant_id envelope identity with Some text => Ok text | None => Err InvalidTag end.

(** ** The audit chain *)

Definition version_text (version : Z) : string := pretty version.
Fixpoint parse_entries (rows : list (Z * string)) : result CellError (list AuditEntry) :=
  match rows with
  | [] => Ok []
  | (_, json) :: rest =>
      match parse_entry json with
      | None => Err CellValidationError
      | Some e => match parse_entries rest with Ok l => Ok (e :: l) | Err x => Err x end
      end
  end.
Definition audit_entries (db : cell_db) : result CellError (list AuditEntry) := parse_entries (cb_audit db).
Definition _verify_audit_chain (db : cell_db) : result CellError AuditVerification :=
  match audit_entries db with
  | Err e => Err e
  | Ok l =>
      match verify_from hmac audit_key 1 genesis_hash l with
      | Err (AuditTamperError n) => Err (CellTamperError n)
      | Err _ => Err CellDigestError
      | Ok previous =>
          let n := Z.of_nat (length l) in
          match cb_cell db with
          | Some c =>
              if (cl_audit_sequence c =? n) && String.eqb (cl_audit_hash c) previous
              then Ok {| ver_entries_verified := n; ver_final_hash := previous |} else Err (CellTamperError (n + 1))
          | None => Err (CellTamperError (n + 1))
          end
      end
  end.
Definition set_head (sequence : Z) (hash : string) (db : cell_db) : result CellError cell_db :=
  Ok (match cb_cell db with
      | Some c => set_cell db {| cl_tenant_id := cl_tenant_id c; cl_schema_version := cl_schema_version c;
                                 cl_audit_sequence := sequence; cl_audit_hash := hash |}
      | None => db
      end).
Definition append_audit (active : bool) (m : AuditMutation) : M unit :=
  require_active active ≫= λ _,
  query (λ db, match cb_cell db with Some c => Ok c | None => Err CellMismatchError end) ≫= λ head,
  let entry := unsigned_entry m (cl_audit_sequence head + 1) (cl_audit_hash head) in
  let signed := with_hash entry (sign_entry hmac audit_key entry) in
  execute (insert_audit (ae_sequence signed) (dump_entry signed)) ≫= λ _,
  execute (set_head (ae_sequence signed) (ae_entry_hash signed)).

(** ** Records *)

Definition record_identity (kind : RecordKind) (id : uuid) (version : Z) : list string := [kind_value kind; uuid_str id; version_text version].
(** [ORDER BY version DESC LIMIT 1] *)
Definition latest (kind : RecordKind) (id : uuid) (db : cell_db) : option record_row :=
  head (py_sorted (λ a b, rw_version b <? rw_version a) (versions kind id db)).
Definition read_row (kind : RecordKind) (id : uuid) (db : cell_db) : result CellError (option Domain.DomainRecord) :=
  match latest kind id db with
  | None => Ok None
  | Some row =>
      match opened (rw_envelope row) (record_identity kind id (rw_version row)) with
      | Err e => Err e
      | Ok text => match parse_domain text with Some r => Ok (Some r) | None => Err CellValidationError end
      end
  end.
Definition read (active : bool) (kind : RecordKind) (id : uuid) : M (option Domain.DomainRecord) :=
  require_active active ≫= λ _, query (read_row kind id).

Definition _fingerprint (r : Domain.DomainRecord) : string := tohex (hmac audit_key (dump_domain r)).
Definition _audit (active : bool) (r : Domain.DomainRecord) (ctx : TransitionContext) (action : string) : M unit :=
  let kind := Domain.record_kind r in
  append_audit active
    {| am_record_kind := kind; am_record_id := uuid_str (Domain.record_id r);
       am_state := if String.eqb action "deleted" then "deleted" else Domain.state r;
       am_action_class := kind_value kind +:+ "." +:+ action; am_source_fingerprint := _fingerprint r;
       am_actor := tc_actor ctx; am_correlation_id := tc_correlation_id ctx; am_occurred_at := tc_occurred_at ctx |}.
Definition _write (active : bool) (r : Domain.DomainRecord) (version : Z) (ctx : TransitionContext) (action : string) : M unit :=
  let kind := Domain.record_kind r in
  sealing (dump_domain r) (record_identity kind (Domain.record_id r) version) (λ envelope,
    insert_version {| rw_kind := kind; rw_record_id := Domain.record_id r; rw_version := version; rw_envelope := envelope |}) ≫= λ _,
  _audit active r ctx action.

Definition create (active : bool) (r : Domain.DomainRecord) (ctx : TransitionContext) : M unit :=
  require_active active ≫= λ _,
  domain_transaction (
    query (λ db, raise_if (bool_decide (is_Some (cb_tombstones db !! (kind_value (Domain.record_kind r), Domain.record_id r))))
                   (CellValueError "deleted record identity cannot be reused")) ≫= λ _,
    _write active r 1 ctx "created").

Definition required (active : bool) (kind : RecordKind) (id : uuid) : M Domain.DomainRecord :=
  read active kind id ≫= λ found,
  match found with Some r => mret r | None => throw (CellRecordNotFoundError kind id) end.
(** [SELECT max(version)] of a record that has a version *)
Definition max_version (kind : RecordKind) (id : uuid) (db : cell_db) : Z := foldr Z.max 0 (map rw_version (versions kind id db)).
(** [DOMAIN_RECORD_ADAPTER.validate_json(copy.model_dump_json())] *)
Definition revalidated (r : Domain.DomainRecord) : result CellError Domain.DomainRecord :=
  match parse_domain (dump_domain r) with Some changed => Ok changed | None => Err CellValidationError end.
Definition transition (active : bool) (kind : RecordKind) (id : uuid) (new_state : string) (ctx : TransitionContext) : M unit :=
  require_active active ≫= λ _,
  domain_transaction (
    required active kind id ≫= λ record,
    query (λ db, Ok (max_version kind id db)) ≫= λ newest,
    query (λ _, revalidated (Domain.with_state record new_state)) ≫= λ changed,
    _write active changed (newest + 1) ctx "transitioned").
Definition delete (active : bool) (kind : RecordKind) (id : uuid) (ctx : TransitionContext) : M unit :=
  require_active active ≫= λ _,
  domain_transaction (
    required active kind id ≫= λ record,
    sealing (dump_tombstone {| to_record_id := id; to_record_kind := kind; to_deleted_at := tc_occurred_at ctx;
                               to_source_fingerprint := _fingerprint record |})
      ["tombstone"; kind_value kind; uuid_str id] (insert_tombstone kind id) ≫= λ _,
    execute (delete_versions kind id) ≫= λ _,
    _audit active record ctx "deleted").

(** ** Replay keys *)

(** [PostgresConsumptionStore.consume] *)
Definition consume_keys (active : bool) (keys : list ConsumptionKey) : M bool :=
  require_active active ≫= λ _,
  catch (domain_transaction (for_each (λ k, execute (insert_claim k)) keys) ≫= λ _, mret true)
    (λ e, if unique_violation e then mret false else throw e).
(** The store an open unit hands to the lifecycle; its inserts fail on duplicate keys only. *)
#[global] Instance cell_consumption : ConsumptionStore (connection cell_db) := {
  generation c p := length (filter (λ k, k.1 = reset_round p) (cb_consumption (live c)));
  consume keys c := match consume_keys true keys c with (c', Ok b) => (c', b) | (c', Err _) => (c', false) end;
}.

(** ** Devices *)

Definition bool_text (b : bool) : string := if b then "true" else "false".
Definition device_identity (id : string) (revoked : bool) : list string := ["device"; id; bool_text revoked].
Definition load_device (id : string) (db : cell_db) : result CellError (option string) :=
  match cb_devices db !! id with
  | None => Ok None
  | Some row =>
      match opened (dw_envelope row) (device_identity id (dw_revoked row)) with
      | Err e => Err e
      | Ok encoded =>
          match parse_device encoded with
          | None => Err CellValidationError
          | Some d =>
              if negb (String.eqb (dv_device_id d) id) || negb (String.eqb (dv_public_key_fingerprint d) (dw_fingerprint row))
                 || negb (Bool.eqb (bool_decide (dv_state d = REVOKED)) (dw_revoked row))
              then Err (CellValueError "device membership integrity mismatch") else Ok (Some encoded)
          end
      end
  end.
Definition load (active : bool) (id : string) : M (option string) := require_active active ≫= λ _, query (load_device id).
Definition _record_id (id : string) : uuid := uuid5 tenant_id ("device:" +:+ id).
Definition parsed (text : string) : M Device := match parse_device text with Some d => mret d | None => throw CellValidationError end.
Definition enrolled_identity (d : Device) : Domain.DomainRecord :=
  {| Domain.dr_base := {| Domain.rb_record_id := _record_id (dv_device_id d); Domain.rb_created_at := utc_datetime (dv_enrolled_at d);
                          Domain.rb_state := "enrolled" |};
     Domain.dr_variant := Domain.Identity "enrolled-device" |}.
Definition insert (active : bool) (id fingerprint record : string) : M bool :=
  require_active active ≫= λ _,
  parsed record ≫= λ d,
  throw_if (negb (String.eqb (dv_device_id d) id) || negb (String.eqb (dv_public_key_fingerprint d) fingerprint)
            || negb (bool_decide (dv_state d = ENROLLED))) (CellValueError "invalid enrollment record") ≫= λ _,
  catch (
    domain_transaction (
      sealing record (device_identity id false) (λ envelope,
        insert_device id {| dw_fingerprint := fingerprint; dw_revoked := false; dw_envelope := envelope |}) ≫= λ _,
      create active (enrolled_identity d)
        {| tc_actor := dv_enrolled_by d; tc_correlation_id := "device-enrollment"; tc_occurred_at := utc_datetime (dv_enrolled_at d) |}) ≫= λ _,
    mret true)
    (λ e, if unique_violation e then mret false else throw e).
(** [model_dump(exclude={"state", "revoked_at", "revoked_by"})] *)
Definition same_enrollment (a b : Device) : bool :=
  String.eqb (dv_device_id a) (dv_device_id b) && String.eqb (dv_public_key_fingerprint a) (dv_public_key_fingerprint b)
  && (dv_enrolled_at a =? dv_enrolled_at b) && String.eqb (dv_enrolled_by a) (dv_enrolled_by b)
  && bool_decide (dv_approval_public_key a = dv_approval_public_key b).
Definition revoke (active : bool) (id record : string) : M unit :=
  require_active active ≫= λ _,
  load active id ≫= λ original,
  parsed record ≫= λ changed,
  match original with
  | None => throw (CellValueError "cannot revoke unknown device")
  | Some original =>
      parsed original ≫= λ current,
      match dv_state changed, dv_revoked_at changed, dv_revoked_by changed with
      | REVOKED, Some at_, Some by_ =>
          throw_if (negb (same_enrollment current changed)) (CellValueError "revocation cannot change enrolled identity") ≫= λ _,
          if bool_decide (dv_state current = REVOKED) then mret tt
          else
            domain_transaction (
              sealing record (device_identity id true) (update_device id) ≫= λ _,
              transition active IDENTITY (_record_id id) "revoked"
                {| tc_actor := by_; tc_correlation_id := "device-revocation"; tc_occurred_at := utc_datetime at_ |})
      | _, _, _ => throw (CellValueError "revocation cannot change enrolled identity")
      end
  end.

(** What the registry of an open unit sees.  A row that fails authentication raises, and so
    does the empty text, which no device has. *)
#[global] Instance cell_devices : DevicePersistence cell_db := {
  Enrollment.load db id := match load_device id db with Ok found => found | Err _ => Some "" end;
  Enrollment.insert_row id fingerprint record db :=
    match insert true id fingerprint record (Connection db db true) with (c, Ok b) => (live c, b) | (_, Err _) => (db, false) end;
  Enrollment.revoke_row id record db :=
    match revoke true id record (Connection db db true) with (c, Ok _) => live c | (_, Err _) => db end;
}.
Definition registry (db : cell_db) : DeviceRegistry cell_db :=
  {| reg_persistence := Some db; reg_devices := ∅; reg_by_fingerprint := ∅ |}.

(** ** The outbox *)

Definition job_identity (id : uuid) (status : string) : list string := ["outbox"; uuid_str id; status].
Definition read_job_row (id : uuid) (db : cell_db) : result CellError (option PendingCalendarOperation) :=
  match cb_outbox db !! id with
  | None => Ok None
  | Some (status, envelope) =>
      match opened envelope (job_identity id status) with
      | Err e => Err e
      | Ok text =>
          match parse_job text with
          | None => Err CellValidationError
          | Some job =>
              if negb (pj_operation_id job =? id) || negb (String.eqb (status_value (pj_status job)) status)
              then Err (CellValueError "outbox identity mismatch") else Ok (Some job)
          end
      end
  end.
Definition read_job (active : bool) (id : uuid) : M (option PendingCalendarOperation) := require_active active ≫= λ _, query (read_job_row id).
(** [_seal] into a statement *)
Definition sealing_job (job : PendingCalendarOperation) (statement : uuid → string * string → cell_db → result CellError cell_db) : M unit :=
  sealing (dump_job job) (job_identity (pj_operation_id job) (status_value (pj_status job))) (λ envelope,
    statement (pj_operation_id job) (status_value (pj_status job), envelope)).
Definition queued_execution (job : PendingCalendarOperation) (ctx : TransitionContext) : Domain.DomainRecord :=
  {| Domain.dr_base := {| Domain.rb_record_id := pj_operation_id job; Domain.rb_created_at := tc_occurred_at ctx; Domain.rb_state := "queued" |};
     Domain.dr_variant := Domain.Execution (pj_proposal_id job) "awaiting-provider" |}.
Definition enqueue (active : bool) (job : PendingCalendarOperation) (ctx : TransitionContext) : M unit :=
  require_active active ≫= λ _,
  throw_if (negb (bool_decide (pj_status job = queued)) || bool_decide (is_Some (pj_claim_token job))) (CellValueError "new jobs must be unclaimed") ≫= λ _,
  domain_transaction (
    sealing_job job insert_job ≫= λ _,
    create active (queued_execution job ctx) ctx).
Definition _save (active : bool) (job : PendingCalendarOperation) (ctx : TransitionContext) : M unit :=
  domain_transaction (
    sealing_job job update_job ≫= λ _,
    transition active EXECUTION (pj_operation_id job) (status_value (pj_status job)) ctx).
Definition _require_aware (value : datetime) : M unit := throw_if (negb (aware value)) (CellValueError "job clock must be timezone aware").

(** [SELECT operation_id ... WHERE status=... ORDER BY operation_id] *)
Definition jobs_in (status : JobStatus) (db : cell_db) : list uuid :=
  py_sorted Z.ltb (map fst (List.filter (λ row : uuid * (string * string), String.eqb row.2.1 (status_value status)) (map_to_list (cb_outbox db)))).
Definition claimed_job (job : PendingCalendarOperation) (token : uuid) (now duration : Z) : PendingCalendarOperation :=
  job_with job running (Some token) (Some (Z.min (now + duration) (pj_authorized_until job))) (pj_result_reference job).
Fixpoint claim_first (active : bool) (ids : list uuid) (token : uuid) (ctx : TransitionContext) (duration : Z) :
    M (option PendingCalendarOperation) :=
  let now := utc (tc_occurred_at ctx) in
  match ids with
  | [] => mret None
  | id :: rest =>
      read_job active id ≫= λ found,
      match found with
      | None => claim_first active rest token ctx duration
      | Some job =>
          if pj_authorized_until job <=? now
          then _save active (with_status job expired) ctx ≫= λ _, claim_first active rest token ctx duration
          else let claimed := claimed_job job token now duration in _save active claimed ctx ≫= λ _, mret (Some claimed)
      end
  end.
(** [token] is the [uuid4()] of the call. *)
Definition claim (active : bool) (token : uuid) (ctx : TransitionContext) (duration : Z) : M (option PendingCalendarOperation) :=
  require_active active ≫= λ _,
  throw_if (duration <=? 0) (CellValueError "claim duration must be positive") ≫= λ _,
  _require_aware (tc_occurred_at ctx) ≫= λ _,
  query (λ db, Ok (jobs_in queued db)) ≫= λ ids,
  claim_first active ids token ctx duration.

Definition claim_current (now : Z) (token : uuid) (job : PendingCalendarOperation) : bool :=
  bool_decide (pj_status job = running) && bool_decide (pj_claim_token job = Some token)
  && match pj_claim_deadline job with Some deadline => now <? deadline | None => false end.
Definition complete (active : bool) (id token : uuid) (result_reference : string) (ctx : TransitionContext) : M unit :=
  read_job active id ≫= λ found,
  _require_aware (tc_occurred_at ctx) ≫= λ _,
  match found with
  | Some job =>
      throw_if (negb (claim_current (utc (tc_occurred_at ctx)) token job)) (CellValueError "stale or invalid job claim") ≫= λ _,
      _save active (with_result job succeeded result_reference) ctx
  | None => throw (CellValueError "stale or invalid job claim")
  end.
Definition cancel_claim (active : bool) (id token : uuid) (ctx : TransitionContext) : M unit :=
  read_job active id ≫= λ found,
  match found with
  | Some job =>
      throw_if (negb (bool_decide (pj_status job = running)) || negb (bool_decide (pj_claim_token job = Some token)))
        (CellValueError "invalid cancellation claim") ≫= λ _,
      _save active (with_status job cancelled) ctx
  | None => throw (CellValueError "invalid cancellation claim")
  end.
Definition timed_out (now : Z) (job : PendingCalendarOperation) : bool :=
  match pj_claim_deadline job with Some deadline => deadline <=? now | None => false end.
Fixpoint recover_each (active : bool) (ids : list uuid) (ctx : TransitionContext) (recovered : Z) : M Z :=
  match ids with
  | [] => mret recovered
  | id :: rest =>
      read_job active id ≫= λ found,
      match found with
      | Some job =>
          if timed_out (utc (tc_occurred_at ctx)) job
          then _save active (with_status job needs_reconciliation) ctx ≫= λ _, recover_each active rest ctx (recovered + 1)
          else recover_each active rest ctx recovered
      | None => recover_each active rest ctx recovered
      end
  end.
(** The order in which PostgreSQL returns the running jobs is not specified. *)
Definition recover (active : bool) (ctx : TransitionContext) : M Z :=
  require_active active ≫= λ _,
  _require_aware (tc_occurred_at ctx) ≫= λ _,
  query (λ db, Ok (jobs_in running db)) ≫= λ ids,
  recover_each active ids ctx 0.
Definition reconcile (active : bool) (id : uuid) (success : bool) (result_reference : string) (ctx : TransitionContext) : M unit :=
  read_job active id ≫= λ found,
  match found with
  | Some job =>
      throw_if (negb (bool_decide (pj_status job = uncertain)) && negb (bool_decide (pj_status job = needs_reconciliation)))
        (CellValueError "only uncertain or needs_reconciliation jobs can be reconciled") ≫= λ _,
      _save active (with_result job (if success then succeeded else cancelled) result_reference) ctx
  | None => throw (CellValueError "only uncertain or needs_reconciliation jobs can be reconciled")
  end.

(** ** Units of work *)

Record PostgresStateStore := { ps_connection : connection cell_db; ps_active : bool }.

(** The locked cell row is that of the tenant. *)
Definition check_cell (db : cell_db) : result CellError unit :=
  match cb_cell db with
  | Some c => raise_if (negb ((cl_tenant_id c =? tenant_id) && (cl_schema_version c =? 1))) CellMismatchError
  | None => Err CellMismatchError
  end.
(** [with store.domain_transaction()] and [with store.execution_transaction()] around a body
    that uses the open repository. *)
Definition unit_of_work {A : Type} (body : M A) : comp PostgresStateStore CellError A := λ st,
  if ps_active st then (st, Err UnitError)
  else
    match domain_transaction (query check_cell ≫= λ _, query _verify_audit_chain ≫= λ _, body) (ps_connection st) with
    | (c, r) => ({| ps_connection := c; ps_active := false |}, r)
    end.
Definition verify_audit_chain : comp PostgresStateStore CellError AuditVerification := λ st,
  if ps_active st then (st, _verify_audit_chain (live (ps_connection st)))
  else unit_of_work (query _verify_audit_chain) st.
(** [connect] on an open connection; a failed check closes it. *)
Definition connect (c : connection cell_db) : result CellError PostgresStateStore :=
  match unit_of_work (mret tt) {| ps_connection := c; ps_active := false |} with
  | (st, Ok _) => Ok st
  | (_, Err e) => Err e
  end.
(** [provision]: the schema exists, the cell row is inserted unless there is one. *)
Definition insert_cell (db : cell_db) : result CellError cell_db :=
  Ok (match cb_cell db with
      | Some _ => db
      | None => set_cell db {| cl_tenant_id := tenant_id; cl_schema_version := 1; cl_audit_sequence := 0; cl_audit_hash := genesis_hash |}
      end).
Definition own_cell (db : cell_db) : result CellError unit :=
  match cb_cell db with Some c => raise_if (negb (cl_tenant_id c =? tenant_id)) CellMismatchError | None => Err CellMismatchError end.
Definition provision (c : connection cell_db) : connection cell_db * result CellError unit :=
  match domain_transaction (execute insert_cell ≫= λ _, query own_cell) c with
  | (c', Ok _) => match connect c' with Ok st => (ps_connection st, Ok tt) | Err e => (c', Err e) end
  | (c', Err e) => (c', Err e)
  end.

(** ** From approval to worker ([durable_calendar.py]) *)

Context (sha256 : string → string) (dump_datetime : Z → string).
Context (public_key_ok : string → bool) (ed25519_verify : string → string → string → bool).

Definition CALENDAR_APPLY : string := "calendar.apply".
Definition proposal_state_of (s : string) : option ProposalState :=
  List.find (λ x, String.eqb (state_value x) s) [PROPOSED; APPROVED; REJECTED; EXPIRED; APPLIED; REVERTED; RECONCILED].
Definition authorized {A : Type} (m : comp (connection cell_db) AuthorityError A) : M A := λ c,
  match m c with (c', Ok a) => (c', Ok a) | (c', Err e) => (c', Err (CellAuthorityError e)) end.
(** The identifiers of an approval are UUIDs; here they are their text. *)
Definition uuid_field (text : string) : result CellError uuid := match uuid_of_text text with Some u => Ok u | None => Err CellValidationError end.
Definition as_result {A : Type} (r : result CellError A) : M A := λ c, (c, r).

(** The stored proposal as the lifecycle sees it. *)
Definition calendar_proposal (found : option Domain.DomainRecord) : result CellError (uuid * ProposalRecord) :=
  let refused := Err (CellAuthorityError (PolicyViolationError "stored calendar proposal required")) in
  match found with
  | Some r =>
      match Domain.dr_variant r with
      | Domain.Proposal f =>
          if negb (String.eqb (Domain.pf_proposal_type f) CALENDAR_APPLY) then refused
          else match proposal_state_of (Domain.state r) with
               | Some state => Ok (Domain.record_id r,
                   {| pr_proposal_id := uuid_str (Domain.record_id r); pr_action_class := CALENDAR_APPLY; pr_payload := Domain.pf_payload f;
                      pr_state := state; pr_created_at := utc (Domain.created_at r) |})
               | None => Err CellValidationError
               end
      | _ => refused
      end
  | None => refused
  end.
Definition new_job (operation_id proposal_id : uuid) (p : ProposalRecord) (a : Approval) : PendingCalendarOperation :=
  {| pj_operation_id := operation_id; pj_proposal_id := proposal_id; pj_payload := pr_payload p; pj_approval := a;
     pj_authorized_until := fa_expires_at (ap_fact a); pj_status := queued; pj_claim_token := None; pj_claim_deadline := None;
     pj_result_reference := None |}.
(** [now] is the clock of the lifecycle, [at_] that of the context. *)
Definition enqueue_body (now at_ : Z) (a : Approval) : M PendingCalendarOperation :=
  as_result (uuid_field (fa_proposal_id (ap_fact a))) ≫= λ proposal_id,
  as_result (uuid_field (fa_fact_id (ap_fact a))) ≫= λ operation_id,
  read true PROPOSAL proposal_id ≫= λ current,
  as_result (calendar_proposal current) ≫= λ found,
  (λ c, authorized (approve parse_device sha256 dump_datetime public_key_ok ed25519_verify now (registry (live c)) found.2 a
                      default_approval_matrix) c) ≫= λ _,
  let ctx := {| tc_actor := fa_actor (ap_fact a); tc_correlation_id := fa_correlation_id (ap_fact a); tc_occurred_at := utc_datetime at_ |} in
  transition true PROPOSAL found.1 "approved" ctx ≫= λ _,
  let job := new_job operation_id found.1 found.2 a in
  enqueue true job ctx ≫= λ _,
  mret job.
Definition approve_and_enqueue_calendar (now at_ : Z) (a : Approval) : comp PostgresStateStore CellError PendingCalendarOperation :=
  unit_of_work (enqueue_body now at_ a).

Definition stored_matches (job : PendingCalendarOperation) (stored : option Domain.DomainRecord) : bool :=
  match stored with
  | Some r =>
      match Domain.dr_variant r with
      | Domain.Proposal f =>
          String.eqb (Domain.pf_proposal_type f) CALENDAR_APPLY && String.eqb (Domain.state r) "approved"
          && String.eqb (Domain.pf_payload f) (pj_payload job)
      | _ => false
      end
  | None => false
  end.
Definition claimed_proposal (job : PendingCalendarOperation) : ProposalRecord :=
  {| pr_proposal_id := uuid_str (pj_proposal_id job); pr_action_class := CALENDAR_APPLY; pr_payload := pj_payload job;
     pr_state := APPROVED; pr_created_at := fa_issued_at (ap_fact (pj_approval job)) |}.
(** Whether the claimed job may still run; only policy violations are caught. *)
Definition still_valid (now : Z) (job : PendingCalendarOperation) (stored : option Domain.DomainRecord) (db : cell_db) : result CellError bool :=
  if stored_matches job stored then
    match validate_approval parse_device sha256 dump_datetime public_key_ok ed25519_verify now (registry db) (claimed_proposal job)
            (pj_approval job) default_approval_matrix with
    | Ok _ => Ok true
    | Err (PolicyViolationError _) => Ok false
    | Err e => Err (CellAuthorityError e)
    end
  else Ok false.
Definition claim_context (at_ : Z) : TransitionContext :=
  {| tc_actor := "calendar-dispatch"; tc_correlation_id := "calendar-claim"; tc_occurred_at := utc_datetime at_ |}.
(** The loop: every round takes one job out of the queue.  [tokens] are the [uuid4()]s and
    [clock] the readings of the rounds. *)
Fixpoint claim_rounds (fuel round : nat) (at_ : Z) (clock : nat → Z) (tokens : nat → uuid) : M (option PendingCalendarOperation) :=
  match fuel with
  | O => mret None
  | S fuel =>
      claim true (tokens round) (claim_context at_) CLAIM_DURATION ≫= λ claimed,
      match claimed with
      | None => mret None
      | Some job =>
          read true PROPOSAL (pj_proposal_id job) ≫= λ stored,
          query (still_valid (clock round) job stored) ≫= λ valid,
          if valid : bool then mret (Some job)
          else cancel_claim true (pj_operation_id job) (tokens round) (claim_context at_) ≫= λ _, claim_rounds fuel (S round) at_ clock tokens
      end
  end.
(** One round per queued job and one that finds none. *)
Definition claim_body (at_ : Z) (clock : nat → Z) (tokens : nat → uuid) : M (option PendingCalendarOperation) :=
  query (λ db, Ok (S (length (jobs_in queued db)))) ≫= λ fuel, claim_rounds fuel 0 at_ clock tokens.
Definition claim_verified_calendar (at_ : Z) (clock : nat → Z) (tokens : nat → uuid) :
    comp PostgresStateStore CellError (option PendingCalendarOperation) := unit_of_work (claim_body at_ clock tokens).
End cell.
End Cell.
