(* ===== verification/CellSpec.v ===== *)
(** * What the cloud cell guarantees ([postgres_store.py], [postgres_outbox.py], [durable_calendar.py])

    The outbox stands for a map of jobs.  Over any sequence of units of work each proposal is
    handed to a worker at most once, only as it was approved, and only while the approval is
    still valid; jobs are never returned to the queue.  The consumption table has the laws of
    every consumption store.  The records keep version histories, each version sealed for its
    place, and an approved job that nothing overtakes reaches a worker. *)

From stdpp Require Import prelude base strings list gmap pretty.
From Stdlib Require Import ZArith Lia.
From S2P Require Import Prelude PyTime PyText PyUuid Transactions AuditLedger Consumption Enrollment Authority AuthoritySpec Memory DomainRecords Cell.

Import Cell.
#[local] Open Scope string_scope.
#[local] Open Scope list_scope.
#[local] Open Scope Z_scope.

(** ** The replay keys *)

Definition cell_keys (c : connection cell_db) : list ConsumptionKey := cb_consumption (live c).
Definition keyed (c : connection cell_db) (keys : list ConsumptionKey) : connection cell_db :=
  Connection (set_consumption (live c) (cell_keys c ++ keys)) (durable c) (in_transaction c).
Lemma keyed_nil c : keyed c [] = c.
Proof. destruct c as [[]]. unfold keyed, cell_keys. simpl. by rewrite app_nil_r. Qed.

Lemma claims_compute keys :
  computes (for_each (λ k, execute (insert_claim k)) keys)
    (λ db, if claimable keys (cb_consumption db)
           then Ok (tt, set_consumption db (cb_consumption db ++ keys)) else Err UniqueViolation).
Proof.
  induction keys as [|k keys IH].
  { eapply computes_ext; [apply computes_ret|]. intros []. unfold claimable, set_consumption. simpl. by rewrite app_nil_r. }
  eapply computes_ext; [eapply computes_bind; [apply computes_execute|intros u; exact IH]|].
  intros db. unfold then_, does, insert_claim, insert_key.
  assert (claimable (k :: keys) (cb_consumption db)
    = negb (bool_decide (k ∈ cb_consumption db)) && claimable keys (cb_consumption db ++ [k])) as ->.
  { unfold claimable. rewrite <- bool_decide_not, <- bool_decide_and. apply bool_decide_ext.
    rewrite NoDup_cons, Forall_cons, !Forall_forall. set_solver. }
  destruct (bool_decide (k ∈ cb_consumption db)); simpl; [done|].
  destruct (claimable _ _); [|done]. unfold set_consumption. simpl. by rewrite <- app_assoc.
Qed.

Lemma cell_consume_nested keys (c : connection cell_db) : in_transaction c = true →
  consume keys c = if claimable keys (cell_keys c) then (keyed c keys, true) else (c, false).
Proof.
  intros Hc. simpl. unfold consume_keys, require_active, throw_if. simpl. rewrite bind_run. unfold catch. rewrite bind_run.
  rewrite (block_nested _ _ c (claims_compute keys) Hc). unfold cell_keys. destruct (claimable _ _); [|done].
  unfold keyed, cell_keys. by rewrite Hc.
Qed.
Lemma cell_consume_outermost keys (c : connection cell_db) : in_transaction c = false → live c = durable c →
  consume keys c = if claimable keys (cell_keys c) then (commit (keyed c keys), true) else (c, false).
Proof.
  intros Hc Hs. simpl. unfold consume_keys, require_active, throw_if. simpl. rewrite bind_run. unfold catch. rewrite bind_run.
  rewrite (block_outermost _ _ c (claims_compute keys) Hc Hs). unfold cell_keys. by destruct (claimable _ _).
Qed.

(** The PostgreSQL table has the laws of a consumption store, as the SQLCipher one has. *)
#[export] Instance cell_laws : ConsumptionLaws (connection cell_db).
Proof.
  refine (Build_ConsumptionLaws _ _ (λ c, settled c ∧ NoDup (cell_keys c)) (λ c, list_to_set (cell_keys c)) _ _).
  - intros c p [_ Hnd]. by apply size_filter_list.
  - intros keys c [Hs Hnd] Hk ok. unfold ok.
    assert (bool_decide (Forall (λ k, k ∉ (list_to_set (cell_keys c) : gset ConsumptionKey)) keys) = claimable keys (cell_keys c)) as ->.
    { apply bool_decide_ext. rewrite !Forall_forall. set_solver. }
    assert (consume keys c = if claimable keys (cell_keys c)
      then ((if in_transaction c then keyed c keys else commit (keyed c keys)), true) else (c, false)) as ->.
    { destruct (in_transaction c) eqn:Hc; [by apply cell_consume_nested|]. apply cell_consume_outermost; auto. }
    unfold claimable. case_bool_decide as Hd; simpl; [|done].
    assert (cell_keys (if in_transaction c then keyed c keys else commit (keyed c keys)) = cell_keys c ++ keys) as -> by (by destruct (in_transaction c)).
    split_and!; [done| | | |done].
    + destruct (in_transaction c) eqn:Hc; intros Hf; simpl in *; [congruence|done].
    + destruct Hd as [? Hf]. rewrite Forall_forall in Hf. apply NoDup_app. set_solver.
    + by rewrite list_to_set_app_L.
Defined.

Create HintDb quiet.
Section spec.
Context (hmac : string → string → string) (audit_key : string) (tenant_id : uuid).
Context `{DomainCodec} `{AeadCipher} `{!AeadLaws} `{CellCodec} `{!CellCodecLaws}.
Context (urandom : cell_db → string) (uuid5 : uuid → string → uuid).
Context (parse_device : string → option Device).
Context (sha256 : string → string) (dump_datetime : Z → string).
Context (public_key_ok : string → bool) (ed25519_verify : string → string → string → bool).
Abbreviation M := (comp (connection cell_db) CellError).
Abbreviation create := (create hmac audit_key tenant_id urandom).
Abbreviation transition := (transition hmac audit_key tenant_id urandom).
Abbreviation delete := (delete hmac audit_key tenant_id urandom).
Abbreviation insert := (insert hmac audit_key tenant_id urandom uuid5 parse_device).
Abbreviation revoke := (revoke hmac audit_key tenant_id urandom uuid5 parse_device).
Abbreviation read := (read tenant_id).
Abbreviation read_job := (read_job tenant_id).
Abbreviation enqueue := (enqueue hmac audit_key tenant_id urandom).
Abbreviation _save := (_save hmac audit_key tenant_id urandom).
Abbreviation claim := (claim hmac audit_key tenant_id urandom).
Abbreviation complete := (complete hmac audit_key tenant_id urandom).
Abbreviation cancel_claim := (cancel_claim hmac audit_key tenant_id urandom).
Abbreviation recover := (recover hmac audit_key tenant_id urandom).
Abbreviation reconcile := (reconcile hmac audit_key tenant_id urandom).
Abbreviation registry := (registry).
Abbreviation unit_of_work := (unit_of_work hmac audit_key tenant_id).

(** ** Operations that leave jobs and keys alone *)

Definition quiet {A : Type} (m : M A) : Prop := ∀ c, in_transaction c = true →
  in_transaction (m c).1 = true ∧ durable (m c).1 = durable c
  ∧ cb_outbox (live (m c).1) = cb_outbox (live c) ∧ cb_consumption (live (m c).1) = cb_consumption (live c).
Lemma quiet_ret {A} (a : A) : quiet (mret a).
Proof. by intros c Hc. Qed.
Lemma quiet_throw {A} (e : CellError) : quiet (A := A) (throw e).
Proof. by intros c Hc. Qed.
Lemma quiet_throw_if b e : quiet (throw_if b e).
Proof. by intros c Hc. Qed.
Lemma quiet_query {A} (f : cell_db → result CellError A) : quiet (query f).
Proof. by intros c Hc. Qed.
Lemma quiet_execute f : (∀ db db', f db = Ok db' → cb_outbox db' = cb_outbox db ∧ cb_consumption db' = cb_consumption db) → quiet (execute f).
Proof. intros Hf c Hc. unfold execute. destruct (f (live c)) as [db'|e] eqn:He; [|done]. simpl. destruct (Hf _ _ He). done. Qed.
Lemma quiet_bind {A B} (m : M A) (k : A → M B) : quiet m → (∀ a, quiet (k a)) → quiet (m ≫= k).
Proof.
  intros Hm Hk c Hc. destruct (Hm c Hc) as (Hin & Hdur & Hout & Hkeys). rewrite bind_run. destruct (m c) as [c' [a|e]]; simpl in *; [|done].
  destruct (Hk a c' Hin) as (? & ? & ? & ?). split_and!; congruence.
Qed.
Lemma quiet_catch {A} (m : M A) h : quiet m → (∀ e, quiet (h e)) → quiet (catch m h).
Proof.
  intros Hm Hh c Hc. destruct (Hm c Hc) as (Hin & Hdur & Hout & Hkeys). unfold catch. destruct (m c) as [c' [a|e]]; simpl in *; [done|].
  destruct (Hh e c' Hin) as (? & ? & ? & ?). split_and!; congruence.
Qed.
Lemma quiet_block {A} (m : M A) : quiet m → quiet (domain_transaction m).
Proof.
  intros Hm c Hc. destruct (Hm c Hc) as (Hin & Hdur & Hout & Hkeys). unfold domain_transaction. rewrite Hc.
  by destruct (m c) as [c' [a|e]]; simpl in *.
Qed.
Hint Resolve quiet_ret quiet_throw quiet_throw_if quiet_query quiet_execute quiet_bind quiet_catch quiet_block : quiet.
Ltac quietly := repeat (auto with quiet; lazymatch goal with
  | |- quiet (_ ≫= _) => apply quiet_bind; [|intros ?]
  | |- quiet (domain_transaction _) => apply quiet_block
  | |- quiet (catch _ _) => apply quiet_catch; [|intros ?]
  | |- quiet (execute _) => apply quiet_execute; intros ? ? ?
  | |- quiet (match _ with _ => _ end) => case_match
  end).
Ltac inspect_statement := repeat case_match; simplify_eq; done.

Lemma quiet_append active m : quiet (append_audit hmac audit_key active m).
Proof. unfold append_audit, require_active. quietly; [unfold insert_audit in *|unfold set_head in *]; inspect_statement. Qed.
Hint Resolve quiet_append : quiet.
Lemma quiet_write active r v ctx action : quiet (_write hmac audit_key tenant_id urandom active r v ctx action).
Proof. unfold _write, sealing, _audit. quietly. unfold insert_version in *. inspect_statement. Qed.
Hint Resolve quiet_write : quiet.
Lemma quiet_create active r ctx : quiet (create active r ctx).
Proof. unfold Cell.create, require_active. quietly. Qed.
Lemma quiet_required active kind id : quiet (required tenant_id active kind id).
Proof. unfold required, Cell.read, require_active. quietly. Qed.
Hint Resolve quiet_create quiet_required : quiet.
Lemma quiet_transition active kind id state ctx : quiet (transition active kind id state ctx).
Proof. unfold Cell.transition, require_active. quietly. Qed.
Hint Resolve quiet_transition : quiet.
Lemma quiet_delete active kind id ctx : quiet (delete active kind id ctx).
Proof.
  unfold Cell.delete, require_active, sealing, _audit. quietly; [unfold insert_tombstone in *|unfold delete_versions in *]; inspect_statement.
Qed.
Lemma quiet_insert active id fp record : quiet (insert active id fp record).
Proof. unfold Cell.insert, require_active, parsed, sealing. quietly. unfold insert_device in *. inspect_statement. Qed.
Lemma quiet_revoke active id record : quiet (revoke active id record).
Proof. unfold Cell.revoke, load, require_active, parsed, sealing. quietly. unfold update_device in *. inspect_statement. Qed.
Hint Resolve quiet_delete quiet_insert quiet_revoke : quiet.

(** ** The outbox as a map of jobs *)

Record outbox := { ob_jobs : gmap uuid PendingCalendarOperation; ob_keys : list ConsumptionKey }.
Definition with_job (s : outbox) (j : PendingCalendarOperation) : outbox :=
  {| ob_jobs := <[pj_operation_id j := j]> (ob_jobs s); ob_keys := ob_keys s |}.

Definition stored_job (db : cell_db) (id : uuid) (j : PendingCalendarOperation) : Prop :=
  pj_operation_id j = id ∧ ∃ envelope, cb_outbox db !! id = Some (status_value (pj_status j), envelope)
    ∧ ∃ nonce, envelope = seal tenant_id nonce (dump_job j) (job_identity id (status_value (pj_status j))).
Record holds (db : cell_db) (s : outbox) : Prop := {
  ho_jobs : ∀ id, match ob_jobs s !! id with Some j => stored_job db id j | None => cb_outbox db !! id = None end;
  ho_keys : cb_consumption db = ob_keys s;
}.

Lemma read_holds db s id : holds db s → read_job_row tenant_id id db = Ok (ob_jobs s !! id).
Proof.
  intros Hs. pose proof (ho_jobs db s Hs id) as Hj. unfold read_job_row. destruct (ob_jobs s !! id) as [j|]; [|by rewrite Hj].
  destruct Hj as (Hid & env & -> & nonce & ->). unfold opened, open_, seal. rewrite aead_opens, parse_dump_job, Hid, Z.eqb_refl, String.eqb_refl. done.
Qed.
Lemma holds_frame db db' s : cb_outbox db' = cb_outbox db → cb_consumption db' = cb_consumption db → holds db s → holds db' s.
Proof. intros Ho Hk [Hj Hc]. split; [|by rewrite Hk]. intros id. unfold stored_job. rewrite Ho. apply Hj. Qed.
Lemma holds_put db s j nonce : holds db s →
  holds (set_outbox db (<[pj_operation_id j := (status_value (pj_status j),
           seal tenant_id nonce (dump_job j) (job_identity (pj_operation_id j) (status_value (pj_status j))))]> (cb_outbox db))) (with_job s j).
Proof.
  intros [Hj Hc]. split; [|done]. intros id. simpl. destruct (decide (pj_operation_id j = id)) as [<-|Hne].
  - rewrite lookup_insert_eq. split; [done|]. eexists. simpl. rewrite lookup_insert_eq. split; [done|]. by eexists.
  - rewrite lookup_insert_ne by done. specialize (Hj id). destruct (ob_jobs s !! id) as [j'|].
    + destruct Hj as (Hid & env & Hl & Hopen). split; [done|]. exists env. simpl. by rewrite lookup_insert_ne.
    + simpl. by rewrite lookup_insert_ne.
Qed.

Lemma aad_status id status status' : aad tenant_id (job_identity id status) = aad tenant_id (job_identity id status') → status = status'.
Proof.
  unfold aad, job_identity. cbn [map join]. rewrite !string_app_assoc. intros Heq.
  repeat match type of Heq with ?p +:+ _ = ?p +:+ _ => apply append_inj_l in Heq end. by apply json_string_inj in Heq as [-> _].
Qed.
(** The status of a row is authenticated: whoever changes it in the table, to run a job
    again or to skip one, makes the job unreadable. *)
Theorem changed_status_detected db s id j status envelope status' : holds db s → ob_jobs s !! id = Some j →
  cb_outbox db !! id = Some (status, envelope) → status' ≠ status →
  read_job_row tenant_id id (set_outbox db (<[id := (status', envelope)]> (cb_outbox db))) = Err InvalidTag.
Proof.
  intros Hs Hl Hrow Hne. pose proof (ho_jobs db s Hs id) as Hj. rewrite Hl in Hj. destruct Hj as (_ & env & Hrow' & nonce & ->). rewrite Hrow in Hrow'.
  injection Hrow' as -> ->. unfold read_job_row. cbn [cb_outbox set_outbox]. rewrite lookup_insert_eq. unfold opened, open_, seal. rewrite aead_bound; [done|].
  intros Heq%aad_status. congruence.
Qed.

(** ** Triples over that map, inside a unit *)

Definition triple {A : Type} (P : outbox → cell_db → Prop) (m : M A) (Q : A → outbox → cell_db → Prop) : Prop :=
  ∀ c s, in_transaction c = true → holds (live c) s → P s (live c) →
    in_transaction (m c).1 = true ∧ durable (m c).1 = durable c
    ∧ match (m c).2 with Ok a => ∃ s', holds (live (m c).1) s' ∧ Q a s' (live (m c).1) | Err _ => True end.
Abbreviation exactly s0 := (λ s (_ : cell_db), s = s0).

Lemma triple_quiet {A} (m : M A) s0 : quiet m → triple (exactly s0) m (λ _, exactly s0).
Proof.
  intros Hm c s Hc Hs ->. destruct (Hm c Hc) as (Hin & Hdur & Hout & Hkeys). split_and!; [done..|].
  destruct (m c).2; [|done]. exists s0. split; [|done]. by eapply holds_frame.
Qed.
Lemma triple_ret {A} (a : A) (P : outbox → cell_db → Prop) (Q : A → outbox → cell_db → Prop) :
  (∀ s db, P s db → Q a s db) → triple P (mret a) Q.
Proof. intros HQ c s Hc Hs HP. split_and!; [done..|]. exists s. split; [done|]. by apply HQ. Qed.
Lemma triple_throw {A} e P (Q : A → outbox → cell_db → Prop) : triple P (throw e) Q.
Proof. by intros c s Hc Hs HP. Qed.
Lemma triple_throw_if b e (P : outbox → cell_db → Prop) (Q : unit → outbox → cell_db → Prop) :
  (∀ s db, P s db → b = false → Q tt s db) → triple P (throw_if b e) Q.
Proof.
  intros HQ c s Hc Hs HP. unfold throw_if, raise_if. destruct b; split_and!; try done. exists s. split; [done|]. by apply HQ.
Qed.
Lemma triple_query {A} (f : cell_db → result CellError A) (P : outbox → cell_db → Prop) (Q : A → outbox → cell_db → Prop) :
  (∀ s db a, holds db s → P s db → f db = Ok a → Q a s db) → triple P (query f) Q.
Proof.
  intros HQ c s Hc Hs HP. split_and!; [done..|]. unfold query. simpl. destruct (f (live c)) as [a|e] eqn:Hf; [|done]. exists s. split; [done|]. by apply HQ.
Qed.
Lemma triple_execute f (P : outbox → cell_db → Prop) (Q : unit → outbox → cell_db → Prop) :
  (∀ s db db', holds db s → P s db → f db = Ok db' → ∃ s', holds db' s' ∧ Q tt s' db') → triple P (execute f) Q.
Proof.
  intros HQ c s Hc Hs HP. unfold execute. destruct (f (live c)) as [db'|e] eqn:Hf; split_and!; try done. by eapply HQ.
Qed.
Lemma triple_bind {A B} (m : M A) (k : A → M B) P Q R : triple P m Q → (∀ a, triple (Q a) (k a) R) → triple P (m ≫= k) R.
Proof.
  intros Hm Hk c s Hc Hs HP. destruct (Hm c s Hc Hs HP) as (Hin & Hdur & Hres). rewrite bind_run.
  destruct (m c) as [c' [a|e]]; simpl in *; [|done]. destruct Hres as (s' & Hs' & HQ). destruct (Hk a c' s' Hin Hs' HQ) as (? & ? & ?).
  split_and!; [done|congruence|done].
Qed.
Lemma triple_conseq {A} (m : M A) (P P' : outbox → cell_db → Prop) (Q Q' : A → outbox → cell_db → Prop) :
  triple P' m Q' → (∀ s db, P s db → P' s db) → (∀ a s db, Q' a s db → Q a s db) → triple P m Q.
Proof.
  intros Hm HP HQ c s Hc Hs H'. destruct (Hm c s Hc Hs (HP _ _ H')) as (? & ? & Hres). split_and!; [done..|].
  destruct (m c).2; [|done]. destruct Hres as (s' & ? & ?). exists s'. split; [done|]. by apply HQ.
Qed.
Lemma triple_block {A} (m : M A) P Q : triple P m Q → triple P (domain_transaction m) Q.
Proof.
  intros Hm c s Hc Hs HP. destruct (Hm c s Hc Hs HP) as (Hin & Hdur & Hres). unfold domain_transaction. rewrite Hc.
  destruct (m c) as [c' [a|e]]; simpl in *; done.
Qed.
(** Facts of the precondition may be used. *)
Lemma triple_fact {A} (φ : Prop) (m : M A) (P : outbox → cell_db → Prop) Q : (∀ s db, P s db → φ) → (φ → triple P m Q) → triple P m Q.
Proof. intros Hφ Hm c s Hc Hs HP. exact (Hm (Hφ _ _ HP) c s Hc Hs HP). Qed.
Lemma triple_pre {A} (m : M A) (P : outbox → cell_db → Prop) Q :
  (∀ s0, (∃ db, P s0 db) → triple (λ s db, s = s0 ∧ P s db) m Q) → triple P m Q.
Proof. intros Hm c s Hc Hs HP. exact (Hm s (ex_intro _ _ HP) c s Hc Hs (conj eq_refl HP)). Qed.

Ltac triple_quietly := eapply triple_bind; [apply triple_quiet; unfold require_active, _require_aware; solve [auto with quiet]|intros ?; simpl].

(** ** The operations of the outbox *)

Lemma read_job_spec id s0 : triple (exactly s0) (read_job true id)
  (λ found s _, s = s0 ∧ found = ob_jobs s0 !! id ∧ ∀ j, found = Some j → pj_operation_id j = id).
Proof.
  unfold Cell.read_job. triple_quietly. apply triple_query. intros s db found Hs -> Hf. rewrite (read_holds db s0 id Hs) in Hf. injection Hf as <-.
  split_and!; [done..|]. intros j Hl. pose proof (ho_jobs db s0 Hs id) as Hj. rewrite Hl in Hj. apply Hj.
Qed.
Lemma insert_job_spec j s0 : triple (exactly s0) (sealing_job tenant_id urandom j insert_job)
  (λ _ s _, ob_jobs s0 !! pj_operation_id j = None ∧ s = with_job s0 j).
Proof.
  unfold sealing_job, sealing. apply triple_execute. intros s db db' Hs -> Hf. unfold insert_job in Hf.
  destruct (bool_decide _); [|done]. simpl in Hf. destruct (cb_outbox db !! pj_operation_id j) eqn:Hl; [done|]. injection Hf as <-.
  exists (with_job s0 j). split; [by apply holds_put|]. split; [|done]. pose proof (ho_jobs db s0 Hs (pj_operation_id j)) as Hj.
  destruct (ob_jobs s0 !! pj_operation_id j); [|done]. destruct Hj as (_ & env & Hj & _). congruence.
Qed.
Lemma update_job_spec j s0 : is_Some (ob_jobs s0 !! pj_operation_id j) →
  triple (exactly s0) (sealing_job tenant_id urandom j update_job) (λ _ s _, s = with_job s0 j ∧ pj_status j ≠ needs_reconciliation).
Proof.
  intros [j0 Hj0]. unfold sealing_job, sealing. apply triple_execute. intros s db db' Hs -> Hf. unfold update_job in Hf.
  pose proof (ho_jobs db s0 Hs (pj_operation_id j)) as Hj. rewrite Hj0 in Hj. destruct Hj as (_ & env & Hl & _). rewrite Hl in Hf. simpl in Hf.
  case_bool_decide as Hst; [|done]. injection Hf as <-. exists (with_job s0 j). split; [by apply holds_put|]. split; [done|].
  intros Heq. rewrite Heq in Hst. vm_compute in Hst. set_solver.
Qed.
Lemma enqueue_spec j ctx s0 : triple (exactly s0) (enqueue true j ctx)
  (λ _ s _, ob_jobs s0 !! pj_operation_id j = None ∧ s = with_job s0 j).
Proof.
  unfold Cell.enqueue. triple_quietly.
  triple_quietly. apply triple_block. eapply triple_bind; [apply insert_job_spec|].
  intros ?. simpl. apply triple_pre. intros s1 (db & Hnone & Heq). eapply triple_conseq; [apply (triple_quiet _ s1), quiet_create|naive_solver|naive_solver].
Qed.
Lemma save_spec j ctx s0 : is_Some (ob_jobs s0 !! pj_operation_id j) →
  triple (exactly s0) (_save true j ctx) (λ _ s _, s = with_job s0 j ∧ pj_status j ≠ needs_reconciliation).
Proof.
  intros Hj. unfold Cell._save. apply triple_block. eapply triple_bind; [by apply update_job_spec|]. intros ?. simpl.
  apply triple_pre. intros s1 (db & Heq & Hne). eapply triple_conseq; [apply (triple_quiet _ s1), quiet_transition|naive_solver|naive_solver].
Qed.

(** ** Progress of jobs *)

(** What an approval fixed of a job never changes. *)
Definition bound (j j' : PendingCalendarOperation) : Prop :=
  pj_operation_id j' = pj_operation_id j ∧ pj_proposal_id j' = pj_proposal_id j ∧ pj_payload j' = pj_payload j
  ∧ pj_approval j' = pj_approval j ∧ pj_authorized_until j' = pj_authorized_until j.
(** A job moves out of the queue for good, and never into reconciliation. *)
Definition settled_status (s : JobStatus) : Prop := s ∈ [running; succeeded; cancelled; expired].
Lemma settled_not_queued s : settled_status s → s ≠ queued.
Proof. intros Hs ->. unfold settled_status in Hs. set_solver. Qed.
Definition moves (s s' : JobStatus) : Prop := s' = s ∨ settled_status s'.
Definition advances (s s' : outbox) : Prop :=
  ob_keys s' = ob_keys s ∧ ∀ id, match ob_jobs s !! id with
    | None => ob_jobs s' !! id = None
    | Some j => ∃ j', ob_jobs s' !! id = Some j' ∧ bound j j' ∧ moves (pj_status j) (pj_status j')
    end.

Lemma bound_refl j : bound j j.
Proof. done. Qed.
Lemma bound_trans j j' j'' : bound j j' → bound j' j'' → bound j j''.
Proof. unfold bound. naive_solver congruence. Qed.
Lemma advances_refl s : advances s s.
Proof. split; [done|]. intros id. destruct (ob_jobs s !! id) as [j|]; [|done]. exists j. split_and!; [done..|by left]. Qed.
Lemma advances_trans s s' s'' : advances s s' → advances s' s'' → advances s s''.
Proof.
  intros [Hk Hj] [Hk' Hj']. split; [congruence|]. intros id. specialize (Hj id). specialize (Hj' id). destruct (ob_jobs s !! id) as [j|].
  - destruct Hj as (j' & Hl & Hb & Hm). rewrite Hl in Hj'. destruct Hj' as (j'' & Hl' & Hb' & Hm'). exists j''.
    split_and!; [done|by eapply bound_trans|]. unfold moves in *. naive_solver congruence.
  - by rewrite Hj in Hj'.
Qed.
Lemma advances_put s j0 j : ob_jobs s !! pj_operation_id j = Some j0 → bound j0 j → settled_status (pj_status j) → advances s (with_job s j).
Proof.
  intros Hl Hb Hs. split; [done|]. intros id. simpl. destruct (decide (pj_operation_id j = id)) as [<-|Hne].
  - rewrite Hl, lookup_insert_eq. exists j. split_and!; [done..|by right].
  - rewrite lookup_insert_ne by done. apply advances_refl.
Qed.
(** What is queued after was queued before. *)
Lemma advances_queued s s' id j' : advances s s' → ob_jobs s' !! id = Some j' → pj_status j' = queued →
  ∃ j, ob_jobs s !! id = Some j ∧ bound j j' ∧ pj_status j = queued.
Proof.
  intros [_ Hj] Hl Hq. specialize (Hj id). destruct (ob_jobs s !! id) as [j|]; [|congruence]. destruct Hj as (j1 & Hl1 & Hb & Hm).
  rewrite Hl in Hl1. injection Hl1 as <-. exists j. split_and!; [done..|]. rewrite Hq in Hm. destruct Hm as [Hm|Hm]; [done|]. by apply settled_not_queued in Hm.
Qed.

(** A saved job keeps its place, its binding and leaves the queue. *)
Lemma save_advances j0 j ctx s0 : ob_jobs s0 !! pj_operation_id j = Some j0 → bound j0 j → settled_status (pj_status j) →
  triple (exactly s0) (_save true j ctx) (λ _ s _, s = with_job s0 j ∧ advances s0 s).
Proof.
  intros Hl Hb Hs. eapply triple_conseq; [apply save_spec; by eexists|done|]. simpl. intros _ s _ [-> _]. split; [done|]. by eapply advances_put.
Qed.

Definition all_queued (s : outbox) (ids : list uuid) : Prop :=
  NoDup ids ∧ ∀ id, id ∈ ids → ∃ j, ob_jobs s !! id = Some j ∧ pj_operation_id j = id ∧ pj_status j = queued.

Lemma jobs_in_queued db s : holds db s → all_queued s (jobs_in queued db).
Proof.
  intros Hs. unfold all_queued, jobs_in. split.
  - rewrite py_sorted_perm. apply (sublist_NoDup _ (map_to_list (cb_outbox db)).*1); [apply NoDup_fst_map_to_list|].
    induction (map_to_list (cb_outbox db)) as [|x l IH]; simpl; [done|]. case_match; simpl; by constructor.
  - intros id Hid. rewrite py_sorted_perm in Hid. apply list_elem_of_fmap in Hid as ([id' [st env]] & -> & Hin).
    apply list_elem_of_In, filter_In in Hin as [Hin Hst]. simpl in *. apply list_elem_of_In, elem_of_map_to_list in Hin.
    apply String.eqb_eq in Hst. simpl in Hst. pose proof (ho_jobs db s Hs id') as Hj. destruct (ob_jobs s !! id') as [j|]; [|congruence].
    destruct Hj as (Hid & env' & Hl & _). exists j. split_and!; [done..|]. rewrite Hin in Hl. injection Hl as Hl _. rewrite Hst in Hl.
    by destruct (pj_status j).
Qed.

(** A claim takes one queued job, bound as it was, for no longer than it is authorized. *)
Definition claimed_out (s0 : outbox) (token : uuid) (s : outbox) (j : PendingCalendarOperation) : Prop :=
  (∃ j0, ob_jobs s0 !! pj_operation_id j = Some j0 ∧ bound j0 j ∧ pj_status j0 = queued)
  ∧ ob_jobs s !! pj_operation_id j = Some j ∧ pj_status j = running ∧ pj_claim_token j = Some token
  ∧ ∃ deadline, pj_claim_deadline j = Some deadline ∧ deadline ≤ pj_authorized_until j.

Lemma claim_first_spec ids token ctx duration s0 : all_queued s0 ids →
  triple (exactly s0) (claim_first hmac audit_key tenant_id urandom true ids token ctx duration)
    (λ found s _, advances s0 s ∧ match found with Some j => claimed_out s0 token s j | None => True end).
Proof.
  revert s0. induction ids as [|id ids IH]; intros s0 [Hnd Hq]; cbn [claim_first].
  { apply triple_ret. intros s _ ->. split; [apply advances_refl|done]. }
  apply NoDup_cons in Hnd as [Hni Hnd]. destruct (Hq id) as (j & Hj & Hid & Hst); [set_solver|].
  eapply triple_bind; [apply read_job_spec|]. intros found. simpl. apply triple_fact with (φ := found = Some j); [naive_solver congruence|]. intros ->.
  case_match.
  - eapply triple_bind; [eapply triple_conseq; [apply (save_advances j (with_status j expired) ctx s0)| |]|].
    + simpl. by rewrite Hid.
    + done.
    + unfold settled_status. simpl. set_solver.
    + intros s _ [-> _]. done.
    + intros a s db Hs. exact Hs.
    + intros ?. simpl. apply triple_pre. intros s1 (_ & Heq & Hadv). eapply triple_conseq.
      * apply (IH s1). split; [done|]. intros id' Hid'. rewrite Heq. simpl. rewrite lookup_insert_ne by (rewrite Hid; set_solver). apply Hq. set_solver.
      * simpl. naive_solver.
      * simpl. intros found s _ [Hadv' Hf]. split; [by eapply advances_trans|]. destruct found as [k|]; [|done]. destruct Hf as ((k0 & Hk0 & Hb & Hkq) & ?).
        split; [|done]. destruct (advances_queued s0 s1 _ k0 Hadv Hk0 Hkq) as (k1 & ? & ? & ?). exists k1. split_and!; [done|by eapply bound_trans|done].
  - eapply triple_bind; [eapply triple_conseq; [apply (save_advances j (claimed_job j token _ duration) ctx s0)| |]|].
    + simpl. by rewrite Hid.
    + done.
    + unfold settled_status. simpl. set_solver.
    + intros s _ [-> _]. done.
    + intros a s db Hs. exact Hs.
    + intros ?. simpl. apply triple_ret. intros s _ [-> Hadv]. split; [done|]. split_and!; simpl.
      * exists j. by rewrite Hid.
      * by rewrite lookup_insert_eq.
      * done.
      * done.
      * eexists. split; [done|]. lia.
Qed.
Lemma claim_spec token ctx duration s0 : triple (exactly s0) (claim true token ctx duration)
  (λ found s _, advances s0 s ∧ match found with Some j => claimed_out s0 token s j | None => True end).
Proof.
  unfold Cell.claim. do 3 triple_quietly. eapply triple_bind.
  { apply (triple_query _ _ (λ ids s _, s = s0 ∧ all_queued s0 ids)). intros s db ids Hs -> [= <-]. split; [done|]. by apply jobs_in_queued. }
  intros ids. simpl. apply triple_fact with (φ := all_queued s0 ids); [naive_solver|]. intros Hq.
  eapply triple_conseq; [by apply claim_first_spec|naive_solver|done].
Qed.

(** The job found is that of the map. *)
Lemma read_then {A} id s0 (k : option PendingCalendarOperation → M A) Q :
  (∀ j, ob_jobs s0 !! id = Some j → pj_operation_id j = id → triple (exactly s0) (k (Some j)) Q) → (ob_jobs s0 !! id = None → triple (exactly s0) (k None) Q) →
  triple (exactly s0) (read_job true id ≫= k) Q.
Proof.
  intros Hsome Hnone. eapply triple_bind; [apply read_job_spec|]. intros found. simpl.
  apply triple_fact with (φ := found = ob_jobs s0 !! id ∧ ∀ j, found = Some j → pj_operation_id j = id); [naive_solver|]. intros [-> Hid].
  eapply triple_conseq; [|intros s db [Hs _]; exact Hs|done]. destruct (ob_jobs s0 !! id) as [j|]; [by apply Hsome; [|apply Hid]|by apply Hnone].
Qed.
Lemma save_moves j0 j ctx s0 : ob_jobs s0 !! pj_operation_id j = Some j0 → bound j0 j → settled_status (pj_status j) →
  triple (exactly s0) (_save true j ctx) (λ _ s _, advances s0 s).
Proof. intros Hl Hb Hs. eapply triple_conseq; [by apply (save_advances j0 j ctx s0)|done|naive_solver]. Qed.
Lemma complete_spec id token reference ctx s0 : triple (exactly s0) (complete true id token reference ctx) (λ _ s _, advances s0 s).
Proof.
  apply read_then; [intros j Hj Hid|intros _]; triple_quietly; [|apply triple_throw]. triple_quietly.
  by apply (save_moves j); [simpl; rewrite Hid|..|unfold settled_status; simpl; set_solver].
Qed.
Lemma cancel_spec id token ctx s0 : triple (exactly s0) (cancel_claim true id token ctx) (λ _ s _, advances s0 s).
Proof.
  apply read_then; [intros j Hj Hid|intros _; apply triple_throw]. triple_quietly.
  by apply (save_moves j); [simpl; rewrite Hid|..|unfold settled_status; simpl; set_solver].
Qed.
(** No job is ever recovered: the table refuses the status. *)
Lemma recover_each_spec ids ctx n s0 :
  triple (exactly s0) (recover_each hmac audit_key tenant_id urandom true ids ctx n) (λ n' s _, s = s0 ∧ n' = n).
Proof.
  induction ids as [|id ids IH]; cbn [recover_each]; [by apply triple_ret|].
  apply read_then; [intros j Hj Hid|intros _; apply IH]. case_match; [|apply IH]. eapply triple_bind; [apply save_spec; simpl; rewrite Hid; by eexists|].
  intros ?. simpl. by apply triple_fact with (φ := False); [naive_solver|].
Qed.
Lemma recover_spec ctx s0 : triple (exactly s0) (recover true ctx) (λ n s _, s = s0 ∧ n = 0).
Proof. unfold Cell.recover. do 2 triple_quietly. eapply triple_bind; [apply triple_quiet; auto with quiet|]. intros ids. simpl. apply recover_each_spec. Qed.

Definition clean (s : outbox) : Prop := ∀ id j, ob_jobs s !! id = Some j → pj_status j = queued ∨ settled_status (pj_status j).
Lemma reconcile_spec id success reference ctx s0 : clean s0 → triple (exactly s0) (reconcile true id success reference ctx) (λ _ _ _, False).
Proof.
  intros Hc. apply read_then; [intros j Hj Hid|intros _; apply triple_throw]. eapply triple_bind; [apply (triple_throw_if _ _ _ (λ _ _ _, False))|].
  - intros s _ -> Hb. apply Hc in Hj as [Hq|Hst].
    + rewrite Hq in Hb. done.
    + unfold settled_status in Hst. rewrite !elem_of_cons in Hst. destruct Hst as [Hst|[Hst|[Hst|[Hst|[]%elem_of_nil]]]]; by rewrite Hst in Hb.
  - intros ?. by apply triple_fact with (φ := False).
Qed.

(** ** Approving and claiming *)

#[local] Instance devices : DevicePersistence cell_db := cell_devices hmac audit_key tenant_id urandom uuid5 parse_device.
Abbreviation enqueue_body := (enqueue_body hmac audit_key tenant_id urandom uuid5 parse_device sha256 dump_datetime public_key_ok ed25519_verify).
Abbreviation claim_rounds := (claim_rounds hmac audit_key tenant_id urandom uuid5 parse_device sha256 dump_datetime public_key_ok ed25519_verify).
Abbreviation claim_body := (claim_body hmac audit_key tenant_id urandom uuid5 parse_device sha256 dump_datetime public_key_ok ed25519_verify).
Abbreviation approve_and_enqueue_calendar :=
  (approve_and_enqueue_calendar hmac audit_key tenant_id urandom uuid5 parse_device sha256 dump_datetime public_key_ok ed25519_verify).
Abbreviation claim_verified_calendar :=
  (claim_verified_calendar hmac audit_key tenant_id urandom uuid5 parse_device sha256 dump_datetime public_key_ok ed25519_verify).
Abbreviation approval_valid := (approval_valid parse_device sha256 dump_datetime public_key_ok ed25519_verify).

(** The keys an approval claims, given those claimed before. *)
Definition keys_for (s : outbox) (p : ProposalRecord) (a : Approval) : list ConsumptionKey :=
  approve_keys (length (filter (λ k, k.1 = reset_round (pr_proposal_id p)) (ob_keys s))) p a.
Definition with_keys (s : outbox) (keys : list ConsumptionKey) : outbox := {| ob_jobs := ob_jobs s; ob_keys := ob_keys s ++ keys |}.

Lemma approve_spec now p a s0 :
  triple (exactly s0) (λ c, authorized (approve parse_device sha256 dump_datetime public_key_ok ed25519_verify now (registry (live c)) p a
                           default_approval_matrix) c)
    (λ _ s _, s = with_keys s0 (keys_for s0 p a) ∧ claimable (keys_for s0 p a) (ob_keys s0) = true).
Proof.
  intros c s Hc Hs ->. unfold authorized, approve, throw_if, raise_if, checked, consume_or. rewrite !bind_run. simpl generation.
  rewrite (ho_keys _ _ Hs). fold (keys_for s0 p a). destruct (bool_decide (pr_state p = PROPOSED)); [|done]. simpl negb. cbv iota.
  destruct (bool_decide (ap_kind a = ResetRequest)); [done|]. destruct (validate_approval _ _ _ _ _ _ _ _ _ _) as [u|e]; [|done].
  rewrite (cell_consume_nested _ c Hc). unfold cell_keys. rewrite (ho_keys _ _ Hs). destruct (claimable (keys_for s0 p a) (ob_keys s0)); [|done]. simpl. split_and!; [done..|].
  exists (with_keys s0 (keys_for s0 p a)). split; [|done]. split; [|simpl; unfold cell_keys; by rewrite (ho_keys _ _ Hs)].
  intros id. apply (ho_jobs _ _ Hs id).
Qed.

Lemma as_result_spec {A} (r : result CellError A) s0 : triple (exactly s0) (as_result r) (λ a s _, s = s0 ∧ r = Ok a).
Proof. intros c s Hc Hs ->. split_and!; [done..|]. simpl. destruct r; [|done]. by exists s0. Qed.

(** What an approval that returns has added. *)
Definition enqueued (s0 : outbox) (a : Approval) (job : PendingCalendarOperation) (s : outbox) : Prop :=
  ∃ p, job = new_job (pj_operation_id job) (pj_proposal_id job) p a ∧ pr_proposal_id p = uuid_str (pj_proposal_id job)
    ∧ claimable (keys_for s0 p a) (ob_keys s0) = true ∧ ob_jobs s0 !! pj_operation_id job = None
    ∧ s = with_job (with_keys s0 (keys_for s0 p a)) job.
Lemma calendar_proposal_id found id p : calendar_proposal found = Ok (id, p) → pr_proposal_id p = uuid_str id.
Proof. unfold calendar_proposal. repeat case_match; intros; simplify_eq. done. Qed.

Lemma enqueue_body_spec now at_ a s0 : triple (λ s _, s = s0) (enqueue_body now at_ a) (λ job s _, enqueued s0 a job s).
Proof.
  unfold Cell.enqueue_body. eapply triple_bind; [apply as_result_spec|]. intros pid. simpl. apply triple_pre. intros ? (_ & -> & _).
  eapply triple_bind; [eapply triple_conseq; [apply (as_result_spec _ s0)|naive_solver|intros ? ? ? HQ; exact HQ]|]. intros op. simpl.
  eapply triple_bind; [eapply triple_conseq; [apply (triple_quiet (read true PROPOSAL pid) s0)|naive_solver|intros ? ? ? HQ; exact HQ]|].
  { unfold Cell.read, require_active. quietly. }
  intros current. simpl. eapply triple_bind; [apply as_result_spec|]. intros [id p]. simpl.
  apply triple_fact with (φ := calendar_proposal current = Ok (id, p)); [naive_solver|]. intros Hp%calendar_proposal_id.
  eapply triple_bind; [eapply triple_conseq; [apply (approve_spec now p a s0)|naive_solver|intros ? ? ? HQ; exact HQ]|]. intros st. simpl.
  apply triple_fact with (φ := claimable (keys_for s0 p a) (ob_keys s0) = true); [naive_solver|]. intros Hcl.
  eapply triple_bind; [eapply triple_conseq; [apply (triple_quiet _ (with_keys s0 (keys_for s0 p a))), quiet_transition|naive_solver|intros ? ? ? HQ; exact HQ]|].
  intros ?. simpl. eapply triple_bind; [apply enqueue_spec|]. intros ?. simpl. apply triple_ret. intros s _ [Hnone ->].
  exists p. split_and!; done.
Qed.

(** What a worker may rely on about a job it was handed: the stored proposal still is the
    approved one and the approval still is valid. *)
Definition may_run (now : Z) (j : PendingCalendarOperation) (db : cell_db) : Prop :=
  ∃ r, read_row tenant_id PROPOSAL (pj_proposal_id j) db = Ok (Some r) ∧ stored_matches j (Some r) = true
    ∧ approval_valid now (registry db) (claimed_proposal j) (pj_approval j) default_approval_matrix.
Definition handed_out (s0 : outbox) (clock : nat → Z) (s : outbox) (db : cell_db) (j : PendingCalendarOperation) : Prop :=
  ∃ k token, claimed_out s0 token s j ∧ may_run (clock k) j db.

Lemma still_valid_ok now j stored db : stored = read_row tenant_id PROPOSAL (pj_proposal_id j) db →
  match stored with
  | Ok found => still_valid hmac audit_key tenant_id urandom uuid5 parse_device sha256 dump_datetime public_key_ok ed25519_verify now j found db = Ok true
                → may_run now j db
  | Err _ => True
  end.
Proof.
  intros ->. destruct (read_row _ _ _ db) as [found|e] eqn:Hr; [|done]. unfold still_valid. destruct (stored_matches j found) eqn:Hm; [|done].
  destruct (validate_approval _ _ _ _ _ _ _ _ _ _) as [[]|[]] eqn:Hv; try done. intros _. apply validate_approval_ok in Hv.
  destruct found as [r|]; [|done]. by exists r.
Qed.

Lemma claimed_out_back s0 s1 token s j : advances s0 s1 → claimed_out s1 token s j → claimed_out s0 token s j.
Proof.
  intros Hadv ((j0 & Hl & Hb & Hq) & Hrest). split; [|done]. destruct (advances_queued s0 s1 _ j0 Hadv Hl Hq) as (j1 & ? & ? & ?).
  exists j1. split_and!; [done|by eapply bound_trans|done].
Qed.

Lemma claim_rounds_spec fuel round at_ clock tokens s0 : triple (λ s _, s = s0) (claim_rounds fuel round at_ clock tokens)
  (λ found s db, advances s0 s ∧ match found with Some j => handed_out s0 clock s db j | None => True end).
Proof.
  revert round s0. induction fuel as [|fuel IH]; intros round s0; cbn [Cell.claim_rounds].
  { apply triple_ret. intros s db ->. split; [apply advances_refl|done]. }
  eapply triple_bind; [apply claim_spec|]. intros [j|]; simpl; [|by apply triple_ret].
  apply triple_pre. intros s1 (_ & Hadv & Hout). eapply triple_bind.
  { eapply triple_bind; [eapply triple_conseq; [apply (triple_quiet (require_active true) s1)|naive_solver|intros ? ? ? HQ; exact HQ]|].
    { unfold require_active. auto with quiet. }
    intros ?. apply (triple_query _ _ (λ found s db, s = s1 ∧ read_row tenant_id PROPOSAL (pj_proposal_id j) db = Ok found)).
    simpl. intros s db found _ -> Hf. done. }
  intros stored. eapply triple_bind.
  { apply (triple_query _ _ (λ valid s db, s = s1 ∧ (valid = true → may_run (clock round) j db))). simpl. intros s db valid _ [-> Hr] Hv. split; [done|].
    intros ->. pose proof (still_valid_ok (clock round) j _ db eq_refl) as Hok. rewrite Hr in Hok. by apply Hok. }
  intros [|]; simpl.
  - apply triple_ret. intros s db [-> Hrun]. split; [done|]. exists round, (tokens round). split; [done|by apply Hrun].
  - eapply triple_bind; [eapply triple_conseq; [apply (cancel_spec (pj_operation_id j) (tokens round) (claim_context at_) s1)|naive_solver|intros ? ? ? HQ; exact HQ]|].
    intros ?. simpl. apply triple_pre. intros s2 (_ & Hadv2). eapply triple_conseq; [apply (IH (S round) s2)|naive_solver|]. simpl.
    intros found s db [Hadv3 Hf]. assert (advances s0 s2) as Hadv' by (by eapply advances_trans). split; [by eapply advances_trans|].
    destruct found as [k|]; [|done]. destruct Hf as (n & token & Hcl & Hrun). exists n, token. split; [by eapply claimed_out_back|done].
Qed.

(** *** The rounds are enough *)

Lemma queued_elem db s id : holds db s → id ∈ jobs_in queued db ↔ ∃ j, ob_jobs s !! id = Some j ∧ pj_status j = queued.
Proof.
  intros Hs. split; [intros Hin; destruct (jobs_in_queued db s Hs) as [_ Hq]; destruct (Hq id Hin) as (j & ? & _ & ?); by exists j|].
  intros (j & Hl & Hq). unfold jobs_in. rewrite py_sorted_perm. pose proof (ho_jobs db s Hs id) as Hj. rewrite Hl in Hj. destruct Hj as (_ & env & Hrow & _).
  apply list_elem_of_fmap. exists (id, (status_value (pj_status j), env)). split; [done|]. apply list_elem_of_In, filter_In.
  rewrite <- list_elem_of_In, elem_of_map_to_list, Hq. split; [by rewrite <- Hq|done].
Qed.
(** Whatever is claimed shortens the queue. *)
Lemma queue_shrinks db db' s s' id j : holds db s → holds db' s' → advances s s' → ob_jobs s !! id = Some j → pj_status j = queued →
  id ∉ jobs_in queued db' → (length (jobs_in queued db') < length (jobs_in queued db))%nat.
Proof.
  intros Hs Hs' Hadv Hl Hq Hni. apply (submseteq_length (id :: jobs_in queued db')). apply NoDup_submseteq.
  - apply NoDup_cons. split; [done|]. apply (jobs_in_queued db' s' Hs').
  - intros x [->|Hx]%elem_of_cons; [apply (queued_elem db s id Hs); by exists j|]. apply (queued_elem db' s' x Hs') in Hx as (k & Hk & Hkq).
    destruct (advances_queued s s' x k Hadv Hk Hkq) as (k0 & ? & _ & ?). apply (queued_elem db s x Hs). by exists k0.
Qed.

Lemma read_run kind id c : read true kind id c = (c, read_row tenant_id kind id (live c)).
Proof. done. Qed.
Lemma rounds_enough fuel fuel' round at_ clock tokens c s : in_transaction c = true → holds (live c) s →
  (length (jobs_in queued (live c)) < fuel)%nat → (fuel <= fuel')%nat →
  claim_rounds fuel round at_ clock tokens c = claim_rounds fuel' round at_ clock tokens c.
Proof.
  revert fuel' round c s. induction fuel as [|fuel IH]; intros [|fuel'] round c s Hc Hs Hlt Hle; try lia. cbn [Cell.claim_rounds]. rewrite !bind_run.
  destruct (claim_spec (tokens round) (claim_context at_) CLAIM_DURATION s c s Hc Hs eq_refl) as (Hin & _ & Hres).
  destruct (claim true _ _ _ c) as [c1 [[j|]|e]]; simpl in *; try done. destruct Hres as (s1 & Hs1 & Hadv & Hcl). rewrite !bind_run.
  rewrite !read_run. destruct (read_row _ _ _ _) as [stored|e]; [|done]. rewrite !bind_run. unfold query.
  destruct (still_valid _ _ _ _ _ _ _ _ _ _ _ _ _ _) as [[]|e]; [done| |done]. rewrite !bind_run.
  destruct (cancel_spec (pj_operation_id j) (tokens round) (claim_context at_) s1 c1 s1 Hin Hs1 eq_refl) as (Hin2 & _ & Hres2).
  destruct (cancel_claim true _ _ _ c1) as [c2 [u|e]]; simpl in *; [|done]. destruct Hres2 as (s2 & Hs2 & Hadv2).
  destruct Hcl as ((j0 & Hl & _ & Hq) & Hl1 & Hrun & _). apply (IH _ _ _ s2); [done..| |lia].
  enough (length (jobs_in queued (live c2)) < length (jobs_in queued (live c)))%nat by lia.
  eapply (queue_shrinks _ _ s s2 (pj_operation_id j) j0); [done|done|by eapply advances_trans|done..|].
  intros (k & Hk & Hkq)%(queued_elem _ s2 _ Hs2). destruct (advances_queued s1 s2 _ k Hadv2 Hk Hkq) as (k1 & Hk1 & _ & ?). congruence.
Qed.

(** ** Histories of units *)

Inductive command :=
| Approve (now at_ : Z) (a : Approval)
| Claim (at_ : Z) (clock : nat → Z) (tokens : nat → uuid)
| Complete (id token : uuid) (result_reference : string) (ctx : TransitionContext)
| CancelClaim (id token : uuid) (ctx : TransitionContext)
| Recover (ctx : TransitionContext)
| Reconcile (id : uuid) (success : bool) (result_reference : string) (ctx : TransitionContext)
| CreateRecord (r : Domain.DomainRecord) (ctx : TransitionContext)
| TransitionRecord (kind : RecordKind) (id : uuid) (state : string) (ctx : TransitionContext)
| DeleteRecord (kind : RecordKind) (id : uuid) (ctx : TransitionContext)
| EnrollDevice (id fingerprint record : string)
| RevokeDevice (id record : string).
Inductive answer := Enqueued (j : PendingCalendarOperation) | HandedOut (j : PendingCalendarOperation) | Answered | Refused (e : CellError).

Definition answering {A : Type} (f : A → answer) (r : PostgresStateStore * result CellError A) : PostgresStateStore * answer :=
  (r.1, match r.2 with Ok a => f a | Err e => Refused e end).
Definition quiet_answer {A : Type} (_ : A) : answer := Answered.
Definition obey (cmd : command) (st : PostgresStateStore) : PostgresStateStore * answer :=
  match cmd with
  | Approve now at_ a => answering Enqueued (approve_and_enqueue_calendar now at_ a st)
  | Claim at_ clock tokens =>
      answering (λ found, match found with Some j => HandedOut j | None => Answered end) (claim_verified_calendar at_ clock tokens st)
  | Complete id token reference ctx => answering quiet_answer (unit_of_work (complete true id token reference ctx) st)
  | CancelClaim id token ctx => answering quiet_answer (unit_of_work (cancel_claim true id token ctx) st)
  | Recover ctx => answering quiet_answer (unit_of_work (recover true ctx) st)
  | Reconcile id success reference ctx => answering quiet_answer (unit_of_work (reconcile true id success reference ctx) st)
  | CreateRecord r ctx => answering quiet_answer (unit_of_work (create true r ctx) st)
  | TransitionRecord kind id state ctx => answering quiet_answer (unit_of_work (transition true kind id state ctx) st)
  | DeleteRecord kind id ctx => answering quiet_answer (unit_of_work (delete true kind id ctx) st)
  | EnrollDevice id fingerprint record => answering quiet_answer (unit_of_work (insert true id fingerprint record) st)
  | RevokeDevice id record => answering quiet_answer (unit_of_work (revoke true id record) st)
  end.
(** The answers to the commands so far, oldest first. *)
Inductive cell_history : list answer → PostgresStateStore → Prop :=
| history_provisioned c c' st :
    live c = empty_cell → live c = durable c → in_transaction c = false →
    provision hmac audit_key tenant_id c = (c', Ok tt) → connect hmac audit_key tenant_id c' = Ok st → cell_history [] st
| history_command trace st cmd : cell_history trace st → cell_history (trace ++ [(obey cmd st).2]) (obey cmd st).1.

(** ** What histories keep *)

Definition resting (st : PostgresStateStore) : Prop :=
  ps_active st = false ∧ in_transaction (ps_connection st) = false ∧ live (ps_connection st) = durable (ps_connection st).
Definition contents (st : PostgresStateStore) : cell_db := live (ps_connection st).

Record tracks (trace : list answer) (st : PostgresStateStore) (s : outbox) : Prop := {
  tk_rest : resting st;
  tk_holds : holds (contents st) s;
  tk_clean : clean s;
  tk_rounds : ∀ k p, k ∈ ob_keys s → k.1 ≠ reset_round p;
  tk_jobs : ∀ id j, ob_jobs s !! id = Some j → ∃ j0, Enqueued j0 ∈ trace ∧ bound j0 j;
  tk_out : ∀ j, HandedOut j ∈ trace → ∃ j', ob_jobs s !! pj_operation_id j = Some j' ∧ bound j j' ∧ pj_status j' ≠ queued;
  tk_claimed : ∀ id j, ob_jobs s !! id = Some j → ("approve-proposal", uuid_str (pj_proposal_id j)) ∈ ob_keys s;
  tk_once : ∀ id id' j j', ob_jobs s !! id = Some j → ob_jobs s !! id' = Some j' → pj_proposal_id j = pj_proposal_id j' → id = id';
}.

(** A unit commits what its body did, or changes nothing. *)
Lemma unit_spec {A} (body : M A) st s Q : resting st → holds (contents st) s → triple (λ s' _, s' = s) body Q →
  match unit_of_work body st with
  | (st', Ok a) => resting st' ∧ ∃ s', holds (contents st') s' ∧ Q a s' (contents st')
  | (st', Err _) => st' = st
  end.
Proof.
  intros (Ha & Hin & Hd) Hs Hbody. destruct st as [[l d b] act]. unfold contents in Hs. simpl in *. subst. unfold Cell.unit_of_work. simpl.
  assert (triple (λ s' _, s' = s) (query (check_cell tenant_id) ≫= λ _, query (_verify_audit_chain hmac audit_key) ≫= λ _, body) Q) as Hall.
  { do 2 triple_quietly. done. }
  match type of Hall with triple _ ?m _ => set (m0 := m) in * end.
  unfold domain_transaction. simpl. change (begin_immediate (Connection d d false)) with (Connection d d true).
  destruct (Hall (Connection d d true) s eq_refl Hs eq_refl) as (_ & Hdur & Hres). destruct (m0 (Connection d d true)) as [c' [a|e]]; simpl in *.
  - destruct Hres as (s' & Hs' & HQ). split; [done|]. by exists s'.
  - unfold rollback. by rewrite Hdur.
Qed.

Definition first_cell : cell_db :=
  set_cell empty_cell {| cl_tenant_id := tenant_id; cl_schema_version := 1; cl_audit_sequence := 0; cl_audit_hash := genesis_hash |}.
Lemma provision_run c : live c = empty_cell → live c = durable c → in_transaction c = false →
  let st := {| ps_connection := Connection first_cell first_cell false; ps_active := false |} in
  provision hmac audit_key tenant_id c = (ps_connection st, Ok tt) ∧ connect hmac audit_key tenant_id (ps_connection st) = Ok st.
Proof.
  intros He Hd Hin st. destruct c as [l d b]. simpl in *. subst l. subst b. subst d.
  assert (connect hmac audit_key tenant_id (ps_connection st) = Ok st) as Hconn.
  { unfold connect, Cell.unit_of_work, domain_transaction. simpl. rewrite bind_run. unfold query, check_cell. simpl. rewrite Z.eqb_refl. simpl. done. }
  split; [|done]. unfold provision, domain_transaction. simpl.
  unfold query, own_cell. simpl. rewrite Z.eqb_refl. simpl. fold first_cell. change (commit (Connection first_cell empty_cell true)) with (ps_connection st).
  by rewrite Hconn.
Qed.

Lemma tracks_start st : resting st → cb_outbox (contents st) = ∅ → cb_consumption (contents st) = [] →
  tracks [] st {| ob_jobs := ∅; ob_keys := [] |}.
Proof.
  intros Hr Ho Hk. split; simpl; try done.
  - split; [|done]. intros id. simpl. by rewrite lookup_empty, Ho, lookup_empty.
  - intros k p. set_solver.
  - intros j. set_solver.
Qed.

Lemma tracks_grow trace a st s : tracks trace st s → (∀ j, a ≠ HandedOut j) → tracks (trace ++ [a]) st s.
Proof.
  intros [Hr Hh Hc Hrd Hj Ho Hcl Hon] Ha. split; try done.
  - intros id j Hl. destruct (Hj id j Hl) as (j0 & ? & ?). exists j0. set_solver.
  - intros j [Hin|Heq]%elem_of_app; [by apply Ho|]. apply list_elem_of_singleton in Heq. by destruct (Ha j).
Qed.
(** Progress without new jobs keeps everything. *)
Lemma tracks_advance trace st st' s s' : tracks trace st s → resting st' → holds (contents st') s' → advances s s' → tracks trace st' s'.
Proof.
  intros [Hr Hh Hc Hrd Hj Ho Hcl Hon] Hr' Hh' [Hk Hadv].
  assert (∀ id j', ob_jobs s' !! id = Some j' → ∃ j, ob_jobs s !! id = Some j ∧ bound j j' ∧ moves (pj_status j) (pj_status j')) as Hback.
  { intros id j' Hl. specialize (Hadv id). destruct (ob_jobs s !! id) as [j|]; [|congruence]. destruct Hadv as (j1 & ? & ? & ?). exists j. naive_solver congruence. }
  split; try done.
  - intros id j' Hl. destruct (Hback id j' Hl) as (j & Hl0 & _ & [->|?]); [by apply (Hc id)|by right].
  - by rewrite Hk.
  - intros id j' Hl. destruct (Hback id j' Hl) as (j & Hl0 & Hb & _). destruct (Hj id j Hl0) as (j0 & ? & ?). exists j0. split; [done|]. by eapply bound_trans.
  - intros j Hin. destruct (Ho j Hin) as (j1 & Hl & Hb & Hq). specialize (Hadv (pj_operation_id j)). rewrite Hl in Hadv.
    destruct Hadv as (j2 & Hl2 & Hb2 & Hm). exists j2. split_and!; [done|by eapply bound_trans|]. destruct Hm as [->|Hm]; [done|by apply settled_not_queued].
  - intros id j' Hl. destruct (Hback id j' Hl) as (j & Hl0 & (_ & Hp & _) & _). rewrite Hk, Hp. by eapply Hcl.
  - intros id id' j j' Hl Hl' Heq. destruct (Hback id j Hl) as (k & Hl0 & (_ & Hp & _) & _). destruct (Hback id' j' Hl') as (k' & Hl0' & (_ & Hp' & _) & _).
    eapply Hon; [done..|congruence].
Qed.

(** A unit whose body only lets jobs progress. *)
Lemma tracks_unit {A} trace st s (body : M A) (f : A → answer) Q : tracks trace st s → triple (λ s' _, s' = s) body Q →
  (∀ a s' db, Q a s' db → advances s s') → (∀ a j, f a ≠ HandedOut j) →
  let r := answering f (unit_of_work body st) in ∃ s', tracks (trace ++ [r.2]) r.1 s'.
Proof.
  intros Ht Hb Hadv Hf r. pose proof (unit_spec body st s Q (tk_rest _ _ _ Ht) (tk_holds _ _ _ Ht) Hb) as Hu. subst r. unfold answering.
  destruct (unit_of_work body st) as [st' [a|e]]; simpl in *; [|subst; exists s; by apply tracks_grow].
  destruct Hu as (Hr & s' & Hs' & HQ). exists s'. apply tracks_grow; [|by apply Hf]. eapply tracks_advance; [exact Ht|done..|by eapply Hadv].
Qed.
Lemma tracks_quiet {A} trace st s (body : M A) (f : A → answer) : tracks trace st s → quiet body → (∀ a j, f a ≠ HandedOut j) →
  let r := answering f (unit_of_work body st) in ∃ s', tracks (trace ++ [r.2]) r.1 s'.
Proof. intros Ht Hb. eapply tracks_unit; [done|by apply triple_quiet|]. simpl. intros _ s' _ ->. apply advances_refl. Qed.

Lemma no_rounds trace st s p a : tracks trace st s → keys_for s p a = approve_keys 0 p a.
Proof.
  intros Ht. unfold keys_for. destruct (filter _ (ob_keys s)) as [|k l] eqn:Hf; [done|]. exfalso. pose proof (list_elem_of_here k l) as Hin.
  rewrite <- Hf in Hin. apply list_elem_of_filter in Hin as [Hk Hin]. by apply (tk_rounds _ _ _ Ht k) in Hk.
Qed.
(** An approval adds one job, of a proposal that had none. *)
Lemma tracks_enqueue trace st st' s s' a job : tracks trace st s → resting st' → holds (contents st') s' → enqueued s a job s' →
  tracks (trace ++ [Enqueued job]) st' s'.
Proof.
  intros Ht Hr' Hh' (p & Hjob & Hpid & Hcl & Hnone & ->). rewrite (no_rounds _ _ _ p a Ht) in Hh', Hcl |- *.
  destruct Ht as [Hr Hh Hc Hrd Hj Ho Hk Hon]. simpl in *. unfold claimable in Hcl. apply bool_decide_eq_true in Hcl as [_ Hfresh].
  rewrite Forall_forall in Hfresh. assert (("approve-proposal", uuid_str (pj_proposal_id job)) ∉ ob_keys s) as Hnew.
  { apply Hfresh. unfold approve_keys, proposal_key. rewrite Hpid. set_solver. }
  assert (∀ id j, ob_jobs s !! id = Some j → pj_proposal_id j ≠ pj_proposal_id job) as Hother.
  { intros id j Hl Heq. apply Hk in Hl. rewrite Heq in Hl. done. }
  split; simpl; try done.
  - intros id j Hl. simpl in Hl. apply lookup_insert_Some in Hl as [[<- <-]|[_ Hl]]; [left; by rewrite Hjob|by eapply Hc].
  - intros k q Hin. apply elem_of_app in Hin as [Hin|Hin]; [by apply Hrd|]. unfold approve_keys, reset_round in *. rewrite !elem_of_cons in Hin.
    intros Heq. destruct Hin as [->|[->|[->|[]%elem_of_nil]]]; simpl in Heq; done.
  - intros id j Hl. apply lookup_insert_Some in Hl as [[<- <-]|[_ Hl]]; [exists job; split; [set_solver|done]|].
    destruct (Hj id j Hl) as (j0 & ? & ?). exists j0. split; [set_solver|done].
  - intros j [Hin|Heq]%elem_of_app; [|by apply list_elem_of_singleton in Heq]. destruct (Ho j Hin) as (j' & Hl & ? & ?). exists j'.
    rewrite lookup_insert_ne by congruence. done.
  - intros id j Hl. apply lookup_insert_Some in Hl as [[<- <-]|[_ Hl]]; rewrite elem_of_app; [right|left; by eapply Hk].
    unfold approve_keys, proposal_key. rewrite Hpid. set_solver.
  - intros id id' j j' Hl Hl' Heq. apply lookup_insert_Some in Hl as [[<- <-]|[Hne Hl]]; apply lookup_insert_Some in Hl' as [[<- <-]|[Hne' Hl']]; try done.
    + by destruct (Hother _ _ Hl').
    + by destruct (Hother _ _ Hl).
    + by eapply Hon.
Qed.

Lemma claim_body_spec at_ clock tokens s0 : triple (λ s _, s = s0) (claim_body at_ clock tokens)
  (λ found s db, advances s0 s ∧ match found with Some j => handed_out s0 clock s db j | None => True end).
Proof. unfold Cell.claim_body. eapply triple_bind; [apply triple_quiet; auto with quiet|]. intros fuel. apply claim_rounds_spec. Qed.
(** What is claimed was in the queue, so it was not handed out, and no other job has its proposal. *)
Lemma claimed_once trace st s token s' j : tracks trace st s → claimed_out s token s' j →
  ∀ k, HandedOut k ∈ trace → pj_proposal_id k ≠ pj_proposal_id j.
Proof.
  intros Ht ((j0 & Hl & (Hid & Hp & _) & Hq) & _) k Hin Heq. destruct (tk_out _ _ _ Ht k Hin) as (k' & Hk & (_ & Hkp & _) & Hnq).
  assert (pj_operation_id k = pj_operation_id j) as Hsame by (eapply (tk_once _ _ _ Ht); [done..|congruence]). rewrite Hsame, Hl in Hk. congruence.
Qed.
Lemma tracks_handed trace st s s0 token j : tracks trace st s → claimed_out s0 token s j → tracks (trace ++ [HandedOut j]) st s.
Proof.
  intros [Hr Hh Hc Hrd Hj Ho Hcl Hon] (_ & Hl & Hrun & _). split; try done.
  - intros id k Hk. destruct (Hj id k Hk) as (j0 & ? & ?). exists j0. split; [set_solver|done].
  - intros k [Hin|Heq]%elem_of_app; [by apply Ho|]. apply list_elem_of_singleton in Heq as [= ->]. exists j. split_and!; [done..|]. by rewrite Hrun.
Qed.

Lemma perform_tracks trace st s cmd : tracks trace st s → ∃ s', tracks (trace ++ [(obey cmd st).2]) (obey cmd st).1 s'.
Proof.
  intros Ht. destruct cmd as [now at0 a|at0 clock tokens|id token reference ctx|id token ctx|ctx|id success reference ctx|r ctx|kind id state ctx|kind id ctx|id fp record|id record]; unfold obey.
  - pose proof (unit_spec _ st s _ (tk_rest _ _ _ Ht) (tk_holds _ _ _ Ht) (enqueue_body_spec now at0 a s)) as Hu.
    unfold answering, Cell.approve_and_enqueue_calendar. destruct (unit_of_work _ st) as [st' [job|e]]; simpl; [|subst; exists s; by apply tracks_grow].
    destruct Hu as (Hr & s' & Hs' & Hen). exists s'. by eapply tracks_enqueue.
  - pose proof (unit_spec _ st s _ (tk_rest _ _ _ Ht) (tk_holds _ _ _ Ht) (claim_body_spec at0 clock tokens s)) as Hu.
    unfold answering, Cell.claim_verified_calendar. destruct (unit_of_work _ st) as [st' [found|e]]; simpl; [|subst; exists s; by apply tracks_grow].
    destruct Hu as (Hr & s' & Hs' & Hadv & Hf). exists s'. pose proof (tracks_advance _ _ _ _ _ Ht Hr Hs' Hadv) as Ht'.
    destruct found as [j|]; [|by apply tracks_grow]. destruct Hf as (k & token & Hcl & _). by eapply tracks_handed.
  - eapply tracks_unit; [done|apply complete_spec|done|done].
  - eapply tracks_unit; [done|apply cancel_spec|done|done].
  - eapply tracks_unit; [done|apply recover_spec| |done]. simpl. intros n s' _ [-> _]. apply advances_refl.
  - eapply tracks_unit; [done|apply reconcile_spec, (tk_clean _ _ _ Ht)|done|done].
  - eapply tracks_quiet; [done|apply quiet_create|done].
  - eapply tracks_quiet; [done|apply quiet_transition|done].
  - eapply tracks_quiet; [done|apply quiet_delete|done].
  - eapply tracks_quiet; [done|apply quiet_insert|done].
  - eapply tracks_quiet; [done|apply quiet_revoke|done].
Qed.
Lemma history_tracks trace st : cell_history trace st → ∃ s, tracks trace st s.
Proof.
  induction 1 as [c c' st He Hd Hin Hp Hc|trace st cmd _ [s Ht]]; [|by eapply perform_tracks].
  destruct (provision_run c He Hd Hin) as [Hp1 Hc1]. cbn [ps_connection] in Hp1, Hc1. rewrite Hp in Hp1. injection Hp1 as ->. rewrite Hc in Hc1. injection Hc1 as ->.
  eexists. by apply tracks_start.
Qed.

(** C14. Approved work runs at most once, as approved: after any sequence of units on a
    provisioned cell, a job that a worker is handed was queued by an approval that returned,
    with the same proposal, payload and signed approval; no job of the same proposal was
    handed out before; and at that moment the stored proposal is the approved one with that
    payload and the approval is unexpired, bound to it and signed by a device that is still
    enrolled.  The claim ends when the approval does at the latest. *)
Theorem approved_work_handed_out_once trace st at_ clock tokens st' job :
  cell_history trace st → claim_verified_calendar at_ clock tokens st = (st', Ok (Some job)) →
  (∃ job0, Enqueued job0 ∈ trace ∧ bound job0 job)
  ∧ (∀ j, HandedOut j ∈ trace → pj_proposal_id j ≠ pj_proposal_id job)
  ∧ (∃ k, may_run (clock k) job (contents st'))
  ∧ ∃ deadline, pj_claim_deadline job = Some deadline ∧ deadline ≤ pj_authorized_until job.
Proof.
  intros [s Ht]%history_tracks Hrun.
  pose proof (unit_spec _ st s _ (tk_rest _ _ _ Ht) (tk_holds _ _ _ Ht) (claim_body_spec at_ clock tokens s)) as Hu.
  unfold Cell.claim_verified_calendar in Hrun. rewrite Hrun in Hu. destruct Hu as (_ & s' & _ & _ & k & token & Hcl & Hmay).
  pose proof (claimed_once _ _ _ _ _ _ Ht Hcl) as Honce. destruct Hcl as ((j0 & Hl & Hb & _) & _ & _ & _ & Hdl). split_and!; [|done|by exists k|done].
  destruct (tk_jobs _ _ _ Ht _ _ Hl) as (job0 & ? & ?). exists job0. split; [done|]. by eapply bound_trans.
Qed.

(** The schema refuses the status that recovery writes: whatever happened before, a recovery
    that returns has recovered nothing, and no job can ever be reconciled. *)
Theorem jobs_never_reconciled trace st ctx : cell_history trace st →
  (∀ n, (unit_of_work (recover true ctx) st).2 = Ok n → n = 0)
  ∧ ∀ id success reference, is_ok (unit_of_work (reconcile true id success reference ctx) st).2 = false.
Proof.
  intros [s Ht]%history_tracks. split.
  - intros n. pose proof (unit_spec _ st s _ (tk_rest _ _ _ Ht) (tk_holds _ _ _ Ht) (recover_spec ctx s)) as Hu.
    destruct (unit_of_work _ st) as [st' [m|e]]; simpl; [|done]. intros [= ->]. by destruct Hu as (_ & s' & _ & _ & ?).
  - intros id success reference.
    pose proof (unit_spec _ st s _ (tk_rest _ _ _ Ht) (tk_holds _ _ _ Ht) (reconcile_spec id success reference ctx s (tk_clean _ _ _ Ht))) as Hu.
    destruct (unit_of_work _ st) as [st' [m|e]]; simpl; [|done]. by destruct Hu as (_ & s' & _ & ?).
Qed.
End spec.

(** * The records of the cloud cell ([postgres_store.py])

    The PostgreSQL repository keeps version histories as the SQLCipher one does, with every
    version sealed for its place and one signed audit entry per change; and an approved job
    that nothing overtakes reaches a worker. *)

From stdpp Require Import countable prelude base strings list gmap pretty.
From S2P Require Import DomainRepository DomainSpec.
Import Cell.
#[local] Open Scope string_scope.
#[local] Open Scope list_scope.
#[local] Open Scope Z_scope.

(** ** The abstract store: a deletion bars its kind only *)

Record histories := { hs_history : history; hs_deleted : gset (string * uuid) }.
Definition no_histories : histories := {| hs_history := λ _ _, []; hs_deleted := ∅ |}.
Definition put_history (s : histories) (kind : RecordKind) (id : uuid) (l : list Domain.DomainRecord) : histories :=
  {| hs_history := set_history (hs_history s) kind id l; hs_deleted := hs_deleted s |}.
Definition cell_step (op : domain_op) (s : histories) : option histories :=
  match op with
  | OpCreate r _ =>
      let kind := Domain.record_kind r in
      if bool_decide ((kind_value kind, Domain.record_id r) ∈ hs_deleted s) then None
      else match hs_history s kind (Domain.record_id r) with [] => Some (put_history s kind (Domain.record_id r) [r]) | _ => None end
  | OpTransition kind id new_state _ =>
      match last (hs_history s kind id) with
      | None => None
      | Some current =>
          if Domain.filled new_state then Some (put_history s kind id (hs_history s kind id ++ [Domain.with_state current new_state])) else None
      end
  | OpDeleteRecord kind id _ =>
      match last (hs_history s kind id) with
      | None => None
      | Some _ =>
          if bool_decide ((kind_value kind, id) ∈ hs_deleted s) then None
          else Some {| hs_history := set_history (hs_history s) kind id []; hs_deleted := {[ (kind_value kind, id) ]} ∪ hs_deleted s |}
      end
  end.

Create HintDb sound.
Section records.
Context (hmac : string → string → string) (audit_key : string) (tenant_id : uuid).
Context `{DomainCodec} `{!DomainCodecLaws} `{AeadCipher} `{!AeadLaws} `{CellCodec} `{!CellCodecLaws}.
Context (urandom : cell_db → string).
Abbreviation M := (comp (connection cell_db) CellError).
Abbreviation create := (create hmac audit_key tenant_id urandom).
Abbreviation transition := (transition hmac audit_key tenant_id urandom).
Abbreviation delete := (delete hmac audit_key tenant_id urandom).
Abbreviation append_audit := (append_audit hmac audit_key).
Abbreviation unit_of_work := (unit_of_work hmac audit_key tenant_id).

(** ** Representation *)

(** Rows of versions [n + 1], [n + 2], ..., each sealed for its place. *)
Fixpoint sealed_rows (kind : RecordKind) (id : uuid) (n : Z) (rows : list record_row) (l : list Domain.DomainRecord) : Prop :=
  match rows, l with
  | [], [] => True
  | row :: rows, r :: l =>
      rw_kind row = kind ∧ rw_record_id row = id ∧ rw_version row = n + 1
      ∧ open_ tenant_id (rw_envelope row) (record_identity kind id (n + 1)) = Some (dump_domain r) ∧ sealed_rows kind id (n + 1) rows l
  | _, _ => False
  end.
(** The audit rows are the chain from the first entry to the head of the cell. *)
Definition audited_by (db : cell_db) (l : list AuditEntry) : Prop :=
  audit_entries db = Ok l ∧ map fst (cb_audit db) = map ae_sequence l
  ∧ ∃ c, cb_cell db = Some c ∧ cl_tenant_id c = tenant_id ∧ cl_schema_version c = 1 ∧ cl_audit_sequence c = Z.of_nat (length l)
      ∧ chain hmac audit_key 1 genesis_hash l (cl_audit_hash c).
Record keeps (db : cell_db) (s : histories) : Prop := {
  kp_rows : ∀ kind id, sealed_rows kind id 0 (versions kind id db) (hs_history s kind id);
  kp_stored : ∀ kind id, Forall (stored_as kind id) (hs_history s kind id);
  kp_deleted : dom (cb_tombstones db) = hs_deleted s;
  kp_audit : ∃ l, audited_by db l;
}.

Lemma sealed_length kind id n rows l : sealed_rows kind id n rows l → length rows = length l.
Proof.
  revert n l. induction rows as [|row rows IH]; intros n [|r l]; simpl; try done. intros (_ & _ & _ & _ & Hs). f_equal. by eapply IH.
Qed.
Lemma sealed_version kind id n rows l row : sealed_rows kind id n rows l → row ∈ rows → n < rw_version row <= n + Z.of_nat (length rows).
Proof.
  revert n l. induction rows as [|x rows IH]; intros n [|r l]; simpl; try done; [by intros _ []%elem_of_nil|].
  intros (_ & _ & Hv & _ & Hs) [->|Hin]%elem_of_cons; [lia|]. specialize (IH _ _ Hs Hin). lia.
Qed.
Lemma sealed_snoc kind id n rows l row r : sealed_rows kind id n rows l →
  rw_kind row = kind → rw_record_id row = id → rw_version row = n + Z.of_nat (length l) + 1 →
  open_ tenant_id (rw_envelope row) (record_identity kind id (rw_version row)) = Some (dump_domain r) → sealed_rows kind id n (rows ++ [row]) (l ++ [r]).
Proof.
  revert n l. induction rows as [|x rows IH]; intros n [|y l]; simpl; try done.
  - intros _ ? ? Hv Hopen. rewrite Hv in *. rewrite Z.add_0_r in *. by split_and!.
  - intros (? & ? & ? & ? & Hs) ? ? Hv Hopen. split_and!; [done..|]. apply IH; [done..| |done]. lia.
Qed.
Lemma sealed_last kind id n rows l : sealed_rows kind id n rows l →
  match last rows, last l with
  | Some row, Some r => rw_version row = n + Z.of_nat (length l) ∧ open_ tenant_id (rw_envelope row) (record_identity kind id (rw_version row)) = Some (dump_domain r)
  | None, None => True
  | _, _ => False
  end.
Proof.
  revert n l. induction rows as [|x rows IH]; intros n [|y l]; simpl; try done. intros (_ & _ & Hv & Hopen & Hs). specialize (IH _ _ Hs).
  destruct rows as [|x' rows], l as [|y' l]; try done; cbn [last] in *.
  - simpl. rewrite Hv. by split; [lia|].
  - destruct (last (x' :: rows)), (last (y' :: l)); try done. destruct IH as [-> ?]. split; [simpl; lia|done].
Qed.
(** The rows are in the order of their versions, so the newest is the last. *)
Lemma sealed_sorted kind id n rows l : sealed_rows kind id n rows l →
  py_sorted (λ a b, rw_version b <? rw_version a) rows = reverse rows.
Proof.
  revert n l. induction rows as [|x rows IH]; intros n [|y l]; simpl; try done. intros (_ & _ & Hv & _ & Hs). unfold py_sorted in *. simpl.
  rewrite (IH _ _ Hs), reverse_cons. apply py_insert_last. intros z Hz. rewrite elem_of_reverse in Hz. apply (sealed_version _ _ _ _ _ z Hs) in Hz.
  apply Z.ltb_lt. lia.
Qed.
Lemma sealed_max kind id n rows l : sealed_rows kind id n rows l → rows ≠ [] → 0 <= n → foldr Z.max 0 (map rw_version rows) = n + Z.of_nat (length l).
Proof.
  revert n l. induction rows as [|x rows IH]; intros n [|y l]; simpl; try done. intros (_ & _ & Hv & _ & Hs) _ Hn.
  destruct rows as [|x' rows]; [destruct l; [|done]; simpl; lia|]. rewrite (IH _ _ Hs) by (done || lia). lia.
Qed.

(** ** Reads *)

Lemma read_keeps db s kind id : keeps db s → read_row tenant_id kind id db = Ok (last (hs_history s kind id)).
Proof.
  intros Hs. pose proof (kp_rows db s Hs kind id) as Hr. unfold read_row, latest. rewrite (sealed_sorted _ _ _ _ _ Hr), head_reverse.
  pose proof (sealed_last _ _ _ _ _ Hr) as Hl. destruct (last (versions kind id db)) as [row|], (last (hs_history s kind id)) as [r|] eqn:Hlast; try done.
  destruct Hl as [_ Hopen]. unfold opened. rewrite Hopen. pose proof (kp_stored db s Hs kind id) as Hst. rewrite Forall_forall in Hst.
  destruct (Hst r (last_Some_elem_of _ _ Hlast)) as (_ & _ & Hp & Hv). by rewrite parse_dump_domain, Hv.
Qed.
Lemma max_keeps db s kind id : keeps db s → hs_history s kind id ≠ [] → max_version kind id db = Z.of_nat (length (hs_history s kind id)).
Proof.
  intros Hs Hne. pose proof (kp_rows db s Hs kind id) as Hr. unfold max_version. rewrite (sealed_max _ _ _ _ _ Hr); [lia| |lia].
  intros Hnil. apply sealed_length in Hr. rewrite Hnil in Hr. by destruct (hs_history s kind id).
Qed.
Lemma verify_keeps db s : keeps db s → is_ok (_verify_audit_chain hmac audit_key db) = true ∧ check_cell tenant_id db = Ok tt.
Proof.
  intros Hs. destruct (kp_audit db s Hs) as (l & Hl & _ & c & Hc & Ht & Hv & Hn & Hch). unfold _verify_audit_chain, check_cell. rewrite Hl, Hc, Ht, Hv.
  apply verify_from_chain in Hch. rewrite Hch, Hn, Z.eqb_refl, String.eqb_refl, Z.eqb_refl. done.
Qed.
Lemma keeps_frame db db' s : keeps db s → cb_cell db' = cb_cell db → cb_domain db' = cb_domain db → cb_tombstones db' = cb_tombstones db →
  cb_audit db' = cb_audit db → keeps db' s.
Proof.
  intros [Hr Hst Hd (l & Hl & Hm & c & Hc)] Ec Ed Et Ea. split; [|done| |].
  - intros kind id. unfold versions. rewrite Ed. apply Hr.
  - by rewrite Et.
  - exists l. unfold audited_by, audit_entries. rewrite Ea, Ec. split_and!; [done..|]. by exists c.
Qed.

(** ** Writes, as functions of the contents *)

Definition signed_entry (m : AuditMutation) (head : cell_row) : AuditEntry :=
  let entry := unsigned_entry m (cl_audit_sequence head + 1) (cl_audit_hash head) in with_hash entry (sign_entry hmac audit_key entry).
Definition audited (m : AuditMutation) (db : cell_db) : result CellError (unit * cell_db) :=
  match cb_cell db with
  | None => Err CellMismatchError
  | Some head =>
      let e := signed_entry m head in
      match insert_audit (ae_sequence e) (dump_entry e) db with
      | Err x => Err x
      | Ok db1 => does (set_head (ae_sequence e) (ae_entry_hash e)) db1
      end
  end.
Lemma append_computes m : computes (append_audit true m) (audited m).
Proof.
  eapply computes_ext; [eapply computes_bind; [apply computes_ret|intros ?]; eapply computes_bind; [apply computes_query|intros head]; simpl;
    eapply computes_bind; [apply computes_execute|intros ?]; apply computes_execute|].
  intros db. unfold then_, asks, does, audited. destruct (cb_cell db) as [head|]; [|done]. fold (signed_entry m head).
  destruct (insert_audit _ _ db); done.
Qed.

Lemma parse_entries_app rows n json l e : parse_entries rows = Ok l → parse_entry json = Some e → parse_entries (rows ++ [(n, json)]) = Ok (l ++ [e]).
Proof.
  intros Hl He. revert l Hl. induction rows as [|[k x] rows IH]; simpl; intros l Hl; [injection Hl as <-; by rewrite He|].
  destruct (parse_entry x); [|done]. destruct (parse_entries rows) as [l'|]; [|done]. injection Hl as <-. by rewrite (IH l').
Qed.

(** What an audit entry leaves alone. *)
Definition same_content (db db' : cell_db) : Prop :=
  cb_domain db' = cb_domain db ∧ cb_tombstones db' = cb_tombstones db ∧ cb_consumption db' = cb_consumption db ∧ cb_outbox db' = cb_outbox db
  ∧ cb_devices db' = cb_devices db.
(** One entry more on an intact chain. *)
Lemma audited_extends m db l : audited_by db l → plain_time (am_occurred_at m) = true →
  ∃ db' e, audited m db = Ok (tt, db') ∧ audited_by db' (l ++ [e]) ∧ same_content db db'
    ∧ ae_record_kind e = am_record_kind m ∧ ae_record_id e = am_record_id m ∧ ae_action_class e = am_action_class m.
Proof.
  intros (Hl & Hm & c & Hc & Ht & Hv & Hn & Hch) Hp. pose (e := signed_entry m c). unfold audited. rewrite Hc. fold e.
  assert (ae_sequence e = Z.of_nat (length l) + 1) as Hseq by (simpl; lia).
  assert (∀ row, row ∈ cb_audit db → row.1 < ae_sequence e) as Hlt.
  { intros row Hin. assert (row.1 ∈ map ae_sequence l) as Hx by (rewrite <- Hm; by apply list_elem_of_fmap_2).
    apply list_elem_of_fmap in Hx as (y & Hy & Hyin). pose proof (chain_sequence_bounds _ _ _ _ _ _ _ Hch Hyin). lia. }
  assert (insert_audit (ae_sequence e) (dump_entry e) db = Ok (set_audit db (cb_audit db ++ [(ae_sequence e, dump_entry e)]))) as ->.
  { unfold insert_audit. destruct (Z.leb_spec (ae_sequence e) 0); [lia|]. destruct (existsb _ _) eqn:Hex.
    - apply existsb_exists in Hex as (row & Hin & Heq). apply list_elem_of_In, Hlt in Hin. apply Z.eqb_eq in Heq. lia.
    - rewrite py_insert_last; [done|]. intros row Hin. apply Z.ltb_lt. by apply Hlt. }
  unfold does, set_head. simpl cb_cell. rewrite Hc. eexists _, e. split; [done|]. split; [|done]. unfold audited_by, audit_entries. simpl. split_and!.
  - apply parse_entries_app; [done|]. by apply parse_dump_entry.
  - by rewrite !map_app, Hm.
  - eexists. split; [done|]. simpl. split_and!; [done..|rewrite length_app; simpl; lia|]. apply chain_app. exists (cl_audit_hash c). split; [done|].
    simpl. split_and!; [lia|done..].
Qed.

Lemma audited_keeps m db s : keeps db s → plain_time (am_occurred_at m) = true →
  ∃ db', audited m db = Ok (tt, db') ∧ keeps db' s ∧ same_content db db'.
Proof.
  intros Hs Hp. destruct (kp_audit db s Hs) as [l Hl]. destruct (audited_extends m db l Hl Hp) as (db' & e & He & Hl' & Hsame & _).
  exists db'. split_and!; [done| |done]. destruct Hsame as (Hd & Ht & _). split; [|apply Hs| |by eexists].
  - intros kind id. unfold versions. rewrite Hd. apply Hs.
  - rewrite Ht. apply Hs.
Qed.

Lemma of_record_iff kind id row : of_record kind id row = bool_decide (kind = rw_kind row ∧ id = rw_record_id row).
Proof.
  unfold of_record. destruct (Z.eqb_spec (rw_record_id row) id), (bool_decide_reflect (rw_kind row = kind)); case_bool_decide; naive_solver.
Qed.

Definition row_for (db : cell_db) (r : Domain.DomainRecord) (version : Z) : record_row :=
  {| rw_kind := Domain.record_kind r; rw_record_id := Domain.record_id r; rw_version := version;
     rw_envelope := seal tenant_id (urandom db) (dump_domain r) (record_identity (Domain.record_kind r) (Domain.record_id r) version) |}.
Definition mutation_of (r : Domain.DomainRecord) (ctx : TransitionContext) (action : string) : AuditMutation :=
  {| am_record_kind := Domain.record_kind r; am_record_id := uuid_str (Domain.record_id r);
     am_state := if String.eqb action "deleted" then "deleted" else Domain.state r;
     am_action_class := kind_value (Domain.record_kind r) +:+ "." +:+ action; am_source_fingerprint := _fingerprint hmac audit_key r;
     am_actor := tc_actor ctx; am_correlation_id := tc_correlation_id ctx; am_occurred_at := tc_occurred_at ctx |}.
Definition written (r : Domain.DomainRecord) (version : Z) (ctx : TransitionContext) (action : string) (db : cell_db) : result CellError (unit * cell_db) :=
  match insert_version (row_for db r version) db with Err e => Err e | Ok db1 => audited (mutation_of r ctx action) db1 end.
Lemma write_computes r version ctx action : computes (_write hmac audit_key tenant_id urandom true r version ctx action) (written r version ctx action).
Proof.
  eapply computes_ext; [eapply computes_bind; [apply computes_execute|intros ?]; apply append_computes|]. intros db. unfold then_, does, written.
  fold (row_for db r version). by destruct (insert_version _ db).
Qed.

(** The next version goes in; any earlier one is refused. *)
Lemma insert_version_keeps db s r version : keeps db s → stored_as (Domain.record_kind r) (Domain.record_id r) r →
  let l := hs_history s (Domain.record_kind r) (Domain.record_id r) in
  (version = Z.of_nat (length l) + 1 →
     ∃ db', insert_version (row_for db r version) db = Ok db' ∧ keeps db' (put_history s (Domain.record_kind r) (Domain.record_id r) (l ++ [r]))
       ∧ cb_outbox db' = cb_outbox db ∧ cb_consumption db' = cb_consumption db ∧ cb_devices db' = cb_devices db)
  ∧ (1 <= version <= Z.of_nat (length l) → insert_version (row_for db r version) db = Err UniqueViolation).
Proof.
  intros Hs Hr l. pose proof (kp_rows db s Hs (Domain.record_kind r) (Domain.record_id r)) as Hrows. fold l in Hrows.
  assert (insert_version (row_for db r version) db
          = if version <=? 0 then Err CheckViolation
            else if existsb (λ old, rw_version old =? version) (versions (Domain.record_kind r) (Domain.record_id r) db) then Err UniqueViolation
            else Ok (set_domain db (cb_domain db ++ [row_for db r version]))) as ->.
  { unfold insert_version. cbn [row_for rw_version rw_kind rw_record_id]. by rewrite (existsb_filter (of_record _ _)). }
  split; intros Hv.
  - destruct (Z.leb_spec version 0); [lia|]. destruct (existsb _ _) eqn:He.
    { apply existsb_exists in He as (row & Hin & Heq). apply list_elem_of_In in Hin. apply (sealed_version _ _ _ _ _ row Hrows) in Hin.
      apply sealed_length in Hrows. apply Z.eqb_eq in Heq. lia. }
    eexists. split; [done|]. split; [|done]. split; [|intros kind id|apply Hs|].
    + intros kind id. unfold versions, put_history, set_history. simpl. rewrite List.filter_app. simpl. rewrite of_record_iff. simpl.
      change (List.filter (of_record kind id) (cb_domain db)) with (versions kind id db).
      case_bool_decide as Hk; [|rewrite app_nil_r; apply Hs]. destruct Hk as [-> ->]. apply (sealed_snoc _ _ 0 _ l); simpl; [done..|lia|]. apply aead_opens.
    + unfold put_history, set_history. simpl. case_bool_decide as Hk; [|apply Hs]. destruct Hk as [-> ->]. apply Forall_app. split; [apply Hs|].
      by apply Forall_singleton.
    + destruct (kp_audit db s Hs) as (la & Hl & Hm & c & Hc). exists la. split_and!; [done..|]. by exists c.
  - destruct (Z.leb_spec version 0); [lia|]. destruct (existsb _ _) eqn:He; [done|]. exfalso.
    assert (∀ rows l' n, sealed_rows (Domain.record_kind r) (Domain.record_id r) n rows l' → n < version <= n + Z.of_nat (length l') →
      existsb (λ old, rw_version old =? version) rows = true) as Hfind.
    { induction rows as [|row rows IH]; intros [|y l'] n; simpl; try done; [lia|]. intros (_ & _ & Hrv & _ & Hrest) Hb.
      destruct (Z.eqb_spec (rw_version row) version); [done|]. simpl. apply (IH l' (n + 1) Hrest). lia. }
    rewrite (Hfind _ _ _ Hrows) in He by lia. done.
Qed.

(** ** The operations implement the abstract store *)

Definition created (r : Domain.DomainRecord) (ctx : TransitionContext) (db : cell_db) : result CellError (unit * cell_db) :=
  if bool_decide (is_Some (cb_tombstones db !! (kind_value (Domain.record_kind r), Domain.record_id r)))
  then Err (CellValueError "deleted record identity cannot be reused") else written r 1 ctx "created" db.
Lemma create_computes r ctx : computes (create true r ctx) (created r ctx).
Proof.
  eapply computes_ext; [eapply computes_bind; [apply computes_ret|intros ?]; apply computes_block; eapply computes_bind; [apply computes_query|intros ?];
    apply write_computes|].
  intros db. unfold then_, asks, created, raise_if. by destruct (bool_decide _).
Qed.
Lemma cell_required_computes kind id :
  computes (required tenant_id true kind id)
    (λ db, match read_row tenant_id kind id db with
           | Ok (Some r) => Ok (r, db)
           | Ok None => Err (CellRecordNotFoundError kind id)
           | Err e => Err e
           end).
Proof.
  eapply computes_ext.
  - eapply computes_bind; [eapply computes_bind; [apply computes_ret|intros ?]; apply computes_query|].
    intros o. apply (computes_ext _ (λ db, match o with Some r => Ok (r, db) | None => Err (CellRecordNotFoundError kind id) end)); [|done].
    destruct o; [apply computes_ret|apply computes_throw].
  - intros db. unfold then_, asks. by destruct (read_row tenant_id kind id db) as [[r|]|e].
Qed.
Definition transitioned (kind : RecordKind) (id : uuid) (new_state : string) (ctx : TransitionContext) (db : cell_db) : result CellError (unit * cell_db) :=
  match read_row tenant_id kind id db with
  | Ok (Some r) =>
      match revalidated (Domain.with_state r new_state) with
      | Ok changed => written changed (max_version kind id db + 1) ctx "transitioned" db
      | Err e => Err e
      end
  | Ok None => Err (CellRecordNotFoundError kind id)
  | Err e => Err e
  end.
Lemma transition_computes kind id new_state ctx : computes (transition true kind id new_state ctx) (transitioned kind id new_state ctx).
Proof.
  eapply computes_ext; [eapply computes_bind; [apply computes_ret|intros ?]; apply computes_block; eapply computes_bind; [apply cell_required_computes|intros r];
    eapply computes_bind; [apply computes_query|intros n]; eapply computes_bind; [apply computes_query|intros changed]; apply write_computes|].
  intros db. unfold then_, asks, transitioned. destruct (read_row tenant_id kind id db) as [[r|]|e]; [|done..].
  by destruct (revalidated _).
Qed.
Definition tombstone_of (kind : RecordKind) (id : uuid) (r : Domain.DomainRecord) (ctx : TransitionContext) (db : cell_db) : string :=
  seal tenant_id (urandom db) (dump_tombstone {| to_record_id := id; to_record_kind := kind; to_deleted_at := tc_occurred_at ctx;
    to_source_fingerprint := _fingerprint hmac audit_key r |}) ["tombstone"; kind_value kind; uuid_str id].
Definition deleted (kind : RecordKind) (id : uuid) (ctx : TransitionContext) (db : cell_db) : result CellError (unit * cell_db) :=
  match read_row tenant_id kind id db with
  | Ok (Some r) =>
      match insert_tombstone kind id (tombstone_of kind id r ctx db) db with
      | Err e => Err e
      | Ok db1 => match delete_versions kind id db1 with Err e => Err e | Ok db2 => audited (mutation_of r ctx "deleted") db2 end
      end
  | Ok None => Err (CellRecordNotFoundError kind id)
  | Err e => Err e
  end.
Lemma delete_computes kind id ctx : computes (delete true kind id ctx) (deleted kind id ctx).
Proof.
  eapply computes_ext; [eapply computes_bind; [apply computes_ret|intros ?]; apply computes_block; eapply computes_bind; [apply cell_required_computes|intros r];
    eapply computes_bind; [apply computes_execute|intros ?]; eapply computes_bind; [apply computes_execute|intros ?]; apply append_computes|].
  intros db. unfold then_, does, deleted. destruct (read_row tenant_id kind id db) as [[r|]|e]; [|done..]. fold (tombstone_of kind id r ctx db).
  destruct (insert_tombstone _ _ _ db) as [db1|]; [|done]. by destruct (delete_versions _ _ db1).
Qed.

(** One audit entry more, for the record. *)
Definition entry_for (op : domain_op) (db db' : cell_db) : Prop :=
  ∃ l e, audited_by db l ∧ audited_by db' (l ++ [e]) ∧ ae_record_kind e = (op_entry op).1.1 ∧ ae_record_id e = uuid_str (op_entry op).1.2
    ∧ ae_action_class e = kind_value (op_entry op).1.1 +:+ "." +:+ (op_entry op).2.
Definition other_tables (db db' : cell_db) : Prop :=
  cb_outbox db' = cb_outbox db ∧ cb_consumption db' = cb_consumption db ∧ cb_devices db' = cb_devices db.
Definition op_context (op : domain_op) : TransitionContext :=
  match op with OpCreate _ ctx | OpTransition _ _ _ ctx | OpDeleteRecord _ _ ctx => ctx end.
Definition op_fine (op : domain_op) : bool := op_valid op && plain_time (tc_occurred_at (op_context op)).
Definition outcome_of (op : domain_op) : cell_db → result CellError (unit * cell_db) :=
  match op with
  | OpCreate r ctx => created r ctx
  | OpTransition kind id new_state ctx => transitioned kind id new_state ctx
  | OpDeleteRecord kind id ctx => deleted kind id ctx
  end.
Definition step_to (op : domain_op) (db : cell_db) (s : histories) : Prop :=
  match cell_step op s with
  | Some s' => ∃ db', outcome_of op db = Ok (tt, db') ∧ keeps db' s' ∧ entry_for op db db' ∧ other_tables db db'
  | None => ∃ e, outcome_of op db = Err e
  end.

Lemma written_keeps db s r version ctx action : keeps db s → stored_as (Domain.record_kind r) (Domain.record_id r) r →
  plain_time (tc_occurred_at ctx) = true → String.eqb action "deleted" = false →
  let l := hs_history s (Domain.record_kind r) (Domain.record_id r) in version = Z.of_nat (length l) + 1 →
  ∃ db', written r version ctx action db = Ok (tt, db') ∧ keeps db' (put_history s (Domain.record_kind r) (Domain.record_id r) (l ++ [r]))
    ∧ other_tables db db' ∧ ∃ la e, audited_by db la ∧ audited_by db' (la ++ [e]) ∧ ae_record_kind e = Domain.record_kind r
        ∧ ae_record_id e = uuid_str (Domain.record_id r) ∧ ae_action_class e = kind_value (Domain.record_kind r) +:+ "." +:+ action.
Proof.
  intros Hs Hr Hp Ha l Hv. destruct (insert_version_keeps db s r version Hs Hr) as [Hins _]. destruct (Hins Hv) as (db1 & He & Hk1 & Ho1 & Hc1 & Hd1).
  destruct (kp_audit db s Hs) as [la Hla]. assert (audited_by db1 la) as Hla1.
  { unfold insert_version in He. repeat case_match; simplify_eq. done. }
  destruct (audited_extends (mutation_of r ctx action) db1 la Hla1 Hp) as (db' & e & Hau & Hla' & Hsame & He1 & He2 & He3).
  unfold written. rewrite He. exists db'. destruct Hsame as (Hd & Ht & Hc & Ho & Hdev). split_and!; [done| | |by exists la, e].
  - split; [|apply Hk1| |by eexists]; [intros kind id; unfold versions; rewrite Hd; apply Hk1|rewrite Ht; apply Hk1].
  - unfold other_tables. split_and!; congruence.
Qed.

Lemma create_steps r ctx db s : keeps db s → op_fine (OpCreate r ctx) = true → step_to (OpCreate r ctx) db s.
Proof.
  intros Hs Hf. unfold op_fine in Hf. simpl in Hf. apply andb_true_iff in Hf as [[Hv Hpl]%andb_true_iff Hp]. unfold step_to. simpl. unfold created.
  assert (is_Some (cb_tombstones db !! (kind_value (Domain.record_kind r), Domain.record_id r))
          ↔ (kind_value (Domain.record_kind r), Domain.record_id r) ∈ hs_deleted s) as Hiff by (by rewrite <- elem_of_dom, (kp_deleted db s Hs)).
  rewrite (bool_decide_ext _ _ Hiff). case_bool_decide; [by eexists|].
  assert (stored_as (Domain.record_kind r) (Domain.record_id r) r) as Hst by done.
  destruct (hs_history s _ _) as [|x l] eqn:Hh.
  - destruct (written_keeps db s r 1 ctx "created" Hs Hst Hp eq_refl) as (db' & -> & Hk & Ho & He); [by rewrite Hh|].
    rewrite Hh in Hk. by exists db'.
  - unfold written. destruct (insert_version_keeps db s r 1 Hs Hst) as [_ Hdup]. rewrite Hdup by (rewrite Hh; simpl; lia). by eexists.
Qed.
Lemma transition_steps kind id new_state ctx db s : keeps db s → op_fine (OpTransition kind id new_state ctx) = true →
  step_to (OpTransition kind id new_state ctx) db s.
Proof.
  intros Hs Hp. unfold op_fine in Hp. simpl in Hp. unfold step_to. simpl. unfold transitioned. rewrite (read_keeps db s kind id Hs).
  destruct (last (hs_history s kind id)) as [r|] eqn:Hl; [|by eexists]. pose proof (kp_stored db s Hs kind id) as Hst. rewrite Forall_forall in Hst.
  destruct (Hst r (last_Some_elem_of _ _ Hl)) as (<- & <- & Hpl & Hv). unfold revalidated. rewrite parse_dump_domain, with_state_valid by done.
  destruct (Domain.filled new_state) eqn:Hfill; [|by eexists].
  assert (hs_history s (Domain.record_kind r) (Domain.record_id r) ≠ []) as Hne by (intros Hn; by rewrite Hn in Hl). rewrite (max_keeps db s) by done.
  destruct (written_keeps db s (Domain.with_state r new_state) (Z.of_nat (length (hs_history s (Domain.record_kind r) (Domain.record_id r))) + 1) ctx
    "transitioned" Hs ltac:(split_and!; [done..|by rewrite with_state_valid]) Hp eq_refl eq_refl) as (db' & -> & Hk & Ho & He). by exists db'.
Qed.
Lemma delete_steps kind id ctx db s : keeps db s → op_fine (OpDeleteRecord kind id ctx) = true → step_to (OpDeleteRecord kind id ctx) db s.
Proof.
  intros Hs Hp. unfold op_fine in Hp. simpl in Hp. unfold step_to. simpl. unfold deleted. rewrite (read_keeps db s kind id Hs).
  destruct (last (hs_history s kind id)) as [r|] eqn:Hl; [|by eexists]. pose proof (kp_stored db s Hs kind id) as Hst. rewrite Forall_forall in Hst.
  destruct (Hst r (last_Some_elem_of _ _ Hl)) as (Hrk & Hri & _ & _). unfold insert_tombstone.
  pose proof (elem_of_dom (cb_tombstones db) (kind_value kind, id)) as Hdom. rewrite (kp_deleted db s Hs) in Hdom.
  destruct (cb_tombstones db !! (kind_value kind, id)) as [t|] eqn:Ht; [rewrite bool_decide_true; [by eexists|]; by apply Hdom|].
  rewrite bool_decide_false by (intros Hin; apply Hdom in Hin; by destruct Hin). simpl.
  set (db2 := set_domain _ _). destruct (kp_audit db s Hs) as [la Hla]. assert (audited_by db2 la) as Hla2 by done.
  destruct (audited_extends (mutation_of r ctx "deleted") db2 la Hla2 Hp) as (db' & e & -> & Hla' & (Hd & Htm & Hc & Ho & Hdev) & He1 & He2 & He3).
  exists db'. split_and!; [done| | |by unfold other_tables; rewrite Ho, Hc, Hdev].
  - split; [intros kind' id'| |rewrite Htm|by eexists].
    + unfold versions. rewrite Hd. simpl. rewrite filter_filter. unfold set_history. case_bool_decide as Hk.
      * destruct Hk as [-> ->]. rewrite (filter_none _ (cb_domain db)); [done|]. intros row. by destruct (of_record kind id row).
      * rewrite (filter_ext _ (of_record kind' id')); [apply Hs|]. intros row. rewrite !of_record_iff. do 2 case_bool_decide; naive_solver.
    + intros kind' id'. unfold set_history. simpl. case_bool_decide; [constructor|apply Hs].
    + simpl. rewrite dom_insert_L. by rewrite (kp_deleted db s Hs).
  - exists la, e. simpl in *. rewrite Hrk, Hri in *. split_and!; done.
Qed.
Lemma op_steps op db s : keeps db s → op_fine op = true → step_to op db s.
Proof. destruct op; [apply create_steps|apply transition_steps|apply delete_steps]. Qed.

(** ** Units on an intact cell *)

Lemma unit_runs {A} (body : M A) f st s : computes body f → resting st → keeps (contents st) s →
  unit_of_work body st = match f (contents st) with
                         | Ok (a, db) => ({| ps_connection := Connection db db false; ps_active := false |}, Ok a)
                         | Err e => (st, Err e)
                         end.
Proof.
  intros Hb (Ha & Hin & Hd) Hs. destruct st as [[l d b] act]. unfold contents in *. simpl in *. subst. unfold Cell.unit_of_work. simpl.
  destruct (verify_keeps d s Hs) as [Hv Hc].
  rewrite (block_outermost _ (then_ (asks (check_cell tenant_id)) (λ _, then_ (asks (_verify_audit_chain hmac audit_key)) (λ _, f)))); [| |done|done].
  - unfold then_, asks. simpl. rewrite Hc. destruct (_verify_audit_chain hmac audit_key d); [|done]. by destruct (f d) as [[? ?]|?].
  - eapply computes_bind; [apply computes_query|intros ?]. eapply computes_bind; [apply computes_query|intros ?]. done.
Qed.

Definition cell_op (op : domain_op) : M unit :=
  match op with
  | OpCreate r ctx => create true r ctx
  | OpTransition kind id new_state ctx => transition true kind id new_state ctx
  | OpDeleteRecord kind id ctx => delete true kind id ctx
  end.
Lemma op_computes op : computes (cell_op op) (outcome_of op).
Proof. destruct op; [apply create_computes|apply transition_computes|apply delete_computes]. Qed.
Definition cell_perform (op : domain_op) : comp PostgresStateStore CellError unit := unit_of_work (cell_op op).
Definition cell_run (ops : list domain_op) (st : PostgresStateStore) : PostgresStateStore := foldl (λ st op, (cell_perform op st).1) st ops.
Definition histories_run (ops : list domain_op) (s : histories) : histories := foldl (λ s op, default s (cell_step op s)) s ops.

Definition intact (st : PostgresStateStore) (s : histories) : Prop := resting st ∧ keeps (contents st) s.
Lemma perform_intact op st s : intact st s → op_fine op = true →
  match cell_step op s with
  | Some s' => (cell_perform op st).2 = Ok tt ∧ intact (cell_perform op st).1 s' ∧ entry_for op (contents st) (contents (cell_perform op st).1)
  | None => ∃ e, cell_perform op st = (st, Err e)
  end.
Proof.
  intros [Hr Hs] Hf. unfold cell_perform. rewrite (unit_runs _ _ st s (op_computes op) Hr Hs). pose proof (op_steps op _ s Hs Hf) as Hstep.
  unfold step_to in Hstep. destruct (cell_step op s) as [s'|].
  - destruct Hstep as (db' & -> & Hk & He & _). done.
  - destruct Hstep as [e ->]. by exists e.
Qed.
Lemma run_intact ops st s : intact st s → forallb op_fine ops = true → intact (cell_run ops st) (histories_run ops s).
Proof.
  revert st s. induction ops as [|op ops IH]; intros st s Hi Hf; [done|]. simpl in Hf. apply andb_true_iff in Hf as [Hop Hf].
  pose proof (perform_intact op st s Hi Hop) as Hp. unfold cell_run, histories_run. simpl. apply IH; [|done].
  destruct (cell_step op s) as [s'|]; simpl; [apply Hp|]. by destruct Hp as [e ->].
Qed.

(** A cell as [provision] leaves it and [connect] finds it. *)
Definition provisioned (st : PostgresStateStore) : Prop := ∃ c c', live c = empty_cell ∧ live c = durable c ∧ in_transaction c = false
  ∧ provision hmac audit_key tenant_id c = (c', Ok tt) ∧ connect hmac audit_key tenant_id c' = Ok st.
Lemma provisioned_intact st : provisioned st → intact st no_histories.
Proof.
  intros (c & c' & He & Hd & Hin & Hp & Hc). destruct (provision_run hmac audit_key tenant_id c He Hd Hin) as [Hp1 Hc1]. cbn [ps_connection] in Hp1, Hc1.
  rewrite Hp in Hp1. injection Hp1 as ->. rewrite Hc in Hc1. injection Hc1 as ->. split; [done|]. split; try done.
  exists []. split_and!; [done..|]. eexists. split; [done|]. done.
Qed.

(** The cell is a store of version histories: after any operations it reads, for every kind
    and identifier, the last version the abstract store has; the next operation succeeds
    exactly when the abstract one does, then adds exactly one signed audit entry for its
    record, and otherwise raises and changes nothing. *)
Theorem cell_keeps_histories st ops op : provisioned st → forallb op_fine ops = true → op_fine op = true →
  let before := cell_run ops st in
  let s := histories_run ops no_histories in
  (∀ kind id, unit_of_work (read tenant_id true kind id) before = (before, Ok (last (hs_history s kind id))))
  ∧ match cell_step op s with
    | Some s' => (cell_perform op before).2 = Ok tt ∧ entry_for op (contents before) (contents (cell_perform op before).1)
    | None => ∃ e, cell_perform op before = (before, Err e)
    end.
Proof.
  intros Hst Hv Hop before s. pose proof (run_intact ops st _ (provisioned_intact st Hst) Hv) as Hi. fold before s in Hi.
  pose proof (perform_intact op before s Hi Hop) as Hp. split.
  - intros kind id. destruct Hi as [Hr Hs]. rewrite (unit_runs _ (λ db, match read_row tenant_id kind id db with Ok a => Ok (a, db) | Err e => Err e end) before s);
      [| |done|done].
    + rewrite (read_keeps _ s) by done. destruct Hr as (Ha & Hin & Hd). destruct before as [[l d b] act]. unfold contents. simpl in *. by subst.
    + eapply computes_ext; [eapply computes_bind; [apply computes_ret|intros ?]; apply computes_query|]. intros db. unfold then_, asks. done.
  - destruct (cell_step op s); [|done]. by destruct Hp as (? & _ & ?).
Qed.

(** ** Everything a unit does keeps the cell intact *)

Definition whole (db : cell_db) : Prop := ∃ s, keeps db s.
Definition sound {A : Type} (m : M A) : Prop := ∀ c, in_transaction c = true → whole (live c) →
  in_transaction (m c).1 = true ∧ durable (m c).1 = durable c ∧ (is_ok (m c).2 = true → whole (live (m c).1)).
Lemma sound_value {A} (r : result CellError A) : sound (λ c, (c, r)).
Proof. by intros c Hc Hw. Qed.
Lemma sound_query {A} (f : cell_db → result CellError A) : sound (query f).
Proof. by intros c Hc Hw. Qed.
Lemma sound_execute f : (∀ db db', f db = Ok db' → cb_cell db' = cb_cell db ∧ cb_domain db' = cb_domain db ∧ cb_tombstones db' = cb_tombstones db
  ∧ cb_audit db' = cb_audit db) → sound (execute f).
Proof.
  intros Hf c Hc [s Hs]. unfold execute. destruct (f (live c)) as [db'|e] eqn:He; [|done]. split_and!; [done..|]. intros _. destruct (Hf _ _ He) as (? & ? & ? & ?).
  exists s. by eapply keeps_frame.
Qed.
Lemma intact_bind {A B} (m : M A) (k : A → M B) : sound m → (∀ a, sound (k a)) → sound (m ≫= k).
Proof.
  intros Hm Hk c Hc Hw. destruct (Hm c Hc Hw) as (Hin & Hd & Hok). rewrite bind_run. destruct (m c) as [c' [a|e]]; simpl in *; [|done].
  destruct (Hk a c' Hin (Hok eq_refl)) as (? & ? & ?). split_and!; [done|congruence|done].
Qed.
Lemma sound_block {A} (m : M A) : sound m → sound (domain_transaction m).
Proof.
  intros Hm c Hc Hw. destruct (Hm c Hc Hw) as (Hin & Hd & Hok). unfold domain_transaction. rewrite Hc. by destruct (m c) as [c' [a|e]].
Qed.
(** What a block raises is caught on the contents before it. *)
Lemma sound_caught {A B} (m : M A) (k : A → M B) h : sound m → (∀ a, ∃ b, k a = mret b) → (∀ e, sound (h e)) → sound (catch (domain_transaction m ≫= k) h).
Proof.
  intros Hm Hk Hh c Hc Hw. destruct (Hm c Hc Hw) as (Hin & Hd & Hok). unfold catch. rewrite bind_run. unfold domain_transaction. rewrite Hc.
  destruct (m c) as [c' [a|e]]; simpl in *; [destruct (Hk a) as [b ->]; done|].
  destruct (Hh e (rollback_to (live c) c') Hin Hw) as (? & Hdur & ?). split_and!; [done|by rewrite Hdur|done].
Qed.
Lemma sound_computed {A} (m : M A) f : computes m f → (∀ db a db', whole db → f db = Ok (a, db') → whole db') → sound m.
Proof.
  intros Hm Hf c Hc Hw. specialize (Hm c Hc). destruct (f (live c)) as [[a db]|e] eqn:He.
  - rewrite Hm. split_and!; [done..|]. intros _. by eapply Hf.
  - destruct Hm as (c' & -> & ? & ?). done.
Qed.
Lemma sound_op op : op_fine op = true → sound (cell_op op).
Proof.
  intros Hf. eapply sound_computed; [apply op_computes|]. intros db u db' [s Hs] He. pose proof (op_steps op db s Hs Hf) as Hst. unfold step_to in Hst.
  destruct (cell_step op s) as [s'|]; [|destruct Hst as [e Hst]; congruence]. destruct Hst as (db1 & Heq & Hk & _). exists s'. congruence.
Qed.
Lemma sound_create r ctx : op_fine (OpCreate r ctx) = true → sound (create true r ctx).
Proof. apply (sound_op (OpCreate r ctx)). Qed.
Lemma sound_transition kind id st ctx : plain_time (tc_occurred_at ctx) = true → sound (transition true kind id st ctx).
Proof. apply (sound_op (OpTransition kind id st ctx)). Qed.
Lemma sound_delete kind id ctx : plain_time (tc_occurred_at ctx) = true → sound (delete true kind id ctx).
Proof. apply (sound_op (OpDeleteRecord kind id ctx)). Qed.
Lemma sound_sealing_job j f : f = insert_job ∨ f = update_job → sound (sealing_job tenant_id urandom j f).
Proof. intros Hf. apply sound_execute. intros db db'. destruct Hf as [-> | ->]; unfold insert_job, update_job; repeat case_match; intros; simplify_eq; done. Qed.

Context (uuid5 : uuid → string → uuid) (parse_device : string → option Device).
Context (sha256 : string → string) (dump_datetime : Z → string).
Context (public_key_ok : string → bool) (ed25519_verify : string → string → string → bool).
Hint Resolve sound_value sound_query intact_bind sound_block sound_create sound_transition sound_delete sound_sealing_job : sound.
Ltac soundly := repeat (auto with sound; lazymatch goal with
  | |- sound (_ ≫= _) => apply intact_bind; [|intros ?]
  | |- sound (domain_transaction _) => apply sound_block
  | |- sound (throw_if _ _) => apply sound_value
  | |- sound (throw _) => apply sound_value
  | |- sound (mret _) => apply sound_value
  | |- sound (match _ with _ => _ end) => case_match
  end).

Lemma sound_save j ctx : plain_time (tc_occurred_at ctx) = true → sound (_save hmac audit_key tenant_id urandom true j ctx).
Proof. intros Hp. unfold _save. soundly. Qed.
Lemma sound_read_job id : sound (read_job tenant_id true id).
Proof. unfold read_job, require_active. soundly. Qed.
Lemma sound_read kind id : sound (read tenant_id true kind id).
Proof. unfold read, require_active. soundly. Qed.
Hint Resolve sound_save sound_read_job sound_read : sound.
Lemma sound_claim token ctx duration : plain_time (tc_occurred_at ctx) = true → sound (claim hmac audit_key tenant_id urandom true token ctx duration).
Proof.
  intros Hp. unfold claim, require_active, _require_aware. soundly. induction a2 as [|id ids IH]; cbn [claim_first]; soundly.
Qed.
Lemma sound_complete id token reference ctx : plain_time (tc_occurred_at ctx) = true → sound (complete hmac audit_key tenant_id urandom true id token reference ctx).
Proof. intros Hp. unfold complete, _require_aware. soundly. Qed.
Lemma sound_cancel id token ctx : plain_time (tc_occurred_at ctx) = true → sound (cancel_claim hmac audit_key tenant_id urandom true id token ctx).
Proof. intros Hp. unfold cancel_claim. soundly. Qed.
Lemma sound_reconcile id success reference ctx : plain_time (tc_occurred_at ctx) = true →
  sound (reconcile hmac audit_key tenant_id urandom true id success reference ctx).
Proof. intros Hp. unfold reconcile. soundly. Qed.
Lemma sound_recover ctx : plain_time (tc_occurred_at ctx) = true → sound (recover hmac audit_key tenant_id urandom true ctx).
Proof.
  intros Hp. unfold recover, require_active, _require_aware. soundly. generalize 0 at 1. induction a1 as [|id ids IH]; intros n; cbn [recover_each]; soundly.
Qed.
Hint Resolve sound_claim sound_cancel : sound.
Lemma sound_insert id fp record : sound (insert hmac audit_key tenant_id urandom uuid5 parse_device true id fp record).
Proof.
  unfold insert, require_active, parsed. soundly. apply sound_caught; [|by intros ?; eexists|intros e; soundly]. soundly.
  apply sound_execute. intros db db'. unfold insert_device. repeat case_match; intros; simplify_eq; done.
Qed.
Lemma sound_revoke id record : sound (revoke hmac audit_key tenant_id urandom uuid5 parse_device true id record).
Proof.
  unfold revoke, load, require_active, parsed. soundly. apply sound_execute. intros db db'. unfold update_device. by intros; simplify_eq.
Qed.

#[local] Instance registered : DevicePersistence cell_db := cell_devices hmac audit_key tenant_id urandom uuid5 parse_device.
Abbreviation approve := (approve parse_device sha256 dump_datetime public_key_ok ed25519_verify).
Abbreviation validate_approval := (validate_approval parse_device sha256 dump_datetime public_key_ok ed25519_verify).
Abbreviation enqueue_body := (enqueue_body hmac audit_key tenant_id urandom uuid5 parse_device sha256 dump_datetime public_key_ok ed25519_verify).
Abbreviation claim_rounds := (claim_rounds hmac audit_key tenant_id urandom uuid5 parse_device sha256 dump_datetime public_key_ok ed25519_verify).
Abbreviation claim_body := (claim_body hmac audit_key tenant_id urandom uuid5 parse_device sha256 dump_datetime public_key_ok ed25519_verify).
Abbreviation obey := (obey hmac audit_key tenant_id urandom uuid5 parse_device sha256 dump_datetime public_key_ok ed25519_verify).
Abbreviation cell_history := (cell_history hmac audit_key tenant_id urandom uuid5 parse_device sha256 dump_datetime public_key_ok ed25519_verify).
Abbreviation approve_and_enqueue_calendar :=
  (approve_and_enqueue_calendar hmac audit_key tenant_id urandom uuid5 parse_device sha256 dump_datetime public_key_ok ed25519_verify).
Abbreviation claim_verified_calendar :=
  (claim_verified_calendar hmac audit_key tenant_id urandom uuid5 parse_device sha256 dump_datetime public_key_ok ed25519_verify).

(** An approval that returns was valid, and only claims its keys. *)
Lemma cell_approve_run now p a c c' st : in_transaction c = true →
  authorized (approve now (registry (live c)) p a default_approval_matrix) c = (c', Ok st) →
  pr_state p = PROPOSED ∧ validate_approval now (registry (live c)) p a default_approval_matrix = Ok tt ∧ ∃ keys, c' = keyed c keys.
Proof.
  intros Hc. unfold authorized, Authority.approve, throw_if, raise_if, checked, consume_or. rewrite !bind_run.
  destruct (bool_decide (pr_state p = PROPOSED)) eqn:Hst; [|done]. simpl negb. cbv iota. destruct (bool_decide (ap_kind a = ResetRequest)); [done|].
  destruct (Authority.validate_approval _ _ _ _ _ _ _ _ _ _) as [[]|e]; [|done]. rewrite (cell_consume_nested _ c Hc). destruct (claimable _ _); [|done].
  intros [= <- _]. apply bool_decide_eq_true in Hst. split_and!; [done..|]. by eexists.
Qed.
Lemma keeps_keyed c keys s : keeps (live c) s → keeps (live (keyed c keys)) s.
Proof. intros Hs. by eapply keeps_frame. Qed.
Lemma sound_approve now p a : sound (λ c, authorized (approve now (registry (live c)) p a default_approval_matrix) c).
Proof.
  intros c Hc [s Hs]. unfold authorized, Authority.approve, throw_if, raise_if, checked, consume_or. rewrite !bind_run.
  destruct (bool_decide (pr_state p = PROPOSED)); [|done]. simpl negb. cbv iota. destruct (bool_decide (ap_kind a = ResetRequest)); [done|].
  destruct (Authority.validate_approval _ _ _ _ _ _ _ _ _ _) as [[]|e]; [|done]. rewrite (cell_consume_nested _ c Hc). destruct (claimable _ _); [|done].
  split_and!; [done..|]. intros _. exists s. by apply keeps_keyed.
Qed.
Lemma queued_execution_fine j ctx : plain_time (tc_occurred_at ctx) = true → op_fine (OpCreate (queued_execution j ctx) ctx) = true.
Proof. intros Hp. apply andb_true_iff. split; [|done]. apply andb_true_iff. split; [done|]. apply andb_true_iff. done. Qed.
Lemma sound_enqueue_body now at_ a : sound (enqueue_body now at_ a).
Proof.
  unfold Cell.enqueue_body, enqueue, require_active, as_result. soundly. apply sound_approve.
Qed.
Lemma sound_claim_body at_ clock tokens : sound (claim_body at_ clock tokens).
Proof.
  unfold Cell.claim_body. soundly. generalize 0%nat at 1. induction a as [|fuel IH]; intros round; cbn [Cell.claim_rounds]; soundly.
Qed.

Lemma unit_whole {A} (body : M A) st : sound body → resting st → whole (contents st) → resting (unit_of_work body st).1 ∧ whole (contents (unit_of_work body st).1).
Proof.
  intros Hb (Ha & Hin & Hd) Hw. destruct st as [[l d b] act]. unfold contents in *. simpl in *. subst. unfold Cell.unit_of_work. simpl.
  assert (sound (query (check_cell tenant_id) ≫= λ _, query (_verify_audit_chain hmac audit_key) ≫= λ _, body)) as Hall by soundly.
  match type of Hall with sound ?m => set (m0 := m) in * end. unfold domain_transaction. simpl.
  change (begin_immediate (Connection d d false)) with (Connection d d true). destruct (Hall (Connection d d true) eq_refl Hw) as (_ & Hdur & Hok).
  destruct (m0 (Connection d d true)) as [c' [x|e]]; simpl in *; [split; [done|by apply Hok]|]. unfold rollback. by rewrite Hdur.
Qed.

(** Commands as the service gives them: valid records and times with a fixed offset. *)
Definition fine_command (cmd : command) : bool :=
  match cmd with
  | CreateRecord r ctx => op_fine (OpCreate r ctx)
  | Complete _ _ _ ctx | CancelClaim _ _ ctx | Recover ctx | Reconcile _ _ _ ctx | TransitionRecord _ _ _ ctx | DeleteRecord _ _ ctx =>
      plain_time (tc_occurred_at ctx)
  | _ => true
  end.
Lemma perform_whole cmd st : fine_command cmd = true → resting st → whole (contents st) →
  resting (obey cmd st).1 ∧ whole (contents (obey cmd st).1).
Proof.
  intros Hf Hr Hw. destruct cmd; unfold CellSpec.obey, answering, Cell.approve_and_enqueue_calendar, Cell.claim_verified_calendar; simpl in *;
    apply unit_whole; try done.
  - apply sound_enqueue_body.
  - apply sound_claim_body.
  - by apply sound_complete.
  - by apply sound_cancel.
  - by apply sound_recover.
  - by apply sound_reconcile.
  - by apply sound_create.
  - by apply sound_transition.
  - by apply sound_delete.
  - apply sound_insert.
  - apply sound_revoke.
Qed.
(** Histories of such commands. *)
Inductive service_history : list answer → PostgresStateStore → Prop :=
| service_provisioned st : provisioned st → service_history [] st
| service_command trace st cmd : service_history trace st → fine_command cmd = true → service_history (trace ++ [(obey cmd st).2]) (obey cmd st).1.
Lemma service_is_history trace st : service_history trace st → cell_history trace st.
Proof. induction 1 as [st (c & c' & ? & ? & ? & ? & ?)|]; by econstructor. Qed.
Lemma service_whole trace st : service_history trace st → resting st ∧ whole (contents st).
Proof.
  induction 1 as [st [Hr Hk]%provisioned_intact|trace st cmd _ [Hr Hw] Hf]; [split; [done|by eexists]|by apply perform_whole].
Qed.

(** ** An approved job reaches a worker *)

Lemma op_run op c c' u s : in_transaction c = true → keeps (live c) s → op_fine op = true → cell_op op c = (c', Ok u) →
  ∃ s', cell_step op s = Some s' ∧ keeps (live c') s' ∧ other_tables (live c) (live c') ∧ in_transaction c' = true ∧ durable c' = durable c.
Proof.
  intros Hc Hs Hf Hrun. pose proof (op_computes op c Hc) as Hcomp. pose proof (op_steps op (live c) s Hs Hf) as Hst. unfold step_to in Hst.
  destruct (cell_step op s) as [s'|].
  - destruct Hst as (db' & He & Hk & _ & Ho). rewrite He in Hcomp. rewrite Hrun in Hcomp. injection Hcomp as -> _. by exists s'.
  - destruct Hst as [e He]. rewrite He in Hcomp. destruct Hcomp as (c1 & Heq & _). rewrite Hrun in Heq. done.
Qed.
Lemma op_runs op c s s' : in_transaction c = true → keeps (live c) s → op_fine op = true → cell_step op s = Some s' →
  ∃ db, cell_op op c = (Connection db (durable c) true, Ok tt) ∧ keeps db s' ∧ other_tables (live c) db.
Proof.
  intros Hc Hs Hf Hstep. pose proof (op_computes op c Hc) as Hcomp. pose proof (op_steps op (live c) s Hs Hf) as Hst. unfold step_to in Hst.
  rewrite Hstep in Hst. destruct Hst as (db' & He & Hk & _ & Ho). rewrite He in Hcomp. by exists db'.
Qed.

(** What an approval that returns leaves: the proposal approved, the execution recorded. *)
Record prepared (now : Z) (a : Approval) (db : cell_db) (s : histories) (db' : cell_db) (job : PendingCalendarOperation) : Prop := {
  pp_proposal : ∃ r p, calendar_proposal (Some r) = Ok (pj_proposal_id job, p) ∧ pj_payload job = pr_payload p ∧ pr_proposal_id p = uuid_str (pj_proposal_id job)
    ∧ validate_approval now (registry db) p a default_approval_matrix = Ok tt
    ∧ ∃ s', keeps db' s' ∧ last (hs_history s' PROPOSAL (pj_proposal_id job)) = Some (Domain.with_state r "approved")
        ∧ is_Some (last (hs_history s' EXECUTION (pj_operation_id job)));
  pp_approval : pj_approval job = a ∧ pj_authorized_until job = fa_expires_at (ap_fact a) ∧ pj_status job = queued;
  pp_devices : cb_devices db' = cb_devices db;
}.
Lemma calendar_proposal_found found id p : calendar_proposal found = Ok (id, p) → ∃ r, found = Some r ∧ Domain.record_id r = id ∧ Domain.record_kind r = PROPOSAL
  ∧ pr_proposal_id p = uuid_str id ∧ pr_action_class p = CALENDAR_APPLY.
Proof.
  unfold calendar_proposal. destruct found as [r|]; [|done]. unfold Domain.record_kind. destruct (Domain.dr_variant r) eqn:Hv; try done. destruct (negb _); [done|].
  destruct (proposal_state_of _); [|done]. intros [= <- <-]. exists r. by rewrite Hv.
Qed.
Lemma put_history_same s kind id l : hs_history (put_history s kind id l) kind id = l.
Proof. unfold put_history, set_history. simpl. by rewrite bool_decide_true. Qed.
Lemma put_history_other s kind id l kind' id' : kind' ≠ kind → hs_history (put_history s kind id l) kind' id' = hs_history s kind' id'.
Proof. intros Hne. unfold put_history, set_history. simpl. rewrite bool_decide_false; [done|]. naive_solver. Qed.

Lemma enqueue_prepares now at_ a c c' s job : in_transaction c = true → keeps (live c) s → enqueue_body now at_ a c = (c', Ok job) →
  prepared now a (live c) s (live c') job.
Proof.
  intros Hc Hs Hrun. unfold Cell.enqueue_body in Hrun. apply bind_inv in Hrun as (pid & c1 & [= <- _] & Hrun).
  apply bind_inv in Hrun as (op & c1 & [= <- _] & Hrun). apply bind_inv in Hrun as (current & c1 & Hread & Hrun).
  assert (c1 = c ∧ current = last (hs_history s PROPOSAL pid)) as [-> ->].
  { change (read tenant_id true PROPOSAL pid c) with (c, read_row tenant_id PROPOSAL pid (live c)) in Hread. rewrite (read_keeps _ s) in Hread by done.
    by injection Hread as <- <-. }
  apply bind_inv in Hrun as ([id p] & c1 & [= <- Hp] & Hrun). cbn [fst snd] in Hrun.
  destruct (calendar_proposal_found _ _ _ Hp) as (r & Hl & Hid & Hkind & Hpid & _). rewrite Hl in Hp. apply bind_inv in Hrun as (st & c1 & Happ & Hrun).
  destruct (cell_approve_run _ _ _ _ _ _ Hc Happ) as (_ & Hval & keys & ->). apply bind_inv in Hrun as (u & c2 & Htr & Hrun). set (ctx := {| tc_actor := _ |}) in *.
  pose proof (keeps_keyed c keys s Hs) as Hk1. assert (pid = id) as ->.
  { pose proof (kp_stored _ _ Hs PROPOSAL pid) as Hst. rewrite Forall_forall in Hst. destruct (Hst r (last_Some_elem_of _ _ Hl)) as (_ & Hri & _). congruence. }
  destruct (op_run (OpTransition PROPOSAL id "approved" ctx) (keyed c keys) c2 u s Hc Hk1 eq_refl Htr) as (s2 & Hs2 & Hk2 & Ho2 & Hin2 & _).
  simpl in Hs2. rewrite Hl in Hs2. injection Hs2 as <-. apply bind_inv in Hrun as (u' & c3 & Henq & [= <- <-]).
  unfold enqueue in Henq. apply bind_inv in Henq as (u1 & c4 & [= <- _] & Henq). apply bind_inv in Henq as (u2 & c4 & [= <- _] & Henq).
  unfold domain_transaction in Henq. rewrite Hin2 in Henq. set (job := new_job op id p a) in *.
  destruct ((sealing_job tenant_id urandom job insert_job ≫= λ _, create true (queued_execution job ctx) ctx) c2) as [c5 [v|]] eqn:Hbody; [|done].
  injection Henq as -> ->. apply bind_inv in Hbody as (u3 & c6 & Hseal & Hcre).
  unfold sealing_job, sealing in Hseal. apply execute_inv in Hseal as (db6 & Hins & ->).
  assert (keeps db6 (put_history s PROPOSAL id (hs_history s PROPOSAL id ++ [Domain.with_state r "approved"])) ∧ cb_devices db6 = cb_devices (live c2)) as [Hk6 Hd6].
  { unfold insert_job in Hins. repeat case_match; simplify_eq. split; [|done]. by eapply keeps_frame. }
  destruct (op_run (OpCreate (queued_execution job ctx) ctx) (Connection db6 (durable c2) (in_transaction c2)) c3 u' _ Hin2 Hk6 (queued_execution_fine job ctx eq_refl) Hcre)
    as (s7 & Hs7 & Hk7 & (_ & _ & Hd7) & _).
  simpl in Hs7. repeat case_match; simplify_eq. split; [|done|].
  - exists r, p. split_and!; [done..|]. eexists. split; [exact Hk7|]. split.
    + change (Domain.record_kind (queued_execution job ctx)) with EXECUTION. rewrite put_history_other by done. rewrite put_history_same. by rewrite last_snoc.
    + change (Domain.record_kind (queued_execution job ctx)) with EXECUTION. change (Domain.record_id (queued_execution job ctx)) with (pj_operation_id job).
      rewrite put_history_same. by eexists.
  - simpl in Hd7. rewrite Hd7, Hd6. by destruct Ho2 as (_ & _ & ->).
Qed.

Lemma save_runs j ctx c s o : in_transaction c = true → keeps (live c) s → holds tenant_id (live c) o → is_Some (ob_jobs o !! pj_operation_id j) →
  status_value (pj_status j) ∈ OUTBOX_STATUSES → plain_time (tc_occurred_at ctx) = true → is_Some (last (hs_history s EXECUTION (pj_operation_id j))) →
  ∃ db s', _save hmac audit_key tenant_id urandom true j ctx c = (Connection db (durable c) true, Ok tt) ∧ keeps db s'
    ∧ (∀ id, hs_history s' PROPOSAL id = hs_history s PROPOSAL id) ∧ cb_devices db = cb_devices (live c).
Proof.
  intros Hc Hs Ho [j0 Hj] Hst Hp [r Hr]. pose proof (ho_jobs _ _ _ Ho (pj_operation_id j)) as Hrow. rewrite Hj in Hrow. destruct Hrow as (_ & env & Hrow & _).
  assert (∃ db1, sealing_job tenant_id urandom j update_job c = (Connection db1 (durable c) true, Ok tt) ∧ keeps db1 s ∧ cb_devices db1 = cb_devices (live c))
    as (db1 & Hseal & Hk1 & Hd1).
  { unfold sealing_job, sealing, execute, update_job. rewrite Hrow. simpl fst. rewrite bool_decide_true by done. simpl negb. cbv iota. rewrite Hc.
    eexists. split; [done|]. split; [|done]. by eapply keeps_frame. }
  destruct (op_runs (OpTransition EXECUTION (pj_operation_id j) (status_value (pj_status j)) ctx) (Connection db1 (durable c) true) s
    (put_history s EXECUTION (pj_operation_id j) (hs_history s EXECUTION (pj_operation_id j) ++ [Domain.with_state r (status_value (pj_status j))])) eq_refl Hk1 Hp)
    as (db & Htr & Hk & Hoth).
  { simpl. rewrite Hr. by destruct (pj_status j). }
  eexists db, _. split_and!; [|exact Hk|intros id; by apply put_history_other|].
  - unfold _save, domain_transaction. rewrite Hc, bind_run, Hseal. cbn [cell_op durable] in Htr. by rewrite Htr.
  - destruct Hoth as (_ & _ & ->). done.
Qed.

(** The only queued job is claimed. *)
Lemma claim_runs token at_ c s o j : in_transaction c = true → keeps (live c) s → holds tenant_id (live c) o →
  jobs_in queued (live c) = [pj_operation_id j] → ob_jobs o !! pj_operation_id j = Some j → at_ < pj_authorized_until j →
  is_Some (last (hs_history s EXECUTION (pj_operation_id j))) →
  ∃ db s', claim hmac audit_key tenant_id urandom true token (claim_context at_) CLAIM_DURATION c
           = (Connection db (durable c) true, Ok (Some (claimed_job j token at_ CLAIM_DURATION)))
    ∧ keeps db s' ∧ (∀ id, hs_history s' PROPOSAL id = hs_history s PROPOSAL id) ∧ cb_devices db = cb_devices (live c).
Proof.
  intros Hc Hs Ho Hids Hj Hlt Hr. set (cj := claimed_job j token at_ CLAIM_DURATION).
  destruct (save_runs cj (claim_context at_) c s o Hc Hs Ho) as (db & s' & Hsave & Hk & Hh & Hd); [by eexists|unfold OUTBOX_STATUSES; set_solver|done|done|].
  exists db, s'. split_and!; [|done..].
  change (claim_first hmac audit_key tenant_id urandom true (jobs_in queued (live c)) token (claim_context at_) CLAIM_DURATION c
          = (Connection db (durable c) true, Ok (Some cj))).
  rewrite Hids. cbn [claim_first]. rewrite bind_run.
  change (read_job tenant_id true (pj_operation_id j) c) with (c, read_job_row tenant_id (pj_operation_id j) (live c)).
  rewrite (read_holds _ _ o) by done. rewrite Hj. change (utc (tc_occurred_at (claim_context at_))) with (at_ - 0). rewrite Z.sub_0_r.
  destruct (Z.leb_spec (pj_authorized_until j) at_); [lia|]. rewrite bind_run. fold cj. by rewrite Hsave.
Qed.

Lemma registry_device db db' id : cb_devices db' = cb_devices db → device parse_device (registry db') id = device parse_device (registry db) id.
Proof. intros Hd. unfold device, registry. simpl. unfold load_device. by rewrite Hd. Qed.
(** The approval is as valid for the claimed job as it was for the proposal, at any time it covers. *)
Lemma validity_carries now now' db db' p a j : validate_approval now (registry db) p a default_approval_matrix = Ok tt → cb_devices db' = cb_devices db →
  pj_approval j = a → pj_payload j = pr_payload p → pr_proposal_id p = uuid_str (pj_proposal_id j) → pr_action_class p = CALENDAR_APPLY →
  fa_issued_at (ap_fact a) ≤ now' < fa_expires_at (ap_fact a) →
  validate_approval now' (registry db') (claimed_proposal j) (pj_approval j) default_approval_matrix = Ok tt.
Proof.
  intros [Hr Hpid Hpay _ Hdev]%validate_approval_ok Hd -> Hpl Hid Hcls Ht. rewrite Hcls in Hr. apply validate_approval_ok.
  split; [done|by simpl; rewrite <- Hid|by simpl; rewrite Hpl|done|].
  intros Hsig. specialize (Hdev Hsig). unfold signed_by_device in *. destruct Hdev as (d & dev & key & ? & Hact & ? & Hver). exists d, dev, key. split_and!; [done| |done|].
  - unfold require_active_device in *. by rewrite (registry_device db db').
  - by rewrite Hcls in Hver.
Qed.

Lemma unit_inv {A} (body : M A) st st' x : resting st → unit_of_work body st = (st', Ok x) →
  ∃ c, body (Connection (contents st) (contents st) true) = (c, Ok x) ∧ st' = {| ps_connection := commit c; ps_active := false |}.
Proof.
  intros (Ha & Hin & Hd) Hrun. destruct st as [[l d b] act]. unfold contents. simpl in *. subst. unfold Cell.unit_of_work in Hrun. simpl in Hrun.
  destruct (domain_transaction _ _) as [c' r] eqn:Htx. injection Hrun as <- ->. apply domain_transaction_inv in Htx as (c1 & Hbody & ->); [|done].
  apply bind_inv in Hbody as (u1 & c2 & [= <- _] & Hbody). apply bind_inv in Hbody as (u2 & c3 & [= <- _] & Hbody). by exists c1.
Qed.
Lemma singleton_list (l : list uuid) x : NoDup l → (∀ y, y ∈ l ↔ y = x) → l = [x].
Proof.
  intros Hnd Hl. destruct l as [|y [|z l]]; [by pose proof (proj2 (Hl x) eq_refl) as []%elem_of_nil| |].
  - f_equal. apply Hl. set_solver.
  - apply NoDup_cons in Hnd as [Hni _]. assert (y = x) as -> by (apply Hl; set_solver). assert (z = x) as -> by (apply Hl; set_solver). set_solver.
Qed.

(** The stored proposal in its new state is what the job was queued for. *)
Lemma approved_matches r id p j : calendar_proposal (Some r) = Ok (id, p) → pj_payload j = pr_payload p →
  stored_matches j (Some (Domain.with_state r "approved")) = true.
Proof.
  intros Hp Hpl. unfold calendar_proposal in Hp. unfold stored_matches. change (Domain.dr_variant (Domain.with_state r "approved")) with (Domain.dr_variant r).
  destruct (Domain.dr_variant r); try done. destruct (String.eqb (Domain.pf_proposal_type fields) CALENDAR_APPLY); [|done]. simpl in Hp.
  destruct (proposal_state_of _); [|done]. injection Hp as _ <-. rewrite Hpl. simpl. by rewrite String.eqb_refl.
Qed.

Lemma claim_body_runs at_ clock tokens c s o now a db0 s0 job : in_transaction c = true → keeps (live c) s → holds tenant_id (live c) o →
  jobs_in queued (live c) = [pj_operation_id job] → ob_jobs o !! pj_operation_id job = Some job → prepared now a db0 s0 (live c) job →
  at_ < fa_expires_at (ap_fact a) → fa_issued_at (ap_fact a) ≤ clock 0%nat < fa_expires_at (ap_fact a) →
  ∃ c', claim_body at_ clock tokens c = (c', Ok (Some (claimed_job job (tokens 0%nat) at_ CLAIM_DURATION))) ∧ in_transaction c' = true ∧ durable c' = durable c.
Proof.
  intros Hc Hs Ho Hids Hjob [(r & p & Hcal & Hpl & Hpid & Hval & s1 & Hk1 & Hprop & Hexec) (Happ & Hun & _) Hdev] Hat Hclock.
  destruct (claim_runs (tokens 0%nat) at_ c s1 o job Hc Hk1 Ho Hids Hjob ltac:(lia) Hexec) as (db & s2 & Hclaim & Hk2 & Hh2 & Hd2).
  set (cj := claimed_job job (tokens 0%nat) at_ CLAIM_DURATION) in *. exists (Connection db (durable c) true). split_and!; [|done..].
  assert (claim_body at_ clock tokens c = claim_rounds (S (length (jobs_in queued (live c)))) 0 at_ clock tokens c) as -> by done.
  cbn [Cell.claim_rounds]. rewrite bind_run, Hclaim, bind_run.
  change (read tenant_id true PROPOSAL (pj_proposal_id cj) (Connection db (durable c) true))
    with (Connection db (durable c) true, read_row tenant_id PROPOSAL (pj_proposal_id job) db).
  rewrite (read_keeps db s2), Hh2, Hprop by done. rewrite bind_run. unfold query, still_valid. cbn [live].
  rewrite (approved_matches r (pj_proposal_id job) p) by done. destruct (calendar_proposal_found _ _ _ Hcal) as (_ & _ & _ & _ & _ & Hcls).
  pose proof (validity_carries now (clock 0%nat) db0 db p a cj Hval ltac:(congruence) Happ Hpl Hpid Hcls Hclock) as Hv. unfold registered in Hv. by rewrite Hv.
Qed.

(** C15. An approved job reaches a worker: on a cell used through its service with an empty
    queue, once an approval has returned, the next claim at a time the approval covers
    returns its job, bound to that approval, running and held by the claim's own token;
    nothing in storage, sealing or the audit chain can make it fail. *)
Theorem approved_job_reaches_worker trace st now at_ a st1 job at' clock tokens :
  service_history trace st → jobs_in queued (contents st) = [] → approve_and_enqueue_calendar now at_ a st = (st1, Ok job) →
  at' < fa_expires_at (ap_fact a) → fa_issued_at (ap_fact a) ≤ clock 0%nat < fa_expires_at (ap_fact a) →
  ∃ st2 job', claim_verified_calendar at' clock tokens st1 = (st2, Ok (Some job')) ∧ bound job job' ∧ pj_approval job' = a
    ∧ pj_status job' = running ∧ pj_claim_token job' = Some (tokens 0%nat).
Proof.
  intros Hsh Hempty Hrun Hat Hclock. destruct (service_whole trace st Hsh) as [Hr [s Hs]].
  destruct (history_tracks hmac audit_key tenant_id urandom uuid5 parse_device sha256 dump_datetime public_key_ok ed25519_verify trace st (service_is_history _ _ Hsh))
    as [o Ht]. pose proof (unit_spec hmac audit_key tenant_id _ st o _ (tk_rest _ _ _ _ Ht) (tk_holds _ _ _ _ Ht)
    (enqueue_body_spec hmac audit_key tenant_id urandom uuid5 parse_device sha256 dump_datetime public_key_ok ed25519_verify now at_ a o)) as Hu.
  unfold Cell.approve_and_enqueue_calendar in Hrun. rewrite Hrun in Hu. destruct Hu as (Hr1 & o1 & Ho1 & Hen).
  apply (unit_inv _ st st1 job Hr) in Hrun as (c1 & Hbody & ->). apply (enqueue_prepares _ _ _ _ _ s) in Hbody as Hprep; [|done|done].
  destruct Hen as (p & Hjob & _ & _ & Hnone & Ho1eq). unfold contents in *. cbn [ps_connection commit live] in *.
  assert (jobs_in queued (live c1) = [pj_operation_id job]) as Hids.
  { apply singleton_list; [apply (jobs_in_queued tenant_id _ o1 Ho1)|]. intros y. rewrite (queued_elem tenant_id _ o1 y Ho1), Ho1eq. simpl. split.
    - intros (j & [[<- _]|[Hne Hl]]%lookup_insert_Some & Hq); [done|]. exfalso. pose proof (proj2 (queued_elem tenant_id _ o y (tk_holds _ _ _ _ Ht)) (ex_intro _ j (conj Hl Hq))) as Hin.
      unfold contents in Hin. rewrite Hempty in Hin. by apply elem_of_nil in Hin.
    - intros ->. exists job. rewrite lookup_insert_eq. split; [done|]. by rewrite Hjob. }
  pose proof Hprep as [(r0 & p0 & _ & _ & _ & _ & s1 & Hk1 & _) _ _].
  destruct (claim_body_runs at' clock tokens (Connection (live c1) (live c1) true) s1 o1 now a (live (ps_connection st)) s job eq_refl Hk1 Ho1 Hids) as (c2 & Hclaim & Hin2 & Hd2); [|done..|].
  { rewrite Ho1eq. simpl. by rewrite lookup_insert_eq. }
  eexists _, (claimed_job job (tokens 0%nat) at' CLAIM_DURATION). split; [|split_and!; [done|by rewrite Hjob|done..]].
  unfold Cell.claim_verified_calendar, Cell.unit_of_work. cbn [ps_active ps_connection]. unfold commit, domain_transaction. cbn [in_transaction].
  unfold begin_immediate. cbn [live durable]. rewrite bind_run. unfold query. cbn [live]. destruct (verify_keeps _ s1 Hk1) as [Hv ->]. rewrite bind_run.
  cbn [live]. destruct (_verify_audit_chain hmac audit_key (live c1)); [|done]. by rewrite Hclaim.
Qed.
End records.

(** ** A concrete cell *)

Module CellDemo.
#[local] Existing Instances DomainText.codec DomainText.laws.

(** An envelope shows its associated data in front of the text. *)
Fixpoint after (p s : string) : option string :=
  match p, s with
  | EmptyString, _ => Some s
  | String a p, String b s => if Ascii.eqb a b then after p s else None
  | _, EmptyString => None
  end.
Lemma after_iff p s r : after p s = Some r ↔ s = p +:+ r.
Proof.
  revert s. induction p as [|a p IH]; intros s; [simpl; naive_solver|]. destruct s as [|b s]; [done|]. simpl.
  destruct (Ascii.eqb_spec a b) as [->|Hne]; [|split; [done|intros [= ->]; done]]. rewrite IH. split; [by intros ->|by intros [= ->]].
Qed.
#[local] Instance clear_cipher : AeadCipher := {
  aead_seal _ text data := json_string data +:+ text;
  aead_open envelope data := after (json_string data) envelope;
}.
#[local] Instance clear_laws : AeadLaws.
Proof.
  split; unfold aead_open, aead_seal, clear_cipher.
  - intros _ text data. by apply after_iff.
  - intros _ text data data' Hne. destruct (after _ _) as [r|] eqn:Ha; [|done]. apply after_iff in Ha. by apply json_string_inj in Ha as [-> _].
Qed.

(** Texts that stand in for JSON. *)
#[local] Instance kind_countable : Countable RecordKind.
Proof.
  refine (inj_countable kind_value
    (λ v, List.find (λ k, String.eqb (kind_value k) v)
       [IDENTITY; CONNECTOR; CAPABILITY; SOURCE_ITEM; NORMALIZED_FACT; TASK; EVENT; PROPOSAL; APPROVAL; EXECUTION; ENERGY_CHECK_IN; GOAL; PATTERN_SNAPSHOT; CONSENT_RECORD]) _).
  by intros [].
Defined.
#[local] Instance AuditEntry_eq_dec : EqDecision AuditEntry.
Proof. solve_decision. Defined.
#[local] Instance AuditEntry_countable : Countable AuditEntry.
Proof.
  refine (inj_countable (λ r, [encode (ae_sequence r); encode (ae_occurred_at r); encode (ae_action_class r); encode (ae_record_kind r); encode (ae_record_id r); encode (ae_actor r); encode (ae_correlation_id r); encode (ae_source_fingerprint r); encode (ae_action_metadata r); encode (ae_previous_hash r); encode (ae_entry_hash r)])
    (λ l, match l with
          | [x0; x1; x2; x3; x4; x5; x6; x7; x8; x9; x10] => x0 ← decode x0; x1 ← decode x1; x2 ← decode x2; x3 ← decode x3; x4 ← decode x4; x5 ← decode x5; x6 ← decode x6; x7 ← decode x7; x8 ← decode x8; x9 ← decode x9; x10 ← decode x10; Some (Build_AuditEntry x0 x1 x2 x3 x4 x5 x6 x7 x8 x9 x10)
          | _ => None
          end) _).
  intros []. cbv beta iota. by rewrite !decode_encode.
Defined.
#[local] Instance proof_countable : Countable ApprovalProof.
Proof.
  refine (inj_countable' (λ p, match p with NO_PROOF => 0%nat | DEVICE_SIGNED => 1%nat | VOICE => 2%nat end)
    (λ n, match n with O => NO_PROOF | 1%nat => DEVICE_SIGNED | _ => VOICE end) _). by intros [].
Defined.
#[local] Instance kind_of_approval_countable : Countable ApprovalKind.
Proof.
  refine (inj_countable' (λ k, match k with OrdinaryApproval => true | ResetRequest => false end) (λ b : bool, if b then OrdinaryApproval else ResetRequest) _).
  by intros [].
Defined.
#[local] Instance status_countable : Countable JobStatus.
Proof.
  refine (inj_countable status_value
    (λ v, List.find (λ s, String.eqb (status_value s) v) [queued; running; uncertain; needs_reconciliation; succeeded; cancelled; expired]) _). by intros [].
Defined.
#[local] Instance fact_eq_dec : EqDecision PayloadBoundFact.
Proof. solve_decision. Defined.
#[local] Instance fact_countable : Countable PayloadBoundFact.
Proof.
  refine (inj_countable (λ r, [encode (fa_fact_id r); encode (fa_proposal_id r); encode (fa_payload_hash r); encode (fa_issued_at r); encode (fa_expires_at r); encode (fa_idempotency_key r); encode (fa_actor r); encode (fa_correlation_id r)])
    (λ l, match l with
          | [x0; x1; x2; x3; x4; x5; x6; x7] => x0 ← decode x0; x1 ← decode x1; x2 ← decode x2; x3 ← decode x3; x4 ← decode x4; x5 ← decode x5; x6 ← decode x6; x7 ← decode x7; Some (Build_PayloadBoundFact x0 x1 x2 x3 x4 x5 x6 x7)
          | _ => None
          end) _).
  intros []. cbv beta iota. by rewrite !decode_encode.
Defined.
#[local] Instance approval_eq_dec : EqDecision Approval.
Proof. solve_decision. Defined.
#[local] Instance approval_countable : Countable Approval.
Proof.
  refine (inj_countable (λ r, [encode (ap_fact r); encode (ap_proof r); encode (ap_device_id r); encode (ap_signature r); encode (ap_kind r)])
    (λ l, match l with
          | [x0; x1; x2; x3; x4] => x0 ← decode x0; x1 ← decode x1; x2 ← decode x2; x3 ← decode x3; x4 ← decode x4; Some (Build_Approval x0 x1 x2 x3 x4)
          | _ => None
          end) _).
  intros []. cbv beta iota. by rewrite !decode_encode.
Defined.
#[local] Instance job_eq_dec : EqDecision PendingCalendarOperation.
Proof. solve_decision. Defined.
#[local] Instance job_countable : Countable PendingCalendarOperation.
Proof.
  refine (inj_countable (λ r, [encode (pj_operation_id r); encode (pj_proposal_id r); encode (pj_payload r); encode (pj_approval r); encode (pj_authorized_until r); encode (pj_status r); encode (pj_claim_token r); encode (pj_claim_deadline r); encode (pj_result_reference r)])
    (λ l, match l with
          | [x0; x1; x2; x3; x4; x5; x6; x7; x8] => x0 ← decode x0; x1 ← decode x1; x2 ← decode x2; x3 ← decode x3; x4 ← decode x4; x5 ← decode x5; x6 ← decode x6; x7 ← decode x7; x8 ← decode x8; Some (Build_PendingCalendarOperation x0 x1 x2 x3 x4 x5 x6 x7 x8)
          | _ => None
          end) _).
  intros []. cbv beta iota. by rewrite !decode_encode.
Defined.
#[local] Instance cell_codec : CellCodec := {
  dump_entry := encode_text; parse_entry := decode_text; dump_job := encode_text; parse_job := decode_text;
  dump_tombstone t := uuid_str (to_record_id t);
}.
#[local] Instance cell_codec_laws : CellCodecLaws.
Proof. split; intros; apply decode_encode_text. Qed.

Definition tenant : uuid := 7.
Definition nonce (_ : cell_db) : string := "".
(** The phone signs with one letter. *)
Definition checks (_ signature _ : string) : bool := String.eqb signature "s".
Definition derived (_ : uuid) (text : string) : uuid := Z.of_nat (String.length text).
Abbreviation obey := (obey Cabinet.mac "k" tenant nonce derived decode_text Desk.hash pretty (λ _, true) checks).
Abbreviation approve_and_enqueue := (approve_and_enqueue_calendar Cabinet.mac "k" tenant nonce derived decode_text Desk.hash pretty (λ _, true) checks).
Abbreviation claim_verified := (claim_verified_calendar Cabinet.mac "k" tenant nonce derived decode_text Desk.hash pretty (λ _, true) checks).

Definition ctx (n : Z) : TransitionContext := {| tc_actor := "owner"; tc_correlation_id := "c"; tc_occurred_at := utc_datetime n |}.
Definition proposal : Domain.DomainRecord :=
  {| Domain.dr_base := {| Domain.rb_record_id := 77; Domain.rb_created_at := utc_datetime 1; Domain.rb_state := "proposed" |};
     Domain.dr_variant := Domain.Proposal {| Domain.pf_proposal_type := "calendar.apply"; Domain.pf_payload := "move"; Domain.pf_policy_decision := "{}";
       Domain.pf_provider_version := "v1"; Domain.pf_reversible := true; Domain.pf_approval_state := "proposed" |} |}.
Definition phone : Device := new_device "phone" "fp1" "owner" (Some "0a") 1.
Definition fact (n : Z) : PayloadBoundFact :=
  {| fa_fact_id := uuid_str n; fa_proposal_id := uuid_str 77; fa_payload_hash := "#move"; fa_issued_at := 2; fa_expires_at := 900000000;
     fa_idempotency_key := "key" +:+ pretty n; fa_actor := "owner"; fa_correlation_id := "c" |}.
Definition signed (n : Z) : Approval :=
  {| ap_fact := fact n; ap_proof := DEVICE_SIGNED; ap_device_id := Some "phone"; ap_signature := tohex "s"; ap_kind := OrdinaryApproval |}.

Definition fresh : PostgresStateStore := {| ps_connection := Connection (first_cell tenant) (first_cell tenant) false; ps_active := false |}.
Definition enrolled : PostgresStateStore := (obey (EnrollDevice "phone" "fp1" (encode_text phone)) fresh).1.
Definition ready : PostgresStateStore := (obey (CreateRecord proposal (ctx 2)) enrolled).1.
Definition status_of (id : uuid) (st : PostgresStateStore) : option string := fst <$> cb_outbox (contents st) !! id.

Definition is_some_ok {E A : Type} (r : result E (option A)) : bool := match r with Ok (Some _) => true | _ => false end.
Lemma cell_runs :
  let r1 := approve_and_enqueue 5 6 (signed 500) ready in
  let r2 := claim_verified 7 (λ _, 8) (λ _, 900) r1.1 in
  (jobs_in queued (contents ready), is_ok r1.2, is_some_ok r2.2) = ([], true, true).
Proof. vm_compute. reflexivity. Qed.

Abbreviation service_history := (service_history Cabinet.mac "k" tenant nonce derived decode_text Desk.hash pretty (λ _, true) checks).
Lemma fresh_provisioned : provisioned Cabinet.mac "k" tenant fresh.
Proof.
  exists (Connection empty_cell empty_cell false), (ps_connection fresh).
  destruct (provision_run Cabinet.mac "k" tenant (Connection empty_cell empty_cell false) eq_refl eq_refl eq_refl) as [Hp Hc]. by split_and!.
Qed.
Lemma ready_history : ∃ trace, service_history trace ready.
Proof.
  eexists. unfold ready. apply service_command; [|reflexivity]. unfold enrolled. apply service_command; [|reflexivity].
  apply service_provisioned, fresh_provisioned.
Qed.

(** One approval and one claim, as a scene of opaque states. *)
Lemma scene : ∃ trace st st1 job st2 job', service_history trace st ∧ jobs_in queued (contents st) = []
  ∧ approve_and_enqueue 5 6 (signed 500) st = (st1, Ok job) ∧ claim_verified 7 (λ _, 8) (λ _, 900) st1 = (st2, Ok (Some job')).
Proof.
  destruct ready_history as [trace Hh]. pose proof cell_runs as Hr. cbv zeta in Hr. revert Hh Hr. generalize ready. intros st Hh Hr. exists trace, st.
  destruct (approve_and_enqueue 5 6 (signed 500) st) as [st1 r1]. cbn [fst snd] in Hr. destruct (claim_verified 7 (λ _, 8) (λ _, 900) st1) as [st2 r2] eqn:Hc.
  cbn [snd] in Hr. injection Hr as Hq Ho1 Ho2. destruct r1 as [job|]; [|done]. destruct r2 as [[job'|]|]; try done. exists st1, job, st2, job'. by split_and!.
Qed.

Lemma approved_job_reaches_worker_witness :
  ∃ trace st st1 st2 job', service_history trace st ∧ claim_verified 7 (λ _, 8) (λ _, 900) st1 = (st2, Ok (Some job'))
    ∧ pj_approval job' = signed 500 ∧ pj_claim_token job' = Some 900.
Proof.
  destruct scene as (trace & st & st1 & job & _ & _ & Hh & Hq & Hap & _).
  destruct (approved_job_reaches_worker Cabinet.mac "k" tenant nonce derived decode_text Desk.hash pretty (λ _, true) checks trace st 5 6 (signed 500) st1 job 7
    (λ _, 8) (λ _, 900) Hh Hq Hap) as (st2 & job' & Hcl & _ & Ha & _ & Ht); [vm_compute; reflexivity|vm_compute; split; congruence|].
  exists trace, st, st1, st2, job'. split_and!; assumption.
Defined.

Lemma approved_work_handed_out_once_witness :
  ∃ (trace : list answer) st1 st2 job, claim_verified 7 (λ _, 8) (λ _, 900) st1 = (st2, Ok (Some job)) ∧ (∃ job0, Enqueued job0 ∈ trace ∧ bound job0 job)
    ∧ may_run Cabinet.mac "k" tenant nonce derived decode_text Desk.hash pretty (λ _, true) checks 8 job (contents st2).
Proof.
  destruct scene as (trace & st & st1 & job0 & st2 & job & Hh & _ & Hap & Hcl). apply service_is_history in Hh.
  pose proof (history_command _ _ _ _ _ _ _ _ _ _ _ _ (Approve 5 6 (signed 500)) Hh) as Hh'. cbn [CellSpec.obey answering fst snd] in Hh'.
  rewrite Hap in Hh'. cbn [fst snd] in Hh'.
  destruct (approved_work_handed_out_once Cabinet.mac "k" tenant nonce derived decode_text Desk.hash pretty (λ _, true) checks _ st1 7 (λ _, 8) (λ _, 900) st2 job Hh' Hcl)
    as (Hen & _ & [k Hrun] & _).
  eexists _, st1, st2, job. split_and!; [assumption|exact Hen|exact Hrun].
Defined.

(** *** Where the cell departs from its documentation *)

(** A claim that timed out stays: recovery raises, the job is still running, its own worker
    can no longer complete it. *)
Theorem timed_out_job_stays_running :
  let st := (claim_verified 7 (λ _, 8) (λ _, 900) (approve_and_enqueue 5 6 (signed 500) ready).1).1 in
  let recovered := unit_of_work Cabinet.mac "k" tenant (recover Cabinet.mac "k" tenant nonce true (ctx 800000000)) st in
  let completed := unit_of_work Cabinet.mac "k" tenant (complete Cabinet.mac "k" tenant nonce true 500 900 "done" (ctx 800000000)) recovered.1 in
  recovered.2 = Err CheckViolation ∧ completed.2 = Err (CellValueError "stale or invalid job claim") ∧ status_of 500 completed.1 = Some "running".
Proof. split_and!; vm_compute; reflexivity. Qed.

(** The identifier of a deleted record is taken again, under another kind; the SQLCipher
    repository refuses it. *)
Theorem deleted_identity_reused :
  let ops := [OpCreate (Cabinet.task 1) (ctx 3); OpDeleteRecord TASK 1 (ctx 4)] in
  (cell_perform Cabinet.mac "k" tenant nonce (OpCreate (Cabinet.goal 1) (ctx 5)) (cell_run Cabinet.mac "k" tenant nonce ops fresh)).2 = Ok tt
  ∧ is_ok (Cabinet.perform (OpCreate (Cabinet.goal 1) (ctx 5)) (Cabinet.run ops Cabinet.empty)).2 = false.
Proof. split; vm_compute; reflexivity. Qed.
End CellDemo.
